(* ===== verification/_CoqProject ===== *)
-Q . S2P
Prelude.v
Enums.v
Text.v
Cobs.v
Crc.v
Protocol.v
StateMachine.v
Effects.v
Io.v
Device.v
Sha256.v
Value.v
Json.v
JsonDump.v
OperationIdentity.v
Firmware.v
Compatibility.v
SystemUpdate.v
SystemUpdateBuild.v
SystemUpdateTransport.v
Files.v
DeviceInfo.v
SessionOps.v
Ota.v
Session.v
ScreenFrames.v
SessionProps.v
Migrations.v
Store.v
StoreProps.v
Observability.v
Security.v
Runtime.v
Address.v
Startup.v
DemoFiles.v
Workflow.v
Calls.v
Uuid.v
Reconciliation.v
ReconciliationProps.v
Coredump.v
OtaWorkflow.v
HubEvents.v
OtaWorkflowProps.v
SystemUpdateWorkflow.v
SystemUpdateWorkflowProps.v
Service.v
Maintenance.v
MaintenanceAcquire.v
MaintenanceFinish.v
Media.v
Http.v
HttpState.v
HttpDevice.v
FileRoutes.v
FileRoutesProps.v
Routes.v
OpenApi.v
GatewayEvents.v
HttpCalls.v
Submissions.v
HttpProps.v
Hub.v
HubProps.v
HubContract.v
Discovery.v
Lock.v
Link.v
HubInput.v
HubMedia.v
HubMediaProps.v
HubMediaShots.v
HubMediaExamples.v
Operations.v
OperationsProps.v
OperationsExclusion.v
OperationsOutcome.v
OperationsExamples.v
RequestIdentity.v
