(* ===== verification/Prelude.v ===== *)
(** * ESP-Iris Gateway: verification of the gateway core

    ** The program

    ESP-Iris connects a development host to ESP32 devices.  The gateway (Python,
    under src/components/esp_iris/tools/iris_gateway/; file names below are
    relative to it) speaks a framed binary protocol with each device and offers
    its services - remote calls, files, screens, updates - to developers and
    agents, with a durable record of every operation.  The layers, bottom up:

    - frames: protocol.py packs messages into CRC-protected, COBS-delimited
      frames and unpacks a byte stream again;
    - the session: session.py reads the stream of one device, authenticates
      it, keeps sequence numbers and credits, and matches answers to requests;
    - services over a session: status, calls, jobs, screens, crash reports and
      application updates (session.py), files (files.py), whole-system updates
      (system_update.py, system_update_transport.py);
    - the gateway's own state: store.py over SQLite with migrations.py,
      operation_identity.py, observability.py, security.py;
    - operations.py, which runs every request of a user as a recorded operation,
      one at a time on each device;
    - link.py, the serial port of a session;
    - hub.py, which keeps a supervisor for every endpoint, registers the ready
      devices, distributes their events and media and sends them gestures;
      discovery.py and mdns_discovery.py, which find devices for it;
    - gateway.py and its workflows: closed-loop updates and restarts, core
      dumps, maintenance leases, system_update_workflow.py, reconciliation.py;
    - the HTTP application (gateway.py, file_routes.py, http_support.py), which
      authenticates a request, submits what it asks for as an operation and
      answers in JSON, screens as PNG (media.py); openapi_contract.py describes
      it;
    - cli.py, which starts the gateway on what the last process left; demo.py, a
      hub without devices to try the interface on.

    ** The files and what they model

    - [Prelude] (this file): Python exceptions with their class hierarchy, the
      [res] error monad, bytes and fixed-width integers; [Enums] the protocol's
      enumerations; [Text] UTF-8, hexadecimal, base64 and string methods; [Value] JSON
      values and dictionaries; [Json] [json.loads]; [JsonDump] [json.dumps] and
      its round trip; [Sha256] SHA-256 and HMAC; [Lock] [asyncio.Lock].
    - [Cobs], [Crc], [Protocol]: protocol.py, with the incremental decoder.
    - [StateMachine]: state_machine.py, the transition tables.
    - [Io], [Device]: the effects of an operation on a device as a monad over a
      script of replies, timeouts and other exceptions, its logic, and the
      lossy link to a conforming device.
    - [DeviceInfo]: DeviceInfo, HELLO and boot_identity.py; [SessionOps]: the
      request/response operations of session.py; [Ota]: its application update.
    - [Session]: the receive side of session.py.  [run] and its handlers are
      programs over the session record that suspend at each await; at every
      suspension the atomic steps of all other tasks ([action]) interleave in
      any order.  [SessionProps]: its properties.
    - [Firmware], [Compatibility], [SystemUpdate]: firmware.py, compatibility.py
      and the bundle loader; [SystemUpdateBuild]: the bundle builder;
      [SystemUpdateTransport]: the update transaction; [Files]: the file service.
    - [ScreenFrames]: how a screen is put together from the stripes of a media
      stream (session.py).  [Link]: the coroutines of the serial link, their
      threads and locks.
    - [OperationIdentity], [Migrations], [Store] with [StoreProps],
      [Observability], [Security]: the modules of the same names.  A table is
      the list of its rows, a method the statements it executes in order.
      [Startup]: the recovery of interrupted operations when the gateway starts
      (cli.py).
    - [Operations]: operations.py.  Each coroutine is a value that says at which
      await it is suspended; a function runs one from an await to the next, and
      [step] is the event loop's choice.  [OperationsProps] (records),
      [OperationsExclusion] (locks, progress), [OperationsOutcome] (calls and
      outcomes) prove its properties, [OperationsExamples] runs it.
    - [Effects], [Runtime], [Workflow]: the gateway's workflows as programs over
      a world - the store, the clock's progress and a script of what the hub, the
      operation manager and the clock answer - with a trace of what was asked,
      written and released, and the rules that follow the trace through a
      program.  [OtaWorkflow] and [Coredump] (gateway.py),
      [SystemUpdateWorkflow], [Reconciliation], [Service] (the device directory
      of gateway.py) and [Maintenance] (its leases) are such programs;
      [OtaWorkflowProps], [SystemUpdateWorkflowProps], [ReconciliationProps],
      [MaintenanceAcquire] and [MaintenanceFinish] their properties.  [Uuid]:
      version-5 UUIDs with SHA-1.
    - [Media]: media.py, the PNG encoder with its checksums.
    - [Http], [HttpState], [HttpDevice], [FileRoutes]: the HTTP application.  A
      handler is a program over the gateway - the world of the workflows, the
      sessions of browsers, the mode - that takes the actor and the request;
      [Routes] has the table of routes, the composition of middlewares and
      handler ([serve]) and the device calls that submissions carry
      ([perform]).  [Address]: the addresses of clients.  [Calls] is a logic of which calls a program makes, [HttpCalls] and
      [Submissions] what each handler may ask for, [HttpProps] who may do what,
      [RequestIdentity] what the identity of a request determines,
      [FileRoutesProps] byte ranges.
    - [HubEvents]: the event history and subscriber queues of hub.py.
    - [Hub]: its endpoints, supervisors and registered sessions; a function is
      what runs between two awaits, a supervisor a value that says at which one
      it is suspended.  [HubProps]: the event loop's steps and their invariant;
      [HubContract]: what the hub promises.  [Discovery]: the devices found
      on USB and announced by mDNS, and what the hub does with them.
    - [HubMedia]: mirrors and screenshots of hub.py, coroutines that share a lock
      per stream; [HubMediaProps] (the conversation with a device),
      [HubMediaShots] (answers), [HubMediaExamples].  [HubInput]: gestures.
    - [GatewayEvents]: the event sink of gateway.py and its subscribers' queues.
    - [OpenApi]: the API document, against the table of routes.
    - [DemoFiles]: the file service of the demo hub.

    Definitions keep the source's names, with its leading underscores; a helper
    that names a part of a function says so in its comment.

    ** What the theorems show

    - Operations: the call of an operation id is started at most once, in every
      interleaving and across restarts, and a returned result is on record
      ([call_once]); the lock of a device goes to the first of its queue, and a
      device whose maintenance is released only while active and restored only
      while it has no operations runs one serialized operation at a time, none
      during maintenance ([device_exclusive]), with a queue that is never stuck
      ([operations_progress]); records move only along the
      state machine and are frozen when finished ([operation_record_frozen]);
      each way a call can end is recorded for what it is
      ([call_outcome_recorded]).
    - Updates and uploads, as refinements: over a link that loses requests or
      answers, a returned update or upload has delivered exactly the image, the
      bundle or the file, once ([ota_update_delivers],
      [system_update_delivers], [upload_delivers]); a failing one cancels
      ([ota_update_cancels], [update_failure_cancels], [upload_settled]); loops
      end ([file_operations_terminate] and its like for updates).  A bundle that
      was built loads, and its plan writes what the template named
      ([build_delivers_template]).
    - Requests: nothing happens on a device without credentials, and every
      operation is submitted for the actor of the request, within its scopes
      and under an identity of its call ([request_access]); the same identity
      means the same call ([request_identity], [canonical_text_identifies]); in
      the observe mode nothing is submitted ([observe_mode_contacts]); a range
      selects the bytes it names, and exactly which headers are answered by 416
      ([file_range_selects]).  What the API document
      describes is served ([openapi_served]).
    - Sessions: requests and answers are matched and none is left waiting
      ([session_requests], [run_cleans_up]); frames are numbered without gaps
      and repeated ones ignored ([session_wire_order], [duplicate_ignored]);
      a device is ready only when authenticated ([ready_authenticated],
      [hello_identity], [auth_message_injective]); what has happened is never
      undone ([session_history], [session_lifecycle]).  A screen is returned
      only whole, from the stripes of one frame ([screen_frame_exact]); the
      serial port is used by one thread at a time each way and closed under none
      ([serial_link_exclusive]).
    - Workflows: an accepted update was written once by a checked writer, and a
      later boot reported the expected identity ([ota_accepted],
      [system_update_proved]); a contact that is lost from the write on becomes
      an unknown outcome ([ota_writes_once], [system_update_once]);
      reconciliation only reads and records what it judged
      ([reconciliation_sound]).
    - Maintenance: a failed acquisition opens the gate again and a granted lease
      rests on evidence read before ([maintenance_gate], [lease_evidence]); a
      completion ends with the gate open and the lease in the store as released,
      only when the device came back as required, as aborted, or as failed with
      the error it raises ([maintenance_finished]); nothing happens without the
      token ([lease_needs_token]).
    - The hub: a session is registered for one device and run by one supervisor,
      and an endpoint in maintenance has no task; in orderly runs - which the hub
      does not ensure: [SAdd], [SResume] and [SSupervise] of [step] say what they
      leave out - one supervisor is in charge of an endpoint and a registered
      device has a live session ([hub_supervision]); registration, loss and
      hand-over of a device with the three ways its old supervisor can end
      ([device_ready], [link_lost], [maintenance_handoff]); a subscriber sees the last events in order
      ([subscription_exact]).  An announcement never disturbs an endpoint that
      the user connected ([mdns_leaves_configured]), and a device found on USB is
      supervised ([discovered_supervised]).  A device's media streams are started
      and stopped in turn, in every interleaving, as an automaton of the
      conversation allows ([media_conversation]), and callers are told what
      happened ([media_replies_honest]); a gesture is sent as a press, moves and a
      release inside the screen ([gesture_messages]); an event reaches every
      subscriber of the gateway in order, with a mark where a slow one has lost
      some ([event_delivery]).
    - Frames: round trip, soundness on arbitrary bytes, detection of a changed
      byte, resynchronisation after a delimiter.
    - Bundles: only well-formed and, with a trust key, verified bundles are
      loaded; the layout check is its specification.
    - Pictures: an encoded screen decodes to its pixels ([raw_image_png]).
    - State: operation ids name one request ([operation_id_unique]); paging the event log misses nothing; one
      maintenance lease per device; tokens and passwords are accepted exactly
      while valid; where the migrations can be restarted; after a start no
      operation is left open and none is replayed ([recovery_settles]); raw logs
      stay within their age and size ([logs_retained]).
    - The demo hub's files are a tree, and each request changes exactly what it
      names, while uploads wait among other requests; which write of an upload
      loses the tree, and which requests avoid it ([demo_files_tree]).

    ** Choices

    Integers are [Z] with Python's unbounded arithmetic; fields of frames keep
    their width through [pack_uint] and the [u..._at] readers, and two's
    complement through [to_signed].  Strings are UTF-8 byte strings.  Floats
    are texts inside JSON and IEEE binary64 values ([SpecFloat]) in the metrics.
    Loops whose end depends on the device are run by [while] with a fuel that
    counts the events of the script that the loop can still consume; the
    termination theorems say that this fuel is never used up, for every script.
    Exceptions keep their class and the constant part of their message.

    Parameters of the model, because their code is not in the repository: the
    signature check of the cryptography library, [str()] of a container and
    [int()] of a value that is no integer, and the device.  What a device must
    do for the refinement theorems is a relation between its states, a request
    and its reply, which the witnesses instantiate with a concrete device.

    asyncio is modelled as CPython 3.12 documents it: nothing runs between two
    awaits, done callbacks run later, a ready coroutine runs once, and a
    cancelled await raises.  The classes of exceptions are those of CPython 3.11
    and later, where [asyncio.TimeoutError] is a subclass of [OSError]; compat.py
    supports 3.8 and later, and before 3.11 an [except] clause with [OSError]
    does not catch it.  What a callback given to [OperationManager] does
    - the device call, the event sink - is any result.

    ** Not modelled

    - aiohttp: how requests are parsed and websockets are served; a request is
      given in its parts, a websocket is the items it is sent.  The operation
      manager's part of a lease is [Operations]; the discipline it assumes of
      [release_maintenance] is stated as [disciplined].
    - hub.py: the methods that only pass a call to the session of a device or to
      its file service, and the delay between two attempts of a supervisor.
      session.py: the clock synchronisation, whose result is only displayed.
    - link.py: the TCP link, which passes calls to asyncio's streams, how a
      serial port is opened and the file lock of an endpoint, whose answers are
      arguments of [Hub].  mdns_discovery.py: the browser object, which creates a
      task for every call of zeroconf.
    - store.py: [export_zip], which copies what the store holds into an archive.
    - cli.py besides the recovery and the test of the listening address, tls.py,
      esp_iris.py, system_update_bundle.py: argument parsing, files, sockets and
      terminal output around modelled functions.  demo.py besides its files:
      sample data for the interface.  contracts.py, compat.py: declarations and
      shims.  zlib's compression is a parameter.
    - The C firmware and the web frontend; what the gateway relies on of a device
      is stated with the refinement theorems.

    What is left to do would be the clock synchronisation in IEEE arithmetic, the
    archive of [export_zip] with its checksums, and the simulated updates of
    demo.py. *)
From Stdlib Require Export ZArith Lia Ascii String.
From stdpp Require Export prelude gmap strings list.
#[export] Set Default Goal Selector "!".
#[global] Open Scope Z_scope.

(** ** Python exceptions

    The exception classes the modelled code raises or catches, with the
    inheritance the [except] clauses rely on (CPython 3.11 and later, where
    [asyncio.TimeoutError] is [TimeoutError], a subclass of [OSError]). *)

Inductive exn_class :=
| BaseException | CancelledError | Exception_ | ValueError | ProtocolError
| StateTransitionError | UnicodeDecodeError | UnicodeEncodeError | TypeError
| LookupError | KeyError | IndexError | RuntimeError | FileServiceError
| OperationCancelled | OperationOutcomeUnknown | OperationConflict
| DeviceMaintenance | OSError | TimeoutError | ConnectionError
| FileExistsError | PermissionError | BadZipFile | JSONDecodeError
| InvalidSignature | AssertionError | StructError | IntegrityError
| OperationalError | AttributeError | OverflowError | HTTPException | QueueFull
| NonTermination.

#[export] Instance exn_class_eq_dec : EqDecision exn_class.
Proof. solve_decision. Defined.

(** The base class of each class.  [NonTermination] is not a Python class: it
    is what a fuelled loop yields when its fuel runs out, so that no [except]
    clause catches it and the termination theorems can exclude it. *)
Definition exn_parent (c : exn_class) : option exn_class :=
  match c with
  | BaseException | NonTermination => None
  | CancelledError | Exception_ => Some BaseException
  | ProtocolError | StateTransitionError | UnicodeDecodeError
  | UnicodeEncodeError | JSONDecodeError => Some ValueError
  | KeyError | IndexError => Some LookupError
  | FileServiceError | OperationCancelled | OperationOutcomeUnknown
  | OperationConflict | DeviceMaintenance => Some RuntimeError
  | TimeoutError | ConnectionError | FileExistsError | PermissionError => Some OSError
  | ValueError | TypeError | LookupError | RuntimeError | OSError
  | AssertionError | StructError | IntegrityError | OperationalError | BadZipFile
  | InvalidSignature | AttributeError | OverflowError | HTTPException | QueueFull => Some Exception_
  end.

Fixpoint issubclass_fuel (n : nat) (c d : exn_class) : bool :=
  bool_decide (c = d) ||
  match n with
  | O => false
  | S m => match exn_parent c with
           | Some p => issubclass_fuel m p d
           | None => false
           end
  end.

(** [issubclass c d]; no class is more than four levels below its root. *)
Definition issubclass : exn_class → exn_class → bool := issubclass_fuel 4.

(** A raised exception: its class, the constant part of its message, and the
    status a [FileServiceError] or an [HTTPException] carries (0 for the other
    classes). *)
Record exn := Exn { exn_cls : exn_class; exn_msg : string; exn_status : Z }.

(** [except (C1, C2)]: does the exception match one of the classes? *)
Definition catches (cs : list exn_class) (e : exn) : bool :=
  existsb (issubclass (exn_cls e)) cs.

(** Prove a closed decidable proposition by evaluating its decision. *)
Ltac by_decide :=
  match goal with
  | |- ?P => refine (@bool_decide_eq_true_1 P _ _); vm_compute; reflexivity
  end.

(** ** Results *)

Inductive res (A : Type) : Type :=
| Ok (a : A)
| Err (e : exn).
Arguments Ok {_} _.
Arguments Err {_} _.

#[export] Instance res_ret : MRet res := λ A a, Ok a.
#[export] Instance res_bind : MBind res :=
  λ A B f m, match m with Ok a => f a | Err e => Err e end.
#[export] Instance res_fmap : FMap res :=
  λ A B f m, match m with Ok a => Ok (f a) | Err e => Err e end.

Definition raise {A} (c : exn_class) (msg : string) : res A := Err (Exn c msg 0).

Definition is_ok {A} (m : res A) : bool :=
  match m with Ok _ => true | Err _ => false end.

(** Does the result raise an exception of (a subclass of) class [c]? *)
Definition raises {A} (c : exn_class) (m : res A) : bool :=
  match m with Ok _ => false | Err e => issubclass (exn_cls e) c end.

Lemma res_bind_Ok {A B} (m : res A) (f : A → res B) b :
  (m ≫= f) = Ok b → ∃ a, m = Ok a ∧ f a = Ok b.
Proof. destruct m; simpl; [eauto | discriminate]. Qed.

Lemma res_bind_is_ok {A B} (m : res A) (f : A → res B) :
  is_ok (m ≫= f) = true ↔ ∃ a, m = Ok a ∧ is_ok (f a) = true.
Proof. destruct m; simpl; split; naive_solver. Qed.

(** [if cond: raise C(msg)] *)
Definition raise_if (cond : bool) (c : exn_class) (msg : string) : res () :=
  if cond then raise c msg else Ok ().

Lemma raise_if_Ok {B} cond c msg (f : () → res B) b :
  (raise_if cond c msg ≫= f) = Ok b → cond = false ∧ f () = Ok b.
Proof. destruct cond; [discriminate | done]. Qed.

Lemma raise_if_false cond c msg u : raise_if cond c msg = Ok u → cond = false.
Proof. by destruct cond. Qed.

Lemma if_raise_Ok {A} (cond : bool) c msg (m : res A) a :
  (if cond then raise c msg else m) = Ok a → cond = false ∧ m = Ok a.
Proof. destruct cond; [discriminate | done]. Qed.

(** Split a hypothesis [m = Ok r] along its binds and guards. *)
Ltac res_step :=
  match goal with
  | H : (raise_if _ _ _ ≫= _) = Ok _ |- _ =>
    let G := fresh "G" in apply raise_if_Ok in H as [G H]; cbv beta in H
  | H : (if _ then raise _ _ else _) = Ok _ |- _ =>
    let G := fresh "G" in apply if_raise_Ok in H as [G H]
  | H : (_ ≫= _) = Ok _ |- _ =>
    let a := fresh "r" in let E := fresh "E" in
    apply res_bind_Ok in H as (a & E & H); cbv beta in H
  end.
Ltac res_inv := repeat res_step.
(** Name the next value bound in [H], or the next guard it passed. *)
Tactic Notation "bind" hyp(H) "as" ident(a) ident(E) :=
  apply res_bind_Ok in H as (a & E & H); cbv beta in H.
Tactic Notation "guard" hyp(H) "as" ident(G) :=
  apply raise_if_Ok in H as [G H]; cbv beta in H.

(** [except (C1, C2): raise C(msg)] around an expression. *)
Definition reraise {A} (m : res A) (cs : list exn_class) (c : exn_class) (msg : string) : res A :=
  match m with
  | Err e => if catches cs e then raise c msg else Err e
  | Ok a => Ok a
  end.

Lemma reraise_Ok {A} (m : res A) cs c msg a : reraise m cs c msg = Ok a → m = Ok a.
Proof. destruct m; simpl; [done |]. by case_match. Qed.

(** ** Bytes

    A Python [bytes] object is a list of integers; [is_bytes] says that they
    are in range.  Sizes are [Z], as Python's integers are. *)

Abbreviation bytes := (list Z) (only parsing).

Definition byte_ok (b : Z) : Prop := 0 ≤ b < 256.
Definition is_bytes (l : bytes) : Prop := Forall byte_ok l.

#[export] Instance byte_ok_dec b : Decision (byte_ok b).
Proof. unfold byte_ok. apply _. Defined.
#[export] Instance is_bytes_dec l : Decision (is_bytes l).
Proof. unfold is_bytes. apply _. Defined.

Definition zlen {A} (l : list A) : Z := Z.of_nat (length l).

(** [l[a:b]] for non-negative bounds. *)
Definition slice {A} (a b : Z) (l : list A) : list A :=
  take (Z.to_nat (b - a)) (drop (Z.to_nat a) l).

(** [l[a:]] for a non-negative bound. *)
Definition slice_from {A} (a : Z) (l : list A) : list A := drop (Z.to_nat a) l.

(** [l[i]] at an index the caller has checked to be in range. *)
Definition byte_at (l : bytes) (i : Z) : Z := nth (Z.to_nat i) l 0.

Definition is_nil {A} (l : list A) : bool :=
  match l with [] => true | _ => false end.

Lemma zlen_nil : zlen (@nil Z) = 0.
Proof. done. Qed.
Lemma zlen_cons {A} (x : A) l : zlen (x :: l) = 1 + zlen l.
Proof. unfold zlen. simpl. lia. Qed.
Lemma zlen_app {A} (l k : list A) : zlen (l ++ k) = zlen l + zlen k.
Proof. unfold zlen. rewrite length_app. lia. Qed.
Lemma zlen_single {A} (x : A) : zlen [x] = 1.
Proof. done. Qed.
Lemma zlen_snoc {A} (l : list A) x : zlen (l ++ [x]) = zlen l + 1.
Proof. by rewrite zlen_app. Qed.
Lemma zlen_nonneg {A} (l : list A) : 0 ≤ zlen l.
Proof. unfold zlen. lia. Qed.
Lemma zlen_0 {A} (l : list A) : zlen l = 0 → l = [].
Proof. destruct l; [done | rewrite zlen_cons; pose proof (zlen_nonneg l); lia]. Qed.

Lemma is_bytes_app l k : is_bytes (l ++ k) ↔ is_bytes l ∧ is_bytes k.
Proof. apply Forall_app. Qed.
Lemma is_bytes_cons b l : is_bytes (b :: l) ↔ byte_ok b ∧ is_bytes l.
Proof. apply Forall_cons. Qed.
Lemma is_bytes_nil : is_bytes [].
Proof. apply Forall_nil. done. Qed.
Lemma is_bytes_take n l : is_bytes l → is_bytes (take n l).
Proof. apply Forall_take. Qed.
Lemma is_bytes_drop n l : is_bytes l → is_bytes (drop n l).
Proof. apply Forall_drop. Qed.
Lemma is_bytes_slice a b l : is_bytes l → is_bytes (slice a b l).
Proof. intros. by apply is_bytes_take, is_bytes_drop. Qed.

Lemma byte_at_ok l i : is_bytes l → byte_ok (byte_at l i).
Proof.
  intros Hl. unfold byte_at.
  destruct (nth_in_or_default (Z.to_nat i) l 0) as [Hin | ->].
  - rewrite <- list_elem_of_In in Hin. by apply (proj1 (Forall_forall _ _) Hl).
  - done.
Qed.

Lemma slice_app_l {A} (n : Z) (l k : list A) :
  n = zlen l → slice 0 n (l ++ k) = l.
Proof.
  intros ->. unfold slice, zlen. simpl. rewrite Z.sub_0_r, Nat2Z.id.
  by apply take_app_length.
Qed.

Lemma slice_app_r {A} (a b : Z) (l k : list A) :
  zlen l ≤ a → slice a b (l ++ k) = slice (a - zlen l) (b - zlen l) k.
Proof.
  intros Ha. unfold slice, zlen in *. rewrite drop_app_ge by lia.
  f_equal; [lia | f_equal; lia].
Qed.

Lemma slice_from_app_r {A} (a : Z) (l k : list A) :
  zlen l ≤ a → slice_from a (l ++ k) = slice_from (a - zlen l) k.
Proof.
  intros Ha. unfold slice_from, zlen in *. rewrite drop_app_ge by lia.
  f_equal; lia.
Qed.

Lemma slice_from_0 {A} (l : list A) : slice_from 0 l = l.
Proof. done. Qed.

Lemma zlen_slice {A} a b (l : list A) :
  0 ≤ a ≤ b → b ≤ zlen l → zlen (slice a b l) = b - a.
Proof.
  intros. unfold slice, zlen in *. rewrite length_take, length_drop. lia.
Qed.

(** ** Fixed-width integers

    [struct.pack] and [struct.unpack] at the formats the code uses: unsigned
    little-endian (and, for PNG, big-endian) fields of [n] bytes. *)

Fixpoint le_encode (n : nat) (z : Z) : bytes :=
  match n with
  | O => []
  | S m => z mod 256 :: le_encode m (z / 256)
  end.

Fixpoint le_decode (l : bytes) : Z :=
  match l with
  | [] => 0
  | b :: t => b + 256 * le_decode t
  end.

Definition be_encode (n : nat) (z : Z) : bytes := rev (le_encode n z).

Definition u8_at (l : bytes) (i : Z) : Z := byte_at l i.
Definition u16_at (l : bytes) (i : Z) : Z := le_decode (slice i (i + 2) l).
Definition u32_at (l : bytes) (i : Z) : Z := le_decode (slice i (i + 4) l).
Definition u64_at (l : bytes) (i : Z) : Z := le_decode (slice i (i + 8) l).

(** Two's complement reading of an unsigned field ([struct] code [i]). *)
Definition to_signed (bits z : Z) : Z :=
  if z <? 2 ^ (bits - 1) then z else z - 2 ^ bits.
Definition i32_at (l : bytes) (i : Z) : Z := to_signed 32 (u32_at l i).

(** [struct.pack] of an unsigned [n]-byte field: out of range is
    [struct.error]. *)
Definition pack_uint (n : nat) (z : Z) : res bytes :=
  if (0 <=? z) && (z <? 256 ^ Z.of_nat n) then Ok (le_encode n z)
  else raise StructError "argument out of range".

Lemma pack_uint_inv n z l :
  pack_uint n z = Ok l → l = le_encode n z ∧ 0 ≤ z < 256 ^ Z.of_nat n.
Proof.
  unfold pack_uint. destruct (Z.leb_spec 0 z), (Z.ltb_spec z (256 ^ Z.of_nat n));
    simpl; try discriminate. intros H1. assert (l = le_encode n z) by congruence. done.
Qed.

Lemma length_le_encode n z : length (le_encode n z) = n.
Proof. revert z. induction n; intros; simpl; auto. Qed.

Lemma zlen_le_encode n z : zlen (le_encode n z) = Z.of_nat n.
Proof. unfold zlen. by rewrite length_le_encode. Qed.

Lemma is_bytes_le_encode n z : is_bytes (le_encode n z).
Proof.
  revert z. induction n; intros; simpl; [apply is_bytes_nil |].
  apply is_bytes_cons. split; [apply Z.mod_pos_bound; lia | apply IHn].
Qed.

Lemma le_decode_encode n z :
  0 ≤ z < 256 ^ Z.of_nat n → le_decode (le_encode n z) = z.
Proof.
  revert z. induction n as [|n IH]; intros z Hz; simpl.
  - simpl in Hz. lia.
  - rewrite Nat2Z.inj_succ, Z.pow_succ_r in Hz by lia.
    rewrite IH.
    + pose proof (Z.div_mod z 256). lia.
    + split; [apply Z.div_pos; lia | apply Z.div_lt_upper_bound; lia].
Qed.

Lemma le_decode_bound l :
  is_bytes l → 0 ≤ le_decode l < 256 ^ zlen l.
Proof.
  induction 1 as [|b l Hb Hl IH]; simpl; [done |].
  rewrite zlen_cons, Z.pow_add_r by (pose proof (zlen_nonneg l); lia).
  unfold byte_ok in Hb. lia.
Qed.

Lemma le_encode_decode l n :
  is_bytes l → length l = n → le_encode n (le_decode l) = l.
Proof.
  intros Hl. revert n. induction Hl as [|b l Hb Hl IH]; intros n Hn; subst; simpl; [done |].
  unfold byte_ok in Hb. f_equal.
  - rewrite Z.mul_comm, Z.mod_add by lia. apply Z.mod_small. lia.
  - rewrite Z.mul_comm, Z.div_add by lia. rewrite (Z.div_small b) by lia.
    simpl. by apply IH.
Qed.

Lemma le_decode_slice_bound l i n :
  is_bytes l → 0 ≤ n → 0 ≤ le_decode (slice i (i + n) l) < 256 ^ n.
Proof.
  intros Hl Hn.
  pose proof (le_decode_bound _ (is_bytes_slice i (i + n) l Hl)) as [H1 H2].
  split; [done |]. eapply Z.lt_le_trans; [exact H2 |].
  apply Z.pow_le_mono_r; [lia |].
  unfold slice, zlen. rewrite length_take. lia.
Qed.

Lemma u8_at_bound l i : is_bytes l → 0 ≤ u8_at l i < 256.
Proof. apply byte_at_ok. Qed.
Lemma u16_at_bound l i : is_bytes l → 0 ≤ u16_at l i < 65536.
Proof. intros. by apply (le_decode_slice_bound l i 2). Qed.
Lemma u32_at_bound l i : is_bytes l → 0 ≤ u32_at l i < 4294967296.
Proof. intros. by apply (le_decode_slice_bound l i 4). Qed.

Lemma u64_at_bound l i : is_bytes l → 0 ≤ u64_at l i < 2 ^ 64.
Proof. intros. by apply (le_decode_slice_bound l i 8). Qed.

(** Reading back a field from where it was packed. *)
Lemma le_field_at (p q : bytes) (n : nat) z i :
  i = zlen p → 0 ≤ z < 256 ^ Z.of_nat n →
  le_decode (slice i (i + Z.of_nat n) (p ++ le_encode n z ++ q)) = z.
Proof.
  intros -> Hz. rewrite slice_app_r by lia.
  replace (zlen p - zlen p) with 0 by lia.
  rewrite slice_app_l by (rewrite zlen_le_encode; lia).
  by apply le_decode_encode.
Qed.

(** A field in front of the rest of the bytes. *)
Lemma slice_from_field (n : nat) i l :
  is_bytes l → 0 ≤ i → i + Z.of_nat n ≤ zlen l →
  slice_from i l
  = le_encode n (le_decode (slice i (i + Z.of_nat n) l)) ++ slice_from (i + Z.of_nat n) l.
Proof.
  intros Hl Hi Hlen. pose proof (zlen_slice i (i + Z.of_nat n) l) as Hz. unfold zlen in *.
  rewrite le_encode_decode by (by apply is_bytes_slice || lia).
  unfold slice_from, slice. rewrite Z2Nat.inj_add, <- drop_drop by lia.
  replace (Z.to_nat (i + Z.of_nat n - i)) with n by lia. rewrite Nat2Z.id.
  by rewrite take_drop.
Qed.

(** Extensionality of a byte list given as the fields [ns] and the rest. *)
Fixpoint fields_at (ns : list nat) (i : Z) (l : bytes) : bytes :=
  match ns with
  | [] => slice_from i l
  | n :: ns => le_encode n (le_decode (slice i (i + Z.of_nat n) l)) ++ fields_at ns (i + Z.of_nat n) l
  end.

Lemma fields_at_eq ns l : ∀ i, is_bytes l → 0 ≤ i →
  i + foldr (λ n z, Z.of_nat n + z) 0 ns ≤ zlen l → slice_from i l = fields_at ns i l.
Proof.
  induction ns as [|n ns IH]; intros i Hl Hi Hlen; [done |]. cbn [fields_at].
  cbn [foldr] in Hlen.
  assert (0 ≤ foldr (λ n z, Z.of_nat n + z) 0 ns) by (clear; induction ns; simpl; lia).
  rewrite (slice_from_field n) by (done || lia). f_equal. apply IH; [done | lia | lia].
Qed.
