(* ===== verification/Enums.v ===== *)
(** * Enumerations of the wire protocol

    The [IntEnum] classes of [protocol.py]: one module per class, with its
    members and their integer values.  A member coerces to its value, as an
    [IntEnum] member is an [int]; [enum_of_value] is the constructor call
    [Channel(z)], which raises [ValueError] on a value that is not a member. *)
From S2P Require Import Prelude.

(** ** The [IntEnum] interface *)

Class IntEnum (A : Type) := {
  enum_value : A → Z;
  enum_members : list A;
}.

(** [E(z)]: the member with value [z]. *)
Definition enum_of_value {A} `{IntEnum A} (z : Z) : option A :=
  find (λ a, enum_value a =? z) enum_members.

(** Every member is listed and is found back from its value. *)
Class IntEnumLaws (A : Type) `{IntEnum A} := {
  enum_of_value_value : ∀ a : A, enum_of_value (enum_value a) = Some a;
}.

Ltac solve_enum_laws := constructor; intros []; reflexivity.

Section int_enum.
Context {A : Type} `{IntEnumLaws A}.

(** Distinct members have distinct values. *)
Lemma enum_value_inj (a b : A) : enum_value a = enum_value b → a = b.
Proof.
  intros Hab. pose proof (enum_of_value_value a) as Ha.
  rewrite Hab, enum_of_value_value in Ha. by injection Ha.
Qed.

Lemma enum_of_value_Some (z : Z) (a : A) :
  enum_of_value z = Some a ↔ enum_value a = z.
Proof.
  split.
  - unfold enum_of_value. intros Hf. apply find_some in Hf as [_ Hf].
    by apply Z.eqb_eq in Hf.
  - intros <-. apply enum_of_value_value.
Qed.

#[global] Instance int_enum_eq_dec : EqDecision A.
Proof.
  intros a b. destruct (Z.eq_dec (enum_value a) (enum_value b)) as [Hab | Hab].
  - left. by apply enum_value_inj.
  - right. by intros ->.
Defined.
End int_enum.

(** ** The protocol's enumerations *)

Module Channel.
Inductive Channel_t :=
| CONTROL | LOG | EVENT | SCREEN | IMAGE | AUDIO | OTA | CRASH | FILE
| SYSTEM_UPDATE.
Definition Channel_value (x : Channel_t) : Z :=
  match x with
  | CONTROL => 0 | LOG => 1 | EVENT => 2 | SCREEN => 3 | IMAGE => 4
  | AUDIO => 5 | OTA => 6 | CRASH => 7 | FILE => 8 | SYSTEM_UPDATE => 9
  end.
Definition Channel_members : list Channel_t :=
  [CONTROL; LOG; EVENT; SCREEN; IMAGE; AUDIO; OTA; CRASH; FILE;
   SYSTEM_UPDATE].
#[global] Instance Channel_enum : IntEnum Channel_t :=
  {| enum_value := Channel_value; enum_members := Channel_members |}.
#[global] Instance Channel_enum_laws : IntEnumLaws Channel_t.
Proof. solve_enum_laws. Qed.
End Channel.
Coercion Channel.Channel_value : Channel.Channel_t >-> Z.

Module Transport.
Inductive Transport_t :=
| USB | TCP | USB_SERIAL_JTAG.
Definition Transport_value (x : Transport_t) : Z :=
  match x with
  | USB => 1 | TCP => 2 | USB_SERIAL_JTAG => 3
  end.
Definition Transport_members : list Transport_t :=
  [USB; TCP; USB_SERIAL_JTAG].
#[global] Instance Transport_enum : IntEnum Transport_t :=
  {| enum_value := Transport_value; enum_members := Transport_members |}.
#[global] Instance Transport_enum_laws : IntEnumLaws Transport_t.
Proof. solve_enum_laws. Qed.
End Transport.
Coercion Transport.Transport_value : Transport.Transport_t >-> Z.

Module Capability.
Inductive Capability_t :=
| LOG | EVENT | STATUS | TIME_SYNC | SCREEN | OTA | CRASH | AUTH | RPC
| JOBS | IMAGE | AUDIO | MIRROR | FILE | OTA_PROJECT_NAME_MATCH
| SYSTEM_UPDATE | SYSTEM_INVENTORY | SESSION_REOPEN | CRASH_LOOP.
Definition Capability_value (x : Capability_t) : Z :=
  match x with
  | LOG => 1 | EVENT => 2 | STATUS => 4 | TIME_SYNC => 8 | SCREEN => 16
  | OTA => 32 | CRASH => 64 | AUTH => 128 | RPC => 256 | JOBS => 512
  | IMAGE => 1024 | AUDIO => 2048 | MIRROR => 4096 | FILE => 8192
  | OTA_PROJECT_NAME_MATCH => 16384 | SYSTEM_UPDATE => 32768
  | SYSTEM_INVENTORY => 65536 | SESSION_REOPEN => 131072
  | CRASH_LOOP => 262144
  end.
Definition Capability_members : list Capability_t :=
  [LOG; EVENT; STATUS; TIME_SYNC; SCREEN; OTA; CRASH; AUTH; RPC; JOBS;
   IMAGE; AUDIO; MIRROR; FILE; OTA_PROJECT_NAME_MATCH; SYSTEM_UPDATE;
   SYSTEM_INVENTORY; SESSION_REOPEN; CRASH_LOOP].
#[global] Instance Capability_enum : IntEnum Capability_t :=
  {| enum_value := Capability_value; enum_members := Capability_members |}.
#[global] Instance Capability_enum_laws : IntEnumLaws Capability_t.
Proof. solve_enum_laws. Qed.
End Capability.
Coercion Capability.Capability_value : Capability.Capability_t >-> Z.

Module ControlType.
Inductive ControlType_t :=
| HELLO | HELLO_ACK | PING | PONG | TIME_SYNC_REQUEST | TIME_SYNC_RESPONSE
| STATUS_REQUEST | STATUS_RESPONSE | CREDIT | REQUEST | RESPONSE | CANCEL
| JOB_QUERY | JOB_STATUS | RESTART | AUTH_RESULT | ERROR.
Definition ControlType_value (x : ControlType_t) : Z :=
  match x with
  | HELLO => 1 | HELLO_ACK => 2 | PING => 3 | PONG => 4
  | TIME_SYNC_REQUEST => 5 | TIME_SYNC_RESPONSE => 6 | STATUS_REQUEST => 7
  | STATUS_RESPONSE => 8 | CREDIT => 9 | REQUEST => 16 | RESPONSE => 17
  | CANCEL => 18 | JOB_QUERY => 19 | JOB_STATUS => 20 | RESTART => 21
  | AUTH_RESULT => 22 | ERROR => 127
  end.
Definition ControlType_members : list ControlType_t :=
  [HELLO; HELLO_ACK; PING; PONG; TIME_SYNC_REQUEST; TIME_SYNC_RESPONSE;
   STATUS_REQUEST; STATUS_RESPONSE; CREDIT; REQUEST; RESPONSE; CANCEL;
   JOB_QUERY; JOB_STATUS; RESTART; AUTH_RESULT; ERROR].
#[global] Instance ControlType_enum : IntEnum ControlType_t :=
  {| enum_value := ControlType_value; enum_members := ControlType_members |}.
#[global] Instance ControlType_enum_laws : IntEnumLaws ControlType_t.
Proof. solve_enum_laws. Qed.
End ControlType.
Coercion ControlType.ControlType_value : ControlType.ControlType_t >-> Z.

Module EventType.
Inductive EventType_t :=
| BOOT | HEALTHY | PLANNED_RESTART | LINK_READY | PREVIOUS_BOOT_CRASH
| RECOVERY_ENTERED | CORE_DUMP_AVAILABLE | CRASH_LOOP_DETECTED | JOB_UPDATE
| OTA_READY.
Definition EventType_value (x : EventType_t) : Z :=
  match x with
  | BOOT => 1 | HEALTHY => 3 | PLANNED_RESTART => 4 | LINK_READY => 5
  | PREVIOUS_BOOT_CRASH => 6 | RECOVERY_ENTERED => 7
  | CORE_DUMP_AVAILABLE => 8 | CRASH_LOOP_DETECTED => 9 | JOB_UPDATE => 32
  | OTA_READY => 33
  end.
Definition EventType_members : list EventType_t :=
  [BOOT; HEALTHY; PLANNED_RESTART; LINK_READY; PREVIOUS_BOOT_CRASH;
   RECOVERY_ENTERED; CORE_DUMP_AVAILABLE; CRASH_LOOP_DETECTED; JOB_UPDATE;
   OTA_READY].
#[global] Instance EventType_enum : IntEnum EventType_t :=
  {| enum_value := EventType_value; enum_members := EventType_members |}.
#[global] Instance EventType_enum_laws : IntEnumLaws EventType_t.
Proof. solve_enum_laws. Qed.
End EventType.
Coercion EventType.EventType_value : EventType.EventType_t >-> Z.

Module CrashType.
Inductive CrashType_t :=
| METADATA_REQUEST | METADATA_RESPONSE | READ_REQUEST | READ_RESPONSE.
Definition CrashType_value (x : CrashType_t) : Z :=
  match x with
  | METADATA_REQUEST => 1 | METADATA_RESPONSE => 2 | READ_REQUEST => 3
  | READ_RESPONSE => 4
  end.
Definition CrashType_members : list CrashType_t :=
  [METADATA_REQUEST; METADATA_RESPONSE; READ_REQUEST; READ_RESPONSE].
#[global] Instance CrashType_enum : IntEnum CrashType_t :=
  {| enum_value := CrashType_value; enum_members := CrashType_members |}.
#[global] Instance CrashType_enum_laws : IntEnumLaws CrashType_t.
Proof. solve_enum_laws. Qed.
End CrashType.
Coercion CrashType.CrashType_value : CrashType.CrashType_t >-> Z.

Module MediaType.
Inductive MediaType_t :=
| OPEN | OPENED | READ | DATA | CLOSE | MIRROR_START | MIRROR_STOP
| MIRROR_STATE.
Definition MediaType_value (x : MediaType_t) : Z :=
  match x with
  | OPEN => 1 | OPENED => 2 | READ => 3 | DATA => 4 | CLOSE => 5
  | MIRROR_START => 6 | MIRROR_STOP => 7 | MIRROR_STATE => 8
  end.
Definition MediaType_members : list MediaType_t :=
  [OPEN; OPENED; READ; DATA; CLOSE; MIRROR_START; MIRROR_STOP;
   MIRROR_STATE].
#[global] Instance MediaType_enum : IntEnum MediaType_t :=
  {| enum_value := MediaType_value; enum_members := MediaType_members |}.
#[global] Instance MediaType_enum_laws : IntEnumLaws MediaType_t.
Proof. solve_enum_laws. Qed.
End MediaType.
Coercion MediaType.MediaType_value : MediaType.MediaType_t >-> Z.

Module OtaType.
Inductive OtaType_t :=
| BEGIN | BEGIN_RESPONSE | DATA | DATA_RESPONSE | END | END_RESPONSE
| CANCEL | STATUS.
Definition OtaType_value (x : OtaType_t) : Z :=
  match x with
  | BEGIN => 1 | BEGIN_RESPONSE => 2 | DATA => 3 | DATA_RESPONSE => 4
  | END => 5 | END_RESPONSE => 6 | CANCEL => 7 | STATUS => 8
  end.
Definition OtaType_members : list OtaType_t :=
  [BEGIN; BEGIN_RESPONSE; DATA; DATA_RESPONSE; END; END_RESPONSE; CANCEL;
   STATUS].
#[global] Instance OtaType_enum : IntEnum OtaType_t :=
  {| enum_value := OtaType_value; enum_members := OtaType_members |}.
#[global] Instance OtaType_enum_laws : IntEnumLaws OtaType_t.
Proof. solve_enum_laws. Qed.
End OtaType.
Coercion OtaType.OtaType_value : OtaType.OtaType_t >-> Z.

Module SystemUpdateType.
Inductive SystemUpdateType_t :=
| BEGIN | BEGIN_RESPONSE | COMPONENT_BEGIN | COMPONENT_BEGIN_RESPONSE
| DATA | DATA_RESPONSE | COMPONENT_END | COMPONENT_END_RESPONSE | COMMIT
| COMMIT_RESPONSE | CANCEL | STATUS | STATUS_RESPONSE | INVENTORY
| INVENTORY_RESPONSE.
Definition SystemUpdateType_value (x : SystemUpdateType_t) : Z :=
  match x with
  | BEGIN => 1 | BEGIN_RESPONSE => 2 | COMPONENT_BEGIN => 3
  | COMPONENT_BEGIN_RESPONSE => 4 | DATA => 5 | DATA_RESPONSE => 6
  | COMPONENT_END => 7 | COMPONENT_END_RESPONSE => 8 | COMMIT => 9
  | COMMIT_RESPONSE => 10 | CANCEL => 11 | STATUS => 12
  | STATUS_RESPONSE => 13 | INVENTORY => 14 | INVENTORY_RESPONSE => 15
  end.
Definition SystemUpdateType_members : list SystemUpdateType_t :=
  [BEGIN; BEGIN_RESPONSE; COMPONENT_BEGIN; COMPONENT_BEGIN_RESPONSE; DATA;
   DATA_RESPONSE; COMPONENT_END; COMPONENT_END_RESPONSE; COMMIT;
   COMMIT_RESPONSE; CANCEL; STATUS; STATUS_RESPONSE; INVENTORY;
   INVENTORY_RESPONSE].
#[global] Instance SystemUpdateType_enum : IntEnum SystemUpdateType_t :=
  {| enum_value := SystemUpdateType_value; enum_members := SystemUpdateType_members |}.
#[global] Instance SystemUpdateType_enum_laws : IntEnumLaws SystemUpdateType_t.
Proof. solve_enum_laws. Qed.
End SystemUpdateType.
Coercion SystemUpdateType.SystemUpdateType_value : SystemUpdateType.SystemUpdateType_t >-> Z.

Module FileType.
Inductive FileType_t :=
| VOLUMES_REQUEST | VOLUMES_RESPONSE | STAT_REQUEST | STAT_RESPONSE
| LIST_OPEN | LIST_OPENED | LIST_NEXT | LIST_DATA | CLOSE | CLOSE_RESPONSE
| READ_OPEN | READ_OPENED | READ | DATA | WRITE_OPEN | WRITE_OPENED | WRITE
| WRITE_ACK | COMMIT | COMMIT_RESPONSE | ABORT | ABORT_RESPONSE | MKDIR
| MKDIR_RESPONSE | DELETE | DELETE_RESPONSE | RENAME | RENAME_RESPONSE
| WRITE_STATUS | WRITE_STATUS_RESPONSE.
Definition FileType_value (x : FileType_t) : Z :=
  match x with
  | VOLUMES_REQUEST => 1 | VOLUMES_RESPONSE => 2 | STAT_REQUEST => 3
  | STAT_RESPONSE => 4 | LIST_OPEN => 5 | LIST_OPENED => 6 | LIST_NEXT => 7
  | LIST_DATA => 8 | CLOSE => 9 | CLOSE_RESPONSE => 10 | READ_OPEN => 11
  | READ_OPENED => 12 | READ => 13 | DATA => 14 | WRITE_OPEN => 15
  | WRITE_OPENED => 16 | WRITE => 17 | WRITE_ACK => 18 | COMMIT => 19
  | COMMIT_RESPONSE => 20 | ABORT => 21 | ABORT_RESPONSE => 22
  | MKDIR => 23 | MKDIR_RESPONSE => 24 | DELETE => 25
  | DELETE_RESPONSE => 26 | RENAME => 27 | RENAME_RESPONSE => 28
  | WRITE_STATUS => 29 | WRITE_STATUS_RESPONSE => 30
  end.
Definition FileType_members : list FileType_t :=
  [VOLUMES_REQUEST; VOLUMES_RESPONSE; STAT_REQUEST; STAT_RESPONSE;
   LIST_OPEN; LIST_OPENED; LIST_NEXT; LIST_DATA; CLOSE; CLOSE_RESPONSE;
   READ_OPEN; READ_OPENED; READ; DATA; WRITE_OPEN; WRITE_OPENED; WRITE;
   WRITE_ACK; COMMIT; COMMIT_RESPONSE; ABORT; ABORT_RESPONSE; MKDIR;
   MKDIR_RESPONSE; DELETE; DELETE_RESPONSE; RENAME; RENAME_RESPONSE;
   WRITE_STATUS; WRITE_STATUS_RESPONSE].
#[global] Instance FileType_enum : IntEnum FileType_t :=
  {| enum_value := FileType_value; enum_members := FileType_members |}.
#[global] Instance FileType_enum_laws : IntEnumLaws FileType_t.
Proof. solve_enum_laws. Qed.
End FileType.
Coercion FileType.FileType_value : FileType.FileType_t >-> Z.

Module FileStatus.
Inductive FileStatus_t :=
| OK | INVALID_ARGUMENT | NOT_FOUND | NOT_DIRECTORY | NOT_FILE | READ_ONLY
| BUSY | NO_MEMORY | IO | NOT_SUPPORTED | CONFLICT | EXISTS | NOT_EMPTY
| NO_SPACE | HASH_MISMATCH.
Definition FileStatus_value (x : FileStatus_t) : Z :=
  match x with
  | OK => 0 | INVALID_ARGUMENT => 1 | NOT_FOUND => 2 | NOT_DIRECTORY => 3
  | NOT_FILE => 4 | READ_ONLY => 5 | BUSY => 6 | NO_MEMORY => 7 | IO => 8
  | NOT_SUPPORTED => 9 | CONFLICT => 10 | EXISTS => 11 | NOT_EMPTY => 12
  | NO_SPACE => 13 | HASH_MISMATCH => 14
  end.
Definition FileStatus_members : list FileStatus_t :=
  [OK; INVALID_ARGUMENT; NOT_FOUND; NOT_DIRECTORY; NOT_FILE; READ_ONLY;
   BUSY; NO_MEMORY; IO; NOT_SUPPORTED; CONFLICT; EXISTS; NOT_EMPTY;
   NO_SPACE; HASH_MISMATCH].
#[global] Instance FileStatus_enum : IntEnum FileStatus_t :=
  {| enum_value := FileStatus_value; enum_members := FileStatus_members |}.
#[global] Instance FileStatus_enum_laws : IntEnumLaws FileStatus_t.
Proof. solve_enum_laws. Qed.
End FileStatus.
Coercion FileStatus.FileStatus_value : FileStatus.FileStatus_t >-> Z.

Module JobState.
Inductive JobState_t :=
| QUEUED | RUNNING | SUCCEEDED | FAILED | CANCELLED.
Definition JobState_value (x : JobState_t) : Z :=
  match x with
  | QUEUED => 0 | RUNNING => 1 | SUCCEEDED => 2 | FAILED => 3
  | CANCELLED => 4
  end.
Definition JobState_members : list JobState_t :=
  [QUEUED; RUNNING; SUCCEEDED; FAILED; CANCELLED].
#[global] Instance JobState_enum : IntEnum JobState_t :=
  {| enum_value := JobState_value; enum_members := JobState_members |}.
#[global] Instance JobState_enum_laws : IntEnumLaws JobState_t.
Proof. solve_enum_laws. Qed.
End JobState.
Coercion JobState.JobState_value : JobState.JobState_t >-> Z.

Module TlvTag.
Inductive TlvTag_t :=
| DEVICE_ID | BOOT_ID | UPTIME_US | PROTOCOL_VERSION | CAPABILITIES
| TRANSPORT | AUTH_MODE | RESET_REASON | PROJECT_NAME | APP_VERSION
| FIRMWARE_SHA256 | IDF_VERSION | MAX_PAYLOAD | FIRMWARE_ROLE
| PRODUCT_CONTRACT | CHIP_TARGET | BOARD_ID | RECOVERY_ABI
| REQUIRED_FEATURES | HEALTH_TIMEOUT_MS | LAYOUT_ID | HARDWARE_MAC
| FREE_INTERNAL | MIN_FREE_INTERNAL | LOG_DROPPED | RX_FRAMES | TX_FRAMES
| INVALID_FRAMES | LINK_COUNT | TASK_STACK_FREE_MIN | WORKER_ACTIVE_MAX_US
| LIFECYCLE_STATE | INTERNAL_HEAP_USED | STATIC_INTERNAL_BYTES
| PREVIOUS_BOOT_CRASH | CORE_DUMP_PRESENT | CORE_DUMP_VALID
| CORE_DUMP_SIZE | CORE_DUMP_ELF_SHA256 | CORE_DUMP_ELF_SHA256_COMPLETE
| PANIC_REASON | CORE_DUMP_CHUNK_MAX | CRASH_COUNT | CRASH_LIMIT
| CRASH_LOOP_TRIGGERED | CRASH_RECOVERY_PENDING | CRASH_ORIGIN_RESET_REASON
| CRASH_FAILED_APP_ADDRESS | CRASH_FAILED_FIRMWARE_SHA256
| CRASH_STATE_ERROR | AUTH_CHALLENGE | JOB_ID | JOB_STATE | JOB_PROGRESS
| JOB_RESULT | MEDIA_DROPPED | OTA_PARTITION.
Definition TlvTag_value (x : TlvTag_t) : Z :=
  match x with
  | DEVICE_ID => 1 | BOOT_ID => 2 | UPTIME_US => 3 | PROTOCOL_VERSION => 4
  | CAPABILITIES => 5 | TRANSPORT => 6 | AUTH_MODE => 7 | RESET_REASON => 8
  | PROJECT_NAME => 9 | APP_VERSION => 10 | FIRMWARE_SHA256 => 11
  | IDF_VERSION => 12 | MAX_PAYLOAD => 13 | FIRMWARE_ROLE => 14
  | PRODUCT_CONTRACT => 15 | CHIP_TARGET => 16 | BOARD_ID => 17
  | RECOVERY_ABI => 18 | REQUIRED_FEATURES => 19 | HEALTH_TIMEOUT_MS => 20
  | LAYOUT_ID => 21 | HARDWARE_MAC => 22 | FREE_INTERNAL => 32
  | MIN_FREE_INTERNAL => 33 | LOG_DROPPED => 34 | RX_FRAMES => 35
  | TX_FRAMES => 36 | INVALID_FRAMES => 37 | LINK_COUNT => 38
  | TASK_STACK_FREE_MIN => 39 | WORKER_ACTIVE_MAX_US => 40
  | LIFECYCLE_STATE => 41 | INTERNAL_HEAP_USED => 42
  | STATIC_INTERNAL_BYTES => 43 | PREVIOUS_BOOT_CRASH => 48
  | CORE_DUMP_PRESENT => 49 | CORE_DUMP_VALID => 50 | CORE_DUMP_SIZE => 51
  | CORE_DUMP_ELF_SHA256 => 52 | CORE_DUMP_ELF_SHA256_COMPLETE => 53
  | PANIC_REASON => 54 | CORE_DUMP_CHUNK_MAX => 55 | CRASH_COUNT => 56
  | CRASH_LIMIT => 57 | CRASH_LOOP_TRIGGERED => 58
  | CRASH_RECOVERY_PENDING => 59 | CRASH_ORIGIN_RESET_REASON => 60
  | CRASH_FAILED_APP_ADDRESS => 61 | CRASH_FAILED_FIRMWARE_SHA256 => 62
  | CRASH_STATE_ERROR => 63 | AUTH_CHALLENGE => 64 | JOB_ID => 65
  | JOB_STATE => 66 | JOB_PROGRESS => 67 | JOB_RESULT => 68
  | MEDIA_DROPPED => 69 | OTA_PARTITION => 70
  end.
Definition TlvTag_members : list TlvTag_t :=
  [DEVICE_ID; BOOT_ID; UPTIME_US; PROTOCOL_VERSION; CAPABILITIES;
   TRANSPORT; AUTH_MODE; RESET_REASON; PROJECT_NAME; APP_VERSION;
   FIRMWARE_SHA256; IDF_VERSION; MAX_PAYLOAD; FIRMWARE_ROLE;
   PRODUCT_CONTRACT; CHIP_TARGET; BOARD_ID; RECOVERY_ABI;
   REQUIRED_FEATURES; HEALTH_TIMEOUT_MS; LAYOUT_ID; HARDWARE_MAC;
   FREE_INTERNAL; MIN_FREE_INTERNAL; LOG_DROPPED; RX_FRAMES; TX_FRAMES;
   INVALID_FRAMES; LINK_COUNT; TASK_STACK_FREE_MIN; WORKER_ACTIVE_MAX_US;
   LIFECYCLE_STATE; INTERNAL_HEAP_USED; STATIC_INTERNAL_BYTES;
   PREVIOUS_BOOT_CRASH; CORE_DUMP_PRESENT; CORE_DUMP_VALID; CORE_DUMP_SIZE;
   CORE_DUMP_ELF_SHA256; CORE_DUMP_ELF_SHA256_COMPLETE; PANIC_REASON;
   CORE_DUMP_CHUNK_MAX; CRASH_COUNT; CRASH_LIMIT; CRASH_LOOP_TRIGGERED;
   CRASH_RECOVERY_PENDING; CRASH_ORIGIN_RESET_REASON;
   CRASH_FAILED_APP_ADDRESS; CRASH_FAILED_FIRMWARE_SHA256;
   CRASH_STATE_ERROR; AUTH_CHALLENGE; JOB_ID; JOB_STATE; JOB_PROGRESS;
   JOB_RESULT; MEDIA_DROPPED; OTA_PARTITION].
#[global] Instance TlvTag_enum : IntEnum TlvTag_t :=
  {| enum_value := TlvTag_value; enum_members := TlvTag_members |}.
#[global] Instance TlvTag_enum_laws : IntEnumLaws TlvTag_t.
Proof. solve_enum_laws. Qed.
End TlvTag.
Coercion TlvTag.TlvTag_value : TlvTag.TlvTag_t >-> Z.
