(* ===== verification/Text.v ===== *)
(** * Python strings and their encodings

    A Python [str] is modelled by its UTF-8 encoding, a Rocq [string] of
    8-bit characters; [str.encode] is then [str_encode] and [len] counts the
    code points.  The decoders are those the code calls: UTF-8 strict and with
    [errors="replace"], ASCII strict and with [errors="replace"], and
    hexadecimal both ways. *)
From S2P Require Import Prelude.

(** ** [str] and its UTF-8 bytes *)

Definition ascii_of_Z (z : Z) : ascii := ascii_of_nat (Z.to_nat z).
Definition Z_of_ascii (a : ascii) : Z := Z.of_nat (nat_of_ascii a).

Fixpoint bytes_str (l : bytes) : string :=
  match l with
  | [] => EmptyString
  | b :: t => String (ascii_of_Z b) (bytes_str t)
  end.

(** [s.encode("utf-8")] *)
Fixpoint str_encode (s : string) : bytes :=
  match s with
  | EmptyString => []
  | String a t => Z_of_ascii a :: str_encode t
  end.

Definition is_continuation (b : Z) : bool := (128 <=? b) && (b <? 192).

(** [len(s)]: the number of code points. *)
Definition str_len (s : string) : Z :=
  zlen (filter (λ b, is_continuation b = false) (str_encode s)).

Definition str_is_ascii (s : string) : bool :=
  forallb (λ b, b <? 128) (str_encode s).

Lemma Z_of_ascii_bound a : byte_ok (Z_of_ascii a).
Proof. unfold byte_ok, Z_of_ascii. pose proof (nat_ascii_bounded a). lia. Qed.

Lemma Z_of_ascii_of_Z b : byte_ok b → Z_of_ascii (ascii_of_Z b) = b.
Proof.
  unfold byte_ok, Z_of_ascii, ascii_of_Z. intros.
  rewrite nat_ascii_embedding by lia. lia.
Qed.

Lemma ascii_of_Z_of_ascii a : ascii_of_Z (Z_of_ascii a) = a.
Proof. unfold ascii_of_Z, Z_of_ascii. by rewrite Nat2Z.id, ascii_nat_embedding. Qed.

Lemma str_encode_bytes_str l : is_bytes l → str_encode (bytes_str l) = l.
Proof.
  induction 1 as [|b l Hb Hl IH]; simpl; [done |].
  by rewrite Z_of_ascii_of_Z, IH.
Qed.

Lemma bytes_str_encode s : bytes_str (str_encode s) = s.
Proof. induction s as [|a s IH]; simpl; [done |]. by rewrite ascii_of_Z_of_ascii, IH. Qed.

Lemma is_bytes_str_encode s : is_bytes (str_encode s).
Proof.
  induction s as [|a s IH]; simpl; [apply is_bytes_nil |].
  apply is_bytes_cons. split; [apply Z_of_ascii_bound | done].
Qed.

Lemma str_encode_inj s t : str_encode s = str_encode t → s = t.
Proof. intros H. by rewrite <- (bytes_str_encode s), H, bytes_str_encode. Qed.

Lemma str_encode_app s t : str_encode (s +:+ t) = str_encode s ++ str_encode t.
Proof. induction s as [|a s IH]; simpl; [done |]. by rewrite IH. Qed.

(** ** UTF-8 decoding

    The decoder is a state machine over the bytes: [ranges] are the allowed
    intervals of the continuation bytes still missing, [acc] the bytes of the
    open sequence.  A byte outside its interval ends the open sequence with
    one U+FFFD and is decoded again as a first byte, and so does the end of
    input (CPython's maximal-subpart replacement). *)

Definition replacement : bytes := [0xEF; 0xBF; 0xBD].

Definition in_range (b : Z) (r : Z * Z) : bool := (fst r <=? b) && (b <=? snd r).

(** The continuation intervals a first byte calls for; [None] when it cannot
    start a sequence. *)
Definition utf8_start (b : Z) : option (list (Z * Z)) :=
  let c := (0x80, 0xBF) in
  if b <? 0x80 then Some []
  else if (0xC2 <=? b) && (b <=? 0xDF) then Some [c]
  else if b =? 0xE0 then Some [(0xA0, 0xBF); c]
  else if b =? 0xED then Some [(0x80, 0x9F); c]
  else if (0xE1 <=? b) && (b <=? 0xEF) then Some [c; c]
  else if b =? 0xF0 then Some [(0x90, 0xBF); c; c]
  else if (0xF1 <=? b) && (b <=? 0xF3) then Some [c; c; c]
  else if b =? 0xF4 then Some [(0x80, 0x8F); c; c]
  else None.

(** A first byte: its output, and the sequence it leaves open. *)
Definition utf8_first (b : Z) : bytes * (bytes * list (Z * Z)) * bool :=
  match utf8_start b with
  | None => (replacement, ([], []), true)
  | Some [] => ([b], ([], []), false)
  | Some rs => ([], ([b], rs), false)
  end.

(** The decoded text and whether an error was replaced. *)
Fixpoint utf8_run (acc : bytes) (ranges : list (Z * Z)) (l : bytes) : bytes * bool :=
  match l with
  | [] => match ranges with [] => ([], false) | _ => (replacement, true) end
  | b :: t =>
    match ranges with
    | r :: rs =>
      if in_range b r then
        match rs with
        | [] => let '(out, bad) := utf8_run [] [] t in (acc ++ [b] ++ out, bad)
        | _ => utf8_run (acc ++ [b]) rs t
        end
      else
        let '(o, (acc', rs'), _) := utf8_first b in
        let '(out, _) := utf8_run acc' rs' t in
        (replacement ++ o ++ out, true)
    | [] =>
      let '(o, (acc', rs'), bad) := utf8_first b in
      let '(out, bad') := utf8_run acc' rs' t in
      (o ++ out, bad || bad')
    end
  end.

(** [data.decode("utf-8", errors="replace")] *)
Definition utf8_decode_replace (data : bytes) : string :=
  bytes_str (fst (utf8_run [] [] data)).

(** [data.decode("utf-8")] *)
Definition utf8_decode (data : bytes) : res string :=
  let '(out, bad) := utf8_run [] [] data in
  if bad : bool then raise UnicodeDecodeError "invalid UTF-8" else Ok (bytes_str out).

Definition utf8_valid (data : bytes) : bool := negb (snd (utf8_run [] [] data)).

(** [data.decode("ascii", errors="replace")] and [data.decode("ascii")] *)
Definition ascii_decode_replace (data : bytes) : string :=
  bytes_str (concat (map (λ b, if b <? 128 then [b] else replacement) data)).
Definition ascii_decode (data : bytes) : res string :=
  if forallb (λ b, b <? 128) data then Ok (bytes_str data)
  else raise UnicodeDecodeError "not ASCII".

Example utf8_replace_vectors :
  (* a lone continuation, a truncated sequence, a surrogate, an overlong *)
  map (λ l, fst (utf8_run [] [] l))
    [[65; 0x80; 66]; [0xE2; 0x82]; [0xED; 0xA0; 0x80]; [0xC0; 0x80]; [0xE2; 0x82; 0xAC]]
  = [[65] ++ replacement ++ [66]; replacement;
     replacement ++ replacement ++ replacement; replacement ++ replacement;
     [0xE2; 0x82; 0xAC]].
Proof. vm_compute. reflexivity. Qed.

(** Decoding keeps a valid text unchanged. *)
Lemma utf8_run_ok l : ∀ acc ranges,
  snd (utf8_run acc ranges l) = false →
  fst (utf8_run acc ranges l) = match ranges with [] => l | _ => acc ++ l end.
Proof.
  induction l as [|b t IH]; intros acc ranges; simpl.
  - destruct ranges; simpl; congruence.
  - destruct ranges as [|r rs].
    + unfold utf8_first. destruct (utf8_start b) as [[|r rs]|].
      * destruct (utf8_run [] [] t) as [o bad] eqn:E. simpl. intros ->.
        specialize (IH [] []). rewrite E in IH. simpl in IH. by rewrite IH.
      * destruct (utf8_run [b] (r :: rs) t) as [o bad] eqn:E. simpl. intros ->.
        specialize (IH [b] (r :: rs)). rewrite E in IH. simpl in IH. by apply IH.
      * destruct (utf8_run [] [] t). simpl. discriminate.
    + destruct (in_range b r).
      * destruct rs as [|r' rs].
        -- destruct (utf8_run [] [] t) as [o bad] eqn:E. simpl. intros ->.
           specialize (IH [] []). rewrite E in IH. simpl in IH. by rewrite IH.
        -- intros Hb. rewrite IH by done. by rewrite <- app_assoc.
      * destruct (utf8_first b) as [[o [acc' rs']] bad].
        destruct (utf8_run acc' rs' t). simpl. discriminate.
Qed.

Lemma utf8_decode_Ok data s : utf8_decode data = Ok s → s = bytes_str data.
Proof.
  unfold utf8_decode. pose proof (utf8_run_ok data [] []) as H.
  destruct (utf8_run [] [] data) as [o bad]. simpl in H.
  destruct bad; [discriminate |]. intros [= <-]. by rewrite H.
Qed.

Lemma utf8_decode_valid data : utf8_valid data = true → utf8_decode data = Ok (bytes_str data).
Proof.
  unfold utf8_valid, utf8_decode. pose proof (utf8_run_ok data [] []) as H.
  destruct (utf8_run [] [] data) as [o bad]. simpl in *. destruct bad; [done |]. intros _. by rewrite H.
Qed.
Lemma utf8_decode_replace_valid data :
  utf8_valid data = true → utf8_decode_replace data = bytes_str data.
Proof.
  unfold utf8_valid, utf8_decode_replace. intros H.
  rewrite utf8_run_ok; [done |]. by destruct (snd _).
Qed.

(** ** Hexadecimal *)

Definition hex_digit (d : Z) : ascii :=
  if d <? 10 then ascii_of_Z (48 + d) else ascii_of_Z (87 + d).

(** [data.hex()] *)
Fixpoint hex (data : bytes) : string :=
  match data with
  | [] => EmptyString
  | b :: t => String (hex_digit (b / 16)) (String (hex_digit (b mod 16)) (hex t))
  end.

Definition hex_value (a : ascii) : option Z :=
  let z := Z_of_ascii a in
  if (48 <=? z) && (z <=? 57) then Some (z - 48)
  else if (97 <=? z) && (z <=? 102) then Some (z - 87)
  else if (65 <=? z) && (z <=? 70) then Some (z - 55)
  else None.

(** ASCII whitespace, which [bytes.fromhex] skips between the pairs. *)
Definition is_space (a : ascii) : bool :=
  let z := Z_of_ascii a in (z =? 32) || ((9 <=? z) && (z <=? 13)).

(** [bytes.fromhex(s)] *)
Fixpoint unhex (s : string) : res bytes :=
  match s with
  | EmptyString => Ok []
  | String a t =>
    if is_space a then unhex t
    else
      match t with
      | EmptyString => raise ValueError "non-hexadecimal number"
      | String b t =>
        match hex_value a, hex_value b with
        | Some x, Some y => rest ← unhex t; Ok (16 * x + y :: rest)
        | _, _ => raise ValueError "non-hexadecimal number"
        end
      end
  end.

Lemma hex_value_digit d : 0 ≤ d < 16 → hex_value (hex_digit d) = Some d.
Proof.
  intros Hd. assert (Hin : d ∈ map Z.of_nat (seq 0 16)).
  { apply list_elem_of_fmap. exists (Z.to_nat d). split; [lia | apply elem_of_seq; lia]. }
  simpl in Hin. rewrite !list_elem_of_In in Hin. simpl in Hin.
  by repeat destruct Hin as [<- | Hin].
Qed.

Lemma hex_digit_not_space d : 0 ≤ d < 16 → is_space (hex_digit d) = false.
Proof.
  intros Hd. unfold is_space, hex_digit.
  destruct (Z.ltb_spec d 10); rewrite Z_of_ascii_of_Z by (unfold byte_ok; lia); lia.
Qed.

Lemma unhex_hex data : is_bytes data → unhex (hex data) = Ok data.
Proof.
  induction 1 as [|b l Hb Hl IH]; simpl; [done |].
  unfold byte_ok in Hb. pose proof (Z.div_mod b 16). pose proof (Z.mod_pos_bound b 16).
  assert (0 ≤ b / 16 < 16)
    by (split; [apply Z.div_pos; lia | apply Z.div_lt_upper_bound; lia]).
  rewrite hex_digit_not_space, !hex_value_digit by lia. rewrite IH. simpl.
  f_equal. f_equal. lia.
Qed.

Lemma hex_inj a b : is_bytes a → is_bytes b → hex a = hex b → a = b.
Proof.
  intros Ha Hb H. apply (f_equal unhex) in H. rewrite !unhex_hex in H by done.
  by injection H.
Qed.

Lemma hex_length data : String.length (hex data) = (2 * length data)%nat.
Proof. induction data as [|b l IH]; simpl; [done |]. rewrite IH. lia. Qed.

(** ** Text operations *)

(** [s.encode("utf-8")]: a lone surrogate cannot be encoded. *)
Definition encode_utf8 (s : string) : res bytes :=
  if utf8_valid (str_encode s) then Ok (str_encode s)
  else raise UnicodeEncodeError "surrogates not allowed".

(** [s.lower()] on ASCII text. *)
Definition lower_char (a : ascii) : ascii :=
  let z := Z_of_ascii a in
  if (65 <=? z) && (z <=? 90) then ascii_of_Z (z + 32) else a.
Fixpoint ascii_lower (s : string) : string :=
  match s with
  | EmptyString => EmptyString
  | String a t => String (lower_char a) (ascii_lower t)
  end.

(** [s.split(c)] for a one-character separator: never empty. *)
Fixpoint split_on (c : ascii) (s : string) : list string :=
  match s with
  | EmptyString => [EmptyString]
  | String a t =>
    match split_on c t with
    | [] => [String a EmptyString]
    | h :: r => if Ascii.eqb a c then EmptyString :: h :: r else String a h :: r
    end
  end.

Definition ends_with (c : ascii) (s : string) : bool :=
  match rev (str_encode s) with b :: _ => b =? Z_of_ascii c | [] => false end.
Definition starts_with (c : ascii) (s : string) : bool :=
  match s with String a _ => Ascii.eqb a c | EmptyString => false end.

(** A hexadecimal literal of the tests and vectors. *)
Definition of_hex (s : string) : bytes :=
  match unhex s with Ok b => b | Err _ => [] end.

(** ** [str.strip]

    The whitespace characters of [str.strip()], as UTF-8. *)
Definition whitespace : list bytes :=
  map (λ b, [b]) [9; 10; 11; 12; 13; 28; 29; 30; 31; 32]
  ++ [[0xC2; 0x85]; [0xC2; 0xA0]; [0xE1; 0x9A; 0x80]]
  ++ map (λ b, [0xE2; 0x80; b])
       [0x80; 0x81; 0x82; 0x83; 0x84; 0x85; 0x86; 0x87; 0x88; 0x89; 0x8A; 0xA8; 0xA9; 0xAF]
  ++ [[0xE2; 0x81; 0x9F]; [0xE3; 0x80; 0x80]].

(** Remove leading occurrences of any of the words; each is non-empty, so the
    length of the text is fuel enough. *)
Fixpoint strip_left (words : list bytes) (fuel : nat) (l : bytes) : bytes :=
  match fuel with
  | O => l
  | S fuel =>
    match List.find (λ w, bool_decide (take (length w) l = w)) words with
    | Some w => strip_left words fuel (drop (length w) l)
    | None => l
    end
  end.
Definition strip_both (words : list bytes) (l : bytes) : bytes :=
  let l := strip_left words (length l) l in
  rev (strip_left (map (@rev Z) words) (length l) (rev l)).
Definition strip (s : string) : string := bytes_str (strip_both whitespace (str_encode s)).
(** [s.strip(c)] for one ASCII character. *)
Definition strip_char (c : Z) (s : string) : string :=
  bytes_str (strip_both [[c]] (str_encode s)).
(** [remove_prefix(s, p)] *)
Definition remove_prefix (s p : string) : string :=
  let l := str_encode s in
  let q := str_encode p in
  if bool_decide (take (length q) l = q) then bytes_str (drop (length q) l) else s.

(** ** Base64 ([base64.py] of the Standard Library, as [gateway.py] uses it)

    Payloads of remote calls travel in JSON as base64 text.  Decoding is strict:
    quartets of the alphabet, the last one padded. *)

(** The digit of six bits. *)
Definition b64_digit (v : Z) : Z :=
  if v <? 26 then 65 + v else if v <? 52 then 71 + v else if v <? 62 then v - 4 else if v =? 62 then 43 else 47.
Definition b64_value (c : Z) : option Z :=
  if (65 <=? c) && (c <=? 90) then Some (c - 65)
  else if (97 <=? c) && (c <=? 122) then Some (c - 71)
  else if (48 <=? c) && (c <=? 57) then Some (c + 4)
  else if c =? 43 then Some 62 else if c =? 47 then Some 63 else None.

Fixpoint b64_encode (l : bytes) : bytes :=
  match l with
  | [] => []
  | [a] => [b64_digit (a / 4); b64_digit (a mod 4 * 16); 61; 61]
  | [a; b] => [b64_digit (a / 4); b64_digit (a mod 4 * 16 + b / 16); b64_digit (b mod 16 * 4); 61]
  | a :: b :: c :: l =>
    [b64_digit (a / 4); b64_digit (a mod 4 * 16 + b / 16); b64_digit (b mod 16 * 4 + c / 64); b64_digit (c mod 64)]
    ++ b64_encode l
  end.

Definition bad_base64 {A} : res A := raise ValueError "Incorrect padding".
Definition b64_sextet (c : Z) : res Z := match b64_value c with Some v => Ok v | None => bad_base64 end.
Fixpoint b64_decode (l : bytes) : res bytes :=
  match l with
  | [] => Ok []
  | a :: b :: c :: d :: l =>
    x ← b64_sextet a; y ← b64_sextet b;
    if is_nil l && (c =? 61) && (d =? 61) then Ok [x * 4 + y / 16]
    else
      z ← b64_sextet c;
      if is_nil l && (d =? 61) then Ok [x * 4 + y / 16; y mod 16 * 16 + z / 4]
      else
        w ← b64_sextet d; rest ← b64_decode l;
        Ok ([x * 4 + y / 16; y mod 16 * 16 + z / 4; z mod 4 * 64 + w] ++ rest)
  | _ => bad_base64
  end.

(** [base64.b64encode(data).decode()] and [base64.b64decode(text, validate=True)] *)
Definition b64encode (data : bytes) : string := bytes_str (b64_encode data).
Definition b64decode (text : string) : res bytes :=
  if str_is_ascii text then b64_decode (str_encode text)
  else raise ValueError "string argument should contain only ASCII characters".

(** ** Round trip *)

Lemma b64_value_digit v : 0 ≤ v < 64 → b64_sextet (b64_digit v) = Ok v ∧ (b64_digit v =? 61) = false
  ∧ 0 ≤ b64_digit v < 128.
Proof.
  intros Hv. unfold b64_sextet, b64_value, b64_digit.
  repeat match goal with |- context [if ?b then _ else _] => destruct b eqn:? end; split_and!; try lia; f_equal; lia.
Qed.

(** Three bytes and their four digits. *)
Lemma sextets a b c : byte_ok a → byte_ok b → byte_ok c →
  (0 ≤ a / 4 < 64 ∧ 0 ≤ a mod 4 * 16 + b / 16 < 64 ∧ 0 ≤ b mod 16 * 4 + c / 64 < 64 ∧ 0 ≤ c mod 64 < 64)
  ∧ a / 4 * 4 + (a mod 4 * 16 + b / 16) / 16 = a
  ∧ (a mod 4 * 16 + b / 16) mod 16 * 16 + (b mod 16 * 4 + c / 64) / 4 = b
  ∧ (b mod 16 * 4 + c / 64) mod 4 * 64 + c mod 64 = c.
Proof. unfold byte_ok. intros. Z.to_euclidean_division_equations. lia. Qed.

(** A text of one, two or three bytes at a time. *)
Fixpoint triples_ind (P : bytes → Prop) (H0 : P []) (H1 : ∀ a, P [a]) (H2 : ∀ a b, P [a; b])
    (H3 : ∀ a b c l, P l → P (a :: b :: c :: l)) (l : bytes) : P l :=
  match l with
  | [] => H0
  | [a] => H1 a
  | [a; b] => H2 a b
  | a :: b :: c :: l => H3 a b c l (triples_ind P H0 H1 H2 H3 l)
  end.

Lemma b64_decode_encode l : is_bytes l → b64_decode (b64_encode l) = Ok l.
Proof.
  assert (H0 : byte_ok 0) by (unfold byte_ok; lia).
  induction l as [|a|a b|a b c l IH] using triples_ind; intros Hl; [done | | |].
  - assert (Ha : byte_ok a) by by inversion Hl.
    destruct (sextets a 0 0 Ha H0 H0) as ((X & Y & _ & _) & Ea & _).
    change (0 / 16) with 0 in *. rewrite Z.add_0_r in *. cbn [b64_encode b64_decode].
    destruct (b64_value_digit _ X) as [-> _], (b64_value_digit _ Y) as [-> _]. cbn. by rewrite Ea.
  - inversion_clear Hl as [|? ? Ha Hl']. assert (Hb : byte_ok b) by by inversion Hl'.
    destruct (sextets a b 0 Ha Hb H0) as ((X & Y & Z' & _) & Ea & Eb & _).
    change (0 / 64) with 0 in *. rewrite !Z.add_0_r in *. cbn [b64_encode b64_decode].
    destruct (b64_value_digit _ X) as [-> _], (b64_value_digit _ Y) as [-> _], (b64_value_digit _ Z') as (-> & -> & _).
    cbn. by rewrite Ea, Eb.
  - inversion_clear Hl as [|? ? Ha Hl']. inversion_clear Hl' as [|? ? Hb Hl]. inversion_clear Hl as [|? ? Hc Hl'].
    destruct (sextets a b c Ha Hb Hc) as ((X & Y & Z' & W) & Ea & Eb & Ec). cbn [b64_encode app b64_decode].
    destruct (b64_value_digit _ X) as [-> _], (b64_value_digit _ Y) as [-> _], (b64_value_digit _ Z') as (-> & -> & _),
      (b64_value_digit _ W) as (-> & -> & _).
    rewrite !andb_false_r, (IH Hl'). cbn. by rewrite Ea, Eb, Ec.
Qed.

Example b64_tests : b64encode (str_encode "Iris!") = "SXJpcyE="%string
  ∧ b64decode "SXJpcyE=" = Ok (str_encode "Iris!") ∧ is_ok (b64decode "SXJpcyE") = false
  ∧ is_ok (b64decode "SX=p") = false.
Proof. vm_compute. done. Qed.
