(* ===== verification/Cobs.v ===== *)
(** * COBS framing ([protocol.py], [cobs_encode] and [cobs_decode])

    The encoder is modelled as the code writes it: a growing buffer whose
    placeholder at [code_offset] is patched when a block ends.  It is proved
    equal to the block-by-block reference [cobs_ref], from which the round
    trip, the absence of zero bytes and the size bound follow. *)
From S2P Require Import Prelude.

(** ** The code *)

Record cobs_state := CobsState {
  output : bytes;
  code_offset : nat;
  code : Z;
}.

(** One iteration of the encoder's [for value in data]. *)
Definition cobs_step (st : cobs_state) (value : Z) : cobs_state :=
  if value =? 0 then
    let out := <[code_offset st := code st]> (output st) in
    CobsState (out ++ [0]) (length out) 1
  else
    let out := output st ++ [value] in
    let code' := code st + 1 in
    if code' =? 255 then
      let out := <[code_offset st := code']> out in
      CobsState (out ++ [0]) (length out) 1
    else CobsState out (code_offset st) code'.

(** The final [output[code_offset] = code]. *)
Definition cobs_finish (st : cobs_state) : bytes :=
  <[code_offset st := code st]> (output st).

Definition cobs_encode (data : bytes) : bytes :=
  cobs_finish (foldl cobs_step (CobsState [0] 0 1) data).

(** The decoder's [while offset < len(data)]; the offset grows by at least
    one per iteration, so [length data + 1] rounds are enough. *)
Fixpoint cobs_decode_loop (fuel : nat) (data : bytes) (offset : Z)
    (output : bytes) : res bytes :=
  match fuel with
  | O => raise NonTermination "cobs_decode"
  | S fuel =>
    if negb (offset <? zlen data) then Ok output
    else
      let code := byte_at data offset in
      let offset := offset + 1 in
      if code =? 0 then raise ProtocolError "zero byte inside COBS frame"
      else
        let count := code - 1 in
        let end_ := offset + count in
        if zlen data <? end_ then raise ProtocolError "truncated COBS block"
        else
          let output := output ++ slice offset end_ data in
          let offset := end_ in
          let output :=
            if negb (code =? 255) && (offset <? zlen data)
            then output ++ [0] else output in
          cobs_decode_loop fuel data offset output
  end.

Definition cobs_decode (data : bytes) : res bytes :=
  cobs_decode_loop (S (length data)) data 0 [].

(** ** Reference: block by block

    [cur] is the open block (fewer than 254 bytes, none of them zero). *)
Fixpoint cobs_ref (cur data : bytes) : bytes :=
  match data with
  | [] => (zlen cur + 1) :: cur
  | v :: t =>
    if v =? 0 then (zlen cur + 1) :: cur ++ cobs_ref [] t
    else if zlen cur + 1 =? 254 then 255 :: (cur ++ [v]) ++ cobs_ref [] t
    else cobs_ref (cur ++ [v]) t
  end.

Definition nonzero (l : bytes) : Prop := Forall (λ b, b ≠ 0) l.

Example cobs_encode_vector :
  cobs_encode [17; 34; 0; 51] = [3; 17; 34; 2; 51]
  ∧ cobs_encode [] = [1]
  ∧ cobs_encode (repeat 7 254) = 255 :: repeat 7 254 ++ [1].
Proof. vm_compute. auto. Qed.

(** ** The encoder computes the reference *)

(** The encoder's state in the middle of a block: finished blocks [done], the
    placeholder, and the open block. *)
Definition cobs_mid (done cur : bytes) : cobs_state :=
  CobsState (done ++ 0 :: cur) (length done) (zlen cur + 1).

Lemma cobs_patch (done : bytes) (x : Z) (cur : bytes) (y : Z) :
  <[length done := y]> (done ++ x :: cur) = done ++ y :: cur.
Proof. by rewrite insert_app_r_alt, Nat.sub_diag by lia. Qed.

Lemma cobs_step_zero done cur :
  cobs_step (cobs_mid done cur) 0
  = cobs_mid (done ++ (zlen cur + 1) :: cur) [].
Proof.
  unfold cobs_step, cobs_mid; simpl. by rewrite cobs_patch.
Qed.

Lemma cobs_step_nonzero done cur v :
  v ≠ 0 →
  cobs_step (cobs_mid done cur) v =
    if zlen cur + 1 =? 254 then cobs_mid (done ++ 255 :: cur ++ [v]) []
    else cobs_mid done (cur ++ [v]).
Proof.
  intros Hv. unfold cobs_step, cobs_mid; simpl.
  rewrite (proj2 (Z.eqb_neq v 0) Hv), <- app_assoc. simpl.
  rewrite zlen_snoc.
  replace (zlen cur + 1 + 1 =? 255) with (zlen cur + 1 =? 254)
    by (destruct (Z.eqb_spec (zlen cur + 1) 254), (Z.eqb_spec (zlen cur + 1 + 1) 255); lia).
  destruct (Z.eqb_spec (zlen cur + 1) 254) as [He|He].
  - rewrite He. by rewrite cobs_patch.
  - done.
Qed.

Lemma cobs_fold_ref data : ∀ done cur,
  cobs_finish (foldl cobs_step (cobs_mid done cur) data) = done ++ cobs_ref cur data.
Proof.
  induction data as [|v t IH]; intros done cur; simpl.
  - apply cobs_patch.
  - destruct (Z.eqb_spec v 0) as [->|Hv].
    + rewrite cobs_step_zero, IH, <- app_assoc. done.
    + rewrite cobs_step_nonzero by done.
      destruct (zlen cur + 1 =? 254).
      * rewrite IH, <- !app_assoc. simpl. by rewrite <- app_assoc.
      * apply IH.
Qed.

Lemma cobs_encode_ref data : cobs_encode data = cobs_ref [] data.
Proof. apply (cobs_fold_ref data [] []). Qed.

(** ** Properties of the reference *)

Lemma cobs_ref_length data : ∀ cur,
  zlen cur < 254 →
  zlen (cobs_ref cur data)
  ≤ zlen cur + zlen data + 1 + (zlen cur + zlen data) / 254.
Proof.
  induction data as [|v t IH]; intros cur Hcur; simpl.
  - rewrite zlen_cons, zlen_nil.
    pose proof (zlen_nonneg cur). pose proof (Z.div_pos (zlen cur + 0) 254). lia.
  - pose proof (zlen_nonneg cur). pose proof (zlen_nonneg t).
    rewrite (zlen_cons v t).
    destruct (v =? 0).
    + specialize (IH [] ltac:(done)). rewrite zlen_nil in IH.
      rewrite zlen_cons, zlen_app.
      pose proof (Z.div_le_mono (0 + zlen t) (zlen cur + (1 + zlen t)) 254). lia.
    + destruct (Z.eqb_spec (zlen cur + 1) 254) as [He|He].
      * specialize (IH [] ltac:(done)). rewrite zlen_nil in IH.
        rewrite zlen_cons, !zlen_app, zlen_cons, zlen_nil.
        replace (zlen cur + (1 + zlen t)) with (zlen t + 1 * 254) by lia.
        rewrite Z.div_add by lia. replace (0 + zlen t) with (zlen t) in IH by lia. lia.
      * specialize (IH (cur ++ [v])).
        rewrite zlen_app, zlen_cons, zlen_nil in IH.
        replace (zlen cur + (1 + 0) + zlen t) with (zlen cur + (1 + zlen t)) in IH by lia.
        lia.
Qed.

Lemma cobs_ref_ok data : ∀ cur,
  zlen cur < 254 → is_bytes cur → nonzero cur → is_bytes data →
  is_bytes (cobs_ref cur data) ∧ nonzero (cobs_ref cur data).
Proof.
  induction data as [|v t IH]; intros cur Hlen Hb Hnz Hd; simpl.
  - pose proof (zlen_nonneg cur). split; constructor; unfold byte_ok; auto; lia.
  - pose proof (zlen_nonneg cur). apply is_bytes_cons in Hd as [Hv Ht].
    destruct (Z.eqb_spec v 0) as [->|Hv0].
    + destruct (IH []) as [IH1 IH2]; [done | apply is_bytes_nil | by constructor | done |].
      split; (constructor; [unfold byte_ok; lia | apply Forall_app; auto]).
    + destruct (Z.eqb_spec (zlen cur + 1) 254).
      * destruct (IH []) as [IH1 IH2]; [done | apply is_bytes_nil | by constructor | done |].
        split; (constructor; [unfold byte_ok; lia |]);
          rewrite !Forall_app; repeat split; auto; by apply Forall_singleton.
      * apply IH; [rewrite zlen_app, zlen_cons, zlen_nil; lia | | | done].
        -- apply is_bytes_app. split; [done | by apply Forall_singleton].
        -- apply Forall_app. split; [done | by apply Forall_singleton].
Qed.

Lemma cobs_ref_nonempty cur data : 0 < zlen (cobs_ref cur data).
Proof.
  revert cur. induction data as [|v t IH]; intros cur; simpl.
  - rewrite zlen_cons. pose proof (zlen_nonneg cur). lia.
  - destruct (v =? 0); [rewrite zlen_cons; pose proof (zlen_nonneg (cur ++ cobs_ref [] t)); lia|].
    destruct (zlen cur + 1 =? 254); [|apply IH].
    rewrite zlen_cons. pose proof (zlen_nonneg ((cur ++ [v]) ++ cobs_ref [] t)). lia.
Qed.

(** ** Decoding *)

Lemma byte_at_app_cons p b q : byte_at (p ++ b :: q) (zlen p) = b.
Proof.
  unfold byte_at, zlen. rewrite Nat2Z.id, app_nth2, Nat.sub_diag by lia. done.
Qed.

(** One round of the decoder on a block [c :: blk] followed by [rest]. *)
Lemma cobs_decode_block fuel p c blk rest out :
  c = zlen blk + 1 → 
  cobs_decode_loop (S fuel) (p ++ (c :: blk) ++ rest) (zlen p) out
  = cobs_decode_loop fuel ((p ++ c :: blk) ++ rest) (zlen (p ++ c :: blk))
      (out ++ blk ++ if negb (c =? 255) && (0 <? zlen rest) then [0] else []).
Proof.
  intros Hc. pose proof (zlen_nonneg blk). pose proof (zlen_nonneg rest).
  pose proof (zlen_nonneg p).
  cbn [cobs_decode_loop].
  assert (Hl : zlen (p ++ (c :: blk) ++ rest) = zlen p + 1 + zlen blk + zlen rest)
    by (rewrite !zlen_app, zlen_cons; lia).
  rewrite !Hl. cbn [app].
  rewrite byte_at_app_cons.
  rewrite (proj2 (Z.ltb_lt _ _)) by lia. cbn [negb].
  rewrite (proj2 (Z.eqb_neq c 0)) by lia.
  rewrite (proj2 (Z.ltb_ge _ _)) by lia.
  replace (slice (zlen p + 1) (zlen p + 1 + (c - 1)) (p ++ c :: blk ++ rest)) with blk.
  2:{ rewrite (slice_app_r _ _ p) by lia.
      replace (zlen p + 1 - zlen p) with (zlen [c]) by (rewrite zlen_cons, zlen_nil; lia).
      change (c :: blk ++ rest) with ([c] ++ blk ++ rest).
      rewrite slice_app_r by lia. rewrite Z.sub_diag, slice_app_l; [done|].
      rewrite zlen_cons, zlen_nil. lia. }
  replace (zlen p + 1 + (c - 1)) with (zlen (p ++ c :: blk))
    by (rewrite zlen_app, zlen_cons; lia).
  replace (zlen (p ++ c :: blk) <? zlen p + 1 + zlen blk + zlen rest) with (0 <? zlen rest)
    by (rewrite zlen_app, zlen_cons; apply Bool.eq_iff_eq_true; rewrite !Z.ltb_lt; lia).
  destruct (negb (c =? 255) && (0 <? zlen rest));
    by rewrite ?app_nil_r, <- ?app_assoc.
Qed.

Lemma cobs_decode_done fuel data out :
  cobs_decode_loop (S fuel) data (zlen data) out = Ok out.
Proof. simpl. by rewrite Z.ltb_irrefl. Qed.

Lemma cobs_decode_ref data : ∀ cur p out fuel,
  zlen cur < 254 → (length (cobs_ref cur data) < fuel)%nat →
  cobs_decode_loop fuel (p ++ cobs_ref cur data) (zlen p) out
  = Ok (out ++ cur ++ data).
Proof.
  induction data as [|v t IH]; intros cur p out [|fuel] Hcur Hfuel; try (simpl in *; lia);
    cbn [cobs_ref] in *.
  - pose proof (zlen_nonneg cur).
    rewrite <- (app_nil_r ((zlen cur + 1) :: cur)), cobs_decode_block by done.
    rewrite zlen_nil, andb_false_r, !app_nil_r.
    destruct fuel; [simpl in Hfuel; lia |]. apply cobs_decode_done.
  - destruct (Z.eqb_spec v 0) as [->|Hv].
    + rewrite app_comm_cons.
      rewrite cobs_decode_block by done.
      rewrite IH; [| done | simpl in Hfuel; rewrite length_app in Hfuel; lia].
      rewrite (proj2 (Z.eqb_neq _ 255)) by lia.
      rewrite (proj2 (Z.ltb_lt _ _)) by apply cobs_ref_nonempty.
      by rewrite <- !app_assoc.
    + destruct (Z.eqb_spec (zlen cur + 1) 254).
      * rewrite app_comm_cons.
        rewrite cobs_decode_block by (rewrite zlen_app, zlen_cons, zlen_nil; lia).
        rewrite IH; [| done | simpl in Hfuel; rewrite !length_app in Hfuel; simpl in *; lia].
        cbn [Z.eqb Pos.eqb negb andb app]. by rewrite app_nil_r, <- !app_assoc.
      * rewrite IH; [by rewrite <- app_assoc | rewrite zlen_app, zlen_cons, zlen_nil; lia | done].
Qed.

Lemma cobs_decode_encode data : cobs_decode (cobs_encode data) = Ok data.
Proof.
  unfold cobs_decode. rewrite cobs_encode_ref.
  apply (cobs_decode_ref data [] [] []); [done | lia].
Qed.

Lemma cobs_encode_ok data :
  is_bytes data → is_bytes (cobs_encode data) ∧ nonzero (cobs_encode data).
Proof.
  intros. rewrite cobs_encode_ref.
  apply cobs_ref_ok; [done | apply is_bytes_nil | by constructor | done].
Qed.

Lemma cobs_encode_length data :
  zlen (cobs_encode data) ≤ zlen data + 1 + zlen data / 254.
Proof.
  rewrite cobs_encode_ref.
  pose proof (cobs_ref_length data [] ltac:(done)) as H. rewrite zlen_nil in H. 
  by rewrite !Z.add_0_l in H.
Qed.

Lemma cobs_encode_nonempty data : 0 < zlen (cobs_encode data).
Proof. rewrite cobs_encode_ref. apply cobs_ref_nonempty. Qed.

(** ** The decoder is total and its output is bytes *)

Lemma cobs_decode_loop_total data : ∀ fuel offset out,
  is_bytes data → 0 ≤ offset ≤ zlen data → zlen data < offset + Z.of_nat fuel →
  raises NonTermination (cobs_decode_loop fuel data offset out) = false.
Proof.
  induction fuel as [|fuel IH]; intros offset out Hb Ho Hf; cbn [cobs_decode_loop].
  - lia.
  - destruct (Z.ltb_spec offset (zlen data)); cbn [negb]; [|done].
    pose proof (byte_at_ok data offset Hb) as Hc. unfold byte_ok in Hc.
    destruct (Z.eqb_spec (byte_at data offset) 0); [done|].
    destruct (Z.ltb_spec (zlen data) (offset + 1 + (byte_at data offset - 1))); [done|].
    apply IH; [done | lia | lia].
Qed.

Lemma cobs_decode_loop_bytes data : ∀ fuel offset out r,
  is_bytes data → is_bytes out →
  cobs_decode_loop fuel data offset out = Ok r → is_bytes r.
Proof.
  induction fuel as [|fuel IH]; intros offset out r Hb Ho Hr; cbn [cobs_decode_loop] in Hr.
  - discriminate.
  - destruct (negb _); [by injection Hr as <-|].
    destruct (_ =? 0); [discriminate|]. destruct (_ <? _); [discriminate|].
    eapply IH; [done | | exact Hr].
    assert (is_bytes (out ++ slice (offset + 1)
      (offset + 1 + (byte_at data offset - 1)) data))
      by (apply is_bytes_app; split; [done | by apply is_bytes_slice]).
    destruct (_ && _); [|done].
    apply is_bytes_app. split; [done | by apply Forall_singleton].
Qed.

Lemma cobs_decode_bytes data r :
  is_bytes data → cobs_decode data = Ok r → is_bytes r.
Proof. intros Hb. apply cobs_decode_loop_bytes; [done | apply is_bytes_nil]. Qed.

Lemma cobs_decode_total data :
  is_bytes data → raises NonTermination (cobs_decode data) = false.
Proof.
  intros Hb. pose proof (zlen_nonneg data).
  apply cobs_decode_loop_total; [done | lia | unfold zlen; lia].
Qed.

Lemma cobs_decode_loop_err data : ∀ fuel offset out e,
  cobs_decode_loop fuel data offset out = Err e →
  exn_cls e = ProtocolError ∨ exn_cls e = NonTermination.
Proof.
  induction fuel as [|fuel IH]; intros offset out e H; cbn [cobs_decode_loop] in H.
  - injection H as <-. by right.
  - destruct (negb _); [discriminate |].
    destruct (_ =? 0); [injection H as <-; by left |].
    destruct (_ <? _); [injection H as <-; by left |]. by eapply IH.
Qed.

Lemma cobs_decode_err data e :
  cobs_decode data = Err e → exn_cls e = ProtocolError ∨ exn_cls e = NonTermination.
Proof. apply cobs_decode_loop_err. Qed.
