(* ===== verification/Crc.v ===== *)
(** * CRC-32

    [zlib.crc32] as the frame codec uses it: the reflected IEEE polynomial,
    initial value and final complement.  One register step is injective, hence
    a message changed in exactly one byte has a different checksum. *)
From S2P Require Import Prelude.

Definition CRC_POLY : Z := 0xEDB88320.
Definition u32 (z : Z) : Prop := 0 ≤ z < 2 ^ 32.

Definition crc_bit (c : Z) : Z :=
  if Z.odd c then Z.lxor (Z.shiftr c 1) CRC_POLY else Z.shiftr c 1.
Definition crc_byte (c b : Z) : Z := Nat.iter 8 crc_bit (Z.lxor c b).
Definition crc_update (c : Z) (data : bytes) : Z := foldl crc_byte c data.
Definition crc32 (data : bytes) : Z :=
  Z.lxor (crc_update 0xFFFFFFFF data) 0xFFFFFFFF.

Example crc32_check_value :
  crc32 [49; 50; 51; 52; 53; 54; 55; 56; 57] = 0xCBF43926.
Proof. vm_compute. reflexivity. Qed.

(** ** Range *)

Lemma lxor_u32 a b : u32 a → u32 b → u32 (Z.lxor a b).
Proof.
  intros [Ha1 Ha2] [Hb1 Hb2]. split; [apply Z.lxor_nonneg; lia |].
  apply Z.bounded_iff_bits_nonneg; [lia | apply Z.lxor_nonneg; lia |].
  intros l Hl. rewrite Z.lxor_spec.
  rewrite (proj1 (Z.bounded_iff_bits_nonneg 32 a ltac:(lia) Ha1) Ha2 l Hl).
  rewrite (proj1 (Z.bounded_iff_bits_nonneg 32 b ltac:(lia) Hb1) Hb2 l Hl). done.
Qed.

Lemma shiftr1_u32 a : u32 a → u32 (Z.shiftr a 1).
Proof.
  unfold u32. rewrite Z.shiftr_div_pow2 by lia. change (2 ^ 1) with 2.
  intros. pose proof (Z.div_mod a 2). pose proof (Z.mod_pos_bound a 2). lia.
Qed.

Lemma byte_u32 b : byte_ok b → u32 b.
Proof. unfold byte_ok, u32. lia. Qed.

Lemma crc_bit_u32 a : u32 a → u32 (crc_bit a).
Proof.
  intros. unfold crc_bit. destruct (Z.odd a); [apply lxor_u32 |]; auto using shiftr1_u32.
  unfold u32, CRC_POLY. lia.
Qed.

Lemma crc_iter_u32 n a : u32 a → u32 (Nat.iter n crc_bit a).
Proof. intros. induction n; simpl; auto using crc_bit_u32. Qed.

Lemma crc_byte_u32 c b : u32 c → byte_ok b → u32 (crc_byte c b).
Proof. intros. apply crc_iter_u32, lxor_u32; auto using byte_u32. Qed.

Lemma crc_update_u32 data : ∀ c, u32 c → is_bytes data → u32 (crc_update c data).
Proof.
  induction data as [|b t IH]; intros c Hc Hd; [done |].
  apply is_bytes_cons in Hd as [Hb Ht]. apply IH; [by apply crc_byte_u32 | done].
Qed.

Lemma crc32_u32 data : is_bytes data → u32 (crc32 data).
Proof.
  intros. apply lxor_u32; [apply crc_update_u32; [|done] |]; unfold u32; lia.
Qed.

(** ** Injectivity of one step *)

Lemma lxor_cancel_r a b c : Z.lxor a c = Z.lxor b c → a = b.
Proof.
  intros H. apply (f_equal (λ x, Z.lxor x c)) in H.
  by rewrite !Z.lxor_assoc, !Z.lxor_nilpotent, !Z.lxor_0_r in H.
Qed.

Lemma lxor_cancel_l a b c : Z.lxor c a = Z.lxor c b → a = b.
Proof. rewrite !(Z.lxor_comm c). apply lxor_cancel_r. Qed.

(** Bit 31 of the stepped register is the bit that was shifted out. *)
Lemma crc_bit_top a : u32 a → Z.testbit (crc_bit a) 31 = Z.odd a.
Proof.
  intros [Ha1 Ha2]. unfold crc_bit.
  assert (Hs : Z.testbit (Z.shiftr a 1) 31 = false).
  { rewrite Z.shiftr_spec by lia.
    by apply (proj1 (Z.bounded_iff_bits_nonneg 32 a ltac:(lia) Ha1) Ha2). }
  destruct (Z.odd a); [| done].
  rewrite Z.lxor_spec, Hs. reflexivity.
Qed.

Lemma crc_bit_inj a b : u32 a → u32 b → crc_bit a = crc_bit b → a = b.
Proof.
  intros Ha Hb Hab.
  assert (Ho : Z.odd a = Z.odd b) by (rewrite <- !crc_bit_top, Hab by done; done).
  assert (Hs : Z.shiftr a 1 = Z.shiftr b 1).
  { unfold crc_bit in Hab. rewrite <- Ho in Hab.
    destruct (Z.odd a); [by apply lxor_cancel_r in Hab | done]. }
  rewrite !Z.shiftr_div_pow2 in Hs by lia.
  pose proof (Z.div_mod a 2). pose proof (Z.div_mod b 2).
  rewrite !Zmod_odd, Ho in *. change (2 ^ 1) with 2 in Hs. lia.
Qed.

Lemma crc_iter_inj n a b :
  u32 a → u32 b → Nat.iter n crc_bit a = Nat.iter n crc_bit b → a = b.
Proof.
  intros Ha Hb. induction n as [|n IH]; simpl; [done |].
  intros H. apply IH, crc_bit_inj; auto using crc_iter_u32.
Qed.

Lemma crc_byte_inj_reg c d b :
  u32 c → u32 d → byte_ok b → crc_byte c b = crc_byte d b → c = d.
Proof.
  intros Hc Hd Hb H.
  apply crc_iter_inj in H; auto using lxor_u32, byte_u32.
  by apply lxor_cancel_r in H.
Qed.

Lemma crc_byte_inj_byte c x y :
  u32 c → byte_ok x → byte_ok y → crc_byte c x = crc_byte c y → x = y.
Proof.
  intros Hc Hx Hy H.
  apply crc_iter_inj in H; auto using lxor_u32, byte_u32.
  by apply lxor_cancel_l in H.
Qed.

Lemma crc_update_inj data : ∀ c d,
  u32 c → u32 d → is_bytes data → crc_update c data = crc_update d data → c = d.
Proof.
  induction data as [|b t IH]; intros c d Hc Hd Hb H; [done |].
  apply is_bytes_cons in Hb as [Hb Ht].
  apply IH in H; auto using crc_byte_u32. by apply crc_byte_inj_reg in H.
Qed.

(** Two messages of the same length that differ in one byte have different
    checksums. *)
Lemma crc32_single_byte p x y q :
  is_bytes p → byte_ok x → byte_ok y → is_bytes q →
  crc32 (p ++ x :: q) = crc32 (p ++ y :: q) → x = y.
Proof.
  intros Hp Hx Hy Hq H. unfold crc32 in H. apply lxor_cancel_r in H.
  unfold crc_update in H. rewrite !foldl_app in H. simpl in H.
  set (c := foldl crc_byte 0xFFFFFFFF p) in H.
  assert (Hc : u32 c) by (apply crc_update_u32; [unfold u32; lia | done]).
  apply (crc_update_inj q) in H; auto using crc_byte_u32.
  by apply crc_byte_inj_byte in H.
Qed.
