(* ===== verification/Protocol.v ===== *)
(** * The frame codec, the incremental decoder and the TLV codec ([protocol.py])

    A [Frame] is eight integers-or-bytes fields; [encode_frame] validates and
    serialises it, [decode_frame] is its checked inverse, [FrameDecoder]
    splits a byte stream at the zero delimiters and resynchronises after
    invalid input, and the TLV functions carry the control payloads. *)
From S2P Require Import Prelude Enums Text Cobs Crc.

(** ** Constants and the frame record *)

(** b"IRIS" *)
Definition MAGIC : bytes := [73; 82; 73; 83].
Definition VERSION : Z := 1.
Definition HEADER_SIZE : Z := 32.
Definition MAX_PAYLOAD : Z := 4000.
Definition MAX_WIRE_FRAME : Z := 4096.

Record Frame := mkFrame {
  fr_channel : Z;
  fr_type : Z;
  fr_flags : Z;
  fr_session_id : Z;
  fr_request_id : Z;
  fr_stream_id : Z;
  fr_sequence : Z;
  fr_payload : bytes;
}.

#[export] Instance Frame_eq_dec : EqDecision Frame.
Proof. solve_decision. Defined.

(** ** Encoding *)

Definition _wire_uint (name : string) (value bits : Z) : res Z :=
  if negb ((0 <=? value) && (value <? Z.shiftl 1 bits))
  then raise ProtocolError (name ++ " does not fit")
  else Ok value.

(** [HEADER.pack] at format [<4sBBBBHHIIIII]. *)
Definition HEADER_pack
    (magic : bytes) (version header_size channel type_ flags reserved
     session_id request_id stream_id sequence payload_size : Z) : bytes :=
  magic ++ le_encode 1 version ++ le_encode 1 header_size ++ le_encode 1 channel
  ++ le_encode 1 type_ ++ le_encode 2 flags ++ le_encode 2 reserved
  ++ le_encode 4 session_id ++ le_encode 4 request_id ++ le_encode 4 stream_id
  ++ le_encode 4 sequence ++ le_encode 4 payload_size.

Definition encode_frame (frame : Frame) : res bytes :=
  let payload := fr_payload frame in
  if MAX_PAYLOAD <? zlen payload
  then raise ProtocolError "payload exceeds 4000 bytes"
  else
    channel ← _wire_uint "channel" (fr_channel frame) 8;
    if Channel.Channel_value Channel.SYSTEM_UPDATE <? channel
    then raise ProtocolError "invalid channel"
    else
      type_ ← _wire_uint "type" (fr_type frame) 8;
      flags ← _wire_uint "flags" (fr_flags frame) 16;
      session_id ← _wire_uint "session_id" (fr_session_id frame) 32;
      request_id ← _wire_uint "request_id" (fr_request_id frame) 32;
      stream_id ← _wire_uint "stream_id" (fr_stream_id frame) 32;
      sequence ← _wire_uint "sequence" (fr_sequence frame) 32;
      let header := HEADER_pack MAGIC VERSION HEADER_SIZE channel type_ flags 0
        session_id request_id stream_id sequence (zlen payload) in
      let plain := header ++ payload in
      let plain := plain ++ le_encode 4 (crc32 plain) in
      let wire := cobs_encode plain ++ [0] in
      if MAX_WIRE_FRAME <? zlen wire
      then raise ProtocolError "encoded frame exceeds wire buffer"
      else Ok wire.

(** ** Decoding *)

Definition decode_frame (encoded : bytes) : res Frame :=
  if is_nil encoded || (MAX_WIRE_FRAME <=? zlen encoded)
  then raise ProtocolError "invalid encoded frame size"
  else
    plain ← cobs_decode encoded;
    if zlen plain <? HEADER_SIZE + 4
    then raise ProtocolError "frame is shorter than header and CRC"
    else
      let magic := slice 0 4 plain in
      let version := u8_at plain 4 in
      let header_size := u8_at plain 5 in
      let channel := u8_at plain 6 in
      let type_ := u8_at plain 7 in
      let flags := u16_at plain 8 in
      let reserved := u16_at plain 10 in
      let session_id := u32_at plain 12 in
      let request_id := u32_at plain 16 in
      let stream_id := u32_at plain 20 in
      let sequence := u32_at plain 24 in
      let payload_size := u32_at plain 28 in
      if negb (bool_decide (magic = MAGIC)) || negb (version =? VERSION)
         || negb (header_size =? HEADER_SIZE)
      then raise ProtocolError "unsupported frame header"
      else if negb (reserved =? 0)
              || (Channel.Channel_value Channel.SYSTEM_UPDATE <? channel)
      then raise ProtocolError "invalid reserved field or channel"
      else if (MAX_PAYLOAD <? payload_size)
              || negb (zlen plain =? HEADER_SIZE + payload_size + 4)
      then raise ProtocolError "payload size mismatch"
      else
        let expected_crc := u32_at plain (zlen plain - 4) in
        let actual_crc := crc32 (slice 0 (zlen plain - 4) plain) in
        if negb (expected_crc =? actual_crc)
        then raise ProtocolError "CRC32 mismatch"
        else Ok {| fr_channel := channel; fr_type := type_; fr_flags := flags;
                   fr_session_id := session_id; fr_request_id := request_id;
                   fr_stream_id := stream_id; fr_sequence := sequence;
                   fr_payload := slice HEADER_SIZE (zlen plain - 4) plain |}.

(** ** The incremental decoder *)

Record FrameDecoder := mkFrameDecoder {
  _encoded : bytes;
  _discarding : bool;
  invalid_frames : Z;
}.

Definition FrameDecoder_init : FrameDecoder := mkFrameDecoder [] false 0.

(** One iteration of [feed]'s [for value in data]. *)
Definition feed_byte (d : FrameDecoder) (frames : list Frame) (value : Z)
    : FrameDecoder * list Frame :=
  if value =? 0 then
    if _discarding d then (mkFrameDecoder [] false (invalid_frames d), frames)
    else if is_nil (_encoded d) then (d, frames)
    else
      match decode_frame (_encoded d) with
      | Ok f => (mkFrameDecoder [] (_discarding d) (invalid_frames d), frames ++ [f])
      | Err _ => (mkFrameDecoder [] (_discarding d) (invalid_frames d + 1), frames)
      end
  else if negb (_discarding d) then
    if MAX_WIRE_FRAME - 1 <=? zlen (_encoded d)
    then (mkFrameDecoder [] true (invalid_frames d + 1), frames)
    else (mkFrameDecoder (_encoded d ++ [value]) (_discarding d) (invalid_frames d), frames)
  else (d, frames).

Fixpoint feed_loop (d : FrameDecoder) (frames : list Frame) (data : bytes)
    : FrameDecoder * list Frame :=
  match data with
  | [] => (d, frames)
  | value :: data => let '(d, frames) := feed_byte d frames value in
                     feed_loop d frames data
  end.

Definition feed (d : FrameDecoder) (data : bytes) : FrameDecoder * list Frame :=
  feed_loop d [] data.

(** ** TLV *)

Fixpoint encode_tlv_loop (output : bytes) (items : list (Z * bytes)) : res bytes :=
  match items with
  | [] => Ok output
  | (tag, value) :: items =>
    if 0xFFFF <? zlen value then raise ProtocolError "TLV value is too large"
    else
      t ← pack_uint 1 tag;
      encode_tlv_loop (output ++ t ++ le_encode 2 (zlen value) ++ value) items
  end.

Definition encode_tlv (items : list (Z * bytes)) : res bytes :=
  encode_tlv_loop [] items.

(** [while offset < len(payload)]; every round consumes at least three bytes. *)
Fixpoint decode_tlv_loop (fuel : nat) (payload : bytes) (offset : Z)
    (result : gmap Z bytes) : res (gmap Z bytes) :=
  match fuel with
  | O => raise NonTermination "decode_tlv"
  | S fuel =>
    if negb (offset <? zlen payload) then Ok result
    else if zlen payload - offset <? 3
    then raise ProtocolError "truncated TLV header"
    else
      let tag := u8_at payload offset in
      let length := u16_at payload (offset + 1) in
      let offset := offset + 3 in
      let end_ := offset + length in
      if zlen payload <? end_ then raise ProtocolError "truncated TLV value"
      else decode_tlv_loop fuel payload end_ (<[tag := slice offset end_ payload]> result)
  end.

Definition decode_tlv (payload : bytes) : res (gmap Z bytes) :=
  decode_tlv_loop (S (length payload)) payload 0 ∅.

(** A scalar field of [n] bytes: the default when absent or of another size. *)
Definition tlv_uint (n : Z) (fields : gmap Z bytes) (tag default : Z) : Z :=
  match fields !! tag with
  | Some value => if zlen value =? n then le_decode value else default
  | None => default
  end.

Definition tlv_u8 : gmap Z bytes → Z → Z → Z := tlv_uint 1.
Definition tlv_u16 : gmap Z bytes → Z → Z → Z := tlv_uint 2.
Definition tlv_u32 : gmap Z bytes → Z → Z → Z := tlv_uint 4.
Definition tlv_u64 : gmap Z bytes → Z → Z → Z := tlv_uint 8.

(** [fields.get(tag, b"")] *)
Definition tlv_bytes (fields : gmap Z bytes) (tag : Z) : bytes :=
  default [] (fields !! tag).

(** ** Well-formed frames: the fields fit their wire widths *)

Definition frame_ok (f : Frame) : Prop :=
  0 ≤ fr_channel f ≤ 9 ∧ 0 ≤ fr_type f < 2 ^ 8 ∧ 0 ≤ fr_flags f < 2 ^ 16
  ∧ 0 ≤ fr_session_id f < 2 ^ 32 ∧ 0 ≤ fr_request_id f < 2 ^ 32
  ∧ 0 ≤ fr_stream_id f < 2 ^ 32 ∧ 0 ≤ fr_sequence f < 2 ^ 32
  ∧ zlen (fr_payload f) ≤ MAX_PAYLOAD ∧ is_bytes (fr_payload f).

#[export] Instance frame_ok_dec f : Decision (frame_ok f).
Proof. unfold frame_ok. apply _. Defined.

(** The repository's golden vectors [hello_ack_empty] and [cobs_zero_and_ff]
    ([protocol/golden_vectors.json]). *)
Definition golden_hello_ack : Frame := mkFrame 0 2 1 16909060 0 0 7 [].
Definition golden_zero_and_ff : Frame :=
  mkFrame 5 33 28 2309737967 270544960 1348497536 2426450112
    (of_hex "00ff0069726973ff").

Example golden_encode :
  encode_frame golden_hello_ack = Ok (of_hex
    "0749524953012003020101010504030201010101010101010207010101010101059d44bd0200")
  ∧ encode_frame golden_zero_and_ff = Ok (of_hex
    "0a49524953012005211c010112efcdab894030201080706050c0b0a0900801010102ff0a69726973ff97cfdec400").
Proof. split; vm_compute; reflexivity. Qed.

(** ** The header *)

Lemma _wire_uint_ok name v bits :
  0 ≤ bits → 0 ≤ v < 2 ^ bits → _wire_uint name v bits = Ok v.
Proof.
  intros Hb Hv. unfold _wire_uint. rewrite Z.shiftl_1_l.
  rewrite (proj2 (Z.leb_le _ _)), (proj2 (Z.ltb_lt _ _)) by lia. done.
Qed.

Lemma _wire_uint_inv name v bits w :
  0 ≤ bits → _wire_uint name v bits = Ok w → w = v ∧ 0 ≤ v < 2 ^ bits.
Proof.
  intros Hb. unfold _wire_uint. rewrite Z.shiftl_1_l.
  destruct (Z.leb_spec 0 v), (Z.ltb_spec v (2 ^ bits)); simpl; try discriminate.
  intros [= ->]. done.
Qed.

(** The header and payload the encoder checksums, and the plain frame. *)
Definition frame_header (f : Frame) : bytes :=
  HEADER_pack MAGIC VERSION HEADER_SIZE (fr_channel f) (fr_type f)
    (fr_flags f) 0 (fr_session_id f) (fr_request_id f) (fr_stream_id f)
    (fr_sequence f) (zlen (fr_payload f)).
Definition frame_body (f : Frame) : bytes := frame_header f ++ fr_payload f.
Definition frame_plain (f : Frame) : bytes :=
  frame_body f ++ le_encode 4 (crc32 (frame_body f)).

Lemma zlen_header magic v h c t fl r s rq st sq n :
  zlen (HEADER_pack magic v h c t fl r s rq st sq n) = zlen magic + 28.
Proof. unfold HEADER_pack. rewrite !zlen_app, !zlen_le_encode. lia. Qed.

Lemma zlen_frame_plain f : zlen (frame_plain f) = 36 + zlen (fr_payload f).
Proof.
  unfold frame_plain, frame_body, frame_header.
  rewrite !zlen_app, zlen_header, zlen_le_encode.
  change (zlen MAGIC) with 4. lia.
Qed.

Lemma is_bytes_frame_body f : is_bytes (fr_payload f) → is_bytes (frame_body f).
Proof.
  intros Hp. unfold frame_body, frame_header, HEADER_pack.
  rewrite !is_bytes_app. repeat split; auto using is_bytes_le_encode;
    repeat constructor; unfold byte_ok; lia.
Qed.

Lemma is_bytes_frame_plain f : is_bytes (fr_payload f) → is_bytes (frame_plain f).
Proof.
  intros. apply is_bytes_app. auto using is_bytes_frame_body, is_bytes_le_encode.
Qed.

(** The largest frame is 4052 bytes before its delimiter. *)
Lemma frame_encoded_size f :
  zlen (fr_payload f) ≤ MAX_PAYLOAD → zlen (cobs_encode (frame_plain f)) ≤ 4052.
Proof.
  intros Hl. pose proof (cobs_encode_length (frame_plain f)) as H.
  rewrite zlen_frame_plain in H. unfold MAX_PAYLOAD in *.
  pose proof (Z.div_le_mono (36 + zlen (fr_payload f)) 4036 254).
  change (4036 / 254) with 15 in *. lia.
Qed.

(** Every field fits: the encoder returns the COBS image of [frame_plain],
    and the wire-buffer check never fires. *)
Lemma encode_frame_ok f :
  frame_ok f → encode_frame f = Ok (cobs_encode (frame_plain f) ++ [0]).
Proof.
  intros (Hc & Ht & Hf & Hs & Hr & Hst & Hsq & Hl & Hb).
  unfold encode_frame. rewrite (proj2 (Z.ltb_ge _ _)) by done.
  rewrite !_wire_uint_ok by (simpl; lia). cbn [mbind res_bind].
  rewrite (proj2 (Z.ltb_ge _ _)) by (simpl; lia).
  fold (frame_header f). fold (frame_body f). fold (frame_plain f).
  rewrite (proj2 (Z.ltb_ge _ _)); [done |].
  rewrite zlen_snoc. pose proof (frame_encoded_size f Hl).
  unfold MAX_WIRE_FRAME. lia.
Qed.

Lemma encode_frame_inv f w :
  is_bytes (fr_payload f) → encode_frame f = Ok w → frame_ok f.
Proof.
  intros Hb H. unfold encode_frame in H.
  destruct (Z.ltb_spec MAX_PAYLOAD (zlen (fr_payload f))); [discriminate |].
  apply res_bind_Ok in H as (c & Hc & H). apply _wire_uint_inv in Hc as [-> Hc]; [|lia].
  destruct (Z.ltb_spec (Channel.Channel_value Channel.SYSTEM_UPDATE) (fr_channel f));
    [discriminate |]. simpl in *.
  apply res_bind_Ok in H as (t & Ht & H). apply _wire_uint_inv in Ht as [-> Ht]; [|lia].
  apply res_bind_Ok in H as (fl & Hf & H). apply _wire_uint_inv in Hf as [-> Hf]; [|lia].
  apply res_bind_Ok in H as (s & Hs & H). apply _wire_uint_inv in Hs as [-> Hs]; [|lia].
  apply res_bind_Ok in H as (r & Hr & H). apply _wire_uint_inv in Hr as [-> Hr]; [|lia].
  apply res_bind_Ok in H as (st & Hst & H). apply _wire_uint_inv in Hst as [-> Hst]; [|lia].
  apply res_bind_Ok in H as (sq & Hsq & H). apply _wire_uint_inv in Hsq as [-> Hsq]; [|lia].
  unfold frame_ok. repeat split; lia || done.
Qed.

(** ** Reading the header back *)

Lemma slice_app_l' {A} (a b : Z) (l k : list A) :
  a = 0 → b = zlen l → slice a b (l ++ k) = l.
Proof. intros -> ->. by apply slice_app_l. Qed.

Lemma u8_at_slice l i :
  0 ≤ i < zlen l → u8_at l i = le_decode (slice i (i + 1) l).
Proof.
  intros Hi. unfold u8_at, byte_at, slice, zlen in *.
  replace (Z.to_nat (i + 1 - i)) with 1%nat by lia.
  assert (Hl : (Z.to_nat i < length l)%nat) by lia.
  apply lookup_lt_is_Some in Hl as [x Hx].
  rewrite (drop_S _ _ _ Hx). rewrite (nth_lookup_Some _ _ _ _ Hx). simpl. lia.
Qed.

(** Length side conditions of the header's fields. *)
Ltac len_lia :=
  rewrite ?zlen_le_encode, ?zlen_app, ?zlen_le_encode;
  change (zlen MAGIC) with 4; unfold HEADER_SIZE; try lia.

(** Walk to the field at a constant offset of a concatenation. *)
Ltac read_field :=
  rewrite ?u8_at_slice by len_lia; unfold u16_at, u32_at, u64_at;
  repeat (rewrite slice_app_r by len_lia);
  rewrite slice_app_l' by len_lia;
  apply le_decode_encode; simpl; lia.

Section header_fields.
Context (v h c t fl r s rq st sq n : Z) (rest : bytes).
Context (Hv : 0 ≤ v < 2 ^ 8) (Hh : 0 ≤ h < 2 ^ 8) (Hc : 0 ≤ c < 2 ^ 8)
  (Ht : 0 ≤ t < 2 ^ 8) (Hfl : 0 ≤ fl < 2 ^ 16) (Hr : 0 ≤ r < 2 ^ 16)
  (Hs : 0 ≤ s < 2 ^ 32) (Hrq : 0 ≤ rq < 2 ^ 32) (Hst : 0 ≤ st < 2 ^ 32)
  (Hsq : 0 ≤ sq < 2 ^ 32) (Hn : 0 ≤ n < 2 ^ 32).

Let plain := HEADER_pack MAGIC v h c t fl r s rq st sq n ++ rest.

Lemma header_fields :
  slice 0 4 plain = MAGIC ∧ u8_at plain 4 = v ∧ u8_at plain 5 = h
  ∧ u8_at plain 6 = c ∧ u8_at plain 7 = t ∧ u16_at plain 8 = fl
  ∧ u16_at plain 10 = r ∧ u32_at plain 12 = s ∧ u32_at plain 16 = rq
  ∧ u32_at plain 20 = st ∧ u32_at plain 24 = sq ∧ u32_at plain 28 = n.
Proof.
  pose proof (zlen_nonneg rest).
  unfold plain, HEADER_pack. rewrite <- !app_assoc.
  split_and!; [by rewrite slice_app_l' by len_lia | read_field ..].
Qed.
End header_fields.

Lemma slice_0_all {A} (l k : list A) n : n = zlen l → slice 0 n (l ++ k) = l.
Proof. apply slice_app_l. Qed.

(** The body and the checksum of a plain frame. *)
Lemma plain_crc body c :
  is_bytes body → u32 c →
  let plain := body ++ le_encode 4 c in
  slice 0 (zlen plain - 4) plain = body ∧ u32_at plain (zlen plain - 4) = c.
Proof.
  intros Hb Hc plain. unfold plain. rewrite zlen_app, zlen_le_encode. split.
  - by apply slice_app_l'; lia.
  - unfold u32_at. rewrite slice_app_r by lia.
    rewrite <- (app_nil_r (le_encode 4 c)), slice_app_l' by (rewrite ?zlen_le_encode; lia).
    by apply le_decode_encode.
Qed.

Lemma frame_plain_crc f :
  is_bytes (fr_payload f) →
  slice 0 (zlen (frame_plain f) - 4) (frame_plain f) = frame_body f
  ∧ u32_at (frame_plain f) (zlen (frame_plain f) - 4) = crc32 (frame_body f).
Proof.
  intros Hb. apply plain_crc; [by apply is_bytes_frame_body |].
  by apply crc32_u32, is_bytes_frame_body.
Qed.

Lemma frame_plain_fields f :
  frame_ok f →
  let plain := frame_plain f in
  slice 0 4 plain = MAGIC ∧ u8_at plain 4 = VERSION ∧ u8_at plain 5 = HEADER_SIZE
  ∧ u8_at plain 6 = fr_channel f ∧ u8_at plain 7 = fr_type f
  ∧ u16_at plain 8 = fr_flags f ∧ u16_at plain 10 = 0
  ∧ u32_at plain 12 = fr_session_id f ∧ u32_at plain 16 = fr_request_id f
  ∧ u32_at plain 20 = fr_stream_id f ∧ u32_at plain 24 = fr_sequence f
  ∧ u32_at plain 28 = zlen (fr_payload f).
Proof.
  intros (Hc & Ht & Hf & Hs & Hr & Hst & Hsq & Hl & Hb).
  pose proof (zlen_nonneg (fr_payload f)). unfold MAX_PAYLOAD in Hl. simpl.
  unfold frame_plain, frame_body, frame_header. rewrite <- app_assoc.
  apply header_fields; unfold VERSION, HEADER_SIZE; lia.
Qed.

Lemma frame_plain_payload f :
  slice HEADER_SIZE (zlen (frame_plain f) - 4) (frame_plain f) = fr_payload f.
Proof.
  rewrite zlen_frame_plain.
  unfold frame_plain, frame_body. rewrite <- app_assoc.
  rewrite slice_app_r by (unfold frame_header; rewrite zlen_header; done).
  apply slice_app_l'; unfold frame_header; rewrite zlen_header;
    change (zlen MAGIC) with 4; unfold HEADER_SIZE; lia.
Qed.

Lemma decode_frame_encode_plain f :
  frame_ok f → decode_frame (cobs_encode (frame_plain f)) = Ok f.
Proof.
  intros Hok. pose proof Hok as (Hc & _ & _ & _ & _ & _ & _ & Hl & Hb).
  pose proof (zlen_nonneg (fr_payload f)) as Hnn.
  pose proof (frame_encoded_size f Hl) as Hsize.
  unfold decode_frame.
  rewrite (proj2 (Z.leb_gt _ _)), orb_false_r by (unfold MAX_WIRE_FRAME; lia).
  destruct (is_nil _) eqn:En.
  { pose proof (cobs_encode_nonempty (frame_plain f)).
    destruct (cobs_encode (frame_plain f)); [done | discriminate]. }
  rewrite cobs_decode_encode. cbn [mbind res_bind].
  destruct (frame_plain_crc f Hb) as [-> ->]. rewrite (Z.eqb_refl (crc32 _)).
  destruct (frame_plain_fields f Hok)
    as (-> & -> & -> & -> & -> & -> & -> & -> & -> & -> & -> & ->).
  rewrite frame_plain_payload, zlen_frame_plain, bool_decide_eq_true_2 by done.
  unfold HEADER_SIZE, VERSION, MAX_PAYLOAD in *.
  rewrite (proj2 (Z.ltb_ge (36 + _) _)) by lia. cbn [negb orb Z.eqb Pos.eqb].
  rewrite (proj2 (Z.ltb_ge _ (fr_channel f))) by (simpl; lia).
  rewrite (proj2 (Z.ltb_ge _ _)), (proj2 (Z.eqb_eq _ _)) by lia. cbn [negb orb].
  by destruct f.
Qed.

(** ** What an accepted frame is *)

Lemma slice_glue {A} (a b c : Z) (l : list A) :
  0 ≤ a ≤ b → b ≤ c → slice a b l ++ slice b c l = slice a c l.
Proof.
  intros. unfold slice.
  replace (Z.to_nat b) with (Z.to_nat a + Z.to_nat (b - a))%nat by lia.
  replace (Z.to_nat (c - a)) with (Z.to_nat (b - a) + Z.to_nat (c - b))%nat by lia.
  rewrite <- drop_drop. generalize (drop (Z.to_nat a) l) as k.
  intros k. apply take_take_drop.
Qed.

Lemma slice_all {A} (l : list A) n : n = zlen l → slice 0 n l = l.
Proof. intros ->. rewrite <- (app_nil_r l) at 2. by apply slice_app_l. Qed.

Lemma le_encode_slice n i l :
  is_bytes l → 0 ≤ i → i + Z.of_nat n ≤ zlen l →
  le_encode n (le_decode (slice i (i + Z.of_nat n) l)) = slice i (i + Z.of_nat n) l.
Proof.
  intros Hl Hi Hn. apply le_encode_decode; [by apply is_bytes_slice |].
  pose proof (zlen_slice i (i + Z.of_nat n) l) as H. unfold zlen in *. lia.
Qed.

Lemma le_encode_u8 i l :
  is_bytes l → 0 ≤ i → i + 1 ≤ zlen l → le_encode 1 (u8_at l i) = slice i (i + 1) l.
Proof. intros. rewrite u8_at_slice by lia. by apply (le_encode_slice 1). Qed.

(** The header read from a byte string packs back to its first 32 bytes. *)
Lemma HEADER_pack_slices l :
  is_bytes l → 32 ≤ zlen l →
  HEADER_pack (slice 0 4 l) (u8_at l 4) (u8_at l 5) (u8_at l 6) (u8_at l 7)
    (u16_at l 8) (u16_at l 10) (u32_at l 12) (u32_at l 16) (u32_at l 20)
    (u32_at l 24) (u32_at l 28) = slice 0 32 l.
Proof.
  intros Hl Hn. unfold HEADER_pack, u16_at, u32_at.
  rewrite !le_encode_u8 by (done || lia).
  rewrite (le_encode_slice 2 8), (le_encode_slice 2 10), (le_encode_slice 4 12),
    (le_encode_slice 4 16), (le_encode_slice 4 20), (le_encode_slice 4 24),
    (le_encode_slice 4 28) by (done || lia).
  simpl. rewrite !slice_glue by lia. done.
Qed.

Definition is_protocol_error {A} (m : res A) : bool :=
  match m with Err e => bool_decide (exn_cls e = ProtocolError) | Ok _ => false end.

(** An accepted frame is well formed, and the bytes it was decoded from are
    the canonical plain frame of the result. *)
Lemma decode_frame_inv enc f :
  is_bytes enc → decode_frame enc = Ok f →
  frame_ok f ∧ cobs_decode enc = Ok (frame_plain f).
Proof.
  intros Henc H. unfold decode_frame in H.
  destruct (is_nil enc || _); [discriminate |].
  apply res_bind_Ok in H as (plain & Hdec & H).
  pose proof (cobs_decode_bytes _ _ Henc Hdec) as Hb.
  destruct (Z.ltb_spec (zlen plain) (HEADER_SIZE + 4)) as [|Hlen]; [discriminate |].
  destruct (negb _ || negb _ || negb _) eqn:E1; [discriminate |].
  apply orb_false_iff in E1 as [E1 Ehs]. apply orb_false_iff in E1 as [Em Ev].
  apply negb_false_iff, bool_decide_eq_true in Em.
  apply negb_false_iff, Z.eqb_eq in Ev. apply negb_false_iff, Z.eqb_eq in Ehs.
  destruct (negb _ || _) eqn:E2 in H; [discriminate |].
  apply orb_false_iff in E2 as [Er Ec].
  apply negb_false_iff, Z.eqb_eq in Er. apply Z.ltb_ge in Ec.
  destruct (_ || _) eqn:E3 in H; [discriminate |].
  apply orb_false_iff in E3 as [Ep El].
  apply Z.ltb_ge in Ep. apply negb_false_iff, Z.eqb_eq in El.
  destruct (negb _) eqn:E4 in H; [discriminate |].
  apply negb_false_iff, Z.eqb_eq in E4. injection H as <-.
  pose proof (u8_at_bound plain 6 Hb). pose proof (u8_at_bound plain 7 Hb).
  pose proof (u16_at_bound plain 8 Hb). pose proof (u32_at_bound plain 12 Hb).
  pose proof (u32_at_bound plain 16 Hb). pose proof (u32_at_bound plain 20 Hb).
  pose proof (u32_at_bound plain 24 Hb). pose proof (u32_at_bound plain 28 Hb).
  unfold HEADER_SIZE, MAX_PAYLOAD in *.
  assert (Hpl : zlen (slice 32 (zlen plain - 4) plain) = u32_at plain 28)
    by (rewrite zlen_slice; lia).
  split.
  - unfold frame_ok; simpl in *. rewrite Hpl.
    repeat split; try lia; [exact Ep | by apply is_bytes_slice].
  - rewrite Hdec. f_equal.
    assert (Hbody : frame_body (mkFrame (u8_at plain 6) (u8_at plain 7) (u16_at plain 8)
      (u32_at plain 12) (u32_at plain 16) (u32_at plain 20) (u32_at plain 24)
      (slice 32 (zlen plain - 4) plain)) = slice 0 (zlen plain - 4) plain).
    { pose proof (HEADER_pack_slices plain Hb ltac:(lia)) as Hh.
      rewrite Em, Ev, Ehs, Er in Hh.
      unfold frame_body, frame_header; cbn [fr_channel fr_type fr_flags fr_session_id
        fr_request_id fr_stream_id fr_sequence fr_payload].
      rewrite Hpl. unfold HEADER_SIZE. rewrite Hh. apply slice_glue; lia. }
    unfold frame_plain. rewrite Hbody, <- E4. unfold u32_at.
    rewrite (le_encode_slice 4) by (done || lia).
    rewrite slice_glue by lia. symmetry. apply slice_all. lia.
Qed.

Lemma decode_frame_err_protocol enc :
  is_bytes enc → (∃ f, decode_frame enc = Ok f) ∨ is_protocol_error (decode_frame enc) = true.
Proof.
  intros Henc. unfold decode_frame.
  destruct (is_nil enc || _); [by right |].
  destruct (cobs_decode enc) as [plain|e] eqn:Hdec; cbn [mbind res_bind].
  - repeat case_match; simpl; eauto.
  - right. simpl. apply bool_decide_eq_true_2.
    pose proof (cobs_decode_total enc Henc) as Ht. rewrite Hdec in Ht.
    unfold raises in Ht.
    by apply cobs_decode_err in Hdec as [Hdec | Hdec]; rewrite Hdec in *.
Qed.

(** ** Corruption *)

Lemma app_cons_split {A} (p q : list A) x (b t : list A) :
  p ++ x :: q = b ++ t →
  (∃ q', b = p ++ x :: q' ∧ q = q' ++ t) ∨ (∃ p', p = b ++ p' ∧ t = p' ++ x :: q).
Proof.
  revert b. induction p as [|y p IH]; intros [|z b] H; simpl in H.
  - right. by exists [].
  - injection H as -> ->. left. by exists b.
  - right. by exists (y :: p).
  - injection H as -> H. apply IH in H as [(q' & -> & ->) | (p' & -> & ->)];
      [left | right]; eauto.
Qed.

(** No two well-formed frames differ in exactly one byte of their plain form. *)
Lemma frame_plain_distance f g p q x y :
  is_bytes (fr_payload f) → is_bytes (fr_payload g) →
  frame_plain f = p ++ x :: q → frame_plain g = p ++ y :: q → x = y.
Proof.
  intros Hf Hg Ef Eg.
  pose proof (is_bytes_frame_body f Hf) as Hbf. pose proof (is_bytes_frame_body g Hg) as Hbg.
  assert (Hlen : length (frame_body f) = length (frame_body g)).
  { apply (f_equal length) in Ef, Eg. unfold frame_plain in Ef, Eg.
    rewrite !length_app, length_le_encode in Ef, Eg. cbn [length] in Ef, Eg. lia. }
  unfold frame_plain in Ef, Eg. symmetry in Ef, Eg.
  apply app_cons_split in Ef as [(q1 & Ef & Eq1) | (p1 & Ep1 & Et1)];
    apply app_cons_split in Eg as [(q2 & Eg & Eq2) | (p2 & Ep2 & Et2)].
  - rewrite Eq1 in Eq2. apply app_inj_2 in Eq2 as [<- Ec]; [| by rewrite !length_le_encode].
    rewrite Ef in Hbf, Ec. rewrite Eg in Hbg, Ec.
    apply (f_equal le_decode) in Ec.
    rewrite !le_decode_encode in Ec by (apply crc32_u32; done).
    apply is_bytes_app in Hbf as [Hp Hxq]. apply is_bytes_cons in Hxq as [Hx Hq].
    apply is_bytes_app in Hbg as [_ Hyq]. apply is_bytes_cons in Hyq as [Hy _].
    by apply (crc32_single_byte p x y q1).
  - apply (f_equal length) in Ef, Ep2. rewrite length_app in Ef, Ep2.
    cbn [length] in Ef. lia.
  - apply (f_equal length) in Eg, Ep1. rewrite length_app in Eg, Ep1.
    cbn [length] in Eg. lia.
  - rewrite Ep1 in Ep2. apply app_inj_1 in Ep2 as [Hbb <-]; [| done].
    rewrite <- Hbb, Et1 in Et2. by apply app_inv_head in Et2; injection Et2.
Qed.

(** ** The incremental decoder *)

Definition idle (d : FrameDecoder) : Prop := _encoded d = [] ∧ _discarding d = false.

(** What holds of every decoder between two bytes: the buffer is bounded, it
    is empty while discarding, and it holds nonzero bytes. *)
Definition decoder_inv (d : FrameDecoder) : Prop :=
  zlen (_encoded d) ≤ MAX_WIRE_FRAME - 1
  ∧ (_discarding d = true → _encoded d = [])
  ∧ is_bytes (_encoded d) ∧ nonzero (_encoded d) ∧ 0 ≤ invalid_frames d.

Lemma feed_loop_app d fr l k :
  feed_loop d fr (l ++ k) = let '(d', fr') := feed_loop d fr l in feed_loop d' fr' k.
Proof.
  revert d fr. induction l as [|b l IH]; intros d fr; simpl; [done |].
  destruct (feed_byte d fr b). apply IH.
Qed.

Lemma feed_byte_acc d fr b :
  feed_byte d fr b = (fst (feed_byte d [] b), fr ++ snd (feed_byte d [] b)).
Proof.
  unfold feed_byte. repeat case_match; simpl; by rewrite ?app_nil_r.
Qed.

Lemma feed_loop_acc l : ∀ d fr,
  feed_loop d fr l = (fst (feed_loop d [] l), fr ++ snd (feed_loop d [] l)).
Proof.
  induction l as [|b l IH]; intros d fr; simpl; [by rewrite app_nil_r |].
  rewrite (feed_byte_acc d fr b). destruct (feed_byte d [] b) as [d1 f1]. simpl.
  rewrite (IH d1 (fr ++ f1)), (IH d1 f1). simpl. by rewrite app_assoc.
Qed.

(** Feeding in two pieces is feeding the concatenation. *)
Lemma feed_split d l k :
  feed d (l ++ k) =
    let '(d1, f1) := feed d l in
    let '(d2, f2) := feed d1 k in (d2, f1 ++ f2).
Proof.
  unfold feed. rewrite feed_loop_app. destruct (feed_loop d [] l) as [d1 f1].
  rewrite feed_loop_acc. by destruct (feed_loop d1 [] k).
Qed.

Lemma feed_nonzero l : ∀ d,
  nonzero l → _discarding d = false →
  zlen (_encoded d) + zlen l ≤ MAX_WIRE_FRAME - 1 →
  feed d l = (mkFrameDecoder (_encoded d ++ l) false (invalid_frames d), []).
Proof.
  unfold feed. induction l as [|b l IH]; intros d Hl Hd Hn; simpl.
  - rewrite app_nil_r. destruct d; simpl in *; by subst.
  - apply Forall_cons in Hl as [Hb Hl]. rewrite zlen_cons in Hn.
    pose proof (zlen_nonneg l).
    unfold feed_byte. rewrite (proj2 (Z.eqb_neq b 0)), Hd by done. cbn [negb].
    rewrite (proj2 (Z.leb_gt _ _)) by lia.
    rewrite IH; simpl; [| done | done | rewrite zlen_snoc; lia].
    by rewrite <- app_assoc.
Qed.

Lemma feed_frame d f :
  idle d → frame_ok f → feed d (cobs_encode (frame_plain f) ++ [0]) = (d, [f]).
Proof.
  intros [He Hd] Hok. pose proof Hok as (_ & _ & _ & _ & _ & _ & _ & Hl & Hb).
  pose proof (frame_encoded_size f Hl) as Hs.
  destruct (cobs_encode_ok (frame_plain f) (is_bytes_frame_plain f Hb)) as [_ Hnz].
  pose proof (cobs_encode_nonempty (frame_plain f)) as Hne.
  rewrite feed_split, feed_nonzero; [| done | done |].
  2:{ rewrite He, zlen_nil. unfold MAX_WIRE_FRAME. lia. }
  rewrite He. cbn [app]. unfold feed, feed_loop, feed_byte. cbn [Z.eqb _discarding _encoded].
  destruct (is_nil _) eqn:En.
  { destruct (cobs_encode (frame_plain f)); [done | discriminate]. }
  rewrite decode_frame_encode_plain by done. simpl.
  destruct d; simpl in *; by subst.
Qed.

Lemma feed_frames fs : ∀ d,
  idle d → Forall frame_ok fs →
  feed d (concat (map (λ f, cobs_encode (frame_plain f) ++ [0]) fs)) = (d, fs).
Proof.
  induction fs as [|f fs IH]; intros d Hd Hfs; cbn [map concat]; [done |].
  apply Forall_cons in Hfs as [Hf Hfs].
  rewrite feed_split, feed_frame by done. by rewrite IH.
Qed.

(** A delimiter always returns the decoder to idle. *)
Lemma feed_delimiter d : idle (fst (feed d [0])).
Proof.
  unfold feed, feed_loop, feed_byte. cbn [Z.eqb].
  destruct (_discarding d) eqn:Hd; [done |].
  destruct (_encoded d) eqn:He; simpl; [done |].
  destruct (decode_frame _); done.
Qed.

Lemma decoder_inv_empty dis n : 0 ≤ n → decoder_inv (mkFrameDecoder [] dis n).
Proof.
  intros Hn. unfold decoder_inv. simpl.
  repeat split; [done | apply is_bytes_nil | by constructor | done].
Qed.

Lemma feed_byte_inv d fr b :
  decoder_inv d → byte_ok b → Forall frame_ok fr →
  decoder_inv (fst (feed_byte d fr b)) ∧ Forall frame_ok (snd (feed_byte d fr b)).
Proof.
  intros Hinv Hb Hfr. pose proof Hinv as (H1 & H2 & H3 & H4 & H5). unfold feed_byte.
  destruct (Z.eqb_spec b 0) as [->|Hnz].
  - destruct (_discarding d) eqn:Hd; [by split; [apply decoder_inv_empty |] |].
    destruct (is_nil _); [by split |].
    destruct (decode_frame (_encoded d)) as [f|] eqn:Hdec; simpl.
    + apply decode_frame_inv in Hdec as [Hf _]; [| done].
      split; [by apply decoder_inv_empty |].
      apply Forall_app. split; [done | by apply Forall_singleton].
    + split; [apply decoder_inv_empty; lia | done].
  - destruct (_discarding d) eqn:Hd; cbn [negb]; [by split |].
    destruct (Z.leb_spec (MAX_WIRE_FRAME - 1) (zlen (_encoded d))); simpl; (split; [| done]).
    + apply decoder_inv_empty. lia.
    + repeat split; simpl; auto; [rewrite zlen_snoc; lia | discriminate | |];
        apply Forall_app; (split; [done | by apply Forall_singleton]).
Qed.

Lemma feed_inv l : ∀ d,
  decoder_inv d → is_bytes l →
  decoder_inv (fst (feed d l)) ∧ Forall frame_ok (snd (feed d l)).
Proof.
  unfold feed. induction l as [|b l IH]; intros d Hd Hl; simpl; [auto |].
  apply is_bytes_cons in Hl as [Hb Hl].
  destruct (feed_byte_inv d [] b Hd Hb) as [Hd1 Hf1]; [by constructor |].
  destruct (feed_byte d [] b) as [d1 f1]. simpl in *.
  rewrite feed_loop_acc. destruct (IH d1 Hd1 Hl) as [Hd2 Hf2]. simpl.
  split; [done | by apply Forall_app].
Qed.

(** ** TLV *)

Definition tlv_ok (item : Z * bytes) : Prop :=
  0 ≤ fst item < 2 ^ 8 ∧ zlen (snd item) ≤ 0xFFFF ∧ is_bytes (snd item).

#[export] Instance tlv_ok_dec i : Decision (tlv_ok i).
Proof. unfold tlv_ok. apply _. Defined.

Definition tlv_wire (item : Z * bytes) : bytes :=
  le_encode 1 (fst item) ++ le_encode 2 (zlen (snd item)) ++ snd item.

(** The dictionary a sequence of items denotes: a repeated tag keeps its last
    value. *)
Definition tlv_dict (m : gmap Z bytes) (items : list (Z * bytes)) : gmap Z bytes :=
  foldl (λ m i, <[fst i := snd i]> m) m items.

Lemma pack_uint_ok n z : 0 ≤ z < 256 ^ Z.of_nat n → pack_uint n z = Ok (le_encode n z).
Proof.
  intros Hz. unfold pack_uint.
  by rewrite (proj2 (Z.leb_le _ _)), (proj2 (Z.ltb_lt _ _)) by lia.
Qed.

Lemma encode_tlv_wire items :
  Forall tlv_ok items → encode_tlv items = Ok (concat (map tlv_wire items)).
Proof.
  unfold encode_tlv. intros Hok.
  enough (H : ∀ out, encode_tlv_loop out items = Ok (out ++ concat (map tlv_wire items)))
    by apply H.
  induction Hok as [|[t v] items (Ht & Hl & Hv) _ IH]; intros out; cbn [encode_tlv_loop map concat].
  - by rewrite app_nil_r.
  - simpl in *. rewrite (proj2 (Z.ltb_ge _ _)), pack_uint_ok by (simpl; lia).
    cbn [mbind res_bind]. rewrite IH. f_equal. unfold tlv_wire; simpl.
    by rewrite <- !app_assoc.
Qed.

Lemma zlen_tlv_wire i : zlen (tlv_wire i) = 3 + zlen (snd i).
Proof. unfold tlv_wire. rewrite !zlen_app, !zlen_le_encode. lia. Qed.

Lemma decode_tlv_loop_wire items : ∀ fuel p m,
  Forall tlv_ok items → (length (concat (map tlv_wire items)) < fuel)%nat →
  decode_tlv_loop fuel (p ++ concat (map tlv_wire items)) (zlen p) m
  = Ok (tlv_dict m items).
Proof.
  induction items as [|i items IH]; intros [|fuel] p m Hok Hf; try (simpl in Hf; lia);
    cbn [decode_tlv_loop map concat].
  - by rewrite app_nil_r, Z.ltb_irrefl.
  - apply Forall_cons in Hok as [(Ht & Hl & Hv) Hok].
    pose proof (zlen_nonneg (snd i)). pose proof (zlen_nonneg p).
    set (rest := concat (map tlv_wire items)) in *.
    pose proof (zlen_nonneg rest).
    rewrite !zlen_app, zlen_tlv_wire.
    rewrite (proj2 (Z.ltb_lt _ _)) by lia. cbn [negb].
    rewrite (proj2 (Z.ltb_ge (zlen p + _ - _) _)) by lia.
    assert (Htag : u8_at (p ++ tlv_wire i ++ rest) (zlen p) = fst i).
    { rewrite u8_at_slice by (rewrite !zlen_app, zlen_tlv_wire; lia).
      rewrite slice_app_r by lia. unfold tlv_wire. rewrite <- !app_assoc.
      rewrite slice_app_l' by (rewrite ?zlen_le_encode; lia).
      apply le_decode_encode. simpl. lia. }
    assert (Hlen : u16_at (p ++ tlv_wire i ++ rest) (zlen p + 1) = zlen (snd i)).
    { unfold u16_at. rewrite slice_app_r by lia. unfold tlv_wire. rewrite <- !app_assoc.
      rewrite slice_app_r by (rewrite ?zlen_le_encode; lia).
      rewrite slice_app_l' by (rewrite ?zlen_le_encode; lia).
      apply le_decode_encode. simpl. lia. }
    assert (Hval : slice (zlen p + 3) (zlen p + 3 + zlen (snd i)) (p ++ tlv_wire i ++ rest) = snd i).
    { rewrite slice_app_r by lia. unfold tlv_wire. rewrite <- !app_assoc.
      rewrite !slice_app_r by (rewrite ?zlen_le_encode; lia).
      apply slice_app_l'; rewrite !zlen_le_encode; lia. }
    rewrite Htag, Hlen, Hval.
    rewrite (proj2 (Z.ltb_ge _ _)) by lia.
    replace (zlen p + 3 + zlen (snd i)) with (zlen (p ++ tlv_wire i))
      by (rewrite zlen_app, zlen_tlv_wire; lia).
    rewrite app_assoc. apply IH; [done |].
    cbn [map concat] in Hf. rewrite length_app in Hf.
    pose proof (zlen_tlv_wire i). unfold zlen in *. fold rest in Hf. lia.
Qed.

Lemma decode_tlv_wire items :
  Forall tlv_ok items → decode_tlv (concat (map tlv_wire items)) = Ok (tlv_dict ∅ items).
Proof. intros. apply (decode_tlv_loop_wire items _ []); [done | lia]. Qed.

Lemma decode_tlv_loop_total l : ∀ fuel offset m,
  is_bytes l → 0 ≤ offset ≤ zlen l → zlen l < offset + Z.of_nat fuel →
  (∃ r, decode_tlv_loop fuel l offset m = Ok r)
  ∨ is_protocol_error (decode_tlv_loop fuel l offset m) = true.
Proof.
  induction fuel as [|fuel IH]; intros offset m Hb Ho Hf; cbn [decode_tlv_loop]; [lia |].
  destruct (Z.ltb_spec offset (zlen l)); cbn [negb]; [| by eauto].
  destruct (zlen l - offset <? 3); [by right |].
  pose proof (u16_at_bound l (offset + 1) Hb).
  destruct (Z.ltb_spec (zlen l) (offset + 3 + u16_at l (offset + 1))); [by right |].
  apply IH; [done | lia | lia].
Qed.

(** Decoding any bytes yields a dictionary or a [ProtocolError]. *)
Lemma decode_tlv_total l :
  is_bytes l → (∃ r, decode_tlv l = Ok r) ∨ is_protocol_error (decode_tlv l) = true.
Proof.
  intros. pose proof (zlen_nonneg l).
  apply decode_tlv_loop_total; [done | lia | unfold zlen; lia].
Qed.

(** ** Properties *)

(** C35: a frame whose fields fit their wire widths encodes without error to a
    zero-free COBS body plus one delimiter, within the wire buffer, and that
    body decodes back to the same frame. *)
Theorem frame_roundtrip f :
  frame_ok f →
  ∃ w, encode_frame f = Ok (w ++ [0]) ∧ nonzero w
       ∧ zlen (w ++ [0]) ≤ MAX_WIRE_FRAME ∧ decode_frame w = Ok f.
Proof.
  intros Hok. exists (cobs_encode (frame_plain f)).
  pose proof Hok as (_ & _ & _ & _ & _ & _ & _ & Hl & Hb).
  split; [by apply encode_frame_ok |].
  split; [by apply cobs_encode_ok, is_bytes_frame_plain |].
  split; [| by apply decode_frame_encode_plain].
  rewrite zlen_snoc. pose proof (frame_encoded_size f Hl). unfold MAX_WIRE_FRAME. lia.
Qed.

Lemma frame_roundtrip_witness :
  frame_ok golden_zero_and_ff ∧
  ∃ w, encode_frame golden_zero_and_ff = Ok (w ++ [0]) ∧ nonzero w
       ∧ zlen (w ++ [0]) ≤ MAX_WIRE_FRAME ∧ decode_frame w = Ok golden_zero_and_ff.
Proof.
  assert (H : frame_ok golden_zero_and_ff) 
    by by_decide.
  split; [exact H | exact (frame_roundtrip _ H)].
Defined.

(** Decoding arbitrary received bytes either raises [ProtocolError] or
    yields a frame whose fields are all within their wire widths, and in that
    case the decoded bytes are exactly the header, payload and checksum the
    encoder builds for that frame. *)
Theorem decode_frame_sound enc :
  is_bytes enc →
  is_protocol_error (decode_frame enc) = true
  ∨ ∃ f, decode_frame enc = Ok f ∧ frame_ok f ∧ cobs_decode enc = Ok (frame_plain f).
Proof.
  intros Henc. destruct (decode_frame_err_protocol enc Henc) as [[f Hf] | He]; [| by left].
  right. exists f. split; [done |]. by apply decode_frame_inv.
Qed.

Lemma decode_frame_sound_witness :
  is_bytes [2; 7] ∧
  (is_protocol_error (decode_frame [2; 7]) = true
   ∨ ∃ f, decode_frame [2; 7] = Ok f ∧ frame_ok f
          ∧ cobs_decode [2; 7] = Ok (frame_plain f)).
Proof.
  assert (H : is_bytes [2; 7]) by by_decide.
  split; [exact H | exact (decode_frame_sound _ H)].
Defined.

(** C36: corrupting any single byte of a valid decoded frame (header, payload
    or checksum) makes the decoder reject it with [ProtocolError]. *)
Theorem frame_corruption_detected p x y q f :
  is_bytes (p ++ x :: q) → byte_ok y → x ≠ y →
  decode_frame (cobs_encode (p ++ x :: q)) = Ok f →
  is_protocol_error (decode_frame (cobs_encode (p ++ y :: q))) = true.
Proof.
  intros Hb Hy Hxy Hf.
  assert (Hb' : is_bytes (p ++ y :: q)).
  { apply is_bytes_app in Hb as [Hp Hq]. apply is_bytes_cons in Hq as [_ Hq].
    by apply is_bytes_app; split; [| apply is_bytes_cons]. }
  pose proof (proj1 (cobs_encode_ok _ Hb)) as He.
  pose proof (proj1 (cobs_encode_ok _ Hb')) as He'.
  destruct (decode_frame_err_protocol _ He') as [[g Hg] | ?]; [| done].
  apply decode_frame_inv in Hf as [(_ & _ & _ & _ & _ & _ & _ & _ & Hpf) Hf]; [| done].
  apply decode_frame_inv in Hg as [(_ & _ & _ & _ & _ & _ & _ & _ & Hpg) Hg]; [| done].
  rewrite cobs_decode_encode in Hf, Hg. injection Hf as Hf. injection Hg as Hg.
  by destruct Hxy; apply (frame_plain_distance f g p q).
Qed.

Lemma frame_corruption_detected_witness :
  is_bytes (firstn 6 (frame_plain golden_hello_ack) ++ 0 :: skipn 7 (frame_plain golden_hello_ack))
  ∧ is_protocol_error (decode_frame (cobs_encode
      (firstn 6 (frame_plain golden_hello_ack) ++ 1 :: skipn 7 (frame_plain golden_hello_ack)))) = true.
Proof.
  assert (H : is_bytes (firstn 6 (frame_plain golden_hello_ack) ++ 0
    :: skipn 7 (frame_plain golden_hello_ack)))
    by by_decide.
  split; [exact H |].
  apply (frame_corruption_detected _ 0 1 _ golden_hello_ack H); [| discriminate |].
  - by_decide.
  - vm_compute. reflexivity.
Defined.

(** The decoder resynchronises.  Whatever it was fed before, after a
    delimiter a stream of encoded frames yields exactly those frames, however
    the bytes are split across reads, and no frame is counted invalid. *)
Theorem decoder_resync d garbage fs :
  Forall frame_ok fs →
  let d1 := fst (feed d (garbage ++ [0])) in
  ∀ l k, concat (map (λ f, cobs_encode (frame_plain f) ++ [0]) fs) = l ++ k →
    let '(d2, f1) := feed d1 l in
    let '(d3, f2) := feed d2 k in
    f1 ++ f2 = fs ∧ idle d3 ∧ invalid_frames d3 = invalid_frames d1.
Proof.
  intros Hfs d1 l k Hlk.
  assert (Hd1 : idle d1).
  { unfold d1. rewrite feed_split. destruct (feed d garbage) as [dg fg].
    pose proof (feed_delimiter dg). by destruct (feed dg [0]). }
  pose proof (feed_frames fs d1 Hd1 Hfs) as H. rewrite Hlk, feed_split in H.
  destruct (feed d1 l) as [d2 f1]. destruct (feed d2 k) as [d3 f2].
  injection H as -> ->. done.
Qed.

Lemma decoder_resync_witness :
  Forall frame_ok [golden_hello_ack] ∧
  let d1 := fst (feed FrameDecoder_init ([9; 9] ++ [0])) in
  let '(d2, f1) := feed d1 [7] in
  let '(d3, f2) := feed d2 (tl (cobs_encode (frame_plain golden_hello_ack) ++ [0])) in
  f1 ++ f2 = [golden_hello_ack] ∧ idle d3 ∧ invalid_frames d3 = invalid_frames d1.
Proof.
  assert (H : Forall frame_ok [golden_hello_ack])
    by by_decide.
  split; [exact H |].
  apply (decoder_resync FrameDecoder_init [9; 9] [golden_hello_ack] H).
  vm_compute. reflexivity.
Defined.

(** On any received bytes the decoder's buffer never exceeds 4095 bytes,
    it stays empty while discarding, and every frame it returns is well
    formed. *)
Theorem decoder_bounded l :
  is_bytes l →
  let '(d, fs) := feed FrameDecoder_init l in decoder_inv d ∧ Forall frame_ok fs.
Proof.
  intros Hl. pose proof (feed_inv l FrameDecoder_init) as H.
  destruct (feed FrameDecoder_init l). apply H; [by apply decoder_inv_empty | done].
Qed.

Lemma decoder_bounded_witness :
  is_bytes [1; 2; 0] ∧
  let '(d, fs) := feed FrameDecoder_init [1; 2; 0] in decoder_inv d ∧ Forall frame_ok fs.
Proof.
  assert (H : is_bytes [1; 2; 0]) by by_decide.
  split; [exact H | exact (decoder_bounded _ H)].
Defined.

(** TLV items with one-byte tags and values of at most 65535 bytes encode
    without error, and decoding gives the dictionary of the items (the last
    value of a repeated tag); decoding any other bytes gives a dictionary or
    [ProtocolError]. *)
Theorem tlv_roundtrip items :
  Forall tlv_ok items →
  (∃ w, encode_tlv items = Ok w ∧ decode_tlv w = Ok (tlv_dict ∅ items))
  ∧ ∀ l, is_bytes l → (∃ m, decode_tlv l = Ok m) ∨ is_protocol_error (decode_tlv l) = true.
Proof.
  intros Hok. split; [| by intros; apply decode_tlv_total].
  eexists. by rewrite encode_tlv_wire, decode_tlv_wire.
Qed.

Lemma tlv_roundtrip_witness :
  Forall tlv_ok [(4, [1; 0]); (5, []); (4, [2; 0])] ∧
  (∃ w, encode_tlv [(4, [1; 0]); (5, []); (4, [2; 0])] = Ok w
        ∧ decode_tlv w = Ok (tlv_dict ∅ [(4, [1; 0]); (5, []); (4, [2; 0])]))
  ∧ ∀ l, is_bytes l → (∃ m, decode_tlv l = Ok m) ∨ is_protocol_error (decode_tlv l) = true.
Proof.
  assert (H : Forall tlv_ok [(4, [1; 0]); (5, []); (4, [2; 0])])
    by by_decide.
  split; [exact H | exact (tlv_roundtrip _ H)].
Defined.
