(* ===== verification/StateMachine.v ===== *)
(** * The operation and session state machines ([state_machine.py])

    The states are string enumerations, so the transition functions take and
    check strings.  The transition tables are those of the module; the
    properties say what the tables allow along whole runs. *)
From S2P Require Import Prelude.

(** ** Operation states *)

Inductive OperationState :=
| QUEUED | RUNNING | PRESERVING_EVIDENCE | ENTERING_RECOVERY
| WAITING_RECOVERY | RECOVERY_CONNECTED | PREPARING_OTA | ERASING
| VALIDATING_PLAN | TRANSFERRING | VERIFYING | COMMITTING | WAITING_DEVICE
| RECONNECTING | SUCCEEDED | FAILED | CANCELLED | INTERRUPTED
| OUTCOME_UNKNOWN.

#[export] Instance OperationState_eq_dec : EqDecision OperationState.
Proof. solve_decision. Defined.

Definition OperationState_value (s : OperationState) : string :=
  match s with
  | QUEUED => "queued" | RUNNING => "running"
  | PRESERVING_EVIDENCE => "preserving_evidence"
  | ENTERING_RECOVERY => "entering_recovery"
  | WAITING_RECOVERY => "waiting_recovery"
  | RECOVERY_CONNECTED => "recovery_connected"
  | PREPARING_OTA => "preparing_ota" | ERASING => "erasing"
  | VALIDATING_PLAN => "validating_plan" | TRANSFERRING => "transferring"
  | VERIFYING => "verifying" | COMMITTING => "committing"
  | WAITING_DEVICE => "waiting_device" | RECONNECTING => "reconnecting"
  | SUCCEEDED => "succeeded" | FAILED => "failed" | CANCELLED => "cancelled"
  | INTERRUPTED => "interrupted" | OUTCOME_UNKNOWN => "outcome_unknown"
  end.

Definition OperationState_members : list OperationState :=
  [QUEUED; RUNNING; PRESERVING_EVIDENCE; ENTERING_RECOVERY; WAITING_RECOVERY;
   RECOVERY_CONNECTED; PREPARING_OTA; ERASING; VALIDATING_PLAN; TRANSFERRING;
   VERIFYING; COMMITTING; WAITING_DEVICE; RECONNECTING; SUCCEEDED; FAILED;
   CANCELLED; INTERRUPTED; OUTCOME_UNKNOWN].

(** [OperationState(value)] *)
Definition OperationState_of (value : string) : option OperationState :=
  find (λ s, String.eqb (OperationState_value s) value) OperationState_members.

Definition TERMINAL_OPERATION_STATES : list OperationState :=
  [SUCCEEDED; FAILED; CANCELLED; INTERRUPTED; OUTCOME_UNKNOWN].
Definition is_terminal (s : OperationState) : bool :=
  bool_decide (s ∈ TERMINAL_OPERATION_STATES).
Definition ACTIVE_OPERATION_STATES : list OperationState :=
  filter (λ s, is_terminal s = false) OperationState_members.

Definition _OPERATION_TRANSITIONS (s : OperationState) : list OperationState :=
  match s with
  | QUEUED => [RUNNING; CANCELLED; INTERRUPTED; OUTCOME_UNKNOWN]
  | _ => if is_terminal s then []
         else ACTIVE_OPERATION_STATES ++ TERMINAL_OPERATION_STATES
  end.

Definition operation_transition (current requested : string) : res OperationState :=
  match OperationState_of current, OperationState_of requested with
  | Some source, Some target =>
    if bool_decide (source = target) && negb (is_terminal source) then Ok target
    else if negb (bool_decide (target ∈ _OPERATION_TRANSITIONS source))
    then raise StateTransitionError "illegal operation transition"
    else Ok target
  | _, _ => raise StateTransitionError "not a valid OperationState"
  end.

(** ** Session states *)

Inductive SessionState := NEGOTIATING | READY | CLOSED.
Inductive SessionEvent := AUTHENTICATED | CLOSE.

#[export] Instance SessionState_eq_dec : EqDecision SessionState.
Proof. solve_decision. Defined.
#[export] Instance SessionEvent_eq_dec : EqDecision SessionEvent.
Proof. solve_decision. Defined.

Definition _SESSION_TRANSITIONS (k : SessionState * SessionEvent) : option SessionState :=
  match k with
  | (NEGOTIATING, AUTHENTICATED) => Some READY
  | (NEGOTIATING, CLOSE) => Some CLOSED
  | (READY, CLOSE) => Some CLOSED
  | _ => None
  end.

Definition session_transition (current : SessionState) (event : SessionEvent)
    : res SessionState :=
  match _SESSION_TRANSITIONS (current, event) with
  | Some s => Ok s
  | None => raise StateTransitionError "illegal session transition"
  end.

(** ** Lemmas *)

Lemma OperationState_of_value s : OperationState_of (OperationState_value s) = Some s.
Proof. by destruct s. Qed.

Lemma OperationState_of_Some v s : OperationState_of v = Some s → v = OperationState_value s.
Proof.
  unfold OperationState_of. intros H. apply find_some in H as [_ H].
  by apply String.eqb_eq in H.
Qed.

(** One accepted step between states. *)
Definition op_step (a b : OperationState) : Prop :=
  operation_transition (OperationState_value a) (OperationState_value b) = Ok b.

#[export] Instance op_step_dec a b : Decision (op_step a b).
Proof.
  unfold op_step. destruct (operation_transition _ _) as [c|].
  - destruct (decide (c = b)) as [->|]; [by left | right; congruence].
  - by right.
Defined.

Lemma operation_transition_Ok v w t :
  operation_transition v w = Ok t ↔
  ∃ s, v = OperationState_value s ∧ w = OperationState_value t ∧ op_step s t.
Proof.
  split.
  - intros H. pose proof H as H0. unfold operation_transition in H.
    destruct (OperationState_of v) as [s|] eqn:Hs; [| discriminate].
    destruct (OperationState_of w) as [u|] eqn:Hu; [| discriminate].
    apply OperationState_of_Some in Hs, Hu. subst v w.
    assert (u = t) as ->.
    { destruct (_ && _); [congruence |]. destruct (negb _); [discriminate | congruence]. }
    by exists s.
  - intros (s & -> & -> & H). done.
Qed.

Lemma op_step_terminal s t : op_step s t → is_terminal s = false.
Proof. by destruct s, t. Qed.

Lemma op_step_active s t :
  is_terminal s = false → s ≠ QUEUED → op_step s t.
Proof. by destruct s, t. Qed.

Lemma op_step_queued t :
  op_step QUEUED t ↔ t ∈ [QUEUED; RUNNING; CANCELLED; INTERRUPTED; OUTCOME_UNKNOWN].
Proof.
  split; [| rewrite !elem_of_cons, elem_of_nil; intuition subst; done].
  destruct t; try discriminate; intros _; by_decide.
Qed.

(** A run of accepted transitions, with the states it visits. *)
Inductive op_run : OperationState → list OperationState → OperationState → Prop :=
| op_run_nil s : op_run s [] s
| op_run_cons s t l u : op_step s t → op_run t l u → op_run s (t :: l) u.

(** ** Properties *)

(** Exactly the listed transitions are accepted: a terminal state accepts
    nothing, an active state other than queued accepts every state, and
    queued accepts only itself, running, cancelled, interrupted and
    outcome_unknown; any other pair, and any string that is not a state,
    raises [StateTransitionError]. *)
Theorem operation_transition_spec v w :
  (∃ s t, v = OperationState_value s ∧ w = OperationState_value t
     ∧ operation_transition v w = Ok t ∧ is_terminal s = false
     ∧ (s = QUEUED → t ∈ [QUEUED; RUNNING; CANCELLED; INTERRUPTED; OUTCOME_UNKNOWN]))
  ∨ (raises StateTransitionError (operation_transition v w) = true
     ∧ ∀ s t, v = OperationState_value s → w = OperationState_value t →
        is_terminal s = true
        ∨ (s = QUEUED ∧ t ∉ [QUEUED; RUNNING; CANCELLED; INTERRUPTED; OUTCOME_UNKNOWN])).
Proof.
  destruct (operation_transition v w) as [t|e] eqn:E.
  - left. apply operation_transition_Ok in E as (s & -> & -> & H).
    exists s, t. repeat split; [by eapply op_step_terminal |].
    intros ->. by apply op_step_queued.
  - right. split.
    + unfold operation_transition in E.
      destruct (OperationState_of v), (OperationState_of w); try (by injection E as <-).
      destruct (_ && _); [discriminate |].
      destruct (negb _); [by injection E as <- | discriminate].
    + intros s t -> ->. destruct (is_terminal s) eqn:Hs; [by left |].
      destruct (decide (s = QUEUED)) as [->|Hq].
      * right. split; [done |]. rewrite <- op_step_queued. unfold op_step. congruence.
      * pose proof (op_step_active s t Hs Hq) as H. unfold op_step in H. congruence.
Qed.

(** Along any run of accepted transitions from queued, an operation that
    ends succeeded or failed has been running, and a terminal state is only
    ever the last one. *)
Theorem operation_run_safe l u :
  op_run QUEUED l u →
  (u = SUCCEEDED ∨ u = FAILED → RUNNING ∈ l)
  ∧ ∀ l1 s l2, l = l1 ++ s :: l2 → is_terminal s = true → l2 = [].
Proof.
  intros Hrun. split.
  - remember QUEUED as q eqn:Hq. intros Hu.
    induction Hrun as [s | s t l u Hst Hrun IH]; subst; [by destruct Hu |].
    apply op_step_queued in Hst. rewrite !elem_of_cons, elem_of_nil in Hst.
    destruct Hst as [-> | [-> | Hst]].
    + rewrite elem_of_cons. right. by apply IH.
    + apply elem_of_cons. by left.
    + assert (Ht : is_terminal t = true) by (by destruct Hst as [-> | [-> | [-> | []]]]).
      inversion Hrun as [| ? ? ? ? Hst' ?]; subst.
      * by destruct Hst as [-> | [-> | [-> | []]]], Hu.
      * apply op_step_terminal in Hst'. congruence.
  - intros l1 s l2 -> Hs. revert Hrun. generalize QUEUED as q.
    induction l1 as [|t l1 IH]; intros q Hrun; simpl in Hrun.
    + inversion Hrun as [| ? ? ? ? _ Hrun']; subst.
      inversion Hrun' as [| ? ? ? ? Hst ?]; subst; [done |].
      apply op_step_terminal in Hst. congruence.
    + inversion Hrun; subst. by eapply IH.
Qed.

Lemma operation_run_safe_witness :
  op_run QUEUED [RUNNING; TRANSFERRING; SUCCEEDED] SUCCEEDED ∧
  (SUCCEEDED = SUCCEEDED ∨ SUCCEEDED = FAILED → RUNNING ∈ [RUNNING; TRANSFERRING; SUCCEEDED])
  ∧ ∀ l1 s l2, [RUNNING; TRANSFERRING; SUCCEEDED] = l1 ++ s :: l2 →
      is_terminal s = true → l2 = [].
Proof.
  assert (H : op_run QUEUED [RUNNING; TRANSFERRING; SUCCEEDED] SUCCEEDED).
  { eapply op_run_cons; [reflexivity |]. eapply op_run_cons; [reflexivity |].
    eapply op_run_cons; [reflexivity |]. apply op_run_nil. }
  split; [exact H | exact (operation_run_safe _ _ H)].
Defined.
