(* ===== verification/Effects.v ===== *)
(** * Effects: computations over a traced world

    The parts of the Gateway that talk to something outside - a device, other
    tasks, the clock - are state-and-exception computations over a world: the
    answers it still has to give, and the trace of what has happened.  The
    combinators are Python's statements ([try], [finally], [suppress], [while]);
    the logic is a weakest precondition over the events a computation appends,
    with one rule for each combinator.

    A world that has no answer left leaves the computation [Blocked].  Loops
    take an answer in every round, so fuel one larger than the answers left is
    always enough; [spec_while] is the invariant rule that shows it. *)
From S2P Require Import Prelude.

(** ** Outcomes *)

Inductive outcome (A : Type) :=
| Done (a : A)
| Raised (e : exn)
| Blocked.
Arguments Done {_} _.
Arguments Raised {_} _.
Arguments Blocked {_}.

(** The outcome's value satisfies a boolean test, or its exception does. *)
Definition done_with {A} (p : A → bool) (o : outcome A) : bool :=
  match o with Done a => p a | _ => false end.
Definition raised_with {A} (p : exn → bool) (o : outcome A) : bool :=
  match o with Raised e => p e | _ => false end.

(** A computation over a world of type [W]. *)
Definition Eff (W A : Type) : Type := W → outcome A * W.

Section control.
Context {W : Type}.
Local Abbreviation M := (Eff W).

#[export] Instance Eff_ret : MRet M := λ A a s, (Done a, s).
#[export] Instance Eff_bind : MBind M := λ A B f m s,
  match m s with
  | (Done a, s') => f a s'
  | (Raised e, s') => (Raised e, s')
  | (Blocked, s') => (Blocked, s')
  end.
#[export] Instance Eff_fmap : FMap M := λ A B f m, a ← m; mret (f a).

Definition lift {A} (r : res A) : M A := λ s,
  match r with Ok a => (Done a, s) | Err e => (Raised e, s) end.
Definition throw {A} (c : exn_class) (msg : string) : M A := lift (raise c msg).

(** [try: m except (cs): h]; fuel exhaustion is not an exception and passes. *)
Definition try_except {A} (m : M A) (cs : list exn_class) (h : exn → M A) : M A := λ s,
  match m s with
  | (Raised e, s') => if catches cs e then h e s' else (Raised e, s')
  | r => r
  end.

(** [try: m finally: fin] *)
Definition try_finally {A} (m : M A) (fin : M unit) : M A := λ s,
  match m s with
  | (Done a, s') => (_ ← fin; mret a) s'
  | (Raised e, s') => (_ ← fin; lift (Err e)) s'
  | (Blocked, s') => (Blocked, s')
  end.

(** [with contextlib.suppress(Exception): m] *)
Definition suppress {A} (m : M A) : M unit :=
  try_except (_ ← m; mret tt) [Exception_] (λ _, mret tt).

(** [try: m except BaseException: cleanup; raise] *)
Definition on_error {A} (m : M A) (cleanup : M unit) : M A :=
  try_except m [BaseException] (λ e, _ ← cleanup; lift (Err e)).
End control.

(** ** Worlds *)

(** An event is an answer of the world, or something else that happened. *)
Class Event (E : Type) := { is_reply : E → bool }.
(** What a world keeps: the trace, the number of its answers left, and that
    none of them is the exhaustion of fuel. *)
Class World (W E : Type) `{Event E} := {
  trace_of : W → list E;
  budget : W → nat;
  env_ok : W → Prop;
}.
#[global] Hint Mode World ! - - : typeclass_instances.

(** ** Specifications

    [spec m Q]: from every state, [m] appends some events [t] to the trace,
    one reply in [t] for every script entry it used up, and its outcome and
    [t] satisfy [Q]. *)

Definition replies {E} `{Event E} (t : list E) : nat := length (List.filter is_reply t).

Lemma replies_app {E} `{Event E} (t u : list E) : replies (t ++ u) = (replies t + replies u)%nat.
Proof. unfold replies. by rewrite List.filter_app, length_app. Qed.

(** Count the replies of explicit events. *)
Ltac rlia := unfold replies; simpl; lia.

Section logic.
Context {W E : Type} {HE : Event E} {HW : World W E}.
Local Abbreviation M := (Eff W).

(** [while cond(st): st = body(st)] *)
Fixpoint while_fuel {S} (fuel : nat) (cond : S → bool) (body : S → M S) (st : S) : M S :=
  match fuel with
  | O => throw NonTermination "while"
  | S fuel => if cond st then st' ← body st; while_fuel fuel cond body st'
              else mret st
  end.

Definition while {S} (cond : S → bool) (body : S → M S) (st : S) : M S := λ s,
  while_fuel (Datatypes.S (budget s)) cond body st s.

Definition spec {A} (m : M A) (Q : outcome A → list E → Prop) : Prop :=
  ∀ s, ∃ t, trace_of (snd (m s)) = trace_of s ++ t
    ∧ budget s = (budget (snd (m s)) + replies t)%nat
    ∧ Q (fst (m s)) t.

Lemma spec_mono {A} (m : M A) (P Q : outcome A → list E → Prop) :
  spec m P → (∀ o t, P o t → Q o t) → spec m Q.
Proof. intros H HPQ s. destruct (H s) as (t & ? & ? & ?). eauto. Qed.

(** A run has one trace, so its specifications hold of the same events. *)
Lemma spec_and {A} (m : M A) (P Q : outcome A → list E → Prop) :
  spec m P → spec m Q → spec m (λ o t, P o t ∧ Q o t).
Proof.
  intros HP HQ s. destruct (HP s) as (t & Ht & Hl & Hp), (HQ s) as (u & Hu & _ & Hq).
  assert (u = t) as -> by (rewrite Ht in Hu; by apply app_inv_head in Hu). by exists t.
Qed.

Lemma spec_ret {A} (a : A) (Q : outcome A → list E → Prop) : Q (Done a) [] → spec (mret a) Q.
Proof. intros H s. exists []. simpl. rewrite app_nil_r. split_and!; [done | rlia | done]. Qed.

Lemma spec_bind {A B} (m : M A) (f : A → M B) (Q : outcome B → list E → Prop) :
  spec m (λ o t, match o with
    | Done a => spec (f a) (λ o2 t2, Q o2 (t ++ t2))
    | Raised e => Q (Raised e) t
    | Blocked => Q Blocked t
    end) → spec (m ≫= f) Q.
Proof.
  intros H s. destruct (H s) as (t & Ht & Hl & HQ). unfold mbind, Eff_bind.
  destruct (m s) as [[a|e|] s1]; simpl in *; [| by exists t ..].
  destruct (HQ s1) as (t2 & Ht2 & Hl2 & HQ2). exists (t ++ t2).
  rewrite Ht2, Ht, replies_app, app_assoc. split_and!; [done | lia | done].
Qed.

Lemma spec_lift {A} (r : res A) (Q : outcome A → list E → Prop) :
  (∀ a, r = Ok a → Q (Done a) []) → (∀ e, r = Err e → Q (Raised e) []) → spec (lift r) Q.
Proof.
  intros Ha He s. exists []. unfold lift. destruct r; simpl; rewrite app_nil_r;
    (split_and!; [done | rlia | auto]).
Qed.

Lemma spec_try {A} (m : M A) cs h (Q : outcome A → list E → Prop) :
  spec m (λ o t, match o with
    | Raised e => if catches cs e then spec (h e) (λ o2 t2, Q o2 (t ++ t2)) else Q (Raised e) t
    | _ => Q o t
    end) → spec (try_except m cs h) Q.
Proof.
  intros H s. destruct (H s) as (t & Ht & Hl & HQ). unfold try_except.
  destruct (m s) as [[a|e|] s1]; simpl in *; [by exists t | | by exists t].
  destruct (catches cs e); [| by exists t].
  destruct (HQ s1) as (t2 & Ht2 & Hl2 & HQ2). exists (t ++ t2).
  rewrite Ht2, Ht, replies_app, app_assoc. split_and!; [done | lia | done].
Qed.

Lemma spec_finally {A} (m : M A) fin (Q : outcome A → list E → Prop) :
  spec m (λ o t, match o with
    | Done a => spec (_ ← fin; mret a) (λ o2 t2, Q o2 (t ++ t2))
    | Raised e => spec (_ ← fin; lift (Err e)) (λ o2 t2, Q o2 (t ++ t2))
    | Blocked => Q Blocked t
    end) → spec (try_finally m fin) Q.
Proof.
  intros H s. destruct (H s) as (t & Ht & Hl & HQ). unfold try_finally.
  destruct (m s) as [[a|e|] s1]; simpl in *; [| | by exists t];
    destruct (HQ s1) as (t2 & Ht2 & Hl2 & HQ2); exists (t ++ t2);
    rewrite Ht2, Ht, replies_app, app_assoc; (split_and!; [done | lia | done]).
Qed.

(** The loop rule: the invariant speaks of the events so far and every
    completed round uses up a reply. *)
Lemma spec_while {S} (I : S → list E → Prop) (cond : S → bool) body
    (Q : outcome S → list E → Prop) st :
  I st [] →
  (∀ st t, I st t → cond st = true →
     spec (body st) (λ o t', match o with
       | Done st' => I st' (t ++ t') ∧ (0 < replies t')%nat
       | Raised e => Q (Raised e) (t ++ t')
       | Blocked => Q Blocked (t ++ t')
       end)) →
  (∀ st t, I st t → cond st = false → Q (Done st) t) →
  spec (while cond body st) Q.
Proof.
  intros HI Hbody Hexit s.
  assert (Hloop : ∀ fuel st t0 s0, I st t0 → trace_of s0 = trace_of s ++ t0 →
    budget s = (budget s0 + replies t0)%nat →
    (budget s0 < fuel)%nat →
    ∃ t, trace_of (snd (while_fuel fuel cond body st s0)) = trace_of s ++ t
      ∧ budget s
        = (budget (snd (while_fuel fuel cond body st s0)) + replies t)%nat
      ∧ Q (fst (while_fuel fuel cond body st s0)) t).
  { induction fuel as [|fuel IH]; intros st1 t0 s0 HI0 Ht0 Hl0 Hf; [lia |].
    cbn [while_fuel]. destruct (cond st1) eqn:Hc.
    2: { exists t0. split_and!; [done | done | by apply Hexit]. }
    destruct (Hbody st1 t0 HI0 Hc s0) as (t1 & Ht1 & Hl1 & HQ1).
    unfold mbind, Eff_bind. destruct (body st1 s0) as [[st2|e|] s1]; simpl in *.
    - destruct HQ1 as [HI1 Hr]. apply (IH st2 (t0 ++ t1) s1); [done | | | lia].
      + by rewrite Ht1, Ht0, app_assoc.
      + rewrite replies_app. lia.
    - exists (t0 ++ t1). rewrite Ht1, Ht0, app_assoc, replies_app. split_and!; [done | lia | done].
    - exists (t0 ++ t1). rewrite Ht1, Ht0, app_assoc, replies_app. split_and!; [done | lia | done]. }
  unfold while. apply (Hloop _ st [] s); [done | by rewrite app_nil_r | | lia].
  unfold replies. simpl. lia.
Qed.

(** A suppressed clean-up call never raises an [Exception]. *)
Lemma spec_suppress {A} (m : M A) (Q : outcome unit → list E → Prop) :
  spec m (λ o t, match o with
    | Done _ => Q (Done tt) t
    | Raised e => if catches [Exception_] e then Q (Done tt) t else Q (Raised e) t
    | Blocked => Q Blocked t
    end) → spec (suppress m) Q.
Proof.
  intros H. apply spec_try, spec_bind. eapply spec_mono; [exact H |].
  intros [a|e|] t HQ.
  - apply spec_ret. by rewrite app_nil_r.
  - destruct (catches [Exception_] e); [| done]. apply spec_ret. by rewrite app_nil_r.
  - done.
Qed.

Lemma spec_on_error {A} (m : M A) cleanup (Q : outcome A → list E → Prop) :
  spec m (λ o t, match o with
    | Raised e =>
      if catches [BaseException] e then
        spec cleanup (λ o2 t2, match o2 with
          | Done _ => Q (Raised e) (t ++ t2)
          | Raised e2 => Q (Raised e2) (t ++ t2)
          | Blocked => Q Blocked (t ++ t2)
          end)
      else Q (Raised e) t
    | _ => Q o t
    end) → spec (on_error m cleanup) Q.
Proof.
  intros H. apply spec_try. eapply spec_mono; [exact H |].
  intros [a|e|] t HQ; [done | | done].
  destruct (catches [BaseException] e); [| done].
  apply spec_bind. eapply spec_mono; [exact HQ |]. intros [u|e2|] t2 HQ2; [| done | done].
  apply spec_lift; [done |]. intros e' [= <-]. by rewrite app_nil_r.
Qed.

Lemma spec_throw {A} c msg (Q : outcome A → list E → Prop) :
  (∀ e, Q (Raised e) []) → spec (throw c msg) Q.
Proof. intros H. by apply spec_lift. Qed.
End logic.

(** Case analysis on the guard a computation is about to test. *)
Tactic Notation "spec_if" ident(H) :=
  match goal with |- spec (if ?b then _ else _) _ => destruct b eqn:H end.

(** ** Termination

    [safe m]: when no environment answer is fuel exhaustion, neither is the
    outcome of [m], and the rest of the environment is still such. *)

Definition exn_ok (e : exn) : Prop := exn_cls e ≠ NonTermination.
Definition res_ok {A} (r : res A) : Prop := match r with Ok _ => True | Err e => exn_ok e end.
Definition outcome_ok {A} (o : outcome A) : Prop :=
  match o with Raised e => exn_ok e | _ => True end.

Lemma res_ok_bind {A B} (r : res A) (f : A → res B) :
  res_ok r → (∀ a, res_ok (f a)) → res_ok (r ≫= f).
Proof. destruct r; simpl; auto. Qed.
Lemma res_ok_raise {A} c msg : c ≠ NonTermination → res_ok (raise c msg : res A).
Proof. done. Qed.
Lemma res_ok_raise_if (b : bool) c msg : c ≠ NonTermination → res_ok (raise_if b c msg).
Proof. by destruct b. Qed.
Lemma res_ok_pack_uint n z : res_ok (pack_uint n z).
Proof. unfold pack_uint. by case_match. Qed.

(** Every Python exception is a [BaseException]. *)
Lemma catches_base e : exn_ok e → catches [BaseException] e = true.
Proof. unfold exn_ok. destruct e as [[] msg st]; simpl; done. Qed.

(** [bytes([z])] *)
Definition byte_of (z : Z) : res bytes :=
  if (0 <=? z) && (z <? 256) then Ok [z]
  else raise ValueError "bytes must be in range(0, 256)".

Lemma res_ok_byte_of z : res_ok (byte_of z).
Proof. unfold byte_of. by case_match. Qed.

Ltac res_oks :=
  repeat first
    [ progress intros
    | done
    | apply res_ok_pack_uint | apply res_ok_byte_of
    | apply res_ok_raise; discriminate | apply res_ok_raise_if; discriminate
    | apply res_ok_bind
    | match goal with
      | |- res_ok (if ?x then _ else _) => destruct x
      | |- res_ok (match ?x with _ => _ end) => destruct x
      end ].

Section termination.
Context {W E : Type} {HE : Event E} {HW : World W E}.
Local Abbreviation M := (Eff W).

Definition safe {A} (m : M A) : Prop :=
  ∀ s, env_ok s → outcome_ok (fst (m s)) ∧ env_ok (snd (m s)).

(** Every completed run of [m] uses up at least one reply. *)
Definition replying {A} (m : M A) : Prop :=
  spec m (λ o t, match o with Done _ => (0 < replies t)%nat | _ => True end).

Lemma safe_ret {A} (a : A) : safe (mret a).
Proof. done. Qed.
Lemma safe_lift {A} (r : res A) : res_ok r → safe (lift r).
Proof. intros Hr s Hs. unfold lift. by destruct r. Qed.
Lemma safe_throw {A} c msg : c ≠ NonTermination → safe (throw c msg : M A).
Proof. intros Hc. by apply safe_lift. Qed.
Lemma safe_bind {A B} (m : M A) (f : A → M B) :
  safe m → (∀ a, safe (f a)) → safe (m ≫= f).
Proof.
  intros Hm Hf s Hs. destruct (Hm s Hs) as [Ho He]. unfold mbind, Eff_bind.
  destruct (m s) as [[a|e|] s1]; simpl in *; [by apply Hf | done | done].
Qed.

Lemma safe_try {A} (m : M A) cs h : safe m → (∀ e, safe (h e)) → safe (try_except m cs h).
Proof.
  intros Hm Hh s Hs. destruct (Hm s Hs) as [Ho He]. unfold try_except.
  destruct (m s) as [[a|e|] s1]; simpl in *; [done | | done].
  destruct (catches cs e); [by apply Hh | done].
Qed.
Lemma safe_try_exn {A} (m : M A) cs h :
  safe m → (∀ e, exn_ok e → safe (h e)) → safe (try_except m cs h).
Proof.
  intros Hm Hh s Hs. destruct (Hm s Hs) as [Ho He]. unfold try_except.
  destruct (m s) as [[a|e|] s1]; simpl in *; [done | | done].
  destruct (catches cs e); [by apply Hh | done].
Qed.
Lemma safe_finally {A} (m : M A) fin : safe m → safe fin → safe (try_finally m fin).
Proof.
  intros Hm Hf s Hs. destruct (Hm s Hs) as [Ho He]. unfold try_finally.
  destruct (m s) as [[a|e|] s1]; simpl in *; [| | done];
    (apply safe_bind; [done | | done]); intros []; [apply safe_ret | by apply safe_lift].
Qed.
Lemma safe_suppress {A} (m : M A) : safe m → safe (suppress m).
Proof. intros. apply safe_try; [| done]. by apply safe_bind. Qed.
Lemma safe_on_error {A} (m : M A) cleanup : safe m → safe cleanup → safe (on_error m cleanup).
Proof.
  intros Hm Hc. apply safe_try_exn; [done |]. intros e He.
  apply safe_bind; [done |]. intros []. by apply safe_lift.
Qed.
Lemma safe_while {S} (cond : S → bool) body st :
  (∀ st, safe (body st)) → (∀ st, cond st = true → replying (body st)) →
  safe (while cond body st).
Proof.
  intros Hb Hr s Hs.
  assert (Hloop : ∀ fuel st s, env_ok s → (budget s < fuel)%nat →
    outcome_ok (fst (while_fuel fuel cond body st s))
    ∧ env_ok (snd (while_fuel fuel cond body st s))).
  { clear st s Hs. induction fuel as [|fuel IH]; intros st s Hs Hf; [lia |].
    cbn [while_fuel]. destruct (cond st) eqn:Hc; [| done].
    destruct (Hb st s Hs) as [Ho He]. destruct (Hr st Hc s) as (t & _ & Hl & Ht).
    unfold mbind, Eff_bind. destruct (body st s) as [[st'|e|] s']; simpl in *; [| done | done].
    apply IH; [done | lia]. }
  apply Hloop; [done | lia].
Qed.

(** ** What uses up replies

    [appending m]: [m] only adds to the trace; [answering m]: unless it blocks,
    [m] uses up a reply. *)

Definition appending {A} (m : M A) : Prop := spec m (λ _ _, True).
Definition answering {A} (m : M A) : Prop := spec m (λ o t, o = Blocked ∨ (0 < replies t)%nat).

Lemma appending_spec {A} (m : M A) Q : spec m Q → appending m.
Proof. intros H. by eapply spec_mono. Qed.
Lemma appending_ret {A} (a : A) : appending (mret a).
Proof. by apply spec_ret. Qed.
Lemma appending_lift {A} (r : res A) : appending (lift r).
Proof. by apply spec_lift. Qed.

Lemma appending_bind {A B} (m : M A) (f : A → M B) :
  appending m → (∀ a, appending (f a)) → appending (m ≫= f).
Proof.
  intros Hm Hf. apply spec_bind. eapply spec_mono; [exact Hm |].
  intros [a|e|] t _; [apply Hf | done | done].
Qed.
Lemma appending_try {A} (m : M A) cs h :
  appending m → (∀ e, appending (h e)) → appending (try_except m cs h).
Proof.
  intros Hm Hh. apply spec_try. eapply spec_mono; [exact Hm |]. intros [] t _; try done.
  destruct (catches cs e); [apply Hh | done].
Qed.
Lemma appending_while {S} (cond : S → bool) body st :
  (∀ st, cond st = true → replying (body st)) → appending (while cond body st).
Proof.
  intros Hr. apply (spec_while (λ _ _, True)); [done | | done]. intros st' t _ Hc.
  eapply spec_mono; [by apply Hr |]. by intros [] t'.
Qed.

Lemma appending_suppress {A} (m : M A) : appending m → appending (suppress m).
Proof.
  intros. apply appending_try; [apply appending_bind; [done |] |]; intros; apply appending_ret.
Qed.
Lemma appending_on_error {A} (m : M A) cleanup :
  appending m → appending cleanup → appending (on_error m cleanup).
Proof.
  intros. apply appending_try; [done |]. intros e.
  apply appending_bind; [done |]. intros []. apply appending_lift.
Qed.

Lemma appending_finally {A} (m : M A) fin :
  appending m → appending fin → appending (try_finally m fin).
Proof.
  intros Hm Hf. apply spec_finally. eapply spec_mono; [exact Hm |].
  intros [a|e|] t _; [| | done]; (apply appending_bind; [exact Hf |]); intros;
    [apply appending_ret | apply appending_lift].
Qed.

Lemma answering_bind {A B} (m : M A) (f : A → M B) :
  answering m → (∀ a, appending (f a)) → answering (m ≫= f).
Proof.
  intros Hm Hf. apply spec_bind. eapply spec_mono; [exact Hm |].
  intros [a|e|] t Ht; [| | by left].
  - destruct Ht as [? | Ht]; [done |]. eapply spec_mono; [apply Hf |].
    intros o t2 _. right. rewrite replies_app. lia.
  - destruct Ht as [? | Ht]; [done | by right].
Qed.
Lemma answering_try {A} (m : M A) cs h :
  answering m → (∀ e, appending (h e)) → answering (try_except m cs h).
Proof.
  intros Hm Hh. apply spec_try. eapply spec_mono; [exact Hm |].
  intros [a|e|] t Ht; [done | | by left]. destruct Ht as [? | Ht]; [done |].
  destruct (catches cs e); [| by right]. eapply spec_mono; [apply Hh |].
  intros o t2 _. right. rewrite replies_app. lia.
Qed.
Lemma answering_replying {A} (m : M A) : answering m → replying m.
Proof.
  intros H. eapply spec_mono; [exact H |]. intros [] t [? | ?]; done.
Qed.
Lemma replying_lift_bind {A B} (r : res A) (f : A → M B) :
  (∀ a, replying (f a)) → replying (lift r ≫= f).
Proof. intros Hf. apply spec_bind, spec_lift; [| done]. intros a _. apply Hf. Qed.
Lemma replying_throw {A} c msg : replying (throw c msg : M A).
Proof. by apply spec_lift. Qed.
End termination.


(** ** What a computation that returns has seen

    [returning m P]: when [m] returns, its result and events satisfy [P]. *)

Section returning.
Context {W E : Type} {HE : Event E} {HW : World W E}.
Local Abbreviation M := (Eff W).

Definition returns {A} (P : A → list E → Prop) (o : outcome A) (t : list E) : Prop :=
  match o with Done a => P a t | _ => True end.
Definition returning {A} (m : M A) (P : A → list E → Prop) : Prop := spec m (returns P).

Lemma returning_mono {A} (m : M A) (P Q : A → list E → Prop) :
  returning m P → (∀ a t, P a t → Q a t) → returning m Q.
Proof. intros H HPQ. eapply spec_mono; [exact H |]. intros [] t; simpl; auto. Qed.
Lemma returning_any {A} (m : M A) : appending m → returning m (λ _ _, True).
Proof. intros H. eapply spec_mono; [exact H |]. by intros []. Qed.
Lemma returning_ret {A} (a : A) (Q : A → list E → Prop) : Q a [] → returning (mret a) Q.
Proof. intros H. by apply spec_ret. Qed.
Lemma returning_lift {A} (r : res A) (Q : A → list E → Prop) :
  (∀ a, r = Ok a → Q a []) → returning (lift r) Q.
Proof. intros H. by apply spec_lift. Qed.
Lemma returning_throw {A} c msg (Q : A → list E → Prop) : returning (throw c msg) Q.
Proof. by apply spec_lift. Qed.
Lemma returning_bind {A B} (m : M A) (f : A → M B) (P : A → list E → Prop) (Q : B → list E → Prop) :
  returning m P → (∀ a t, P a t → returning (f a) (λ b t2, Q b (t ++ t2))) → returning (m ≫= f) Q.
Proof.
  intros Hm Hf. apply spec_bind. eapply spec_mono; [exact Hm |].
  intros [a|e|] t Ht; [by apply Hf | done | done].
Qed.
(** What comes before does not matter. *)
Lemma returning_after {A B} (m : M A) (f : A → M B) (Q : B → list E → Prop) :
  appending m → (∀ a t, returning (f a) (λ b t2, Q b (t ++ t2))) → returning (m ≫= f) Q.
Proof. intros Hm Hf. eapply returning_bind; [by apply returning_any |]. intros a t _. apply Hf. Qed.
Lemma returning_lift_bind {A B} (r : res A) (f : A → M B) (Q : B → list E → Prop) :
  (∀ a, r = Ok a → returning (f a) Q) → returning (lift r ≫= f) Q.
Proof.
  intros Hf. eapply (returning_bind _ _ (λ a t, r = Ok a ∧ t = [])); [by apply returning_lift |].
  intros a t [Ha ->]. eapply returning_mono; [by apply Hf | done].
Qed.
Lemma returning_try {A} (m : M A) cs h (Q : A → list E → Prop) :
  returning m Q → (∀ e t, returning (h e) (λ a t2, Q a (t ++ t2))) → returning (try_except m cs h) Q.
Proof.
  intros Hm Hh. apply spec_try. eapply spec_mono; [exact Hm |]. intros [a|e|] t Ht; [done | | done].
  destruct (catches cs e); [apply Hh | done].
Qed.
Lemma returning_finally {A} (m : M A) fin (P Q : A → list E → Prop) :
  returning m P → appending fin → (∀ a t t2, P a t → Q a (t ++ t2)) → returning (try_finally m fin) Q.
Proof.
  intros Hm Hfin HPQ. apply spec_finally. eapply spec_mono; [exact Hm |]. intros [a|e|] t Ht; [| | done];
    apply spec_bind; (eapply spec_mono; [exact Hfin |]); intros [u|e2|] t2 _; try done.
  - apply spec_ret. rewrite app_nil_r. by apply HPQ.
  - by apply spec_lift.
Qed.
End returning.

(** ** How often something happens

    [at_most p n m]: at most [n] events of a run of [m] satisfy [p]. *)

(** [except (cs): raise C(msg)] around a body, with a clean-up that cannot
    fail: no exception of the classes [cs] leaves it. *)
Lemma spec_converted {W E} {HE : Event E} {HW : World W E} {A} (m : Eff W A) cs c msg fin :
  appending m → catches cs (Exn c msg 0) = false → spec fin (λ o _, o = Done tt ∨ o = Blocked) →
  spec (try_finally (try_except m cs (λ _, throw c msg)) fin)
    (λ o _, ∀ e, o = Raised e → catches cs e = false).
Proof.
  intros Hm Hc Hfin. apply spec_finally, spec_try. eapply spec_mono; [exact Hm |].
  assert (Hk : ∀ k : Eff W A, spec k (λ o _, ∀ e, o = Raised e → catches cs e = false) →
    spec (_ ← fin; k) (λ o _, ∀ e, o = Raised e → catches cs e = false)).
  { intros k Hk. apply spec_bind. eapply spec_mono; [exact Hfin |]. intros o t [-> | ->]; [exact Hk | done]. }
  intros [a|e|] t _; [by apply Hk, spec_ret | | done].
  destruct (catches cs e) eqn:E1.
  - apply spec_lift; [done |]. intros e' [= <-]. apply Hk, spec_lift; [done |]. by intros e'' [= <-] ? [= <-].
  - apply Hk, spec_lift; [done |]. by intros e'' [= <-] ? [= <-].
Qed.

Section counting.
Context {W E : Type} {HE : Event E} {HW : World W E} (p : E → bool).
Local Abbreviation M := (Eff W).

Definition count (t : list E) : nat := length (List.filter p t).
Lemma count_app t u : count (t ++ u) = (count t + count u)%nat.
Proof. unfold count. by rewrite List.filter_app, length_app. Qed.

Definition at_most {A} (n : nat) (m : M A) : Prop := spec m (λ _ t, (count t ≤ n)%nat).

Lemma at_most_mono {A} n n' (m : M A) : at_most n m → (n ≤ n')%nat → at_most n' m.
Proof. intros H Hn. eapply spec_mono; [exact H |]. simpl. intros. lia. Qed.
Lemma at_most_ret {A} n (a : A) : at_most n (mret a).
Proof. apply spec_ret. apply Nat.le_0_l. Qed.
Lemma at_most_lift {A} n (r : res A) : at_most n (lift r).
Proof. apply spec_lift; intros; apply Nat.le_0_l. Qed.
Lemma at_most_bind_sum {A B} k l (m : M A) (f : A → M B) :
  at_most k m → (∀ a, at_most l (f a)) → at_most (k + l) (m ≫= f).
Proof.
  intros Hm Hf. apply spec_bind. eapply spec_mono; [exact Hm |].
  intros [a|e|] t Ht; cbv beta in Ht; [| lia | lia].
  eapply spec_mono; [apply Hf |]. simpl. intros o t2 Ht2. rewrite count_app. lia.
Qed.
Lemma at_most_bind {A B} n (m : M A) (f : A → M B) :
  at_most 0 m → (∀ a, at_most n (f a)) → at_most n (m ≫= f).
Proof. apply (at_most_bind_sum 0). Qed.
Lemma at_most_try {A} n (m : M A) cs h :
  at_most n m → (∀ e, at_most 0 (h e)) → at_most n (try_except m cs h).
Proof.
  intros Hm Hh. apply spec_try. eapply spec_mono; [exact Hm |]. intros [a|e|] t Ht; [done | | done].
  destruct (catches cs e); [| done].
  eapply spec_mono; [apply Hh |]. simpl. intros o t2 Ht2. rewrite count_app. lia.
Qed.
Lemma at_most_finally {A} n (m : M A) fin : at_most n m → at_most 0 fin → at_most n (try_finally m fin).
Proof.
  intros Hm Hf. apply spec_finally. eapply spec_mono; [exact Hm |].
  assert (Hk : ∀ t (k : M A), (count t ≤ n)%nat → at_most 0 k →
    spec (_ ← fin; k) (λ _ t2, (count (t ++ t2) ≤ n)%nat)).
  { intros t k Ht Hk'. eapply spec_mono; [by apply at_most_bind; [exact Hf |] |].
    simpl. intros o t2 Ht2. rewrite count_app. lia. }
  intros [a|e|] t Ht; [apply Hk; [done | apply at_most_ret] | apply Hk; [done | apply at_most_lift] | done].
Qed.
(** What holds of every outcome once [p] has happened. *)
Lemma once_happened {A B} (m : M A) (f : A → M B) (R : outcome B → Prop) :
  at_most 0 m → (∀ a, spec (f a) (λ o t, (0 < count t)%nat → R o)) →
  spec (m ≫= f) (λ o t, (0 < count t)%nat → R o).
Proof.
  intros Hm Hf. apply spec_bind. eapply spec_mono; [exact Hm |]. intros [a|e|] t Ht; [| lia | lia].
  eapply spec_mono; [apply Hf |]. simpl. intros o t2 Ho. rewrite count_app. intros. apply Ho. lia.
Qed.
Lemma at_most_while {S} (cond : S → bool) body st :
  (∀ st, at_most 0 (body st)) → (∀ st, cond st = true → replying (body st)) → at_most 0 (while cond body st).
Proof.
  intros Hb Hr. apply (spec_while (λ _ t, count t = 0%nat)); [done | | intros st' t ->; lia].
  intros st' t Ht Hc s.
  destruct (Hr st' Hc s) as (u & Hu & Hl & Hr'), (Hb st' s) as (u' & Hu' & _ & Hb').
  assert (u' = u) as -> by (rewrite Hu in Hu'; by apply app_inv_head in Hu').
  exists u. split_and!; [done | done |].
  destruct (fst (body st' s)); rewrite count_app; (split; [lia | done]) || lia.
Qed.
End counting.

Create HintDb safe.
