(* ===== verification/Io.v ===== *)
(** * Device transactions: requests, exceptions and retries

    The Gateway talks to a device through [DeviceSession._request], which
    returns the response frame or raises.  A transaction is modelled as a
    state-and-exception computation over the list of replies the session
    will deliver (its [script]) and the trace of what the transaction did.
    Quantifying over all scripts quantifies over all device and network
    behaviours: a reply is any frame or any exception, including the timeouts
    and connection losses the code catches.  A script that runs out leaves
    the transaction [Blocked] in its last request.

    Every loop of a transaction sends at least one request per round, so
    fuel one larger than the script is always enough; [spec_while] is the
    invariant rule that shows it, and no outcome of a modelled transaction is
    a [NonTermination] exception. *)
From S2P Require Import Prelude Protocol Effects.

(** ** State and outcomes *)

Record request := Request {
  rq_channel : Z;
  rq_type : Z;
  rq_payload : bytes;
  rq_timeout_ms : Z;
  rq_stream_id : Z;
}.

(** The argument of a progress callback; [pg_component] is the component id,
    kind, index and count of a system update. *)
Record progress := Progress {
  pg_stage : string;
  pg_job_id : option Z;
  pg_operation_id : string;
  pg_component : option (Z * string * Z * Z);
  pg_bytes_received : Z;
  pg_bytes_total : Z;
  pg_permille : Z;
  pg_partition : string;
}.

Inductive event :=
| EvSend (r : request)
| EvReply (a : res Frame)
| EvNotify (r : request)
| EvProgress (p : progress)
| EvYield (data : bytes)
| EvSleep (ms : Z).

Record io := Io {
  io_script : list (res Frame);
  (** results of the next progress callbacks; succeeding once exhausted *)
  io_callbacks : list (res unit);
  io_trace : list event;
}.

#[export] Instance event_replies : Event event :=
  {| is_reply e := match e with EvReply _ => true | _ => false end |}.
#[export] Instance io_world : World io event :=
  {| trace_of := io_trace; budget s := length (io_script s);
     env_ok s := Forall res_ok (io_script s) ∧ Forall res_ok (io_callbacks s) |}.

Abbreviation M := (Eff io).

Definition emit (e : event) : M unit := λ s,
  (Done tt, Io (io_script s) (io_callbacks s) (io_trace s ++ [e])).

(** [await request(...)] *)
Definition send_request (r : request) : M Frame := λ s,
  let s1 := Io (io_script s) (io_callbacks s) (io_trace s ++ [EvSend r]) in
  match io_script s with
  | [] => (Blocked, s1)
  | a :: rest =>
    lift a (Io rest (io_callbacks s) (io_trace s1 ++ [EvReply a]))
  end.

(** [if progress_callback is not None: await progress_callback(p)] *)
Definition report (present : bool) (p : progress) : M unit := λ s,
  if present then
    let s1 := Io (io_script s) (tl (io_callbacks s)) (io_trace s ++ [EvProgress p]) in
    match io_callbacks s with
    | Err e :: _ => (Raised e, s1)
    | _ => (Done tt, s1)
    end
  else (Done tt, s).

(** A frame the transaction writes without awaiting a reply; the write may
    raise. *)
Definition notify (r : request) : M unit := λ s,
  let s1 := Io (io_script s) (tl (io_callbacks s)) (io_trace s ++ [EvNotify r]) in
  match io_callbacks s with
  | Err e :: _ => (Raised e, s1)
  | _ => (Done tt, s1)
  end.

(** [yield data]: the consumer resumes the generator, or closes it. *)
Definition yield_data (data : bytes) : M unit := λ s,
  let s1 := Io (io_script s) (tl (io_callbacks s)) (io_trace s ++ [EvYield data]) in
  match io_callbacks s with
  | Err e :: _ => (Raised e, s1)
  | _ => (Done tt, s1)
  end.

Lemma spec_emit e (Q : outcome unit → list event → Prop) :
  is_reply e = false → Q (Done tt) [e] → spec (emit e) Q.
Proof.
  intros He H s. exists [e]. simpl. unfold replies. cbn [List.filter]. rewrite He.
  split_and!; [done | rlia | done].
Qed.

Lemma spec_request r (Q : outcome Frame → list event → Prop) :
  Q Blocked [EvSend r] →
  (∀ f, Q (Done f) [EvSend r; EvReply (Ok f)]) →
  (∀ e, Q (Raised e) [EvSend r; EvReply (Err e)]) →
  spec (send_request r) Q.
Proof.
  intros Hb Hd He s. unfold send_request; simpl. destruct (io_script s) as [|a rest] eqn:E.
  - exists [EvSend r]. split_and!; [done | rlia | done].
  - exists [EvSend r; EvReply a]. destruct a; simpl; rewrite <- app_assoc;
      (split_and!; [done | rlia | auto]).
Qed.

Lemma spec_report (b : bool) p (Q : outcome unit → list event → Prop) :
  (let t := if b then [EvProgress p] else [] in Q (Done tt) t ∧ ∀ e, Q (Raised e) t) →
  spec (report b p) Q.
Proof.
  intros [Hd He] s. unfold report. destruct b.
  - exists [EvProgress p]. destruct (io_callbacks s) as [|[] l]; simpl;
      (split_and!; [done | rlia | auto]).
  - exists []. simpl. rewrite app_nil_r. split_and!; [done | rlia | auto].
Qed.

Lemma spec_yield data (Q : outcome unit → list event → Prop) :
  Q (Done tt) [EvYield data] → (∀ e, Q (Raised e) [EvYield data]) → spec (yield_data data) Q.
Proof.
  intros Hd He s. unfold yield_data. exists [EvYield data].
  destruct (io_callbacks s) as [|[] l]; simpl; (split_and!; [done | rlia | auto]).
Qed.

Lemma spec_notify r (Q : outcome unit → list event → Prop) :
  Q (Done tt) [EvNotify r] → (∀ e, Q (Raised e) [EvNotify r]) → spec (notify r) Q.
Proof.
  intros Hd He s. unfold notify. exists [EvNotify r].
  destruct (io_callbacks s) as [|[] l]; simpl; (split_and!; [done | rlia | auto]).
Qed.

(** [finally: with suppress(Exception): await request(r)]: the last exchange
    is that request, whatever happened before. *)
Lemma spec_finally_request {A} (m : M A) r (Q : outcome A → list event → Prop) :
  spec m (λ o t, match o with
    | Blocked => Q Blocked t
    | _ => Q Blocked (t ++ [EvSend r])
           ∧ ∀ a, let u := t ++ [EvSend r; EvReply a] in Q o u ∧ ∀ e, Q (Raised e) u
    end) → spec (try_finally m (suppress (send_request r))) Q.
Proof.
  intros H. apply spec_finally. eapply spec_mono; [exact H |].
  assert (Hclose : ∀ o t, (Q Blocked (t ++ [EvSend r])
      ∧ ∀ a, let u := t ++ [EvSend r; EvReply a] in Q o u ∧ ∀ e, Q (Raised e) u) →
    ∀ k, (k = λ _ : (), match o return M A with Done a => mret a | Raised e => lift (Err e)
                       | Blocked => lift (Err (Exn BaseException "" 0)) end) →
    o ≠ Blocked →
    spec (suppress (send_request r) ≫= k) (λ o2 t2, Q o2 (t ++ t2))).
  { intros o t [Hb Hr] k -> Ho. apply spec_bind.
    assert (Hk : ∀ a, spec (match o return M A with Done a => mret a | Raised e => lift (Err e)
      | Blocked => lift (Err (Exn BaseException "" 0)) end)
      (λ o2 t2, Q o2 (t ++ [EvSend r; EvReply a] ++ t2))).
    { intros a. specialize (Hr a) as [Hr _]. cbv zeta in Hr. destruct o as [x|e|]; [| | done].
      - apply spec_ret. by rewrite app_nil_r.
      - apply spec_lift; [done |]. intros e' [= <-]. by rewrite app_nil_r. }
    apply spec_suppress, spec_request; [done | intros f; apply Hk |].
    intros e. destruct (catches [Exception_] e); [apply Hk | by apply Hr]. }
  intros [a|e|] t Ht; [| | done]; by eapply Hclose.
Qed.

Lemma safe_request r : safe (send_request r).
Proof.
  intros s [H1 H2]. unfold send_request. destruct (io_script s) as [|a l] eqn:E; simpl.
  - split; [done |]. split; [constructor | done].
  - apply Forall_cons in H1 as [Ha Hl]. by destruct a.
Qed.
Lemma safe_emit e : safe (emit e).
Proof. done. Qed.
Lemma safe_report b p : safe (report b p).
Proof.
  intros s [H1 H2]. unfold report. destruct b; [| done].
  destruct (io_callbacks s) as [|[u|e] l]; [done | |]; apply Forall_cons in H2 as [He Hl];
    repeat split; done.
Qed.
Lemma safe_yield data : safe (yield_data data).
Proof.
  intros s [H1 H2]. unfold yield_data.
  destruct (io_callbacks s) as [|[u|e] l]; [done | |]; apply Forall_cons in H2 as [He Hl];
    repeat split; done.
Qed.
Lemma safe_notify r : safe (notify r).
Proof.
  intros s [Hs Hc]. unfold notify, env_ok. destruct (io_callbacks s) as [|[] l]; simpl;
    [done | |]; apply Forall_cons in Hc as [? ?]; done.
Qed.

#[export] Hint Resolve safe_ret safe_request safe_emit safe_report : safe.

(** A request answers or raises; what follows it is free. *)
Lemma replying_request r : replying (send_request r).
Proof. apply spec_request; intros; rlia || done. Qed.

Lemma appending_request r : appending (send_request r).
Proof. by apply spec_request. Qed.
Lemma appending_report b p : appending (report b p).
Proof. by apply spec_report. Qed.
Lemma appending_emit e : is_reply e = false → appending (emit e).
Proof. intros. by apply spec_emit. Qed.
Lemma appending_yield data : appending (yield_data data).
Proof. by apply spec_yield. Qed.
Lemma appending_notify r : appending (notify r).
Proof. by apply spec_notify. Qed.
Lemma answering_request r : answering (send_request r).
Proof. apply spec_request; [by left | |]; intros; right; rlia. Qed.
Create HintDb appending.
#[export] Hint Resolve appending_ret appending_lift appending_request appending_report
  appending_bind appending_try answering_request answering_bind : appending.
#[export] Hint Extern 1 (appending (throw _ _)) => apply appending_lift : appending.

(** Follow the structure of a transaction. *)
Ltac appends :=
  repeat first
    [ progress intros
    | apply appending_bind | apply appending_try | apply appending_ret
    | apply appending_lift | apply appending_request | apply appending_report
    | apply appending_yield | apply appending_notify | apply appending_emit; reflexivity
    | apply appending_suppress | apply appending_on_error
    | match goal with
      | |- appending (match ?x with _ => _ end) => destruct x
      | |- appending (let '(_, _) := ?x in _) => destruct x
      end ].
Ltac safes :=
  repeat first
    [ progress intros
    | apply safe_bind | apply safe_try | apply safe_ret | apply safe_request
    | apply safe_report | apply safe_yield | apply safe_notify | apply safe_emit | apply safe_suppress | apply safe_on_error
    | apply safe_throw; discriminate
    | match goal with
      | |- safe (match ?x with _ => _ end) => destruct x
      end ].
