(* ===== verification/Device.v ===== *)
(** * Transactions against a device

    A small program logic that relates a transaction to the peer it talks to.
    A device is a state type and a relation [handles]: what it may do with a
    request, and reply.  The link between them loses messages: a request that
    raises was either never handled, or handled and its reply lost.
    [dspec P m Q E] says that, started with the device in a state satisfying
    [P], the transaction [m] leaves it in a state satisfying [Q a] when it
    returns [a], and [E e] when it raises [e]. *)
From S2P Require Import Prelude Protocol Effects Io.

Section device.
Context {D : Type} (handles : D → request → D → Frame → Prop).

(** The device and the request the link is carrying. *)
Definition link_state : Type := D * option request.

Inductive link_step : link_state → event → link_state → Prop :=
| step_send d r : link_step (d, None) (EvSend r) (d, Some r)
| step_reply d r d' f :
    handles d r d' f → link_step (d, Some r) (EvReply (Ok f)) (d', None)
| step_request_lost d r e : link_step (d, Some r) (EvReply (Err e)) (d, None)
| step_reply_lost d r d' f e :
    handles d r d' f → link_step (d, Some r) (EvReply (Err e)) (d', None)
| step_progress d p : link_step (d, None) (EvProgress p) (d, None)
| step_yield d data : link_step (d, None) (EvYield data) (d, None)
| step_sleep d ms : link_step (d, None) (EvSleep ms) (d, None).

Inductive link_steps : link_state → list event → link_state → Prop :=
| steps_nil x : link_steps x [] x
| steps_cons x e y t z : link_step x e y → link_steps y t z → link_steps x (e :: t) z.

Lemma link_steps_app x t u z :
  link_steps x (t ++ u) z ↔ ∃ y, link_steps x t y ∧ link_steps y u z.
Proof.
  revert x. induction t as [|e t IH]; intros x; simpl.
  - split; [intros H; exists x; by split; [constructor |] |].
    intros (y & H & ?). by inversion H; subst.
  - split.
    + intros H. inversion H as [|? ? y ? ? He Ht]; subst.
      apply IH in Ht as (w & ? & ?). exists w. split; [by econstructor | done].
    + intros (w & H & ?). inversion H as [|? ? y ? ? He Ht]; subst.
      econstructor; [done |]. apply IH. by exists w.
Qed.

Definition dpost {A} (Q : A → D → Prop) (E : exn → D → Prop) (o : outcome A) (d : D) : Prop :=
  match o with Done a => Q a d | Raised e => E e d | Blocked => True end.

Definition dspec {A} (P : D → Prop) (m : M A) (Q : A → D → Prop) (E : exn → D → Prop) : Prop :=
  spec m (λ o t, o = Blocked ∨ ∀ d x, P d → link_steps (d, None) t x →
    ∃ d', x = (d', None) ∧ dpost Q E o d').

Lemma dspec_conseq {A} (P P' : D → Prop) (m : M A) (Q Q' : A → D → Prop) E E' :
  dspec P m Q E → (∀ d, P' d → P d) → (∀ a d, Q a d → Q' a d) → (∀ e d, E e d → E' e d) →
  dspec P' m Q' E'.
Proof.
  intros H HP HQ HE. eapply spec_mono; [exact H |]. intros o t [-> | Ho]; [by left | right].
  intros d x Hd Hx. destruct (Ho d x (HP d Hd) Hx) as (d' & -> & Hpost).
  exists d'. split; [done |]. destruct o; simpl in *; auto.
Qed.

Lemma dspec_pre {A} (P P' : D → Prop) (m : M A) Q E :
  (∀ d, P' d → P d) → dspec P m Q E → dspec P' m Q E.
Proof. intros HP H. by eapply dspec_conseq. Qed.

(** A pure part of the precondition becomes a hypothesis. *)
Lemma dspec_pure {A} (φ : Prop) `{!Decision φ} (P : D → Prop) (m : M A) Q E :
  appending m → (φ → dspec P m Q E) → dspec (λ d, φ ∧ P d) m Q E.
Proof.
  intros Ha H. destruct (decide φ) as [Hφ | Hφ].
  - eapply dspec_pre; [| by apply H]. by intros d [_ ?].
  - eapply spec_mono; [exact Ha |]. intros o t _. right. by intros d x [? _].
Qed.

Lemma dspec_false {A} (m : M A) Q E : appending m → dspec (λ _, False) m Q E.
Proof. intros Ha. eapply spec_mono; [exact Ha |]. intros o t _. by right. Qed.

Lemma dspec_ret {A} (P : D → Prop) (a : A) (Q : A → D → Prop) E :
  (∀ d, P d → Q a d) → dspec P (mret a) Q E.
Proof.
  intros H. apply spec_ret. right. intros d x Hd Hx. inversion Hx; subst.
  exists d. split; [done | by apply H].
Qed.

Lemma dspec_lift {A} (P : D → Prop) (r : res A) (Q : A → D → Prop) E :
  (∀ a d, r = Ok a → P d → Q a d) → (∀ e d, r = Err e → P d → E e d) → dspec P (lift r) Q E.
Proof.
  intros HQ HE. apply spec_lift; intros ? Hr; right; intros d x Hd Hx; inversion Hx; subst;
    exists d; (split; [done |]); simpl; auto.
Qed.

Lemma dspec_throw {A} (P : D → Prop) c msg (Q : A → D → Prop) (E : exn → D → Prop) :
  (∀ e d, P d → E e d) → dspec P (throw c msg) Q E.
Proof. intros H. apply dspec_lift; [done | auto]. Qed.

Lemma dspec_bind {A B} (P : D → Prop) (m : M A) (f : A → M B) R (Q : B → D → Prop) E :
  dspec P m R E → (∀ a, dspec (R a) (f a) Q E) → dspec P (m ≫= f) Q E.
Proof.
  intros Hm Hf. apply spec_bind. eapply spec_mono; [exact Hm |].
  intros [a|e|] t [? | Ho]; try done; [| by right | by left ..].
  eapply spec_mono; [apply Hf |]. intros o2 t2 [-> | Ho2]; [by left | right].
  intros d x Hd (y & Hy & Hx)%link_steps_app.
  destruct (Ho d y Hd Hy) as (d1 & -> & HR). by apply (Ho2 d1).
Qed.

Lemma dspec_lift_Ok {A B} (P : D → Prop) (a : A) (f : A → M B) (Q : B → D → Prop) E :
  dspec P (f a) Q E → dspec P (lift (Ok a) ≫= f) Q E.
Proof. intros H. exact H. Qed.

Lemma dspec_lift_Err {A B} (P : D → Prop) e (f : A → M B) (Q : B → D → Prop) (E : exn → D → Prop) :
  (∀ d, P d → E e d) → dspec P (lift (Err e) ≫= f) Q E.
Proof. intros H. exact (dspec_lift P (Err e) Q E (λ _ _ Ha, ltac:(discriminate Ha))
  (λ e' d He Hd, ltac:(injection He as <-; by apply H))). Qed.

(** A request is handled and answered, or raises with or without having been
    handled. *)
Lemma dspec_request (P : D → Prop) r (Q : Frame → D → Prop) (E : exn → D → Prop) :
  (∀ d d' f, P d → handles d r d' f → Q f d' ∧ ∀ e, E e d') →
  (∀ e d, P d → E e d) →
  dspec P (send_request r) Q E.
Proof.
  intros HQ HE. apply spec_request; [by left | |].
  - intros f. right. intros d x Hd Hx.
    inversion Hx as [|? ? y ? ? He Ht]; subst. inversion He; subst. clear He Hx.
    inversion Ht as [|? ? z ? ? He Ht']; subst. inversion He; subst.
    inversion Ht'; subst. eexists. split; [done |]. by eapply HQ.
  - intros e. right. intros d x Hd Hx.
    inversion Hx as [|? ? y ? ? He Ht]; subst. inversion He; subst. clear He Hx.
    inversion Ht as [|? ? z ? ? He Ht']; subst.
    inversion He; subst; inversion Ht'; subst; eexists; (split; [done |]); simpl.
    + by apply HE.
    + by eapply HQ.
Qed.

Lemma dspec_report (P : D → Prop) b p (E : exn → D → Prop) :
  (∀ e d, P d → E e d) → dspec P (report b p) (λ _, P) E.
Proof.
  intros HE. apply spec_report.
  assert (H : ∀ d x, link_steps (d, None) (if b then [EvProgress p] else []) x → x = (d, None)).
  { intros d x Hx. destruct b; inversion Hx as [|? ? y ? ? He Ht]; subst; [| done].
    inversion He; subst. by inversion Ht. }
  split; [| intros e]; right; intros d x Hd Hx%H; subst; eexists; (split; [done |]);
    simpl; auto.
Qed.

Lemma dspec_emit (P : D → Prop) ms (E : exn → D → Prop) :
  dspec P (emit (EvSleep ms)) (λ _, P) E.
Proof.
  apply spec_emit; [done |]. right. intros d x Hd Hx.
  inversion Hx as [|? ? y ? ? He Ht]; subst. inversion He; subst. inversion Ht; subst.
  by exists d.
Qed.

Lemma dspec_yield (P : D → Prop) data (E : exn → D → Prop) :
  (∀ e d, P d → E e d) → dspec P (yield_data data) (λ _, P) E.
Proof.
  intros HE.
  assert (H : ∀ d x, link_steps (d, None) [EvYield data] x → x = (d, None)).
  { intros d x Hx. inversion Hx as [|? ? y ? ? He Ht]; subst.
    inversion He; subst. by inversion Ht. }
  apply spec_yield; [| intros e]; right; intros d x Hd Hx%H; subst; eexists;
    (split; [done |]); simpl; auto.
Qed.

Lemma dspec_try {A} (P : D → Prop) (m : M A) cs h R (Q : A → D → Prop) E :
  dspec P m Q R → (∀ e, catches cs e = true → dspec (R e) (h e) Q E) →
  (∀ e d, catches cs e = false → R e d → E e d) →
  dspec P (try_except m cs h) Q E.
Proof.
  intros Hm Hh HE. apply spec_try. eapply spec_mono; [exact Hm |].
  intros [a|e|] t [? | Ho]; try done; [by right | | by left ..].
  destruct (catches cs e) eqn:Hc.
  - eapply spec_mono; [by apply Hh |]. intros o2 t2 [-> | Ho2]; [by left | right].
    intros d x Hd (y & Hy & Hx)%link_steps_app.
    destruct (Ho d y Hd Hy) as (d1 & -> & HR). by apply (Ho2 d1).
  - right. intros d x Hd Hx. destruct (Ho d x Hd Hx) as (d' & -> & HR).
    exists d'. split; [done |]. by apply HE.
Qed.

Lemma dspec_suppress {A} (P : D → Prop) (m : M A) (Q : D → Prop) (E : exn → D → Prop) :
  dspec P m (λ _, Q) (λ _, Q) → (∀ e d, Q d → E e d) → dspec P (suppress m) (λ _, Q) E.
Proof.
  intros Hm HE. eapply (dspec_try _ _ _ _ (λ _, Q)).
  - eapply dspec_bind; [exact Hm |]. intros a. by apply dspec_ret.
  - intros e _. by apply dspec_ret.
  - auto.
Qed.

Lemma dspec_on_error {A} (P : D → Prop) (m : M A) cleanup (Q : A → D → Prop) :
  dspec P m Q (λ _ _, True) → dspec (λ _, True) cleanup (λ _ _, True) (λ _ _, True) →
  dspec P (on_error m cleanup) Q (λ _ _, True).
Proof.
  intros Hm Hc. eapply dspec_try; [exact Hm | | done].
  intros e _. eapply dspec_bind; [by eapply dspec_conseq |].
  intros []. by apply dspec_lift.
Qed.

(** A [finally] clause keeps what is known of the result. *)
Lemma dspec_finally {A} (P : D → Prop) (m : M A) fin (φ : A → Prop) E :
  dspec P m (λ a _, φ a) E → dspec (λ _, True) fin (λ _ _, True) (λ _ _, True) →
  dspec P (try_finally m fin) (λ a _, φ a) (λ _ _, True).
Proof.
  intros Hm Hf. apply spec_finally. eapply spec_mono; [exact Hm |].
  intros [a|e|] t Ht; [| | by left]; apply spec_bind; eapply spec_mono; try exact Hf;
    intros [u|e'|] t2 Ht2; try by left.
  - apply spec_ret. right. intros d x Hd Hx. rewrite app_nil_r in Hx.
    apply link_steps_app in Hx as (y & Hy & Hx).
    destruct Ht as [? | Ht]; [done |]. destruct (Ht d y Hd Hy) as (d1 & -> & Hφ).
    destruct Ht2 as [? | Ht2]; [done |]. destruct (Ht2 d1 x I Hx) as (d2 & -> & _).
    by exists d2.
  - right. intros d x Hd (y & Hy & Hx)%link_steps_app.
    destruct Ht as [? | Ht]; [done |]. destruct (Ht d y Hd Hy) as (d1 & -> & Hφ).
    destruct Ht2 as [? | Ht2]; [done |]. destruct (Ht2 d1 x I Hx) as (d2 & -> & _).
    by exists d2.
  - apply spec_lift; [done |]. intros e2 _. right. intros d x Hd Hx. rewrite app_nil_r in Hx.
    apply link_steps_app in Hx as (y & Hy & Hx).
    destruct Ht as [? | Ht]; [done |]. destruct (Ht d y Hd Hy) as (d1 & -> & Hφ).
    destruct Ht2 as [? | Ht2]; [done |]. destruct (Ht2 d1 x I Hx) as (d2 & -> & _).
    by exists d2.
  - right. intros d x Hd (y & Hy & Hx)%link_steps_app.
    destruct Ht as [? | Ht]; [done |]. destruct (Ht d y Hd Hy) as (d1 & -> & Hφ).
    destruct Ht2 as [? | Ht2]; [done |]. destruct (Ht2 d1 x I Hx) as (d2 & -> & _).
    by exists d2.
Qed.

Lemma dspec_while {S} (I : S → D → Prop) (cond : S → bool) body (Q : S → D → Prop) E st :
  (∀ st, cond st = true → replying (body st)) →
  (∀ st, cond st = true → dspec (I st) (body st) I E) →
  (∀ st d, cond st = false → I st d → Q st d) →
  dspec (I st) (while cond body st) Q E.
Proof.
  intros Hr Hb HQ.
  apply (spec_while (λ st' t, ∀ d x, I st d → link_steps (d, None) t x →
    ∃ d', x = (d', None) ∧ I st' d')).
  - intros d x Hd Hx. inversion Hx; subst. by exists d.
  - intros st1 t1 HI Hc s.
    destruct (Hb st1 Hc s) as (t & Ht & Hl & Ho). destruct (Hr st1 Hc s) as (t' & Ht' & Hl' & Ho').
    assert (t' = t) as -> by (rewrite Ht in Ht'; by simplify_list_eq).
    exists t. split; [done |]. split; [done |].
    destruct (fst (body st1 s)) as [st2|e|]; simpl in *.
    + destruct Ho as [? | Ho]; [done |]. split; [| done].
      intros d x Hd (y & Hy & Hx)%link_steps_app.
      destruct (HI d y Hd Hy) as (d1 & -> & HI1). by apply Ho with d1.
    + destruct Ho as [? | Ho]; [done | right].
      intros d x Hd (y & Hy & Hx)%link_steps_app.
      destruct (HI d y Hd Hy) as (d1 & -> & HI1). by apply Ho with d1.
    + by left.
  - intros st1 t1 HI Hc. right. intros d x Hd Hx.
    destruct (HI d x Hd Hx) as (d1 & -> & HI1). exists d1. split; [done |]. by apply HQ.
Qed.
End device.
