(* ===== verification/Sha256.v ===== *)
(** * SHA-256 and HMAC-SHA-256

    [hashlib.sha256] and [hmac.new(key, message, hashlib.sha256)], which the
    Gateway uses for firmware and component digests, upload digests and the
    device authentication token, as executable functions on byte lists
    (FIPS 180-4, RFC 2104).  Words are [Z] below [2 ^ 32]. *)
From S2P Require Import Prelude Text.

(** ** SHA-256 *)

Definition w32 (z : Z) : Z := Z.land z 0xFFFFFFFF.
Definition rotr (n x : Z) : Z :=
  Z.lor (Z.shiftr x n) (w32 (Z.shiftl x (32 - n))).

(** The first [n] primes from [p] on, by trial division. *)
Fixpoint primes_from (fuel n : nat) (p : Z) : list Z :=
  match fuel, n with
  | O, _ | _, O => []
  | S fuel, S m =>
    if forallb (λ d, negb (p mod d =? 0)) (map Z.of_nat (seq 2 (Z.to_nat p - 2)))
    then p :: primes_from fuel m (p + 1) else primes_from fuel n (p + 1)
  end.
Definition sha_primes : list Z := Eval vm_compute in primes_from 400 64 2.

(** The integer cube root, bit by bit from [2 ^ k] down. *)
Fixpoint cube_root (k : nat) (acc n : Z) : Z :=
  match k with
  | O => acc
  | S k => let t := acc + 2 ^ Z.of_nat k in cube_root k (if t * t * t <=? n then t else acc) n
  end.

(** The round constants: the first 32 bits of the fractional parts of the cube
    roots of the first 64 primes. *)
Definition sha_k : list Z :=
  Eval vm_compute in map (λ p, w32 (cube_root 36 0 (p * 2 ^ 96))) sha_primes.

(** The eight working variables. *)
Record sha_state := Sha { sa : Z; sb : Z; sc : Z; sd : Z; se : Z; sf : Z; sg : Z; sh : Z }.

(** The initial state: likewise from the square roots of the first eight. *)
Definition sha_init : sha_state :=
  Eval vm_compute in
    let r i := w32 (Z.sqrt (nth i sha_primes 0 * 2 ^ 64)) in
    Sha (r 0%nat) (r 1%nat) (r 2%nat) (r 3%nat) (r 4%nat) (r 5%nat) (r 6%nat) (r 7%nat).

Definition sha_round (s : sha_state) (kw : Z) : sha_state :=
  let '(Sha a b c d e f g h) := s in
  let s1 := Z.lxor (Z.lxor (rotr 6 e) (rotr 11 e)) (rotr 25 e) in
  let ch := Z.lxor (Z.land e f) (Z.land (Z.lxor e 0xFFFFFFFF) g) in
  let t1 := h + s1 + ch + kw in
  let s0 := Z.lxor (Z.lxor (rotr 2 a) (rotr 13 a)) (rotr 22 a) in
  let maj := Z.lxor (Z.lxor (Z.land a b) (Z.land a c)) (Z.land b c) in
  Sha (w32 (t1 + s0 + maj)) a b c (w32 (d + t1)) e f g.

(** The message schedule, kept in reverse: the last sixteen words decide the
    next. *)
Fixpoint sha_extend (n : nat) (w : list Z) : list Z :=
  match n with
  | O => w
  | S m =>
    let at_ i := nth i w 0 in
    let w15 := at_ 14%nat in
    let w2 := at_ 1%nat in
    let s0 := Z.lxor (Z.lxor (rotr 7 w15) (rotr 18 w15)) (Z.shiftr w15 3) in
    let s1 := Z.lxor (Z.lxor (rotr 17 w2) (rotr 19 w2)) (Z.shiftr w2 10) in
    sha_extend m (w32 (at_ 15%nat + s0 + at_ 6%nat + s1) :: w)
  end.

Definition sha_add (s t : sha_state) : sha_state :=
  let '(Sha a b c d e f g h) := s in
  let '(Sha a' b' c' d' e' f' g' h') := t in
  Sha (w32 (a + a')) (w32 (b + b')) (w32 (c + c')) (w32 (d + d'))
      (w32 (e + e')) (w32 (f + f')) (w32 (g + g')) (w32 (h + h')).

Definition sha_block (s : sha_state) (words : list Z) : sha_state :=
  let w := rev (sha_extend 48 (rev words)) in
  sha_add s (fold_left sha_round (zip_with Z.add sha_k w) s).

(** Big-endian words of a byte list whose length is a multiple of four. *)
Fixpoint be_words (l : bytes) : list Z :=
  match l with
  | a :: b :: c :: d :: l => (((a * 256 + b) * 256 + c) * 256 + d) :: be_words l
  | _ => []
  end.

Fixpoint sha_blocks (n : nat) (s : sha_state) (words : list Z) : sha_state :=
  match n with
  | O => s
  | S m => sha_blocks m (sha_block s (take 16 words)) (drop 16 words)
  end.

Definition sha_pad (m : bytes) : bytes :=
  let zeros := (55 - zlen m) mod 64 in
  m ++ [0x80] ++ repeat 0 (Z.to_nat zeros) ++ be_encode 8 (8 * zlen m).

Definition sha256 (m : bytes) : bytes :=
  let p := sha_pad m in
  let '(Sha a b c d e f g h) :=
    sha_blocks (Z.to_nat (zlen p / 64)) sha_init (be_words p) in
  concat (map (be_encode 4) [a; b; c; d; e; f; g; h]).

(** [hashlib.sha256(m).hexdigest()] *)
Definition sha256_hex (m : bytes) : string := hex (sha256 m).

(** ** HMAC *)

Definition hmac_sha256 (key message : bytes) : bytes :=
  let key := if 64 <? zlen key then sha256 key else key in
  let key := key ++ repeat 0 (64 - length key)%nat in
  let ipad := map (λ b, Z.lxor b 0x36) key in
  let opad := map (λ b, Z.lxor b 0x5c) key in
  sha256 (opad ++ sha256 (ipad ++ message)).

(** ** Test vectors and shape *)

Example sha256_vectors :
  sha256_hex [] = "e3b0c44298fc1c149afbf4c8996fb92427ae41e4649b934ca495991b7852b855"%string
  ∧ sha256_hex (str_encode "abc")
    = "ba7816bf8f01cfea414140de5dae2223b00361a396177a9cb410ff61f20015ad"%string
  ∧ sha256_hex (str_encode "abcdbcdecdefdefgefghfghighijhijkijkljklmklmnlmnomnopnopq")
    = "248d6a61d20638b8e5c026930c3e6039a33ce45964ff2167f6ecedd419db06c1"%string.
Proof. split_and!; vm_compute; reflexivity. Qed.

(** RFC 4231, test case 2. *)
Example hmac_vector :
  hex (hmac_sha256 (str_encode "Jefe") (str_encode "what do ya want for nothing?"))
    = "5bdcc146bf60754e6a042426089575c75a003f089d2739839dec58b964ec3843"%string.
Proof. vm_compute. reflexivity. Qed.

Lemma zlen_sha256 m : zlen (sha256 m) = 32.
Proof.
  unfold sha256. destruct (sha_blocks _ _ _). unfold zlen, be_encode. cbn [map concat].
  rewrite !length_app, !length_rev, !length_le_encode. done.
Qed.

Lemma is_bytes_be_encode n z : is_bytes (be_encode n z).
Proof. apply Forall_rev, is_bytes_le_encode. Qed.

Lemma is_bytes_sha256 m : is_bytes (sha256 m).
Proof.
  unfold sha256. destruct (sha_blocks _ _ _). cbn [map concat].
  rewrite !is_bytes_app. split_and!; auto using is_bytes_be_encode, is_bytes_nil.
Qed.

Lemma sha256_hex_length m : String.length (sha256_hex m) = 64%nat.
Proof.
  unfold sha256_hex. rewrite hex_length. pose proof (zlen_sha256 m). unfold zlen in *. lia.
Qed.

Lemma sha256_hex_inj_digest a b : sha256_hex a = sha256_hex b → sha256 a = sha256 b.
Proof. apply hex_inj; apply is_bytes_sha256. Qed.
