(* ===== verification/Value.v ===== *)
(** * Python values of a JSON document

    [json.loads] yields [None], booleans, integers, floats, strings, lists and
    dictionaries.  A dictionary is an association list in insertion order with
    distinct keys; strings are their UTF-8 encodings. *)
From S2P Require Import Prelude Text.

Inductive pyval :=
| PNone
| PBool (b : bool)
| PInt (z : Z)
| PFloat (repr : string)
| PStr (s : string)
| PList (l : list pyval)
| PDict (d : list (string * pyval)).

(** [d.get(key)]; an absent key gives [None]. *)
Fixpoint dict_lookup {A} (key : string) (d : list (string * A)) : option A :=
  match d with
  | [] => None
  | (k, v) :: d => if String.eqb k key then Some v else dict_lookup key d
  end.
Definition dict_get (key : string) (d : list (string * pyval)) : pyval :=
  default PNone (dict_lookup key d).
Definition has_key {A} (key : string) (d : list (string * A)) : bool :=
  existsb (λ kv, String.eqb (fst kv) key) d.
Definition keys {A} (d : list (string * A)) : list string := map fst d.

(** [d[key] = v]: an existing key keeps its position. *)
Fixpoint dict_set {A} (key : string) (v : A) (d : list (string * A)) : list (string * A) :=
  match d with
  | [] => [(key, v)]
  | (k, w) :: d => if String.eqb k key then (k, v) :: d else (k, w) :: dict_set key v d
  end.

(** [v == "s"]: only a string equals a string. *)
Definition is_str (v : pyval) (s : string) : bool :=
  match v with PStr t => String.eqb t s | _ => false end.
Definition is_none (v : pyval) : bool :=
  match v with PNone => true | _ => false end.

(** Can the value be a dictionary key?  Lists and dictionaries cannot. *)
Definition hashable (v : pyval) : bool :=
  match v with PList _ | PDict _ => false | _ => true end.

Lemma dict_lookup_has_key {A} key (d : list (string * A)) :
  has_key key d = match dict_lookup key d with Some _ => true | None => false end.
Proof.
  induction d as [|[k v] d IH]; [done |]. simpl. by destruct (String.eqb k key).
Qed.

Lemma has_key_spec {A} key (d : list (string * A)) : has_key key d = true ↔ key ∈ keys d.
Proof.
  induction d as [|[k v] d IH]; simpl; [set_solver |].
  rewrite orb_true_iff, IH, elem_of_cons, String.eqb_eq. naive_solver.
Qed.

Lemma dict_lookup_Some_in {A} key (d : list (string * A)) v :
  dict_lookup key d = Some v → (key, v) ∈ d.
Proof.
  induction d as [|[k w] d IH]; simpl; [done |].
  destruct (String.eqb_spec k key); [intros [= ->]; subst; left | right; auto].
Qed.

Lemma dict_lookup_in {A} k (v : A) d : NoDup (keys d) → (k, v) ∈ d → dict_lookup k d = Some v.
Proof.
  induction d as [|[j w] d IH]; intros Hd; [by intros ?%elem_of_nil |].
  apply NoDup_cons in Hd as [Hj Hd]. intros [[= -> ->] | Hin]%elem_of_cons; cbn [dict_lookup].
  - by rewrite String.eqb_refl.
  - destruct (String.eqb_spec j k) as [-> |]; [| by apply IH]. exfalso. apply Hj.
    apply list_elem_of_In, in_map_iff. exists (k, v). split; [done | by apply list_elem_of_In].
Qed.

Lemma dict_lookup_set {A} key k (v : A) d :
  dict_lookup key (dict_set k v d) = if String.eqb k key then Some v else dict_lookup key d.
Proof.
  induction d as [|[k' w] d IH]; simpl; [done |].
  destruct (String.eqb_spec k' k) as [-> | Hk]; simpl; [by case_match |].
  rewrite IH. destruct (String.eqb_spec k' key), (String.eqb_spec k key); congruence.
Qed.

Lemma dict_get_set key k (v : pyval) d : dict_get key (dict_set k v d) = if String.eqb k key then v else dict_get key d.
Proof. unfold dict_get. rewrite dict_lookup_set. by destruct (String.eqb k key). Qed.
Lemma keys_set {A} k (v : A) d x : x ∈ keys (dict_set k v d) ↔ x = k ∨ x ∈ keys d.
Proof.
  induction d as [|[j w] d IH]; simpl; [set_solver |].
  destruct (String.eqb_spec j k) as [-> |]; simpl; set_solver.
Qed.
Lemma NoDup_set {A} k (v : A) d : NoDup (keys d) → NoDup (keys (dict_set k v d)).
Proof.
  induction d as [|[j w] d IH]; simpl; intros Hd; [apply NoDup_singleton |]. apply NoDup_cons in Hd as [Hj Hd].
  destruct (String.eqb_spec j k) as [-> |]; simpl; [by constructor |]. constructor; [| by apply IH].
  change (j ∉ keys (dict_set k v d)). rewrite keys_set. intros [-> | Hin]; [done | by apply Hj].
Qed.
Lemma Forall_set {A} (P : A → Prop) k v d : Forall P (map snd d) → P v → Forall P (map snd (dict_set k v d)).
Proof.
  intros Hd Hv. induction d as [|[j w] d IH]; simpl in *; [by constructor |]. apply Forall_cons in Hd as [Hw Hd].
  destruct (String.eqb j k); simpl; constructor; auto.
Qed.

Lemma dict_lookup_forallb {A} (f : string → A → bool) d key v :
  forallb (λ kv, f (fst kv) (snd kv)) d = true → dict_lookup key d = Some v → f key v = true.
Proof.
  intros Hf Hl. apply dict_lookup_Some_in in Hl.
  rewrite forallb_forall in Hf. by apply (Hf (key, v)), list_elem_of_In.
Qed.
