(* ===== verification/Json.v ===== *)
(** * Reading JSON text

    [json.loads(text, object_pairs_hook=hook)] over the UTF-8 bytes of the
    text: the grammar and the extensions ([NaN], [Infinity]) the Standard
    Library's scanner accepts, with the hook applied to the pairs of every
    object as soon as it closes.  Floats keep their text.  The interpreter's
    recursion limit is not modelled.  Every syntax error is a
    [JSONDecodeError]; the fuel is the length of the text. *)
From S2P Require Import Prelude Text Value.

Definition JsonParser (A : Type) : Type := bytes → res (A * bytes).

Definition json_error {A} (msg : string) : res A := raise JSONDecodeError msg.

(** ** Characters *)

Definition is_json_space (b : Z) : bool :=
  (b =? 32) || (b =? 9) || (b =? 10) || (b =? 13).
Fixpoint skip_ws (l : bytes) : bytes :=
  match l with b :: t => if is_json_space b then skip_ws t else l | [] => [] end.

Definition is_digit (b : Z) : bool := (48 <=? b) && (b <=? 57).

(** The input after the byte [b], when it starts with it. *)
Definition next_is (b : Z) (l : bytes) : option bytes :=
  match l with c :: t => if c =? b then Some t else None | [] => None end.

(** The UTF-8 encoding of a code point (a lone surrogate keeps its three-byte
    form). *)
Definition utf8_char (c : Z) : bytes :=
  if c <? 0x80 then [c]
  else if c <? 0x800 then [0xC0 + c / 64; 0x80 + c mod 64]
  else if c <? 0x10000
  then [0xE0 + c / 4096; 0x80 + (c / 64) mod 64; 0x80 + c mod 64]
  else [0xF0 + c / 262144; 0x80 + (c / 4096) mod 64; 0x80 + (c / 64) mod 64;
        0x80 + c mod 64].

(** ** Strings *)

Definition hex4 (l : bytes) : option (Z * bytes) :=
  match l with
  | a :: b :: c :: d :: rest =>
    match hex_value (ascii_of_Z a), hex_value (ascii_of_Z b),
          hex_value (ascii_of_Z c), hex_value (ascii_of_Z d) with
    | Some a, Some b, Some c, Some d => Some (((a * 16 + b) * 16 + c) * 16 + d, rest)
    | _, _, _, _ => None
    end
  | _ => None
  end.

(** The character after a backslash other than [u]. *)
Definition simple_escape (b : Z) : option Z :=
  if (b =? 34) || (b =? 92) || (b =? 47) then Some b
  else if b =? 98 then Some 8
  else if b =? 102 then Some 12
  else if b =? 110 then Some 10
  else if b =? 114 then Some 13
  else if b =? 116 then Some 9
  else None.

(** The code point after [\u], joined with a following low surrogate. *)
Definition unicode_escape (l : bytes) : option (Z * bytes) :=
  '(c, rest) ← hex4 l;
  if (0xD800 <=? c) && (c <=? 0xDBFF) then
    match rest2 ← next_is 92 rest; rest2 ← next_is 117 rest2; hex4 rest2 with
    | Some (c2, rest3) =>
      if (0xDC00 <=? c2) && (c2 <=? 0xDFFF)
      then Some (0x10000 + (c - 0xD800) * 1024 + (c2 - 0xDC00), rest3)
      else Some (c, rest)
    | None => Some (c, rest)
    end
  else Some (c, rest).

(** The rest of a string literal, after its opening quote. *)
Fixpoint scan_string (fuel : nat) (acc : bytes) (l : bytes) : res (string * bytes) :=
  match fuel with
  | O => raise NonTermination "scanstring"
  | S fuel =>
    match l with
    | [] => json_error "Unterminated string"
    | b :: t =>
      if b =? 34 then Ok (bytes_str acc, t)
      else if b =? 92 then
        match t with
        | [] => json_error "Unterminated string"
        | e :: t2 =>
          if e =? 117 then
            match unicode_escape t2 with
            | Some (c, rest) => scan_string fuel (acc ++ utf8_char c) rest
            | None => json_error "Invalid \uXXXX escape"
            end
          else
            match simple_escape e with
            | Some c => scan_string fuel (acc ++ [c]) t2
            | None => json_error "Invalid \escape"
            end
        end
      else if b <? 32 then json_error "Invalid control character"
      else scan_string fuel (acc ++ [b]) t
    end
  end.

(** ** Numbers *)

Fixpoint take_digits (l : bytes) : bytes * bytes :=
  match l with
  | b :: t => if is_digit b then let '(ds, r) := take_digits t in (b :: ds, r) else ([], l)
  | [] => ([], [])
  end.

Definition digits_value (ds : bytes) : Z := fold_left (λ acc d, acc * 10 + (d - 48)) ds 0.

(** [(\.[0-9]+)?] *)
Definition take_fraction (l : bytes) : bytes * bytes :=
  match next_is 46 l with
  | Some t => let '(ds, r) := take_digits t in
              if is_nil ds then ([], l) else (46 :: ds, r)
  | None => ([], l)
  end.

(** [([eE][-+]?[0-9]+)?] *)
Definition take_exponent (l : bytes) : bytes * bytes :=
  match l with
  | e :: t =>
    if (e =? 101) || (e =? 69) then
      let '(sign, t2) :=
        match t with
        | s :: t2 => if (s =? 43) || (s =? 45) then ([s], t2) else ([], t)
        | [] => ([], [])
        end in
      let '(ds, r) := take_digits t2 in
      if is_nil ds then ([], l) else (e :: sign ++ ds, r)
    else ([], l)
  | [] => ([], [])
  end.

Definition scan_number (l : bytes) : option (res (pyval * bytes)) :=
  let '(neg, l1) := match next_is 45 l with Some t => ([45], t) | None => ([], l) end in
  let '(int, l2) :=
    match next_is 48 l1 with Some t => ([48], t) | None => take_digits l1 end in
  if is_nil int then None
  else
    let '(frac, l3) := take_fraction l2 in
    let '(exp, l4) := take_exponent l3 in
    Some (if is_nil frac && is_nil exp then
            if 4300 <? zlen int then raise ValueError "Exceeds the limit for integer string conversion"
            else Ok (PInt (if is_nil neg then digits_value int else - digits_value int), l4)
          else Ok (PFloat (bytes_str (neg ++ int ++ frac ++ exp)), l4)).

(** ** Values *)

Definition strip_prefix (p l : bytes) : option bytes :=
  if bool_decide (take (length p) l = p) then Some (drop (length p) l) else None.

(** The constants, in the scanner's order. *)
Definition json_constants : list (bytes * pyval) := [
  (str_encode "null", PNone); (str_encode "true", PBool true);
  (str_encode "false", PBool false); (str_encode "NaN", PFloat "NaN");
  (str_encode "Infinity", PFloat "Infinity");
  (str_encode "-Infinity", PFloat "-Infinity")].

Fixpoint scan_constant (cs : list (bytes * pyval)) (l : bytes) : option (pyval * bytes) :=
  match cs with
  | [] => None
  | (p, v) :: cs => match strip_prefix p l with
                    | Some rest => Some (v, rest)
                    | None => scan_constant cs l
                    end
  end.

Definition scan_scalar : JsonParser pyval := λ l,
  match scan_constant json_constants l with
  | Some r => Ok r
  | None => match scan_number l with
            | Some r => r
            | None => json_error "Expecting value"
            end
  end.

Section parser.
Context (hook : list (string * pyval) → res pyval).

(** The elements of an array after its first non-blank character. *)
Fixpoint scan_array (value : JsonParser pyval) (fuel : nat) (acc : list pyval)
    : JsonParser pyval := λ l,
  match fuel with
  | O => raise NonTermination "JSONArray"
  | S fuel =>
    '(v, l) ← value l;
    match next_is 93 (skip_ws l), next_is 44 (skip_ws l) with
    | Some rest, _ => Ok (PList (acc ++ [v]), rest)
    | None, Some rest => scan_array value fuel (acc ++ [v]) (skip_ws rest)
    | None, None => json_error "Expecting ',' delimiter"
    end
  end.

(** The members of an object, from the opening quote of a key. *)
Fixpoint scan_object (value : JsonParser pyval) (fuel : nat)
    (acc : list (string * pyval)) : JsonParser pyval := λ l,
  match fuel with
  | O => raise NonTermination "JSONObject"
  | S fuel =>
    match next_is 34 l with
    | Some t =>
      '(key, l) ← scan_string (S (length t)) [] t;
      match next_is 58 (skip_ws l) with
      | Some l =>
        '(v, l) ← value (skip_ws l);
        match next_is 125 (skip_ws l), next_is 44 (skip_ws l) with
        | Some rest, _ => o ← hook (acc ++ [(key, v)]); Ok (o, rest)
        | None, Some rest => scan_object value fuel (acc ++ [(key, v)]) (skip_ws rest)
        | None, None => json_error "Expecting ',' delimiter"
        end
      | None => json_error "Expecting ':' delimiter"
      end
    | None => json_error "Expecting property name enclosed in double quotes"
    end
  end.

Fixpoint scan_value (fuel : nat) : JsonParser pyval := λ l,
  match fuel with
  | O => raise NonTermination "scan_once"
  | S fuel =>
    match next_is 34 l, next_is 123 l, next_is 91 l with
    | Some t, _, _ => '(s, rest) ← scan_string (S (length t)) [] t; Ok (PStr s, rest)
    | None, Some t, _ =>
      match next_is 125 (skip_ws t) with
      | Some rest => o ← hook []; Ok (o, rest)
      | None => scan_object (scan_value fuel) (S (length t)) [] (skip_ws t)
      end
    | None, None, Some t =>
      match next_is 93 (skip_ws t) with
      | Some rest => Ok (PList [], rest)
      | None => scan_array (scan_value fuel) (S (length t)) [] (skip_ws t)
      end
    | None, None, None => scan_scalar l
    end
  end.

Definition json_loads (text : string) : res pyval :=
  let l := str_encode text in
  match strip_prefix [0xEF; 0xBB; 0xBF] l with
  | Some _ => json_error "Unexpected UTF-8 BOM"
  | None =>
    '(v, rest) ← scan_value (S (length l)) (skip_ws l);
    if is_nil (skip_ws rest) then Ok v else json_error "Extra data"
  end.
End parser.

(** [json.loads(text)] without a hook: the last value of a repeated key wins,
    at the key's first position. *)
Definition plain_object (pairs : list (string * pyval)) : res pyval :=
  Ok (PDict (fold_left (λ d kv, dict_set (fst kv) (snd kv) d) pairs [])).

(** Single quotes to double quotes, to write JSON texts. *)
Fixpoint dq (s : string) : string :=
  match s with
  | EmptyString => EmptyString
  | String c s => String (if Ascii.eqb c "'" then ascii_of_nat 34 else c) (dq s)
  end.

Example json_loads_tests :
  json_loads plain_object (dq "{'a': [1, -20, 3.5e+2, true], 'b':{}, 'a':null } ")
    = Ok (PDict [("a", PNone); ("b", PDict [])])%string
  ∧ json_loads plain_object (dq "['\u00e9\ud83d\ude00\n', Infinity]")
    = Ok (PList [PStr (bytes_str [0xC3; 0xA9; 0xF0; 0x9F; 0x98; 0x80; 10]); PFloat "Infinity"])
  ∧ raises JSONDecodeError (json_loads plain_object "[1,]") = true
  ∧ raises JSONDecodeError (json_loads plain_object "01") = true.
Proof. split_and!; vm_compute; reflexivity. Qed.

(** ** Termination: every parser consumes input *)

Definition terminates {A} (r : res A) : Prop :=
  match r with Ok _ => True | Err e => exn_cls e ≠ NonTermination end.

(** The result is an exception other than fuel exhaustion, or leaves less
    than [n] bytes. *)
Definition consumes {A} (n : nat) (r : res (A * bytes)) : Prop :=
  match r with
  | Ok (_, rest) => (length rest < n)%nat
  | Err e => exn_cls e ≠ NonTermination
  end.

Lemma consumes_le {A} n m (r : res (A * bytes)) :
  consumes n r → (n ≤ m)%nat → consumes m r.
Proof. destruct r as [[]|]; simpl; [lia | done]. Qed.

Lemma consumes_bind {A B} n (r : res (A * bytes)) (f : A * bytes → res (B * bytes)) :
  consumes n r → (∀ a l, (length l < n)%nat → consumes n (f (a, l))) →
  consumes n (r ≫= f).
Proof. destruct r as [[]|]; simpl; auto. Qed.

Lemma skip_ws_length l : (length (skip_ws l) ≤ length l)%nat.
Proof. induction l as [|b l IH]; simpl; [lia |]. destruct (is_json_space b); simpl; lia. Qed.

Lemma take_digits_length l ds r :
  take_digits l = (ds, r) → (length ds + length r = length l)%nat.
Proof.
  revert ds r. induction l as [|b l IH]; simpl; intros ds r H.
  - by injection H as <- <-.
  - destruct (is_digit b); [| by injection H as <- <-].
    destruct (take_digits l) as [ds' r'] eqn:E. injection H as <- <-.
    simpl. by rewrite (IH _ _ eq_refl).
Qed.

Lemma next_is_length b l t : next_is b l = Some t → (length t < length l)%nat.
Proof. destruct l; simpl; [done |]. case_match; [| done]. intros [= <-]. lia. Qed.

(** Turn the inputs the parsers moved to into length facts. *)
Ltac lengths :=
  repeat match goal with
  | H : next_is _ _ = Some _ |- _ => apply next_is_length in H
  | H : take_digits _ = (_, _) |- _ => apply take_digits_length in H
  | H : context [length (skip_ws ?l)] |- _ =>
    lazymatch goal with
    | _ : (length (skip_ws l) ≤ length l)%nat |- _ => fail
    | _ => pose proof (skip_ws_length l)
    end
  end.

Lemma hex4_length l c r : hex4 l = Some (c, r) → (length r < length l)%nat.
Proof.
  unfold hex4. do 4 (destruct l as [|? l]; [done |]).
  repeat case_match; try done. intros [= _ <-]. simpl. lia.
Qed.

Lemma unicode_escape_length l c r :
  unicode_escape l = Some (c, r) → (length r < length l)%nat.
Proof.
  unfold unicode_escape. destruct (hex4 l) as [[c1 r1]|] eqn:H; [simpl | done].
  apply hex4_length in H. case_match; [| by intros; simplify_eq].
  destruct (r2 ← next_is 92 r1; r2 ← next_is 117 r2; hex4 r2) as [[c2 r3]|] eqn:E;
    [| by intros; simplify_eq].
  destruct (next_is 92 r1) as [r2|] eqn:E2; [simpl in E | done].
  destruct (next_is 117 r2) as [r2'|] eqn:E3; [simpl in E | done].
  apply hex4_length in E. lengths. case_match; intros; simplify_eq; lia.
Qed.

Lemma scan_string_consumes fuel : ∀ acc l,
  (length l < fuel)%nat → consumes (length l) (scan_string fuel acc l).
Proof.
  induction fuel as [|fuel IH]; intros acc l Hf; [lia |]. cbn [scan_string].
  destruct l as [|b l]; [done |]. simpl in Hf.
  destruct (b =? 34); [simpl; lia |]. destruct (b =? 92).
  - destruct l as [|e l]; [done |]. simpl in Hf. destruct (e =? 117).
    + destruct (unicode_escape l) as [[c r]|] eqn:E; [| done].
      apply unicode_escape_length in E.
      eapply consumes_le; [apply IH; lia | simpl; lia].
    + destruct (simple_escape e); [| done].
      eapply consumes_le; [apply IH; lia | simpl; lia].
  - destruct (b <? 32); [done |]. eapply consumes_le; [apply IH; lia | simpl; lia].
Qed.

Lemma take_fraction_length l ds r : take_fraction l = (ds, r) → (length r ≤ length l)%nat.
Proof.
  unfold take_fraction. repeat case_match; intros; simplify_eq; try done. lengths. lia.
Qed.

Lemma take_exponent_length l ds r : take_exponent l = (ds, r) → (length r ≤ length l)%nat.
Proof.
  unfold take_exponent. repeat case_match; intros; simplify_eq; simpl; try lia;
    lengths; simpl in *; lia.
Qed.

Lemma scan_number_consumes l r : scan_number l = Some r → consumes (length l) r.
Proof.
  unfold scan_number.
  destruct (match next_is 45 l with Some t => ([45], t) | None => ([], l) end)
    as [neg l1] eqn:E1.
  assert (H1 : (length l1 ≤ length l)%nat).
  { case_match; simplify_eq; lengths; lia. }
  destruct (match next_is 48 l1 with Some t => ([48], t) | None => take_digits l1 end)
    as [int l2] eqn:E2.
  assert (H2 : int = [] ∨ (length l2 < length l1)%nat).
  { case_match; simplify_eq; lengths; [by right |]. destruct int; [by left | right; simpl in *; lia]. }
  destruct int as [|i int]; [done |]. destruct H2; [done |]. cbn [is_nil].
  destruct (take_fraction l2) as [frac l3] eqn:E3. apply take_fraction_length in E3.
  destruct (take_exponent l3) as [exp l4] eqn:E4. apply take_exponent_length in E4.
  intros [= <-]. repeat case_match; try done; unfold consumes; lia.
Qed.

Lemma scan_constant_length cs l v r :
  Forall (λ c, fst c ≠ []) cs → scan_constant cs l = Some (v, r) →
  (length r < length l)%nat.
Proof.
  induction 1 as [|[p w] cs Hp Hcs IH]; simpl; [done |].
  unfold strip_prefix. case_bool_decide as Heq; [| done].
  intros [= _ <-]. rewrite length_drop. simpl in Hp.
  assert (length p ≤ length l)%nat by (rewrite <- Heq, length_take; lia).
  destruct p; [done | simpl in *; lia].
Qed.

Lemma scan_scalar_consumes l : consumes (length l) (scan_scalar l).
Proof.
  unfold scan_scalar. destruct (scan_constant json_constants l) as [[v r]|] eqn:E.
  - apply scan_constant_length in E; [done |]. by repeat constructor.
  - destruct (scan_number l) eqn:E2; [by apply scan_number_consumes | done].
Qed.

Section parser_terminates.
Context (hook : list (string * pyval) → res pyval).
Context (Hhook : ∀ pairs, terminates (hook pairs)).

Lemma hook_consumes pairs n (rest : bytes) :
  (length rest < n)%nat → consumes n (o ← hook pairs; Ok (o, rest)).
Proof. intros. specialize (Hhook pairs). by destruct (hook pairs). Qed.

Section loops.
Context (value : JsonParser pyval) (bound : nat).
Context (Hvalue : ∀ l, (length l ≤ bound)%nat → consumes (length l) (value l)).

Lemma scan_array_consumes fuel : ∀ acc l,
  (length l < fuel)%nat → (length l ≤ bound)%nat →
  consumes (length l) (scan_array value fuel acc l).
Proof.
  induction fuel as [|fuel IH]; intros acc l Hf Hb; [lia |]. cbn [scan_array].
  apply consumes_bind; [by apply Hvalue |]. intros v r Hr.
  destruct (next_is 93 (skip_ws r)) eqn:E1; [lengths; simpl; lia |].
  destruct (next_is 44 (skip_ws r)) as [rest|] eqn:E2; [| done].
  pose proof (skip_ws_length rest). lengths.
  eapply consumes_le; [apply IH; lia | lia].
Qed.

Lemma scan_object_consumes fuel : ∀ acc l,
  (length l < fuel)%nat → (length l ≤ bound)%nat →
  consumes (length l) (scan_object hook value fuel acc l).
Proof.
  induction fuel as [|fuel IH]; intros acc l Hf Hb; [lia |]. cbn [scan_object].
  destruct (next_is 34 l) as [t|] eqn:E; [lengths | done].
  apply consumes_bind.
  { eapply consumes_le; [apply scan_string_consumes; lia | lia]. }
  intros key r Hr. destruct (next_is 58 (skip_ws r)) as [r1|] eqn:E1; [lengths | done].
  pose proof (skip_ws_length r1). apply consumes_bind.
  { eapply consumes_le; [apply Hvalue; lia | lia]. }
  intros v r2 Hr2.
  destruct (next_is 125 (skip_ws r2)) eqn:E2; [lengths; apply hook_consumes; lia |].
  destruct (next_is 44 (skip_ws r2)) as [rest|] eqn:E3; [| done].
  pose proof (skip_ws_length rest). lengths.
  eapply consumes_le; [apply IH; lia | lia].
Qed.
End loops.

Lemma scan_value_consumes fuel : ∀ l,
  (length l < fuel)%nat → consumes (length l) (scan_value hook fuel l).
Proof.
  induction fuel as [|fuel IH]; intros l Hf; [lia |]. cbn [scan_value].
  destruct (next_is 34 l) as [t|] eqn:E34; [| destruct (next_is 123 l) as [t|] eqn:E123;
    [| destruct (next_is 91 l) as [t|] eqn:E91; [| apply scan_scalar_consumes]]].
  - lengths. apply consumes_bind; [| simpl; lia].
    eapply consumes_le; [apply scan_string_consumes; lia | lia].
  - pose proof (skip_ws_length t).
    destruct (next_is 125 (skip_ws t)) eqn:E; lengths; [apply hook_consumes; lia |].
    eapply consumes_le; [apply (scan_object_consumes _ (length t)) |]; try lia.
    intros. apply IH. lia.
  - pose proof (skip_ws_length t).
    destruct (next_is 93 (skip_ws t)) eqn:E; lengths; [simpl; lia |].
    eapply consumes_le; [apply (scan_array_consumes _ (length t)) |]; try lia.
    intros. apply IH. lia.
Qed.

(** Reading a text ends with a value or an exception of the language. *)
Lemma json_loads_terminates text : terminates (json_loads hook text).
Proof.
  unfold json_loads. set (l := str_encode text).
  assert (Hmain : terminates ('(v, rest) ← scan_value hook (S (length l)) (skip_ws l);
    if is_nil (skip_ws rest) then Ok v else json_error "Extra data")).
  { pose proof (skip_ws_length l).
    pose proof (scan_value_consumes (S (length l)) (skip_ws l)) as Hc.
    destruct (scan_value hook _ _) as [[v rest]|e]; simpl in *.
    - by destruct (is_nil (skip_ws rest)).
    - apply Hc. lia. }
  by destruct (strip_prefix _ _).
Qed.
End parser_terminates.
