(* ===== verification/JsonDump.v ===== *)
(** * Writing JSON text

    [json.dumps(value, ensure_ascii=False, separators=(",", ":"))] over the
    values of Value.v, and the round trip: the scanner of Json.v reads every
    written text back to the same value.  A float is its text, as in Json.v. *)
From S2P Require Import Prelude Text Value Json.

(** ** Numbers and strings *)

(** The decimal digits of [0 <= n], at most [fuel] of them. *)
Fixpoint dec_digits (fuel : nat) (n : Z) : bytes :=
  match fuel with
  | O => []
  | S fuel => if n <? 10 then [48 + n] else dec_digits fuel (n / 10) ++ [48 + n mod 10]
  end.
Definition nat_text (n : Z) : bytes := dec_digits (S (Z.to_nat (Z.log2 n))) n.
Definition int_text (z : Z) : bytes := if z <? 0 then 45 :: nat_text (- z) else nat_text z.

Definition hex_byte (d : Z) : Z := if d <? 10 then 48 + d else 87 + d.

(** One character of a string: quotes, backslashes and controls are escaped. *)
Definition escape_char (b : Z) : bytes :=
  if b =? 34 then [92; 34] else if b =? 92 then [92; 92]
  else if b =? 10 then [92; 110] else if b =? 13 then [92; 114] else if b =? 9 then [92; 116]
  else if b =? 12 then [92; 102] else if b =? 8 then [92; 98]
  else if b <? 32 then [92; 117; 48; 48; hex_byte (b / 16); hex_byte (b mod 16)]
  else [b].
Definition string_text (s : string) : bytes := [34] ++ concat (map escape_char (str_encode s)) ++ [34].

(** ** Values *)

Definition join_with (sep : Z) (l : list bytes) : bytes :=
  match l with [] => [] | x :: l => x ++ concat (map (cons sep) l) end.

Fixpoint dump (v : pyval) : bytes :=
  match v with
  | PNone => str_encode "null"
  | PBool true => str_encode "true"
  | PBool false => str_encode "false"
  | PInt z => int_text z
  | PFloat repr => str_encode repr
  | PStr s => string_text s
  | PList l => [91] ++ join_with 44 (map dump l) ++ [93]
  | PDict d => [123] ++ join_with 44 (map (λ '(k, v), string_text k ++ [58] ++ dump v) d) ++ [125]
  end.

Definition json_dumps (v : pyval) : string := bytes_str (dump v).

(** ** Round trip *)

(** What may follow a value: nothing a number could go on with. *)
Definition ends_value (rest : bytes) : Prop :=
  match rest with
  | [] => True
  | b :: _ => is_digit b = false ∧ b ≠ 46 ∧ b ≠ 101 ∧ b ≠ 69 ∧ b ≠ 43 ∧ b ≠ 45
  end.

(** A float's text is a number with a fraction or an exponent, or one of the
    three extensions. *)
Definition float_text (repr : string) : Prop :=
  repr = "NaN"%string ∨ repr = "Infinity"%string ∨ repr = "-Infinity"%string
  ∨ scan_number (str_encode repr) = Some (Ok (PFloat repr, [])).

(** Values that have a JSON text: floats with their text, integers with at most
    4300 digits (the interpreter's limit), distinct keys. *)
Fixpoint json_ok (v : pyval) : Prop :=
  match v with
  | PInt z => zlen (nat_text (Z.abs z)) ≤ 4300
  | PFloat repr => float_text repr
  | PList l => Forall id (map json_ok l)
  | PDict d => NoDup (keys d) ∧ Forall id (map (λ kv, json_ok (snd kv)) d)
  | _ => True
  end.

Lemma dec_digits_ok fuel : ∀ n, 0 ≤ n < 2 ^ Z.of_nat fuel → (0 < fuel)%nat →
  let ds := dec_digits fuel n in
  Forall (λ b, is_digit b = true) ds ∧ ds ≠ [] ∧ digits_value ds = n ∧ (ds = [48] ∨ head ds ≠ Some 48).
Proof.
  induction fuel as [|fuel IH]; intros n Hn Hf; [lia |]. cbn [dec_digits].
  destruct (Z.ltb_spec n 10) as [Hlt | Hge].
  - split; [constructor; [unfold is_digit; lia | constructor] |]. split; [done |].
    split; [unfold digits_value; cbn; lia |]. cbn [head].
    destruct (decide (n = 0)) as [-> |]; [by left | right; intros [= ?]; lia].
  - pose proof (Z.div_lt_upper_bound n 10 (2 ^ Z.of_nat fuel)) as Hd.
    rewrite Nat2Z.inj_succ, Z.pow_succ_r in Hn by lia.
    pose proof (Z.div_le_lower_bound n 10 1).
    destruct (IH (n / 10)) as (Hds & Hne & Hv & Hh).
    { split; [lia | apply Hd; lia]. }
    { destruct fuel; [cbn in Hn; lia | lia]. }
    pose proof (Z.mod_pos_bound n 10). split; [| split; [| split]].
    + apply Forall_app. split; [done |]. constructor; [unfold is_digit; lia | constructor].
    + intros Happ. by apply app_eq_nil in Happ as [_ [=]].
    + unfold digits_value in *. rewrite fold_left_app, Hv. cbn. pose proof (Z.div_mod n 10). lia.
    + right. destruct (dec_digits fuel (n / 10)) as [|d ds] eqn:E; [done |]. cbn.
      destruct Hh as [[= -> ->] | Hh]; [| exact Hh].
      unfold digits_value in Hv. cbn in Hv. lia.
Qed.

Lemma nat_text_ok n : 0 ≤ n →
  let ds := nat_text n in
  Forall (λ b, is_digit b = true) ds ∧ ds ≠ [] ∧ digits_value ds = n ∧ (ds = [48] ∨ head ds ≠ Some 48).
Proof.
  intros Hn. apply dec_digits_ok; [| lia]. split; [done |].
  rewrite Nat2Z.inj_succ, Z2Nat.id by apply Z.log2_nonneg.
  destruct (decide (n = 0)) as [-> |]; [done |]. apply Z.log2_spec. lia.
Qed.

Lemma take_digits_app ds rest :
  Forall (λ b, is_digit b = true) ds → (∀ b t, rest = b :: t → is_digit b = false) →
  take_digits (ds ++ rest) = (ds, rest).
Proof.
  intros Hds Hr. induction Hds as [|b ds Hb _ IH]; cbn [app take_digits].
  - destruct rest as [|b t]; [done |]. cbn. by rewrite (Hr b t).
  - by rewrite Hb, IH.
Qed.

Lemma ends_no_fraction rest : ends_value rest → take_fraction rest = ([], rest) ∧ take_exponent rest = ([], rest).
Proof.
  destruct rest as [|b t]; [done |]. intros (_ & H1 & H2 & H3 & _). unfold take_fraction, take_exponent. cbn [next_is].
  destruct (Z.eqb_spec b 46); [done |]. split; [done |].
  by destruct (Z.eqb_spec b 101), (Z.eqb_spec b 69).
Qed.

Lemma scan_digits ds rest neg :
  Forall (λ b, is_digit b = true) ds → ds ≠ [] → (ds = [48] ∨ head ds ≠ Some 48) →
  zlen ds ≤ 4300 → ends_value rest →
  scan_number ((if neg : bool then [45] else []) ++ ds ++ rest)
  = Some (Ok (PInt (if neg then - digits_value ds else digits_value ds), rest)).
Proof.
  intros Hd Hne Hz Hlen Hr. destruct (ends_no_fraction rest Hr) as [Hf He].
  assert (Htake : match next_is 48 (ds ++ rest) with
    | Some t => ([48], t) | None => take_digits (ds ++ rest) end = (ds, rest)).
  { assert (Hall : take_digits (ds ++ rest) = (ds, rest)).
    { apply take_digits_app; [done |]. intros b t ->. by destruct Hr. }
    destruct ds as [|d ds]; [done |]. cbn [app next_is].
    destruct (Z.eqb_spec d 48) as [-> |]; [| exact Hall].
    destruct Hz as [[= ->] | Hz]; [done |]. by destruct Hz. }
  assert (Hneg : next_is 45 (ds ++ rest) = None).
  { destruct ds as [|d ds]; [done |]. cbn [app next_is]. destruct (Z.eqb_spec d 45) as [-> |]; [| done].
    by apply Forall_inv in Hd. }
  unfold scan_number. destruct neg; cbn [app next_is]; [rewrite Z.eqb_refl | rewrite Hneg];
    rewrite Htake; destruct ds as [|d ds']; try done; cbn [is_nil];
    rewrite Hf, He; cbn [is_nil andb];
    (destruct (Z.ltb_spec 4300 (zlen (d :: ds'))); [lia | done]).
Qed.

(** *** Strings *)

Lemma escape_control b rest : 0 ≤ b < 32 →
  unicode_escape ([48; 48; hex_byte (b / 16); hex_byte (b mod 16)] ++ rest) = Some (b, rest)
  ∧ utf8_char b = [b].
Proof.
  intros Hb. assert (Hin : b ∈ map Z.of_nat (seq 0 32)).
  { apply list_elem_of_In, in_map_iff. exists (Z.to_nat b). split; [lia |]. apply in_seq. lia. }
  clear Hb. revert b Hin. apply Forall_forall. repeat (constructor; [by vm_compute |]). constructor.
Qed.

Lemma scan_escaped b fuel acc rest : byte_ok b →
  scan_string (S fuel) acc (escape_char b ++ rest) = scan_string fuel (acc ++ [b]) rest.
Proof.
  intros Hb. unfold escape_char.
  destruct (Z.eqb_spec b 34) as [-> | H34]; [done |]. destruct (Z.eqb_spec b 92) as [-> | H92]; [done |].
  destruct (Z.eqb_spec b 10) as [-> | _]; [done |]. destruct (Z.eqb_spec b 13) as [-> | _]; [done |].
  destruct (Z.eqb_spec b 9) as [-> | _]; [done |]. destruct (Z.eqb_spec b 12) as [-> | _]; [done |].
  destruct (Z.eqb_spec b 8) as [-> | _]; [done |].
  destruct (Z.ltb_spec b 32) as [Hlt | Hge].
  - destruct (escape_control b rest) as [Hu Hc]; [unfold byte_ok in Hb; lia |].
    cbn [app] in *. cbn [scan_string Z.eqb Pos.eqb]. by rewrite Hu, Hc.
  - cbn [app scan_string]. rewrite (proj2 (Z.eqb_neq b 34)), (proj2 (Z.eqb_neq b 92)) by done.
    by rewrite (proj2 (Z.ltb_ge b 32)).
Qed.

Lemma scan_escapes l : is_bytes l → ∀ fuel acc rest,
  (length l < fuel)%nat →
  scan_string fuel acc (concat (map escape_char l) ++ 34 :: rest) = Ok (bytes_str (acc ++ l), rest).
Proof.
  induction 1 as [|b l Hb _ IH]; intros fuel acc rest Hf.
  - destruct fuel; [cbn in Hf; lia |]. cbn. by rewrite app_nil_r.
  - cbn [map concat]. rewrite <- app_assoc. destruct fuel as [|fuel]; [cbn in Hf; lia |].
    rewrite scan_escaped, IH by (done || cbn in Hf; lia). by rewrite <- app_assoc.
Qed.

Lemma escape_length l : (length l ≤ length (concat (map escape_char l)))%nat.
Proof.
  induction l as [|b l IH]; [done |]. cbn [map concat]. rewrite length_app.
  assert (1 ≤ length (escape_char b))%nat; [| cbn; lia]. unfold escape_char. by repeat case_match; cbn; lia.
Qed.

Lemma scan_string_text s rest :
  next_is 34 (string_text s ++ rest) = Some (concat (map escape_char (str_encode s)) ++ 34 :: rest)
  ∧ scan_string (S (length (concat (map escape_char (str_encode s)) ++ 34 :: rest))) []
      (concat (map escape_char (str_encode s)) ++ 34 :: rest) = Ok (s, rest).
Proof.
  split.
  - unfold string_text. cbn [app next_is]. by rewrite Z.eqb_refl, <- app_assoc.
  - rewrite scan_escapes; [by cbn [app]; rewrite bytes_str_encode | apply is_bytes_str_encode |].
    rewrite length_app. pose proof (escape_length (str_encode s)). lia.
Qed.

(** *** Scalars *)

Lemma strip_prefix_app p l : strip_prefix p (p ++ l) = Some l.
Proof. unfold strip_prefix. by rewrite take_app_length, drop_app_length, bool_decide_eq_true_2. Qed.

(** No constant starts like a number. *)
Lemma no_constant b c t : is_digit b = true ∨ b = 45 ∧ is_digit c = true →
  scan_constant json_constants (b :: c :: t) = None
  ∧ (is_digit b = true → scan_constant json_constants [b] = None).
Proof.
  intros H. unfold scan_constant, json_constants, strip_prefix.
  split; [| intros Hb]; repeat (case_bool_decide as E; [exfalso; vm_compute in E | clear E]); try done;
    try discriminate E; injection E; intros; unfold is_digit in *; subst; destruct H as [H | [H1 H2]];
    discriminate.
Qed.

Lemma scan_int z rest : zlen (nat_text (Z.abs z)) ≤ 4300 → ends_value rest →
  scan_scalar (int_text z ++ rest) = Ok (PInt z, rest).
Proof.
  intros Hlen Hr. destruct (nat_text_ok (Z.abs z)) as (Hd & Hne & Hv & Hh); [lia |].
  pose proof (scan_digits _ rest (z <? 0) Hd Hne Hh Hlen Hr) as Hs.
  assert (Hc : scan_constant json_constants (int_text z ++ rest) = None).
  { unfold int_text. destruct (Z.ltb_spec z 0).
    - rewrite Z.abs_neq in * by lia. destruct (nat_text (- z)) as [|d ds] eqn:E; [done |].
      apply Forall_inv in Hd. cbn [app]. apply no_constant. by right.
    - rewrite Z.abs_eq in * by lia. destruct (nat_text z) as [|d ds] eqn:E; [done |].
      apply Forall_inv in Hd. cbn [app]. destruct (ds ++ rest) as [|c t].
      + apply (no_constant d d []); [by left | done].
      + apply no_constant. by left. }
  unfold scan_scalar. rewrite Hc. unfold int_text in *. rewrite Hv in Hs.
  destruct (Z.ltb_spec z 0); cbn [app] in *.
  - rewrite Z.abs_neq in * by lia. rewrite Hs. do 2 f_equal. f_equal. lia.
  - rewrite Z.abs_eq in * by lia. by rewrite Hs.
Qed.

(** A number that was read as a float up to the end of its text is read the
    same in front of a delimiter. *)
Lemma take_digits_more l ds r rest : take_digits l = (ds, r) → (r = [] → ∀ b t, rest = b :: t → is_digit b = false) →
  take_digits (l ++ rest) = (ds, r ++ rest).
Proof.
  revert ds r. induction l as [|b l IH]; intros ds r; cbn [app take_digits].
  - intros [= <- <-] Hr. destruct rest as [|b t]; [done |]. cbn [app take_digits]. by rewrite (Hr eq_refl b t).
  - destruct (is_digit b); [| by intros [= <- <-]].
    destruct (take_digits l) as [ds' r'] eqn:E. intros [= <- <-] Hr. by rewrite (IH _ _ eq_refl Hr).
Qed.

Lemma next_is_more b l t rest : next_is b l = Some t → next_is b (l ++ rest) = Some (t ++ rest).
Proof. destruct l as [|c l]; [done |]. cbn. by destruct (c =? b); [intros [= ->] |]. Qed.
Lemma next_is_none b c l rest : next_is b (c :: l) = None → next_is b ((c :: l) ++ rest) = None.
Proof. cbn. by destruct (c =? b). Qed.

Lemma ends_digits rest : ends_value rest → ∀ b t, rest = b :: t → is_digit b = false.
Proof. intros H b t ->. by destruct H. Qed.

Lemma take_fraction_more l ds r rest : take_fraction l = (ds, r) → ends_value rest →
  take_fraction (l ++ rest) = (ds, r ++ rest).
Proof.
  intros Hl Hr. destruct l as [|c l].
  { injection Hl as <- <-. apply (ends_no_fraction rest Hr). }
  unfold take_fraction in *. cbn [app next_is] in *.
  destruct (c =? 46); [| by injection Hl as <- <-].
  destruct (take_digits l) as [ds' r'] eqn:E. rewrite (take_digits_more l ds' r' rest E).
  - by destruct (is_nil ds'); injection Hl as <- <-.
  - intros _. by apply ends_digits.
Qed.

Lemma take_exponent_more l ds r rest : take_exponent l = (ds, r) → ends_value rest →
  take_exponent (l ++ rest) = (ds, r ++ rest).
Proof.
  intros Hl Hr. destruct l as [|c l].
  { injection Hl as <- <-. apply (ends_no_fraction rest Hr). }
  unfold take_exponent in *. cbn [app] in *.
  destruct ((c =? 101) || (c =? 69)); [| by injection Hl as <- <-].
  set (sign := match l with
    | s :: t2 => if (s =? 43) || (s =? 45) then ([s], t2) else ([], l) | [] => ([], []) end) in *.
  assert (Hsign : match l ++ rest with
    | s :: t2 => if (s =? 43) || (s =? 45) then ([s], t2) else ([], l ++ rest) | [] => ([], []) end
    = (fst sign, snd sign ++ rest)).
  { unfold sign. destruct l as [|s l]; cbn [app].
    - destruct rest as [|b t]; [done |]. destruct Hr as (_ & _ & _ & _ & H1 & H2).
      by rewrite (proj2 (Z.eqb_neq b 43)), (proj2 (Z.eqb_neq b 45)).
    - by destruct ((s =? 43) || (s =? 45)). }
  rewrite Hsign. destruct sign as [sg t2]. cbn [fst snd].
  destruct (take_digits t2) as [ds' r'] eqn:E. rewrite (take_digits_more t2 ds' r' rest E).
  - by destruct (is_nil ds'); injection Hl as <- <-.
  - intros _. by apply ends_digits.
Qed.

Lemma scan_number_more l v rest : scan_number l = Some (Ok (v, [])) → ends_value rest →
  scan_number (l ++ rest) = Some (Ok (v, rest))
  ∧ scan_constant json_constants (l ++ rest) = None ∧ (∃ b t, l = b :: t ∧ (is_digit b = true ∨ b = 45)).
Proof.
  unfold scan_number. intros Hs Hr.
  set (start := match next_is 45 l with Some t => ([45], t) | None => ([], l) end) in *.
  assert (Hstart : match next_is 45 (l ++ rest) with Some t => ([45], t) | None => ([], l ++ rest) end
    = (fst start, snd start ++ rest) ∧ l = fst start ++ snd start).
  { unfold start. destruct l as [|c l]; [| cbn; by destruct (Z.eqb_spec c 45) as [-> |]].
    cbn. split; [| done]. destruct rest as [|b t]; [done |]. cbn.
    destruct Hr as (_ & _ & _ & _ & _ & H). by rewrite (proj2 (Z.eqb_neq b 45)). }
  destruct Hstart as [Hstart Hl]. rewrite Hstart.
  assert (Hsign : fst start = [] ∨ fst start = [45]) by (unfold start; destruct (next_is 45 l); auto).
  destruct start as [neg l1]. cbn [fst snd] in *. subst l.
  set (int := match next_is 48 l1 with Some t => ([48], t) | None => take_digits l1 end) in *.
  assert (Hint : match next_is 48 (l1 ++ rest) with
    | Some t => ([48], t) | None => take_digits (l1 ++ rest) end = (fst int, snd int ++ rest)).
  { unfold int. destruct l1 as [|c l1]; cbn [app].
    - destruct rest as [|b t]; [done |]. cbn [next_is fst snd take_digits app].
      destruct Hr as (Hd & _). rewrite Hd. destruct (Z.eqb_spec b 48) as [-> |]; [discriminate Hd | done].
    - cbn [next_is]. destruct (c =? 48); [done |].
      change (c :: l1 ++ rest) with ((c :: l1) ++ rest).
      destruct (take_digits (c :: l1)) as [ds r] eqn:E. rewrite (take_digits_more _ _ _ rest E); [done |].
      intros _. by apply ends_digits. }
  assert (Hhead : ∀ d ds, fst int = d :: ds → ∃ t, l1 = d :: t ∧ is_digit d = true).
  { unfold int. intros d ds. destruct l1 as [|c l1]; [done |]. cbn [next_is].
    destruct (Z.eqb_spec c 48) as [-> |]; [cbn; intros [= <- <-]; by exists l1 |].
    cbn [take_digits]. destruct (is_digit c) eqn:Hc; [| done].
    destruct (take_digits l1). cbn. intros [= <- <-]. by exists l1. }
  rewrite Hint. destruct int as [ds l2]. cbn [fst snd] in *.
  destruct (is_nil ds) eqn:Hnil; [done |]. destruct ds as [|d ds]; [done |].
  destruct (Hhead d ds eq_refl) as (t & -> & Hd).
  destruct (take_fraction l2) as [frac l3] eqn:Hfrac. rewrite (take_fraction_more _ _ _ _ Hfrac Hr).
  destruct (take_exponent l3) as [exp l4] eqn:Hexp. rewrite (take_exponent_more _ _ _ _ Hexp Hr).
  split; [| split].
  - destruct (is_nil frac && is_nil exp); [destruct (4300 <? _); [done |] |];
      injection Hs as <- ->; done.
  - destruct Hsign as [-> | ->]; cbn [app].
    + destruct (t ++ rest); [apply (no_constant d d []) | apply no_constant]; auto.
    + destruct (t ++ rest); apply no_constant; auto.
  - destruct Hsign as [-> | ->]; cbn [app]; eexists _, _; (split; [reflexivity |]); auto.
Qed.

Lemma scan_float repr rest : float_text repr → ends_value rest →
  scan_scalar (str_encode repr ++ rest) = Ok (PFloat repr, rest).
Proof.
  intros [-> | [-> | [-> | Hn]]] Hr; [done | done | done |].
  destruct (scan_number_more _ _ _ Hn Hr) as (Hs & Hc & _). unfold scan_scalar. by rewrite Hc, Hs.
Qed.

(** *** Values *)

(** How a text starts: not with a blank, a closing bracket or a byte order mark. *)
Definition starts_value (l : bytes) : Prop :=
  match l with [] => False | b :: _ => is_json_space b = false ∧ b ≠ 93 ∧ b ≠ 125 ∧ b ≠ 239 end.

Lemma int_text_head z : ∃ b t, int_text z = b :: t ∧ (is_digit b = true ∨ b = 45).
Proof.
  unfold int_text. destruct (Z.ltb_spec z 0) as [Hz | Hz]; [eexists _, _; split; [done | by right] |].
  destruct (nat_text_ok z Hz) as (Hd & Hne & _). destruct (nat_text z) as [|b t]; [done |].
  exists b, t. split; [done |]. left. by apply Forall_inv in Hd.
Qed.

Lemma number_head b : is_digit b = true ∨ b = 45 →
  (is_json_space b = false ∧ b ≠ 93 ∧ b ≠ 125 ∧ b ≠ 239) ∧ b ≠ 34 ∧ b ≠ 123 ∧ b ≠ 91.
Proof. unfold is_digit, is_json_space. lia. Qed.

(** A scalar's text, scanned in front of a delimiter. *)
Definition is_scalar (v : pyval) : bool :=
  match v with PStr _ | PList _ | PDict _ => false | _ => true end.

Lemma scalar_head v : json_ok v → is_scalar v = true →
  ∃ b t, dump v = b :: t ∧ (is_json_space b = false ∧ b ≠ 93 ∧ b ≠ 125 ∧ b ≠ 239) ∧ b ≠ 34 ∧ b ≠ 123 ∧ b ≠ 91.
Proof.
  destruct v as [|[]|z|repr| | |]; try done; cbn [dump json_ok]; intros Hok _;
    try (eexists _, _; split; [reflexivity |]; split; [split_and!; done |]; done).
  - destruct (int_text_head z) as (b & t & -> & Hb). exists b, t. split; [done | by apply number_head].
  - destruct Hok as [-> | [-> | [-> | Hn]]];
      try (eexists _, _; split; [reflexivity |]; split; [split_and!; done |]; done).
    destruct (scan_number_more _ _ [] Hn) as (_ & _ & b & t & -> & Hb); [done |].
    exists b, t. split; [done | by apply number_head].
Qed.

Lemma scan_scalar_dump v rest : json_ok v → is_scalar v = true → ends_value rest →
  scan_scalar (dump v ++ rest) = Ok (v, rest).
Proof.
  destruct v as [|[]|z|repr| | |]; try done; cbn [dump json_ok]; intros Hok _ Hr.
  - by apply scan_int.
  - by apply scan_float.
Qed.

Lemma starts_dump v : json_ok v → starts_value (dump v).
Proof.
  intros Hok. destruct (is_scalar v) eqn:E; [| by destruct v].
  destruct (scalar_head v Hok E) as (b & t & -> & Hb & _). exact Hb.
Qed.

Lemma starts_skip l rest : starts_value l → skip_ws (l ++ rest) = l ++ rest ∧ next_is 93 (l ++ rest) = None.
Proof.
  destruct l as [|b l]; [done |]. intros (Hs & H1 & _). cbn [app skip_ws next_is].
  rewrite Hs. split; [done |]. by rewrite (proj2 (Z.eqb_neq b 93)).
Qed.

Lemma plain_object_distinct d : NoDup (keys d) → plain_object d = Ok (PDict d).
Proof.
  intros Hd. unfold plain_object. do 2 f_equal.
  enough (∀ acc, NoDup (keys (acc ++ d)) →
    fold_left (λ d kv, dict_set kv.1 kv.2 d) d acc = acc ++ d) as H by by apply (H []).
  induction d as [|[k v] d IH]; intros acc Hacc; cbn [fold_left fst snd]; [by rewrite app_nil_r |].
  assert (Hnew : dict_set k v acc = acc ++ [(k, v)]).
  { clear IH Hd. unfold keys in Hacc. rewrite map_app in Hacc. apply NoDup_app in Hacc as (_ & Hk & _).
    induction acc as [|[j w] acc IH]; [done |]. cbn [dict_set app].
    destruct (String.eqb_spec j k) as [-> |]; [exfalso; by apply (Hk k); left |].
    f_equal. apply IH. intros x Hx. apply Hk. by right. }
  rewrite Hnew. rewrite IH, <- app_assoc; [done | by apply NoDup_cons in Hd as [_ Hd] |].
  by rewrite <- app_assoc.
Qed.

(** What is done with the pairs of an object, as long as their keys are distinct. *)
Section hook.
Context (hook : list (string * pyval) → res pyval)
  (hook_distinct : ∀ d, NoDup (keys d) → hook d = Ok (PDict d)).

Section arrays.
Context (value : JsonParser pyval).

Lemma scan_array_last fuel acc l v rest : value l = Ok (v, 93 :: rest) →
  scan_array value (S fuel) acc l = Ok (PList (acc ++ [v]), rest).
Proof. intros H. cbn [scan_array]. by rewrite H. Qed.
Lemma scan_array_more fuel acc l v t : value l = Ok (v, 44 :: t) →
  scan_array value (S fuel) acc l = scan_array value fuel (acc ++ [v]) (skip_ws t).
Proof. intros H. cbn [scan_array]. by rewrite H. Qed.

(** The rest of an array, after the element at hand. *)
Lemma scan_array_dump l : ∀ v fuel acc rest,
  (∀ x r, x ∈ v :: l → ends_value r → value (dump x ++ r) = Ok (x, r)) →
  Forall (λ x, starts_value (dump x)) l → (length l < fuel)%nat →
  scan_array value fuel acc (join_with 44 (map dump (v :: l)) ++ 93 :: rest)
  = Ok (PList (acc ++ v :: l), rest).
Proof.
  induction l as [|w l IH]; intros v fuel acc rest Hv Hl Hf; (destruct fuel as [|fuel]; [lia |]);
    cbn [map join_with concat]; rewrite <- app_assoc; cbn [app].
  - apply scan_array_last. apply Hv; [by left | done].
  - erewrite scan_array_more; [| apply Hv; [by left | done]].
    apply Forall_cons in Hl as [Hw Hl]. rewrite <- app_assoc.
    rewrite (proj1 (starts_skip (dump w) _ Hw)).
    specialize (IH w fuel (acc ++ [v]) rest). cbn [map join_with] in IH. rewrite <- app_assoc in IH.
    rewrite IH, <- app_assoc; [done | | done | cbn in Hf; lia].
    intros x r Hx. apply Hv. by right.
Qed.

Definition pair_text (kv : string * pyval) : bytes := string_text (fst kv) ++ [58] ++ dump (snd kv).

Lemma scan_member fuel acc k l v : ∀ r,
  starts_value l → value (l ++ r) = Ok (v, r) →
  scan_object hook value (S fuel) acc (string_text k ++ 58 :: l ++ r)
  = match next_is 125 (skip_ws r), next_is 44 (skip_ws r) with
    | Some rest, _ => o ← hook (acc ++ [(k, v)]); Ok (o, rest)
    | None, Some rest => scan_object hook value fuel (acc ++ [(k, v)]) (skip_ws rest)
    | None, None => json_error "Expecting ',' delimiter"
    end.
Proof.
  intros r Hl Hv. cbn [scan_object]. destruct (scan_string_text k (58 :: l ++ r)) as [Hn Hs].
  rewrite Hn, Hs. cbn [mbind res_bind]. change (next_is 58 (skip_ws (58 :: l ++ r))) with (Some (l ++ r)).
  cbv iota. by rewrite (proj1 (starts_skip l r Hl)), Hv.
Qed.

Lemma after_comma t : next_is 125 (skip_ws (44 :: t)) = None ∧ next_is 44 (skip_ws (44 :: t)) = Some t.
Proof. done. Qed.

Lemma scan_object_dump d : ∀ kv fuel acc rest,
  (∀ x r, x ∈ map snd (kv :: d) → ends_value r → value (dump x ++ r) = Ok (x, r)) →
  Forall (λ x, starts_value (dump x)) (map snd (kv :: d)) → (length d < fuel)%nat →
  scan_object hook value fuel acc (join_with 44 (map pair_text (kv :: d)) ++ 125 :: rest)
  = (o ← hook (acc ++ kv :: d); Ok (o, rest)).
Proof.
  induction d as [|kw d IH]; intros [k v] fuel acc rest Hv Hl Hf; (destruct fuel as [|fuel]; [lia |]);
    cbn [map join_with concat]; unfold pair_text at 1; cbn [fst snd]; rewrite <- !app_assoc;
    cbn [map snd] in Hl; apply Forall_cons in Hl as [Hstart Hl]; cbn [app];
    (rewrite (scan_member fuel acc k (dump v) v); [| done | apply Hv; [by left | done]]).
  - done.
  - rewrite (proj1 (after_comma _)), (proj2 (after_comma _)).
    assert (Hskip : ∀ r, skip_ws (pair_text kw ++ r) = pair_text kw ++ r).
    { intros r. apply starts_skip. done. }
    rewrite Hskip.
    specialize (IH kw fuel (acc ++ [(k, v)]) rest). cbn [map join_with] in IH.
    rewrite <- !app_assoc in IH. rewrite IH; [done | | done | cbn in Hf; lia].
    intros x r Hx. apply Hv. by right.
Qed.
End arrays.

(** Building an object from pairs with distinct keys keeps them. *)

Lemma join_length (l : list bytes) x : x ∈ l → (length x ≤ length (join_with 44 l))%nat.
Proof.
  destruct l as [|y l]; [by intros ?%elem_of_nil |]. cbn [join_with]. rewrite length_app.
  intros [-> | Hx]%elem_of_cons; [lia |]. induction l as [|z l IH]; [by apply elem_of_nil in Hx |].
  cbn [map concat length app]. rewrite length_app. apply elem_of_cons in Hx as [-> | Hx]; [lia |].
  specialize (IH Hx). lia.
Qed.

Lemma join_count (l : list bytes) x : (length l ≤ length (join_with 44 (x :: l)))%nat.
Proof.
  cbn [join_with]. rewrite length_app. enough (length l ≤ length (concat (map (cons 44%Z) l)))%nat by lia.
  induction l as [|z l IH]; [done |]. cbn [map concat length app]. rewrite length_app. lia.
Qed.

Lemma json_ok_elem v l : json_ok (PList l) → v ∈ l → json_ok v.
Proof.
  cbn [json_ok]. rewrite Forall_forall. intros H Hv. apply (H (json_ok v)).
  apply list_elem_of_In, in_map, list_elem_of_In, Hv.
Qed.
Lemma json_ok_value v d : json_ok (PDict d) → v ∈ map snd d → json_ok v.
Proof.
  cbn [json_ok]. rewrite Forall_forall. intros [_ H] (kv & <- & Hv)%list_elem_of_In%in_map_iff.
  apply (H (json_ok kv.2)), list_elem_of_In, (in_map (λ kv, json_ok kv.2)), Hv.
Qed.

Lemma dump_dict d : dump (PDict d) = [123] ++ join_with 44 (map pair_text d) ++ [125].
Proof. cbn [dump]. do 3 f_equal. apply map_ext. by intros [k v]. Qed.

Lemma in_map_elem {A B} (f : A → B) x l : x ∈ l → f x ∈ map f l.
Proof. rewrite !list_elem_of_In. apply in_map. Qed.

(** Arrays and objects, when their elements are read back. *)
Section containers.
Context (fuel : nat) (rest : bytes).

Lemma scan_list_dump l : json_ok (PList l) →
  (∀ x r, x ∈ l → (length (dump x) < length (dump (PList l)))%nat → ends_value r →
    scan_value hook fuel (dump x ++ r) = Ok (x, r)) →
  scan_value hook (S fuel) (dump (PList l) ++ rest) = Ok (PList l, rest).
Proof.
  intros Hok Hx. destruct l as [|v l]; [done |].
  change (dump (PList (v :: l))) with ([91] ++ join_with 44 (map dump (v :: l)) ++ [93]) in *.
  assert (Hstarts : Forall (λ x, starts_value (dump x)) (v :: l)).
  { apply Forall_forall. intros x Hin. by apply starts_dump, (json_ok_elem x (v :: l)). }
  cbn [app scan_value next_is Z.eqb Pos.eqb]. rewrite <- app_assoc. cbn [app].
  assert (Hhead : skip_ws (join_with 44 (map dump (v :: l)) ++ 93 :: rest)
    = join_with 44 (map dump (v :: l)) ++ 93 :: rest
    ∧ next_is 93 (join_with 44 (map dump (v :: l)) ++ 93 :: rest) = None).
  { cbn [map join_with]. rewrite <- app_assoc. apply starts_skip. by apply Forall_inv in Hstarts. }
  rewrite !(proj1 Hhead), (proj2 Hhead). apply scan_array_dump; [| by apply Forall_cons in Hstarts as [_ ?] |].
  - intros x r Hin Hr. apply Hx; [done | | done]. rewrite !length_app. cbn [length].
    pose proof (join_length _ _ (in_map_elem dump x (v :: l) Hin)). lia.
  - pose proof (join_count (map dump l) (dump v)) as Hc. rewrite length_map in Hc.
    rewrite length_app. cbn [map] in *. lia.
Qed.

Lemma scan_dict_dump d : json_ok (PDict d) →
  (∀ x r, x ∈ map snd d → (length (dump x) < length (dump (PDict d)))%nat → ends_value r →
    scan_value hook fuel (dump x ++ r) = Ok (x, r)) →
  scan_value hook (S fuel) (dump (PDict d) ++ rest) = Ok (PDict d, rest).
Proof.
  intros Hok Hx. rewrite dump_dict in *. destruct d as [|kv d]; [cbn; by rewrite (hook_distinct []) by constructor |].
  assert (Hstarts : Forall (λ x, starts_value (dump x)) (map snd (kv :: d))).
  { apply Forall_forall. intros x Hin. by apply starts_dump, (json_ok_value x (kv :: d)). }
  rewrite <- !app_assoc. cbn [app]. set (text := join_with 44 _ ++ 125 :: rest).
  assert (Hhead : skip_ws text = text ∧ next_is 125 text = None) by done.
  cbn [scan_value next_is Z.eqb Pos.eqb]. rewrite !(proj1 Hhead), (proj2 Hhead).
  unfold text. rewrite scan_object_dump; [| | done |].
  - by rewrite hook_distinct by apply Hok.
  - intros x r Hin Hr. apply Hx; [done | | done]. rewrite !length_app. cbn [length].
    apply list_elem_of_In, in_map_iff in Hin as (kx & <- & Hin).
    pose proof (join_length _ _ (in_map_elem pair_text kx (kv :: d) (proj2 (list_elem_of_In _ _) Hin))) as H.
    unfold pair_text at 1 in H. rewrite !length_app in H. lia.
  - pose proof (join_count (map pair_text d) (pair_text kv)) as Hc. rewrite length_map in Hc.
    rewrite length_app. cbn [map] in *. lia.
Qed.
End containers.

Lemma scan_value_dump n : ∀ v fuel rest,
  (length (dump v) ≤ n)%nat → (length (dump v) ≤ fuel)%nat → json_ok v → ends_value rest →
  scan_value hook fuel (dump v ++ rest) = Ok (v, rest).
Proof.
  induction n as [|n IH]; intros v fuel rest Hn Hf Hok Hr; pose proof (starts_dump v Hok) as Hstart.
  { by destruct (dump v); [| cbn in Hn; lia]. }
  destruct fuel as [|fuel]; [by destruct (dump v); [| cbn in Hf; lia] |].
  destruct (is_scalar v) eqn:Hs.
  { destruct (scalar_head v Hok Hs) as (b & t & Hd & _ & H34 & H123 & H91).
    pose proof (scan_scalar_dump v rest Hok Hs Hr) as Hscan. rewrite Hd in *. cbn [app scan_value next_is] in *.
    by rewrite (proj2 (Z.eqb_neq b 34)), (proj2 (Z.eqb_neq b 123)), (proj2 (Z.eqb_neq b 91)). }
  destruct v as [|b|z|repr|s|l|d]; try done.
  - cbn [dump]. destruct (scan_string_text s rest) as [Hnext Hstr].
    cbn [scan_value]. rewrite Hnext. by rewrite Hstr.
  - apply scan_list_dump; [done |]. intros x r Hx Hlen Hr'.
    apply IH; [lia | lia | by apply (json_ok_elem x l) | done].
  - apply scan_dict_dump; [done |]. intros x r Hx Hlen Hr'.
    apply IH; [lia | lia | by apply (json_ok_value x d) | done].
Qed.
End hook.

(** *** Bytes *)

Lemma dec_digits_bytes fuel : ∀ n, 0 ≤ n → is_bytes (dec_digits fuel n).
Proof.
  induction fuel as [|fuel IH]; intros n Hn; cbn [dec_digits]; [constructor |].
  destruct (Z.ltb_spec n 10); [constructor; [unfold byte_ok; lia | constructor] |].
  apply Forall_app. split; [apply IH, Z.div_pos; lia |].
  pose proof (Z.mod_pos_bound n 10). constructor; [unfold byte_ok; lia | constructor].
Qed.

Lemma int_text_bytes z : is_bytes (int_text z).
Proof.
  unfold int_text, nat_text. destruct (Z.ltb_spec z 0); [constructor; [by unfold byte_ok; lia |] |];
    apply dec_digits_bytes; lia.
Qed.

Lemma string_text_bytes s : is_bytes (string_text s).
Proof.
  unfold string_text. apply Forall_app. split; [by repeat constructor |].
  apply Forall_app. split; [| by repeat constructor].
  pose proof (is_bytes_str_encode s) as H. induction H as [|b l Hb _ IH]; [constructor |].
  cbn [map concat]. apply Forall_app. split; [| exact IH]. unfold byte_ok in Hb.
  pose proof (Z.div_le_lower_bound b 16 0). pose proof (Z.div_lt_upper_bound b 16 16).
  pose proof (Z.mod_pos_bound b 16).
  unfold escape_char, hex_byte. repeat case_match; repeat constructor; unfold byte_ok; lia.
Qed.

Lemma join_bytes l : Forall is_bytes l → is_bytes (join_with 44 l).
Proof.
  intros [|x l' Hx Hl]; [constructor |]. cbn [join_with]. apply Forall_app. split; [done |].
  induction Hl as [|y l' Hy _ IH]; [constructor |]. cbn [map concat app]. constructor; [by unfold byte_ok |].
  by apply Forall_app.
Qed.

Lemma dump_bytes n : ∀ v, (length (dump v) ≤ n)%nat → is_bytes (dump v).
Proof.
  induction n as [|n IH]; intros v Hn.
  { destruct (dump v); [constructor | cbn in Hn; lia]. }
  destruct v as [|[]|z|repr|s|l|d]; cbn [dump];
    try apply is_bytes_str_encode; try apply int_text_bytes; try apply string_text_bytes.
  - apply Forall_app. split; [by repeat constructor |]. apply Forall_app. split; [| by repeat constructor].
    apply join_bytes, Forall_forall. intros b Hb. pose proof (join_length _ _ Hb) as Hl.
    apply list_elem_of_In, in_map_iff in Hb as (x & <- & _). apply IH.
    cbn [dump] in Hn. rewrite !length_app in Hn. cbn in Hn. lia.
  - rewrite dump_dict in Hn. apply Forall_app. split; [by repeat constructor |].
    apply Forall_app. split; [| by repeat constructor].
    assert (map (λ '(k, v), string_text k ++ [58] ++ dump v) d = map pair_text d) as ->.
    { apply map_ext. by intros []. }
    apply join_bytes, Forall_forall. intros b Hb. pose proof (join_length _ _ Hb) as Hl.
    apply list_elem_of_In, in_map_iff in Hb as ([k x] & <- & _). unfold pair_text in *. cbn [fst snd] in *.
    apply Forall_app. split; [apply string_text_bytes |]. apply Forall_app. split; [by repeat constructor |].
    apply IH. rewrite !length_app in Hn, Hl. cbn [length] in Hn. lia.
Qed.

(** Every value with a JSON text is read back from it. *)
Lemma json_roundtrip_hook hook v : (∀ d, NoDup (keys d) → hook d = Ok (PDict d)) →
  json_ok v → json_loads hook (json_dumps v) = Ok v.
Proof.
  intros Hhook Hok. pose proof (starts_dump v Hok) as Hstart. unfold json_loads, json_dumps.
  rewrite str_encode_bytes_str by (by eapply dump_bytes).
  pose proof (scan_value_dump hook Hhook _ v (S (length (dump v))) [] (le_n _) (le_S _ _ (le_n _)) Hok I) as Hscan.
  destruct (starts_skip (dump v) [] Hstart) as [Hskip _]. rewrite !app_nil_r in *. rewrite Hskip, Hscan.
  assert (strip_prefix [0xEF; 0xBB; 0xBF] (dump v) = None) as ->; [| done].
  unfold strip_prefix. case_bool_decide as E; [exfalso | done].
  destruct (dump v) as [|b l]; [discriminate E |]. injection E as -> _. by destruct Hstart as (_ & _ & _ & []).
Qed.
Lemma json_roundtrip v : json_ok v → json_loads plain_object (json_dumps v) = Ok v.
Proof. apply json_roundtrip_hook, plain_object_distinct. Qed.
