(* ===== verification/OperationIdentity.v ===== *)
(** * Request identities ([operation_identity.py])

    An operation id may be submitted again, so that a client can retry without
    starting the operation twice; the fingerprint of the request decides
    whether a submission is the same request.  The canonical text of a request
    is proved to determine it (up to what is not part of a request: the order of
    dictionary keys, lists or tuples, and the content of binary parameters
    beyond length and SHA-256). *)
From stdpp Require Import sorting.
From S2P Require Import Prelude Text Value Json JsonDump Sha256.

(** ** Python objects *)

(** A dictionary key: a string, or another object with its [str()]. *)
Inductive pykey := KStr (s : string) | KOther (text : string).

#[export] Instance pykey_eq_dec : EqDecision pykey.
Proof. solve_decision. Defined.

(** The objects a request may hold; anything else is kept as its [str()]. *)
Inductive pyobj :=
| ONone
| OBool (b : bool)
| OInt (z : Z)
| OFloat (repr : string)
| OStr (s : string)
| OBytes (b : bytes)
| OList (l : list pyobj)
| OTuple (l : list pyobj)
| ODict (d : list (pykey * pyobj))
| OOther (text : string).

Section pyobj_ind.
Context (P : pyobj → Prop).
Context (Hnone : P ONone) (Hbool : ∀ b, P (OBool b)) (Hint : ∀ z, P (OInt z))
  (Hfloat : ∀ r, P (OFloat r)) (Hstr : ∀ s, P (OStr s)) (Hbytes : ∀ b, P (OBytes b))
  (Hother : ∀ t, P (OOther t)).
Context (Hlist : ∀ l, Forall P l → P (OList l)) (Htuple : ∀ l, Forall P l → P (OTuple l))
  (Hdict : ∀ d, Forall (λ kv, P (snd kv)) d → P (ODict d)).

Fixpoint pyobj_nested_ind (v : pyobj) : P v :=
  match v with
  | ONone => Hnone | OBool b => Hbool b | OInt z => Hint z | OFloat r => Hfloat r
  | OStr s => Hstr s | OBytes b => Hbytes b | OOther t => Hother t
  | OList l => Hlist l ((fix all l : Forall P l :=
      match l with [] => Forall_nil_2 P | x :: l => Forall_cons_2 P x l (pyobj_nested_ind x) (all l) end) l)
  | OTuple l => Htuple l ((fix all l : Forall P l :=
      match l with [] => Forall_nil_2 P | x :: l => Forall_cons_2 P x l (pyobj_nested_ind x) (all l) end) l)
  | ODict d => Hdict d ((fix all d : Forall (λ kv, P (snd kv)) d :=
      match d with
      | [] => Forall_nil_2 _
      | kv :: d => Forall_cons_2 (λ kv, P (snd kv)) kv d (pyobj_nested_ind (snd kv)) (all d)
      end) d)
  end.
End pyobj_ind.

(** A JSON value as an object. *)
Fixpoint obj_of (v : pyval) : pyobj :=
  match v with
  | PNone => ONone | PBool b => OBool b | PInt z => OInt z | PFloat r => OFloat r | PStr s => OStr s
  | PList l => OList (map obj_of l)
  | PDict d => ODict (map (λ kv, (KStr (fst kv), obj_of (snd kv))) d)
  end.

(** ** Canonical form *)

Definition key_name (k : pykey) : option string := match k with KStr s => Some s | KOther _ => None end.

(** [all(isinstance(key, str))]: the pairs under their string keys. *)
Definition named_pairs {A} (d : list (pykey * A)) : option (list (string * A)) :=
  mapM (λ kv, k ← key_name (fst kv); Some (k, snd kv)) d.

Definition sorted_names (l : list string) : list string := merge_sort String.le l.

(** [[[key, value[key]] for key in sorted(value)]] *)
Definition sorted_items (d : list (string * res pyval)) : res (list pyval) :=
  mapM (λ k, v ← default (raise KeyError k) (dict_lookup k d); Ok (PList [PStr k; v]))
    (sorted_names (keys d)).

Fixpoint _canonical (value : pyobj) : res pyval :=
  match value with
  | OBytes b => Ok (PList [PStr "bytes"; PInt (zlen b); PStr (sha256_hex b)])
  | ODict d =>
    match named_pairs (map (λ kv, (fst kv, _canonical (snd kv))) d) with
    | None => raise ValueError "operation parameter keys must be strings"
    | Some d => items ← sorted_items d; Ok (PList [PStr "object"; PList items])
    end
  | OTuple l | OList l => items ← mapM id (map _canonical l); Ok (PList [PStr "array"; PList items])
  | ONone => Ok (PList [PStr "NoneType"; PNone])
  | OBool b => Ok (PList [PStr "bool"; PBool b])
  | OInt z => Ok (PList [PStr "int"; PInt z])
  | OFloat r => Ok (PList [PStr "float"; PFloat r])
  | OStr s => Ok (PList [PStr "str"; PStr s])
  | OOther _ => raise ValueError "unsupported operation parameter type"
  end%string.

(** ** Fingerprints *)

(** What [json.dumps(..., allow_nan=False)] raises. *)
Fixpoint dumps_error (v : pyval) : option exn :=
  match v with
  | PInt z => if 4300 <? zlen (nat_text (Z.abs z))
              then Some (Exn ValueError "Exceeds the limit for integer string conversion" 0) else None
  | PFloat r => if existsb (String.eqb r) ["NaN"; "Infinity"; "-Infinity"]%string
                then Some (Exn ValueError "Out of range float values are not JSON compliant" 0) else None
  | PList l => head (omap dumps_error l)
  | PDict d => head (omap (λ kv, dumps_error (snd kv)) d)
  | _ => None
  end.
Definition dumps_strict (v : pyval) : res string :=
  match dumps_error v with Some e => Err e | None => Ok (json_dumps v) end.

Definition identity_keys : list string :=
  ["device_id"; "actor_type"; "actor_name"; "actor_scopes"; "action"; "params"]%string.

(** [{key: request.get(key) for key in (...)}] *)
Definition identity (request : list (string * pyobj)) : pyobj :=
  ODict (map (λ k, (KStr k, default ONone (dict_lookup k request))) identity_keys).

Definition canonical_text (value : pyobj) : res string := c ← _canonical value; dumps_strict c.

Definition request_fingerprint (request : list (string * pyobj)) : res string :=
  encoded ← canonical_text (identity request);
  Ok ("sha256:v1:" ++ sha256_hex (str_encode encoded))%string.

Definition require_same_request (existing : option string) (fingerprint : string) : res unit :=
  raise_if (negb (bool_decide (existing = Some fingerprint))) OperationConflict
    "operation ID already belongs to a different request".

(** ** What the canonical form determines *)

(** Dictionaries have distinct keys. *)
Inductive obj_ok : pyobj → Prop :=
| ok_none : obj_ok ONone
| ok_bool b : obj_ok (OBool b)
| ok_int z : obj_ok (OInt z)
| ok_float r : float_text r → obj_ok (OFloat r)
| ok_str s : obj_ok (OStr s)
| ok_bytes b : obj_ok (OBytes b)
| ok_other t : obj_ok (OOther t)
| ok_list l : Forall obj_ok l → obj_ok (OList l)
| ok_tuple l : Forall obj_ok l → obj_ok (OTuple l)
| ok_dict d : NoDup (map fst d) → Forall (λ kv, obj_ok (snd kv)) d → obj_ok (ODict d).

Definition elements (v : pyobj) : option (list pyobj) :=
  match v with OList l | OTuple l => Some l | _ => None end.

(** The same request parameter: equal up to the order of dictionary keys, lists
    or tuples, and what length and SHA-256 do not tell about binary data. *)
Inductive same_value : pyobj → pyobj → Prop :=
| same_none : same_value ONone ONone
| same_bool b : same_value (OBool b) (OBool b)
| same_int z : same_value (OInt z) (OInt z)
| same_float r : same_value (OFloat r) (OFloat r)
| same_str s : same_value (OStr s) (OStr s)
| same_bytes b c : zlen b = zlen c → sha256_hex b = sha256_hex c → same_value (OBytes b) (OBytes c)
| same_seq v w l m : elements v = Some l → elements w = Some m → Forall2 same_value l m → same_value v w
| same_dict d e : (∀ k, k ∈ map fst d ↔ k ∈ map fst e) →
    Forall (λ kv, ∃ w, (fst kv, w) ∈ e ∧ same_value (snd kv) w) d → same_value (ODict d) (ODict e).

Lemma mapM_res_Ok {A B} (f : A → res B) l r : mapM f l = Ok r ↔ Forall2 (λ x y, f x = Ok y) l r.
Proof.
  revert r. induction l as [|x l IH]; intros r; cbn [mapM].
  - split; [intros [= <-]; constructor | by intros ->%Forall2_nil_inv_l].
  - split.
    + intros H. bind H as y Hy. bind H as r' Hr'. injection H as <-. constructor; [done | by apply IH].
    + intros (y & r' & Hy & Hr' & ->)%Forall2_cons_inv_l. rewrite Hy. cbn. apply IH in Hr'. by rewrite Hr'.
Qed.

Lemma named_pairs_Some {A} (d : list (pykey * A)) d' :
  named_pairs d = Some d' ↔ d = map (λ kv, (KStr (fst kv), snd kv)) d'.
Proof.
  unfold named_pairs. revert d'. induction d as [|[k v] d IH]; intros d'; cbn [mapM fst snd].
  - split; [by intros [= <-] | by destruct d' as [|[]]].
  - split.
    + destruct k as [s|]; cbn; [| done]. destruct (mapM _ d) as [e|] eqn:E; cbn; [| done].
      intros [= <-]. cbn. by rewrite (proj1 (IH e)).
    + destruct d' as [|[s w] d']; [done |]. cbn. intros [= -> -> Hd]. cbn.
      rewrite (proj2 (IH d') Hd). done.
Qed.

Lemma dict_lookup_keys {A} k (d : list (string * A)) : k ∈ keys d ↔ is_Some (dict_lookup k d).
Proof.
  rewrite <- has_key_spec, dict_lookup_has_key.
  destruct (dict_lookup k d); split; intros H; done || (by eexists) || (by destruct H).
Qed.

Lemma sorted_items_Ok d items : sorted_items d = Ok items ↔
  Forall2 (λ k it, ∃ c, dict_lookup k d = Some (Ok c) ∧ it = PList [PStr k; c]) (sorted_names (keys d)) items.
Proof.
  unfold sorted_items. rewrite mapM_res_Ok. split; intros H; (eapply Forall2_impl; [exact H |]);
    intros k it; cbn beta.
  - destruct (dict_lookup k d) as [[c|e]|]; cbn; [| done | done]. intros [= <-]. by exists c.
  - intros (c & -> & ->). done.
Qed.

Lemma sorted_names_perm l : sorted_names l ≡ₚ l.
Proof. apply merge_sort_Permutation. Qed.

(** The items of a dictionary list its keys, and each key's canonical value. *)
Lemma sorted_items_eq d e items :
  sorted_items d = Ok items → sorted_items e = Ok items →
  keys d ≡ₚ keys e ∧ ∀ k, k ∈ keys d → ∃ c, dict_lookup k d = Some (Ok c) ∧ dict_lookup k e = Some (Ok c).
Proof.
  intros Hd%sorted_items_Ok He%sorted_items_Ok.
  assert (Hboth : sorted_names (keys d) = sorted_names (keys e)
    ∧ ∀ k, k ∈ sorted_names (keys d) →
        ∃ c, dict_lookup k d = Some (Ok c) ∧ dict_lookup k e = Some (Ok c)).
  { revert He. generalize (sorted_names (keys e)). induction Hd as [|k it l items (c & Hk & ->) _ IH];
      intros l' He.
    - apply Forall2_nil_inv_r in He as ->. split; [done |]. by intros k ?%elem_of_nil.
    - apply Forall2_cons_inv_r in He as (k' & l2 & (c' & Hk' & [= -> ->]) & He & ->).
      destruct (IH _ He) as [-> Hall]. split; [done |].
      intros j [-> | Hj]%elem_of_cons; [by exists c' | by apply Hall]. }
  destruct Hboth as [Heq Hall]. split.
  - by rewrite <- (sorted_names_perm (keys d)), Heq, sorted_names_perm.
  - intros k Hk. apply Hall. by rewrite sorted_names_perm.
Qed.

Definition named {A} (d : list (string * A)) : list (pykey * A) := map (λ kv, (KStr (fst kv), snd kv)) d.
Definition canonical_pairs (d : list (string * pyobj)) : list (string * res pyval) :=
  map (λ kv, (fst kv, _canonical (snd kv))) d.

Lemma named_pairs_map {A B} (f : A → B) d e :
  named_pairs (map (λ kv, (fst kv, f (snd kv))) d) = Some e →
  ∃ d', d = named d' ∧ e = map (λ kv, (fst kv, f (snd kv))) d'.
Proof.
  intros H%named_pairs_Some. revert e H. induction d as [|[k v] d IH]; intros [|[s w] e]; cbn; try done.
  - intros _. by exists [].
  - intros [= -> <- Hd]. destruct (IH _ Hd) as (d' & -> & ->). by exists ((s, v) :: d').
Qed.

Lemma canonical_seq w l c : elements w = Some l →
  _canonical w = Ok c ↔ ∃ items, Forall2 (λ x y, _canonical x = Ok y) l items ∧ c = PList [PStr "array"; PList items].
Proof.
  assert (Hmap : ∀ l items, mapM id (map _canonical l) = Ok items ↔ Forall2 (λ x y, _canonical x = Ok y) l items).
  { intros l' items. rewrite mapM_res_Ok. apply Forall2_fmap_l. }
  assert (Hseq : ∀ l, (items ← mapM id (map _canonical l); Ok (PList [PStr "array"; PList items])) = Ok c
    ↔ ∃ items, Forall2 (λ x y, _canonical x = Ok y) l items ∧ c = PList [PStr "array"; PList items]).
  { intros l'. split.
    - intros H. bind H as items Hi. injection H as <-. exists items. by rewrite <- Hmap.
    - intros (items & Hi & ->). apply Hmap in Hi. by rewrite Hi. }
  destruct w; cbn [elements _canonical]; try done; intros [= ->]; apply Hseq.
Qed.

Lemma canonical_dict d c : _canonical (ODict d) = Ok c ↔
  ∃ d' items, d = named d' ∧ sorted_items (canonical_pairs d') = Ok items ∧ c = PList [PStr "object"; PList items].
Proof.
  cbn [_canonical]. split.
  - destruct (named_pairs _) as [e|] eqn:E; [| done]. apply named_pairs_map in E as (d' & -> & ->).
    intros H. bind H as items Hi. injection H as <-. by exists d', items.
  - intros (d' & items & -> & Hi & ->).
    assert (named_pairs (map (λ kv, (fst kv, _canonical (snd kv))) (named d')) = Some (canonical_pairs d')) as ->.
    { apply named_pairs_Some. unfold named, canonical_pairs. by rewrite !map_map. }
    by rewrite Hi.
Qed.

Definition type_tag (v : pyobj) : string :=
  match v with
  | ONone => "NoneType" | OBool _ => "bool" | OInt _ => "int" | OFloat _ => "float" | OStr _ => "str"
  | OBytes _ => "bytes" | OList _ | OTuple _ => "array" | ODict _ => "object" | OOther _ => ""
  end%string.

Lemma canonical_tag v c : _canonical v = Ok c → ∃ l, c = PList (PStr (type_tag v) :: l).
Proof.
  destruct v as [|b|z|r|s|b|l|l|d|t]; try (cbn; by intros [= <-]; eexists).
  - by intros (items & _ & ->)%(canonical_seq (OList l) l); [eexists |].
  - by intros (items & _ & ->)%(canonical_seq (OTuple l) l); [eexists |].
  - intros (d' & items & _ & _ & ->)%canonical_dict. by eexists.
Qed.

Lemma named_keys {A} k (d : list (string * A)) : KStr k ∈ map fst (named d) ↔ k ∈ keys d.
Proof.
  unfold named, keys. rewrite map_map. cbn. rewrite !list_elem_of_In, !in_map_iff.
  split; intros (kv & Hk & Hin); exists kv; (split; [congruence | done]).
Qed.
Lemma named_NoDup {A} (d : list (string * A)) : NoDup (map fst (named d)) ↔ NoDup (keys d).
Proof.
  unfold named, keys. rewrite map_map. cbn. change (map (λ x : string * A, KStr x.1) d)
    with (map (λ x, KStr (fst x)) d). rewrite <- (map_map fst KStr).
  split; [apply NoDup_fmap_1 | apply NoDup_fmap_2]. by intros x y [=].
Qed.
Lemma named_elem {A} k (v : A) d : (KStr k, v) ∈ named d ↔ (k, v) ∈ d.
Proof.
  unfold named. rewrite !list_elem_of_In, in_map_iff. split; [by intros ([k' v'] & [= -> ->] & H) |].
  intros H. by exists (k, v).
Qed.
Lemma named_not_other {A} t (d : list (string * A)) : KOther t ∉ map fst (named d).
Proof. unfold named. rewrite map_map. by intros (kv & [=] & _)%list_elem_of_In%in_map_iff. Qed.
Lemma canonical_pairs_keys d : keys (canonical_pairs d) = keys d.
Proof. unfold keys, canonical_pairs. by rewrite map_map. Qed.
Lemma canonical_pairs_lookup k d :
  dict_lookup k (canonical_pairs d) = option_map _canonical (dict_lookup k d).
Proof. induction d as [|[j v] d IH]; [done |]. cbn. by destruct (String.eqb j k). Qed.

Lemma seq_same v w l m :
  Forall (λ v, ∀ w c, obj_ok v → obj_ok w → _canonical v = Ok c → _canonical w = Ok c → same_value v w) l →
  Forall obj_ok l → Forall obj_ok m → elements v = Some l → elements w = Some m →
  ∀ c, _canonical v = Ok c → _canonical w = Ok c → same_value v w.
Proof.
  intros IH Hl Hm Hv Hw c (items & Hi & ->)%(canonical_seq v l c Hv)
    (items' & Hi' & [= <-])%(canonical_seq w m _ Hw). apply (same_seq v w l m Hv Hw).
  clear Hv Hw v w. revert l IH Hl Hi m Hm Hi'. induction items as [|it items IHi]; intros l IH Hl Hi m Hm Hi'.
  - apply Forall2_nil_inv_r in Hi, Hi'. by subst.
  - apply Forall2_cons_inv_r in Hi as (x & l' & Hx & Hi & ->), Hi' as (y & m' & Hy & Hi' & ->).
    apply Forall_cons in IH as [IH IHl], Hl as [Hxok Hl], Hm as [Hyok Hm].
    constructor; [by eapply IH | by apply IHi].
Qed.

Lemma dict_same d e :
  Forall (λ kv, ∀ w c, obj_ok (snd kv) → obj_ok w → _canonical (snd kv) = Ok c → _canonical w = Ok c →
    same_value (snd kv) w) d →
  obj_ok (ODict d) → obj_ok (ODict e) →
  ∀ c, _canonical (ODict d) = Ok c → _canonical (ODict e) = Ok c → same_value (ODict d) (ODict e).
Proof.
  intros IH Hd He c (d' & items & -> & Hi & ->)%canonical_dict (e' & items' & -> & Hi' & [= <-])%canonical_dict.
  inversion Hd as [| | | | | | | | |? Hdk Hdv]; subst. inversion He as [| | | | | | | | |? Hek Hev]; subst.
  rewrite named_NoDup in Hdk, Hek.
  destruct (sorted_items_eq _ _ _ Hi Hi') as [Hperm Hall]. rewrite !canonical_pairs_keys in *.
  constructor.
  - intros [k|t]; [by rewrite !named_keys, Hperm |].
    split; intros H; by apply named_not_other in H.
  - apply Forall_forall. intros [key v] Hin. cbn [fst snd].
    destruct key as [k|t]; [| exfalso; by apply (named_not_other t d'), (list_elem_of_fmap_2 fst _ _ Hin)].
    pose proof (proj1 (Forall_forall _ _) IH _ Hin) as IHv. cbn [snd] in IHv.
    pose proof (proj1 (Forall_forall _ _) Hdv _ Hin) as Hvok. cbn [snd] in Hvok.
    apply named_elem in Hin. destruct (Hall k) as (c & Hkd & Hke).
    { apply list_elem_of_In, in_map_iff. exists (k, v). by rewrite <- list_elem_of_In. }
    rewrite canonical_pairs_lookup in Hkd, Hke. rewrite (dict_lookup_in k v d' Hdk Hin) in Hkd.
    destruct (dict_lookup k e') as [w|] eqn:Hw; [| done]. apply dict_lookup_Some_in in Hw.
    injection Hkd as Hkd. injection Hke as Hke. exists w. split; [by apply named_elem |].
    apply (IHv w c); try done. apply named_elem in Hw. by apply (proj1 (Forall_forall _ _) Hev _ Hw).
Qed.

Lemma canonical_tags v w c : _canonical v = Ok c → _canonical w = Ok c → type_tag v = type_tag w.
Proof. intros (l & ->)%canonical_tag (l' & H)%canonical_tag. by injection H. Qed.

Lemma canonical_same v : ∀ w c, obj_ok v → obj_ok w →
  _canonical v = Ok c → _canonical w = Ok c → same_value v w.
Proof.
  induction v as [|b|z|r|s|b|t|l IH|l IH|d IH] using pyobj_nested_ind; intros w c Hv Hw Hc Hc';
    pose proof (canonical_tags _ _ _ Hc Hc') as Htag;
    destruct w as [|b'|z'|r'|s'|b'|l'|l'|d'|t']; try discriminate Htag; try discriminate Hc; try (by constructor);
    try (cbn in Hc, Hc'; rewrite <- Hc in Hc'; injection Hc' as; subst; by constructor).
  all: try (inversion Hv; inversion Hw; subst; by eapply seq_same).
  by eapply dict_same.
Qed.

Lemma sorted_names_unique l l' : l ≡ₚ l' → sorted_names l = sorted_names l'.
Proof.
  intros H. apply (Sorted_unique String.le); [apply Sorted_merge_sort, _ | apply Sorted_merge_sort, _ |].
  by rewrite !sorted_names_perm.
Qed.

Lemma same_keys (d e : list (string * pyobj)) : NoDup (keys d) → NoDup (keys e) →
  (∀ k, k ∈ map fst (named d) ↔ k ∈ map fst (named e)) → keys d ≡ₚ keys e.
Proof. intros Hd He H. apply NoDup_Permutation; [done | done |]. intros k. by rewrite <- !named_keys, H. Qed.

Lemma same_elements v w : same_value v w → ∀ l, elements v = Some l →
  ∃ m, elements w = Some m ∧ Forall2 same_value l m.
Proof. intros H. inversion H; subst; try done. intros l' [= <-]%(eq_trans (eq_sym H0)). by exists m. Qed.

Definition same_canon (v : pyobj) : Prop := ∀ w c, obj_ok v → obj_ok w → same_value v w →
  _canonical v = Ok c → _canonical w = Ok c.

Lemma elements_ok w m : obj_ok w → elements w = Some m → Forall obj_ok m.
Proof. destruct w; try done; intros Hw [= ->]; by inversion Hw. Qed.

Lemma seq_canonical v w l m c : Forall same_canon l → Forall obj_ok l → Forall obj_ok m →
  elements v = Some l → elements w = Some m → Forall2 same_value l m →
  _canonical v = Ok c → _canonical w = Ok c.
Proof.
  intros IH Hl Hm Hv Hw Hs (items & Hi & ->)%(canonical_seq v l c Hv).
  apply (canonical_seq w m _ Hw). exists items. split; [| done].
  clear Hv Hw v w. revert items Hi. induction Hs as [|x y l m Hxy _ IHs]; intros items Hi.
  - apply Forall2_nil_inv_l in Hi as ->. constructor.
  - apply Forall2_cons_inv_l in Hi as (it & items' & Hx & Hi & ->).
    apply Forall_cons in IH as [IH IHl], Hl as [Hxok Hl], Hm as [Hyok Hm].
    constructor; [by apply IH | by apply IHs].
Qed.

Lemma same_dict_inv d e : same_value (ODict d) (ODict e) →
  (∀ k, k ∈ map fst d ↔ k ∈ map fst e)
  ∧ Forall (λ kv, ∃ w, (fst kv, w) ∈ e ∧ same_value (snd kv) w) d.
Proof. intros H. by inversion H; subst. Qed.

Lemma dict_canonical d e c : Forall (λ kv, same_canon (snd kv)) d → obj_ok (ODict d) → obj_ok (ODict e) →
  same_value (ODict d) (ODict e) → _canonical (ODict d) = Ok c → _canonical (ODict e) = Ok c.
Proof.
  intros IH Hd He Hs (d' & items & -> & Hi & ->)%canonical_dict.
  inversion Hd as [| | | | | | | | |? Hdk Hdv]; subst. inversion He as [| | | | | | | | |? Hek Hev]; subst.
  destruct (same_dict_inv _ _ Hs) as [Hkeys Hvals].
  assert (∃ e', e = named e') as [e' ->].
  { assert (Hall : ∀ k, k ∈ map fst e → ∃ s, k = KStr s).
    { intros [s|t] H; [by exists s |]. apply Hkeys, named_not_other in H as []. }
    clear -Hall. induction e as [|[k w] e IH]; [by exists [] |]. cbn in Hall.
    destruct (Hall k) as [s ->]; [by left |]. destruct IH as [e' ->]; [intros j Hj; apply Hall; by right |].
    by exists ((s, w) :: e'). }
  rewrite named_NoDup in Hdk, Hek. pose proof (same_keys d' e' Hdk Hek Hkeys) as Hperm.
  apply canonical_dict. exists e', items. split; [done |]. split; [| done].
  apply sorted_items_Ok. apply sorted_items_Ok in Hi. rewrite canonical_pairs_keys in *.
  rewrite <- (sorted_names_unique _ _ Hperm). eapply Forall2_impl; [exact Hi |].
  intros k it (c & Hk & ->). exists c. split; [| done]. rewrite canonical_pairs_lookup in *.
  destruct (dict_lookup k d') as [v|] eqn:Hv; [| done]. injection Hk as Hk. apply dict_lookup_Some_in in Hv.
  apply named_elem in Hv. rewrite !Forall_forall in *.
  destruct (Hvals _ Hv) as (w & Hw & Hvw). cbn [fst snd] in *.
  rewrite (dict_lookup_in k w e' Hek (proj1 (named_elem k w e') Hw)). cbn. f_equal.
  apply (IH _ Hv w c); [by apply (Hdv _ Hv) | by apply (Hev _ Hw) | done | done].
Qed.

Lemma same_canonical v : same_canon v.
Proof.
  induction v as [|b|z|r|s|b|t|l IH|l IH|d IH] using pyobj_nested_ind; intros w c Hv Hw Hs Hc;
    try (inversion Hs; subst; try done; fail).
  - inversion Hs; subst; try done. cbn in *. congruence.
  - destruct (same_elements _ _ Hs l eq_refl) as (m & Hm & Hlm). inversion Hv; subst.
    by eapply (seq_canonical (OList l) w l m c IH); eauto using elements_ok.
  - destruct (same_elements _ _ Hs l eq_refl) as (m & Hm & Hlm). inversion Hv; subst.
    by eapply (seq_canonical (OTuple l) w l m c IH); eauto using elements_ok.
  - inversion Hs; subst; [done |]. by eapply dict_canonical.
Qed.

(** Canonical forms without a dumping error have a JSON text that is read back. *)
Lemma dumps_error_list l : dumps_error (PList l) = None → Forall (λ x, dumps_error x = None) l.
Proof.
  cbn [dumps_error]. induction l as [|x l IH]; [constructor |]. cbn [omap list_omap].
  destruct (dumps_error x) eqn:E; [done |]. intros H. constructor; [done | by apply IH].
Qed.

Lemma dumps_error_int z : dumps_error (PInt z) = None → json_ok (PInt z).
Proof. cbn [dumps_error json_ok]. destruct (Z.ltb_spec 4300 (zlen (nat_text (Z.abs z)))) as [H|H]; [done | intros _; exact H]. Qed.

Lemma json_ok_list l : Forall json_ok l → json_ok (PList l).
Proof. intros H. cbn [json_ok]. induction H as [|x l Hx _ IH]; [constructor | constructor; [exact Hx | exact IH]]. Qed.

Lemma canonical_json_ok v : ∀ c, obj_ok v → _canonical v = Ok c → dumps_error c = None → json_ok c.
Proof.
  assert (Hseq : ∀ v l c, Forall (λ v, ∀ c, obj_ok v → _canonical v = Ok c → dumps_error c = None → json_ok c) l →
    Forall obj_ok l → elements v = Some l → _canonical v = Ok c → dumps_error c = None → json_ok c).
  { intros v' l c IH Hl Hv' (items & Hi & ->)%(canonical_seq v' l c Hv') He.
    apply dumps_error_list in He. apply Forall_cons in He as [_ He]. apply Forall_cons in He as [He _].
    apply dumps_error_list in He. cbn. constructor; [done |]. constructor; [| constructor]. cbn [id].
    clear Hv'. revert IH Hl He. induction Hi as [|x y l items Hx _ IHi]; intros IH Hl He; [constructor |].
    apply Forall_cons in IH as [IH IHl], Hl as [Hxok Hl], He as [Hy He].
    cbn [map]. constructor; [by apply IH | by apply IHi]. }
  induction v as [|b|z|r|s|b|t|l IH|l IH|d IH] using pyobj_nested_ind; intros c Hv Hc He;
    try (inversion Hv; subst; eapply Hseq; eauto; done); try discriminate Hc.
  - injection Hc as <-. apply json_ok_list. by repeat constructor.
  - injection Hc as <-. apply json_ok_list. by repeat constructor.
  - injection Hc as <-. apply dumps_error_list, Forall_cons in He as [_ He].
    apply Forall_cons in He as [He _]. apply dumps_error_int in He. apply json_ok_list.
    constructor; [done |]. constructor; [done | by repeat constructor].
  - injection Hc as <-. inversion Hv; subst. apply json_ok_list.
    constructor; [done |]. constructor; [done | constructor].
  - injection Hc as <-. apply json_ok_list. by repeat constructor.
  - injection Hc as <-. apply dumps_error_list, Forall_cons in He as [_ He].
    apply Forall_cons in He as [He _]. apply dumps_error_int in He. apply json_ok_list.
    constructor; [done |]. constructor; [done | by repeat constructor].
  - apply canonical_dict in Hc as (d' & items & -> & Hi & ->).
    apply dumps_error_list, Forall_cons in He as [_ He]. apply Forall_cons in He as [He _].
    apply dumps_error_list in He. inversion Hv as [| | | | | | | | |? _ Hvals]; subst.
    apply json_ok_list. constructor; [done |]. constructor; [| constructor]. apply json_ok_list.
    apply sorted_items_Ok in Hi. clear Hv. induction Hi as [|k it ks items (c & Hk & ->) _ IHi]; [constructor |].
    apply Forall_cons in He as [Hit He]. constructor; [| by apply IHi].
    apply dumps_error_list, Forall_cons in Hit as [_ Hit]. apply Forall_cons in Hit as [Hit _].
    rewrite canonical_pairs_lookup in Hk. destruct (dict_lookup k d') as [v|] eqn:Hv; [| done].
    injection Hk as Hk. apply dict_lookup_Some_in, named_elem in Hv. rewrite Forall_forall in IH, Hvals.
    apply json_ok_list. constructor; [done |]. constructor; [| constructor].
    by apply (IH _ Hv c (Hvals _ Hv)).
Qed.

(** The fingerprint's text identifies the request.  Two requests have the
    same canonical text exactly if they agree in device, actor, scopes, action
    and parameters: types included (a boolean is not a number), regardless of
    the order of dictionary keys; binary parameters count by length and
    SHA-256.  So unless SHA-256 collides, an operation id that was used is only
    accepted again for the same request. *)
Theorem canonical_text_identifies v w t t' : obj_ok v → obj_ok w →
  canonical_text v = Ok t → canonical_text w = Ok t' → t = t' ↔ same_value v w.
Proof.
  intros Hv Hw Ht Ht'. bind Ht as c Hc. bind Ht' as c' Hc'. unfold dumps_strict in *.
  destruct (dumps_error c) eqn:He; [done |]. destruct (dumps_error c') eqn:He'; [done |].
  injection Ht as <-. injection Ht' as <-. split.
  - intros Heq. pose proof (json_roundtrip c (canonical_json_ok v c Hv Hc He)) as R.
    pose proof (json_roundtrip c' (canonical_json_ok w c' Hw Hc' He')) as R'.
    rewrite Heq, R' in R. injection R as ->. by eapply canonical_same.
  - intros Hs. rewrite (same_canonical v w c Hv Hw Hs Hc) in Hc'. by injection Hc' as ->.
Qed.

Definition example_request (mode : string) (flip : bool) : pyobj :=
  let params := [(KStr "mode", OStr mode); (KStr "image", OBytes [1; 2; 3])] in
  identity [("device_id", OStr "d1"); ("action", OStr "firmware.ota");
            ("actor_scopes", OTuple [OStr "*"]); ("params", ODict (if flip then rev params else params))]%string.

Lemma example_request_ok mode flip : obj_ok (example_request mode flip).
Proof.
  assert (Hparams : ∀ params, params ≡ₚ [(KStr "mode", OStr mode); (KStr "image", OBytes [1; 2; 3])] →
    obj_ok (ODict params)).
  { intros params Hp. constructor; [| rewrite Hp; by repeat constructor].
    rewrite Hp. cbn. by_decide. }
  constructor; [by_decide |]. cbn. repeat (apply Forall_cons_2; cbn [snd]); try (by repeat constructor).
  apply Hparams. destruct flip; [apply perm_swap | done].
Qed.

Abbreviation example_text := (canonical_text (example_request "recovery" false)).
Abbreviation example_text' := (canonical_text (example_request "recovery" true)).
Lemma example_texts : is_ok example_text = true ∧ example_text = example_text'.
Proof. split; vm_compute; reflexivity. Qed.

Example reordered_request : ∃ t, example_text = Ok t ∧ example_text' = Ok t
  ∧ same_value (example_request "recovery" false) (example_request "recovery" true).
Proof.
  destruct example_texts as [Hok Heq]. rewrite <- Heq.
  destruct example_text as [t|e] eqn:Ht; [| discriminate Hok].
  exists t. split; [reflexivity |]. split; [reflexivity |].
  refine (proj1 (canonical_text_identifies _ _ t t (example_request_ok _ _) (example_request_ok _ _) Ht _) eq_refl).
  symmetry. exact Heq.
Qed.
