(* ===== verification/Firmware.v ===== *)
(** * Application images ([firmware.py])

    The identity of an ESP application image: its chip, project and version
    from the application descriptor, and its digests. *)
From S2P Require Import Prelude Text Sha256.

Definition ESP_IMAGE_MAGIC : Z := 0xE9.
Definition ESP_APP_DESC_MAGIC : Z := 0xABCD5432.
Definition ESP32S31_CHIP_ID : Z := 0x0020.

Record FirmwareImage := {
  fw_sha256 : string;
  fw_size : Z;
  fw_chip_id : Z;
  fw_project_name : string;
  fw_version : string;
  fw_elf_sha256 : string;
}.

(** [data.split(b"\0", 1)[0]] *)
Fixpoint until_nul (data : bytes) : bytes :=
  match data with
  | [] => []
  | b :: t => if b =? 0 then [] else b :: until_nul t
  end.
Definition _cstring (data : bytes) : string := utf8_decode_replace (until_nul data).

Definition inspect_firmware_image (image : bytes) : res FirmwareImage :=
  if (zlen image <? 112) || negb (byte_at image 0 =? ESP_IMAGE_MAGIC)
  then raise ValueError "not an ESP application image"
  else
    let chip_id := u16_at image 12 in
    if negb (chip_id =? ESP32S31_CHIP_ID)
    then raise ValueError "firmware chip id is not ESP32-S31"
    else
      let app_desc_offset := 24 + 8 in
      let magic := u32_at image app_desc_offset in
      if negb (magic =? ESP_APP_DESC_MAGIC)
      then raise ValueError "ESP application descriptor is missing from first segment"
      else
        let version := _cstring (slice (app_desc_offset + 16) (app_desc_offset + 48) image) in
        let project_name := _cstring (slice (app_desc_offset + 48) (app_desc_offset + 80) image) in
        if (project_name =? "")%string || (version =? "")%string
        then raise ValueError "firmware project name and version must be present"
        else
          let elf_sha_offset := app_desc_offset + 144 in
          let elf_sha256 :=
            if elf_sha_offset + 32 <=? zlen image
            then hex (slice elf_sha_offset (elf_sha_offset + 32) image) else ""%string in
          Ok {| fw_sha256 := sha256_hex image; fw_size := zlen image; fw_chip_id := chip_id;
                fw_project_name := project_name; fw_version := version;
                fw_elf_sha256 := elf_sha256 |}.

(** An accepted image names its chip, project and version, and its digest is
    the digest of the bytes inspected. *)
Lemma inspect_firmware_image_Ok image fw :
  inspect_firmware_image image = Ok fw →
  112 ≤ zlen image ∧ fw_chip_id fw = ESP32S31_CHIP_ID
  ∧ u16_at image 12 = ESP32S31_CHIP_ID ∧ fw_size fw = zlen image
  ∧ fw_sha256 fw = sha256_hex image ∧ fw_project_name fw ≠ ""%string
  ∧ fw_version fw ≠ ""%string
  ∧ (String.length (fw_elf_sha256 fw) = 64%nat ↔ 208 ≤ zlen image).
Proof.
  intros H. unfold inspect_firmware_image in H. res_inv.
  apply orb_false_iff in G as [Hlen _].
  apply negb_false_iff, Z.eqb_eq in G0. apply orb_false_iff in G2 as [Hp Hv].
  injection H as <-. simpl. split_and!; try done; try lia.
  - by apply String.eqb_neq.
  - by apply String.eqb_neq.
  - case_match eqn:E; [apply Z.leb_le in E | apply Z.leb_gt in E].
    + rewrite hex_length.
      pose proof (zlen_slice (24 + 8 + 144) (24 + 8 + 144 + 32) image ltac:(lia) E) as Hs.
      unfold zlen in *. lia.
    + simpl. lia.
Qed.
