(* ===== verification/Compatibility.v ===== *)
(** * Update compatibility ([compatibility.py])

    What must match between an update and a device before anything on the
    device changes, and how a contract observed in normal mode is carried into
    the Recovery session. *)
From S2P Require Import Prelude Text Value Json Firmware.

Definition TEXT_FIELDS : list string :=
  ["chip_target"; "product_contract"; "board_id"; "layout_id"]%string.
Definition CONTRACT_FIELDS : list string := TEXT_FIELDS ++ ["recovery_abi"%string].

(** The check of one declared field. *)
Definition check_contract_field (key : string) (item : pyval) : res () :=
  if (key =? "recovery_abi")%string then
    match item with
    | PInt z => raise_if (negb ((1 <=? z) && (z <=? 65535))) ValueError
                  "compatibility recovery_abi must be 1..65535"
    | _ => raise ValueError "compatibility recovery_abi must be 1..65535"
    end
  else
    match item with
    | PStr s =>
      if (s =? "")%string then raise ValueError "compatibility field must contain 1..64 UTF-8 bytes"
      else
        data ← encode_utf8 s;
        raise_if (64 <? zlen data) ValueError "compatibility field must contain 1..64 UTF-8 bytes"
    | _ => raise ValueError "compatibility field must contain 1..64 UTF-8 bytes"
    end.

(** [for key in CONTRACT_FIELDS] *)
Fixpoint expectation_loop (fields : list string) (value result : list (string * pyval))
    : res (list (string * pyval)) :=
  match fields with
  | [] => Ok result
  | key :: fields =>
    match dict_lookup key value with
    | None => expectation_loop fields value result
    | Some item =>
      _ ← check_contract_field key item;
      expectation_loop fields value (dict_set key item result)
    end
  end.

Definition compatibility_expectation (value : pyval) : res (list (string * pyval)) :=
  match value with
  | PNone => Ok []
  | PDict value =>
    if negb (forallb (λ k, bool_decide (k ∈ CONTRACT_FIELDS)) (keys value))
    then raise ValueError "unknown compatibility fields"
    else expectation_loop CONTRACT_FIELDS value []
  | _ => raise TypeError "compatibility must be a JSON object"
  end.

(** [a == b and type(a) is type(b)] for an expected value [a], which is a
    string or an integer. *)
Definition same_value (a b : pyval) : bool :=
  match a, b with
  | PInt x, PInt y => x =? y
  | PStr x, PStr y => (x =? y)%string
  | _, _ => false
  end.

(** The text of a float denoting zero: no non-zero digit before the
    exponent. *)
Definition zero_float (repr : string) : bool :=
  let fix go s := match s with
    | EmptyString => true
    | String a t => if Ascii.eqb a "e" || Ascii.eqb a "E" then true
                    else (Ascii.eqb a "0" || Ascii.eqb a "." || Ascii.eqb a "-") && go t
    end in go repr.

(** [actual not in (None, "", 0)] *)
Definition declared (actual : pyval) : bool :=
  match actual with
  | PNone => false
  | PStr s => negb (s =? "")%string
  | PInt z => negb (z =? 0)
  | PBool b => b
  | PFloat r => negb (zero_float r)
  | PList _ | PDict _ => true
  end.

Definition setdefault (key : string) (v : pyval) (d : list (string * pyval))
    : list (string * pyval) :=
  if has_key key d then d else dict_set key v d.

(** [for key in CONTRACT_FIELDS: ... required.setdefault(key, actual)] *)
Definition carry_declarations (status required : list (string * pyval))
    : list (string * pyval) :=
  fold_left (λ required key,
    let actual := dict_get key status in
    if declared actual then setdefault key actual required else required)
    CONTRACT_FIELDS required.

Definition validate_update_compatibility (status : list (string * pyval)) (chip_id : pyval)
    (expectation : pyval) (recovery : bool) : res (list (string * pyval)) :=
  let role := dict_get "firmware_mode" status in
  if negb (is_str role "normal" || is_str role "recovery")
     || (recovery && negb (is_str role "recovery"))
  then raise ValueError "update requires an explicit compatible firmware role"
  else if negb (same_value chip_id (PInt ESP32S31_CHIP_ID))
  then raise ValueError "update artifact has an unsupported or missing chip ID"
  else
    required ← compatibility_expectation expectation;
    if negb (is_str (default (PStr "esp32s31") (dict_lookup "chip_target" required)) "esp32s31")
    then raise ValueError "compatibility chip_target does not match the artifact"
    else
      let required := dict_set "chip_target" (PStr "esp32s31") required in
      if negb (forallb (λ kv, same_value (snd kv) (dict_get (fst kv) status)) required)
      then raise ValueError "device compatibility field is missing or mismatched"
      else compatibility_expectation (PDict (carry_declarations status required)).

(** ** What a validated contract says *)

Lemma expectation_loop_Ok fields d : ∀ acc r,
  expectation_loop fields d acc = Ok r →
  ∀ key, dict_lookup key r =
    if bool_decide (key ∈ fields)
    then match dict_lookup key d with Some v => Some v | None => dict_lookup key acc end
    else dict_lookup key acc.
Proof.
  induction fields as [|f fields IH]; simpl; intros acc r H key.
  - injection H as <-. done.
  - destruct (dict_lookup f d) as [item|] eqn:Ef.
    + res_inv. rewrite (IH _ _ H key), dict_lookup_set.
      destruct (String.eqb_spec f key) as [-> | Hne].
      * rewrite Ef. rewrite (bool_decide_eq_true_2 (key ∈ key :: fields)) by left.
        by case_bool_decide.
      * assert (Heq : bool_decide (key ∈ f :: fields) = bool_decide (key ∈ fields))
          by (apply bool_decide_ext; set_solver).
        by rewrite Heq.
    + rewrite (IH _ _ H key). destruct (String.eqb_spec f key) as [-> | Hne].
      * rewrite Ef. by do 2 case_bool_decide.
      * assert (Heq : bool_decide (key ∈ f :: fields) = bool_decide (key ∈ fields))
          by (apply bool_decide_ext; set_solver).
        by rewrite Heq.
Qed.

(** The result has the fields of the given dictionary and no others. *)
Lemma compatibility_expectation_Ok d r :
  compatibility_expectation (PDict d) = Ok r →
  (∀ key, dict_lookup key r = dict_lookup key d)
  ∧ ∀ key v, dict_lookup key d = Some v → key ∈ CONTRACT_FIELDS.
Proof.
  unfold compatibility_expectation. intros H. res_inv. apply negb_false_iff in G.
  assert (Hk : ∀ key v, dict_lookup key d = Some v → key ∈ CONTRACT_FIELDS).
  { intros key v Hl.
    assert (Hin : key ∈ keys d).
    { apply has_key_spec. by rewrite dict_lookup_has_key, Hl. }
    rewrite forallb_forall in G. apply list_elem_of_In, G in Hin.
    by apply bool_decide_eq_true in Hin. }
  split; [| done]. intros key.
  rewrite (expectation_loop_Ok _ _ _ _ H key). case_bool_decide as Hin.
  - by destruct (dict_lookup key d).
  - destruct (dict_lookup key d) eqn:E; [| done]. by apply Hk in E.
Qed.

Lemma same_value_eq a b : same_value a b = true → a = b.
Proof.
  destruct a, b; simpl; try done; intros H.
  - by apply Z.eqb_eq in H as ->.
  - by apply String.eqb_eq in H as ->.
Qed.

Lemma carry_lookup status fields : ∀ required key,
  (∀ k v, dict_lookup k required = Some v → dict_get k status = v) →
  let r := fold_left (λ required key,
    let actual := dict_get key status in
    if declared actual then setdefault key actual required else required) fields required in
  (∀ k v, dict_lookup k r = Some v → dict_get k status = v)
  ∧ (key ∈ fields ∧ declared (dict_get key status) = true ∨ is_Some (dict_lookup key required) →
     dict_lookup key r = Some (dict_get key status)).
Proof.
  induction fields as [|f fields IH]; intros required key Hreq; simpl.
  { split; [done |]. intros [[Hin _] | [v Hv]]; [set_solver |]. by rewrite (Hreq _ _ Hv). }
  set (required' := if declared (dict_get f status)
    then setdefault f (dict_get f status) required else required).
  assert (Hreq' : ∀ k v, dict_lookup k required' = Some v → dict_get k status = v).
  { intros k v. unfold required', setdefault. repeat case_match; auto.
    rewrite dict_lookup_set. destruct (String.eqb_spec f k); [| auto]. by intros [= <-]; subst. }
  destruct (IH required' key Hreq') as [IH1 IH2]. split; [done |].
  intros Hk. apply IH2. destruct Hk as [[Hin Hd] | Hs].
  - apply elem_of_cons in Hin as [-> | Hin]; [right | by left].
    unfold required', setdefault. rewrite Hd, dict_lookup_has_key.
    destruct (dict_lookup f required) eqn:E; [by rewrite E |].
    by rewrite dict_lookup_set, String.eqb_refl.
  - right. unfold required', setdefault. repeat case_match; try done.
    rewrite dict_lookup_set. by case_match.
Qed.

Record validated (status : list (string * pyval)) (chip_id : pyval)
    (expectation : pyval) (recovery : bool) (r : list (string * pyval)) : Prop := {
  validated_chip : chip_id = PInt ESP32S31_CHIP_ID;
  validated_role : dict_get "firmware_mode" status = PStr "recovery"
    ∨ recovery = false ∧ dict_get "firmware_mode" status = PStr "normal";
  validated_target : dict_get "chip_target" status = PStr "esp32s31";
  (** every required field is what the device reports *)
  validated_required : ∀ key v, dict_lookup key r = Some v → dict_get key status = v;
  validated_expected : ∀ d key v, expectation = PDict d → dict_lookup key d = Some v →
    dict_get key status = v ∧ dict_lookup key r = Some v;
  (** every field the device declares is required again *)
  validated_declared : ∀ key, key ∈ CONTRACT_FIELDS →
    declared (dict_get key status) = true → dict_lookup key r = Some (dict_get key status);
}.

Lemma is_str_eq v s : is_str v s = true → v = PStr s.
Proof. destruct v; simpl; try done. by intros ->%String.eqb_eq. Qed.

Lemma compatibility_expectation_dict v r0 :
  compatibility_expectation v = Ok r0 →
  ∀ d, v = PDict d → ∀ key, dict_lookup key r0 = dict_lookup key d.
Proof. intros H d ->. by apply compatibility_expectation_Ok in H as [H _]. Qed.

Lemma validate_Ok status chip_id expectation recovery r :
  validate_update_compatibility status chip_id expectation recovery = Ok r →
  validated status chip_id expectation recovery r.
Proof.
  unfold validate_update_compatibility. intros H. res_inv.
  apply orb_false_iff in G as [Grole Grec]. apply negb_false_iff in Grole, G0, G1, G2.
  apply same_value_eq in G0 as ->. apply is_str_eq in G1.
  assert (Hreq : ∀ k v, dict_lookup k (dict_set "chip_target" (PStr "esp32s31") r0) = Some v →
    dict_get k status = v).
  { intros k v Hl.
    pose proof (dict_lookup_forallb (λ k v, same_value v (dict_get k status)) _ k v G2 Hl) as Hs.
    by apply same_value_eq in Hs. }
  pose proof (compatibility_expectation_Ok _ _ H) as [Hr _].
  pose proof (λ key, carry_lookup status CONTRACT_FIELDS _ key Hreq) as Hc.
  fold (carry_declarations status (dict_set "chip_target" (PStr "esp32s31") r0)) in Hc.
  split.
  - done.
  - apply orb_true_iff in Grole as [Hn%is_str_eq | Hn%is_str_eq]; rewrite Hn in *; [right | by left].
    destruct recovery; [discriminate | done].
  - apply Hreq. rewrite dict_lookup_set. done.
  - intros key v. rewrite Hr. apply (Hc key).
  - intros d key v -> Hl.
    pose proof (compatibility_expectation_dict _ _ E _ eq_refl key) as Hd. rewrite Hl in Hd.
    assert (Hs : dict_get key status = v).
    { apply Hreq. rewrite dict_lookup_set. destruct (String.eqb_spec "chip_target" key); [| done].
      subst key. by rewrite Hd in G1; simpl in G1; subst. }
    split; [done |]. rewrite Hr, <- Hs. apply Hc. right.
    rewrite dict_lookup_set. case_match; by eexists.
  - intros key Hin Hdecl. rewrite Hr. apply Hc. by left.
Qed.

(** ** Properties *)

(** An update is accepted only for the expected chip and a device whose
    role and every expected contract field match exactly, and when the contract
    it returns is required again of a later session (the reconnect into
    Recovery), that session can be accepted only if it reports the same value
    for every contract field the first session declared, and is in Recovery
    mode when Recovery is required. *)
Theorem compatibility_carried st1 st2 chip1 chip2 expectation recovery r1 r2 :
  validate_update_compatibility st1 chip1 expectation false = Ok r1 →
  validate_update_compatibility st2 chip2 (PDict r1) recovery = Ok r2 →
  validated st1 chip1 expectation false r1 ∧ chip2 = chip1
  ∧ (recovery = true → dict_get "firmware_mode" st2 = PStr "recovery")
  ∧ ∀ key, key ∈ CONTRACT_FIELDS → declared (dict_get key st1) = true →
      dict_get key st2 = dict_get key st1.
Proof.
  intros H1%validate_Ok H2%validate_Ok. split_and!; [done | | |].
  - by rewrite (validated_chip _ _ _ _ _ H1), (validated_chip _ _ _ _ _ H2).
  - intros ->. by destruct (validated_role _ _ _ _ _ H2) as [? | [? _]].
  - intros key Hin Hd.
    pose proof (validated_declared _ _ _ _ _ H1 _ Hin Hd) as Hl.
    by apply (validated_expected _ _ _ _ _ H2 r1 key _ eq_refl) in Hl as [? _].
Qed.

Definition example_status (mode : string) : list (string * pyval) :=
  [("firmware_mode", PStr mode); ("chip_target", PStr "esp32s31");
   ("board_id", PStr "b1"); ("recovery_abi", PInt 2)]%string.

Lemma compatibility_carried_witness :
  ∃ r1 r2,
    validate_update_compatibility (example_status "normal") (PInt 32) PNone false = Ok r1
    ∧ validate_update_compatibility (example_status "recovery") (PInt 32) (PDict r1) true = Ok r2
    ∧ declared (dict_get "board_id" (example_status "normal")) = true
    ∧ dict_get "board_id" (example_status "recovery") = dict_get "board_id" (example_status "normal").
Proof.
  eexists _, _. split; [vm_compute; reflexivity |].
  split; [vm_compute; reflexivity |]. split; [reflexivity |].
  eapply (compatibility_carried _ _ (PInt 32) (PInt 32) PNone true);
    [vm_compute; reflexivity | vm_compute; reflexivity | by_decide | reflexivity].
Defined.
