(* ===== verification/SystemUpdate.v ===== *)
(** * System-update bundles ([system_update.py])

    The loader of [.irisfw] archives: every archive member, manifest field and
    component is untrusted until checked.  The ZIP container, the PEM parser
    and ECDSA are parameters; the manifest's JSON text, the digests and the
    firmware descriptors are computed. *)
From stdpp Require Import sorting.
From S2P Require Import Prelude Text Value Json Sha256 Firmware.

(** ** Data *)

Definition SYSTEM_UPDATE_SCHEMA : string := "esp-iris-system-update/v1".
Definition MAX_BUNDLE_BYTES : Z := 32 * 1024 * 1024.
Definition MAX_ARCHIVE_MEMBERS : Z := 16.
Definition MAX_MANIFEST_BYTES : Z := 2048.
Definition MAX_SIGNATURE_BYTES : Z := 256.
Definition MAX_COMPONENTS : Z := 8.
Definition MAX_COMPONENT_BYTES : Z := 16 * 1024 * 1024.
Definition PARTITION_TABLE_REGION_BYTES : Z := 0x1000.
Definition MANIFEST_NAME : string := "manifest.json".
Definition SIGNATURE_NAME : string := "manifest.sig".

Inductive SystemUpdateComponentKind :=
| BOOTLOADER | PARTITION_TABLE | APPLICATION | RECOVERY | DATA.

Definition kind_value (k : SystemUpdateComponentKind) : Z :=
  match k with
  | BOOTLOADER => 1 | PARTITION_TABLE => 2 | APPLICATION => 3 | RECOVERY => 4 | DATA => 5
  end.

#[export] Instance kind_eq_dec : EqDecision SystemUpdateComponentKind.
Proof. solve_decision. Defined.

Definition _KIND_NAMES : list (string * SystemUpdateComponentKind) :=
  [("bootloader", BOOTLOADER); ("partition_table", PARTITION_TABLE);
   ("application", APPLICATION); ("recovery", RECOVERY); ("data", DATA)]%string.

(** [kind.name.lower()] *)
Definition kind_name (k : SystemUpdateComponentKind) : string :=
  match k with
  | BOOTLOADER => "bootloader" | PARTITION_TABLE => "partition_table"
  | APPLICATION => "application" | RECOVERY => "recovery" | DATA => "data"
  end.

Record SystemUpdateComponent := {
  cp_id : Z;
  cp_kind : SystemUpdateComponentKind;
  cp_flags : Z;
  cp_target_offset : Z;
  cp_size : Z;
  cp_sha256 : bytes;
  cp_filename : string;
  cp_data : bytes;
}.

Definition component_as_dict (c : SystemUpdateComponent) : list (string * pyval) :=
  [("id", PInt (cp_id c)); ("kind", PStr (kind_name (cp_kind c)));
   ("flags", PInt (cp_flags c)); ("target_offset", PInt (cp_target_offset c));
   ("size", PInt (cp_size c)); ("sha256", PStr (hex (cp_sha256 c)));
   ("file", PStr (cp_filename c))]%string.

Record SystemUpdateBundle := {
  bd_manifest : list (string * pyval);
  bd_manifest_bytes : bytes;
  bd_signature : bytes;
  bd_manifest_sha256 : bytes;
  bd_key_id : option string;
  bd_signature_verified : bool;
  bd_chip_id : Z;
  bd_flash_size : Z;
  bd_target_layout_sha256 : string;
  bd_components : list SystemUpdateComponent;
}.

Definition bundle_as_dict (b : SystemUpdateBundle) : list (string * pyval) :=
  [("schema", PStr SYSTEM_UPDATE_SCHEMA);
   ("manifest_sha256", PStr (hex (bd_manifest_sha256 b)));
   ("key_id", match bd_key_id b with Some k => PStr k | None => PNone end);
   ("chip_id", PInt (bd_chip_id b)); ("flash_size", PInt (bd_flash_size b));
   ("target_layout_sha256", PStr (bd_target_layout_sha256 b));
   ("components", PList (map (λ c, PDict (component_as_dict c)) (bd_components b)));
   ("signature_verified", PBool (bd_signature_verified b))]%string.

(** ** Field checks *)

Fixpoint strict_object_loop (pairs result : list (string * pyval))
    : res (list (string * pyval)) :=
  match pairs with
  | [] => Ok result
  | (key, value) :: pairs =>
    if has_key key result then raise ValueError "duplicate manifest field"
    else strict_object_loop pairs (result ++ [(key, value)])
  end.
Definition _strict_object (pairs : list (string * pyval)) : res pyval :=
  d ← strict_object_loop pairs []; Ok (PDict d).

Definition _mapping (value : pyval) (name : string) : res (list (string * pyval)) :=
  match value with
  | PDict d => Ok d
  | _ => raise TypeError (name ++ " must be an object")
  end.

Definition _require_fields (value : list (string * pyval)) (name : string)
    (required optional : list string) : res () :=
  if negb (forallb (λ k, has_key k value) required)
  then raise ValueError (name ++ " is missing fields")
  else raise_if (negb (forallb (λ k, bool_decide (k ∈ required ++ optional)) (keys value)))
    ValueError (name ++ " has unknown fields").

Definition _bounded_uint (value : pyval) (name : string) (maximum : Z) : res Z :=
  match value with
  | PInt z => if negb ((0 <=? z) && (z <=? maximum))
              then raise ValueError (name ++ " is outside the range") else Ok z
  | _ => raise TypeError (name ++ " must be an integer")
  end.

Definition _sha256_hex (value : pyval) (name : string) : res string :=
  match value with
  | PStr s =>
    if negb (str_len s =? 64)
    then raise ValueError (name ++ " must contain 64 lowercase hex characters")
    else
      raw ← reraise (unhex s) [ValueError] ValueError (name ++ " is not hexadecimal");
      if negb (s =? ascii_lower s)%string || negb (zlen raw =? 32)
      then raise ValueError (name ++ " must contain canonical lowercase SHA-256")
      else Ok s
  | _ => raise ValueError (name ++ " must contain 64 lowercase hex characters")
  end.

(** [pathlib.PurePosixPath(s).parts], the root of an absolute path apart. *)
Definition path_parts (s : string) : list string :=
  filter (λ p, p ≠ "" ∧ p ≠ ".")%string (split_on "/" s).

Definition _safe_member_name (value : pyval) (name : string) : res string :=
  match value with
  | PStr s =>
    if (s =? "")%string || (128 <? str_len s)
    then raise ValueError (name ++ " must be a non-empty archive member name")
    else if starts_with "/" s || bool_decide (".."%string ∈ path_parts s)
            || negb (zlen (path_parts s) =? 1)
    then raise ValueError (name ++ " must be a root-level archive filename")
    else Ok s
  | _ => raise ValueError (name ++ " must be a non-empty archive member name")
  end.

(** ** The archive *)

Record ZipInfo := {
  zi_filename : string;
  zi_flag_bits : Z;
  zi_compress_type : Z;
  zi_file_size : Z;
}.

(** An open [zipfile.ZipFile]: its directory, and reading one member, which
    may raise. *)
Record ZipFile := {
  infolist : list ZipInfo;
  archive_read : ZipInfo → res bytes;
}.

Definition ZIP_STORED : Z := 0.
Definition ZIP_DEFLATED : Z := 8.

Fixpoint archive_members_loop (infos : list ZipInfo) (result : list (string * ZipInfo))
    (total : Z) : res (list (string * ZipInfo)) :=
  match infos with
  | [] => Ok result
  | info :: infos =>
    name ← _safe_member_name (PStr (zi_filename info)) "archive member";
    _ ← raise_if (has_key name result) ValueError "duplicate archive member";
    _ ← raise_if (ends_with "/" (zi_filename info) || negb (Z.land (zi_flag_bits info) 1 =? 0))
      ValueError "directories and encrypted archive members are not allowed";
    _ ← raise_if (negb ((zi_compress_type info =? ZIP_STORED)
                        || (zi_compress_type info =? ZIP_DEFLATED)))
      ValueError "unsupported system-update archive compression";
    _ ← raise_if (MAX_COMPONENT_BYTES <? zi_file_size info)
      ValueError "archive member is too large";
    let total := total + zi_file_size info in
    _ ← raise_if (MAX_BUNDLE_BYTES <? total)
      ValueError "system-update archive expands beyond the size limit";
    archive_members_loop infos (result ++ [(name, info)]) total
  end.

Definition _archive_members (archive : ZipFile) : res (list (string * ZipInfo)) :=
  let infos := infolist archive in
  if negb ((1 <=? zlen infos) && (zlen infos <=? MAX_ARCHIVE_MEMBERS))
  then raise ValueError "system-update archive has an invalid member count"
  else archive_members_loop infos [] 0.

(** ** Components *)

(** The variables of the component loop. *)
Record load_state := LoadState {
  ls_components : list SystemUpdateComponent;
  ls_identifiers : list Z;
  ls_singleton_kinds : list SystemUpdateComponentKind;
  ls_filenames : list string;
}.

(** [kind_name not in _KIND_NAMES]; an unhashable value is a [TypeError]. *)
Definition lookup_kind (v : pyval) : res SystemUpdateComponentKind :=
  if negb (hashable v) then raise TypeError "unhashable type"
  else
    match v with
    | PStr s => match dict_lookup s _KIND_NAMES with
                | Some k => Ok k
                | None => raise ValueError "unsupported component kind"
                end
    | _ => raise ValueError "unsupported component kind"
    end.

Definition component_alignment (k : SystemUpdateComponentKind) : Z :=
  if bool_decide (k = APPLICATION) then 0x10000 else 0x1000.

(** One iteration of [for index, value in enumerate(component_values)]. *)
Definition load_component (archive : ZipFile) (members : list (string * ZipInfo))
    (chip_id flash_size : Z) (st : load_state) (value : pyval) : res load_state :=
  item ← _mapping value "components[]";
  _ ← _require_fields item "components[]"
    ["id"; "kind"; "target_offset"; "size"; "sha256"; "file"]%string ["flags"%string];
  identifier ← _bounded_uint (dict_get "id" item) "component id" 0xFF;
  _ ← raise_if ((identifier =? 0) || bool_decide (identifier ∈ ls_identifiers st))
    ValueError "component IDs must be unique and non-zero";
  kind ← lookup_kind (dict_get "kind" item);
  _ ← raise_if (negb (bool_decide (kind = DATA)) && bool_decide (kind ∈ ls_singleton_kinds st))
    ValueError "component kind is duplicated";
  let singleton_kinds :=
    if bool_decide (kind = DATA) then ls_singleton_kinds st else kind :: ls_singleton_kinds st in
  flags ← _bounded_uint (default (PInt 0) (dict_lookup "flags" item)) "component flags" 0xFFFF;
  offset ← _bounded_uint (dict_get "target_offset" item) "component target_offset" 0xFFFFFFFF;
  size ← _bounded_uint (dict_get "size" item) "component size" 0xFFFFFFFF;
  _ ← raise_if ((size =? 0) || (MAX_COMPONENT_BYTES <? size) || (flash_size <? offset + size))
    ValueError "component is empty, too large or outside target Flash";
  _ ← raise_if (negb (offset mod component_alignment kind =? 0))
    ValueError "component target offset is not aligned";
  sha_hex ← _sha256_hex (dict_get "sha256" item) "component sha256";
  filename ← _safe_member_name (dict_get "file" item) "component file";
  match dict_lookup filename members with
  | None => raise ValueError "component archive member is invalid"
  | Some info =>
    _ ← raise_if (bool_decide (filename ∈ ls_filenames st))
      ValueError "component archive member is invalid";
    data ← archive_read archive info;
    _ ← raise_if (negb (zlen data =? size)) ValueError "component size does not match manifest";
    let digest := sha256 data in
    _ ← raise_if (negb (hex digest =? sha_hex)%string)
      ValueError "component SHA-256 does not match manifest";
    let component := {| cp_id := identifier; cp_kind := kind; cp_flags := flags;
      cp_target_offset := offset; cp_size := size; cp_sha256 := digest;
      cp_filename := filename; cp_data := data |} in
    let st := LoadState (ls_components st ++ [component]) (identifier :: ls_identifiers st)
      singleton_kinds (filename :: ls_filenames st) in
    if bool_decide (kind ∈ [APPLICATION; RECOVERY]) then
      firmware ← inspect_firmware_image data;
      _ ← raise_if (negb (fw_chip_id firmware =? chip_id))
        ValueError "component chip ID does not match target";
      Ok st
    else Ok st
  end.

Fixpoint load_components (archive : ZipFile) (members : list (string * ZipInfo))
    (chip_id flash_size : Z) (st : load_state) (values : list pyval) : res load_state :=
  match values with
  | [] => Ok st
  | value :: values =>
    st ← load_component archive members chip_id flash_size st value;
    load_components archive members chip_id flash_size st values
  end.

(** ** Flash geometry *)

Definition region : Type := Z * Z * Z.
Definition component_region (c : SystemUpdateComponent) : region :=
  (cp_target_offset c, cp_target_offset c + cp_size c, cp_id c).

(** The order [sorted] uses on the triples. *)
Definition region_le (a b : region) : Prop :=
  let '(a1, a2, a3) := a in let '(b1, b2, b3) := b in
  a1 < b1 ∨ a1 = b1 ∧ (a2 < b2 ∨ a2 = b2 ∧ a3 ≤ b3).
#[export] Instance region_le_dec : RelDecision region_le.
Proof. intros [[? ?] ?] [[? ?] ?]. unfold region_le. apply _. Defined.

(** [for previous, current in zip(regions, regions[1:])] *)
Fixpoint check_overlap (regions : list region) : res () :=
  match regions with
  | previous :: (current :: _) as rest =>
    if fst (fst current) <? snd (fst previous)
    then raise ValueError "components overlap in target Flash"
    else check_overlap rest
  | _ => Ok ()
  end.

Definition of_kind (k : SystemUpdateComponentKind) (cs : list SystemUpdateComponent)
    : list SystemUpdateComponent := filter (λ c, cp_kind c = k) cs.

(** The checks between the component loop and the returned bundle. *)
Definition check_layout (components : list SystemUpdateComponent) (target_layout : string)
    : res () :=
  _ ← check_overlap (merge_sort region_le (map component_region components));
  let partition_tables := of_kind PARTITION_TABLE components in
  _ ← match partition_tables with
      | pt :: _ => raise_if (negb (cp_size pt =? PARTITION_TABLE_REGION_BYTES))
          ValueError "partition-table component must cover one 4 KiB sector"
      | [] => Ok ()
      end;
  let recoveries := of_kind RECOVERY components in
  _ ← raise_if (negb (is_nil recoveries) && negb (zlen components =? 1))
    ValueError "recovery must be the bundle's only component";
  _ ← raise_if (negb (is_nil recoveries) && (target_layout =? bytes_str (repeat 48 64))%string)
    ValueError "recovery bundle requires an explicit target layout SHA-256";
  _ ← match of_kind BOOTLOADER components with
      | bl :: _ =>
        match partition_tables with
        | [] => raise ValueError "bootloader component requires a partition-table component"
        | pt :: _ =>
          raise_if (negb (cp_target_offset bl + cp_size bl =? cp_target_offset pt))
            ValueError "bootloader component must cover the full range before the partition table"
        end
      | [] => Ok ()
      end;
  match partition_tables with
  | pt :: _ => raise_if (negb (hex (cp_sha256 pt) =? target_layout)%string)
      ValueError "target layout SHA-256 does not match partition table"
  | [] => Ok ()
  end.

(** ** The loader *)

(** [source]: archive bytes, or a path and what it names, when it is a file. *)
Inductive bundle_source :=
| SourceBytes (data : bytes)
| SourcePath (file : option bytes).

Inductive pem_key (key : Type) :=
| P256Key (k : key)
| OtherKey.
Arguments P256Key {_} _.
Arguments OtherKey {_}.

Section loader.
(** [zipfile.ZipFile(stream)], [load_pem_public_key] and [key.verify]. *)
Context (open_zip : bytes → res ZipFile).
Context {public_key : Type} (load_pem_public_key : bytes → res (pem_key public_key))
  (verify : public_key → bytes → bytes → res ()).

Definition _load_public_key (data : bytes) : res public_key :=
  key ← reraise (load_pem_public_key data) [TypeError; ValueError]
    ValueError "system-update trust key is not valid PEM";
  match key with
  | P256Key k => Ok k
  | OtherKey => raise TypeError "system-update trust key must be ECDSA P-256"
  end.

Definition read_source (source : bundle_source) : res bytes :=
  match source with
  | SourceBytes data =>
    if MAX_BUNDLE_BYTES <? zlen data
    then raise ValueError "system-update archive exceeds the size limit" else Ok data
  | SourcePath None => raise ValueError "system-update archive is missing or too large"
  | SourcePath (Some data) =>
    if MAX_BUNDLE_BYTES <? zlen data
    then raise ValueError "system-update archive is missing or too large" else Ok data
  end.

(** The signature policy and the signature, lines 257-274. *)
Definition check_signature (key : option public_key) (manifest_bytes signature : bytes) : res () :=
  _ ← raise_if (negb ((1 <=? zlen manifest_bytes) && (zlen manifest_bytes <=? MAX_MANIFEST_BYTES)))
    ValueError "system-update manifest exceeds the device bound";
  _ ← raise_if (MAX_SIGNATURE_BYTES <? zlen signature)
    ValueError "system-update signature has an invalid size";
  match key, is_nil signature with
  | None, false => raise ValueError "signed system-update bundle requires a trust key"
  | Some _, true => raise ValueError "unsigned system-update bundle rejected by trust policy"
  | None, true => Ok ()
  | Some key, false =>
    reraise (verify key signature manifest_bytes) [InvalidSignature]
      ValueError "system-update manifest signature is invalid"
  end.

(** [for optional_text in ("release", "minimum_recovery_version")] *)
Definition check_optional_text (manifest : list (string * pyval)) (field : string) : res () :=
  match dict_get field manifest with
  | PNone => Ok ()
  | PStr s => raise_if (negb ((1 <=? str_len s) && (str_len s <=? 64)))
                TypeError (field ++ " must be a bounded string")
  | _ => raise TypeError (field ++ " must be a bounded string")
  end.

(** The manifest's signature metadata, lines 302-319. *)
Definition manifest_key_id (manifest : list (string * pyval)) (signature : bytes)
    : res (option string) :=
  let signature_value := dict_get "signature" manifest in
  if negb (is_nil signature) then
    info ← _mapping signature_value "signature";
    _ ← _require_fields info "signature" ["algorithm"; "key_id"]%string [];
    _ ← raise_if (negb (is_str (dict_get "algorithm" info) "ecdsa-p256-sha256"))
      ValueError "unsupported system-update signature algorithm";
    match dict_get "key_id" info with
    | PStr k => if negb ((1 <=? str_len k) && (str_len k <=? 64))
                then raise ValueError "system-update signature key_id is invalid"
                else Ok (Some k)
    | _ => raise ValueError "system-update signature key_id is invalid"
    end
  else
    if negb (is_none signature_value)
    then raise ValueError "unsigned system-update manifest must omit signature"
    else Ok None.

(** [manifest["target"]], lines 320-329. *)
Definition manifest_target (manifest : list (string * pyval)) : res (Z * Z) :=
  target ← _mapping (dict_get "target" manifest) "target";
  _ ← _require_fields target "target" ["chip_id"; "flash_size"]%string [];
  chip_id ← _bounded_uint (dict_get "chip_id" target) "target.chip_id" 0xFFFF;
  flash_size ← _bounded_uint (dict_get "flash_size" target) "target.flash_size" 0xFFFFFFFF;
  if (flash_size =? 0) || negb (flash_size mod 4096 =? 0)
  then raise ValueError "target.flash_size must be a non-zero 4 KiB multiple"
  else Ok (chip_id, flash_size).

Definition component_values (manifest : list (string * pyval)) : res (list pyval) :=
  match dict_get "components" manifest with
  | PList l => if negb ((1 <=? zlen l) && (zlen l <=? MAX_COMPONENTS))
               then raise ValueError "components must contain 1..8 entries" else Ok l
  | _ => raise ValueError "components must contain 1..8 entries"
  end.

(** [json.loads(manifest_bytes.decode("utf-8"), object_pairs_hook=_strict_object)] *)
Definition parse_manifest (manifest_bytes : bytes) : res pyval :=
  reraise (text ← utf8_decode manifest_bytes; json_loads _strict_object text)
    [UnicodeDecodeError; JSONDecodeError]
    ValueError "system-update manifest is not valid UTF-8 JSON".

Definition load_archive (archive : ZipFile) (key : option public_key)
    : res SystemUpdateBundle :=
  members ← _archive_members archive;
  match dict_lookup MANIFEST_NAME members with
  | None => raise ValueError "system-update bundle requires manifest.json"
  | Some manifest_info =>
    manifest_bytes ← archive_read archive manifest_info;
    signature ← match dict_lookup SIGNATURE_NAME members with
                | Some info => archive_read archive info
                | None => Ok []
                end;
    _ ← check_signature key manifest_bytes signature;
    document ← parse_manifest manifest_bytes;
    manifest ← _mapping document "manifest";
    _ ← raise_if (negb (is_str (dict_get "schema" manifest) SYSTEM_UPDATE_SCHEMA))
      ValueError "unsupported system-update manifest schema";
    _ ← _require_fields manifest "manifest"
      ["schema"; "target"; "target_layout_sha256"; "components"]%string
      ["release"; "minimum_recovery_version"; "signature"]%string;
    _ ← check_optional_text manifest "release";
    _ ← check_optional_text manifest "minimum_recovery_version";
    key_id ← manifest_key_id manifest signature;
    '(chip_id, flash_size) ← manifest_target manifest;
    target_layout ← _sha256_hex (dict_get "target_layout_sha256" manifest) "target_layout_sha256";
    values ← component_values manifest;
    let filenames := if is_nil signature then [MANIFEST_NAME]
                     else [SIGNATURE_NAME; MANIFEST_NAME] in
    st ← load_components archive members chip_id flash_size (LoadState [] [] [] filenames) values;
    _ ← raise_if (negb (forallb (λ n, bool_decide (n ∈ ls_filenames st)) (keys members)))
      ValueError "system-update bundle contains undeclared members";
    _ ← check_layout (ls_components st) target_layout;
    Ok {| bd_manifest := manifest; bd_manifest_bytes := manifest_bytes;
          bd_signature := signature; bd_manifest_sha256 := sha256 manifest_bytes;
          bd_key_id := key_id; bd_signature_verified := negb (is_nil signature);
          bd_chip_id := chip_id; bd_flash_size := flash_size;
          bd_target_layout_sha256 := target_layout; bd_components := ls_components st |}
  end.

Definition load_system_update_bundle (source : bundle_source)
    (trusted_public_key : option bytes) : res SystemUpdateBundle :=
  data ← read_source source;
  key ← match trusted_public_key with
        | Some pem => k ← _load_public_key pem; Ok (Some k)
        | None => Ok None
        end;
  archive ← reraise (open_zip data) [OSError; BadZipFile]
    ValueError "system-update bundle is not a valid ZIP archive";
  load_archive archive key.
End loader.

(** ** Field checks: what an accepted value is *)

Lemma _bounded_uint_Ok v name m z : _bounded_uint v name m = Ok z → v = PInt z ∧ 0 ≤ z ≤ m.
Proof.
  destruct v; simpl; try discriminate. intros H. res_inv. injection H as ->.
  apply negb_false_iff, andb_true_iff in G as [??]. split; [done | lia].
Qed.

(** A canonical SHA-256 text is the hexadecimal form of 32 bytes. *)
Lemma hex_value_canonical a x :
  hex_value a = Some x → lower_char a = a → 0 ≤ x < 16 ∧ a = hex_digit x.
Proof.
  unfold hex_value, lower_char, hex_digit. intros Hx Hl.
  pose proof (Z_of_ascii_bound a) as Hb. unfold byte_ok in Hb.
  pose proof (ascii_of_Z_of_ascii a) as Ha.
  destruct (Z.leb_spec 48 (Z_of_ascii a)), (Z.leb_spec (Z_of_ascii a) 57),
    (Z.leb_spec 97 (Z_of_ascii a)), (Z.leb_spec (Z_of_ascii a) 102),
    (Z.leb_spec 65 (Z_of_ascii a)), (Z.leb_spec (Z_of_ascii a) 70),
    (Z.leb_spec (Z_of_ascii a) 90); simpl in *; try lia; try discriminate;
    injection Hx as <-;
    try (apply (f_equal Z_of_ascii) in Hl; rewrite Z_of_ascii_of_Z in Hl by (unfold byte_ok; lia));
    try lia; (split; [lia |]); case_match; rewrite <- Ha at 1; f_equal; lia.
Qed.

Lemma hex_value_ascii a x : hex_value a = Some x → is_continuation (Z_of_ascii a) = false.
Proof. destruct a as [[] [] [] [] [] [] [] []]; vm_compute; done. Qed.

Lemma is_space_ascii a : is_space a = true → is_continuation (Z_of_ascii a) = false.
Proof. destruct a as [[] [] [] [] [] [] [] []]; vm_compute; done. Qed.

Lemma str_len_cons a s :
  str_len (String a s) = (if is_continuation (Z_of_ascii a) then 0 else 1) + str_len s.
Proof.
  unfold str_len. cbn [str_encode]. rewrite filter_cons.
  destruct (is_continuation (Z_of_ascii a)); case_decide; try done. by rewrite zlen_cons.
Qed.

Lemma unhex_canonical n s raw :
  (String.length s < n)%nat → unhex s = Ok raw →
  2 * zlen raw ≤ str_len s
  ∧ (str_len s = 2 * zlen raw → ascii_lower s = s → s = hex raw ∧ is_bytes raw).
Proof.
  revert s raw. induction n as [|n IH]; intros s raw Hn H; [lia |].
  destruct s as [|a s]; simpl in H, Hn.
  { injection H as <-. split; [done |]. split; [done | apply is_bytes_nil]. }
  rewrite str_len_cons. destruct (is_space a) eqn:Ea.
  { rewrite (is_space_ascii _ Ea). destruct (IH s raw) as [IH1 IH2]; [lia | done |].
    split; [lia |]. lia. }
  destruct s as [|b s]; [discriminate |]. rewrite str_len_cons.
  destruct (hex_value a) as [x|] eqn:Hx; [| discriminate].
  destruct (hex_value b) as [y|] eqn:Hy; [| discriminate].
  rewrite (hex_value_ascii _ _ Hx), (hex_value_ascii _ _ Hy).
  apply res_bind_Ok in H as (rest & H & E). injection E as <-.
  simpl in Hn. destruct (IH s rest) as [IH1 IH2]; [lia | done |].
  rewrite zlen_cons. split; [lia |]. intros Hlen Hlow. cbn [ascii_lower] in Hlow.
  injection Hlow as Ha Hb Hs. destruct IH2 as [-> Hr]; [lia | done |].
  apply hex_value_canonical in Hx as [Hx ->]; [| done].
  apply hex_value_canonical in Hy as [Hy ->]; [| done].
  split; [| apply is_bytes_cons; unfold byte_ok; split; [lia | done]].
  simpl. rewrite (Z.mul_comm 16 x), Z.div_add_l, Z.div_small, Z.add_0_r by lia.
  by rewrite (Z.add_comm (x * 16) y), Z.mod_add, Z.mod_small by lia.
Qed.

Lemma _sha256_hex_Ok v name s :
  _sha256_hex v name = Ok s → v = PStr s ∧ ∃ raw, s = hex raw ∧ is_bytes raw ∧ zlen raw = 32.
Proof.
  destruct v as [| | | |t| |]; simpl; try discriminate. intros H. res_inv.
  injection H as ->. apply reraise_Ok in E. split; [done |]. exists r.
  apply negb_false_iff, Z.eqb_eq in G.
  apply orb_false_iff in G0 as [G0 G1]. apply negb_false_iff in G0, G1.
  apply String.eqb_eq in G0. apply Z.eqb_eq in G1.
  destruct (unhex_canonical (S (String.length s)) s r ltac:(lia) E) as [_ Hc].
  destruct Hc; [lia | done | done].
Qed.

(** A safe member name has one path component, which is not [..]. *)
Definition safe_name (s : string) : Prop :=
  starts_with "/" s = false ∧ ∃ p, path_parts s = [p] ∧ p ≠ ".."%string.

Lemma _safe_member_name_Ok v name s :
  _safe_member_name v name = Ok s → v = PStr s ∧ safe_name s.
Proof.
  destruct v as [| | | |t| |]; simpl; try discriminate. intros H. res_inv.
  injection H as ->. split; [done |]. apply orb_false_iff in G0 as [G0 G2].
  apply orb_false_iff in G0 as [G0 G1]. apply bool_decide_eq_false in G1.
  apply negb_false_iff, Z.eqb_eq in G2.
  split; [done |]. destruct (path_parts s) as [|p [|q l]]; try discriminate.
  2: { rewrite !zlen_cons in G2. pose proof (zlen_nonneg l). lia. }
  exists p. split; [done |]. intros ->. apply G1. by left.
Qed.

(** ** Flash geometry: the sorted sweep decides disjointness *)

Definition before (a b : region) : Prop :=
  fst (fst a) < snd (fst a) ∧ fst (fst b) < snd (fst b) ∧ snd (fst a) ≤ fst (fst b).
#[export] Instance before_trans : Transitive before.
Proof. intros a b c. unfold before. lia. Qed.

Definition disjoint (a b : region) : Prop :=
  snd (fst a) ≤ fst (fst b) ∨ snd (fst b) ≤ fst (fst a).
Definition non_empty (a : region) : Prop := fst (fst a) < snd (fst a).

#[export] Instance region_le_total : Total region_le.
Proof. intros [[? ?] ?] [[? ?] ?]. unfold region_le. lia. Qed.
#[export] Instance region_le_trans : Transitive region_le.
Proof. intros [[? ?] ?] [[? ?] ?] [[? ?] ?]. unfold region_le. lia. Qed.

Lemma check_overlap_sorted rs :
  Forall non_empty rs → (check_overlap rs = Ok () ↔ Sorted before rs).
Proof.
  induction 1 as [|a rs Ha Hrs IH]; [split; [constructor | done] |].
  destruct Hrs as [|b rs Hb Hrs]; [split; [repeat constructor | done] |].
  cbn [check_overlap]. unfold non_empty in *.
  destruct (Z.ltb_spec (fst (fst b)) (snd (fst a))).
  - split; [discriminate |]. intros Hs. apply Sorted_inv in Hs as [_ Hs].
    apply HdRel_inv in Hs. unfold before in Hs. lia.
  - rewrite IH. split.
    + intros Hs. constructor; [done |]. constructor. unfold before. lia.
    + by intros [? _]%Sorted_inv.
Qed.

Lemma StronglySorted_related (R : region → region → Prop) rs a b :
  StronglySorted R rs → a ∈ rs → b ∈ rs → a ≠ b → R a b ∨ R b a.
Proof.
  intros Hs. induction Hs as [|c rs Hs IH Hc]; intros Ha Hb Hab; [set_solver |].
  rewrite Forall_forall in Hc. apply elem_of_cons in Ha as [-> | Ha], Hb as [-> | Hb].
  - done.
  - left. auto.
  - right. auto.
  - auto.
Qed.

Lemma Sorted_adjacent (R S : region → region → Prop) rs :
  Sorted R rs → NoDup rs →
  (∀ a b, a ∈ rs → b ∈ rs → a ≠ b → R a b → S a b) → Sorted S rs.
Proof.
  intros Hs. induction Hs as [|a rs Hs IH Ha]; intros Hnd HS; [constructor |].
  apply NoDup_cons in Hnd as [Hna Hnd]. constructor.
  - apply IH; [done |]. intros. apply HS; set_solver.
  - destruct Ha as [|b rs Hab]; constructor. apply HS; set_solver.
Qed.

(** Distinct non-empty regions pass the sweep exactly when no two overlap. *)
Lemma check_overlap_iff rs :
  Forall non_empty rs → NoDup rs →
  (check_overlap (merge_sort region_le rs) = Ok ()
   ↔ ∀ a b, a ∈ rs → b ∈ rs → a ≠ b → disjoint a b).
Proof.
  intros Hne Hnd. pose proof (merge_sort_Permutation region_le rs) as Hp.
  rewrite check_overlap_sorted by (by rewrite Hp). split.
  - intros Hs%Sorted_StronglySorted a b; [| apply _]. rewrite <- Hp. intros Ha Hb Hab.
    destruct (StronglySorted_related _ _ a b Hs Ha Hb Hab) as [H | H]; unfold before in H;
      [left | right]; lia.
  - intros Hd. apply (Sorted_adjacent region_le before).
    + apply Sorted_merge_sort. apply _.
    + by rewrite Hp.
    + intros a b. rewrite Hp. intros Ha Hb Hab Hle.
      pose proof (Hd a b Ha Hb Hab) as Hd'.
      rewrite Forall_forall in Hne. pose proof (Hne a Ha) as Hna. pose proof (Hne b Hb) as Hnb.
      destruct a as [[] ], b as [[] ]. unfold before, disjoint, non_empty, region_le in *.
      simpl in *. lia.
Qed.

(** ** The component loop *)

Record component_ok (chip_id flash_size : Z) (c : SystemUpdateComponent) : Prop := {
  ok_id : 1 ≤ cp_id c ≤ 0xFF;
  ok_flags : 0 ≤ cp_flags c ≤ 0xFFFF;
  ok_size : 0 < cp_size c ≤ MAX_COMPONENT_BYTES;
  ok_region : 0 ≤ cp_target_offset c ∧ cp_target_offset c + cp_size c ≤ flash_size;
  ok_aligned : cp_target_offset c mod component_alignment (cp_kind c) = 0;
  ok_data : zlen (cp_data c) = cp_size c;
  ok_digest : cp_sha256 c = sha256 (cp_data c);
  ok_name : safe_name (cp_filename c);
  ok_image : cp_kind c = APPLICATION ∨ cp_kind c = RECOVERY →
    ∃ fw, inspect_firmware_image (cp_data c) = Ok fw ∧ fw_chip_id fw = chip_id;
}.

Definition singletons (cs : list SystemUpdateComponent) : list SystemUpdateComponentKind :=
  filter (λ k, k ≠ DATA) (map cp_kind cs).

(** What the loop's sets record, and that nothing in them repeats. *)
Record load_inv (members : list (string * ZipInfo)) (initial : list string)
    (chip_id flash_size : Z) (st : load_state) : Prop := {
  inv_components : Forall (component_ok chip_id flash_size) (ls_components st);
  inv_members : Forall (λ c, cp_filename c ∈ keys members) (ls_components st);
  inv_ids : ls_identifiers st = rev (map cp_id (ls_components st));
  inv_ids_nodup : NoDup (ls_identifiers st);
  inv_kinds : ls_singleton_kinds st = rev (singletons (ls_components st));
  inv_kinds_nodup : NoDup (ls_singleton_kinds st);
  inv_names : ls_filenames st = rev (map cp_filename (ls_components st)) ++ initial;
  inv_names_nodup : NoDup (ls_filenames st);
}.

Lemma load_component_Ok archive members chip flash st v st' :
  load_component archive members chip flash st v = Ok st' →
  ∃ c, ls_components st' = ls_components st ++ [c]
    ∧ component_ok chip flash c ∧ cp_filename c ∈ keys members
    ∧ ls_identifiers st' = cp_id c :: ls_identifiers st
    ∧ (cp_id c ∉ ls_identifiers st)
    ∧ ls_singleton_kinds st' =
        (if bool_decide (cp_kind c = DATA) then ls_singleton_kinds st
         else cp_kind c :: ls_singleton_kinds st)
    ∧ (cp_kind c = DATA ∨ cp_kind c ∉ ls_singleton_kinds st)
    ∧ ls_filenames st' = cp_filename c :: ls_filenames st
    ∧ (cp_filename c ∉ ls_filenames st).
Proof.
  unfold load_component. intros H.
  bind H as item Hitem. bind H as u Hfields. bind H as id Hid. guard H as Gid.
  bind H as kind Hkind. guard H as Gkind. bind H as flags Hflags.
  bind H as offset Hoffset. bind H as size Hsize. guard H as Gsize. guard H as Galign.
  bind H as sha_hex Hsha. bind H as name Hname.
  destruct (dict_lookup name members) as [info|] eqn:Hm; [| discriminate].
  guard H as Gname. bind H as data Hdata. guard H as Glen. guard H as Gsha.
  apply orb_false_iff in Gid as [Gid0 Gid]. apply bool_decide_eq_false in Gid, Gname.
  apply _bounded_uint_Ok in Hid as [_ Hid], Hflags as [_ Hflags], Hoffset as [_ Hoffset],
    Hsize as [_ Hsize].
  apply orb_false_iff in Gsize as [Gsize Gfit]. apply orb_false_iff in Gsize as [Gs0 Gsmax].
  apply negb_false_iff, Z.eqb_eq in Galign, Glen.
  apply _safe_member_name_Ok in Hname as [_ Hname].
  set (c := {| cp_id := id; cp_kind := kind; cp_flags := flags;
      cp_target_offset := offset; cp_size := size; cp_sha256 := sha256 data;
      cp_filename := name; cp_data := data |}) in H.
  set (st1 := LoadState (ls_components st ++ [c]) _ _ _) in H.
  assert (Hst : st' = st1 ∧ (kind = APPLICATION ∨ kind = RECOVERY →
    ∃ fw, inspect_firmware_image data = Ok fw ∧ fw_chip_id fw = chip)).
  { case_bool_decide as Hk.
    - bind H as fw Hfw. guard H as Gfw. apply negb_false_iff, Z.eqb_eq in Gfw.
      injection H as <-. split; [done |]. intros _. by exists fw.
    - injection H as <-. split; [done |]. intros Hk'. destruct Hk.
      rewrite elem_of_cons, list_elem_of_singleton. done. }
  clear H. destruct Hst as [-> Hfw]. exists c. split_and!; try done.
  - split; simpl; try done; lia.
  - apply has_key_spec. rewrite dict_lookup_has_key. simpl. by rewrite Hm.
  - apply andb_false_iff in Gkind as [Gk | Gk].
    + left. by apply negb_false_iff, bool_decide_eq_true in Gk.
    + right. by apply bool_decide_eq_false in Gk.
Qed.

Lemma load_component_inv archive members initial chip flash st v st' :
  load_inv members initial chip flash st →
  load_component archive members chip flash st v = Ok st' →
  load_inv members initial chip flash st'.
Proof.
  intros [] (c & Hc & Hok & Hm & Hi & Hi' & Hk & Hk' & Hf & Hf')%load_component_Ok.
  split; rewrite ?Hc, ?Hi, ?Hk, ?Hf.
  - apply Forall_app. split; [done | by apply Forall_singleton].
  - apply Forall_app. split; [done | by apply Forall_singleton].
  - by rewrite map_app, rev_app_distr, inv_ids0.
  - by constructor.
  - unfold singletons. rewrite map_app, filter_app, rev_app_distr. cbn [map].
    rewrite filter_cons, filter_nil.
    case_bool_decide; case_decide; try done; simpl; by rewrite inv_kinds0.
  - case_bool_decide; [done |]. constructor; [| done]. by destruct Hk'.
  - by rewrite map_app, rev_app_distr, inv_names0.
  - by constructor.
Qed.

Lemma load_components_inv archive members initial chip flash values : ∀ st st',
  load_inv members initial chip flash st →
  load_components archive members chip flash st values = Ok st' →
  load_inv members initial chip flash st'
  ∧ zlen (ls_components st') = zlen (ls_components st) + zlen values.
Proof.
  induction values as [|v values IH]; cbn [load_components]; intros st st' Hinv H.
  - injection H as <-. split; [done |]. unfold zlen. simpl. lia.
  - bind H as st1 H1. destruct (IH st1 st') as [Hi Hl];
      [by eapply load_component_inv | done |].
    split; [done |]. apply load_component_Ok in H1 as (c & Hc & _).
    rewrite Hl, Hc, zlen_snoc, zlen_cons. lia.
Qed.

(** ** Accepted layouts *)

Definition components_disjoint (cs : list SystemUpdateComponent) : Prop :=
  ∀ i j c d, cs !! i = Some c → cs !! j = Some d → i ≠ j →
    disjoint (component_region c) (component_region d).

(** What the layout checks promise, for components with distinct ids. *)
Record layout_ok (cs : list SystemUpdateComponent) (target_layout : string) : Prop := {
  lay_disjoint : components_disjoint cs;
  lay_partition : ∀ pt, pt ∈ cs → cp_kind pt = PARTITION_TABLE →
    cp_size pt = PARTITION_TABLE_REGION_BYTES ∧ hex (cp_sha256 pt) = target_layout;
  lay_bootloader : ∀ bl, bl ∈ cs → cp_kind bl = BOOTLOADER →
    ∃ pt, pt ∈ cs ∧ cp_kind pt = PARTITION_TABLE
      ∧ cp_target_offset bl + cp_size bl = cp_target_offset pt;
  lay_recovery : ∀ rc, rc ∈ cs → cp_kind rc = RECOVERY →
    cs = [rc] ∧ target_layout ≠ bytes_str (repeat 48 64);
}.

(** A kind other than [DATA] has at most one component. *)
Lemma of_kind_unique k cs c :
  NoDup (singletons cs) → k ≠ DATA → c ∈ cs → cp_kind c = k → of_kind k cs = [c].
Proof.
  intros Hnd Hk Hc Hck. unfold of_kind, singletons in *.
  induction cs as [|d cs IH]; [set_solver |]. cbn [map] in Hnd.
  rewrite filter_cons in Hnd. rewrite filter_cons.
  assert (Hnone : ∀ cs, k ∉ filter (λ k, k ≠ DATA) (map cp_kind cs) →
    filter (λ c, cp_kind c = k) cs = []).
  { intros l Hl. apply elem_of_nil_inv. intros x [Hxk Hx]%list_elem_of_filter. apply Hl.
    apply list_elem_of_filter. split; [done |]. apply list_elem_of_fmap. by exists x. }
  apply elem_of_cons in Hc as [-> | Hc].
  - rewrite !decide_True in * by congruence. rewrite Hnone; [done |].
    apply NoDup_cons in Hnd as [Hnd _]. by rewrite <- Hck.
  - destruct (decide (cp_kind d = k)) as [Hd | Hd].
    + rewrite decide_True in Hnd by congruence. apply NoDup_cons in Hnd as [Hnd _].
      destruct Hnd. apply list_elem_of_filter. split; [congruence |].
      apply list_elem_of_fmap. exists c. split; [congruence | done].
    + apply IH; [| done]. case_decide; [| done]. by apply NoDup_cons in Hnd as [_ ?].
Qed.

Lemma check_overlap_components cs :
  Forall (λ c, 0 < cp_size c) cs → NoDup (map cp_id cs) →
  (check_overlap (merge_sort region_le (map component_region cs)) = Ok ()
   ↔ components_disjoint cs).
Proof.
  intros Hsz Hnd.
  assert (Hids : map snd (map component_region cs) = map cp_id cs)
    by by rewrite map_map.
  assert (Hndr : NoDup (map component_region cs)).
  { apply NoDup_fmap_1 with snd. change (snd <$> map component_region cs)
      with (map snd (map component_region cs)). by rewrite Hids. }
  rewrite check_overlap_iff; [| | done].
  2: { apply Forall_forall. intros x Hx. apply list_elem_of_fmap in Hx as (c & -> & Hc).
       rewrite Forall_forall in Hsz. specialize (Hsz c Hc).
       unfold non_empty, component_region. simpl. lia. }
  split.
  - intros H i j c d Hi Hj Hij. apply H.
    + apply list_elem_of_fmap. exists c. split; [done |]. by eapply list_elem_of_lookup_2.
    + apply list_elem_of_fmap. exists d. split; [done |]. by eapply list_elem_of_lookup_2.
    + intros Heq. apply Hij. apply (NoDup_lookup _ i j (component_region c) Hndr).
      * rewrite list_lookup_fmap. by rewrite Hi.
      * rewrite list_lookup_fmap, Hj. by rewrite Heq.
  - intros H a b Ha Hb Hab.
    apply list_elem_of_fmap in Ha as (c & -> & Hc), Hb as (d & -> & Hd).
    apply list_elem_of_lookup in Hc as [i Hi], Hd as [j Hj].
    apply (H i j c d Hi Hj). intros ->. by simplify_eq.
Qed.

Lemma of_kind_head k cs c l : of_kind k cs = c :: l → c ∈ cs ∧ cp_kind c = k.
Proof.
  intros H. assert (Hc : c ∈ of_kind k cs) by (rewrite H; left).
  by apply list_elem_of_filter in Hc as [? ?].
Qed.

Lemma zlen_1 {A} (l : list A) x : zlen l = 1 → x ∈ l → l = [x].
Proof.
  destruct l as [|y [|z l]]; intros Hl Hx; [done | set_solver |].
  rewrite !zlen_cons in Hl. pose proof (zlen_nonneg l). lia.
Qed.

Lemma check_layout_Ok cs target_layout :
  Forall (λ c, 0 < cp_size c) cs → NoDup (map cp_id cs) → NoDup (singletons cs) →
  check_layout cs target_layout = Ok () → layout_ok cs target_layout.
Proof.
  intros Hsz Hnd Hk H. unfold check_layout in H.
  bind H as u Hov. bind H as u1 Hpt. guard H as Hrec. guard H as Hrec0. bind H as u2 Hbl.
  destruct u. split.
  - by apply check_overlap_components.
  - intros pt Hin Hkind. rewrite (of_kind_unique _ cs pt Hk) in Hpt, H by done.
    apply raise_if_false, negb_false_iff in Hpt, H.
    split; [by apply Z.eqb_eq | by apply String.eqb_eq].
  - intros bl Hin Hkind. rewrite (of_kind_unique BOOTLOADER cs bl Hk) in Hbl by done.
    destruct (of_kind PARTITION_TABLE cs) as [|pt l] eqn:E; [discriminate |].
    apply of_kind_head in E as [Hpt1 Hpt2]. exists pt. split; [done |]. split; [done |].
    by apply raise_if_false, negb_false_iff, Z.eqb_eq in Hbl.
  - intros rc Hin Hkind. rewrite (of_kind_unique RECOVERY cs rc Hk) in Hrec, Hrec0 by done.
    simpl in Hrec. apply negb_false_iff, Z.eqb_eq in Hrec.
    split; [by apply zlen_1 |]. cbn [is_nil negb andb] in Hrec0. by apply String.eqb_neq.
Qed.

(** The checks reject nothing that satisfies the layout rules. *)
Lemma check_layout_complete cs target_layout :
  Forall (λ c, 0 < cp_size c) cs → NoDup (map cp_id cs) → NoDup (singletons cs) →
  layout_ok cs target_layout → check_layout cs target_layout = Ok ().
Proof.
  intros Hsz Hnd Hk [Hdis Hpt Hbl Hrec]. unfold check_layout.
  rewrite (proj2 (check_overlap_components cs Hsz Hnd) Hdis). cbn [mbind res_bind].
  destruct (of_kind RECOVERY cs) as [|rc lrc] eqn:Erc; cbn [is_nil negb andb].
  - destruct (of_kind PARTITION_TABLE cs) as [|pt lpt] eqn:Ept;
      destruct (of_kind BOOTLOADER cs) as [|bl lbl] eqn:Ebl; try done.
    + apply of_kind_head in Ebl as [Hin Hkind].
      destruct (Hbl bl Hin Hkind) as (pt & Hpin & Hpk & _).
      by rewrite (of_kind_unique _ cs pt Hk) in Ept.
    + apply of_kind_head in Ept as [Hin Hkind]. destruct (Hpt pt Hin Hkind) as [H1 H2].
      rewrite H1, H2. cbn. by rewrite String.eqb_refl.
    + apply of_kind_head in Ebl as [Hin Hkind].
      destruct (Hbl bl Hin Hkind) as (pt' & Hpin & Hpk & Hadj).
      rewrite (of_kind_unique _ cs pt' Hk) in Ept by done. injection Ept as <- _.
      destruct (Hpt pt' Hpin Hpk) as [H1 H2].
      rewrite H1, H2, Hadj, Z.eqb_refl. cbn. by rewrite String.eqb_refl.
  - apply of_kind_head in Erc as [Hin Hkind].
    destruct (Hrec rc Hin Hkind) as [-> Hl].
    unfold of_kind. cbn [filter list_filter]. rewrite !decide_False by congruence.
    cbn [is_nil negb andb zlen length]. apply String.eqb_neq in Hl. rewrite Hl. done.
Qed.

(** ** Accepted archives *)

Definition total_size (infos : list ZipInfo) : Z := foldr (λ i n, zi_file_size i + n) 0 infos.

Record member_ok (info : ZipInfo) : Prop := {
  mem_name : safe_name (zi_filename info);
  mem_not_dir : ends_with "/" (zi_filename info) = false;
  mem_plain : Z.land (zi_flag_bits info) 1 = 0;
  mem_compression : zi_compress_type info = ZIP_STORED ∨ zi_compress_type info = ZIP_DEFLATED;
  mem_size : zi_file_size info ≤ MAX_COMPONENT_BYTES;
}.

Lemma archive_members_loop_Ok infos : ∀ acc total members,
  archive_members_loop infos acc total = Ok members →
  NoDup (keys acc) → total ≤ MAX_BUNDLE_BYTES →
  members = acc ++ map (λ i, (zi_filename i, i)) infos
  ∧ NoDup (keys members) ∧ Forall member_ok infos
  ∧ total + total_size infos ≤ MAX_BUNDLE_BYTES.
Proof.
  induction infos as [|info infos IH]; cbn [archive_members_loop]; intros acc total members H Hnd Ht.
  - injection H as <-. simpl. rewrite app_nil_r. split_and!; [done | done | constructor | lia].
  - bind H as name Hname. guard H as Gdup. guard H as Gdir. guard H as Gcomp.
    guard H as Gsize. guard H as Gtotal.
    apply _safe_member_name_Ok in Hname as [[= <-] Hsafe].
    apply orb_false_iff in Gdir as [Gdir Genc]. apply negb_false_iff, Z.eqb_eq in Genc.
    apply negb_false_iff, orb_true_iff in Gcomp.
    assert (Hnd' : NoDup (keys (acc ++ [(zi_filename info, info)]))).
    { unfold keys. rewrite map_app. apply NoDup_app. split_and!; [done | | apply NoDup_singleton].
      intros x Hx. simpl. rewrite list_elem_of_singleton. intros ->.
      apply has_key_spec in Hx. congruence. }
    destruct (IH _ _ _ H Hnd') as (-> & IH2 & IH3 & IH4); [lia |].
    split_and!.
    + by rewrite <- app_assoc.
    + done.
    + constructor; [| done]. split; [done | done | done | | lia].
      destruct Gcomp as [?%Z.eqb_eq | ?%Z.eqb_eq]; [by left | by right].
    + simpl. lia.
Qed.

Lemma _archive_members_Ok archive members :
  _archive_members archive = Ok members →
  members = map (λ i, (zi_filename i, i)) (infolist archive)
  ∧ NoDup (keys members) ∧ Forall member_ok (infolist archive)
  ∧ total_size (infolist archive) ≤ MAX_BUNDLE_BYTES
  ∧ 1 ≤ zlen (infolist archive) ≤ MAX_ARCHIVE_MEMBERS.
Proof.
  unfold _archive_members. intros H. res_inv. apply negb_false_iff in G.
  apply archive_members_loop_Ok in H as (-> & ? & ? & ?); [| constructor | done].
  split_and!; [done | done | done | lia | lia | lia].
Qed.

(** ** Accepted bundles *)

Definition metadata_names (b : SystemUpdateBundle) : list string :=
  if is_nil (bd_signature b) then [MANIFEST_NAME] else [SIGNATURE_NAME; MANIFEST_NAME].

Record bundle_ok (archive : ZipFile) (b : SystemUpdateBundle) : Prop := {
  bok_manifest : parse_manifest (bd_manifest_bytes b) = Ok (PDict (bd_manifest b));
  bok_bounds : 1 ≤ zlen (bd_manifest_bytes b) ≤ MAX_MANIFEST_BYTES
    ∧ zlen (bd_signature b) ≤ MAX_SIGNATURE_BYTES;
  bok_digest : bd_manifest_sha256 b = sha256 (bd_manifest_bytes b);
  bok_target : 0 ≤ bd_chip_id b ≤ 0xFFFF ∧ 0 < bd_flash_size b
    ∧ bd_flash_size b mod 4096 = 0;
  bok_target_layout : ∃ raw, bd_target_layout_sha256 b = hex raw ∧ is_bytes raw ∧ zlen raw = 32;
  bok_count : 1 ≤ zlen (bd_components b) ≤ MAX_COMPONENTS;
  bok_components : Forall (component_ok (bd_chip_id b) (bd_flash_size b)) (bd_components b);
  bok_ids : NoDup (map cp_id (bd_components b));
  bok_kinds : NoDup (singletons (bd_components b));
  bok_layout : layout_ok (bd_components b) (bd_target_layout_sha256 b);
  (** the members are exactly the metadata and the components' files *)
  bok_members : map zi_filename (infolist archive)
    ≡ₚ map cp_filename (bd_components b) ++ metadata_names b;
  bok_archive : Forall member_ok (infolist archive)
    ∧ total_size (infolist archive) ≤ MAX_BUNDLE_BYTES;
}.

Section loader_correct.
Context {public_key : Type} (verify : public_key → bytes → bytes → res ()).

Lemma check_signature_Ok key manifest sig :
  check_signature verify key manifest sig = Ok () →
  (1 ≤ zlen manifest ≤ MAX_MANIFEST_BYTES ∧ zlen sig ≤ MAX_SIGNATURE_BYTES)
  ∧ match key with
    | None => sig = []
    | Some k => sig ≠ [] ∧ verify k sig manifest = Ok ()
    end.
Proof.
  unfold check_signature. intros H. guard H as G1. guard H as G2.
  apply negb_false_iff in G1. split; [lia |].
  destruct key, sig; try discriminate; [| done].
  split; [done |]. by apply reraise_Ok in H.
Qed.

Lemma manifest_target_Ok m chip flash :
  manifest_target m = Ok (chip, flash) →
  0 ≤ chip ≤ 0xFFFF ∧ 0 < flash ∧ flash mod 4096 = 0.
Proof.
  unfold manifest_target. intros H. bind H as t Ht. bind H as u Hu.
  bind H as c Hc. bind H as f Hf. res_inv. injection H as <- <-.
  apply _bounded_uint_Ok in Hc as [_ Hc], Hf as [_ Hf].
  apply orb_false_iff in G as [G1 G2]. apply negb_false_iff, Z.eqb_eq in G2. lia.
Qed.

Lemma manifest_key_id_Ok m sig k :
  manifest_key_id m sig = Ok k → match k with Some _ => sig ≠ [] | None => sig = [] end.
Proof.
  unfold manifest_key_id. destruct sig; simpl; intros H; res_inv.
  - by injection H as <-.
  - destruct (dict_get "key_id" r); try discriminate. res_inv. by injection H as <-.
Qed.

Lemma members_permutation (archive_names names : list string) :
  NoDup archive_names → NoDup names →
  (∀ n, n ∈ archive_names → n ∈ names) → (∀ n, n ∈ names → n ∈ archive_names) →
  archive_names ≡ₚ names.
Proof. intros. apply NoDup_Permutation; [done | done |]. naive_solver. Qed.

Lemma load_archive_Ok archive key b :
  load_archive verify archive key = Ok b →
  bundle_ok archive b
  ∧ (1 ≤ zlen (infolist archive) ≤ MAX_ARCHIVE_MEMBERS)
  ∧ bd_signature_verified b = negb (is_nil (bd_signature b))
  ∧ (bd_key_id b = None ↔ bd_signature b = [])
  ∧ match key with
    | None => bd_signature b = []
    | Some k => bd_signature b ≠ [] ∧ verify k (bd_signature b) (bd_manifest_bytes b) = Ok ()
    end.
Proof.
  unfold load_archive. intros H. bind H as members Hmem.
  destruct (dict_lookup MANIFEST_NAME members) as [info|] eqn:Hman; [| discriminate].
  bind H as manifest_bytes Hmb. bind H as sig Hsig. bind H as u Hcheck.
  bind H as document Hdoc. bind H as manifest Hmanifest. guard H as Gschema.
  bind H as u1 Hreq. bind H as u2 Hrel. bind H as u3 Hmin. bind H as key_id Hkey.
  bind H as target Htarget. destruct target as [chip flash].
  bind H as layout Hlayout. bind H as values Hvalues. bind H as st Hst.
  guard H as Gunused. bind H as u4 Hchk. injection H as <-. destruct u, u4.
  apply check_signature_Ok in Hcheck as [Hbounds Hpolicy].
  apply manifest_target_Ok in Htarget. apply _sha256_hex_Ok in Hlayout as [_ Hlayout].
  apply manifest_key_id_Ok in Hkey.
  destruct document; try discriminate. injection Hmanifest as ->.
  unfold component_values in Hvalues. destruct (dict_get "components" manifest); try discriminate.
  res_inv. injection Hvalues as ->. apply negb_false_iff in G.
  set (initial := if is_nil sig then [MANIFEST_NAME] else [SIGNATURE_NAME; MANIFEST_NAME]) in *.
  apply (load_components_inv _ _ initial) in Hst as [[] Hlen].
  2: { split; simpl; try done; try constructor.
       unfold initial. destruct (is_nil sig); simpl; by_decide. }
  apply _archive_members_Ok in Hmem as (Hmembers & Hnd & Hok & Htotal & Hcount).
  assert (Hids : NoDup (map cp_id (ls_components st))).
  { rewrite inv_ids0 in inv_ids_nodup0. by rewrite <- Permutation_rev in inv_ids_nodup0. }
  assert (Hkinds : NoDup (singletons (ls_components st))).
  { rewrite inv_kinds0 in inv_kinds_nodup0. by rewrite <- Permutation_rev in inv_kinds_nodup0. }
  split; [| split_and!; try done; try lia; by destruct key_id, sig].
  split; simpl; try done; try lia.
  - simpl in Hlen. change (zlen []) with 0 in Hlen. rewrite Hlen. lia.
  - apply check_layout_Ok; [| done | done | done].
    eapply Forall_impl; [exact inv_components0 |]. intros c Hc. destruct Hc. lia.
  - assert (Hkeys : keys members = map zi_filename (infolist archive))
      by (rewrite Hmembers; unfold keys; by rewrite map_map).
    rewrite inv_names0 in inv_names_nodup0, Gunused.
    rewrite <- Hkeys, (Permutation_rev (map cp_filename _)).
    apply members_permutation; [done | done | |].
    + intros n Hn. apply negb_false_iff in Gunused. rewrite forallb_forall in Gunused.
      apply list_elem_of_In, Gunused in Hn. by apply bool_decide_eq_true in Hn.
    + intros n Hn. apply elem_of_app in Hn as [Hn | Hn].
      * apply list_elem_of_In, (proj2 (in_rev _ _)), list_elem_of_In in Hn.
        apply list_elem_of_fmap in Hn as (c & -> & Hc).
        rewrite Forall_forall in inv_members0. by apply inv_members0.
      * apply has_key_spec. rewrite dict_lookup_has_key. unfold metadata_names in Hn.
        destruct sig; cbn [is_nil bd_signature] in Hn; repeat setoid_rewrite elem_of_cons in Hn.
        { destruct Hn as [Hn | Hn]; [by rewrite Hn, Hman | by apply elem_of_nil in Hn]. }
        destruct Hn as [Hn | [Hn | Hn]]; [| by rewrite Hn, Hman | by apply elem_of_nil in Hn].
        rewrite Hn.
        destruct (dict_lookup SIGNATURE_NAME members); [done |]. discriminate.
Qed.
End loader_correct.

(** ** A small bundle *)

Definition example_data : bytes := of_hex "00112233".
Definition example_manifest_text (signature : string) : string :=
  "{'schema':'esp-iris-system-update/v1','target':{'chip_id':32,'flash_size':4194304},"
  +:+ signature
  +:+ "'target_layout_sha256':'0000000000000000000000000000000000000000000000000000000000000000',"
  +:+ "'components':[{'id':1,'kind':'data','target_offset':65536,'size':4,"
  +:+ "'sha256':'aafa373bf008a855815ecb37d8bd52f6a8157cb5833c58edde6d530dbcf3f25d','file':'d.bin'}]}".
Definition example_manifest : bytes := str_encode (dq (example_manifest_text "")).
Definition example_signed_manifest : bytes := str_encode (dq (example_manifest_text
  "'signature':{'algorithm':'ecdsa-p256-sha256','key_id':'k1'},")).

Definition example_archive (manifest signature : bytes) : ZipFile := {|
  infolist := [{| zi_filename := MANIFEST_NAME; zi_flag_bits := 0; zi_compress_type := 8;
                  zi_file_size := zlen manifest |};
               {| zi_filename := "d.bin"; zi_flag_bits := 0; zi_compress_type := 0;
                  zi_file_size := 4 |}]
    ++ (if is_nil signature then []
        else [{| zi_filename := SIGNATURE_NAME; zi_flag_bits := 0; zi_compress_type := 0;
                 zi_file_size := zlen signature |}]);
  archive_read i :=
    if (zi_filename i =? MANIFEST_NAME)%string then Ok manifest
    else if (zi_filename i =? SIGNATURE_NAME)%string then Ok signature
    else Ok example_data;
|}.

(** ** Properties *)

(** Whatever archive, key and signature library the loader is given, a
    bundle it returns has a bounded, duplicate-free manifest with the digest it
    reports; between 1 and 8 components with distinct ids in 1..255, each
    aligned and inside the declared Flash, with the size and SHA-256 of the
    bytes read from the archive, and application and recovery images for the
    declared chip; components that pairwise do not overlap; at most one
    component of each kind other than data, a partition table of exactly one
    sector whose digest is the declared layout, a bootloader only directly
    below a partition table, a recovery image only on its own with an explicit
    layout; and an archive whose members are exactly the manifest, the
    signature and the component files, within the expansion limits. *)
Theorem load_bundle_sound open_zip {public_key} load_pem (verify : public_key → _) source key b :
  load_system_update_bundle open_zip load_pem verify source key = Ok b →
  ∃ data archive, read_source source = Ok data ∧ zlen data ≤ MAX_BUNDLE_BYTES
    ∧ open_zip data = Ok archive ∧ bundle_ok archive b.
Proof.
  unfold load_system_update_bundle. intros H.
  bind H as data Hdata. bind H as k Hk. bind H as archive Harchive.
  apply reraise_Ok in Harchive. apply load_archive_Ok in H as [H _].
  exists data, archive. split_and!; try done.
  unfold read_source in Hdata. destruct source as [d | [d|]]; try discriminate;
    res_inv; injection Hdata as ->; lia.
Qed.

Abbreviation example_load :=
  (load_system_update_bundle (λ _, Ok (example_archive example_manifest []))
    (λ _, Ok (@OtherKey ())) (λ _ _ _, Ok ()) (SourceBytes []) None).
Lemma example_load_ok : is_ok example_load = true.
Proof. vm_compute. reflexivity. Qed.

Lemma load_bundle_sound_witness :
  ∃ b data archive, example_load = Ok b
    ∧ read_source (SourceBytes []) = Ok data ∧ zlen data ≤ MAX_BUNDLE_BYTES
    ∧ Ok (example_archive example_manifest []) = Ok archive ∧ bundle_ok archive b.
Proof.
  pose proof example_load_ok as Hok. destruct example_load as [b|e] eqn:H; [| discriminate Hok].
  destruct (load_bundle_sound _ _ _ _ _ _ H) as (data & archive & H1 & H2 & H3 & H4).
  exists b, data, archive. split; [reflexivity |].
  split; [exact H1 |]. split; [exact H2 |]. split; [exact H3 | exact H4].
Defined.

(** C20: signatures.  Without a trust key only unsigned bundles load, and they
    are reported unverified and without a key id; with a trust key only bundles
    load whose non-empty signature the key verified over exactly the manifest
    bytes that were parsed, and they are reported verified with a key id. *)
Theorem load_bundle_trust open_zip {public_key} load_pem (verify : public_key → _) source pem b :
  load_system_update_bundle open_zip load_pem verify source pem = Ok b →
  parse_manifest (bd_manifest_bytes b) = Ok (PDict (bd_manifest b)) ∧
  match pem with
  | None => bd_signature b = [] ∧ bd_signature_verified b = false ∧ bd_key_id b = None
  | Some pem => ∃ k, load_pem pem = Ok (P256Key k)
      ∧ verify k (bd_signature b) (bd_manifest_bytes b) = Ok ()
      ∧ bd_signature b ≠ [] ∧ bd_signature_verified b = true ∧ is_Some (bd_key_id b)
  end.
Proof.
  unfold load_system_update_bundle. intros H.
  bind H as data Hdata. bind H as k Hk. bind H as archive Harchive.
  apply load_archive_Ok in H as (Hok & _ & Hver & Hid & Hpolicy).
  split; [by destruct Hok |]. destruct pem as [pem|].
  - bind Hk as key Hkey. injection Hk as <-. destruct Hpolicy as [Hne Hv].
    unfold _load_public_key in Hkey. bind Hkey as pk Hpk. apply reraise_Ok in Hpk.
    destruct pk; [| discriminate]. injection Hkey as ->. exists key.
    split_and!; [done | done | done | |].
    + rewrite Hver. by destruct (bd_signature b).
    + destruct (bd_key_id b); [by eexists | by destruct Hne; apply Hid].
  - injection Hk as <-. rewrite Hver, Hpolicy. split_and!; [done | done | by apply Hid].
Qed.

(** The layout checks decide the layout rules.  For components of
    positive size with distinct ids and at most one of each kind other than
    data, the sorted sweep and the kind checks accept exactly the lists whose
    regions are pairwise disjoint and that obey the partition-table, bootloader
    and recovery rules. *)
Theorem check_layout_iff cs target_layout :
  Forall (λ c, 0 < cp_size c) cs → NoDup (map cp_id cs) → NoDup (singletons cs) →
  (check_layout cs target_layout = Ok () ↔ layout_ok cs target_layout).
Proof.
  intros. split; [by apply check_layout_Ok | by apply check_layout_complete].
Qed.

Definition example_component (id : Z) (kind : SystemUpdateComponentKind) (offset size : Z)
    : SystemUpdateComponent :=
  {| cp_id := id; cp_kind := kind; cp_flags := 0; cp_target_offset := offset; cp_size := size;
     cp_sha256 := [1; 2]; cp_filename := "c"; cp_data := [] |}.

Lemma check_layout_iff_witness :
  let cs := [example_component 1 PARTITION_TABLE 0x8000 0x1000;
             example_component 2 BOOTLOADER 0x2000 0x6000;
             example_component 3 DATA 0x9000 1] in
  Forall (λ c, 0 < cp_size c) cs ∧ layout_ok cs "0102".
Proof.
  intros cs. assert (Hs : Forall (λ c, 0 < cp_size c) cs) by by_decide.
  split; [exact Hs |]. apply (check_layout_iff cs "0102" Hs).
  - by_decide.
  - by_decide.
  - vm_compute. reflexivity.
Defined.

(** A key is a byte string, and a signature is valid when it is the HMAC. *)
Definition toy_verify (k signature m : bytes) : res () :=
  if bool_decide (signature = hmac_sha256 k m) then Ok ()
  else raise InvalidSignature "invalid signature".
Definition example_signed_archive : ZipFile :=
  example_archive example_signed_manifest (hmac_sha256 [7] example_signed_manifest).

Abbreviation example_signed_load k :=
  (load_system_update_bundle (λ _, Ok example_signed_archive) (λ pem, Ok (P256Key pem))
    toy_verify (SourceBytes []) (Some [k])).
Lemma example_signed_load_ok :
  is_ok (example_signed_load 7) = true ∧ raises ValueError (example_signed_load 8) = true.
Proof. split; vm_compute; reflexivity. Qed.

Lemma load_bundle_trust_witness :
  ∃ b, example_signed_load 7 = Ok b ∧ raises ValueError (example_signed_load 8) = true
    ∧ toy_verify [7] (bd_signature b) (bd_manifest_bytes b) = Ok ().
Proof.
  destruct example_signed_load_ok as [Hok Hbad].
  destruct (example_signed_load 7) as [b|e] eqn:H; [| discriminate Hok].
  exists b. split; [reflexivity |]. split; [exact Hbad |].
  destruct (load_bundle_trust _ _ _ _ _ _ H) as (_ & k & Hk & Hv & _).
  by injection Hk as <-.
Defined.
