(* ===== verification/SystemUpdateBuild.v ===== *)
(** * Building a system-update bundle ([build_system_update_bundle] in [system_update.py])

    The builder fills the sizes and digests of a manifest template from the
    source files, pads the images that own a whole range of the flash, signs the
    canonical manifest and packs everything into an archive, which the loader
    must accept.  What the loader then finds is what the template asked for.

    The file system, [zipfile] and the cryptography library are parameters. *)
From stdpp Require Import sorting.
From S2P Require Import Prelude Text Value Json JsonDump Sha256 Firmware SystemUpdate.

(** ** Canonical JSON *)

(** [sort_keys=True] *)
Definition pair_le (a b : string * pyval) : Prop := String.le (fst a) (fst b).
#[export] Instance pair_le_dec : RelDecision pair_le := λ a b, String.le_dec _ _.
Fixpoint sorted_json (v : pyval) : pyval :=
  match v with
  | PList l => PList (map sorted_json l)
  | PDict d => PDict (merge_sort pair_le (map (λ kv, (fst kv, sorted_json (snd kv))) d))
  | v => v
  end.
(** [json.loads(json.dumps(v))]: a copy, unless an integer is too long to print. *)
Fixpoint printable (v : pyval) : bool :=
  match v with
  | PInt z => zlen (nat_text (Z.abs z)) <=? 4300
  | PList l => forallb printable l
  | PDict d => forallb (λ kv, printable (snd kv)) d
  | _ => true
  end.
Definition json_copy (v : pyval) : res pyval :=
  if printable v then Ok v else raise ValueError "Exceeds the limit (4300 digits) for integer string conversion".
(** [json.dumps(v, ensure_ascii=False, sort_keys=True, separators=(",", ":")).encode("utf-8")] *)
Definition canonical_json (v : pyval) : res bytes := encode_utf8 (json_dumps (sorted_json v)).

(** ** The components *)

(** [data.ljust(size, b"\xff")] *)
Definition ljust (size : Z) (data : bytes) : bytes := data ++ repeat 255 (Z.to_nat (size - zlen data)).

(** [item.get("kind") == kind], of the items that are dictionaries *)
Definition item_is (kind : string) (value : pyval) : bool :=
  match value with PDict item => is_str (dict_get "kind" item) kind | _ => false end.
Definition template_offset (values : list pyval) : res (option Z) :=
  match List.filter (item_is "partition_table") values with
  | [] => Ok None
  | [PDict item] =>
    offset ← _bounded_uint (dict_get "target_offset" item) "partition-table target_offset" 0xFFFFFFFF; Ok (Some offset)
  | _ => raise ValueError "manifest may contain only one partition table"
  end.

(** The image as it is on the flash. *)
Definition erased_to_end (partition_offset : option Z) (item : list (string * pyval)) (data : bytes) : res bytes :=
  let kind := dict_get "kind" item in
  if is_str kind "partition_table" then
    if PARTITION_TABLE_REGION_BYTES <? zlen data
    then raise ValueError "partition-table image exceeds its 4 KiB sector"
    else Ok (ljust PARTITION_TABLE_REGION_BYTES data)
  else if is_str kind "bootloader" then
    match partition_offset with
    | None => raise ValueError "bootloader component requires a partition-table component"
    | Some partition_offset =>
      bootloader_offset ← _bounded_uint (dict_get "target_offset" item) "bootloader target_offset" 0xFFFFFFFF;
      let protected_size := partition_offset - bootloader_offset in
      if (protected_size <=? 0) || (MAX_COMPONENT_BYTES <? protected_size)
      then raise ValueError "bootloader protected range is invalid"
      else if protected_size <? zlen data then raise ValueError "bootloader image exceeds its protected range"
      else Ok (ljust protected_size data)
    end
  else if is_str kind "recovery" then
    protected_size ← _bounded_uint (dict_get "size" item) "recovery protected size" MAX_COMPONENT_BYTES;
    if (protected_size =? 0) || negb (protected_size mod 0x1000 =? 0)
    then raise ValueError "recovery protected size must be a non-zero 4 KiB multiple"
    else if protected_size <? zlen data then raise ValueError "recovery image exceeds its protected range"
    else Ok (ljust protected_size data)
  else Ok data.

Section builder.
(** The content of the file with a name, if it is one directly under the root
    of the components. *)
Context (source : string → option bytes).

(** One iteration of [for index, value in enumerate(values)]: the item as it is
    then, its file and the data. *)
Definition build_item (partition_offset : option Z) (component_data : list (string * bytes)) (value : pyval)
    : res (list (string * pyval) * (string * bytes)) :=
  match value with
  | PDict item =>
    filename ← _safe_member_name (dict_get "file" item) "component file";
    _ ← raise_if (has_key filename component_data) ValueError "component file is duplicated";
    match source filename with
    | None => raise ValueError "component source does not exist"
    | Some data =>
      _ ← raise_if (is_nil data || (MAX_COMPONENT_BYTES <? zlen data)) ValueError "component source has an invalid size";
      data ← erased_to_end partition_offset item data;
      Ok (dict_set "sha256" (PStr (sha256_hex data)) (dict_set "size" (PInt (zlen data)) item), (filename, data))
    end
  | _ => raise TypeError "components[] must be an object"
  end.
Fixpoint build_items (partition_offset : option Z) (component_data : list (string * bytes)) (values : list pyval)
    : res (list pyval * list (string * bytes)) :=
  match values with
  | [] => Ok ([], component_data)
  | value :: values =>
    x ← build_item partition_offset component_data value;
    y ← build_items partition_offset (component_data ++ [snd x]) values;
    Ok (PDict (fst x) :: fst y, snd y)
  end.

(** The digest of the partition table, the layout of the bundle. *)
Definition table_sha256 (items : list pyval) : option pyval :=
  match List.filter (item_is "partition_table") items with
  | PDict item :: _ => Some (dict_get "sha256" item)
  | _ => None
  end.
Definition complete_document (document : list (string * pyval)) (items : list pyval) : list (string * pyval) :=
  let document := dict_set "components" (PList items) document in
  match table_sha256 items with
  | Some layout => dict_set "target_layout_sha256" layout document
  | None => document
  end.
Definition check_recovery_layout (document : list (string * pyval)) (values : list pyval) : res () :=
  if existsb (item_is "recovery") values then
    _ ← raise_if (negb (zlen values =? 1)) ValueError "recovery must be the bundle's only component";
    layout ← _sha256_hex (dict_get "target_layout_sha256" document) "target_layout_sha256";
    raise_if (layout =? bytes_str (repeat 48 64))%string ValueError
      "recovery bundle requires an explicit target layout SHA-256"
  else Ok ().

(** The document and the data of its files. *)
Definition prepare (manifest : list (string * pyval)) : res (list (string * pyval) * list (string * bytes)) :=
  document ← json_copy (PDict manifest);
  document ← _mapping document "manifest";
  match dict_get "components" document with
  | PList ((_ :: _) as values) =>
    partition_offset ← template_offset values;
    x ← build_items partition_offset [] values;
    let document := complete_document document (fst x) in
    _ ← check_recovery_layout document (fst x);
    Ok (document, snd x)
  | _ => raise ValueError "manifest template requires components"
  end.

(** ** Signing and packing *)

(** The archive of some members; what signing keys do. *)
Context (write_zip : list (string * bytes) → res bytes) (open_zip : bytes → res ZipFile).
Context {private_key public_key : Type} (load_pem_private_key : bytes → option bytes → res (pem_key private_key))
  (sign : private_key → bytes → bytes) (public_bytes : private_key → bytes).
Context (load_pem_public_key : bytes → res (pem_key public_key)) (verify : public_key → bytes → bytes → res ()).

Definition _load_private_key (data : bytes) (password : option bytes) : res private_key :=
  key ← reraise (load_pem_private_key data password) [TypeError; ValueError]
    ValueError "system-update signing key or password is not valid PEM";
  match key with
  | P256Key k => Ok k
  | OtherKey => raise TypeError "system-update signing key must be ECDSA P-256"
  end.

(** The key and the signature. *)
Definition signed (document : list (string * pyval)) (manifest_bytes : bytes) (signing_private_key signing_key_password : option bytes)
    : res (option private_key * bytes) :=
  let signature_value := dict_get "signature" document in
  match signing_private_key with
  | None =>
    _ ← raise_if (match signing_key_password with Some _ => true | None => false end)
      ValueError "signing key password requires a signing key";
    _ ← raise_if (negb (is_none signature_value)) ValueError "unsigned system-update manifest must omit signature";
    Ok (None, [])
  | Some pem =>
    _ ← raise_if (is_none signature_value) ValueError "signed system-update manifest requires signature metadata";
    key ← _load_private_key pem signing_key_password;
    Ok (Some key, sign key manifest_bytes)
  end.

Definition file_le (a b : string * bytes) : Prop := String.le (fst a) (fst b).
#[export] Instance file_le_dec : RelDecision file_le := λ a b, String.le_dec _ _.
Definition archive_files (manifest_bytes signature : bytes) (component_data : list (string * bytes))
    : list (string * bytes) :=
  (MANIFEST_NAME, manifest_bytes) :: (if is_nil signature then [] else [(SIGNATURE_NAME, signature)])
  ++ merge_sort file_le component_data.

(** The archive that [destination] then holds, and the key it is checked with. *)
Definition build_system_update_bundle (manifest : list (string * pyval)) (signing_private_key signing_key_password : option bytes)
    : res (bytes * option bytes) :=
  x ← prepare manifest;
  let '(document, component_data) := x : list (string * pyval) * list (string * bytes) in
  manifest_bytes ← canonical_json (PDict document);
  _ ← raise_if (MAX_MANIFEST_BYTES <? zlen manifest_bytes) ValueError "canonical system-update manifest is too large";
  y ← signed document manifest_bytes signing_private_key signing_key_password;
  let '(key, signature) := y : option private_key * bytes in
  archive ← write_zip (archive_files manifest_bytes signature component_data);
  let public_pem := public_bytes <$> key in
  _ ← load_system_update_bundle open_zip load_pem_public_key verify (SourcePath (Some archive)) public_pem;
  Ok (archive, public_pem).
End builder.

(** ** Sorted documents *)

Lemma sorted_scalar v w : hashable w = true → sorted_json v = w → v = w.
Proof. destruct v; cbn; intros Hw <-; done. Qed.

Lemma lookup_permutation {A} k (d e : list (string * A)) : d ≡ₚ e → NoDup (keys d) → dict_lookup k d = dict_lookup k e.
Proof.
  intros Hp Hd. assert (He : NoDup (keys e)) by (unfold keys in *; by rewrite <- Hp).
  destruct (dict_lookup k d) as [v|] eqn:Ed.
  - apply dict_lookup_Some_in in Ed. rewrite Hp in Ed. symmetry. by apply dict_lookup_in.
  - destruct (dict_lookup k e) as [w|] eqn:Ee; [| done]. apply dict_lookup_Some_in in Ee. rewrite <- Hp in Ee.
    apply (dict_lookup_in _ _ _ Hd) in Ee. congruence.
Qed.
Lemma lookup_map {A B} (f : A → B) k (d : list (string * A)) :
  dict_lookup k (map (λ kv, (fst kv, f (snd kv))) d) = option_map f (dict_lookup k d).
Proof. induction d as [|[j v] d IH]; [done |]. simpl. by destruct (String.eqb j k). Qed.
Lemma keys_map {A B} (f : A → B) (d : list (string * A)) : keys (map (λ kv, (fst kv, f (snd kv))) d) = keys d.
Proof. unfold keys. by rewrite map_map. Qed.

Definition sorted_dict (d : list (string * pyval)) : list (string * pyval) :=
  merge_sort pair_le (map (λ kv, (fst kv, sorted_json (snd kv))) d).
Lemma sorted_keys d : keys (sorted_dict d) ≡ₚ keys d.
Proof. unfold keys, sorted_dict. rewrite merge_sort_Permutation, map_map. done. Qed.
Lemma sorted_lookup k d : NoDup (keys d) → dict_lookup k (sorted_dict d) = option_map sorted_json (dict_lookup k d).
Proof.
  intros Hd. rewrite <- (lookup_map sorted_json). apply lookup_permutation; [apply merge_sort_Permutation |].
  by rewrite sorted_keys.
Qed.
Lemma sorted_get k d : NoDup (keys d) → dict_get k (sorted_dict d) = sorted_json (dict_get k d).
Proof. intros Hd. unfold dict_get. rewrite sorted_lookup by done. by destruct (dict_lookup k d). Qed.

(** A document with a JSON text keeps one. *)
Lemma json_ok_sorted v : json_ok v → json_ok (sorted_json v).
Proof.
  assert (Hind : ∀ n v, (length (dump v) ≤ n)%nat → json_ok v → json_ok (sorted_json v)); [| by apply (Hind _ v (le_n _))].
  intros n. induction n as [|n IH]; intros w Hn Hw.
  { destruct w as [|[]| | | |l|d]; try done; cbn [dump] in Hn; rewrite !length_app in Hn; cbn in Hn; lia. }
  destruct w as [| | | | |l|d]; try done.
  - cbn [sorted_json]. change (Forall id (map json_ok (map sorted_json l))). rewrite map_map. apply Forall_map, Forall_forall.
    intros x Hx. cbn. apply IH; [| by eapply json_ok_elem].
    pose proof (join_length _ _ (in_map_elem dump x l Hx)). cbn [dump] in Hn. rewrite !length_app in Hn. cbn in Hn. lia.
  - pose proof Hw as [Hd _]. cbn [sorted_json]. fold (sorted_dict d). split; [by rewrite sorted_keys |].
    apply Forall_map, Forall_forall. intros kv Hkv. cbn. unfold sorted_dict in Hkv.
    rewrite merge_sort_Permutation in Hkv. apply list_elem_of_fmap in Hkv as ([k x] & -> & Hin). cbn [fst snd].
    apply IH; [| exact (json_ok_value x d Hw (in_map_elem snd (k, x) d Hin))].
    pose proof (join_length _ _ (in_map_elem pair_text (k, x) d Hin)) as Hl. rewrite dump_dict in Hn.
    rewrite !length_app in Hn. unfold pair_text at 1 in Hl. rewrite !length_app in Hl. cbn [fst snd length] in *. lia.
Qed.

(** ** What the loader reads from an item *)

Record describes (item : list (string * pyval)) (c : SystemUpdateComponent) : Prop := {
  de_id : dict_get "id" item = PInt (cp_id c);
  de_kind : dict_get "kind" item = PStr (kind_name (cp_kind c));
  de_flags : default (PInt 0) (dict_lookup "flags" item) = PInt (cp_flags c);
  de_offset : dict_get "target_offset" item = PInt (cp_target_offset c);
  de_file : dict_get "file" item = PStr (cp_filename c);
}.

Lemma lookup_kind_Ok v k : lookup_kind v = Ok k → v = PStr (kind_name k).
Proof.
  unfold lookup_kind. destruct v; cbn [hashable negb]; try discriminate.
  destruct (dict_lookup s _KIND_NAMES) as [k'|] eqn:E; [| discriminate]. intros [= ->].
  apply dict_lookup_Some_in in E. unfold _KIND_NAMES in E. set_unfold. naive_solver.
Qed.

Section loading.
Context (archive : ZipFile) (members : list (string * ZipInfo)) (chip flash : Z).

Lemma load_component_fields st v st' : load_component archive members chip flash st v = Ok st' →
  ∃ item c info, v = PDict item ∧ ls_components st' = ls_components st ++ [c] ∧ describes item c
    ∧ dict_lookup (cp_filename c) members = Some info ∧ archive_read archive info = Ok (cp_data c).
Proof.
  unfold load_component. intros H.
  bind H as item Hitem. bind H as u Hfields. bind H as id Hid. guard H as Gid.
  bind H as kind Hkind. guard H as Gkind. bind H as flags Hflags.
  bind H as offset Hoffset. bind H as size Hsize. guard H as Gsize. guard H as Galign.
  bind H as sha_hex Hsha. bind H as name Hname.
  destruct (dict_lookup name members) as [info|] eqn:Hm; [| discriminate].
  guard H as Gname. bind H as data Hdata. guard H as Glen. guard H as Gsha.
  apply _bounded_uint_Ok in Hid as [Hid _], Hflags as [Hflags _], Hoffset as [Hoffset _].
  apply _safe_member_name_Ok in Hname as [Hname _]. apply lookup_kind_Ok in Hkind.
  unfold _mapping in Hitem. destruct v as [| | | | | |d]; try discriminate. injection Hitem as ->.
  set (c := {| cp_id := id; cp_kind := kind; cp_flags := flags; cp_target_offset := offset; cp_size := size;
      cp_sha256 := sha256 data; cp_filename := name; cp_data := data |}) in H.
  set (st1 := LoadState (ls_components st ++ [c]) _ _ _) in H.
  assert (st' = st1) as ->.
  { case_bool_decide; [| by injection H as <-]. bind H as fw Hfw. guard H as Gfw. by injection H as <-. }
  by exists item, c, info.
Qed.

Definition read_as (v : pyval) (c : SystemUpdateComponent) : Prop :=
  ∃ item info, v = PDict item ∧ describes item c ∧ dict_lookup (cp_filename c) members = Some info
    ∧ archive_read archive info = Ok (cp_data c).
Lemma load_components_fields values : ∀ st st', load_components archive members chip flash st values = Ok st' →
  ∃ cs, ls_components st' = ls_components st ++ cs ∧ Forall2 read_as values cs.
Proof.
  induction values as [|v values IH]; intros st st' H.
  - injection H as <-. exists []. split; [by rewrite app_nil_r | constructor].
  - cbn [load_components] in H. bind H as st1 H1. destruct (IH _ _ H) as (cs & Hcs & Hall).
    apply load_component_fields in H1 as (item & c & info & -> & Hst & Hd & Hi & Hr).
    exists (c :: cs). rewrite Hcs, Hst, <- app_assoc. split; [done |]. constructor; [by exists item, info | done].
Qed.
End loading.

(** The parts of a loaded archive. *)
Lemma load_archive_fields {public_key} (verify : public_key → bytes → bytes → res ()) archive key b :
  load_archive verify archive key = Ok b → ∃ members info values,
    _archive_members archive = Ok members
    ∧ dict_lookup MANIFEST_NAME members = Some info ∧ archive_read archive info = Ok (bd_manifest_bytes b)
    ∧ dict_get "components" (bd_manifest b) = PList values ∧ Forall2 (read_as archive members) values (bd_components b)
    ∧ manifest_target (bd_manifest b) = Ok (bd_chip_id b, bd_flash_size b)
    ∧ dict_get "target_layout_sha256" (bd_manifest b) = PStr (bd_target_layout_sha256 b).
Proof.
  unfold load_archive. intros H. bind H as members Hmem.
  destruct (dict_lookup MANIFEST_NAME members) as [info|] eqn:Hman; [| discriminate].
  bind H as manifest_bytes Hmb. bind H as sig Hsig. bind H as u Hcheck. bind H as document Hdoc.
  bind H as manifest Hmanifest. guard H as Gschema. bind H as u1 H1. bind H as u2 H2. bind H as u3 H3.
  bind H as key_id Hkey. bind H as target Htarget. destruct target as [chip flash]. bind H as layout Hlayout.
  bind H as values Hvalues. bind H as st Hst. guard H as Gun. bind H as u4 H4. injection H as <-.
  cbn [bd_manifest bd_manifest_bytes bd_components bd_chip_id bd_flash_size bd_target_layout_sha256].
  apply _sha256_hex_Ok in Hlayout as [Hlayout _].
  apply load_components_fields in Hst as (cs & Hcs & Hall). cbn in Hcs. rewrite Hcs.
  exists members, info, values. split_and!; try done.
  unfold component_values in Hvalues. destruct (dict_get "components" manifest); try discriminate.
  res_inv. by injection Hvalues as ->.
Qed.

(** ** What the builder makes of an item *)

Lemma ljust_Ok size raw : (size <? zlen raw) = false →
  ljust size raw = raw ++ repeat 255 (length (ljust size raw) - length raw) ∧ zlen (ljust size raw) = size.
Proof.
  intros Hs. unfold ljust. rewrite length_app, zlen_app, repeat_length. split; [f_equal; f_equal; lia |].
  unfold zlen in *. rewrite repeat_length. lia.
Qed.
Lemma erased_cases po item raw data : erased_to_end po item raw = Ok data →
  data = raw ∨ ∃ size, (size <? zlen raw) = false ∧ data = ljust size raw ∧ size ≤ MAX_COMPONENT_BYTES
    ∧ (is_str (dict_get "kind" item) "partition_table" = true → size = PARTITION_TABLE_REGION_BYTES)
    ∧ (is_str (dict_get "kind" item) "recovery" = true → dict_get "size" item = PInt size).
Proof.
  unfold erased_to_end. destruct (is_str _ "partition_table") eqn:Ep.
  - intros H. res_inv. injection H as <-. right. exists PARTITION_TABLE_REGION_BYTES.
    split_and!; [done | done | vm_compute; discriminate | done |].
    intros Hr. destruct (dict_get "kind" item); try discriminate. cbn [is_str] in *.
    apply String.eqb_eq in Ep, Hr. congruence.
  - destruct (is_str _ "bootloader") eqn:Eb.
    + destruct po as [po|]; [| discriminate]. intros H. bind H as offset Ho. res_inv. injection H as <-. right.
      exists (po - offset). apply orb_false_iff in G as [_ G]. split_and!; [done | done | lia | done |].
      intros Hr. destruct (dict_get "kind" item); try discriminate. cbn [is_str] in *.
      apply String.eqb_eq in Eb, Hr. congruence.
    + destruct (is_str _ "recovery") eqn:Er; [| intros [= <-]; by left].
      intros H. bind H as size Hsize. res_inv. injection H as <-. right. exists size.
      apply _bounded_uint_Ok in Hsize as [Hsize Hb]. split_and!; [done | done | lia | done | done].
Qed.
Lemma erased_bound po item raw data : erased_to_end po item raw = Ok data → zlen raw ≤ MAX_COMPONENT_BYTES →
  zlen data ≤ MAX_COMPONENT_BYTES.
Proof. intros [-> | (size & Hs & -> & Hb & _)]%erased_cases Hr; [done |]. by rewrite (proj2 (ljust_Ok _ _ Hs)). Qed.

(** The image on the flash: the file, then erased bytes, up to the end of the
    range that a partition table or a recovery image owns. *)
Definition flash_image (item : list (string * pyval)) (k : SystemUpdateComponentKind) (raw data : bytes) : Prop :=
  data = raw ++ repeat 255 (length data - length raw)
  ∧ match k with
    | PARTITION_TABLE => zlen data = PARTITION_TABLE_REGION_BYTES
    | RECOVERY => dict_get "size" item = PInt (zlen data)
    | BOOTLOADER => True
    | APPLICATION | DATA => data = raw
    end.
Lemma image_raw raw : raw = raw ++ repeat 255 (length raw - length raw).
Proof. by rewrite Nat.sub_diag, app_nil_r. Qed.
Lemma erased_image po item k raw data : dict_get "kind" item = PStr (kind_name k) → erased_to_end po item raw = Ok data →
  flash_image item k raw data.
Proof.
  unfold erased_to_end. intros ->. unfold flash_image.
  destruct k; repeat match goal with |- context [is_str (PStr (kind_name ?k)) ?s] =>
    let b := eval vm_compute in (is_str (PStr (kind_name k)) s) in change (is_str (PStr (kind_name k)) s) with b end;
    cbv iota; intros H.
  - destruct po as [po|]; [| discriminate]. bind H as offset Ho. res_inv. injection H as <-. split; [by apply ljust_Ok | done].
  - res_inv. injection H as <-. by apply ljust_Ok.
  - injection H as <-. split; [apply image_raw | done].
  - bind H as size Hs. apply _bounded_uint_Ok in Hs as [-> _]. res_inv. injection H as <-.
    split; [by apply ljust_Ok | by rewrite (proj2 (ljust_Ok _ _ G0))].
  - injection H as <-. split; [apply image_raw | done].
Qed.

Section building.
Context (source : string → option bytes).

(** The item [value] of the template, with what became of it. *)
Record built (po : option Z) (value : pyval) (row : list (string * pyval) * (string * bytes)) (item : list (string * pyval))
    (raw : bytes) : Prop := {
  bu_item : value = PDict item;
  bu_file : dict_get "file" item = PStr (fst (snd row));
  bu_source : source (fst (snd row)) = Some raw;
  bu_bound : zlen raw ≤ MAX_COMPONENT_BYTES;
  bu_data : erased_to_end po item raw = Ok (snd (snd row));
  bu_fields : fst row = dict_set "sha256" (PStr (sha256_hex (snd (snd row))))
                          (dict_set "size" (PInt (zlen (snd (snd row)))) item);
}.
Lemma build_item_Ok po cd value row : build_item source po cd value = Ok row →
  (∃ item raw, built po value row item raw) ∧ has_key (fst (snd row)) cd = false.
Proof.
  unfold build_item. destruct value as [| | | | | |item]; try discriminate. intros H.
  bind H as name Hname. apply _safe_member_name_Ok in Hname as [Hname _]. guard H as Gdup.
  destruct (source name) as [raw|] eqn:Hsource; [| discriminate]. guard H as Gsize. bind H as data Hdata.
  injection H as <-. apply orb_false_iff in Gsize as [_ Gsize]. split; [| done].
  exists item, raw. split; cbn; try done. lia.
Qed.
Lemma build_items_Ok po values : ∀ cd items cd', build_items source po cd values = Ok (items, cd') →
  NoDup (keys cd) → ∃ rows, Forall2 (λ v row, ∃ item raw, built po v row item raw) values rows
    ∧ items = map (λ row, PDict (fst row)) rows ∧ cd' = cd ++ map snd rows ∧ NoDup (keys cd').
Proof.
  induction values as [|v values IH]; intros cd items cd' H Hd; cbn [build_items] in H.
  - injection H as <- <-. exists []. by rewrite app_nil_r.
  - bind H as row Hrow. bind H as y Hy. injection H as <- <-. apply build_item_Ok in Hrow as [Hb Hnew].
    destruct y as [items cd']. cbn [fst snd]. destruct (IH _ _ _ Hy) as (rows & Hall & -> & -> & Hd').
    { unfold keys. rewrite map_app. apply NoDup_app. split_and!; [done | | apply NoDup_singleton].
      intros x Hx. cbn [map]. rewrite list_elem_of_singleton. intros ->. apply has_key_spec in Hx. congruence. }
    exists (row :: rows). split_and!; [by constructor | done | by rewrite <- app_assoc | done].
Qed.
End building.

(** ** The document *)

Lemma dec_digits_length fuel : ∀ n, zlen (dec_digits fuel n) ≤ Z.of_nat fuel.
Proof.
  induction fuel as [|fuel IH]; intros n; cbn [dec_digits]; [done |]. destruct (n <? 10); [unfold zlen; cbn; lia |].
  rewrite zlen_app. pose proof (IH (n / 10)). change (zlen [48 + n mod 10]) with 1. lia.
Qed.
Lemma short_number n : 0 ≤ n ≤ MAX_COMPONENT_BYTES → json_ok (PInt n).
Proof.
  intros Hn. cbn [json_ok]. rewrite Z.abs_eq by lia. unfold nat_text. etransitivity; [apply dec_digits_length |].
  assert (Z.log2 n ≤ Z.log2 MAX_COMPONENT_BYTES) as Hl by (apply Z.log2_le_mono; lia).
  change (Z.log2 MAX_COMPONENT_BYTES) with 24 in Hl. pose proof (Z.log2_nonneg n). lia.
Qed.

Lemma json_ok_dict d : json_ok (PDict d) ↔ NoDup (keys d) ∧ Forall json_ok (map snd d).
Proof.
  cbn [json_ok]. rewrite !Forall_map. split; intros [Hd Hv]; (split; [exact Hd | exact Hv]).
Qed.
Lemma json_ok_set k v d : json_ok (PDict d) → json_ok v → json_ok (PDict (dict_set k v d)).
Proof. rewrite !json_ok_dict. intros [Hd Hv] Hk. split; [by apply NoDup_set | by apply Forall_set]. Qed.
Lemma json_ok_get k d : json_ok (PDict d) → json_ok (dict_get k d).
Proof.
  intros [_ Hv]%json_ok_dict. unfold dict_get. destruct (dict_lookup k d) as [v|] eqn:E; [| done].
  apply dict_lookup_Some_in, (in_map_elem snd) in E. rewrite Forall_forall in Hv. by apply Hv.
Qed.
Lemma json_ok_items l : Forall json_ok l → json_ok (PList l).
Proof. intros Hl. cbn [json_ok]. by apply Forall_map. Qed.

Lemma complete_ok document items : json_ok (PDict document) → Forall json_ok items →
  json_ok (PDict (complete_document document items)).
Proof.
  intros Hd Hi. pose proof (json_ok_set "components" _ _ Hd (json_ok_items _ Hi)) as Hc.
  unfold complete_document. destruct (table_sha256 items) as [layout|] eqn:Et; [| exact Hc]. apply json_ok_set; [exact Hc |].
  unfold table_sha256 in Et. destruct (List.filter _ items) as [|x l] eqn:Ef; [done |].
  destruct x as [| | | | | |item]; try discriminate. injection Et as <-. apply json_ok_get.
  rewrite Forall_forall in Hi. apply Hi, list_elem_of_In.
  apply (proj1 (filter_In (item_is "partition_table") (PDict item) items)). rewrite Ef. by left.
Qed.

Lemma strict_loop_distinct pairs : ∀ result, NoDup (keys (result ++ pairs)) →
  strict_object_loop pairs result = Ok (result ++ pairs).
Proof.
  induction pairs as [|[k v] pairs IH]; intros result Hd; cbn [strict_object_loop]; [by rewrite app_nil_r |].
  destruct (has_key k result) eqn:Hk.
  - apply has_key_spec in Hk. unfold keys in Hd. rewrite map_app in Hd. apply NoDup_app in Hd as (_ & Hd & _).
    destruct (Hd k Hk). by left.
  - rewrite IH; by rewrite <- app_assoc.
Qed.
Lemma parse_canonical d data : json_ok (PDict d) → canonical_json (PDict d) = Ok data →
  parse_manifest data = Ok (PDict (sorted_dict d)).
Proof.
  intros Hd Hdata. unfold canonical_json, encode_utf8 in Hdata. destruct (utf8_valid _) eqn:Hv; [| discriminate].
  assert (data = str_encode (json_dumps (sorted_json (PDict d)))) as -> by congruence.
  unfold parse_manifest. rewrite (utf8_decode_valid _ Hv).
  change (Ok ?t ≫= ?f) with (f t). cbv beta. rewrite bytes_str_encode, json_roundtrip_hook.
  - done.
  - intros e He. unfold _strict_object. by rewrite (strict_loop_distinct e []).
  - by apply json_ok_sorted.
Qed.

Lemma prepare_Ok source manifest document component_data : prepare source manifest = Ok (document, component_data) →
  ∃ values po rows, dict_get "components" manifest = PList values
    ∧ Forall2 (λ v row, ∃ item raw, built source po v row item raw) values rows
    ∧ document = complete_document manifest (map (λ row, PDict (fst row)) rows)
    ∧ component_data = map snd rows ∧ NoDup (keys component_data).
Proof.
  unfold prepare, json_copy. destruct (printable (PDict manifest)); [| discriminate]. intros H.
  bind H as d Hd. injection Hd as <-. bind H as d' Hd'. injection Hd' as <-.
  destruct (dict_get "components" manifest) as [| | | | |values|] eqn:Ec; try discriminate.
  destruct values as [|v values]; [discriminate |].
  bind H as po Hpo. bind H as x Hx. destruct x as [items cd]. bind H as u Hu. cbn [fst snd] in *. injection H as <- <-.
  apply build_items_Ok in Hx as (rows & Hall & -> & -> & Hnd); [| constructor].
  by exists (v :: values), po, rows.
Qed.

(** ** Archives *)

(** What is written to an archive is read back from it: its names in order, and
    the data of each, if no name repeats or contains a NUL. *)
Definition zip_reads (write_zip : list (string * bytes) → res bytes) (open_zip : bytes → res ZipFile) : Prop :=
  ∀ files data archive, write_zip files = Ok data → open_zip data = Ok archive →
    Forall (λ file, 0 ∉ str_encode (fst file)) files →
    map zi_filename (infolist archive) = map fst files
    ∧ (NoDup (map fst files) → ∀ info file, info ∈ infolist archive → file ∈ files → zi_filename info = fst file →
       archive_read archive info = Ok (snd file)).
(** No file of the operating system has a NUL in its name. *)
Definition file_names (source : string → option bytes) : Prop :=
  ∀ name data, source name = Some data → 0 ∉ str_encode name.

Lemma archive_files_elem m sig cd file : file ∈ archive_files m sig cd ↔
  file = (MANIFEST_NAME, m) ∨ (sig ≠ [] ∧ file = (SIGNATURE_NAME, sig)) ∨ file ∈ cd.
Proof.
  unfold archive_files. rewrite elem_of_cons, elem_of_app, merge_sort_Permutation.
  destruct sig; cbn [is_nil]; [| rewrite list_elem_of_singleton]; set_solver.
Qed.
(** A member that is found in the archive has the data it was written with. *)
Lemma member_read archive members files name info data :
  _archive_members archive = Ok members → map zi_filename (infolist archive) = map fst files →
  (NoDup (map fst files) → ∀ info file, info ∈ infolist archive → file ∈ files → zi_filename info = fst file →
     archive_read archive info = Ok (snd file)) →
  dict_lookup name members = Some info → (name, data) ∈ files → archive_read archive info = Ok data.
Proof.
  intros Hm Hnames Hread Hinfo Hin. apply _archive_members_Ok in Hm as (-> & Hnd & _).
  apply dict_lookup_Some_in, list_elem_of_fmap in Hinfo as (i & [= -> <-] & Hi).
  apply (Hread ltac:(by rewrite <- Hnames; unfold keys in Hnd; rewrite map_map in Hnd) info (zi_filename info, data)); done.
Qed.

(** ** From the template to the loaded bundle *)

Lemma describes_template item size sha c : NoDup (keys item) →
  describes (sorted_dict (dict_set "sha256" sha (dict_set "size" size item))) c → describes item c.
Proof.
  intros Hd [Hid Hkind Hflags Hoffset Hfile].
  assert (Hd' : NoDup (keys (dict_set "sha256" sha (dict_set "size" size item)))) by (by apply NoDup_set, NoDup_set).
  assert (Hget : ∀ k w, hashable w = true → k ≠ "sha256"%string → k ≠ "size"%string →
    dict_get k (sorted_dict (dict_set "sha256" sha (dict_set "size" size item))) = w → dict_get k item = w).
  { intros k w Hw H1 H2 H. rewrite sorted_get in H by done. apply sorted_scalar in H; [| done].
    rewrite !dict_get_set in H. destruct (String.eqb_spec "sha256" k), (String.eqb_spec "size" k); congruence. }
  split; try (apply Hget; [reflexivity | discriminate | discriminate | assumption]).
  rewrite sorted_lookup, !dict_lookup_set in Hflags by done. cbn [String.eqb Ascii.eqb] in Hflags.
  change (String.eqb "sha256" "flags") with false in Hflags. change (String.eqb "size" "flags") with false in Hflags.
  cbv iota in Hflags. destruct (dict_lookup "flags" item) as [v|]; [| done]. by apply sorted_scalar.
Qed.

Lemma complete_get k document items : k ≠ "components"%string → k ≠ "target_layout_sha256"%string →
  dict_get k (complete_document document items) = dict_get k document.
Proof.
  intros Hc Ht. unfold complete_document.
  destruct (table_sha256 items); rewrite !dict_get_set;
    repeat match goal with |- context [String.eqb ?a k] => destruct (String.eqb_spec a k); [congruence |] end; done.
Qed.
Lemma complete_components document items : dict_get "components" (complete_document document items) = PList items.
Proof. unfold complete_document. by destruct (table_sha256 items); rewrite !dict_get_set. Qed.

Lemma manifest_target_fields m chip flash : manifest_target m = Ok (chip, flash) → ∃ t, dict_get "target" m = PDict t
  ∧ dict_get "chip_id" t = PInt chip ∧ dict_get "flash_size" t = PInt flash.
Proof.
  unfold manifest_target. intros H. bind H as t Ht. bind H as u Hu. bind H as c Hc. bind H as f Hf. res_inv.
  injection H as <- <-. apply _bounded_uint_Ok in Hc as [Hc _], Hf as [Hf _]. exists t. split_and!; [| done | done].
  unfold _mapping in Ht. destruct (dict_get "target" m); try discriminate. by injection Ht as ->.
Qed.
Lemma target_sorted document chip flash : json_ok (PDict document) →
  manifest_target (sorted_dict document) = Ok (chip, flash) → ∃ t, dict_get "target" document = PDict t
  ∧ dict_get "chip_id" t = PInt chip ∧ dict_get "flash_size" t = PInt flash.
Proof.
  intros Hok (t' & Ht & Hc & Hf)%manifest_target_fields. pose proof (json_ok_get "target" _ Hok) as Htok.
  apply json_ok_dict in Hok as [Hd _]. rewrite sorted_get in Ht by done.
  destruct (dict_get "target" document) as [| | | | | |t]; try discriminate. cbn [sorted_json] in Ht. fold (sorted_dict t) in Ht.
  injection Ht as <-. apply json_ok_dict in Htok as [Htd _]. rewrite sorted_get in Hc, Hf by done.
  exists t. split_and!; [done | by apply sorted_scalar in Hc | by apply sorted_scalar in Hf].
Qed.

(** A component of the bundle delivers an item of the template. *)
Definition delivers (source : string → option bytes) (value : pyval) (c : SystemUpdateComponent) : Prop :=
  ∃ item raw, value = PDict item ∧ describes item c ∧ source (cp_filename c) = Some raw
    ∧ flash_image item (cp_kind c) raw (cp_data c).

Lemma row_delivered source po value row archive members (files : list (string * bytes)) c :
  (∃ item raw, built source po value row item raw) → (∀ item, value = PDict item → NoDup (keys item)) →
  read_as archive members (PDict (sorted_dict (fst row))) c →
  (∀ name info data, dict_lookup name members = Some info → (name, data) ∈ files → archive_read archive info = Ok data) →
  snd row ∈ files → delivers source value c.
Proof.
  intros (item & raw & Hb) Hd (item' & info & [= <-] & Hdesc & Hinfo & Hread) Hfiles Hrow.
  destruct Hb as [-> Hfile Hsource Hbound Hdata Hfields]. specialize (Hd item eq_refl).
  rewrite Hfields in Hdesc. apply describes_template in Hdesc; [| done].
  assert (fst (snd row) = cp_filename c) as Hname by (pose proof (de_file _ _ Hdesc); congruence).
  assert (snd (snd row) = cp_data c) as Hcd.
  { specialize (Hfiles (cp_filename c) info (snd (snd row)) Hinfo). rewrite <- Hname in Hfiles.
    rewrite <- surjective_pairing in Hfiles. rewrite Hread in Hfiles. by injection (Hfiles Hrow). }
  exists item, raw. split_and!; [done | done | congruence |]. rewrite <- Hcd.
  eapply erased_image; [apply (de_kind _ _ Hdesc) | exact Hdata].
Qed.
Lemma rows_delivered source po archive members (files : list (string * bytes)) values rows :
  Forall2 (λ v row, ∃ item raw, built source po v row item raw) values rows → Forall json_ok values →
  (∀ name info data, dict_lookup name members = Some info → (name, data) ∈ files → archive_read archive info = Ok data) →
  ∀ cs, Forall2 (read_as archive members) (map (λ row, PDict (sorted_dict (fst row))) rows) cs →
  (∀ file, file ∈ map snd rows → file ∈ files) → Forall2 (delivers source) values cs.
Proof.
  intros Hrows Hok Hread. induction Hrows as [|v row values rows Hb _ IH]; intros cs Hcs Hin; cbn [map] in Hcs.
  - apply Forall2_nil_inv_l in Hcs as ->. constructor.
  - apply Forall2_cons_inv_l in Hcs as (c & cs' & Hc & Hcs & ->). apply Forall_cons in Hok as [Hv Hok].
    constructor; [| apply (IH Hok); [done |]; intros file Hf; apply Hin; by right].
    eapply row_delivered; [exact Hb | | exact Hc | exact Hread | apply Hin; by left].
    intros item ->. by apply json_ok_dict in Hv as [Hd _].
Qed.
Lemma rows_ok source po values rows : Forall2 (λ v row, ∃ item raw, built source po v row item raw) values rows →
  Forall json_ok values → Forall json_ok (map (λ row, PDict (fst row)) rows)
  ∧ ∀ file, file ∈ map snd rows → ∃ raw, source (fst file) = Some raw.
Proof.
  induction 1 as [|v row values rows (item & raw & Hb) _ IH]; intros Hok.
  { split; [constructor | by intros file ?%elem_of_nil]. }
  apply Forall_cons in Hok as [Hv Hok]. destruct (IH Hok) as [Hall Hfiles]. destruct Hb as [-> _ Hs Hbound Hdata Hf]. split.
  - constructor; [| exact Hall]. rewrite Hf. apply json_ok_set; [| done]. apply json_ok_set; [done |].
    apply short_number. split; [apply zlen_nonneg | by eapply erased_bound].
  - intros file. cbn [map]. rewrite elem_of_cons. intros [-> |]; [by exists raw | by apply Hfiles].
Qed.

Section delivery.
Context (source : string → option bytes).
Context (write_zip : list (string * bytes) → res bytes) (open_zip : bytes → res ZipFile).
Context {private_key public_key : Type} (load_pem_private_key : bytes → option bytes → res (pem_key private_key))
  (sign : private_key → bytes → bytes) (public_bytes : private_key → bytes).
Context (load_pem_public_key : bytes → res (pem_key public_key)) (verify : public_key → bytes → bytes → res ()).
Abbreviation build := (build_system_update_bundle source write_zip open_zip load_pem_private_key sign public_bytes
  load_pem_public_key verify).
Abbreviation load := (load_system_update_bundle open_zip load_pem_public_key verify).

Lemma load_path data pem b : load (SourcePath (Some data)) pem = Ok b → load (SourceBytes data) pem = Ok b
  ∧ ∃ archive key, open_zip data = Ok archive ∧ load_archive verify archive key = Ok b ∧ (key = None ↔ pem = None).
Proof.
  unfold load_system_update_bundle, read_source. destruct (MAX_BUNDLE_BYTES <? zlen data); [discriminate |].
  intros H. split; [exact H |]. bind H as d Hd. injection Hd as <-. bind H as key Hkey. bind H as archive Ha.
  apply reraise_Ok in Ha. exists archive, key. split_and!; [done | done |].
  destruct pem; [bind Hkey as k Hk |]; by injection Hkey as <-.
Qed.

Lemma signed_key document mb key password k sig :
  signed load_pem_private_key sign document mb key password = Ok (k, sig) → (k = None ↔ key = None).
Proof.
  unfold signed. destruct key as [pem|]; intros H.
  - guard H as G. bind H as k' Hk. by injection H as <- <-.
  - guard H as G. guard H as G'. by injection H as <- <-.
Qed.

(** The template's document and the members that were packed. *)
Lemma build_Ok manifest key password archive pem : build manifest key password = Ok (archive, pem) →
  ∃ document cd mb sig b, prepare source manifest = Ok (document, cd) ∧ canonical_json (PDict document) = Ok mb
    ∧ write_zip (archive_files mb sig cd) = Ok archive ∧ load (SourcePath (Some archive)) pem = Ok b
    ∧ (pem = None ↔ key = None).
Proof.
  unfold build_system_update_bundle. intros H. bind H as x Hx. destruct x as [document cd]. bind H as mb Hmb.
  guard H as G. bind H as y Hy. destruct y as [k sig]. apply signed_key in Hy. bind H as a Ha. bind H as b Hb.
  injection H as <- <-. exists document, cd, mb, sig, b. split_and!; try done. rewrite <- Hy. by destruct k.
Qed.

Lemma archive_names mb sig cd : file_names source → (∀ file, file ∈ cd → ∃ raw, source (fst file) = Some raw) →
  Forall (λ file, 0 ∉ str_encode (fst file)) (archive_files mb sig cd).
Proof.
  intros Hnames Hcd. apply Forall_forall. intros file [-> | [[_ ->] | Hin]]%archive_files_elem; cbn [fst].
  - by_decide.
  - by_decide.
  - destruct (Hcd _ Hin) as [raw Hraw]. by eapply Hnames.
Qed.
End delivery.

(** C21: a built bundle loads as what its template asked for.  If the builder
    returns an archive, the loader accepts it with the key it was signed for,
    and exactly then as verified.  Its components are the items of the template
    in order, with their id, kind, flags and offset, and the data of each is its
    source file followed by erased bytes: to the end of the sector for a
    partition table, to the protected size of the template for a recovery
    image, nothing for applications and data.  The target is the template's.
    This needs an archive library that reads back what it wrote, files without
    NUL in their names, and a template that is a JSON document. *)
Theorem build_delivers_template source write_zip open_zip {private_key public_key} load_pem_private_key
    (sign : private_key → bytes → bytes) public_bytes load_pem_public_key (verify : public_key → bytes → bytes → res ())
    manifest key password archive pem :
  zip_reads write_zip open_zip → file_names source → json_ok (PDict manifest) →
  build_system_update_bundle source write_zip open_zip load_pem_private_key sign public_bytes load_pem_public_key verify
    manifest key password = Ok (archive, pem) →
  ∃ bundle values target,
    load_system_update_bundle open_zip load_pem_public_key verify (SourceBytes archive) pem = Ok bundle
    ∧ (bd_signature_verified bundle = true ↔ is_Some key)
    ∧ dict_get "components" manifest = PList values ∧ Forall2 (delivers source) values (bd_components bundle)
    ∧ dict_get "target" manifest = PDict target
    ∧ dict_get "chip_id" target = PInt (bd_chip_id bundle) ∧ dict_get "flash_size" target = PInt (bd_flash_size bundle).
Proof.
  intros Hzip Hnames Hok Hbuild. pose proof Hok as [Hmk Hmv]%json_ok_dict.
  apply build_Ok in Hbuild as (document & cd & mb & sig & b & Hprep & Hmb & Harchive & Hload & Hpem).
  apply prepare_Ok in Hprep as (values & po & rows & Hvalues & Hrows & -> & -> & Hnd).
  assert (Hitems : Forall json_ok values).
  { pose proof (json_ok_get "components" _ Hok) as Hc. rewrite Hvalues in Hc. apply Forall_forall. intros x Hx.
    by apply (json_ok_elem x values). }
  destruct (rows_ok _ _ _ _ Hrows Hitems) as [Hrowsok Hsources].
  pose proof (complete_ok _ _ Hok Hrowsok) as Hdoc. pose proof Hdoc as [Hdk _]%json_ok_dict.
  destruct (load_path _ _ _ _ _ _ Hload) as [Hbytes (za & k & Hopen & Hla & Hkey)].
  pose proof (load_archive_Ok _ _ _ _ Hla) as (Hbok & _ & Hver & _ & Hpolicy).
  destruct (load_archive_fields _ _ _ _ Hla) as (members & info & values' & Hmem & Hinfo & Hread & Hvalues' & Hcomps & Htarget & _).
  destruct (Hzip _ _ _ Harchive Hopen (archive_names source mb sig _ Hnames Hsources)) as [Hfilenames Hfiles].
  pose proof (λ name i data, member_read za members _ name i data Hmem Hfilenames Hfiles) as Hmember.
  assert (bd_manifest_bytes b = mb) as Hmbeq.
  { specialize (Hmember _ _ mb Hinfo). rewrite Hread in Hmember.
    injection (Hmember (proj2 (archive_files_elem _ _ _ _) (or_introl eq_refl))). done. }
  assert (bd_manifest b = sorted_dict (complete_document manifest (map (λ row, PDict (fst row)) rows))) as Hman.
  { pose proof (bok_manifest _ _ Hbok) as Hp. rewrite Hmbeq, (parse_canonical _ _ Hdoc Hmb) in Hp. congruence. }
  rewrite Hman in Hvalues', Htarget. rewrite sorted_get, complete_components in Hvalues' by done.
  cbn [sorted_json] in Hvalues'. injection Hvalues' as <-. rewrite map_map in Hcomps.
  destruct (target_sorted _ _ _ Hdoc Htarget) as (target & Ht & Hchip & Hflash).
  rewrite complete_get in Ht by done. exists b, values, target. split_and!; try done.
  - rewrite Hver. destruct k as [k|].
    + destruct Hpolicy as [Hne _]. destruct key; [| discriminate (proj2 Hkey (proj2 Hpem eq_refl))].
      destruct (bd_signature b); [done |]. split; [by eexists | done].
    + rewrite Hpolicy. destruct key; [| by split; [| intros [? ?]]].
      destruct Hpem as [Hpem _], Hkey as [Hkey _]. by specialize (Hpem (Hkey eq_refl)).
  - eapply rows_delivered; [exact Hrows | done | exact Hmember | exact Hcomps |].
    intros file Hf. apply archive_files_elem. auto.
Qed.

(** *** A toy archive: every name and file after its length *)

Definition toy_zip (files : list (string * bytes)) : bytes :=
  concat (map (λ file, zlen (str_encode (fst file)) :: str_encode (fst file) ++ zlen (snd file) :: snd file) files).
Fixpoint toy_files (fuel : nat) (l : bytes) : list (string * bytes) :=
  match fuel, l with
  | S fuel, n :: l =>
    match drop (Z.to_nat n) l with
    | m :: rest => (bytes_str (take (Z.to_nat n) l), take (Z.to_nat m) rest) :: toy_files fuel (drop (Z.to_nat m) rest)
    | [] => []
    end
  | _, _ => []
  end.
Definition toy_open (data : bytes) : res ZipFile :=
  let files := toy_files (length data) data in
  Ok {| infolist := map (λ file, {| zi_filename := fst file; zi_flag_bits := 0; zi_compress_type := ZIP_DEFLATED;
                                    zi_file_size := zlen (snd file) |}) files;
        archive_read info := default (raise KeyError "") (Ok <$> dict_lookup (zi_filename info) files) |}.

Lemma toy_files_zip files : ∀ fuel, (length files ≤ fuel)%nat → toy_files fuel (toy_zip files) = files.
Proof.
  induction files as [|[name data] files IH]; intros fuel Hf; [by destruct fuel |].
  destruct fuel as [|fuel]; [cbn in Hf; lia |]. cbn [toy_zip map concat fst snd app toy_files].
  unfold zlen. rewrite !Nat2Z.id, <- !app_assoc, drop_app_length. cbn [app].
  rewrite !Nat2Z.id, !take_app_length, drop_app_length, bytes_str_encode. fold (toy_zip files).
  rewrite IH; [done | cbn in Hf; lia].
Qed.
Lemma toy_zip_length files : (length files ≤ length (toy_zip files))%nat.
Proof. induction files as [|file files IH]; [done |]. unfold toy_zip in *. cbn. rewrite !length_app. lia. Qed.
Lemma toy_zip_reads : zip_reads (λ files, Ok (toy_zip files)) toy_open.
Proof.
  intros files data archive [= <-] [= <-] _. rewrite toy_files_zip by apply toy_zip_length. cbn. split; [by rewrite map_map |].
  intros Hd info [name d] _ Hin ->. cbn. by rewrite (dict_lookup_in name d files Hd Hin).
Qed.

(** A partition table of two bytes and three bytes of data. *)
Definition example_template : list (string * pyval) :=
  [("schema", PStr SYSTEM_UPDATE_SCHEMA);
   ("target", PDict [("flash_size", PInt 4194304); ("chip_id", PInt 32)]);
   ("components", PList [
      PDict [("kind", PStr "partition_table"); ("id", PInt 1); ("target_offset", PInt 0x8000); ("file", PStr "pt.bin")];
      PDict [("kind", PStr "data"); ("id", PInt 2); ("target_offset", PInt 0x9000); ("file", PStr "nvs.bin")]])]%string.
Definition example_source (name : string) : option bytes :=
  if (name =? "pt.bin")%string then Some [1; 2] else if (name =? "nvs.bin")%string then Some [3; 4; 5] else None.
Abbreviation example_build := (build_system_update_bundle example_source (λ files, Ok (toy_zip files)) toy_open
  (λ pem _, Ok (P256Key pem)) (λ _ _, []) id (λ pem, Ok (P256Key pem)) toy_verify example_template None None).

(** A concrete document has a JSON text. *)
Local Ltac json :=
  lazymatch goal with
  | |- json_ok (PDict _) => apply json_ok_dict; split; [by_decide | cbn [map snd]; json]
  | |- json_ok (PList _) => apply json_ok_items; json
  | |- Forall _ [] => constructor
  | |- Forall _ (_ :: _) => constructor; [json | json]
  | |- json_ok (PInt _) => vm_compute; discriminate
  | |- _ => exact I
  end.
Lemma example_template_ok : json_ok (PDict example_template).
Proof. unfold example_template. json. Qed.
Lemma example_source_names : file_names example_source.
Proof.
  intros name data. unfold example_source. destruct (String.eqb_spec name "pt.bin") as [-> |]; [intros _; by_decide |].
  destruct (String.eqb_spec name "nvs.bin") as [-> |]; [intros _; by_decide | done].
Qed.
Lemma example_build_ok : is_ok example_build = true.
Proof. vm_compute. reflexivity. Qed.

Definition example_values : list pyval :=
  match dict_get "components" example_template with PList l => l | _ => [] end.
Lemma build_delivers_template_witness : ∃ archive pem bundle,
  example_build = Ok (archive, pem)
  ∧ load_system_update_bundle toy_open (λ pem, Ok (P256Key pem)) toy_verify (SourceBytes archive) pem = Ok bundle
  ∧ Forall2 (delivers example_source) example_values (bd_components bundle).
Proof.
  pose proof example_build_ok as Hok. destruct example_build as [[archive pem]|e] eqn:H; [| discriminate Hok].
  destruct (build_delivers_template example_source (λ files, Ok (toy_zip files)) toy_open (λ pem _, Ok (P256Key pem))
    (λ _ _, []) id (λ pem, Ok (P256Key pem)) toy_verify example_template None None archive pem
    toy_zip_reads example_source_names example_template_ok H) as (b & values & target & Hload & _ & Hvalues & Hall & _).
  exists archive, pem, b. split; [reflexivity |]. split; [exact Hload |].
  unfold example_values. rewrite Hvalues. exact Hall.
Defined.
