(* ===== verification/SystemUpdateTransport.v ===== *)
(** * System-update transactions ([system_update_transport.py])

    The transfer and commit of a bundle over an established session, with the
    status queries that reconcile timed-out requests. *)
From S2P Require Import Prelude Enums Text Protocol Effects Io Device SystemUpdate.

(** [SYSTEM_UPDATE_REQUEST_TIMEOUT], in milliseconds. *)
Definition SYSTEM_UPDATE_REQUEST_TIMEOUT : Z := 60000.

(** ** Status and inventory *)

Record update_status := {
  us_operation_id : string;
  us_job_id : Z;
  us_phase : string;
  us_phase_id : Z;
  us_component_count : Z;
  us_completed_components : Z;
  us_active_component_id : Z;
  us_bytes_received : Z;
  us_bytes_total : Z;
  us_result : Z;
}.

Definition phase_name (phase : Z) : option string :=
  match phase with
  | 0 => Some "idle" | 1 => Some "prepared" | 2 => Some "receiving"
  | 3 => Some "component_verified" | 4 => Some "committing" | 5 => Some "committed"
  | 6 => Some "cancelled" | 7 => Some "failed" | _ => None
  end%string.

Definition decode_system_update_status (payload : bytes) : res update_status :=
  if negb (zlen payload =? 36) then raise ProtocolError "invalid system-update status response"
  else
    let operation_id := slice 0 16 payload in
    let job_id := u32_at payload 16 in
    let phase := byte_at payload 20 in
    let component_count := byte_at payload 21 in
    let completed_components := byte_at payload 22 in
    let active_component_id := byte_at payload 23 in
    let received := u32_at payload 24 in
    let total := u32_at payload 28 in
    let result := i32_at payload 32 in
    match phase_name phase with
    | None => raise ProtocolError "invalid system-update status fields"
    | Some name =>
      if component_count <? completed_components
      then raise ProtocolError "invalid system-update status fields"
      else Ok {| us_operation_id := hex operation_id; us_job_id := job_id; us_phase := name;
                 us_phase_id := phase; us_component_count := component_count;
                 us_completed_components := completed_components;
                 us_active_component_id := active_component_id;
                 us_bytes_received := received; us_bytes_total := total;
                 us_result := result |}
    end.

(** [request(Channel.SYSTEM_UPDATE, type, payload, timeout)] *)
Definition update_request (type : SystemUpdateType.SystemUpdateType_t) (payload : bytes)
    (timeout : Z) : request :=
  Request Channel.SYSTEM_UPDATE type payload timeout 0.

Definition system_update_status (timeout : Z) : M update_status :=
  frame ← send_request (update_request SystemUpdateType.STATUS [] timeout);
  if negb (fr_type frame =? SystemUpdateType.STATUS_RESPONSE)
  then throw ProtocolError "unexpected system-update status response"
  else lift (decode_system_update_status (fr_payload frame)).

Record update_inventory := {
  ui_flags : Z;
  ui_layout_version : Z;
  ui_bootloader_sha256 : string;
  ui_partition_table_sha256 : string;
  ui_last_operation_id : string;
  ui_last_result : Z;
}.

(** [ready]: what [await wait_ready(timeout)] gives, the capabilities of the
    device or an exception. *)
Definition system_update_inventory (ready : res Z) (timeout : Z) : M update_inventory :=
  capabilities ← lift ready;
  if Z.land capabilities Capability.SYSTEM_INVENTORY =? 0
  then throw RuntimeError "device does not advertise system-inventory support"
  else
    frame ← send_request (update_request SystemUpdateType.INVENTORY [] timeout);
    let p := fr_payload frame in
    if negb (fr_type frame =? SystemUpdateType.INVENTORY_RESPONSE) || negb (zlen p =? 92)
    then throw ProtocolError "unexpected system-update inventory response"
    else
      let flags := u32_at p 0 in
      mret {| ui_flags := flags; ui_layout_version := u32_at p 4;
              ui_bootloader_sha256 := if Z.testbit flags 0 then hex (slice 8 40 p) else "";
              ui_partition_table_sha256 := if Z.testbit flags 1 then hex (slice 40 72 p) else "";
              ui_last_operation_id := if Z.testbit flags 2 then hex (slice 72 88 p) else "";
              ui_last_result := i32_at p 88 |}.

(** ** The transaction *)

Record update_result := {
  ur_operation_id : string;
  ur_job_id : Z;
  ur_manifest_sha256 : string;
  ur_target_layout_sha256 : string;
  ur_components : list SystemUpdateComponent;
  ur_bytes : Z;
  ur_restart_required : bool;
  ur_completion_evidence : string;
}.

(** The values fixed for the whole transaction. *)
Record update_context := {
  uc_identifier : bytes;
  uc_timeout : Z;
  uc_callback : bool;
  uc_job_id : Z;
  uc_chunk_size : Z;
  uc_component_count : Z;
  uc_total : Z;
}.

(** The BEGIN payload. *)
Definition begin_message (identifier : bytes) (bundle : SystemUpdateBundle) : res bytes :=
  m ← pack_uint 2 (zlen (bd_manifest_bytes bundle));
  s ← pack_uint 2 (zlen (bd_signature bundle));
  c ← pack_uint 1 (zlen (bd_components bundle));
  Ok (identifier ++ (m ++ s ++ c ++ [0] ++ [0; 0]) ++ bd_manifest_sha256 bundle
      ++ bd_manifest_bytes bundle ++ bd_signature bundle).

(** Lines 147-165: BEGIN, sent once more when it timed out and the device
    reports this very update as prepared. *)
Definition send_begin (identifier begin : bytes) (count timeout : Z) : M Frame :=
  let request := update_request SystemUpdateType.BEGIN begin timeout in
  try_except (send_request request) [TimeoutError] (λ _,
    status ← system_update_status timeout;
    if negb (us_operation_id status =? hex identifier)%string
       || negb (us_phase status =? "prepared")%string
       || negb (us_completed_components status =? 0)
       || negb (us_active_component_id status =? 0)
       || negb (us_component_count status =? count)
    then throw TimeoutError "system-update begin timeout"
    else send_request request).

(** Lines 166-177: the job id, chunk size and component count of the reply. *)
Definition check_begin (identifier : bytes) (count : Z) (frame : Frame) : res (Z * Z * Z) :=
  let p := fr_payload frame in
  if negb (fr_type frame =? SystemUpdateType.BEGIN_RESPONSE) || negb (zlen p =? 24)
  then raise ProtocolError "unexpected system-update begin response"
  else
    let job_id := u32_at p 16 in
    let chunk_size := u16_at p 20 in
    let component_count := byte_at p 22 in
    if negb (bool_decide (slice 0 16 p = identifier)) || (job_id =? 0) || (chunk_size =? 0)
       || negb (component_count =? count)
    then raise ProtocolError "invalid system-update begin response"
    else Ok (job_id, chunk_size, component_count).

Section transaction.
Context (uc : update_context).

Definition component_descriptor (c : SystemUpdateComponent) : res bytes :=
  id ← byte_of (cp_id c);
  kind ← byte_of (kind_value (cp_kind c));
  flags ← pack_uint 2 (cp_flags c);
  offset ← pack_uint 4 (cp_target_offset c);
  size ← pack_uint 4 (cp_size c);
  Ok (uc_identifier uc ++ (id ++ kind) ++ (flags ++ offset ++ size) ++ cp_sha256 c).

(** Lines 198-211: the chunk size both sides accept. *)
Definition check_opened (c : SystemUpdateComponent) (opened : Frame) : res Z :=
  let p := fr_payload opened in
  if negb (fr_type opened =? SystemUpdateType.COMPONENT_BEGIN_RESPONSE) || negb (zlen p =? 24)
     || negb (bool_decide (slice 0 16 p = uc_identifier uc))
     || negb (byte_at p 16 =? cp_id c) || negb (byte_at p 17 =? kind_value (cp_kind c))
  then raise ProtocolError "invalid system-update component response"
  else
    let accepted_chunk := u16_at p 18 in
    let accepted_size := u32_at p 20 in
    if (accepted_chunk =? 0) || negb (accepted_size =? cp_size c)
    then raise ProtocolError "device rejected system-update component bounds"
    else Ok (Z.min (uc_chunk_size uc) accepted_chunk).

Definition data_message (c : SystemUpdateComponent) (offset : Z) (chunk : bytes) : res bytes :=
  id ← byte_of (cp_id c);
  o ← pack_uint 4 offset;
  Ok (uc_identifier uc ++ (id ++ [0]) ++ [0; 0] ++ o ++ chunk).

(** Lines 230-245: the offset at which to go on after a timed-out chunk. *)
Definition reconcile_data (c : SystemUpdateComponent) (offset len : Z) : M Z :=
  status ← system_update_status (uc_timeout uc);
  if negb (us_operation_id status =? hex (uc_identifier uc))%string
     || negb (us_active_component_id status =? cp_id c)
     || negb (us_phase status =? "receiving")%string
  then throw TimeoutError "system-update data timeout"
  else
    let received := us_bytes_received status in
    if negb ((received =? offset) || (received =? offset + len))
    then throw ProtocolError "system update resumed at unexpected offset"
    else mret received.

(** Lines 247-260: the progress and offset of an acknowledged chunk. *)
Definition check_data (c : SystemUpdateComponent) (offset len : Z) (response : Frame) : res (Z * Z) :=
  let p := fr_payload response in
  if negb (fr_type response =? SystemUpdateType.DATA_RESPONSE) || negb (zlen p =? 24)
     || negb (bool_decide (slice 0 16 p = uc_identifier uc))
     || negb (byte_at p 16 =? cp_id c) || negb (byte_at p 17 =? 0)
  then raise ProtocolError "invalid system-update data response"
  else
    let progress := u16_at p 18 in
    let received := u32_at p 20 in
    if negb (received =? offset + len)
    then raise ProtocolError "invalid system-update committed offset"
    else Ok (progress, received).

(** One round of [while offset < component.size]. *)
Definition data_round (c : SystemUpdateComponent) (index transferred effective_chunk offset : Z)
    : M Z :=
  let chunk := slice offset (offset + effective_chunk) (cp_data c) in
  message ← lift (data_message c offset chunk);
  response ← try_except
    (f ← send_request (update_request SystemUpdateType.DATA message (uc_timeout uc));
     mret (inl f))
    [TimeoutError]
    (λ _, received ← reconcile_data c offset (zlen chunk); mret (inr received));
  match response with
  | inr received => mret received
  | inl response =>
    '(progress, received) ← lift (check_data c offset (zlen chunk) response);
    _ ← report (uc_callback uc) {|
      pg_stage := "transferring"; pg_job_id := Some (uc_job_id uc);
      pg_operation_id := hex (uc_identifier uc);
      pg_component := Some (cp_id c, kind_name (cp_kind c), index, uc_component_count uc);
      pg_bytes_received := transferred + received; pg_bytes_total := uc_total uc;
      pg_permille := progress; pg_partition := "" |};
    mret received
  end.

Definition check_ended (c : SystemUpdateComponent) (index : Z) (ended : Frame) : res () :=
  let p := fr_payload ended in
  raise_if (negb (fr_type ended =? SystemUpdateType.COMPONENT_END_RESPONSE) || negb (zlen p =? 24)
    || negb (bool_decide (slice 0 16 p = uc_identifier uc))
    || negb (byte_at p 16 =? cp_id c) || negb (byte_at p 17 =? index + 1)
    || negb (i32_at p 20 =? 0))
    ProtocolError "invalid system-update component completion".

(** One iteration of [for component_index, component in enumerate(...)]. *)
Definition send_component (index transferred : Z) (c : SystemUpdateComponent) : M Z :=
  descriptor ← lift (component_descriptor c);
  opened ← send_request (update_request SystemUpdateType.COMPONENT_BEGIN descriptor (uc_timeout uc));
  effective_chunk ← lift (check_opened c opened);
  _ ← while (λ offset, offset <? cp_size c)
        (data_round c index transferred effective_chunk) 0;
  id ← lift (byte_of (cp_id c));
  ended ← send_request (update_request SystemUpdateType.COMPONENT_END
    (uc_identifier uc ++ id ++ [0; 0; 0]) (uc_timeout uc));
  _ ← lift (check_ended c index ended);
  mret (transferred + cp_size c).

Fixpoint send_components (index transferred : Z) (cs : list SystemUpdateComponent) : M Z :=
  match cs with
  | [] => mret transferred
  | c :: cs =>
    transferred ← send_component index transferred c;
    send_components (index + 1) transferred cs
  end.

(** Lines 303-324: the COMMIT reply, or [None] with other evidence. *)
Definition send_commit : M (option Frame * string) :=
  try_except
    (f ← send_request (update_request SystemUpdateType.COMMIT (uc_identifier uc) (uc_timeout uc));
     mret (Some f, "commit_response"%string))
    [TimeoutError; ConnectionError; OSError]
    (λ e,
      if catches [TimeoutError] e then
        status ← system_update_status (uc_timeout uc);
        if negb (us_operation_id status =? hex (uc_identifier uc))%string
           || negb (us_phase status =? "committed")%string
           || negb (us_result status =? 0)
        then throw TimeoutError "system-update commit timeout"
        else mret (None, "device_status"%string)
      else mret (None, "session_close"%string)).

(** The guarded part, lines 182-324. *)
Definition transfer (cs : list SystemUpdateComponent) : M (Z * (option Frame * string)) :=
  transferred ← send_components 0 0 cs;
  _ ← report (uc_callback uc) {|
    pg_stage := "committing"; pg_job_id := Some (uc_job_id uc);
    pg_operation_id := hex (uc_identifier uc); pg_component := None;
    pg_bytes_received := transferred; pg_bytes_total := uc_total uc;
    pg_permille := 950; pg_partition := "" |};
  committed ← send_commit;
  mret (transferred, committed).

Definition cancel_update : M () :=
  suppress (send_request (update_request SystemUpdateType.CANCEL (uc_identifier uc) (uc_timeout uc))).

Definition check_committed (committed : Frame) : res () :=
  let p := fr_payload committed in
  if negb (fr_type committed =? SystemUpdateType.COMMIT_RESPONSE) || negb (zlen p =? 24)
     || negb (bool_decide (slice 0 16 p = uc_identifier uc))
  then raise ProtocolError "invalid system-update commit response"
  else
    raise_if (negb (u32_at p 16 =? uc_job_id uc) || negb (i32_at p 20 =? 0))
      RuntimeError "system update failed with device error".
End transaction.

(** [operation_id or secrets.token_bytes(16)] *)
Definition update_identifier (operation_id : option bytes) (random : bytes) : bytes :=
  match operation_id with
  | Some id => if is_nil id then random else id
  | None => random
  end.

Definition perform_system_update (ready : res Z) (bundle : SystemUpdateBundle)
    (operation_id : option bytes) (random : bytes) (timeout : Z) (callback : bool)
    : M update_result :=
  capabilities ← lift ready;
  if Z.land capabilities Capability.SYSTEM_UPDATE =? 0
  then throw RuntimeError "device does not advertise system-update support"
  else
    let identifier := update_identifier operation_id random in
    if negb (zlen identifier =? 16) || bool_decide (identifier = repeat 0 16)
    then throw ValueError "system-update operation ID must be 16 non-zero bytes"
    else if (0xFFFF <? zlen (bd_manifest_bytes bundle)) || (0xFFFF <? zlen (bd_signature bundle))
    then throw ValueError "system-update manifest or signature is too large"
    else
      let components := bd_components bundle in
      begin ← lift (begin_message identifier bundle);
      frame ← send_begin identifier begin (zlen components) timeout;
      '(job_id, chunk_size, component_count) ← lift (check_begin identifier (zlen components) frame);
      let total_bundle_bytes := foldr (λ c n, cp_size c + n) 0 components in
      let uc := {| uc_identifier := identifier; uc_timeout := timeout; uc_callback := callback;
                   uc_job_id := job_id; uc_chunk_size := chunk_size;
                   uc_component_count := component_count; uc_total := total_bundle_bytes |} in
      '(transferred, (committed, evidence)) ← on_error (transfer uc components) (cancel_update uc);
      _ ← match committed with
          | Some f => lift (check_committed uc f)
          | None => mret ()
          end;
      mret {| ur_operation_id := hex identifier; ur_job_id := job_id;
              ur_manifest_sha256 := hex (bd_manifest_sha256 bundle);
              ur_target_layout_sha256 := bd_target_layout_sha256 bundle;
              ur_components := components; ur_bytes := transferred;
              ur_restart_required := true; ur_completion_evidence := evidence |}.

(** ** The device

    What the transaction relies on: a device that accepts a chunk only at the
    end of what it has stored for the open component, reports what it stored
    truthfully, and closes a component by keeping what it stored. *)
Class UpdateDevice {D : Type} (handles : D → request → D → Frame → Prop)
    (identifier : bytes) := {
  dv_active : D → option Z;
  dv_stored : D → bytes;
  dv_done : D → list (Z * bytes);
  dv_committed : D → bool;
  law_begin : ∀ d m t d' f n r, handles d (update_request SystemUpdateType.BEGIN m t) d' f →
    check_begin identifier n f = Ok r → dv_done d' = [];
  law_component_begin : ∀ uc c d m t d' f n, uc_identifier uc = identifier →
    component_descriptor uc c = Ok m →
    handles d (update_request SystemUpdateType.COMPONENT_BEGIN m t) d' f →
    check_opened uc c f = Ok n →
    dv_done d' = dv_done d ∧ dv_active d' = Some (cp_id c) ∧ dv_stored d' = [];
  law_data : ∀ uc c d m off chunk t d' f, uc_identifier uc = identifier →
    data_message uc c off chunk = Ok m →
    handles d (update_request SystemUpdateType.DATA m t) d' f →
    dv_done d' = dv_done d ∧ dv_active d' = dv_active d
    ∧ (dv_stored d' = dv_stored d
       ∨ off = zlen (dv_stored d) ∧ dv_stored d' = dv_stored d ++ chunk)
    ∧ ∀ p n, check_data uc c off (zlen chunk) f = Ok (p, n) → n = zlen (dv_stored d');
  law_status : ∀ d t d' f, handles d (update_request SystemUpdateType.STATUS [] t) d' f →
    d' = d ∧ ∀ st, fr_type f = SystemUpdateType.STATUS_RESPONSE →
      decode_system_update_status (fr_payload f) = Ok st →
      us_operation_id st = hex identifier →
      (us_phase st = "receiving"%string → us_bytes_received st = zlen (dv_stored d))
      ∧ (us_phase st = "committed"%string → dv_committed d = true);
  law_component_end : ∀ uc c d t d' f index, uc_identifier uc = identifier →
    handles d (update_request SystemUpdateType.COMPONENT_END
      (identifier ++ [cp_id c] ++ [0; 0; 0]) t) d' f →
    check_ended uc c index f = Ok () → dv_active d = Some (cp_id c) →
    dv_done d' = dv_done d ++ [(cp_id c, dv_stored d)];
  law_commit : ∀ uc d t d' f, uc_identifier uc = identifier →
    handles d (update_request SystemUpdateType.COMMIT identifier t) d' f →
    dv_done d' = dv_done d ∧ (check_committed uc f = Ok () → dv_committed d' = true);
  law_bytes : ∀ d r d' f, handles d r d' f → is_bytes (fr_payload f);
}.

(** ** Chunks *)

Lemma slice_chunk {A} (l : list A) off n :
  0 ≤ off → 0 ≤ n →
  take (Z.to_nat off) l ++ slice off (off + n) l
  = take (Z.to_nat (off + zlen (slice off (off + n) l))) l.
Proof.
  intros Ho Hn. unfold slice, zlen. replace (off + n - off) with n by lia.
  rewrite take_take_drop, Z2Nat.inj_add, Nat2Z.id, length_take, length_drop by lia.
  destruct (decide (Z.to_nat off + Z.to_nat n ≤ length l)%nat).
  - f_equal. lia.
  - rewrite !take_ge; [done | lia | lia].
Qed.

Lemma zlen_chunk_pos {A} (l : list A) off n :
  0 ≤ off < zlen l → 0 < n → 0 < zlen (slice off (off + n) l) ≤ zlen l - off.
Proof. intros. unfold slice, zlen in *. rewrite length_take, length_drop. lia. Qed.

Lemma zlen_take {A} (l : list A) off :
  0 ≤ off ≤ zlen l → zlen (take (Z.to_nat off) l) = off.
Proof. intros. unfold zlen in *. rewrite length_take. lia. Qed.

(** ** Every chunk is delivered once *)

Section delivery.
Context {D : Type} (handles : D → request → D → Frame → Prop) (identifier : bytes).
Context `{!UpdateDevice handles identifier}.
Context (uc : update_context) (Huc : uc_identifier uc = identifier).

(** The open component, the bytes stored and the finished components. *)
Definition receiving (done : list (Z * bytes)) (c : SystemUpdateComponent) (offset : Z)
    (d : D) : Prop :=
  0 ≤ offset ≤ zlen (cp_data c) ∧ dv_active d = Some (cp_id c)
  ∧ dv_stored d = take (Z.to_nat offset) (cp_data c) ∧ dv_done d = done.

Lemma status_dspec (P : D → Prop) t (E : exn → D → Prop) :
  (∀ e d, P d → E e d) →
  dspec handles P (system_update_status t)
    (λ st d, P d ∧ (us_operation_id st = hex identifier →
       (us_phase st = "receiving"%string → us_bytes_received st = zlen (dv_stored d))
       ∧ (us_phase st = "committed"%string → dv_committed d = true))) E.
Proof.
  intros HE. unfold system_update_status.
  eapply (dspec_bind _ _ _ _ (λ f d, P d ∧ (fr_type f = SystemUpdateType.STATUS_RESPONSE →
    ∀ st, decode_system_update_status (fr_payload f) = Ok st →
      us_operation_id st = hex identifier →
      (us_phase st = "receiving"%string → us_bytes_received st = zlen (dv_stored d))
       ∧ (us_phase st = "committed"%string → dv_committed d = true)))).
  - apply dspec_request; [| done]. intros d d' f Hd Hh.
    destruct (law_status _ _ _ _ Hh) as [-> Hst]. split; [| auto]. split; [done |]. auto.
  - intros f. destruct (Z.eqb_spec (fr_type f) SystemUpdateType.STATUS_RESPONSE); cbn [negb].
    + apply dspec_lift; [| intros ? ? ? [? ?]; auto]. intros st d Hst [Hd H]. split; auto.
    + apply dspec_throw. intros e d [? _]. auto.
Qed.

Lemma data_round_dspec done c index transferred chunk_size offset :
  0 < chunk_size → offset < zlen (cp_data c) →
  dspec handles (receiving done c offset)
    (data_round uc c index transferred chunk_size offset)
    (receiving done c) (λ _ _, True).
Proof.
  intros Hk Hoff. unfold data_round.
  set (chunk := slice offset (offset + chunk_size) (cp_data c)).
  assert (Hstep : ∀ d, receiving done c offset d →
    (zlen (dv_stored d) = offset ∧ 0 < zlen chunk
     ∧ ∀ d', dv_done d' = dv_done d → dv_active d' = dv_active d →
       dv_stored d' = dv_stored d ++ chunk → receiving done c (offset + zlen chunk) d')).
  { intros d (Ho & Ha & Hs & Hd).
    pose proof (zlen_chunk_pos (cp_data c) offset chunk_size ltac:(lia) Hk) as Hc. fold chunk in Hc.
    split; [by rewrite Hs, zlen_take | split; [lia |]].
    intros d' Hd' Ha' Hs'. unfold receiving. rewrite Hd', Ha', Hs', Hs, Hd.
    split; [lia |]. split; [done |]. split; [| done].
    unfold chunk. apply slice_chunk; lia. }
  eapply dspec_bind.
  { apply (dspec_lift _ _ _ (λ m d, receiving done c offset d ∧ data_message uc c offset chunk = Ok m));
      [done | done]. }
  intros m. eapply (dspec_bind _ _ _ _ (λ r d, match r with
    | inr received => receiving done c received d
    | inl f => ∀ p n, check_data uc c offset (zlen chunk) f = Ok (p, n) → receiving done c n d
    end)).
  - eapply (dspec_try _ _ _ _ _ (λ _ d, receiving done c offset d
      ∨ receiving done c (offset + zlen chunk) d)); [| | done].
    + eapply (dspec_bind _ _ _ _ (λ f d, ∀ p n,
        check_data uc c offset (zlen chunk) f = Ok (p, n) → receiving done c n d));
        [| intros f; by apply dspec_ret].
      apply dspec_request; [| intros e d [? _]; by left].
      intros d d' f [Hd Hm] Hh.
      destruct (law_data uc _ _ _ _ _ _ _ _ Huc Hm Hh) as (H1 & H2 & H3 & H4).
      destruct (Hstep d Hd) as (Hz & Hpos & Hnext).
      destruct H3 as [H3 | [_ H3]].
      * assert (Hsame : receiving done c offset d').
        { destruct Hd as (? & ? & ? & ?). unfold receiving. by rewrite H1, H2, H3. }
        split; [| by left]. intros p n Hc. pose proof (H4 _ _ Hc) as Hn.
        rewrite H3, Hz in Hn. subst n. done.
      * split; [| by right; apply Hnext]. intros p n Hc. pose proof (H4 _ _ Hc) as Hn.
        rewrite H3, zlen_app, Hz in Hn. subst n. by apply Hnext.
    + intros e _. eapply (dspec_bind _ _ _ _ (λ n d, receiving done c n d));
        [| intros n; by apply dspec_ret].
      unfold reconcile_data. eapply dspec_bind; [by apply status_dspec |].
      intros st. cbv beta.
      destruct (String.eqb_spec (us_operation_id st) (hex (uc_identifier uc))) as [Hid |];
        [| by apply dspec_throw].
      destruct (negb (us_active_component_id st =? cp_id c)); [by apply dspec_throw |].
      destruct (String.eqb_spec (us_phase st) "receiving") as [Hph |]; [| by apply dspec_throw].
      cbn [negb orb]. case_match; [by apply dspec_throw |].
      apply dspec_ret. intros d [Hd Hst]. rewrite Huc in Hid.
      destruct (Hst Hid) as [Hrec _]. rewrite (Hrec Hph).
      destruct Hd as [Hd | Hd]; pose proof Hd as (Hb & _ & Hs & _);
        rewrite Hs, zlen_take by lia; done.
  - intros [f | received]; [| by apply dspec_ret].
    eapply (dspec_bind _ _ _ _ (λ pn d, receiving done c (snd pn) d)).
    { apply dspec_lift; [| done]. intros [p n] d Hc Hd. by eapply Hd. }
    intros [p n]. eapply dspec_bind; [by apply dspec_report |].
    intros []. by apply dspec_ret.
Qed.
End delivery.

(** ** Progress of the data loop *)

Lemma appending_status t : appending (system_update_status t).
Proof. unfold system_update_status, throw. appends. Qed.

Lemma data_round_replying uc c index transferred chunk_size offset :
  replying (data_round uc c index transferred chunk_size offset).
Proof.
  unfold data_round. apply replying_lift_bind. intros m. apply answering_replying.
  apply answering_bind.
  - apply answering_try; [apply answering_bind; [apply answering_request |] |].
    + intros. apply appending_ret.
    + intros e. unfold reconcile_data, throw. apply appending_bind; [| intros; appends].
      apply appending_bind; [apply appending_status | appends].
  - appends.
Qed.

Lemma appending_components uc cs : ∀ index transferred,
  appending (send_components uc index transferred cs).
Proof.
  induction cs as [|c cs IH]; intros; cbn [send_components]; [apply appending_ret |].
  apply appending_bind; [| intros; apply IH]. unfold send_component.
  repeat (apply appending_bind; [| intros]); try apply appending_while; intros;
    try apply data_round_replying; appends.
Qed.

(** ** The whole transfer *)

Section transfer.
Context {D : Type} (handles : D → request → D → Frame → Prop) (identifier : bytes).
Context `{!UpdateDevice handles identifier}.
Context (uc : update_context) (Huc : uc_identifier uc = identifier)
  (Hchunk : 0 < uc_chunk_size uc).

Definition delivered (cs : list SystemUpdateComponent) : list (Z * bytes) :=
  map (λ c, (cp_id c, cp_data c)) cs.
Definition total (cs : list SystemUpdateComponent) : Z := foldr (λ c n, cp_size c + n) 0 cs.

Lemma check_opened_chunk c f n :
  is_bytes (fr_payload f) → check_opened uc c f = Ok n → 0 < n.
Proof.
  unfold check_opened. intros Hb H. res_inv. injection H as <-.
  apply orb_false_iff in G0 as [G0 _]. pose proof (u16_at_bound (fr_payload f) 18 Hb). lia.
Qed.

Lemma send_component_dspec done index transferred c :
  zlen (cp_data c) = cp_size c →
  dspec handles (λ d, dv_done d = done) (send_component uc index transferred c)
    (λ n d, n = transferred + cp_size c ∧ dv_done d = done ++ [(cp_id c, cp_data c)])
    (λ _ _, True).
Proof.
  intros Hsize. unfold send_component.
  eapply dspec_bind.
  { apply (dspec_lift _ _ _ (λ m d, dv_done d = done ∧ component_descriptor uc c = Ok m)); done. }
  intros m. eapply (dspec_bind _ _ _ _ (λ f d, ∀ n, check_opened uc c f = Ok n →
    0 < n ∧ receiving handles identifier done c 0 d)).
  { apply dspec_request; [| done]. intros d d' f [Hd Hm] Hh. split; [| done].
    intros n Hn.
    destruct (law_component_begin uc c _ _ _ _ _ _ Huc Hm Hh Hn) as (H1 & H2 & H3).
    split; [by eapply check_opened_chunk; [eapply law_bytes |] |].
    unfold receiving. rewrite H1, H2, H3. pose proof (zlen_nonneg (cp_data c)).
    split_and!; [lia | lia | done | done | done]. }
  intros f. eapply (dspec_bind _ _ _ _ (λ n d, 0 < n ∧ receiving handles identifier done c 0 d)).
  { apply dspec_lift; [| done]. intros n d Hn Hd. by apply Hd. }
  intros chunk. eapply (dspec_bind _ _ _ _ (λ _ d, receiving handles identifier done c (zlen (cp_data c)) d)).
  { apply (dspec_pure handles (0 < chunk)); [apply appending_while; intros; apply data_round_replying |].
    intros Hpos. apply dspec_while; [intros; apply data_round_replying | |].
    - intros st Hst. apply data_round_dspec; [done | done | lia].
    - intros st d Hst Hr. pose proof Hr as [Hb _]. by replace (zlen (cp_data c)) with st by lia. }
  intros _ . eapply (dspec_bind _ _ _ _ (λ id d, id = [cp_id c]
    ∧ receiving handles identifier done c (zlen (cp_data c)) d)).
  { apply dspec_lift; [| done]. intros id d Hid Hd. unfold byte_of in Hid.
    destruct ((0 <=? cp_id c) && (cp_id c <? 256)); [by injection Hid as <- | discriminate]. }
  intros id. eapply (dspec_bind _ _ _ _ (λ f d, check_ended uc c index f = Ok () →
    dv_done d = done ++ [(cp_id c, cp_data c)])).
  { apply dspec_request; [| done]. intros d d' g [-> (_ & Ha & Hs & Hd)] Hh. split; [| done].
    intros Hc. rewrite Huc in Hh.
    rewrite (law_component_end uc c _ _ _ _ _ Huc Hh Hc Ha), Hd, Hs.
    rewrite take_ge by (unfold zlen; lia). done. }
  intros f'. eapply (dspec_bind _ _ _ _ (λ _ d, dv_done d = done ++ [(cp_id c, cp_data c)])).
  { apply dspec_lift; [| done]. intros [] d Hc Hd. by apply Hd. }
  intros []. by apply dspec_ret.
Qed.

Lemma send_components_dspec cs : ∀ done index transferred,
  Forall (λ c, zlen (cp_data c) = cp_size c) cs →
  dspec handles (λ d, dv_done d = done) (send_components uc index transferred cs)
    (λ n d, n = transferred + total cs ∧ dv_done d = done ++ delivered cs) (λ _ _, True).
Proof.
  induction cs as [|c cs IH]; intros done index transferred Hcs; cbn [send_components].
  - apply dspec_ret. intros d Hd. rewrite app_nil_r. simpl. split; [lia | done].
  - apply Forall_cons in Hcs as [Hc Hcs].
    eapply dspec_bind; [by apply send_component_dspec |]. intros n.
    apply (dspec_pure handles (n = transferred + cp_size c)); [apply appending_components |].
    intros ->. eapply dspec_conseq;
      [by apply (IH (done ++ [(cp_id c, cp_data c)])) | done | | done].
    intros a d [-> ->]. simpl. rewrite <- app_assoc. split; [lia | done].
Qed.

Definition evidence_ok (committed : option Frame * string) (d : D) : Prop :=
  match committed with
  | (Some f, _) => check_committed uc f = Ok () → dv_committed d = true
  | (None, evidence) => evidence ≠ "session_close"%string → dv_committed d = true
  end.

Lemma send_commit_dspec done :
  dspec handles (λ d, dv_done d = done) (send_commit uc)
    (λ committed d, dv_done d = done ∧ evidence_ok committed d) (λ _ _, True).
Proof.
  unfold send_commit. eapply (dspec_try _ _ _ _ _ (λ _ d, dv_done d = done)); [| | done].
  - eapply (dspec_bind _ _ _ _ (λ f d, dv_done d = done ∧ evidence_ok (Some f, "") d));
      [| intros f; by apply dspec_ret].
    apply dspec_request; [| done]. intros d d' f Hd Hh. rewrite Huc in Hh.
    destruct (law_commit uc _ _ _ _ Huc Hh) as [H1 H2]. rewrite H1. done.
  - intros e He. case_match; [| apply dspec_ret; intros d Hd; split; [done | by intros []]].
    eapply dspec_bind; [by apply status_dspec |]. intros st. cbv beta. rewrite Huc.
    destruct (String.eqb_spec (us_operation_id st) (hex identifier)) as [Hid |];
      [| by apply dspec_throw].
    destruct (String.eqb_spec (us_phase st) "committed") as [Hph |]; [| by apply dspec_throw].
    cbn [negb orb]. case_match; [by apply dspec_throw |].
    apply dspec_ret. intros d [Hd Hst]. split; [done |]. intros _. by apply Hst.
Qed.

Lemma transfer_dspec cs :
  Forall (λ c, zlen (cp_data c) = cp_size c) cs →
  dspec handles (λ d, dv_done d = []) (transfer uc cs)
    (λ r d, fst r = total cs ∧ dv_done d = delivered cs ∧ evidence_ok (snd r) d) (λ _ _, True).
Proof.
  intros Hcs. unfold transfer.
  eapply dspec_bind; [by apply send_components_dspec |]. intros n.
  apply (dspec_pure handles (n = 0 + total cs)); [unfold send_commit, system_update_status, throw; appends |].
  intros ->. eapply dspec_bind; [by apply dspec_report |]. intros [].
  eapply dspec_bind; [apply send_commit_dspec |]. intros committed.
  apply dspec_ret. intros d [Hd He]. simpl. done.
Qed.
End transfer.

Lemma appending_transfer uc cs : appending (transfer uc cs).
Proof.
  unfold transfer. apply appending_bind; [apply appending_components |]. intros n.
  unfold send_commit, system_update_status, throw. appends.
Qed.

Section perform.
Context {D : Type} (handles : D → request → D → Frame → Prop) (identifier : bytes).
Context `{!UpdateDevice handles identifier}.

Lemma check_begin_chunk n f job chunk count :
  is_bytes (fr_payload f) → check_begin identifier n f = Ok (job, chunk, count) → 0 < chunk.
Proof.
  unfold check_begin. intros Hb H. res_inv. injection H as _ <- _.
  apply orb_false_iff in G0 as [G0 _]. apply orb_false_iff in G0 as [_ G0].
  pose proof (u16_at_bound (fr_payload f) 20 Hb). lia.
Qed.

Lemma send_begin_dspec begin n t :
  dspec handles (λ _, True) (send_begin identifier begin n t)
    (λ f d, ∀ job chunk count, check_begin identifier n f = Ok (job, chunk, count) →
       0 < chunk ∧ dv_done d = []) (λ _ _, True).
Proof.
  assert (Hreq : dspec handles (λ _, True)
    (send_request (update_request SystemUpdateType.BEGIN begin t))
    (λ f d, ∀ job chunk count, check_begin identifier n f = Ok (job, chunk, count) →
       0 < chunk ∧ dv_done d = []) (λ _ _, True)).
  { apply dspec_request; [| done]. intros d d' f _ Hh. split; [| done].
    intros job chunk count Hc. split; [| by eapply law_begin].
    by eapply check_begin_chunk; [eapply law_bytes |]. }
  unfold send_begin. eapply dspec_try; [exact Hreq | | done].
  intros e _. eapply (dspec_bind _ _ _ _ (λ _ _, True)).
  - eapply dspec_conseq; [by apply (status_dspec handles identifier (λ _, True) t (λ _ _, True)) | done ..].
  - intros st. case_match; [by apply dspec_throw | exact Hreq].
Qed.

Lemma perform_dspec ready bundle operation_id random timeout callback :
  identifier = update_identifier operation_id random →
  Forall (λ c, zlen (cp_data c) = cp_size c) (bd_components bundle) →
  dspec handles (λ _, True)
    (perform_system_update ready bundle operation_id random timeout callback)
    (λ r d, dv_done d = delivered (bd_components bundle)
       ∧ ur_bytes r = total (bd_components bundle)
       ∧ (ur_completion_evidence r ≠ "session_close"%string → dv_committed d = true))
    (λ _ _, True).
Proof.
  intros Hid Hcs. unfold perform_system_update. rewrite <- Hid.
  eapply (dspec_bind _ _ _ _ (λ _ _, True)); [by apply dspec_lift |]. intros caps.
  do 3 (case_match; [by apply dspec_throw |]).
  eapply (dspec_bind _ _ _ _ (λ _ _, True)); [by apply dspec_lift |]. intros begin.
  eapply dspec_bind; [apply send_begin_dspec |]. intros frame.
  eapply (dspec_bind _ _ _ _ (λ v d, 0 < snd (fst v) ∧ dv_done d = [])).
  { apply dspec_lift; [| done]. intros [[job chunk] count] d Hc Hd. by eapply Hd. }
  intros [[job chunk] count]. cbn [fst snd].
  set (uc := {| uc_identifier := identifier; uc_timeout := timeout; uc_callback := callback;
    uc_job_id := job; uc_chunk_size := chunk; uc_component_count := count; uc_total := _ |}).
  apply (dspec_pure handles (0 < chunk)).
  { unfold cancel_update. apply appending_bind; [apply appending_on_error |];
      [apply appending_transfer | appends ..]. }
  intros Hchunk. eapply dspec_bind.
  { eapply dspec_on_error; [by apply (transfer_dspec handles identifier uc) |].
    unfold cancel_update. eapply dspec_suppress; [by apply dspec_request | done]. }
  intros [n [committed evidence]].
  eapply (dspec_bind _ _ _ _ (λ _ d, n = total (bd_components bundle)
    ∧ dv_done d = delivered (bd_components bundle)
    ∧ (evidence ≠ "session_close"%string → dv_committed d = true))).
  - destruct committed as [f|].
    + apply dspec_lift; [| done]. intros [] d Hc (Hn & Hd & He). simpl in *. auto.
    + apply dspec_ret. intros d (Hn & Hd & He). simpl in *. auto.
  - intros []. apply dspec_ret. intros d (Hn & Hd & He). simpl. auto.
Qed.
End perform.

(** ** Termination and clean-up *)

Lemma safe_status t : safe (system_update_status t).
Proof.
  unfold system_update_status. safes. apply safe_lift.
  unfold decode_system_update_status. res_oks.
Qed.

Lemma safe_data_round uc c index transferred chunk_size offset :
  safe (data_round uc c index transferred chunk_size offset).
Proof.
  unfold data_round. apply safe_bind; [apply safe_lift; unfold data_message; res_oks |].
  intros m. apply safe_bind.
  - apply safe_try; [safes |]. intros e. unfold reconcile_data.
    apply safe_bind; [| safes]. apply safe_bind; [apply safe_status | safes].
  - intros [f | n]; [| apply safe_ret].
    apply safe_bind; [apply safe_lift; unfold check_data; res_oks |]. safes.
Qed.

Lemma safe_components uc cs : ∀ index transferred, safe (send_components uc index transferred cs).
Proof.
  induction cs as [|c cs IH]; intros; cbn [send_components]; [apply safe_ret |].
  apply safe_bind; [| intros; apply IH]. unfold send_component.
  apply safe_bind; [apply safe_lift; unfold component_descriptor; res_oks |]. intros m.
  apply safe_bind; [apply safe_request |]. intros f.
  apply safe_bind; [apply safe_lift; unfold check_opened; res_oks |]. intros n.
  apply safe_bind.
  { apply safe_while; intros; [apply safe_data_round | apply data_round_replying]. }
  intros _st. apply safe_bind; [apply safe_lift; res_oks |]. intros id.
  apply safe_bind; [apply safe_request |]. intros f'.
  apply safe_bind; [apply safe_lift; unfold check_ended; res_oks | safes].
Qed.

Lemma safe_transfer uc cs : safe (transfer uc cs).
Proof.
  unfold transfer. apply safe_bind; [apply safe_components |]. intros n.
  apply safe_bind; [apply safe_report |]. intros []. apply safe_bind; [| safes].
  apply safe_try; [safes |]. intros e. destruct (catches [TimeoutError] e); [| safes].
  apply safe_bind; [apply safe_status | safes].
Qed.

Lemma safe_perform ready bundle operation_id random timeout callback :
  res_ok ready → safe (perform_system_update ready bundle operation_id random timeout callback).
Proof.
  intros Hready. unfold perform_system_update.
  apply safe_bind; [by apply safe_lift |]. intros caps.
  do 3 (case_match; [by apply safe_throw |]).
  apply safe_bind; [apply safe_lift; unfold begin_message; res_oks |]. intros begin.
  apply safe_bind.
  { unfold send_begin. apply safe_try; [safes |]. intros e.
    apply safe_bind; [apply safe_status | safes]. }
  intros frame. apply safe_bind; [apply safe_lift; unfold check_begin; res_oks |].
  intros [[job chunk] count]. apply safe_bind.
  { apply safe_on_error; [apply safe_transfer | unfold cancel_update; safes]. }
  intros [n [[f|] evidence]]; [| safes].
  apply safe_bind; [apply safe_lift; unfold check_committed; res_oks | safes].
Qed.

Definition sends (ts : list SystemUpdateType.SystemUpdateType_t) (t : list event) : Prop :=
  ∃ r ty, EvSend r ∈ t ∧ ty ∈ ts ∧ rq_type r = SystemUpdateType.SystemUpdateType_value ty.

(** The requests that change a component or the image on the device. *)
Definition transfer_types : list SystemUpdateType.SystemUpdateType_t :=
  [SystemUpdateType.COMPONENT_BEGIN; SystemUpdateType.DATA; SystemUpdateType.COMPONENT_END;
   SystemUpdateType.COMMIT].

(** How a failed update ends. *)
Inductive failure (identifier : bytes) (timeout : Z) (e : exn) (t : list event) : Prop :=
| failed_before : ¬ sends transfer_types t → failure identifier timeout e t
| failed_cancelled t1 a :
    t = t1 ++ [EvSend (update_request SystemUpdateType.CANCEL identifier timeout); EvReply a] →
    (∀ e', a = Err e' → catches [Exception_] e' = false → e = e') →
    failure identifier timeout e t
| failed_verdict t1 f uc :
    t = t1 ++ [EvSend (update_request SystemUpdateType.COMMIT identifier timeout); EvReply (Ok f)] →
    uc_identifier uc = identifier → check_committed uc f = Err e →
    failure identifier timeout e t.

Lemma sends_app ts t u : sends ts (t ++ u) → sends ts t ∨ sends ts u.
Proof.
  intros (r & ty & Hin & H). apply elem_of_app in Hin as [Hin | Hin]; [left | right];
    by exists r, ty.
Qed.

Lemma not_sends_app ts t u : ¬ sends ts t → ¬ sends ts u → ¬ sends ts (t ++ u).
Proof. intros H1 H2 [H | H]%sends_app; done. Qed.

Lemma not_sends_request t m timeout l :
  t ∉ transfer_types → (∀ e, e ∈ l → is_reply e = true) →
  ¬ sends transfer_types (EvSend (update_request t m timeout) :: l).
Proof.
  intros Ht Hl (r & ty & Hin & Hty & Hr). apply elem_of_cons in Hin as [Heq | Hin].
  - injection Heq as ->. change (enum_value t = enum_value ty) in Hr.
    apply enum_value_inj in Hr. by subst.
  - by apply Hl in Hin.
Qed.

Lemma not_sends_nil ts : ¬ sends ts [].
Proof. intros (r & ty & Hin & _). by apply elem_of_nil in Hin. Qed.

(** [m] sends nothing that changes the device's components. *)
Definition quiet {A} (m : M A) : Prop := spec m (λ _ t, ¬ sends transfer_types t).

Lemma quiet_lift {A} (r : res A) : quiet (lift r).
Proof. apply spec_lift; intros; apply not_sends_nil. Qed.
Lemma quiet_ret {A} (a : A) : quiet (mret a).
Proof. apply spec_ret, not_sends_nil. Qed.
Lemma quiet_bind {A B} (m : M A) (f : A → M B) : quiet m → (∀ a, quiet (f a)) → quiet (m ≫= f).
Proof.
  intros Hm Hf. apply spec_bind. eapply spec_mono; [exact Hm |]. intros [a|e|] t Ht; try done.
  eapply spec_mono; [apply Hf |]. intros o t2 Ht2. by apply not_sends_app.
Qed.
Lemma quiet_try {A} (m : M A) cs h : quiet m → (∀ e, quiet (h e)) → quiet (try_except m cs h).
Proof.
  intros Hm Hh. apply spec_try. eapply spec_mono; [exact Hm |]. intros [a|e|] t Ht; try done.
  destruct (catches cs e); [| done].
  eapply spec_mono; [apply Hh |]. intros o t2 Ht2. by apply not_sends_app.
Qed.
Lemma quiet_request t m timeout :
  t ∉ transfer_types → quiet (send_request (update_request t m timeout)).
Proof.
  intros Ht. apply spec_request; intros; apply not_sends_request; try done; intros x Hx.
  - by apply elem_of_nil in Hx.
  - by apply list_elem_of_singleton in Hx as ->.
  - by apply list_elem_of_singleton in Hx as ->.
Qed.

Lemma quiet_begin identifier begin n t : quiet (send_begin identifier begin n t).
Proof.
  unfold send_begin. apply quiet_try; [apply quiet_request; by_decide |]. intros e.
  apply quiet_bind.
  - unfold system_update_status. apply quiet_bind; [apply quiet_request; by_decide |].
    intros f. case_match; apply quiet_lift.
  - intros st. case_match; [apply quiet_lift | apply quiet_request; by_decide].
Qed.

(** A transfer that ends in a COMMIT reply ends with that exchange. *)
Lemma transfer_commit uc cs :
  spec (transfer uc cs) (λ o t, match o with
    | Done (_, (Some f, _)) => ∃ t1,
        t = t1 ++ [EvSend (update_request SystemUpdateType.COMMIT (uc_identifier uc) (uc_timeout uc));
                   EvReply (Ok f)]
    | _ => True
    end).
Proof.
  unfold transfer. apply spec_bind. eapply spec_mono; [apply appending_components |].
  intros [n|e|] t _; try done. apply spec_bind, spec_report. split; [| done].
  apply spec_bind. unfold send_commit. apply spec_try, spec_bind, spec_request; [done | |].
  - intros f. apply spec_ret. apply spec_ret. eexists. rewrite !app_nil_r, app_assoc. reflexivity.
  - intros e. destruct (catches _ e); [| done]. destruct (catches [TimeoutError] e).
    + apply spec_bind. eapply spec_mono; [apply appending_status |]. intros [st|e'|] t' _; try done.
      case_match; [by apply spec_lift | apply spec_ret, spec_ret; done].
    + apply spec_ret, spec_ret. done.
Qed.

Lemma perform_failure ready bundle operation_id random timeout callback :
  spec (perform_system_update ready bundle operation_id random timeout callback)
    (λ o t, match o with
     | Raised e => exn_ok e →
         failure (update_identifier operation_id random) timeout e t
     | _ => True
     end).
Proof.
  assert (Hlift : ∀ A (r : res A) id e t, ¬ sends transfer_types t →
    failure id timeout e (t ++ [])) by (intros; apply failed_before; by rewrite app_nil_r).
  unfold perform_system_update. set (id := update_identifier operation_id random).
  apply spec_bind, spec_lift; [intros caps _ | intros; apply failed_before, not_sends_nil].
  do 3 (case_match; [apply spec_lift; [done | intros; apply failed_before, not_sends_nil] |]).
  apply spec_bind, spec_lift; [intros begin _ | intros; apply failed_before, not_sends_nil].
  apply spec_bind. eapply spec_mono; [apply quiet_begin |].
  intros [frame|e|] t Ht; [| by intros _; apply failed_before | done].
  apply spec_bind, spec_lift; [intros [[job chunk] count] _ | by intros e _ _; apply (Hlift _ (Ok ()))].
  cbn [app]. set (uc := {| uc_identifier := id; uc_timeout := timeout; uc_callback := callback;
    uc_job_id := job; uc_chunk_size := chunk; uc_component_count := count; uc_total := _ |}).
  apply spec_bind, spec_on_error. eapply spec_mono; [apply (transfer_commit uc) |].
  intros [[n [committed evidence]]|e|] u Hu; [| | done].
  - apply spec_bind. destruct committed as [f|].
    + destruct Hu as [t1 ->]. apply spec_lift; [intros; by apply spec_ret |].
      intros e He _. apply (failed_verdict _ _ _ _ (t ++ t1) f uc); [| done | done].
      by rewrite !app_nil_r, !app_assoc.
    + apply spec_ret, spec_ret. done.
  - destruct (catches [BaseException] e) eqn:Hb.
    2: { intros He. by rewrite catches_base in Hb. }
    unfold cancel_update. apply spec_suppress, spec_request; [done | |].
    + intros f _. apply (failed_cancelled _ _ _ _ (t ++ u) (Ok f)); [| done].
      by rewrite !app_assoc.
    + intros e'. destruct (catches [Exception_] e') eqn:He'.
      * intros _. apply (failed_cancelled _ _ _ _ (t ++ u) (Err e')).
        { by rewrite !app_assoc. }
        intros e2 [= <-] Hc. by rewrite He' in Hc.
      * intros _. apply (failed_cancelled _ _ _ _ (t ++ u) (Err e')).
        { by rewrite !app_assoc. }
        by intros e2 [= <-].
Qed.

(** ** A reference device *)

Record ref_device := RefDevice {
  rd_active : option Z;
  rd_stored : bytes;
  rd_done : list (Z * bytes);
  rd_committed : bool;
}.

Definition reply_frame (t : SystemUpdateType.SystemUpdateType_t) (payload : bytes) : Frame :=
  mkFrame Channel.SYSTEM_UPDATE t 0 0 0 0 0 payload.
(** A frame no check of the transaction accepts. *)
Definition refusal : Frame := mkFrame 0 0 0 0 0 0 0 [].

Section ref_device.
Context (identifier : bytes).

Definition begin_reply (count : Z) : Frame :=
  reply_frame SystemUpdateType.BEGIN_RESPONSE (identifier ++ le_encode 4 1 ++ le_encode 2 64 ++ [count; 0]).
Definition opened_reply (id kind size : Z) : Frame :=
  reply_frame SystemUpdateType.COMPONENT_BEGIN_RESPONSE
    (identifier ++ [id; kind] ++ le_encode 2 64 ++ le_encode 4 size).
Definition data_reply (id received : Z) : Frame :=
  reply_frame SystemUpdateType.DATA_RESPONSE
    (identifier ++ [id; 0] ++ le_encode 2 500 ++ le_encode 4 received).
Definition ended_reply (id count : Z) : Frame :=
  reply_frame SystemUpdateType.COMPONENT_END_RESPONSE
    (identifier ++ [id; count] ++ [0; 0] ++ le_encode 4 0).
Definition commit_reply : Frame :=
  reply_frame SystemUpdateType.COMMIT_RESPONSE (identifier ++ le_encode 4 1 ++ le_encode 4 0).
Definition status_reply (d : ref_device) : Frame :=
  reply_frame SystemUpdateType.STATUS_RESPONSE
    (identifier ++ le_encode 4 1
     ++ [if rd_committed d then 5 else match rd_active d with Some _ => 2 | None => 3 end;
         zlen (rd_done d); zlen (rd_done d); default 0 (rd_active d)]
     ++ le_encode 4 (zlen (rd_stored d)) ++ le_encode 4 0 ++ le_encode 4 0).

Definition ref_step (d : ref_device) (r : request) : ref_device * Frame :=
  let p := rq_payload r in
  let id := byte_at p 16 in
  match enum_of_value (rq_type r) : option SystemUpdateType.SystemUpdateType_t with
  | Some SystemUpdateType.BEGIN =>
    (RefDevice None [] [] false, begin_reply (byte_at p 20))
  | Some SystemUpdateType.COMPONENT_BEGIN =>
    (RefDevice (Some id) [] (rd_done d) (rd_committed d),
     opened_reply id (byte_at p 17) (u32_at p 24))
  | Some SystemUpdateType.DATA =>
    if bool_decide (rd_active d = Some id) && (u32_at p 20 =? zlen (rd_stored d))
    then
      let stored := rd_stored d ++ slice_from 24 p in
      (RefDevice (rd_active d) stored (rd_done d) (rd_committed d), data_reply id (zlen stored))
    else (d, refusal)
  | Some SystemUpdateType.COMPONENT_END =>
    if bool_decide (rd_active d = Some id)
    then (RefDevice None [] (rd_done d ++ [(id, rd_stored d)]) (rd_committed d),
          ended_reply id (zlen (rd_done d) + 1))
    else (d, refusal)
  | Some SystemUpdateType.COMMIT =>
    (RefDevice (rd_active d) (rd_stored d) (rd_done d) true, commit_reply)
  | Some SystemUpdateType.STATUS => (d, status_reply d)
  | _ => (d, refusal)
  end.

(** It answers while its counters fit the reply. *)
Definition ref_handles (d : ref_device) (r : request) (d' : ref_device) (f : Frame) : Prop :=
  ref_step d r = (d', f) ∧ is_bytes (fr_payload f)
  ∧ zlen (rd_stored d) < 2 ^ 32 ∧ zlen (rd_stored d') < 2 ^ 32.

Context (Hid : zlen identifier = 16).

Lemma byte_at_prefix (a : bytes) x b i : i = zlen a → byte_at (a ++ x :: b) i = x.
Proof.
  intros ->. unfold byte_at, zlen. rewrite Nat2Z.id, app_nth2 by lia.
  by rewrite Nat.sub_diag.
Qed.

Lemma u32_at_prefix (a b : bytes) z i :
  i = zlen a → 0 ≤ z < 2 ^ 32 → u32_at (a ++ le_encode 4 z ++ b) i = z.
Proof. intros. by apply (le_field_at _ _ 4). Qed.

Lemma data_reply_received id n : 0 ≤ n < 2 ^ 32 → u32_at (fr_payload (data_reply id n)) 20 = n.
Proof.
  intros Hn. unfold data_reply. cbn [fr_payload reply_frame].
  rewrite !app_assoc, <- (app_nil_r (le_encode 4 n)).
  apply u32_at_prefix; [rewrite !zlen_app, zlen_le_encode, Hid; done | done].
Qed.

Lemma ref_status_decode d st :
  zlen (rd_stored d) < 2 ^ 32 →
  decode_system_update_status (fr_payload (status_reply d)) = Ok st →
  us_bytes_received st = zlen (rd_stored d)
  ∧ (us_phase st = "committed"%string → rd_committed d = true).
Proof.
  intros Hlen. unfold decode_system_update_status. cbn [fr_payload status_reply reply_frame].
  set (phase := if rd_committed d then 5 else _).
  assert (Hrec : u32_at (identifier ++ le_encode 4 1
    ++ [phase; zlen (rd_done d); zlen (rd_done d); default 0 (rd_active d)]
     ++ le_encode 4 (zlen (rd_stored d)) ++ le_encode 4 0 ++ le_encode 4 0) 24
    = zlen (rd_stored d)).
  { pose proof (zlen_nonneg (rd_stored d)). rewrite (app_assoc identifier), (app_assoc (_ ++ _)).
    apply u32_at_prefix; [by rewrite !zlen_app, zlen_le_encode, Hid | lia]. }
  assert (Hph : byte_at (identifier ++ le_encode 4 1
    ++ [phase; zlen (rd_done d); zlen (rd_done d); default 0 (rd_active d)]
     ++ le_encode 4 (zlen (rd_stored d)) ++ le_encode 4 0 ++ le_encode 4 0) 20 = phase).
  { rewrite (app_assoc identifier). apply byte_at_prefix. by rewrite zlen_app, zlen_le_encode, Hid. }
  rewrite Hrec, Hph. intros H. res_inv.
  destruct (phase_name phase) as [name|] eqn:Hname; [| discriminate]. res_inv.
  injection H as <-. cbn [us_bytes_received us_phase]. split; [done |]. intros ->.
  unfold phase in Hname. destruct (rd_committed d); [done |].
  destruct (rd_active d); discriminate Hname.
Qed.

#[export] Instance ref_update_device : UpdateDevice ref_handles identifier.
Proof.
  refine {| dv_active := rd_active; dv_stored := rd_stored; dv_done := rd_done;
            dv_committed := rd_committed |}.
  - intros d m t d' f n r (Hs & _) _. cbn in Hs. by injection Hs as <- <-.
  - intros uc c d m t d' f n Huc Hm (Hs & _) _. unfold ref_step in Hs.
    cbn [update_request rq_payload rq_type] in Hs.
    change (enum_of_value _) with (Some SystemUpdateType.COMPONENT_BEGIN) in Hs.
    cbv iota zeta in Hs. injection Hs as <- <-. cbn [rd_active rd_stored rd_done].
    unfold component_descriptor in Hm. bind Hm as x Hx. bind Hm as k Hk. bind Hm as fl Hfl.
    bind Hm as o Ho. bind Hm as sz Hsz. injection Hm as <-. rewrite Huc.
    unfold byte_of in Hx. destruct ((0 <=? cp_id c) && _); [injection Hx as <- | discriminate].
    cbn [app]. split_and!; [done | by rewrite byte_at_prefix | done].
  - intros uc c d m off chunk t d' f Huc Hm (Hs & _ & _ & Hlen).
    unfold data_message in Hm. bind Hm as x Hx. bind Hm as o Ho.
    assert (m = identifier ++ (x ++ [0]) ++ [0; 0] ++ o ++ chunk) as -> by congruence.
    unfold byte_of in Hx.
    destruct ((0 <=? cp_id c) && _); [injection Hx as <- | discriminate].
    apply pack_uint_inv in Ho as [-> Hoff0].
    assert (Hoff : u32_at (identifier ++ ([cp_id c] ++ [0]) ++ [0; 0] ++ le_encode 4 off ++ chunk) 20 = off).
    { rewrite !app_assoc, <- (app_assoc _ (le_encode 4 off) chunk).
      apply u32_at_prefix; [rewrite !zlen_app, Hid; done | done]. }
    assert (Hrest : slice_from 24 (identifier ++ ([cp_id c] ++ [0]) ++ [0; 0] ++ le_encode 4 off ++ chunk)
      = chunk).
    { rewrite !app_assoc, slice_from_app_r; rewrite !zlen_app, zlen_le_encode, Hid; done. }
    unfold ref_step in Hs. cbn [update_request rq_payload rq_type] in Hs.
    change (enum_of_value _) with (Some SystemUpdateType.DATA) in Hs. cbv iota zeta in Hs.
    rewrite Hoff, Hrest in Hs. cbn [app] in Hs. rewrite byte_at_prefix in Hs by done.
    destruct (bool_decide _ && (off =? _)) eqn:Hacc; injection Hs as <- <-.
    + apply andb_true_iff in Hacc as [_ Hacc]. apply Z.eqb_eq in Hacc.
      split; [done |]. split; [done |]. split; [by right |]. intros p n Hc.
      unfold check_data in Hc. res_inv. injection Hc as _ <-. cbn [rd_stored] in *.
      apply data_reply_received. pose proof (zlen_nonneg (rd_stored d ++ chunk)). lia.
    + split; [done |]. split; [done |]. split; [by left |]. intros p n Hc.
      unfold check_data in Hc. res_inv. discriminate.
  - intros d t d' f (Hs & _ & Hlen & _). cbn in Hs. injection Hs as <- <-.
    split; [done |]. intros st _ Hst _. apply ref_status_decode in Hst as [H1 H2]; done.
  - intros uc c d t d' f index Huc (Hs & _) Hc Ha. unfold ref_step in Hs.
    cbn [update_request rq_payload rq_type] in Hs.
    change (enum_of_value _) with (Some SystemUpdateType.COMPONENT_END) in Hs. cbv iota zeta in Hs.
    cbn [app] in Hs. rewrite byte_at_prefix, Ha, bool_decide_eq_true_2 in Hs by done.
    by injection Hs as <- <-.
  - intros uc d t d' f Huc (Hs & _). cbn in Hs. by injection Hs as <- <-.
  - by intros d r d' f (_ & ? & _).
Defined.
End ref_device.

(** ** Properties *)

(** C3: every byte is delivered, once and in order, over a lossy link.  For a
    device that obeys [UpdateDevice] and a link on which any request may raise
    after it was lost or after only its reply was lost, an update that returns
    leaves the device with exactly the bundle's components, in order, each with
    exactly its bytes; it reports their total size, and, unless the session
    closed during COMMIT, the device has committed them. *)
Theorem system_update_delivers {D} (handles : D → request → D → Frame → Prop)
    ready bundle operation_id random timeout callback s r s' d x
    `{!UpdateDevice handles (update_identifier operation_id random)} :
  Forall (λ c, zlen (cp_data c) = cp_size c) (bd_components bundle) →
  io_trace s = [] →
  perform_system_update ready bundle operation_id random timeout callback s = (Done r, s') →
  link_steps handles (d, None) (io_trace s') x →
  ∃ d', x = (d', None) ∧ dv_done d' = map (λ c, (cp_id c, cp_data c)) (bd_components bundle)
    ∧ ur_bytes r = total (bd_components bundle)
    ∧ (ur_completion_evidence r ≠ "session_close"%string → dv_committed d' = true).
Proof.
  intros Hcs Hs Hrun Hx.
  destruct (perform_dspec handles _ ready bundle operation_id random timeout callback
    eq_refl Hcs s) as (t & Ht & _ & [Hb | Hpost]); rewrite Hrun in *; simpl in *; [done |].
  rewrite Hs in Ht. simpl in Ht. rewrite Ht in Hx.
  destruct (Hpost d x I Hx) as (d' & -> & Hd'). by exists d'.
Qed.

Definition example_bundle : SystemUpdateBundle := {|
  bd_manifest := []; bd_manifest_bytes := [123; 125]; bd_signature := [];
  bd_manifest_sha256 := repeat 0 32; bd_key_id := None; bd_signature_verified := false;
  bd_chip_id := 32; bd_flash_size := 4194304; bd_target_layout_sha256 := "";
  bd_components := [
    {| cp_id := 1; cp_kind := DATA; cp_flags := 0; cp_target_offset := 0; cp_size := 100;
       cp_sha256 := repeat 1 32; cp_filename := "a"; cp_data := map Z.of_nat (seq 0 100) |};
    {| cp_id := 2; cp_kind := DATA; cp_flags := 0; cp_target_offset := 4096; cp_size := 3;
       cp_sha256 := repeat 2 32; cp_filename := "b"; cp_data := [7; 8; 9] |}] |}.
Definition example_id : bytes := repeat 5 16.
Definition timed_out : res Frame := raise TimeoutError "".

(** The reply to the first chunk is lost; the chunk of the second component
    is lost itself. *)
Definition example_script : list (res Frame) := [
  Ok (begin_reply example_id 2); Ok (opened_reply example_id 1 5 100);
  timed_out;
  Ok (status_reply example_id (RefDevice (Some 1) (map Z.of_nat (seq 0 64)) [] false));
  Ok (data_reply example_id 1 100); Ok (ended_reply example_id 1 1);
  Ok (opened_reply example_id 2 5 3);
  timed_out;
  Ok (status_reply example_id (RefDevice (Some 2) [] [(1, map Z.of_nat (seq 0 100))] false));
  Ok (data_reply example_id 2 3); Ok (ended_reply example_id 2 2);
  Ok (commit_reply example_id)].

(** One exchange with the reference device. *)
Ltac ref_reply :=
  eapply steps_cons; [apply step_send |]; eapply steps_cons;
  [first [apply step_reply | eapply step_reply_lost];
   split; [vm_compute; reflexivity | split; [by_decide | split; reflexivity]] |].
Ltac ref_lost :=
  eapply steps_cons; [apply step_send |]; eapply steps_cons; [apply step_request_lost |].

Abbreviation example_run :=
  (perform_system_update (Ok 32768) example_bundle (Some example_id) [] 1000 false
    (Io example_script [] [])).

(** The trace of the run is one the reference device allows. *)
Lemma example_link : ∃ x, link_steps (ref_handles example_id) (RefDevice None [] [] false, None)
  (io_trace (snd example_run)) x.
Proof.
  assert (H : ∃ t, io_trace (snd example_run) = t) by (vm_compute; by eexists).
  destruct H as [t Ht]. rewrite Ht. vm_compute in Ht. subst t. eexists.
  do 7 ref_reply. ref_lost. do 4 ref_reply. apply steps_nil.
Qed.

Lemma example_done :
  done_with (λ r, String.eqb (ur_completion_evidence r) "commit_response") (fst example_run) = true.
Proof. vm_compute. reflexivity. Qed.

Lemma system_update_delivers_witness :
  ∃ r d', fst example_run = Done r
    ∧ rd_done d' = [(1, map Z.of_nat (seq 0 100)); (2, [7; 8; 9])]
    ∧ ur_bytes r = 103 ∧ rd_committed d' = true.
Proof.
  destruct example_link as [x Hx]. pose proof example_done as Hd.
  destruct example_run as [[r|e|] s'] eqn:H; [| discriminate Hd ..].
  destruct (system_update_delivers (ref_handles example_id) (Ok 32768) example_bundle
    (Some example_id) [] 1000 false (Io example_script [] []) r s' (RefDevice None [] [] false) x
    (UpdateDevice0 := ref_update_device example_id eq_refl)) as (d' & _ & H1 & H2 & H3).
  - by_decide.
  - reflexivity.
  - exact H.
  - exact Hx.
  - exists r, d'. split; [reflexivity |]. split; [exact H1 |]. split; [exact H2 |].
    apply H3. apply String.eqb_eq in Hd. rewrite Hd. discriminate.
Defined.

(** An update that fails leaves no transaction open.  When the update
    raises, either nothing that changes a component or the image had been sent,
    or the last exchange is a CANCEL for this update, and the exception is the
    one that made the transfer fail unless the CANCEL itself was interrupted by
    an exception that is not an [Exception], or the last exchange is the COMMIT
    and the exception is the device's negative verdict. *)
Theorem update_failure_cancels ready bundle operation_id random timeout callback s e s' :
  env_ok s → res_ok ready → io_trace s = [] →
  perform_system_update ready bundle operation_id random timeout callback s = (Raised e, s') →
  failure (update_identifier operation_id random) timeout e (io_trace s').
Proof.
  intros Henv Hready Hs Hrun.
  destruct (perform_failure ready bundle operation_id random timeout callback s) as (t & Ht & _ & Hf).
  destruct (safe_perform ready bundle operation_id random timeout callback Hready s Henv) as [Hok _].
  cbn [trace_of io_world] in *. rewrite Hrun in *. simpl in *. rewrite Ht, Hs. by apply Hf.
Qed.

Definition refused_script : list (res Frame) :=
  [Ok (begin_reply example_id 2); Ok refusal; raise ConnectionError "gone"].

Abbreviation refused_run :=
  (perform_system_update (Ok 32768) example_bundle (Some example_id) [] 1000 false
    (Io refused_script [] [])).
Lemma refused_raises :
  raised_with (λ e, bool_decide (exn_cls e = ProtocolError)) (fst refused_run) = true.
Proof. vm_compute. reflexivity. Qed.

Lemma update_failure_cancels_witness :
  ∃ e, fst refused_run = Raised e ∧ exn_cls e = ProtocolError
    ∧ failure example_id 1000 e (io_trace (snd refused_run)).
Proof.
  pose proof refused_raises as He.
  destruct refused_run as [[r|e|] s'] eqn:H; [discriminate He | | discriminate He].
  exists e. split; [reflexivity |]. split; [exact (bool_decide_eq_true_1 _ He) |].
  apply (update_failure_cancels (Ok 32768) example_bundle (Some example_id) [] 1000 false
    (Io refused_script [] [])); [| exact I | reflexivity | exact H].
  split; repeat constructor; discriminate.
Defined.

(** Termination.  For every finite sequence of replies and timeouts the
    transaction returns, raises, or waits for a further reply: no loop of it
    runs forever, because every round of the data loop uses up a reply. *)
Theorem update_terminates ready bundle operation_id random timeout callback s :
  env_ok s → res_ok ready →
  outcome_ok (fst (perform_system_update ready bundle operation_id random timeout callback s)).
Proof. intros Henv Hready. by apply safe_perform. Qed.

Lemma update_terminates_witness :
  env_ok (Io example_script [] []) ∧ outcome_ok (fst example_run).
Proof.
  assert (H : env_ok (Io example_script [] [])) by (split; repeat constructor; discriminate).
  split; [exact H |].
  exact (update_terminates (Ok 32768) example_bundle (Some example_id) [] 1000 false _ H I).
Defined.
