(* ===== verification/Files.v ===== *)
(** * The device file service ([files.py])

    [DeviceFiles]: path validation, the checked responses, listing with
    pagination, ranged reads, and uploads with acknowledged chunks,
    reconciliation of lost acknowledgements, commit and abort. *)
From S2P Require Import Prelude Enums Text Sha256 Protocol Effects Io Device.

(** ** Constants *)

Definition FILE_KIND (kind : Z) : option string :=
  match kind with 1 => Some "file" | 2 => Some "directory" | _ => None end%string.

Definition VOLUME_CAPABILITIES : list (Z * string) :=
  [(1, "read"); (2, "list"); (4, "mtime"); (8, "write"); (16, "delete"); (32, "mkdir");
   (64, "rename"); (128, "atomic_replace"); (256, "hash")]%string.
Definition WRITE_OVERWRITE : Z := 1.
Definition WRITE_IF_MATCH : Z := 2.
Definition WRITE_ACTIVE : Z := 1.
Definition WRITE_COMMITTED : Z := 2.
Definition WRITE_ABORTED : Z := 3.

(** A [FileServiceError]: the exception carries its status. *)
Definition file_service_error {A} (status : FileStatus.FileStatus_t) : res A :=
  Err (Exn FileServiceError "file operation failed" status).

Definition file_error_http_status (status : FileStatus.FileStatus_t) : Z :=
  match status with
  | FileStatus.INVALID_ARGUMENT => 400 | FileStatus.NOT_FOUND => 404
  | FileStatus.NOT_DIRECTORY => 400 | FileStatus.NOT_FILE => 400
  | FileStatus.READ_ONLY => 403 | FileStatus.BUSY => 409 | FileStatus.NO_MEMORY => 503
  | FileStatus.IO => 502 | FileStatus.NOT_SUPPORTED => 501 | FileStatus.CONFLICT => 409
  | FileStatus.EXISTS => 409 | FileStatus.NOT_EMPTY => 409 | FileStatus.NO_SPACE => 507
  | FileStatus.HASH_MISMATCH => 422 | FileStatus.OK => 502
  end.

(** ** Paths *)

(** [VOLUME_ID.fullmatch(volume)] *)
Definition volume_char (b : Z) : bool :=
  ((65 <=? b) && (b <=? 90)) || ((97 <=? b) && (b <=? 122)) || ((48 <=? b) && (b <=? 57))
  || (b =? 95) || (b =? 45).
Definition volume_id_ok (volume : string) : bool :=
  let l := str_encode volume in
  (1 <=? zlen l) && (zlen l <=? 15) && forallb volume_char l.

Definition path_split (path : string) : list string :=
  if (path =? "")%string then [] else split_on "/" path.

Definition _path_payload (volume path : string) : res bytes :=
  if negb (volume_id_ok volume)
  then raise ValueError "file volume ID must contain 1 to 15 ASCII identifier bytes"
  else if starts_with "/" path || ends_with "/" path
          || existsb (λ b, b =? 92) (str_encode path)
  then raise ValueError "file path must be an unrooted canonical relative path"
  else if existsb (λ part, bool_decide (part ∈ [""; "."; ".."]%string)) (path_split path)
  then raise ValueError "file path contains an invalid component"
  else
    let encoded_volume := str_encode volume in
    encoded_path ← encode_utf8 path;
    if (255 <? zlen encoded_path)
       || existsb (λ value, (value <? 0x20) || (value =? 0x7F)) encoded_path
    then raise ValueError "file path exceeds 255 bytes or contains control bytes"
    else
      v ← pack_uint 1 (zlen encoded_volume);
      p ← pack_uint 2 (zlen encoded_path);
      Ok ((v ++ [0] ++ p) ++ encoded_volume ++ encoded_path).

(** ** Requests and checked responses *)

(** [self._session._request(Channel.FILE, type, payload, timeout, stream_id=...)];
    timeouts in milliseconds, 3 seconds by default. *)
Definition file_request (type : FileType.FileType_t) (payload : bytes) (timeout stream_id : Z)
    : request := Request Channel.FILE type payload timeout stream_id.

Definition file_status (raw : Z) : option FileStatus.FileStatus_t := enum_of_value raw.

Definition _checked (frame : Frame) (type : FileType.FileType_t) (minimum : Z) : res bytes :=
  let p := fr_payload frame in
  if negb (fr_channel frame =? Channel.FILE) || negb (fr_type frame =? type) || (zlen p <? 4)
  then raise ProtocolError "unexpected file response"
  else
    match file_status (u16_at p 0) with
    | None => raise ProtocolError "unknown file status"
    | Some FileStatus.OK =>
      if zlen p <? minimum then raise ProtocolError "short file response" else Ok p
    | Some status => file_service_error status
    end.

(** ** Volumes *)

Record volume_info := {
  vi_id : string;
  vi_capabilities : Z;
  vi_capability_names : list string;
}.
Record volumes_info := {
  vs_volumes : list volume_info;
  vs_chunk_max : Z;
  vs_path_max : Z;
}.

Definition capability_names (capabilities : Z) : list string :=
  map snd (List.filter (λ c, negb (Z.land capabilities (fst c) =? 0)) VOLUME_CAPABILITIES).

(** [for _ in range(count)] *)
Fixpoint volumes_loop (count : nat) (payload : bytes) (offset : Z) (volumes : list volume_info)
    : res (Z * list volume_info) :=
  match count with
  | O => Ok (offset, volumes)
  | S count =>
    if zlen payload <? offset + 4 then raise ProtocolError "truncated file volume record"
    else
      let name_size := u8_at payload offset in
      let reserved := u8_at payload (offset + 1) in
      let capabilities := u16_at payload (offset + 2) in
      let offset := offset + 4 in
      if negb (reserved =? 0) || (name_size =? 0) || (zlen payload <? offset + name_size)
      then raise ProtocolError "invalid file volume record"
      else
        name ← ascii_decode (slice offset (offset + name_size) payload);
        volumes_loop count payload (offset + name_size)
          (volumes ++ [{| vi_id := name; vi_capabilities := capabilities;
                          vi_capability_names := capability_names capabilities |}])
  end.

Definition decode_volumes (payload : bytes) : res volumes_info :=
  let chunk_max := u16_at payload 4 in
  let path_max := u16_at payload 6 in
  let count := byte_at payload 8 in
  '(offset, volumes) ← volumes_loop (Z.to_nat count) payload 12 [];
  if negb (offset =? zlen payload) || (chunk_max =? 0) || (path_max =? 0)
  then raise ProtocolError "invalid file volumes response"
  else Ok {| vs_volumes := volumes; vs_chunk_max := chunk_max; vs_path_max := path_max |}.

Definition volumes : M volumes_info :=
  frame ← send_request (file_request FileType.VOLUMES_REQUEST [] 3000 0);
  payload ← lift (_checked frame FileType.VOLUMES_RESPONSE 12);
  lift (decode_volumes payload).

(** ** Metadata *)

Record file_metadata := {
  fm_kind : string;
  fm_size : Z;
  fm_mtime_s : Z;
  fm_etag : string;
}.

(** [f"{z:016x}"] of a 64-bit value. *)
Definition hex16 (z : Z) : string := hex (be_encode 8 z).

Definition _metadata (payload : bytes) (offset : Z) (list_entry : bool) : res file_metadata :=
  if zlen payload <? offset + 28 then raise ProtocolError "short file metadata"
  else
    let kind := u8_at payload offset in
    let reserved_byte := u8_at payload (offset + 1) in
    let reserved := u16_at payload (offset + 2) in
    match FILE_KIND kind with
    | None => raise ProtocolError "invalid file metadata"
    | Some name =>
      if (negb list_entry && negb (reserved_byte =? 0)) || negb (reserved =? 0)
      then raise ProtocolError "invalid file metadata"
      else Ok {| fm_kind := name; fm_size := u64_at payload (offset + 4);
                 fm_mtime_s := u64_at payload (offset + 12);
                 fm_etag := hex16 (u64_at payload (offset + 20)) |}
    end.

(** The shape of [stat], [mkdir] and, from a COMMIT, of an upload. *)
Definition path_request (request_type response_type : FileType.FileType_t) (volume path : string)
    : M file_metadata :=
  payload ← lift (_path_payload volume path);
  frame ← send_request (file_request request_type payload 3000 0);
  payload ← lift (_checked frame response_type 32);
  if negb (zlen payload =? 32) then throw ProtocolError "invalid file response"
  else lift (_metadata payload 4 false).

Definition stat (volume path : string) : M file_metadata :=
  path_request FileType.STAT_REQUEST FileType.STAT_RESPONSE volume path.
Definition mkdir (volume path : string) : M file_metadata :=
  path_request FileType.MKDIR FileType.MKDIR_RESPONSE volume path.

Definition delete (volume path : string) : M () :=
  payload ← lift (_path_payload volume path);
  frame ← send_request (file_request FileType.DELETE payload 3000 0);
  payload ← lift (_checked frame FileType.DELETE_RESPONSE 4);
  lift (raise_if (negb (zlen payload =? 4)) ProtocolError "invalid file delete response").

Definition rename_payload (volume source destination : string) : res bytes :=
  _ ← _path_payload volume source;
  _ ← _path_payload volume destination;
  encoded_source ← encode_utf8 source;
  encoded_destination ← encode_utf8 destination;
  v ← pack_uint 1 (zlen (str_encode volume));
  s ← pack_uint 2 (zlen encoded_source);
  d ← pack_uint 2 (zlen encoded_destination);
  Ok ((v ++ [0] ++ s ++ d ++ [0; 0]) ++ str_encode volume ++ encoded_source
      ++ encoded_destination).

Definition rename (volume source destination : string) : M file_metadata :=
  payload ← lift (rename_payload volume source destination);
  frame ← send_request (file_request FileType.RENAME payload 3000 0);
  response ← lift (_checked frame FileType.RENAME_RESPONSE 32);
  if negb (zlen response =? 32) then throw ProtocolError "invalid file rename response"
  else lift (_metadata response 4 false).

(** ** Listing *)

Record list_result := {
  lr_entries : list (string * file_metadata);
  lr_cursor : Z;
  lr_next_cursor : option Z;
}.

(** The variables of the loop: [entries], [seen], and whether it has left by
    its [break]. *)
Record list_state := ListState {
  li_entries : list (string * file_metadata);
  li_seen : Z;
  li_break : bool;
}.

Definition close_stream (stream_id : Z) : M () :=
  suppress (send_request (file_request FileType.CLOSE [] 3000 stream_id)).

Definition open_list (volume path : string) : M Z :=
  payload ← lift (_path_payload volume path);
  opened ← send_request (file_request FileType.LIST_OPEN payload 3000 0);
  payload ← lift (_checked opened FileType.LIST_OPENED 8);
  if negb (zlen payload =? 8) then throw ProtocolError "invalid file list open response"
  else
    let stream_id := u32_at payload 4 in
    if (stream_id =? 0) || negb (fr_stream_id opened =? stream_id)
    then throw ProtocolError "invalid file list stream ID"
    else mret stream_id.

(** The entry of a page, [None] for an empty page, and its end flag. *)
Definition decode_page (stream_id : Z) (frame : Frame)
    : res (option (string * file_metadata) * bool) :=
  page ← _checked frame FileType.LIST_DATA 4;
  if negb (fr_stream_id frame =? stream_id)
     || negb ((byte_at page 3 =? 0) || (byte_at page 3 =? 1))
  then raise ProtocolError "invalid file list page"
  else
    let ended := Z.testbit (byte_at page 2) 0 in
    if byte_at page 3 =? 1 then
      metadata ← _metadata page 4 true;
      let name_size := byte_at page 5 in
      if negb (zlen page =? 32 + name_size) then raise ProtocolError "invalid file list entry"
      else
        name ← utf8_decode (slice_from 32 page);
        Ok (Some (name, metadata), ended)
    else if negb (zlen page =? 4) then raise ProtocolError "invalid empty file list page"
    else Ok (None, ended).

Definition list_round (stream_id cursor limit : Z) (st : list_state) : M list_state :=
  frame ← send_request (file_request FileType.LIST_NEXT [] 3000 stream_id);
  '(entry, ended) ← lift (decode_page stream_id frame);
  let '(entries, seen) :=
    match entry with
    | Some e => (if cursor <=? li_seen st then li_entries st ++ [e] else li_entries st,
                 li_seen st + 1)
    | None => (li_entries st, li_seen st)
    end in
  mret (ListState entries seen (ended || (limit <? zlen entries))).

Definition list_loop (stream_id cursor limit : Z) : M list_state :=
  while (λ st, negb (li_break st) && (zlen (li_entries st) <=? limit))
    (list_round stream_id cursor limit) (ListState [] 0 false).

(** [has_more], [entries.pop()] and [next_cursor] *)
Definition list_page (cursor limit : Z) (entries : list (string * file_metadata)) : list_result :=
  let has_more := limit <? zlen entries in
  let entries := if has_more then removelast entries else entries in
  {| lr_entries := entries; lr_cursor := cursor;
     lr_next_cursor := if has_more then Some (cursor + zlen entries) else None |}.

Definition list_directory (volume path : string) (cursor limit : Z) : M list_result :=
  if (cursor <? 0) || negb ((1 <=? limit) && (limit <=? 200))
  then throw ValueError "file list cursor/limit is outside the supported range"
  else
    stream_id ← open_list volume path;
    st ← try_finally (list_loop stream_id cursor limit) (close_stream stream_id);
    mret (list_page cursor limit (li_entries st)).

(** ** Reading *)

Definition open_read (volume path : string) : M (Z * Z * Z) :=
  payload ← lift (_path_payload volume path);
  opened ← send_request (file_request FileType.READ_OPEN payload 3000 0);
  payload ← lift (_checked opened FileType.READ_OPENED 36);
  if negb (zlen payload =? 36) then throw ProtocolError "invalid file read open response"
  else
    let stream_id := u32_at payload 4 in
    let total_size := u64_at payload 8 in
    let chunk_max := u16_at payload 32 in
    let reserved := u16_at payload 34 in
    if (stream_id =? 0) || negb (fr_stream_id opened =? stream_id) || (chunk_max =? 0)
       || negb (reserved =? 0)
    then throw ProtocolError "invalid file read stream metadata"
    else mret (stream_id, total_size, chunk_max).

Definition read_message (cursor maximum : Z) : res bytes :=
  c ← pack_uint 8 cursor; m ← pack_uint 2 maximum; Ok (c ++ m ++ [0; 0]).

(** The data of a READ reply. *)
Definition check_read (stream_id total_size cursor maximum : Z) (frame : Frame) : res bytes :=
  p ← _checked frame FileType.DATA 20;
  let returned_offset := u64_at p 4 in
  let returned_total := u64_at p 12 in
  let data := slice_from 20 p in
  if negb (fr_stream_id frame =? stream_id) || negb (returned_offset =? cursor)
     || negb (returned_total =? total_size) || is_nil data || (maximum <? zlen data)
  then raise ProtocolError "invalid file data response"
  else Ok data.

(** One round of [while cursor < end]. *)
Definition read_round (stream_id total_size chunk_max end_ cursor : Z) : M Z :=
  let maximum := Z.min (Z.min chunk_max (end_ - cursor)) 0xFFFF in
  message ← lift (read_message cursor maximum);
  frame ← send_request (file_request FileType.READ message 3000 stream_id);
  data ← lift (check_read stream_id total_size cursor maximum frame);
  let data := if end_ <? cursor + zlen data then slice 0 (end_ - cursor) data else data in
  let cursor := cursor + zlen data in
  _ ← yield_data data;
  mret cursor.

Definition read_chunks (volume path : string) (offset : Z) (length : option Z) : M () :=
  if (offset <? 0) || match length with Some n => n <? 0 | None => false end
  then throw ValueError "file read range must be nonnegative"
  else
    '(stream_id, total_size, chunk_max) ← open_read volume path;
    if total_size <? offset then throw ValueError "file read offset exceeds file size"
    else
      let end_ := match length with
                  | None => total_size
                  | Some n => Z.min total_size (offset + n)
                  end in
      _ ← try_finally
        (while (λ cursor, cursor <? end_)
           (read_round stream_id total_size chunk_max end_) offset)
        (close_stream stream_id);
      mret ().

(** ** Uploads *)

(** The value of sixteen hexadecimal digits. *)
Fixpoint hex_int (acc : Z) (s : string) : option Z :=
  match s with
  | EmptyString => Some acc
  | String a t => v ← hex_value a; hex_int (16 * acc + v) t
  end.

Definition _etag_value (value : option string) : res Z :=
  match value with
  | None => Ok 0
  | Some value =>
    let normalized := strip_char 34 (remove_prefix (strip value) "W/") in
    if negb (String.length normalized =? 16)%nat
    then raise ValueError "file etag must contain exactly 16 hexadecimal characters"
    else
      match hex_int 0 normalized with
      | Some z => Ok z
      | None => raise ValueError "file etag must contain exactly 16 hexadecimal characters"
      end
  end.

Record write_status_info := {
  ws_stream_id : Z;
  ws_committed : Z;
  ws_expected : Z;
  ws_state : Z;
  ws_result : FileStatus.FileStatus_t;
}.

Definition decode_write_status (stream_id : Z) (frame : Frame) : res write_status_info :=
  p ← _checked frame FileType.WRITE_STATUS_RESPONSE 28;
  if negb (zlen p =? 28) || negb (fr_stream_id frame =? stream_id)
  then raise ProtocolError "invalid file write status response"
  else
    let state := byte_at p 20 in
    if negb ((state =? WRITE_ACTIVE) || (state =? WRITE_COMMITTED) || (state =? WRITE_ABORTED))
       || existsb (λ b, negb (b =? 0)) (slice 21 24 p) || negb (u16_at p 26 =? 0)
    then raise ProtocolError "invalid file write status fields"
    else
      match file_status (u16_at p 24) with
      | None => raise ProtocolError "unknown file write result"
      | Some result =>
        Ok {| ws_stream_id := stream_id; ws_committed := u64_at p 4; ws_expected := u64_at p 12;
              ws_state := state; ws_result := result |}
      end.

Definition write_status (stream_id : Z) : M write_status_info :=
  frame ← send_request (file_request FileType.WRITE_STATUS [] 3000 stream_id);
  lift (decode_write_status stream_id frame).

(** [for attempt in range(12)], from [attempt] with [n] attempts left. *)
Fixpoint reconcile_loop (n : nat) (attempt stream_id : Z) : M write_status_info :=
  match n with
  | O => throw AssertionError "unreachable file write reconciliation state"
  | S n =>
    r ← try_except (s ← write_status stream_id; mret (Some s)) [FileServiceError] (λ e,
      if negb (exn_status e =? FileStatus.BUSY) || (attempt =? 11)
      then lift (Err e)
      else
        _ ← emit (EvSleep (Z.min (50 * (attempt + 1)) 500));
        mret None);
    match r with
    | Some s => mret s
    | None => reconcile_loop n (attempt + 1) stream_id
    end
  end.

Definition _reconcile_write_status (stream_id : Z) : M write_status_info :=
  reconcile_loop 12 0 stream_id.

(** The upload in progress. *)
Record upload_context := {
  up_stream_id : Z;
  up_chunk_max : Z;
  up_total_size : Z;
  up_progress : bool;
}.

Section upload.
Context (up : upload_context).

Definition write_message (committed : Z) (part : bytes) : res bytes :=
  c ← pack_uint 8 committed; n ← pack_uint 2 (zlen part); Ok ((c ++ n ++ [0; 0]) ++ part).

Definition check_ack (target : Z) (frame : Frame) : res () :=
  ack ← _checked frame FileType.WRITE_ACK 12;
  raise_if (negb (zlen ack =? 12) || negb (fr_stream_id frame =? up_stream_id up)
            || negb (u64_at ack 4 =? target))
    ProtocolError "invalid file write acknowledgement".

(** One attempt of lines 373-400: was the part acknowledged? *)
Definition write_attempt (attempt committed : Z) (part : bytes) : M bool :=
  let target := committed + zlen part in
  try_except
    (message ← lift (write_message committed part);
     frame ← send_request (file_request FileType.WRITE message 10000 (up_stream_id up));
     _ ← lift (check_ack target frame);
     mret true)
    [TimeoutError]
    (λ e,
      status ← _reconcile_write_status (up_stream_id up);
      if ws_committed status =? target then mret true
      else if negb (ws_committed status =? committed) || negb (attempt =? 0)
      then lift (Err e)
      else mret false).

(** Lines 370-406: one part, in at most two attempts. *)
Definition write_part (committed : Z) (part : bytes) : M Z :=
  acknowledged ← write_attempt 0 committed part;
  acknowledged ← (if acknowledged : bool then mret true else write_attempt 1 committed part);
  if negb acknowledged
  then throw TimeoutError "file write acknowledgement was not recovered"
  else
    let committed := committed + zlen part in
    _ ← report (up_progress up) (Progress "upload" None "" None committed (up_total_size up) 0 "");
    mret committed.

(** [data[start : start + chunk_max] for start in range(0, len(data), chunk_max)] *)
Fixpoint parts (fuel : nat) (chunk_max : Z) (data : bytes) : list bytes :=
  match fuel with
  | O => []
  | S fuel =>
    if is_nil data then []
    else slice 0 chunk_max data :: parts fuel chunk_max (slice_from chunk_max data)
  end.

(** The parts of one chunk; the digest so far is that of the bytes sent. *)
Fixpoint write_parts (sent : bytes) (ps : list bytes) : M bytes :=
  match ps with
  | [] => mret sent
  | part :: ps =>
    _ ← write_part (zlen sent) part;
    write_parts (sent ++ part) ps
  end.

(** [async for chunk in chunks], over what the source yields or raises. *)
Fixpoint write_chunks (sent : bytes) (chunks : list (res bytes)) : M bytes :=
  match chunks with
  | [] => mret sent
  | chunk :: chunks =>
    data ← lift chunk;
    if is_nil data then write_chunks sent chunks
    else if up_total_size up <? zlen sent + zlen data
    then throw ValueError "HTTP upload exceeds its declared content length"
    else
      sent ← write_parts sent (parts (length data) (up_chunk_max up) data);
      write_chunks sent chunks
  end.

(** Lines 409-434: the COMMIT reply, or [None] when a status query shows that
    the write is committed. *)
Definition commit_upload (digest : bytes) : M (option Frame) :=
  let commit := file_request FileType.COMMIT digest 15000 (up_stream_id up) in
  try_except
    (frame ← send_request commit; mret (Some frame))
    [TimeoutError]
    (λ _,
      status ← _reconcile_write_status (up_stream_id up);
      if (ws_state status =? WRITE_COMMITTED) && bool_decide (ws_result status = FileStatus.OK)
      then mret None
      else if negb (ws_state status =? WRITE_ACTIVE)
      then lift (file_service_error (ws_result status))
      else frame ← send_request commit; mret (Some frame)).

(** The guarded part up to [complete = True]: the bytes sent and the COMMIT
    response. *)
Definition upload_body (chunks : list (res bytes)) : M (bytes * option bytes) :=
  sent ← write_chunks [] chunks;
  if negb (zlen sent =? up_total_size up)
  then throw ValueError "HTTP upload ended before its declared content length"
  else
    frame ← commit_upload (sha256 sent);
    match frame with
    | None => mret (sent, None)
    | Some frame =>
      result ← lift (_checked frame FileType.COMMIT_RESPONSE 32);
      if negb (zlen result =? 32) || negb (fr_stream_id frame =? up_stream_id up)
      then throw ProtocolError "invalid file commit response"
      else mret (sent, Some result)
    end.

Definition abort_upload : M () :=
  suppress (send_request (file_request FileType.ABORT [] 10000 (up_stream_id up))).
End upload.

Record upload_result := {
  fu_metadata : file_metadata;
  fu_sha256 : string;
  fu_replaced : bool;
}.

Definition open_write (volume path : string) (total_size if_match flags : Z) : M (Z * Z) :=
  payload ← lift (_path_payload volume path);
  t ← lift (pack_uint 8 total_size);
  i ← lift (pack_uint 8 if_match);
  f ← lift (pack_uint 2 flags);
  opened ← send_request
    (file_request FileType.WRITE_OPEN (payload ++ t ++ i ++ f ++ [0; 0]) 10000 0);
  payload ← lift (_checked opened FileType.WRITE_OPENED 12);
  if negb (zlen payload =? 12) then throw ProtocolError "invalid file write open response"
  else
    let stream_id := u32_at payload 4 in
    let chunk_max := u16_at payload 8 in
    let reserved := u16_at payload 10 in
    if (stream_id =? 0) || negb (fr_stream_id opened =? stream_id) || (chunk_max =? 0)
       || negb (reserved =? 0)
    then throw ProtocolError "invalid file write stream metadata"
    else mret (stream_id, chunk_max).

(** After [complete = True] nothing is aborted any more: the [finally] clause
    acts on the exceptions of [upload_body] only. *)
Definition upload (volume path : string) (chunks : list (res bytes)) (total_size : Z)
    (overwrite : bool) (if_match : option string) (progress : bool) : M upload_result :=
  if (total_size <? 0) || (2 ^ 63 <=? total_size)
  then throw ValueError "file upload size is outside the supported range"
  else
    if_match_value ← lift (_etag_value if_match);
    let flags := Z.lor (if overwrite then WRITE_OVERWRITE else 0)
                       (match if_match with Some _ => WRITE_IF_MATCH | None => 0 end) in
    '(stream_id, chunk_max) ← open_write volume path total_size if_match_value flags;
    let up := {| up_stream_id := stream_id; up_chunk_max := chunk_max;
                 up_total_size := total_size; up_progress := progress |} in
    '(sent, result) ← on_error (upload_body up chunks) (abort_upload up);
    metadata ← match result with
               | None => stat volume path
               | Some result => lift (_metadata result 4 false)
               end;
    mret {| fu_metadata := metadata; fu_sha256 := hex (sha256 sent); fu_replaced := overwrite |}.

(** ** Paths: what is accepted, and that the encoding is unambiguous *)

Record canonical (volume path : string) : Prop := {
  can_volume : 1 ≤ zlen (str_encode volume) ≤ 15 ∧ Forall (λ b, volume_char b = true) (str_encode volume);
  can_relative : starts_with "/" path = false ∧ ends_with "/" path = false
    ∧ 92 ∉ str_encode path;
  can_parts : ∀ part, part ∈ path_split path → part ∉ [""; "."; ".."]%string;
  can_text : utf8_valid (str_encode path) = true
    ∧ Forall (λ b, 0x20 ≤ b ∧ b ≠ 0x7F) (str_encode path);
  can_length : zlen (str_encode path) ≤ 255;
}.

Definition path_wire (volume path : string) : bytes :=
  le_encode 1 (zlen (str_encode volume)) ++ [0] ++ le_encode 2 (zlen (str_encode path))
  ++ str_encode volume ++ str_encode path.

Lemma existsb_false {A} (f : A → bool) l : existsb f l = false ↔ Forall (λ x, f x = false) l.
Proof.
  induction l as [|x l IH]; simpl; [by split |].
  rewrite orb_false_iff, IH, Forall_cons. done.
Qed.

Lemma raise_not_Ok {A} c msg (a : A) : raise c msg ≠ Ok a.
Proof. discriminate. Qed.

Lemma _path_payload_spec volume path b :
  _path_payload volume path = Ok b ↔ canonical volume path ∧ b = path_wire volume path.
Proof.
  unfold _path_payload. split.
  - intros H. res_inv.
    apply negb_false_iff in G. unfold volume_id_ok in G.
    apply andb_true_iff in G as [G Gc]. apply andb_true_iff in G as [G1' G2'].
    apply orb_false_iff in G0 as [Gr G0b]. apply orb_false_iff in Gr as [Gs Ge].
    apply existsb_false in G0b, G1. apply orb_false_iff in G2 as [Glen Gctl].
    apply existsb_false in Gctl. unfold encode_utf8 in E.
    destruct (utf8_valid (str_encode path)) eqn:Hv; [| discriminate]. injection E as <-.
    apply pack_uint_inv in E0 as [-> _], E1 as [-> _].
    split; [| by injection H as <-]. split.
    + split; [lia | by apply Forall_forall; intros x Hx;
        rewrite forallb_forall in Gc; apply Gc, list_elem_of_In].
    + split; [done |]. split; [done |]. intros Hin. rewrite Forall_forall in G0b.
      by apply G0b in Hin.
    + intros part Hp. rewrite Forall_forall in G1. apply G1 in Hp.
      by apply bool_decide_eq_false in Hp.
    + split; [done |]. eapply Forall_impl; [exact Gctl |]. simpl. lia.
    + lia.
  - intros [[[Hv1 Hv2] (Hs & He & Hb) Hp [Hu Hctl] Hlen] ->].
    assert (Hvol : volume_id_ok volume = true).
    { unfold volume_id_ok. rewrite !andb_true_iff. split; [lia |].
      apply forallb_forall. intros x Hx. rewrite Forall_forall in Hv2.
      by apply Hv2, list_elem_of_In. }
    rewrite Hvol. cbn [negb]. rewrite Hs, He. cbn [orb].
    rewrite (proj2 (existsb_false (λ b, b =? 92) _)).
    2: { apply Forall_forall. intros x Hx. apply Z.eqb_neq. by intros ->. }
    rewrite (proj2 (existsb_false _ _)).
    2: { apply Forall_forall. intros x Hx. by apply bool_decide_eq_false, Hp. }
    unfold encode_utf8. rewrite Hu. cbn [mbind res_bind].
    rewrite (proj2 (Z.ltb_ge _ _)) by lia. cbn [orb].
    rewrite (proj2 (existsb_false _ _)).
    2: { eapply Forall_impl; [exact Hctl |]. simpl. lia. }
    pose proof (zlen_nonneg (str_encode path)).
    rewrite !pack_uint_ok by (simpl; lia). cbn [mbind res_bind].
    unfold path_wire. by rewrite <- !app_assoc.
Qed.

Lemma path_wire_inj volume path volume' path' :
  canonical volume path → canonical volume' path' →
  path_wire volume path = path_wire volume' path' → volume = volume' ∧ path = path'.
Proof.
  intros H H' Heq. unfold path_wire in Heq.
  pose proof (can_volume _ _ H) as [Hv _]. pose proof (can_volume _ _ H') as [Hv' _].
  apply app_inj_1 in Heq as [Hlen Heq]; [| by rewrite !length_le_encode].
  apply (f_equal le_decode) in Hlen. rewrite !le_decode_encode in Hlen by (simpl; lia).
  apply app_inj_1 in Heq as [_ Heq]; [| done].
  apply app_inj_1 in Heq as [_ Heq]; [| by rewrite !length_le_encode].
  apply app_inj_1 in Heq as [Hvol Hpath]; [| unfold zlen in Hlen; lia].
  split; by apply str_encode_inj.
Qed.

(** ** Reading yields a contiguous range *)

Definition yielded (t : list event) : bytes :=
  concat (map (λ e, match e with EvYield d => d | _ => [] end) t).

Lemma yielded_app t u : yielded (t ++ u) = yielded t ++ yielded u.
Proof. unfold yielded. by rewrite map_app, concat_app. Qed.

(** A device that serves [content]: the size it announces is the content's,
    and the data it returns is the content at the offset it states. *)
Definition serves (content : bytes) (e : event) : Prop :=
  match e with
  | EvReply (Ok f) =>
    let p := fr_payload f in
    (fr_type f = FileType.READ_OPENED → u64_at p 8 = zlen content)
    ∧ (fr_type f = FileType.DATA →
       slice_from 20 p = slice (u64_at p 4) (u64_at p 4 + zlen (slice_from 20 p)) content)
  | _ => True
  end.

Lemma _checked_Ok f ty n p :
  _checked f ty n = Ok p → p = fr_payload f ∧ fr_type f = FileType.FileType_value ty
    ∧ n ≤ zlen p ∧ fr_channel f = Channel.FILE.
Proof.
  unfold _checked. intros H. res_inv. apply orb_false_iff in G as [G _].
  apply orb_false_iff in G as [Gc Gt]. apply negb_false_iff, Z.eqb_eq in Gc, Gt.
  destruct (file_status _) as [[]|]; try discriminate. res_inv. injection H as <-.
  split_and!; [done | done | lia | done].
Qed.

Lemma slice_append {A} (l : list A) a b c :
  0 ≤ a ≤ b → b ≤ c → slice a b l ++ slice b c l = slice a c l.
Proof.
  intros Hab Hbc. unfold slice.
  replace (Z.to_nat b) with (Z.to_nat a + Z.to_nat (b - a))%nat by lia.
  rewrite <- drop_drop, take_take_drop. f_equal. lia.
Qed.

Lemma slice_empty {A} (l : list A) a : slice a a l = [].
Proof. unfold slice. by rewrite Z.sub_diag. Qed.

Lemma check_read_Ok stream_id total cursor maximum f data :
  check_read stream_id total cursor maximum f = Ok data →
  data = slice_from 20 (fr_payload f) ∧ fr_type f = FileType.DATA
  ∧ u64_at (fr_payload f) 4 = cursor ∧ 0 < zlen data ≤ maximum.
Proof.
  unfold check_read. intros H. bind H as p Hp. res_inv.
  apply _checked_Ok in Hp as (-> & Ht & _ & _). injection H as <-.
  apply orb_false_iff in G as [G Gmax]. apply orb_false_iff in G as [G Gnil].
  apply orb_false_iff in G as [G Gtot]. apply orb_false_iff in G as [Gs Go].
  apply negb_false_iff, Z.eqb_eq in Go. split_and!; try done.
  - destruct (slice_from 20 (fr_payload f)); [done |]. rewrite zlen_cons.
    pose proof (zlen_nonneg l). lia.
  - lia.
Qed.

(** The bytes a read has yielded: a range of the content from [offset]. *)
Definition read_so_far (content : bytes) (offset end_ : Z) (exact : bool) (t : list event) : Prop :=
  Forall (serves content) t →
  ∃ c, offset ≤ c ≤ Z.max offset end_ ∧ (exact = true → end_ ≤ c)
       ∧ yielded t = slice offset c content.

Lemma read_round_spec content stream_id total chunk_max offset end_ cursor t0 :
  0 ≤ offset ≤ cursor → cursor < end_ →
  (Forall (serves content) t0 → yielded t0 = slice offset cursor content) →
  spec (read_round stream_id total chunk_max end_ cursor) (λ o t,
    match o with
    | Done c => cursor ≤ c ≤ end_ ∧ (0 < replies t)%nat
        ∧ (Forall (serves content) (t0 ++ t) → yielded (t0 ++ t) = slice offset c content)
    | _ => read_so_far content offset end_ false (t0 ++ t)
    end).
Proof.
  intros Hoff Hend H0. unfold read_round.
  assert (Hstop : ∀ t, yielded t = [] → read_so_far content offset end_ false (t0 ++ t)).
  { intros t Ht Hs. apply Forall_app in Hs as [Hs _]. exists cursor.
    split; [lia |]. split; [done |]. by rewrite yielded_app, Ht, app_nil_r, H0. }
  apply spec_bind, spec_lift; [| intros; by apply Hstop]. intros m _.
  apply spec_bind, spec_request; [by apply Hstop | | intros; by apply Hstop].
  intros f. apply spec_bind, spec_lift; [| intros; by apply Hstop].
  intros data Hd%check_read_Ok. destruct Hd as (Hd & Hty & Ho & Hlen).
  set (maximum := Z.min (Z.min chunk_max (end_ - cursor)) 0xFFFF) in *.
  rewrite (proj2 (Z.ltb_ge end_ _)) by lia.
  assert (Hy : Forall (serves content) (t0 ++ [EvSend (file_request FileType.READ m 3000 stream_id);
      EvReply (Ok f); EvYield data]) →
    yielded (t0 ++ [EvSend (file_request FileType.READ m 3000 stream_id);
      EvReply (Ok f); EvYield data]) = slice offset (cursor + zlen data) content).
  { intros Hs. apply Forall_app in Hs as [Hs Hs2]. rewrite yielded_app, H0 by done.
    apply Forall_cons in Hs2 as [_ Hs2]. apply Forall_cons in Hs2 as [[_ Hserve] _].
    specialize (Hserve Hty). rewrite Ho, <- Hd in Hserve.
    unfold yielded. simpl. rewrite app_nil_r, Hserve at 1.
    apply slice_append; lia. }
  apply spec_bind, spec_yield.
  - apply spec_ret. cbn [app]. split; [lia |]. split; [rlia | done].
  - intros e Hs. exists (cursor + zlen data). split; [lia |]. split; [done |]. by apply Hy.
Qed.

(** ** Streams are closed *)

Definition close_request (stream_id : Z) : request := file_request FileType.CLOSE [] 3000 stream_id.

Lemma spec_closing {A} (m : M A) stream_id (Q : outcome A → list event → Prop) :
  spec m (λ o t, match o with
    | Blocked => Q Blocked t
    | _ => Q Blocked (t ++ [EvSend (close_request stream_id)])
           ∧ ∀ a, let u := t ++ [EvSend (close_request stream_id); EvReply a] in
             Q o u ∧ ∀ e, Q (Raised e) u
    end) → spec (try_finally m (close_stream stream_id)) Q.
Proof. apply spec_finally_request. Qed.

Definition sends_type (ty : FileType.FileType_t) (t : list event) : Prop :=
  ∃ r, EvSend r ∈ t ∧ rq_channel r = Channel.FILE ∧ rq_type r = ty.

(** Unless it waits for a reply, a transaction that used a stream has closed
    it last. *)
Definition closes {A} (ty : FileType.FileType_t) (o : outcome A) (t : list event) : Prop :=
  o = Blocked ∨ ¬ sends_type ty t
  ∨ ∃ t1 stream_id a, t = t1 ++ [EvSend (close_request stream_id); EvReply a].

Lemma closes_last {A} ty (o : outcome A) t stream_id a :
  closes ty o (t ++ [EvSend (close_request stream_id); EvReply a]).
Proof. right. right. by exists t, stream_id, a. Qed.

Lemma not_sends_type ty r l :
  rq_type r ≠ FileType.FileType_value ty → (∀ e, e ∈ l → is_reply e = true) →
  ¬ sends_type ty (EvSend r :: l).
Proof.
  intros Hr Hl (r' & Hin & _ & Ht). apply elem_of_cons in Hin as [[= ->] | Hin]; [done |].
  by apply Hl in Hin.
Qed.
Lemma not_sends_type_nil ty : ¬ sends_type ty [].
Proof. intros (r & Hin & _). by apply elem_of_nil in Hin. Qed.

(** The opening exchange of a stream. *)
Definition opening (ty : FileType.FileType_t) (t : list event) : Prop :=
  ¬ sends_type ty t ∧ yielded t = [].

Lemma opening_nil ty : opening ty [].
Proof. split; [apply not_sends_type_nil | done]. Qed.

Lemma opening_request ty r (Q : outcome Frame → list event → Prop) :
  rq_type r ≠ FileType.FileType_value ty →
  (∀ o t, opening ty t → (∀ f, o = Done f → EvReply (Ok f) ∈ t) → Q o t) →
  spec (send_request r) Q.
Proof.
  intros Hr HQ. apply spec_request.
  - apply HQ; [| done]. split; [| done]. apply not_sends_type; [done |]. intros e He.
    by apply elem_of_nil in He.
  - intros f. apply HQ.
    + split; [| done]. apply not_sends_type; [done |]. intros e He.
      by apply list_elem_of_singleton in He as ->.
    + intros f' [= ->]. right. left.
  - intros e. apply HQ; [| done]. split; [| done]. apply not_sends_type; [done |].
    intros e' He. by apply list_elem_of_singleton in He as ->.
Qed.

Lemma open_read_spec volume path :
  spec (open_read volume path) (λ o t, opening FileType.READ t ∧ match o with
    | Done (_, total, _) => ∀ content, Forall (serves content) t → total = zlen content
    | _ => True
    end).
Proof.
  unfold open_read. apply spec_bind, spec_lift; [| intros; split; [apply opening_nil | done]].
  intros payload _. apply spec_bind, (opening_request FileType.READ); [discriminate |].
  intros [f|e|] t Ht Hf; [| done | done]. specialize (Hf f eq_refl). cbn [app].
  apply spec_bind, spec_lift; [| intros; rewrite app_nil_r; done].
  intros p Hp. apply _checked_Ok in Hp as (-> & Hty & _). cbn [app].
  assert (Hnil : ∀ (P : Prop), P → opening FileType.READ (t ++ []) ∧ P)
    by (intros; by rewrite app_nil_r).
  case_match; [apply spec_lift; [intros ? H'; discriminate H' | intros; by apply Hnil] |].
  case_match; [apply spec_lift; [intros ? H'; discriminate H' | intros; by apply Hnil] |].
  apply spec_ret. apply Hnil. rewrite app_nil_r. intros content Hs.
  rewrite Forall_forall in Hs. apply Hs in Hf as [Ho _]. by apply Ho.
Qed.

(** Where a read from [offset] stops. *)
Definition read_end (size offset : Z) (length : option Z) : Z :=
  match length with None => size | Some n => Z.min size (offset + n) end.

(** What has been yielded is a range of the content from [offset], the whole
    requested range when the read returned. *)
Definition read_result (content : bytes) (offset : Z) (length : option Z) (o : outcome ())
    (t : list event) : Prop :=
  Forall (serves content) t → ∃ c, yielded t = slice offset c content
    ∧ (o = Done () → offset ≤ zlen content ∧ c = read_end (zlen content) offset length).

Lemma read_loop_spec content stream_id total chunk_max offset end_ :
  0 ≤ offset →
  spec (while (λ cursor, cursor <? end_) (read_round stream_id total chunk_max end_) offset)
    (λ o u, read_so_far content offset end_ (match o with Done _ => true | _ => false end) u).
Proof.
  intros Hoff.
  apply (spec_while (λ c u, offset ≤ c ≤ Z.max offset end_
    ∧ (Forall (serves content) u → yielded u = slice offset c content))).
  - split; [lia |]. intros _. by rewrite slice_empty.
  - intros c u [Hc Hu] Hlt. apply Z.ltb_lt in Hlt.
    eapply spec_mono; [apply (read_round_spec content _ _ _ offset); [lia | done | exact Hu] |].
    intros [c'|e|] v Hv; [| done | done]. destruct Hv as (Hv1 & Hv2 & Hv3).
    split; [split; [lia | done] | done].
  - intros c u [Hc Hu] Hge Hs. apply Z.ltb_ge in Hge. exists c. split; [lia |].
    split; [done | by apply Hu].
Qed.

Lemma read_chunks_spec content volume path offset length :
  spec (read_chunks volume path offset length) (λ o t,
    closes FileType.READ o t ∧ read_result content offset length o t).
Proof.
  assert (Hfail : ∀ (o : outcome ()) t, opening FileType.READ t → o ≠ Done () →
    closes FileType.READ o t ∧ read_result content offset length o t).
  { intros o t [Hs Hy] Ho. split; [right; by left |]. intros _. exists offset.
    rewrite Hy, slice_empty. done. }
  unfold read_chunks. spec_if Hneg.
  { apply spec_throw. intros. apply Hfail; [apply opening_nil | done]. }
  apply orb_false_iff in Hneg as [Hneg Hlen].
  apply spec_bind. eapply spec_mono; [apply open_read_spec |].
  intros [[[stream_id total] chunk_max]|e|] t [Hopen Htotal]; [| by apply Hfail ..].
  cbn [fst snd]. spec_if Hoff.
  { apply spec_throw. intros. rewrite app_nil_r. by apply Hfail. }
  fold (read_end total offset length).
  assert (Hgoal : ∀ (o : outcome ()) (b : bool) u w,
      read_so_far content offset (read_end total offset length) b u → (o = Done () → b = true) →
      yielded w = [] → read_result content offset length o (t ++ u ++ w)).
  { intros o b u w Hu Hb Hw Hs. apply Forall_app in Hs as [Hst Hs].
    apply Forall_app in Hs as [Hsu _]. destruct (Hu Hsu) as (c & Hc & Hex & Hy). exists c.
    destruct Hopen as [_ Hyt]. rewrite !yielded_app, Hyt, Hw, Hy, app_nil_r.
    split; [done |]. intros Ho. specialize (Hex (Hb Ho)).
    pose proof (Htotal content Hst) as Htot. subst total.
    split; [lia |]. unfold read_end in *. destruct length; cbn in *; lia. }
  apply spec_bind, spec_closing. eapply spec_mono; [apply (read_loop_spec content); lia |].
  intros [c|e|] u Hu.
  - split; [split; [by left | by eapply Hgoal] |].
    intros a. cbv zeta. split.
    + apply spec_ret. rewrite app_nil_r, app_assoc. split; [apply closes_last |].
      rewrite <- app_assoc. by eapply Hgoal.
    + intros e. rewrite app_assoc. split; [apply closes_last |].
      rewrite <- app_assoc. by eapply Hgoal.
  - split; [split; [by left | by eapply Hgoal] |].
    intros a. cbv zeta. split; [| intros e']; rewrite app_assoc;
      (split; [apply closes_last | rewrite <- app_assoc; by eapply Hgoal]).
  - split; [by left |]. rewrite <- (app_nil_r u). by eapply Hgoal.
Qed.

(** ** Listing *)

(** A device that lists [entries]: opening a list starts at the first entry,
    every page with an entry is the next one, and it flags the last. *)
Class ListDevice (entries : list (string * file_metadata))
    (handles : nat → request → nat → Frame → Prop) := {
  law_list_open : ∀ d m d' f, handles d (file_request FileType.LIST_OPEN m 3000 0) d' f → d' = O;
  law_list_next : ∀ d stream_id d' f e ended,
    handles d (file_request FileType.LIST_NEXT [] 3000 stream_id) d' f →
    decode_page stream_id f = Ok (e, ended) →
    match e with
    | Some x => entries !! d = Some x ∧ d' = S d ∧ (ended = true ↔ S d = length entries)
    | None => d' = d ∧ (ended = true → (length entries ≤ d)%nat)
    end;
}.

Lemma list_round_replying stream_id cursor limit st :
  replying (list_round stream_id cursor limit st).
Proof.
  unfold list_round. apply answering_replying, answering_bind; [apply answering_request |].
  intros f. apply appending_bind; [apply appending_lift |]. intros [e ended]. cbn.
  destruct e; apply appending_ret.
Qed.

Section listing.
Context (entries : list (string * file_metadata)) (handles : nat → request → nat → Frame → Prop).
Context `{!ListDevice entries handles} (cursor limit : Z) (Hc : 0 ≤ cursor) (Hl : 1 ≤ limit).

(** [d] entries seen, those from [cursor] on kept, at most one above the limit. *)
Definition listing (st : list_state) (d : nat) : Prop :=
  li_seen st = Z.of_nat d ∧ (d ≤ length entries)%nat
  ∧ li_entries st = drop (Z.to_nat cursor) (take d entries)
  ∧ zlen (li_entries st) ≤ limit + 1
  ∧ (li_break st = true → d = length entries ∨ limit < zlen (li_entries st)).

Lemma list_round_dspec stream_id st :
  li_break st = false → zlen (li_entries st) ≤ limit →
  dspec handles (listing st) (list_round stream_id cursor limit st) listing (λ _ _, True).
Proof.
  intros Hb Hz. unfold list_round.
  eapply (dspec_bind _ _ _ _ (λ f d', ∃ d, listing st d ∧ ∀ e ended,
    decode_page stream_id f = Ok (e, ended) →
    match e with
    | Some x => entries !! d = Some x ∧ d' = S d ∧ (ended = true ↔ S d = length entries)
    | None => d' = d ∧ (ended = true → (length entries ≤ d)%nat)
    end)).
  { apply dspec_request; [| done]. intros d d' f Hd Hh. split; [| done].
    exists d. split; [done |]. intros e ended He. by eapply law_list_next. }
  intros f. eapply (dspec_bind _ _ _ _ (λ v d', ∃ d, listing st d ∧
    match fst v with
    | Some x => entries !! d = Some x ∧ d' = S d ∧ (snd v = true ↔ S d = length entries)
    | None => d' = d ∧ (snd v = true → (length entries ≤ d)%nat)
    end)).
  { apply dspec_lift; [| done]. intros [e ended] d' He (d & Hd & H). exists d. split; [done |].
    by apply H. }
  intros [[x|] ended]; cbn [fst snd]; apply dspec_ret; intros d' (d & (Hs & Hle & He & Hn & _) & H).
  - destruct H as (Hx & -> & Hend). pose proof (lookup_lt_Some _ _ _ Hx) as Hlt.
    assert (Htake : take (S d) entries = take d entries ++ [x]) by by apply take_S_r.
    assert (Hlen : length (take d entries) = d) by (rewrite length_take; lia).
    destruct (Z.leb_spec cursor (li_seen st)).
    + assert (Hdrop : li_entries st ++ [x] = drop (Z.to_nat cursor) (take (S d) entries)).
      { rewrite Htake, He, drop_app_le; [done | lia]. }
      unfold listing. cbn [li_seen li_entries li_break]. rewrite zlen_snoc.
      split_and!; [lia | lia | done | lia |].
      intros [Ht | Ht]%orb_true_iff; [left; by apply Hend in Ht | right; lia].
    + assert (Hdrop : li_entries st = drop (Z.to_nat cursor) (take (S d) entries)).
      { rewrite He, !drop_ge; [done | rewrite length_take; lia | lia]. }
      unfold listing. cbn [li_seen li_entries li_break].
      split_and!; [lia | lia | done | lia |].
      intros [Ht | Ht]%orb_true_iff; [left; by apply Hend in Ht | right; lia].
  - destruct H as (-> & Hend). unfold listing. cbn [li_seen li_entries li_break].
    split_and!; [done | done | done | lia |].
    intros [Ht | Ht]%orb_true_iff; [left; apply Hend in Ht; lia | right; lia].
Qed.

(** What the loop leaves: the entries from the cursor on, one more than the
    limit when there are that many. *)
Lemma list_loop_dspec stream_id :
  dspec handles (λ d, d = O) (list_loop stream_id cursor limit)
    (λ st _, li_entries st = take (Z.to_nat (limit + 1)) (drop (Z.to_nat cursor) entries))
    (λ _ _, True).
Proof.
  unfold list_loop.
  eapply dspec_pre; [| apply (dspec_while handles listing)].
  - intros d ->. unfold listing. cbn [li_seen li_entries li_break].
    rewrite take_0, drop_nil. change (zlen []) with 0. split_and!; [done | lia | done | lia | done].
  - intros. apply list_round_replying.
  - intros st [Hb Hz]%andb_true_iff. apply negb_true_iff in Hb.
    apply list_round_dspec; [done | lia].
  - intros st d Hcond (Hs & Hle & He & Hn & Hbr).
    assert (Hfin : d = length entries ∨ limit < zlen (li_entries st)).
    { apply andb_false_iff in Hcond as [Hb | Hz]; [apply Hbr; by apply negb_false_iff | right; lia]. }
    rewrite He. rewrite skipn_firstn_comm. unfold zlen in *.
    rewrite He, skipn_firstn_comm, length_take, length_drop in *.
    destruct Hfin as [-> | Hlim].
    + rewrite !take_ge; [done | rewrite length_drop; lia ..].
    + destruct (decide (d - Z.to_nat cursor ≤ length entries - Z.to_nat cursor)%nat).
      * f_equal. lia.
      * rewrite !take_ge; [done | rewrite length_drop; lia ..].
Qed.
End listing.

Lemma removelast_take {A} (l : list A) n :
  (n < length l)%nat → removelast (take (S n) l) = take n l.
Proof. intros. by rewrite removelast_firstn. Qed.

Lemma list_page_take cursor limit (entries : list (string * file_metadata)) :
  0 ≤ cursor → 1 ≤ limit →
  let rest := drop (Z.to_nat cursor) entries in
  list_page cursor limit (take (Z.to_nat (limit + 1)) rest) =
  {| lr_entries := take (Z.to_nat limit) rest; lr_cursor := cursor;
     lr_next_cursor := if cursor + limit <? zlen entries then Some (cursor + limit) else None |}.
Proof.
  intros Hc Hl rest. unfold list_page.
  assert (Hlen : zlen (take (Z.to_nat (limit + 1)) rest)
    = Z.min (limit + 1) (Z.max 0 (zlen entries - cursor))).
  { unfold rest, zlen. rewrite length_take, length_drop. lia. }
  destruct (Z.ltb_spec limit (zlen (take (Z.to_nat (limit + 1)) rest))) as [Hlt | Hge].
  - rewrite (proj2 (Z.ltb_lt _ _)) by lia.
    replace (Z.to_nat (limit + 1)) with (S (Z.to_nat limit)) by lia.
    rewrite removelast_take.
    2: { unfold rest, zlen in *. rewrite length_take, length_drop in *. lia. }
    f_equal. f_equal. unfold rest, zlen in *. rewrite !length_take, length_drop in *. lia.
  - rewrite (proj2 (Z.ltb_ge _ _)) by lia. f_equal.
    assert (zlen entries - cursor ≤ limit) by lia.
    rewrite !take_ge; [done | unfold rest, zlen in *; rewrite length_drop; lia ..].
Qed.

Lemma list_directory_dspec entries handles `{!ListDevice entries handles} volume path cursor limit :
  dspec handles (λ _, True) (list_directory volume path cursor limit)
    (λ r _, 0 ≤ cursor ∧ 1 ≤ limit ≤ 200 ∧
      r = {| lr_entries := take (Z.to_nat limit) (drop (Z.to_nat cursor) entries);
             lr_cursor := cursor;
             lr_next_cursor := if cursor + limit <? zlen entries then Some (cursor + limit) else None |})
    (λ _ _, True).
Proof.
  unfold list_directory.
  match goal with |- dspec _ _ (if ?b then _ else _) _ _ => destruct b eqn:Hb end;
    [by apply dspec_throw |].
  apply orb_false_iff in Hb as [Hb1 Hb2]. apply negb_false_iff in Hb2.
  eapply (dspec_bind _ _ _ _ (λ _ d, d = O)).
  { unfold open_list. eapply (dspec_bind _ _ _ _ (λ _ _, True)); [by apply dspec_lift |].
    intros m. eapply (dspec_bind _ _ _ _ (λ _ d, d = O)).
    { apply dspec_request; [| done]. intros d d' f _ Hh. split; [by eapply law_list_open | done]. }
    intros f. eapply (dspec_bind _ _ _ _ (λ _ d, d = O)); [by apply dspec_lift |]. intros p.
    case_match; [by apply dspec_throw |]. case_match; [by apply dspec_throw |].
    by apply dspec_ret. }
  intros stream_id. eapply dspec_bind.
  { apply (dspec_finally _ _ _ _ (λ st : list_state, li_entries st
      = take (Z.to_nat (limit + 1)) (drop (Z.to_nat cursor) entries)) (λ _ _, True)).
    - by apply (list_loop_dspec entries handles cursor limit); lia.
    - unfold close_stream. eapply dspec_suppress; [by apply dspec_request | done]. }
  intros st. apply dspec_ret. intros d ->. split; [lia |]. split; [lia |].
  apply list_page_take; lia.
Qed.

Lemma list_directory_closes volume path cursor limit :
  spec (list_directory volume path cursor limit) (closes FileType.LIST_NEXT).
Proof.
  unfold list_directory. spec_if Hb.
  { apply spec_throw. intros. right. left. apply not_sends_type_nil. }
  apply spec_bind. eapply (spec_mono _ (λ _ t, opening FileType.LIST_NEXT t)).
  { unfold open_list. apply spec_bind, spec_lift; [intros m _ | intros; apply opening_nil].
    apply spec_bind, (opening_request FileType.LIST_NEXT); [discriminate |].
    intros [f|e|] t Ht _; [| done | done].
    apply spec_bind, spec_lift; [| intros; by rewrite ?app_nil_r]. intros p _.
    spec_if H1; [apply spec_throw; intros; by rewrite ?app_nil_r |].
    spec_if H2; [apply spec_throw; intros; by rewrite ?app_nil_r |].
    apply spec_ret. by rewrite ?app_nil_r. }
  intros [stream_id|e|] t [Ht _]; [| right; by left | by left].
  apply spec_bind, spec_closing.
  eapply spec_mono; [apply appending_while; intros; apply list_round_replying |].
  intros [st|e|] u _; [| | by left]; (split; [by left |]); intros a; cbv zeta;
    (split; [| intros e']); rewrite ?app_assoc; try apply closes_last.
  apply spec_ret. rewrite app_nil_r, app_assoc. apply closes_last.
Qed.

(** ** Uploads against a device *)

(** A device that stores one upload: it accepts a part only at the end of what
    it has stored, reports what it stored, and commits exactly what it stored,
    and only under its SHA-256. *)
Class WriteDevice {D : Type} (handles : D → request → D → Frame → Prop) (stream_id : Z) := {
  wd_stored : D → bytes;
  wd_final : D → option bytes;
  law_open : ∀ d m d' f p, handles d (file_request FileType.WRITE_OPEN m 10000 0) d' f →
    _checked f FileType.WRITE_OPENED 12 = Ok p →
    u32_at p 4 = stream_id ∧ wd_stored d' = [] ∧ wd_final d' = None;
  law_write : ∀ up committed part m t d d' f, up_stream_id up = stream_id →
    write_message committed part = Ok m →
    handles d (file_request FileType.WRITE m t stream_id) d' f →
    wd_final d' = wd_final d
    ∧ (wd_stored d' = wd_stored d
       ∨ committed = zlen (wd_stored d) ∧ wd_stored d' = wd_stored d ++ part)
    ∧ ∀ target, check_ack up target f = Ok () → target = zlen (wd_stored d');
  law_write_status : ∀ t d d' f,
    handles d (file_request FileType.WRITE_STATUS [] t stream_id) d' f →
    d' = d ∧ ∀ s, decode_write_status stream_id f = Ok s →
      ws_committed s = zlen (wd_stored d)
      ∧ (ws_state s = WRITE_COMMITTED → ws_result s = FileStatus.OK →
         wd_final d = Some (wd_stored d));
  law_write_commit : ∀ digest t d d' f,
    handles d (file_request FileType.COMMIT digest t stream_id) d' f →
    wd_stored d' = wd_stored d
    ∧ (wd_final d' = wd_final d
       ∨ digest = sha256 (wd_stored d) ∧ wd_final d' = Some (wd_stored d))
    ∧ ∀ p, _checked f FileType.COMMIT_RESPONSE 32 = Ok p → wd_final d' = Some (wd_stored d');
  law_write_stat : ∀ m t d d' f, handles d (file_request FileType.STAT_REQUEST m t 0) d' f →
    wd_final d' = wd_final d;
  law_write_bytes : ∀ d r d' f, handles d r d' f → is_bytes (fr_payload f);
}.

(** ** What uploads only append *)

Lemma appending_reconcile n : ∀ attempt stream_id, appending (reconcile_loop n attempt stream_id).
Proof.
  induction n as [|n IH]; intros; cbn [reconcile_loop]; [apply appending_lift |].
  apply appending_bind; [unfold write_status; appends |]. intros [s|]; [appends | apply IH].
Qed.

Lemma appending_write_attempt up attempt committed part :
  appending (write_attempt up attempt committed part).
Proof.
  unfold write_attempt, _reconcile_write_status. apply appending_try; [appends |]. intros e.
  apply appending_bind; [apply appending_reconcile | appends].
Qed.

Lemma appending_write_parts up ps : ∀ sent, appending (write_parts up sent ps).
Proof.
  induction ps as [|p ps IH]; intros; cbn [write_parts]; [appends |].
  apply appending_bind; [| intros; apply IH]. unfold write_part, throw.
  apply appending_bind; [apply appending_write_attempt |]. intros ok.
  apply appending_bind; [destruct ok; [appends | apply appending_write_attempt] |].
  appends.
Qed.

Lemma appending_chunks up chunks : ∀ sent, appending (write_chunks up sent chunks).
Proof.
  induction chunks as [|c chunks IH]; intros; cbn [write_chunks]; [appends |].
  apply appending_bind; [appends |]. intros data. case_match; [apply IH |].
  case_match; [apply appending_lift |].
  apply appending_bind; [apply appending_write_parts | intros; apply IH].
Qed.

Lemma appending_chunk_rest up chunks sent data :
  appending (if is_nil data then write_chunks up sent chunks
    else if up_total_size up <? zlen sent + zlen data
    then throw ValueError "HTTP upload exceeds its declared content length"
    else
      sent ← write_parts up sent (parts (length data) (up_chunk_max up) data);
      write_chunks up sent chunks).
Proof.
  case_match; [apply appending_chunks |]. case_match; [apply appending_lift |].
  apply appending_bind; [apply appending_write_parts | intros; apply appending_chunks].
Qed.

Lemma appending_commit up digest : appending (commit_upload up digest).
Proof.
  unfold commit_upload, _reconcile_write_status. apply appending_try; [appends |]. intros e.
  apply appending_bind; [apply appending_reconcile | appends].
Qed.

Section delivery.
Context {D : Type} (handles : D → request → D → Frame → Prop) (stream_id : Z).
Context `{!WriteDevice handles stream_id}.
Context (up : upload_context) (Hup : up_stream_id up = stream_id)
  (Hchunk : 0 < up_chunk_max up).

(** A reconciled status is the device's. *)
Lemma reconcile_dspec (P : D → Prop) n : ∀ attempt,
  dspec handles P (reconcile_loop n attempt stream_id)
    (λ s d, P d ∧ ws_committed s = zlen (wd_stored d)
       ∧ (ws_state s = WRITE_COMMITTED → ws_result s = FileStatus.OK →
          wd_final d = Some (wd_stored d))) (λ _ _, True).
Proof.
  induction n as [|n IH]; intros attempt; cbn [reconcile_loop]; [by apply dspec_throw |].
  eapply (dspec_bind _ _ _ _ (λ r d, match r with
    | Some s => P d ∧ ws_committed s = zlen (wd_stored d)
       ∧ (ws_state s = WRITE_COMMITTED → ws_result s = FileStatus.OK →
          wd_final d = Some (wd_stored d))
    | None => P d end)).
  - eapply (dspec_try _ _ _ _ _ (λ _ d, P d)); [| | done].
    + unfold write_status.
      eapply (dspec_bind _ _ _ _ (λ s d, P d ∧ ws_committed s = zlen (wd_stored d)
       ∧ (ws_state s = WRITE_COMMITTED → ws_result s = FileStatus.OK →
          wd_final d = Some (wd_stored d)))); [| intros s; by apply dspec_ret].
      eapply (dspec_bind _ _ _ _ (λ f d, P d ∧ ∀ s, decode_write_status stream_id f = Ok s →
        ws_committed s = zlen (wd_stored d)
        ∧ (ws_state s = WRITE_COMMITTED → ws_result s = FileStatus.OK →
          wd_final d = Some (wd_stored d)))).
      * apply dspec_request; [| done]. intros d d' f Hd Hh.
        by destruct (law_write_status _ _ _ _ Hh) as [-> Hs].
      * intros f. apply dspec_lift; [| by intros ? ? _ [? _]].
        intros s d Hs [Hd H]. split; [done |]. by apply H.
    + intros e _. case_match; [by apply dspec_lift |].
      eapply dspec_bind; [apply dspec_emit |]. intros []. by apply dspec_ret.
  - intros [s|]; [by apply dspec_ret | apply IH].
Qed.

(** Before a part: [sent] is stored. *)
Definition stored (sent : bytes) (d : D) : Prop := wd_stored d = sent ∧ wd_final d = None.

Lemma write_attempt_dspec sent attempt part :
  0 < zlen part →
  dspec handles (stored sent) (write_attempt up attempt (zlen sent) part)
    (λ ok d, stored (if ok : bool then sent ++ part else sent) d) (λ _ _, True).
Proof.
  intros Hpart. unfold write_attempt. rewrite Hup.
  eapply (dspec_try _ _ _ _ _ (λ _ d, stored sent d ∨ stored (sent ++ part) d)); [| | done].
  - eapply dspec_bind.
    { apply (dspec_lift _ _ _ (λ m d, stored sent d ∧ write_message (zlen sent) part = Ok m));
        [done | by left]. }
    intros m. eapply (dspec_bind _ _ _ _ (λ f d, (stored sent d ∨ stored (sent ++ part) d)
      ∧ (check_ack up (zlen sent + zlen part) f = Ok () → stored (sent ++ part) d))).
    { apply dspec_request; [| intros e d [? _]; by left].
      intros d d' f [[Hs Hf] Hm] Hh.
      destruct (law_write up _ _ _ _ _ _ _ Hup Hm Hh) as (H1 & H2 & H3).
      assert (Hcases : stored sent d' ∨ stored (sent ++ part) d').
      { destruct H2 as [H2 | [_ H2]]; [left | right]; split; congruence. }
      split; [split; [done |] | done].
      intros Hack%H3. destruct Hcases as [[Hs' _] | ?]; [| done].
      rewrite Hs' in Hack. lia. }
    intros f. eapply (dspec_bind _ _ _ _ (λ _ d, stored (sent ++ part) d)).
    { apply dspec_lift; [| by intros e d _ [? _]]. intros [] d Hack [_ H]. by apply H. }
    intros []. by apply dspec_ret.
  - intros e _. unfold _reconcile_write_status.
    eapply dspec_bind; [apply reconcile_dspec |]. intros s. cbv beta.
    destruct (Z.eqb_spec (ws_committed s) (zlen sent + zlen part)) as [Heq | Hne].
    + apply dspec_ret. intros d (Hd & Hc & _). destruct Hd as [[Hs _] | Hd]; [| done].
      rewrite Hs in Hc. lia.
    + destruct (Z.eqb_spec (ws_committed s) (zlen sent)) as [Heq |]; cbn [negb orb];
        [| by apply dspec_lift].
      case_match; [by apply dspec_lift |].
      apply dspec_ret. intros d (Hd & Hc & _). destruct Hd as [Hd | [Hs _]]; [done |].
      rewrite Hs, zlen_app in Hc. lia.
Qed.

Lemma write_part_dspec sent part :
  0 < zlen part →
  dspec handles (stored sent) (write_part up (zlen sent) part)
    (λ n d, stored (sent ++ part) d) (λ _ _, True).
Proof.
  intros Hpart. unfold write_part.
  eapply dspec_bind; [by apply write_attempt_dspec |]. intros ok1.
  eapply (dspec_bind _ _ _ _ (λ (ok : bool) d, stored (if ok then sent ++ part else sent) d)).
  { destruct ok1; [by apply dspec_ret | by apply write_attempt_dspec]. }
  intros [|]; cbn [negb]; [| by apply dspec_throw].
  eapply dspec_bind; [by apply dspec_report |]. intros []. by apply dspec_ret.
Qed.

Lemma parts_concat fuel data :
  (length data ≤ fuel)%nat →
  concat (parts fuel (up_chunk_max up) data) = data
  ∧ Forall (λ p, 0 < zlen p) (parts fuel (up_chunk_max up) data).
Proof.
  revert data. induction fuel as [|fuel IH]; intros data Hf; cbn [parts].
  - destruct data; [done | simpl in Hf; lia].
  - destruct data as [|b data]; [done |]. cbn [is_nil concat].
    destruct (IH (slice_from (up_chunk_max up) (b :: data))) as [IH1 IH2].
    { unfold slice_from. rewrite length_drop. simpl in *. lia. }
    rewrite IH1. unfold slice, slice_from. rewrite Z.sub_0_r.
    change (Z.to_nat 0) with O. rewrite drop_0, take_drop. split; [done |].
    constructor; [| exact IH2]. unfold zlen. rewrite length_take. simpl. lia.
Qed.

Lemma write_parts_dspec ps : ∀ sent,
  Forall (λ p, 0 < zlen p) ps →
  dspec handles (stored sent) (write_parts up sent ps)
    (λ sent' d, sent' = sent ++ concat ps ∧ stored sent' d) (λ _ _, True).
Proof.
  induction ps as [|p ps IH]; intros sent Hps; cbn [write_parts concat].
  - apply dspec_ret. intros d Hd. by rewrite app_nil_r.
  - apply Forall_cons in Hps as [Hp Hps].
    eapply dspec_bind; [by apply write_part_dspec |]. intros _n. cbv beta.
    eapply dspec_conseq; [by apply IH | done | | done].
    intros a d [-> Hd]. by rewrite <- app_assoc in *.
Qed.

(** The bytes of a source that ended normally. *)
Fixpoint source_bytes (chunks : list (res bytes)) : option bytes :=
  match chunks with
  | [] => Some []
  | Ok data :: chunks => rest ← source_bytes chunks; Some (data ++ rest)
  | Err _ :: _ => None
  end.

Lemma write_chunks_dspec chunks : ∀ sent,
  dspec handles (stored sent) (write_chunks up sent chunks)
    (λ sent' d, stored sent' d ∧ ∃ data, source_bytes chunks = Some data ∧ sent' = sent ++ data)
    (λ _ _, True).
Proof.
  induction chunks as [|chunk chunks IH]; intros sent; cbn [write_chunks source_bytes].
  - apply dspec_ret. intros d Hd. split; [done |]. exists []. by rewrite app_nil_r.
  - destruct chunk as [data|e].
    2: { eapply (dspec_bind _ _ _ _ (λ _ _, False)); [by apply dspec_lift |].
         intros data. apply dspec_false, appending_chunk_rest. }
    eapply (dspec_bind _ _ _ _ (λ data' d, data' = data ∧ stored sent d)).
    { apply dspec_lift; [| done]. by intros a d [= <-]. }
    intros data'. eapply (dspec_pre _ (λ d, data' = data ∧ stored sent d)); [done |].
    apply (dspec_pure handles (data' = data)); [apply appending_chunk_rest |].
    intros ->.
    destruct (is_nil data) eqn:Hnil.
    { destruct data; [| done]. eapply dspec_conseq; [apply (IH sent) | done | | done].
      intros a d (Hd & rest & Hr & ->). split; [done |]. exists rest. by rewrite Hr. }
    case_match; [by apply dspec_throw |].
    destruct (parts_concat (length data) data (le_n _)) as [Hcat Hpos].
    eapply dspec_bind; [by apply write_parts_dspec |]. intros sent'. rewrite Hcat.
    apply (dspec_pure handles (sent' = sent ++ data)); [apply appending_chunks |]. intros ->.
    eapply dspec_conseq; [apply (IH (sent ++ data)) | done | | done].
    intros a d (Hd & rest & Hr & ->). split; [done |]. exists (data ++ rest).
    by rewrite Hr, app_assoc.
Qed.

Lemma commit_upload_dspec sent :
  dspec handles (stored sent) (commit_upload up (sha256 sent))
    (λ r d, wd_stored d = sent ∧ match r with
       | None => wd_final d = Some sent
       | Some f => ∀ p, _checked f FileType.COMMIT_RESPONSE 32 = Ok p → wd_final d = Some sent
       end) (λ _ _, True).
Proof.
  assert (Hcommit : dspec handles (λ d, wd_stored d = sent)
    (frame ← send_request (file_request FileType.COMMIT (sha256 sent) 15000 stream_id);
     mret (Some frame))
    (λ r d, wd_stored d = sent ∧ match r with
       | None => wd_final d = Some sent
       | Some f => ∀ p, _checked f FileType.COMMIT_RESPONSE 32 = Ok p → wd_final d = Some sent
       end) (λ _ d, wd_stored d = sent)).
  { eapply (dspec_bind _ _ _ _ (λ f d, wd_stored d = sent ∧
      ∀ p, _checked f FileType.COMMIT_RESPONSE 32 = Ok p → wd_final d = Some sent));
      [| intros f; by apply dspec_ret].
    apply dspec_request; [| done]. intros d d' f Hs Hh.
    destruct (law_write_commit _ _ _ _ _ Hh) as (H1 & _ & H3). rewrite H1, Hs in *. auto. }
  unfold commit_upload. rewrite Hup.
  eapply (dspec_try _ _ _ _ _ (λ _ d, wd_stored d = sent)); [| | done].
  - eapply dspec_pre; [| exact Hcommit]. by intros d [? _].
  - intros e _. unfold _reconcile_write_status.
    eapply dspec_bind; [apply reconcile_dspec |]. intros s. cbv beta.
    destruct (Z.eqb_spec (ws_state s) WRITE_COMMITTED) as [Hst |]; cbn [andb].
    + case_bool_decide as Hok.
      * apply dspec_ret. intros d (Hs & _ & Hf). rewrite <- Hs. split; [done |]. auto.
      * rewrite Hst. by apply dspec_lift.
    + case_match; [by apply dspec_lift |].
      eapply dspec_conseq; [exact Hcommit | by intros d (Hs & _) | done | done].
Qed.

Lemma upload_body_dspec chunks :
  dspec handles (stored []) (upload_body up chunks)
    (λ r d, wd_final d = Some (fst r) ∧ source_bytes chunks = Some (fst r)
       ∧ zlen (fst r) = up_total_size up) (λ _ _, True).
Proof.
  unfold upload_body. eapply dspec_bind; [apply write_chunks_dspec |]. intros sent. cbv beta.
  eapply (dspec_pre _ (λ d, source_bytes chunks = Some sent ∧ stored sent d)).
  { intros d (Hd & data & Hsrc & ->). done. }
  apply (dspec_pure handles (source_bytes chunks = Some sent)); [| intros Hsrc].
  { case_match; [apply appending_lift |].
    apply appending_bind; [apply appending_commit |]. unfold throw. appends. }
  destruct (Z.eqb_spec (zlen sent) (up_total_size up)) as [Hlen |]; cbn [negb];
    [| by apply dspec_throw].
  eapply dspec_bind; [apply commit_upload_dspec |]. intros [f|].
  - eapply (dspec_bind _ _ _ _ (λ _ d, wd_final d = Some sent)).
    { apply dspec_lift; [| done]. intros p d Hp [_ H]. by eapply H. }
    intros p. case_match; [by apply dspec_throw | by apply dspec_ret].
  - apply dspec_ret. intros d [_ Hf]. done.
Qed.
End delivery.

Lemma open_write_dspec {D} (handles : D → request → D → Frame → Prop) stream_id
    `{!WriteDevice handles stream_id} volume path total_size if_match flags :
  dspec handles (λ _, True) (open_write volume path total_size if_match flags)
    (λ v d, fst v = stream_id ∧ 0 < snd v ∧ stored handles stream_id [] d) (λ _ _, True).
Proof.
  unfold open_write. do 4 (eapply (dspec_bind _ _ _ _ (λ _ _, True)); [by apply dspec_lift | intros ?]).
  eapply (dspec_bind _ _ _ _ (λ f d, ∀ p, _checked f FileType.WRITE_OPENED 12 = Ok p →
    u32_at p 4 = stream_id ∧ stored handles stream_id [] d ∧ is_bytes p)).
  { apply dspec_request; [| done]. intros d d' f _ Hh. split; [| done]. intros p Hp.
    destruct (law_open _ _ _ _ _ Hh Hp) as (H1 & H2 & H3). split; [done |].
    split; [done |]. apply _checked_Ok in Hp as [-> _]. by eapply law_write_bytes. }
  intros f. eapply (dspec_bind _ _ _ _ (λ p d,
    u32_at p 4 = stream_id ∧ stored handles stream_id [] d ∧ is_bytes p)).
  { apply dspec_lift; [| done]. intros p d Hp H. by apply H. }
  intros p. case_match; [by apply dspec_throw |].
  match goal with |- dspec _ _ (if ?b then _ else _) _ _ => destruct b eqn:Hb end;
    [by apply dspec_throw |].
  apply dspec_ret. intros d (Hs & Hd & Hp). cbn [fst snd].
  apply orb_false_iff in Hb as [Hb _]. apply orb_false_iff in Hb as [_ Hb].
  pose proof (u16_at_bound p 8 Hp). split; [done |]. split; [lia | done].
Qed.

Lemma upload_dspec {D} (handles : D → request → D → Frame → Prop) stream_id
    `{!WriteDevice handles stream_id} volume path chunks total_size overwrite if_match progress :
  dspec handles (λ _, True) (upload volume path chunks total_size overwrite if_match progress)
    (λ r d, ∃ data, source_bytes chunks = Some data ∧ zlen data = total_size
       ∧ wd_final d = Some data ∧ fu_sha256 r = hex (sha256 data)) (λ _ _, True).
Proof.
  unfold upload.
  match goal with |- dspec _ _ (if ?b then _ else _) _ _ => destruct b eqn:Hb end;
    [by apply dspec_throw |].
  eapply (dspec_bind _ _ _ _ (λ _ _, True)); [by apply dspec_lift |]. intros etag.
  eapply dspec_bind; [by apply open_write_dspec |]. intros [sid cm]. cbn [fst snd].
  assert (Hbody : ∀ up, appending (upload_body up chunks)).
  { intros. unfold upload_body, throw. apply appending_bind; [apply appending_chunks |].
    intros sent. case_match; [appends |]. apply appending_bind; [apply appending_commit | appends]. }
  apply (dspec_pure handles (sid = stream_id)).
  { unfold abort_upload, stat, path_request, throw. apply appending_bind;
      [apply appending_on_error; [apply Hbody | appends] | appends]. }
  intros ->. apply (dspec_pure handles (0 < cm)).
  { unfold abort_upload, stat, path_request, throw. apply appending_bind;
      [apply appending_on_error; [apply Hbody | appends] | appends]. }
  intros Hcm.
  set (up := {| up_stream_id := stream_id; up_chunk_max := cm; up_total_size := total_size;
    up_progress := progress |}).
  eapply dspec_bind.
  { eapply dspec_on_error; [by apply (upload_body_dspec handles stream_id up) |].
    unfold abort_upload. eapply dspec_suppress; [by apply dspec_request | done]. }
  intros [sent result]. cbn [fst snd].
  eapply (dspec_bind _ _ _ _ (λ _ d, wd_final d = Some sent
    ∧ source_bytes chunks = Some sent ∧ zlen sent = total_size)).
  - destruct result as [result|]; [by apply dspec_lift |]. unfold stat, path_request.
    eapply (dspec_bind _ _ _ _ (λ _ d, wd_final d = Some sent
      ∧ source_bytes chunks = Some sent ∧ zlen sent = total_size)); [by apply dspec_lift |].
    intros m. eapply (dspec_bind _ _ _ _ (λ _ d, wd_final d = Some sent
      ∧ source_bytes chunks = Some sent ∧ zlen sent = total_size)).
    { apply dspec_request; [| done]. intros d d' f Hd Hh.
      by rewrite (law_write_stat _ _ _ _ _ Hh). }
    intros f. eapply (dspec_bind _ _ _ _ (λ _ d, wd_final d = Some sent
      ∧ source_bytes chunks = Some sent ∧ zlen sent = total_size)); [by apply dspec_lift |].
    intros p. case_match; [by apply dspec_throw | by apply dspec_lift].
  - intros meta. apply dspec_ret. intros d (Hf & Hsrc & Hlen). by exists sent.
Qed.

(** ** Failed uploads are aborted *)

Definition abort_request (stream_id : Z) : request := file_request FileType.ABORT [] 10000 stream_id.

(** A reply that shows the write committed. *)
Definition commit_evidence (t : list event) : Prop :=
  ∃ f, EvReply (Ok f) ∈ t ∧
    (is_ok (_checked f FileType.COMMIT_RESPONSE 32) = true
     ∨ ∃ stream_id s, decode_write_status stream_id f = Ok s
         ∧ ws_state s = WRITE_COMMITTED ∧ ws_result s = FileStatus.OK).

Lemma commit_evidence_app_r t u : commit_evidence u → commit_evidence (t ++ u).
Proof. intros (f & Hf & H). exists f. split; [apply elem_of_app; by right | done]. Qed.
Lemma commit_evidence_app_l t u : commit_evidence t → commit_evidence (t ++ u).
Proof. intros (f & Hf & H). exists f. split; [apply elem_of_app; by left | done]. Qed.

Lemma reconcile_spec n : ∀ attempt stream_id,
  spec (reconcile_loop n attempt stream_id) (λ o t, match o with
    | Done s => ∃ f, EvReply (Ok f) ∈ t ∧ decode_write_status stream_id f = Ok s
    | _ => True
    end).
Proof.
  induction n as [|n IH]; intros attempt stream_id; cbn [reconcile_loop]; [by apply spec_throw |].
  apply spec_bind, spec_try, spec_bind. unfold write_status. apply spec_bind, spec_request; [done | |].
  - intros f. apply spec_lift.
    + intros s Hs. apply spec_ret, spec_ret. exists f. split; [right; left | done].
    + intros e _. case_match; [| done]. case_match; [by apply spec_lift |].
      apply spec_bind, spec_emit; [done |]. apply spec_ret.
      eapply spec_mono; [apply IH |]. intros [s|e'|] t Ht; [| done | done].
      destruct Ht as (f' & Hf & Hs). exists f'. split; [apply elem_of_app; by right | done].
  - intros e. case_match; [| done]. case_match; [by apply spec_lift |].
    apply spec_bind, spec_emit; [done |]. apply spec_ret.
    eapply spec_mono; [apply IH |]. intros [s|e'|] t Ht; [| done | done].
    destruct Ht as (f' & Hf & Hs). exists f'. split; [apply elem_of_app; by right | done].
Qed.

Lemma commit_upload_spec up digest :
  spec (commit_upload up digest) (λ o t, match o with
    | Done (Some f) => EvReply (Ok f) ∈ t
    | Done None => commit_evidence t
    | _ => True
    end).
Proof.
  unfold commit_upload. apply spec_try, spec_bind, spec_request; [done | |].
  - intros f. apply spec_ret. cbn [app]. right. left.
  - intros e. destruct (catches [TimeoutError] e); [| done]. apply spec_bind.
    eapply spec_mono; [apply reconcile_spec |]. intros [s|e'|] t Ht; [| done | done].
    spec_if Hc.
    + apply andb_true_iff in Hc as [Hc1%Z.eqb_eq Hc2%bool_decide_eq_true].
      apply spec_ret. rewrite app_nil_r. apply commit_evidence_app_r.
      destruct Ht as (f & Hf & Hs). exists f. split; [done |]. right. by exists (up_stream_id up), s.
    + spec_if Ha; [by apply spec_lift |].
      apply spec_bind, spec_request; [done | | done]. intros f. apply spec_ret.
      rewrite app_nil_r, !elem_of_app. right. right. right. left.
Qed.

Lemma upload_body_spec up chunks :
  spec (upload_body up chunks) (λ o t, match o with Done _ => commit_evidence t | _ => True end).
Proof.
  unfold upload_body. apply spec_bind. eapply spec_mono; [apply appending_chunks |].
  intros [sent|e|] t _; try done. spec_if Hlen; [by apply spec_throw |].
  apply spec_bind. eapply spec_mono; [apply commit_upload_spec |].
  intros [[f|]|e|] u Hu; try done.
  - apply spec_bind, spec_lift; [| done]. intros p Hp. spec_if Hf; [by apply spec_throw |].
    apply spec_ret. rewrite !app_nil_r. apply commit_evidence_app_r.
    exists f. split; [done |]. left. by rewrite Hp.
  - apply spec_ret. rewrite app_nil_r. by apply commit_evidence_app_r.
Qed.

(** How an upload that raises leaves its stream. *)
Definition settled (t : list event) : Prop :=
  (¬ sends_type FileType.WRITE t ∧ ¬ sends_type FileType.COMMIT t)
  ∨ (∃ t1 stream_id a, t = t1 ++ [EvSend (abort_request stream_id); EvReply a])
  ∨ commit_evidence t.

Lemma open_write_spec volume path total_size if_match flags :
  spec (open_write volume path total_size if_match flags)
    (λ _ t, ¬ sends_type FileType.WRITE t ∧ ¬ sends_type FileType.COMMIT t).
Proof.
  unfold open_write.
  assert (H0 : ¬ sends_type FileType.WRITE [] ∧ ¬ sends_type FileType.COMMIT [])
    by (split; apply not_sends_type_nil).
  do 4 (apply spec_bind, spec_lift; [intros ? _ | by intros]).
  apply spec_bind. eapply (spec_mono _ (λ _ t, opening FileType.WRITE t ∧ opening FileType.COMMIT t)).
  { intros s0.
    assert (Ha := opening_request FileType.WRITE (file_request FileType.WRITE_OPEN
      (a ++ a0 ++ a1 ++ a2 ++ [0; 0]) 10000 0) (λ _ t, opening FileType.WRITE t)
      ltac:(discriminate) ltac:(done) s0).
    assert (Hb := opening_request FileType.COMMIT (file_request FileType.WRITE_OPEN
      (a ++ a0 ++ a1 ++ a2 ++ [0; 0]) 10000 0) (λ _ t, opening FileType.COMMIT t)
      ltac:(discriminate) ltac:(done) s0).
    destruct Ha as (t & Ht & Hl & Ha), Hb as (t' & Ht' & Hl' & Hb).
    assert (t' = t) as -> by (rewrite Ht in Ht'; by simplify_list_eq). by exists t. }
  intros [f|e|] t [[Hw _] [Hc _]]; [| done | done].
  apply spec_bind, spec_lift; [intros p _ | intros; by rewrite ?app_nil_r].
  spec_if H1; [apply spec_throw; intros; by rewrite ?app_nil_r |].
  spec_if H2; [apply spec_throw; intros; by rewrite ?app_nil_r |].
  apply spec_ret. by rewrite ?app_nil_r.
Qed.

Lemma upload_settles volume path chunks total_size overwrite if_match progress :
  spec (upload volume path chunks total_size overwrite if_match progress)
    (λ o t, match o with Raised e => exn_ok e → settled t | Done _ => commit_evidence t
            | Blocked => True end).
Proof.
  assert (H0 : settled []) by (left; split; apply not_sends_type_nil).
  unfold upload. spec_if Hb; [by apply spec_throw |].
  apply spec_bind, spec_lift; [intros etag _ | done].
  apply spec_bind. eapply spec_mono; [apply open_write_spec |].
  intros [[sid cm]|e|] t Ht; [| by left | done]. cbn [app].
  apply spec_bind, spec_on_error. eapply spec_mono; [apply upload_body_spec |].
  intros [[sent result]|e|] u Hu; [| | done].
  - apply spec_bind. eapply (spec_mono _ (λ _ _, True)).
    { destruct result; [apply appending_lift | unfold stat, path_request, throw; appends]. }
    intros [meta|e|] v _; [| | done].
    + apply spec_ret. by apply commit_evidence_app_r, commit_evidence_app_l.
    + intros _. right. right. by apply commit_evidence_app_r, commit_evidence_app_l.
  - destruct (catches [BaseException] e) eqn:Hbase.
    2: { intros He. by rewrite catches_base in Hbase. }
    unfold abort_upload. apply spec_suppress, spec_request; [done | |].
    + intros f _. right. left. exists (t ++ u), sid, (Ok f). by rewrite <- !app_assoc.
    + intros e'. case_match; intros _; right; left; exists (t ++ u), sid, (Err e');
        by rewrite <- !app_assoc.
Qed.

(** ** Termination *)

Lemma res_ok_checked f ty n : res_ok (_checked f ty n).
Proof.
  unfold _checked. destruct (_ || _); [done |]. destruct (file_status _) as [[]|]; try done.
  by destruct (_ <? _).
Qed.
Lemma res_ok_metadata p o b : res_ok (_metadata p o b).
Proof. unfold _metadata. res_oks. Qed.
Lemma res_ok_path_payload v p : res_ok (_path_payload v p).
Proof. unfold _path_payload, encode_utf8. res_oks. Qed.
Lemma res_ok_utf8_decode l : res_ok (utf8_decode l).
Proof. unfold utf8_decode. by destruct (utf8_run [] [] l) as [? []]. Qed.
Lemma res_ok_decode_page sid f : res_ok (decode_page sid f).
Proof.
  unfold decode_page. apply res_ok_bind; [apply res_ok_checked |]. intros p.
  destruct (_ || _); [done |]. destruct (byte_at p 3 =? 1); [| by res_oks].
  apply res_ok_bind; [apply res_ok_metadata |]. intros m. destruct (negb _); [done |].
  apply res_ok_bind; [apply res_ok_utf8_decode | done].
Qed.

Lemma safe_close sid : safe (close_stream sid).
Proof. unfold close_stream. safes. Qed.

Lemma safe_path_request rq rs v p : safe (path_request rq rs v p).
Proof.
  unfold path_request. apply safe_bind; [apply safe_lift, res_ok_path_payload |]. intros m.
  apply safe_bind; [apply safe_request |]. intros f.
  apply safe_bind; [apply safe_lift, res_ok_checked |]. intros q.
  case_match; [by apply safe_throw | apply safe_lift, res_ok_metadata].
Qed.

Lemma safe_list_directory volume path cursor limit : safe (list_directory volume path cursor limit).
Proof.
  unfold list_directory. case_match; [by apply safe_throw |].
  apply safe_bind.
  { unfold open_list. apply safe_bind; [apply safe_lift, res_ok_path_payload |]. intros m.
    apply safe_bind; [apply safe_request |]. intros f.
    apply safe_bind; [apply safe_lift, res_ok_checked |]. intros p. safes. }
  intros sid. apply safe_bind; [| safes]. apply safe_finally; [| apply safe_close].
  apply safe_while; intros st; [| intros; apply list_round_replying].
  unfold list_round. apply safe_bind; [apply safe_request |]. intros f.
  apply safe_bind; [apply safe_lift, res_ok_decode_page |]. intros [e ended]. cbn.
  destruct e; apply safe_ret.
Qed.

Lemma read_round_replying sid total cm end_ cursor : replying (read_round sid total cm end_ cursor).
Proof.
  unfold read_round. apply replying_lift_bind. intros m.
  apply answering_replying, answering_bind; [apply answering_request |]. appends.
Qed.

Lemma safe_read_chunks volume path offset length : safe (read_chunks volume path offset length).
Proof.
  unfold read_chunks. match goal with |- safe (if ?b then _ else _) => destruct b end;
    [by apply safe_throw |].
  apply safe_bind.
  { unfold open_read. apply safe_bind; [apply safe_lift, res_ok_path_payload |]. intros m.
    apply safe_bind; [apply safe_request |]. intros f.
    apply safe_bind; [apply safe_lift, res_ok_checked |]. intros p. safes. }
  intros [[sid total] cm]. case_match; [by apply safe_throw |].
  apply safe_bind; [| safes]. apply safe_finally; [| apply safe_close].
  apply safe_while; intros c; [| intros; apply read_round_replying].
  unfold read_round. apply safe_bind; [apply safe_lift; unfold read_message; res_oks |]. intros m.
  apply safe_bind; [apply safe_request |]. intros f. apply safe_bind.
  { apply safe_lift. unfold check_read. apply res_ok_bind; [apply res_ok_checked |]. res_oks. }
  intros data. safes.
Qed.

Lemma safe_reconcile n : ∀ attempt sid, safe (reconcile_loop n attempt sid).
Proof.
  induction n as [|n IH]; intros; cbn [reconcile_loop]; [by apply safe_throw |].
  apply safe_bind; [| intros [s|]; [apply safe_ret | apply IH]].
  apply safe_try_exn.
  - apply safe_bind; [| safes]. unfold write_status. apply safe_bind; [apply safe_request |].
    intros f. apply safe_lift. unfold decode_write_status.
    apply res_ok_bind; [apply res_ok_checked |]. res_oks.
  - intros e He. case_match; [by apply safe_lift |]. safes.
Qed.

Lemma safe_write_attempt up attempt committed part : safe (write_attempt up attempt committed part).
Proof.
  unfold write_attempt. apply safe_try_exn.
  - apply safe_bind; [apply safe_lift; unfold write_message; res_oks |]. intros m.
    apply safe_bind; [apply safe_request |]. intros f. apply safe_bind; [| safes].
    apply safe_lift. unfold check_ack. apply res_ok_bind; [apply res_ok_checked |]. res_oks.
  - intros e He. apply safe_bind; [apply safe_reconcile |]. intros s.
    case_match; [apply safe_ret |]. case_match; [by apply safe_lift | apply safe_ret].
Qed.

Lemma safe_write_parts up ps : ∀ sent, safe (write_parts up sent ps).
Proof.
  induction ps as [|p ps IH]; intros; cbn [write_parts]; [apply safe_ret |].
  apply safe_bind; [| intros; apply IH]. unfold write_part.
  apply safe_bind; [apply safe_write_attempt |]. intros ok.
  apply safe_bind; [destruct ok; [apply safe_ret | apply safe_write_attempt] |]. safes.
Qed.

Lemma safe_write_chunks up chunks : ∀ sent,
  Forall res_ok chunks → safe (write_chunks up sent chunks).
Proof.
  induction chunks as [|c chunks IH]; intros sent Hc; cbn [write_chunks]; [apply safe_ret |].
  apply Forall_cons in Hc as [Hc Hcs]. apply safe_bind; [by apply safe_lift |]. intros data.
  case_match; [by apply IH |]. case_match; [by apply safe_throw |].
  apply safe_bind; [apply safe_write_parts | intros; by apply IH].
Qed.

Lemma res_ok_etag v : res_ok (_etag_value v).
Proof.
  unfold _etag_value. destruct v as [v|]; [| done].
  destruct (negb _); [done |]. by destruct (hex_int 0 _).
Qed.

Lemma safe_upload volume path chunks total_size overwrite if_match progress :
  Forall res_ok chunks →
  safe (upload volume path chunks total_size overwrite if_match progress).
Proof.
  intros Hc. unfold upload.
  match goal with |- safe (if ?b then _ else _) => destruct b end; [by apply safe_throw |].
  apply safe_bind; [apply safe_lift, res_ok_etag |]. intros etag.
  apply safe_bind.
  { unfold open_write. apply safe_bind; [apply safe_lift, res_ok_path_payload |]. intros m.
    do 3 (apply safe_bind; [apply safe_lift; res_oks | intros ?]).
    apply safe_bind; [apply safe_request |]. intros f.
    apply safe_bind; [apply safe_lift, res_ok_checked |]. intros p. safes. }
  intros [sid cm]. apply safe_bind.
  - apply safe_on_error; [| unfold abort_upload; safes]. unfold upload_body.
    apply safe_bind; [by apply safe_write_chunks |]. intros sent.
    case_match; [by apply safe_throw |]. apply safe_bind.
    + unfold commit_upload. apply safe_try_exn; [safes |]. intros e He.
      apply safe_bind; [apply safe_reconcile |]. intros s. case_match; [apply safe_ret |].
      case_match; [by apply safe_lift | safes].
    + intros [f|]; [| apply safe_ret]. apply safe_bind; [apply safe_lift, res_ok_checked |]. safes.
  - intros [sent [result|]].
    + apply safe_bind; [apply safe_lift, res_ok_metadata | safes].
    + apply safe_bind; [apply safe_path_request | safes].
Qed.

(** ** A reference device for one upload *)

Record ref_file := RefFile { rf_stored : bytes; rf_final : option bytes }.

Definition file_reply (t : FileType.FileType_t) (stream_id : Z) (rest : bytes) : Frame :=
  mkFrame Channel.FILE t 0 0 0 stream_id 0 ([0; 0; 0; 0] ++ rest).
Definition metadata_wire (size : Z) : bytes :=
  [1; 0; 0; 0] ++ le_encode 8 size ++ le_encode 8 0 ++ le_encode 8 7.

Section ref_file.
Context (stream_id chunk_max : Z).

Definition write_opened_reply : Frame :=
  file_reply FileType.WRITE_OPENED stream_id (le_encode 4 stream_id ++ le_encode 2 chunk_max ++ [0; 0]).
Definition ack_reply (n : Z) : Frame := file_reply FileType.WRITE_ACK stream_id (le_encode 8 n).
Definition write_status_reply (d : ref_file) : Frame :=
  file_reply FileType.WRITE_STATUS_RESPONSE stream_id
    (le_encode 8 (zlen (rf_stored d)) ++ le_encode 8 0
     ++ [if bool_decide (rf_final d = Some (rf_stored d)) then 2 else 1; 0; 0; 0; 0; 0; 0; 0]).
Definition committed_reply (t : FileType.FileType_t) (sid : Z) (d : ref_file) : Frame :=
  file_reply t sid (metadata_wire (zlen (rf_stored d))).
Definition file_refusal : Frame := mkFrame 0 0 0 0 0 0 0 [].

Definition ref_file_step (d : ref_file) (r : request) : ref_file * Frame :=
  let p := rq_payload r in
  match enum_of_value (rq_type r) : option FileType.FileType_t with
  | Some FileType.WRITE_OPEN => (RefFile [] None, write_opened_reply)
  | Some FileType.WRITE =>
    if u64_at p 0 =? zlen (rf_stored d)
    then
      let stored := rf_stored d ++ slice_from 12 p in
      (RefFile stored (rf_final d), ack_reply (zlen stored))
    else (d, file_refusal)
  | Some FileType.WRITE_STATUS => (d, write_status_reply d)
  | Some FileType.COMMIT =>
    if bool_decide (p = sha256 (rf_stored d))
    then (RefFile (rf_stored d) (Some (rf_stored d)),
          committed_reply FileType.COMMIT_RESPONSE stream_id d)
    else (d, file_refusal)
  | Some FileType.STAT_REQUEST => (d, committed_reply FileType.STAT_RESPONSE 0 d)
  | _ => (d, file_refusal)
  end.

Definition ref_file_handles (d : ref_file) (r : request) (d' : ref_file) (f : Frame) : Prop :=
  ref_file_step d r = (d', f) ∧ is_bytes (fr_payload f)
  ∧ zlen (rf_stored d) < 2 ^ 64 ∧ zlen (rf_stored d') < 2 ^ 64.

Context (Hsid : 0 < stream_id < 2 ^ 32).

Lemma file_reply_u64 t sid z rest :
  0 ≤ z < 2 ^ 64 → u64_at (fr_payload (file_reply t sid (le_encode 8 z ++ rest))) 4 = z.
Proof. intros Hz. by apply (le_field_at [0; 0; 0; 0] rest 8). Qed.

Lemma ref_write_law up committed part m t d d' f :
  write_message committed part = Ok m →
  ref_file_handles d (file_request FileType.WRITE m t stream_id) d' f →
  rf_final d' = rf_final d
  ∧ (rf_stored d' = rf_stored d
     ∨ committed = zlen (rf_stored d) ∧ rf_stored d' = rf_stored d ++ part)
  ∧ ∀ target, check_ack up target f = Ok () → target = zlen (rf_stored d').
Proof.
  intros Hm (Hs & _ & Hlen & Hlen'). unfold write_message in Hm.
  bind Hm as c Hc. bind Hm as n Hn.
  assert (m = (c ++ n ++ [0; 0]) ++ part) as -> by congruence.
  apply pack_uint_inv in Hc as [-> Hc], Hn as [-> Hn].
  assert (H0 : u64_at ((le_encode 8 committed ++ le_encode 2 (zlen part) ++ [0; 0]) ++ part) 0
    = committed).
  { rewrite <- app_assoc. by apply (le_field_at [] _ 8). }
  assert (Hrest : slice_from 12 ((le_encode 8 committed ++ le_encode 2 (zlen part) ++ [0; 0]) ++ part)
    = part).
  { rewrite slice_from_app_r; rewrite !zlen_app, !zlen_le_encode; done. }
  unfold ref_file_step in Hs. cbn [file_request rq_payload rq_type] in Hs.
  change (enum_of_value _) with (Some FileType.WRITE) in Hs. cbv iota zeta in Hs.
  rewrite H0, Hrest in Hs. destruct (Z.eqb_spec committed (zlen (rf_stored d))) as [Heq |];
    injection Hs as <- <-.
  - split; [done |]. split; [by right |]. intros target Hack.
    unfold check_ack in Hack. bind Hack as ack Hk. apply _checked_Ok in Hk as [-> _].
    apply raise_if_false in Hack. apply orb_false_iff in Hack as [_ Hack].
    apply negb_false_iff, Z.eqb_eq in Hack. rewrite <- Hack. cbn [rf_stored].
    unfold ack_reply. rewrite <- (app_nil_r (le_encode 8 _)), file_reply_u64; [done |].
    pose proof (zlen_nonneg (rf_stored d ++ part)). cbn [rf_stored] in Hlen'. lia.
  - split; [done |]. split; [by left |]. intros target Hack. discriminate Hack.
Qed.

Lemma ref_status_law t d d' f :
  ref_file_handles d (file_request FileType.WRITE_STATUS [] t stream_id) d' f →
  d' = d ∧ ∀ s, decode_write_status stream_id f = Ok s →
    ws_committed s = zlen (rf_stored d)
    ∧ (ws_state s = WRITE_COMMITTED → ws_result s = FileStatus.OK →
       rf_final d = Some (rf_stored d)).
Proof.
  intros (Hs & _ & Hlen & _). unfold ref_file_step in Hs.
  cbn [file_request rq_payload rq_type] in Hs.
  change (enum_of_value _) with (Some FileType.WRITE_STATUS) in Hs. cbv iota zeta in Hs.
  assert (d' = d ∧ f = write_status_reply d) as [-> ->] by (split; congruence). split; [done |].
  intros s Hdec. unfold decode_write_status in Hdec. bind Hdec as p Hp.
  apply _checked_Ok in Hp as [-> _]. res_inv.
  destruct (file_status _) as [result|]; [| discriminate].
  pose proof (f_equal (λ r, match r with Ok x => ws_committed x | _ => 0 end) Hdec) as Hcm.
  pose proof (f_equal (λ r, match r with Ok x => ws_state x | _ => 0 end) Hdec) as Hws.
  cbv beta iota in Hcm, Hws. cbn [ws_committed ws_state] in Hcm, Hws.
  rewrite <- Hcm, <- Hws. split.
  - unfold write_status_reply. apply file_reply_u64. pose proof (zlen_nonneg (rf_stored d)). lia.
  - intros Hst _. destruct (bool_decide (rf_final d = Some (rf_stored d))) eqn:Hb;
      [by apply bool_decide_eq_true in Hb |].
    unfold write_status_reply in Hst. rewrite Hb in Hst.
    assert (Hbyte : ∀ a b rest x, length a = 8%nat → length b = 8%nat →
      byte_at (fr_payload (file_reply FileType.WRITE_STATUS_RESPONSE stream_id (a ++ b ++ x :: rest))) 20 = x).
    { intros a b rest x Ha Hb'. unfold byte_at. cbn [fr_payload file_reply].
      rewrite !app_assoc, app_nth2; rewrite !length_app, Ha, Hb'; [done | cbn; lia]. }
    rewrite Hbyte in Hst by apply length_le_encode. discriminate Hst.
Qed.

#[export] Instance ref_write_device : WriteDevice ref_file_handles stream_id.
Proof.
  refine {| wd_stored := rf_stored; wd_final := rf_final |}.
  - intros d m d' f p (Hs & _) Hp. unfold ref_file_step in Hs.
    cbn [file_request rq_payload rq_type] in Hs.
    change (enum_of_value _) with (Some FileType.WRITE_OPEN) in Hs. cbv iota zeta in Hs.
    assert (d' = RefFile [] None ∧ f = write_opened_reply) as [-> ->] by (split; congruence).
    apply _checked_Ok in Hp as [-> _]. split; [| done].
    apply (le_field_at [0; 0; 0; 0] (le_encode 2 chunk_max ++ [0; 0]) 4); [done | simpl; lia].
  - intros up committed part m t d d' f _. apply ref_write_law.
  - apply ref_status_law.
  - intros digest t d d' f (Hs & _). unfold ref_file_step in Hs.
    cbn [file_request rq_payload rq_type] in Hs.
    change (enum_of_value _) with (Some FileType.COMMIT) in Hs. cbv iota zeta in Hs.
    case_bool_decide as Hd; injection Hs as <- <-.
    + split; [done |]. split; [by right | done].
    + split; [done |]. split; [by left |]. intros p Hp. discriminate Hp.
  - intros m t d d' f (Hs & _). cbn in Hs. by injection Hs as <- <-.
  - by intros d r d' f (_ & ? & _).
Defined.
End ref_file.

(** ** Properties *)

(** A path is sent exactly when it is canonical: a volume id of 1 to 15
    identifier characters and a relative path with no empty, dot or dot-dot
    component, no backslash or control byte, valid UTF-8 of at most 255 bytes;
    the payload is then the length-prefixed pair, and two accepted paths with
    the same payload are the same path, so no path outside the volume and no
    second spelling of a path reaches the device. *)
Theorem path_payload_canonical volume path b :
  (_path_payload volume path = Ok b ↔ canonical volume path ∧ b = path_wire volume path)
  ∧ ∀ volume' path', _path_payload volume path = Ok b → _path_payload volume' path' = Ok b →
      volume' = volume ∧ path' = path.
Proof.
  split; [apply _path_payload_spec |].
  intros volume' path' H1 H2.
  apply _path_payload_spec in H1 as [H ->], H2 as [H' Heq].
  by destruct (path_wire_inj _ _ _ _ H H' Heq).
Qed.

(** Ranged reads.  For a device that serves a content (it announces the
    content's size and returns the content's bytes at the offset it states),
    whatever chunk sizes it chooses and however the read ends, the bytes yielded
    so far are a contiguous range of the content from the requested offset, and
    a read that returns has yielded exactly the requested range, clipped to the
    end of the file; unless it waits for a reply, it has closed its stream. *)
Theorem read_chunks_exact content volume path offset length s o s' :
  io_trace s = [] → read_chunks volume path offset length s = (o, s') →
  closes FileType.READ o (io_trace s')
  ∧ (Forall (serves content) (io_trace s') →
     ∃ c, yielded (io_trace s') = slice offset c content
       ∧ (o = Done () → offset ≤ zlen content
          ∧ c = read_end (zlen content) offset length)).
Proof.
  intros Hs Hrun. destruct (read_chunks_spec content volume path offset length s) as (t & Ht & _ & H).
  cbn [trace_of io_world] in *. rewrite Hrun, Hs in *. simpl in *. by subst t.
Qed.

Definition example_content : bytes := [10; 11; 12; 13; 14; 15; 16].
Definition read_opened_reply (size : Z) : Frame :=
  file_reply FileType.READ_OPENED 9
    (le_encode 4 9 ++ le_encode 8 size ++ le_encode 8 0 ++ le_encode 8 0 ++ le_encode 2 3 ++ [0; 0]).
Definition data_frame (offset size : Z) (data : bytes) : Frame :=
  file_reply FileType.DATA 9 (le_encode 8 offset ++ le_encode 8 size ++ data).
Definition example_read_io : io := Io
  [Ok (read_opened_reply 7); Ok (data_frame 2 7 [12; 13]); Ok (data_frame 4 7 [14; 15]);
   Ok (file_reply FileType.CLOSE_RESPONSE 9 [])] [] [].
Abbreviation example_read := (read_chunks "data" "a/b" 2 (Some 4) example_read_io).
Lemma example_read_done : done_with (λ _, true) (fst example_read) = true.
Proof. vm_compute. reflexivity. Qed.
Lemma example_read_serves : Forall (serves example_content) (io_trace (snd example_read)).
Proof.
  vm_compute io_trace. repeat constructor; intros H; try discriminate H; reflexivity.
Qed.

Lemma read_chunks_exact_witness : yielded (io_trace (snd example_read)) = [12; 13; 14; 15].
Proof.
  pose proof example_read_done as Hd. pose proof example_read_serves as Hs.
  destruct example_read as [o s'] eqn:H. destruct o as [[]|e|]; [| discriminate Hd ..].
  destruct (read_chunks_exact example_content "data" "a/b" 2 (Some 4) example_read_io _ _ eq_refl H) as [_ Hr].
  destruct (Hr Hs) as (c & Hy & Hc). simpl. rewrite Hy.
  destruct (Hc eq_refl) as [_ ->]. reflexivity.
Defined.

(** Pagination.  For a device that lists some entries in order, a listing
    that returns gives exactly the entries from the cursor on, at most the
    limit, and a next cursor exactly when there are more, which is the cursor
    of the first entry not returned; so following the next cursors lists every
    entry once.  Every listing closes its stream. *)
Theorem list_directory_pages entries handles volume path cursor limit s o s' d x
    `{!ListDevice entries handles} :
  io_trace s = [] → list_directory volume path cursor limit s = (o, s') →
  closes FileType.LIST_NEXT o (io_trace s')
  ∧ (link_steps handles (d, None) (io_trace s') x → ∀ r, o = Done r →
     r = {| lr_entries := take (Z.to_nat limit) (drop (Z.to_nat cursor) entries);
            lr_cursor := cursor;
            lr_next_cursor :=
              if cursor + limit <? zlen entries then Some (cursor + limit) else None |}).
Proof.
  intros Hs Hrun. split.
  - destruct (list_directory_closes volume path cursor limit s) as (t & Ht & _ & Hc).
    cbn [trace_of io_world] in *. rewrite Hrun, Hs in *. simpl in *. by subst t.
  - destruct (list_directory_dspec entries handles volume path cursor limit s) as (t & Ht & _ & H).
    cbn [trace_of io_world] in *. rewrite Hrun, Hs in *. simpl in *. subst t. intros Hx r ->.
    destruct H as [? | H]; [done |]. by destruct (H d x I Hx) as (d' & _ & _ & _ & ->).
Qed.

(** A device that lists two entries, one page each. *)
Definition example_entry (name : string) : string * file_metadata :=
  (name, {| fm_kind := "file"; fm_size := 3; fm_mtime_s := 0; fm_etag := "0000000000000007" |}).
Definition example_entries : list (string * file_metadata) := [example_entry "a"; example_entry "b"].
Definition page_frame (flags : Z) (letter : Z) : Frame :=
  mkFrame Channel.FILE FileType.LIST_DATA 0 0 0 9 0
    ([0; 0; flags; 1; 1; 1; 0; 0] ++ le_encode 8 3 ++ le_encode 8 0 ++ le_encode 8 7 ++ [letter]).
Definition list_opened_frame : Frame := file_reply FileType.LIST_OPENED 9 (le_encode 4 9).
Definition example_list_step (d : nat) (r : request) : nat * Frame :=
  match enum_of_value (rq_type r) : option FileType.FileType_t with
  | Some FileType.LIST_OPEN => (O, list_opened_frame)
  | Some FileType.LIST_NEXT =>
    match d with
    | O => (1%nat, page_frame 0 97)
    | S O => (2%nat, page_frame 1 98)
    | _ => (d, file_refusal)
    end
  | _ => (d, file_reply FileType.CLOSE_RESPONSE 9 [])
  end.
Definition example_list_handles (d : nat) (r : request) (d' : nat) (f : Frame) : Prop :=
  example_list_step d r = (d', f).

Lemma example_list_device : ListDevice example_entries example_list_handles.
Proof.
  constructor.
  - intros d m d' f H. unfold example_list_handles, example_list_step in H.
    cbn [file_request rq_type] in H.
    change (enum_of_value _) with (Some FileType.LIST_OPEN) in H. cbv iota in H. congruence.
  - intros d sid d' f e ended H Hp. unfold example_list_handles, example_list_step in H.
    cbn [file_request rq_type] in H.
    change (enum_of_value _) with (Some FileType.LIST_NEXT) in H. cbv iota in H.
    assert (Hsid : fr_stream_id f = sid).
    { unfold decode_page in Hp. bind Hp as p Hf.
      destruct (_ || _) eqn:G in Hp; [discriminate Hp | lia]. }
    destruct d as [| [| d]]; injection H as <- <-; vm_compute in Hsid; subst sid; vm_compute in Hp;
      [| | discriminate Hp]; injection Hp as <- <-;
      (split; [reflexivity | split; [reflexivity | split; intros; done]]).
Qed.

Definition example_list_io : io := Io
  [Ok list_opened_frame; Ok (page_frame 0 97); Ok (page_frame 1 98);
   Ok (file_reply FileType.CLOSE_RESPONSE 9 [])] [] [].
Abbreviation example_list := (list_directory "data" "a" 1 5 example_list_io).
Lemma example_list_done : done_with (λ _, true) (fst example_list) = true.
Proof. vm_compute. reflexivity. Qed.
Lemma example_list_link : ∃ x,
  link_steps example_list_handles (O, None) (io_trace (snd example_list)) x.
Proof.
  assert (H : ∃ t, io_trace (snd example_list) = t) by (vm_compute; by eexists).
  destruct H as [t Ht]. rewrite Ht. vm_compute in Ht. subst t. eexists.
  do 4 (eapply steps_cons; [apply step_send |]; eapply steps_cons;
    [apply step_reply; vm_compute; reflexivity |]).
  apply steps_nil.
Qed.

Lemma list_directory_pages_witness :
  ∃ r, fst example_list = Done r ∧ lr_entries r = [example_entry "b"] ∧ lr_next_cursor r = None.
Proof.
  destruct example_list_link as [x Hx]. pose proof example_list_done as Hd.
  destruct example_list as [o s'] eqn:H.
  destruct (list_directory_pages example_entries example_list_handles "data" "a" 1 5
    example_list_io o s' O x
    (ListDevice0 := example_list_device) eq_refl H) as [_ Hr].
  destruct o as [r|e|]; [| discriminate Hd ..]. exists r. split; [reflexivity |].
  rewrite (Hr Hx r eq_refl). split; reflexivity.
Defined.

(** C4: uploads are delivered exactly once, over a lossy link.  For a device
    that obeys [WriteDevice] and a link on which any request may raise after it
    was lost or after only its reply was lost, an upload that returns has read
    its source to the end, sent as many bytes as declared, and the device has
    committed exactly those bytes; the digest it reports is theirs. *)
Theorem upload_delivers {D} (handles : D → request → D → Frame → Prop) stream_id
    volume path chunks total_size overwrite if_match progress s r s' d x
    `{!WriteDevice handles stream_id} :
  io_trace s = [] →
  upload volume path chunks total_size overwrite if_match progress s = (Done r, s') →
  link_steps handles (d, None) (io_trace s') x →
  ∃ d' data, x = (d', None) ∧ source_bytes chunks = Some data ∧ zlen data = total_size
    ∧ wd_final d' = Some data ∧ fu_sha256 r = sha256_hex data.
Proof.
  intros Hs Hrun Hx.
  destruct (upload_dspec handles stream_id volume path chunks total_size overwrite if_match
    progress s) as (t & Ht & _ & H).
  cbn [trace_of io_world] in *. rewrite Hrun, Hs in *. simpl in *. subst t. destruct H as [? | H]; [done |].
  destruct (H d x I Hx) as (d' & -> & data & Hd). by exists d', data.
Qed.

Definition example_chunks : list (res bytes) := [Ok [1; 2; 3; 4; 5]; Ok []; Ok [6; 7]].
Definition example_device (stored : bytes) (final : option bytes) : ref_file := RefFile stored final.
(** The reply to the first part is lost, the third part is lost, and the reply
    to COMMIT is lost. *)
Definition example_upload_script : list (res Frame) := [
  Ok (write_opened_reply 9 4);
  raise TimeoutError ""; Ok (write_status_reply 9 (RefFile [1; 2; 3; 4] None));
  Ok (ack_reply 9 5);
  raise TimeoutError ""; Ok (write_status_reply 9 (RefFile [1; 2; 3; 4; 5] None));
  Ok (ack_reply 9 7);
  raise TimeoutError "";
  Ok (write_status_reply 9 (RefFile [1; 2; 3; 4; 5; 6; 7] (Some [1; 2; 3; 4; 5; 6; 7])));
  Ok (committed_reply FileType.STAT_RESPONSE 0 (RefFile [1; 2; 3; 4; 5; 6; 7] None))].
Abbreviation example_upload :=
  (upload "data" "a/b" example_chunks 7 false None false (Io example_upload_script [] [])).
Lemma example_upload_done : done_with (λ _, true) (fst example_upload) = true.
Proof. vm_compute. reflexivity. Qed.

Ltac file_exchange :=
  eapply steps_cons; [apply step_send |]; eapply steps_cons;
  [first [apply step_reply | eapply step_reply_lost];
   split; [vm_compute; reflexivity | split; [by_decide | split; reflexivity]] |].

Lemma example_upload_link : ∃ x,
  link_steps (ref_file_handles 9 4) (RefFile [] None, None) (io_trace (snd example_upload)) x.
Proof.
  assert (H : ∃ t, io_trace (snd example_upload) = t) by (vm_compute; by eexists).
  destruct H as [t Ht]. rewrite Ht. vm_compute in Ht. subst t. eexists.
  do 4 file_exchange.
  eapply steps_cons; [apply step_send |]; eapply steps_cons; [apply step_request_lost |].
  do 5 file_exchange. apply steps_nil.
Qed.

Lemma upload_delivers_witness :
  ∃ r d', fst example_upload = Done r ∧ rf_final d' = Some [1; 2; 3; 4; 5; 6; 7]
    ∧ fu_sha256 r = sha256_hex [1; 2; 3; 4; 5; 6; 7].
Proof.
  destruct example_upload_link as [x Hx]. pose proof example_upload_done as Hd.
  destruct example_upload as [o s'] eqn:H. destruct o as [r|e|]; [| discriminate Hd ..].
  destruct (upload_delivers (ref_file_handles 9 4) 9 "data" "a/b" example_chunks 7 false None false
    (Io example_upload_script [] []) r s' (RefFile [] None) x
    (WriteDevice0 := ref_write_device 9 4 ltac:(lia)) eq_refl H Hx)
    as (d' & data & _ & Hsrc & _ & Hfin & Hsha).
  injection Hsrc as <-. exists r, d'. split; [reflexivity |]. split; [exact Hfin | exact Hsha].
Defined.

(** An upload settles its stream.  An upload that returns has seen a reply
    that shows the commit; one that raises either never sent a part or a
    commit, or its last exchange is an ABORT, or it had already seen such a
    reply when a later step failed. *)
Theorem upload_settled volume path chunks total_size overwrite if_match progress s o s' :
  env_ok s → Forall res_ok chunks → io_trace s = [] →
  upload volume path chunks total_size overwrite if_match progress s = (o, s') →
  match o with
  | Done _ => commit_evidence (io_trace s')
  | Raised _ => settled (io_trace s')
  | Blocked => True
  end.
Proof.
  intros Henv Hc Hs Hrun.
  destruct (upload_settles volume path chunks total_size overwrite if_match progress s) as (t & Ht & _ & H).
  destruct (safe_upload volume path chunks total_size overwrite if_match progress Hc s Henv) as [Hok _].
  cbn [trace_of io_world] in *. rewrite Hrun, Hs in *. simpl in *. subst t. destruct o; [done | by apply H | done].
Qed.

Abbreviation example_failed_upload :=
  (upload "data" "a/b" example_chunks 7 false None false
    (Io [Ok (write_opened_reply 9 4); Ok file_refusal; raise ConnectionError ""] [] [])).
Lemma example_failed_raises : raised_with (λ _, true) (fst example_failed_upload) = true.
Proof. vm_compute. reflexivity. Qed.

Lemma upload_settled_witness : settled (io_trace (snd example_failed_upload)).
Proof.
  pose proof example_failed_raises as Hr. destruct example_failed_upload as [o s'] eqn:H.
  destruct o as [r|e|]; [discriminate Hr | | discriminate Hr].
  apply (upload_settled "data" "a/b" example_chunks 7 false None false
    (Io [Ok (write_opened_reply 9 4); Ok file_refusal; raise ConnectionError ""] [] [])
    (Raised e) s'); [split; repeat constructor; discriminate | repeat constructor | reflexivity | exact H].
Defined.

(** C40: no file operation runs forever: on every finite sequence of replies
    and callback results, listings, reads and uploads return, raise, or wait for
    a further reply. *)
Theorem file_operations_terminate volume path cursor limit offset length chunks total_size
    overwrite if_match progress s :
  env_ok s → Forall res_ok chunks →
  outcome_ok (fst (list_directory volume path cursor limit s))
  ∧ outcome_ok (fst (read_chunks volume path offset length s))
  ∧ outcome_ok (fst (upload volume path chunks total_size overwrite if_match progress s)).
Proof.
  intros Henv Hc. split_and!.
  - by apply safe_list_directory.
  - by apply safe_read_chunks.
  - by apply safe_upload.
Qed.

Lemma file_operations_terminate_witness :
  env_ok (Io example_upload_script [] [])
  ∧ outcome_ok (fst (list_directory "data" "a/b" 0 5 (Io example_upload_script [] [])))
  ∧ outcome_ok (fst (read_chunks "data" "a/b" 0 None (Io example_upload_script [] [])))
  ∧ outcome_ok (fst example_upload).
Proof.
  assert (H : env_ok (Io example_upload_script [] [])) by (split; repeat constructor; discriminate).
  split; [exact H |].
  apply (file_operations_terminate "data"); [exact H | repeat constructor].
Defined.
