(* ===== verification/DeviceInfo.v ===== *)
(** * Device identity ([boot_identity.py] and the HELLO of [session.py])

    The metadata a device declares in its HELLO, the checks it must pass, the
    message the host signs to authenticate, and the exact text aliases added
    to 64-bit boot ids for clients whose numbers are doubles. *)
From stdpp Require Import pretty.
From S2P Require Import Prelude Enums Text Protocol Sha256 Value.

(** ** Boot id aliases *)

(** [key.endswith(suffix)] *)
Definition str_endswith (suffix key : string) : bool :=
  let n := String.length key in
  let k := String.length suffix in
  (k <=? n)%nat && (substring (n - k) k key =? suffix)%string.

Definition is_boot_id_key (key : string) : bool :=
  (key =? "boot_id")%string || str_endswith "_boot_id" key.

(** The second loop of [boot_id_text]: the aliases of the integer entries. *)
Definition add_alias (result : list (string * pyval)) (kv : string * pyval) : list (string * pyval) :=
  match kv with
  | (key, PInt z) =>
    if is_boot_id_key key then dict_set (key ++ "_text")%string (PStr (pretty z)) result else result
  | _ => result
  end.

(** [boot_id_text] of a dictionary value; other values are kept, and of a
    list only the dictionaries directly in it are rewritten. *)
Fixpoint boot_value (v : pyval) : pyval :=
  match v with
  | PDict d => PDict (fold_left add_alias d (map (λ kv, (fst kv, boot_value (snd kv))) d))
  | PList l => PList (map (λ e, match e with PDict _ => boot_value e | _ => e end) l)
  | v => v
  end.

Definition boot_id_text (item : list (string * pyval)) : list (string * pyval) :=
  match boot_value (PDict item) with PDict d => d | _ => [] end.

(** ** Device information *)

Record DeviceInfo := {
  device_id : string;
  boot_id : Z;
  session_id : Z;
  endpoint : string;
  transport : Z;
  project_name : string;
  app_version : string;
  idf_version : string;
  firmware_sha256 : string;
  reset_reason : Z;
  capabilities : Z;
  auth_mode : Z;
  max_payload : Z;
  firmware_mode : string;
  product_contract : string;
  chip_target : string;
  board_id : string;
  layout_id : string;
  recovery_abi : Z;
  required_features : Z;
  health_timeout_ms : Z;
  hardware_mac : string;
}.

Definition info_asdict (i : DeviceInfo) : list (string * pyval) := [
  ("device_id", PStr (device_id i)); ("boot_id", PInt (boot_id i));
  ("session_id", PInt (session_id i)); ("endpoint", PStr (endpoint i));
  ("transport", PInt (transport i)); ("project_name", PStr (project_name i));
  ("app_version", PStr (app_version i)); ("idf_version", PStr (idf_version i));
  ("firmware_sha256", PStr (firmware_sha256 i)); ("reset_reason", PInt (reset_reason i));
  ("capabilities", PInt (capabilities i)); ("auth_mode", PInt (auth_mode i));
  ("max_payload", PInt (max_payload i)); ("firmware_mode", PStr (firmware_mode i));
  ("product_contract", PStr (product_contract i)); ("chip_target", PStr (chip_target i));
  ("board_id", PStr (board_id i)); ("layout_id", PStr (layout_id i));
  ("recovery_abi", PInt (recovery_abi i)); ("required_features", PInt (required_features i));
  ("health_timeout_ms", PInt (health_timeout_ms i)); ("hardware_mac", PStr (hardware_mac i))]%string.

(** [bits] *)
Definition capability_bits : list (Z * string) := [
  (0, "log"); (1, "events"); (2, "status"); (3, "time_sync"); (4, "screen"); (5, "ota");
  (6, "crash"); (7, "auth"); (8, "rpc"); (9, "jobs"); (10, "image"); (11, "audio");
  (12, "mirror"); (13, "files"); (14, "ota_project_name_match"); (15, "system_update");
  (16, "system_inventory")]%string.

Definition info_capability_names (i : DeviceInfo) : list string :=
  let names :=
    omap (λ bn, if Z.testbit (capabilities i) (fst bn) then Some (snd bn) else None) capability_bits
    ++ ["restart"%string] in
  if existsb (String.eqb "rpc") names then names ++ ["input"%string] else names.

Definition as_dict (i : DeviceInfo) : list (string * pyval) :=
  let result := boot_id_text (info_asdict i) in
  let result := dict_set "capability_names" (PList (map PStr (info_capability_names i))) result in
  dict_set "ota_project_name_match_required"
    (PBool (negb (Z.land (capabilities i) Capability.OTA_PROJECT_NAME_MATCH =? 0))) result.

(** ** HELLO *)

(** [":".join(f"{byte:02x}" for byte in raw)] *)
Fixpoint colon_hex (raw : bytes) : string :=
  match raw with
  | [] => ""
  | [b] => hex [b]
  | b :: raw => hex [b] ++ ":" ++ colon_hex raw
  end.

Definition _text (fields : gmap Z bytes) (tag : TlvTag.TlvTag_t) : string :=
  utf8_decode_replace (tlv_bytes fields tag).

(** The prefix of a device id made from the factory MAC, [b"ESP-IRIS\x01\x00"]. *)
Definition device_id_prefix : bytes := str_encode "ESP-IRIS" ++ [1; 0].

Definition check_field_size (fields : gmap Z bytes) (tag : TlvTag.TlvTag_t) (size : Z) : res () :=
  raise_if (match fields !! (tag : Z) with Some v => negb (zlen v =? size) | None => false end)
    ProtocolError "invalid field length".
Definition check_text_size (fields : gmap Z bytes) (tag : TlvTag.TlvTag_t) : res () :=
  raise_if (64 <? zlen (tlv_bytes fields tag)) ProtocolError "field exceeds 64 bytes".

Definition firmware_role_name (role : Z) : string :=
  if role =? 0 then "unknown" else if role =? 1 then "normal" else "recovery".

(** The first part of [_handle_hello], up to the construction of [info]. *)
Definition hello_info (link_endpoint : string) (frame : Frame) : res (gmap Z bytes * DeviceInfo) :=
  fields ← decode_tlv (fr_payload frame);
  let raw_device_id := tlv_bytes fields TlvTag.DEVICE_ID in
  _ ← raise_if (negb (zlen raw_device_id =? 16)) ProtocolError "HELLO is missing a 16-byte device ID";
  let raw_hardware_mac := tlv_bytes fields TlvTag.HARDWARE_MAC in
  _ ← raise_if (negb (is_nil raw_hardware_mac) && negb (zlen raw_hardware_mac =? 6))
        ProtocolError "HELLO has an invalid hardware MAC";
  _ ← raise_if (negb (is_nil raw_hardware_mac)
                && negb (bool_decide (raw_device_id = device_id_prefix ++ raw_hardware_mac)))
        ProtocolError "device ID does not match the factory hardware MAC";
  _ ← raise_if (negb (tlv_u16 fields TlvTag.PROTOCOL_VERSION 0 =? 1))
        ProtocolError "unsupported ESP-Iris protocol";
  _ ← check_field_size fields TlvTag.FIRMWARE_ROLE 1;
  _ ← check_field_size fields TlvTag.RECOVERY_ABI 2;
  _ ← check_field_size fields TlvTag.REQUIRED_FEATURES 8;
  _ ← check_field_size fields TlvTag.HEALTH_TIMEOUT_MS 4;
  _ ← check_text_size fields TlvTag.PRODUCT_CONTRACT;
  _ ← check_text_size fields TlvTag.CHIP_TARGET;
  _ ← check_text_size fields TlvTag.BOARD_ID;
  _ ← check_text_size fields TlvTag.LAYOUT_ID;
  let features := tlv_u64 fields TlvTag.REQUIRED_FEATURES 0 in
  _ ← raise_if (negb (features =? 0)) ProtocolError "unsupported required features";
  let role := tlv_u8 fields TlvTag.FIRMWARE_ROLE 0 in
  _ ← raise_if (negb ((role =? 0) || (role =? 1) || (role =? 2)))
        ProtocolError "unsupported firmware role";
  let health := tlv_u32 fields TlvTag.HEALTH_TIMEOUT_MS 45000 in
  _ ← raise_if (negb ((1000 <=? health) && (health <=? 600000)))
        ProtocolError "health timeout must be between 1000 and 600000 ms";
  Ok (fields, {|
    device_id := hex raw_device_id;
    boot_id := tlv_u64 fields TlvTag.BOOT_ID 0;
    session_id := fr_session_id frame;
    endpoint := link_endpoint;
    transport := tlv_u8 fields TlvTag.TRANSPORT 0;
    project_name := _text fields TlvTag.PROJECT_NAME;
    app_version := _text fields TlvTag.APP_VERSION;
    idf_version := _text fields TlvTag.IDF_VERSION;
    firmware_sha256 := hex (tlv_bytes fields TlvTag.FIRMWARE_SHA256);
    reset_reason := tlv_u32 fields TlvTag.RESET_REASON 0;
    capabilities := tlv_u64 fields TlvTag.CAPABILITIES 0;
    auth_mode := tlv_u8 fields TlvTag.AUTH_MODE 0;
    max_payload := tlv_u32 fields TlvTag.MAX_PAYLOAD 4000;
    firmware_mode := firmware_role_name role;
    product_contract := _text fields TlvTag.PRODUCT_CONTRACT;
    chip_target := _text fields TlvTag.CHIP_TARGET;
    board_id := _text fields TlvTag.BOARD_ID;
    layout_id := _text fields TlvTag.LAYOUT_ID;
    recovery_abi := tlv_u16 fields TlvTag.RECOVERY_ABI 0;
    required_features := features;
    health_timeout_ms := health;
    hardware_mac := colon_hex raw_hardware_mac |}).

(** The message the pairing token signs. *)
Definition auth_message (raw_device_id challenge nonce : bytes) (boot session : Z) : res bytes :=
  b ← pack_uint 8 boot;
  s ← pack_uint 4 session;
  Ok (str_encode "ESP-Iris-auth-v1" ++ raw_device_id ++ (b ++ s) ++ challenge ++ nonce).

(** The HELLO_ACK payload of an authenticated device. *)
Definition auth_response (token raw_device_id challenge nonce : bytes) (boot session : Z)
    : res bytes :=
  message ← auth_message raw_device_id challenge nonce boot session;
  Ok (nonce ++ hmac_sha256 token message).

(** ** Lemmas on keys *)

Lemma substring_split m : ∀ s, (m ≤ String.length s)%nat →
  s = (substring 0 m s ++ substring m (String.length s - m) s)%string.
Proof.
  induction m as [|m IH]; intros s Hm; simpl.
  - rewrite Nat.sub_0_r. assert (H : ∀ s, substring 0 (String.length s) s = s).
    { clear. induction s as [|a s IH]; simpl; [done | by rewrite IH]. }
    destruct s; simpl; [done | by rewrite H].
  - destruct s as [|a s]; simpl in *; [lia |]. rewrite (IH s) at 1 by lia. reflexivity.
Qed.

Lemma str_endswith_Some suffix key :
  str_endswith suffix key = true → ∃ p, key = (p ++ suffix)%string.
Proof.
  unfold str_endswith. intros [Hl Hs]%andb_true_iff. apply Nat.leb_le in Hl.
  apply String.eqb_eq in Hs.
  exists (substring 0 (String.length key - String.length suffix) key).
  rewrite <- Hs at 2.
  rewrite (substring_split (String.length key - String.length suffix) key) at 1 by lia.
  do 2 f_equal. lia.
Qed.

Lemma app_cancel_r (s t u : string) : (s ++ u = t ++ u)%string → s = t.
Proof.
  intros H. apply str_encode_inj. apply (f_equal str_encode) in H.
  rewrite !str_encode_app in H. by apply app_inv_tail in H.
Qed.

(** An alias is never itself the key of a boot id. *)
Lemma alias_not_boot_id key : is_boot_id_key (key ++ "_text") = false.
Proof.
  assert (Hlast : ∀ p q, (key ++ "_text" ≠ (p ++ q) ++ "d")%string).
  { intros p q H. apply (f_equal (λ s, last (str_encode s))) in H.
    rewrite !str_encode_app in H. change (str_encode "_text") with ([95; 116; 101; 120] ++ [116]) in H.
    change (str_encode "d") with [100] in H.
    rewrite app_assoc, !last_snoc in H. discriminate H. }
  unfold is_boot_id_key. apply orb_false_iff. split.
  - apply String.eqb_neq. apply (Hlast "" "boot_i").
  - destruct (str_endswith _ _) eqn:H; [| done]. apply str_endswith_Some in H as [p H].
    exfalso. apply (Hlast p "_boot_i"). rewrite H. apply str_encode_inj.
    by rewrite !str_encode_app, <- app_assoc.
Qed.

Lemma add_alias_other K d : ∀ r,
  (∀ k z, (k, PInt z) ∈ d → is_boot_id_key k = true → (k ++ "_text")%string ≠ K) →
  dict_lookup K (fold_left add_alias d r) = dict_lookup K r.
Proof.
  induction d as [|[k v] d IH]; intros r H; [done |]. cbn [fold_left].
  rewrite IH by (intros; eapply H; [by right | done]).
  unfold add_alias. destruct v; try done. destruct (is_boot_id_key k) eqn:Hk; [| done].
  rewrite dict_lookup_set. case_match eqn:He; [| done].
  apply String.eqb_eq in He. destruct (H k z); [left | done | done].
Qed.

Lemma add_alias_hit k z d : ∀ r,
  NoDup (keys d) → (k, PInt z) ∈ d → is_boot_id_key k = true →
  dict_lookup (k ++ "_text") (fold_left add_alias d r) = Some (PStr (pretty z)).
Proof.
  induction d as [|[k' v] d IH]; intros r Hnd Hin Hk; [by apply elem_of_nil in Hin |].
  cbn [fold_left]. apply NoDup_cons in Hnd as [Hnew Hnd].
  apply elem_of_cons in Hin as [[= <- <-] | Hin]; [| by apply IH].
  rewrite add_alias_other.
  - unfold add_alias. rewrite Hk, dict_lookup_set, String.eqb_refl. done.
  - intros k' z' Hin' _ ->%app_cancel_r. apply Hnew.
    apply (list_elem_of_fmap_2 fst) in Hin'. exact Hin'.
Qed.

Lemma boot_value_lookup K d :
  dict_lookup K (map (λ kv, (fst kv, boot_value (snd kv))) d) = boot_value <$> dict_lookup K d.
Proof.
  induction d as [|[k v] d IH]; [done |]. simpl. by destruct (String.eqb k K).
Qed.

(** ** Lemmas on HELLO *)

Lemma is_bytes_single x : byte_ok x → is_bytes [x].
Proof. intros Hx. apply is_bytes_cons. split; [done | apply is_bytes_nil]. Qed.

Lemma colon_hex_inj a : ∀ b, is_bytes a → is_bytes b → zlen a = zlen b →
  colon_hex a = colon_hex b → a = b.
Proof.
  induction a as [|x a IH]; intros b Ha Hb Hl H.
  { destruct b; [done | rewrite zlen_cons, zlen_nil in Hl; pose proof (zlen_nonneg b); lia]. }
  destruct b as [|y b]; [rewrite zlen_cons, zlen_nil in Hl; pose proof (zlen_nonneg a); lia |].
  rewrite !zlen_cons in Hl. apply is_bytes_cons in Ha as [Hx Ha], Hb as [Hy Hb].
  assert (Hxy : ∀ s t, (hex [x] ++ s = hex [y] ++ t)%string → x = y ∧ s = t).
  { intros s t He. cbn [hex append] in He. injection He as H1 H2 H3.
    split; [| done]. assert (He : hex [x] = hex [y]) by (cbn [hex]; by rewrite H1, H2).
    apply hex_inj in He; [by injection He | by apply is_bytes_single ..]. }
  destruct a as [|x' a], b as [|y' b]; [| unfold zlen in Hl; simpl in Hl; lia ..|].
  - change (colon_hex [x]) with (hex [x]) in H. change (colon_hex [y]) with (hex [y]) in H.
    apply hex_inj in H; [done | by apply is_bytes_single ..].
  - change (hex [x] ++ ":" ++ colon_hex (x' :: a) = hex [y] ++ ":" ++ colon_hex (y' :: b))%string in H.
    apply Hxy in H as [-> H]. cbn [append] in H. injection H as H. f_equal.
    apply IH; [done | done | lia | done].
Qed.

(** What an accepted HELLO says about the fields. *)
Record hello_ok (fields : gmap Z bytes) (i : DeviceInfo) : Prop := {
  ho_device_id : device_id i = hex (tlv_bytes fields TlvTag.DEVICE_ID);
  ho_device_id_size : zlen (tlv_bytes fields TlvTag.DEVICE_ID) = 16;
  ho_mac : hardware_mac i = colon_hex (tlv_bytes fields TlvTag.HARDWARE_MAC);
  ho_mac_size : tlv_bytes fields TlvTag.HARDWARE_MAC = []
    ∨ zlen (tlv_bytes fields TlvTag.HARDWARE_MAC) = 6
      ∧ tlv_bytes fields TlvTag.DEVICE_ID
        = device_id_prefix ++ tlv_bytes fields TlvTag.HARDWARE_MAC;
  ho_version : tlv_u16 fields TlvTag.PROTOCOL_VERSION 0 = 1;
  ho_features : required_features i = 0;
  ho_mode : firmware_mode i ∈ ["unknown"; "normal"; "recovery"]%string;
  ho_health : 1000 ≤ health_timeout_ms i ≤ 600000;
}.

Lemma firmware_role_name_in r : firmware_role_name r ∈ ["unknown"; "normal"; "recovery"]%string.
Proof. unfold firmware_role_name. destruct (r =? 0), (r =? 1); by_decide. Qed.

Lemma hello_info_ok ep f fields i :
  hello_info ep f = Ok (fields, i) →
  decode_tlv (fr_payload f) = Ok fields ∧ session_id i = fr_session_id f ∧ hello_ok fields i
  ∧ boot_id i = tlv_u64 fields TlvTag.BOOT_ID 0 ∧ endpoint i = ep.
Proof.
  unfold hello_info, check_field_size, check_text_size. intros H. bind H as fs Hf.
  guard H as G1. guard H as G2. guard H as G3. guard H as G4.
  guard H as S1. guard H as S2. guard H as S3. guard H as S4.
  guard H as S5. guard H as S6. guard H as S7. guard H as S8. guard H as G5. guard H as G6. guard H as G7.
  apply negb_false_iff, Z.eqb_eq in G5. apply negb_false_iff, andb_true_iff in G7.
  rewrite !Z.leb_le in G7. injection H as <- <-.
  split; [done |]. split; [done |]. split; [| done]. constructor; cbn [device_id hardware_mac
    required_features firmware_mode health_timeout_ms]; try done; try lia.
  - destruct (tlv_bytes fs TlvTag.HARDWARE_MAC) eqn:E; [by left | right].
    cbn [is_nil negb andb] in G2, G3. split; [lia |].
    apply negb_false_iff, bool_decide_eq_true in G3. done.
  - apply firmware_role_name_in.
Qed.

(** ** Properties *)

(** Boot ids survive clients without 64-bit numbers.  In a metadata
    dictionary, every integer [boot_id] entry keeps its numeric value and gains
    a text alias that is its exact decimal form, which determines it; every
    other key that is not such an alias keeps its entry (with nested
    dictionaries treated the same). *)
Theorem boot_id_text_exact item key z :
  NoDup (keys item) → dict_lookup key item = Some (PInt z) → is_boot_id_key key = true →
  dict_lookup key (boot_id_text item) = Some (PInt z)
  ∧ dict_lookup (key ++ "_text") (boot_id_text item) = Some (PStr (pretty z))
  ∧ (∀ z', (pretty z : string) = pretty z' → z = z')
  ∧ ∀ k, (∀ k' z', (k', PInt z') ∈ item → is_boot_id_key k' = true → (k' ++ "_text")%string ≠ k) →
      dict_lookup k (boot_id_text item) = boot_value <$> dict_lookup k item.
Proof.
  intros Hnd Hl Hk.
  assert (Hother : ∀ k, (∀ k' z', (k', PInt z') ∈ item → is_boot_id_key k' = true →
      (k' ++ "_text")%string ≠ k) →
    dict_lookup k (boot_id_text item) = boot_value <$> dict_lookup k item).
  { intros k Hnone. unfold boot_id_text. cbn [boot_value].
    rewrite add_alias_other, boot_value_lookup; [done |].
    exact Hnone. }
  split; [| split; [| split; [intros z' Hz; by apply (inj pretty) | done]]].
  - rewrite Hother; [by rewrite Hl |]. intros k' z' _ _ Heq.
    rewrite <- Heq, alias_not_boot_id in Hk. discriminate Hk.
  - unfold boot_id_text. cbn [boot_value]. apply add_alias_hit; [done | | done].
    by apply dict_lookup_Some_in.
Qed.

Definition example_item : list (string * pyval) :=
  [("boot_id", PInt 18446744073709551615); ("name", PStr "x")]%string.
Lemma boot_id_text_exact_witness :
  dict_lookup "boot_id_text" (boot_id_text example_item) = Some (PStr "18446744073709551615").
Proof.
  assert (H : NoDup (keys example_item)) by by_decide.
  apply (boot_id_text_exact example_item "boot_id" 18446744073709551615 H eq_refl eq_refl).
Defined.

(** Accepted identities.  A HELLO is accepted only with protocol version 1,
    no required feature, a known role, a health timeout in range and a 16-byte
    device id; two accepted HELLOs that declare a factory MAC have the same
    device id exactly when they declare the same MAC. *)
Theorem hello_identity ep ep' f f' fields fields' i i' :
  hello_info ep f = Ok (fields, i) → hello_info ep' f' = Ok (fields', i') →
  hello_ok fields i ∧ hello_ok fields' i'
  ∧ (is_bytes (tlv_bytes fields TlvTag.DEVICE_ID) → is_bytes (tlv_bytes fields' TlvTag.DEVICE_ID) →
     hardware_mac i ≠ "" → hardware_mac i' ≠ "" →
     (device_id i = device_id i' ↔ hardware_mac i = hardware_mac i'))%string.
Proof.
  intros H H'. apply hello_info_ok in H as (_ & _ & H & _), H' as (_ & _ & H' & _).
  split; [done |]. split; [done |]. intros Hb Hb' Hm Hm'.
  destruct H as [Hid _ Hmac Hsize _ _ _ _], H' as [Hid' _ Hmac' Hsize' _ _ _ _].
  rewrite Hmac in Hm |- *. rewrite Hmac' in Hm' |- *. rewrite Hid, Hid'.
  destruct Hsize as [E | [Hs Hd]]; [by rewrite E in Hm |].
  destruct Hsize' as [E | [Hs' Hd']]; [by rewrite E in Hm' |].
  rewrite Hd, Hd' in *. apply is_bytes_app in Hb as [Hp Hb], Hb' as [_ Hb']. split.
  - intros Heq. apply hex_inj in Heq; [| by apply is_bytes_app ..].
    apply app_inv_head in Heq. by rewrite Heq.
  - intros Heq. apply colon_hex_inj in Heq; [by rewrite Heq | done | done | lia].
Qed.

Definition example_mac : bytes := [1; 2; 3; 4; 5; 6].
Definition tlv_item (tag : TlvTag.TlvTag_t) (v : bytes) : bytes :=
  [TlvTag.TlvTag_value tag] ++ le_encode 2 (zlen v) ++ v.
Definition example_hello (auth : Z) : Frame :=
  mkFrame Channel.CONTROL ControlType.HELLO 0 77 0 0 1
    (tlv_item TlvTag.DEVICE_ID (device_id_prefix ++ example_mac)
     ++ tlv_item TlvTag.HARDWARE_MAC example_mac
     ++ tlv_item TlvTag.BOOT_ID (le_encode 8 42)
     ++ tlv_item TlvTag.AUTH_MODE [auth]
     ++ tlv_item TlvTag.AUTH_CHALLENGE (repeat 9 32)
     ++ tlv_item TlvTag.PROTOCOL_VERSION [1; 0]).
Abbreviation example_accepted := (hello_info "tcp:x" (example_hello 0)).
Lemma example_hello_ok : is_ok example_accepted = true.
Proof. vm_compute. reflexivity. Qed.

Lemma hello_identity_witness : ∃ fields i, example_accepted = Ok (fields, i) ∧ hello_ok fields i.
Proof.
  pose proof example_hello_ok as Hok. destruct example_accepted as [[fields i]|e] eqn:H; [| discriminate Hok].
  exists fields, i. split; [reflexivity |]. apply (hello_identity _ _ _ _ _ _ _ _ H H).
Defined.

(** The signed message is unambiguous: for a 16-byte device id and nonce
    and a 32-byte challenge, which the code ensures, two equal messages were
    made from the same device, boot, session, challenge and nonce. *)
Theorem auth_message_injective raw c n boot session raw' c' n' boot' session' m :
  zlen raw = 16 → zlen raw' = 16 → zlen c = 32 → zlen c' = 32 → zlen n = 16 → zlen n' = 16 →
  auth_message raw c n boot session = Ok m → auth_message raw' c' n' boot' session' = Ok m →
  raw = raw' ∧ c = c' ∧ n = n' ∧ boot = boot' ∧ session = session'.
Proof.
  unfold auth_message. intros Hr Hr' Hc Hc' Hn Hn' H H'.
  bind H as b Hb. bind H as s Hs. injection H as <-.
  bind H' as b' Hb'. bind H' as s' Hs'. injection H' as H'.
  apply pack_uint_inv in Hb as [-> Hb], Hs as [-> Hs], Hb' as [-> Hb'], Hs' as [-> Hs'].
  unfold zlen in *. apply app_inj_1 in H' as [<- H']; [| lia].
  rewrite <- !app_assoc in H'. apply app_inj_1 in H' as [Heb H'];
    [| by rewrite !length_le_encode]. apply app_inj_1 in H' as [Hes H'];
    [| by rewrite !length_le_encode]. apply app_inj_1 in H' as [<- <-]; [| lia].
  apply (f_equal le_decode) in Heb, Hes. rewrite !le_decode_encode in Heb, Hes by lia. done.
Qed.

Abbreviation example_message := (auth_message (repeat 1 16) (repeat 2 32) (repeat 3 16) 7 8).
Lemma example_message_ok : is_ok example_message = true.
Proof. vm_compute. reflexivity. Qed.

Lemma auth_message_injective_witness : ∃ m, example_message = Ok m
  ∧ repeat 1 16 = repeat 1 16 ∧ (7 : Z) = 7.
Proof.
  pose proof example_message_ok as Hok. destruct example_message as [m|e] eqn:H; [| discriminate Hok].
  exists m. split; [reflexivity |].
  destruct (auth_message_injective (repeat 1 16) (repeat 2 32) (repeat 3 16) 7 8
    (repeat 1 16) (repeat 2 32) (repeat 3 16) 7 8 m
    eq_refl eq_refl eq_refl eq_refl eq_refl eq_refl H H) as (H1 & _ & _ & H2 & _).
  split; [exact H1 | exact H2].
Defined.
