(* ===== verification/SessionOps.v ===== *)
(** * Requests of a device session ([session.py])

    The request/response operations of [DeviceSession] apart from firmware
    updates: status, RPC, jobs, screenshots, media mirroring, restart, crash
    reports and core-dump reads, as transactions over arbitrary replies. *)
From S2P Require Import Prelude Enums Text Protocol Effects Io Value DeviceInfo.

(** [self._request(channel, type_, payload, timeout)]; the default timeout is
    three seconds. *)
Definition control_request (type : ControlType.ControlType_t) (payload : bytes) (timeout : Z)
    : request := Request Channel.CONTROL type payload timeout 0.
Definition crash_request (type : CrashType.CrashType_t) (payload : bytes) : request :=
  Request Channel.CRASH type payload 3000 0.
Definition media_request (channel : Z) (type : MediaType.MediaType_t) (payload : bytes) : request :=
  Request channel type payload 3000 0.

(** ** Status *)

(** The scalar fields of a status response, in the order of the result. *)
Definition status_u32_fields_1 : list (string * TlvTag.TlvTag_t) := [
  ("free_internal", TlvTag.FREE_INTERNAL); ("min_free_internal", TlvTag.MIN_FREE_INTERNAL);
  ("log_dropped_bytes", TlvTag.LOG_DROPPED); ("rx_frames", TlvTag.RX_FRAMES);
  ("tx_frames", TlvTag.TX_FRAMES); ("invalid_frames", TlvTag.INVALID_FRAMES);
  ("link_count", TlvTag.LINK_COUNT); ("task_stack_free_min_bytes", TlvTag.TASK_STACK_FREE_MIN);
  ("worker_active_max_us", TlvTag.WORKER_ACTIVE_MAX_US)]%string.

Definition u32_field (fields : gmap Z bytes) (kt : string * TlvTag.TlvTag_t) : string * pyval :=
  (fst kt, PInt (tlv_u32 fields (snd kt) 0)).
Definition flag_field (fields : gmap Z bytes) (key : string) (tag : TlvTag.TlvTag_t)
    : string * pyval := (key, PBool (negb (tlv_u8 fields tag 0 =? 0))).

(** The crash counters, shared by the status and the crash report. *)
Definition crash_fields (fields : gmap Z bytes) : list (string * pyval) := [
  u32_field fields ("crash_count"%string, TlvTag.CRASH_COUNT);
  u32_field fields ("crash_limit"%string, TlvTag.CRASH_LIMIT);
  flag_field fields "crash_loop_triggered" TlvTag.CRASH_LOOP_TRIGGERED;
  flag_field fields "crash_recovery_pending" TlvTag.CRASH_RECOVERY_PENDING;
  u32_field fields ("crash_origin_reset_reason"%string, TlvTag.CRASH_ORIGIN_RESET_REASON);
  u32_field fields ("crash_failed_app_address"%string, TlvTag.CRASH_FAILED_APP_ADDRESS);
  ("crash_failed_firmware_sha256"%string, PStr (hex (tlv_bytes fields TlvTag.CRASH_FAILED_FIRMWARE_SHA256)));
  u32_field fields ("crash_state_error"%string, TlvTag.CRASH_STATE_ERROR)].

(** [{**d, **fields}] *)
Definition dict_update (d fields : list (string * pyval)) : list (string * pyval) :=
  fold_left (λ d kv, dict_set (fst kv) (snd kv) d) fields d.

Definition status_fields (fields : gmap Z bytes) (clock_offset clock_uncertainty : pyval)
    : list (string * pyval) :=
  (("uptime_us"%string, PInt (tlv_u64 fields TlvTag.UPTIME_US 0))
   :: map (u32_field fields) status_u32_fields_1)
  ++ [("lifecycle_state"%string, PInt (tlv_u8 fields TlvTag.LIFECYCLE_STATE 0));
      u32_field fields ("internal_heap_used_bytes"%string, TlvTag.INTERNAL_HEAP_USED);
      u32_field fields ("static_internal_bytes"%string, TlvTag.STATIC_INTERNAL_BYTES);
      ("internal_total_bytes"%string,
       PInt (tlv_u32 fields TlvTag.STATIC_INTERNAL_BYTES 0 + tlv_u32 fields TlvTag.INTERNAL_HEAP_USED 0))]
  ++ crash_fields fields
  ++ [("clock_offset_us"%string, clock_offset); ("clock_uncertainty_us"%string, clock_uncertainty)].

Definition decode_session_status (info : DeviceInfo) (clock_offset clock_uncertainty : pyval)
    (frame : Frame) : res (list (string * pyval)) :=
  _ ← raise_if (negb (fr_type frame =? ControlType.STATUS_RESPONSE))
        ProtocolError "unexpected status response";
  fields ← decode_tlv (fr_payload frame);
  let raw_hardware_mac := tlv_bytes fields TlvTag.HARDWARE_MAC in
  _ ← raise_if (negb (is_nil raw_hardware_mac)
                && negb (colon_hex raw_hardware_mac =? hardware_mac info)%string)
        ProtocolError "hardware MAC changed on a live session";
  Ok (dict_update (as_dict info) (status_fields fields clock_offset clock_uncertainty)).

Definition status (info : DeviceInfo) (clock_offset clock_uncertainty : pyval)
    : M (list (string * pyval)) :=
  frame ← send_request (control_request ControlType.STATUS_REQUEST [] 3000);
  lift (decode_session_status info clock_offset clock_uncertainty frame).

(** ** RPC *)

Definition rpc_message (service_id method_id deadline_ms : Z) (payload : bytes) : res bytes :=
  s ← pack_uint 2 service_id;
  m ← pack_uint 2 method_id;
  d ← pack_uint 4 deadline_ms;
  n ← pack_uint 2 (zlen payload);
  Ok ((s ++ m ++ d ++ n ++ [0; 0]) ++ payload).

Definition check_rpc (service_id method_id : Z) (frame : Frame) : res bytes :=
  let p := fr_payload frame in
  if negb (fr_type frame =? ControlType.RESPONSE) || (zlen p <? 12)
  then raise ProtocolError "unexpected RPC response"
  else if negb (u16_at p 0 =? service_id) || negb (u16_at p 2 =? method_id)
          || negb (u16_at p 10 =? 0) || negb (zlen p =? 12 + u16_at p 8)
  then raise ProtocolError "invalid RPC response"
  else if negb (i32_at p 4 =? 0) then raise RuntimeError "RPC failed with device error"
  else Ok (slice_from 12 p).

Definition rpc (service_id method_id : Z) (payload : bytes) (deadline_ms timeout : Z) : M bytes :=
  if negb ((1 <=? service_id) && (service_id <=? 0xFFFF))
     || negb ((1 <=? method_id) && (method_id <=? 0xFFFF))
     || negb ((0 <=? deadline_ms) && (deadline_ms <=? 0xFFFFFFFF))
     || (1024 <? zlen payload)
  then throw ValueError "invalid RPC request"
  else
    request ← lift (rpc_message service_id method_id deadline_ms payload);
    frame ← send_request (control_request ControlType.REQUEST request timeout);
    lift (check_rpc service_id method_id frame).

(** ** Jobs *)

Record job_status := {
  js_job_id : Z;
  js_kind : Z;
  js_state : string;
  js_state_code : Z;
  js_cancel_requested : bool;
  js_progress_permille : Z;
  js_result : Z;
}.

(** [JobState(state).name.lower()] of a member, "unknown" otherwise. *)
Definition job_state_name (state : Z) : string :=
  match enum_of_value state : option JobState.JobState_t with
  | Some JobState.QUEUED => "queued"
  | Some JobState.RUNNING => "running"
  | Some JobState.SUCCEEDED => "succeeded"
  | Some JobState.FAILED => "failed"
  | Some JobState.CANCELLED => "cancelled"
  | None => "unknown"
  end.

Definition _decode_job (payload : bytes) : res job_status :=
  if negb (zlen payload =? 16) then raise ProtocolError "invalid job status size"
  else if negb (u16_at payload 10 =? 0)
  then raise ProtocolError "job status reserved field is nonzero"
  else
    let state := byte_at payload 6 in
    Ok {| js_job_id := u32_at payload 0; js_kind := u16_at payload 4;
          js_state := job_state_name state; js_state_code := state;
          js_cancel_requested := negb (byte_at payload 7 =? 0);
          js_progress_permille := u16_at payload 8; js_result := i32_at payload 12 |}.

Definition decode_job_reply (frame : Frame) : res job_status :=
  if negb (fr_type frame =? ControlType.JOB_STATUS)
  then raise ProtocolError "unexpected job response"
  else _decode_job (fr_payload frame).

Definition job (job_id : Z) (cancel : bool) : M job_status :=
  if negb ((1 <=? job_id) && (job_id <=? 0xFFFFFFFF)) then throw ValueError "invalid job ID"
  else
    message ← lift (pack_uint 4 job_id);
    frame ← send_request (control_request
      (if cancel then ControlType.CANCEL else ControlType.JOB_QUERY) message 3000);
    lift (decode_job_reply frame).

(** ** Media *)

Record media_description := MediaDescription {
  md_x : Z;
  md_y : Z;
  md_width : Z;
  md_height : Z;
  md_stride : Z;
  md_format : Z;
  md_quality : Z;
}.

(** [description.get(key, default)] of each field. *)
Definition description_values (d : list (string * Z)) : media_description :=
  let get key v := default v (dict_lookup key d) in
  MediaDescription (get "x" 0) (get "y" 0) (get "width" 0) (get "height" 0) (get "stride" 0)
    (get "format" 1) (get "quality" 0)%string.

Definition pack_description (v : media_description) : res bytes :=
  x ← pack_uint 2 (md_x v); y ← pack_uint 2 (md_y v);
  w ← pack_uint 2 (md_width v); h ← pack_uint 2 (md_height v);
  s ← pack_uint 4 (md_stride v);
  f ← pack_uint 2 (md_format v); q ← pack_uint 2 (md_quality v);
  Ok (x ++ y ++ w ++ h ++ s ++ f ++ q).

Definition _encode_media_description (description : list (string * Z)) : res bytes :=
  let v := description_values description in
  if existsb (λ z, z <? 0)
       [md_x v; md_y v; md_width v; md_height v; md_stride v; md_format v; md_quality v]
  then raise ValueError "media description fields must be nonnegative"
  else pack_description v.

Definition _decode_media_description (payload : bytes) : res media_description :=
  if zlen payload <? 16 then raise ProtocolError "short media description"
  else Ok (MediaDescription (u16_at payload 0) (u16_at payload 2) (u16_at payload 4)
             (u16_at payload 6) (u32_at payload 8) (u16_at payload 12) (u16_at payload 14)).

(** Lines 793-796: the description and size of an opened screenshot. *)
Definition check_screen_opened (frame : Frame) : res (media_description * Z) :=
  let p := fr_payload frame in
  if negb (fr_type frame =? MediaType.OPENED) || negb (zlen p =? 20)
  then raise ProtocolError "unexpected screenshot OPEN response"
  else
    actual ← _decode_media_description p;
    Ok (actual, u32_at p 16).

Definition screen_read_message (offset maximum : Z) : res bytes :=
  o ← pack_uint 4 offset; m ← pack_uint 2 maximum; Ok (o ++ m ++ [0; 0]).

Definition check_screen_chunk (offset total_size : Z) (frame : Frame) : res bytes :=
  let p := fr_payload frame in
  if negb (fr_type frame =? MediaType.DATA) || (zlen p <? 8)
  then raise ProtocolError "unexpected screenshot DATA response"
  else
    let chunk := slice_from 8 p in
    if negb (u32_at p 0 =? offset) || negb (u32_at p 4 =? total_size) || is_nil chunk
    then raise ProtocolError "invalid screenshot chunk"
    else Ok chunk.

(** One round of [while len(result) < total_size]; [max_payload] is that of
    the session's information. *)
Definition screen_round (max_payload total_size : Z) (result : bytes) : M bytes :=
  let maximum := Z.min (Z.min (Z.max (max_payload - 64) 1) 0xFFFF) (total_size - zlen result) in
  message ← lift (screen_read_message (zlen result) maximum);
  frame ← send_request (media_request Channel.SCREEN MediaType.READ message);
  chunk ← lift (check_screen_chunk (zlen result) total_size frame);
  mret (result ++ chunk).

Definition screen_close : request := media_request Channel.SCREEN MediaType.CLOSE [].

Definition screenshot (max_payload : Z) (description : list (string * Z))
    : M (media_description * bytes) :=
  message ← lift (_encode_media_description description);
  frame ← send_request (media_request Channel.SCREEN MediaType.OPEN message);
  '(actual, total_size) ← lift (check_screen_opened frame);
  result ← try_finally
    (while (λ result, zlen result <? total_size) (screen_round max_payload total_size) [])
    (suppress (send_request screen_close));
  mret (actual, result).

Definition is_media_channel (channel : Z) : bool :=
  (channel =? Channel.SCREEN) || (channel =? Channel.IMAGE) || (channel =? Channel.AUDIO).

(** [_grant_media_credit]: the CREDIT frame, then the count. *)
Definition credit_message (channel amount : Z) : res bytes :=
  c ← byte_of channel;
  a ← pack_uint 4 amount;
  Ok (c ++ [0; 0; 0] ++ a).
Definition _grant_media_credit (channel amount credit : Z) : M Z :=
  message ← lift (credit_message channel amount);
  _ ← notify (control_request ControlType.CREDIT message 0);
  mret (credit + amount).

Record mirror := Mirror {
  mr_channel : Z;
  mr_stream_id : Z;
  mr_fps : Z;
  mr_description : media_description;
}.

(** [credit]: the channel's entry of [self._media_credit]; the result is the
    mirror and the new entry. *)
Definition mirror_start (channel credit : Z) (description : list (string * Z)) (fps : Z)
    : M (mirror * Z) :=
  if negb (is_media_channel channel) then throw ValueError "invalid media channel"
  else if negb ((1 <=? fps) && (fps <=? 60))
  then throw ValueError "mirror FPS must be between 1 and 60"
  else
    message ← lift (d ← _encode_media_description description; f ← pack_uint 2 fps;
                    Ok (d ++ f ++ [0; 0]));
    frame ← send_request (media_request channel MediaType.MIRROR_START message);
    if negb (fr_type frame =? MediaType.MIRROR_STATE)
    then throw ProtocolError "unexpected mirror start response"
    else
      credit ← _grant_media_credit channel (128 * 1024) credit;
      d ← lift (_decode_media_description (fr_payload frame));
      mret (Mirror channel (fr_stream_id frame) fps d, credit).

(** The result is the channel's new credit. *)
Definition mirror_stop (channel : Z) : M Z :=
  if negb (is_media_channel channel) then throw ValueError "invalid media channel"
  else
    frame ← send_request (media_request channel MediaType.MIRROR_STOP []);
    if negb (fr_type frame =? MediaType.MIRROR_STATE)
    then throw ProtocolError "unexpected mirror stop response"
    else mret 0.

(** ** Restart *)

Definition restart (delay_ms : Z) : M Z :=
  if negb ((100 <=? delay_ms) && (delay_ms <=? 60000))
  then throw ValueError "restart delay must be 100..60000 ms"
  else
    message ← lift (pack_uint 4 delay_ms);
    frame ← send_request (control_request ControlType.RESTART message 3000);
    if negb (fr_type frame =? ControlType.RESTART) || negb (zlen (fr_payload frame) =? 4)
    then throw ProtocolError "unexpected restart response"
    else mret (u32_at (fr_payload frame) 0).

(** ** Crash reports and core dumps *)

(** [s.startswith(p)] *)
Definition str_startswith (p s : string) : bool := String.prefix p s.

Definition crash_report_fields (info : DeviceInfo) (fields : gmap Z bytes)
    : list (string * pyval) :=
  let core_sha := ascii_decode_replace (tlv_bytes fields TlvTag.CORE_DUMP_ELF_SHA256) in
  let sha_matches := negb (core_sha =? "")%string && str_startswith core_sha (firmware_sha256 info) in
  let sha_complete := negb (tlv_u8 fields TlvTag.CORE_DUMP_ELF_SHA256_COMPLETE 0 =? 0) in
  [("device_id", PStr (device_id info));
   ("boot_id", PInt (tlv_u64 fields TlvTag.BOOT_ID (boot_id info)));
   ("session_id", PInt (session_id info));
   u32_field fields ("reset_reason", TlvTag.RESET_REASON);
   flag_field fields "previous_boot_crash" TlvTag.PREVIOUS_BOOT_CRASH]%string
  ++ crash_fields fields
  ++ [flag_field fields "core_dump_present" TlvTag.CORE_DUMP_PRESENT;
      flag_field fields "core_dump_valid" TlvTag.CORE_DUMP_VALID;
      u32_field fields ("core_dump_size", TlvTag.CORE_DUMP_SIZE);
      ("core_dump_chunk_max", PInt (tlv_u32 fields TlvTag.CORE_DUMP_CHUNK_MAX 1024));
      ("core_dump_elf_sha256", PStr core_sha);
      ("core_dump_elf_sha256_complete", PBool sha_complete);
      ("firmware_sha256", PStr (firmware_sha256 info));
      ("firmware_sha_matches", PBool sha_matches);
      ("decode_eligible", PBool (sha_complete && sha_matches));
      ("panic_reason", PStr (utf8_decode_replace (tlv_bytes fields TlvTag.PANIC_REASON)))]%string.

(** The report and the new [self._crash_chunk_max]. *)
Definition decode_crash_report (info : DeviceInfo) (frame : Frame)
    : res (list (string * pyval) * Z) :=
  _ ← raise_if (negb (fr_channel frame =? Channel.CRASH)
                || negb (fr_type frame =? CrashType.METADATA_RESPONSE))
        ProtocolError "unexpected crash metadata response";
  fields ← decode_tlv (fr_payload frame);
  Ok (crash_report_fields info fields, tlv_u32 fields TlvTag.CORE_DUMP_CHUNK_MAX 1024).

Definition crash_report (info : DeviceInfo) : M (list (string * pyval) * Z) :=
  frame ← send_request (crash_request CrashType.METADATA_REQUEST []);
  lift (decode_crash_report info frame).

Definition check_core_dump (offset : Z) (frame : Frame) : res (Z * bytes) :=
  let p := fr_payload frame in
  if negb (fr_channel frame =? Channel.CRASH) || negb (fr_type frame =? CrashType.READ_RESPONSE)
  then raise ProtocolError "unexpected coredump read response"
  else if zlen p <? 8 then raise ProtocolError "short coredump read response"
  else if negb (u32_at p 0 =? offset) then raise ProtocolError "coredump offset mismatch"
  else Ok (u32_at p 4, slice_from 8 p).

Definition read_core_dump_chunk (chunk_max offset maximum : Z) : M (Z * bytes) :=
  if negb ((0 <=? offset) && (offset <=? 0xFFFFFFFF)) || negb ((1 <=? maximum) && (maximum <=? 2048))
  then throw ValueError "invalid coredump chunk range"
  else
    message ← lift (screen_read_message offset (Z.min maximum chunk_max));
    frame ← send_request (crash_request CrashType.READ_REQUEST message);
    lift (check_core_dump offset frame).

(** ** Wire forms *)

Definition rpc_reply (service_id method_id result : Z) (data : bytes) : bytes :=
  le_encode 2 service_id ++ le_encode 2 method_id ++ le_encode 4 (result mod 2 ^ 32)
  ++ le_encode 2 (zlen data) ++ [0; 0] ++ data.

Lemma rpc_reply_check service_id method_id result data f :
  1 ≤ service_id ≤ 0xFFFF → 1 ≤ method_id ≤ 0xFFFF → -2 ^ 31 ≤ result < 2 ^ 31 →
  zlen data < 65536 → fr_type f = ControlType.RESPONSE →
  fr_payload f = rpc_reply service_id method_id result data →
  check_rpc service_id method_id f
  = if result =? 0 then Ok data else raise RuntimeError "RPC failed with device error".
Proof.
  intros Hs Hm Hr Hd Ht Hp. pose proof (zlen_nonneg data) as Hn. unfold check_rpc. rewrite Hp, Ht.
  assert (Hlen : zlen (rpc_reply service_id method_id result data) = 12 + zlen data).
  { unfold rpc_reply. rewrite !zlen_app, !zlen_le_encode. change (zlen [0; 0]) with 2. lia. }
  assert (H0 : u16_at (rpc_reply service_id method_id result data) 0 = service_id).
  { apply (le_field_at [] _ 2); [done | lia]. }
  assert (H2 : u16_at (rpc_reply service_id method_id result data) 2 = method_id).
  { apply (le_field_at (le_encode 2 service_id) _ 2); [by rewrite zlen_le_encode | lia]. }
  assert (H4 : u32_at (rpc_reply service_id method_id result data) 4 = result mod 2 ^ 32).
  { unfold rpc_reply. rewrite app_assoc. apply (le_field_at _ _ 4);
      [by rewrite zlen_app, !zlen_le_encode | apply Z.mod_pos_bound; lia]. }
  assert (H8 : u16_at (rpc_reply service_id method_id result data) 8 = zlen data).
  { unfold rpc_reply. rewrite !app_assoc, <- (app_assoc _ [0; 0]), <- (app_assoc _ (le_encode 2 _)).
    apply (le_field_at _ _ 2); [by rewrite !zlen_app, !zlen_le_encode | lia]. }
  assert (H10 : u16_at (rpc_reply service_id method_id result data) 10 = 0).
  { unfold rpc_reply. rewrite !app_assoc, <- (app_assoc _ [0; 0] data).
    change [0; 0] with (le_encode 2 0).
    apply (le_field_at _ _ 2); [by rewrite !zlen_app, !zlen_le_encode | lia]. }
  assert (H12 : slice_from 12 (rpc_reply service_id method_id result data) = data).
  { unfold rpc_reply. rewrite !app_assoc, slice_from_app_r; rewrite !zlen_app, !zlen_le_encode; done. }
  unfold i32_at. rewrite Hlen, H0, H2, H4, H8, H10, H12, Z.eqb_refl.
  rewrite (proj2 (Z.ltb_ge _ 12)) by lia. rewrite !Z.eqb_refl. cbn [negb orb].
  assert (Hsign : to_signed 32 (result mod 2 ^ 32) = result).
  { unfold to_signed. destruct (Z.leb_spec 0 result).
    - rewrite Z.mod_small by lia. by rewrite (proj2 (Z.ltb_lt _ _)) by lia.
    - rewrite <- (Z.mod_add result 1) by lia. rewrite Z.mod_small by lia.
      rewrite (proj2 (Z.ltb_ge _ _)) by lia. lia. }
  rewrite Hsign. by destruct (result =? 0).
Qed.

Lemma i32_at_zero p i : is_bytes p → i32_at p i = 0 → u32_at p i = 0.
Proof.
  intros Hp. pose proof (u32_at_bound p i Hp). unfold i32_at, to_signed. case_match; lia.
Qed.

Lemma check_rpc_Ok service_id method_id f data :
  is_bytes (fr_payload f) → check_rpc service_id method_id f = Ok data →
  fr_type f = ControlType.RESPONSE
  ∧ fr_payload f = rpc_reply service_id method_id 0 data ∧ zlen data < 65536.
Proof.
  intros Hb. unfold check_rpc. set (p := fr_payload f) in *. intros H.
  destruct (negb (fr_type f =? ControlType.RESPONSE) || (zlen p <? 12)) eqn:G1; [discriminate |].
  destruct (negb (u16_at p 0 =? service_id) || _ || _ || _) eqn:G2; [discriminate |].
  destruct (i32_at p 4 =? 0) eqn:G3; [| discriminate]. cbn [negb] in H.
  assert (Hd : data = slice_from 12 p) by congruence. clear H.
  rewrite !orb_false_iff, !negb_false_iff, !Z.eqb_eq in G2. destruct G2 as [[[H0 H2] H10] H8].
  rewrite orb_false_iff, negb_false_iff, Z.eqb_eq, Z.ltb_ge in G1. destruct G1 as [Ht Hlen].
  apply Z.eqb_eq, i32_at_zero in G3; [| done]. pose proof (u16_at_bound p 8 Hb) as Hu.
  assert (Hz : zlen data = u16_at p 8).
  { rewrite Hd. unfold slice_from, zlen in *. rewrite length_drop. lia. }
  split; [done |]. split; [| lia].
  rewrite <- (slice_from_0 p), (fields_at_eq [2; 2; 4; 2; 2]%nat p 0) by (done || simpl; lia).
  unfold rpc_reply. rewrite Hz, Hd, <- H0, <- H2. cbn [fields_at].
  replace (le_encode 4 (0 mod 2 ^ 32)) with (le_encode 4 (u32_at p 4)) by (by rewrite G3).
  replace [0; 0] with (le_encode 2 (u16_at p 10)) by (by rewrite H10).
  reflexivity.
Qed.

(** ** Media descriptions *)

Definition description_ok (v : media_description) : Prop :=
  0 ≤ md_x v < 2 ^ 16 ∧ 0 ≤ md_y v < 2 ^ 16 ∧ 0 ≤ md_width v < 2 ^ 16
  ∧ 0 ≤ md_height v < 2 ^ 16 ∧ 0 ≤ md_stride v < 2 ^ 32 ∧ 0 ≤ md_format v < 2 ^ 16
  ∧ 0 ≤ md_quality v < 2 ^ 16.

Definition description_wire (v : media_description) : bytes :=
  le_encode 2 (md_x v) ++ le_encode 2 (md_y v) ++ le_encode 2 (md_width v)
  ++ le_encode 2 (md_height v) ++ le_encode 4 (md_stride v) ++ le_encode 2 (md_format v)
  ++ le_encode 2 (md_quality v).

Lemma pack_uint_Ok n z : 0 ≤ z < 256 ^ Z.of_nat n → pack_uint n z = Ok (le_encode n z).
Proof.
  intros [H1 H2]. unfold pack_uint. by rewrite (proj2 (Z.leb_le _ _) H1), (proj2 (Z.ltb_lt _ _) H2).
Qed.

Lemma pack_description_Ok v b :
  pack_description v = Ok b ↔ description_ok v ∧ b = description_wire v.
Proof.
  unfold pack_description. split.
  - intros H. bind H as x Hx. bind H as y Hy. bind H as w Hw. bind H as h Hh. bind H as s Hs.
    bind H as f Hf. bind H as q Hq. assert (b = x ++ y ++ w ++ h ++ s ++ f ++ q) as -> by congruence.
    apply pack_uint_inv in Hx as [-> ?], Hy as [-> ?], Hw as [-> ?], Hh as [-> ?], Hs as [-> ?],
      Hf as [-> ?], Hq as [-> ?]. split; [| done].
    change (256 ^ Z.of_nat 2) with (2 ^ 16) in *. change (256 ^ Z.of_nat 4) with (2 ^ 32) in *.
    repeat split; done || lia.
  - intros [(? & ? & ? & ? & ? & ? & ?) ->].
    rewrite !pack_uint_Ok by (change (256 ^ Z.of_nat 2) with (2 ^ 16);
      change (256 ^ Z.of_nat 4) with (2 ^ 32); done).
    reflexivity.
Qed.

Lemma decode_description_wire v rest :
  description_ok v → _decode_media_description (description_wire v ++ rest) = Ok v.
Proof.
  intros (Hx & Hy & Hw & Hh & Hs & Hf & Hq). unfold _decode_media_description.
  rewrite (proj2 (Z.ltb_ge _ 16)).
  2: { unfold description_wire. rewrite !zlen_app, !zlen_le_encode. pose proof (zlen_nonneg rest). lia. }
  f_equal. destruct v as [x y w h s f q]. unfold description_wire. cbn [md_x md_y md_width md_height
    md_stride md_format md_quality] in *. rewrite <- !app_assoc.
  assert (H16 : ∀ p z r i, i = zlen p → 0 ≤ z < 2 ^ 16 → u16_at (p ++ le_encode 2 z ++ r) i = z).
  { intros. by apply (le_field_at _ _ 2). }
  f_equal.
  - by apply (H16 []).
  - by apply H16; [rewrite zlen_le_encode |].
  - rewrite (app_assoc (le_encode 2 x)). by apply H16; [rewrite !zlen_app, !zlen_le_encode |].
  - rewrite (app_assoc (le_encode 2 x)), (app_assoc (_ ++ _)).
    by apply H16; [rewrite !zlen_app, !zlen_le_encode |].
  - rewrite (app_assoc (le_encode 2 x)), (app_assoc (_ ++ _)), (app_assoc (_ ++ le_encode 2 w)).
    apply (le_field_at _ _ 4); [by rewrite !zlen_app, !zlen_le_encode | done].
  - rewrite (app_assoc (le_encode 2 x)), (app_assoc (_ ++ _)), (app_assoc (_ ++ le_encode 2 w)),
      (app_assoc (_ ++ le_encode 2 h)).
    by apply H16; [rewrite !zlen_app, !zlen_le_encode |].
  - rewrite (app_assoc (le_encode 2 x)), (app_assoc (_ ++ _)), (app_assoc (_ ++ le_encode 2 w)),
      (app_assoc (_ ++ le_encode 2 h)), (app_assoc (_ ++ le_encode 4 s)).
    by apply H16; [rewrite !zlen_app, !zlen_le_encode |].
Qed.

(** ** Screenshots *)

(** A device that shows [content]: the size it announces is the content's, and
    the data it returns is the content at the offset it states. *)
Definition shows (content : bytes) (e : event) : Prop :=
  match e with
  | EvReply (Ok f) =>
    let p := fr_payload f in
    (fr_type f = MediaType.OPENED → u32_at p 16 = zlen content)
    ∧ (fr_type f = MediaType.DATA →
       slice_from 8 p = slice (u32_at p 0) (u32_at p 0 + zlen (slice_from 8 p)) content)
  | _ => True
  end.

Lemma check_screen_chunk_Ok offset total f chunk :
  check_screen_chunk offset total f = Ok chunk →
  fr_type f = MediaType.DATA ∧ u32_at (fr_payload f) 0 = offset
  ∧ chunk = slice_from 8 (fr_payload f) ∧ 0 < zlen chunk.
Proof.
  unfold check_screen_chunk. intros H.
  destruct (negb (fr_type f =? MediaType.DATA) || _) eqn:G1; [discriminate |].
  destruct (negb (u32_at (fr_payload f) 0 =? offset) || _ || _) eqn:G2; [discriminate |].
  assert (chunk = slice_from 8 (fr_payload f)) as -> by congruence. clear H.
  rewrite orb_false_iff, negb_false_iff, Z.eqb_eq in G1.
  rewrite !orb_false_iff, !negb_false_iff, !Z.eqb_eq in G2. destruct G1 as [Ht _], G2 as [[Ho _] Hn].
  split_and!; [done | done | done |].
  destruct (slice_from 8 (fr_payload f)); [done |]. rewrite zlen_cons. pose proof (zlen_nonneg l). lia.
Qed.

Lemma screen_round_spec content max_payload total result t0 :
  (Forall (shows content) t0 → result = slice 0 (zlen result) content) →
  spec (screen_round max_payload total result) (λ o t, match o with
    | Done result' => (0 < replies t)%nat ∧ zlen result < zlen result'
        ∧ (Forall (shows content) (t0 ++ t) → result' = slice 0 (zlen result') content)
    | _ => True
    end).
Proof.
  intros H0. unfold screen_round. apply spec_bind, spec_lift; [| done]. intros m _.
  apply spec_bind, spec_request; [done | | done]. intros f.
  apply spec_bind, spec_lift; [| done].
  intros chunk (Ht & Ho & Hc & Hpos)%check_screen_chunk_Ok. apply spec_ret.
  split; [rlia |]. rewrite zlen_app. split; [lia |]. intros Hs.
  apply Forall_app in Hs as [Hs Hs2]. apply H0 in Hs.
  apply Forall_cons in Hs2 as [_ Hs2]. apply Forall_cons in Hs2 as [[_ Hshow] _].
  specialize (Hshow Ht). rewrite Ho, <- Hc in Hshow.
  rewrite Hs at 1. rewrite Hshow at 1.
  pose proof (zlen_nonneg result). unfold slice. rewrite !Z.sub_0_r. simpl.
  replace (zlen result + zlen chunk - zlen result) with (zlen chunk) by lia.
  rewrite take_take_drop, Z2Nat.inj_add by lia. done.
Qed.

Lemma screen_round_replying max_payload total result :
  replying (screen_round max_payload total result).
Proof.
  unfold screen_round. apply replying_lift_bind. intros m. apply answering_replying.
  apply answering_bind; [apply answering_request | appends].
Qed.

(** Unless it waits for a reply, a screenshot that was opened ends with a CLOSE. *)
Definition screen_closed {A} (o : outcome A) (t : list event) : Prop :=
  o = Blocked ∨ (∃ m e, t = [EvSend (media_request Channel.SCREEN MediaType.OPEN m); EvReply e])
  ∨ t = [] ∨ ∃ t1 a, t = t1 ++ [EvSend screen_close; EvReply a].

Lemma screenshot_spec content max_payload description :
  spec (screenshot max_payload description) (λ o t, screen_closed o t ∧ match o with
    | Done (_, result) => Forall (shows content) t → result = content
    | _ => True
    end).
Proof.
  unfold screenshot. apply spec_bind, spec_lift; [| intros; split; [by right; right; left | done]].
  intros m _. apply spec_bind, spec_request; [split; [by left | done] | |].
  2: { intros e. split; [| done]. right. left. by eexists _, _. }
  intros f. apply spec_bind, spec_lift.
  2: { intros e _. split; [| done]. right. left. by eexists _, _. }
  intros [actual total] Hopened. apply spec_bind, spec_finally_request.
  set (opened := [EvSend (media_request Channel.SCREEN MediaType.OPEN m); EvReply (Ok f)]).
  apply (spec_while (λ result t, Forall (shows content) (opened ++ t) →
    result = slice 0 (zlen result) content)).
  - intros _. done.
  - intros result t HI _. eapply spec_mono; [by apply (screen_round_spec content _ _ _ (opened ++ t)) |].
    intros [result'|e|] u Hu.
    + destruct Hu as (Hr & _ & Hu). split; [| done]. intros Hs. apply Hu.
      by rewrite <- app_assoc.
    + split; [split; [by left | done] |]. intros a. cbv zeta.
      split; [| intros e']; (split; [| done]); right; right; right;
        exists (opened ++ t ++ u); eexists; by rewrite <- !app_assoc.
    + split; [by left | done].
  - intros result t HI Hend. split; [split; [by left | done] |].
    assert (Hc : ∀ a, screen_closed (Done (actual, result)) (opened ++ t ++ [EvSend screen_close; EvReply a])).
    { intros a. right. right. right. exists (opened ++ t). eexists. by rewrite <- app_assoc. }
    intros a. cbv zeta. split.
    + apply spec_ret. rewrite app_nil_r. split; [apply Hc |]. intros Hs.
      assert (Hs' : Forall (shows content) (opened ++ t)) by (revert Hs; rewrite !Forall_app; tauto).
      clear Hs. rename Hs' into Hs. specialize (HI Hs).
      assert (Htot : total = zlen content).
      { apply Forall_app in Hs as [Hs _]. apply Forall_cons in Hs as [_ Hs].
        apply Forall_cons in Hs as [[Hopen _] _].
        unfold check_screen_opened in Hopened.
        destruct (negb (fr_type f =? MediaType.OPENED) || _) eqn:G; [discriminate |].
        rewrite orb_false_iff, negb_false_iff, Z.eqb_eq in G. destruct G as [Gt _].
        bind Hopened as d Hd. assert (total = u32_at (fr_payload f) 16) as -> by congruence.
        by apply Hopen. }
      rewrite HI. apply Z.ltb_ge in Hend. unfold slice. simpl. rewrite Z.sub_0_r.
      apply take_ge. unfold zlen in *. lia.
    + intros e. split; [| done]. right. right. right. exists (opened ++ t). eexists.
      by rewrite <- app_assoc.
Qed.

(** ** Properties *)

(** Remote calls.  A call with identifiers, deadline and payload in range
    sends one request; it returns [data] exactly when the reply is the wire form
    of a successful response to this very service and method carrying [data],
    and raises the device's error when the reply carries a non-zero result.  A
    call out of range raises [ValueError] and sends nothing. *)
Theorem rpc_exchange service_id method_id payload deadline timeout f rest cb :
  is_bytes (fr_payload f) →
  let run := rpc service_id method_id payload deadline timeout (Io (Ok f :: rest) cb []) in
  let in_range := 1 ≤ service_id ≤ 0xFFFF ∧ 1 ≤ method_id ≤ 0xFFFF
    ∧ 0 ≤ deadline ≤ 0xFFFFFFFF ∧ zlen payload ≤ 1024 in
  (in_range →
     (∃ m, rpc_message service_id method_id deadline payload = Ok m
        ∧ io_trace (snd run) = [EvSend (control_request ControlType.REQUEST m timeout); EvReply (Ok f)])
     ∧ (∀ data, fst run = Done data ↔ fr_type f = ControlType.RESPONSE
          ∧ fr_payload f = rpc_reply service_id method_id 0 data ∧ zlen data < 65536)
     ∧ (∀ data result, fr_type f = ControlType.RESPONSE → result ≠ 0 → -2 ^ 31 ≤ result < 2 ^ 31 →
          zlen data < 65536 → fr_payload f = rpc_reply service_id method_id result data →
          raised_with (λ e, bool_decide (exn_cls e = RuntimeError)) (fst run) = true))
  ∧ (¬ in_range → raised_with (λ e, bool_decide (exn_cls e = ValueError)) (fst run) = true
       ∧ io_trace (snd run) = []).
Proof.
  intros Hb run in_range. subst run in_range. unfold rpc.
  destruct (negb _ || _ || _ || _) eqn:G.
  { split; [| done]. intros (? & ? & ? & ?). exfalso. lia. }
  split; [| intros H; exfalso; apply H; lia]. intros (Hs & Hm & Hd & Hp).
  pose proof (zlen_nonneg payload) as Hn. unfold rpc_message.
  rewrite !pack_uint_Ok by (change (256 ^ Z.of_nat 2) with 65536;
    change (256 ^ Z.of_nat 4) with 4294967296; lia). cbn [mbind res_bind].
  cbv beta iota zeta delta [mbind Eff_bind lift send_request io_script io_callbacks io_trace].
  cbn [app].
  split; [| split].
  - eexists. split; [done |]. by destruct (check_rpc service_id method_id f).
  - intros data. split.
    + destruct (check_rpc service_id method_id f) eqn:Hc; [| discriminate]. intros [= <-].
      by apply check_rpc_Ok.
    + intros (Ht & Hf & Hl). by rewrite (rpc_reply_check _ _ 0 data f).
  - intros data result Ht Hr Hb' Hl Hf. rewrite (rpc_reply_check _ _ result data f) by done.
    by rewrite (proj2 (Z.eqb_neq _ _) Hr).
Qed.

Definition example_rpc_reply : Frame :=
  mkFrame Channel.CONTROL ControlType.RESPONSE 0 1 1 0 1 (rpc_reply 2 3 0 [7; 8]).
Lemma rpc_exchange_witness :
  fst (rpc 2 3 [1] 1000 3000 (Io [Ok example_rpc_reply] [] [])) = Done [7; 8].
Proof.
  assert (H : is_bytes (fr_payload example_rpc_reply)) by by_decide.
  destruct (rpc_exchange 2 3 [1] 1000 3000 example_rpc_reply [] [] H) as [Hr _].
  destruct Hr as (_ & Hd & _); [repeat split; discriminate |].
  apply Hd. split; [reflexivity |]. split; reflexivity.
Defined.

(** Media descriptions survive the wire.  Encoding succeeds exactly for
    fields that fit, raising [ValueError] on a negative one and [struct.error]
    on one too large; decoding what was encoded, whatever follows it, gives the
    description back with its defaults filled in. *)
Theorem media_description_roundtrip description rest :
  let v := description_values description in
  (description_ok v ↔ ∃ b, _encode_media_description description = Ok b)
  ∧ (∀ b, _encode_media_description description = Ok b →
       zlen b = 16 ∧ _decode_media_description (b ++ rest) = Ok v)
  ∧ (¬ description_ok v → raises ValueError (_encode_media_description description) = true
       ∨ raises StructError (_encode_media_description description) = true).
Proof.
  intros v. unfold _encode_media_description. fold v.
  destruct (existsb _ _) eqn:Hneg.
  - split_and!; [| done | by left]. split; [| by intros [b [=]]].
    intros (? & ? & ? & ? & ? & ? & ?). exfalso.
    apply existsb_exists in Hneg as (z & Hin & Hz). cbn [In] in Hin. clearbody v.
    destruct Hin as [<- | [<- | [<- | [<- | [<- | [<- | [<- | []]]]]]]]; lia.
  - split_and!.
    + split; [| by intros [b [? _]%pack_description_Ok]]. intros Hok.
      exists (description_wire v). by apply pack_description_Ok.
    + intros b [Hok ->]%pack_description_Ok. split; [| by apply decode_description_wire].
      unfold description_wire. by rewrite !zlen_app, !zlen_le_encode.
    + intros Hbad. right. destruct (pack_description v) as [b|e] eqn:E;
        [exfalso; by apply pack_description_Ok in E as [? _] |].
      unfold pack_description, pack_uint in E. cbn [mbind res_bind] in E.
      repeat (case_match; [cbn [mbind res_bind] in E |];
        try (by injection E as <-)); done.
Qed.

(** Screenshots.  For a device that shows a fixed content (it announces
    its size and returns its bytes at the offset it states), whatever chunk sizes
    it chooses, a screenshot that returns holds exactly that content; a
    screenshot that opened the screen, however it ends, closes it last. *)
Theorem screenshot_exact content max_payload description s o s' :
  io_trace s = [] → screenshot max_payload description s = (o, s') →
  screen_closed o (io_trace s')
  ∧ ∀ actual result, o = Done (actual, result) → Forall (shows content) (io_trace s') → result = content.
Proof.
  intros Hs Hrun. destruct (screenshot_spec content max_payload description s) as (t & Ht & _ & Hc & H).
  cbn [trace_of io_world] in *. rewrite Hrun, Hs in *. cbn [fst snd app] in *. rewrite Ht. split; [done |].
  intros actual result -> . apply H.
Qed.

Definition screen_frame (type : MediaType.MediaType_t) (payload : bytes) : Frame :=
  mkFrame Channel.SCREEN type 0 1 1 0 1 payload.
Definition example_screen : bytes := [1; 2; 3; 4; 5; 6].
Definition example_screen_io : io := Io
  [Ok (screen_frame MediaType.OPENED
     (description_wire (MediaDescription 0 0 3 1 6 1 0) ++ le_encode 4 6));
   Ok (screen_frame MediaType.DATA (le_encode 4 0 ++ le_encode 4 6 ++ [1; 2; 3; 4]));
   Ok (screen_frame MediaType.DATA (le_encode 4 4 ++ le_encode 4 6 ++ [5; 6]));
   raise TimeoutError ""] [] [].
Abbreviation example_screenshot := (screenshot 4000 [] example_screen_io).
Lemma example_screenshot_done : done_with (λ _, true) (fst example_screenshot) = true.
Proof. vm_compute. reflexivity. Qed.
Lemma example_screenshot_shows : Forall (shows example_screen) (io_trace (snd example_screenshot)).
Proof.
  vm_compute io_trace. repeat (constructor; [try done; split; intros H; try discriminate H; reflexivity |]).
  constructor.
Qed.

Lemma screenshot_exact_witness :
  ∃ actual, fst example_screenshot = Done (actual, example_screen)
    ∧ screen_closed (fst example_screenshot) (io_trace (snd example_screenshot)).
Proof.
  pose proof example_screenshot_done as Hd. pose proof example_screenshot_shows as Hs.
  destruct example_screenshot as [o s'] eqn:H.
  destruct (screenshot_exact example_screen 4000 [] example_screen_io o s' eq_refl H) as [Hc Hr].
  destruct o as [[actual result]|e|]; [| discriminate Hd ..]. exists actual.
  rewrite (Hr actual result eq_refl Hs) in *. split; [reflexivity | exact Hc].
Defined.
