(* ===== verification/Ota.v ===== *)
(** * Application updates ([session.py], [ota_update])

    The older update path: one image, sent in batches of chunks that are in
    flight at the same time, with a status query after a timed-out batch and
    the device's job, or the closing of the session, as evidence for a lost END
    reply.  The properties are those of a system update: over a link that loses
    requests or replies an update that returns has delivered exactly the image,
    and a failing one does not leave the device waiting for data. *)
From S2P Require Import Prelude Enums Text Protocol Effects Io Device Sha256 SessionOps.

Definition ota_request (type : OtaType.OtaType_t) (payload : bytes) (timeout : Z) : request :=
  Request Channel.OTA type payload timeout 0.

(** ** Status *)

Record ota_state := {
  os_job_id : Z;
  os_bytes_total : Z;
  os_bytes_received : Z;
  os_progress_permille : Z;
  os_active : bool;
  os_result : Z;
  os_partition : string;
}.

Definition decode_ota_status (frame : Frame) : res ota_state :=
  let p := fr_payload frame in
  if negb (fr_type frame =? OtaType.STATUS) || (zlen p <? 20)
  then raise ProtocolError "unexpected OTA status response"
  else if negb (zlen p =? 20 + byte_at p 15)
  then raise ProtocolError "invalid OTA status response"
  else Ok {| os_job_id := u32_at p 0; os_bytes_total := u32_at p 4; os_bytes_received := u32_at p 8;
             os_progress_permille := u16_at p 12; os_active := negb (byte_at p 14 =? 0);
             os_result := i32_at p 16; os_partition := ascii_decode_replace (slice_from 20 p) |}.

Definition ota_status (timeout : Z) : M ota_state :=
  frame ← send_request (ota_request OtaType.STATUS [] timeout);
  lift (decode_ota_status frame).

(** ** Requests in flight together *)

(** One answer per request.  The requests of a batch reach the device in
    their order; their answers are awaited together. *)
Fixpoint send_all (rs : list request) : M (list (res Frame)) :=
  match rs with
  | [] => mret []
  | r :: rs =>
    a ← try_except (f ← send_request r; mret (Ok f)) [BaseException] (λ e, mret (Err e));
    answers ← send_all rs;
    mret (a :: answers)
  end.

Definition is_cancelled (a : res Frame) : bool :=
  match a with Err e => bool_decide (exn_cls e = CancelledError) | Ok _ => false end.
Definition is_err (a : res Frame) : bool := match a with Err _ => true | Ok _ => false end.

Fixpoint all_frames (answers : list (res Frame)) : res (list Frame) :=
  match answers with
  | [] => Ok []
  | a :: answers => f ← a; fs ← all_frames answers; Ok (f :: fs)
  end.

(** [asyncio.gather]: all the frames, or the exception of the task that
    failed first, after which the others were cancelled. *)
Definition gathered (answers : list (res Frame)) : res (list Frame) :=
  match find (λ a, is_err a && negb (is_cancelled a)) answers with
  | Some (Err e) => Err e
  | _ => all_frames answers
  end.

Definition gather (rs : list request) : M (list Frame) :=
  answers ← send_all rs;
  lift (gathered answers).

(** ** The update *)

Definition OTA_IN_FLIGHT_BYTES : Z := 4096.
Definition OTA_BEGIN_TIMEOUT : Z := 120000.

Record ota_result := {
  or_job_id : Z;
  or_bytes : Z;
  or_sha256 : string;
  or_partition : string;
  or_restart_required : bool;
  or_completion_evidence : string;
}.

(** The arguments of the progress callback. *)
Definition ota_progress (stage : string) (job_id : option Z) (received total permille : Z)
    (partition : string) : progress :=
  {| pg_stage := stage; pg_job_id := job_id; pg_operation_id := ""; pg_component := None;
     pg_bytes_received := received; pg_bytes_total := total; pg_permille := permille;
     pg_partition := partition |}.

Definition ota_begin_message (image digest project release : bytes) : res bytes :=
  n ← pack_uint 4 (zlen image);
  p ← byte_of (zlen project);
  r ← byte_of (zlen release);
  Ok (n ++ digest ++ (p ++ r) ++ [0; 0] ++ project ++ release).

(** Lines 907-917: the job id, chunk size and partition. *)
Definition check_ota_begin (image : bytes) (frame : Frame) : res (Z * Z * string) :=
  let p := fr_payload frame in
  if negb (fr_type frame =? OtaType.BEGIN_RESPONSE) || (zlen p <? 11)
  then raise ProtocolError "unexpected OTA begin response"
  else
    let total_size := u32_at p 4 in
    let chunk_size := u16_at p 8 in
    if negb (total_size =? zlen image) || (chunk_size =? 0) || negb (zlen p =? 11 + byte_at p 10)
    then raise ProtocolError "invalid OTA begin response"
    else Ok (u32_at p 0, chunk_size, ascii_decode_replace (slice_from 11 p)).

Section update.
Context (image : bytes) (timeout : Z) (callback : bool) (job_id chunk_size : Z) (partition : string).

(** [request_count] and the chunks of the inner [while]. *)
Definition request_count : Z := Z.max 1 (OTA_IN_FLIGHT_BYTES / chunk_size).
Fixpoint batch_from (n : nat) (offset : Z) : list (Z * bytes) :=
  match n with
  | O => []
  | S n =>
    if offset <? zlen image then
      let chunk := slice offset (offset + chunk_size) image in
      (offset, chunk) :: batch_from n (offset + zlen chunk)
    else []
  end.

Definition ota_data_message (c : Z * bytes) : res bytes :=
  o ← pack_uint 4 (fst c); Ok (o ++ snd c).
Fixpoint batch_requests (batch : list (Z * bytes)) : res (list request) :=
  match batch with
  | [] => Ok []
  | c :: batch =>
    m ← ota_data_message c;
    rs ← batch_requests batch;
    Ok (ota_request OtaType.DATA m timeout :: rs)
  end.

(** Lines 962-976: the offset at which to go on after a timed-out batch. *)
Definition reconcile_batch (offset : Z) (batch : list (Z * bytes)) : M Z :=
  status ← ota_status timeout;
  if negb (os_active status) || negb (os_job_id status =? job_id)
  then throw TimeoutError "OTA data response timed out"
  else
    let received := os_bytes_received status in
    if negb (existsb (Z.eqb received) (offset :: map (λ c, fst c + zlen (snd c)) batch))
    then throw ProtocolError "OTA resumed at unexpected byte offset"
    else
      _ ← report callback (ota_progress "transferring" (Some (os_job_id status)) received
            (os_bytes_total status) (os_progress_permille status) (os_partition status));
      mret received.

(** The progress and offset of an acknowledged chunk. *)
Definition check_ota_data (c : Z * bytes) (frame : Frame) : res (Z * Z) :=
  let p := fr_payload frame in
  if negb (fr_type frame =? OtaType.DATA_RESPONSE) || negb (zlen p =? 8)
  then raise ProtocolError "unexpected OTA data response"
  else
    let received := u32_at p 0 in
    if negb (received =? fst c + zlen (snd c)) || negb (u16_at p 6 =? 0)
    then raise ProtocolError "invalid OTA progress"
    else Ok (u16_at p 4, received).

(** [for (chunk_offset, chunk), data_response in zip(batch, data_responses)] *)
Fixpoint check_batch (offset : Z) (batch : list (Z * bytes)) (responses : list Frame) : M Z :=
  match batch, responses with
  | c :: batch, f :: responses =>
    '(progress, received) ← lift (check_ota_data c f);
    _ ← report callback (ota_progress "transferring" (Some job_id) received (zlen image) progress
          partition);
    check_batch received batch responses
  | _, _ => mret offset
  end.

(** One round of [while offset < len(image)]. *)
Definition batch_round (offset : Z) : M Z :=
  let batch := batch_from (Z.to_nat request_count) offset in
  responses ← try_except
    (rs ← lift (batch_requests batch);
     fs ← gather rs;
     mret (inl fs))
    [TimeoutError]
    (λ _, received ← reconcile_batch offset batch; mret (inr received));
  match responses with
  | inr received => mret received
  | inl responses =>
    _ ← lift (raise_if (negb (zlen batch =? zlen responses)) ProtocolError
                "OTA data response count does not match request batch");
    check_batch offset batch responses
  end.

(** Lines 1016-1035: the END reply, or [None] with other evidence. *)
Definition send_end : M (option Frame * string) :=
  try_except
    (f ← send_request (ota_request OtaType.END [] timeout);
     mret (Some f, "end_response"%string))
    [TimeoutError; ConnectionError; OSError]
    (λ e,
      if catches [TimeoutError] e then
        st ← job job_id false;
        if negb (js_state st =? "succeeded")%string || negb (js_result st =? 0)
        then throw TimeoutError "OTA end response timed out"
        else mret (None, "device_job"%string)
      else mret (None, "session_close"%string)).

(** The guarded part, lines 933-1035. *)
Definition ota_transfer : M (option Frame * string) :=
  _ ← while (λ offset, offset <? zlen image) batch_round 0;
  _ ← report callback (ota_progress "verifying" (Some job_id) (zlen image) (zlen image) 950 partition);
  send_end.

Definition cancel_ota : M () := suppress (send_request (ota_request OtaType.CANCEL [] timeout)).

Definition check_end (frame : Frame) : res () :=
  let p := fr_payload frame in
  if negb (fr_type frame =? OtaType.END_RESPONSE) || negb (zlen p =? 8)
  then raise ProtocolError "unexpected OTA end response"
  else raise_if (negb (u32_at p 0 =? job_id) || negb (i32_at p 4 =? 0))
         RuntimeError "OTA failed with device error".
End update.

(** [expected_sha256 or hashlib.sha256(image).digest()] *)
Definition ota_digest (expected_sha256 : option bytes) (image : bytes) : bytes :=
  match expected_sha256 with
  | Some d => if is_nil d then sha256 image else d
  | None => sha256 image
  end.

Definition ota_update (image : bytes) (expected_sha256 : option bytes) (project_name version : string)
    (timeout : Z) (callback : bool) : M ota_result :=
  if is_nil image then throw ValueError "OTA image is empty"
  else
    let digest := ota_digest expected_sha256 image in
    if negb (zlen digest =? 32) then throw ValueError "OTA SHA-256 must contain 32 bytes"
    else
      project ← lift (encode_utf8 project_name);
      release ← lift (encode_utf8 version);
      if (32 <? zlen project) || (32 <? zlen release)
      then throw ValueError "OTA project/version is too long"
      else
        begin ← lift (ota_begin_message image digest project release);
        _ ← report callback (ota_progress "erasing" None 0 (zlen image) 0 "");
        frame ← send_request (ota_request OtaType.BEGIN begin (Z.max timeout OTA_BEGIN_TIMEOUT));
        '(job_id, chunk_size, partition) ← lift (check_ota_begin image frame);
        _ ← report callback (ota_progress "transferring" (Some job_id) 0 (zlen image) 0 partition);
        '(ended, evidence) ← on_error
          (ota_transfer image timeout callback job_id chunk_size partition) (cancel_ota timeout);
        _ ← match ended with
            | Some f => lift (check_end job_id f)
            | None => mret ()
            end;
        mret {| or_job_id := job_id; or_bytes := zlen image; or_sha256 := hex digest;
                or_partition := partition; or_restart_required := true;
                or_completion_evidence := evidence |}.

(** ** The device

    What the update relies on: a device that stores a chunk only at the end of
    what it has stored, acknowledges and reports the length it has stored,
    and reports success, by END or by the job it announced, only of an image it
    has made final. *)
Class OtaDevice {D : Type} (handles : D → request → D → Frame → Prop) := {
  od_job : D → Z;
  od_stored : D → bytes;
  od_final : D → option bytes;
  law_ota_begin : ∀ image d m t d' f job chunk partition,
    handles d (ota_request OtaType.BEGIN m t) d' f →
    check_ota_begin image f = Ok (job, chunk, partition) → od_stored d' = [] ∧ od_job d' = job;
  law_ota_data : ∀ c d m t d' f, ota_data_message c = Ok m →
    handles d (ota_request OtaType.DATA m t) d' f →
    od_job d' = od_job d
    ∧ (od_stored d' = od_stored d
       ∨ fst c = zlen (od_stored d) ∧ od_stored d' = od_stored d ++ snd c)
    ∧ ∀ p n, check_ota_data c f = Ok (p, n) → n = zlen (od_stored d');
  law_ota_status : ∀ d t d' f, handles d (ota_request OtaType.STATUS [] t) d' f →
    d' = d ∧ ∀ st, decode_ota_status f = Ok st → os_active st = true →
      os_bytes_received st = zlen (od_stored d);
  law_ota_end : ∀ d t d' f, handles d (ota_request OtaType.END [] t) d' f →
    od_stored d' = od_stored d ∧ od_job d' = od_job d
    ∧ (check_end (od_job d) f = Ok () → od_final d' = Some (od_stored d));
  law_ota_job : ∀ d m t d' f, pack_uint 4 (od_job d) = Ok m →
    handles d (control_request ControlType.JOB_QUERY m t) d' f →
    d' = d ∧ ∀ st, decode_job_reply f = Ok st → js_state st = "succeeded"%string →
      js_result st = 0 → od_final d = Some (od_stored d);
  law_ota_bytes : ∀ d r d' f, handles d r d' f → is_bytes (fr_payload f);
}.

(** ** Lists of answers *)

Lemma all_frames_Ok answers fs : all_frames answers = Ok fs → answers = map Ok fs.
Proof.
  revert fs. induction answers as [|a answers IH]; intros fs H; cbn [all_frames] in H.
  - by injection H as <-.
  - destruct a as [f|e]; [| discriminate]. cbn [mbind res_bind] in H.
    destruct (all_frames answers) as [fs'|]; [| discriminate]. injection H as <-.
    simpl. by rewrite (IH fs').
Qed.

Lemma gathered_Ok answers fs : gathered answers = Ok fs → answers = map Ok fs.
Proof.
  unfold gathered. destruct (find _ answers) as [[f|e]|] eqn:Hf; [| discriminate |];
    apply all_frames_Ok.
Qed.

(** ** Batches *)

Section delivery.
Context {D : Type} (handles : D → request → D → Frame → Prop) `{!OtaDevice handles}.
Context (image : bytes) (timeout : Z) (callback : bool) (job_id chunk_size : Z) (partition : string).
Context (Hchunk : 0 < chunk_size).

(** The device has stored the image up to [offset]. *)
Definition ota_at (offset : Z) (d : D) : Prop :=
  0 ≤ offset ≤ zlen image ∧ od_stored d = take (Z.to_nat offset) image ∧ od_job d = job_id.

(** A chunk of the image. *)
Definition chunk_ok (c : Z * bytes) : Prop :=
  0 ≤ fst c < zlen image ∧ snd c = slice (fst c) (fst c + chunk_size) image.
Definition chunk_end (c : Z * bytes) : Z := fst c + zlen (snd c).

Lemma ota_slice_chunk off : 0 ≤ off →
  take (Z.to_nat off) image ++ slice off (off + chunk_size) image
  = take (Z.to_nat (off + zlen (slice off (off + chunk_size) image))) image.
Proof.
  intros Ho. unfold slice, zlen. replace (off + chunk_size - off) with chunk_size by lia.
  rewrite take_take_drop, Z2Nat.inj_add, Nat2Z.id, length_take, length_drop by lia.
  destruct (decide (Z.to_nat off + Z.to_nat chunk_size ≤ length image)%nat).
  - f_equal. lia.
  - rewrite !take_ge; [done | lia | lia].
Qed.

Lemma chunk_ok_end c : chunk_ok c → fst c < chunk_end c ≤ zlen image.
Proof.
  intros [Hc Hs]. unfold chunk_end. rewrite Hs. unfold slice, zlen in *.
  rewrite length_take, length_drop. lia.
Qed.

Lemma ota_at_zlen o d : ota_at o d → zlen (od_stored d) = o.
Proof. intros (Ho & Hs & _). rewrite Hs. unfold zlen in *. rewrite length_take. lia. Qed.

Lemma batch_from_ok n : ∀ offset, 0 ≤ offset → Forall chunk_ok (batch_from image chunk_size n offset).
Proof.
  induction n as [|n IH]; intros offset Ho; cbn [batch_from]; [constructor |].
  destruct (Z.ltb_spec offset (zlen image)); [| constructor]. constructor.
  - by split.
  - apply IH. pose proof (zlen_nonneg (slice offset (offset + chunk_size) image)). lia.
Qed.

(** The device is at one of the offsets the batch can leave it at. *)
Definition at_one_of (T : list Z) (d : D) : Prop := ∃ o, o ∈ T ∧ ota_at o d.
Definition last_ok (batch : list (Z * bytes)) (answers : list (res Frame)) (o : Z) : Prop :=
  ∀ c f p n, last batch = Some c → last answers = Some (Ok f) →
    check_ota_data c f = Ok (p, n) → n = o.

Lemma data_step T c m d d' f :
  chunk_ok c → chunk_end c ∈ T → ota_data_message c = Ok m → at_one_of T d →
  handles d (ota_request OtaType.DATA m timeout) d' f →
  ∃ o, o ∈ T ∧ ota_at o d' ∧ ∀ p n, check_ota_data c f = Ok (p, n) → n = o.
Proof.
  intros Hc Hend Hm (o & Ho & Hat) Hh.
  destruct (law_ota_data _ _ _ _ _ _ Hm Hh) as (Hj & Hst & Hn).
  pose proof (ota_at_zlen _ _ Hat) as Hz. pose proof Hat as (Hb & Hs & Hjob).
  destruct Hst as [Hst | [Hoff Hst]].
  - exists o. split; [done |]. split; [unfold ota_at; by rewrite Hst, Hj |].
    intros p n Hc'. rewrite (Hn _ _ Hc'), Hst. done.
  - pose proof (chunk_ok_end c Hc) as He. exists (chunk_end c). split; [done |].
    assert (Hat' : ota_at (chunk_end c) d').
    { unfold ota_at. rewrite Hst, Hj, Hs. split; [lia |]. split; [| done].
      destruct Hc as [Hc Hsl]. assert (o = fst c) as -> by lia. unfold chunk_end.
      rewrite Hsl at 1. rewrite ota_slice_chunk by lia. by rewrite <- Hsl. }
    split; [done |]. intros p n Hc'. rewrite (Hn _ _ Hc'). by apply ota_at_zlen.
Qed.

Lemma send_all_dspec T batch : ∀ rs,
  Forall chunk_ok batch → Forall (λ c, chunk_end c ∈ T) batch →
  batch_requests timeout batch = Ok rs →
  dspec handles (at_one_of T) (send_all rs)
    (λ answers d, length answers = length batch
       ∧ ∃ o, o ∈ T ∧ ota_at o d ∧ last_ok batch answers o)
    (λ _, at_one_of T).
Proof.
  induction batch as [|c batch IH]; intros rs Hb Ht Hrs; cbn [batch_requests] in Hrs.
  - injection Hrs as <-. cbn [send_all]. apply dspec_ret. intros d (o & Ho & Hat).
    split; [done |]. exists o. split; [done |]. split; [done |]. intros c f p n Hl. discriminate Hl.
  - apply Forall_cons in Hb as [Hc Hb], Ht as [Hend Ht].
    bind Hrs as m Hm. bind Hrs as rs' Hrs'.
    assert (rs = ota_request OtaType.DATA m timeout :: rs') as -> by congruence. clear Hrs.
    cbn [send_all].
    eapply (dspec_bind _ _ _ _ (λ a d, ∃ o, o ∈ T ∧ ota_at o d ∧
      ∀ f p n, a = Ok f → check_ota_data c f = Ok (p, n) → n = o)).
    + eapply (dspec_try _ _ _ _ _ (λ _, at_one_of T)).
      * eapply (dspec_bind _ _ _ _ (λ f d, ∃ o, o ∈ T ∧ ota_at o d ∧
          ∀ p n, check_ota_data c f = Ok (p, n) → n = o)).
        -- apply dspec_request; [| done]. intros d d' f Hd Hh.
           destruct (data_step T c m d d' f Hc Hend Hm Hd Hh) as (o & Ho & Hat & Hn).
           split; [by exists o | by exists o].
        -- intros f. apply dspec_ret. intros d (o & Ho & Hat & Hn). exists o.
           split; [done |]. split; [done |]. intros f' p n [= <-]. apply Hn.
      * intros e _. apply dspec_ret. intros d (o & Ho & Hat). by exists o.
      * done.
    + intros a. destruct batch as [|c' batch].
      * cbn [batch_requests] in Hrs'. injection Hrs' as <-. cbn [send_all].
        apply dspec_ret. intros d (o & Ho & Hat & Hn). split; [done |]. exists o.
        split; [done |]. split; [done |]. intros c1 f p n [= <-] [= ->]. by apply Hn.
      * eapply dspec_bind.
        { eapply dspec_pre; [| by apply (IH rs' Hb Ht Hrs')].
          intros d (o & Ho & Hat & _). by exists o. }
        intros answers. apply dspec_ret. intros d (Hlen & o & Ho & Hat & Hl).
        split; [simpl; by rewrite Hlen |]. exists o. split; [done |]. split; [done |].
        destruct answers as [|a' answers]; [discriminate Hlen |]. exact Hl.
Qed.

Lemma check_batch_dspec (P : D → Prop) batch : ∀ fs offset,
  length batch = length fs → batch ≠ [] →
  dspec handles P (check_batch image callback job_id partition offset batch fs)
    (λ n d, P d ∧ ∃ c f p, last batch = Some c ∧ last fs = Some f ∧ check_ota_data c f = Ok (p, n))
    (λ _ _, True).
Proof.
  induction batch as [|c batch IH]; intros fs offset Hlen Hne; [done |].
  destruct fs as [|f fs]; [discriminate Hlen |]. cbn [check_batch].
  eapply (dspec_bind _ _ _ _ (λ pn d, P d ∧ check_ota_data c f = Ok pn));
    [by apply dspec_lift |]. intros [p n].
  apply (dspec_pre _ (λ d, check_ota_data c f = Ok (p, n) ∧ P d)); [by intros d [? ?] |].
  eapply dspec_bind; [by apply dspec_report |]. intros [].
  destruct batch as [|c' batch].
  - destruct fs as [|f' fs]; [| discriminate Hlen]. cbn [check_batch].
    apply dspec_ret. intros d [Hc Hd]. split; [done |]. by exists c, f, p.
  - destruct fs as [|f' fs]; [discriminate Hlen |].
    eapply dspec_conseq; [apply (IH (f' :: fs) n) | by intros d [_ ?] | | done].
    + simpl in *. lia.
    + done.
    + done.
Qed.

Lemma ota_status_dspec (P : D → Prop) t (E : exn → D → Prop) :
  (∀ e d, P d → E e d) →
  dspec handles P (ota_status t)
    (λ st d, P d ∧ (os_active st = true → os_bytes_received st = zlen (od_stored d))) E.
Proof.
  intros HE. unfold ota_status.
  eapply (dspec_bind _ _ _ _ (λ f d, P d ∧ ∀ st, decode_ota_status f = Ok st →
    os_active st = true → os_bytes_received st = zlen (od_stored d))).
  - apply dspec_request; [| done]. intros d d' f Hd Hh.
    destruct (law_ota_status _ _ _ _ Hh) as [-> Hst]. split; [done | auto].
  - intros f. apply dspec_lift; [| intros ? ? ? [? ?]; auto].
    intros st d Hst [Hd H]. split; auto.
Qed.

Lemma batch_round_dspec offset :
  offset < zlen image →
  dspec handles (ota_at offset)
    (batch_round image timeout callback job_id chunk_size partition offset)
    ota_at (λ _ _, True).
Proof.
  intros Hlt. unfold batch_round.
  set (batch := batch_from image chunk_size (Z.to_nat (request_count chunk_size)) offset).
  set (T := offset :: map chunk_end batch).
  apply (dspec_pre _ (λ d, 0 ≤ offset ∧ ota_at offset d)); [intros d Hd; split; [apply Hd | done] |].
  apply (dspec_pure handles (0 ≤ offset)).
  { unfold gather. apply appending_bind; [| intros [fs|n]; [| appends]].
    - apply appending_try; [| intros e; unfold reconcile_batch, ota_status; appends].
      apply appending_bind; [appends |]. intros rs.
      apply appending_bind; [| appends]. apply appending_bind; [| appends].
      induction rs; cbn [send_all]; appends; done.
    - apply appending_bind; [appends |]. intros []. generalize offset.
      revert fs. induction batch as [|c b IH]; intros [|f fs] o; cbn [check_batch]; appends; apply IH. }
  intros Ho.
  assert (Hok : Forall chunk_ok batch) by by apply batch_from_ok.
  assert (HT : Forall (λ c, chunk_end c ∈ T) batch).
  { apply Forall_forall. intros c Hc. right. by apply list_elem_of_fmap_2. }
  assert (Hne : batch ≠ []).
  { unfold batch, request_count.
    destruct (Z.to_nat (Z.max 1 (OTA_IN_FLIGHT_BYTES / chunk_size))) eqn:E; [lia |].
    cbn [batch_from]. by rewrite (proj2 (Z.ltb_lt _ _) Hlt). }
  eapply (dspec_bind _ _ _ _ (λ r d, match r with
    | inl fs => length batch = length fs → ∃ o, ota_at o d ∧ last_ok batch (map Ok fs) o
    | inr n => ota_at n d
    end)).
  - eapply (dspec_try _ _ _ _ _ (λ _, at_one_of T)); [| | done].
    + apply (dspec_pre _ (at_one_of T)); [intros d Hd; exists offset; split; [left | done] |].
      destruct (batch_requests timeout batch) as [rs|e] eqn:Hrs.
      2: { by apply dspec_lift_Err. }
      apply dspec_lift_Ok.
      eapply (dspec_bind _ _ _ _ (λ fs d, ∃ o, ota_at o d ∧ last_ok batch (map Ok fs) o)).
      { unfold gather. eapply dspec_bind; [by apply (send_all_dspec T batch) |]. intros answers.
        apply dspec_lift.
        - intros fs d Hg (_ & o & _ & Hat & Hl). apply gathered_Ok in Hg as ->. by exists o.
        - intros e d _ (_ & o & Ho' & Hat & _). by exists o. }
      intros fs. apply dspec_ret. by intros d Hd _.
    + intros e _. eapply (dspec_bind _ _ _ _ ota_at); [| intros n; by apply dspec_ret].
      unfold reconcile_batch. eapply dspec_bind; [by apply ota_status_dspec |]. intros st. cbv beta.
      destruct (os_active st) eqn:Hact; cbn [negb orb]; [| by apply dspec_throw].
      destruct (negb (os_job_id st =? job_id)); [by apply dspec_throw |].
      destruct (negb _); [by apply dspec_throw |].
      eapply dspec_bind; [by apply dspec_report |]. intros []. apply dspec_ret.
      intros d [(o & _ & Hat) Hrec]. rewrite (Hrec eq_refl), (ota_at_zlen o); done.
  - intros [fs | n]; [| by apply dspec_ret].
    eapply (dspec_bind _ _ _ _ (λ _ d, length batch = length fs
      ∧ ∃ o, ota_at o d ∧ last_ok batch (map Ok fs) o)).
    { apply dspec_lift; [| done]. intros [] d Hc Hd. apply raise_if_false in Hc.
      assert (Hlen : length batch = length fs) by (unfold zlen in Hc; lia). auto. }
    intros []. apply (dspec_pure handles (length batch = length fs)).
    { clear. generalize offset. revert fs.
      induction batch as [|c b IH]; intros [|f fs] o; cbn [check_batch]; appends; apply IH. }
    intros Hlen. eapply dspec_conseq;
      [by apply (check_batch_dspec (λ d, ∃ o, ota_at o d ∧ last_ok batch (map Ok fs) o))
      | done | | done].
    intros n d [(o & Hat & Hl) (c & f & p & Hc & Hf & Hck)].
    assert (n = o) as ->; [| done]. apply (Hl c f p n); [done | | done].
    by rewrite fmap_last, Hf.
Qed.
End delivery.

(** ** Progress of the loop *)

Lemma answering_send_all r rs : answering (send_all (r :: rs)).
Proof.
  cbn [send_all]. apply answering_bind.
  - apply answering_try; [apply answering_bind; [apply answering_request |] |]; intros;
      apply appending_ret.
  - intros a. apply appending_bind; [| appends]. induction rs; cbn [send_all]; appends; done.
Qed.

Lemma appending_check_batch image callback job_id partition batch : ∀ fs offset,
  appending (check_batch image callback job_id partition offset batch fs).
Proof.
  induction batch as [|c b IH]; intros [|f fs] o; cbn [check_batch]; appends; apply IH.
Qed.

Lemma batch_requests_nonempty timeout c batch rs :
  batch_requests timeout (c :: batch) = Ok rs → rs ≠ [].
Proof.
  cbn [batch_requests]. intros H. bind H as m Hm. bind H as rs' Hrs. congruence.
Qed.

Lemma batch_round_replying image timeout callback job_id chunk_size partition offset :
  (offset <? zlen image) = true →
  replying (batch_round image timeout callback job_id chunk_size partition offset).
Proof.
  intros Hlt. unfold batch_round.
  destruct (batch_from image chunk_size (Z.to_nat (request_count chunk_size)) offset) as [|c b] eqn:Hb.
  { exfalso. unfold request_count in Hb.
    destruct (Z.to_nat (Z.max 1 (OTA_IN_FLIGHT_BYTES / chunk_size))) eqn:E; [lia |].
    cbn [batch_from] in Hb. by rewrite Hlt in Hb. }
  destruct (batch_requests timeout (c :: b)) as [rs|e] eqn:Hrs.
  - apply answering_replying, answering_bind.
    + apply answering_try.
      * change (answering (gather rs ≫= λ fs, mret (inl fs : list Frame + Z))).
        apply answering_bind; [| intros; apply appending_ret]. unfold gather.
        apply answering_bind; [| intros; apply appending_lift].
        apply batch_requests_nonempty in Hrs. destruct rs; [done | apply answering_send_all].
      * intros e. unfold reconcile_batch, ota_status. appends.
    + intros [fs | n]; [| appends]. apply appending_bind; [appends |]. intros [].
      apply appending_check_batch.
  - apply spec_bind, spec_try, spec_bind, spec_lift; [done |]. intros e' [= <-].
    destruct (catches [TimeoutError] e); [| done].
    apply spec_bind. unfold reconcile_batch. apply spec_bind.
    unfold ota_status. apply spec_bind, spec_request; [done | | done]. intros f.
    apply spec_lift; [| done]. intros st _. case_match; [by apply spec_lift |].
    case_match; [by apply spec_lift |]. apply spec_bind, spec_report. cbv zeta. split; [| done].
    apply spec_ret, spec_ret, spec_ret. rlia.
Qed.

(** ** The whole update *)

Section perform.
Context {D : Type} (handles : D → request → D → Frame → Prop) `{!OtaDevice handles}.

Definition ota_evidence_ok (image : bytes) (job : Z) (ended : option Frame * string) (d : D) : Prop :=
  match ended with
  | (Some f, _) => check_end job f = Ok () → od_final d = Some image
  | (None, evidence) => evidence ≠ "session_close"%string → od_final d = Some image
  end.

Lemma send_end_dspec image timeout job :
  dspec handles (ota_at handles image job (zlen image)) (send_end timeout job)
    (λ ended d, od_stored d = image ∧ ota_evidence_ok image job ended d) (λ _ _, True).
Proof.
  assert (Hfull : take (Z.to_nat (zlen image)) image = image).
  { apply take_ge. unfold zlen. lia. }
  unfold send_end.
  eapply (dspec_try _ _ _ _ _ (λ _ d, od_stored d = image ∧ od_job d = job)); [| | done].
  - eapply (dspec_bind _ _ _ _ (λ f d, od_stored d = image ∧ ota_evidence_ok image job (Some f, "") d));
      [| intros f; by apply dspec_ret].
    apply dspec_request; [| intros e d (_ & Hs & Hj); by rewrite Hs].
    intros d d' f (_ & Hs & Hj) Hh. destruct (law_ota_end _ _ _ _ Hh) as (H1 & H2 & H3).
    rewrite Hfull in Hs. rewrite H1, H2, Hs, Hj in *. simpl. auto.
  - intros e _. destruct (catches [TimeoutError] e);
      [| apply dspec_ret; intros d [Hs Hj]; split; [done | by intros []]].
    eapply (dspec_bind _ _ _ _ (λ st d, od_stored d = image
      ∧ (js_state st = "succeeded"%string → js_result st = 0 → od_final d = Some image))).
    { unfold SessionOps.job. case_match; [by apply dspec_throw |].
      destruct (pack_uint 4 job) as [m|e'] eqn:Hm; [| by apply dspec_lift_Err].
      apply dspec_lift_Ok.
      eapply (dspec_bind _ _ _ _ (λ f d, od_stored d = image ∧ ∀ st, decode_job_reply f = Ok st →
        js_state st = "succeeded"%string → js_result st = 0 → od_final d = Some image)).
      - apply dspec_request; [| done]. intros d d' f [Hs Hj] Hh. rewrite <- Hj in Hm.
        destruct (law_ota_job _ _ _ _ _ Hm Hh) as [-> Hst]. rewrite Hs in Hst. auto.
      - intros f. apply dspec_lift; [| done]. intros st d Hst [Hs Hf]. split; [done | by apply Hf]. }
    intros st. destruct (String.eqb_spec (js_state st) "succeeded") as [Hst |];
      [| by apply dspec_throw].
    destruct (Z.eqb_spec (js_result st) 0) as [Hr |]; [| by apply dspec_throw].
    apply dspec_ret. intros d [Hs Hf]. split; [done |]. intros _. auto.
Qed.

Lemma ota_transfer_dspec image timeout callback job chunk_size partition :
  0 < chunk_size →
  dspec handles (λ d, od_stored d = [] ∧ od_job d = job)
    (ota_transfer image timeout callback job chunk_size partition)
    (λ ended d, od_stored d = image ∧ ota_evidence_ok image job ended d) (λ _ _, True).
Proof.
  intros Hchunk. unfold ota_transfer. apply (dspec_pre _ (ota_at handles image job 0)).
  { intros d [Hs Hj]. unfold ota_at. rewrite Hs. pose proof (zlen_nonneg image).
    split; [lia | done]. }
  eapply (dspec_bind _ _ _ _ (λ _, ota_at handles image job (zlen image))).
  - apply dspec_while.
    + intros. by apply batch_round_replying.
    + intros st Hst. apply batch_round_dspec; [done | lia].
    + intros st d Hst Hd. pose proof Hd as [Hb _]. by replace (zlen image) with st by lia.
  - intros st. eapply dspec_bind; [by apply dspec_report |]. intros []. apply send_end_dspec.
Qed.

Lemma check_ota_begin_chunk image f job chunk partition :
  is_bytes (fr_payload f) → check_ota_begin image f = Ok (job, chunk, partition) → 0 < chunk.
Proof.
  unfold check_ota_begin. intros Hb H. res_inv. injection H as _ <- _.
  apply orb_false_iff in G0 as [G0 _]. apply orb_false_iff in G0 as [_ G0].
  pose proof (u16_at_bound (fr_payload f) 8 Hb). lia.
Qed.

Lemma appending_ota_transfer image timeout callback job chunk_size partition :
  appending (ota_transfer image timeout callback job chunk_size partition).
Proof.
  unfold ota_transfer. apply appending_bind.
  - apply appending_while. intros. by apply batch_round_replying.
  - unfold send_end, SessionOps.job, throw. appends.
Qed.

Lemma ota_update_dspec image expected project version timeout callback :
  dspec handles (λ _, True) (ota_update image expected project version timeout callback)
    (λ r d, od_stored d = image ∧ or_bytes r = zlen image
       ∧ or_sha256 r = hex (ota_digest expected image)
       ∧ (or_completion_evidence r ≠ "session_close"%string → od_final d = Some image))
    (λ _ _, True).
Proof.
  unfold ota_update. case_match; [by apply dspec_throw |].
  destruct (negb (zlen (ota_digest expected image) =? 32)); [by apply dspec_throw |].
  eapply (dspec_bind _ _ _ _ (λ _ _, True)); [by apply dspec_lift |]. intros pr.
  eapply (dspec_bind _ _ _ _ (λ _ _, True)); [by apply dspec_lift |]. intros rel.
  case_match; [by apply dspec_throw |].
  eapply (dspec_bind _ _ _ _ (λ _ _, True)); [by apply dspec_lift |]. intros begin.
  eapply (dspec_bind _ _ _ _ (λ _ _, True)); [by apply dspec_report |]. intros [].
  eapply (dspec_bind _ _ _ _ (λ f d, ∀ job chunk partition,
    check_ota_begin image f = Ok (job, chunk, partition) →
    0 < chunk ∧ od_stored d = [] ∧ od_job d = job)).
  { apply dspec_request; [| done]. intros d d' f _ Hh. split; [| done].
    intros job chunk partition Hc. split; [| by eapply law_ota_begin].
    by eapply check_ota_begin_chunk; [eapply law_ota_bytes |]. }
  intros f. eapply (dspec_bind _ _ _ _ (λ v d, 0 < snd (fst v) ∧ od_stored d = [] ∧ od_job d = fst (fst v))).
  { apply dspec_lift; [| done]. intros [[job chunk] partition] d Hc Hd. by eapply Hd. }
  intros [[job chunk] partition]. cbn [fst snd]. apply (dspec_pure handles (0 < chunk)).
  { unfold cancel_ota. apply appending_bind; [appends |]. intros [].
    apply appending_bind; [apply appending_on_error; [apply appending_ota_transfer |] |]; appends. }
  intros Hchunk. eapply dspec_bind; [by apply dspec_report |]. intros [].
  eapply dspec_bind.
  { eapply dspec_on_error; [by apply ota_transfer_dspec |].
    unfold cancel_ota. eapply dspec_suppress; [by apply dspec_request | done]. }
  intros [ended evidence].
  eapply (dspec_bind _ _ _ _ (λ _ d, od_stored d = image
    ∧ (evidence ≠ "session_close"%string → od_final d = Some image))).
  - destruct ended as [g|].
    + apply dspec_lift; [| done]. intros [] d Hc (Hs & He). simpl in *. auto.
    + apply dspec_ret. intros d (Hs & He). simpl in *. auto.
  - intros []. apply dspec_ret. intros d (Hs & He). simpl. auto.
Qed.
End perform.

(** ** Termination and clean-up *)

Lemma res_ok_all_frames answers : Forall res_ok answers → res_ok (all_frames answers).
Proof.
  induction 1 as [|a l Ha Hl IH]; [done |]. cbn [all_frames].
  destruct a; [| done]. cbn [mbind res_bind]. by destruct (all_frames l).
Qed.

Lemma res_ok_gathered answers : Forall res_ok answers → res_ok (gathered answers).
Proof.
  intros H. unfold gathered. destruct (find _ answers) as [[f|e]|] eqn:Hf;
    [by apply res_ok_all_frames | | by apply res_ok_all_frames].
  apply find_some in Hf as [Hin _]. rewrite Forall_forall in H. by apply (H (Err e)), list_elem_of_In.
Qed.

(** The answers of a batch are never fuel exhaustion. *)
Lemma safe_send_all_bind {B} rs (k : list (res Frame) → M B) :
  (∀ answers, Forall res_ok answers → safe (k answers)) → safe (send_all rs ≫= k).
Proof.
  revert k. induction rs as [|r rs IH]; intros k Hk; cbn [send_all].
  { intros s Hs. by apply (Hk []). }
  intros s Hs. unfold mbind, Eff_bind, try_except, send_request.
  destruct Hs as [Hsc Hcb]. destruct (io_script s) as [|a rest] eqn:E.
  { simpl. split; [done |]. by split. }
  apply Forall_cons in Hsc as [Ha Hrest].
  assert (Hnext : ∀ s1, env_ok s1 → outcome_ok (fst ((answers ← send_all rs; k (a :: answers)) s1))
    ∧ env_ok (snd ((answers ← send_all rs; k (a :: answers)) s1))).
  { intros s1 Hs1. by apply (IH (λ answers, k (a :: answers)) (λ l Hl, Hk _ (Forall_cons_2 _ _ _ Ha Hl))). }
  specialize (Hnext (Io rest (io_callbacks s) ((io_trace s ++ [EvSend r]) ++ [EvReply a]))
    ltac:(by split)).
  unfold mbind, Eff_bind in Hnext. destruct a as [f|e]; cbv beta iota zeta delta [lift io_trace].
  - cbv beta iota zeta delta [mret Eff_ret]. destruct (send_all rs _) as [[l|e|] s2]; exact Hnext.
  - rewrite catches_base by exact Ha. cbv beta iota zeta delta [mret Eff_ret].
    destruct (send_all rs _) as [[l|e'|] s2]; exact Hnext.
Qed.

Lemma safe_gather rs : safe (gather rs).
Proof. apply safe_send_all_bind. intros answers H. by apply safe_lift, res_ok_gathered. Qed.

Lemma res_ok_batch_requests timeout batch : res_ok (batch_requests timeout batch).
Proof.
  induction batch as [|c b IH]; [done |]. cbn [batch_requests]. unfold ota_data_message. res_oks.
Qed.

Lemma safe_ota_status t : safe (ota_status t).
Proof. unfold ota_status. safes. apply safe_lift. unfold decode_ota_status. res_oks. Qed.

Lemma safe_check_batch image callback job_id partition batch : ∀ fs offset,
  safe (check_batch image callback job_id partition offset batch fs).
Proof.
  induction batch as [|c b IH]; intros [|f fs] o; cbn [check_batch]; safes; [| apply IH].
  apply safe_lift. unfold check_ota_data. res_oks.
Qed.

Lemma safe_batch_round image timeout callback job_id chunk_size partition offset :
  safe (batch_round image timeout callback job_id chunk_size partition offset).
Proof.
  unfold batch_round. apply safe_bind.
  - apply safe_try.
    + apply safe_bind; [apply safe_lift, res_ok_batch_requests |]. intros rs.
      apply safe_bind; [apply safe_gather | safes].
    + intros e. unfold reconcile_batch. apply safe_bind; [| safes].
      apply safe_bind; [apply safe_ota_status | safes].
  - intros [fs | n]; [| safes]. apply safe_bind; [apply safe_lift; res_oks |]. intros [].
    apply safe_check_batch.
Qed.

Lemma safe_send_end timeout job_id : safe (send_end timeout job_id).
Proof.
  unfold send_end. apply safe_try; [safes |]. intros e.
  destruct (catches [TimeoutError] e); [| safes]. apply safe_bind; [| safes].
  unfold job. case_match; [by apply safe_throw |].
  apply safe_bind; [apply safe_lift; res_oks |]. intros m.
  apply safe_bind; [apply safe_request |]. intros f. apply safe_lift.
  unfold decode_job_reply, _decode_job. res_oks.
Qed.

Lemma res_ok_encode_utf8 s : res_ok (encode_utf8 s).
Proof. unfold encode_utf8. by case_match. Qed.

Lemma safe_ota_update image expected project version timeout callback :
  safe (ota_update image expected project version timeout callback).
Proof.
  unfold ota_update. case_match; [by apply safe_throw |].
  destruct (negb _); [by apply safe_throw |].
  apply safe_bind; [apply safe_lift, res_ok_encode_utf8 |]. intros pr.
  apply safe_bind; [apply safe_lift, res_ok_encode_utf8 |]. intros rel.
  case_match; [by apply safe_throw |].
  apply safe_bind; [apply safe_lift; unfold ota_begin_message; res_oks |]. intros begin.
  apply safe_bind; [apply safe_report |]. intros [].
  apply safe_bind; [apply safe_request |]. intros f.
  apply safe_bind; [apply safe_lift; unfold check_ota_begin; res_oks |]. intros [[job chunk] partition].
  apply safe_bind; [apply safe_report |]. intros [].
  apply safe_bind.
  { apply safe_on_error; [| unfold cancel_ota; safes]. unfold ota_transfer. apply safe_bind.
    - apply safe_while; intros; [apply safe_batch_round | by apply batch_round_replying].
    - intros st. apply safe_bind; [apply safe_report |]. intros []. apply safe_send_end. }
  intros [[g|] evidence]; [| safes].
  apply safe_bind; [apply safe_lift; unfold check_end; res_oks | safes].
Qed.

(** The requests that write to the device's update partition or end the
    update. *)
Definition ota_writes (t : list event) : Prop :=
  ∃ r, EvSend r ∈ t ∧ rq_channel r = Channel.OTA
    ∧ (rq_type r = OtaType.DATA ∨ rq_type r = OtaType.END).

(** How a failed update ends. *)
Inductive ota_failure (timeout : Z) (e : exn) (t : list event) : Prop :=
| ota_failed_before : ¬ ota_writes t → ota_failure timeout e t
| ota_failed_cancelled t1 a :
    t = t1 ++ [EvSend (ota_request OtaType.CANCEL [] timeout); EvReply a] →
    (∀ e', a = Err e' → catches [Exception_] e' = false → e = e') →
    ota_failure timeout e t
| ota_failed_verdict t1 f job :
    t = t1 ++ [EvSend (ota_request OtaType.END [] timeout); EvReply (Ok f)] →
    check_end job f = Err e → ota_failure timeout e t.

Lemma ota_writes_nil : ¬ ota_writes [].
Proof. intros (r & Hin & _). by apply elem_of_nil in Hin. Qed.

Lemma ota_transfer_end image timeout callback job_id chunk_size partition :
  spec (ota_transfer image timeout callback job_id chunk_size partition) (λ o t, match o with
    | Done (Some f, _) => ∃ t1,
        t = t1 ++ [EvSend (ota_request OtaType.END [] timeout); EvReply (Ok f)]
    | _ => True
    end).
Proof.
  unfold ota_transfer. apply spec_bind. eapply spec_mono.
  { apply appending_while. intros st Hst. by apply batch_round_replying. }
  intros [n|e|] t _; try done. apply spec_bind, spec_report. split; [| done].
  unfold send_end. apply spec_try, spec_bind, spec_request; [done | |].
  - intros f. apply spec_ret. eexists. rewrite !app_nil_r, app_assoc. reflexivity.
  - intros e. destruct (catches _ e); [| done]. destruct (catches [TimeoutError] e).
    + eapply (spec_bind _ _ _). eapply spec_mono.
      { assert (Ha : appending (job job_id false)) by (unfold job, throw; appends). exact Ha. }
      intros [st|e'|] t' _; try done. case_match; [by apply spec_lift | by apply spec_ret].
    + by apply spec_ret.
Qed.

Lemma ota_update_failure image expected project version timeout callback :
  spec (ota_update image expected project version timeout callback) (λ o t, match o with
    | Raised e => exn_ok e → ota_failure timeout e t
    | _ => True
    end).
Proof.
  assert (Hnil : ∀ e, exn_ok e → ota_failure timeout e []).
  { intros e _. apply ota_failed_before, ota_writes_nil. }
  unfold ota_update. case_match; [apply spec_lift; auto; discriminate |].
  destruct (negb _); [apply spec_lift; auto; discriminate |].
  apply spec_bind, spec_lift; [intros pr _ | auto].
  apply spec_bind, spec_lift; [intros rel _ | auto].
  case_match; [apply spec_lift; auto; discriminate |].
  apply spec_bind, spec_lift; [intros begin _ | auto]. cbn [app].
  apply spec_bind, spec_report. cbv zeta.
  set (t0 := if callback then _ else _).
  set (r := ota_request OtaType.BEGIN begin (Z.max timeout OTA_BEGIN_TIMEOUT)).
  assert (Hquiet : ∀ l, (∀ e, e ∈ l → match e with EvSend r' => r' = r | _ => True end) → ¬ ota_writes l).
  { intros l Hl (r' & Hin & _ & Ht). apply Hl in Hin. subst r'. destruct Ht as [Ht | Ht]; discriminate Ht. }
  assert (Hq0 : ∀ e, e ∈ t0 → match e with EvSend r' => r' = r | _ => True end).
  { subst t0. intros e. destruct callback; [intros ->%list_elem_of_singleton; done |].
    by intros ?%elem_of_nil. }
  assert (Hq1 : ∀ a l, (∀ e, e ∈ l → match e with EvSend r' => r' = r | _ => True end) →
    ¬ ota_writes (t0 ++ EvSend r :: EvReply a :: l)).
  { intros a l Hl. apply Hquiet. intros e. rewrite elem_of_app, !elem_of_cons.
    intros [? | [-> | [-> | ?]]]; [by apply Hq0 | done | done | by apply Hl]. }
  split; [| intros e _; by apply ota_failed_before, Hquiet].
  apply spec_bind, spec_request; [done | | intros e _; apply ota_failed_before, Hq1;
    by intros ? ?%elem_of_nil].
  intros f. apply spec_bind, spec_lift.
  2: { intros e _ _. apply ota_failed_before. apply Hq1. by intros ? ?%elem_of_nil. }
  intros [[job chunk] partition] _.
  apply spec_bind, spec_report. cbv zeta. set (t2 := if callback then _ else _).
  assert (Hq2 : ∀ e, e ∈ t2 → match e with EvSend r' => r' = r | _ => True end).
  { subst t2. intros e. destruct callback; [intros ->%list_elem_of_singleton; done |].
    by intros ?%elem_of_nil. }
  split; [| intros e _; apply ota_failed_before; by apply (Hq1 (Ok f) t2)].
  apply spec_bind, spec_on_error. eapply spec_mono; [apply ota_transfer_end |].
  intros [[ended evidence]|e|] u Hu; [| | done].
  - destruct ended as [g|].
    + destruct Hu as [t3 ->]. apply spec_bind, spec_lift; [intros [] _; by apply spec_ret |].
      intros e He _. eapply (ota_failed_verdict _ _ _ _ g job); [| done].
      rewrite app_nil_r, !app_assoc. reflexivity.
    + apply spec_bind, spec_ret, spec_ret. done.
  - destruct (catches [BaseException] e) eqn:Hb.
    2: { intros He. by rewrite catches_base in Hb. }
    unfold cancel_ota. apply spec_suppress, spec_request; [done | |].
    + intros g _. eapply (ota_failed_cancelled _ _ _ _ (Ok g)); [| done].
      rewrite !app_assoc. reflexivity.
    + intros e'. destruct (catches [Exception_] e') eqn:He'; intros _;
        (eapply (ota_failed_cancelled _ _ _ _ (Err e')); [rewrite !app_assoc; reflexivity |]).
      * intros e2 [= <-] Hc. by rewrite He' in Hc.
      * by intros e2 [= <-].
Qed.

(** ** A reference device *)

Record ref_ota := RefOta { ro_stored : bytes; ro_final : option bytes }.
Definition ota_reply (type : OtaType.OtaType_t) (payload : bytes) : Frame :=
  mkFrame Channel.OTA type 0 0 0 0 0 payload.
Definition ota_refusal : Frame := mkFrame 0 0 0 0 0 0 0 [].

Definition ota_begin_reply (total : Z) : Frame :=
  ota_reply OtaType.BEGIN_RESPONSE (le_encode 4 7 ++ le_encode 4 total ++ le_encode 2 2 ++ [0]).
Definition ota_data_reply (n : Z) : Frame :=
  ota_reply OtaType.DATA_RESPONSE (le_encode 4 n ++ le_encode 4 0).
Definition ota_status_reply (d : ref_ota) : Frame :=
  ota_reply OtaType.STATUS ((le_encode 4 7 ++ le_encode 4 0) ++ le_encode 4 (zlen (ro_stored d))
    ++ [0; 0; 1; 0] ++ le_encode 4 0).
Definition ota_end_reply : Frame := ota_reply OtaType.END_RESPONSE (le_encode 4 7 ++ le_encode 4 0).
Definition ota_job_reply (d : ref_ota) : Frame :=
  mkFrame Channel.CONTROL ControlType.JOB_STATUS 0 0 0 0 0
    ((le_encode 4 7 ++ [0; 0]) ++ (if bool_decide (ro_final d = Some (ro_stored d)) then 2 else 1)
     :: [0; 0; 0; 0; 0; 0; 0; 0; 0]).

Definition ref_ota_step (d : ref_ota) (r : request) : ref_ota * Frame :=
  let p := rq_payload r in
  if rq_channel r =? Channel.CONTROL then (d, ota_job_reply d)
  else
    match enum_of_value (rq_type r) : option OtaType.OtaType_t with
    | Some OtaType.BEGIN => (RefOta [] None, ota_begin_reply (u32_at p 0))
    | Some OtaType.DATA =>
      if u32_at p 0 =? zlen (ro_stored d)
      then
        let stored := ro_stored d ++ slice_from 4 p in
        (RefOta stored (ro_final d), ota_data_reply (zlen stored))
      else (d, ota_refusal)
    | Some OtaType.END => (RefOta (ro_stored d) (Some (ro_stored d)), ota_end_reply)
    | Some OtaType.STATUS => (d, ota_status_reply d)
    | _ => (d, ota_refusal)
    end.

Definition ref_ota_handles (d : ref_ota) (r : request) (d' : ref_ota) (f : Frame) : Prop :=
  ref_ota_step d r = (d', f) ∧ is_bytes (fr_payload f)
  ∧ zlen (ro_stored d) < 2 ^ 32 ∧ zlen (ro_stored d') < 2 ^ 32.

Lemma ref_ota_data_law c d m t d' f :
  ota_data_message c = Ok m → ref_ota_handles d (ota_request OtaType.DATA m t) d' f →
  (ro_stored d' = ro_stored d ∨ fst c = zlen (ro_stored d) ∧ ro_stored d' = ro_stored d ++ snd c)
  ∧ ∀ p n, check_ota_data c f = Ok (p, n) → n = zlen (ro_stored d').
Proof.
  intros Hm (Hs & _ & _ & Hlen). unfold ota_data_message in Hm. bind Hm as o Ho.
  assert (m = o ++ snd c) as -> by congruence. apply pack_uint_inv in Ho as [-> Hoff0].
  assert (Hoff : u32_at (le_encode 4 (fst c) ++ snd c) 0 = fst c) by by apply (le_field_at [] _ 4).
  assert (Hrest : slice_from 4 (le_encode 4 (fst c) ++ snd c) = snd c).
  { rewrite slice_from_app_r; by rewrite zlen_le_encode. }
  unfold ref_ota_step in Hs. cbn [ota_request rq_payload rq_type rq_channel] in Hs.
  change (Channel.Channel_value Channel.OTA =? Channel.CONTROL) with false in Hs.
  change (enum_of_value _) with (Some OtaType.DATA) in Hs. cbv iota zeta in Hs.
  rewrite Hoff, Hrest in Hs. destruct (fst c =? zlen (ro_stored d)) eqn:Hacc; injection Hs as <- <-.
  - apply Z.eqb_eq in Hacc. split; [by right |]. intros p n Hc. unfold check_ota_data in Hc. res_inv.
    assert (n = u32_at (fr_payload (ota_data_reply (zlen (ro_stored d ++ snd c)))) 0) as -> by congruence.
    cbn [ro_stored] in *. pose proof (zlen_nonneg (ro_stored d ++ snd c)).
    apply (le_field_at [] _ 4); [done | lia].
  - split; [by left |]. intros p n Hc. discriminate Hc.
Qed.

#[export] Instance ref_ota_device : OtaDevice ref_ota_handles.
Proof.
  refine {| od_job := λ _, 7; od_stored := ro_stored; od_final := ro_final |}.
  - intros image d m t d' f job chunk partition (Hs & _) Hc. unfold ref_ota_step in Hs.
    cbn [ota_request rq_payload rq_type rq_channel] in Hs.
    change (Channel.Channel_value Channel.OTA =? Channel.CONTROL) with false in Hs.
    change (enum_of_value _) with (Some OtaType.BEGIN) in Hs. cbv iota zeta in Hs.
    assert (d' = RefOta [] None ∧ f = ota_begin_reply (u32_at m 0)) as [-> ->] by (split; congruence).
    split; [done |]. unfold check_ota_begin in Hc.
    destruct (negb _ || _) in Hc; [discriminate Hc |].
    destruct (negb _ || _ || _) in Hc; [discriminate Hc |].
    assert (Hj : u32_at (fr_payload (ota_begin_reply (u32_at m 0))) 0 = 7)
      by by apply (le_field_at [] _ 4).
    rewrite Hj in Hc. congruence.
  - intros c d m t d' f Hm Hh. split; [done |]. by apply (ref_ota_data_law c d m t d' f).
  - intros d t d' f (Hs & _ & Hlen & _).
    assert (d' = d ∧ f = ota_status_reply d) as [-> ->] by (split; unfold ref_ota_step in Hs;
      cbn [ota_request rq_payload rq_type rq_channel] in Hs;
      change (Channel.Channel_value Channel.OTA =? Channel.CONTROL) with false in Hs;
      change (enum_of_value _) with (Some OtaType.STATUS) in Hs; cbv iota zeta in Hs; congruence).
    split; [done |]. intros st Hst _. unfold decode_ota_status in Hst.
    destruct (negb _ || _) in Hst; [discriminate Hst |]. destruct (negb _) in Hst; [discriminate Hst |].
    pose proof (f_equal (λ r, match r with Ok x => os_bytes_received x | _ => 0 end) Hst) as Hr.
    cbv beta iota in Hr. cbn [os_bytes_received] in Hr. rewrite <- Hr.
    pose proof (zlen_nonneg (ro_stored d)). apply (le_field_at (le_encode 4 7 ++ le_encode 4 0) _ 4);
      [by rewrite zlen_app, !zlen_le_encode | lia].
  - intros d t d' f (Hs & _). cbn in Hs. by injection Hs as <- <-.
  - intros d m t d' f Hm (Hs & _). unfold ref_ota_step in Hs.
    cbn [control_request rq_payload rq_type rq_channel] in Hs.
    change (Channel.Channel_value Channel.CONTROL =? Channel.CONTROL) with true in Hs. cbv iota zeta in Hs.
    assert (d' = d ∧ f = ota_job_reply d) as [-> ->] by (split; congruence).
    split; [done |]. intros st Hst Hok _. unfold decode_job_reply, ota_job_reply in Hst.
    destruct (bool_decide (ro_final d = Some (ro_stored d))) eqn:Hb;
      [by apply bool_decide_eq_true in Hb |].
    vm_compute in Hst. injection Hst as <-. discriminate Hok.
  - by intros d r d' f (_ & ? & _).
Defined.

(** ** Properties *)

(** C5: an application update is delivered exactly, over a lossy link.  For a
    device that obeys [OtaDevice] and a link on which any request of a batch may
    raise after it was lost or after only its reply was lost, an update that
    returns leaves the device with exactly the image, whose digest it reports,
    and, unless the session closed during END, made final. *)
Theorem ota_update_delivers {D} (handles : D → request → D → Frame → Prop)
    image expected project version timeout callback s r s' d x `{!OtaDevice handles} :
  io_trace s = [] →
  ota_update image expected project version timeout callback s = (Done r, s') →
  link_steps handles (d, None) (io_trace s') x →
  ∃ d', x = (d', None) ∧ od_stored d' = image ∧ or_bytes r = zlen image
    ∧ (expected = None → or_sha256 r = sha256_hex image)
    ∧ (or_completion_evidence r ≠ "session_close"%string → od_final d' = Some image).
Proof.
  intros Hs Hrun Hx.
  destruct (ota_update_dspec handles image expected project version timeout callback s)
    as (t & Ht & _ & [Hb | Hpost]); rewrite Hrun in *; simpl in *; [done |].
  rewrite Hs in Ht. simpl in Ht. rewrite Ht in Hx.
  destruct (Hpost d x I Hx) as (d' & -> & H1 & H2 & H3 & H4). exists d'.
  split_and!; [done | done | done | by intros -> | done].
Qed.

(** A batch of three chunks: the reply to the second is lost and the third is
    cancelled; the reply to END is lost. *)
Definition example_image : bytes := [1; 2; 3; 4; 5].
Definition example_ota_io : io := Io
  [Ok (ota_begin_reply 5); Ok (ota_data_reply 2); raise TimeoutError ""; raise CancelledError "";
   Ok (ota_status_reply (RefOta [1; 2; 3; 4] None)); Ok (ota_data_reply 5); raise TimeoutError "";
   Ok (ota_job_reply (RefOta example_image (Some example_image)))] [] [].
Abbreviation example_ota :=
  (ota_update example_image (Some (repeat 1 32)) "p" "1.0" 10000 true example_ota_io).
Lemma example_ota_done :
  done_with (λ r, String.eqb (or_completion_evidence r) "device_job") (fst example_ota) = true.
Proof. vm_compute. reflexivity. Qed.

Ltac ota_exchange :=
  eapply steps_cons; [apply step_send |]; eapply steps_cons;
  [first [apply step_reply | eapply step_reply_lost];
   split; [vm_compute; reflexivity | split; [by_decide | split; reflexivity]] |].
Ltac ota_notified := eapply steps_cons; [apply step_progress |].

Lemma example_ota_link : ∃ x,
  link_steps ref_ota_handles (RefOta [] None, None) (io_trace (snd example_ota)) x.
Proof.
  assert (H : ∃ t, io_trace (snd example_ota) = t) by (vm_compute; by eexists).
  destruct H as [t Ht]. rewrite Ht. vm_compute in Ht. subst t. eexists.
  ota_notified. ota_exchange. ota_notified. do 2 ota_exchange.
  eapply steps_cons; [apply step_send |]; eapply steps_cons; [apply step_request_lost |].
  ota_exchange. ota_notified. ota_exchange. do 2 ota_notified. do 2 ota_exchange. apply steps_nil.
Qed.

Lemma ota_update_delivers_witness :
  ∃ r d', fst example_ota = Done r ∧ ro_stored d' = example_image
    ∧ ro_final d' = Some example_image.
Proof.
  destruct example_ota_link as [x Hx]. pose proof example_ota_done as Hd.
  destruct example_ota as [[r|e|] s'] eqn:H; [| discriminate Hd ..].
  destruct (ota_update_delivers ref_ota_handles example_image (Some (repeat 1 32)) "p" "1.0" 10000 true
    example_ota_io r s' (RefOta [] None) x eq_refl H Hx) as (d' & _ & H1 & _ & _ & H2).
  exists r, d'. split; [reflexivity |]. split; [exact H1 |]. apply H2.
  apply String.eqb_eq in Hd. rewrite Hd. discriminate.
Defined.

(** A failing update does not leave the device waiting.  When the update
    raises, either it had sent no data and no END, or its last exchange is a
    CANCEL, and the exception is the one that made the transfer fail unless the
    CANCEL itself was interrupted by one that is not an [Exception], or its last
    exchange is the END and the exception is the device's negative verdict. *)
Theorem ota_update_cancels image expected project version timeout callback s e s' :
  env_ok s → io_trace s = [] →
  ota_update image expected project version timeout callback s = (Raised e, s') →
  ota_failure timeout e (io_trace s').
Proof.
  intros Henv Hs Hrun.
  destruct (ota_update_failure image expected project version timeout callback s) as (t & Ht & _ & Hf).
  destruct (safe_ota_update image expected project version timeout callback s Henv) as [Hok _].
  cbn [trace_of io_world] in *. rewrite Hrun in *. simpl in *. rewrite Ht, Hs. by apply Hf.
Qed.

Definition example_failing_io : io :=
  Io [Ok (ota_begin_reply 5); Ok ota_refusal; Ok ota_refusal; Ok ota_refusal; raise ConnectionError ""] [] [].
Abbreviation example_failing :=
  (ota_update example_image (Some (repeat 1 32)) "p" "1.0" 10000 false example_failing_io).
Lemma example_failing_raises :
  raised_with (λ e, bool_decide (exn_cls e = ProtocolError)) (fst example_failing) = true.
Proof. vm_compute. reflexivity. Qed.

Lemma ota_update_cancels_witness :
  ∃ e, fst example_failing = Raised e ∧ exn_cls e = ProtocolError
    ∧ ota_failure 10000 e (io_trace (snd example_failing)).
Proof.
  pose proof example_failing_raises as He.
  destruct example_failing as [[r|e|] s'] eqn:H; [discriminate He | | discriminate He].
  exists e. split; [reflexivity |]. split; [exact (bool_decide_eq_true_1 _ He) |].
  apply (ota_update_cancels example_image (Some (repeat 1 32)) "p" "1.0" 10000 false example_failing_io);
    [| reflexivity | exact H].
  split; repeat constructor; discriminate.
Defined.

(** An update ends.  On every finite sequence of replies, timeouts and
    callback results it returns, raises, or waits for a further reply. *)
Theorem ota_update_terminates image expected project version timeout callback s :
  env_ok s → outcome_ok (fst (ota_update image expected project version timeout callback s)).
Proof. intros Henv. by apply safe_ota_update. Qed.

Lemma ota_update_terminates_witness : env_ok example_ota_io ∧ outcome_ok (fst example_ota).
Proof.
  assert (H : env_ok example_ota_io) by (split; repeat constructor; discriminate).
  split; [exact H |].
  exact (ota_update_terminates example_image (Some (repeat 1 32)) "p" "1.0" 10000 true _ H).
Defined.
