(* ===== verification/Session.v ===== *)
(** * The device session ([session.py])

    One task, [run], reads the link and handles every frame in order; other
    tasks send requests, wait for their answers and may close the session while
    [run] is suspended in an [await].  The handlers are translated into a state
    monad over the session's fields in which every [await] takes an [answer]
    from the environment: the actions other tasks perform in the meantime, in
    order, and whether the awaited call returns or raises.  Quantifying over the
    answers quantifies over every interleaving at the granularity of asyncio
    (code between two awaits is atomic), every write error and every callback
    error.  A run whose answers or chunks have run out is [Blocked]: it shows
    the state the session is in while it waits. *)
From stdpp Require Import pretty.
From S2P Require Import Prelude Enums Text Protocol StateMachine Effects Io Value DeviceInfo SessionOps.

(** ** State *)

Inductive fut_state := FWaiting | FResult (f : Frame) | FError (e : exn) | FCancelled.

(** An [asyncio.Future]; the request id it was created for is kept with it. *)
Record future := Future { fu_id : Z; fu_state : fut_state }.

(** What [_send] did, oldest first: a frame it built, with whether it could be
    encoded and was handed to [link.write]; and the reset of the sequence
    counters. *)
Inductive sent := SentFrame (f : Frame) (written : bool) | SequenceReset.

(** The frame parameters of a task that waits for the write lock in [_send];
    the session id was read before. *)
Record sender := Sender {
  sd_session : Z;
  sd_channel : Z;
  sd_type : Z;
  sd_payload : bytes;
  sd_flags : Z;
  sd_request_id : Z;
  sd_stream_id : Z;
}.

Inductive owner := Reader | Others.

(** A call to one of the callbacks [on_ready], [on_event], [on_media]. *)
Record media_event := MediaEvent {
  me_channel : Z;
  me_stream_id : Z;
  me_frame_id : Z;
  me_monotonic_us : Z;
  me_dropped : Z;
  me_flags : Z;
  me_description : media_description;
  me_data : bytes;
}.
Inductive notice :=
| OnReady
| OnEvent (event : list (string * pyval))
| OnMedia (info : option DeviceInfo) (event : media_event).

Record session := Session {
  s_info : option DeviceInfo;
  s_state : SessionState;
  s_closed : bool;
  s_ready : bool;
  s_ready_announced : bool;
  s_request_id : Z;
  s_futures : list future;
  s_pending : gmap Z nat;
  s_reopen_session_id : option Z;
  s_reopen_requested : bool;
  s_sequence : list Z;
  s_last_rx_sequence : list (option Z);
  s_log_credit : Z;
  s_media_credit : list Z;
  s_clock_task : bool;
  s_write_lock : option owner;
  s_senders : list sender;
  s_sent : list sent;
  s_notices : list notice;
}.

(** [max(int(channel) for channel in Channel) + 1] *)
Definition channel_count : nat := 10.
Definition DeviceSession_init : session := {|
  s_info := None; s_state := NEGOTIATING; s_closed := false; s_ready := false;
  s_ready_announced := false; s_request_id := 0; s_futures := []; s_pending := ∅;
  s_reopen_session_id := None; s_reopen_requested := false;
  s_sequence := repeat 0 channel_count; s_last_rx_sequence := repeat None channel_count;
  s_log_credit := 0; s_media_credit := repeat 0 channel_count; s_clock_task := false;
  s_write_lock := None; s_senders := []; s_sent := []; s_notices := [] |}.

(** Assignments to the fields. *)
Definition set_info v (s : session) : session :=
  Session v (s_state s) (s_closed s) (s_ready s) (s_ready_announced s) (s_request_id s)
    (s_futures s) (s_pending s) (s_reopen_session_id s) (s_reopen_requested s)
    (s_sequence s) (s_last_rx_sequence s) (s_log_credit s) (s_media_credit s)
    (s_clock_task s) (s_write_lock s) (s_senders s) (s_sent s) (s_notices s).
Definition set_state v (s : session) : session :=
  Session (s_info s) v (s_closed s) (s_ready s) (s_ready_announced s) (s_request_id s)
    (s_futures s) (s_pending s) (s_reopen_session_id s) (s_reopen_requested s)
    (s_sequence s) (s_last_rx_sequence s) (s_log_credit s) (s_media_credit s)
    (s_clock_task s) (s_write_lock s) (s_senders s) (s_sent s) (s_notices s).
Definition set_closed v (s : session) : session :=
  Session (s_info s) (s_state s) v (s_ready s) (s_ready_announced s) (s_request_id s)
    (s_futures s) (s_pending s) (s_reopen_session_id s) (s_reopen_requested s)
    (s_sequence s) (s_last_rx_sequence s) (s_log_credit s) (s_media_credit s)
    (s_clock_task s) (s_write_lock s) (s_senders s) (s_sent s) (s_notices s).
Definition set_ready v (s : session) : session :=
  Session (s_info s) (s_state s) (s_closed s) v (s_ready_announced s) (s_request_id s)
    (s_futures s) (s_pending s) (s_reopen_session_id s) (s_reopen_requested s)
    (s_sequence s) (s_last_rx_sequence s) (s_log_credit s) (s_media_credit s)
    (s_clock_task s) (s_write_lock s) (s_senders s) (s_sent s) (s_notices s).
Definition set_ready_announced v (s : session) : session :=
  Session (s_info s) (s_state s) (s_closed s) (s_ready s) v (s_request_id s) (s_futures s)
    (s_pending s) (s_reopen_session_id s) (s_reopen_requested s) (s_sequence s)
    (s_last_rx_sequence s) (s_log_credit s) (s_media_credit s) (s_clock_task s)
    (s_write_lock s) (s_senders s) (s_sent s) (s_notices s).
Definition set_request_id v (s : session) : session :=
  Session (s_info s) (s_state s) (s_closed s) (s_ready s) (s_ready_announced s) v
    (s_futures s) (s_pending s) (s_reopen_session_id s) (s_reopen_requested s)
    (s_sequence s) (s_last_rx_sequence s) (s_log_credit s) (s_media_credit s)
    (s_clock_task s) (s_write_lock s) (s_senders s) (s_sent s) (s_notices s).
Definition set_futures v (s : session) : session :=
  Session (s_info s) (s_state s) (s_closed s) (s_ready s) (s_ready_announced s)
    (s_request_id s) v (s_pending s) (s_reopen_session_id s) (s_reopen_requested s)
    (s_sequence s) (s_last_rx_sequence s) (s_log_credit s) (s_media_credit s)
    (s_clock_task s) (s_write_lock s) (s_senders s) (s_sent s) (s_notices s).
Definition set_pending v (s : session) : session :=
  Session (s_info s) (s_state s) (s_closed s) (s_ready s) (s_ready_announced s)
    (s_request_id s) (s_futures s) v (s_reopen_session_id s) (s_reopen_requested s)
    (s_sequence s) (s_last_rx_sequence s) (s_log_credit s) (s_media_credit s)
    (s_clock_task s) (s_write_lock s) (s_senders s) (s_sent s) (s_notices s).
Definition set_reopen_session_id v (s : session) : session :=
  Session (s_info s) (s_state s) (s_closed s) (s_ready s) (s_ready_announced s)
    (s_request_id s) (s_futures s) (s_pending s) v (s_reopen_requested s)
    (s_sequence s) (s_last_rx_sequence s) (s_log_credit s) (s_media_credit s)
    (s_clock_task s) (s_write_lock s) (s_senders s) (s_sent s) (s_notices s).
Definition set_reopen_requested v (s : session) : session :=
  Session (s_info s) (s_state s) (s_closed s) (s_ready s) (s_ready_announced s)
    (s_request_id s) (s_futures s) (s_pending s) (s_reopen_session_id s) v
    (s_sequence s) (s_last_rx_sequence s) (s_log_credit s) (s_media_credit s)
    (s_clock_task s) (s_write_lock s) (s_senders s) (s_sent s) (s_notices s).
Definition set_sequence v (s : session) : session :=
  Session (s_info s) (s_state s) (s_closed s) (s_ready s) (s_ready_announced s)
    (s_request_id s) (s_futures s) (s_pending s) (s_reopen_session_id s)
    (s_reopen_requested s) v (s_last_rx_sequence s) (s_log_credit s) (s_media_credit s)
    (s_clock_task s) (s_write_lock s) (s_senders s) (s_sent s) (s_notices s).
Definition set_last_rx_sequence v (s : session) : session :=
  Session (s_info s) (s_state s) (s_closed s) (s_ready s) (s_ready_announced s)
    (s_request_id s) (s_futures s) (s_pending s) (s_reopen_session_id s)
    (s_reopen_requested s) (s_sequence s) v (s_log_credit s) (s_media_credit s)
    (s_clock_task s) (s_write_lock s) (s_senders s) (s_sent s) (s_notices s).
Definition set_log_credit v (s : session) : session :=
  Session (s_info s) (s_state s) (s_closed s) (s_ready s) (s_ready_announced s)
    (s_request_id s) (s_futures s) (s_pending s) (s_reopen_session_id s)
    (s_reopen_requested s) (s_sequence s) (s_last_rx_sequence s) v (s_media_credit s)
    (s_clock_task s) (s_write_lock s) (s_senders s) (s_sent s) (s_notices s).
Definition set_media_credit v (s : session) : session :=
  Session (s_info s) (s_state s) (s_closed s) (s_ready s) (s_ready_announced s)
    (s_request_id s) (s_futures s) (s_pending s) (s_reopen_session_id s)
    (s_reopen_requested s) (s_sequence s) (s_last_rx_sequence s) (s_log_credit s) v
    (s_clock_task s) (s_write_lock s) (s_senders s) (s_sent s) (s_notices s).
Definition set_clock_task v (s : session) : session :=
  Session (s_info s) (s_state s) (s_closed s) (s_ready s) (s_ready_announced s)
    (s_request_id s) (s_futures s) (s_pending s) (s_reopen_session_id s)
    (s_reopen_requested s) (s_sequence s) (s_last_rx_sequence s) (s_log_credit s)
    (s_media_credit s) v (s_write_lock s) (s_senders s) (s_sent s) (s_notices s).
Definition set_write_lock v (s : session) : session :=
  Session (s_info s) (s_state s) (s_closed s) (s_ready s) (s_ready_announced s)
    (s_request_id s) (s_futures s) (s_pending s) (s_reopen_session_id s)
    (s_reopen_requested s) (s_sequence s) (s_last_rx_sequence s) (s_log_credit s)
    (s_media_credit s) (s_clock_task s) v (s_senders s) (s_sent s) (s_notices s).
Definition set_senders v (s : session) : session :=
  Session (s_info s) (s_state s) (s_closed s) (s_ready s) (s_ready_announced s)
    (s_request_id s) (s_futures s) (s_pending s) (s_reopen_session_id s)
    (s_reopen_requested s) (s_sequence s) (s_last_rx_sequence s) (s_log_credit s)
    (s_media_credit s) (s_clock_task s) (s_write_lock s) v (s_sent s) (s_notices s).
Definition set_sent v (s : session) : session :=
  Session (s_info s) (s_state s) (s_closed s) (s_ready s) (s_ready_announced s)
    (s_request_id s) (s_futures s) (s_pending s) (s_reopen_session_id s)
    (s_reopen_requested s) (s_sequence s) (s_last_rx_sequence s) (s_log_credit s)
    (s_media_credit s) (s_clock_task s) (s_write_lock s) (s_senders s) v (s_notices s).
Definition set_notices v (s : session) : session :=
  Session (s_info s) (s_state s) (s_closed s) (s_ready s) (s_ready_announced s)
    (s_request_id s) (s_futures s) (s_pending s) (s_reopen_session_id s)
    (s_reopen_requested s) (s_sequence s) (s_last_rx_sequence s) (s_log_credit s)
    (s_media_credit s) (s_clock_task s) (s_write_lock s) (s_senders s) (s_sent s) v.

(** ** Sending *)

Definition seq_of (l : list Z) (channel : Z) : Z := default 0 (l !! Z.to_nat channel).

(** [(n + 1) & 0xFFFFFFFF] *)
Definition next32 (n : Z) : Z := Z.land (n + 1) 0xFFFFFFFF.

(** The locked part of [_send] up to [link.write]: the sequence number is used
    up even if the frame cannot be encoded. *)
Definition start_write (p : sender) (s : session) : session * res unit :=
  let n := next32 (seq_of (s_sequence s) (sd_channel p)) in
  let frame := mkFrame (sd_channel p) (sd_type p) (sd_flags p) (sd_session p) (sd_request_id p)
                 (sd_stream_id p) n (sd_payload p) in
  let s := set_sequence (<[Z.to_nat (sd_channel p) := n]> (s_sequence s)) s in
  match encode_frame frame with
  | Ok _ => (set_sent (s_sent s ++ [SentFrame frame true]) s, Ok tt)
  | Err e => (set_sent (s_sent s ++ [SentFrame frame false]) s, Err e)
  end.

(** The session id a frame is sent with. *)
Definition current_session (s : session) : Z :=
  match s_info s with Some i => session_id i | None => 0 end.

(** [_next_request_id] *)
Definition _next_request_id (s : session) : Z * session :=
  let n := next32 (s_request_id s) in
  let n := if n =? 0 then 1 else n in
  (n, set_request_id n s).

(** ** Closing *)

Definition fail_future (fs : list future) (i : nat) : list future :=
  match fs !! i with
  | Some (Future id FWaiting) =>
    <[i := Future id (FError (Exn ConnectionError "ESP-Iris session closed" 0))]> fs
  | _ => fs
  end.

Definition _fail_pending (s : session) : session :=
  set_pending ∅ (set_futures (fold_left fail_future (map snd (map_to_list (s_pending s))) (s_futures s)) s).

(** [self._closed = True], the CLOSE transition and [_fail_pending]; the
    transition is legal from every state but CLOSED, which is left alone. *)
Definition mark_closed (s : session) : session :=
  let s := set_closed true s in
  let s := match s_state s with
           | CLOSED => s
           | st => match session_transition st CLOSE with Ok st' => set_state st' s | Err _ => s end
           end in
  _fail_pending s.

(** ** Other tasks *)

(** The atomic steps other tasks take while [run] is suspended. *)
Inductive action :=
| AClose                                          (* close() *)
| ARequest (channel type : Z) (payload : bytes) (stream_id : Z)
                                                  (* _request_unlocked up to its _send *)
| AFinish (i : nat)                               (* its finally clause, for the i-th future *)
| ASend (channel : Z) (payload : bytes)           (* _grant_media_credit up to its _send *)
| AStartWrite (i : nat)                           (* _send of the i-th waiting task gets the lock *)
| AEndWrite                                       (* and releases it *)
| AMediaCredit (channel amount : Z)               (* the += of _grant_media_credit *)
| AMediaReset (channel : Z).                      (* mirror_stop *)

Definition queue_sender (p : sender) (s : session) : session := set_senders (s_senders s ++ [p]) s.

Definition act (s : session) (a : action) : session :=
  match a with
  | AClose => mark_closed s
  | ARequest channel type payload stream_id =>
    if s_ready s && negb (s_closed s) then
      let '(id, s) := _next_request_id s in
      let i := length (s_futures s) in
      let s := set_futures (s_futures s ++ [Future id FWaiting]) s in
      let s := set_pending (<[id := i]> (s_pending s)) s in
      queue_sender (Sender (current_session s) channel type payload 0 id stream_id) s
    else s
  | AFinish i =>
    match s_futures s !! i with
    | Some (Future id st) =>
      let s := set_pending (delete id (s_pending s)) s in
      match st with
      | FWaiting => set_futures (<[i := Future id FCancelled]> (s_futures s)) s
      | _ => s
      end
    | None => s
    end
  | ASend channel payload =>
    queue_sender (Sender (current_session s) channel ControlType.CREDIT payload 0 0 0) s
  | AStartWrite i =>
    match s_write_lock s, s_senders s !! i with
    | None, Some p =>
      let s := set_senders (delete i (s_senders s)) s in
      match start_write p s with
      | (s, Ok _) => set_write_lock (Some Others) s
      | (s, Err _) => s
      end
    | _, _ => s
    end
  | AEndWrite =>
    match s_write_lock s with Some Others => set_write_lock None s | _ => s end
  | AMediaCredit channel amount =>
    let c := Z.to_nat channel in
    set_media_credit (<[c := seq_of (s_media_credit s) channel + amount]> (s_media_credit s)) s
  | AMediaReset channel =>
    set_media_credit (<[Z.to_nat channel := 0]> (s_media_credit s)) s
  end.

(** ** The reading task *)

(** What an [await] of the reading task sees: what the others did meanwhile,
    and its result. *)
Record answer := Answer { an_others : list action; an_result : res unit }.

(** The session, the answers to come, and the values [secrets.token_bytes]
    will return. *)
Record reader := ReaderState {
  rd_session : session;
  rd_answers : list answer;
  rd_random : list bytes;
}.

Definition T (A : Type) : Type := reader → outcome A * reader.

#[export] Instance T_ret : MRet T := λ A a x, (Done a, x).
#[export] Instance T_bind : MBind T := λ A B f m x,
  match m x with
  | (Done a, x') => f a x'
  | (Raised e, x') => (Raised e, x')
  | (Blocked, x') => (Blocked, x')
  end.

Definition t_lift {A} (r : res A) : T A := λ x,
  match r with Ok a => (Done a, x) | Err e => (Raised e, x) end.
Definition t_throw {A} (c : exn_class) (msg : string) : T A := t_lift (raise c msg).
Definition t_blocked {A} : T A := λ x, (Blocked, x).
Definition gets {A} (f : session → A) : T A := λ x, (Done (f (rd_session x)), x).
Definition modify (f : session → session) : T unit := λ x,
  (Done tt, ReaderState (f (rd_session x)) (rd_answers x) (rd_random x)).

Definition others (s : session) (acts : list action) : session := fold_left act acts s.

(** A suspension point. *)
Definition await : T unit := λ x,
  match rd_answers x with
  | [] => (Blocked, x)
  | a :: answers =>
    let x' := ReaderState (others (rd_session x) (an_others a)) answers (rd_random x) in
    t_lift (an_result a) x'
  end.

(** [async with self._write_lock], entered: a free lock is taken at once;
    otherwise the task waits until the others have released it, or is cancelled. *)
Definition acquire : T unit := λ x,
  match s_write_lock (rd_session x) with
  | None => modify (set_write_lock (Some Reader)) x
  | Some _ =>
    match rd_answers x with
    | [] => (Blocked, x)
    | a :: answers =>
      let x' := ReaderState (others (rd_session x) (an_others a)) answers (rd_random x) in
      match an_result a, s_write_lock (rd_session x') with
      | Err e, _ => (Raised e, x')
      | Ok _, None => modify (set_write_lock (Some Reader)) x'
      | Ok _, Some _ => (Blocked, x')
      end
    end
  end.

(** [try: m finally: release the lock]; the release is a state change. *)
Definition releasing (m : T unit) : T unit := λ x,
  match m x with
  | (Blocked, x') => (Blocked, x')
  | (o, x') => (o, ReaderState (set_write_lock None (rd_session x')) (rd_answers x') (rd_random x'))
  end.

(** [try: m finally: fin] *)
Definition t_finally {A} (m : T A) (fin : T unit) : T A := λ x,
  match m x with
  | (Done a, x') => (_ ← fin; mret a) x'
  | (Raised e, x') => (_ ← fin; t_lift (Err e)) x'
  | (Blocked, x') => (Blocked, x')
  end.

(** The locked part of [_send]. *)
Definition locked_write (p : sender) : T unit := λ x,
  let '(s, r) := start_write p (rd_session x) in
  (_ ← t_lift r; await) (ReaderState s (rd_answers x) (rd_random x)).

Definition _send (type : ControlType.ControlType_t) (payload : bytes) (flags : Z) : T unit :=
  session_id ← gets current_session;
  _ ← acquire;
  releasing (locked_write (Sender session_id Channel.CONTROL type payload flags 0 0)).

(** [secrets.token_bytes(16)] *)
Definition token_bytes : T bytes := λ x,
  match rd_random x with
  | [] => (Blocked, x)
  | b :: random => (Done b, ReaderState (rd_session x) (rd_answers x) random)
  end.

(** An awaited callback. *)
Definition call_back (n : notice) : T unit :=
  _ ← modify (λ s, set_notices (s_notices s ++ [n]) s); await.

(** ** Ready *)

Definition LOG_CREDIT_GRANT : Z := 256 * 1024.
Definition LOG_CREDIT_LOW_WATER : Z := 128 * 1024.

Definition _grant_log_credit (amount : Z) : T unit :=
  payload ← t_lift (credit_message Channel.LOG amount);
  _ ← _send ControlType.CREDIT payload 0;
  modify (λ s, set_log_credit (s_log_credit s + amount) s).

Definition _complete_ready : T unit :=
  announced ← gets s_ready_announced;
  if (announced : bool) then mret tt
  else
    info ← gets s_info;
    _ ← t_lift (raise_if (bool_decide (info = None)) AssertionError "");
    state ← gets s_state;
    state ← t_lift (session_transition state AUTHENTICATED);
    _ ← modify (set_state state);
    credit ← gets s_log_credit;
    _ ← (if (credit : Z) =? 0 then _grant_log_credit LOG_CREDIT_GRANT else mret tt);
    _ ← call_back OnReady;
    _ ← modify (set_ready_announced true);
    _ ← modify (set_ready true);
    modify (set_clock_task true).

(** ** HELLO *)

Section handlers.
(** The link's endpoint, the pairing token, and the clock values the events
    carry: the estimate of a device time, and the host's own times. *)
Context (link_endpoint : string) (pairing_token : option bytes).
Context (estimate_wall_ns : Z → pyval) (clock_uncertainty_us host_receive_ns time_ns : pyval).

Definition same_identity (i j : DeviceInfo) : bool :=
  (device_id i =? device_id j)%string && (boot_id i =? boot_id j).
Definition same_session (i j : DeviceInfo) : bool :=
  (device_id i =? device_id j)%string && (session_id i =? session_id j).

Definition is_reopening (s : session) (info : DeviceInfo) : bool :=
  match s_reopen_session_id s with Some id => negb (session_id info =? id) | None => false end.

(** Lines 360-385: the identity checks and the new session state. *)
Definition adopt_info (s : session) (info : DeviceInfo) : res session :=
  let reopening := is_reopening s info in
  s ← (if reopening then
         _ ← raise_if (match s_info s with Some i => negb (same_identity i info) | None => true end)
               ProtocolError "device identity changed during session reopen";
         Ok (set_last_rx_sequence (repeat None channel_count)
              (set_sequence (repeat 0 channel_count)
                (set_sent (s_sent s ++ [SequenceReset]) (set_reopen_session_id None s))))
       else Ok s);
  _ ← raise_if (match s_info s with
                | Some i => negb reopening && negb (same_session i info)
                | None => false
                end) ProtocolError "device identity/session changed on a live link";
  let s := set_info (Some info) s in
  Ok (if negb (Z.land (capabilities info) Capability.SESSION_REOPEN =? 0) && negb (s_reopen_requested s)
      then set_reopen_session_id (Some (session_id info)) (set_reopen_requested true s)
      else s).

Definition t_update (f : session → res session) : T unit := λ x,
  match f (rd_session x) with
  | Ok s => (Done tt, ReaderState s (rd_answers x) (rd_random x))
  | Err e => (Raised e, x)
  end.

Definition _handle_hello (frame : Frame) : T unit :=
  '(fields, info) ← t_lift (hello_info link_endpoint frame);
  _ ← t_update (λ s, adopt_info s info);
  reopen ← gets s_reopen_session_id;
  let ack_flags := match reopen with Some _ => Z.shiftl 1 5 | None => 0 end in
  if auth_mode info =? 0 then
    _ ← _send ControlType.HELLO_ACK [] ack_flags;
    if ack_flags =? 0 then _complete_ready else mret tt
  else if negb (auth_mode info =? 1) then t_throw ProtocolError "unsupported ESP-Iris auth mode"
  else
    let challenge := tlv_bytes fields TlvTag.AUTH_CHALLENGE in
    if negb (zlen challenge =? 32)
    then t_throw ProtocolError "authenticated HELLO has no 32-byte challenge"
    else match pairing_token with
    | None => _ ← await; t_throw ProtocolError "device requires a pairing token"
    | Some token =>
      nonce ← token_bytes;
      payload ← t_lift (auth_response token (tlv_bytes fields TlvTag.DEVICE_ID) challenge nonce
                          (boot_id info) (session_id info));
      _send ControlType.HELLO_ACK payload ack_flags
    end.

(** ** Logs, events and media *)

Definition opt_info (s : session) (f : DeviceInfo → pyval) : pyval :=
  match s_info s with Some i => f i | None => PNone end.

Definition log_event (s : session) (payload : bytes) : list (string * pyval) := [
  ("kind", PStr "log");
  ("device_id", opt_info s (λ i, PStr (device_id i)));
  ("boot_id", opt_info s (λ i, PInt (boot_id i)));
  ("monotonic_us", PInt (u64_at payload 0));
  ("estimated_wall_ns", estimate_wall_ns (u64_at payload 0));
  ("dropped_bytes", PInt (u32_at payload 8));
  ("source", PStr (if (byte_at payload 12 =? 2)%Z then "stderr" else "stdout"));
  ("flags", PInt (byte_at payload 13));
  ("text", PStr (utf8_decode_replace (slice_from 16 payload)))]%string.

Definition _handle_log (frame : Frame) : T unit :=
  let payload := fr_payload frame in
  _ ← t_lift (raise_if (zlen payload <? 16) ProtocolError "short LOG record");
  _ ← t_lift (raise_if (negb (zlen payload =? 16 + u16_at payload 14)) ProtocolError
                "LOG record length mismatch");
  _ ← modify (λ s, set_log_credit (Z.max 0 (s_log_credit s - zlen payload)) s);
  event ← gets (λ s, log_event s payload);
  _ ← call_back (OnEvent event);
  credit ← gets s_log_credit;
  if credit <? LOG_CREDIT_LOW_WATER then _grant_log_credit LOG_CREDIT_GRANT else mret tt.

Definition job_dict (j : job_status) : list (string * pyval) := [
  ("job_id", PInt (js_job_id j)); ("job_kind", PInt (js_kind j)); ("job_state", PStr (js_state j));
  ("job_state_code", PInt (js_state_code j)); ("cancel_requested", PBool (js_cancel_requested j));
  ("progress_permille", PInt (js_progress_permille j)); ("result", PInt (js_result j))]%string.

Definition job_event (s : session) (j : job_status) : list (string * pyval) :=
  dict_update [
    ("kind", PStr "job");
    ("device_id", opt_info s (λ i, PStr (device_id i)));
    ("boot_id", opt_info s (λ i, PInt (boot_id i)));
    ("session_id", opt_info s (λ i, PInt (session_id i)));
    ("host_receive_monotonic_ns", host_receive_ns);
    ("host_receive_wall_ns", time_ns)]%string (job_dict j).

(** [EventType(type).name.lower()] of a member, "unknown" otherwise. *)
Definition event_name (type : Z) : string :=
  match enum_of_value type : option EventType.EventType_t with
  | Some EventType.BOOT => "boot"
  | Some EventType.HEALTHY => "healthy"
  | Some EventType.PLANNED_RESTART => "planned_restart"
  | Some EventType.LINK_READY => "link_ready"
  | Some EventType.PREVIOUS_BOOT_CRASH => "previous_boot_crash"
  | Some EventType.RECOVERY_ENTERED => "recovery_entered"
  | Some EventType.CORE_DUMP_AVAILABLE => "core_dump_available"
  | Some EventType.CRASH_LOOP_DETECTED => "crash_loop_detected"
  | Some EventType.JOB_UPDATE => "job_update"
  | Some EventType.OTA_READY => "ota_ready"
  | None => "unknown"
  end.

Definition device_event (s : session) (frame : Frame) (fields : gmap Z bytes)
    : list (string * pyval) :=
  let monotonic_us := tlv_u64 fields TlvTag.UPTIME_US 0 in
  let boot := tlv_u64 fields TlvTag.BOOT_ID (match s_info s with Some i => boot_id i | None => 0 end) in
  let device := match s_info s with Some i => device_id i | None => "unknown"%string end in
  [("kind", PStr "device_event"); ("event_type", PInt (fr_type frame));
   ("event_name", PStr (event_name (fr_type frame)));
   ("device_id", opt_info s (λ i, PStr (device_id i))); ("boot_id", PInt boot);
   ("session_id", opt_info s (λ i, PInt (session_id i))); ("monotonic_us", PInt monotonic_us);
   ("estimated_wall_ns", estimate_wall_ns monotonic_us);
   ("host_receive_monotonic_ns", host_receive_ns); ("host_receive_wall_ns", time_ns);
   ("clock_uncertainty_us", clock_uncertainty_us);
   u32_field fields ("reset_reason", TlvTag.RESET_REASON);
   u32_field fields ("crash_count", TlvTag.CRASH_COUNT);
   u32_field fields ("crash_limit", TlvTag.CRASH_LIMIT);
   flag_field fields "crash_recovery_pending" TlvTag.CRASH_RECOVERY_PENDING;
   u32_field fields ("crash_origin_reset_reason", TlvTag.CRASH_ORIGIN_RESET_REASON);
   u32_field fields ("crash_failed_app_address", TlvTag.CRASH_FAILED_APP_ADDRESS);
   ("crash_failed_firmware_sha256", PStr (hex (tlv_bytes fields TlvTag.CRASH_FAILED_FIRMWARE_SHA256)));
   u32_field fields ("crash_state_error", TlvTag.CRASH_STATE_ERROR);
   ("sequence", PInt (fr_sequence frame));
   ("event_id", PStr (device ++ ":" ++ pretty boot ++ ":" ++ pretty monotonic_us ++ ":"
                      ++ pretty (fr_sequence frame)))]%string.

Definition _handle_event (frame : Frame) : T unit :=
  if fr_type frame =? EventType.JOB_UPDATE then
    j ← t_lift (_decode_job (fr_payload frame));
    event ← gets (λ s, job_event s j);
    call_back (OnEvent event)
  else
    fields ← t_lift (decode_tlv (fr_payload frame));
    event ← gets (λ s, device_event s frame fields);
    call_back (OnEvent event).

Definition decode_media (frame : Frame) : res media_event :=
  let p := fr_payload frame in
  if negb (fr_type frame =? MediaType.DATA) || (zlen p <? 36)
  then raise ProtocolError "invalid media data frame"
  else if negb (zlen p =? 36 + u16_at p 18) then raise ProtocolError "media data size mismatch"
  else Ok (MediaEvent (fr_channel frame) (fr_stream_id frame) (u32_at p 8) (u64_at p 0)
             (u32_at p 12) (u16_at p 16)
             (MediaDescription (u16_at p 20) (u16_at p 22) (u16_at p 24) (u16_at p 26)
                (u32_at p 28) (u16_at p 32) (u16_at p 34))
             (slice_from 36 p)).

Definition media_low_water : Z := 64 * 1024.
Definition media_grant : Z := 128 * 1024.

Definition grant_media_credit (channel : Z) : T unit :=
  payload ← t_lift (credit_message channel media_grant);
  _ ← _send ControlType.CREDIT payload 0;
  modify (λ s, act s (AMediaCredit channel media_grant)).

Definition _handle_media (frame : Frame) : T unit :=
  event ← t_lift (decode_media frame);
  let channel := fr_channel frame in
  _ ← modify (λ s, set_media_credit
        (<[Z.to_nat channel := Z.max 0 (seq_of (s_media_credit s) channel - zlen (fr_payload frame))]>
           (s_media_credit s)) s);
  info ← gets s_info;
  _ ← call_back (OnMedia info event);
  credit ← gets (λ s, seq_of (s_media_credit s) channel);
  if credit <? media_low_water then grant_media_credit channel else mret tt.

(** ** Frames *)

(** [_accept_sequence]: the verdict and the new [_last_rx_sequence]. *)
Definition _accept_sequence (s : session) (frame : Frame) : bool * session :=
  let channel := Z.to_nat (fr_channel frame) in
  let accept := set_last_rx_sequence (<[channel := Some (fr_sequence frame)]> (s_last_rx_sequence s)) s in
  match default None (s_last_rx_sequence s !! channel) with
  | None => (true, accept)
  | Some last =>
    let distance := Z.land (fr_sequence frame - last) 0xFFFFFFFF in
    if (distance =? 0) || (0x80000000 <=? distance) then (false, s) else (true, accept)
  end.

Definition device_error (frame : Frame) : exn :=
  Exn RuntimeError "device error" (u32_at (fr_payload frame ++ [0; 0; 0; 0]) 0).

(** The answer of a pending request. *)
Definition resolve (s : session) (i : nat) (frame : Frame) : session :=
  match s_futures s !! i with
  | Some (Future id FWaiting) =>
    let st := if fr_type frame =? ControlType.ERROR then FError (device_error frame) else FResult frame in
    set_futures (<[i := Future id st]> (s_futures s)) s
  | _ => s
  end.

Definition is_hello (frame : Frame) : bool :=
  (fr_channel frame =? Channel.CONTROL) && (fr_type frame =? ControlType.HELLO).
Definition is_auth_result (frame : Frame) : bool :=
  (fr_channel frame =? Channel.CONTROL) && (fr_type frame =? ControlType.AUTH_RESULT).
Definition auth_accepted (frame : Frame) : bool :=
  bool_decide (fr_payload frame = [1]) && (Z.land (fr_flags frame) 0x02 =? 0).

Definition dispatch (frame : Frame) : T unit :=
  pending ← gets s_pending;
  match (if fr_request_id frame =? 0 then None else pending !! fr_request_id frame) with
  | Some i => modify (λ s, resolve s i frame)
  | None =>
    if (fr_channel frame =? Channel.LOG) && (fr_type frame =? 1) then _handle_log frame
    else if fr_channel frame =? Channel.EVENT then _handle_event frame
    else if is_media_channel (fr_channel frame) then _handle_media frame
    else mret tt
  end.

Definition _handle_frame (frame : Frame) : T unit :=
  if is_hello frame then _handle_hello frame
  else
    s ← gets id;
    match s_reopen_session_id s, s_info s with
    | Some _, _ => mret tt
    | None, None => mret tt
    | None, Some info =>
      if negb (fr_session_id frame =? session_id info) then mret tt
      else
        if negb (fst (_accept_sequence s frame)) then mret tt
        else
          _ ← modify (λ s, snd (_accept_sequence s frame));
          if is_auth_result frame then
            _ ← t_lift (raise_if (negb (auth_accepted frame)) ProtocolError
                          "ESP-Iris pairing proof was rejected");
            _complete_ready
          else dispatch frame
    end.

(** ** run *)

Fixpoint handle_frames (frames : list Frame) : T unit :=
  match frames with
  | [] => mret tt
  | f :: frames => _ ← _handle_frame f; handle_frames frames
  end.

(** A read of the link: what the others did meanwhile, and its result. *)
Definition link_read := (list action * res bytes)%type.

(** [while not self._closed], over the reads to come. *)
Fixpoint read_loop (decoder : FrameDecoder) (reads : list link_read) : T unit :=
  closed ← gets s_closed;
  if (closed : bool) then mret tt
  else
    match reads with
    | [] => t_blocked
    | (acts, r) :: reads =>
      _ ← modify (λ s, others s acts);
      data ← t_lift r;
      if is_nil data then t_throw ConnectionError "ESP-Iris link closed"
      else
        let '(decoder, frames) := feed decoder data in
        _ ← handle_frames frames;
        read_loop decoder reads
    end.

(** The [finally] clause: the state changes, then the awaits of the clock
    task's cancellation and of [link.close]. *)
Definition clean_up : T unit :=
  _ ← modify mark_closed;
  clock ← gets s_clock_task;
  t_finally (if (clock : bool) then await else mret tt) await.

Definition run (reads : list link_read) : T unit :=
  t_finally (read_loop FrameDecoder_init reads) clean_up.
End handlers.

(** ** Reasoning about the reading task

    [twp m Q s]: whatever the environment answers, [m] started in the session
    [s] ends with an outcome and a session that satisfy [Q]. *)

Definition twp {A} (m : T A) (Q : outcome A → session → Prop) (s : session) : Prop :=
  ∀ answers random, let r := m (ReaderState s answers random) in Q (fst r) (rd_session (snd r)).

Lemma twp_mono {A} (m : T A) (P Q : outcome A → session → Prop) s :
  twp m P s → (∀ o s', P o s' → Q o s') → twp m Q s.
Proof. intros H HPQ answers random. apply HPQ, H. Qed.

Lemma twp_ret {A} (a : A) (Q : outcome A → session → Prop) s : Q (Done a) s → twp (mret a) Q s.
Proof. intros H answers random. exact H. Qed.

Lemma twp_bind {A B} (m : T A) (f : A → T B) (Q : outcome B → session → Prop) s :
  twp m (λ o s', match o with
    | Done a => twp (f a) Q s'
    | Raised e => Q (Raised e) s'
    | Blocked => Q Blocked s'
    end) s → twp (m ≫= f) Q s.
Proof.
  intros H answers random. specialize (H answers random). unfold mbind, T_bind.
  destruct (m _) as [[a|e|] [s' ans rnd]]; simpl in *; [apply H | exact H | exact H].
Qed.

Lemma twp_lift {A} (r : res A) (Q : outcome A → session → Prop) s :
  (∀ a, r = Ok a → Q (Done a) s) → (∀ e, r = Err e → Q (Raised e) s) → twp (t_lift r) Q s.
Proof. intros HO HE answers random. unfold t_lift. destruct r; simpl; auto. Qed.

Lemma twp_gets {A} (f : session → A) (Q : outcome A → session → Prop) s :
  Q (Done (f s)) s → twp (gets f) Q s.
Proof. intros H answers random. exact H. Qed.

Lemma twp_modify f (Q : outcome unit → session → Prop) s :
  Q (Done tt) (f s) → twp (modify f) Q s.
Proof. intros H answers random. exact H. Qed.

Lemma twp_await (Q : outcome unit → session → Prop) s :
  Q Blocked s → (∀ acts, Q (Done tt) (others s acts) ∧ ∀ e, Q (Raised e) (others s acts)) →
  twp await Q s.
Proof.
  intros Hb H [|[acts r] answers] random; [exact Hb |].
  unfold await. simpl. destruct (H acts) as [Hd He]. destruct r as [[]|e]; simpl; [exact Hd | apply He].
Qed.

(** A preorder on sessions that every step of a computation respects. *)
Definition keeps {A} (R : session → session → Prop) (m : T A) : Prop :=
  ∀ s, twp m (λ _ s', R s s') s.

Section keeps.
Context (R : session → session → Prop) (Hrefl : ∀ s, R s s)
  (Htrans : ∀ s1 s2 s3, R s1 s2 → R s2 s3 → R s1 s3).
Context (Hact : ∀ s a, R s (act s a)).

Lemma keeps_others s acts : R s (others s acts).
Proof.
  revert s. induction acts as [|a acts IH]; intros s; [apply Hrefl |].
  eapply Htrans; [apply Hact | apply IH].
Qed.

Lemma keeps_ret {A} (a : A) : keeps R (mret a).
Proof. intros s. apply twp_ret, Hrefl. Qed.
Lemma keeps_lift {A} (r : res A) : keeps R (t_lift r).
Proof. intros s. by apply twp_lift. Qed.
Lemma keeps_gets {A} (f : session → A) : keeps R (gets f).
Proof. intros s. apply twp_gets, Hrefl. Qed.
Lemma keeps_blocked {A} : keeps R (t_blocked : T A).
Proof. intros s answers random. apply Hrefl. Qed.
Lemma keeps_modify f : (∀ s, R s (f s)) → keeps R (modify f).
Proof. intros H s. apply twp_modify, H. Qed.
Lemma keeps_bind {A B} (m : T A) (f : A → T B) : keeps R m → (∀ a, keeps R (f a)) → keeps R (m ≫= f).
Proof.
  intros Hm Hf s. apply twp_bind. eapply twp_mono; [apply Hm |].
  intros [a|e|] s' Hs; [| done | done].
  eapply twp_mono; [apply Hf |]. intros o s2 H2. by eapply Htrans.
Qed.
Lemma keeps_assoc {A B C} (m : T A) (f : A → T B) (g : B → T C) :
  keeps R ((m ≫= f) ≫= g) → keeps R (m ≫= λ a, f a ≫= g).
Proof.
  intros H s answers random. specialize (H s answers random). revert H.
  unfold mbind, T_bind. by destruct (m _) as [[a|e|] x].
Qed.
Lemma keeps_await : keeps R await.
Proof. intros s. apply twp_await; [apply Hrefl |]. intros acts. split; [| intros e]; apply keeps_others. Qed.
Lemma keeps_token : keeps R token_bytes.
Proof. intros s answers [|b random]; apply Hrefl. Qed.
Lemma keeps_update f : (∀ s s', f s = Ok s' → R s s') → keeps R (t_update f).
Proof.
  intros H s answers random. unfold t_update. simpl. destruct (f s) eqn:E; simpl; [by apply H | apply Hrefl].
Qed.
Lemma keeps_finally {A} (m : T A) fin : keeps R m → keeps R fin → keeps R (t_finally m fin).
Proof.
  intros Hm Hf s answers random. specialize (Hm s answers random). unfold t_finally.
  destruct (m _) as [[a|e|] [s' ans rnd]]; simpl in *; [| | done];
    (eapply Htrans; [exact Hm |]).
  - pose proof (keeps_bind fin (λ _, mret a) Hf (λ _, keeps_ret a) s' ans rnd) as H. exact H.
  - pose proof (keeps_bind fin (λ _, t_lift (Err e) : T A) Hf (λ _, keeps_lift _) s' ans rnd) as H. exact H.
Qed.

Context (Hlock : ∀ s o, R s (set_write_lock o s)) (Hwrite : ∀ s p, R s (fst (start_write p s))).

Lemma keeps_acquire : keeps R acquire.
Proof.
  intros s answers random. unfold acquire. simpl. destruct (s_write_lock s); [| apply Hlock].
  destruct answers as [|[acts r] answers]; simpl; [apply Hrefl |].
  destruct r as [u|e]; simpl; [| apply keeps_others].
  destruct (s_write_lock (others s acts)); simpl; [apply keeps_others |].
  eapply Htrans; [apply keeps_others | apply Hlock].
Qed.

Lemma keeps_locked_write p : keeps R (locked_write p).
Proof.
  intros s answers random. unfold locked_write. simpl. pose proof (Hwrite s p) as Hw.
  destruct (start_write p s) as [s' r]. cbn [fst] in Hw. eapply Htrans; [exact Hw |].
  exact (keeps_bind (t_lift r) (λ _, await) (keeps_lift r) (λ _, keeps_await) s' answers random).
Qed.

Lemma keeps_releasing m : keeps R m → keeps R (releasing m).
Proof.
  intros Hm s answers random. specialize (Hm s answers random). unfold releasing.
  destruct (m _) as [[a|e|] [s' ans rnd]]; simpl in *; [| | done]; (eapply Htrans; [exact Hm | apply Hlock]).
Qed.

Lemma keeps_send type payload flags : keeps R (_send type payload flags).
Proof.
  unfold _send. apply keeps_bind; [apply keeps_gets |]. intros sid.
  apply keeps_bind; [apply keeps_acquire |]. intros []. apply keeps_releasing, keeps_locked_write.
Qed.

Context (Hnotice : ∀ s n, R s (set_notices (s_notices s ++ [n]) s)).

Lemma keeps_call_back n : keeps R (call_back n).
Proof.
  unfold call_back. apply keeps_bind; [| intros []; apply keeps_await].
  apply keeps_modify. intros s. apply Hnotice.
Qed.
End keeps.

(** A preorder that every step respects except those of [_complete_ready],
    [adopt_info], [_accept_sequence] and the log credit. *)
Record respects (R : session → session → Prop) : Prop := {
  re_refl : ∀ s, R s s;
  re_trans : ∀ s1 s2 s3, R s1 s2 → R s2 s3 → R s1 s3;
  re_act : ∀ s a, R s (act s a);
  re_lock : ∀ s o, R s (set_write_lock o s);
  re_write : ∀ s p, R s (fst (start_write p s));
  re_notice : ∀ s n, R s (set_notices (s_notices s ++ [n]) s);
  re_media : ∀ s l, R s (set_media_credit l s);
  re_resolve : ∀ s i f, (fr_request_id f ≠ 0 → s_pending s !! fr_request_id f = Some i → R s (resolve s i f));
}.

(** Follow the structure of a computation that respects [HR]. *)
Ltac respected_by HR :=
  solve [intros; first
    [ apply (re_refl _ HR) | eapply (re_trans _ HR); eassumption | apply (re_act _ HR)
    | apply (re_lock _ HR) | apply (re_write _ HR) | apply (re_notice _ HR)
    | apply (re_media _ HR) ]].
Ltac keeps_step HR :=
  intros;
  first
    [ apply keeps_send | apply keeps_call_back | apply keeps_await | apply keeps_token
    | apply keeps_modify | apply keeps_gets | apply keeps_lift
    | match goal with
      | |- keeps _ (mret _) => apply keeps_ret
      | |- keeps _ t_blocked => apply keeps_blocked
      | |- keeps _ (_ ≫= _) => apply keeps_bind
      end ];
  try respected_by HR.
Ltac keeps_by HR := repeat keeps_step HR; intros.

Section handlers_keep.
Context (R : session → session → Prop) (HR : respects R).
Context (link_endpoint : string) (pairing_token : option bytes).
Context (estimate_wall_ns : Z → pyval) (clock_uncertainty_us host_receive_ns time_ns : pyval).

Ltac respected := respected_by HR.
Ltac keeps := keeps_by HR.

Lemma keeps_event f : keeps R (_handle_event estimate_wall_ns clock_uncertainty_us host_receive_ns time_ns f).
Proof. unfold _handle_event. destruct (_ =? _); keeps. Qed.

Lemma keeps_media f : keeps R (_handle_media f).
Proof.
  unfold _handle_media, grant_media_credit. keeps. destruct (_ <? _); keeps.
Qed.

Lemma keeps_topup_of :
  keeps R (_grant_log_credit LOG_CREDIT_GRANT) →
  keeps R (credit ← gets s_log_credit;
    if credit <? LOG_CREDIT_LOW_WATER then _grant_log_credit LOG_CREDIT_GRANT else mret tt).
Proof. intros Hcredit. keeps. by destruct (_ <? _); [apply Hcredit | keeps]. Qed.

Lemma keeps_log_of f :
  keeps R (credit ← gets s_log_credit;
    if credit <? LOG_CREDIT_LOW_WATER then _grant_log_credit LOG_CREDIT_GRANT else mret tt) →
  (∀ s n, 0 ≤ n → R s (set_log_credit (Z.max 0 (s_log_credit s - n)) s)) →
  keeps R (_handle_log estimate_wall_ns f).
Proof.
  intros Htop Hlog. unfold _handle_log.
  do 2 (apply keeps_bind; [respected | keeps | intros []]).
  apply keeps_bind; [respected | apply keeps_modify | intros []].
  { intros s. apply Hlog, zlen_nonneg. }
  do 2 (apply keeps_bind; [respected | keeps | intros ?]). apply Htop.
Qed.

Context (keeps_log : ∀ f, keeps R (_handle_log estimate_wall_ns f)).
Context (Hcomplete : keeps R _complete_ready).
Context (Hadopt : ∀ s info s', adopt_info s info = Ok s' → R s s').

Lemma keeps_hello f : keeps R (_handle_hello link_endpoint pairing_token f).
Proof.
  unfold _handle_hello. apply keeps_bind; [respected | keeps |]. intros [fields info].
  apply keeps_bind; [respected | |].
  { apply keeps_update; [respected |]. intros s s'. apply Hadopt. }
  intros []. keeps. destruct (auth_mode info =? 0).
  { keeps. destruct (_ =? 0); [apply Hcomplete | keeps]. }
  destruct (negb _); [keeps |]. destruct (negb _); [keeps |]. destruct pairing_token; keeps.
Qed.

Lemma dispatch_keeps s f : 
  twp (dispatch estimate_wall_ns clock_uncertainty_us host_receive_ns time_ns f) (λ _ s', R s s') s.
Proof.
  unfold dispatch. apply twp_bind, twp_gets.
  destruct (if _ =? 0 then None else _) as [i|] eqn:Hp.
  - apply twp_modify. destruct (Z.eqb_spec (fr_request_id f) 0); [discriminate Hp |].
    by apply (re_resolve R HR).
  - destruct (_ && _); [exact (keeps_log f s) |].
    destruct (fr_channel f =? Channel.EVENT); [exact (keeps_event f s) |].
    destruct (is_media_channel _); [exact (keeps_media f s) | apply twp_ret, (re_refl R HR)].
Qed.

Context (Hrx : ∀ s l, R s (set_last_rx_sequence l s)).

Lemma keeps_handle_frame f :
  keeps R (_handle_frame link_endpoint pairing_token estimate_wall_ns clock_uncertainty_us
             host_receive_ns time_ns f).
Proof.
  unfold _handle_frame. destruct (is_hello f); [apply keeps_hello |].
  keeps. destruct (s_reopen_session_id _); [keeps |]. destruct (s_info _); [| keeps].
  destruct (negb _); [keeps |]. destruct (negb _); [keeps |]. keeps.
  { unfold _accept_sequence. repeat case_match; respected || apply Hrx. }
  destruct (is_auth_result f); [keeps; apply Hcomplete |]. intros s. apply dispatch_keeps.
Qed.

Lemma keeps_handle_frames fs :
  keeps R (handle_frames link_endpoint pairing_token estimate_wall_ns clock_uncertainty_us
             host_receive_ns time_ns fs).
Proof.
  induction fs as [|f fs IH]; cbn [handle_frames]; [keeps |].
  apply keeps_bind; [respected | apply keeps_handle_frame | intros; apply IH].
Qed.

Lemma keeps_read_loop reads : ∀ decoder,
  keeps R (read_loop link_endpoint pairing_token estimate_wall_ns clock_uncertainty_us
             host_receive_ns time_ns decoder reads).
Proof.
  induction reads as [|[acts r] reads IH]; intros decoder; cbn [read_loop]; keeps;
    destruct a; keeps.
  { apply keeps_others; respected. }
  destruct (is_nil _); [keeps |]. destruct (feed _ _) as [decoder' frames].
  apply keeps_bind; [respected | apply keeps_handle_frames | intros; apply IH].
Qed.

Lemma keeps_clean_up : keeps R clean_up.
Proof.
  unfold clean_up. keeps; [apply (re_act R HR _ AClose) |].
  apply keeps_finally; [respected | apply HR | destruct a0; keeps | keeps].
Qed.

Lemma keeps_run reads :
  keeps R (run link_endpoint pairing_token estimate_wall_ns clock_uncertainty_us
             host_receive_ns time_ns reads).
Proof.
  unfold run. apply keeps_finally; [respected | apply HR | apply keeps_read_loop | apply keeps_clean_up].
Qed.
End handlers_keep.

(** [_complete_ready], given its assignments and its grant of credit. *)
Lemma complete_keeps R : respects R →
  (∀ s v, R s (set_state v s)) → (∀ s, R s (set_ready_announced true s)) →
  (∀ s, R s (set_ready true s)) → (∀ s, R s (set_clock_task true s)) →
  keeps R (_grant_log_credit LOG_CREDIT_GRANT) → keeps R _complete_ready.
Proof.
  intros HR Hs Ha Hr Hc Hg. unfold _complete_ready. keeps_by HR.
  destruct a; keeps_by HR; try done. by destruct (_ =? 0); [| keeps_by HR].
Qed.

(** Granting credit, given the send and the assignment. *)
Lemma grant_keeps R amount : respects R → (∀ s v, R s (set_log_credit v s)) →
  keeps R (_grant_log_credit amount).
Proof. intros HR Hl. unfold _grant_log_credit. keeps_by HR. apply Hl. Qed.
