(* ===== verification/ScreenFrames.v ===== *)
(** * A frame of the screen ([_next_complete_screen_frame] in [hub.py])

    A mirrored screen arrives in tiles: horizontal stripes of raw pixels that
    belong to a frame, mixed with those of other streams and of frames whose
    start was missed, or whole frames that are compressed.  The hub puts the
    stripes of one frame together. *)
From S2P Require Import Prelude SessionOps Session.

Definition RAW_MEDIA_FORMATS : list Z := [1; 2].
Definition ENCODED_MEDIA_FORMATS : list Z := [3; 4].
Definition is_raw (format_ : Z) : bool := existsb (Z.eqb format_) RAW_MEDIA_FORMATS.
Definition is_encoded (format_ : Z) : bool := existsb (Z.eqb format_) ENCODED_MEDIA_FORMATS.

(** ** Assembling *)

(** The variables of [receive]. *)
Record frame_state := FrameState { fs_frame_id : option Z; fs_next_y : Z; fs_data : bytes }.

Section receive.
(** The description of the stream, and its number. *)
Context (full : media_description) (stream_id : option Z).

Definition check_full : res () :=
  if negb (is_raw (md_format full) || is_encoded (md_format full)) then raise ValueError "unsupported screen mirror format"
  else if (md_width full <=? 0) || (md_height full <=? 0) || (is_raw (md_format full) && (md_stride full <=? 0))
  then raise ValueError "screen mirror has an empty frame description"
  else Ok ().

Definition receive_init : frame_state := FrameState None (md_y full) [].

(** What one event makes of the variables, or the result. *)
Definition receive_event (st : frame_state) (event : media_event) : frame_state + res (media_description * bytes) :=
  let tile := me_description event in
  let payload := me_data event in
  if match stream_id with Some n => negb (me_stream_id event =? n) | None => false end then inl st
  else if is_encoded (md_format tile) then if is_nil payload then inl st else inr (Ok (tile, payload))
  else if negb (md_format tile =? md_format full) then inl st
  else
    let st := if md_y tile =? md_y full then FrameState (Some (me_frame_id event)) (md_y full) [] else st in
    if negb (bool_decide (fs_frame_id st = Some (me_frame_id event))) || negb (md_y tile =? fs_next_y st) then inl st
    else if negb (md_x tile =? md_x full) || negb (md_width tile =? md_width full)
            || negb (md_stride tile =? md_stride full) || (md_height tile <=? 0)
            || negb (zlen payload =? md_stride full * md_height tile)
    then inr (raise ValueError "screen mirror tile does not match the frame description")
    else
      let data := fs_data st ++ payload in
      let next_y := fs_next_y st + md_height tile in
      if next_y =? md_y full + md_height full then
        if negb (zlen data =? md_stride full * md_height full)
        then inr (raise ValueError "assembled screen frame has an invalid size")
        else inr (Ok (full, data))
      else if md_y full + md_height full <? next_y
      then inr (raise ValueError "screen mirror tile exceeds the frame boundary")
      else inl (FrameState (fs_frame_id st) next_y data).

(** The events that have arrived: the result, or the variables in which it
    waits for the next one. *)
Fixpoint receive (st : frame_state) (events : list media_event) : frame_state + res (media_description * bytes) :=
  match events with
  | [] => inl st
  | event :: events =>
    match receive_event st event with inl st => receive st events | inr r => inr r end
  end.

(** With the error that ends the wait when nothing more arrives in time. *)
Definition _next_complete_screen_frame (events : list media_event) (timeout : exn) : res (media_description * bytes) :=
  _ ← check_full;
  match receive receive_init events with inl _ => Err timeout | inr r => r end.

(** ** What a frame is *)

Definition of_stream (event : media_event) : bool :=
  match stream_id with Some n => me_stream_id event =? n | None => true end.
(** A stripe of frame [frame] at [y] that fits the description. *)
Record stripe (frame y : Z) (event : media_event) : Prop := {
  sp_stream : of_stream event = true;
  sp_format : md_format (me_description event) = md_format full;
  sp_frame : me_frame_id event = frame;
  sp_y : md_y (me_description event) = y;
  sp_x : md_x (me_description event) = md_x full;
  sp_width : md_width (me_description event) = md_width full;
  sp_stride : md_stride (me_description event) = md_stride full;
  sp_height : 0 < md_height (me_description event);
  sp_data : zlen (me_data event) = md_stride full * md_height (me_description event);
}.
(** Stripes of one frame that follow one another from [y] to [bottom]. *)
Inductive stripes (frame : Z) : Z → Z → list media_event → Prop :=
| stripes_nil y : stripes frame y y []
| stripes_cons y bottom event events : stripe frame y event →
    stripes frame (y + md_height (me_description event)) bottom events → stripes frame y bottom (event :: events).
Definition pixels (events : list media_event) : bytes := concat (map me_data events).

Lemma stripes_snoc frame y z events event : stripes frame y z events → stripe frame z event →
  stripes frame y (z + md_height (me_description event)) (events ++ [event]).
Proof. induction 1; intros He; cbn; constructor; auto using stripes_nil. Qed.
Lemma stripes_size frame y z events : stripes frame y z events →
  y ≤ z ∧ zlen (pixels events) = md_stride full * (z - y).
Proof.
  induction 1 as [y|y z event events He _ [IH1 IH2]]; [split; [lia | rewrite Z.sub_diag, Z.mul_0_r; done] |].
  destruct He. unfold pixels in *. cbn [map concat].
  rewrite zlen_app, IH2, sp_data0. split; [lia | ring].
Qed.
(** No stripes are left over at the bottom. *)
Lemma stripes_end frame y ss : stripes frame y y ss → ss = [].
Proof.
  inversion 1 as [|? ? event ? [] Hs]; [done |]. pose proof (stripes_size _ _ _ _ Hs). lia.
Qed.

(** *** An answer is a frame *)

(** The stripes gathered so far. *)
Definition gathered (seen : list media_event) (st : frame_state) : Prop :=
  match fs_frame_id st with
  | None => fs_data st = []
  | Some frame => ∃ events, events `sublist_of` seen ∧ stripes frame (md_y full) (fs_next_y st) events
                   ∧ fs_data st = pixels events
  end.
Definition answer_ok (seen : list media_event) (d : media_description) (data : bytes) : Prop :=
  (∃ event, event ∈ seen ∧ of_stream event = true ∧ is_encoded (md_format d) = true ∧ data ≠ []
    ∧ d = me_description event ∧ data = me_data event)
  ∨ (d = full ∧ zlen data = md_stride full * md_height full
     ∧ ∃ frame events, events `sublist_of` seen ∧ stripes frame (md_y full) (md_y full + md_height full) events
       ∧ data = pixels events).

Lemma gathered_more seen more st : gathered seen st → gathered (seen ++ more) st.
Proof.
  unfold gathered. destruct (fs_frame_id st); [| done]. intros (events & Hs & H). exists events. split; [| done].
  by apply sublist_inserts_r.
Qed.

Lemma answer_more seen more d data : answer_ok seen d data → answer_ok (seen ++ more) d data.
Proof.
  intros [(event & Hin & H) | (Hd & Hsize & frame & events & Hs & H)]; [left | right].
  - exists event. split; [| done]. apply elem_of_app. by left.
  - split_and!; [done | done |]. exists frame, events. split; [| done]. by apply sublist_inserts_r.
Qed.

(** One event keeps what was gathered, or answers with a frame. *)
Lemma receive_event_ok seen st event : gathered seen st →
  match receive_event st event with
  | inl st' => gathered (seen ++ [event]) st'
  | inr (Ok (d, data)) => answer_ok (seen ++ [event]) d data
  | inr (Err e) => exn_cls e = ValueError
  end.
Proof.
  intros Hg. pose proof (gathered_more _ [event] _ Hg) as Hkeep. unfold receive_event.
  destruct (match stream_id with Some n => negb (me_stream_id event =? n) | None => false end) eqn:Hstream; [exact Hkeep |].
  assert (Hof : of_stream event = true).
  { unfold of_stream. destruct stream_id; [by apply negb_false_iff in Hstream | done]. }
  destruct (is_encoded (md_format (me_description event))) eqn:Henc.
  { destruct (is_nil (me_data event)) eqn:Hnil; [exact Hkeep |]. left. exists event.
    split_and!; [by apply elem_of_app; right; left | done | done | by destruct (me_data event) | done | done]. }
  destruct (Z.eqb_spec (md_format (me_description event)) (md_format full)) as [Hformat |]; cbn [negb]; [| exact Hkeep].
  set (st1 := if md_y (me_description event) =? md_y full then _ else st).
  assert (Hg1 : gathered seen st1).
  { unfold st1. destruct (_ =? _); [| exact Hg]. exists []. split_and!; [apply sublist_nil_l | constructor | done]. }
  clearbody st1. clear Hkeep Hg st. pose proof (gathered_more _ [event] _ Hg1) as Hkeep.
  destruct (bool_decide _) eqn:Hframe; cbn [negb orb]; [| exact Hkeep]. apply bool_decide_eq_true in Hframe.
  destruct (Z.eqb_spec (md_y (me_description event)) (fs_next_y st1)) as [Hy |]; cbn [negb]; [| exact Hkeep].
  destruct (Z.eqb_spec (md_x (me_description event)) (md_x full)); cbn [negb orb]; [| done].
  destruct (Z.eqb_spec (md_width (me_description event)) (md_width full)); cbn [negb orb]; [| done].
  destruct (Z.eqb_spec (md_stride (me_description event)) (md_stride full)); cbn [negb orb]; [| done].
  destruct (Z.leb_spec (md_height (me_description event)) 0); cbn [negb orb]; [done |].
  destruct (Z.eqb_spec (zlen (me_data event)) (md_stride full * md_height (me_description event))); cbn [negb orb]; [| done].
  unfold gathered in Hg1. rewrite Hframe in Hg1. destruct Hg1 as (events & Hsub & Hstripes & Hdata).
  assert (He : stripe (me_frame_id event) (fs_next_y st1) event) by (by split).
  pose proof (stripes_snoc _ _ _ _ _ Hstripes He) as Hall.
  assert (Hsub' : (events ++ [event]) `sublist_of` (seen ++ [event])) by (by apply sublist_app).
  assert (Hpix : fs_data st1 ++ me_data event = pixels (events ++ [event])).
  { unfold pixels in *. by rewrite map_app, concat_app, Hdata; cbn; rewrite app_nil_r. }
  destruct (Z.eqb_spec (fs_next_y st1 + md_height (me_description event)) (md_y full + md_height full)) as [Hend |].
  - destruct (negb _) eqn:Hsize; [done |]. apply negb_false_iff, Z.eqb_eq in Hsize. right. split_and!; [done | done |].
    exists (me_frame_id event), (events ++ [event]). rewrite <- Hend. done.
  - destruct (Z.ltb _ _); [done |]. unfold gathered. cbn [fs_frame_id fs_next_y fs_data]. rewrite Hframe.
    exists (events ++ [event]). done.
Qed.
Lemma receive_ok events seen st : gathered seen st →
  match receive st events with
  | inl st' => gathered (seen ++ events) st'
  | inr (Ok (d, data)) => answer_ok (seen ++ events) d data
  | inr (Err e) => exn_cls e = ValueError
  end.
Proof.
  revert seen st. induction events as [|event events IH]; intros seen st Hg; cbn [receive]; [by rewrite app_nil_r |].
  pose proof (receive_event_ok seen st event Hg) as H. destruct (receive_event st event) as [st'|[[d data]|e]].
  - specialize (IH _ _ H). by rewrite <- app_assoc in IH.
  - replace (seen ++ event :: events) with ((seen ++ [event]) ++ events) by (by rewrite <- app_assoc).
    by apply answer_more.
  - done.
Qed.

(** *** A frame is answered *)

(** What is passed over while stripes of [frame] are gathered: other streams,
    compressed tiles without data, other formats, and tiles of other frames
    that do not begin them. *)
Definition passed_over (frame : Z) (event : media_event) : bool :=
  negb (of_stream event)
  || (if is_encoded (md_format (me_description event)) then is_nil (me_data event)
      else negb (md_format (me_description event) =? md_format full)
           || (negb (md_y (me_description event) =? md_y full) && negb (me_frame_id event =? frame))).
(** The stripes, in order, among events that are passed over. *)
Inductive among (frame : Z) : list media_event → list media_event → Prop :=
| among_nil : among frame [] []
| among_stripe event ss events : among frame ss events → among frame (event :: ss) (event :: events)
| among_other event ss events : passed_over frame event = true → among frame ss events → among frame ss (event :: events).

Lemma passed_over_step frame st event : fs_frame_id st = Some frame → passed_over frame event = true →
  receive_event st event = inl st.
Proof.
  intros Hst H. unfold passed_over, of_stream in H. unfold receive_event.
  destruct (match stream_id with Some n => negb (me_stream_id event =? n) | None => false end) eqn:Hs; [done |].
  assert (Hs' : negb (match stream_id with Some n => me_stream_id event =? n | None => true end) = false)
    by (by destruct stream_id).
  rewrite Hs' in H. cbn [orb] in H. destruct (is_encoded _); [by rewrite H |].
  destruct (negb (md_format _ =? _)); [done |]. cbn [orb] in H. apply andb_prop in H as [Hy Hf].
  apply negb_true_iff in Hy, Hf. rewrite Hy, Hst, bool_decide_eq_false_2; [done |].
  intros [= ->]. by rewrite Z.eqb_refl in Hf.
Qed.
(** A stripe where the gathered ones end, or the first of its frame. *)
Lemma stripe_step frame y st event : is_raw (md_format full) = true → stripe frame y event →
  y + md_height (me_description event) ≤ md_y full + md_height full →
  y = md_y full ∨ (fs_frame_id st = Some frame ∧ fs_next_y st = y ∧ zlen (fs_data st) = md_stride full * (y - md_y full)) →
  receive_event st event =
    let data := (if y =? md_y full then [] else fs_data st) ++ me_data event in
    let next_y := y + md_height (me_description event) in
    if next_y =? md_y full + md_height full then inr (Ok (full, data)) else inl (FrameState (Some frame) next_y data).
Proof.
  intros Hraw [] Hbot Hst. unfold receive_event. unfold of_stream in sp_stream0.
  replace (match stream_id with Some n => negb (me_stream_id event =? n) | None => false end) with false
    by (by destruct stream_id; [rewrite sp_stream0 |]).
  assert (Henc : is_encoded (md_format full) = false).
  { unfold is_raw, is_encoded in *. cbn [existsb RAW_MEDIA_FORMATS ENCODED_MEDIA_FORMATS] in *. lia. }
  rewrite sp_format0, Henc, Z.eqb_refl, sp_y0, sp_x0, sp_width0, sp_stride0, sp_data0, !Z.eqb_refl. cbn [negb].
  set (st1 := if y =? md_y full then _ else st).
  assert (H1 : st1 = FrameState (Some frame) y (if y =? md_y full then [] else fs_data st)
               ∧ zlen (fs_data st1) = md_stride full * (y - md_y full)).
  { unfold st1. destruct (Z.eqb_spec y (md_y full)) as [-> |].
    - rewrite sp_frame0, Z.sub_diag, Z.mul_0_r. done.
    - destruct Hst as [? | (Hf & Hn & Hd)]; [done |]. destruct st. cbn in *. by subst. }
  destruct H1 as [H1 Hlen]. clearbody st1. subst st1. cbn [fs_frame_id fs_next_y fs_data] in *.
  rewrite sp_frame0, bool_decide_eq_true_2, Z.eqb_refl by done. cbn [negb orb].
  rewrite (proj2 (Z.leb_gt _ _) sp_height0). cbn [orb].
  destruct (Z.eqb_spec (y + md_height (me_description event)) (md_y full + md_height full)) as [Hend |].
  - rewrite zlen_app, Hlen, sp_data0.
    replace (_ =? _) with true; [done |]. symmetry. apply Z.eqb_eq. rewrite <- Z.mul_add_distr_l. f_equal. lia.
  - destruct (Z.ltb_spec (md_y full + md_height full) (y + md_height (me_description event))); [lia | done].
Qed.
Lemma receive_rest frame ss events rest : among frame ss events → ∀ y st,
  is_raw (md_format full) = true → stripes frame y (md_y full + md_height full) ss → ss ≠ [] →
  fs_frame_id st = Some frame → fs_next_y st = y → md_y full < y →
  zlen (fs_data st) = md_stride full * (y - md_y full) →
  receive st (events ++ rest) = inr (Ok (full, fs_data st ++ pixels ss)).
Proof.
  induction 1 as [|event ss events Ham IH|event ss events Hp Ham IH]; intros y st Hraw Hss Hne Hf Hn Hy Hlen; [done | |].
  - inversion Hss as [|? ? ? ? He Hrest]; subst. pose proof (stripes_size _ _ _ _ Hrest) as [Hle _].
    cbn [app receive]. rewrite (stripe_step frame (fs_next_y st) st event Hraw He Hle) by (right; done).
    rewrite (proj2 (Z.eqb_neq _ _)) by lia. cbn zeta. destruct He.
    destruct (Z.eqb_spec (fs_next_y st + md_height (me_description event)) (md_y full + md_height full)) as [Hend | Hnend].
    + rewrite Hend in Hrest. rewrite (stripes_end _ _ _ Hrest). unfold pixels. cbn. by rewrite app_nil_r.
    + rewrite (IH _ _ Hraw Hrest); cbn [fs_frame_id fs_next_y fs_data]; [| | done | done | |].
      * unfold pixels. cbn [map concat]. by rewrite app_assoc.
      * intros ->. by inversion Hrest.
      * lia.
      * rewrite zlen_app, Hlen, sp_data0. ring.
  - cbn [app receive]. rewrite (passed_over_step _ _ _ Hf Hp). by apply (IH y).
Qed.

(** Whatever was gathered of other frames before. *)
Lemma receive_complete frame st first ss events rest : is_raw (md_format full) = true →
  stripes frame (md_y full) (md_y full + md_height full) (first :: ss) → among frame ss events →
  receive st (first :: events ++ rest) = inr (Ok (full, pixels (first :: ss))).
Proof.
  intros Hraw Hss Ham. inversion Hss as [|? ? ? ? He Hrest]; subst. pose proof (stripes_size _ _ _ _ Hrest) as [Hle _].
  cbn [receive]. rewrite (stripe_step frame (md_y full) st first Hraw He Hle) by (by left). rewrite Z.eqb_refl. cbn zeta.
  destruct He. destruct (Z.eqb_spec (md_y full + md_height (me_description first)) (md_y full + md_height full)) as [Hend |].
  - rewrite Hend in Hrest. rewrite (stripes_end _ _ _ Hrest). unfold pixels. cbn. by rewrite app_nil_r.
  - rewrite (receive_rest frame ss events rest Ham _ _ Hraw Hrest); cbn [fs_frame_id fs_next_y fs_data app]; try done; [| lia |].
    + intros ->. by inversion Hrest.
    + rewrite sp_data0. f_equal. lia.
Qed.
End receive.

Lemma receive_app full stream_id before events st st' : receive full stream_id st before = inl st' →
  receive full stream_id st (before ++ events) = receive full stream_id st' events.
Proof.
  revert st. induction before as [|event before IH]; intros st; cbn [receive app]; [by intros [= ->] |].
  destruct (receive_event _ _ _ _); [apply IH | done].
Qed.

(** C34: what the hub answers as a frame of the screen is a frame, and a frame
    that arrives is answered.  Whatever the events before and between, an
    answer is either a compressed tile of the stream as it arrived, or stripes
    of a single frame of the stream, in order and without a gap from the top
    of the described area to its bottom, with exactly its number of bytes; and
    when, with no answer so far, the stripes of a frame arrive in order among
    events that concern other streams, formats and frames, their pixels are
    the answer, whatever is received afterwards. *)
Theorem screen_frame_exact full stream_id before timeout :
  (∀ d data, _next_complete_screen_frame full stream_id before timeout = Ok (d, data) →
     answer_ok full stream_id before d data)
  ∧ (∀ st frame first ss events rest,
       check_full full = Ok () → is_raw (md_format full) = true →
       receive full stream_id (receive_init full) before = inl st →
       stripes full stream_id frame (md_y full) (md_y full + md_height full) (first :: ss) →
       among full stream_id frame ss events →
       _next_complete_screen_frame full stream_id (before ++ first :: events ++ rest) timeout
       = Ok (full, pixels (first :: ss))).
Proof.
  unfold _next_complete_screen_frame. split.
  - intros d data. destruct (check_full full); [cbn | done].
    pose proof (receive_ok full stream_id before [] (receive_init full) eq_refl) as H.
    destruct (receive _ _ _ _) as [|[[d' data']|]]; try done. by intros [= <- <-].
  - intros st frame first ss events rest -> Hraw Hbefore Hss Ham. cbn.
    rewrite (receive_app _ _ _ _ _ _ Hbefore). by rewrite (receive_complete _ _ frame st first ss events rest).
Qed.

(** Two rows of two pixels, the second row among a tile of another stream and
    one of the frame before, after a frame that was never completed. *)
Definition a_screen : media_description := {| md_format := 1; md_x := 0; md_y := 0; md_width := 2; md_height := 2; md_stride := 4; md_quality := 0 |}.
Definition a_tile (stream frame y : Z) (data : list Z) : media_event :=
  MediaEvent 3 stream frame 0 0 0 (MediaDescription 0 y 2 1 4 1 0) data.

Lemma screen_frame_exact_witness :
  _next_complete_screen_frame a_screen (Some 7)
    ([a_tile 7 1 0 [9; 9; 9; 9]] ++ a_tile 7 2 0 [1; 2; 3; 4] ::
     [a_tile 8 2 1 [0; 0; 0; 0]; a_tile 7 1 1 [9; 9; 9; 9]; a_tile 7 2 1 [5; 6; 7; 8]] ++ [a_tile 7 3 0 []]) (Exn TimeoutError "" 0)
  = Ok (a_screen, [1; 2; 3; 4; 5; 6; 7; 8]).
Proof.
  eapply (proj2 (screen_frame_exact a_screen (Some 7) [a_tile 7 1 0 [9; 9; 9; 9]] (Exn TimeoutError "" 0))
    _ 2 (a_tile 7 2 0 [1; 2; 3; 4]) [a_tile 7 2 1 [5; 6; 7; 8]]).
  - reflexivity.
  - reflexivity.
  - reflexivity.
  - apply stripes_cons; [by split |]. apply stripes_cons; [by split |]. apply stripes_nil.
  - apply among_other; [reflexivity |]. apply among_other; [reflexivity |]. apply among_stripe, among_nil.
Defined.
