(* ===== verification/SessionProps.v ===== *)
(** * What holds of a device session

    The invariants of the reading task of Session.v and of the tasks around it,
    each proved once for the primitive steps and lifted along [run] by the
    [keeps] lemmas: the history that only grows ([evolves]), the table of
    requests ([requests_ok]), the numbering of the frames sent ([wire_ok]), the
    life cycle ([life_ok]) and the log credit ([log_ok]); then which frames are
    ignored and which one makes a session ready. *)
From S2P Require Import Prelude Enums Text Protocol StateMachine Effects Io Value DeviceInfo SessionOps Session.

(** ** What never changes back *)

(** Past its reopening: the session id is final. *)
Definition past_reopen (s : session) : Prop :=
  s_reopen_requested s = true ∧ s_reopen_session_id s = None.

(** A reopening is only pending after it was requested. *)
Definition reopen_ok (s : session) : Prop :=
  s_reopen_session_id s ≠ None → s_reopen_requested s = true.

Record evolves (s s' : session) : Prop := {
  ev_futures : ∀ i fu, s_futures s !! i = Some fu →
    ∃ fu', s_futures s' !! i = Some fu' ∧ fu_id fu' = fu_id fu ∧ (fu_state fu ≠ FWaiting → fu' = fu);
  ev_closed : s_closed s = true → s_closed s' = true;
  ev_announced : s_ready_announced s = true → s_ready_announced s' = true;
  ev_sent : s_sent s `prefix_of` s_sent s';
  ev_notices : s_notices s `prefix_of` s_notices s';
  ev_info : ∀ i, s_info s = Some i → ∃ i', s_info s' = Some i' ∧ device_id i' = device_id i
    ∧ (past_reopen s → session_id i' = session_id i)
    ∧ (reopen_ok s → session_id i' ≠ session_id i → past_reopen s');
  ev_reopen : past_reopen s → past_reopen s';
  ev_reopen_ok : reopen_ok s → reopen_ok s';
}.

Lemma evolves_refl s : evolves s s.
Proof.
  constructor; try done; [intros i fu Hi; by exists fu | intros i Hi; by exists i].
Qed.

Lemma evolves_trans s1 s2 s3 : evolves s1 s2 → evolves s2 s3 → evolves s1 s3.
Proof.
  intros [F1 C1 A1 S1 N1 I1 P1 O1] [F2 C2 A2 S2 N2 I2 P2 O2].
  constructor; [| auto | auto | | | | auto | auto].
  - intros i fu Hi. destruct (F1 i fu Hi) as (fu1 & H1 & Hid & Hd).
    destruct (F2 i fu1 H1) as (fu2 & H2 & Hid2 & Hd2). exists fu2.
    split; [done |]. split; [congruence |]. intros Hw. rewrite (Hd Hw) in *. auto.
  - by etrans.
  - by etrans.
  - intros i Hi. destruct (I1 i Hi) as (i1 & H1 & D1 & Q1 & R1).
    destruct (I2 i1 H1) as (i2 & H2 & D2 & Q2 & R2). exists i2.
    split; [done |]. split; [congruence |]. split.
    + intros Hp. rewrite Q2, Q1 by auto. done.
    + intros Hok Hne. destruct (decide (session_id i2 = session_id i1)) as [He | He]; [| auto].
      apply P2, R1; [done | congruence].
Qed.

(** A step that only touches other fields. *)
Lemma evolves_same s s' :
  s_futures s' = s_futures s → s_closed s' = s_closed s → s_ready_announced s' = s_ready_announced s →
  s_info s' = s_info s → s_reopen_requested s' = s_reopen_requested s →
  s_reopen_session_id s' = s_reopen_session_id s →
  s_sent s `prefix_of` s_sent s' → s_notices s `prefix_of` s_notices s' → evolves s s'.
Proof.
  intros F C A I Q O S N. constructor; rewrite ?F, ?C, ?A, ?I; try done.
  - intros i fu Hi. exists fu. done.
  - intros i Hi. exists i. done.
  - unfold past_reopen. by rewrite Q, O.
  - unfold reopen_ok. by rewrite Q, O.
Qed.

Lemma fail_future_lookup fs l i :
  fold_left fail_future l fs !! i = match fs !! i with
    | Some (Future id FWaiting) =>
      Some (Future id (if bool_decide (i ∈ l) then FError (Exn ConnectionError "ESP-Iris session closed" 0)
                       else FWaiting))
    | o => o
    end.
Proof.
  revert fs. induction l as [|j l IH]; intros fs; cbn [fold_left].
  - by destruct (fs !! i) as [[id []]|].
  - rewrite IH. unfold fail_future. destruct (decide (j = i)) as [-> | Hj].
    + destruct (fs !! i) as [[id st]|] eqn:E; [| by rewrite E].
      destruct st; rewrite ?E; try done.
      rewrite list_lookup_insert_eq by (by eapply lookup_lt_Some).
      by rewrite bool_decide_eq_true_2 by (by left).
    + assert (Hsame : match fs !! j with
        | Some (Future id FWaiting) =>
          <[j := Future id (FError (Exn ConnectionError "ESP-Iris session closed" 0))]> fs
        | _ => fs end !! i = fs !! i).
      { destruct (fs !! j) as [[id []]|]; try done. by apply list_lookup_insert_ne. }
      rewrite Hsame. destruct (fs !! i) as [[id []]|]; try done.
      assert (Hm : bool_decide (i ∈ j :: l) = bool_decide (i ∈ l)).
      { apply bool_decide_ext. rewrite elem_of_cons. naive_solver. }
      by rewrite Hm.
Qed.

Lemma mark_closed_fields s :
  s_info (mark_closed s) = s_info s ∧ s_closed (mark_closed s) = true
  ∧ s_state (mark_closed s) = CLOSED ∧ s_ready_announced (mark_closed s) = s_ready_announced s
  ∧ s_ready (mark_closed s) = s_ready s ∧ s_clock_task (mark_closed s) = s_clock_task s
  ∧ s_reopen_requested (mark_closed s) = s_reopen_requested s
  ∧ s_reopen_session_id (mark_closed s) = s_reopen_session_id s
  ∧ s_request_id (mark_closed s) = s_request_id s ∧ s_pending (mark_closed s) = ∅
  ∧ s_futures (mark_closed s)
    = fold_left fail_future (map snd (map_to_list (s_pending s))) (s_futures s)
  ∧ s_sent (mark_closed s) = s_sent s ∧ s_sequence (mark_closed s) = s_sequence s
  ∧ s_notices (mark_closed s) = s_notices s ∧ s_log_credit (mark_closed s) = s_log_credit s
  ∧ s_media_credit (mark_closed s) = s_media_credit s.
Proof. unfold mark_closed. by destruct (s_state (set_closed true s)) eqn:E; simpl in E; simpl; rewrite ?E. Qed.

Ltac same_fields :=
  intros; apply evolves_same; cbn; first [done | by apply prefix_app_r].

Lemma evolves_futures_set s i id st st' :
  s_futures s !! i = Some (Future id FWaiting) → st = FWaiting →
  evolves s (set_futures (<[i := Future id st']> (s_futures s)) s).
Proof.
  intros Hi _. constructor; try done; [| intros j Hj; by exists j].
  intros j fu Hj. cbn [s_futures set_futures]. destruct (decide (i = j)) as [-> | Hne].
  - exists (Future id st'). rewrite list_lookup_insert_eq by (by eapply lookup_lt_Some).
    rewrite Hi in Hj. injection Hj as <-. done.
  - exists fu. by rewrite list_lookup_insert_ne.
Qed.

Lemma start_write_fields p s :
  ∃ f, s_sent (fst (start_write p s)) = s_sent s ++ [SentFrame f (is_ok (snd (start_write p s)))]
  ∧ fr_channel f = sd_channel p ∧ fr_sequence f = next32 (seq_of (s_sequence s) (sd_channel p))
  ∧ fst (start_write p s)
    = set_sent (s_sent s ++ [SentFrame f (is_ok (snd (start_write p s)))])
        (set_sequence (<[Z.to_nat (sd_channel p) := fr_sequence f]> (s_sequence s)) s).
Proof.
  unfold start_write. set (f := mkFrame _ _ _ _ _ _ _ _). exists f.
  destruct (encode_frame f); simpl; done.
Qed.

Lemma evolves_start_write s p : evolves s (fst (start_write p s)).
Proof.
  destruct (start_write_fields p s) as (f & _ & _ & _ & ->). apply evolves_same; try done.
  cbn. by apply prefix_app_r.
Qed.

Lemma evolves_act s a : evolves s (act s a).
Proof.
  destruct a; cbn [act].
  - destruct (mark_closed_fields s) as (Hi & Hc & _ & Ha & _ & _ & Hq & Ho & _ & _ & Hf & Hs & _ & Hn & _).
    constructor; rewrite ?Hi, ?Hc, ?Ha, ?Hs, ?Hn; try done.
    + intros i fu Hfu. rewrite Hf, fail_future_lookup, Hfu. destruct fu as [id []];
        eexists; (split; [reflexivity |]); done.
    + intros i Hj. exists i. done.
    + unfold past_reopen. by rewrite Hq, Ho.
    + unfold reopen_ok. by rewrite Hq, Ho.
  - destruct (s_ready s && negb (s_closed s)); [| apply evolves_refl].
    unfold _next_request_id. cbn. constructor; try done; [| intros i Hi; by exists i].
    intros i fu Hi. exists fu. cbn. by rewrite lookup_app_l by (by eapply lookup_lt_Some).
  - destruct (s_futures s !! i) as [[id st]|] eqn:Hi; [| apply evolves_refl].
    destruct st; try (apply evolves_same; done).
    eapply evolves_trans; [apply (evolves_same s (set_pending (delete id (s_pending s)) s)); done |].
    by apply (evolves_futures_set (set_pending (delete id (s_pending s)) s) i id FWaiting).
  - same_fields.
  - destruct (s_write_lock s); [apply evolves_refl |].
    destruct (s_senders s !! i) as [p|]; [| apply evolves_refl].
    pose proof (evolves_start_write (set_senders (delete i (s_senders s)) s) p) as H.
    destruct (start_write p _) as [s' r]. cbn [fst] in H.
    eapply evolves_trans; [apply (evolves_same s (set_senders (delete i (s_senders s)) s)); done |].
    destruct r; [| exact H]. eapply evolves_trans; [exact H | same_fields].
  - destruct (s_write_lock s) as [[]|]; (apply evolves_refl || same_fields).
  - same_fields.
  - same_fields.
Qed.

Lemma evolves_respects : respects evolves.
Proof.
  constructor; try same_fields.
  - exact evolves_trans.
  - exact evolves_act.
  - exact evolves_start_write.
  - intros s i f _ _. unfold resolve. destruct (s_futures s !! i) as [[id []]|] eqn:Hi;
      try apply evolves_refl. by apply (evolves_futures_set s i id FWaiting).
Qed.

Lemma evolves_announce s : evolves s (set_ready_announced true s).
Proof. constructor; try done; [intros i fu Hi; by exists fu | intros i Hi; by exists i]. Qed.

Lemma evolves_grant amount : keeps evolves (_grant_log_credit amount).
Proof. apply grant_keeps; [exact evolves_respects | same_fields]. Qed.

Lemma evolves_complete : keeps evolves _complete_ready.
Proof.
  apply complete_keeps; [exact evolves_respects | same_fields | exact evolves_announce
    | same_fields | same_fields | apply evolves_grant].
Qed.

(** The two kinds of accepted HELLO. *)
Lemma adopt_info_cases s info s' :
  adopt_info s info = Ok s' →
  (is_reopening s info = true
   ∧ (∃ i, s_info s = Some i ∧ device_id i = device_id info ∧ boot_id i = boot_id info)
   ∨ is_reopening s info = false
     ∧ ∀ i, s_info s = Some i → device_id i = device_id info ∧ session_id i = session_id info)
  ∧ let s1 := if is_reopening s info then
                set_last_rx_sequence (repeat None channel_count)
                  (set_sequence (repeat 0 channel_count)
                    (set_sent (s_sent s ++ [SequenceReset]) (set_reopen_session_id None s)))
              else s in
    s' = (if negb (Z.land (capabilities info) Capability.SESSION_REOPEN =? 0)
             && negb (s_reopen_requested s)
          then set_reopen_session_id (Some (session_id info)) (set_reopen_requested true
                 (set_info (Some info) s1))
          else set_info (Some info) s1).
Proof.
  unfold adopt_info. intros H. bind H as s1 H1. guard H as G.
  destruct (is_reopening s info) eqn:Hr.
  - guard H1 as G1. injection H1 as <-. cbn [s_info set_info set_last_rx_sequence set_sequence
      set_sent set_reopen_session_id s_reopen_requested set_reopen_requested] in *.
    destruct (s_info s) as [i|] eqn:Hi; [| discriminate G1].
    apply negb_false_iff, andb_true_iff in G1 as [Gd Gb]. apply String.eqb_eq in Gd.
    apply Z.eqb_eq in Gb. split; [left; split; [done | by exists i] |].
    injection H as <-. destruct (negb _ && _); done.
  - injection H1 as <-. split.
    + right. split; [done |]. intros i Hi. rewrite Hi in G. cbn [negb andb] in G.
      apply negb_false_iff, andb_true_iff in G as [Gd Gs].
      apply String.eqb_eq in Gd. by apply Z.eqb_eq in Gs.
    + injection H as <-. destruct (negb _ && _); done.
Qed.

Lemma evolves_adopt s info s' : adopt_info s info = Ok s' → evolves s s'.
Proof.
  intros H. apply adopt_info_cases in H as [Hcase ->]. cbv zeta.
  set (req := negb _ && negb _).
  assert (Hnew : req = true → s_reopen_requested s = false).
  { intros [_ Hn]%andb_true_iff. by apply negb_true_iff in Hn. }
  destruct Hcase as [[Hr (i & Hi & Hd & Hb)] | [Hr Hsame]]; rewrite Hr.
  - assert (Hopen : s_reopen_session_id s ≠ None).
    { unfold is_reopening in Hr. by destruct (s_reopen_session_id s). }
    destruct req eqn:Ereq; (constructor; cbn; try done);
      try (intros j fu Hj; by exists fu); try (by apply prefix_app_r);
      try (intros [_ Hn]; by rewrite Hn in Hopen); try (by intros _ []).
    + intros j [= <-]%(eq_trans (eq_sym Hi)). exists info. split; [done |]. split; [done |].
      split; [intros [_ Hn]; by rewrite Hn in Hopen |]. intros Hok.
      rewrite (Hok Hopen) in Hnew. by specialize (Hnew eq_refl).
    + intros j [= <-]%(eq_trans (eq_sym Hi)). exists info. split; [done |]. split; [done |].
      split; [intros [_ Hn]; by rewrite Hn in Hopen |]. intros Hok _. split; [by apply Hok | done].
  - destruct req eqn:Ereq; (constructor; cbn; try done);
      try (intros j fu Hj; by exists fu);
      try (intros [Hq _]; rewrite (Hnew eq_refl) in Hq; discriminate Hq).
    + intros j Hj. destruct (Hsame j Hj) as [Hd Hs]. exists info. split; [done |].
      split; [done |]. split; [done |]. intros _ Hne. by destruct Hne.
    + intros j Hj. destruct (Hsame j Hj) as [Hd Hs]. exists info. split; [done |].
      split; [done |]. split; [done |]. intros _ Hne. by destruct Hne.
Qed.

(** ** Requests and their answers *)

Definition id_ok (id : Z) : Prop := 0 < id < 2 ^ 32.

(** Fewer requests so far than there are request ids. *)
Definition unwrapped (s : session) : Prop := Z.of_nat (length (s_futures s)) < 2 ^ 32.

Record requests_ok (s : session) : Prop := {
  rq_counter : 0 ≤ s_request_id s < 2 ^ 32;
  rq_pending : ∀ id i, s_pending s !! id = Some i → ∃ st, s_futures s !! i = Some (Future id st);
  rq_ids : ∀ i fu, s_futures s !! i = Some fu → id_ok (fu_id fu);
  rq_answer : ∀ i fu f, s_futures s !! i = Some fu → fu_state fu = FResult f →
    fr_request_id f = fu_id fu;
  rq_closed : s_closed s = true → s_pending s = ∅;
  rq_numbered : unwrapped s → s_request_id s = Z.of_nat (length (s_futures s))
    ∧ (∀ i fu, s_futures s !! i = Some fu → fu_id fu = Z.of_nat i + 1)
    ∧ ∀ i id, s_futures s !! i = Some (Future id FWaiting) → s_pending s !! id = Some i;
}.

(** A step that touches other fields. *)
Lemma requests_ok_same s s' :
  s_futures s' = s_futures s → s_pending s' = s_pending s → s_request_id s' = s_request_id s →
  s_closed s' = s_closed s → requests_ok s → requests_ok s'.
Proof. intros F P I C [H1 H2 H3 H4 H5 H6]. constructor; unfold unwrapped in *; by rewrite ?F, ?P, ?I, ?C. Qed.

(** Settling a future that waits, and dropping its entry or not. *)
Lemma requests_ok_settle s i id st pending :
  requests_ok s → s_futures s !! i = Some (Future id FWaiting) → st ≠ FWaiting →
  (∀ f, st = FResult f → fr_request_id f = id) →
  (pending = s_pending s ∨ pending = delete id (s_pending s)) →
  requests_ok (set_pending pending (set_futures (<[i := Future id st]> (s_futures s)) s)).
Proof.
  intros [H1 H2 H3 H4 H5 H6] Hi Hst Hf Hp.
  assert (Hsub : ∀ id' j, pending !! id' = Some j → s_pending s !! id' = Some j).
  { destruct Hp as [-> | ->]; [done |]. intros id' j [_ ?]%lookup_delete_Some. done. }
  assert (Hlook : ∀ j fu, (<[i := Future id st]> (s_futures s)) !! j = Some fu →
    (j = i ∧ fu = Future id st) ∨ (j ≠ i ∧ s_futures s !! j = Some fu)).
  { intros j fu. destruct (decide (j = i)) as [-> | Hne].
    - rewrite list_lookup_insert_eq by (by eapply lookup_lt_Some). intros [= <-]. by left.
    - rewrite list_lookup_insert_ne by done. by right. }
  constructor; cbn; unfold unwrapped; cbn; rewrite ?length_insert.
  - done.
  - intros id' j Hj%Hsub. destruct (H2 id' j Hj) as [st' Hst'].
    destruct (decide (j = i)) as [-> | Hne].
    + exists st. rewrite list_lookup_insert_eq by (by eapply lookup_lt_Some). congruence.
    + exists st'. by rewrite list_lookup_insert_ne.
  - intros j fu [[-> ->] | [_ Hj]]%Hlook; [by apply (H3 i (Future id FWaiting)) | by eapply H3].
  - intros j fu f [[-> ->] | [_ Hj]]%Hlook; [by apply Hf | by eapply H4].
  - intros Hc. destruct Hp as [-> | ->]; rewrite H5 by done; [done | apply delete_empty].
  - intros Hu. destruct (H6 Hu) as (Hr & Hid & Hw). split; [done |]. split.
    + intros j fu [[-> ->] | [_ Hj]]%Hlook; [by apply (Hid i (Future id FWaiting)) | by eapply Hid].
    + intros j id' [[-> [= <- <-]] | [Hne Hj]]%Hlook; [done |].
      pose proof (Hw _ _ Hj) as Hwj. destruct Hp as [-> | ->]; [done |].
      rewrite lookup_delete_ne; [done |]. intros <-.
      pose proof (Hid _ _ Hi) as E1. pose proof (Hid _ _ Hj) as E2. cbn in E1, E2. lia.
Qed.

(** The finally clause of a request whose future is already settled. *)
Lemma requests_ok_drop s i id st :
  requests_ok s → s_futures s !! i = Some (Future id st) → st ≠ FWaiting →
  requests_ok (set_pending (delete id (s_pending s)) s).
Proof.
  intros [H1 H2 H3 H4 H5 H6] Hi Hst. constructor; cbn; unfold unwrapped; cbn; try done.
  - intros id' j [_ Hj]%lookup_delete_Some. by apply H2.
  - intros Hc. rewrite H5 by done. apply delete_empty.
  - intros Hu. destruct (H6 Hu) as (Hr & Hid & Hw). split; [done |]. split; [done |].
    intros j id' Hj. rewrite lookup_delete_ne; [by apply Hw |]. intros <-.
    pose proof (Hid _ _ Hi) as E1. pose proof (Hid _ _ Hj) as E2. cbn in E1, E2.
    assert (j = i) as -> by lia. congruence.
Qed.

Lemma next32_bound n : 0 ≤ next32 n < 2 ^ 32.
Proof.
  unfold next32. change 0xFFFFFFFF with (Z.ones 32). rewrite Z.land_ones by lia.
  apply Z.mod_pos_bound. lia.
Qed.
Lemma next32_small n : 0 ≤ n → n + 1 < 2 ^ 32 → next32 n = n + 1.
Proof.
  intros H1 H2. unfold next32. change 0xFFFFFFFF with (Z.ones 32).
  rewrite Z.land_ones by lia. apply Z.mod_small. lia.
Qed.

Lemma requests_ok_new s p :
  requests_ok s → s_closed s = false →
  let '(id, s1) := _next_request_id s in
  requests_ok (queue_sender (p id) (set_pending (<[id := length (s_futures s)]> (s_pending s))
    (set_futures (s_futures s ++ [Future id FWaiting]) s1))).
Proof.
  intros [H1 H2 H3 H4 H5 H6] Hc. unfold _next_request_id.
  set (n := if next32 (s_request_id s) =? 0 then 1 else next32 (s_request_id s)).
  assert (Hn : id_ok n).
  { unfold n, id_ok. pose proof (next32_bound (s_request_id s)).
    destruct (Z.eqb_spec (next32 (s_request_id s)) 0); lia. }
  assert (Hlook : ∀ j fu, (s_futures s ++ [Future n FWaiting]) !! j = Some fu →
    s_futures s !! j = Some fu ∨ (j = length (s_futures s) ∧ fu = Future n FWaiting)).
  { intros j fu [Hj | [Hle Hj]]%lookup_app_Some; [by left | right].
    apply list_lookup_singleton_Some in Hj as [Hj <-].
    assert (j = length (s_futures s)) by lia. done. }
  constructor; cbn; unfold unwrapped; cbn; rewrite ?length_app; cbn [length].
  - unfold id_ok in Hn. lia.
  - intros id i [[<- <-] | [Hne Hi]]%lookup_insert_Some.
    + exists FWaiting. by rewrite lookup_app_r, Nat.sub_diag by lia.
    + destruct (H2 id i Hi) as [st Hst]. exists st. by rewrite lookup_app_l by (by eapply lookup_lt_Some).
  - intros i fu [Hi | [-> ->]]%Hlook; [by eapply H3 | done].
  - intros i fu f [Hi | [-> ->]]%Hlook; [by eapply H4 | done].
  - intros Hcl. congruence.
  - intros Hu. destruct H6 as (Hr & Hid & Hw); [unfold unwrapped; lia |].
    assert (Hnn : n = Z.of_nat (length (s_futures s)) + 1).
    { unfold n. rewrite Hr, next32_small by lia.
      destruct (Z.eqb_spec (Z.of_nat (length (s_futures s)) + 1) 0); lia. }
    split; [lia |]. split.
    + intros i fu [Hi | [-> ->]]%Hlook; [by apply Hid | done].
    + intros i id [Hi | [-> [= ->]]]%Hlook; [| apply lookup_insert_eq].
      rewrite lookup_insert_ne; [by apply Hw |]. intros ->.
      pose proof (Hid _ _ Hi) as E. cbn in E. apply lookup_lt_Some in Hi. lia.
Qed.

Lemma requests_ok_closed s : requests_ok s → requests_ok (mark_closed s).
Proof.
  intros [H1 H2 H3 H4 H5 H6].
  destruct (mark_closed_fields s) as (_ & Hc & _ & _ & _ & _ & _ & _ & Hr & Hp & Hf & _).
  assert (Hlen : length (s_futures (mark_closed s)) = length (s_futures s)).
  { rewrite Hf. generalize (map snd (map_to_list (s_pending s))). intros l. revert H1. clear.
    generalize (s_futures s). induction l as [|j l IH]; intros fs H; [done |]. cbn [fold_left].
    rewrite IH by done. unfold fail_future. destruct (fs !! j) as [[id []]|]; try done.
    apply length_insert. }
  assert (Hlook : ∀ i fu, s_futures (mark_closed s) !! i = Some fu →
    ∃ st, s_futures s !! i = Some (Future (fu_id fu) st)
    ∧ (fu_state fu = st ∨ st = FWaiting ∧ (∃ e, fu_state fu = FError e))
    ∧ (fu_state fu = FWaiting → st = FWaiting ∧ ∀ id, s_pending s !! id ≠ Some i)).
  { intros i fu. rewrite Hf, fail_future_lookup. destruct (s_futures s !! i) as [[id st]|] eqn:Hi; [| done].
    destruct st; try (intros [= <-]; eexists; split; [reflexivity |]; split; [by left | by intros [=]]).
    intros [= <-]. exists FWaiting. split; [done |]. cbn. case_bool_decide as Hin.
    - split; [right; split; [done | by eexists] | done].
    - split; [by left |]. intros _. split; [done |]. intros id' Hid. apply Hin.
      apply list_elem_of_In, in_map_iff. exists (id', i). split; [done |].
      by apply list_elem_of_In, elem_of_map_to_list. }
  constructor; unfold unwrapped; rewrite ?Hr, ?Hp, ?Hlen; try done.
  - intros i fu (st & Hi & _)%Hlook. by apply (H3 i (Future (fu_id fu) st)).
  - intros i fu f (st & Hi & Hst & _)%Hlook Hres. destruct Hst as [Hst | [_ [e He]]]; [| congruence].
    rewrite <- Hst, Hres in Hi. by apply (H4 _ _ f Hi).
  - intros Hu. destruct (H6 Hu) as (Hr' & Hid & Hw). split; [done |]. split.
    + intros i fu (st & Hi & _)%Hlook. by apply (Hid i (Future (fu_id fu) st)).
    + intros i id (st & Hi & _ & Hwait)%Hlook. destruct (Hwait eq_refl) as [-> Hnot].
      exfalso. cbn in Hi. by apply (Hnot id), Hw.
Qed.

(** A property of sessions as a preorder. *)
Definition preserves (I : session → Prop) (s s' : session) : Prop := I s → I s'.

Ltac other_fields := intros; intros Hok; revert Hok; apply requests_ok_same; done.

Lemma start_write_same s p : requests_ok s → requests_ok (fst (start_write p s)).
Proof.
  destruct (start_write_fields p s) as (f & _ & _ & _ & ->). by apply requests_ok_same.
Qed.

Lemma requests_ok_act s a : preserves requests_ok s (act s a).
Proof.
  intros Hok. destruct a; cbn [act].
  - by apply requests_ok_closed.
  - destruct (s_ready s && negb (s_closed s)) eqn:G; [| done].
    apply andb_true_iff in G as [_ G]. apply negb_true_iff in G.
    exact (requests_ok_new s (λ id, Sender (current_session s) channel type payload 0 id stream_id) Hok G).
  - destruct (s_futures s !! i) as [[id st]|] eqn:Hi; [| done].
    destruct st; try (by apply (requests_ok_drop s i id _ Hok Hi)).
    apply (requests_ok_settle s i id FCancelled (delete id (s_pending s))); try done. by right.
  - revert Hok. by apply requests_ok_same.
  - destruct (s_write_lock s); [done |]. destruct (s_senders s !! i) as [p|]; [| done].
    assert (H : requests_ok (fst (start_write p (set_senders (delete i (s_senders s)) s)))).
    { apply start_write_same. revert Hok. by apply requests_ok_same. }
    destruct (start_write p _) as [s' [u|e]]; cbn [fst] in H; [| done].
    revert H. by apply requests_ok_same.
  - destruct (s_write_lock s) as [[]|]; [done | | done]. revert Hok. by apply requests_ok_same.
  - revert Hok. by apply requests_ok_same.
  - revert Hok. by apply requests_ok_same.
Qed.

Lemma requests_ok_resolve s i f :
  fr_request_id f ≠ 0 → s_pending s !! fr_request_id f = Some i → preserves requests_ok s (resolve s i f).
Proof.
  intros Hne Hp Hok. unfold resolve. destruct (s_futures s !! i) as [[id st]|] eqn:Hi; [| done].
  destruct st; try done.
  assert (id = fr_request_id f) as ->.
  { destruct (rq_pending s Hok _ _ Hp) as [st Hst]. rewrite Hi in Hst. by injection Hst. }
  apply (requests_ok_settle s i (fr_request_id f) _ (s_pending s) Hok Hi); [| | by left].
  - by destruct (_ =? _).
  - intros g. destruct (_ =? _); [discriminate | by intros [= ->]].
Qed.

Lemma requests_respects : respects (preserves requests_ok).
Proof.
  constructor; try other_fields.
  - unfold preserves. auto.
  - exact requests_ok_act.
  - exact start_write_same.
  - apply requests_ok_resolve.
Qed.

Lemma requests_grant amount : keeps (preserves requests_ok) (_grant_log_credit amount).
Proof. apply grant_keeps; [exact requests_respects | other_fields]. Qed.

Lemma requests_complete : keeps (preserves requests_ok) _complete_ready.
Proof. apply complete_keeps; try other_fields; [exact requests_respects | apply requests_grant]. Qed.

Lemma requests_adopt s info s' : adopt_info s info = Ok s' → preserves requests_ok s s'.
Proof.
  intros [_ ->]%adopt_info_cases. cbv zeta.
  destruct (is_reopening s info), (negb _ && negb _); other_fields.
Qed.

(** ** Outgoing sequence numbers *)

(** The last sequence number of each channel after a history of sends. *)
Definition tx_step (counters : list Z) (e : sent) : list Z :=
  match e with
  | SentFrame f _ => <[Z.to_nat (fr_channel f) := fr_sequence f]> counters
  | SequenceReset => repeat 0 channel_count
  end.
Definition tx_counters (l : list sent) : list Z := fold_left tx_step l (repeat 0 channel_count).
#[global] Arguments tx_counters : simpl never.

(** Every frame has the number after its channel's last one. *)
Definition numbered (l : list sent) : Prop :=
  ∀ l1 f w l2, l = l1 ++ SentFrame f w :: l2 →
    fr_sequence f = next32 (seq_of (tx_counters l1) (fr_channel f)).

Definition wire_ok (s : session) : Prop :=
  s_sequence s = tx_counters (s_sent s) ∧ numbered (s_sent s).

Lemma tx_counters_snoc l e : tx_counters (l ++ [e]) = tx_step (tx_counters l) e.
Proof. unfold tx_counters. by rewrite fold_left_app. Qed.

Lemma numbered_snoc l e :
  numbered l → (∀ f w, e = SentFrame f w → fr_sequence f = next32 (seq_of (tx_counters l) (fr_channel f))) →
  numbered (l ++ [e]).
Proof.
  intros Hl He l1 f w l2 Heq. destruct l2 as [|x l2 _] using rev_ind.
  - apply app_inj_tail in Heq as [-> ->]. by eapply He.
  - rewrite app_comm_cons, app_assoc in Heq. apply app_inj_tail in Heq as [-> _]. by eapply Hl.
Qed.

Lemma wire_ok_same s s' : s_sequence s' = s_sequence s → s_sent s' = s_sent s → wire_ok s → wire_ok s'.
Proof. intros Hq Hs. unfold wire_ok. by rewrite Hq, Hs. Qed.

Lemma wire_ok_write s p : preserves wire_ok s (fst (start_write p s)).
Proof.
  intros [Hq Hn]. destruct (start_write_fields p s) as (f & _ & Hc & Hseq & ->).
  split; cbn.
  - rewrite tx_counters_snoc. cbn [tx_step]. by rewrite Hc, Hq.
  - apply numbered_snoc; [done |]. intros g w [= <- <-]. by rewrite Hc, Hseq, Hq.
Qed.

Ltac wire_fields := intros; intros Hok; revert Hok; apply wire_ok_same; done.

Lemma wire_ok_act s a : preserves wire_ok s (act s a).
Proof.
  intros Hok. destruct a; cbn [act].
  - destruct (mark_closed_fields s) as (_ & _ & _ & _ & _ & _ & _ & _ & _ & _ & _ & Hs & Hq & _).
    revert Hok. by apply wire_ok_same.
  - destruct (_ && _); [| done]. cbn. revert Hok. by apply wire_ok_same.
  - destruct (s_futures s !! i) as [[id []]|]; try done; revert Hok; by apply wire_ok_same.
  - revert Hok. by apply wire_ok_same.
  - destruct (s_write_lock s); [done |]. destruct (s_senders s !! i) as [p|]; [| done].
    pose proof (wire_ok_write (set_senders (delete i (s_senders s)) s) p) as H.
    destruct (start_write p _) as [s' [u|e]]; cbn [fst] in H.
    + apply (wire_ok_same s'); [done | done |]. apply H. revert Hok. by apply wire_ok_same.
    + apply H. revert Hok. by apply wire_ok_same.
  - destruct (s_write_lock s) as [[]|]; [done | | done]. revert Hok. by apply wire_ok_same.
  - revert Hok. by apply wire_ok_same.
  - revert Hok. by apply wire_ok_same.
Qed.

Lemma wire_respects : respects (preserves wire_ok).
Proof.
  constructor; try wire_fields.
  - unfold preserves. auto.
  - exact wire_ok_act.
  - exact wire_ok_write.
  - intros s i f _ _. unfold resolve. destruct (s_futures s !! i) as [[id []]|]; wire_fields.
Qed.

Lemma wire_grant amount : keeps (preserves wire_ok) (_grant_log_credit amount).
Proof. apply grant_keeps; [exact wire_respects | wire_fields]. Qed.

Lemma wire_complete : keeps (preserves wire_ok) _complete_ready.
Proof. apply complete_keeps; try wire_fields; [exact wire_respects | apply wire_grant]. Qed.

Lemma wire_adopt s info s' : adopt_info s info = Ok s' → preserves wire_ok s s'.
Proof.
  intros [_ ->]%adopt_info_cases [Hq Hn]. cbv zeta.
  assert (Hreset : repeat 0 channel_count = tx_counters (s_sent s ++ [SequenceReset])
    ∧ numbered (s_sent s ++ [SequenceReset])).
  { split; [by rewrite tx_counters_snoc |]. by apply numbered_snoc. }
  by destruct (is_reopening s info), (negb _ && negb _); split; cbn; try done; apply Hreset.
Qed.

(** ** The life of a session *)

Record life_ok (s : session) : Prop := {
  lf_closed : s_closed s = true ↔ s_state s = CLOSED;
  lf_announced : s_ready_announced s = true → s_info s ≠ None ∧ s_state s ≠ NEGOTIATING;
  lf_ready : s_ready s = true → s_ready_announced s = true;
  lf_clock : s_clock_task s = true → s_ready s = true;
  lf_reopen : ∀ id, s_reopen_session_id s = Some id →
    s_reopen_requested s = true ∧ ∃ i, s_info s = Some i ∧ session_id i = id;
}.

(** [_complete_ready] has passed its checks. *)
Definition authenticated (s : session) : Prop := s_info s ≠ None ∧ s_state s ≠ NEGOTIATING.

(** The invariant is kept, and an authenticated session stays so. *)
Definition lives (s s' : session) : Prop :=
  (life_ok s → life_ok s') ∧ (authenticated s → authenticated s').

(** The same, from an authenticated session only. *)
Definition lives_on (s s' : session) : Prop :=
  authenticated s → authenticated s' ∧ (life_ok s → life_ok s').

Lemma lives_lives_on s s' : lives s s' → lives_on s s'.
Proof. unfold lives, lives_on. tauto. Qed.

Lemma life_ok_same s s' :
  s_closed s' = s_closed s → s_state s' = s_state s → s_ready_announced s' = s_ready_announced s →
  s_info s' = s_info s → s_ready s' = s_ready s → s_clock_task s' = s_clock_task s →
  s_reopen_session_id s' = s_reopen_session_id s → s_reopen_requested s' = s_reopen_requested s →
  lives s s'.
Proof.
  intros C S A I R K O Q. unfold lives, authenticated. rewrite S, I. split; [| done].
  intros [H1 H2 H3 H4 H5]. constructor; by rewrite ?C, ?S, ?A, ?I, ?R, ?K, ?O, ?Q.
Qed.

Lemma lives_refl s : lives s s.
Proof. done. Qed.
Lemma lives_trans s1 s2 s3 : lives s1 s2 → lives s2 s3 → lives s1 s3.
Proof. unfold lives. tauto. Qed.
Lemma lives_on_trans s1 s2 s3 : lives_on s1 s2 → lives_on s2 s3 → lives_on s1 s3.
Proof. unfold lives_on. tauto. Qed.

Ltac life_fields := intros; apply life_ok_same; done.

Lemma lives_closed s : lives s (mark_closed s).
Proof.
  destruct (mark_closed_fields s) as (Hi & Hc & Hst & Ha & Hr & Hk & Hq & Ho & _).
  split.
  - intros [H1 H2 H3 H4 H5]. constructor; rewrite ?Hi, ?Hc, ?Hst, ?Ha, ?Hr, ?Hk, ?Hq, ?Ho; try done.
    intros [? _]%H2. done.
  - unfold authenticated. rewrite Hi, Hst. by intros [? _].
Qed.

Lemma lives_write s p : lives s (fst (start_write p s)).
Proof. destruct (start_write_fields p s) as (f & _ & _ & _ & ->). life_fields. Qed.

Lemma lives_act s a : lives s (act s a).
Proof.
  destruct a; cbn [act]; try life_fields.
  - apply lives_closed.
  - destruct (_ && _); [| done]. life_fields.
  - destruct (s_futures s !! i) as [[id []]|]; life_fields.
  - destruct (s_write_lock s); [done |]. destruct (s_senders s !! i) as [p|]; [| done].
    apply (lives_trans s (set_senders (delete i (s_senders s)) s)); [life_fields |].
    pose proof (lives_write (set_senders (delete i (s_senders s)) s) p) as H.
    destruct (start_write p _) as [s' [u|e]]; cbn [fst] in H; [| done].
    apply (lives_trans _ s'); [done | life_fields].
  - destruct (s_write_lock s) as [[]|]; life_fields.
Qed.

Lemma lives_respects : respects lives.
Proof.
  constructor; try life_fields.
  - exact lives_trans.
  - exact lives_act.
  - exact lives_write.
  - intros s i f _ _. unfold resolve. destruct (s_futures s !! i) as [[id []]|]; life_fields.
Qed.

Lemma lives_on_respects : respects lives_on.
Proof.
  constructor; [| exact lives_on_trans | ..]; intros; apply lives_lives_on;
    try respected_by lives_respects. by apply (re_resolve _ lives_respects).
Qed.

Lemma lives_grant amount : keeps lives (_grant_log_credit amount).
Proof. apply grant_keeps; [exact lives_respects | life_fields]. Qed.

Lemma lives_on_grant amount : keeps lives_on (_grant_log_credit amount).
Proof.
  intros s. eapply twp_mono; [apply lives_grant |]. intros o s'. apply lives_lives_on.
Qed.

(** [_complete_ready] after its checks. *)
Lemma lives_announce : keeps lives_on (
  _ ← modify (set_ready_announced true); _ ← modify (set_ready true); modify (set_clock_task true)).
Proof.
  intros s. apply twp_bind, twp_modify, twp_bind, twp_modify, twp_modify.
  intros Ha. split; [exact Ha |]. intros [H1 H2 H3 H4 H5]. constructor; done.
Qed.

Lemma lives_complete : keeps lives _complete_ready.
Proof.
  intros s. unfold _complete_ready. apply twp_bind, twp_gets.
  destruct (s_ready_announced s) eqn:Ha; [by apply twp_ret |].
  apply twp_bind, twp_gets, twp_bind, twp_lift; [| done].
  intros [] Hi%raise_if_false. apply bool_decide_eq_false in Hi.
  apply twp_bind, twp_gets, twp_bind, twp_lift; [| done].
  intros st Hst. apply twp_bind, twp_modify.
  assert (Hnew : authenticated (set_state st s) ∧ (life_ok s → life_ok (set_state st s))).
  { assert (st = READY ∧ s_state s = NEGOTIATING) as [-> Hs].
    { unfold session_transition, _SESSION_TRANSITIONS in Hst.
      destruct (s_state s); try discriminate Hst. by injection Hst as <-. }
    split; [done |]. intros [H1 H2 H3 H4 H5]. constructor; cbn; try done.
    rewrite H1, Hs. split; done. }
  destruct Hnew as [Hauth Hlife].
  assert (Hrest : keeps lives_on (
    credit ← gets s_log_credit;
    _ ← (if (credit : Z) =? 0 then _grant_log_credit LOG_CREDIT_GRANT else mret tt);
    _ ← call_back OnReady;
    _ ← modify (set_ready_announced true); _ ← modify (set_ready true); modify (set_clock_task true))).
  { pose proof lives_on_respects as HR. apply keeps_bind; [respected_by HR | keeps_by HR |]. intros credit.
    apply keeps_bind; [respected_by HR | |].
    - destruct (_ =? 0); [apply lives_on_grant | keeps_by HR].
    - intros []. apply keeps_bind; [respected_by HR | keeps_by HR | intros []; apply lives_announce]. }
  eapply twp_mono; [apply Hrest |]. intros o s' Hs. destruct (Hs Hauth) as [Ha' Hl'].
  split; [auto | done].
Qed.

Lemma lives_adopt s info s' : adopt_info s info = Ok s' → lives s s'.
Proof.
  intros [_ ->]%adopt_info_cases. cbv zeta. set (req := negb _ && negb _).
  split.
  - intros [H1 H2 H3 H4 H5].
    assert (Hreop : ∀ id, s_reopen_session_id s = Some id → is_reopening s info = false →
      session_id info = id).
    { unfold is_reopening. intros id ->. intros Hn%negb_false_iff. by apply Z.eqb_eq. }
    destruct (is_reopening s info), req; constructor; cbn; try done;
      try (intros Ha; by destruct (H2 Ha)); try (by intros id [= <-]; split; [| by exists info]).
    intros id Hid. split; [by apply (H5 id) | exists info; split; [done | by apply Hreop]].
  - intros [Hi Hs]. by destruct (is_reopening s info), req.
Qed.

(** ** Steps that leave a field alone *)

(** No step below touches the field [p]: only [_complete_ready], the credit
    grants and the closing do. *)
Definition same {A} (p : session → A) (s s' : session) : Prop := p s' = p s.

(** Enough to check the writes, the closing and the setters. *)
Lemma same_respects {A} (p : session → A) :
  (∀ s q, same p s (fst (start_write q s))) → (∀ s, same p s (mark_closed s)) →
  (∀ s v, same p s (set_pending v s)) → (∀ s v, same p s (set_futures v s)) →
  (∀ s v, same p s (set_request_id v s)) → (∀ s v, same p s (set_senders v s)) →
  (∀ s v, same p s (set_write_lock v s)) → (∀ s v, same p s (set_media_credit v s)) →
  (∀ s v, same p s (set_notices v s)) → respects (same p).
Proof.
  intros Hw Hc Hp Hf Hr Hs Hl Hm Hn.
  assert (Htrans : ∀ s1 s2 s3, same p s1 s2 → same p s2 s3 → same p s1 s3).
  { unfold same. intros. by etrans. }
  constructor; try done.
  - intros s a. destruct a; cbn [act].
    + apply Hc.
    + destruct (_ && _); [| done]. unfold _next_request_id, queue_sender. cbv beta iota zeta.
      eapply Htrans; [| apply Hs]. eapply Htrans; [| apply Hp]. eapply Htrans; [apply Hr | apply Hf].
    + destruct (s_futures s !! i) as [[id []]|]; try done; try apply Hp.
      eapply Htrans; [apply Hp | apply Hf].
    + apply Hs.
    + destruct (s_write_lock s); [done |]. destruct (s_senders s !! i) as [q|]; [| done].
      pose proof (Hw (set_senders (delete i (s_senders s)) s) q) as H.
      destruct (start_write q _) as [s' r]; cbn [fst] in H.
      eapply Htrans; [apply Hs |]. destruct r; [| exact H]. eapply Htrans; [exact H | apply Hl].
    + destruct (s_write_lock s) as [[]|]; done || apply Hl.
    + apply Hm.
    + apply Hm.
  - intros s i f _ _. unfold resolve. destruct (s_futures s !! i) as [[id []]|]; done || apply Hf.
Qed.

Ltac same_by_fields := apply same_respects; try done;
  [ intros s q; by destruct (start_write_fields q s) as (f & _ & _ & _ & ->)
  | intros s; unfold mark_closed, same; by destruct (s_state _) ].

Lemma same_log_respects : respects (same s_log_credit).
Proof. same_by_fields. Qed.
Lemma same_announced_respects : respects (same s_ready_announced).
Proof. same_by_fields. Qed.
Lemma same_rx_respects : respects (same s_last_rx_sequence).
Proof. same_by_fields. Qed.
Lemma same_reopen_respects : respects (same s_reopen_session_id).
Proof. same_by_fields. Qed.
Lemma same_info_respects : respects (same s_info).
Proof. same_by_fields. Qed.

(** The device never holds more log credit than this. *)
Definition LOG_CREDIT_MAX : Z := LOG_CREDIT_LOW_WATER + LOG_CREDIT_GRANT.
Definition log_ok (s : session) : Prop := 0 ≤ s_log_credit s < LOG_CREDIT_MAX.

Lemma log_ok_same s s' : same s_log_credit s s' → preserves log_ok s s'.
Proof. unfold same, preserves, log_ok. intros ->. done. Qed.

Lemma log_respects : respects (preserves log_ok).
Proof.
  constructor; try (intros; apply log_ok_same, same_log_respects; done).
  - unfold preserves. auto.
Qed.

Lemma log_grant s amount :
  twp (_grant_log_credit amount)
    (λ _ s', s_log_credit s' = s_log_credit s ∨ s_log_credit s' = s_log_credit s + amount) s.
Proof.
  unfold _grant_log_credit. apply twp_bind, twp_lift; [| by left]. intros payload _.
  apply twp_bind. eapply twp_mono; [apply (keeps_send (same s_log_credit)); respected_by same_log_respects |].
  intros [[]|e|] s' Hs; [| by left | by left]. apply twp_modify. right. cbn. by rewrite Hs.
Qed.

(** A grant behind a test of the credit. *)
Lemma log_topup (low : Z → bool) :
  (∀ c, low c = true → c < LOG_CREDIT_LOW_WATER) →
  keeps (preserves log_ok) (credit ← gets s_log_credit;
    if low credit then _grant_log_credit LOG_CREDIT_GRANT else mret tt).
Proof.
  intros Hlow s. apply twp_bind, twp_gets. destruct (low (s_log_credit s)) eqn:Hc.
  - apply Hlow in Hc. eapply twp_mono; [apply log_grant |]. intros o s' [Hs | Hs] [H1 H2];
      unfold log_ok, LOG_CREDIT_MAX, LOG_CREDIT_GRANT in *; lia.
  - apply twp_ret. unfold preserves. auto.
Qed.

Lemma log_handle_log est f : keeps (preserves log_ok) (_handle_log est f).
Proof.
  apply keeps_log_of; [exact log_respects | |].
  - apply (log_topup (λ c, c <? LOG_CREDIT_LOW_WATER)). intros c. apply Z.ltb_lt.
  - unfold preserves, log_ok. cbn. lia.
Qed.

Lemma log_complete : keeps (preserves log_ok) _complete_ready.
Proof.
  pose proof log_respects as HR. unfold _complete_ready.
  apply keeps_bind; [respected_by HR | keeps_by HR |]. intros [|]; [keeps_by HR |].
  do 3 (apply keeps_bind; [respected_by HR | keeps_by HR | intros ?]).
  apply keeps_bind; [respected_by HR | keeps_by HR |]. intros st.
  apply keeps_bind; [respected_by HR | apply keeps_modify; intros s; by apply log_ok_same |]. intros [].
  assert (Htop : keeps (preserves log_ok) (credit ← gets s_log_credit;
    if (credit : Z) =? 0 then _grant_log_credit LOG_CREDIT_GRANT else mret tt)).
  { apply (log_topup (λ c, c =? 0)). intros c ->%Z.eqb_eq. done. }
  assert (Hrest : keeps (preserves log_ok) (_ ← call_back OnReady;
    _ ← modify (set_ready_announced true); _ ← modify (set_ready true); modify (set_clock_task true))).
  { keeps_by HR; by apply log_ok_same. }
  by apply keeps_assoc, keeps_bind; [respected_by HR | |].
Qed.

(** ** Frames that are ignored *)

(** The frame belongs to the current session and no reopening is pending. *)
Definition current (s : session) (f : Frame) : Prop :=
  s_reopen_session_id s = None ∧ ∃ i, s_info s = Some i ∧ fr_session_id f = session_id i.

(** The frame's number is ahead of its channel's last one, in the circular
    order of 32-bit numbers. *)
Definition newer (s : session) (f : Frame) : Prop :=
  ∀ last, s_last_rx_sequence s !! Z.to_nat (fr_channel f) = Some (Some last) →
    0 < (fr_sequence f - last) mod 2 ^ 32 < 2 ^ 31.

Definition received (s : session) (f : Frame) : session :=
  set_last_rx_sequence
    (<[Z.to_nat (fr_channel f) := Some (fr_sequence f)]> (s_last_rx_sequence s)) s.

Lemma accept_newer s f : newer s f → _accept_sequence s f = (true, received s f).
Proof.
  unfold newer, _accept_sequence, received. intros H. change 0xFFFFFFFF with (Z.ones 32).
  destruct (s_last_rx_sequence s !! _) as [[last|]|]; [| done | done].
  specialize (H last eq_refl). cbn [default id]. rewrite Z.land_ones by lia.
  destruct (Z.eqb_spec ((fr_sequence f - last) mod 2 ^ 32) 0); [lia |].
  by destruct (Z.leb_spec 0x80000000 ((fr_sequence f - last) mod 2 ^ 32)); [lia |].
Qed.

Lemma accept_not_newer s f : ¬ newer s f → _accept_sequence s f = (false, s).
Proof.
  unfold newer, _accept_sequence. intros H. change 0xFFFFFFFF with (Z.ones 32).
  destruct (s_last_rx_sequence s !! _) as [[last|]|] eqn:Hl;
    [| by exfalso; apply H | by exfalso; apply H].
  cbn [default id]. rewrite Z.land_ones by lia.
  pose proof (Z.mod_pos_bound (fr_sequence f - last) (2 ^ 32)).
  destruct (Z.eqb_spec ((fr_sequence f - last) mod 2 ^ 32) 0); [done |].
  destruct (Z.leb_spec 0x80000000 ((fr_sequence f - last) mod 2 ^ 32)); [done |].
  exfalso. apply H. intros l [= <-]. lia.
Qed.

#[export] Instance current_dec s f : Decision (current s f).
Proof.
  unfold current. destruct (s_reopen_session_id s); [by right; intros [] |].
  destruct (s_info s) as [i|]; [| right; intros [_ (i & [=] & _)]].
  destruct (decide (fr_session_id f = session_id i)) as [He | He].
  - left. split; [done |]. by exists i.
  - right. intros [_ (j & [= <-] & Hj)]. done.
Defined.

#[export] Instance newer_dec s f : Decision (newer s f).
Proof.
  unfold newer. destruct (s_last_rx_sequence s !! _) as [[last|]|].
  - destruct (decide (0 < (fr_sequence f - last) mod 2 ^ 32 < 2 ^ 31)) as [H | H];
      [left; by intros l [= <-] | right; intros Hn; by apply H, Hn].
  - by left.
  - by left.
Defined.

Section frames.
Context (link_endpoint : string) (pairing_token : option bytes).
Context (estimate_wall_ns : Z → pyval) (clock_uncertainty_us host_receive_ns time_ns : pyval).
Abbreviation handle f := (_handle_frame link_endpoint pairing_token estimate_wall_ns
  clock_uncertainty_us host_receive_ns time_ns f).
Abbreviation dispatched f := (dispatch estimate_wall_ns clock_uncertainty_us host_receive_ns
  time_ns f).

Lemma handle_ignored f x :
  is_hello f = false → ¬ (current (rd_session x) f ∧ newer (rd_session x) f) →
  handle f x = (Done tt, x).
Proof.
  intros Hh Hn. unfold _handle_frame. rewrite Hh. unfold mbind, T_bind, gets, id.
  unfold current in Hn. destruct (s_reopen_session_id (rd_session x)); [done |].
  destruct (s_info (rd_session x)) as [i|]; [| done].
  destruct (Z.eqb_spec (fr_session_id f) (session_id i)) as [He |]; [| done]. cbn [negb].
  rewrite accept_not_newer; [done |]. intros H. apply Hn. split; [| done]. split; [done |].
  by exists i.
Qed.

Lemma handle_accepted f s answers random :
  is_hello f = false → current s f → newer s f →
  handle f (ReaderState s answers random)
  = (if is_auth_result f then
       _ ← t_lift (raise_if (negb (auth_accepted f)) ProtocolError
                     "ESP-Iris pairing proof was rejected");
       _complete_ready
     else dispatched f) (ReaderState (received s f) answers random).
Proof.
  intros Hh [Hr (i & Hi & Hs)] Hn. unfold _handle_frame. rewrite Hh.
  unfold gets at 1, id. unfold mbind at 1, T_bind at 1. cbn [rd_session].
  rewrite Hr, Hi, Hs, Z.eqb_refl, (accept_newer s f Hn). cbn [negb fst].
  unfold mbind at 1, T_bind at 1, modify at 1. cbn [rd_session rd_answers rd_random].
  by rewrite (accept_newer s f Hn).
Qed.
End frames.

Section properties.
Context (link_endpoint : string) (pairing_token : option bytes).
Context (estimate_wall_ns : Z → pyval) (clock_uncertainty_us host_receive_ns time_ns : pyval).
Abbreviation handle f := (_handle_frame link_endpoint pairing_token estimate_wall_ns
  clock_uncertainty_us host_receive_ns time_ns f).
Abbreviation running reads := (run link_endpoint pairing_token estimate_wall_ns
  clock_uncertainty_us host_receive_ns time_ns reads).
Abbreviation dispatched f := (dispatch estimate_wall_ns clock_uncertainty_us host_receive_ns
  time_ns f).

(** The invariants hold of every session [run] goes through. *)
Lemma run_keeps (I : session → Prop) reads :
  respects (preserves I) → keeps (preserves I) (_grant_log_credit LOG_CREDIT_GRANT) →
  (∀ s n, 0 ≤ n → preserves I s (set_log_credit (Z.max 0 (s_log_credit s - n)) s)) →
  keeps (preserves I) _complete_ready →
  (∀ s info s', adopt_info s info = Ok s' → preserves I s s') →
  (∀ s l, preserves I s (set_last_rx_sequence l s)) →
  ∀ answers random, I DeviceSession_init →
  I (rd_session (snd (running reads (ReaderState DeviceSession_init answers random)))).
Proof.
  intros HR Hg Hl Hc Ha Hrx answers random Hinit. revert Hinit.
  apply (keeps_run (preserves I) HR); try done.
  intros f. apply keeps_log_of; [done | by apply keeps_topup_of | done].
Qed.

Lemma requests_init : requests_ok DeviceSession_init.
Proof. by constructor. Qed.

Lemma run_requests reads answers random :
  requests_ok (rd_session (snd (running reads (ReaderState DeviceSession_init answers random)))).
Proof.
  apply run_keeps; try other_fields; auto using requests_respects, requests_grant,
    requests_complete, requests_init. exact requests_adopt.
Qed.

Lemma run_wire reads answers random :
  wire_ok (rd_session (snd (running reads (ReaderState DeviceSession_init answers random)))).
Proof.
  apply run_keeps; try wire_fields; auto using wire_respects, wire_grant, wire_complete.
  - exact wire_adopt.
  - split; [done |]. by intros [] f w l2.
Qed.

Lemma lives_preserves {A} (m : T A) : keeps lives m → keeps (preserves life_ok) m.
Proof. intros H s. eapply twp_mono; [apply H |]. intros o s' [Hl _]. exact Hl. Qed.

Lemma run_life reads answers random :
  life_ok (rd_session (snd (running reads (ReaderState DeviceSession_init answers random)))).
Proof.
  assert (Hf : ∀ s s', lives s s' → preserves life_ok s s') by by intros s s' [].
  pose proof lives_respects as HR.
  apply run_keeps; try (intros; apply Hf; life_fields).
  - constructor; intros; try (apply Hf; respected_by HR).
    + unfold preserves. auto.
    + by apply Hf, (re_resolve _ HR).
  - apply lives_preserves, lives_grant.
  - apply lives_preserves, lives_complete.
  - intros s info s' H. eapply Hf, lives_adopt, H.
  - by constructor.
Qed.

Lemma run_log reads answers random :
  log_ok (rd_session (snd (running reads (ReaderState DeviceSession_init answers random)))).
Proof.
  cut (preserves log_ok DeviceSession_init
    (rd_session (snd (running reads (ReaderState DeviceSession_init answers random))))).
  { intros H. by apply H. }
  apply (keeps_run (preserves log_ok) log_respects).
  - apply log_handle_log.
  - exact log_complete.
  - intros s info s' [_ ->]%adopt_info_cases. cbv zeta.
    by destruct (is_reopening s info), (negb _ && negb _); apply log_ok_same.
  - intros. by apply log_ok_same.
Qed.

(** The history of a session only grows, whoever acts and however often
    the tasks are interleaved: a settled request keeps its outcome, a closed
    session stays closed, an announced one announced, frames sent and callbacks
    made are never unmade, and the device is never exchanged: its session id
    changes at most once, by the one reopening that was requested. *)
Theorem session_history reads decoder x :
  evolves (rd_session x)
    (rd_session (snd (read_loop link_endpoint pairing_token estimate_wall_ns clock_uncertainty_us
       host_receive_ns time_ns decoder reads x))).
Proof.
  destruct x as [s answers random].
  apply (keeps_read_loop evolves evolves_respects); [| exact evolves_complete | exact evolves_adopt |].
  - intros f. apply keeps_log_of; [exact evolves_respects | |].
    + apply keeps_topup_of; [exact evolves_respects | apply evolves_grant].
    + intros. apply evolves_same; done.
  - intros. apply evolves_same; done.
Qed.

(** C6: every answer reached the request it was for.  In every session [run]
    can be in, however the requesting tasks, the closings and the frames are
    interleaved: a request that was answered got a frame with its own, non-zero
    request id; a closed session has no pending request; and as long as the
    32-bit counter has not wrapped around, no two requests had the same id, and
    a request that still waits is the one its id will be looked up to. *)
Theorem session_requests reads answers random :
  let s := rd_session (snd (running reads (ReaderState DeviceSession_init answers random))) in
  (∀ i id f, s_futures s !! i = Some (Future id (FResult f)) → fr_request_id f = id ∧ 0 < id < 2 ^ 32)
  ∧ (s_closed s = true → s_pending s = ∅)
  ∧ (Z.of_nat (length (s_futures s)) < 2 ^ 32 →
     NoDup (map fu_id (s_futures s))
     ∧ ∀ i id, s_futures s !! i = Some (Future id FWaiting) → s_pending s !! id = Some i).
Proof.
  destruct (run_requests reads answers random) as [_ _ H3 H4 H5 H6]. split; [| split; [exact H5 |]].
  - intros i id f Hi. split; [exact (H4 _ _ f Hi eq_refl) | exact (H3 _ _ Hi)].
  - intros (_ & Hid & Hw)%H6. split; [| done].
    apply NoDup_alt. intros i j id Hi Hj. rewrite list_lookup_fmap in Hi, Hj.
    destruct (_ !! i) as [u|] eqn:Eu; [| done]. destruct (_ !! j) as [v|] eqn:Ev in Hj; [| done].
    injection Hi as Hi. injection Hj as Hj. apply Hid in Eu, Ev. lia.
Qed.

(** The frames of a session are numbered without gaps.  In the order they
    were handed to the link, every frame carries the number after the last one
    its channel used since the session was opened or reopened (modulo 2^32),
    whichever tasks sent them. *)
Theorem session_wire_order reads answers random :
  numbered (s_sent (rd_session (snd (running reads (ReaderState DeviceSession_init answers random))))).
Proof. apply run_wire. Qed.

(** C39: the life of a session.  In every session [run] can be in: it is closed
    exactly if its state machine says so; ready is only set once the device was
    announced, which needs its identity and an accepted authentication; a
    reopening is pending only for the current session of a device that was
    asked for it; and the log credit stays between zero and the 384 KiB the
    grants amount to. *)
Theorem session_lifecycle reads answers random :
  let s := rd_session (snd (running reads (ReaderState DeviceSession_init answers random))) in
  (s_closed s = true ↔ s_state s = CLOSED)
  ∧ (s_ready s = true → s_ready_announced s = true)
  ∧ (s_ready_announced s = true → s_info s ≠ None ∧ s_state s ≠ NEGOTIATING)
  ∧ (∀ id, s_reopen_session_id s = Some id →
      s_reopen_requested s = true ∧ ∃ i, s_info s = Some i ∧ session_id i = id)
  ∧ 0 ≤ s_log_credit s < 384 * 1024.
Proof.
  destruct (run_life reads answers random). pose proof (run_log reads answers random).
  split_and!; try done; apply (run_log reads answers random).
Qed.

(** What [clean_up] leaves behind: no action brings a request or the session
    back. *)
Definition shut (s : session) : Prop :=
  s_closed s = true ∧ s_state s = CLOSED ∧ s_pending s = ∅.

Lemma shut_respects : respects (preserves shut).
Proof.
  assert (Hsame : ∀ s s', s_closed s' = s_closed s → s_state s' = s_state s →
    s_pending s' = s_pending s → preserves shut s s').
  { unfold preserves, shut. by intros s s' -> -> ->. }
  assert (Hw : ∀ s p, preserves shut s (fst (start_write p s))).
  { intros s p. destruct (start_write_fields p s) as (f & _ & _ & _ & ->). by apply Hsame. }
  constructor; try (intros; by apply Hsame); try exact Hw.
  - unfold preserves. auto.
  - intros s a Hs. pose proof Hs as (Hc & Hst & Hp). destruct a; cbn [act]; try (by apply (Hsame s)).
    + destruct (mark_closed_fields s) as (_ & ? & ? & _ & _ & _ & _ & _ & _ & ? & _). done.
    + by rewrite Hc, andb_false_r.
    + destruct (s_futures s !! i) as [[id []]|]; try done;
        (split; [done |]; split; [done |]; cbn; rewrite Hp; apply delete_empty).
    + destruct (s_write_lock s); [done |]. destruct (s_senders s !! i) as [p|]; [| done].
      pose proof (Hw (set_senders (delete i (s_senders s)) s) p) as H.
      destruct (start_write p _) as [s' [u|e]]; cbn [fst] in H; [apply (Hsame s') |]; by auto.
    + by destruct (s_write_lock s) as [[]|].
  - intros s i f _ _. unfold resolve. destruct (s_futures s !! i) as [[id []]|]; by apply Hsame.
Qed.

Lemma clean_up_shuts s : twp clean_up (λ _ s', shut s') s.
Proof.
  unfold clean_up. apply twp_bind, twp_modify.
  assert (Hs : shut (mark_closed s)).
  { destruct (mark_closed_fields s) as (_ & ? & ? & _ & _ & _ & _ & _ & _ & ? & _). done. }
  eapply twp_mono; [| intros o s' H; exact (H Hs)].
  assert (HR := shut_respects). revert Hs. generalize (mark_closed s). clear s. intros s _.
  apply (keeps_bind (preserves shut)); [respected_by HR | keeps_by HR |].
  intros clock. apply keeps_finally; [respected_by HR | apply HR | destruct clock; keeps_by HR | keeps_by HR].
Qed.

Lemma run_shuts reads x :
  fst (running reads x) ≠ Blocked → shut (rd_session (snd (running reads x))).
Proof.
  unfold run, t_finally. destruct (read_loop _ _ _ _ _ _ _ _ _) as [[u|e|] [s answers random]].
  - intros _. apply (twp_bind clean_up (λ _, mret u) (λ _ s', shut s')).
    eapply twp_mono; [apply clean_up_shuts |]. by intros [] s' Hs; [apply twp_ret | |].
  - intros _. apply (twp_bind clean_up (λ _, t_lift (Err e) : T unit) (λ _ s', shut s')).
    eapply twp_mono; [apply clean_up_shuts |]. by intros [] s' Hs; [apply twp_lift | |].
  - by intros [].
Qed.

(** C38: however [run] ends - the link closed, a protocol error, a rejected
    pairing, a failing callback, a cancelled read - the session is closed
    afterwards and no request is left waiting for an answer. *)
Theorem run_cleans_up reads answers random o x :
  running reads (ReaderState DeviceSession_init answers random) = (o, x) → o ≠ Blocked →
  s_closed (rd_session x) = true ∧ s_state (rd_session x) = CLOSED ∧ s_pending (rd_session x) = ∅
  ∧ (Z.of_nat (length (s_futures (rd_session x))) < 2 ^ 32 →
     ∀ i fu, s_futures (rd_session x) !! i = Some fu → fu_state fu ≠ FWaiting).
Proof.
  intros Hrun Ho. pose proof (run_requests reads answers random) as [_ _ _ _ _ H6].
  pose proof (run_shuts reads (ReaderState DeviceSession_init answers random)) as Hs.
  rewrite Hrun in *. cbn [fst snd] in *. destruct (Hs Ho) as (Hc & Hst & Hp). split_and!; try done.
  intros (_ & _ & Hw)%H6 i [id st] Hi Hst'. cbn in Hst'. subst st.
  apply Hw in Hi. by rewrite Hp in Hi.
Qed.

(** C28: a device is announced only after an accepted handshake.  The frame
    that makes a session ready is a HELLO that needs no authentication, or the
    acceptance of the host's proof, sent in the current session and in order. *)
Theorem ready_authenticated f x :
  s_ready_announced (rd_session x) = false →
  s_ready_announced (rd_session (snd (handle f x))) = true →
  (is_hello f = true ∧ ∃ fields i, hello_info link_endpoint f = Ok (fields, i) ∧ auth_mode i = 0)
  ∨ (is_auth_result f = true ∧ current (rd_session x) f ∧ newer (rd_session x) f
     ∧ fr_payload f = [1] ∧ Z.land (fr_flags f) 0x02 = 0).
Proof.
  intros Hx. set (G := _ ∨ _).
  assert (Hsame : ∀ A (m : T A) y, keeps (same s_ready_announced) m →
    s_ready_announced (rd_session y) = false →
    s_ready_announced (rd_session (snd (m y))) = true → G).
  { intros A m [s answers random] Hm Hy. rewrite (Hm s answers random). cbn in Hy. congruence. }
  pose proof same_announced_respects as HR.
  destruct (is_hello f) eqn:Hh.
  - unfold _handle_frame. rewrite Hh. unfold _handle_hello. unfold mbind at 1, T_bind at 1, t_lift at 1.
    destruct (hello_info link_endpoint f) as [[fields i]|e] eqn:Hi; [| cbn; congruence].
    unfold mbind at 1, T_bind at 1, t_update at 1.
    destruct (adopt_info (rd_session x) i) as [s1|e] eqn:Ha; [| cbn; congruence].
    assert (Hs1 : s_ready_announced s1 = false).
    { apply adopt_info_cases in Ha as [_ ->]. cbv zeta.
      by destruct (is_reopening (rd_session x) i), (negb _ && negb _). }
    destruct (Z.eqb_spec (auth_mode i) 0) as [Hm | Hm].
    { intros _. left. split; [done |]. by exists fields, i. }
    apply Hsame; [| exact Hs1]. apply keeps_bind; [respected_by HR | keeps_by HR |]. intros reopen.
    destruct (negb _); [keeps_by HR |]. destruct (negb _); [keeps_by HR |].
    destruct pairing_token; keeps_by HR.
  - destruct (decide (current (rd_session x) f ∧ newer (rd_session x) f)) as [[Hc Hn] | Hn].
    2: { rewrite handle_ignored by done. cbn. congruence. }
    destruct x as [s answers random]. cbn [rd_session] in *. rewrite handle_accepted by done.
    destruct (is_auth_result f) eqn:Hauth.
    + unfold raise_if. destruct (auth_accepted f) eqn:Hok; [| change (s_ready_announced s = true → G); congruence].
      intros _. right. unfold auth_accepted in Hok. apply andb_true_iff in Hok as [Hp Hf].
      apply bool_decide_eq_true in Hp. apply Z.eqb_eq in Hf. done.
    + intros H. eapply (Hsame _ (dispatched f)); [| | exact H]; [| done].
      intros s'. apply dispatch_keeps; [exact HR |].
      intros g. apply keeps_log_of; [exact HR | | done].
      apply keeps_topup_of; [exact HR |]. by apply grant_keeps.
Qed.

(** No frame is handled twice.  Once a frame that is not a HELLO has been
    handled, a repetition of it changes nothing: no callback, no answer to a
    request, no credit; and neither does any frame whose number is not ahead of
    the last one of its channel. *)
Theorem duplicate_ignored f x x' :
  is_hello f = false → 0 ≤ fr_channel f < Z.of_nat (length (s_last_rx_sequence (rd_session x))) →
  handle f x = (Done tt, x') → handle f x' = (Done tt, x').
Proof.
  intros Hh Hch Hx.
  destruct (decide (current (rd_session x) f ∧ newer (rd_session x) f)) as [[Hc Hn] | Hn].
  2: { rewrite handle_ignored in Hx by done. injection Hx as <-. by apply handle_ignored. }
  apply handle_ignored; [done |]. intros [_ Hn'].
  destruct x as [s answers random]. cbn [rd_session] in *. rewrite handle_accepted in Hx by done.
  assert (Hrx : s_last_rx_sequence (rd_session x') = s_last_rx_sequence (received s f)).
  { pose proof same_rx_respects as HR.
    assert (Hkeep : ∀ m, twp m (λ _ s', same s_last_rx_sequence (received s f) s') (received s f) →
      m (ReaderState (received s f) answers random) = (Done tt, x') →
      s_last_rx_sequence (rd_session x') = s_last_rx_sequence (received s f)).
    { intros m Hm Heq. specialize (Hm answers random). by rewrite Heq in Hm. }
    destruct (is_auth_result f); eapply Hkeep; try exact Hx.
    - apply (keeps_bind (same s_last_rx_sequence)); [respected_by HR | keeps_by HR |].
      intros u. apply complete_keeps; try done. by apply grant_keeps.
    - apply dispatch_keeps; [exact HR |]. intros g. apply keeps_log_of; [exact HR | | done].
      apply keeps_topup_of; [exact HR |]. by apply grant_keeps. }
  specialize (Hn' (fr_sequence f)). rewrite Hrx in Hn'. cbn in Hn'.
  rewrite list_lookup_insert_eq in Hn' by lia. specialize (Hn' eq_refl).
  rewrite Z.sub_diag in Hn'. change (0 mod 2 ^ 32) with 0 in Hn'. lia.
Qed.

(** An answer that comes after its request was given up, on a media channel, is
    handled as media: it ends the session unless it looks like a media frame. *)
Lemma late_answer_raises f s answers random :
  current s f → newer s f → fr_channel f = Channel.SCREEN → fr_type f ≠ MediaType.DATA →
  s_pending s !! fr_request_id f = None →
  fst (handle f (ReaderState s answers random))
  = Raised (Exn ProtocolError "invalid media data frame" 0).
Proof.
  intros Hc Hn Hch Ht Hp. 
  assert (Hh : is_hello f = false) by (unfold is_hello; by rewrite Hch).
  assert (Ha : is_auth_result f = false) by (unfold is_auth_result; by rewrite Hch).
  rewrite handle_accepted by done. rewrite Ha. unfold dispatch, mbind, T_bind, gets. cbn [rd_session].
  change (s_pending (received s f)) with (s_pending s). rewrite Hp, Hch.
  assert (Hm : decode_media f = raise ProtocolError "invalid media data frame").
  { unfold decode_media. by rewrite (proj2 (Z.eqb_neq _ _) Ht). }
  destruct (fr_request_id f =? 0); cbn; unfold _handle_media; by rewrite Hm.
Qed.
End properties.

(** ** A session *)

Definition nothing_known (t : Z) : pyval := PNone.
(** HELLO without pairing, one request by another task, its answer, the end. *)
Definition example_reads : list link_read :=
  [([], encode_frame (example_hello 0));
   ([ARequest Channel.CONTROL ControlType.STATUS_REQUEST [] 0; AStartWrite 0; AEndWrite],
    encode_frame (mkFrame Channel.CONTROL ControlType.STATUS_RESPONSE 0 (fr_session_id (example_hello 0))
                    1 0 9 [1; 2]));
   ([], Ok [])].
Definition ok_answers (n : nat) : list answer := repeat (Answer [] (Ok tt)) n.
Abbreviation example_run := (run "tcp:x" None nothing_known PNone PNone PNone example_reads
  (ReaderState DeviceSession_init (ok_answers 9) [])).
Definition is_blocked {A} (o : outcome A) : bool := match o with Blocked => true | _ => false end.
Lemma example_run_ends : is_blocked (fst example_run) = false.
Proof. vm_compute. reflexivity. Qed.

Lemma run_cleans_up_witness : ∃ o x, example_run = (o, x) ∧ o ≠ Blocked ∧ s_closed (rd_session x) = true.
Proof.
  pose proof example_run_ends as Hend. destruct example_run as [o x] eqn:Hrun.
  assert (Ho : o ≠ Blocked) by (intros ->; discriminate Hend).
  exists o, x. split; [reflexivity |]. split; [exact Ho |].
  exact (proj1 (run_cleans_up "tcp:x" None nothing_known PNone PNone PNone example_reads
    (ok_answers 9) [] o x Hrun Ho)).
Defined.

Abbreviation example_handle f := (_handle_frame "tcp:x" None nothing_known PNone PNone PNone f).
Definition example_start : reader := ReaderState DeviceSession_init (ok_answers 9) [].
Lemma example_announced : s_ready_announced (rd_session (snd (example_handle (example_hello 0) example_start))) = true.
Proof. vm_compute. reflexivity. Qed.

Lemma ready_authenticated_witness :
  s_ready_announced (rd_session example_start) = false
  ∧ s_ready_announced (rd_session (snd (example_handle (example_hello 0) example_start))) = true
  ∧ ∃ f, f = example_hello 0 ∧ (is_hello f = true ∨ is_auth_result f = true).
Proof.
  split; [reflexivity |]. split; [exact example_announced |]. exists (example_hello 0). split; [reflexivity |].
  destruct (ready_authenticated "tcp:x" None nothing_known PNone PNone PNone (example_hello 0)
    example_start eq_refl example_announced) as [[H _] | [H _]]; [left; exact H | right; exact H].
Defined.

Definition example_log : Frame := mkFrame Channel.LOG 1 0 77 0 0 5 (repeat 0 16).
Abbreviation example_before := (snd (example_handle (example_hello 0) example_start)).
Lemma example_logged :
  fst (example_handle example_log example_before) = Done tt
  ∧ s_notices (rd_session (snd (example_handle example_log example_before)))
    ≠ s_notices (rd_session example_before)
  ∧ length (s_last_rx_sequence (rd_session example_before)) = 10%nat.
Proof.
  split; [vm_compute; reflexivity |]. split; [| vm_compute; reflexivity].
  intros H. apply (f_equal length) in H. vm_compute in H. discriminate H.
Qed.

Lemma duplicate_ignored_witness : ∃ x', example_handle example_log example_before = (Done tt, x')
  ∧ s_notices (rd_session x') ≠ s_notices (rd_session example_before)
  ∧ example_handle example_log x' = (Done tt, x').
Proof.
  destruct example_logged as (Hd & Hn & Hlen).
  destruct (example_handle example_log example_before) as [o x'] eqn:H. cbn [fst snd] in Hd, Hn.
  subst o. exists x'. split; [reflexivity |]. split; [exact Hn |].
  refine (duplicate_ignored "tcp:x" None nothing_known PNone PNone PNone example_log example_before
    x' eq_refl _ H). rewrite Hlen. cbn. lia.
Defined.
