(* ===== verification/Migrations.v ===== *)
(** * Schema migrations ([migrations.py])

    The schema of the gateway's database, and the statements that bring an older
    one up to date.  SQLite commits each of these statements on its own: the
    connection is in Python's default transaction mode, in which only INSERT,
    UPDATE, DELETE and REPLACE open a transaction, so the [with db] around a
    migration has nothing to roll back.  A gateway that stops between two
    statements therefore restarts with a schema in between. *)
From S2P Require Import Prelude.

(** ** Schemas *)

Inductive statement :=
| CreateTable (if_not_exists : bool) (table : string) (columns : list string)
| CreateIndex (if_not_exists : bool) (index table : string)
| AddColumn (table column : string)
| AddColumnIfMissing (table name column : string)   (* PRAGMA table_info, then ALTER TABLE *)
| SetVersion (version : Z).                         (* PRAGMA user_version *)

(** Tables with the declarations of their columns, indexes with their tables. *)
Record database := Database {
  db_tables : list (string * list string);
  db_indexes : list (string * string);
  db_user_version : Z;
}.
Definition empty_database : database := Database [] [] 0.

#[export] Instance database_eq_dec : EqDecision database.
Proof. solve_decision. Defined.

Definition find_table (name : string) (db : database) : option (list string) :=
  option_map snd (find (λ t, (fst t =? name)%string) (db_tables db)).

(** The name a column declaration starts with. *)
Fixpoint first_word (s : string) : string :=
  match s with
  | EmptyString => EmptyString
  | String c s => if Ascii.eqb c " " then EmptyString else String c (first_word s)
  end.

Definition add_column (table column : string) (db : database) : database * res unit :=
  match find_table table db with
  | None => (db, raise OperationalError "no such table")
  | Some columns =>
    if existsb (λ c, (first_word c =? first_word column)%string) columns
    then (db, raise OperationalError "duplicate column name")
    else (Database (map (λ t, if (fst t =? table)%string then (fst t, snd t ++ [column]) else t)
            (db_tables db)) (db_indexes db) (db_user_version db), Ok tt)
  end.

Definition exec (st : statement) (db : database) : database * res unit :=
  match st with
  | CreateTable if_not_exists table columns =>
    match find_table table db with
    | Some _ => (db, if if_not_exists then Ok tt else raise OperationalError "table already exists")
    | None => (Database (db_tables db ++ [(table, columns)]) (db_indexes db) (db_user_version db), Ok tt)
    end
  | CreateIndex if_not_exists index table =>
    if existsb (λ i, (fst i =? index)%string) (db_indexes db)
    then (db, if if_not_exists then Ok tt else raise OperationalError "index already exists")
    else match find_table table db with
         | None => (db, raise OperationalError "no such table")
         | Some _ => (Database (db_tables db) (db_indexes db ++ [(index, table)]) (db_user_version db), Ok tt)
         end
  | AddColumn table column => add_column table column db
  | AddColumnIfMissing table name column =>
    if existsb (λ c, (first_word c =? name)%string) (default [] (find_table table db)) then (db, Ok tt)
    else add_column table column db
  | SetVersion version => (Database (db_tables db) (db_indexes db) version, Ok tt)
  end.

(** Statements in sequence, until one raises. *)
Fixpoint exec_all (l : list statement) (db : database) : database * res unit :=
  match l with
  | [] => (db, Ok tt)
  | st :: l => match exec st db with
               | (db, Ok _) => exec_all l db
               | (db, Err e) => (db, Err e)
               end
  end.

(** ** The migrations *)

Definition _migration_1 : list statement := [
  CreateTable true "settings" ["key TEXT PRIMARY KEY"; "value TEXT NOT NULL"; "updated_ns INTEGER NOT NULL"];
  CreateTable true "devices" ["device_id TEXT PRIMARY KEY"; "alias TEXT UNIQUE";
    "first_seen_ns INTEGER NOT NULL"; "last_seen_ns INTEGER NOT NULL"; "cached_json TEXT NOT NULL"];
  CreateTable true "sessions" ["id INTEGER PRIMARY KEY AUTOINCREMENT"; "device_id TEXT NOT NULL";
    "boot_id TEXT"; "session_id TEXT"; "endpoint TEXT"; "started_ns INTEGER NOT NULL"; "ended_ns INTEGER"];
  CreateTable true "operations" ["operation_id TEXT PRIMARY KEY"; "device_id TEXT NOT NULL";
    "actor_type TEXT NOT NULL"; "actor_name TEXT NOT NULL"; "action TEXT NOT NULL";
    "params_json TEXT NOT NULL"; "status TEXT NOT NULL"; "result_json TEXT"; "error TEXT";
    "created_ns INTEGER NOT NULL"; "started_ns INTEGER"; "finished_ns INTEGER";
    "queue_position INTEGER NOT NULL DEFAULT 0"];
  CreateIndex true "operations_device_created" "operations";
  CreateTable true "events" ["event_id INTEGER PRIMARY KEY AUTOINCREMENT"; "device_id TEXT";
    "category TEXT NOT NULL"; "host_receive_ns INTEGER NOT NULL"; "payload_json TEXT NOT NULL"];
  CreateIndex true "events_device_cursor" "events";
  CreateTable true "system_audit" ["audit_id INTEGER PRIMARY KEY AUTOINCREMENT"; "actor_type TEXT NOT NULL";
    "actor_name TEXT NOT NULL"; "action TEXT NOT NULL"; "details_json TEXT NOT NULL";
    "created_ns INTEGER NOT NULL"];
  CreateTable true "agent_tokens" ["token_id TEXT PRIMARY KEY"; "name TEXT NOT NULL UNIQUE";
    "token_hash TEXT NOT NULL"; "created_ns INTEGER NOT NULL"; "last_used_ns INTEGER"; "revoked_ns INTEGER"];
  CreateTable true "log_index" ["id INTEGER PRIMARY KEY AUTOINCREMENT"; "device_id TEXT NOT NULL";
    "path TEXT NOT NULL"; "first_event_id INTEGER NOT NULL"; "last_event_id INTEGER NOT NULL";
    "first_ns INTEGER NOT NULL"; "last_ns INTEGER NOT NULL";
    "compressed_bytes INTEGER NOT NULL DEFAULT 0"; "UNIQUE(device_id, path)"];
  CreateTable true "firmware_artifacts" ["artifact_id TEXT PRIMARY KEY"; "binary_sha256 TEXT NOT NULL UNIQUE";
    "elf_sha256 TEXT NOT NULL"; "project_name TEXT NOT NULL"; "version TEXT NOT NULL";
    "manifest_json TEXT NOT NULL"; "created_ns INTEGER NOT NULL"];
  CreateIndex true "firmware_artifacts_elf_sha" "firmware_artifacts"]%string.

Definition _migration_2 : list statement :=
  [AddColumnIfMissing "operations" "progress_json" "progress_json TEXT"]%string.

Definition quote : string := String (ascii_of_nat 34) EmptyString.
Definition scopes_column : string :=
  ("scopes_json TEXT NOT NULL DEFAULT '[" ++ quote ++ "files.read" ++ quote ++ "]'")%string.
Definition _migration_3 : list statement := [
  CreateTable true "agent_tokens" ["token_id TEXT PRIMARY KEY"; "name TEXT NOT NULL UNIQUE";
    "token_hash TEXT NOT NULL"; "created_ns INTEGER NOT NULL"; "last_used_ns INTEGER";
    "revoked_ns INTEGER"; scopes_column];
  AddColumnIfMissing "agent_tokens" "scopes_json" scopes_column]%string.

Definition _migration_4 : list statement := [
  CreateTable true "maintenance_leases" ["lease_id TEXT PRIMARY KEY"; "device_id TEXT NOT NULL";
    "token_hash TEXT NOT NULL"; "purpose TEXT NOT NULL"; "state TEXT NOT NULL"; "endpoint_json TEXT NOT NULL";
    "evidence_json TEXT NOT NULL"; "previous_boot_id TEXT"; "expected_version TEXT"; "actor_type TEXT NOT NULL";
    "actor_name TEXT NOT NULL"; "created_ns INTEGER NOT NULL"; "expires_ns INTEGER NOT NULL";
    "finished_ns INTEGER"; "error TEXT"];
  CreateIndex true "maintenance_one_active_per_device" "maintenance_leases"]%string.

Definition _migration_5 : list statement :=
  [AddColumn "operations" "request_fingerprint TEXT"]%string.

Definition _migration_6 : list statement := [
  CreateTable false "operation_reconciliations" ["reconciliation_id TEXT PRIMARY KEY";
    "operation_id TEXT NOT NULL REFERENCES operations(operation_id)"; "record_json TEXT NOT NULL"];
  CreateIndex false "reconciliation_operation" "operation_reconciliations"]%string.

Definition MIGRATIONS : list (list statement) :=
  [_migration_1; _migration_2; _migration_3; _migration_4; _migration_5; _migration_6].
Definition LATEST_SCHEMA_VERSION : Z := Z.of_nat (length MIGRATIONS).

(** The statements a database of version [current] still has to execute. *)
Definition script (current : Z) : list statement :=
  concat (imap (λ i migration,
    let version := Z.of_nat i + 1 in
    if version <=? current then [] else migration ++ [SetVersion version]) MIGRATIONS).

Definition apply_migrations (db : database) : database * res Z :=
  if LATEST_SCHEMA_VERSION <? db_user_version db
  then (db, raise RuntimeError "gateway database schema is newer than supported")
  else match exec_all (script (db_user_version db)) db with
       | (db, Ok _) => (db, Ok LATEST_SCHEMA_VERSION)
       | (db, Err e) => (db, Err e)
       end.

(** ** What the migrations reach *)

(** The database of a gateway that stopped after [n] statements of its first start. *)
Definition stopped_after (n : nat) : database := fst (exec_all (take n (script 0)) empty_database).
Definition latest_database : database := fst (apply_migrations empty_database).

Definition has_columns (table : string) (names : list string) (db : database) : bool :=
  match find_table table db with
  | Some columns => forallb (λ n, existsb (λ c, (first_word c =? n)%string) columns) names
  | None => false
  end.

Definition outcome_eqb (r r' : database * res Z) : bool :=
  bool_decide (fst r = fst r')
  && match snd r, snd r' with
     | Ok a, Ok b => a =? b
     | Err e, Err e' => bool_decide (exn_cls e = exn_cls e') && (exn_msg e =? exn_msg e')%string
                        && (exn_status e =? exn_status e')
     | _, _ => false
     end.

Lemma outcome_eqb_eq r r' : outcome_eqb r r' = true → r = r'.
Proof.
  destruct r as [db [a|[c m s]]], r' as [db' [b|[c' m' s']]]; unfold outcome_eqb; cbn [fst snd exn_cls exn_msg exn_status];
    rewrite ?andb_true_iff, ?bool_decide_eq_true; try (by intros [? ?]).
  - by intros [-> ->%Z.eqb_eq].
  - by intros [-> [[-> ->%String.eqb_eq] ->%Z.eqb_eq]].
Qed.

(** The statements of versions 5 and 6 that cannot be repeated, as positions in
    the script of a first start. *)
Definition unrepeatable : list (nat * string) :=
  [(22%nat, "duplicate column name"); (24%nat, "table already exists"); (25%nat, "table already exists")]%string.

Definition restarted (n : nat) : database * res Z :=
  match find (λ p, (fst p =? n)%nat) unrepeatable with
  | Some (_, message) => (stopped_after n, raise OperationalError message)
  | None => (latest_database, Ok LATEST_SCHEMA_VERSION)
  end.

Lemma restarts_all :
  forallb (λ n, outcome_eqb (apply_migrations (stopped_after n)) (restarted n)) (seq 0 (S (length (script 0)))) = true.
Proof. vm_compute. reflexivity. Qed.

(** A gateway can be stopped after any statement of its first start, or of
    an upgrade, and the next start reaches the schema an uninterrupted one
    reaches, except right after the statements of versions 5 and 6 that cannot
    be repeated: there the next start fails and leaves the database as it is,
    so that every later start fails too.  A database of a newer version is
    refused and left alone, one of the latest version needs nothing. *)
Theorem migrations_restart :
  (∀ n, (n ≤ length (script 0))%nat → apply_migrations (stopped_after n) = restarted n)
  ∧ (∀ db, LATEST_SCHEMA_VERSION < db_user_version db →
      apply_migrations db = (db, raise RuntimeError "gateway database schema is newer than supported"))
  ∧ (∀ db, db_user_version db = LATEST_SCHEMA_VERSION → apply_migrations db = (db, Ok LATEST_SCHEMA_VERSION)).
Proof.
  split; [| split].
  - intros n Hn. apply outcome_eqb_eq. pose proof restarts_all as H. rewrite forallb_forall in H.
    apply H, in_seq. lia.
  - intros db Hv. unfold apply_migrations. by rewrite (proj2 (Z.ltb_lt _ _) Hv).
  - intros db Hv. unfold apply_migrations. by rewrite Hv.
Qed.
