(* ===== verification/Store.v ===== *)
(** * The gateway's store ([store.py])

    The SQLite tables as lists of rows, oldest first, and each method as the SQL
    statements it executes, in order.  A method returns the new store and its
    result, since some raise after they have written.  JSON columns hold the
    text [_json] wrote.  Every method ends by committing, so the store between
    two calls is what a restarted gateway reads; the raw log files and the
    artifact files are a map from paths to contents.  Clock readings, random
    ids and file sizes are arguments. *)
From stdpp Require Import sorting pretty.
From S2P Require Import Prelude Text Value Json JsonDump Sha256 OperationIdentity DeviceInfo.

(** ** Values *)

Definition _json (value : pyval) : string := json_dumps value.
Definition _loads (value : option string) (default_ : pyval) : res pyval :=
  match value with None => Ok default_ | Some text => json_loads plain_object text end.

(** [bool(value)] *)
Definition truthy (v : pyval) : bool :=
  match v with
  | PNone => false | PBool b => b | PInt z => negb (z =? 0)
  | PFloat r => negb (existsb (String.eqb r) ["0.0"; "-0.0"]%string)
  | PStr s => negb (s =? "")%string | PList l => negb (is_nil l) | PDict d => negb (is_nil d)
  end.

(** [dict(value)] of a decoded object. *)
Definition as_object (v : pyval) : list (string * pyval) := match v with PDict d => d | _ => [] end.

(** [d.update(e)] *)
Definition dict_updated (d e : list (string * pyval)) : list (string * pyval) :=
  fold_left (λ d kv, dict_set (fst kv) (snd kv) d) e d.

(** ** Rows *)

Record device_row := DeviceRow {
  dv_device_id : string;
  dv_alias : option string;
  dv_first_seen_ns : Z;
  dv_last_seen_ns : Z;
  dv_cached_json : string;
}.

Record session_row := SessionRow {
  sn_id : Z;
  sn_device_id : string;
  sn_boot_id : string;
  sn_session_id : string;
  sn_endpoint : pyval;
  sn_started_ns : Z;
  sn_ended_ns : option Z;
}.

Record event_row := EventRow {
  ev_event_id : Z;
  ev_device_id : option string;
  ev_category : string;
  ev_host_receive_ns : Z;
  ev_payload_json : string;
}.

Record operation_row := OperationRow {
  op_operation_id : string;
  op_device_id : string;
  op_actor_type : string;
  op_actor_name : string;
  op_action : string;
  op_params_json : string;
  op_status : string;
  op_result_json : option string;
  op_error : option string;
  op_created_ns : Z;
  op_started_ns : option Z;
  op_finished_ns : option Z;
  op_queue_position : Z;
  op_progress_json : option string;
  op_request_fingerprint : option string;
}.

Record lease_row := LeaseRow {
  ls_lease_id : string;
  ls_device_id : string;
  ls_token_hash : string;
  ls_purpose : string;
  ls_state : string;
  ls_endpoint_json : string;
  ls_evidence_json : string;
  ls_previous_boot_id : option string;
  ls_expected_version : option string;
  ls_actor_type : string;
  ls_actor_name : string;
  ls_created_ns : Z;
  ls_expires_ns : Z;
  ls_finished_ns : option Z;
  ls_error : option string;
}.

Record audit_row := AuditRow {
  au_audit_id : Z;
  au_actor_type : string;
  au_actor_name : string;
  au_action : string;
  au_details_json : string;
  au_created_ns : Z;
}.

Record artifact_row := ArtifactRow {
  ar_artifact_id : string;
  ar_binary_sha256 : string;
  ar_elf_sha256 : string;
  ar_project_name : string;
  ar_version : string;
  ar_manifest_json : string;
  ar_created_ns : Z;
}.

Record log_row := LogRow {
  lg_device_id : string;
  lg_path : string;
  lg_first_event_id : Z;
  lg_last_event_id : Z;
  lg_first_ns : Z;
  lg_last_ns : Z;
  lg_compressed_bytes : Z;
}.

Record token_row := TokenRow {
  tk_token_id : string;
  tk_name : string;
  tk_token_hash : string;
  tk_created_ns : Z;
  tk_last_used_ns : option Z;
  tk_revoked_ns : option Z;
  tk_scopes_json : string;
}.

(** The tables; [st_event_seq] and the like are the AUTOINCREMENT counters,
    [st_files] the files under the root, text files by their lines. *)
Record GatewayStore := Store {
  st_settings : list (string * (string * Z));
  st_devices : list device_row;
  st_sessions : list session_row;
  st_session_seq : Z;
  st_events : list event_row;
  st_event_seq : Z;
  st_operations : list operation_row;
  st_leases : list lease_row;
  st_audit : list audit_row;
  st_audit_seq : Z;
  st_artifacts : list artifact_row;
  st_log_index : list log_row;
  st_tokens : list token_row;
  st_reconciliations : list (string * string * string);
  st_logs : gmap string (list string);
  st_files : gmap string bytes;
}.

Definition GatewayStore_init : GatewayStore :=
  Store [] [] [] 0 [] 0 [] [] [] 0 [] [] [] [] ∅ ∅.

(** Assignments to one table. *)
Definition set_settings v (s : GatewayStore) : GatewayStore :=
  Store v (st_devices s) (st_sessions s) (st_session_seq s) (st_events s) (st_event_seq
    s) (st_operations s) (st_leases s) (st_audit s) (st_audit_seq s) (st_artifacts s)
    (st_log_index s) (st_tokens s) (st_reconciliations s) (st_logs s) (st_files s).
Definition set_devices v (s : GatewayStore) : GatewayStore :=
  Store (st_settings s) v (st_sessions s) (st_session_seq s) (st_events s) (st_event_seq
    s) (st_operations s) (st_leases s) (st_audit s) (st_audit_seq s) (st_artifacts s)
    (st_log_index s) (st_tokens s) (st_reconciliations s) (st_logs s) (st_files s).
Definition set_sessions v (s : GatewayStore) : GatewayStore :=
  Store (st_settings s) (st_devices s) v (st_session_seq s) (st_events s) (st_event_seq
    s) (st_operations s) (st_leases s) (st_audit s) (st_audit_seq s) (st_artifacts s)
    (st_log_index s) (st_tokens s) (st_reconciliations s) (st_logs s) (st_files s).
Definition set_session_seq v (s : GatewayStore) : GatewayStore :=
  Store (st_settings s) (st_devices s) (st_sessions s) v (st_events s) (st_event_seq s)
    (st_operations s) (st_leases s) (st_audit s) (st_audit_seq s) (st_artifacts s)
    (st_log_index s) (st_tokens s) (st_reconciliations s) (st_logs s) (st_files s).
Definition set_events v (s : GatewayStore) : GatewayStore :=
  Store (st_settings s) (st_devices s) (st_sessions s) (st_session_seq s) v
    (st_event_seq s) (st_operations s) (st_leases s) (st_audit s) (st_audit_seq s)
    (st_artifacts s) (st_log_index s) (st_tokens s) (st_reconciliations s) (st_logs s)
    (st_files s).
Definition set_event_seq v (s : GatewayStore) : GatewayStore :=
  Store (st_settings s) (st_devices s) (st_sessions s) (st_session_seq s) (st_events s)
    v (st_operations s) (st_leases s) (st_audit s) (st_audit_seq s) (st_artifacts s)
    (st_log_index s) (st_tokens s) (st_reconciliations s) (st_logs s) (st_files s).
Definition set_operations v (s : GatewayStore) : GatewayStore :=
  Store (st_settings s) (st_devices s) (st_sessions s) (st_session_seq s) (st_events s)
    (st_event_seq s) v (st_leases s) (st_audit s) (st_audit_seq s) (st_artifacts s)
    (st_log_index s) (st_tokens s) (st_reconciliations s) (st_logs s) (st_files s).
Definition set_leases v (s : GatewayStore) : GatewayStore :=
  Store (st_settings s) (st_devices s) (st_sessions s) (st_session_seq s) (st_events s)
    (st_event_seq s) (st_operations s) v (st_audit s) (st_audit_seq s) (st_artifacts s)
    (st_log_index s) (st_tokens s) (st_reconciliations s) (st_logs s) (st_files s).
Definition set_audit v (s : GatewayStore) : GatewayStore :=
  Store (st_settings s) (st_devices s) (st_sessions s) (st_session_seq s) (st_events s)
    (st_event_seq s) (st_operations s) (st_leases s) v (st_audit_seq s) (st_artifacts s)
    (st_log_index s) (st_tokens s) (st_reconciliations s) (st_logs s) (st_files s).
Definition set_audit_seq v (s : GatewayStore) : GatewayStore :=
  Store (st_settings s) (st_devices s) (st_sessions s) (st_session_seq s) (st_events s)
    (st_event_seq s) (st_operations s) (st_leases s) (st_audit s) v (st_artifacts s)
    (st_log_index s) (st_tokens s) (st_reconciliations s) (st_logs s) (st_files s).
Definition set_artifacts v (s : GatewayStore) : GatewayStore :=
  Store (st_settings s) (st_devices s) (st_sessions s) (st_session_seq s) (st_events s)
    (st_event_seq s) (st_operations s) (st_leases s) (st_audit s) (st_audit_seq s) v
    (st_log_index s) (st_tokens s) (st_reconciliations s) (st_logs s) (st_files s).
Definition set_log_index v (s : GatewayStore) : GatewayStore :=
  Store (st_settings s) (st_devices s) (st_sessions s) (st_session_seq s) (st_events s)
    (st_event_seq s) (st_operations s) (st_leases s) (st_audit s) (st_audit_seq s)
    (st_artifacts s) v (st_tokens s) (st_reconciliations s) (st_logs s) (st_files s).
Definition set_tokens v (s : GatewayStore) : GatewayStore :=
  Store (st_settings s) (st_devices s) (st_sessions s) (st_session_seq s) (st_events s)
    (st_event_seq s) (st_operations s) (st_leases s) (st_audit s) (st_audit_seq s)
    (st_artifacts s) (st_log_index s) v (st_reconciliations s) (st_logs s) (st_files s).
Definition set_reconciliations v (s : GatewayStore) : GatewayStore :=
  Store (st_settings s) (st_devices s) (st_sessions s) (st_session_seq s) (st_events s)
    (st_event_seq s) (st_operations s) (st_leases s) (st_audit s) (st_audit_seq s)
    (st_artifacts s) (st_log_index s) (st_tokens s) v (st_logs s) (st_files s).
Definition set_logs v (s : GatewayStore) : GatewayStore :=
  Store (st_settings s) (st_devices s) (st_sessions s) (st_session_seq s) (st_events s)
    (st_event_seq s) (st_operations s) (st_leases s) (st_audit s) (st_audit_seq s)
    (st_artifacts s) (st_log_index s) (st_tokens s) (st_reconciliations s) v (st_files s).
Definition set_files v (s : GatewayStore) : GatewayStore :=
  Store (st_settings s) (st_devices s) (st_sessions s) (st_session_seq s) (st_events s)
    (st_event_seq s) (st_operations s) (st_leases s) (st_audit s) (st_audit_seq s)
    (st_artifacts s) (st_log_index s) (st_tokens s) (st_reconciliations s) (st_logs s) v.

(** [UPDATE ... WHERE p] *)
Definition update_where {A} (p : A → bool) (f : A → A) (l : list A) : list A :=
  map (λ r, if p r then f r else r) l.

Section methods.
(** [str()] of a list or dictionary, and [int()] of a value that is no integer. *)
Context (container_str : pyval → string) (int_other : pyval → res Z).

Definition py_str (v : pyval) : string :=
  match v with
  | PNone => "None" | PBool true => "True" | PBool false => "False"
  | PInt z => pretty z | PFloat r => r | PStr s => s
  | PList _ | PDict _ => container_str v
  end.

Definition py_int (v : pyval) : res Z :=
  match v with PInt z => Ok z | PBool b => Ok (if b then 1 else 0) | _ => int_other v end.

(** ** Settings *)

Definition get_setting (s : GatewayStore) (key : string) (default_ : pyval) : res pyval :=
  match dict_lookup key (st_settings s) with
  | Some (value, _) => _loads (Some value) default_
  | None => Ok default_
  end.

Definition set_setting (key : string) (value : pyval) (now : Z) (s : GatewayStore) : GatewayStore :=
  set_settings (dict_set key (_json value, now) (st_settings s)) s.

(** ** Devices and their sessions *)

Definition device_of (id : string) (r : device_row) : bool := (dv_device_id r =? id)%string.
Definition find_device (id : string) (s : GatewayStore) : option device_row :=
  find (device_of id) (st_devices s).

Definition upsert_device (id cached : string) (now : Z) (s : GatewayStore) : GatewayStore :=
  match find_device id s with
  | Some _ => set_devices (update_where (device_of id)
      (λ r, DeviceRow (dv_device_id r) (dv_alias r) (dv_first_seen_ns r) now cached) (st_devices s)) s
  | None => set_devices (st_devices s ++ [DeviceRow id None now now cached]) s
  end.

(** [... WHERE device_id=? AND ended_ns IS NULL ORDER BY id DESC LIMIT 1] *)
Definition open_session_of (id : string) (r : session_row) : bool :=
  (sn_device_id r =? id)%string && bool_decide (sn_ended_ns r = None).
Definition active_session (id : string) (s : GatewayStore) : option session_row :=
  find (open_session_of id) (rev (st_sessions s)).

Definition end_session (n : Z) (now : Z) (r : session_row) : session_row :=
  SessionRow (sn_id r) (sn_device_id r) (sn_boot_id r) (sn_session_id r) (sn_endpoint r)
    (sn_started_ns r) (Some now).

Definition insert_session (id boot session : string) (endpoint : pyval) (now : Z)
    (s : GatewayStore) : GatewayStore :=
  let n := st_session_seq s + 1 in
  set_sessions (st_sessions s ++ [SessionRow n id boot session endpoint now None])
    (set_session_seq n s).

Definition remember_session (id : string) (boot_id session_id endpoint : pyval) (now : Z)
    (s : GatewayStore) : GatewayStore :=
  if is_none session_id then s
  else
    let active := active_session id s in
    if match active with None => true | Some r => negb (sn_session_id r =? py_str session_id)%string end
    then
      let s := match active with
               | Some r => set_sessions (update_where (λ x, sn_id x =? sn_id r) (end_session (sn_id r) now)
                             (st_sessions s)) s
               | None => s
               end in
      insert_session id (py_str boot_id) (py_str session_id) endpoint now s
    else s.

Definition remember_device (info : list (string * pyval)) (now : Z) (s : GatewayStore)
    : GatewayStore * res unit :=
  match dict_lookup "device_id" info with
  | None => (s, raise KeyError "device_id")
  | Some device =>
    let id := py_str device in
    match _loads (option_map dv_cached_json (find_device id s)) (PDict []) with
    | Err e => (s, Err e)
    | Ok cached =>
      let cached := dict_updated (as_object cached) info in
      let s := upsert_device id (_json (PDict cached)) now s in
      (remember_session id (dict_get "boot_id" info) (dict_get "session_id" info)
         (dict_get "endpoint" info) now s, Ok tt)
    end
  end.

(** [alias TEXT UNIQUE] *)
Definition alias_taken (id alias : string) (s : GatewayStore) : bool :=
  existsb (λ r, negb (device_of id r) && bool_decide (dv_alias r = Some alias)) (st_devices s).
Definition set_alias (id : string) (alias : option string) (s : GatewayStore) : GatewayStore * res unit :=
  let alias := match alias with Some "" => None | a => a end in
  if match alias, find_device id s with Some a, Some _ => alias_taken id a s | _, _ => false end
  then (s, raise ValueError "device alias is already in use")
  else (set_devices (update_where (device_of id) (λ r,
          DeviceRow (dv_device_id r) alias (dv_first_seen_ns r) (dv_last_seen_ns r) (dv_cached_json r))
          (st_devices s)) s, Ok tt).

Definition delete_key {A} (key : string) (d : list (string * A)) : list (string * A) :=
  filter (λ kv, negb (fst kv =? key)%string = true) d.
Definition remove_device (id : string) (s : GatewayStore) : GatewayStore * bool :=
  (set_settings (delete_key ("status." ++ id) (st_settings s))
     (set_devices (filter (λ r, negb (device_of id r) = true) (st_devices s)) s),
   existsb (device_of id) (st_devices s)).

(** [ORDER BY COALESCE(alias, device_id)] *)
Definition display_name (r : device_row) : string := default (dv_device_id r) (dv_alias r).
Definition name_le (r r' : device_row) : Prop := String.le (display_name r) (display_name r').
#[export] Instance name_le_dec : RelDecision name_le := λ r r', String.le_dec _ _.

Definition opt_str (v : option string) : pyval := match v with Some s => PStr s | None => PNone end.
Definition opt_int (v : option Z) : pyval := match v with Some z => PInt z | None => PNone end.

Definition cached_device (r : device_row) : res (list (string * pyval)) :=
  item ← _loads (Some (dv_cached_json r)) (PDict []);
  Ok (dict_updated (as_object item) [("alias", opt_str (dv_alias r));
        ("last_seen_ns", PInt (dv_last_seen_ns r)); ("cached", PBool true)])%string.
Definition cached_devices (s : GatewayStore) : res (list (list (string * pyval))) :=
  mapM cached_device (merge_sort name_le (st_devices s)).

Definition resolve_device (value : string) (s : GatewayStore) : res string :=
  match find (λ r, device_of value r || bool_decide (dv_alias r = Some value)) (st_devices s) with
  | Some r => Ok (dv_device_id r)
  | None => raise KeyError "unknown device or alias"
  end.

(** ** Events *)

(** One line appended to the raw log of a day, and its index row. *)
Definition log_path (device_id day : string) : string :=
  ("logs/" ++ device_id ++ "/" ++ day ++ ".jsonl.gz")%string.
Definition index_log (device_id path : string) (event_id host_ns size : Z) (s : GatewayStore)
    : GatewayStore :=
  let same r := (lg_device_id r =? device_id)%string && (lg_path r =? path)%string in
  if existsb same (st_log_index s)
  then set_log_index (update_where same (λ r,
         LogRow (lg_device_id r) (lg_path r) (lg_first_event_id r) event_id (lg_first_ns r) host_ns size)
         (st_log_index s)) s
  else set_log_index (st_log_index s
         ++ [LogRow device_id path event_id event_id host_ns host_ns size]) s.
Definition _append_raw_log (device_id day : string) (event_id host_ns size : Z)
    (payload : list (string * pyval)) (s : GatewayStore) : GatewayStore :=
  let path := log_path device_id day in
  index_log device_id path event_id host_ns size
    (set_logs (<[path := default [] (st_logs s !! path) ++ [_json (PDict payload)]]> (st_logs s)) s).

Definition event_ns (payload : list (string * pyval)) (now : Z) : res Z :=
  let v := dict_get "host_receive_wall_ns" payload in
  if truthy v then py_int v else Ok now.

(** [day] and [size] are the date of the event and the size of its log file. *)
Definition append_event (category : string) (payload : list (string * pyval))
    (device_id : option string) (now : Z) (day : string) (size : Z) (s : GatewayStore)
    : GatewayStore * res (list (string * pyval)) :=
  match event_ns payload now with
  | Err e => (s, Err e)
  | Ok host_ns =>
    let event_id := st_event_seq s + 1 in
    let s := set_events (st_events s
               ++ [EventRow event_id device_id category host_ns (_json (PDict payload))])
               (set_event_seq event_id s) in
    let item := dict_updated payload [("event_id", PInt event_id); ("category", PStr category);
                  ("host_receive_ns", PInt host_ns)]%string in
    let s := match device_id with
             | Some d => if (category =? "log")%string && negb (d =? "")%string
                         then _append_raw_log d day event_id host_ns size item s else s
             | None => s
             end in
    (s, Ok item)
  end.

(** The [WHERE] clause of a query for events. *)
Definition event_selected (device_id : option string) (categories : list string) (r : event_row) : bool :=
  match device_id with
  | Some d => if (d =? "")%string then true else bool_decide (ev_device_id r = Some d)
  | None => true
  end
  && (is_nil categories || existsb (String.eqb (ev_category r)) categories).

Definition page_limit (limit : Z) : nat := Z.to_nat (Z.max 1 (Z.min limit 5000)).

Definition event_item (r : event_row) : res (list (string * pyval)) :=
  payload ← _loads (Some (ev_payload_json r)) (PDict []);
  Ok (dict_updated (as_object payload) [("event_id", PInt (ev_event_id r));
        ("category", PStr (ev_category r)); ("host_receive_ns", PInt (ev_host_receive_ns r))])%string.

(** The rows [events_after] returns, and whether the cursor's successor is gone. *)
Definition rows_after (cursor : Z) (device_id : option string) (categories : list string) (limit : Z)
    (s : GatewayStore) : list event_row :=
  take (page_limit limit) (filter (λ r,
    (cursor <? ev_event_id r) && event_selected device_id categories r = true) (st_events s)).
Definition history_gap (cursor : Z) (s : GatewayStore) : bool :=
  let oldest := match st_events s with r :: _ => ev_event_id r | [] => 0 end in
  negb (cursor =? 0) && negb (oldest =? 0) && (cursor <? oldest - 1).
Definition events_after (cursor : Z) (device_id : option string) (categories : list string) (limit : Z)
    (s : GatewayStore) : res (list (list (string * pyval)) * bool) :=
  items ← mapM event_item (rows_after cursor device_id categories limit s);
  Ok (items, history_gap cursor s).

Definition latest_rows (device_id : option string) (categories : list string) (limit : Z)
    (s : GatewayStore) : list event_row :=
  rev (take (page_limit limit)
    (rev (filter (λ r, event_selected device_id categories r = true) (st_events s)))).
Definition latest_events (device_id : option string) (categories : list string) (limit : Z)
    (s : GatewayStore) : res (list (list (string * pyval))) :=
  mapM event_item (latest_rows device_id categories limit s).

(** ** Operations *)

Definition operation_id_is (id : string) (r : operation_row) : bool := (op_operation_id r =? id)%string.
Definition operation (s : GatewayStore) (id : string) : option operation_row :=
  find (operation_id_is id) (st_operations s).

(** [operation.get("request_fingerprint") or request_fingerprint(operation)] *)
Definition operation_fingerprint (request : list (string * pyobj)) (row : operation_row) : res string :=
  match op_request_fingerprint row with
  | Some fp => if (fp =? "")%string then request_fingerprint request else Ok fp
  | None => request_fingerprint request
  end.
Definition with_fingerprint (fp : string) (r : operation_row) : operation_row :=
  OperationRow (op_operation_id r) (op_device_id r) (op_actor_type r) (op_actor_name r) (op_action r)
    (op_params_json r) (op_status r) (op_result_json r) (op_error r) (op_created_ns r) (op_started_ns r)
    (op_finished_ns r) (op_queue_position r) (op_progress_json r) (Some fp).

(** [INSERT ... ON CONFLICT(operation_id) DO NOTHING], and whether the request is
    the one stored; the flag is [cursor.rowcount == 1].  [request] is the
    dictionary [row] is taken from. *)
Definition create_operation (request : list (string * pyobj)) (row : operation_row) (s : GatewayStore)
    : GatewayStore * res (operation_row * bool) :=
  match operation_fingerprint request row with
  | Err e => (s, Err e)
  | Ok fp =>
    let '(s, created) := match operation s (op_operation_id row) with
                         | Some _ => (s, false)
                         | None => (set_operations (st_operations s ++ [with_fingerprint fp row]) s, true)
                         end in
    (s, match operation s (op_operation_id row) with
        | None => raise AssertionError ""
        | Some stored => _ ← require_same_request (op_request_fingerprint stored) fp; Ok (stored, created)
        end)
  end.

(** The row of a new operation: what [create_operation] inserts. *)
Definition new_operation (operation_id device_id actor_type actor_name action : string)
    (params : pyval) (status : string) (created_ns queue_position : Z) (fingerprint : string)
    : operation_row :=
  OperationRow operation_id device_id actor_type actor_name action (_json params) status
    None None created_ns None None queue_position None (Some fingerprint).

(** The keyword arguments of [update_operation]; others are ignored. *)
Inductive op_change :=
| SetStatus (status : string)
| SetResult (result : pyval)
| SetError (error : option string)
| SetStarted (ns : Z)
| SetFinished (ns : Z)
| SetQueuePosition (n : Z)
| SetProgress (progress : pyval).

Definition change_operation (c : op_change) (r : operation_row) : operation_row :=
  let upd status result error started finished queue progress :=
    OperationRow (op_operation_id r) (op_device_id r) (op_actor_type r) (op_actor_name r) (op_action r)
      (op_params_json r) status result error (op_created_ns r) started finished queue progress
      (op_request_fingerprint r) in
  match c with
  | SetStatus v => upd v (op_result_json r) (op_error r) (op_started_ns r) (op_finished_ns r)
                     (op_queue_position r) (op_progress_json r)
  | SetResult v => upd (op_status r) (Some (_json v)) (op_error r) (op_started_ns r) (op_finished_ns r)
                     (op_queue_position r) (op_progress_json r)
  | SetError v => upd (op_status r) (op_result_json r) v (op_started_ns r) (op_finished_ns r)
                    (op_queue_position r) (op_progress_json r)
  | SetStarted v => upd (op_status r) (op_result_json r) (op_error r) (Some v) (op_finished_ns r)
                      (op_queue_position r) (op_progress_json r)
  | SetFinished v => upd (op_status r) (op_result_json r) (op_error r) (op_started_ns r) (Some v)
                       (op_queue_position r) (op_progress_json r)
  | SetQueuePosition v => upd (op_status r) (op_result_json r) (op_error r) (op_started_ns r)
                            (op_finished_ns r) v (op_progress_json r)
  | SetProgress v => upd (op_status r) (op_result_json r) (op_error r) (op_started_ns r)
                       (op_finished_ns r) (op_queue_position r) (Some (_json v))
  end.

Definition update_operation (id : string) (changes : list op_change) (s : GatewayStore)
    : GatewayStore * res operation_row :=
  let s := set_operations (update_where (operation_id_is id)
             (λ r, fold_left (λ r c, change_operation c r) changes r) (st_operations s)) s in
  (s, match operation s id with Some r => Ok r | None => raise KeyError id end).

(** [ORDER BY created_ns DESC LIMIT ?] *)
Definition newest_le (r r' : operation_row) : Prop := op_created_ns r' ≤ op_created_ns r.
#[export] Instance newest_le_dec : RelDecision newest_le := λ r r', decide (op_created_ns r' ≤ op_created_ns r).
Definition operations (device_id : option string) (limit : Z) (s : GatewayStore) : list operation_row :=
  let rows := match device_id with
              | Some d => if (d =? "")%string then st_operations s
                          else filter (λ r, op_device_id r = d) (st_operations s)
              | None => st_operations s
              end in
  let rows := merge_sort newest_le rows in
  if limit <? 0 then rows else take (Z.to_nat limit) rows.

(** The dictionary of a row, in the order of the columns, with decoded JSON and
    decimal boot ids. *)
Definition _operation_row (r : operation_row) : res (list (string * pyval)) :=
  params ← _loads (Some (op_params_json r)) (PDict []);
  result ← _loads (op_result_json r) PNone;
  progress ← _loads (op_progress_json r) PNone;
  let item := [
    ("operation_id", PStr (op_operation_id r)); ("device_id", PStr (op_device_id r));
    ("actor_type", PStr (op_actor_type r)); ("actor_name", PStr (op_actor_name r));
    ("action", PStr (op_action r)); ("status", PStr (op_status r)); ("error", opt_str (op_error r));
    ("created_ns", PInt (op_created_ns r)); ("started_ns", opt_int (op_started_ns r));
    ("finished_ns", opt_int (op_finished_ns r)); ("queue_position", PInt (op_queue_position r));
    ("request_fingerprint", opt_str (op_request_fingerprint r));
    ("params", params); ("result", result); ("progress", progress)]%string in
  Ok (dict_set "params" params (boot_id_text item)).

(** ** Maintenance leases *)

Definition active_lease_states : list string :=
  ["detached"; "flashing"; "reattaching"; "verifying"; "expired_quarantined"]%string.
Definition is_active (r : lease_row) : bool := existsb (String.eqb (ls_state r)) active_lease_states.

(** The unique index over the active leases of a device. *)
Definition lease_conflict (r : lease_row) (leases : list lease_row) : bool :=
  is_active r && existsb (λ q, negb (ls_lease_id q =? ls_lease_id r)%string && is_active q
                               && (ls_device_id q =? ls_device_id r)%string) leases.

Definition lease_id_is (id : string) (r : lease_row) : bool := (ls_lease_id r =? id)%string.
Definition maintenance_lease (s : GatewayStore) (id : string) : option lease_row :=
  find (lease_id_is id) (st_leases s).

Definition create_maintenance_lease (row : lease_row) (s : GatewayStore) : GatewayStore * res lease_row :=
  if existsb (lease_id_is (ls_lease_id row)) (st_leases s) || lease_conflict row (st_leases s)
  then (s, raise IntegrityError "UNIQUE constraint failed")
  else (set_leases (st_leases s ++ [row]) s, Ok row).

(** The row of a new lease. *)
Definition new_lease (lease_id device_id token_hash purpose state : string) (endpoint evidence : pyval)
    (previous_boot_id : pyval) (expected_version : option string) (actor_type actor_name : string)
    (created_ns expires_ns : Z) : lease_row :=
  let boot := if truthy previous_boot_id then py_str previous_boot_id else ""%string in
  LeaseRow lease_id device_id token_hash purpose state (_json endpoint) (_json evidence)
    (if (boot =? "")%string then None else Some boot) expected_version actor_type actor_name
    created_ns expires_ns None None.

Inductive lease_change :=
| LeaseState (state : string)
| LeaseExpires (ns : Z)
| LeaseFinished (ns : Z)
| LeaseError (error : option string)
| LeaseEvidence (evidence : pyval).

Definition change_lease (c : lease_change) (r : lease_row) : lease_row :=
  let upd state evidence expires finished error :=
    LeaseRow (ls_lease_id r) (ls_device_id r) (ls_token_hash r) (ls_purpose r) state
      (ls_endpoint_json r) evidence (ls_previous_boot_id r) (ls_expected_version r)
      (ls_actor_type r) (ls_actor_name r) (ls_created_ns r) expires finished error in
  match c with
  | LeaseState v => upd v (ls_evidence_json r) (ls_expires_ns r) (ls_finished_ns r) (ls_error r)
  | LeaseExpires v => upd (ls_state r) (ls_evidence_json r) v (ls_finished_ns r) (ls_error r)
  | LeaseFinished v => upd (ls_state r) (ls_evidence_json r) (ls_expires_ns r) (Some v) (ls_error r)
  | LeaseError v => upd (ls_state r) (ls_evidence_json r) (ls_expires_ns r) (ls_finished_ns r) v
  | LeaseEvidence v => upd (ls_state r) (_json v) (ls_expires_ns r) (ls_finished_ns r) (ls_error r)
  end.

(** The [UPDATE] fails on the unique index like an insertion. *)
Definition update_maintenance_lease (id : string) (changes : list lease_change) (s : GatewayStore)
    : GatewayStore * res lease_row :=
  match maintenance_lease s id with
  | None => (s, raise KeyError id)
  | Some r =>
    let r' := fold_left (λ r c, change_lease c r) changes r in
    if lease_conflict r' (st_leases s) then (s, raise IntegrityError "UNIQUE constraint failed")
    else (set_leases (update_where (lease_id_is id) (λ _, r') (st_leases s)) s, Ok r')
  end.

(** [ORDER BY created_ns] *)
Definition oldest_le (r r' : lease_row) : Prop := ls_created_ns r ≤ ls_created_ns r'.
#[export] Instance oldest_le_dec : RelDecision oldest_le := λ r r', decide (ls_created_ns r ≤ ls_created_ns r').
Definition active_maintenance_leases (s : GatewayStore) : list lease_row :=
  merge_sort oldest_le (filter (λ r, is_active r = true) (st_leases s)).

(** ** Audit *)

Definition add_audit (actor_type actor_name action : string) (details : list (string * pyval)) (now : Z)
    (s : GatewayStore) : GatewayStore * list (string * pyval) :=
  let n := st_audit_seq s + 1 in
  (set_audit (st_audit s ++ [AuditRow n actor_type actor_name action (_json (PDict details)) now])
     (set_audit_seq n s),
   [("audit_id", PInt n); ("actor_type", PStr actor_type); ("actor_name", PStr actor_name);
    ("action", PStr action); ("details", PDict details); ("created_ns", PInt now)]%string).

Definition audit_item (r : audit_row) : res (list (string * pyval)) :=
  details ← _loads (Some (au_details_json r)) (PDict []);
  Ok (boot_id_text [("audit_id", PInt (au_audit_id r)); ("actor_type", PStr (au_actor_type r));
    ("actor_name", PStr (au_actor_name r)); ("action", PStr (au_action r));
    ("created_ns", PInt (au_created_ns r)); ("details", details)])%string.
Definition audits (limit : Z) (s : GatewayStore) : res (list (list (string * pyval))) :=
  let rows := rev (st_audit s) in
  mapM audit_item (if limit <? 0 then rows else take (Z.to_nat limit) rows).

(** ** Artifacts *)

(** [target.open("xb")] and the write; the check of an existing file's digest. *)
Definition write_exclusive (path : string) (data : bytes) (s : GatewayStore) : GatewayStore * res unit :=
  match st_files s !! path with
  | Some old => (s, raise_if (negb (bool_decide (sha256 old = sha256 data))) ValueError
                      "artifact file collision")
  | None => (set_files (<[path := data]> (st_files s)) s, Ok tt)
  end.

Fixpoint write_all (files : list (string * bytes)) (s : GatewayStore) : GatewayStore * res unit :=
  match files with
  | [] => (s, Ok tt)
  | (path, data) :: files =>
    match write_exclusive path data s with
    | (s, Ok _) => write_all files s
    | (s, Err e) => (s, Err e)
    end
  end.

Definition artifact_folder (id : string) : string := ("artifacts/firmware/" ++ id)%string.
Definition find_artifact (id : string) (s : GatewayStore) : option artifact_row :=
  find (λ r, (ar_artifact_id r =? id)%string) (st_artifacts s).
(** The manifest of an artifact, with its folder under [root]. *)
Definition firmware_artifact (root id : string) (s : GatewayStore) : res (option (list (string * pyval))) :=
  match find_artifact id s with
  | None => Ok None
  | Some r =>
    manifest ← _loads (Some (ar_manifest_json r)) (PDict []);
    Ok (Some (dict_set "path" (PStr (root ++ artifact_folder (ar_artifact_id r))) (as_object manifest)))
  end.

Record firmware_metadata := FirmwareMetadata { fm_project_name : string; fm_version : string; fm_chip_id : Z }.

Definition artifact_manifest (binary elf map_data : bytes) (metadata : firmware_metadata) (now : Z)
    : list (string * pyval) :=
  let files := [("firmware.bin", binary); ("firmware.elf", elf); ("firmware.map", map_data)]%string in
  [("schema", PStr "esp-iris-firmware-artifact/v1"); ("artifact_id", PStr (sha256_hex elf));
   ("binary_sha256", PStr (sha256_hex binary)); ("elf_sha256", PStr (sha256_hex elf));
   ("map_sha256", PStr (sha256_hex map_data)); ("project_name", PStr (fm_project_name metadata));
   ("version", PStr (fm_version metadata)); ("chip_id", PInt (fm_chip_id metadata));
   ("sizes", PDict (map (λ f, (fst f, PInt (zlen (snd f)))) files));
   ("sha256", PDict (map (λ f, (fst f, PStr (sha256_hex (snd f)))) files));
   ("files", PDict (map (λ f, (fst f, PStr (fst f))) files)); ("created_ns", PInt now)]%string.

(** [binary_sha256 TEXT NOT NULL UNIQUE]; the manifest file is [manifest_text]. *)
Definition save_firmware_artifact (root : string) (manifest_text : list (string * pyval) → bytes)
    (binary elf map_data : bytes) (metadata : firmware_metadata) (now : Z) (s : GatewayStore)
    : GatewayStore * res (list (string * pyval)) :=
  let id := sha256_hex elf in
  match firmware_artifact root id s with
  | Err e => (s, Err e)
  | Ok (Some existing) =>
    (s, match dict_lookup "binary_sha256" existing with
        | None => raise KeyError "binary_sha256"
        | Some b =>
          _ ← raise_if (negb (is_str b (sha256_hex binary))) ValueError
                "ELF SHA already exists with a different firmware binary";
          _ ← raise_if (negb (is_str (dict_get "map_sha256" existing) (sha256_hex map_data))) ValueError
                "ELF SHA already exists with a different linker map";
          Ok existing
        end)
  | Ok None =>
    let folder := artifact_folder id in
    match write_all [((folder ++ "/firmware.bin")%string, binary); ((folder ++ "/firmware.elf")%string, elf);
                     ((folder ++ "/firmware.map")%string, map_data)] s with
    | (s, Err e) => (s, Err e)
    | (s, Ok _) =>
      let manifest := artifact_manifest binary elf map_data metadata now in
      let s := set_files (<[(folder ++ "/manifest.json")%string := manifest_text manifest]> (st_files s)) s in
      if existsb (λ r, (ar_binary_sha256 r =? sha256_hex binary)%string) (st_artifacts s)
      then (s, raise IntegrityError "UNIQUE constraint failed: firmware_artifacts.binary_sha256")
      else (set_artifacts (st_artifacts s ++ [ArtifactRow id (sha256_hex binary) (sha256_hex elf)
              (fm_project_name metadata) (fm_version metadata) (_json (PDict manifest)) now]) s,
            Ok (dict_set "path" (PStr (root ++ folder)) manifest))
    end
  end.

Definition newest_artifact_le (r r' : artifact_row) : Prop := ar_created_ns r' ≤ ar_created_ns r.
#[export] Instance newest_artifact_le_dec : RelDecision newest_artifact_le :=
  λ r r', decide (ar_created_ns r' ≤ ar_created_ns r).
Definition firmware_artifacts (root : string) (limit : Z) (s : GatewayStore)
    : res (list (list (string * pyval))) :=
  found ← mapM (λ r, firmware_artifact root (ar_artifact_id r) s)
            (take (Z.to_nat (Z.max 1 (Z.min limit 1000))) (merge_sort newest_artifact_le (st_artifacts s)));
  Ok (omap id found).

(** [c.isalnum() or c in "-_"], for ASCII device ids. *)
Definition safe_char (c : ascii) : bool :=
  let b := Z_of_ascii c in
  ((48 <=? b) && (b <=? 57)) || ((65 <=? b) && (b <=? 90)) || ((97 <=? b) && (b <=? 122))
  || (b =? 45) || (b =? 95).
Fixpoint safe_device (id : string) : string :=
  match id with
  | EmptyString => EmptyString
  | String c id => if safe_char c then String c (safe_device id) else safe_device id
  end.

(** The first free name of the thousand candidates; [stamp] is the local time
    and the nanoseconds. *)
Definition artifact_name (stem extension : string) (collision : nat) : string :=
  let discriminator := if (collision =? 0)%nat then ""%string else ("-" ++ pretty (N.of_nat collision))%string in
  (stem ++ discriminator ++ "." ++ extension)%string.
Fixpoint first_free (files : gmap string bytes) (name : nat → string) (n from : nat) : option string :=
  match n with
  | O => None
  | S n => match files !! name from with
           | None => Some (name from)
           | Some _ => first_free files name n (S from)
           end
  end.
Definition save_artifact (device_id kind stamp extension : string) (data : bytes) (s : GatewayStore)
    : GatewayStore * res string :=
  let stem := ("artifacts/" ++ safe_device device_id ++ "/" ++ stamp ++ "-" ++ kind ++ "-"
               ++ substring 0 12 (sha256_hex data))%string in
  match first_free (st_files s) (artifact_name stem extension) 1000 0 with
  | Some path => (set_files (<[path := data]> (st_files s)) s, Ok path)
  | None => (s, raise FileExistsError "could not allocate a unique artifact filename")
  end.
End methods.

(** ** How long raw logs are kept

    Log files are deleted by age and, oldest first, by their size; then the index
    rows of the files that are gone are forgotten. *)

(** What [stat()] says of a log file; times and ages in nanoseconds. *)
Record log_file := LogFile { lf_path : string; lf_mtime : Z; lf_size : Z }.
Definition older_le (f g : log_file) : Prop := lf_mtime f ≤ lf_mtime g.
#[export] Instance older_le_dec : RelDecision older_le := λ f g, decide (lf_mtime f ≤ lf_mtime g).
Definition total_size (files : list log_file) : Z := foldr (λ f n, lf_size f + n) 0 files.

(** [while files and total > max_bytes]: what is left. *)
Fixpoint shrink (files : list log_file) (total max_bytes : Z) : list log_file :=
  match files with
  | [] => []
  | f :: rest => if max_bytes <? total then shrink rest (total - lf_size f) max_bytes else files
  end.
Definition kept_logs (files : list log_file) (now max_age max_bytes : Z) : list log_file :=
  let files := filter (λ f, now - max_age ≤ lf_mtime f) (merge_sort older_le files) in
  shrink files (total_size files) max_bytes.
(** [files] are the log files under the directory of the logs. *)
Definition cleanup_raw_logs (files : list log_file) (now max_age max_bytes : Z) (s : GatewayStore) : GatewayStore :=
  let kept := map lf_path (kept_logs files now max_age max_bytes) in
  let logs := filter (λ log, fst log ∈ kept ∨ fst log ∉ map lf_path files) (st_logs s) in
  set_log_index (filter (λ r, is_Some (logs !! lg_path r)) (st_log_index s)) (set_logs logs s).
