(* ===== verification/StoreProps.v ===== *)
(** * What holds of the store

    Reading the events page by page misses and repeats none; a device has at
    most one active maintenance lease and one open session; an operation id
    names one request; artifacts are never overwritten; raw logs stay within their
    age and size. *)
From stdpp Require Import sorting.
From S2P Require Import Prelude Text Value Json JsonDump Sha256 OperationIdentity DeviceInfo Store.

(** ** Rows by key *)

Lemma find_app_new {A} (p : A → bool) l x : find p l = None → find p (l ++ [x]) = if p x then Some x else None.
Proof. induction l as [|y l IH]; cbn; [by destruct (p x) |]. destruct (p y); [done | exact IH]. Qed.
Lemma find_app_old {A} (p : A → bool) l x y : find p l = Some y → find p (l ++ [x]) = Some y.
Proof. induction l as [|z l IH]; cbn; [done |]. by destruct (p z). Qed.

Lemma find_update_where {A} (p q : A → bool) f l :
  (∀ r, p r = true → q (f r) = q r) → find q (update_where p f l) =
  option_map (λ r, if p r then f r else r) (find q l).
Proof.
  intros Hpq. induction l as [|r l IH]; [done |]. cbn [update_where map find].
  destruct (p r) eqn:Hp; [rewrite (Hpq r Hp) |]; (destruct (q r); cbn; [by rewrite Hp | exact IH]).
Qed.

(** ** Settings and operations *)

Lemma get_set_setting key value now default_ s : json_ok value →
  get_setting (set_setting key value now s) key default_ = Ok value.
Proof.
  intros Hv. unfold get_setting, set_setting. cbn. rewrite dict_lookup_set, String.eqb_refl. cbn.
  by apply json_roundtrip.
Qed.

Lemma operation_insert fp row s : operation s (op_operation_id row) = None →
  operation (set_operations (st_operations s ++ [with_fingerprint fp row]) s) (op_operation_id row)
  = Some (with_fingerprint fp row).
Proof.
  intros H. unfold operation in *. cbn. rewrite find_app_new by exact H. unfold operation_id_is. cbn.
  by rewrite String.eqb_refl.
Qed.

(** An operation id names one request for ever.  A new id inserts the row;
    the same request again finds the stored row, whatever has become of it, and
    changes nothing; a different request under the id is refused and changes
    nothing. *)
Theorem operation_id_unique request row fp s : operation_fingerprint request row = Ok fp →
  create_operation request row s =
  match operation s (op_operation_id row) with
  | None => (set_operations (st_operations s ++ [with_fingerprint fp row]) s, Ok (with_fingerprint fp row, true))
  | Some stored =>
    (s, if bool_decide (op_request_fingerprint stored = Some fp) then Ok (stored, false)
        else raise OperationConflict "operation ID already belongs to a different request")
  end.
Proof.
  intros Hfp. unfold create_operation. rewrite Hfp.
  destruct (operation s (op_operation_id row)) as [stored|] eqn:H.
  - rewrite H. cbn. unfold require_same_request, raise_if.
    by destruct (bool_decide (op_request_fingerprint stored = Some fp)).
  - rewrite operation_insert by exact H. unfold require_same_request, raise_if. cbn.
    by rewrite bool_decide_eq_true_2.
Qed.

Lemma change_operation_id c r : op_operation_id (change_operation c r) = op_operation_id r.
Proof. by destruct c. Qed.
Lemma change_operations_id l r :
  op_operation_id (fold_left (λ r c, change_operation c r) l r) = op_operation_id r.
Proof. revert r. induction l as [|c l IH]; intros r; [done |]. cbn. by rewrite IH, change_operation_id. Qed.

(** [update_operation] changes the row of its operation and no other. *)
Lemma operation_update id id' changes s : operation (fst (update_operation id changes s)) id' =
  if (id =? id')%string then option_map (fold_left (λ r c, change_operation c r) changes) (operation s id')
  else operation s id'.
Proof.
  unfold update_operation, operation. cbn. rewrite find_update_where.
  - destruct (find (operation_id_is id') (st_operations s)) as [r|] eqn:Hr; cbn; [| by destruct (id =? id')%string].
    apply find_some in Hr as [_ Hr]. unfold operation_id_is in *. apply String.eqb_eq in Hr. subst id'.
    rewrite String.eqb_sym. by destruct (String.eqb_spec id (op_operation_id r)).
  - intros r _. unfold operation_id_is. by rewrite change_operations_id.
Qed.

(** ** Events *)

(** Event ids ascend in the order of insertion, below the counter. *)
Record events_ok (s : GatewayStore) : Prop := {
  eo_sorted : StronglySorted (λ r r', ev_event_id r < ev_event_id r') (st_events s);
  eo_bound : ∀ r, r ∈ st_events s → 0 < ev_event_id r ≤ st_event_seq s;
  eo_seq : 0 ≤ st_event_seq s;
}.

Lemma events_ok_same s s' : st_events s' = st_events s → st_event_seq s' = st_event_seq s →
  events_ok s → events_ok s'.
Proof. intros He Hs [H1 H2 H3]. constructor; by rewrite ?He, ?Hs. Qed.

Lemma append_raw_log_events device day event_id host_ns size item s :
  st_events (_append_raw_log device day event_id host_ns size item s) = st_events s
  ∧ st_event_seq (_append_raw_log device day event_id host_ns size item s) = st_event_seq s.
Proof. unfold _append_raw_log, index_log. by destruct (existsb _ _). Qed.

Section events.
Context (int_other : pyval → res Z).

Lemma append_event_ok category payload device now day size s : events_ok s →
  events_ok (fst (append_event int_other category payload device now day size s)).
Proof.
  intros [H1 H2 H3]. unfold append_event. destruct (event_ns int_other payload now) as [ns|e]; [| done].
  set (s1 := set_events _ _).
  assert (Hs1 : events_ok s1).
  { constructor; cbn; [| | lia].
    - apply StronglySorted_app_2; [| done | by repeat constructor].
      intros r r' Hr ->%list_elem_of_singleton. cbn. specialize (H2 r Hr). lia.
    - intros r [Hr | ->%list_elem_of_singleton]%elem_of_app; [specialize (H2 r Hr); lia | cbn; lia]. }
  cbn [fst]. destruct device as [d|]; [| exact Hs1]. destruct (_ && _); [| exact Hs1].
  revert Hs1. apply events_ok_same; apply append_raw_log_events.
Qed.
End events.

(** A reader that asks for the events after the last one it got, page by page. *)
Fixpoint read_pages (fuel : nat) (cursor : Z) (device_id : option string) (categories : list string)
    (limit : Z) (s : GatewayStore) : list event_row :=
  match fuel with
  | O => []
  | S fuel =>
    match rows_after cursor device_id categories limit s with
    | [] => []
    | page => page ++ read_pages fuel (ev_event_id (List.last page (EventRow 0 None "" 0 ""))) device_id categories limit s
    end
  end.

Definition wanted (cursor : Z) (device_id : option string) (categories : list string) (s : GatewayStore)
    : list event_row :=
  filter (λ r, (cursor <? ev_event_id r) && event_selected device_id categories r = true) (st_events s).

Section paging.
Context (device_id : option string) (categories : list string) (s : GatewayStore).
Context (Hok : events_ok s).

Lemma wanted_sorted cursor : StronglySorted (λ r r', ev_event_id r < ev_event_id r') (wanted cursor device_id categories s).
Proof.
  unfold wanted. generalize (eo_sorted s Hok). generalize (st_events s). intros l.
  induction 1 as [|r l _ IH Hr]; [constructor |]. rewrite filter_cons.
  destruct (decide _); [| exact IH]. constructor; [exact IH |].
  apply Forall_forall. intros x [_ Hx]%list_elem_of_filter. by apply (proj1 (Forall_forall _ _) Hr).
Qed.

(** The events after a cursor, seen from a later cursor. *)
Lemma wanted_later c c' : c ≤ c' → wanted c' device_id categories s
  = filter (λ r, c' < ev_event_id r) (wanted c device_id categories s).
Proof.
  intros Hc. unfold wanted. rewrite list_filter_filter. apply list_filter_iff. intros r.
  rewrite !andb_true_iff, !Z.ltb_lt. split; [intros []; split; [lia | split; [lia | done]] |].
  intros (H1 & _ & H2). done.
Qed.

Lemma filter_all {A} (P : A → Prop) `{!∀ x, Decision (P x)} l : Forall P l → filter P l = l.
Proof. induction 1 as [|x l Hx _ IH]; [done |]. by rewrite filter_cons_True, IH. Qed.
Lemma filter_none {A} (P : A → Prop) `{!∀ x, Decision (P x)} l : Forall (λ x, ¬ P x) l → filter P l = [].
Proof. induction 1 as [|x l Hx _ IH]; [done |]. by rewrite filter_cons_False, IH. Qed.

Lemma filter_after l k d : StronglySorted (λ r r', ev_event_id r < ev_event_id r') (l ++ k) → l ≠ [] →
  filter (λ r, ev_event_id (List.last l d) < ev_event_id r) (l ++ k) = k.
Proof.
  intros Hs Hl. destruct l as [|x l _] using rev_ind; [done |]. rewrite last_last.
  rewrite <- app_assoc in *. apply StronglySorted_app in Hs as (Hlt & _ & Hs).
  apply StronglySorted_cons in Hs as [Hx _].
  rewrite !filter_app, (filter_none _ l), (filter_none _ [x]), (filter_all _ k); [done | exact Hx | |].
  - constructor; [lia | constructor].
  - apply Forall_forall. intros r Hr. specialize (Hlt r x Hr). assert (ev_event_id r < ev_event_id x) by (apply Hlt; by left). lia.
Qed.

(** Polling the event log misses and repeats nothing.  Reading page after
    page, each from the last event of the one before, returns exactly the
    events after the first cursor that the filters select, in order, each
    once, whatever the page size. *)
Theorem event_paging_complete fuel : ∀ cursor limit,
  (length (wanted cursor device_id categories s) < fuel)%nat →
  read_pages fuel cursor device_id categories limit s = wanted cursor device_id categories s.
Proof.
  induction fuel as [|fuel IH]; intros cursor limit Hf; [lia |]. cbn [read_pages].
  set (W := wanted cursor device_id categories s) in *.
  change (rows_after cursor device_id categories limit s) with (take (page_limit limit) W).
  assert (Hn : (1 ≤ page_limit limit)%nat) by (unfold page_limit; lia).
  destruct (take (page_limit limit) W) as [|r page] eqn:Hpage.
  { destruct W; [done |]. by destruct (page_limit limit); [lia |]. }
  rewrite <- Hpage. set (c' := ev_event_id _).
  assert (Hc' : cursor < c').
  { assert (List.last (take (page_limit limit) W) (EventRow 0 None "" 0 "") ∈ W) as Hin.
    { apply (subseteq_take (page_limit limit)). rewrite Hpage. destruct (@exists_last _ (r :: page)) as (l & x & E); [done |].
      rewrite E, last_last. apply elem_of_app. right. by left. }
    unfold W, wanted in Hin. apply list_elem_of_filter in Hin as [Hin _].
    apply andb_true_iff in Hin as [Hin _]. by apply Z.ltb_lt in Hin. }
  assert (Hrest : wanted c' device_id categories s = drop (page_limit limit) W).
  { rewrite (wanted_later cursor) by lia. fold W. rewrite <- (take_drop (page_limit limit) W) at 1.
    apply filter_after; [rewrite take_drop; apply wanted_sorted | by rewrite Hpage]. }
  rewrite IH, Hrest; [by rewrite take_drop |]. rewrite Hrest, length_drop.
  destruct W; [by rewrite take_nil in Hpage |]. cbn in *. lia.
Qed.
End paging.

(** ** Maintenance leases *)

(** Leases have distinct ids, and a device has one active lease at most. *)
Record leases_ok (l : list lease_row) : Prop := {
  lo_ids : NoDup (map ls_lease_id l);
  lo_active : ∀ r r', r ∈ l → r' ∈ l → is_active r = true → is_active r' = true →
    ls_device_id r = ls_device_id r' → ls_lease_id r = ls_lease_id r';
}.

Lemma lease_conflict_false r l : lease_conflict r l = false → is_active r = true →
  ∀ q, q ∈ l → is_active q = true → ls_device_id q = ls_device_id r → ls_lease_id q = ls_lease_id r.
Proof.
  unfold lease_conflict. intros H Hr q Hq Ha Hd. rewrite Hr in H. cbn [andb] in H.
  destruct (String.eqb_spec (ls_lease_id q) (ls_lease_id r)) as [|Hne]; [done | exfalso].
  assert (Ht : existsb (λ q, negb (ls_lease_id q =? ls_lease_id r)%string && is_active q
    && (ls_device_id q =? ls_device_id r)%string) l = true); [| congruence].
  apply existsb_exists. exists q. split; [by apply list_elem_of_In |].
  rewrite Ha, Hd, String.eqb_refl. by rewrite (proj2 (String.eqb_neq _ _) Hne).
Qed.

Lemma change_lease_id changes r :
  ls_lease_id (fold_left (λ r c, change_lease c r) changes r) = ls_lease_id r
  ∧ ls_device_id (fold_left (λ r c, change_lease c r) changes r) = ls_device_id r.
Proof.
  revert r. induction changes as [|c l IH]; intros r; [done |]. cbn.
  destruct (IH (change_lease c r)) as [-> ->]. by destruct c.
Qed.

Lemma lease_found s id r : maintenance_lease s id = Some r → r ∈ st_leases s ∧ ls_lease_id r = id.
Proof.
  intros [Hin Hid]%find_some. split; [by apply list_elem_of_In |]. by apply String.eqb_eq.
Qed.

Lemma create_lease_ok row s : leases_ok (st_leases s) → leases_ok (st_leases (fst (create_maintenance_lease row s))).
Proof.
  intros [Hids Hact].
  unfold create_maintenance_lease. destruct (_ || _) eqn:H; [done |]. cbn.
  apply orb_false_iff in H as [Hnew Hconf].
  assert (Hfresh : ls_lease_id row ∉ map ls_lease_id (st_leases s)).
  { intros (r & Hr & Hin)%list_elem_of_In%in_map_iff. rewrite <- not_true_iff_false, existsb_exists in Hnew.
    apply Hnew. exists r. split; [done |]. unfold lease_id_is. by apply String.eqb_eq. }
  constructor.
  - rewrite map_app. apply NoDup_app. split; [done |]. split; [| apply NoDup_singleton].
    intros x Hx ->%list_elem_of_singleton. done.
  - intros r r' [Hr | ->%list_elem_of_singleton]%elem_of_app [Hr' | ->%list_elem_of_singleton]%elem_of_app Ha Ha' Hd;
      [by apply Hact | | | done].
    * by eapply lease_conflict_false.
    * symmetry. by eapply lease_conflict_false.
Qed.

Lemma update_lease_ok id changes s : leases_ok (st_leases s) →
  leases_ok (st_leases (fst (update_maintenance_lease id changes s))).
Proof.
  intros [Hids Hact].
  unfold update_maintenance_lease.
  destruct (maintenance_lease s id) as [r|] eqn:Hr; [| done]. apply lease_found in Hr as [Hin Hid].
  set (r' := fold_left _ _ _). destruct (change_lease_id changes r) as [Hid' Hdev]. fold r' in Hid', Hdev.
  destruct (lease_conflict r' (st_leases s)) eqn:Hconf; [done |]. cbn.
  assert (Hrow : ∀ q, q ∈ update_where (lease_id_is id) (λ _, r') (st_leases s) →
    q = r' ∨ q ∈ st_leases s ∧ ls_lease_id q ≠ id).
  { intros q (q0 & <- & Hq0)%list_elem_of_In%in_map_iff. unfold lease_id_is.
    destruct (String.eqb_spec (ls_lease_id q0) id); [by left | right]. by rewrite list_elem_of_In. }
  constructor.
  - unfold update_where. rewrite map_map.
    erewrite map_ext; [exact Hids |]. intros q. cbn. unfold lease_id_is.
    destruct (String.eqb_spec (ls_lease_id q) id); congruence.
  - intros q q' [-> | [Hq Hqid]]%Hrow [-> | [Hq' Hqid']]%Hrow Ha Ha' Hd; [done | | | by apply Hact].
    * symmetry. by eapply lease_conflict_false.
    * by eapply lease_conflict_false.
Qed.

(** One maintenance at a time.  Whatever sequence of insertions and updates
    of leases, a device never has two active leases; a second one is refused
    with an integrity error and changes nothing. *)
Theorem lease_exclusive s : leases_ok (st_leases s) →
  (∀ row, leases_ok (st_leases (fst (create_maintenance_lease row s))))
  ∧ (∀ id changes, leases_ok (st_leases (fst (update_maintenance_lease id changes s))))
  ∧ (∀ row r, is_active row = true → r ∈ st_leases s → is_active r = true → ls_device_id r = ls_device_id row →
      create_maintenance_lease row s = (s, raise IntegrityError "UNIQUE constraint failed")).
Proof.
  intros Hok. split; [intros; by apply create_lease_ok | split; [intros; by apply update_lease_ok |]].
  intros row r Ha Hin Har Hd. unfold create_maintenance_lease.
  destruct (existsb (lease_id_is (ls_lease_id row)) (st_leases s)) eqn:He; [done |]. cbn [orb].
  destruct (lease_conflict row (st_leases s)) eqn:Hc; [done | exfalso].
  pose proof (lease_conflict_false _ _ Hc Ha r Hin Har Hd) as Hid.
  rewrite <- not_true_iff_false, existsb_exists in He. apply He. exists r.
  split; [by apply list_elem_of_In |]. unfold lease_id_is. by apply String.eqb_eq.
Qed.

(** ** Artifacts *)

Lemma first_free_spec files name n from path : first_free files name n from = Some path →
  files !! path = None ∧ ∃ k, (from ≤ k < from + n)%nat ∧ path = name k.
Proof.
  revert from. induction n as [|n IH]; intros from; cbn [first_free]; [done |].
  destruct (files !! name from) eqn:E.
  - intros (H & k & Hk & ->)%IH. split; [done |]. exists k. split; [lia | done].
  - intros [= <-]. split; [done |]. exists from. split; [lia | done].
Qed.

(** Saving evidence never overwrites a file. *)
Lemma save_artifact_fresh device kind stamp extension data s s' path :
  save_artifact device kind stamp extension data s = (s', Ok path) →
  st_files s !! path = None ∧ st_files s' = <[path := data]> (st_files s).
Proof.
  unfold save_artifact. destruct (first_free _ _ _ _) as [p|] eqn:H; [| done].
  apply first_free_spec in H as [Hp _]. by intros [= <- <-].
Qed.

(** ** Witnesses *)

Definition example_append (n : Z) (s : GatewayStore) : GatewayStore :=
  fst (append_event (λ _, Ok 0) (if (n =? 2)%Z then "device" else "system")%string [("kind", PStr "x")]%string
         (Some "d"%string) n "day" 0 s).
Definition example_store : GatewayStore :=
  example_append 4 (example_append 3 (example_append 2 (example_append 1 GatewayStore_init))).
Lemma example_store_ok : events_ok example_store.
Proof. unfold example_store, example_append. do 4 apply append_event_ok. constructor; cbn; [constructor | set_solver | lia]. Qed.

Lemma event_paging_complete_witness :
  events_ok example_store
  ∧ map ev_event_id (read_pages 5 1 (Some "d"%string) ["system"%string] 1 example_store) = [3; 4].
Proof.
  split; [exact example_store_ok |].
  rewrite (event_paging_complete (Some "d"%string) ["system"%string] example_store example_store_ok 5 1 1).
  - vm_compute. reflexivity.
  - vm_compute. lia.
Defined.

Definition example_operation : operation_row :=
  new_operation "op1" "d1" "developer" "Developer" "rpc.raw" (PDict []) "queued" 5 0 "sha256:v1:00".
Lemma operation_id_unique_witness :
  operation_fingerprint [] example_operation = Ok "sha256:v1:00"%string
  ∧ snd (create_operation [] example_operation GatewayStore_init) = Ok (example_operation, true).
Proof.
  split; [reflexivity |].
  rewrite (operation_id_unique [] example_operation _ GatewayStore_init eq_refl). reflexivity.
Defined.

Definition example_lease (id state : string) : lease_row :=
  LeaseRow id "d1" "" "flash" state "{}" "{}" None None "developer" "Developer" 1 2 None None.
Lemma lease_exclusive_witness : ∃ s, st_leases s = [example_lease "l1" "detached"]
  ∧ create_maintenance_lease (example_lease "l2" "detached") s
    = (s, raise IntegrityError "UNIQUE constraint failed").
Proof.
  exists (set_leases [example_lease "l1" "detached"] GatewayStore_init). split; [reflexivity |].
  assert (Hok : leases_ok [example_lease "l1" "detached"]).
  { constructor; [apply NoDup_singleton |]. intros r r' ->%list_elem_of_singleton ->%list_elem_of_singleton. done. }
  refine (proj2 (proj2 (lease_exclusive (set_leases _ GatewayStore_init) Hok))
    (example_lease "l2" "detached") (example_lease "l1" "detached") eq_refl _ eq_refl eq_refl).
  by left.
Defined.

(** ** Raw logs that are kept *)

Lemma total_size_app l k : total_size (l ++ k) = total_size l + total_size k.
Proof. unfold total_size. induction l as [|f l IH]; cbn; lia. Qed.
Lemma shrink_spec max_bytes : ∀ files, ∃ removed,
  files = removed ++ shrink files (total_size files) max_bytes
  ∧ (0 ≤ max_bytes → total_size (shrink files (total_size files) max_bytes) ≤ max_bytes)
  ∧ ∀ rest f, removed = rest ++ [f] → max_bytes < lf_size f + total_size (shrink files (total_size files) max_bytes).
Proof.
  induction files as [|f files (removed & IH1 & IH2 & IH3)].
  - exists []. cbn. split_and!; [done | by intros |]. by intros [].
  - cbn [shrink]. replace (total_size (f :: files) - lf_size f) with (total_size files) by (unfold total_size; cbn; lia).
    destruct (Z.ltb_spec max_bytes (total_size (f :: files))) as [Hlt | Hle].
    + exists (f :: removed). split_and!; [by cbn; f_equal | done |].
      intros [|f' rest] g Hg; injection Hg as -> Hr; [| by apply (IH3 rest)]. subst removed. cbn in IH1. rewrite <-IH1.
      unfold total_size in *. cbn in Hlt. lia.
    + exists []. split_and!; [done | by intros | by intros []].
Qed.
Lemma sorted_split l k f g : StronglySorted older_le (l ++ k) → f ∈ l → g ∈ k → lf_mtime f ≤ lf_mtime g.
Proof.
  intros Hs Hf Hg. induction l as [|x l IH]; [by apply not_elem_of_nil in Hf |]. cbn in Hs. apply StronglySorted_inv in Hs as [Hs Hx].
  apply elem_of_cons in Hf as [-> | Hf]; [| by apply IH]. apply (proj1 (Forall_forall _ _) Hx g). set_solver.
Qed.

Lemma sorted_filter {A} (R : A → A → Prop) (P : A → Prop) `{!∀ x, Decision (P x)} l :
  StronglySorted R l → StronglySorted R (filter P l).
Proof.
  induction 1 as [|x l Hs IH Hx]; [constructor |]. rewrite filter_cons. case_decide; [| done]. constructor; [done |].
  apply Forall_forall. intros y [_ Hy]%list_elem_of_filter. by apply (proj1 (Forall_forall _ _) Hx).
Qed.

(** The files that stay are young enough and together small enough.  Of those
    that are young enough the oldest go, and not one more than the limit asks
    for.  What stays is unchanged, and the index has the rows of these files. *)
Theorem logs_retained files now max_age max_bytes s : 0 ≤ max_bytes →
  let kept := kept_logs files now max_age max_bytes in
  let s' := cleanup_raw_logs files now max_age max_bytes s in
  total_size kept ≤ max_bytes
  ∧ (∀ f, f ∈ kept → f ∈ files ∧ now - max_age ≤ lf_mtime f)
  ∧ (∃ removed, (∀ f, f ∈ files → now - max_age ≤ lf_mtime f → f ∈ removed ++ kept)
       ∧ (∀ f g, f ∈ removed → g ∈ kept → lf_mtime f ≤ lf_mtime g)
       ∧ ∀ rest f, removed = rest ++ [f] → max_bytes < lf_size f + total_size kept)
  ∧ (∀ path, st_logs s' !! path =
       if decide (path ∈ map lf_path kept ∨ path ∉ map lf_path files) then st_logs s !! path else None)
  ∧ (∀ r, r ∈ st_log_index s' ↔ r ∈ st_log_index s ∧ is_Some (st_logs s' !! lg_path r)).
Proof.
  intros Hmax kept s'. subst kept. unfold kept_logs. set (young := filter _ (merge_sort older_le files)).
  destruct (shrink_spec max_bytes young) as (removed & Hy & Hsize & Hlast). set (kept := shrink young _ _) in *.
  assert (Hyoung : ∀ f, f ∈ young ↔ now - max_age ≤ lf_mtime f ∧ f ∈ files).
  { intros f. unfold young. by rewrite list_elem_of_filter, merge_sort_Permutation. }
  assert (Hsorted : StronglySorted older_le young).
  { apply sorted_filter, Sorted_StronglySorted; [intros f g h; unfold older_le; lia |].
    apply Sorted_merge_sort. intros f g. unfold older_le. lia. }
  split_and!.
  - by apply Hsize.
  - intros f Hf. assert (Hin : f ∈ young) by (rewrite Hy; set_solver). by apply Hyoung in Hin as [? ?].
  - exists removed. split_and!; [| | exact Hlast].
    + intros f Hf Ha. rewrite <-Hy. by apply Hyoung.
    + intros f g. apply sorted_split. by rewrite <-Hy.
  - intros path. subst s'. unfold cleanup_raw_logs. cbn. apply option_eq. intros lines. rewrite map_lookup_filter_Some. cbn.
    change (kept_logs files now max_age max_bytes) with kept. case_decide; naive_solver.
  - intros r. subst s'. unfold cleanup_raw_logs. cbn. rewrite list_elem_of_filter. naive_solver.
Qed.
