(* ===== verification/Observability.v ===== *)
(** * Metrics and event envelopes ([observability.py])

    Floating-point metrics are IEEE binary64 values, computed with the Standard
    Library's specification of the operations. *)
From Stdlib Require Import Floats.SpecFloat.
From stdpp Require Import sorting.
From S2P Require Import Prelude Value Store.

(** ** Binary64 *)

Definition float := spec_float.
Definition float_zero : float := S754_zero false.
Definition float_add : float → float → float := SFadd 53 1024.
Definition float_of_int (z : Z) : float := binary_normalize 53 1024 z 0 false.
(** [a / b] of integers, [b > 0]: the exact quotient, rounded once. *)
Definition int_div (a b : Z) : float :=
  match a, b with
  | Zpos a, Zpos b => SFdiv 53 1024 (S754_finite false a 0) (S754_finite false b 0)
  | Zneg a, Zpos b => SFdiv 53 1024 (S754_finite true a 0) (S754_finite false b 0)
  | _, _ => float_zero
  end.
Definition float_lt (a b : float) : bool := SFltb a b.

(** ** Envelopes *)

Definition CORRELATION_FIELDS : list string :=
  ["device_id"; "boot_id"; "session_id"; "operation_id"; "request_id"; "job_id"; "firmware_sha256"]%string.

(** [d.setdefault(key, value)] *)
Definition setdefault (key : string) (v : pyval) (d : list (string * pyval)) : list (string * pyval) :=
  if has_key key d then d else d ++ [(key, v)].

Definition correlation (item : list (string * pyval)) : list (string * pyval) :=
  omap (λ name, if is_none (dict_get name item) then None else Some (name, dict_get name item))
    CORRELATION_FIELDS.

Definition normalize_event (container_str : pyval → string) (event : list (string * pyval))
    (category component : string) (now : Z) : list (string * pyval) :=
  let item := setdefault "schema" (PStr "esp-iris-event/v1") event in
  let item := setdefault "host_receive_wall_ns" (PInt now) item in
  let item := setdefault "component" (PStr component) item in
  let kind := default (PStr category) (dict_lookup "kind" item) in
  let item := setdefault "event_name" (PStr (py_str container_str kind)) item in
  let item := setdefault "severity" (PStr "info") item in
  dict_set "correlation" (PDict (correlation item)) item.

(** ** Metrics *)

Record distribution := Distribution { ds_count : Z; ds_total : float; ds_maximum : float }.
Definition Distribution_init : distribution := Distribution 0 float_zero float_zero.

Definition observe_value (value : float) (d : distribution) : distribution :=
  Distribution (ds_count d + 1) (float_add (ds_total d) value)
    (if float_lt (ds_maximum d) value then value else ds_maximum d).

Record MetricsRegistry := Metrics {
  mt_counters : list (string * Z);
  mt_gauges : list (string * float);
  mt_distributions : list (string * distribution);
}.
Definition MetricsRegistry_init : MetricsRegistry := Metrics [] [] [].

Definition increment (name : string) (amount : Z) (m : MetricsRegistry) : MetricsRegistry * res unit :=
  if amount <? 0 then (m, raise ValueError "counter increments must be non-negative")
  else (Metrics (dict_set name (default 0 (dict_lookup name (mt_counters m)) + amount) (mt_counters m))
          (mt_gauges m) (mt_distributions m), Ok tt).

Definition gauge (name : string) (value : float) (m : MetricsRegistry) : MetricsRegistry :=
  Metrics (mt_counters m) (dict_set name value (mt_gauges m)) (mt_distributions m).

Definition observe (name : string) (value : float) (m : MetricsRegistry) : MetricsRegistry * res unit :=
  if float_lt value float_zero then (m, raise ValueError "observations must be non-negative")
  else (Metrics (mt_counters m) (mt_gauges m)
          (dict_set name (observe_value value (default Distribution_init (dict_lookup name (mt_distributions m))))
             (mt_distributions m)), Ok tt).

(** The sorted counters, gauges and distributions of a snapshot; the average
    divides the total by the count. *)
Definition distribution_dict (d : distribution) : Z * float * float * float :=
  (ds_count d, ds_total d, ds_maximum d,
   if ds_count d =? 0 then float_zero else SFdiv 53 1024 (ds_total d) (float_of_int (ds_count d))).
Definition by_name {A} (x y : string * A) : Prop := String.le (fst x) (fst y).
#[export] Instance by_name_dec A : RelDecision (@by_name A) := λ x y, String.le_dec _ _.
Definition snapshot (m : MetricsRegistry)
    : list (string * Z) * list (string * float) * list (string * (Z * float * float * float)) :=
  (merge_sort by_name (mt_counters m), merge_sort by_name (mt_gauges m),
   map (λ x, (fst x, distribution_dict (snd x))) (merge_sort by_name (mt_distributions m))).

(** ** An envelope keeps what the event says *)

Lemma setdefault_lookup key v d k :
  dict_lookup k (setdefault key v d) = match dict_lookup k d with
    | Some w => Some w
    | None => if String.eqb key k then Some v else None
    end.
Proof.
  unfold setdefault. destruct (has_key key d) eqn:Hk.
  - rewrite dict_lookup_has_key in Hk. destruct (dict_lookup k d) eqn:E; [done |].
    destruct (String.eqb_spec key k) as [-> |]; [by rewrite E in Hk | done].
  - induction d as [|[j w] d IH]; cbn; [done |]. cbn in Hk. apply orb_false_iff in Hk as [_ Hk].
    by destruct (String.eqb j k); [| apply IH].
Qed.

(** Every field of the event but the correlation is kept as it was. *)
Lemma normalize_event_keeps cs event category component now k v :
  dict_lookup k event = Some v → k ≠ "correlation"%string →
  dict_lookup k (normalize_event cs event category component now) = Some v.
Proof.
  intros Hv Hk. unfold normalize_event. rewrite dict_lookup_set, !setdefault_lookup, Hv.
  by rewrite (proj2 (String.eqb_neq _ _)).
Qed.

Example observe_tests :
  snapshot (fst (observe "a" (int_div 3 2) (fst (observe "a" (int_div 1 2) (fst (increment "c" 2 MetricsRegistry_init))))))
  = ([("c"%string, 2)], [], [("a"%string, (2, float_of_int 2, int_div 3 2, float_of_int 1))]).
Proof. vm_compute. reflexivity. Qed.
