(* ===== verification/Security.v ===== *)
(** * Actors, the developer password and agent tokens ([security.py])

    The password is stored as a salted PBKDF2 digest, an agent token only as the
    SHA-256 of its bearer string.  Random values are arguments. *)
From S2P Require Import Prelude Text Value Json JsonDump Sha256 OperationIdentity DeviceInfo Store StoreProps.

(** ** Actors *)

(** The scopes of a frozenset, in some order. *)
Record Actor := mkActor { ac_kind : string; ac_name : string; ac_scopes : list string }.
Definition unrestricted (kind name : string) : Actor := mkActor kind name ["*"%string].
Definition allows (a : Actor) (scope : string) : bool :=
  existsb (String.eqb "*") (ac_scopes a) || existsb (String.eqb scope) (ac_scopes a).
Definition actor_as_dict (a : Actor) : list (string * pyval) :=
  [("type", PStr (ac_kind a)); ("name", PStr (ac_name a));
   ("scopes", PList (map PStr (sorted_names (ac_scopes a))))]%string.

(** ** PBKDF2 *)

Definition xor_bytes (a b : bytes) : bytes := zip_with Z.lxor a b.

(** [hashlib.pbkdf2_hmac("sha256", password, salt, rounds)]: one block. *)
Definition pbkdf2_hmac (password salt : bytes) (rounds : Z) : res bytes :=
  if rounds <? 1 then raise ValueError "iteration value must be greater than 0."
  else
    let u := hmac_sha256 password (salt ++ [0; 0; 0; 1]) in
    Ok (fst (N.iter (Z.to_N (rounds - 1))
      (λ '(acc, u), let u := hmac_sha256 password u in (xor_bytes acc u, u)) (u, u))).

(** ** The manager *)

Record AuthManager := Auth {
  au_store : GatewayStore;
  au_sessions : list (string * (Actor * Z));
}.
Definition AuthManager_init (s : GatewayStore) : AuthManager := Auth s [].

Section auth.
Context (int_other : pyval → res Z) (container_str : pyval → string).

Definition password_setting (m : AuthManager) : res pyval := get_setting (au_store m) "password_hash" PNone.
Definition configured (m : AuthManager) : res bool :=
  saved ← password_setting m; Ok (negb (is_none saved)).

Definition PASSWORD_ROUNDS : Z := 310000.

Definition password_record (password salt : bytes) : res pyval :=
  digest ← pbkdf2_hmac password salt PASSWORD_ROUNDS;
  Ok (PDict [("algorithm", PStr "pbkdf2-sha256"); ("rounds", PInt PASSWORD_ROUNDS);
             ("salt", PStr (hex salt)); ("digest", PStr (hex digest))])%string.

Definition _set_password (password : string) (salt : bytes) (now : Z) (m : AuthManager)
    : AuthManager * res unit :=
  if str_len password <? 8
  then (m, raise ValueError "developer password must contain at least 8 characters")
  else match password_record (str_encode password) salt with
       | Err e => (m, Err e)
       | Ok record => (Auth (set_setting "password_hash" record now (au_store m)) (au_sessions m), Ok tt)
       end.

Definition audited (actor_type actor_name action : string) (details : list (string * pyval)) (now : Z)
    (m : AuthManager) : AuthManager :=
  Auth (fst (add_audit actor_type actor_name action details now (au_store m))) (au_sessions m).

Definition set_initial_password (password actor_name : string) (salt : bytes) (now : Z) (m : AuthManager)
    : AuthManager * res unit :=
  match configured m with
  | Err e => (m, Err e)
  | Ok true => (m, raise RuntimeError "developer password is already configured")
  | Ok false =>
    match _set_password password salt now m with
    | (m, Err e) => (m, Err e)
    | (m, Ok _) => (audited "system" actor_name "password.configured" [] now m, Ok tt)
    end
  end.

Definition change_password (password : string) (actor : Actor) (salt : bytes) (now : Z) (m : AuthManager)
    : AuthManager * res unit :=
  match _set_password password salt now m with
  | (m, Err e) => (m, Err e)
  | (m, Ok _) => (audited (ac_kind actor) (ac_name actor) "password.changed" [] now
                    (Auth (au_store m) []), Ok tt)
  end.

(** The saved record's check; a malformed record raises. *)
Definition check_password (password : string) (saved : list (string * pyval)) : res bool :=
  salt ← match dict_lookup "salt" saved with
         | Some (PStr s) => unhex s
         | Some _ => raise TypeError "fromhex() argument must be str"
         | None => raise KeyError "salt"
         end;
  rounds ← match dict_lookup "rounds" saved with
           | Some v => py_int int_other v
           | None => raise KeyError "rounds"
           end;
  digest ← pbkdf2_hmac (str_encode password) salt rounds;
  expected ← match dict_lookup "digest" saved with
             | Some v => Ok (py_str container_str v)
             | None => raise KeyError "digest"
             end;
  Ok (hex digest =? expected)%string.

Definition verify_password (m : AuthManager) (password : string) : res bool :=
  saved ← password_setting m;
  match saved with
  | PDict saved =>
    match check_password password saved with
    | Err e => if catches [KeyError; TypeError; ValueError] e then Ok false else Err e
    | r => r
    end
  | _ => Ok false
  end.

(** ** Browser sessions *)

Definition login (password token : string) (now : Z) (m : AuthManager) : AuthManager * res string :=
  match verify_password m password with
  | Err e => (m, Err e)
  | Ok false => (m, raise PermissionError "invalid developer password")
  | Ok true => (Auth (au_store m)
                  (dict_set token (unrestricted "developer" "Developer", now) (au_sessions m)), Ok token)
  end.

Definition logout (token : option string) (m : AuthManager) : AuthManager :=
  match token with
  | Some t => if (t =? "")%string then m else Auth (au_store m) (delete_key t (au_sessions m))
  | None => m
  end.

Definition browser_actor (m : AuthManager) (token : option string) : option Actor :=
  match token with
  | Some t => if (t =? "")%string then None else option_map fst (dict_lookup t (au_sessions m))
  | None => None
  end.

(** ** Agent tokens *)

Definition AGENT_TOKEN_SCOPES : list string := ["files.read"; "files.write"; "files.delete"]%string.

Definition bearer_text (token_id secret : string) : string := ("iris_" ++ token_id ++ "_" ++ secret)%string.
Definition bearer_digest (bearer : string) : string := sha256_hex (str_encode bearer).

(** [json.dumps(sorted(scopes))], with the default separators. *)
Definition scopes_text (scopes : list string) : string :=
  match sorted_names scopes with
  | [] => "[]"
  | s :: l => bytes_str ([91] ++ string_text s ++ concat (map (λ s, [44; 32] ++ string_text s) l) ++ [93])
  end.

Definition insert_token (row : token_row) (s : GatewayStore) : GatewayStore * res unit :=
  if existsb (λ r, (tk_token_id r =? tk_token_id row)%string || (tk_name r =? tk_name row)%string) (st_tokens s)
  then (s, raise IntegrityError "UNIQUE constraint failed")
  else (set_tokens (st_tokens s ++ [row]) s, Ok tt).

Record new_token := NewToken { nt_token_id : string; nt_name : string; nt_token : string; nt_scopes : list string }.

Definition create_agent_token (name : string) (actor : Actor) (scopes : option (list string))
    (token_id secret : string) (now : Z) (m : AuthManager) : AuthManager * res new_token :=
  let clean := strip name in
  let selected := remove_dups (default ["files.read"%string] scopes) in
  if (clean =? "")%string || (64 <? str_len clean)
  then (m, raise ValueError "token name must contain 1 to 64 characters")
  else if is_nil selected || negb (forallb (λ s, existsb (String.eqb s) AGENT_TOKEN_SCOPES) selected)
  then (m, raise ValueError "agent token contains an unsupported or empty scope set")
  else
    let bearer := bearer_text token_id secret in
    match insert_token (TokenRow token_id clean (bearer_digest bearer) now None None (scopes_text selected))
            (au_store m) with
    | (_, Err _) => (m, raise ValueError "agent token name is already in use")
    | (s, Ok _) =>
      (audited (ac_kind actor) (ac_name actor) "agent_token.created"
         [("token_id", PStr token_id); ("name", PStr clean)]%string now (Auth s (au_sessions m)),
       Ok (NewToken token_id clean bearer (sorted_names selected)))
    end.

(** [WHERE token_hash=? AND revoked_ns IS NULL] *)
Definition live_token (digest : string) (r : token_row) : bool :=
  (tk_token_hash r =? digest)%string && bool_decide (tk_revoked_ns r = None).

(** The characters of a UTF-8 text. *)
Fixpoint utf8_chars (acc l : bytes) : list bytes :=
  let flush := if is_nil acc then [] else [acc] in
  match l with
  | [] => flush
  | b :: l => if is_continuation b then utf8_chars (acc ++ [b]) l else flush ++ utf8_chars [b] l
  end.

(** [frozenset(json.loads(text))], empty if that raises. *)
Definition scopes_of (text : string) : list string :=
  match json_loads plain_object text with
  | Ok (PList l) => if forallb hashable l then omap (λ v, match v with PStr s => Some s | _ => None end) l else []
  | Ok (PDict d) => keys d
  | Ok (PStr s) => map bytes_str (utf8_chars [] (str_encode s))
  | _ => []
  end.

Definition authenticate_bearer (bearer : option string) (now : Z) (m : AuthManager)
    : AuthManager * option Actor :=
  match bearer with
  | None => (m, None)
  | Some bearer =>
    if negb (String.prefix "iris_" bearer) then (m, None)
    else match find (live_token (bearer_digest bearer)) (st_tokens (au_store m)) with
    | None => (m, None)
    | Some row =>
      (Auth (set_tokens (update_where (λ r, (tk_token_id r =? tk_token_id row)%string)
         (λ r, TokenRow (tk_token_id r) (tk_name r) (tk_token_hash r) (tk_created_ns r) (Some now)
                 (tk_revoked_ns r) (tk_scopes_json r)) (st_tokens (au_store m))) (au_store m)) (au_sessions m),
       Some (mkActor "agent" (tk_name row) (scopes_of (tk_scopes_json row))))
    end
  end.

Definition revoke_agent_token (token_id : string) (actor : Actor) (now : Z) (m : AuthManager)
    : AuthManager * res unit :=
  match find (λ r, (tk_token_id r =? token_id)%string) (st_tokens (au_store m)) with
  | None => (m, raise KeyError token_id)
  | Some row =>
    match tk_revoked_ns row with
    | Some _ => (m, Ok tt)
    | None =>
      (audited (ac_kind actor) (ac_name actor) "agent_token.revoked"
         [("token_id", PStr token_id); ("name", PStr (tk_name row))]%string now
         (Auth (set_tokens (update_where (λ r, (tk_token_id r =? token_id)%string)
            (λ r, TokenRow (tk_token_id r) (tk_name r) (tk_token_hash r) (tk_created_ns r) (tk_last_used_ns r)
                    (Some now) (tk_scopes_json r)) (st_tokens (au_store m))) (au_store m)) (au_sessions m)),
       Ok tt)
    end
  end.

Definition newest_token_le (r r' : token_row) : Prop := tk_created_ns r' ≤ tk_created_ns r.
#[export] Instance newest_token_le_dec : RelDecision newest_token_le :=
  λ r r', decide (tk_created_ns r' ≤ tk_created_ns r).
Definition token_item (r : token_row) : res (list (string * pyval)) :=
  scopes ← json_loads plain_object (tk_scopes_json r);
  Ok [("token_id", PStr (tk_token_id r)); ("name", PStr (tk_name r)); ("created_ns", PInt (tk_created_ns r));
      ("last_used_ns", opt_int (tk_last_used_ns r)); ("revoked_ns", opt_int (tk_revoked_ns r));
      ("scopes", scopes)]%string.
Definition list_agent_tokens (m : AuthManager) : res (list (list (string * pyval))) :=
  mapM token_item (sorting.merge_sort newest_token_le (st_tokens (au_store m))).
End auth.

(** ** The password *)

Lemma password_record_ok password salt record : is_bytes salt →
  password_record password salt = Ok record → json_ok record.
Proof.
  intros _ H. bind H as digest Hd. injection H as <-. cbn [json_ok].
  split; [by_decide |]. cbn. repeat constructor. vm_compute. congruence.
Qed.

Lemma pbkdf2_rounds_ok password salt : ∃ digest, pbkdf2_hmac password salt PASSWORD_ROUNDS = Ok digest.
Proof. unfold pbkdf2_hmac. change (PASSWORD_ROUNDS <? 1) with false. by eexists. Qed.

Lemma check_record int_other cs attempt salt digest rounds : is_bytes salt →
  check_password int_other cs attempt
    [("algorithm", PStr "pbkdf2-sha256"); ("rounds", PInt rounds);
     ("salt", PStr (hex salt)); ("digest", PStr (hex digest))]%string
  = (digest' ← pbkdf2_hmac (str_encode attempt) salt rounds;
     Ok (hex digest' =? hex digest)%string).
Proof.
  intros Hsalt. unfold check_password. cbn [dict_lookup String.eqb Ascii.eqb Bool.eqb].
  rewrite unhex_hex by done. cbn [mbind res_bind py_int]. by destruct (pbkdf2_hmac _ _ _).
Qed.

Lemma set_password_setting password salt now m m' : is_bytes salt →
  _set_password password salt now m = (m', Ok tt) →
  ∃ record, password_record (str_encode password) salt = Ok record ∧ password_setting m' = Ok record
    ∧ au_sessions m' = au_sessions m.
Proof.
  intros Hsalt. unfold _set_password. destruct (str_len password <? 8); [done |].
  destruct (password_record (str_encode password) salt) as [record|e] eqn:Hrec; [| done].
  intros [= <-]. exists record. split; [done |]. split; [| done].
  unfold password_setting. cbn [au_store]. apply get_set_setting. by eapply password_record_ok.
Qed.

Section password.
Context (int_other : pyval → res Z) (container_str : pyval → string).

(** The developer password.  After a password was set, exactly the
    passwords with its salted digest are accepted - the password itself among
    them - and the change has ended every browser session. *)
Theorem password_accepted password salt actor now m m' :
  is_bytes salt → change_password password actor salt now m = (m', Ok tt) →
  au_sessions m' = []
  ∧ verify_password int_other container_str m' password = Ok true
  ∧ ∀ attempt, verify_password int_other container_str m' attempt
      = (digest ← pbkdf2_hmac (str_encode password) salt PASSWORD_ROUNDS;
         digest' ← pbkdf2_hmac (str_encode attempt) salt PASSWORD_ROUNDS;
         Ok (hex digest' =? hex digest)%string).
Proof.
  intros Hsalt Hset. unfold change_password in Hset.
  destruct (_set_password password salt now m) as [m1 [u|e]] eqn:H; [destruct u | done].
  injection Hset as <-. destruct (set_password_setting _ _ _ _ _ Hsalt H) as (record & Hrec & Hget & _).
  split; [done |].
  assert (Hall : ∀ attempt, verify_password int_other container_str
      (audited (ac_kind actor) (ac_name actor) "password.changed" [] now (Auth (au_store m1) [])) attempt
      = (digest ← pbkdf2_hmac (str_encode password) salt PASSWORD_ROUNDS;
         digest' ← pbkdf2_hmac (str_encode attempt) salt PASSWORD_ROUNDS;
         Ok (hex digest' =? hex digest)%string)).
  { intros attempt. unfold verify_password.
    change (password_setting (audited _ _ _ _ _ (Auth (au_store m1) []))) with (password_setting m1).
    rewrite Hget. cbn [mbind res_bind]. unfold password_record in Hrec. bind Hrec as digest Hd.
    injection Hrec as <-. rewrite check_record by done. rewrite Hd.
    destruct (pbkdf2_rounds_ok (str_encode attempt) salt) as [digest' ->]. done. }
  split; [| exact Hall]. rewrite Hall. destruct (pbkdf2_rounds_ok (str_encode password) salt) as [digest ->].
  cbn. by rewrite String.eqb_refl.
Qed.
End password.

(** ** Agent tokens *)

Lemma scan_string_value fuel s rest :
  scan_value plain_object (S fuel) (string_text s ++ rest) = Ok (PStr s, rest).
Proof. destruct (scan_string_text s rest) as [Hn Hs]. cbn [scan_value]. by rewrite Hn, Hs. Qed.

Lemma scan_value_array fuel t : scan_value plain_object (S fuel) (91 :: t) =
  match next_is 93 (skip_ws t) with
  | Some rest => Ok (PList [], rest)
  | None => scan_array (scan_value plain_object fuel) (S (length t)) [] (skip_ws t)
  end.
Proof. done. Qed.

Definition spaced (s : string) : bytes := [44; 32] ++ string_text s.

Lemma scan_spaced l : ∀ s fuel f acc rest, (length l < fuel)%nat →
  scan_array (scan_value plain_object (S f)) fuel acc (string_text s ++ concat (map spaced l) ++ 93 :: rest)
  = Ok (PList (acc ++ map PStr (s :: l)), rest).
Proof.
  induction l as [|s' l IH]; intros s fuel f acc rest Hf; (destruct fuel as [|fuel]; [lia |]); cbn [map concat].
  - apply scan_array_last, scan_string_value.
  - unfold spaced at 1. rewrite <- !app_assoc. cbn [app].
    erewrite scan_array_more; [| apply scan_string_value].
    change (skip_ws (32 :: ?x)) with (skip_ws x). rewrite (proj1 (starts_skip (string_text s') _ ltac:(done))).
    rewrite IH by (cbn in Hf; lia). by rewrite <- app_assoc.
Qed.

Lemma spaced_length l : (length l ≤ length (concat (map spaced l)))%nat.
Proof. induction l as [|s l IH]; [done |]. cbn [map concat]. rewrite length_app. cbn. lia. Qed.

Lemma scopes_roundtrip scopes : scopes_of (scopes_text scopes) = sorted_names scopes.
Proof.
  unfold scopes_text, scopes_of. destruct (sorted_names scopes) as [|s l]; [vm_compute; reflexivity |].
  change (λ s0, [44; 32] ++ string_text s0) with spaced.
  set (text := [91] ++ string_text s ++ concat (map spaced l) ++ [93]).
  assert (Hbytes : is_bytes text).
  { unfold text. apply Forall_app. split; [by repeat constructor |]. apply Forall_app.
    split; [apply string_text_bytes |]. apply Forall_app. split; [| by repeat constructor].
    induction l as [|s' l IH]; [constructor |]. cbn [map concat]. apply Forall_app. split; [| by apply IH].
    apply Forall_app. split; [by repeat constructor | apply string_text_bytes]. }
  assert (Hscan : scan_value plain_object (S (length text)) text = Ok (PList (map PStr (s :: l)), [])).
  { set (tail := string_text s ++ concat (map spaced l) ++ [93]) in *.
    change text with (91 :: tail). cbn [length]. rewrite scan_value_array. unfold tail at 1 2 4.
    rewrite (proj1 (starts_skip (string_text s) _ ltac:(done))), (proj2 (starts_skip (string_text s) _ ltac:(done))).
    rewrite scan_spaced; [done |]. unfold tail. rewrite !length_app. pose proof (spaced_length l). lia. }
  assert (Hload : json_loads plain_object (bytes_str text) = Ok (PList (map PStr (s :: l)))).
  { unfold json_loads. rewrite str_encode_bytes_str by done.
    change (strip_prefix [0xEF; 0xBB; 0xBF] text) with (None : option bytes).
    change (skip_ws text) with text. by rewrite Hscan. }
  rewrite Hload. clear. assert (H : ∀ l, forallb hashable (map PStr l) = true
    ∧ omap (λ v, match v with PStr s => Some s | _ => None end) (map PStr l) = l).
  { induction l0 as [|x l0 [IH1 IH2]]; [done |]. cbn. cbn in IH2. by rewrite IH1, IH2. }
  destruct (H (s :: l)) as [-> ->]. done.
Qed.

Section tokens.
Context (int_other : pyval → res Z) (container_str : pyval → string).

(** The operations of the manager, as one step each. *)
Inductive auth_op :=
| OpSetInitial (password actor_name : string) (salt : bytes) (now : Z)
| OpChange (password : string) (actor : Actor) (salt : bytes) (now : Z)
| OpLogin (password token : string) (now : Z)
| OpLogout (token : option string)
| OpCreate (name : string) (actor : Actor) (scopes : option (list string)) (token_id secret : string) (now : Z)
| OpAuthenticate (bearer : option string) (now : Z)
| OpRevoke (token_id : string) (actor : Actor) (now : Z).

Definition auth_step (m : AuthManager) (op : auth_op) : AuthManager :=
  match op with
  | OpSetInitial password actor_name salt now => fst (set_initial_password password actor_name salt now m)
  | OpChange password actor salt now => fst (change_password password actor salt now m)
  | OpLogin password token now => fst (login int_other container_str password token now m)
  | OpLogout token => logout token m
  | OpCreate name actor scopes token_id secret now =>
    fst (create_agent_token name actor scopes token_id secret now m)
  | OpAuthenticate bearer now => fst (authenticate_bearer bearer now m)
  | OpRevoke token_id actor now => fst (revoke_agent_token token_id actor now m)
  end.

Definition auth_run (ops : list auth_op) (m : AuthManager) : AuthManager := fold_left auth_step ops m.

Definition revokes (id : string) (op : auth_op) : bool :=
  match op with OpRevoke i _ _ => (i =? id)%string | _ => false end.
Definition issues (digest : string) (op : auth_op) : bool :=
  match op with
  | OpCreate _ _ _ id secret _ => (bearer_digest (bearer_text id secret) =? digest)%string
  | _ => false
  end.

Abbreviation tokens m := (st_tokens (au_store m)).
Definition tokens_ok (m : AuthManager) : Prop := NoDup (map tk_token_id (tokens m)).

(** A row keeps what identifies it; only its revocation revokes it. *)
Record token_kept (op : auth_op) (r r' : token_row) : Prop := {
  kept_id : tk_token_id r' = tk_token_id r;
  kept_name : tk_name r' = tk_name r;
  kept_hash : tk_token_hash r' = tk_token_hash r;
  kept_scopes : tk_scopes_json r' = tk_scopes_json r;
  kept_revoked : tk_revoked_ns r ≠ None → tk_revoked_ns r' ≠ None;
  kept_live : tk_revoked_ns r = None → revokes (tk_token_id r) op = false → tk_revoked_ns r' = None;
}.

Definition tokens_kept (op : auth_op) (l l' : list token_row) : Prop :=
  ∃ f new, l' = map f l ++ new ∧ (∀ r, token_kept op r (f r))
    ∧ Forall (λ r, issues (tk_token_hash r) op = true) new
    ∧ (NoDup (map tk_token_id l) → NoDup (map tk_token_id l')).

Lemma tokens_kept_refl op l : tokens_kept op l l.
Proof. exists id, []. rewrite map_id, app_nil_r. done. Qed.

Lemma tokens_kept_update op p f l : (∀ r, p r = true → token_kept op r (f r)) → tokens_kept op l (update_where p f l).
Proof.
  intros Hf. exists (λ r, if p r then f r else r), []. rewrite app_nil_r. split; [done |].
  assert (Hk : ∀ r, token_kept op r (if p r then f r else r)) by (intros r; destruct (p r) eqn:E; [by apply Hf | done]).
  do 2 (split; [done |]). unfold update_where. intros Hd. rewrite map_map.
  erewrite map_ext; [exact Hd |]. intros r. apply (kept_id _ _ _ (Hk r)).
Qed.

Lemma set_password_tokens password salt now m : tokens (fst (_set_password password salt now m)) = tokens m.
Proof. unfold _set_password. destruct (_ <? _); [done |]. by destruct (password_record _ _). Qed.

Lemma create_tokens name actor scopes id secret now m :
  tokens_kept (OpCreate name actor scopes id secret now) (tokens m)
    (tokens (fst (create_agent_token name actor scopes id secret now m))).
Proof.
  unfold create_agent_token. destruct (_ || _); [apply tokens_kept_refl |]. destruct (_ || _); [apply tokens_kept_refl |].
  unfold insert_token. destruct (existsb _ _) eqn:Hnew; [apply tokens_kept_refl |]. cbn.
  eexists (λ r, r), [_]. rewrite map_id. do 2 (split; [done |]).
  split; [constructor; [cbn; by rewrite String.eqb_refl | done] |].
  intros Hd. rewrite map_app. apply NoDup_app. split; [done |]. split; [| apply NoDup_singleton].
  intros x (r & <- & Hr)%list_elem_of_In%in_map_iff Hx%list_elem_of_singleton. cbn in Hx.
  rewrite <- not_true_iff_false, existsb_exists in Hnew. apply Hnew. exists r. split; [done |].
  cbn. by rewrite Hx, String.eqb_refl.
Qed.

Lemma auth_step_tokens m op : tokens_kept op (tokens m) (tokens (auth_step m op)).
Proof.
  assert (Heq : ∀ l, l = tokens m → tokens_kept op (tokens m) l) by (intros l ->; apply tokens_kept_refl).
  destruct op as [password ? salt now|password ? salt now| |token| |bearer ?|id ? ?]; cbn [auth_step].
  - apply Heq. unfold set_initial_password. destruct (configured m) as [[]|]; try done.
    pose proof (set_password_tokens password salt now m) as H.
    by destruct (_set_password _ _ _ _) as [m1 []].
  - apply Heq. unfold change_password. pose proof (set_password_tokens password salt now m) as H.
    by destruct (_set_password _ _ _ _) as [m1 []].
  - apply Heq. unfold login. by destruct (verify_password _ _ _ _) as [[]|].
  - apply Heq. unfold logout. destruct token as [t|]; [| done]. by destruct (t =? "")%string.
  - apply create_tokens.
  - unfold authenticate_bearer. destruct bearer as [b|]; [| by apply Heq].
    destruct (negb _); [by apply Heq |]. destruct (find _ _) as [row|]; [| by apply Heq].
    cbn. by apply tokens_kept_update.
  - unfold revoke_agent_token. destruct (find _ _) as [row|]; [| by apply Heq].
    destruct (tk_revoked_ns row); [by apply Heq |]. cbn. apply tokens_kept_update.
    intros r Hr. constructor; try done. cbn. rewrite String.eqb_sym, Hr. done.
Qed.

(** The row of a token that authenticates: the first with its digest, live. *)
Definition token_live (row : token_row) (l : list token_row) : Prop :=
  ∃ l1 r l2, l = l1 ++ r :: l2 ∧ Forall (λ q, tk_token_hash q ≠ tk_token_hash row) l1
    ∧ tk_revoked_ns r = None ∧ tk_token_id r = tk_token_id row ∧ tk_name r = tk_name row
    ∧ tk_token_hash r = tk_token_hash row ∧ tk_scopes_json r = tk_scopes_json row.
(** Every row with the digest has the id. *)
Definition token_single (digest id : string) (l : list token_row) : Prop :=
  ∀ r, r ∈ l → tk_token_hash r = digest → tk_token_id r = id.
Definition token_dead (digest : string) (l : list token_row) : Prop :=
  ∀ r, r ∈ l → tk_token_hash r = digest → tk_revoked_ns r ≠ None.

Section steps.
Context (op : auth_op) (l l' : list token_row) (Hstep : tokens_kept op l l').

Lemma kept_origin r' : r' ∈ l' → (∃ r, r ∈ l ∧ token_kept op r r') ∨ issues (tk_token_hash r') op = true.
Proof.
  destruct Hstep as (f & new & -> & Hf & Hnew & _). intros [Hr|Hr]%elem_of_app; [left | right].
  - apply list_elem_of_In, in_map_iff in Hr as (r & <- & Hr%list_elem_of_In). by exists r.
  - by apply (proj1 (Forall_forall _ _) Hnew).
Qed.

Lemma token_live_step row : revokes (tk_token_id row) op = false → token_live row l → token_live row l'.
Proof.
  intros Hop (l1 & r & l2 & -> & Hl1 & Hlive & Hid & Hn & Hh & Hs). destruct Hstep as (f & new & -> & Hf & _).
  rewrite map_app, map_cons, <- app_assoc. exists (map f l1), (f r), (map f l2 ++ new). destruct (Hf r).
  split; [done |]. split.
  { apply Forall_map. eapply Forall_impl; [exact Hl1 |]. intros q Hq. cbn. by rewrite (kept_hash _ _ _ (Hf q)). }
  split; [apply kept_live0; [done | by rewrite Hid] |]. split_and!; congruence.
Qed.

Lemma token_single_step digest id : issues digest op = false → token_single digest id l → token_single digest id l'.
Proof.
  intros Hop H r' [(r & Hr & Hk)|Hnew]%kept_origin Hh; [| by rewrite Hh, Hop in Hnew].
  destruct Hk. rewrite kept_id0. apply H; congruence.
Qed.

Lemma token_dead_step digest : issues digest op = false → token_dead digest l → token_dead digest l'.
Proof.
  intros Hop H r' [(r & Hr & Hk)|Hnew]%kept_origin Hh; [| by rewrite Hh, Hop in Hnew].
  destruct Hk. apply kept_revoked0, H; congruence.
Qed.
End steps.

Lemma auth_run_keeps (P : list token_row → Prop) (q : auth_op → bool) :
  (∀ op l l', tokens_kept op l l' → q op = false → P l → P l') →
  ∀ ops m, Forall (λ op, q op = false) ops → P (tokens m) → P (tokens (auth_run ops m)).
Proof.
  intros Hstep ops. induction ops as [|op ops IH]; intros m Hops HP; [done |].
  apply Forall_cons in Hops as [Hop Hops]. apply IH; [done |]. by eapply Hstep; [apply auth_step_tokens | |].
Qed.

Lemma auth_run_tokens_ok ops m : tokens_ok m → tokens_ok (auth_run ops m).
Proof.
  revert m. induction ops as [|op ops IH]; intros m H; [done |]. apply IH.
  destruct (auth_step_tokens m op) as (f & new & _ & _ & _ & Hd). by apply Hd.
Qed.

Lemma live_token_find row l : token_live row l →
  ∃ r, find (live_token (tk_token_hash row)) l = Some r
    ∧ tk_name r = tk_name row ∧ tk_scopes_json r = tk_scopes_json row.
Proof.
  intros (l1 & r & l2 & -> & Hl1 & Hlive & _ & Hn & Hh & Hs). exists r. split; [| done].
  induction Hl1 as [|q l1 Hq _ IH]; cbn; unfold live_token at 1.
  - by rewrite Hh, String.eqb_refl, bool_decide_eq_true_2.
  - by rewrite (proj2 (String.eqb_neq _ _) Hq).
Qed.

Lemma dead_token_find digest l : token_dead digest l → find (live_token digest) l = None.
Proof.
  intros H. destruct (find _ l) as [r|] eqn:E; [exfalso | done]. apply find_some in E as [Hr Hl].
  apply andb_true_iff in Hl as [Hh%String.eqb_eq Hl%bool_decide_eq_true]. by apply (H r); [apply list_elem_of_In |..].
Qed.

Lemma row_by_id l id r r' : NoDup (map tk_token_id l) → r ∈ l → r' ∈ l →
  tk_token_id r = id → tk_token_id r' = id → r = r'.
Proof.
  induction l as [|x l IH]; [by intros _ ?%not_elem_of_nil |]. cbn. intros [Hx Hd]%NoDup_cons.
  assert (Hin : ∀ q, q ∈ l → tk_token_id q ≠ tk_token_id x).
  { intros q Hq Hid. apply Hx. rewrite <- Hid. by apply list_elem_of_fmap_2. }
  intros [->|Hr]%elem_of_cons [->|Hr']%elem_of_cons H H'; [done | | | by apply IH].
  - by destruct (Hin r'); [| congruence].
  - by destruct (Hin r); [| congruence].
Qed.

Lemma revoke_kills id actor now m digest : tokens_ok m → token_single digest id (tokens m) →
  token_dead digest (tokens (fst (revoke_agent_token id actor now m))).
Proof.
  intros Hok Hsingle. unfold revoke_agent_token. destruct (find _ _) as [row|] eqn:Hfind; cycle 1.
  { intros r Hr Hh. exfalso. pose proof (find_none _ _ Hfind r (proj1 (list_elem_of_In _ _) Hr)) as Hne.
    cbn in Hne. by rewrite (Hsingle r Hr Hh), String.eqb_refl in Hne. }
  apply find_some in Hfind as [Hrow%list_elem_of_In Hid%String.eqb_eq].
  destruct (tk_revoked_ns row) eqn:Hrev; cbn.
  - intros r Hr Hh. rewrite (row_by_id _ id r row Hok Hr Hrow (Hsingle r Hr Hh) Hid), Hrev. done.
  - intros r' (r & <- & Hr)%list_elem_of_In%in_map_iff. apply list_elem_of_In in Hr.
    destruct (String.eqb_spec (tk_token_id r) id) as [|Hne]; [done |]. intros Hh. by destruct (Hne (Hsingle r Hr Hh)).
Qed.

Lemma create_live name actor scopes id secret now m m1 t :
  create_agent_token name actor scopes id secret now m = (m1, Ok t) →
  Forall (λ r, tk_token_hash r ≠ bearer_digest (nt_token t)) (tokens m) →
  nt_token t = bearer_text id secret ∧ nt_token_id t = id ∧ Forall (λ s, s ∈ AGENT_TOKEN_SCOPES) (nt_scopes t)
  ∧ (∃ row, token_live row (tokens m1) ∧ tk_token_id row = id ∧ tk_token_hash row = bearer_digest (nt_token t)
       ∧ tk_name row = nt_name t ∧ scopes_of (tk_scopes_json row) = nt_scopes t)
  ∧ token_single (bearer_digest (nt_token t)) id (tokens m1).
Proof.
  unfold create_agent_token. destruct (_ || _); [done |]. destruct (is_nil _ || _) eqn:Hsel; [done |].
  unfold insert_token. destruct (existsb _ _); [done |]. intros [= <- <-]. cbn. intros Hfresh.
  apply orb_false_iff in Hsel as [_ Hsel%negb_false_iff]. do 2 (split; [done |]). split.
  { rewrite sorted_names_perm. apply Forall_forall. intros x Hx.
    rewrite forallb_forall in Hsel. specialize (Hsel x (proj1 (list_elem_of_In _ _) Hx)).
    apply existsb_exists in Hsel as (y & Hy & <-%String.eqb_eq). by apply list_elem_of_In. }
  split.
  - set (row := TokenRow _ _ _ _ _ _ _). exists row. split; [exists (tokens m), row, []; done |].
    split_and!; [done | done | done | apply scopes_roundtrip].
  - intros r [Hr|Hr]%elem_of_app; [| by apply list_elem_of_singleton in Hr as ->].
    intros Hh. by destruct (proj1 (Forall_forall _ _) Hfresh r Hr).
Qed.

(** C19: the life of an agent token.  From its creation until its revocation the
    bearer string authenticates as an agent of the token's name with exactly
    the granted scopes, all of them file scopes, whatever else is done in
    between; from its revocation on it never authenticates again.  The digest
    of no other token may collide with its own. *)
Theorem agent_token_lifecycle name actor scopes id secret now m m1 t :
  tokens_ok m → create_agent_token name actor scopes id secret now m = (m1, Ok t) →
  Forall (λ r, tk_token_hash r ≠ bearer_digest (nt_token t)) (tokens m) →
  let bearer := Some (nt_token t) in
  Forall (λ s, s ∈ AGENT_TOKEN_SCOPES) (nt_scopes t)
  ∧ ∀ ops, Forall (λ op, revokes id op = false) ops →
    (∀ now, snd (authenticate_bearer bearer now (auth_run ops m1))
            = Some (mkActor "agent" (nt_name t) (nt_scopes t)))
    ∧ (Forall (λ op, issues (bearer_digest (nt_token t)) op = false) ops →
       ∀ ops' revoker at_ns now, Forall (λ op, issues (bearer_digest (nt_token t)) op = false) ops' →
       snd (authenticate_bearer bearer now
              (auth_run ops' (fst (revoke_agent_token id revoker at_ns (auth_run ops m1))))) = None).
Proof.
  intros Hok Hcreate Hfresh bearer. pose proof (create_tokens name actor scopes id secret now m) as (_ & _ & _ & _ & _ & Hd).
  rewrite Hcreate in Hd. destruct (create_live _ _ _ _ _ _ _ _ _ Hcreate Hfresh)
    as (Ht & Hid & Hscopes & (row & Hlive & Hrid & Hrh & Hrn & Hrs) & Hsingle).
  assert (Hprefix : String.prefix "iris_" (nt_token t) = true) by (rewrite Ht; by destruct id, secret).
  split; [done |]. intros ops Hops. split.
  - intros now'. assert (Hl : token_live row (tokens (auth_run ops m1))).
    { apply (auth_run_keeps (token_live row) (revokes id)); [| done | done].
      intros op l l' Hstep Hop. apply (token_live_step op l l' Hstep). by rewrite Hrid. }
    destruct (live_token_find row _ Hl) as (r & Hf & Hn & Hs). unfold authenticate_bearer, bearer.
    rewrite Hprefix. cbn [negb]. rewrite Hrh in Hf. rewrite Hf. cbn. by rewrite Hn, Hs, Hrn, Hrs.
  - intros Hnew ops' revoker at_ns now' Hnew'.
    assert (Hdead : token_dead (bearer_digest (nt_token t))
      (tokens (auth_run ops' (fst (revoke_agent_token id revoker at_ns (auth_run ops m1)))))).
    { apply (auth_run_keeps _ (issues (bearer_digest (nt_token t)))); [| done |].
      - intros op l l' Hstep Hop. by apply (token_dead_step op l l' Hstep).
      - apply revoke_kills; [by apply auth_run_tokens_ok, Hd |].
        apply (auth_run_keeps (token_single _ id) (issues (bearer_digest (nt_token t)))); [| done | done].
        intros op l l' Hstep Hop. by apply (token_single_step op l l' Hstep). }
    unfold authenticate_bearer, bearer. rewrite Hprefix. cbn [negb]. by rewrite (dead_token_find _ _ Hdead).
Qed.
End tokens.

(** ** Witnesses *)

Lemma change_password_ok password salt actor now m : (str_len password <? 8) = false →
  snd (change_password password actor salt now m) = Ok tt.
Proof.
  intros Hlen. unfold change_password, _set_password. rewrite Hlen. unfold password_record.
  by destruct (pbkdf2_rounds_ok (str_encode password) salt) as [digest ->].
Qed.

Lemma pair_snd {A B} (p : A * B) r : snd p = r → p = (fst p, r).
Proof. destruct p. by intros <-. Qed.

Definition example_auth : AuthManager :=
  Auth GatewayStore_init [("t"%string, (unrestricted "developer" "Developer", 1))].
Definition example_actor : Actor := unrestricted "developer" "Developer".
Lemma example_password_set :
  change_password "espressif" example_actor [1; 2] 7 example_auth
  = (fst (change_password "espressif" example_actor [1; 2] 7 example_auth), Ok tt).
Proof. apply pair_snd, change_password_ok. reflexivity. Qed.

Definition example_int (v : pyval) : res Z := raise ValueError "invalid literal for int()".
Definition example_str (v : pyval) : string := "[]"%string.

Lemma password_accepted_witness :
  is_bytes [1; 2]
  ∧ verify_password example_int example_str (fst (change_password "espressif" example_actor [1; 2] 7 example_auth)) "espressif"
    = Ok true.
Proof.
  assert (H : is_bytes [1; 2]) by by_decide. split; [exact H |].
  exact (proj1 (proj2 (password_accepted example_int example_str "espressif" [1; 2] example_actor 7 example_auth _ H
    example_password_set))).
Defined.

Definition example_created := create_agent_token "ci" example_actor (Some ["files.write"; "files.read"]%string)
  "ab" "secret" 5 example_auth.
Definition example_token : new_token :=
  NewToken "ab" "ci" "iris_ab_secret" ["files.read"; "files.write"]%string.
Lemma example_created_eq : example_created = (fst example_created, Ok example_token).
Proof. vm_compute. reflexivity. Qed.

Lemma agent_token_lifecycle_witness :
  snd (authenticate_bearer (Some "iris_ab_secret"%string) 8
    (auth_run example_int example_str [OpLogout None] (fst example_created)))
    = Some (mkActor "agent" "ci" ["files.read"; "files.write"]%string)
  ∧ snd (authenticate_bearer (Some "iris_ab_secret"%string) 9
      (auth_run example_int example_str [OpLogout None]
         (fst (revoke_agent_token "ab" example_actor 8 (auth_run example_int example_str [OpLogout None] (fst example_created))))))
    = None.
Proof.
  assert (Hok : tokens_ok example_auth) by constructor.
  assert (Hq : ∀ p, p (OpLogout None) = false → Forall (λ op, p op = false) [OpLogout None]) by (intros; by repeat constructor).
  pose proof (agent_token_lifecycle example_int example_str "ci" example_actor (Some ["files.write"; "files.read"]%string)
    "ab" "secret" 5 example_auth (fst example_created) example_token Hok example_created_eq (List.Forall_nil _)) as [_ H].
  destruct (H [OpLogout None] (Hq (revokes "ab") eq_refl)) as [H1 H2].
  split; [exact (H1 8) |].
  exact (H2 (Hq (issues _) eq_refl) [OpLogout None] example_actor 8 9 (Hq (issues _) eq_refl)).
Defined.
