(* ===== verification/Runtime.v ===== *)
(** * Python values at run time

    What the workflows use of Python beyond JSON: equality of values, [str],
    [int] and [float], [lower], and the presence tests of dictionaries.  The
    part of these built-ins that depends on the text of a float, on Unicode
    tables or on the rendering of containers is an interface, [Runtime]; the
    integers, booleans, strings and comparisons that decide the control flow
    are defined. *)
From Stdlib Require Import Floats.SpecFloat.
From S2P Require Import Prelude Text Value Store Observability.

(** A dictionary with string keys. *)
Definition dict : Type := list (string * pyval).

Class Runtime := {
  (** [str(v)] of a list or dictionary *)
  container_str : pyval → string;
  (** [int(v)] of a value that is no integer *)
  int_other : pyval → res Z;
  (** [int(s, 0)] *)
  int_base0 : string → res Z;
  (** [float(v)] of a value that is no integer *)
  float_other : pyval → res float;
  (** [a == b] of numbers one of which is a float *)
  float_eq : pyval → pyval → bool;
  (** [s.lower()] of a string that is not ASCII *)
  lower_other : string → string;
  (** the value of a decimal digit that is not ASCII, given as UTF-8 *)
  digit_other : bytes → option Z;
  (** [uuid.UUID(s).bytes] of a string that is not ASCII *)
  uuid_other : string → res bytes;
}.

Section runtime.
Context `{Runtime}.

(** The integer a boolean or an integer counts as in comparisons. *)
Definition number (v : pyval) : option Z :=
  match v with PInt z => Some z | PBool b => Some (if b then 1 else 0) | _ => None end.

(** [a == b] *)
Fixpoint py_eq (a b : pyval) : bool :=
  match a, b with
  | PNone, PNone => true
  | PStr s, PStr t => String.eqb s t
  | PList l, PList m =>
    (fix go l m := match l, m with
       | [], [] => true
       | x :: l, y :: m => py_eq x y && go l m
       | _, _ => false
       end) l m
  | PDict d, PDict e =>
    (length d =? length e)%nat &&
    (fix go d := match d with
       | [] => true
       | (k, v) :: d => match dict_lookup k e with Some w => py_eq v w | None => false end && go d
       end) d
  | PFloat _, (PFloat _ | PInt _ | PBool _) | (PInt _ | PBool _), PFloat _ => float_eq a b
  | _, _ => match number a, number b with Some x, Some y => x =? y | _, _ => false end
  end.

Definition str (v : pyval) : string := py_str container_str v.
Definition int (v : pyval) : res Z := py_int int_other v.

(** [float(v)]; an integer is rounded, or too large. *)
Definition is_finite (x : float) : bool :=
  match x with S754_zero _ | S754_finite _ _ _ => true | _ => false end.
Definition py_float (v : pyval) : res float :=
  match number v with
  | Some z => let x := float_of_int z in
              if is_finite x then Ok x else raise OverflowError "int too large to convert to float"
  | None => float_other v
  end.

(** [s.lower()] *)
Definition lower (s : string) : string := if str_is_ascii s then ascii_lower s else lower_other s.

(** [d.get(key, default)] *)
Definition get_or (key : string) (default_ : pyval) (d : dict) : pyval :=
  default default_ (dict_lookup key d).
(** [d[key]] *)
Definition subscript (d : dict) (key : string) : res pyval :=
  match dict_lookup key d with Some v => Ok v | None => raise KeyError key end.
(** [v.get(...)] needs a dictionary. *)
Definition as_dict (v : pyval) : res dict :=
  match v with PDict d => Ok d | _ => raise AttributeError "object has no attribute 'get'" end.
(** [value or {}], then [.get(...)] *)
Definition or_dict (v : pyval) : res dict := if truthy v then as_dict v else Ok [].

Lemma py_eq_None v : py_eq v PNone = true ↔ v = PNone.
Proof. by destruct v. Qed.
Lemma py_eq_None_l v : py_eq PNone v = true ↔ v = PNone.
Proof. by destruct v. Qed.
Lemma py_eq_int a b : py_eq (PInt a) (PInt b) = (a =? b).
Proof. done. Qed.
Lemma py_eq_str s v : py_eq v (PStr s) = is_str v s.
Proof. by destruct v. Qed.
End runtime.

(** A conversion raises what Python's conversions raise. *)
Definition CONVERSION_ERRORS : list exn_class := [ValueError; TypeError; OverflowError].
Class RuntimeLaws `{Runtime} := {
  int_other_ok : ∀ v e, int_other v = Err e → catches CONVERSION_ERRORS e = true;
  int_base0_ok : ∀ s e, int_base0 s = Err e → catches CONVERSION_ERRORS e = true;
  float_other_ok : ∀ v e, float_other v = Err e → catches CONVERSION_ERRORS e = true;
  digit_other_ok : ∀ c d, digit_other c = Some d → 0 ≤ d ≤ 9;
  uuid_other_ok : ∀ s e, uuid_other s = Err e → catches CONVERSION_ERRORS e = true;
}.
Lemma conversion_error e : catches CONVERSION_ERRORS e = true →
  exn_cls e ≠ NonTermination ∧ catches [ConnectionError; OSError; KeyError; LookupError] e = false.
Proof. destruct e as [[] msg st]; vm_compute; intuition discriminate. Qed.

(** A run time for the examples: no floats, no containers rendered. *)
Definition plain_runtime : Runtime := {|
  container_str := λ _, "{...}"%string;
  int_other := λ _, raise ValueError "invalid literal for int()";
  int_base0 := λ _, raise ValueError "invalid literal for int()";
  float_other := λ _, raise ValueError "could not convert to float";
  float_eq := λ _ _, false;
  lower_other := λ s, s;
  digit_other := λ _, None;
  uuid_other := λ _, raise ValueError "badly formed hexadecimal UUID string";
|}.
#[export] Instance plain_runtime_laws : @RuntimeLaws plain_runtime.
Proof. split; try by intros ? ? [= <-]. Qed.
