(* ===== verification/Address.v ===== *)
(** * Addresses of clients ([http_support.py] over [ipaddress])

    A request from the loopback interface is a local one.  [ipaddress] is part
    of Python's Standard Library: the part that parses an address and tests for
    loopback is written out. *)
From S2P Require Import Prelude Text.

Inductive address := IPv4 (z : Z) | IPv6 (z : Z).

Definition bad_address {A} : res A := raise ValueError "does not appear to be an IPv4 or IPv6 address".

Definition decimal_digit (c : Z) : bool := (48 <=? c) && (c <=? 57).
Definition decimal (l : bytes) : Z := fold_left (λ acc d, acc * 10 + (d - 48)) l 0.
(** [_parse_octet] *)
Definition octet (s : string) : res Z :=
  let l := str_encode s in
  if is_nil l || negb (forallb decimal_digit l) || (3 <? zlen l) then bad_address
  else if (1 <? zlen l) && (byte_at l 0 =? 48) then bad_address
  else if 255 <? decimal l then bad_address else Ok (decimal l).
Definition ipv4_int (s : string) : res Z :=
  match split_on "." s with
  | [a; b; c; d] =>
    a ← octet a; b ← octet b; c ← octet c; d ← octet d;
    Ok (((a * 256 + b) * 256 + c) * 256 + d)
  | _ => bad_address
  end.

(** [_parse_hextet]: at most four hexadecimal digits. *)
Fixpoint hex_number (acc : Z) (s : string) : option Z :=
  match s with
  | EmptyString => Some acc
  | String c s => d ← hex_value c; hex_number (acc * 16 + d) s
  end.
Definition hextet (s : string) : res Z :=
  match hex_number 0 s with
  | Some z => if (str_len s =? 0) || (4 <? str_len s) then bad_address else Ok z
  | None => bad_address
  end.

(** A part: a hextet, or the two hextets of an embedded IPv4 address. *)
Definition tail_hextets (last : string) : res (list Z) :=
  if existsb (λ c, Ascii.eqb c ".") (list_ascii_of_string last)
  then v4 ← ipv4_int last; Ok [v4 / 65536; v4 mod 65536]
  else z ← hextet last; Ok [z].
Fixpoint hextets (parts : list string) : res (list Z) :=
  match parts with
  | [] => Ok []
  | [last] => tail_hextets last
  | part :: parts => z ← hextet part; rest ← hextets parts; Ok (z :: rest)
  end.

(** The parts before and after the first empty one, which stands for zeros. *)
Fixpoint split_gap (parts : list string) : list string * option (list string) :=
  match parts with
  | [] => ([], None)
  | part :: parts =>
    if (part =? "")%string then ([], Some parts)
    else let '(before, after) := split_gap parts in (part :: before, after)
  end.
Definition is_empty (s : string) : bool := (s =? "")%string.
Definition eight (l : list Z) : Z := fold_left (λ acc h, acc * 65536 + h) l 0.
(** At least one zero hextet is left out at the gap; a text that starts or ends
    with a colon starts or ends with two. *)
Definition ipv6_hextets (parts : list string) : res (list Z) :=
  match parts with
  | first :: second :: rest =>
    if is_empty first && negb (is_empty second) then bad_address
    else
      match split_gap (if is_empty first then second :: rest else parts) with
      | (before, None) => hextets before
      | (_, Some []) => bad_address
      | (before, Some after) =>
        hi ← mapM hextet before;
        lo ← (if bool_decide (after = [""%string]) then Ok [] else hextets after);
        let missing := (8 - (length hi + length lo))%nat in
        if (missing =? 0)%nat then bad_address else Ok (hi ++ repeat 0 missing ++ lo)
      end
  | _ => bad_address
  end.
Definition ipv6_int (s : string) : res Z :=
  l ← ipv6_hextets (split_on ":" s);
  if (length l =? 8)%nat then Ok (eight l) else bad_address.

(** [ipaddress.ip_address(s)] *)
Definition ip_address (s : string) : res address :=
  match ipv4_int s with
  | Ok z => Ok (IPv4 z)
  | Err _ => z ← ipv6_int s; Ok (IPv6 z)
  end.
Definition is_loopback_v4 (z : Z) : bool := z / 2 ^ 24 =? 127.
Definition is_loopback (a : address) : bool :=
  match a with
  | IPv4 z => is_loopback_v4 z
  | IPv6 z => if z / 2 ^ 32 =? 0xFFFF then is_loopback_v4 (z mod 2 ^ 32) else z =? 1
  end.

Definition request_is_loopback (remote : option string) : bool :=
  match remote with
  | None => false
  | Some remote =>
    if (remote =? "")%string then false
    else match ip_address (default "" (head (split_on "%" remote)))%string with
         | Ok a => is_loopback a
         | Err _ => false
         end
  end.

Example loopback_addresses :
  map (λ s, request_is_loopback (Some s))
    ["127.0.0.1"; "127.8.9.10"; "::1"; "0:0:0:0:0:0:0:1"; "::ffff:127.0.0.1"; "::ffff:7f00:1"; "::1%lo"]%string
  = repeat true 7
  ∧ map (λ s, request_is_loopback (Some s))
    ["128.0.0.1"; "10.0.0.1"; "::"; "::2"; "::ffff:10.0.0.1"; "localhost"; "127.0.0.01"; "127.0.0"; "127.0.0.256"; "";
     ":1"; "1::1::1"; "1::"; ":::1"; "::1:"; "1:2:3:4:5:6:7:8:9"; "1:2:3:4:5:6:7::8"; "fe80::1%eth0"]%string
  = repeat false 18.
Proof. vm_compute. done. Qed.
