(* ===== verification/Startup.v ===== *)
(** * What the gateway does with its records when it starts ([cli.py])

    The process may end at any time.  When the next one starts, the operations
    that were going on are closed: nothing is replayed, and what may have
    reached a device is recorded as unknown. *)
From S2P Require Import Prelude Text Value StateMachine Store StoreProps Address.

(** The states of the query. *)
Definition INTERRUPTED_STATES : list string :=
  ["queued"; "running"; "entering_recovery"; "waiting_recovery"; "recovery_connected"; "preparing_ota"; "erasing";
   "preserving_evidence"; "validating_plan"; "transferring"; "verifying"; "committing"; "waiting_device";
   "reconnecting"]%string.
Definition was_active (r : operation_row) : bool := existsb (String.eqb (op_status r)) INTERRUPTED_STATES.
Definition UNCERTAIN_ACTIONS : list string := ["rpc."; "device.restart"; "firmware.ota"; "firmware.system_update"]%string.
Definition uncertain (r : operation_row) : bool := existsb (λ p, String.prefix p (op_action r)) UNCERTAIN_ACTIONS.
Definition recovery_changes (r : operation_row) (now : Z) : list op_change :=
  [SetStatus (if uncertain r then "outcome_unknown" else "interrupted");
   SetError (Some "gateway restarted; operation was not replayed"); SetFinished now]%string.

(** The loop over the rows of the query.  [clock] gives the time of each update,
    which answers the decoded row. *)
Fixpoint recover_rows (rows : list operation_row) (clock : nat → Z) (s : GatewayStore) : GatewayStore * res unit :=
  match rows with
  | [] => (s, Ok tt)
  | r :: rows =>
    match update_operation (op_operation_id r) (recovery_changes r (clock 0%nat)) s with
    | (s, Ok row) => match _operation_row row with
                     | Ok _ => recover_rows rows (λ n, clock (S n)) s
                     | Err e => (s, Err e)
                     end
    | (s, Err e) => (s, Err e)
    end
  end.
Definition _recover_interrupted (clock : nat → Z) (now : Z) (s : GatewayStore) : GatewayStore * res unit :=
  let rows := List.filter was_active (st_operations s) in
  match recover_rows rows clock s with
  | (s, Ok _) =>
    if is_nil rows then (s, Ok tt)
    else (fst (add_audit "system" "gateway" "operations.recovered"
                 [("count", PInt (zlen rows)); ("replayed", PBool false)] now s), Ok tt)%string
  | r => r
  end.

(** Whether the listener is reached from this host only. *)
Definition _listen_is_loopback (value : string) : bool :=
  if (value =? "localhost")%string then true
  else match ip_address (default "" (head (split_on "%" value)))%string with
       | Ok (IPv6 z) => is_loopback (if z / 2 ^ 32 =? 0xFFFF then IPv4 (z mod 2 ^ 32) else IPv6 z)
       | Ok a => is_loopback a
       | Err _ => false
       end.

(** ** What is left of an operation *)

Definition recovered (now : Z) (r : operation_row) : operation_row :=
  fold_left (λ r c, change_operation c r) (recovery_changes r now) r.
Definition decodes (r : operation_row) : Prop := is_Some (match _operation_row r with Ok i => Some i | Err _ => None end).
Lemma decodes_spec r : decodes r ↔ (∃ p, _loads (Some (op_params_json r)) (PDict []) = Ok p)
  ∧ (∃ v, _loads (op_result_json r) PNone = Ok v) ∧ ∃ v, _loads (op_progress_json r) PNone = Ok v.
Proof.
  unfold decodes, _operation_row.
  destruct (_loads (Some (op_params_json r)) _) as [p|e]; [| split; [by intros [] | by intros ([? ?] & _)]].
  destruct (_loads (op_result_json r) _) as [v|e]; [| split; [by intros [] | by intros (_ & [? ?] & _)]].
  destruct (_loads (op_progress_json r) _) as [v'|e]; [| split; [by intros [] | by intros (_ & _ & [? ?])]].
  split; [eauto 10 | intros _; eexists; reflexivity].
Qed.
Lemma recovered_decodes now r : decodes r → decodes (recovered now r).
Proof. rewrite !decodes_spec. done. Qed.

(** The query's states are the active ones. *)
Lemma was_active_spec r st : OperationState_of (op_status r) = Some st → was_active r = negb (is_terminal st).
Proof.
  intros Hv%OperationState_of_Some. unfold was_active. rewrite Hv. destruct st; vm_compute; reflexivity.
Qed.
Lemma recovered_transition now r st : OperationState_of (op_status r) = Some st → is_terminal st = false →
  operation_transition (op_status r) (op_status (recovered now r))
  = Ok (if uncertain r then OUTCOME_UNKNOWN else INTERRUPTED).
Proof.
  intros Hst Ht. unfold operation_transition. rewrite Hst. cbn [recovered recovery_changes fold_left change_operation op_status].
  destruct (uncertain r); destruct st; cbn in Ht; try discriminate Ht; vm_compute; reflexivity.
Qed.

(** Rows of other operations, and the rows that were updated. *)
Definition recovered_in (ids : list string) (r r' : operation_row) : Prop :=
  if bool_decide (op_operation_id r ∈ ids) then ∃ now, r' = recovered now r else r' = r.

Lemma recovered_id now r : op_operation_id (recovered now r) = op_operation_id r.
Proof. apply change_operations_id. Qed.
Lemma find_by_id r rows : NoDup (map op_operation_id rows) → r ∈ rows →
  find (operation_id_is (op_operation_id r)) rows = Some r.
Proof.
  intros Hnd Hr. induction rows as [|q rows IH]; [by apply not_elem_of_nil in Hr |]. cbn in *.
  apply NoDup_cons in Hnd as [Hq Hnd]. unfold operation_id_is at 1. destruct (String.eqb_spec (op_operation_id q) (op_operation_id r)) as [He | He].
  - apply elem_of_cons in Hr as [-> | Hr]; [done |]. exfalso. apply Hq. rewrite He. by apply list_elem_of_fmap_2.
  - apply elem_of_cons in Hr as [-> | Hr]; [done | by apply IH].
Qed.

(** The update of a row of the store, on all of its rows. *)
Lemma update_recovers r now s : NoDup (map op_operation_id (st_operations s)) → r ∈ st_operations s →
  ∃ s', update_operation (op_operation_id r) (recovery_changes r now) s = (s', Ok (recovered now r))
    ∧ s' = set_operations (map (λ q, if operation_id_is (op_operation_id r) q then recovered now q else q) (st_operations s)) s.
Proof.
  intros Hnd Hr.
  assert (Hsame : ∀ q, q ∈ st_operations s → operation_id_is (op_operation_id r) q = true → q = r).
  { intros q Hq He%String.eqb_eq. pose proof (find_by_id q _ Hnd Hq) as H1. pose proof (find_by_id r _ Hnd Hr) as H2.
    rewrite He in H1. congruence. }
  eexists; split; [| reflexivity].
  pose proof (operation_update (op_operation_id r) (op_operation_id r) (recovery_changes r now) s) as Hop.
  rewrite String.eqb_refl in Hop. unfold operation at 2 in Hop. rewrite (find_by_id r _ Hnd Hr) in Hop.
  unfold update_operation in *. cbn [fst] in Hop. rewrite Hop. cbn [option_map]. f_equal. f_equal.
  unfold update_where. apply map_ext_in. intros q Hq%list_elem_of_In.
  destruct (operation_id_is (op_operation_id r) q) eqn:He; [| done]. by rewrite (Hsame q Hq He).
Qed.

Lemma recover_rows_spec rows : ∀ clock s, NoDup (map op_operation_id (st_operations s)) → NoDup (map op_operation_id rows) →
  (∀ r, r ∈ rows → r ∈ st_operations s ∧ decodes r) →
  ∃ l, recover_rows rows clock s = (set_operations l s, Ok tt)
    ∧ Forall2 (recovered_in (map op_operation_id rows)) (st_operations s) l.
Proof.
  induction rows as [|r rows IH]; intros clock s Hnd Hnr Hin.
  { exists (st_operations s). split; [by destruct s |]. apply Forall_Forall2_diag, Forall_forall. intros q _. unfold recovered_in. cbn.
    rewrite bool_decide_eq_false_2; [done | apply not_elem_of_nil]. }
  cbn [recover_rows map]. apply NoDup_cons in Hnr as [Hr Hnr].
  destruct (Hin r ltac:(set_solver)) as [Hrs Hd]. destruct (update_recovers r (clock 0%nat) s Hnd Hrs) as (s1 & -> & Hs1).
  pose proof (recovered_decodes (clock 0%nat) r Hd) as [i Hi]. destruct (_operation_row (recovered _ r)); [| done]. clear i Hi.
  set (f := λ q, if operation_id_is (op_operation_id r) q then recovered (clock 0%nat) q else q) in Hs1.
  assert (Hids : ∀ q, op_operation_id (f q) = op_operation_id q).
  { intros q. unfold f. destruct (operation_id_is _ q); [apply recovered_id | done]. }
  assert (Hops : st_operations s1 = map f (st_operations s)) by (by rewrite Hs1).
  destruct (IH (λ n, clock (S n)) s1) as (l & -> & Hl).
  - rewrite Hops, map_map. erewrite map_ext; [exact Hnd | exact Hids].
  - done.
  - intros q Hq. destruct (Hin q ltac:(set_solver)) as [Hqs Hqd]. split; [| done].
    rewrite Hops. apply list_elem_of_fmap. exists q. split; [| done]. unfold f, operation_id_is.
    destruct (String.eqb_spec (op_operation_id q) (op_operation_id r)) as [He | _]; [| done].
    exfalso. apply Hr. rewrite <-He. by apply list_elem_of_fmap_2.
  - exists l. split; [by rewrite Hs1 |]. rewrite Hops in Hl. change (map f) with (fmap (M := list) f) in Hl. rewrite Forall2_fmap_l in Hl.
    eapply Forall2_impl; [exact Hl |]. clear Hl. intros q q' Hq. unfold recovered_in in *. cbn in Hq. rewrite Hids in Hq.
    unfold f, operation_id_is in Hq. destruct (String.eqb_spec (op_operation_id q) (op_operation_id r)) as [He | He].
    + rewrite bool_decide_eq_false_2 in Hq by (by rewrite He). rewrite bool_decide_eq_true_2 by (rewrite He; set_solver). eauto.
    + destruct (bool_decide_reflect (op_operation_id q ∈ map op_operation_id rows)) as [H1 | H1].
      * rewrite bool_decide_eq_true_2 by set_solver. done.
      * rewrite bool_decide_eq_false_2 by set_solver. done.
Qed.

Lemma nodup_filter_ids {A B} (g : A → B) (f : A → bool) l : NoDup (map g l) → NoDup (map g (List.filter f l)).
Proof.
  induction l as [|q l IH]; [done |]. cbn. intros [Hq Hnd]%NoDup_cons. destruct (f q); [| by apply IH].
  cbn. apply NoDup_cons. split; [| by apply IH]. intros (x & Hgx & Hx)%list_elem_of_fmap. apply Hq. rewrite Hgx.
  apply list_elem_of_fmap_2, list_elem_of_In. by apply list_elem_of_In, filter_In in Hx as [? _].
Qed.

(** What becomes of a row. *)
Definition settled (r r' : operation_row) : Prop :=
  ∃ st, OperationState_of (op_status r) = Some st
    ∧ if is_terminal st then r' = r
      else (∃ t, r' = recovered t r)
           ∧ operation_transition (op_status r) (op_status r') = Ok (if uncertain r then OUTCOME_UNKNOWN else INTERRUPTED).
Lemma settled_inactive r r' : settled r r' → was_active r' = false.
Proof.
  intros (st & Hst & Hr). destruct (is_terminal st) eqn:Ht.
  - subst r'. rewrite (was_active_spec r st Hst), Ht. done.
  - destruct Hr as [[t ->] _]. unfold was_active.
    change (op_status (recovered t r)) with (if uncertain r then "outcome_unknown" else "interrupted")%string.
    destruct (uncertain r); reflexivity.
Qed.
Lemma list_filter_none {A} (f : A → bool) l : Forall (λ x, f x = false) l → List.filter f l = [].
Proof. induction 1 as [|x l Hx _ IH]; [done |]. cbn. by rewrite Hx. Qed.

(** C29: the gateway starts with nothing left open.  After the recovery of a
    store each of whose operations decodes, an operation that had ended is as it
    was; one that had not is ended by a legal transition, as unknown if its
    action may have changed the device and as interrupted otherwise, with its
    request, its parameters and what was reported of its progress unchanged;
    no operation is lost, and a second start finds nothing to do. *)
Theorem recovery_settles clock now s s' result : NoDup (map op_operation_id (st_operations s)) →
  (∀ r, r ∈ st_operations s → decodes r ∧ is_Some (OperationState_of (op_status r))) →
  _recover_interrupted clock now s = (s', result) →
  result = Ok tt
  ∧ Forall2 settled (st_operations s) (st_operations s')
  ∧ (∀ clock' now', _recover_interrupted clock' now' s' = (s', Ok tt)).
Proof.
  intros Hnd Hall. unfold _recover_interrupted at 1. set (rows := List.filter was_active (st_operations s)).
  assert (Hrows : ∀ r, r ∈ rows ↔ r ∈ st_operations s ∧ was_active r = true).
  { intros r. unfold rows. rewrite !list_elem_of_In. apply filter_In. }
  destruct (recover_rows_spec rows clock s Hnd) as (l & -> & Hl).
  { by apply nodup_filter_ids. }
  { intros r [Hr _]%Hrows. split; [done | by apply Hall]. }
  intros Hrun. assert (Hs' : st_operations s' = l ∧ result = Ok tt).
  { destruct (is_nil rows); by simplify_eq. }
  destruct Hs' as [Hops ->]. clear Hrun.
  assert (Hfate : Forall2 settled (st_operations s) l).
  { apply Forall2_same_length_lookup. split; [by eapply Forall2_length |]. intros i r r' Hr Hr'.
    pose proof (Forall2_lookup_lr _ _ _ _ _ _ Hl Hr Hr') as Hrec. unfold recovered_in in Hrec.
    apply list_elem_of_lookup_2 in Hr. destruct (Hall r Hr) as [_ [st Hst]]. exists st. split; [done |].
    pose proof (was_active_spec r st Hst) as Hw. destruct (is_terminal st) eqn:Ht; cbn [negb] in Hw.
    - rewrite bool_decide_eq_false_2 in Hrec; [done |]. intros (q & He & [Hq Hqw]%Hrows)%list_elem_of_fmap.
      pose proof (find_by_id r _ Hnd Hr) as H1. pose proof (find_by_id q _ Hnd Hq) as H2. rewrite <-He in H2. congruence.
    - rewrite bool_decide_eq_true_2 in Hrec by (apply list_elem_of_fmap_2, Hrows; done). destruct Hrec as [t ->].
      split; [eauto | by apply recovered_transition with (st := st)]. }
  split_and!; [done | by rewrite Hops |].
  intros clock' now'. unfold _recover_interrupted.
  replace (List.filter was_active (st_operations s')) with (@nil operation_row); [done |].
  symmetry. apply list_filter_none. rewrite Hops. eapply Forall2_Forall_r; [exact Hfate |].
  apply Forall_forall. intros r _ r'. apply settled_inactive.
Qed.

(** A remote call and a query were going on; an update had ended. *)
Definition example_op (id action status : string) : operation_row :=
  OperationRow id "d" "agent" "a" action "{}" status None None 1 None None 0 None None.
Definition example_crashed : GatewayStore :=
  set_operations [example_op "1" "rpc.raw" "running"; example_op "2" "firmware.ota" "succeeded";
                  example_op "3" "job.query" "queued"]%string GatewayStore_init.
Definition example_started : GatewayStore := fst (_recover_interrupted (λ n, 10 + Z.of_nat n) 20 example_crashed).
Lemma recovery_settles_witness :
  _recover_interrupted (λ n, 10 + Z.of_nat n) 20 example_crashed = (example_started, Ok tt)
  ∧ Forall2 settled (st_operations example_crashed) (st_operations example_started)
  ∧ map op_status (st_operations example_started) = ["outcome_unknown"; "succeeded"; "interrupted"]%string.
Proof.
  assert (H : _recover_interrupted (λ n, 10 + Z.of_nat n) 20 example_crashed = (example_started, Ok tt)) by (vm_compute; reflexivity).
  split_and!; [exact H | | vm_compute; reflexivity].
  apply (recovery_settles (λ n, 10 + Z.of_nat n) 20 example_crashed example_started (Ok tt)); [| | exact H].
  - by_decide.
  - apply Forall_forall. repeat (apply Forall_cons; split; [split; vm_compute; eexists; reflexivity |]). apply Forall_nil_2.
Defined.
(** Listening on these addresses does not expose the gateway. *)
Example listen_addresses : map _listen_is_loopback ["localhost"; "127.0.0.1"; "::1"; "::ffff:127.0.0.1"; "0.0.0.0"; "::"; ""; "host"]%string
  = [true; true; true; true; false; false; false; false].
Proof. vm_compute. reflexivity. Qed.
