(* ===== verification/DemoFiles.v ===== *)
(** * The files of the demo device ([DemoHub] of [demo.py])

    The demo hub stands for devices, so that the interface can be tried without
    one.  Its file service keeps a dictionary of files and a set of directories,
    both by full path; what it promises is a tree. *)
From stdpp Require Import sorting strings.
From S2P Require Import Prelude Text Value Sha256 Store Runtime.

Record demo_files := DemoFiles { df_files : gmap string bytes; df_directories : gset string }.
Definition set_files v s := DemoFiles v (df_directories s).
Definition set_directories v s := DemoFiles (df_files s) v.

(** ** Paths *)

(** [s[len(p):]] if [s.startswith(p)] *)
Fixpoint after (p s : string) : option string :=
  match p, s with
  | EmptyString, _ => Some s
  | String a p, String b s => if Ascii.eqb a b then after p s else None
  | _, EmptyString => None
  end.
(** [path.rpartition("/")[0]] *)
Fixpoint before_slash (s : string) : option string :=
  match s with
  | EmptyString => None
  | String a t =>
    match before_slash t with
    | Some p => Some (String a p)
    | None => if Ascii.eqb a "/" then Some ""%string else None
    end
  end.
Definition parent (path : string) : string := default ""%string (before_slash path).
Definition below (directory : string) (path : string) : bool :=
  match after (directory ++ "/") path with Some _ => true | None => false end.
Definition paths (s : demo_files) : gset string := dom (df_files s) ∪ df_directories s.

(** ** The service *)

(** Whether each device is connected. *)
Definition demo_get (devices : gmap string bool) (device_id : string) : res unit :=
  match devices !! device_id with
  | None => raise KeyError ("unknown ESP-Iris demo device: " ++ device_id)
  | Some true => Ok tt
  | Some false => raise KeyError ("ESP-Iris demo device is disconnected: " ++ device_id)
  end.
Definition etag (data : bytes) : string := substring 0 16 (sha256_hex data).
Definition _file_metadata (path : string) (s : demo_files) : res dict :=
  let item kind size tag := Ok [("kind", PStr kind); ("size", PInt size); ("mtime_s", PInt 1777000000); ("etag", PStr tag)]%string in
  if bool_decide (path ∈ df_directories s) then item "directory"%string 0 (etag (str_encode ("directory:" ++ path)))
  else match df_files s !! path with
       | Some data => item "file"%string (zlen data) (etag data)
       | None => raise KeyError ("unknown demo file: " ++ path)
       end.
Definition located (volume path : string) (metadata : dict) : dict :=
  dict_updated [("volume", PStr volume); ("path", PStr path)]%string metadata.
Definition is_cfg (volume : string) : bool := (volume =? "cfg")%string.

Section service.
Context (devices : gmap string bool) (device_id volume : string).

Definition file_volumes : res dict :=
  _ ← demo_get devices device_id;
  Ok [("volumes", PList [PDict [("id", PStr "cfg"); ("capabilities", PInt 511);
         ("capability_names", PList (map PStr ["read"; "list"; "mtime"; "write"; "delete"; "mkdir"; "rename";
                                               "atomic_replace"; "hash"]))]]);
      ("chunk_max", PInt 1024); ("path_max", PInt 255)]%string.
Definition file_stat (path : string) (s : demo_files) : res dict :=
  _ ← demo_get devices device_id;
  if negb (is_cfg volume) then raise KeyError volume
  else metadata ← _file_metadata path s; Ok (located volume path metadata).

(** The names directly under a directory. *)
Definition child_names (path : string) (s : demo_files) : list string :=
  let prefix := if (path =? "")%string then ""%string else (path ++ "/")%string in
  let name candidate := match after prefix candidate with
                        | Some EmptyString | None => None
                        | Some remainder => head (split_on "/" remainder)
                        end in
  merge_sort String.le (remove_dups (omap name (elements (paths s)))).
Definition file_list (path : string) (cursor limit : Z) (s : demo_files) : res dict :=
  metadata ← file_stat path s;
  if negb (is_str (dict_get "kind" metadata) "directory") then raise ValueError "file list target is not a directory"
  else
    let prefix := if (path =? "")%string then ""%string else (path ++ "/")%string in
    let ordered := child_names path s in
    let selected := slice cursor (cursor + limit) ordered in
    entries ← mapM (λ name, metadata ← _file_metadata (prefix ++ name) s;
                            Ok (PDict (dict_updated [("name", PStr name)]%string metadata))) selected;
    let next := cursor + zlen selected in
    Ok [("volume", PStr volume); ("path", PStr path); ("entries", PList entries); ("cursor", PInt cursor);
        ("next_cursor", if (next <? zlen ordered)%Z then PInt next else PNone); ("snapshot", PBool false)]%string.

(** What the download yields. *)
Fixpoint chunks_of (fuel : nat) (position end_ : Z) (data : bytes) : list bytes :=
  match fuel with
  | O => []
  | S fuel => if end_ <=? position then []
              else slice position (Z.min (position + 1024) end_) data :: chunks_of fuel (position + 1024) end_ data
  end.
Definition file_download (path : string) (offset : Z) (length_ : option Z) (s : demo_files) : res (list bytes) :=
  metadata ← file_stat path s;
  if negb (is_str (dict_get "kind" metadata) "file") then raise ValueError "file download target is not a regular file"
  else
    data ← (match df_files s !! path with Some data => Ok data | None => raise KeyError path end);
    let end_ := match length_ with None => zlen data | Some n => Z.min (zlen data) (offset + n) end in
    Ok (chunks_of (length data) offset end_ data).

(** [file_upload] up to its loop: what is replaced. *)
Definition upload_checks (path : string) (overwrite : bool) (if_match : option string) (s : demo_files) : res (option bytes) :=
  _ ← demo_get devices device_id;
  if negb (is_cfg volume) || (path =? "")%string || bool_decide (path ∈ df_directories s)
  then raise ValueError "invalid demo upload target"
  else if negb (bool_decide (parent path ∈ df_directories s)) then raise KeyError (parent path)
  else
    let existing := df_files s !! path in
    if bool_decide (is_Some existing) && negb overwrite then raise ValueError "demo file already exists"
    else
      match if_match, existing with
      | Some tag, None => raise ValueError "demo file etag conflict"
      | Some tag, Some old => if (etag old =? strip_char 34 (remove_prefix tag "W/"))%string then Ok existing
                              else raise ValueError "demo file etag conflict"
      | None, _ => Ok existing
      end.
(** *** An upload in parts

    Between the checks and the write the coroutine waits for every chunk, and
    for the progress callback after it; other requests run meanwhile. *)
Record pending_upload := Upload {
  up_volume : string; up_path : string; up_total : Z; up_existing : option bytes;
  (** there is a progress callback *)
  up_reports : bool;
  up_data : bytes;
  (** it waits for the callback, not for a chunk *)
  up_reporting : bool;
}.
(** What it waits for: a chunk, the end of the source, the callback, or an
    exception of either, cancellation included. *)
Inductive upload_input :=
| Chunk (data : bytes)
| SourceEnds
| SourceFails (e : exn)
| Reported
| ReportFails (e : exn).

(** [file_upload] up to its first [await]. *)
Definition file_upload (path : string) (total_size : Z) (overwrite : bool) (if_match : option string) (reports : bool)
    (s : demo_files) : res pending_upload :=
  existing ← upload_checks path overwrite if_match s;
  Ok (Upload volume path total_size existing reports [] false).
(** From one [await] to the next, or to the end. *)
Definition upload_resume (u : pending_upload) (x : upload_input) (s : demo_files) : option (demo_files * (pending_upload + res dict)) :=
  match up_reporting u, x with
  | false, Chunk chunk =>
    let data := up_data u ++ chunk in
    if up_total u <? zlen data then Some (s, inr (raise ValueError "upload exceeds declared size"))
    else Some (s, inl (Upload (up_volume u) (up_path u) (up_total u) (up_existing u) (up_reports u) data (up_reports u)))
  | false, SourceEnds =>
    if negb (zlen (up_data u) =? up_total u)
    then Some (s, inr (raise ValueError "upload ended before declared size"))
    else
      let s := set_files (<[up_path u := up_data u]> (df_files s)) s in
      Some (s, inr (metadata ← _file_metadata (up_path u) s;
                    Ok (dict_updated (located (up_volume u) (up_path u) metadata)
                          [("sha256", PStr (sha256_hex (up_data u)));
                           ("replaced", PBool (bool_decide (is_Some (up_existing u))))]%string)))
  | true, Reported =>
    Some (s, inl (Upload (up_volume u) (up_path u) (up_total u) (up_existing u) (up_reports u) (up_data u) false))
  | false, SourceFails e | true, ReportFails e => Some (s, inr (Err e))
  | _, _ => None
  end.

Definition file_mkdir (path : string) (s : demo_files) : demo_files * res dict :=
  match demo_get devices device_id with
  | Err e => (s, Err e)
  | Ok _ =>
    if negb (is_cfg volume) || (path =? "")%string || bool_decide (path ∈ paths s)
    then (s, raise ValueError "invalid or existing demo directory")
    else if negb (bool_decide (parent path ∈ df_directories s)) then (s, raise KeyError (parent path))
    else
      let s := set_directories ({[path]} ∪ df_directories s) s in
      (s, metadata ← _file_metadata path s; Ok (located volume path metadata))
  end.
Definition file_delete (path : string) (s : demo_files) : demo_files * res dict :=
  match demo_get devices device_id with
  | Err e => (s, Err e)
  | Ok _ =>
    let deleted := [("volume", PStr volume); ("path", PStr path); ("deleted", PBool true)]%string in
    if negb (is_cfg volume) || (path =? "")%string then (s, raise ValueError "invalid demo delete target")
    else if bool_decide (path ∈ dom (df_files s)) then (set_files (delete path (df_files s)) s, Ok deleted)
    else if bool_decide (path ∈ df_directories s)
    then if existsb (below path) (elements (paths s)) then (s, raise ValueError "demo directory is not empty")
         else (set_directories (df_directories s ∖ {[path]}) s, Ok deleted)
    else (s, raise KeyError path)
  end.

(** [destination + item[len(source):]] *)
Definition moved (source destination item : string) : string := (destination ++ default ""%string (after source item))%string.
Definition file_rename (source destination : string) (s : demo_files) : demo_files * res dict :=
  match demo_get devices device_id with
  | Err e => (s, Err e)
  | Ok _ =>
    if negb (is_cfg volume) || (source =? "")%string || (destination =? "")%string
    then (s, raise ValueError "invalid demo rename target")
    else if bool_decide (destination ∈ paths s) then (s, raise ValueError "demo rename destination exists")
    else if bool_decide (source ∈ df_directories s) && below source destination
    then (s, raise ValueError "a demo directory cannot be moved below itself")
    else if negb (bool_decide (parent destination ∈ df_directories s)) then (s, raise KeyError (parent destination))
    else
      let finish s := (s, metadata ← _file_metadata destination s;
                          Ok (dict_updated [("volume", PStr volume); ("source", PStr source); ("path", PStr destination)]%string
                                metadata)) in
      match df_files s !! source with
      | Some data => finish (set_files (<[destination := data]> (delete source (df_files s))) s)
      | None =>
        if bool_decide (source ∈ df_directories s)
        then
          let moved_files := list_to_map (map (λ item, (moved source destination (fst item), snd item))
                               (filter (λ item, below source (fst item)) (map_to_list (df_files s)))) in
          let moved_directories := set_map (moved source destination) (filter (below source) (df_directories s)) in
          finish (DemoFiles
            (moved_files ∪ filter (λ item, ¬ below source (fst item)) (df_files s))
            (moved_directories ∪ {[destination]} ∪ filter (λ item, item ≠ source ∧ ¬ below source item) (df_directories s)))
        else (s, raise KeyError source)
      end
  end.
End service.

(** ** A tree *)

Inductive node := DemoFile (data : bytes) | DemoDirectory.
Definition entry (s : demo_files) (path : string) : option node :=
  match df_files s !! path with
  | Some data => Some (DemoFile data)
  | None => if bool_decide (path ∈ df_directories s) then Some DemoDirectory else None
  end.
(** Whatever there is, is in a directory; nothing is both. *)
Record tree (s : demo_files) : Prop := {
  tr_root : ""%string ∈ df_directories s;
  tr_kinds : ∀ path, path ∈ df_directories s → df_files s !! path = None;
  tr_parent : ∀ path, is_Some (entry s path) → parent path ∈ df_directories s;
}.

(** What follows the name of a directory in a path below it. *)
Definition under (d path : string) : option string :=
  match after d path with Some (String "/" r) => Some (String "/" r) | _ => None end.
(** The requests that change something in one step, and what they mean. *)
Inductive demo_request :=
| Mkdir (path : string)
| Delete (path : string)
| Rename (source destination : string).
Definition demo_run (devices : gmap string bool) (device_id volume : string) (rq : demo_request) (s : demo_files)
    : demo_files * res dict :=
  match rq with
  | Mkdir path => file_mkdir devices device_id volume path s
  | Delete path => file_delete devices device_id volume path s
  | Rename source destination => file_rename devices device_id volume source destination s
  end.
Definition effect (rq : demo_request) (e : string → option node) (p : string) : option node :=
  match rq with
  | Mkdir path => if decide (p = path) then Some DemoDirectory else e p
  | Delete path => if decide (p = path) then None else e p
  | Rename source destination =>
    if decide (p = destination) then e source
    else match under destination p with
         | Some rest => e (source ++ rest)%string
         | None => if decide (p = source) then None
                   else match under source p with Some _ => None | None => e p end
         end
  end.

(** *** Requests that run at the same time

    The hub with its uploads under way, by number; an input is a request, the
    beginning of an upload, or what an upload was waiting for. *)
Record demo_hub := DemoHub { dh_files : demo_files; dh_uploads : gmap nat pending_upload; dh_next : nat }.
Inductive demo_input :=
| Ask (device_id volume : string) (rq : demo_request)
| Begin (device_id volume path : string) (total_size : Z) (overwrite : bool) (if_match : option string) (reports : bool)
| Resume (t : nat) (x : upload_input).
(** The hub after the input, and the answer if a request ends with it. *)
Definition demo_do (devices : gmap string bool) (h : demo_hub) (i : demo_input) : option (demo_hub * option (res dict)) :=
  match i with
  | Ask device_id volume rq =>
    let '(s, answer) := demo_run devices device_id volume rq (dh_files h) in
    Some (DemoHub s (dh_uploads h) (dh_next h), Some answer)
  | Begin device_id volume path total_size overwrite if_match reports =>
    match file_upload devices device_id volume path total_size overwrite if_match reports (dh_files h) with
    | Ok u => Some (DemoHub (dh_files h) (<[dh_next h := u]> (dh_uploads h)) (S (dh_next h)), None)
    | Err e => Some (h, Some (Err e))
    end
  | Resume t x =>
    u ← dh_uploads h !! t;
    r ← upload_resume u x (dh_files h);
    match r with
    | (s, inl u) => Some (DemoHub s (<[t := u]> (dh_uploads h)) (dh_next h), None)
    | (s, inr answer) => Some (DemoHub s (delete t (dh_uploads h)) (dh_next h), Some answer)
    end
  end.

(** What an input that is answered means for the entries. *)
Definition input_effect (h : demo_hub) (i : demo_input) (e : string → option node) (p : string) : option node :=
  match i with
  | Ask _ _ rq => effect rq e p
  | Begin _ _ _ _ _ _ _ => e p
  | Resume t _ =>
    match dh_uploads h !! t with
    | Some u => if decide (p = up_path u) then Some (DemoFile (up_data u)) else e p
    | None => e p
    end
  end.
(** The target of an upload still has a directory to be in, and is none. *)
Definition placed (u : pending_upload) (s : demo_files) : bool :=
  bool_decide (parent (up_path u) ∈ df_directories s) && negb (bool_decide (up_path u ∈ df_directories s)).
(** The input makes an upload write whose target has lost its place. *)
Definition displaced (h : demo_hub) (i : demo_input) : bool :=
  match i with
  | Resume t SourceEnds =>
    match dh_uploads h !! t with
    | Some u => (zlen (up_data u) =? up_total u) && negb (placed u (dh_files h))
    | None => false
    end
  | _ => false
  end.

(** A request that leaves the directory of the upload where it is, and makes no
    directory of its target. *)
Definition leaves_place (rq : demo_request) (u : pending_upload) : bool :=
  match rq with
  | Mkdir path => negb (path =? up_path u)%string
  | Delete path => negb (path =? parent (up_path u))%string
  | Rename source destination =>
    negb (source =? parent (up_path u))%string && bool_decide (under source (parent (up_path u)) = None)
    && negb (destination =? up_path u)%string
  end.
Definition considerate (h : demo_hub) (i : demo_input) : Prop :=
  match i with
  | Ask _ _ rq => map_Forall (λ _ u, leaves_place rq u = true) (dh_uploads h)
  | _ => True
  end.
(** The hub after inputs that are considerate, in any order. *)
Inductive demo_runs (devices : gmap string bool) (s : demo_files) : list demo_input → demo_hub → Prop :=
| runs_none : demo_runs devices s [] (DemoHub s ∅ 0)
| runs_next inputs h i h' answer : demo_runs devices s inputs h → considerate h i →
    demo_do devices h i = Some (h', answer) → demo_runs devices s (inputs ++ [i]) h'.
(** The chunks that upload [t] was given. *)
Definition given (t : nat) (inputs : list demo_input) : bytes :=
  concat (omap (λ i, match i with Resume t' (Chunk c) => if decide (t' = t) then Some c else None | _ => None end) inputs).

(** *** Paths *)
Lemma after_spec p s r : after p s = Some r ↔ s = (p ++ r)%string.
Proof.
  revert s. induction p as [|a p IH]; intros s; cbn.
  - split; [by intros [= ->] | by intros ->].
  - destruct s as [|b s]; [done |]. destruct (Ascii.eqb_spec a b) as [<- | Hne].
    + rewrite IH. split; [by intros -> | by intros [= ->]].
    + split; [done | by intros [= ->]].
Qed.
Lemma app_slash d r : ((d ++ "/") ++ r)%string = (d ++ String "/" r)%string.
Proof. induction d as [|a d IH]; [done |]. change (String a ((d ++ "/") ++ r) = String a (d ++ String "/" r))%string. by f_equal. Qed.
Lemma under_spec d p rest : under d p = Some rest ↔ ∃ r, rest = String "/" r ∧ p = (d ++ String "/" r)%string.
Proof.
  unfold under. split.
  - destruct (after d p) as [t|] eqn:E; [| done]. apply after_spec in E. destruct t as [|a t]; [done |].
    destruct (Ascii.eqb_spec a "/") as [-> | Hne].
    + intros [= <-]. eauto.
    + intros H. exfalso. apply Hne. clear -H. by destruct a as [[] [] [] [] [] [] [] []].
  - intros (r & -> & ->). by rewrite (proj2 (after_spec d _ (String "/" r))).
Qed.
Lemma below_under d p : below d p = true ↔ is_Some (under d p).
Proof.
  unfold below. split.
  - destruct (after (d ++ "/") p) as [r|] eqn:E; [| done]. intros _. apply after_spec in E. rewrite app_slash in E.
    exists (String "/" r). apply under_spec. eauto.
  - intros [rest (r & _ & ->)%under_spec]. rewrite (proj2 (after_spec (d ++ "/") _ r)); [done | by rewrite app_slash].
Qed.
Lemma below_false d p : below d p = false ↔ under d p = None.
Proof.
  rewrite <-not_true_iff_false, below_under, eq_None_not_Some. done.
Qed.
Lemma before_slash_app a b : before_slash (a ++ String "/" b)
  = Some (match before_slash b with Some p => a ++ String "/" p | None => a end)%string.
Proof.
  induction a as [|c a IH].
  - change (before_slash (String "/" b) = Some (match before_slash b with Some p => String "/" p | None => ""%string end)).
    cbn. by destruct (before_slash b).
  - change (String c a ++ String "/" b)%string with (String c (a ++ String "/" b)). cbn [before_slash]. rewrite IH.
    by destruct (before_slash b).
Qed.
Lemma before_slash_shorter s p : before_slash s = Some p → (String.length p < String.length s)%nat.
Proof.
  revert p. induction s as [|a s IH]; intros p; cbn; [done |]. destruct (before_slash s) as [q|].
  - intros [= <-]. cbn. specialize (IH q eq_refl). lia.
  - destruct (Ascii.eqb a "/"); [| done]. intros [= <-]. cbn. lia.
Qed.
(** The parent of a path below [d] is [d], or below it. *)
Lemma parent_under d r : parent (d ++ String "/" r)
  = match before_slash r with Some p => (d ++ String "/" p)%string | None => d end.
Proof. unfold parent. rewrite before_slash_app. by destruct (before_slash r). Qed.

Lemma entry_file s p data : df_files s !! p = Some data → entry s p = Some (DemoFile data).
Proof. unfold entry. by intros ->. Qed.
Lemma entry_directory s p : tree s → p ∈ df_directories s → entry s p = Some DemoDirectory.
Proof. intros Ht Hp. unfold entry. rewrite (tr_kinds s Ht p Hp). by rewrite bool_decide_eq_true_2. Qed.
Lemma entry_paths s p : p ∈ paths s ↔ is_Some (entry s p).
Proof.
  unfold paths, entry. rewrite elem_of_union, elem_of_dom. destruct (df_files s !! p) as [d|]; [split; eauto |].
  case_bool_decide; split; try done; eauto; naive_solver.
Qed.
(** The directories on the way to a path exist. *)
Lemma tree_above s d rest : tree s → is_Some (entry s (d ++ String "/" rest)) → d ∈ df_directories s.
Proof.
  intros Ht. remember (String.length rest) as n eqn:Hn. revert rest Hn.
  induction (lt_wf n) as [n _ IH]. intros rest -> Hp%(tr_parent s Ht). rewrite parent_under in Hp.
  destruct (before_slash rest) as [p|] eqn:E; [| done].
  apply (IH (String.length p) (before_slash_shorter _ _ E) p eq_refl). eexists. by apply entry_directory.
Qed.
Lemma metadata_ok path s : is_Some (entry s path) → ∃ m, _file_metadata path s = Ok m.
Proof.
  unfold entry, _file_metadata. case_bool_decide; [eauto |]. destruct (df_files s !! path); [eauto | by intros []].
Qed.

Lemma before_slash_split s p : before_slash s = Some p → ∃ r, s = (p ++ String "/" r)%string.
Proof.
  revert p. induction s as [|a s IH]; intros p; cbn; [done |]. destruct (before_slash s) as [q|].
  - intros [= <-]. destruct (IH q eq_refl) as [r ->]. by exists r.
  - destruct (Ascii.eqb_spec a "/") as [-> |]; [| done]. intros [= <-]. by exists s.
Qed.
(** What is not a directory's own path and not below it has its parent outside. *)
Lemma parent_outside d p : d ≠ ""%string → under d p = None → parent p ≠ d ∧ under d (parent p) = None.
Proof.
  intros Hd Hp. unfold parent. destruct (before_slash p) as [q|] eqn:E; cbn.
  - apply before_slash_split in E as [r ->]. split.
    + intros ->. by rewrite (proj2 (under_spec d _ (String "/" r)) ltac:(eauto)) in Hp.
    + destruct (under d q) as [rest|] eqn:Eq; [| done]. apply under_spec in Eq as (r' & -> & ->).
      rewrite (proj2 (under_spec d _ (String "/" (r' ++ String "/" r)%string))) in Hp; [done |].
      exists (r' ++ String "/" r)%string. split; [done |]. clear. induction d as [|a d IH]; [done |].
      change (String a ((d ++ String "/" r') ++ String "/" r) = String a (d ++ String "/" (r' ++ String "/" r)))%string. by f_equal.
  - split; [done |]. destruct (under d "") as [rest|] eqn:Eq; [| done]. apply under_spec in Eq as (r & _ & Hr). by destruct d.
Qed.
Lemma under_self d : under d d = None.
Proof.
  destruct (under d d) as [rest|] eqn:E; [| done]. apply under_spec in E as (r & _ & H). exfalso.
  induction d as [|a d IH]; [done |]. change (String a d = String a (d ++ String "/" r))%string in H. injection H. done.
Qed.
(** Nothing is below a path that is no directory. *)
Lemma nothing_below s d p rest : tree s → d ∉ df_directories s → under d p = Some rest → entry s p = None.
Proof.
  intros Ht Hd (r & _ & ->)%under_spec. apply eq_None_not_Some. intros Hp. by apply Hd, (tree_above s d r).
Qed.
Lemma entry_None s p : entry s p = None ↔ df_files s !! p = None ∧ p ∉ df_directories s.
Proof. unfold entry. destruct (df_files s !! p); [naive_solver |]. case_bool_decide; naive_solver. Qed.

(** *** Single entries *)
Lemma put_file s path data : tree s → path ∉ df_directories s → parent path ∈ df_directories s →
  let s' := set_files (<[path := data]> (df_files s)) s in
  tree s' ∧ ∀ p, entry s' p = if decide (p = path) then Some (DemoFile data) else entry s p.
Proof.
  intros [H1 H2 H3] Hno Hpar s'. assert (He : ∀ p, entry s' p = if decide (p = path) then Some (DemoFile data) else entry s p).
  { intros p. unfold entry. cbn. destruct (decide (p = path)) as [-> | Hne]; [by rewrite lookup_insert_eq | by rewrite lookup_insert_ne]. }
  split; [| exact He]. constructor; [done | |].
  - intros p Hp. cbn. rewrite lookup_insert_ne; [by apply H2 | by intros ->].
  - intros p. rewrite He. destruct (decide (p = path)) as [-> |]; [done | apply H3].
Qed.
Lemma drop_file s path : tree s → is_Some (df_files s !! path) →
  let s' := set_files (delete path (df_files s)) s in
  tree s' ∧ ∀ p, entry s' p = if decide (p = path) then None else entry s p.
Proof.
  intros [H1 H2 H3] Hf s'.
  assert (Hno : path ∉ df_directories s) by (intros Hp%H2; rewrite Hp in Hf; by destruct Hf).
  assert (He : ∀ p, entry s' p = if decide (p = path) then None else entry s p).
  { intros p. unfold entry. cbn. destruct (decide (p = path)) as [-> | Hne]; [| by rewrite lookup_delete_ne].
    rewrite lookup_delete_eq. by rewrite bool_decide_eq_false_2. }
  split; [| exact He]. constructor; [done | |].
  - intros p Hp. cbn. rewrite lookup_delete_ne; [by apply H2 | by intros ->].
  - intros p. rewrite He. destruct (decide (p = path)) as [-> |]; [by intros [] | apply H3].
Qed.
Lemma put_directory s path : tree s → path ∉ paths s → parent path ∈ df_directories s →
  let s' := set_directories ({[path]} ∪ df_directories s) s in
  tree s' ∧ ∀ p, entry s' p = if decide (p = path) then Some DemoDirectory else entry s p.
Proof.
  intros [H1 H2 H3] Hno Hpar s'. rewrite entry_paths, <-eq_None_not_Some in Hno. apply entry_None in Hno as [Hnf Hnd].
  assert (He : ∀ p, entry s' p = if decide (p = path) then Some DemoDirectory else entry s p).
  { intros p. unfold entry. cbn. destruct (decide (p = path)) as [-> | Hne].
    - rewrite Hnf, bool_decide_eq_true_2; [done | set_solver].
    - destruct (df_files s !! p); [done |]. erewrite bool_decide_ext; [done | set_solver]. }
  split; [| exact He]. constructor; [set_solver | |].
  - intros p [->%elem_of_singleton | Hp]%elem_of_union; [done | by apply H2].
  - intros p. rewrite He. destruct (decide (p = path)) as [-> |]; [set_solver |]. intros Hp%H3. set_solver.
Qed.
Lemma drop_directory s path : tree s → path ∈ df_directories s → path ≠ ""%string →
  (∀ p, is_Some (entry s p) → under path p = None) →
  let s' := set_directories (df_directories s ∖ {[path]}) s in
  tree s' ∧ ∀ p, entry s' p = if decide (p = path) then None else entry s p.
Proof.
  intros [H1 H2 H3] Hd Hroot Hempty s'.
  assert (He : ∀ p, entry s' p = if decide (p = path) then None else entry s p).
  { intros p. unfold entry. cbn. destruct (decide (p = path)) as [-> | Hne].
    - rewrite H2, bool_decide_eq_false_2; [done | set_solver | done].
    - destruct (df_files s !! p); [done |]. erewrite bool_decide_ext; [done | set_solver]. }
  split; [| exact He]. constructor; [set_solver | |].
  - intros p Hp. apply H2. set_solver.
  - intros p. rewrite He. destruct (decide (p = path)) as [-> |]; [by intros [] |]. intros Hp.
    destruct (parent_outside path p Hroot (Hempty p Hp)) as [Hne _]. specialize (H3 p Hp). set_solver.
Qed.

(** A file is moved: nothing was below it or the new path. *)
Lemma rename_file s source destination data : tree s → df_files s !! source = Some data → entry s destination = None →
  parent destination ∈ df_directories s →
  let s' := set_files (<[destination := data]> (delete source (df_files s))) s in
  tree s' ∧ ∀ p, entry s' p = effect (Rename source destination) (entry s) p.
Proof.
  intros Ht Hf Hfree Hpar s'.
  assert (Hsrc : source ∉ df_directories s) by (intros Hs%(tr_kinds s Ht); congruence).
  assert (Hdest : destination ∉ df_directories s) by (apply entry_None; exact Hfree).
  destruct (drop_file s source Ht ltac:(eauto)) as [Ht1 He1]. set (s1 := set_files (delete source _) s) in *.
  destruct (put_file s1 destination data Ht1 Hdest Hpar) as [Ht2 He2]. split; [exact Ht2 |].
  intros p. etrans; [exact (He2 p) |]. rewrite He1. cbn [effect].
  destruct (decide (p = destination)); [by rewrite (entry_file s source data) |].
  destruct (under destination p) as [rest|] eqn:Eu.
  - rewrite (nothing_below s destination p rest Ht Hdest Eu). apply under_spec in Eu as (r & -> & _).
    rewrite (nothing_below s source _ (String "/" r) Ht Hsrc); [by case_decide | apply under_spec; eauto].
  - destruct (decide (p = source)); [done |]. destruct (under source p) as [rest|] eqn:Es; [| done].
    by rewrite (nothing_below s source p rest Ht Hsrc Es).
Qed.

(** *** Moving a directory *)
Section rename.
Context (s : demo_files) (source destination : string).
Context (Ht : tree s) (Hsrc : source ∈ df_directories s) (Hroot : source ≠ ""%string).
Context (Hfree : entry s destination = None) (Hout : under source destination = None).
Context (Hparent : parent destination ∈ df_directories s).

Definition moved_files : gmap string bytes :=
  list_to_map (map (λ item, (moved source destination (fst item), snd item))
    (filter (λ item, below source (fst item)) (map_to_list (df_files s)))).
Definition renamed : demo_files := DemoFiles
  (moved_files ∪ filter (λ item, ¬ below source (fst item)) (df_files s))
  (set_map (moved source destination) (filter (below source) (df_directories s)) ∪ {[destination]}
   ∪ filter (λ item, item ≠ source ∧ ¬ below source item) (df_directories s)).

Lemma moved_under item rest : under source item = Some rest → moved source destination item = (destination ++ rest)%string.
Proof. intros (r & -> & Hi)%under_spec. unfold moved. by rewrite (proj2 (after_spec _ _ _) Hi). Qed.
Lemma under_app d rest : (∃ r, rest = String "/" r) → under d (d ++ rest)%string = Some rest.
Proof. intros [r ->]. apply under_spec. eauto. Qed.
Lemma under_slash d p rest : under d p = Some rest → (∃ r, rest = String "/" r) ∧ p = (d ++ rest)%string.
Proof. intros (r & -> & ->)%under_spec. eauto. Qed.

Lemma moved_files_lookup p :
  moved_files !! p = match under destination p with Some rest => df_files s !! (source ++ rest)%string | None => None end.
Proof.
  assert (Hin : ∀ data, (p, data) ∈ map (λ item, (moved source destination (fst item), snd item))
      (filter (λ item, below source (fst item)) (map_to_list (df_files s)))
    ↔ ∃ rest, under destination p = Some rest ∧ df_files s !! (source ++ rest)%string = Some data).
  { intros data. rewrite list_elem_of_fmap. split.
    - intros ([item data'] & [= -> ->] & [Hb Hl]%list_elem_of_filter). cbn in *. apply elem_of_map_to_list in Hl.
      apply Is_true_true, below_under in Hb as [rest Hr]. rewrite (moved_under _ _ Hr).
      apply under_slash in Hr as [Hs Hi]. exists rest. rewrite under_app by done. by rewrite <-Hi.
    - intros (rest & [Hs Hi]%under_slash & Hl). exists ((source ++ rest)%string, data). cbn.
      rewrite (moved_under _ rest) by (by apply under_app). split; [by rewrite <-Hi |]. apply list_elem_of_filter. cbn.
      rewrite elem_of_map_to_list. split; [| done]. apply Is_true_true, below_under. exists rest. by apply under_app. }
  destruct (moved_files !! p) as [data|] eqn:E.
  - apply elem_of_list_to_map_2, Hin in E as (rest & -> & ->). done.
  - destruct (under destination p) as [rest|] eqn:Eu; [| done]. destruct (df_files s !! (source ++ rest)%string) as [data|] eqn:Ef; [| done].
    rewrite <-E. apply elem_of_list_to_map_1'; [| apply Hin; eauto].
    intros data' (rest' & [= <-] & Hl)%Hin. congruence.
Qed.
Lemma moved_directories_elem p : p ∈ df_directories renamed ↔
  match under destination p with
  | Some rest => (source ++ rest)%string ∈ df_directories s
  | None => p = destination ∨ p ∈ df_directories s ∧ p ≠ source ∧ under source p = None
  end.
Proof.
  assert (Hdest : destination ∉ df_directories s) by (apply entry_None; exact Hfree).
  cbn [df_directories renamed]. rewrite !elem_of_union, elem_of_singleton, elem_of_filter, elem_of_map.
  assert (Hkeep : ∀ q, ¬ below source q ↔ under source q = None).
  { intros q. rewrite <-below_false. destruct (below source q); naive_solver. }
  rewrite Hkeep. destruct (under destination p) as [rest|] eqn:Eu.
  - assert (Hp : entry s p = None) by (by eapply nothing_below). apply entry_None in Hp as [_ Hp].
    apply under_slash in Eu as [Hs ->]. split.
    + intros [[(item & Hm & [Hb Hi]%elem_of_filter) | Hd] | [_ ?]]; [| | done].
      * apply Is_true_true, below_under in Hb as [rest' Hr]. rewrite (moved_under _ _ Hr) in Hm.
        apply under_slash in Hr as [Hs' ->]. apply (f_equal (under destination)) in Hm. rewrite !under_app in Hm by done.
        by injection Hm as ->.
      * pose proof (under_app destination rest Hs) as Hu. by rewrite Hd, under_self in Hu.
    + intros Hi. left; left. exists (source ++ rest)%string. rewrite (moved_under _ rest) by (by apply under_app).
      split; [done |]. apply elem_of_filter. split; [| done]. apply Is_true_true, below_under. exists rest. by apply under_app.
  - split.
    + intros [[(item & -> & [Hb _]%elem_of_filter) | Hd] | [[? ?] ?]]; auto.
      apply Is_true_true, below_under in Hb as [rest Hr]. rewrite (moved_under _ _ Hr) in Eu.
      apply under_slash in Hr as [Hs _]. by rewrite under_app in Eu.
    + intros [-> | (? & ? & ?)]; auto.
Qed.
Lemma renamed_file p : df_files renamed !! p =
  match under destination p with
  | Some rest => df_files s !! (source ++ rest)%string
  | None => if below source p then None else df_files s !! p
  end.
Proof.
  assert (Hdest : destination ∉ df_directories s) by (apply entry_None; exact Hfree).
  cbn [df_files renamed]. rewrite lookup_union, moved_files_lookup.
  destruct (under destination p) as [rest|] eqn:Eu.
  - assert (Hp : entry s p = None) by (by eapply nothing_below). apply entry_None in Hp as [Hp _].
    rewrite map_lookup_filter, Hp. cbn. apply (right_id None _).
  - rewrite left_id by apply _. destruct (below source p) eqn:Eb.
    + apply map_lookup_filter_None. right. intros data _ Hn. apply Hn. cbn. by rewrite Eb.
    + apply option_eq. intros data. rewrite map_lookup_filter_Some. cbn. rewrite Eb. naive_solver.
Qed.

Lemma rename_directory : tree renamed ∧ ∀ p, entry renamed p = effect (Rename source destination) (entry s) p.
Proof.
  assert (Hdest : destination ∉ df_directories s) by (apply entry_None; exact Hfree).
  assert (He : ∀ p, entry renamed p = effect (Rename source destination) (entry s) p).
  { intros p. cbn [effect]. unfold entry at 1. rewrite renamed_file. pose proof (moved_directories_elem p) as Hm.
    destruct (decide (p = destination)) as [-> | Hne].
    - rewrite under_self in *. rewrite (proj2 (below_false _ _) Hout), entry_directory by done.
      rewrite bool_decide_eq_true_2 by (apply Hm; auto). by rewrite (proj1 (proj1 (entry_None _ _) Hfree)).
    - destruct (under destination p) as [rest|] eqn:Eu.
      { unfold entry. destruct (df_files s !! (source ++ rest)%string); [done |]. by erewrite bool_decide_ext by exact Hm. }
      destruct (decide (p = source)) as [-> | Hns].
      + rewrite (proj2 (below_false source source) (under_self source)), (tr_kinds s Ht source Hsrc).
        rewrite bool_decide_eq_false_2; [done | naive_solver].
      + destruct (under source p) as [rest|] eqn:Es.
        * rewrite (proj2 (below_under source p)) by (rewrite Es; eauto). rewrite bool_decide_eq_false_2; [done | naive_solver].
        * rewrite (proj2 (below_false source p) Es). unfold entry. destruct (df_files s !! p); [done |].
          erewrite bool_decide_ext; [done | naive_solver]. }
  split; [| exact He]. constructor.
  - apply moved_directories_elem. destruct (under destination "") as [rest|] eqn:Eu.
    { apply under_spec in Eu as (r & _ & Hr). by destruct destination. }
    right. split_and!; [apply (tr_root s Ht) | done |].
    destruct (under source "") as [rest|] eqn:Eu'; [| done]. apply under_spec in Eu' as (r & _ & Hr). by destruct source.
  - intros p Hp%moved_directories_elem. rewrite renamed_file.
    destruct (under destination p) as [rest|]; [by apply (tr_kinds s Ht) |]. destruct (below source p); [done |].
    destruct Hp as [-> | [Hp _]]; [apply entry_None; exact Hfree | by apply (tr_kinds s Ht)].
  - intros p. rewrite He. cbn [effect]. rewrite moved_directories_elem. destruct (decide (p = destination)) as [-> | Hne].
    { intros _. destruct (parent_outside source destination Hroot Hout) as [H1 H2].
      destruct (under destination (parent destination)) as [rest|] eqn:Eu; [| by auto].
      pose proof (nothing_below s destination _ _ Ht Hdest Eu) as Hn. by rewrite entry_directory in Hn. }
    destruct (under destination p) as [rest|] eqn:Eu.
    { apply under_slash in Eu as [[r ->] ->]. intros Hp%(tr_parent s Ht). rewrite parent_under in *.
      destruct (before_slash r) as [q|]; [by rewrite under_app by eauto | rewrite under_self; by left]. }
    destruct (decide (p = source)) as [-> | Hns]; [by intros [] |]. destruct (under source p) eqn:Es; [by intros [] |].
    intros Hp%(tr_parent s Ht). destruct (parent_outside source p Hroot Es) as [H1 H2].
    destruct (under destination (parent p)) as [rest|] eqn:Eu'; [| by auto].
    pose proof (nothing_below s destination _ _ Ht Hdest Eu') as Hn. by rewrite entry_directory in Hn.
Qed.
End rename.

(** ** The service keeps a tree *)

Section runs.
Context (devices : gmap string bool) (device_id volume : string).

Lemma upload_checks_spec path overwrite if_match s existing :
  upload_checks devices device_id volume path overwrite if_match s = Ok existing →
  path ≠ ""%string ∧ (path ∉ df_directories s) ∧ parent path ∈ df_directories s.
Proof.
  unfold upload_checks. destruct (demo_get devices device_id); [| done]. cbn [mbind res_bind].
  destruct (_ || _) eqn:E; [done |]. apply orb_false_iff in E as [[_ Hp]%orb_false_iff Hd%bool_decide_eq_false].
  destruct (bool_decide (parent path ∈ df_directories s)) eqn:Hpar; [| done]. intros _.
  apply bool_decide_eq_true in Hpar. split_and!; [by intros -> | done..].
Qed.

Definition accomplished (rq : demo_request) (s : demo_files) (o : demo_files * res dict) : Prop :=
  tree (fst o) ∧ match snd o with
                 | Err _ => fst o = s
                 | Ok _ => ∀ p, entry (fst o) p = effect rq (entry s) p
                 end.
Lemma refused rq s e : tree s → accomplished rq s (s, Err e).
Proof. done. Qed.

Lemma mkdir_accomplished path s : tree s →
  accomplished (Mkdir path) s (demo_run devices device_id volume (Mkdir path) s).
Proof.
  intros Ht. cbn [demo_run]. unfold file_mkdir. destruct (demo_get devices device_id); [| by apply refused].
  destruct (_ || _) eqn:E; [by apply refused |]. apply orb_false_iff in E as [_ Hno%bool_decide_eq_false].
  case_bool_decide as Hpar; cbn [negb]; [| by apply refused].
  destruct (put_directory s path Ht Hno Hpar) as [Ht' He]. set (s' := set_directories _ s) in *.
  destruct (metadata_ok path s') as [m Hm]; [rewrite He; by rewrite decide_True |].
  rewrite Hm. split; [exact Ht' | exact He].
Qed.
Lemma delete_accomplished path s : tree s →
  accomplished (Delete path) s (demo_run devices device_id volume (Delete path) s).
Proof.
  intros Ht. cbn [demo_run]. unfold file_delete. destruct (demo_get devices device_id); [| by apply refused].
  destruct (_ || _) eqn:E; [by apply refused |]. apply orb_false_iff in E as [_ Hroot].
  case_bool_decide as Hf; [apply elem_of_dom in Hf; by apply drop_file |].
  case_bool_decide as Hd; [| by apply refused]. destruct (existsb _ _) eqn:Hb; [by apply refused |].
  apply drop_directory; [done.. | by intros -> |]. intros p Hp. apply below_false, not_true_iff_false. intros Hbelow.
  rewrite <-not_true_iff_false in Hb. apply Hb, existsb_exists. exists p. split; [| done].
  by apply list_elem_of_In, elem_of_elements, entry_paths.
Qed.
Lemma rename_accomplished source destination s : tree s →
  accomplished (Rename source destination) s (demo_run devices device_id volume (Rename source destination) s).
Proof.
  intros Ht. cbn [demo_run]. unfold file_rename. destruct (demo_get devices device_id); [| by apply refused].
  destruct (_ || _) eqn:E; [by apply refused |]. apply orb_false_iff in E as [[_ Hs]%orb_false_iff Hd].
  assert (Hroot : source ≠ ""%string) by (by intros ->).
  case_bool_decide as Hfree; [by apply refused |]. rewrite entry_paths, <-eq_None_not_Some in Hfree.
  destruct (_ && _) eqn:Hbelow; [by apply refused |].
  destruct (bool_decide (parent destination ∈ df_directories s)) eqn:Hpar; cbn [negb]; [| by apply refused].
  apply bool_decide_eq_true in Hpar.
  assert (Hanswer : ∀ s', tree s' → (∀ p, entry s' p = effect (Rename source destination) (entry s) p) → is_Some (entry s source) →
    accomplished (Rename source destination) s (s', metadata ← _file_metadata destination s';
      Ok (dict_updated [("volume", PStr volume); ("source", PStr source); ("path", PStr destination)]%string metadata))).
  { intros s' Ht' He Hsrc. destruct (metadata_ok destination s') as [m Hm]; [rewrite He; cbn [effect]; by rewrite decide_True |].
    rewrite Hm. split; [exact Ht' | exact He]. }
  destruct (df_files s !! source) as [data|] eqn:Hf.
  - destruct (rename_file s source destination data Ht Hf Hfree Hpar) as [Ht' He].
    apply Hanswer; [exact Ht' | exact He |]. by erewrite entry_file.
  - case_bool_decide as Hsrc; [| by apply refused]. apply andb_false_iff in Hbelow as [Hn | Hout%below_false]; [done |].
    destruct (rename_directory s source destination Ht Hsrc Hroot Hfree Hout Hpar) as [Ht' He].
    apply Hanswer; [exact Ht' | exact He |]. by rewrite entry_directory.
Qed.

(** *** A directory can be listed *)
Lemma split_head c s : ∃ t r, split_on c s = t :: r ∧ (s = t ∨ ∃ q, s = (t ++ String c q)%string).
Proof.
  induction s as [|a s (t & r & Hs & Hq)]; cbn; [by exists ""%string, []; auto |]. rewrite Hs.
  destruct (Ascii.eqb_spec a c) as [-> |].
  - exists ""%string, (t :: r). split; [done |]. right. by exists s.
  - exists (String a t), r. split; [done |]. destruct Hq as [-> | [q ->]]; [by left | right; by exists q].
Qed.
Lemma child_entry path s name : tree s → name ∈ child_names path s →
  is_Some (entry s ((if (path =? "")%string then "" else path ++ "/") ++ name)%string).
Proof.
  intros Ht. unfold child_names. set (prefix := if (path =? "")%string then ""%string else (path ++ "/")%string).
  rewrite merge_sort_Permutation, elem_of_remove_dups, list_elem_of_omap.
  intros (candidate & Hc%elem_of_elements%entry_paths & Hname). destruct (after prefix candidate) as [rem|] eqn:E; [| done].
  apply after_spec in E as ->. destruct rem as [|a rem]; [done |].
  change (head (split_on "/" (String a rem)) = Some name) in Hname. revert Hc Hname. generalize (String a rem). intros w Hc Hname.
  destruct (split_head "/" w) as (t & r & Hs & Hq). rewrite Hs in Hname. injection Hname as ->.
  destruct Hq as [-> | [q ->]]; [done |].
  exists DemoDirectory. apply entry_directory; [done |]. apply (tree_above s _ q Ht).
  replace ((prefix ++ name) ++ String "/" q)%string with (prefix ++ (name ++ String "/" q))%string; [exact Hc |].
  clear. induction prefix as [|b prefix IH]; [done |].
  change (String b (prefix ++ name ++ String "/" q) = String b ((prefix ++ name) ++ String "/" q))%string. by f_equal.
Qed.
Lemma listing_total path cursor limit s : tree s → demo_get devices device_id = Ok tt → volume = "cfg"%string →
  path ∈ df_directories s → ∃ page, file_list devices device_id volume path cursor limit s = Ok page.
Proof.
  intros Ht Hget -> Hp. unfold file_list, file_stat. rewrite Hget. cbn [mbind res_bind].
  change (negb (is_cfg "cfg")) with false. cbv iota.
  assert (Hd : _file_metadata path s = Ok [("kind", PStr "directory"); ("size", PInt 0); ("mtime_s", PInt 1777000000);
                 ("etag", PStr (etag (str_encode ("directory:" ++ path))))]%string).
  { unfold _file_metadata. by rewrite bool_decide_eq_true_2. }
  rewrite Hd. cbn [mbind res_bind]. change (is_str _ _) with true. cbn [negb].
  match goal with |- ∃ page, (entries ← ?m; _) = _ => assert (Hm : ∃ l, m = Ok l) end.
  { assert (Hall : ∀ name, name ∈ slice cursor (cursor + limit) (child_names path s) → name ∈ child_names path s).
    { intros name Hn. unfold slice in Hn. eapply subseteq_drop, subseteq_take, Hn. }
    induction (slice _ _ _) as [|name l IH]; [by eexists |]. cbn [mapM].
    destruct (metadata_ok _ s (child_entry path s name Ht (Hall name ltac:(set_solver)))) as [m ->]. cbn [mbind res_bind].
    destruct IH as [l' ->]; [intros n Hn; apply Hall; set_solver | by eexists]. }
  destruct Hm as [l ->]. by eexists.
Qed.
End runs.

(** *** One input *)

(** An answered input has its effect, any other leaves the files alone; and the
    tree is lost exactly by a displaced write. *)
Definition input_done (h : demo_hub) (i : demo_input) (h' : demo_hub) (answer : option (res dict)) : Prop :=
  (tree (dh_files h') ↔ displaced h i = false)
  ∧ match answer with
    | Some (Ok _) => ∀ p, entry (dh_files h') p = input_effect h i (entry (dh_files h)) p
    | _ => dh_files h' = dh_files h
    end.
Lemma idle_done h i h' answer : tree (dh_files h) → displaced h i = false → dh_files h' = dh_files h →
  match answer with Some (Ok _) => False | _ => True end → input_done h i h' answer.
Proof. intros Ht Hd Hf Ha. split; [by rewrite Hf, Hd |]. by destruct answer as [[d|e]|]. Qed.

Lemma request_accomplished devices device_id volume rq s : tree s → accomplished rq s (demo_run devices device_id volume rq s).
Proof. intros Ht. destruct rq; [by apply mkdir_accomplished | by apply delete_accomplished | by apply rename_accomplished]. Qed.

Lemma written_entry s path data p : entry (set_files (<[path := data]> (df_files s)) s) p
  = if decide (p = path) then Some (DemoFile data) else entry s p.
Proof. unfold entry. cbn. destruct (decide (p = path)) as [-> | Hne]; [by rewrite lookup_insert_eq | by rewrite lookup_insert_ne]. Qed.
(** The write keeps the tree if and only if its target is placed. *)
Lemma written_tree s u : tree s → tree (set_files (<[up_path u := up_data u]> (df_files s)) s) ↔ placed u s = true.
Proof.
  intros Ht. unfold placed. rewrite andb_true_iff, negb_true_iff, bool_decide_eq_true, bool_decide_eq_false. split.
  - intros Ht'. split.
    + apply (tr_parent _ Ht' (up_path u)). rewrite written_entry, decide_True by done. by eexists.
    + intros Hp%(tr_kinds _ Ht'). cbn in Hp. by rewrite lookup_insert_eq in Hp.
  - intros [Hpar Hno]. by apply put_file.
Qed.

Lemma input_accomplished devices h i h' answer : tree (dh_files h) → demo_do devices h i = Some (h', answer) →
  input_done h i h' answer.
Proof.
  intros Ht. destruct i as [d v rq | d v path total overwrite if_match reports | t x]; cbn [demo_do].
  - pose proof (request_accomplished devices d v rq (dh_files h) Ht) as Ha.
    destruct (demo_run devices d v rq (dh_files h)) as [s r]. intros [= <- <-]. destruct Ha as [Ht' He]. by split.
  - destruct (file_upload _ _ _ _ _ _ _ _ _); intros [= <- <-]; by apply idle_done.
  - destruct (dh_uploads h !! t) as [u|] eqn:Hu; [| done]. cbn [mbind option_bind]. unfold upload_resume.
    assert (Hdisp : x ≠ SourceEnds → displaced h (Resume t x) = false) by (by destruct x).
    destruct (up_reporting u), x; try done; cbn [mbind option_bind].
    + intros [= <- <-]. by apply idle_done; auto.
    + intros [= <- <-]. by apply idle_done; auto.
    + destruct (_ <? _); intros [= <- <-]; by apply idle_done; auto.
    + destruct (_ =? _) eqn:Hlen; cbn [negb]; intros [= <- <-].
      2: { apply idle_done; try done. cbn [displaced]. by rewrite Hu, Hlen. }
      set (s' := set_files _ _). split.
      * cbn [dh_files displaced]. rewrite Hu, Hlen. cbn [andb]. rewrite negb_false_iff. by apply written_tree.
      * destruct (metadata_ok (up_path u) s') as [m Hm]; [unfold s'; rewrite written_entry, decide_True by done; by eexists |].
        rewrite Hm. cbn [mbind res_bind]. intros p. cbn [input_effect]. rewrite Hu. apply written_entry.
    + intros [= <- <-]. by apply idle_done; auto.
Qed.

(** *** Uploads that keep their place *)
Lemma placed_entry u s : tree s → placed u s = true ↔
  entry s (parent (up_path u)) = Some DemoDirectory ∧ entry s (up_path u) ≠ Some DemoDirectory.
Proof.
  intros Ht. assert (Hd : ∀ p, p ∈ df_directories s ↔ entry s p = Some DemoDirectory).
  { intros p. split; [by apply entry_directory |]. unfold entry. destruct (df_files s !! p); [done |]. by case_bool_decide. }
  unfold placed. by rewrite andb_true_iff, negb_true_iff, bool_decide_eq_true, bool_decide_eq_false, !Hd.
Qed.
Lemma rename_free devices d v source destination s s' r :
  file_rename devices d v source destination s = (s', Ok r) → destination ∉ paths s.
Proof.
  unfold file_rename. destruct (demo_get devices d); [| done]. destruct (_ || _); [done |]. by case_bool_decide.
Qed.
(** A directory is not where nothing is, nor below it. *)
Lemma directory_outside s d p : tree s → entry s d = None → entry s p = Some DemoDirectory → p ≠ d ∧ under d p = None.
Proof.
  intros Ht Hd Hp. split; [intros ->; congruence |]. destruct (under d p) as [rest|] eqn:Eu; [| done].
  apply entry_None in Hd as [_ Hd]. by rewrite (nothing_below s d p rest Ht Hd Eu) in Hp.
Qed.
Lemma considerate_placed devices d v rq u s : tree s → placed u s = true → leaves_place rq u = true →
  placed u (fst (demo_run devices d v rq s)) = true.
Proof.
  intros Ht Hp Hl. pose proof (request_accomplished devices d v rq s Ht) as [Ht' He].
  destruct (demo_run devices d v rq s) as [s' r] eqn:Hrun. cbn [fst snd] in *. destruct r as [m|e]; [| by subst].
  rewrite placed_entry, !He by done. apply placed_entry in Hp as [Hpar Hpath]; [| done].
  destruct rq as [q | q | source destination]; cbn [effect leaves_place] in *.
  - apply negb_true_iff, String.eqb_neq in Hl. rewrite (decide_False (P := up_path u = q)) by congruence.
    split; [by case_decide | done].
  - apply negb_true_iff, String.eqb_neq in Hl. rewrite (decide_False (P := parent (up_path u) = q)) by congruence.
    split; [done | by case_decide].
  - apply andb_true_iff in Hl as [[Hs%negb_true_iff%String.eqb_neq Hu%bool_decide_eq_true]%andb_true_iff Hd%negb_true_iff%String.eqb_neq].
    pose proof (rename_free _ _ _ _ _ _ _ _ Hrun) as Hfree. rewrite entry_paths, <-eq_None_not_Some in Hfree.
    destruct (directory_outside s destination _ Ht Hfree Hpar) as [Hne Hun].
    rewrite (decide_False (P := parent (up_path u) = destination)), Hun by done.
    rewrite (decide_False (P := parent (up_path u) = source)), Hu by congruence. split; [done |].
    rewrite (decide_False (P := up_path u = destination)) by congruence.
    destruct (under destination (up_path u)) as [rest|] eqn:Eu.
    + exfalso. apply under_spec in Eu as (r & _ & Heq). rewrite Heq, parent_under in Hpar.
      apply entry_None in Hfree as [_ Hfree]. destruct (before_slash r) as [q|].
      * by rewrite (nothing_below s destination _ (String "/" q) Ht Hfree) in Hpar by (apply under_spec; eauto).
      * apply Hfree. unfold entry in Hpar. destruct (df_files s !! destination); [done |]. by case_bool_decide.
    + case_decide; [done |]. by case_match.
Qed.
Lemma given_snoc t inputs i : given t (inputs ++ [i]) = given t inputs
  ++ match i with Resume t' (Chunk c) => if decide (t' = t) then c else [] | _ => [] end.
Proof.
  unfold given. rewrite omap_app, concat_app. f_equal. cbn.
  destruct i as [| |t' []]; try done. case_decide; [apply app_nil_r | done].
Qed.

(** Every upload under way has its place, and the chunks it was given. *)
Record uploads_kept (inputs : list demo_input) (h : demo_hub) : Prop := {
  uk_tree : tree (dh_files h);
  uk_upload : ∀ t u, dh_uploads h !! t = Some u →
    (t < dh_next h)%nat ∧ placed u (dh_files h) = true ∧ up_data u = given t inputs;
  uk_fresh : ∀ t, (dh_next h ≤ t)%nat → given t inputs = [];
}.
Lemma file_upload_placed devices d v path total overwrite if_match reports s u :
  file_upload devices d v path total overwrite if_match reports s = Ok u → placed u s = true ∧ up_data u = [].
Proof.
  unfold file_upload. destruct (upload_checks _ _ _ _ _ _ _) as [existing|] eqn:Hc; [| done].
  intros [= <-]. apply upload_checks_spec in Hc as (_ & Hno & Hpar). split; [| done].
  unfold placed. cbn. by rewrite bool_decide_eq_true_2, bool_decide_eq_false_2.
Qed.
(** An upload that goes on has its target still, and the chunk that came. *)
Lemma upload_resume_kept u x s s' u' : upload_resume u x s = Some (s', inl u') →
  s' = s ∧ up_path u' = up_path u ∧ up_data u' = up_data u ++ match x with Chunk c => c | _ => [] end.
Proof.
  unfold upload_resume. destruct (up_reporting u), x; try done.
  - intros [= <- <-]. by rewrite app_nil_r.
  - destruct (_ <? _); [done |]. by intros [= <- <-].
  - by destruct (negb _).
Qed.
Lemma upload_resume_ended u x s s' r : upload_resume u x s = Some (s', inr r) →
  s' = s ∨ s' = set_files (<[up_path u := up_data u]> (df_files s)) s.
Proof.
  unfold upload_resume. destruct (up_reporting u), x; try done; try (intros [= <- <-]; by left).
  - destruct (_ <? _); [intros [= <- <-]; by left | done].
  - destruct (negb _); intros [= <- <-]; [by left | by right].
Qed.
Lemma input_kept devices inputs h i h' answer : uploads_kept inputs h → considerate h i →
  demo_do devices h i = Some (h', answer) → uploads_kept (inputs ++ [i]) h'.
Proof.
  intros [Ht Hup Hfresh] Hcons Hrun.
  assert (Hdisp : displaced h i = false).
  { destruct i as [| |t []]; try done. cbn. destruct (dh_uploads h !! t) as [u|] eqn:Hu; [| done].
    destruct (Hup t u Hu) as (_ & -> & _). by rewrite andb_false_r. }
  pose proof (input_accomplished devices h i h' answer Ht Hrun) as [[_ Ht'] _]. specialize (Ht' Hdisp).
  assert (Hquiet : ∀ t, match i with Resume t' (Chunk _) => t' ≠ t | _ => True end → given t (inputs ++ [i]) = given t inputs).
  { intros t Hi. rewrite given_snoc. destruct i as [| |t' []]; try apply app_nil_r.
    rewrite decide_False by done. apply app_nil_r. }
  destruct i as [d v rq | d v path total overwrite if_match reports | t x]; cbn [demo_do considerate] in *.
  - destruct (demo_run devices d v rq (dh_files h)) as [s r] eqn:Hr. injection Hrun as <- <-. split; [done | |]; cbn.
    + intros t u Hu. rewrite Hquiet by done. destruct (Hup t u Hu) as (Hlt & Hp & Hd). split_and!; [done | | done].
      pose proof (considerate_placed devices d v rq u (dh_files h) Ht Hp (Hcons t u Hu)) as Hp'. by rewrite Hr in Hp'.
    + intros t Hle. rewrite Hquiet by done. by apply Hfresh.
  - destruct (file_upload _ _ _ _ _ _ _ _ _) as [u0|e] eqn:Hf; injection Hrun as <- <-.
    2: { split; [done | |]; intros; rewrite Hquiet by done; auto. }
    apply file_upload_placed in Hf as [Hp0 Hd0]. split; [done | |]; cbn.
    + intros t u. rewrite Hquiet by done. rewrite lookup_insert_Some.
      intros [[<- <-] | [_ Hu]]; [rewrite Hfresh by done; split_and!; [lia | done | done] |].
      destruct (Hup t u Hu) as (Hlt & Hp & Hd). split_and!; [lia | done | done].
    + intros t Hle. rewrite Hquiet by done. apply Hfresh. lia.
  - destruct (dh_uploads h !! t) as [u|] eqn:Hu; [| done]. cbn [mbind option_bind] in Hrun.
    destruct (Hup t u Hu) as (Hlt & Hp & Hd).
    assert (Hf' : ∀ t', (dh_next h ≤ t')%nat → given t' (inputs ++ [Resume t x]) = []).
    { intros t' Hle. rewrite Hquiet; [by apply Hfresh | destruct x; [lia | done..]]. }
    assert (Hother : ∀ t', t ≠ t' → given t' (inputs ++ [Resume t x]) = given t' inputs).
    { intros t' Hne. apply Hquiet. by destruct x. }
    destruct (upload_resume u x (dh_files h)) as [[s [u'|r]]|] eqn:Hx; [| | done]; cbn [mbind option_bind] in Hrun; injection Hrun as <- <-.
    + apply upload_resume_kept in Hx as (-> & Hpath & Hdata). split; [done | | done]; cbn.
      intros t' u2. rewrite lookup_insert_Some. intros [[<- <-] | [Hne Hu2]].
      * split_and!; [done | unfold placed in *; by rewrite Hpath |]. rewrite Hdata, Hd, given_snoc.
        destruct x; try done. by rewrite decide_True.
      * rewrite Hother by done. by apply Hup.
    + split; [done | | done]; cbn. intros t' u2. rewrite lookup_delete_Some. intros [Hne Hu2].
      rewrite Hother by done. destruct (Hup t' u2 Hu2) as (Hlt2 & Hp2 & Hd2). split_and!; [done | | done].
      by destruct (upload_resume_ended _ _ _ _ _ Hx) as [-> | ->].
Qed.
Lemma runs_kept devices s inputs h : tree s → demo_runs devices s inputs h → uploads_kept inputs h.
Proof.
  intros Ht Hruns. induction Hruns as [|inputs h i h' answer Hruns IH Hc Hdo]; [split; [done | |] | by eapply input_kept].
  - intros t u Hu. cbn in Hu. by rewrite lookup_empty in Hu.
  - done.
Qed.

(** C33: the demo device keeps a tree, and does what it is asked, while uploads
    wait for their chunks among other requests.  From a tree - a root, nothing
    both file and directory, everything in a directory that exists - every
    request that is answered changes exactly what it names, and leaves a tree:
    an upload, when it writes, puts its bytes at one path, a deletion takes one
    entry away, and a renaming moves a file, or a directory with everything
    below it, to the new path, content unchanged; a refused request leaves the
    files as they were.  There is one exception, which the tree does not
    survive: an upload that writes when its target has lost its directory, or
    become one, since it was checked.  It does not happen in a run whose
    requests leave the directory of every upload under way where it is and make
    no directory of its target: after such a run there is a tree, every upload
    has its place and the bytes it was given, in their order, and a directory
    of a connected device can be listed, page by page, whatever the page. *)
Theorem demo_files_tree devices :
  (∀ h i h' answer, tree (dh_files h) → demo_do devices h i = Some (h', answer) →
     (tree (dh_files h') ↔ displaced h i = false)
     ∧ match answer with
       | Some (Ok _) => ∀ p, entry (dh_files h') p = input_effect h i (entry (dh_files h)) p
       | _ => dh_files h' = dh_files h
       end)
  ∧ ∀ s inputs h, tree s → demo_runs devices s inputs h →
      tree (dh_files h)
      ∧ (∀ t u, dh_uploads h !! t = Some u → placed u (dh_files h) = true ∧ up_data u = given t inputs)
      ∧ (∀ i, displaced h i = false)
      ∧ ∀ device_id directory cursor limit, demo_get devices device_id = Ok tt → directory ∈ df_directories (dh_files h) →
          ∃ page, file_list devices device_id "cfg" directory cursor limit (dh_files h) = Ok page.
Proof.
  split; [intros h i h' answer; apply input_accomplished |].
  intros s inputs h Ht Hruns. pose proof (runs_kept devices s inputs h Ht Hruns) as [Ht' Hup _]. split_and!; [done | | |].
  - intros t u Hu. by destruct (Hup t u Hu) as (_ & ? & ?).
  - intros [| |t []]; try done. cbn. destruct (dh_uploads h !! t) as [u|] eqn:Hu; [| done].
    destruct (Hup t u Hu) as (_ & -> & _). by rewrite andb_false_r.
  - intros device_id directory cursor limit Hget Hd. by apply listing_total.
Qed.

(** The files that the demo device starts with. *)
Definition newline : bytes := [10].
Definition quoted (s : string) : bytes := [34] ++ str_encode s ++ [34].
Definition demo_app : bytes :=
  str_encode "{" ++ quoted "device" ++ str_encode ":" ++ quoted "esp-iris" ++ str_encode "," ++ quoted "mode" ++ str_encode ":"
  ++ quoted "demo" ++ str_encode "}" ++ newline.
Definition demo_readme : bytes := str_encode "ESP-Iris streamed file service demo." ++ newline.
Definition demo_certificate : bytes :=
  str_encode "-----BEGIN CERTIFICATE-----" ++ newline ++ str_encode "DEMO" ++ newline
  ++ str_encode "-----END CERTIFICATE-----" ++ newline.
Definition demo_files_init : demo_files := DemoFiles
  (list_to_map [("app.json", demo_app); ("README.txt", demo_readme); ("certs/device.pem", demo_certificate)]%string)
  (list_to_set [""; "certs"]%string).
Lemma demo_files_init_tree : tree demo_files_init.
Proof.
  assert (Hd : ∀ p, p ∈ df_directories demo_files_init ↔ p ∈ [""; "certs"]%string) by (intros p; cbn; set_solver).
  constructor; [by apply Hd; left | |].
  - intros p Hp%Hd. repeat (apply elem_of_cons in Hp as [-> | Hp]; [vm_compute; reflexivity |]). by apply not_elem_of_nil in Hp.
  - intros p Hp%entry_paths. assert (Hin : p ∈ elements (paths demo_files_init)) by (by apply elem_of_elements).
    let l := eval vm_compute in (elements (paths demo_files_init)) in change (elements (paths demo_files_init)) with l in Hin.
    apply Hd. clear Hp. repeat (apply elem_of_cons in Hin as [-> | Hin]; [by_decide |]). by apply not_elem_of_nil in Hin.
Qed.
Definition demo_devices : gmap string bool := {["demo-a1b2c3d4"%string := true]}.

(** An upload to [certs] waits for its chunks while the readme is renamed; then
    it ends.  And a renaming of [certs] itself, before it ends. *)
Definition demo_start : demo_hub := DemoHub demo_files_init ∅ 0.
Definition demo_upload : demo_input := Begin "demo-a1b2c3d4" "cfg" "certs/new" 2 false None false.
Definition demo_rename (source destination : string) : demo_input := Ask "demo-a1b2c3d4" "cfg" (Rename source destination).
Fixpoint demo_all (h : demo_hub) (inputs : list demo_input) : demo_hub :=
  match inputs with
  | [] => h
  | i :: inputs => match demo_do demo_devices h i with Some (h, _) => demo_all h inputs | None => h end
  end.
Definition demo_before : demo_hub :=
  demo_all demo_start [demo_upload; Resume 0 (Chunk [1]); demo_rename "README.txt" "readme"; Resume 0 (Chunk [2])].
Lemma demo_next (inputs : list demo_input) (h : demo_hub) (i : demo_input) : demo_runs demo_devices demo_files_init inputs h →
  considerate h i → is_Some (demo_do demo_devices h i) → demo_runs demo_devices demo_files_init (inputs ++ [i]) (demo_all h [i]).
Proof.
  intros Hruns Hc [[h' answer] Hdo]. cbn [demo_all]. rewrite Hdo. by eapply runs_next.
Qed.
Lemma demo_before_runs : demo_runs demo_devices demo_files_init
  [demo_upload; Resume 0 (Chunk [1]); demo_rename "README.txt" "readme"; Resume 0 (Chunk [2])] demo_before.
Proof.
  apply (demo_next [demo_upload; Resume 0 (Chunk [1]); demo_rename "README.txt" "readme"]
    (demo_all demo_start [demo_upload; Resume 0 (Chunk [1]); demo_rename "README.txt" "readme"]));
    [| done | vm_compute; eexists; reflexivity].
  apply (demo_next [demo_upload; Resume 0 (Chunk [1])] (demo_all demo_start [demo_upload; Resume 0 (Chunk [1])]));
    [| by_decide | vm_compute; eexists; reflexivity].
  apply (demo_next [demo_upload] (demo_all demo_start [demo_upload])); [| done | vm_compute; eexists; reflexivity].
  apply (demo_next [] demo_start); [apply runs_none | done | vm_compute; eexists; reflexivity].
Qed.
Definition demo_ended : demo_hub := demo_all demo_before [Resume 0 SourceEnds].
Lemma demo_files_tree_witness : tree (dh_files demo_ended)
  ∧ entry (dh_files demo_ended) "certs/new" = Some (DemoFile [1; 2])
  ∧ entry (dh_files demo_ended) "readme" = entry demo_files_init "README.txt".
Proof.
  destruct (demo_files_tree demo_devices) as [Hstep Hruns].
  destruct (Hruns demo_files_init _ demo_before demo_files_init_tree demo_before_runs) as (Ht & _ & Hd & _).
  assert (Hdo : ∃ m, demo_do demo_devices demo_before (Resume 0 SourceEnds) = Some (demo_ended, Some (Ok m)))
    by (vm_compute; eexists; reflexivity).
  destruct Hdo as [m Hdo]. destruct (Hstep demo_before _ demo_ended _ Ht Hdo) as [Ht' He].
  split; [apply Ht', Hd | split; [rewrite He; vm_compute; reflexivity | vm_compute; reflexivity]].
Defined.

(** ** What the tree is for: a listing never fails on an entry *)
Example listed : child_names "" demo_files_init = ["README.txt"; "app.json"; "certs"]%string
  ∧ child_names "certs" demo_files_init = ["device.pem"]%string.
Proof. split; vm_compute; reflexivity. Qed.

(** The checks of an upload come before its loop, the write after it.  A
    directory that is renamed while the chunks arrive leaves the file in a
    directory that is gone, where no listing shows it. *)
Example upload_outlives_directory :
  let h := demo_all demo_start [demo_upload; Resume 0 (Chunk [1; 2]); demo_rename "certs" "keys"] in
  displaced h (Resume 0 SourceEnds) = true
  ∧ let s := dh_files (demo_all h [Resume 0 SourceEnds]) in
    entry s "certs/new" = Some (DemoFile [1; 2]) ∧ entry s "certs" = None
    ∧ file_stat demo_devices "demo-a1b2c3d4" "cfg" "certs" s = raise KeyError "unknown demo file: certs".
Proof. cbv zeta. split_and!; vm_compute; reflexivity. Qed.
