(* ===== verification/Workflow.v ===== *)
(** * Workflows: the Gateway's long-running procedures

    A closed-loop update, a restart, a reconciliation or a maintenance lease is
    one coroutine that calls the device hub, the operation manager and the
    store, and awaits events.  It is a computation over a [world]: the list of
    answers its calls will receive, the store it shares with all other tasks,
    and the trace.  Quantifying over the answers quantifies over all devices,
    networks and clocks: every call may return anything or raise anything,
    cancellation included; while an awaited call is pending the other tasks may
    do anything to the store.

    [ask] is an awaited call, [invoke] one that returns at once, [write] an
    update of the store.  The loops that end at a deadline ask the clock in
    every round.  A trace event [Called c] is followed by [Replied c r], unless
    the answers have run out. *)
From S2P Require Import Prelude Value Json Effects Store OperationIdentity Security Runtime SystemUpdate.

(** ** Requests of users

    What a handler gives the operation manager: the identity under which the
    request is recorded, and the call of the device it stands for - the
    [lambda] of the handler, with what it closes over. *)

Inductive device_call :=
| CallRpc (device_id : string) (service_id method_id : Z) (payload : bytes) (deadline_ms : Z)
| CallJob (device_id : string) (job_id : Z) (cancel : bool)
| CallRestart (device_id : string) (delay_ms : Z) (operation_id : string)
| CallEnterRecovery (device_id : string)
| CallScreenshot (device_id : string) (description : dict)
| CallMirrorStart (device_id : string) (channel : Z) (description : pyval) (fps : Z)
| CallMirrorStop (device_id : string) (channel : Z) (channel_name : string)
| CallInput (device_id : string) (event : dict)
| CallAudio (device_id : string) (data : bytes) (content_type : string)
| CallOta (device_id : string) (image : bytes) (metadata : dict) (operation_id execution_mode validation_mode : string)
    (compatibility : dict)
| CallSystemUpdate (device_id : string) (bundle : SystemUpdateBundle) (operation_id : string) (compatibility : dict)
| CallFileUpload (device_id volume path : string) (content : bytes) (overwrite : bool) (if_match : option string)
    (operation_id : string)
| CallFileMkdir (device_id volume path : string)
| CallFileDelete (device_id volume path : string)
| CallFileRename (device_id volume source destination : string).

Record submission := Submission {
  sb_device_id : string;
  sb_actor : Actor;
  sb_action : string;
  sb_params : dict;
  sb_call : device_call;
  sb_operation_id : option string;
  sb_serialized : bool;
}.

(** ** Calls and answers *)

Inductive call :=
(* hub.py *)
| Status (device_id : string)
| ListDevices
| CrashReport (device_id : string)
| ReadCoreDumpChunk (device_id : string) (offset length : Z)
| EnterRecovery (device_id : string)
| SystemUpdateInventory (device_id : string)
| OtaUpdate (device_id : string) (image expected_sha256 : bytes) (project_name version : pyval)
| UpdateSystem (device_id : string) (bundle : SystemUpdateBundle) (operation_id : bytes)
| RestartDevice (device_id : string) (delay_ms : Z)
| Subscribe (device_id : string)
| QueueGet (device_id : string)
| MaintenanceEndpoint (identifier : string)
| QuiesceDevice (device_id : string)
| QuiesceEndpoint (endpoint : string)
| ResumeMaintenanceEndpoint (endpoint : string)
(* operations.py *)
| ReportProgress (operation_id stage : string) (permille : Z) (details : dict)
| ReportStage (operation_id status : string)
| AcquireGate (device_id : string)
| Execute (s : submission)
| Submit (s : submission)
| CancelQueued
| QueueState (device_id : string)
(* the rest of hub.py that the HTTP handlers use *)
| DeviceRequest (c : device_call)
| ListEndpoints
| StreamMedia (device_id : string) (channel : Z)
| LiveEvent
| FileVolumes (device_id : string)
| FileStat (device_id volume path : string)
| FileList (device_id volume path : string) (cursor limit : Z)
| FileDownload (device_id volume path : string) (offset length : Z)
(* what is computed elsewhere: metrics, the API description, the export *)
| Document (name : string)
(* the disk *)
| ReadFile (path : string)
(* the event loop, the clock and random numbers *)
| Sleep
| BeforeDeadline
| TimeNs
| Random
(* what tells subscribers *)
| Broadcast (audit : dict)
| SubscribeEvents
| UnsubscribeEvents.

(** One answer of the world; a call takes the part of its type. *)
Record answer := Answer {
  an_dict : res dict;
  an_list : res (list dict);
  an_chunk : res (Z * bytes);
  an_int : res Z;
  an_str : res string;
  an_flag : res bool;
  an_unit : res unit;
  (** the next chunk of an iteration, a file's content *)
  an_bytes : res (option bytes);
  (** operation, result and whether it was created *)
  an_executed : res (dict * pyobj * bool);
  (** [Some p]: the pending call runs its progress callback on [p] *)
  an_callback : option dict;
  (** what other tasks have done to the store when an awaited call returns *)
  an_others : GatewayStore → GatewayStore;
}.

Inductive reply :=
| RDict (d : dict) | RList (l : list dict) | RChunk (total : Z) (chunk : bytes) | RInt (z : Z)
| RStr (s : string) | RFlag (b : bool) | RUnit | RBytes (data : option bytes)
| RExecuted (operation : dict) (result : pyobj) (created : bool).

Class Reply (A : Type) := { an_get : answer → res A; an_show : A → reply }.
#[export] Instance dict_reply : Reply dict := {| an_get := an_dict; an_show := RDict |}.
#[export] Instance list_reply : Reply (list dict) := {| an_get := an_list; an_show := RList |}.
#[export] Instance chunk_reply : Reply (Z * bytes) :=
  {| an_get := an_chunk; an_show p := RChunk (fst p) (snd p) |}.
#[export] Instance int_reply : Reply Z := {| an_get := an_int; an_show := RInt |}.
#[export] Instance str_reply : Reply string := {| an_get := an_str; an_show := RStr |}.
#[export] Instance flag_reply : Reply bool := {| an_get := an_flag; an_show := RFlag |}.
#[export] Instance unit_reply : Reply unit := {| an_get := an_unit; an_show _ := RUnit |}.
#[export] Instance bytes_reply : Reply (option bytes) := {| an_get := an_bytes; an_show := RBytes |}.
#[export] Instance executed_reply : Reply (dict * pyobj * bool) :=
  {| an_get := an_executed; an_show x := RExecuted (fst (fst x)) (snd (fst x)) (snd x) |}.

(** Answers of examples: a dictionary, a number, an exception, a callback. *)
Definition plain_answer (d : dict) (l : list dict) (chunk : Z * bytes) (z : Z) (s : string) : answer :=
  Answer (Ok d) (Ok l) (Ok chunk) (Ok z) (Ok s) (Ok true) (Ok tt) (Ok None) (Ok ([], ONone, true)) None (λ s, s).
Definition unit_answer : answer := plain_answer [] [] (0, []) 0 "".
Definition dict_answer (d : dict) : answer := plain_answer d [] (0, []) 0 "".
Definition int_answer (z : Z) : answer := plain_answer [] [] (0, []) z "".
Definition str_answer (s : string) : answer := plain_answer [] [] (0, []) 0 s.
Definition list_answer (l : list dict) : answer := plain_answer [] l (0, []) 0 "".
Definition chunk_answer (total : Z) (chunk : bytes) : answer := plain_answer [] [] (total, chunk) 0 "".
Definition bytes_answer (data : option bytes) : answer :=
  Answer (Ok []) (Ok []) (Ok (0, [])) (Ok 0) (Ok ""%string) (Ok true) (Ok tt) (Ok data) (Ok ([], ONone, true)) None (λ s, s).
Definition executed_answer (operation : dict) (result : pyobj) (created : bool) : answer :=
  Answer (Ok []) (Ok []) (Ok (0, [])) (Ok 0) (Ok ""%string) (Ok true) (Ok tt) (Ok None) (Ok (operation, result, created))
    None (λ s, s).
Definition callback_answer (p : dict) : answer :=
  Answer (Ok []) (Ok []) (Ok (0, [])) (Ok 0) (Ok ""%string) (Ok true) (Ok tt) (Ok None) (Ok ([], ONone, true))
    (Some p) (λ s, s).
Definition error_answer (c : exn_class) : answer :=
  let e {A} : res A := raise c "" in Answer e e e e e e e e e None (λ s, s).

(** What a workflow writes to the store. *)
Inductive write :=
| WLease (row : lease_row)
| WAudit (actor_type actor_name action : string) (details : dict)
| WArtifact (path : string) (data : bytes)
| WDevice (info : dict)
| WEvent (item : dict)
| WSetting (key : string) (value : pyval)
| WFirmware (artifact : dict)
| WReconciliation (reconciliation_id operation_id : string) (record : dict).

Inductive event :=
| Called (c : call)
| Replied (c : call) (r : res reply)
| CalledBack (p : dict)
| Unsubscribed (device_id : string)
| GateReleased (device_id : string)
| ReadEvents (device_id : string) (events : list dict)
| Gauged (metric : string) (value : Z)
| Wrote (w : write).

Record world := World_ {
  w_script : list answer;
  w_store : GatewayStore;
  (** the [nonlocal] variable of a progress callback *)
  w_last_progress : Z;
  (** the counters of a verification, which its error handler reads *)
  w_retries : Z * option string;
  w_trace : list event;
}.

(** No answer is the exhaustion of fuel. *)
Record answer_ok (a : answer) : Prop := {
  ok_dict : res_ok (an_dict a); ok_list : res_ok (an_list a); ok_chunk : res_ok (an_chunk a);
  ok_int : res_ok (an_int a); ok_str : res_ok (an_str a); ok_flag : res_ok (an_flag a);
  ok_unit : res_ok (an_unit a);
  ok_bytes : res_ok (an_bytes a); ok_executed : res_ok (an_executed a);
}.

#[export] Instance event_replies : Event event :=
  {| is_reply e := match e with Replied _ _ | CalledBack _ => true | _ => false end |}.
#[export] Instance world_world : World world event :=
  {| trace_of := w_trace; budget w := length (w_script w); env_ok w := Forall answer_ok (w_script w) |}.

Abbreviation W := (Eff world).

(** ** Primitives *)

Definition traced (e : event) (w : world) : world :=
  World_ (w_script w) (w_store w) (w_last_progress w) (w_retries w) (w_trace w ++ [e]).
Definition note (e : event) : W unit := λ w, (Done tt, traced e w).

Definition show_reply {A} `{Reply A} (r : res A) : res reply := a ← r; Ok (an_show a).

(** The next answer, to the call [c]. *)
Definition answered {A} `{Reply A} (others : bool) (c : call) : W A := λ w,
  match w_script w with
  | [] => (Blocked, w)
  | a :: rest =>
    lift (an_get a) (traced (Replied c (show_reply (an_get a)))
      (World_ rest (if others then an_others a (w_store w) else w_store w) (w_last_progress w) (w_retries w) (w_trace w)))
  end.
(** [await c] *)
Definition ask {A} `{Reply A} (c : call) : W A := _ ← note (Called c); answered true c.
(** a call without [await] *)
Definition invoke {A} `{Reply A} (c : call) : W A := _ ← note (Called c); answered false c.

(** [try: await c except (cs): None] *)
Definition attempt (c : call) (cs : list exn_class) : W (option dict) :=
  try_except (d ← ask (A:=dict) c; mret (Some d)) cs (λ _, mret None).

Definition get_store : W GatewayStore := λ w, (Done (w_store w), w).
Definition put_store (s : GatewayStore) : W unit := λ w,
  (Done tt, World_ (w_script w) s (w_last_progress w) (w_retries w) (w_trace w)).
Definition get_last_progress : W Z := λ w, (Done (w_last_progress w), w).
Definition set_last_progress (z : Z) : W unit := λ w,
  (Done tt, World_ (w_script w) (w_store w) z (w_retries w) (w_trace w)).
Definition get_retries : W (Z * option string) := λ w, (Done (w_retries w), w).
Definition set_retries (z : Z * option string) : W unit := λ w,
  (Done tt, World_ (w_script w) (w_store w) (w_last_progress w) z (w_trace w)).

(** A method of the store, and what it writes if it does not raise. *)
Definition update_store {A} (method : GatewayStore → GatewayStore * res A) (what : A → write) : W A :=
  s ← get_store;
  let '(s', r) := method s in
  _ ← put_store s';
  match r with
  | Ok a => _ ← note (Wrote (what a)); mret a
  | Err e => lift (Err e)
  end.

(** ** Calls with a progress callback

    While the call is pending it runs its callback any number of times.  What
    it makes of an exception of the callback shows in its later answers. *)

Definition pending {A} `{Reply A} (c : call) : W (dict + res A) := λ w,
  match w_script w with
  | [] => (Blocked, w)
  | a :: rest =>
    let w' := World_ rest (an_others a (w_store w)) (w_last_progress w) (w_retries w) (w_trace w) in
    match an_callback a with
    | Some p => (Done (inl p), traced (CalledBack p) w')
    | None => (Done (inr (an_get a)), traced (Replied c (show_reply (an_get a))) w')
    end
  end.

Definition swallow (m : W unit) : W unit := try_except m [BaseException] (λ _, mret tt).
Definition is_none_ {A} (o : option A) : bool := match o with None => true | Some _ => false end.

Definition pending_round {A} `{Reply A} (c : call) (callback : dict → W unit) : W (option (res A)) :=
  next ← pending c;
  match next with
  | inl p => _ ← swallow (callback p); mret None
  | inr r => mret (Some r)
  end.
Definition ask_calling {A} `{Reply A} (c : call) (callback : dict → W unit) : W A :=
  _ ← note (Called c);
  result ← while is_none_ (λ _, pending_round c callback) None;
  match result with Some r => lift r | None => throw NonTermination "while" end.

(** ** Loops with a deadline

    [while time() < deadline: body], where [body] continues with a new state,
    [inl], or leaves the loop, [inr]. *)

Inductive round (S B : Type) := Open (st : S) | Expired (st : S) | Left (b : B).
Arguments Open {_ _} _. Arguments Expired {_ _} _. Arguments Left {_ _} _.
Definition is_open {S B} (r : round S B) : bool := match r with Open _ => true | _ => false end.
Definition round_of {S B} (x : S + B) : round S B := match x with inl st => Open st | inr b => Left b end.
Definition round_result {S B} (r : round S B) : S + B :=
  match r with Open st | Expired st => inl st | Left b => inr b end.

Definition loop_round {S B} (body : S → W (S + B)) (r : round S B) : W (round S B) :=
  match r with
  | Open st =>
    before ← invoke (A:=bool) BeforeDeadline;
    if (before : bool) then x ← body st; mret (round_of x) else mret (Expired st)
  | r => mret r
  end.
Definition until_deadline {S B} (body : S → W (S + B)) (st : S) : W (S + B) :=
  r ← while is_open (loop_round body) (Open st); mret (round_result r).

(** ** Rules *)

Definition outcome_of {A} (r : res A) : outcome A := match r with Ok a => Done a | Err e => Raised e end.

Lemma spec_note e (Q : outcome unit → list event → Prop) :
  is_reply e = false → Q (Done tt) [e] → spec (note e) Q.
Proof.
  intros He HQ w. exists [e]. split_and!; [done | | done].
  unfold replies. cbn [List.filter]. rewrite He. simpl. lia.
Qed.

Lemma spec_answered {A} `{Reply A} b c (Q : outcome A → list event → Prop) :
  Q Blocked [] → (∀ r : res A, Q (outcome_of r) [Replied c (show_reply r)]) → spec (answered b c) Q.
Proof.
  intros Hb Hr w. unfold answered; simpl. destruct (w_script w) as [|a rest] eqn:E.
  - exists []. simpl. rewrite E, app_nil_r. split_and!; [done | rlia | done].
  - exists [Replied c (show_reply (an_get a))]. specialize (Hr (an_get a)).
    destruct (an_get a); simpl in *; (split_and!; [done | rlia | done]).
Qed.

Lemma spec_ask {A} `{Reply A} c (Q : outcome A → list event → Prop) :
  Q Blocked [Called c] → (∀ r : res A, Q (outcome_of r) [Called c; Replied c (show_reply r)]) →
  spec (ask c) Q.
Proof. intros Hb Hr. apply spec_bind, spec_note; [done |]. by apply spec_answered. Qed.

Lemma spec_invoke {A} `{Reply A} c (Q : outcome A → list event → Prop) :
  Q Blocked [Called c] → (∀ r : res A, Q (outcome_of r) [Called c; Replied c (show_reply r)]) →
  spec (invoke c) Q.
Proof. intros Hb Hr. apply spec_bind, spec_note; [done |]. by apply spec_answered. Qed.

(** A computation that neither answers nor is traced. *)
Lemma spec_silent {A} (m : W A) (Q : outcome A → list event → Prop) :
  (∀ w, ∃ a, fst (m w) = Done a ∧ w_script (snd (m w)) = w_script w ∧ w_trace (snd (m w)) = w_trace w
    ∧ Q (Done a) []) → spec m Q.
Proof.
  intros Hm w. destruct (Hm w) as (a & Hf & Hs & Ht & HQ). exists [].
  cbn [trace_of budget world_world]. rewrite Hs, Ht, Hf, app_nil_r. split_and!; [done | rlia | done].
Qed.
Lemma spec_get_store (Q : outcome GatewayStore → list event → Prop) :
  (∀ s, Q (Done s) []) → spec get_store Q.
Proof. intros HQ. apply spec_silent. intros w. by exists (w_store w). Qed.
Lemma spec_put_store s (Q : outcome unit → list event → Prop) : Q (Done tt) [] → spec (put_store s) Q.
Proof. intros HQ. apply spec_silent. intros w. by exists tt. Qed.
Lemma spec_get_last_progress (Q : outcome Z → list event → Prop) :
  (∀ z, Q (Done z) []) → spec get_last_progress Q.
Proof. intros HQ. apply spec_silent. intros w. by exists (w_last_progress w). Qed.
Lemma spec_set_last_progress z (Q : outcome unit → list event → Prop) :
  Q (Done tt) [] → spec (set_last_progress z) Q.
Proof. intros HQ. apply spec_silent. intros w. by exists tt. Qed.

Lemma spec_get_retries (Q : outcome (Z * option string) → list event → Prop) :
  (∀ z, Q (Done z) []) → spec get_retries Q.
Proof. intros HQ. apply spec_silent. intros w. by exists (w_retries w). Qed.
Lemma spec_set_retries z (Q : outcome unit → list event → Prop) :
  Q (Done tt) [] → spec (set_retries z) Q.
Proof. intros HQ. apply spec_silent. intros w. by exists tt. Qed.

Lemma spec_pending {A} `{Reply A} c (Q : outcome (dict + res A) → list event → Prop) :
  Q Blocked [] → (∀ p, Q (Done (inl p)) [CalledBack p]) →
  (∀ r : res A, Q (Done (inr r)) [Replied c (show_reply r)]) → spec (pending c) Q.
Proof.
  intros Hb Hp Hr w. unfold pending; simpl. destruct (w_script w) as [|a rest] eqn:E.
  - exists []. simpl. rewrite E, app_nil_r. split_and!; [done | rlia | done].
  - destruct (an_callback a) as [p|].
    + exists [CalledBack p]. split_and!; [done | rlia | apply Hp].
    + exists [Replied c (show_reply (an_get a))]. split_and!; [done | rlia | apply Hr].
Qed.

(** *** Any answer *)

Lemma appending_note e : is_reply e = false → appending (note e).
Proof. intros He. by apply spec_note. Qed.
Lemma answering_ask {A} `{Reply A} c : answering (ask (A:=A) c).
Proof. apply spec_ask; [by left | intros r; right; rlia]. Qed.
Lemma answering_invoke {A} `{Reply A} c : answering (invoke (A:=A) c).
Proof. apply spec_invoke; [by left | intros r; right; rlia]. Qed.
Lemma answering_pending {A} `{Reply A} c : answering (pending (A:=A) c).
Proof. apply spec_pending; [by left | |]; intros; right; rlia. Qed.
Lemma appending_ask {A} `{Reply A} c : appending (ask (A:=A) c).
Proof. by apply spec_ask. Qed.
Lemma appending_invoke {A} `{Reply A} c : appending (invoke (A:=A) c).
Proof. by apply spec_invoke. Qed.
Lemma appending_get_store : appending get_store.
Proof. by apply spec_get_store. Qed.
Lemma appending_put_store s : appending (put_store s).
Proof. by apply spec_put_store. Qed.
Lemma appending_get_last_progress : appending get_last_progress.
Proof. by apply spec_get_last_progress. Qed.
Lemma appending_get_retries : appending get_retries.
Proof. by apply spec_get_retries. Qed.
Lemma appending_set_last_progress z : appending (set_last_progress z).
Proof. by apply spec_set_last_progress. Qed.
Lemma appending_set_retries z : appending (set_retries z).
Proof. by apply spec_set_retries. Qed.
Lemma appending_swallow m : appending m → appending (swallow m).
Proof. intros Hm. apply appending_try; [done | intros; apply appending_ret]. Qed.

Lemma appending_update_store {A} (method : GatewayStore → GatewayStore * res A) what : appending (update_store method what).
Proof.
  apply appending_bind; [apply appending_get_store | intros s]. destruct (method s) as [s' r].
  apply appending_bind; [apply appending_put_store | intros _]. destruct r; [| apply appending_lift].
  apply appending_bind; [by apply appending_note | intros; apply appending_ret].
Qed.

(** One round of a pending call takes an answer. *)
Lemma pending_round_replying {A} `{Reply A} c callback : (∀ p, appending (callback p)) →
  replying (pending_round (A:=A) c callback).
Proof.
  intros Hc. apply answering_replying, answering_bind; [apply answering_pending |].
  intros [p|r]; [| apply appending_ret].
  apply appending_bind; [by apply appending_swallow | intros; apply appending_ret].
Qed.
Lemma appending_ask_calling {A} `{Reply A} c callback :
  (∀ p, appending (callback p)) → appending (ask_calling (A:=A) c callback).
Proof.
  intros Hc. apply appending_bind; [by apply appending_note | intros _].
  apply appending_bind; [apply appending_while; intros; by apply pending_round_replying |].
  intros [r|]; apply appending_lift.
Qed.

Lemma loop_round_replying {S B} (body : S → W (S + B)) r :
  (∀ st, appending (body st)) → is_open r = true → replying (loop_round body r).
Proof.
  intros Hb Hr. destruct r as [st| |]; try done. apply answering_replying, answering_bind;
    [apply answering_invoke |]. intros []; [| apply appending_ret].
  apply appending_bind; [apply Hb | intros; apply appending_ret].
Qed.
Lemma appending_until_deadline {S B} (body : S → W (S + B)) st :
  (∀ st, appending (body st)) → appending (until_deadline body st).
Proof.
  intros Hb. apply appending_bind; [| intros; apply appending_ret].
  apply appending_while. intros r Hr. by apply loop_round_replying.
Qed.

(** *** What a returning call has seen *)

Lemma returning_ask {A} `{Reply A} c :
  returning (ask (A:=A) c) (λ a t, t = [Called c; Replied c (Ok (an_show a))]).
Proof. apply spec_ask; [done |]. by intros [a|e]. Qed.
Lemma returning_invoke {A} `{Reply A} c :
  returning (invoke (A:=A) c) (λ a t, t = [Called c; Replied c (Ok (an_show a))]).
Proof. apply spec_invoke; [done |]. by intros [a|e]. Qed.
Lemma returning_ask_bind {A B} `{Reply A} c (f : A → W B) (Q : B → list event → Prop) :
  (∀ a, returning (f a) (λ b t2, Q b (Called c :: Replied c (Ok (an_show a)) :: t2))) →
  returning (ask c ≫= f) Q.
Proof. intros Hf. eapply returning_bind; [apply returning_ask |]. intros a t ->. apply Hf. Qed.
Lemma returning_ask_calling {A} `{Reply A} c callback : (∀ p, appending (callback p)) →
  returning (ask_calling (A:=A) c callback) (λ a t, ∃ u, t = Called c :: u ++ [Replied c (Ok (an_show a))]).
Proof.
  intros Hc. apply spec_bind, spec_note; [done |]. apply spec_bind.
  apply (spec_while (λ r t, ∀ a, r = Some (Ok a) → ∃ u, t = u ++ [Replied c (Ok (an_show a))])); [done | |].
  - intros r t Hr Hn. destruct r; [done |].
    apply spec_bind, spec_pending; [done | |].
    + intros p. apply spec_bind. eapply spec_mono; [by apply appending_swallow, Hc |].
      intros [u|e|] t2 _; [| done | done]. apply spec_ret. split; [done | rlia].
    + intros r. apply spec_ret. split; [| rlia]. intros a [= ->]. by exists t.
  - intros r t Hr Hs. destruct r as [[a|e]|]; [| by apply spec_lift | by apply spec_lift].
    apply spec_ret. destruct (Hr a eq_refl) as [u ->]. rewrite app_nil_r. by exists u.
Qed.

Lemma spec_update_store {A} (method : GatewayStore → GatewayStore * res A) what (Q : outcome A → list event → Prop) :
  (∀ s a, snd (method s) = Ok a → Q (Done a) [Wrote (what a)]) → (∀ s e, snd (method s) = Err e → Q (Raised e) []) →
  spec (update_store method what) Q.
Proof.
  intros Hok Herr. apply spec_bind, spec_get_store. intros s. destruct (method s) as [s' r] eqn:E.
  apply spec_bind, spec_put_store. destruct r as [a|e].
  - apply spec_bind, spec_note; [done |]. apply spec_ret, (Hok s). by rewrite E.
  - apply spec_lift; intros x Hx; [done |]. apply (Herr s). by rewrite E.
Qed.
Lemma returning_update_store {A} (method : GatewayStore → GatewayStore * res A) what :
  returning (update_store method what) (λ a t, t = [Wrote (what a)] ∧ ∃ s, snd (method s) = Ok a).
Proof. apply spec_update_store; [| done]. intros s a Hs. split; [done | by exists s]. Qed.

(** The answer [d] to the call [c], in a trace. *)
Definition saw (c : call) (d : dict) : event := Replied c (Ok (RDict d)).
Lemma returning_attempt_bind {B} c cs (f : option dict → W B) (Q : B → list event → Prop) :
  (∀ d t, saw c d ∈ t → returning (f (Some d)) (λ b t2, Q b (t ++ t2))) →
  (∀ t, returning (f None) (λ b t2, Q b (t ++ t2))) → returning (attempt c cs ≫= f) Q.
Proof.
  intros Hs Hn. eapply (returning_bind _ _ (λ o t, ∀ d, o = Some d → saw c d ∈ t)).
  - apply returning_try; [| intros e v; by apply returning_ret].
    apply returning_ask_bind. intros d. apply returning_ret. intros d' [= <-]. right. left.
  - intros [d|] t Ht; [by apply Hs, Ht | apply Hn].
Qed.

(** A specification of a run with an empty trace. *)
Lemma spec_run {A} (m : W A) (Q : outcome A → list event → Prop) w o w' :
  spec m Q → w_trace w = [] → m w = (o, w') → Q o (w_trace w').
Proof.
  intros Hm Hw Hrun. destruct (Hm w) as (t & Ht & _ & HQ). cbn [trace_of world_world] in Ht.
  rewrite Hrun, Hw in *. simpl in *. by subst t.
Qed.
(** What a returning workflow has seen. *)
Lemma returning_run {A} (m : W A) (P : A → list event → Prop) w a w' :
  returning m P → w_trace w = [] → m w = (Done a, w') → P a (w_trace w').
Proof. intros Hm Hw Hrun. by apply (spec_run _ _ _ _ _ Hm Hw Hrun). Qed.

(** A loop that is left by [inr], with an invariant of what it has seen. *)
Lemma returning_until_deadline {S B} (I : S → list event → Prop) (body : S → W (S + B)) st
    (Q : B → list event → Prop) :
  I st [] → (∀ st, appending (body st)) →
  (∀ st t, I st t → ∀ t0, returning (body st)
     (λ x t2, match x with inl st' => I st' (t ++ t0 ++ t2) | inr b => Q b (t ++ t0 ++ t2) end)) →
  returning (until_deadline body st) (λ x t, match x with inl _ => True | inr b => Q b t end).
Proof.
  intros HI Hc Hb. apply spec_bind.
  apply (spec_while (λ r t, match r with Open st => I st t | Left b => Q b t | Expired _ => True end));
    [done | |].
  - intros r t Hr Ho s. destruct r as [st'| |]; try done.
    destruct (loop_round_replying body (Open st') Hc eq_refl s) as (u & Hu & Hl & Hrep).
    assert (Hspec : returning (loop_round body (Open st'))
      (λ r u, match r with Open st => I st (t ++ u) | Left b => Q b (t ++ u) | Expired _ => True end)).
    { eapply returning_bind; [eapply returning_any, appending_invoke |]. intros [] u0 _; [| by apply returning_ret].
      eapply returning_bind; [apply (Hb st' t Hr u0) |]. intros x u1 Hx. apply returning_ret.
      rewrite app_nil_r. by destruct x. }
    destruct (Hspec s) as (u' & Hu' & _ & HQ).
    assert (u' = u) as -> by (rewrite Hu in Hu'; by apply app_inv_head in Hu').
    exists u. split_and!; [done | done |]. destruct (fst (loop_round body (Open st') s)); [done | done | done].
  - intros r t Hr Ho. apply spec_ret. rewrite app_nil_r. by destruct r.
Qed.

(** *** Counting *)

Section counting.
Context (p : event → bool).

Lemma at_most_note n e : is_reply e = false → p e = false → at_most p n (note e).
Proof. intros He Hp. apply spec_note; [done |]. unfold count. simpl. rewrite Hp. simpl. lia. Qed.
Lemma at_most_answered {A} `{Reply A} n b c : (∀ r, p (Replied c r) = false) → at_most p n (answered (A:=A) b c).
Proof.
  intros Hp. apply spec_answered; [apply Nat.le_0_l |]. intros r. unfold count. simpl. rewrite Hp. simpl. lia.
Qed.
Lemma at_most_ask {A} `{Reply A} n c :
  p (Called c) = false → (∀ r, p (Replied c r) = false) → at_most p n (ask (A:=A) c).
Proof. intros. apply at_most_bind; [by apply at_most_note | intros; by apply at_most_answered]. Qed.
Lemma at_most_invoke {A} `{Reply A} n c :
  p (Called c) = false → (∀ r, p (Replied c r) = false) → at_most p n (invoke (A:=A) c).
Proof. intros. apply at_most_bind; [by apply at_most_note | intros; by apply at_most_answered]. Qed.
Lemma at_most_get_store n : at_most p n get_store.
Proof. apply spec_get_store. intros. apply Nat.le_0_l. Qed.
Lemma at_most_put_store n s : at_most p n (put_store s).
Proof. apply spec_put_store. apply Nat.le_0_l. Qed.
Lemma at_most_get_last_progress n : at_most p n get_last_progress.
Proof. apply spec_get_last_progress. intros. apply Nat.le_0_l. Qed.
Lemma at_most_get_retries n : at_most p n get_retries.
Proof. apply spec_get_retries. intros. apply Nat.le_0_l. Qed.
Lemma at_most_set_last_progress n z : at_most p n (set_last_progress z).
Proof. apply spec_set_last_progress. apply Nat.le_0_l. Qed.
Lemma at_most_set_retries n z : at_most p n (set_retries z).
Proof. apply spec_set_retries. apply Nat.le_0_l. Qed.
Lemma at_most_swallow m : at_most p 0 m → at_most p 0 (swallow m).
Proof. intros Hm. apply at_most_try; [done | intros; apply at_most_ret]. Qed.

Lemma at_most_update_store {A} n (method : GatewayStore → GatewayStore * res A) what :
  (∀ a, p (Wrote (what a)) = false) → at_most p n (update_store method what).
Proof.
  intros Hp. apply at_most_bind; [apply at_most_get_store | intros s]. destruct (method s) as [s' r].
  apply at_most_bind; [apply at_most_put_store | intros _]. destruct r; [| apply at_most_lift].
  apply at_most_bind; [by apply at_most_note | intros; apply at_most_ret].
Qed.

Lemma at_most_ask_calling {A} `{Reply A} c callback :
  (∀ r, p (Replied c r) = false) → (∀ d, p (CalledBack d) = false) →
  (∀ d, appending (callback d)) → (∀ d, at_most p 0 (callback d)) →
  at_most p (if p (Called c) then 1 else 0) (ask_calling (A:=A) c callback).
Proof.
  intros Hr Hcb Ha Hc. rewrite <- (Nat.add_0_r (if p (Called c) then 1 else 0)%nat). apply at_most_bind_sum.
  { apply spec_note; [done |]. unfold count. simpl. by destruct (p (Called c)). }
  intros _. apply at_most_bind; [| intros [r|]; apply at_most_lift].
  apply at_most_while; [| intros; by apply pending_round_replying].
  intros _. apply at_most_bind.
  - apply spec_pending; [apply Nat.le_0_l | |]; intros; unfold count; simpl; rewrite ?Hr, ?Hcb; simpl; lia.
  - intros [d|r]; [| apply at_most_ret]. apply at_most_bind; [by apply at_most_swallow | intros; apply at_most_ret].
Qed.
Lemma at_most_until_deadline {S B} (body : S → W (S + B)) st :
  p (Called BeforeDeadline) = false → (∀ r, p (Replied BeforeDeadline r) = false) →
  (∀ st, appending (body st)) → (∀ st, at_most p 0 (body st)) → at_most p 0 (until_deadline body st).
Proof.
  intros H1 H2 Ha Hb. apply at_most_bind; [| intros; apply at_most_ret].
  apply at_most_while; [| intros; by apply loop_round_replying].
  intros [st'| |]; [| apply at_most_ret ..]. apply at_most_bind; [by apply at_most_invoke |].
  intros []; [| apply at_most_ret]. apply at_most_bind; [done | intros; apply at_most_ret].
Qed.
End counting.

(** *** Termination *)

Class ReplyLaws A `{Reply A} := { answer_get_ok : ∀ a, answer_ok a → res_ok (an_get a) }.
#[export] Instance dict_reply_laws : ReplyLaws dict.
Proof. constructor. exact ok_dict. Qed.
#[export] Instance list_reply_laws : ReplyLaws (list dict).
Proof. constructor. exact ok_list. Qed.
#[export] Instance chunk_reply_laws : ReplyLaws (Z * bytes).
Proof. constructor. exact ok_chunk. Qed.
#[export] Instance int_reply_laws : ReplyLaws Z.
Proof. constructor. exact ok_int. Qed.
#[export] Instance str_reply_laws : ReplyLaws string.
Proof. constructor. exact ok_str. Qed.
#[export] Instance flag_reply_laws : ReplyLaws bool.
Proof. constructor. exact ok_flag. Qed.
#[export] Instance unit_reply_laws : ReplyLaws unit.
Proof. constructor. exact ok_unit. Qed.
#[export] Instance bytes_reply_laws : ReplyLaws (option bytes).
Proof. constructor. exact ok_bytes. Qed.
#[export] Instance executed_reply_laws : ReplyLaws (dict * pyobj * bool).
Proof. constructor. exact ok_executed. Qed.

Lemma safe_note e : safe (note e).
Proof. done. Qed.
Lemma safe_answered {A} `{ReplyLaws A} b c : safe (answered (A:=A) b c).
Proof.
  intros w Hw. unfold answered. destruct (w_script w) as [|a rest] eqn:E; [done |].
  cbn [env_ok world_world] in Hw. rewrite E in Hw.
  apply Forall_cons in Hw as [Ha Hr]. apply safe_lift; [by apply answer_get_ok | done].
Qed.
Lemma safe_ask {A} `{ReplyLaws A} c : safe (ask (A:=A) c).
Proof. apply safe_bind; [done | intros; apply safe_answered]. Qed.
Lemma safe_invoke {A} `{ReplyLaws A} c : safe (invoke (A:=A) c).
Proof. apply safe_bind; [done | intros; apply safe_answered]. Qed.
Lemma safe_get_store : safe get_store.
Proof. done. Qed.
Lemma safe_put_store s : safe (put_store s).
Proof. done. Qed.
Lemma safe_get_last_progress : safe get_last_progress.
Proof. done. Qed.
Lemma safe_get_retries : safe get_retries.
Proof. done. Qed.
Lemma safe_set_last_progress z : safe (set_last_progress z).
Proof. done. Qed.
Lemma safe_set_retries z : safe (set_retries z).
Proof. done. Qed.
Lemma safe_swallow m : safe m → safe (swallow m).
Proof. intros. by apply safe_try. Qed.

Lemma safe_update_store {A} (method : GatewayStore → GatewayStore * res A) what :
  (∀ s, res_ok (snd (method s))) → safe (update_store method what).
Proof.
  intros Hm. apply safe_bind; [done | intros s]. specialize (Hm s). destruct (method s) as [s' r].
  apply safe_bind; [done | intros _]. destruct r; [| by apply safe_lift].
  apply safe_bind; [done | intros; apply safe_ret].
Qed.

(** A round leaves no exhaustion behind. *)
Definition answer_so_far_ok {A} (o : outcome (option (res A))) : Prop :=
  match o with Done (Some r) => res_ok r | Done None => True | o => outcome_ok o end.
Lemma pending_round_ok {A} `{ReplyLaws A} c callback w : (∀ p, safe (callback p)) → env_ok w →
  answer_so_far_ok (fst (pending_round (A:=A) c callback w)) ∧ env_ok (snd (pending_round (A:=A) c callback w)).
Proof.
  intros Hs Hw. unfold pending_round, mbind, Eff_bind, pending.
  destruct (w_script w) as [|a rest] eqn:E; [done |]. cbn [env_ok world_world] in Hw. rewrite E in Hw.
  apply Forall_cons in Hw as [Hok Hrest]. destruct (an_callback a) as [p|]; [| by split; [apply answer_get_ok |]].
  set (w' := traced _ _). destruct (safe_swallow _ (Hs p) w' Hrest) as [Ho He].
  by destruct (swallow (callback p) w') as [[u|e|] w2].
Qed.
Lemma safe_ask_calling {A} `{ReplyLaws A} c callback :
  (∀ p, appending (callback p)) → (∀ p, safe (callback p)) → safe (ask_calling (A:=A) c callback).
Proof.
  intros Ha Hs. apply safe_bind; [done |]. intros _.
  assert (Hloop : ∀ fuel w, env_ok w → (budget w < fuel)%nat →
    let o := while_fuel fuel is_none_ (λ _, pending_round (A:=A) c callback) None w in
    answer_so_far_ok (fst o) ∧ fst o ≠ Done None ∧ env_ok (snd o)).
  { induction fuel as [|fuel IH]; intros w Hw Hf; [lia |]. cbn [while_fuel is_none_]. unfold mbind, Eff_bind.
    destruct (pending_round_replying (A:=A) c callback Ha w) as (t & _ & Hl & Ht).
    destruct (pending_round_ok (A:=A) c callback w Hs Hw) as [Ho He].
    destruct (pending_round c callback w) as [[[r|]|e|] w']; [| | done | done].
    - destruct fuel; [cbn [fst snd] in *; lia | done].
    - apply IH; [done |]. cbn [fst snd] in *. lia. }
  intros w Hw. unfold while, mbind, Eff_bind.
  destruct (Hloop (Datatypes.S (budget w)) w Hw ltac:(lia)) as (Ho & Hn & He).
  destruct (while_fuel _ _ _ None w) as [[[r|]|e|] w']; [by apply safe_lift | done | done | done].
Qed.

Lemma safe_until_deadline {S B} (body : S → W (S + B)) st :
  (∀ st, appending (body st)) → (∀ st, safe (body st)) → safe (until_deadline body st).
Proof.
  intros Ha Hb. apply safe_bind; [| done]. apply safe_while; [| intros; by apply loop_round_replying].
  intros [st'| |]; [| done ..]. apply safe_bind; [apply safe_invoke |]. intros []; [| done].
  apply safe_bind; [done |]. done.
Qed.

(** ** Automation

    Each follows the structure of a workflow down to its calls; the hint
    databases hold what is known of the parts. *)

Create HintDb appending.
Create HintDb counting.

Ltac appends :=
  repeat (intros; lazymatch goal with
  | |- appending (_ ≫= _) => apply appending_bind
  | |- appending (mret _) => apply appending_ret
  | |- appending (lift _) => apply appending_lift
  | |- appending (throw _ _) => apply appending_lift
  | |- appending (ask _) => apply appending_ask
  | |- appending (invoke _) => apply appending_invoke
  | |- appending (attempt _ _) => unfold attempt
  | |- appending (ask_calling _ _) => apply appending_ask_calling
  | |- appending (until_deadline _ _) => apply appending_until_deadline
  | |- appending (try_except _ _ _) => apply appending_try
  | |- appending (try_finally _ _) => apply appending_finally
  | |- appending (suppress _) => apply appending_suppress
  | |- appending (on_error _ _) => apply appending_on_error
  | |- appending (note _) => apply appending_note; reflexivity
  | |- appending (update_store _ _) => apply appending_update_store
  | |- appending get_store => apply appending_get_store
  | |- appending (put_store _) => apply appending_put_store
  | |- appending get_last_progress => apply appending_get_last_progress
  | |- appending get_retries => apply appending_get_retries
  | |- appending (set_last_progress _) => apply appending_set_last_progress
  | |- appending (set_retries _) => apply appending_set_retries
  | |- appending (let _ := _ in _) => cbv zeta
  | |- appending (match ?x with _ => _ end) => destruct x
  | |- appending _ => solve [auto 2 with appending nocore]
  end).
(** Nothing on the way satisfies the predicate. *)
Ltac counts :=
  repeat (intros; lazymatch goal with
  | |- at_most _ _ (_ ≫= _) => apply at_most_bind
  | |- at_most _ _ (mret _) => apply at_most_ret
  | |- at_most _ _ (lift _) => apply at_most_lift
  | |- at_most _ _ (throw _ _) => apply at_most_lift
  | |- at_most _ _ (ask _) => apply at_most_ask; [reflexivity | intros; reflexivity]
  | |- at_most _ _ (invoke _) => apply at_most_invoke; [reflexivity | intros; reflexivity]
  | |- at_most _ _ (attempt _ _) => unfold attempt
  | |- at_most _ _ (until_deadline _ _) =>
    apply at_most_until_deadline; [reflexivity | intros; reflexivity | intros; appends |]
  | |- at_most _ _ (try_except _ _ _) => apply at_most_try
  | |- at_most _ _ (try_finally _ _) => apply at_most_finally
  | |- at_most _ _ (note _) => apply at_most_note; reflexivity
  | |- at_most _ _ (update_store _ _) => apply at_most_update_store; intros; reflexivity
  | |- at_most _ _ get_store => apply at_most_get_store
  | |- at_most _ _ (put_store _) => apply at_most_put_store
  | |- at_most _ _ get_last_progress => apply at_most_get_last_progress
  | |- at_most _ _ get_retries => apply at_most_get_retries
  | |- at_most _ _ (set_last_progress _) => apply at_most_set_last_progress
  | |- at_most _ _ (set_retries _) => apply at_most_set_retries
  | |- at_most _ _ (let _ := _ in _) => cbv zeta
  | |- at_most _ _ (match ?x with _ => _ end) => destruct x
  | |- at_most _ _ _ => solve [auto 2 with counting nocore]
  end).
(** No exhaustion of fuel. *)
Ltac safes :=
  repeat (intros; lazymatch goal with
  | |- safe (_ ≫= _) => apply safe_bind
  | |- safe (mret _) => apply safe_ret
  | |- safe (throw _ _) => apply safe_throw; discriminate
  | |- safe (lift _) => apply safe_lift; solve [auto 2 with safe nocore | res_oks; auto with safe]
  | |- safe (ask _) => apply safe_ask
  | |- safe (invoke _) => apply safe_invoke
  | |- safe (attempt _ _) => unfold attempt
  | |- safe (ask_calling _ _) => apply safe_ask_calling; [intros; appends |]
  | |- safe (until_deadline _ _) => apply safe_until_deadline; [intros; appends |]
  | |- safe (try_except _ _ _) => apply safe_try
  | |- safe (try_finally _ _) => apply safe_finally
  | |- safe (suppress _) => apply safe_suppress
  | |- safe (on_error _ _) => apply safe_on_error
  | |- safe (note _) => apply safe_note
  | |- safe (update_store _ _) => apply safe_update_store
  | |- safe get_store => apply safe_get_store
  | |- safe (put_store _) => apply safe_put_store
  | |- safe get_last_progress => apply safe_get_last_progress
  | |- safe get_retries => apply safe_get_retries
  | |- safe (set_last_progress _) => apply safe_set_last_progress
  | |- safe (set_retries _) => apply safe_set_retries
  | |- safe (let _ := _ in _) => cbv zeta
  | |- safe (match ?x with _ => _ end) => destruct x
  | |- safe _ => solve [auto 2 with safe nocore]
  end).

(** ** The built-ins raise no exhaustion *)

Lemma subscript_ok d key : res_ok (subscript d key).
Proof. unfold subscript. by case_match. Qed.
Lemma loads_ok v d : res_ok (_loads v d).
Proof. destruct v; [| done]. by apply json_loads_terminates. Qed.
Lemma int_ok `{RuntimeLaws} v : res_ok (int v).
Proof. unfold int, py_int. destruct v; try done; simpl; (destruct (int_other _) eqn:E; [done | by apply int_other_ok, conversion_error in E as []]). Qed.
#[export] Hint Resolve subscript_ok loads_ok int_ok : safe.
