(* ===== verification/Calls.v ===== *)
(** * Which calls a workflow makes

    [emits P Q m]: every call of a run of [m] satisfies [P], and the value it
    returns, if it returns, satisfies [Q].  The rules follow the structure of a
    computation; nothing is said of how often a call is made, so loops need no
    measure. *)
From S2P Require Import Prelude Value Effects Store Runtime Workflow.

Definition call_in (P : call → Prop) (e : event) : Prop := match e with Called c => P c | _ => True end.

Section emits.
Context {W : Type} {HW : World W event} (P : call → Prop).
Local Abbreviation M := (Eff W).

Definition emits {A} (Q : A → Prop) (m : M A) : Prop := ∀ s,
  (∃ t, trace_of (snd (m s)) = trace_of s ++ t ∧ Forall (call_in P) t)
  ∧ ∀ a, fst (m s) = Done a → Q a.
Local Abbreviation only := (emits (λ _, True)).

Lemma emits_mono {A} (Q R : A → Prop) (m : M A) : emits Q m → (∀ a, Q a → R a) → emits R m.
Proof. intros Hm HQ s. destruct (Hm s) as [Ht Ha]. auto. Qed.
Lemma emits_only {A} (Q : A → Prop) (m : M A) : emits Q m → only m.
Proof. intros Hm. by eapply emits_mono. Qed.

Lemma emits_ret {A} (Q : A → Prop) (a : A) : Q a → emits Q (mret a).
Proof. intros Ha s. split; [exists []; by rewrite app_nil_r | by intros ? [= <-]]. Qed.
Lemma emits_lift {A} (Q : A → Prop) (r : res A) : (∀ a, r = Ok a → Q a) → emits Q (lift r).
Proof.
  intros Hr s. split; [exists []; unfold lift; destruct r; simpl; by rewrite app_nil_r |].
  unfold lift. destruct r as [a|e]; intros b Hb; simpl in Hb; [| done]. injection Hb as <-. by apply Hr.
Qed.
Lemma emits_throw {A} (Q : A → Prop) c msg : emits Q (throw c msg).
Proof. by apply emits_lift. Qed.

Lemma emits_bind {A B} (R : A → Prop) (Q : B → Prop) (m : M A) (f : A → M B) :
  emits R m → (∀ a, R a → emits Q (f a)) → emits Q (m ≫= f).
Proof.
  intros Hm Hf s. destruct (Hm s) as [(t & Ht & HP) Ha]. unfold mbind, Eff_bind.
  destruct (m s) as [[a|e|] s1]; simpl in *; [| split; [by exists t | done] ..].
  destruct (Hf a (Ha a eq_refl) s1) as [(u & Hu & HP') Hb]. split; [| exact Hb].
  exists (t ++ u). rewrite Hu, Ht, app_assoc. split; [done | by apply Forall_app].
Qed.
Lemma emits_after {A B} (Q : B → Prop) (m : M A) (f : A → M B) : only m → (∀ a, emits Q (f a)) → emits Q (m ≫= f).
Proof. intros Hm Hf. eapply emits_bind; [exact Hm |]. auto. Qed.
Lemma emits_lift_bind {A B} (Q : B → Prop) (r : res A) (f : A → M B) :
  (∀ a, r = Ok a → emits Q (f a)) → emits Q (lift r ≫= f).
Proof. intros Hf. apply (emits_bind (λ a, r = Ok a)); [by apply emits_lift | exact Hf]. Qed.

Lemma emits_try {A} (Q : A → Prop) (m : M A) cs h : emits Q m → (∀ e, emits Q (h e)) → emits Q (try_except m cs h).
Proof.
  intros Hm Hh s. destruct (Hm s) as [(t & Ht & HP) Ha]. unfold try_except.
  destruct (m s) as [[a|e|] s1]; simpl in *; [split; [by exists t | done] | | split; [by exists t | done]].
  destruct (catches cs e); [| split; [by exists t | done]].
  destruct (Hh e s1) as [(u & Hu & HP') Hb]. split; [| exact Hb].
  exists (t ++ u). rewrite Hu, Ht, app_assoc. split; [done | by apply Forall_app].
Qed.
Lemma emits_finally {A} (Q : A → Prop) (m : M A) fin : emits Q m → only fin → emits Q (try_finally m fin).
Proof.
  intros Hm Hf s. destruct (Hm s) as [(t & Ht & HP) Ha].
  assert (Hk : ∀ k : M A, emits Q k → ∀ s1, trace_of s1 = trace_of s ++ t →
    (∃ t', trace_of (snd ((_ ← fin; k) s1)) = trace_of s ++ t' ∧ Forall (call_in P) t')
    ∧ ∀ a, fst ((_ ← fin; k) s1) = Done a → Q a).
  { intros k Hk s1 Hs1. destruct (emits_after Q fin (λ _, k) Hf (λ _, Hk) s1) as [(u & Hu & HP') Hb].
    split; [| exact Hb]. exists (t ++ u). rewrite Hu, Hs1, app_assoc. split; [done | by apply Forall_app]. }
  unfold try_finally. destruct (m s) as [[a|e|] s1]; simpl in Ht, Ha.
  - apply Hk; [| done]. apply emits_ret. by apply Ha.
  - apply Hk; [| done]. by apply emits_lift.
  - split; [by exists t | done].
Qed.
Lemma only_suppress {A} (m : M A) : only m → only (suppress m).
Proof. intros Hm. apply emits_try; [apply emits_after; [done |] |]; intros; by apply emits_ret. Qed.
Lemma emits_on_error {A} (Q : A → Prop) (m : M A) cleanup : emits Q m → only cleanup → emits Q (on_error m cleanup).
Proof. intros Hm Hc. apply emits_try; [done |]. intros e. apply emits_after; [done |]. intros _. by apply emits_lift. Qed.

Lemma emits_while {S} (I : S → Prop) (cond : S → bool) body st :
  I st → (∀ st, I st → emits I (body st)) → emits I (while cond body st).
Proof.
  intros HI Hb s. enough (∀ fuel st, I st → emits I (while_fuel fuel cond body st)) as Hloop by by apply Hloop.
  clear st s HI. induction fuel as [|fuel IH]; intros st HI; cbn [while_fuel]; [apply emits_throw |].
  destruct (cond st); [| by apply emits_ret].
  apply (emits_bind I); [by apply Hb | exact IH].
Qed.
Lemma only_while {S} (cond : S → bool) body (st : S) : (∀ st, only (body st)) → only (while cond body st).
Proof. intros Hb. apply (emits_while (λ _, True)); [done | intros st' _; apply Hb]. Qed.
End emits.

Abbreviation only P := (emits P (λ _, True)).

Section workflow_calls.
Context (P : call → Prop).

Lemma only_note e : call_in P e → only P (note e).
Proof. intros He w. split; [| done]. exists [e]. by repeat constructor. Qed.
(** A computation that makes no call. *)
Lemma only_silent {A} (m : W A) : (∀ w, w_trace (snd (m w)) = w_trace w) → only P m.
Proof. intros Hm w. split; [| done]. exists []. rewrite app_nil_r. split; [apply Hm | done]. Qed.
Lemma only_answered {A} `{Reply A} b c : only P (answered (A:=A) b c).
Proof.
  intros w. split; [| done]. unfold answered. destruct (w_script w) as [|a rest]; [by exists []; rewrite app_nil_r |].
  exists [Replied c (show_reply (an_get a))]. split; [| by repeat constructor]. unfold lift. by destruct (an_get a).
Qed.
Lemma only_ask {A} `{Reply A} c : P c → only P (ask (A:=A) c).
Proof. intros Hc. apply emits_after; [by apply only_note | intros; apply only_answered]. Qed.
Lemma only_invoke {A} `{Reply A} c : P c → only P (invoke (A:=A) c).
Proof. intros Hc. apply emits_after; [by apply only_note | intros; apply only_answered]. Qed.
Lemma only_pending {A} `{Reply A} c : only P (pending (A:=A) c).
Proof.
  intros w. split; [| done]. unfold pending. destruct (w_script w) as [|a rest]; [by exists []; rewrite app_nil_r |].
  destruct (an_callback a) as [p|]; [exists [CalledBack p] | exists [Replied c (show_reply (an_get a))]]; by repeat constructor.
Qed.
Lemma only_update_store {A} (method : GatewayStore → GatewayStore * res A) what : only P (update_store method what).
Proof.
  apply emits_after; [by apply only_silent | intros s]. destruct (method s) as [s' r].
  apply emits_after; [by apply only_silent | intros _]. destruct r; [| by apply emits_lift].
  apply emits_after; [by apply only_note | intros; by apply emits_ret].
Qed.
Lemma only_ask_calling {A} `{Reply A} c callback :
  P c → (∀ p, only P (callback p)) → only P (ask_calling (A:=A) c callback).
Proof.
  intros Hc Hcb. apply emits_after; [by apply only_note | intros _]. apply emits_after.
  - apply only_while. intros _. apply emits_after; [apply only_pending |]. intros [p|r]; [| by apply emits_ret].
    apply emits_after; [| intros; by apply emits_ret]. apply emits_try; [apply Hcb | intros; by apply emits_ret].
  - intros [r|]; by apply emits_lift.
Qed.
Lemma only_until_deadline {S B} (body : S → W (S + B)) st :
  P BeforeDeadline → (∀ st, only P (body st)) → only P (until_deadline body st).
Proof.
  intros Hd Hb. apply emits_after; [| intros; by apply emits_ret]. apply only_while.
  intros [st'| |]; try by apply emits_ret. apply emits_after; [by apply only_invoke |].
  intros []; [| by apply emits_ret]. apply emits_after; [apply Hb | intros; by apply emits_ret].
Qed.
End workflow_calls.

(** Follow the structure of a workflow down to its calls. *)
Create HintDb calls.
Ltac onlys :=
  repeat (intros; lazymatch goal with
  | |- emits _ _ (_ ≫= _) => apply emits_after
  | |- emits _ _ (mret _) => by apply emits_ret
  | |- emits _ _ (lift _) => by apply emits_lift
  | |- emits _ _ (throw _ _) => by apply emits_lift
  | |- emits _ _ (ask _) => apply only_ask; first [exact I | reflexivity | idtac]
  | |- emits _ _ (invoke _) => apply only_invoke; first [exact I | reflexivity | idtac]
  | |- emits _ _ (attempt _ _) => unfold attempt
  | |- emits _ _ (ask_calling _ _) => apply only_ask_calling; [first [exact I | reflexivity | idtac] |]
  | |- emits _ _ (until_deadline _ _) => apply only_until_deadline; [first [exact I | reflexivity | idtac] |]
  | |- emits _ _ (while _ _ _) => apply only_while
  | |- emits _ _ (try_except _ _ _) => apply emits_try
  | |- emits _ _ (try_finally _ _) => apply emits_finally
  | |- emits _ _ (suppress _) => apply only_suppress
  | |- emits _ _ (on_error _ _) => apply emits_on_error
  | |- emits _ _ (note _) => by apply only_note
  | |- emits _ _ (update_store _ _) => apply only_update_store
  | |- emits _ _ get_store => by apply only_silent
  | |- emits _ _ (put_store _) => by apply only_silent
  | |- emits _ _ get_last_progress => by apply only_silent
  | |- emits _ _ get_retries => by apply only_silent
  | |- emits _ _ (set_last_progress _) => by apply only_silent
  | |- emits _ _ (set_retries _) => by apply only_silent
  | |- emits _ _ (let _ := _ in _) => cbv zeta
  | |- emits _ _ (match ?x with _ => _ end) => destruct x
  | |- emits _ _ _ => solve [auto 2 with calls nocore]
  end).
