(* ===== verification/Uuid.v ===== *)
(** * Operation ids on the wire

    A system update carries its operation id as sixteen bytes:
    [uuid.UUID(operation_id).bytes], or [uuid.uuid5(NAMESPACE_URL,
    operation_id).bytes] if the id is not the text of a UUID
    ([system_update_workflow.py], [reconciliation.py]).  The functions of
    Python's [uuid] module, [int(text, 16)] and SHA-1 (FIPS 180-4), for ASCII
    texts. *)
From S2P Require Import Prelude Text Sha256 Value Store Observability Runtime.

(** ** SHA-1 *)

Definition rotl (n x : Z) : Z := w32 (Z.lor (Z.shiftl x n) (Z.shiftr x (32 - n))).

Fixpoint sha1_extend (n : nat) (w : list Z) : list Z :=
  match n with
  | O => w
  | S m =>
    let at_ i := nth i w 0 in
    sha1_extend m (rotl 1 (Z.lxor (Z.lxor (at_ 2%nat) (at_ 7%nat)) (Z.lxor (at_ 13%nat) (at_ 15%nat))) :: w)
  end.

(** The function and the constant of round [t]. *)
Definition sha1_f (t b c d : Z) : Z * Z :=
  if t <? 20 then (Z.lor (Z.land b c) (Z.land (Z.lxor b 0xFFFFFFFF) d), 0x5A827999)
  else if t <? 40 then (Z.lxor (Z.lxor b c) d, 0x6ED9EBA1)
  else if t <? 60 then (Z.lor (Z.lor (Z.land b c) (Z.land b d)) (Z.land c d), 0x8F1BBCDC)
  else (Z.lxor (Z.lxor b c) d, 0xCA62C1D6).

Definition sha1_round (s : Z * (Z * Z * Z * Z * Z)) (w : Z) : Z * (Z * Z * Z * Z * Z) :=
  let '(t, (a, b, c, d, e)) := s in
  let '(f, k) := sha1_f t b c d in
  (t + 1, (w32 (rotl 5 a + f + e + k + w), a, rotl 30 b, c, d)).

Definition sha1_block (h : Z * Z * Z * Z * Z) (words : list Z) : Z * Z * Z * Z * Z :=
  let '(_, (a, b, c, d, e)) := fold_left sha1_round (rev (sha1_extend 64 (rev words))) (0, h) in
  let '(h0, h1, h2, h3, h4) := h in
  (w32 (h0 + a), w32 (h1 + b), w32 (h2 + c), w32 (h3 + d), w32 (h4 + e)).

Fixpoint sha1_blocks (n : nat) (h : Z * Z * Z * Z * Z) (words : list Z) : Z * Z * Z * Z * Z :=
  match n with
  | O => h
  | S m => sha1_blocks m (sha1_block h (take 16 words)) (drop 16 words)
  end.

Definition sha1 (m : bytes) : bytes :=
  let p := sha_pad m in
  let '(a, b, c, d, e) := sha1_blocks (Z.to_nat (zlen p / 64))
    (0x67452301, 0xEFCDAB89, 0x98BADCFE, 0x10325476, 0xC3D2E1F0) (be_words p) in
  concat (map (be_encode 4) [a; b; c; d; e]).

(** ** [int(text, 16)] *)

Fixpoint lstrip (p : ascii → bool) (s : string) : string :=
  match s with String a t => if p a then lstrip p t else s | EmptyString => s end.
Fixpoint rstrip (p : ascii → bool) (s : string) : string :=
  match s with
  | EmptyString => s
  | String a t => match rstrip p t with
                  | EmptyString => if p a then EmptyString else String a EmptyString
                  | t' => String a t'
                  end
  end.
Definition strip (p : ascii → bool) (s : string) : string := rstrip p (lstrip p s).

(** Digits with single underscores between them; [last] is whether the last
    character was a digit. *)
Fixpoint hex_digits (s : string) (last : bool) (acc : Z) : option Z :=
  match s with
  | EmptyString => if last then Some acc else None
  | String a t =>
    match hex_value a with
    | Some d => hex_digits t true (16 * acc + d)
    | None => if Ascii.eqb a "_" && last then hex_digits t false acc else None
    end
  end.
Definition drop_underscore (s : string) : string :=
  match s with String a t => if Ascii.eqb a "_" then t else s | EmptyString => s end.
Definition hex_magnitude (s : string) : option Z :=
  match s with
  | String a (String x t) =>
    if Ascii.eqb a "0" && (Ascii.eqb x "x" || Ascii.eqb x "X") then hex_digits (drop_underscore t) false 0
    else hex_digits s false 0
  | s => hex_digits s false 0
  end.
Definition int16 (s : string) : option Z :=
  match strip is_space s with
  | String a t as s =>
    if Ascii.eqb a "-" then z ← hex_magnitude t; Some (- z)
    else if Ascii.eqb a "+" then hex_magnitude t
    else hex_magnitude s
  | EmptyString => None
  end.

(** ** UUIDs *)

(** [s.replace(pat, "")] *)
Fixpoint remove_all_fuel (n : nat) (pat s : string) : string :=
  match n, s with
  | S n, String a t =>
    if String.prefix pat s then remove_all_fuel n pat (substring (String.length pat) (String.length s) s)
    else String a (remove_all_fuel n pat t)
  | _, _ => s
  end.
Definition remove_all (pat s : string) : string := remove_all_fuel (S (String.length s)) pat s.

Definition is_brace (a : ascii) : bool := Ascii.eqb a "{" || Ascii.eqb a "}".
Definition uuid_digits (s : string) : string :=
  remove_all "-" (strip is_brace (remove_all "uuid:" (remove_all "urn:" s))).

Section uuid.
Context `{Runtime}.

(** [uuid.UUID(s).bytes] *)
Definition uuid_bytes (s : string) : res bytes :=
  if negb (str_is_ascii s) then uuid_other s
  else
    let digits := uuid_digits s in
    if negb (String.length digits =? 32)%nat then raise ValueError "badly formed hexadecimal UUID string"
    else match int16 digits with
         | None => raise ValueError "invalid literal for int() with base 16"
         | Some z => if (0 <=? z) && (z <? 2 ^ 128) then Ok (be_encode 16 z)
                     else raise ValueError "int is out of range (need a 128-bit value)"
         end.
End uuid.

Definition NAMESPACE_URL : bytes :=
  Eval vm_compute in of_hex "6ba7b8119dad11d180b400c04fd430c8".

(** [uuid.uuid5(NAMESPACE_URL, name).bytes]: version 5, RFC 4122 variant. *)
Definition set_version (digest : bytes) : bytes :=
  take 6 digest ++ [Z.lor (Z.land (byte_at digest 6) 0x0F) 0x50] ++ slice 7 8 digest
  ++ [Z.lor (Z.land (byte_at digest 8) 0x3F) 0x80] ++ slice 9 16 digest.
Definition uuid5_url (name : string) : res bytes :=
  data ← encode_utf8 name; Ok (set_version (sha1 (NAMESPACE_URL ++ data))).

(** The wire form of an operation id. *)
Definition wire_operation_id `{Runtime} (operation_id : string) : res bytes :=
  match uuid_bytes operation_id with
  | Err e => if catches [ValueError] e then uuid5_url operation_id else Err e
  | r => r
  end.

Example sha1_abc : hex (sha1 (str_encode "abc")) = "a9993e364706816aba3e25717850c26c9cd0d89d"%string.
Proof. vm_compute. reflexivity. Qed.
Example uuid5_example : uuid5_url "operation-1" = Ok (of_hex "a6e7eb681f2556928a0332336c858ff9").
Proof. vm_compute. reflexivity. Qed.
Example uuid_examples :
  map (λ s, match @uuid_bytes plain_runtime s with Ok b => hex b | Err _ => ""%string end)
    ["urn:uuid:{12345678-1234-5678-1234-567812345678}"; "  0x1111111111111111111111111111";
     "0x_aaaaaaaaaaaaaaaaaaaaaaaaaaaaa"; "1_1_1_1_1_1_1_1_1_1_1_1_1_1_1_11"; "1_1_1_1_1_1_1_1_1_1_1_1_1_1_1_1_"]%string
  = ["12345678123456781234567812345678"; "00001111111111111111111111111111";
     "000aaaaaaaaaaaaaaaaaaaaaaaaaaaaa"; "00000000000000011111111111111111"; ""]%string.
Proof. vm_compute. reflexivity. Qed.
