(* ===== verification/Reconciliation.v ===== *)
(** * Reconciliation of uncertain operations ([reconciliation.py])

    An operation whose outcome is unknown is never run again: it is compared
    with what the device shows now, and the comparison is recorded beside the
    operation. *)
From Stdlib Require Import Floats.SpecFloat.
From S2P Require Import Prelude Text Value Json JsonDump Effects Store Observability Security Runtime Uuid Workflow.

Section reconciliation.
Context `{Runtime}.

Definition seconds_of (status : dict) (override : option pyval) : res float :=
  match override with
  | Some v => py_float v
  | None => ms ← py_float (get_or "health_timeout_ms" (PInt 45000) status);
            Ok (SFdiv 53 1024 ms (float_of_int 1000))
  end.
Definition health_timeout (status : dict) (override : option pyval) : res float :=
  seconds ← seconds_of status override;
  if negb (is_finite seconds) || negb (SFleb (float_of_int 1) seconds && SFleb seconds (float_of_int 600))
  then raise ValueError "OTA health timeout must be between 1 and 600 seconds"
  else Ok seconds.

(** ** Records *)

Definition reconciliation_records (s : GatewayStore) (operation_id : string) : res (list pyval) :=
  match operation s operation_id with
  | None => raise KeyError operation_id
  | Some _ => mapM (λ r, json_loads plain_object (snd r))
                (filter (λ r, (snd (fst r) =? operation_id)%string = true) (st_reconciliations s))
  end.

(** [json.dumps(record, ensure_ascii=False)], with the default separators. *)
Definition join_spaced (l : list bytes) : bytes :=
  match l with [] => [] | x :: l => x ++ concat (map (app [44; 32]) l) end.
Fixpoint dump_spaced (v : pyval) : bytes :=
  match v with
  | PList l => [91] ++ join_spaced (map dump_spaced l) ++ [93]
  | PDict d => [123] ++ join_spaced (map (λ '(k, v), string_text k ++ [58; 32] ++ dump_spaced v) d) ++ [125]
  | v => dump v
  end.

Definition insert_reconciliation (reconciliation_id operation_id : string) (record : dict) (s : GatewayStore)
    : GatewayStore * res unit :=
  if existsb (λ r, (fst (fst r) =? reconciliation_id)%string) (st_reconciliations s)
  then (s, raise IntegrityError "UNIQUE constraint failed: operation_reconciliations.reconciliation_id")
  else (set_reconciliations (st_reconciliations s
          ++ [(reconciliation_id, operation_id, bytes_str (dump_spaced (PDict record)))]) s, Ok tt).

(** [type(exc).__name__] *)
Definition class_name (c : exn_class) : string :=
  match c with
  | BaseException => "BaseException" | CancelledError => "CancelledError" | Exception_ => "Exception"
  | ValueError => "ValueError" | ProtocolError => "ProtocolError" | StateTransitionError => "StateTransitionError"
  | UnicodeDecodeError => "UnicodeDecodeError" | UnicodeEncodeError => "UnicodeEncodeError"
  | TypeError => "TypeError" | LookupError => "LookupError" | KeyError => "KeyError" | IndexError => "IndexError"
  | RuntimeError => "RuntimeError" | FileServiceError => "FileServiceError"
  | OperationCancelled => "OperationCancelled" | OperationOutcomeUnknown => "OperationOutcomeUnknown"
  | OperationConflict => "OperationConflict" | DeviceMaintenance => "DeviceMaintenance"
  | OSError => "OSError" | TimeoutError => "TimeoutError" | ConnectionError => "ConnectionError"
  | FileExistsError => "FileExistsError" | PermissionError => "PermissionError" | BadZipFile => "BadZipFile"
  | JSONDecodeError => "JSONDecodeError" | InvalidSignature => "InvalidSignature"
  | AssertionError => "AssertionError" | StructError => "error" | IntegrityError => "IntegrityError"
  | OperationalError => "OperationalError" | AttributeError => "AttributeError"
  | OverflowError => "OverflowError" | HTTPException => "HTTPException" | QueueFull => "QueueFull"
  | NonTermination => "NonTermination"
  end.

(** ** What the components show *)

Definition bundle_of (params : pyval) : res dict := d ← as_dict params; as_dict (get_or "bundle" (PDict []) d).

(** An application or Recovery image: its BIN digest binds the ELF and project
    identity captured before the write. *)
Definition image_matches (component : dict) (target : pyval) (status : dict) : res bool :=
  expected ← or_dict target;
  Ok (truthy (dict_get "elf_sha256" expected) && truthy (dict_get "sha256" component)
      && py_eq (dict_get "sha256" expected) (dict_get "sha256" component)
      && py_eq (dict_get "project_name" status) (dict_get "project_name" expected)
      && (lower (str (get_or "firmware_sha256" (PStr "") status)) =? lower (str (dict_get "elf_sha256" expected)))%string).

Definition component_matches (component progress status inventory : dict) : res bool :=
  let kind := dict_get "kind" component in
  if is_str kind "bootloader" then
    let expected := dict_get "sha256" component in
    Ok (truthy expected && py_eq (dict_get "bootloader_sha256" inventory) expected)
  else if is_str kind "application" then image_matches component (dict_get "target_application" progress) status
  else if is_str kind "recovery" then image_matches component (dict_get "target_recovery" progress) status
  else Ok true.

Fixpoint components_match (components : list pyval) (progress status inventory : dict) : res bool :=
  match components with
  | [] => Ok true
  | c :: components =>
    component ← as_dict c;
    matches ← component_matches component progress status inventory;
    if matches : bool then components_match components progress status inventory else Ok false
  end.

Definition _target_components_match (params : pyval) (progress status inventory : dict) : res bool :=
  bundle ← bundle_of params;
  match dict_get "components" bundle with
  | PList components => components_match components progress status inventory
  | _ => Ok false
  end.

(** [any(item.get("kind") == "recovery" for item in components)] *)
Fixpoint any_recovery (components : list pyval) : res bool :=
  match components with
  | [] => Ok false
  | c :: components =>
    item ← as_dict c;
    if is_str (dict_get "kind" item) "recovery" then Ok true else any_recovery components
  end.
Definition expects_recovery (components : pyval) : res bool :=
  match components with
  | PList l => any_recovery l
  | PDict [] | PStr EmptyString => Ok false
  | PDict _ | PStr _ => raise AttributeError "'str' object has no attribute 'get'"
  | _ => raise TypeError "object is not iterable"
  end.

(** ** One reconciliation *)

Definition LIVE_ERRORS : list exn_class := [OSError; ConnectionError; LookupError; RuntimeError; TimeoutError].

(** From here on, a live observation that fails leaves [record], with a reason. *)
Definition observing (record : dict) (m : W dict) : W dict :=
  try_except m LIVE_ERRORS (λ e, mret (dict_set "reason"
    (PStr ("live observation unavailable: " ++ class_name (exn_cls e))) record)).

Definition evidence_of (record : dict) : dict := as_object (dict_get "evidence" record).
Definition add_evidence (key : string) (v : pyval) (record : dict) : dict :=
  dict_set "evidence" (PDict (dict_set key v (evidence_of record))) record.
Definition conclude (outcome reason : string) (record : dict) : dict :=
  dict_set "reason" (PStr reason) (dict_set "outcome" (PStr outcome) record).

Definition latest_device_events (device_id : string) : W (list dict) :=
  s ← get_store;
  events ← lift (latest_events (Some device_id) ["device"%string] 5000 s);
  _ ← note (ReadEvents device_id events);
  mret events.

(** The last HEALTHY event of the boot since the operation was created. *)
Definition is_healthy (boot : pyval) (created_ns : Z) (event : dict) : bool :=
  is_str (dict_get "event_name" event) "healthy" && py_eq (dict_get "boot_id" event) boot
  && match dict_get "host_receive_ns" event with PInt ns => created_ns <=? ns | _ => false end.
Definition last_healthy (boot : pyval) (created_ns : Z) (events : list dict) : option dict :=
  find (is_healthy boot created_ns) (rev events).

(** The firmware the device runs is the image's, by content. *)
Definition runs_image (status image : dict) : bool :=
  truthy (dict_get "elf_sha256" image)
  && (lower (str (get_or "firmware_sha256" (PStr "") status)) =? lower (str (dict_get "elf_sha256" image)))%string
  && py_eq (dict_get "project_name" status) (dict_get "project_name" image).

Definition on_new_boot (boot writer_boot : pyval) : bool :=
  negb (is_none writer_boot) && negb (py_eq boot writer_boot).

Definition reconcile_ota (status : dict) (params : pyval) (healthy : option dict) (boot writer_boot : pyval) (record : dict)
    : res dict :=
  params ← as_dict params;
  image ← as_dict (get_or "image" (PDict []) params);
  Ok (if runs_image status image && negb (bool_decide (healthy = None))
         && is_str (dict_get "firmware_mode" status) "normal" && on_new_boot boot writer_boot
      then conclude "observed_success" "expected firmware is healthy on a new boot" record else record).

Definition judge_update (operation_id : string) (params : pyval) (progress status inventory after : dict)
    (healthy : option dict) (boot writer_boot : pyval) (record : dict) : res dict :=
  wire_id ← wire_operation_id operation_id;
  let receipt_matches := py_eq (dict_get "last_operation_id" inventory) (PStr (hex wire_id)) in
  bundle ← bundle_of params;
  recovery ← expects_recovery (get_or "components" (PList []) bundle);
  let expected_mode := if recovery : bool then "recovery"%string else "normal"%string in
  let last_result := dict_get "last_result" inventory in
  if receipt_matches && negb (is_none last_result) && negb (py_eq last_result (PInt 0))
  then Ok (conclude "observed_failure" "matching device receipt reports failure" record)
  else if receipt_matches && py_eq last_result (PInt 0) && negb (bool_decide (healthy = None))
          && is_str (dict_get "firmware_mode" status) expected_mode
          && is_str (dict_get "firmware_mode" after) expected_mode && on_new_boot boot writer_boot
          && py_eq (dict_get "partition_table_sha256" inventory) (dict_get "target_layout_sha256" bundle)
  then
    matches ← _target_components_match params progress after inventory;
    Ok (if matches : bool then
          conclude "observed_success" "matching commit receipt, layout and healthy new boot"
            (add_evidence "target_recovery" (dict_get "target_recovery" progress)
               (add_evidence "target_application" (dict_get "target_application" progress) record))
        else record)
  else Ok record.

Definition reconcile_update (operation_id device_id : string) (params : pyval) (progress status : dict)
    (healthy : option dict) (boot writer_boot : pyval) (record : dict) : W dict :=
  inventory ← ask (A:=dict) (SystemUpdateInventory device_id);
  let record := add_evidence "inventory" (PDict inventory) record in
  observing record (
    after ← ask (A:=dict) (Status device_id);
    let record := add_evidence "status_after_inventory" (PDict after) record in
    observing record (
      if negb (py_eq (dict_get "device_id" after) (PStr device_id)) || negb (py_eq (dict_get "boot_id" after) boot)
      then throw RuntimeError "device rebooted during inventory observation"
      else lift (judge_update operation_id params progress status inventory after healthy boot writer_boot record))).

(** What follows a status of the right device. *)
Definition reconcile_status (row : operation_row) (operation status record : dict) : W dict :=
  let device_id := op_device_id row in
  let boot := dict_get "boot_id" status in
  progress ← lift (or_dict (dict_get "progress" operation));
  let writer_boot := get_or "writer_boot_id" (dict_get "previous_boot_id" progress) progress in
  events ← latest_device_events device_id;
  let healthy := last_healthy boot (op_created_ns row) events in
  let record := match healthy with Some e => add_evidence "healthy_event" (PDict e) record | None => record end in
  observing record (
    let params := dict_get "params" operation in
    if (op_action row =? "firmware.ota")%string
    then lift (reconcile_ota status params healthy boot writer_boot record)
    else if (op_action row =? "firmware.system_update")%string
    then reconcile_update (op_operation_id row) device_id params progress status healthy boot writer_boot record
    else mret (dict_set "reason" (PStr "action has no durable proof contract; live observation retained") record)).

Definition new_record (reconciliation_id : string) (row : operation_row) (actor : Actor) (observed_ns : Z) : dict :=
  [("reconciliation_id", PStr reconciliation_id); ("operation_id", PStr (op_operation_id row));
   ("device_id", PStr (op_device_id row)); ("actor", PDict (actor_as_dict actor)); ("observed_ns", PInt observed_ns);
   ("outcome", PStr "outcome_unknown"); ("replayed", PBool false); ("evidence", PDict []);
   ("reason", PStr "insufficient current evidence")]%string.

Definition observe_device (row : operation_row) (operation record : dict) : W dict :=
  observing record (
    status ← ask (A:=dict) (Status (op_device_id row));
    let record := add_evidence "status" (PDict status) record in
    if negb (py_eq (dict_get "device_id" status) (PStr (op_device_id row))) || is_none (dict_get "boot_id" status)
    then mret (dict_set "reason" (PStr "live device identity is missing or does not match") record)
    else observing record (reconcile_status row operation status record)).

Definition uncertain_states : list string := ["outcome_unknown"; "interrupted"]%string.

Definition reconcile_operation (operation_id : string) (actor : Actor) : W dict :=
  s ← get_store;
  match operation s operation_id with
  | None => throw KeyError operation_id
  | Some row =>
    operation ← lift (_operation_row row);
    if negb (existsb (String.eqb (op_status row)) uncertain_states)
    then throw ValueError "only uncertain or interrupted operations can be reconciled"
    else
      reconciliation_id ← invoke (A:=string) Random;
      observed_ns ← invoke (A:=Z) TimeNs;
      record ← observe_device row operation (new_record reconciliation_id row actor observed_ns);
      _ ← update_store (insert_reconciliation reconciliation_id operation_id record)
            (λ _, WReconciliation reconciliation_id operation_id record);
      mret record
  end.
End reconciliation.
