(* ===== verification/ReconciliationProps.v ===== *)
(** * Properties of reconciliation

    It only reads from the device, records exactly what it returns, and its
    verdicts rest on evidence. *)
From S2P Require Import Prelude Text Value Json JsonDump Effects Compatibility Store Observability Security Runtime Uuid Workflow.
From S2P Require Import Reconciliation.

(** What reconciliation may call: readings of the device, the clock, a new id. *)
Definition is_reading (c : call) : bool :=
  match c with Status _ | SystemUpdateInventory _ | Random | TimeNs => true | _ => false end.
Definition calls_other (e : event) : bool := match e with Called c => negb (is_reading c) | _ => false end.
Definition is_write (e : event) : bool := match e with Wrote _ => true | _ => false end.

Section props.
Context `{Runtime}.

(** ** Only readings, and one record *)

Section quiet.
Context (p : event → bool) (Hreply : ∀ c r, p (Replied c r) = false) (Hread : ∀ d l, p (ReadEvents d l) = false)
  (Hcall : ∀ c, is_reading c = true → p (Called c) = false).

Lemma at_most_reading {A} `{Reply A} c : is_reading c = true → at_most p 0 (ask (A:=A) c).
Proof. intros Hc. apply at_most_ask; auto. Qed.
Lemma observing_quiet record m : at_most p 0 m → at_most p 0 (observing record m).
Proof. intros Hm. apply at_most_try; [done | intros; apply at_most_ret]. Qed.
Lemma latest_events_quiet device_id : at_most p 0 (latest_device_events device_id).
Proof.
  apply at_most_bind; [apply at_most_get_store | intros s]. apply at_most_bind; [apply at_most_lift | intros events].
  apply at_most_bind; [by apply at_most_note | intros; apply at_most_ret].
Qed.
Lemma observe_quiet row operation record : at_most p 0 (observe_device row operation record).
Proof.
  unfold observe_device, reconcile_status, reconcile_update.
  apply observing_quiet. apply at_most_bind; [by apply at_most_reading | intros status]. cbv zeta.
  case_match; [apply at_most_ret |]. apply observing_quiet.
  apply at_most_bind; [apply at_most_lift | intros progress].
  apply at_most_bind; [apply latest_events_quiet | intros events]. apply observing_quiet.
  case_match; [apply at_most_lift |]. case_match; [| apply at_most_ret].
  apply at_most_bind; [by apply at_most_reading | intros inventory]. apply observing_quiet.
  apply at_most_bind; [by apply at_most_reading | intros after]. apply observing_quiet.
  case_match; apply at_most_lift.
Qed.
End quiet.

Lemma observe_calls row operation record : at_most calls_other 0 (observe_device row operation record).
Proof. apply observe_quiet; [done | done |]. intros c Hc. simpl. by rewrite Hc. Qed.
Lemma observe_writes row operation record : at_most is_write 0 (observe_device row operation record).
Proof. by apply observe_quiet. Qed.

(** ** Verdicts *)

Lemma outcome_reason reason record : dict_get "outcome" (dict_set "reason" reason record) = dict_get "outcome" record.
Proof. unfold dict_get. by rewrite dict_lookup_set. Qed.
Lemma outcome_evidence key v record : dict_get "outcome" (add_evidence key v record) = dict_get "outcome" record.
Proof. unfold dict_get, add_evidence. by rewrite dict_lookup_set. Qed.
Lemma outcome_conclude outcome reason record : dict_get "outcome" (conclude outcome reason record) = PStr outcome.
Proof. unfold dict_get, conclude. by rewrite !dict_lookup_set. Qed.

Definition undecided (record : dict) : Prop := dict_get "outcome" record = PStr "outcome_unknown".
(** A verdict of success rests on [P]. *)
Definition verdict (P : list event → Prop) (record : dict) (t : list event) : Prop :=
  dict_get "outcome" record = PStr "observed_success" → P t.
Lemma undecided_verdict P record t : undecided record → verdict P record t.
Proof. unfold undecided, verdict. intros -> [=]. Qed.

Lemma observing_verdict P record m :
  undecided record → returning m (verdict P) → returning (observing record m) (verdict P).
Proof.
  intros Hr Hm. apply returning_try; [done | intros e t]. apply returning_ret. apply undecided_verdict.
  unfold undecided. by rewrite outcome_reason.
Qed.

(** The part of the evidence that both actions share. *)
Record boot_evidence (row : operation_row) (operation status progress : dict) (t : list event) : Prop := {
  be_status : saw (Status (op_device_id row)) status ∈ t;
  be_device : py_eq (dict_get "device_id" status) (PStr (op_device_id row)) = true;
  be_progress : or_dict (dict_get "progress" operation) = Ok progress;
  be_new : on_new_boot (dict_get "boot_id" status)
             (get_or "writer_boot_id" (dict_get "previous_boot_id" progress) progress) = true;
  be_healthy : ∃ events event s, ReadEvents (op_device_id row) events ∈ t
    ∧ latest_events (Some (op_device_id row)) ["device"%string] 5000 s = Ok events
    ∧ event ∈ events ∧ is_healthy (dict_get "boot_id" status) (op_created_ns row) event = true;
}.
(** The image of an application update runs in normal mode. *)
Definition ota_evidence (operation status : dict) : Prop :=
  ∃ params image, as_dict (dict_get "params" operation) = Ok params
    ∧ as_dict (get_or "image" (PDict []) params) = Ok image
    ∧ runs_image status image = true ∧ dict_get "firmware_mode" status = PStr "normal".
(** The receipt, the layout and the components of a system update. *)
Definition update_evidence (row : operation_row) (operation status progress : dict) (t : list event) : Prop :=
  ∃ inventory after wire_id bundle,
    saw (SystemUpdateInventory (op_device_id row)) inventory ∈ t ∧ saw (Status (op_device_id row)) after ∈ t
    ∧ py_eq (dict_get "boot_id" after) (dict_get "boot_id" status) = true
    ∧ wire_operation_id (op_operation_id row) = Ok wire_id
    ∧ py_eq (dict_get "last_operation_id" inventory) (PStr (hex wire_id)) = true
    ∧ py_eq (dict_get "last_result" inventory) (PInt 0) = true
    ∧ bundle_of (dict_get "params" operation) = Ok bundle
    ∧ py_eq (dict_get "partition_table_sha256" inventory) (dict_get "target_layout_sha256" bundle) = true
    ∧ _target_components_match (dict_get "params" operation) progress after inventory = Ok true.

Definition success_evidence (row : operation_row) (operation : dict) (t : list event) : Prop :=
  ∃ status progress, boot_evidence row operation status progress t
    ∧ (op_action row = "firmware.ota"%string ∧ ota_evidence operation status
       ∨ op_action row = "firmware.system_update"%string ∧ update_evidence row operation status progress t).

Lemma boot_evidence_mono row operation status progress t u :
  boot_evidence row operation status progress t → (∀ e, e ∈ t → e ∈ u) → boot_evidence row operation status progress u.
Proof. intros [? ? ? ? (ev & e & s & ? & ?)] Htu. split; auto. exists ev, e, s. auto. Qed.

Lemma last_healthy_Some boot created events event :
  last_healthy boot created events = Some event → event ∈ events ∧ is_healthy boot created event = true.
Proof.
  intros [Hin Hh]%find_some. split; [| done]. apply list_elem_of_In. by apply in_rev.
Qed.

Lemma reconcile_ota_verdict status params healthy boot writer_boot record r :
  undecided record → reconcile_ota status params healthy boot writer_boot record = Ok r →
  dict_get "outcome" r = PStr "observed_success" →
  is_Some healthy ∧ on_new_boot boot writer_boot = true
  ∧ ∃ d image, as_dict params = Ok d ∧ as_dict (get_or "image" (PDict []) d) = Ok image
      ∧ runs_image status image = true ∧ dict_get "firmware_mode" status = PStr "normal".
Proof.
  unfold reconcile_ota. intros Hr Hrun Ho. bind Hrun as d Ed. bind Hrun as image Eimage.
  injection Hrun as <-. destruct (_ && _) eqn:Hc; [| by rewrite Hr in Ho].
  apply andb_true_iff in Hc as [[[Hi Hh]%andb_true_iff Hm%is_str_eq]%andb_true_iff Hb].
  split_and!; [by destruct healthy | done | by exists d, image].
Qed.

Lemma judge_update_verdict operation_id params progress status inventory after healthy boot writer_boot record r :
  undecided record →
  judge_update operation_id params progress status inventory after healthy boot writer_boot record = Ok r →
  dict_get "outcome" r = PStr "observed_success" →
  is_Some healthy ∧ on_new_boot boot writer_boot = true
  ∧ ∃ wire_id bundle, wire_operation_id operation_id = Ok wire_id
      ∧ py_eq (dict_get "last_operation_id" inventory) (PStr (hex wire_id)) = true
      ∧ py_eq (dict_get "last_result" inventory) (PInt 0) = true ∧ bundle_of params = Ok bundle
      ∧ py_eq (dict_get "partition_table_sha256" inventory) (dict_get "target_layout_sha256" bundle) = true
      ∧ _target_components_match params progress after inventory = Ok true.
Proof.
  unfold judge_update. intros Hr Hrun Ho. bind Hrun as wire_id Ewire. bind Hrun as bundle Ebundle.
  bind Hrun as recovery Erecovery. destruct (_ && negb (is_none _) && _).
  { injection Hrun as <-. by rewrite outcome_conclude in Ho. }
  destruct (_ && _) eqn:Hc; [| injection Hrun as <-; by rewrite Hr in Ho].
  bind Hrun as matches Ematches. injection Hrun as <-. destruct matches; [| by rewrite Hr in Ho].
  repeat match goal with H : _ && _ = true |- _ => apply andb_true_iff in H as [? ?] end.
  split_and!; [by destruct healthy | done | by exists wire_id, bundle].
Qed.

Lemma latest_events_seen device_id :
  returning (latest_device_events device_id) (λ events t, t = [ReadEvents device_id events]
    ∧ ∃ s, latest_events (Some device_id) ["device"%string] 5000 s = Ok events).
Proof.
  eapply (returning_bind _ _ (λ _ t, t = [])); [by apply spec_get_store | intros s t ->].
  apply returning_lift_bind. intros events Hev.
  eapply (returning_bind _ _ (λ _ t, t = [ReadEvents device_id events])); [by apply spec_note | intros [] t ->].
  apply returning_ret. split; [done | by exists s].
Qed.

Lemma reconcile_update_verdict row operation status progress healthy writer_boot record t0 :
  let boot := dict_get "boot_id" status in
  undecided record →
  (is_Some healthy → on_new_boot boot writer_boot = true → boot_evidence row operation status progress t0) →
  returning (reconcile_update (op_operation_id row) (op_device_id row) (dict_get "params" operation) progress status
      healthy boot writer_boot record)
    (λ r t, verdict (λ t, boot_evidence row operation status progress (t0 ++ t)
       ∧ update_evidence row operation status progress (t0 ++ t)) r t).
Proof.
  intros boot Hr Hboot. unfold reconcile_update. apply returning_ask_bind. intros inventory. cbv zeta.
  apply (observing_verdict (λ t, boot_evidence row operation status progress (t0 ++ _ :: _ :: t)
    ∧ update_evidence row operation status progress (t0 ++ _ :: _ :: t)));
    [by unfold undecided; rewrite outcome_evidence |].
  apply returning_ask_bind. intros after.
  apply (observing_verdict (λ t, boot_evidence row operation status progress (t0 ++ _ :: _ :: _ :: _ :: t)
    ∧ update_evidence row operation status progress (t0 ++ _ :: _ :: _ :: _ :: t)));
    [by unfold undecided; rewrite !outcome_evidence |].
  destruct (_ || _) eqn:Hid; [apply returning_throw |].
  apply orb_false_iff in Hid as [_ Hb%negb_false_iff]. apply returning_lift. intros r Hrun Ho.
  apply judge_update_verdict in Hrun as (Hh & Hn & wire_id & bundle & ? & ? & ? & ? & ? & ?);
    [| by unfold undecided; rewrite !outcome_evidence | done].
  split.
  - eapply boot_evidence_mono; [by apply Hboot | set_solver].
  - exists inventory, after, wire_id, bundle. split_and!; try done; set_solver.
Qed.

Lemma reconcile_status_verdict row operation status record :
  py_eq (dict_get "device_id" status) (PStr (op_device_id row)) = true → undecided record →
  returning (reconcile_status row operation status record)
    (λ r t, verdict (λ t, success_evidence row operation (saw (Status (op_device_id row)) status :: t)) r t).
Proof.
  intros Hdev Hr. unfold reconcile_status. apply returning_lift_bind. intros progress Hprogress.
  eapply returning_bind; [apply latest_events_seen |]. intros events t [-> [s Hs]]. cbv zeta.
  set (boot := dict_get "boot_id" status). set (writer_boot := get_or _ _ progress).
  set (healthy := last_healthy boot (op_created_ns row) events).
  set (seen := saw (Status (op_device_id row)) status :: [ReadEvents (op_device_id row) events]).
  assert (Hboot : is_Some healthy → on_new_boot boot writer_boot = true →
    boot_evidence row operation status progress seen).
  { intros [event [Hin Hh]%last_healthy_Some] Hn.
    split; [left | done | done | done | exists events, event, s; split_and!; [right; left | done ..]]. }
  set (record' := match healthy with Some e => _ | None => record end).
  assert (Hr' : undecided record') by (unfold undecided, record'; destruct healthy; by rewrite ?outcome_evidence).
  apply (observing_verdict (λ t, success_evidence row operation (seen ++ t))); [done |].
  destruct (String.eqb_spec (op_action row) "firmware.ota") as [Hota | _].
  { apply returning_lift. intros r Hrun Ho. apply reconcile_ota_verdict in Hrun as (Hh & Hn & Hev); [| done | done].
    exists status, progress. split; [by apply Hboot | by left]. }
  destruct (String.eqb_spec (op_action row) "firmware.system_update") as [Hsys | _];
    [| apply returning_ret, undecided_verdict; unfold undecided; by rewrite outcome_reason].
  eapply returning_mono; [by apply (reconcile_update_verdict row operation status progress healthy writer_boot record' seen) |].
  intros r t Hv Ho. destruct (Hv Ho) as [Hb Hu]. exists status, progress. split; [exact Hb | by right].
Qed.

Lemma success_evidence_mono row operation t u :
  success_evidence row operation t → (∀ e, e ∈ t → e ∈ u) → success_evidence row operation u.
Proof.
  intros (status & progress & Hb & Hev) Htu. exists status, progress.
  split; [by eapply boot_evidence_mono |]. destruct Hev as [? | [Ha (i & a & w & b & ? & ? & ?)]]; [by left | right].
  split; [done |]. exists i, a, w, b. split_and!; naive_solver.
Qed.

Lemma observe_verdict row operation record :
  undecided record → returning (observe_device row operation record) (verdict (success_evidence row operation)).
Proof.
  intros Hr. apply observing_verdict; [done |]. apply returning_ask_bind. intros status. cbv zeta.
  destruct (_ || _) eqn:Hid.
  { apply returning_ret, undecided_verdict. unfold undecided. by rewrite outcome_reason, outcome_evidence. }
  apply orb_false_iff in Hid as [Hdev%negb_false_iff _].
  apply (observing_verdict (λ t, success_evidence row operation (_ :: _ :: t)));
    [by unfold undecided; rewrite outcome_evidence |].
  eapply returning_mono; [apply reconcile_status_verdict; [done | by unfold undecided; rewrite outcome_evidence] |].
  intros r t Hv Ho. eapply success_evidence_mono; [by apply Hv | set_solver].
Qed.

(** ** Properties *)

Definition is_reconciliation (row : operation_row) (operation : dict) (operation_id : string) (r : dict)
    (t : list event) : Prop :=
  ∃ u reconciliation_id, t = u ++ [Wrote (WReconciliation reconciliation_id operation_id r)]
    ∧ count is_write u = 0%nat
    ∧ (dict_get "outcome" r = PStr "observed_success" → success_evidence row operation u).

(** The part after the operation was found uncertain. *)
Definition record_observation (row : operation_row) (operation : dict) (operation_id : string) (actor : Actor) : W dict :=
  reconciliation_id ← invoke (A:=string) Random;
  observed_ns ← invoke (A:=Z) TimeNs;
  record ← observe_device row operation (new_record reconciliation_id row actor observed_ns);
  _ ← update_store (insert_reconciliation reconciliation_id operation_id record)
        (λ _, WReconciliation reconciliation_id operation_id record);
  mret record.

Lemma record_observation_spec row operation operation_id actor :
  spec (record_observation row operation operation_id actor) (λ o t, count calls_other t = 0%nat
    ∧ match o with
      | Done r => is_reconciliation row operation operation_id r t
      | _ => count is_write t = 0%nat
      end).
Proof.
  apply spec_bind, spec_invoke; [done |]. intros [reconciliation_id|e]; [| done].
  apply spec_bind, spec_invoke; [done |]. intros [observed_ns|e]; [| done]. simpl.
  set (record := new_record reconciliation_id row actor observed_ns).
  apply spec_bind. eapply spec_mono.
  { apply spec_and; [apply observe_calls | apply spec_and; [apply observe_writes | by apply observe_verdict]]. }
  intros o t (Hc & Hw & Hv). set (u := Called Random :: Replied Random (Ok (RStr reconciliation_id))
    :: Called TimeNs :: Replied TimeNs (Ok (RInt observed_ns)) :: t).
  assert (Hcu : count calls_other u = 0%nat) by (unfold count in *; simpl; lia).
  assert (Hwu : count is_write u = 0%nat) by (unfold count in *; simpl; lia).
  destruct o as [r|e|]; [| done | done]. apply spec_bind, spec_update_store.
  - intros _ [] _. apply spec_ret. rewrite app_nil_r. change (?a :: ?b :: ?c :: ?d :: t ++ ?l) with (u ++ l).
    split; [by rewrite count_app, Hcu |]. exists u, reconciliation_id. split_and!; [done | done |].
    intros Ho. eapply success_evidence_mono; [by apply Hv | set_solver].
  - intros _ e _. by rewrite app_nil_r.
Qed.

(** C16: a reconciliation only reads: its calls are readings of the
    device, of the clock and of the random source.  When it returns, it has
    written the record it returns and nothing else, it was asked for an
    operation that the store holds as uncertain, and a verdict of success rests
    on evidence: a status of the same device on a boot later than the writer's,
    a HEALTHY event of that boot, and the digest of the image (or the device's
    receipt, for a system update).  When it raises, nothing was written. *)
Theorem reconciliation_sound operation_id actor w o w' :
  w_trace w = [] → reconcile_operation operation_id actor w = (o, w') →
  count calls_other (w_trace w') = 0%nat ∧
  match o with
  | Done r => ∃ row operation,
      Store.operation (w_store w) operation_id = Some row ∧ _operation_row row = Ok operation
      ∧ op_status row ∈ uncertain_states ∧ is_reconciliation row operation operation_id r (w_trace w')
  | _ => count is_write (w_trace w') = 0%nat
  end.
Proof.
  intros Hw Hrun. unfold reconcile_operation, mbind at 1, Eff_bind at 1, get_store at 1 in Hrun.
  destruct (Store.operation (w_store w) operation_id) as [row|] eqn:Hrow; cycle 1.
  { injection Hrun as <- <-. by rewrite Hw. }
  unfold mbind at 1, Eff_bind at 1, lift at 1 in Hrun.
  destruct (_operation_row row) as [operation|e] eqn:Hop; cycle 1.
  { injection Hrun as <- <-. by rewrite Hw. }
  destruct (existsb _ _) eqn:Hu; cycle 1.
  { injection Hrun as <- <-. by rewrite Hw. }
  pose proof (spec_run _ _ _ _ _ (record_observation_spec row operation operation_id actor) Hw Hrun) as [Hc Ho].
  split; [done |]. destruct o as [r|e|]; [| done | done]. exists row, operation. split_and!; [done | done | | done].
  apply existsb_exists in Hu as (x & Hin & Heq%String.eqb_eq). rewrite Heq. by apply list_elem_of_In.
Qed.
End props.

(** ** An uncertain update that did happen *)

Definition example_uncertain : operation_row :=
  OperationRow "op" "d" "user" "u" "firmware.ota"
    (_json (PDict [("image", PDict [("elf_sha256", PStr "AB"); ("project_name", PStr "app")])]%string))
    "outcome_unknown" None None 5 None None 0 (Some (_json (PDict [("writer_boot_id", PStr "1")]%string))) None.
Definition example_evidence : GatewayStore :=
  set_operations [example_uncertain]
    (fst (append_event (λ _, Ok 0) "device" [("event_name", PStr "healthy"); ("boot_id", PStr "2")]%string
            (Some "d"%string) 9 "day" 0 GatewayStore_init)).
Definition example_reconciliation_world : world :=
  World_ [unit_answer; int_answer 20;
          dict_answer [("device_id", PStr "d"); ("boot_id", PStr "2"); ("firmware_mode", PStr "normal");
                       ("project_name", PStr "app"); ("firmware_sha256", PStr "ab")]%string]
    example_evidence 0 (0, None) [].
Definition example_reconciliation : outcome dict * world :=
  @reconcile_operation plain_runtime "op" (unrestricted "user" "u") example_reconciliation_world.
Definition returned_dict (o : outcome dict) : dict := match o with Done r => r | _ => [] end.
Lemma reconciliation_sound_witness :
  dict_get "outcome" (returned_dict (fst example_reconciliation)) = PStr "observed_success"
  ∧ count calls_other (w_trace (snd example_reconciliation)) = 0%nat
  ∧ ∃ row operation, Store.operation example_evidence "op" = Some row ∧ _operation_row row = Ok operation
    ∧ op_status row ∈ uncertain_states
    ∧ @is_reconciliation plain_runtime row operation "op" (returned_dict (fst example_reconciliation))
        (w_trace (snd example_reconciliation)).
Proof.
  split; [vm_compute; reflexivity |].
  apply (@reconciliation_sound plain_runtime "op" (unrestricted "user" "u") example_reconciliation_world
    (Done (returned_dict (fst example_reconciliation))) (snd example_reconciliation)); [reflexivity |].
  vm_compute. reflexivity.
Defined.
