(* ===== verification/Coredump.v ===== *)
(** * Preserving core dumps ([gateway.py])

    Before a device is changed its core dump is read out, chunk by chunk, and
    kept as an artifact. *)
From S2P Require Import Prelude Text Sha256 Value Effects Store Runtime Workflow.

Section coredump.
Context `{Runtime}.

(** [report.get("core_dump_present") and report.get("core_dump_valid")] *)
Definition has_core_dump (report : dict) : bool :=
  truthy (dict_get "core_dump_present" report) && truthy (dict_get "core_dump_valid" report).

Definition read_chunk (device_id : string) (report : dict) (total : Z) (data : bytes) : W bytes :=
  chunk_max ← lift (int (get_or "core_dump_chunk_max" (PInt 1024) report));
  returned ← ask (A:=Z * bytes) (ReadCoreDumpChunk device_id (zlen data) (Z.min chunk_max (total - zlen data)));
  let '(returned_total, chunk) := returned : Z * bytes in
  if negb (returned_total =? total) || is_nil chunk
  then throw RuntimeError "coredump preservation stopped before completion"
  else mret (data ++ chunk).

Definition read_core_dump (device_id : string) (report : dict) (total : Z) : W bytes :=
  while (λ data, zlen data <? total) (read_chunk device_id report total) [].

Definition artifact_dict (path : string) (data : bytes) : dict :=
  [("path", PStr path); ("bytes", PInt (zlen data)); ("sha256", PStr (sha256_hex data))]%string.

Definition preserve_coredump (device_id : string) : W (option dict) :=
  report ← ask (A:=dict) (CrashReport device_id);
  if negb (has_core_dump report) then mret None
  else
    total ← lift (size ← subscript report "core_dump_size"; int size);
    data ← read_core_dump device_id report total;
    stamp ← invoke (A:=string) TimeNs;
    path ← update_store (save_artifact device_id "coredump" stamp "bin" data) (λ path, WArtifact path data);
    mret (Some (artifact_dict path data)).

(** ** Properties *)

Lemma read_chunk_replying device_id report total data : replying (read_chunk device_id report total data).
Proof.
  apply replying_lift_bind. intros chunk_max. apply answering_replying, answering_bind; [apply answering_ask |].
  intros []. appends.
Qed.
Lemma read_core_dump_appending device_id report total : appending (read_core_dump device_id report total).
Proof. apply appending_while. intros. apply read_chunk_replying. Qed.
Lemma preserve_coredump_appending device_id : appending (preserve_coredump device_id).
Proof. unfold preserve_coredump. appends. apply read_core_dump_appending. Qed.

Lemma preserve_coredump_safe `{!RuntimeLaws} d : safe (preserve_coredump d).
Proof.
  unfold preserve_coredump, read_core_dump. safes.
  - apply safe_while; [| intros; apply read_chunk_replying]. intros. unfold read_chunk. safes.
  - intros s. unfold save_artifact. by case_match.
Qed.

(** The chunks of a trace, each with the offset it was asked at. *)
Definition chunk_read (device_id : string) (e : event) : option (Z * bytes) :=
  match e with
  | Replied (ReadCoreDumpChunk d offset _) (Ok (RChunk _ chunk)) => if String.eqb d device_id then Some (offset, chunk) else None
  | _ => None
  end.
Definition chunks_read (device_id : string) (t : list event) : list (Z * bytes) := omap (chunk_read device_id) t.

(** Every chunk starts where the ones before it end. *)
Fixpoint contiguous (from : Z) (chunks : list (Z * bytes)) : Prop :=
  match chunks with
  | [] => True
  | (offset, chunk) :: chunks => offset = from ∧ chunk ≠ [] ∧ contiguous (from + zlen chunk) chunks
  end.
Lemma contiguous_app from chunks offset chunk :
  contiguous from chunks → offset = from + zlen (concat (map snd chunks)) → chunk ≠ [] →
  contiguous from (chunks ++ [(offset, chunk)]).
Proof.
  revert from. induction chunks as [|[o c] chunks IH]; intros from Hc Ho Hn; simpl in *.
  - split_and!; [unfold zlen in Ho; simpl in Ho; lia | done | done].
  - destruct Hc as (-> & Hn' & Hc). split_and!; [done | done |]. apply IH; [done | | done].
    rewrite Ho, zlen_app. lia.
Qed.

Lemma read_core_dump_seen device_id report total :
  returning (read_core_dump device_id report total) (λ data t,
    data = concat (map snd (chunks_read device_id t)) ∧ contiguous 0 (chunks_read device_id t)
    ∧ total ≤ zlen data).
Proof.
  apply (spec_while (λ data t, data = concat (map snd (chunks_read device_id t))
    ∧ contiguous 0 (chunks_read device_id t))); [done | |].
  - intros data t [Hd Hc] Hlt. unfold read_chunk. apply spec_bind, spec_lift; [| done]. intros chunk_max _.
    apply spec_bind, spec_ask; [done |]. intros [[returned_total chunk]|e]; simpl; [| done].
    destruct (negb (returned_total =? total) || is_nil chunk) eqn:Hb; [by apply spec_lift |].
    apply orb_false_iff in Hb as [_ Hn]. apply spec_ret.
    assert (Hch : chunks_read device_id (t ++ [Called (ReadCoreDumpChunk device_id (zlen data) (Z.min chunk_max (total - zlen data)));
        Replied (ReadCoreDumpChunk device_id (zlen data) (Z.min chunk_max (total - zlen data))) (Ok (RChunk returned_total chunk))])
      = chunks_read device_id t ++ [(zlen data, chunk)]).
    { unfold chunks_read. rewrite omap_app. simpl. by rewrite String.eqb_refl. }
    split; [| rlia]. change (show_reply (Ok (returned_total, chunk))) with (Ok (RChunk returned_total chunk)).
    rewrite Hch. split.
    + rewrite map_app, concat_app, <- Hd. simpl. by rewrite app_nil_r.
    + apply contiguous_app; [done | by rewrite <- Hd | by destruct chunk].
  - intros data t [Hd Hc] Hge. simpl. split_and!; [done | done |]. apply Z.ltb_ge in Hge. done.
Qed.

(** What the result [r] of preserving rests on. *)
Definition preserved (device_id : string) (r : option dict) (t : list event) : Prop :=
  ∃ report, saw (CrashReport device_id) report ∈ t ∧
  match r with
  | None => has_core_dump report = false ∧ chunks_read device_id t = []
  | Some artifact => has_core_dump report = true ∧
    ∃ path data size total, Wrote (WArtifact path data) ∈ t ∧ artifact = artifact_dict path data
      ∧ data = concat (map snd (chunks_read device_id t)) ∧ contiguous 0 (chunks_read device_id t)
      ∧ subscript report "core_dump_size" = Ok size ∧ int size = Ok total ∧ total ≤ zlen data
  end.

Lemma preserve_coredump_seen device_id : returning (preserve_coredump device_id) (preserved device_id).
Proof.
  apply returning_ask_bind. intros report. destruct (negb _) eqn:Hn.
  { apply returning_ret. exists report. apply negb_true_iff in Hn. split; [right; left | done]. }
  apply negb_false_iff in Hn. apply returning_lift_bind. intros total Htotal.
  apply res_bind_Ok in Htotal as (size & Hsize & Htotal).
  eapply returning_bind; [apply read_core_dump_seen |]. intros data t (Hd & Hc & Hle).
  eapply returning_bind; [apply returning_invoke |]. intros stamp t1 ->.
  eapply returning_bind; [apply returning_update_store |]. intros path t2 [-> _].
  apply returning_ret. exists report. split; [right; left |]. split; [done |].
  exists path, data, size, total.
  match goal with |- context [chunks_read device_id ?u] =>
    assert (chunks_read device_id u = chunks_read device_id t) as ->
      by (unfold chunks_read; simpl; rewrite omap_app; simpl; by rewrite app_nil_r)
  end.
  split_and!; try done. set_solver.
Qed.

(** A preserved core dump is complete: the artifact holds exactly the chunks
    that were read, each at the offset where the one before it ended, from the
    start to the announced size; a report without a valid core dump preserves
    nothing. *)
Theorem coredump_complete device_id w r w' :
  w_trace w = [] → preserve_coredump device_id w = (Done r, w') → preserved device_id r (w_trace w').
Proof. apply returning_run, preserve_coredump_seen. Qed.
End coredump.

Definition example_report : dict :=
  [("core_dump_present", PBool true); ("core_dump_valid", PBool true); ("core_dump_size", PInt 5)]%string.
Definition example_coredump : outcome (option dict) * world :=
  @preserve_coredump plain_runtime "a"
    (World_ [dict_answer example_report; chunk_answer 5 [1; 2; 3]; chunk_answer 5 [4; 5]; unit_answer]
       GatewayStore_init 0 (0, None) []).
Lemma coredump_complete_witness :
  @preserved plain_runtime "a" (match fst example_coredump with Done r => r | _ => None end)
    (w_trace (snd example_coredump))
  ∧ chunks_read "a" (w_trace (snd example_coredump)) = [(0, [1; 2; 3]); (3, [4; 5])].
Proof.
  split; [| vm_compute; reflexivity].
  apply (@coredump_complete plain_runtime "a" (World_ [dict_answer example_report; chunk_answer 5 [1; 2; 3];
    chunk_answer 5 [4; 5]; unit_answer] GatewayStore_init 0 (0, None) [])); [reflexivity | vm_compute; reflexivity].
Defined.
