(* ===== verification/OtaWorkflow.v ===== *)
(** * Closed-loop application updates and restarts ([gateway.py])

    [closed_loop_ota] brings a device into its writer firmware, transfers the
    image, and returns only when the device itself has been seen running it;
    [closed_loop_restart] waits for the device to come back. *)
From S2P Require Import Prelude Text Value Effects Compatibility Store Runtime Workflow Reconciliation.

Section ota.
Context `{Runtime}.

(** ** Identity of the running firmware *)

Definition OTA_VALIDATION_MODES : list string := ["elf_sha256"; "version"]%string.
Definition DEFAULT_OTA_VALIDATION_MODE : string := "elf_sha256".

Definition _require_ota_validation_mode (value : string) : res string :=
  if existsb (String.eqb value) OTA_VALIDATION_MODES then Ok value
  else raise ValueError "OTA validation mode must be one of: elf_sha256, version".

(** The fields compared in a mode, with the expected and the actual text. *)
Definition identity_fields (status metadata : dict) (validation_mode : string)
    : string * string * string * string :=
  if (validation_mode =? "elf_sha256")%string
  then ("elf_sha256", "firmware_sha256", lower (str (get_or "elf_sha256" (PStr "") metadata)),
        lower (str (get_or "firmware_sha256" (PStr "") status)))%string
  else ("version", "app_version", str (get_or "version" (PStr "") metadata),
        str (get_or "app_version" (PStr "") status))%string.

Definition identity_label (validation_mode : string) : string :=
  if (validation_mode =? "elf_sha256")%string then "firmware ELF SHA-256" else "firmware version".

Definition _validate_ota_identity (status metadata : dict) (validation_mode : string) : res dict :=
  validation_mode ← _require_ota_validation_mode validation_mode;
  if negb (py_eq (dict_get "project_name" status) (dict_get "project_name" metadata))
  then raise RuntimeError "device reconnected with an unexpected firmware project"
  else
    let '(expected_field, actual_field, expected, actual) := identity_fields status metadata validation_mode in
    if (expected =? "")%string then raise RuntimeError ("OTA artifact is missing the expected " ++ identity_label validation_mode)
    else if (actual =? "")%string
    then raise OperationOutcomeUnknown
      ("device did not report its " ++ identity_label validation_mode ++ "; acceptance remains unknown")
    else if negb (actual =? expected)%string
    then raise RuntimeError
      ("device reconnected with an unexpected " ++ identity_label validation_mode ++ ": expected " ++ expected ++ ", got "
       ++ actual)
    else Ok [("mode", PStr validation_mode); ("expected_field", PStr expected_field);
             ("actual_field", PStr actual_field); ("expected", PStr expected); ("actual", PStr actual)]%string.

(** ** Entering Recovery *)

(** One look for the device in Recovery on a new boot; it may be away. *)
Definition look_for_recovery (device_id : string) (previous_boot : pyval) (st : unit) : W (unit + dict) :=
  _ ← ask (A:=unit) Sleep;
  candidate ← attempt (Status device_id) [ConnectionError; OSError; KeyError; LookupError; RuntimeError];
  mret match candidate with
       | Some d => if is_str (dict_get "firmware_mode" d) "recovery"
                      && negb (py_eq (dict_get "boot_id" d) previous_boot)
                   then inr d else inl st
       | None => inl st
       end.

(** The Recovery boot and the status of the writer firmware. *)
Definition enter_recovery (device_id operation_id : string) (previous_boot : pyval) : W (pyval * dict) :=
  _ ← ask (A:=unit) (ReportProgress operation_id "entering_recovery" 25 [("previous_boot_id", previous_boot)]%string);
  _ ← try_except (ask (A:=unit) (EnterRecovery device_id)) [ConnectionError; OSError] (λ _, mret tt);
  _ ← ask (A:=unit) (ReportProgress operation_id "waiting_recovery" 50 [("previous_boot_id", previous_boot)]%string);
  found ← until_deadline (look_for_recovery device_id previous_boot) tt;
  let lost := throw OperationOutcomeUnknown
    "factory recovery restart was accepted but recovery did not reconnect within 30 seconds" in
  match found with
  | inl _ => lost
  | inr recovery_status =>
    let recovery_boot := dict_get "boot_id" recovery_status in
    if is_none recovery_boot then lost
    else
      _ ← ask (A:=unit) (ReportProgress operation_id "recovery_connected" 75 [("recovery_boot_id", recovery_boot)]%string);
      mret (recovery_boot, recovery_status)
  end.

(** ** Transfer *)

Definition report_progress (operation_id execution_mode : string) (image_length : Z) (progress : dict) : W unit :=
  device_progress ← lift (int (get_or "progress_permille" (PInt 0) progress));
  let stage := str (get_or "stage" (PStr "transferring") progress) in
  last_device_progress ← get_last_progress;
  if (stage =? "transferring")%string && (device_progress <? 900)
     && (device_progress <? last_device_progress + 10)
  then mret tt
  else
    _ ← set_last_progress device_progress;
    let overall := if (execution_mode =? "recovery")%string then 100 + device_progress * 750 / 1000
                   else device_progress * 850 / 1000 in
    ask (ReportProgress operation_id stage overall
      [("device_progress_permille", PInt device_progress); ("job_id", dict_get "job_id" progress);
       ("bytes_received", get_or "bytes_received" (PInt 0) progress);
       ("bytes_total", get_or "bytes_total" (PInt image_length) progress);
       ("partition", get_or "partition" (PStr "") progress)]%string).

(** [bytes.fromhex(v)] *)
Definition fromhex (v : pyval) : res bytes :=
  match v with PStr s => unhex s | _ => raise TypeError "fromhex() argument must be str" end.

(** ** Acceptance *)

(** The device reported a healthy boot with the result of the transfer. *)
Definition accept_reported (device_id : string) (metadata : dict) (execution_mode validation_mode : string)
    (recovery_boot writer_boot : pyval) (result : dict) : W dict :=
  status ← ask (A:=dict) (Status device_id);
  let boot := dict_get "boot_id" status in
  if is_none boot || py_eq boot writer_boot
  then throw OperationOutcomeUnknown "OTA HEALTHY result has no confirmed new boot"
  else if negb (is_none (dict_get "boot_id" result)) && negb (py_eq (dict_get "boot_id" result) boot)
  then throw OperationOutcomeUnknown "OTA boot changed after HEALTHY result"
  else
    validation ← lift (_validate_ota_identity status metadata validation_mode);
    mret (dict_updated result
      [("validated_image", PDict metadata); ("execution_mode", PStr execution_mode);
       ("validation", PDict validation); ("recovery_boot_id", recovery_boot)]%string).

(** One event after the transfer; the state is the new boot seen so far. *)
Definition acceptance_event (device_id : string) (writer_boot new_boot : pyval) : W (pyval + pyval * dict) :=
  event ← attempt (QueueGet device_id) [TimeoutError];
  match event with
  | None => mret (inl new_boot)
  | Some event =>
    let boot := dict_get "boot_id" event in
    let new_boot := if negb (py_eq boot writer_boot) && negb (is_none boot) then boot else new_boot in
    if is_str (dict_get "event_name" event) "healthy" && py_eq boot new_boot then
      candidate_status ← ask (A:=dict) (Status device_id);
      let candidate := dict_get "boot_id" candidate_status in
      mret (if py_eq candidate new_boot then inr (new_boot, candidate_status)
            else inl (if negb (py_eq candidate writer_boot) && negb (is_none candidate) then candidate else new_boot))
    else mret (inl new_boot)
  end.

(** The restart that starts the written image, unless the writer has already
    closed the session; the delay it accepted. *)
Definition planned_restart (device_id : string) (result : dict) : W pyval :=
  if is_str (dict_get "completion_evidence" result) "session_close" then mret PNone
  else try_except (delay ← ask (A:=Z) (RestartDevice device_id 250); mret (PInt delay))
         [ConnectionError; OSError; KeyError] (λ _, mret PNone).

Definition accept_observed (device_id operation_id : string) (metadata : dict)
    (execution_mode validation_mode : string) (previous_boot recovery_boot writer_boot : pyval)
    (result : dict) : W dict :=
  delay ← planned_restart device_id result;
  _ ← ask (A:=unit) (ReportProgress operation_id "reconnecting" 925 [("writer_boot_id", writer_boot)]%string);
  observed ← until_deadline (acceptance_event device_id writer_boot) PNone;
  let unknown := throw OperationOutcomeUnknown
    "OTA was written, but the final reconnect/healthy acceptance was not observed" in
  match observed with
  | inl _ => unknown
  | inr (new_boot, reconnected_status) =>
    if is_none new_boot then unknown
    else
      validation ← lift (_validate_ota_identity reconnected_status metadata validation_mode);
      mret (dict_updated result
        [("validated_image", PDict metadata); ("execution_mode", PStr execution_mode);
         ("validation", PDict validation); ("planned_restart_ms", delay); ("previous_boot_id", previous_boot);
         ("recovery_boot_id", recovery_boot); ("boot_id", new_boot); ("healthy", PBool true)]%string)
  end.

(** The [try] block: everything from the write on. *)
Definition write_and_accept (demo : bool) (device_id : string) (image : bytes) (metadata : dict)
    (operation_id execution_mode validation_mode : string) (previous_boot recovery_boot writer_boot : pyval)
    : W dict :=
  _ ← ask (A:=unit) (ReportProgress operation_id "preparing_ota"
        (if (execution_mode =? "recovery")%string then 90 else 0) [("writer_boot_id", writer_boot)]%string);
  expected_sha256 ← lift (digest ← subscript metadata "sha256"; fromhex digest);
  project_name ← lift (subscript metadata "project_name");
  version ← lift (subscript metadata "version");
  result ← ask_calling (A:=dict) (OtaUpdate device_id image expected_sha256 project_name version)
             (report_progress operation_id execution_mode (zlen image));
  _ ← ask (A:=unit) (ReportProgress operation_id "waiting_device" 900 [("job_id", dict_get "job_id" result)]%string);
  if truthy (dict_get "healthy" result)
  then accept_reported device_id metadata execution_mode validation_mode recovery_boot writer_boot result
  else if demo then throw AssertionError ""
  else accept_observed device_id operation_id metadata execution_mode validation_mode
         previous_boot recovery_boot writer_boot result.

(** ** The update *)

Definition check_project (before metadata : dict) : res unit :=
  if truthy (get_or "ota_project_name_match_required" (PBool false) before)
     && truthy (dict_get "project_name" before)
  then
    project_name ← subscript metadata "project_name";
    raise_if (negb (py_eq (dict_get "project_name" before) project_name)) ValueError
      "firmware project does not match device project"
  else Ok tt.

Definition closed_loop_ota (demo : bool) (ota_health_timeout : option pyval)
    (device_id : string) (image : bytes) (metadata : dict)
    (operation_id execution_mode validation_mode : string) (compatibility : pyval) : W dict :=
  if negb ((execution_mode =? "recovery")%string || (execution_mode =? "application")%string)
  then throw ValueError "OTA execution mode must be recovery or application"
  else
    validation_mode ← lift (_require_ota_validation_mode validation_mode);
    before ← ask (A:=dict) (Status device_id);
    required_compatibility ←
      lift (validate_update_compatibility before (dict_get "chip_id" metadata) compatibility false);
    _ ← lift (health_timeout before ota_health_timeout);
    _ ← lift (check_project before metadata);
    let previous_boot := dict_get "boot_id" before in
    writer ← (if (execution_mode =? "recovery")%string && negb (is_str (dict_get "firmware_mode" before) "recovery")
              then enter_recovery device_id operation_id previous_boot
              else mret (PNone, before));
    let '(recovery_boot, writer_status) := writer : pyval * dict in
    _ ← lift (validate_update_compatibility writer_status (dict_get "chip_id" metadata)
                (PDict required_compatibility) (execution_mode =? "recovery")%string);
    _ ← set_last_progress (-10);
    _ ← (if demo then mret tt else invoke (A:=unit) (Subscribe device_id));
    let writer_boot := if is_none recovery_boot then previous_boot else recovery_boot in
    try_finally
      (try_except
        (write_and_accept demo device_id image metadata operation_id execution_mode validation_mode
           previous_boot recovery_boot writer_boot)
        [ConnectionError; OSError; KeyError; LookupError]
        (λ _, throw OperationOutcomeUnknown
           "OTA write or post-write observation lost contact; reconcile before another write"))
      (if demo then mret tt else note (Unsubscribed device_id)).

(** ** Restarts *)

Definition restart_event (device_id : string) (previous_boot : pyval) (accepted_delay : Z) (st : unit)
    : W (unit + dict) :=
  event ← attempt (QueueGet device_id) [TimeoutError];
  match event with
  | None => mret (inl st)
  | Some event =>
    let boot_id := dict_get "boot_id" event in
    if is_str (dict_get "kind" event) "connection" && is_str (dict_get "connection_state" event) "rebooted"
       && negb (is_none boot_id) && negb (py_eq boot_id previous_boot)
    then
      status ← ask (A:=dict) (Status device_id);
      mret (inr [("accepted", PBool true); ("delay_ms", PInt accepted_delay); ("previous_boot_id", previous_boot);
                 ("boot_id", boot_id); ("reconnected", PBool true);
                 ("app_version", dict_get "app_version" status)]%string)
    else mret (inl st)
  end.

Definition closed_loop_restart (demo : bool) (device_id : string) (delay_ms : Z) (operation_id : string) : W dict :=
  before ← ask (A:=dict) (Status device_id);
  let previous_boot := dict_get "boot_id" before in
  if demo then
    accepted_delay ← ask (A:=Z) (RestartDevice device_id delay_ms);
    _ ← ask (A:=unit) (ReportStage operation_id "reconnecting");
    after ← ask (A:=dict) (Status device_id);
    mret [("accepted", PBool true); ("delay_ms", PInt accepted_delay); ("previous_boot_id", previous_boot);
          ("boot_id", dict_get "boot_id" after);
          ("reconnected", PBool (negb (py_eq (dict_get "boot_id" after) previous_boot)));
          ("demo", PBool true)]%string
  else
    _ ← invoke (A:=unit) (Subscribe device_id);
    try_finally
      (accepted_delay ← ask (A:=Z) (RestartDevice device_id delay_ms);
       _ ← ask (A:=unit) (ReportStage operation_id "reconnecting");
       found ← until_deadline (restart_event device_id previous_boot accepted_delay) tt;
       match found with
       | inr result => mret result
       | inl _ => throw OperationOutcomeUnknown
           "restart was accepted but same-device reconnect was not observed within 30 seconds"
       end)
      (note (Unsubscribed device_id)).
End ota.
