(* ===== verification/HubEvents.v ===== *)
(** * Events of a device ([hub.py])

    The hub keeps the last hundred events of every device and one bounded queue
    for every subscriber.  A subscription starts with the device's history. *)
From S2P Require Import Prelude Value.

Definition HISTORY_MAX : nat := 100.
Definition QUEUE_MAX : nat := 256.

Record hub_events := HubEvents {
  hv_history : gmap string (list (list (string * pyval)));
  (** the subscribers of each device, by the number of their queue *)
  hv_subscribers : gmap string (list nat);
  hv_queues : gmap nat (list (list (string * pyval)));
}.
Definition hub_events_init : hub_events := HubEvents ∅ ∅ ∅.

(** Append to a sequence that keeps its last [n] items. *)
Definition push {A} (n : nat) (l : list A) (x : A) : list A := drop (S (length l) - n) (l ++ [x]).

Definition history_of (d : string) (s : hub_events) : list (list (string * pyval)) := default [] (hv_history s !! d).
Definition queue_of (q : nat) (s : hub_events) : list (list (string * pyval)) := default [] (hv_queues s !! q).

(** [queue.put_nowait(event)], dropping the oldest event of a full queue *)
Definition put (event : list (string * pyval)) (queues : gmap nat (list (list (string * pyval)))) (q : nat)
    : gmap nat (list (list (string * pyval))) :=
  <[q := push QUEUE_MAX (default [] (queues !! q)) event]> queues.

(** [sink] is the result of the event sink, which runs in between. *)
Definition _on_event (event : list (string * pyval)) (sink : res unit) (s : hub_events) : hub_events * res unit :=
  match dict_get "device_id" event with
  | PStr d =>
    if (d =? "")%string then (s, Ok tt)
    else
      let s := HubEvents (<[d := push HISTORY_MAX (history_of d s) event]> (hv_history s))
                 (hv_subscribers s) (hv_queues s) in
      match sink with
      | Err e => (s, Err e)
      | Ok _ => (HubEvents (hv_history s) (hv_subscribers s)
                   (fold_left (put event) (default [] (hv_subscribers s !! d)) (hv_queues s)), Ok tt)
      end
  | _ => (s, Ok tt)
  end.

(** [connected]: whether the device has a session; [q] numbers the new queue. *)
Definition subscribe (d : string) (connected : bool) (q : nat) (s : hub_events) : hub_events * res unit :=
  if negb connected then (s, raise KeyError "unknown ESP-Iris device")
  else (HubEvents (hv_history s) (<[d := default [] (hv_subscribers s !! d) ++ [q]]> (hv_subscribers s))
          (<[q := history_of d s]> (hv_queues s)), Ok tt).
Definition unsubscribe (d : string) (q : nat) (s : hub_events) : hub_events :=
  HubEvents (hv_history s) (<[d := filter (λ k, k ≠ q) (default [] (hv_subscribers s !! d))]> (hv_subscribers s))
    (hv_queues s).
(** [queue.get_nowait()] *)
Definition get_event (q : nat) (s : hub_events) : hub_events * option (list (string * pyval)) :=
  match queue_of q s with
  | [] => (s, None)
  | event :: rest => (HubEvents (hv_history s) (hv_subscribers s) (<[q := rest]> (hv_queues s)), Some event)
  end.

(** ** Properties *)

(** The last [n] items. *)
Definition last_n {A} (n : nat) (l : list A) : list A := drop (length l - n) l.

Lemma push_last_n {A} n (l : list A) x : push n (last_n n l) x = last_n n (l ++ [x]).
Proof.
  unfold push, last_n. rewrite length_drop, length_app. cbn [length].
  destruct (decide (length l ≤ n)%nat) as [Hl | Hl].
  - replace (length l - n)%nat with 0%nat by lia. rewrite drop_0. f_equal. lia.
  - replace (S (length l - (length l - n)) - n)%nat with 1%nat by lia.
    rewrite <- (drop_app_le l [x] (length l - n)) by lia. rewrite drop_drop. f_equal. lia.
Qed.

Definition event_of (d : string) (event : list (string * pyval)) : bool :=
  match dict_get "device_id" event with PStr e => String.eqb e d | _ => false end.

(** Events published one after the other, each with the result of the sink. *)
Definition publish (events : list (list (string * pyval) * res unit)) (s : hub_events) : hub_events :=
  fold_left (λ s e, fst (_on_event (fst e) (snd e) s)) events s.

Lemma publish_history d events : d ≠ ""%string → ∀ s l, history_of d s = last_n HISTORY_MAX l →
  history_of d (publish events s) = last_n HISTORY_MAX (l ++ List.filter (event_of d) (map fst events)).
Proof.
  intros Hd. induction events as [|[ev sink] events IH]; intros s l Hl; simpl; [by rewrite app_nil_r |].
  set (s' := fst (_on_event ev sink s)).
  assert (Hs' : history_of d s' = last_n HISTORY_MAX (l ++ if event_of d ev then [ev] else [])).
  { unfold s', _on_event, event_of, history_of in *. destruct (dict_get "device_id" ev) as [| | | |e| |];
      rewrite ?app_nil_r; try exact Hl.
    destruct (String.eqb_spec e ""); [subst; destruct (String.eqb_spec "" d); [congruence |]; by rewrite app_nil_r |].
    destruct (String.eqb_spec e d) as [-> | Hne].
    - assert (Hp : default [] (<[d := push HISTORY_MAX (default [] (hv_history s !! d)) ev]> (hv_history s) !! d)
        = last_n HISTORY_MAX (l ++ [ev])) by (rewrite lookup_insert_eq; simpl; by rewrite Hl, push_last_n).
      by destruct sink.
    - rewrite app_nil_r. destruct sink; simpl; by rewrite lookup_insert_ne. }
  rewrite (IH s' _ Hs'). rewrite <- app_assoc. by destruct (event_of d ev).
Qed.

Section subscription.
Context (d : string) (q : nat).

(** The queue belongs to the one subscriber [q], of device [d]. *)
Definition sole_subscriber (s : hub_events) : Prop :=
  ∀ e l, hv_subscribers s !! e = Some l → NoDup l ∧ (q ∈ l ↔ e = d).

Lemma put_fold event (l : list nat) : NoDup l → ∀ queues,
  default [] (fold_left (put event) l queues !! q)
  = if bool_decide (q ∈ l) then push QUEUE_MAX (default [] (queues !! q)) event else default [] (queues !! q).
Proof.
  induction 1 as [|k l Hk Hl IH]; intros queues; simpl; [done |]. rewrite IH. unfold put.
  destruct (decide (k = q)) as [-> | Hne].
  - rewrite (bool_decide_eq_false_2 (q ∈ l)), (bool_decide_eq_true_2 (q ∈ q :: l)) by (done || left).
    by rewrite lookup_insert_eq.
  - rewrite lookup_insert_ne by done.
    by rewrite (bool_decide_ext (q ∈ k :: l) (q ∈ l)) by set_solver.
Qed.

Lemma publish_queue events : d ≠ ""%string → Forall (λ e, is_ok (snd e) = true) events → ∀ s l,
  is_Some (hv_subscribers s !! d) → sole_subscriber s → queue_of q s = last_n QUEUE_MAX l →
  queue_of q (publish events s) = last_n QUEUE_MAX (l ++ List.filter (event_of d) (map fst events)).
Proof.
  intros Hd. induction 1 as [|[ev sink] events Hok _ IH]; intros s l Hsub Hsole Hl; simpl; [by rewrite app_nil_r |].
  simpl in Hok. destruct sink as [u|]; [clear Hok | done]. set (s' := fst (_on_event ev (Ok u) s)).
  assert (Hs' : hv_subscribers s' = hv_subscribers s
    ∧ queue_of q s' = last_n QUEUE_MAX (l ++ if event_of d ev then [ev] else [])).
  { unfold s', _on_event, event_of, queue_of in *. destruct (dict_get "device_id" ev) as [| | | |e| |];
      rewrite ?app_nil_r; try done.
    destruct (String.eqb_spec e ""); [subst; destruct (String.eqb_spec "" d); [congruence |]; by rewrite app_nil_r |].
    simpl. split; [done |].
    destruct (hv_subscribers s !! e) as [k|] eqn:Ek; simpl.
    - destruct (Hsole e k Ek) as [Hnd Hin]. rewrite put_fold by done.
      destruct (String.eqb_spec e d) as [-> | Hne].
      + rewrite bool_decide_eq_true_2 by (by apply Hin). by rewrite Hl, push_last_n.
      + rewrite bool_decide_eq_false_2 by (by intros ?%Hin). by rewrite app_nil_r.
    - destruct (String.eqb_spec e d) as [-> | Hne]; [destruct Hsub; congruence | by rewrite app_nil_r]. }
  destruct Hs' as [Hsubs Hq]. rewrite (IH s' (l ++ if event_of d ev then [ev] else [])).
  - rewrite <- app_assoc. by destruct (event_of d ev).
  - by rewrite Hsubs.
  - unfold sole_subscriber. by rewrite Hsubs.
  - exact Hq.
Qed.
End subscription.

Lemma publish_subscribers events : ∀ s, hv_subscribers (publish events s) = hv_subscribers s.
Proof.
  induction events as [|[ev sink] events IH]; intros s; simpl; [done |]. rewrite IH.
  unfold _on_event. destruct (dict_get "device_id" ev) as [| | | |e| |]; try done.
  destruct (e =? "")%string; [done |]. by destruct sink.
Qed.

(** No subscription uses the queue [q] yet. *)
Definition fresh_queue (q : nat) (s : hub_events) : Prop :=
  ∀ e l, hv_subscribers s !! e = Some l → NoDup l ∧ q ∉ l.

Lemma subscribe_sole d q s : fresh_queue q s → sole_subscriber d q (fst (subscribe d true q s)).
Proof.
  intros Hf e l. simpl. destruct (decide (e = d)) as [-> | Hne].
  - rewrite lookup_insert_eq. intros [= <-].
    destruct (hv_subscribers s !! d) as [k|] eqn:Ek; simpl; [| split; [apply NoDup_singleton | set_solver]].
    destruct (Hf d k Ek) as [Hnd Hq]. split; [| set_solver].
    apply NoDup_app. split_and!; [done | set_solver | apply NoDup_singleton].
  - rewrite lookup_insert_ne by done. intros Hl. destruct (Hf e l Hl). split; [done |]. by split.
Qed.

Lemma last_n_app_le {A} n m (l : list A) : (m ≤ n)%nat → last_n n (last_n m l) = last_n m l.
Proof.
  intros Hnm. unfold last_n. rewrite length_drop.
  replace (length l - (length l - m) - n)%nat with 0%nat by lia. apply drop_0.
Qed.

(** A subscription replays, and then delivers everything: its queue holds the
    last hundred events of the device from before the subscription, whenever
    they happened, followed by every later event of the device in order; of
    these, the oldest are lost when more than 256 wait. *)
Theorem subscription_exact d q s past events :
  d ≠ ""%string → fresh_queue q s → history_of d s = [] →
  Forall (λ e, is_ok (snd e) = true) events →
  queue_of q (publish events (fst (subscribe d true q (publish past s))))
  = last_n QUEUE_MAX (last_n HISTORY_MAX (List.filter (event_of d) (map fst past))
                      ++ List.filter (event_of d) (map fst events)).
Proof.
  intros Hd Hf Hh Hok. set (s1 := publish past s).
  assert (Hhist : history_of d s1 = last_n HISTORY_MAX (List.filter (event_of d) (map fst past)))
    by (by apply (publish_history d past Hd s [])).
  assert (Hf1 : fresh_queue q s1) by (unfold fresh_queue, s1; by rewrite publish_subscribers).
  rewrite (publish_queue d q events Hd Hok _ (last_n HISTORY_MAX (List.filter (event_of d) (map fst past)))).
  - done.
  - simpl. rewrite lookup_insert_eq. by eexists.
  - by apply subscribe_sole.
  - unfold queue_of. simpl. rewrite lookup_insert_eq. simpl. rewrite Hhist. symmetry.
    apply last_n_app_le. unfold HISTORY_MAX, QUEUE_MAX. lia.
Qed.

Definition example_rebooted (boot : Z) : list (string * pyval) :=
  [("kind", PStr "connection"); ("connection_state", PStr "rebooted"); ("device_id", PStr "a");
   ("boot_id", PInt boot)]%string.
(** The events of a device that rebooted twice, up to boot 3. *)
Definition example_past : list (list (string * pyval) * res unit) :=
  [(example_rebooted 2, Ok tt); (example_rebooted 3, Ok tt)].
Lemma subscription_exact_witness :
  queue_of 0 (publish [(example_rebooted 4, Ok tt)] (fst (subscribe "a" true 0 (publish example_past hub_events_init))))
  = [example_rebooted 2; example_rebooted 3; example_rebooted 4].
Proof.
  rewrite (subscription_exact "a" 0 hub_events_init example_past [(example_rebooted 4, Ok tt)]).
  - vm_compute. reflexivity.
  - discriminate.
  - intros e l Hl. vm_compute in Hl. discriminate Hl.
  - reflexivity.
  - repeat constructor.
Defined.
