(* ===== verification/OtaWorkflowProps.v ===== *)
(** * Properties of the closed-loop application update

    What a returned update has seen of the device, how often it writes, what
    it makes of a lost contact, and that it ends. *)
From S2P Require Import Prelude Text Value Effects Compatibility Store Runtime Workflow Reconciliation HubEvents OtaWorkflow.

(** ** The contact along a trace

    Whether the last answer of a trace was the exception of a lost contact, the
    answer before the trace included.  [tracks b m]: from such an answer on,
    [m] returns only with a later answer that is none, and raises a lost
    contact when its last answer was one. *)

Definition LOST_CONTACT : list exn_class := [ConnectionError; OSError; KeyError; LookupError].

Definition contact_step (lost : bool) (e : event) : bool :=
  match e with
  | Replied _ (Err x) => catches LOST_CONTACT x
  | Replied _ (Ok _) | CalledBack _ => false
  | _ => lost
  end.
Definition lost_after (lost : bool) (t : list event) : bool := fold_left contact_step t lost.
(** The last answer in the trace was the exception of a lost contact. *)
Definition contact_lost (t : list event) : bool := lost_after false t.

Lemma lost_after_app b t u : lost_after b (t ++ u) = lost_after (lost_after b t) u.
Proof. apply fold_left_app. Qed.

Definition raises_lost {A} (o : outcome A) (lost : bool) : Prop :=
  match o with Raised e => lost = true → catches LOST_CONTACT e = true | _ => True end.
Definition tracked {A} (o : outcome A) (lost : bool) : Prop :=
  match o with Done _ => lost = false | _ => raises_lost o lost end.
Definition tracks {A} (b : bool) (m : W A) : Prop := spec m (λ o t, tracked o (lost_after b t)).
(** The same of a computation that may swallow a lost contact. *)
Definition loosely {A} (b : bool) (m : W A) : Prop := spec m (λ o t, raises_lost o (lost_after b t)).

Lemma tracks_loosely {A} b (m : W A) : tracks b m → loosely b m.
Proof. intros Hm. eapply spec_mono; [exact Hm |]. by intros []. Qed.
Lemma tracks_ret {A} (a : A) : tracks false (mret a).
Proof. by apply spec_ret. Qed.
Lemma tracks_lift {A} (r : res A) : tracks false (lift r).
Proof. by apply spec_lift. Qed.
Lemma outcome_tracked {A} `{Reply A} b c (r : res A) : tracked (outcome_of r) (lost_after b [Replied c (show_reply r)]).
Proof. destruct r; [done | exact (λ Hl, Hl)]. Qed.
Lemma tracks_ask {A} `{Reply A} b c : tracks b (ask (A:=A) c).
Proof. apply spec_ask; [done | intros r; apply (outcome_tracked b c)]. Qed.
Lemma tracks_invoke {A} `{Reply A} b c : tracks b (invoke (A:=A) c).
Proof. apply spec_invoke; [done | intros r; apply (outcome_tracked b c)]. Qed.
Lemma tracks_bind {A B} b (m : W A) (f : A → W B) : tracks b m → (∀ a, tracks false (f a)) → tracks b (m ≫= f).
Proof.
  intros Hm Hf. apply spec_bind. eapply spec_mono; [exact Hm |]. intros [a|e|] t Ht; [| done | done].
  eapply spec_mono; [apply Hf |]. intros o u Hu. rewrite lost_after_app. cbn in Ht. by rewrite Ht.
Qed.
(** What follows a computation that swallows takes an answer of its own. *)
Lemma tracks_bind_loose {A B} b (m : W A) (f : A → W B) :
  loosely b m → (∀ a b, tracks b (f a)) → tracks b (m ≫= f).
Proof.
  intros Hm Hf. apply spec_bind. eapply spec_mono; [exact Hm |]. intros [a|e|] t Ht; [| done | done].
  eapply spec_mono; [apply Hf |]. intros o u Hu. rewrite lost_after_app. exact Hu.
Qed.
Lemma loosely_swallowing {A} b (m : W A) cs a : tracks b m → loosely b (try_except m cs (λ _, mret a)).
Proof.
  intros Hm. apply spec_try. eapply spec_mono; [exact Hm |]. intros [x|e|] t Ht; [done | | done].
  destruct (catches cs e); [by apply spec_ret | exact Ht].
Qed.

(** An exception that leaves a swallowed callback is no lost contact. *)
Lemma swallow_tracks m : loosely false m → loosely false (swallow m).
Proof.
  intros Hm. apply spec_try. eapply spec_mono; [exact Hm |]. intros [u|e|] t Ht; [done | | done].
  destruct (catches _ e); [by apply spec_ret | exact Ht].
Qed.
Lemma tracks_ask_calling {A} `{Reply A} b c callback :
  (∀ p, loosely false (callback p)) → tracks b (ask_calling (A:=A) c callback).
Proof.
  intros Hc. apply spec_bind, spec_note; [done |]. apply spec_bind.
  apply (spec_while (λ r t, ∀ x, r = Some x → tracked (outcome_of x) (lost_after b t))); [done | |].
  - intros r t Hr Hn. destruct r; [done |]. apply spec_bind, spec_pending; [done | |].
    + intros p. apply spec_bind. eapply spec_mono; [apply swallow_tracks, Hc |].
      intros [u|e|] t2 Ht2; [apply spec_ret; split; [done | rlia] | | done].
      change ([Called c] ++ t ++ [CalledBack p] ++ t2) with ((Called c :: t) ++ CalledBack p :: t2).
      by rewrite lost_after_app.
    + intros r. apply spec_ret. split; [| rlia]. intros x [= ->]. rewrite app_nil_r, lost_after_app.
      apply outcome_tracked.
  - intros r t Hr Hs. destruct r as [x|]; [| done]. specialize (Hr x eq_refl).
    destruct x; apply spec_lift; intros ? [= <-]; by rewrite app_nil_r.
Qed.

(** The clock is read between two rounds, so only the round that leaves the
    loop must not end on a lost contact. *)
Definition tracks_leaving {S B} (m : W (S + B)) : Prop :=
  spec m (λ o t, match o with Done (inl _) => True | _ => tracked o (lost_after false t) end).
Lemma tracks_until_deadline {S B} b (body : S → W (S + B)) st :
  (∀ st, tracks_leaving (body st)) → tracks b (until_deadline body st).
Proof.
  intros Hb. apply spec_bind.
  apply (spec_while (λ r t, match r with Open _ => True | _ => lost_after b t = false end)); [done | |].
  - intros [st'| |] t _ Ho; [| done ..]. apply spec_bind, spec_invoke; [done |]. intros [before|e].
    2: { rewrite lost_after_app. exact (λ Hl, Hl). }
    destruct before; [| apply spec_ret; split; [by rewrite app_nil_r, lost_after_app | rlia]].
    apply spec_bind. eapply spec_mono; [apply Hb |]. intros [[st2|x]|e|] t2 Ht2.
    + apply spec_ret. split; [done | rewrite app_nil_r, replies_app; rlia].
    + apply spec_ret. rewrite app_nil_r. split; [| rewrite replies_app; rlia].
      by rewrite lost_after_app, lost_after_app.
    + rewrite lost_after_app, lost_after_app. exact Ht2.
    + done.
  - intros r t Hr Ho. apply spec_ret. rewrite app_nil_r. by destruct r.
Qed.
Lemma tracks_leaves {S B} (m : W (S + B)) : tracks false m → tracks_leaving m.
Proof. intros Hm. eapply spec_mono; [exact Hm |]. by intros [[]| |]. Qed.
Lemma tracks_leaving_attempt {S B} c cs (f : option dict → W (S + B)) :
  (∀ d, tracks_leaving (f (Some d))) → (∃ st, f None = mret (inl st)) → tracks_leaving (attempt c cs ≫= f).
Proof.
  intros Hsome [st Hnone]. apply spec_bind, spec_try, spec_bind, spec_ask; [done |]. intros [d|e].
  - apply spec_ret. apply Hsome.
  - simpl. destruct (catches cs e); [| done]. apply spec_ret. rewrite Hnone. by apply spec_ret.
Qed.

(** Once [p] has happened, what the computation makes of a lost contact. *)
Lemma once_lost {A B} (p : event → bool) (m : W A) (f : A → W B) (R : outcome B → bool → Prop) :
  at_most p 0 m → (∀ a b, spec (f a) (λ o t, (0 < count p t)%nat → R o (lost_after b t))) →
  ∀ b, spec (m ≫= f) (λ o t, (0 < count p t)%nat → R o (lost_after b t)).
Proof.
  intros Hm Hf b. apply spec_bind. eapply spec_mono; [exact Hm |]. intros [a|e|] t Ht; [| lia | lia].
  eapply spec_mono; [apply (Hf a (lost_after b t)) |]. cbv beta. intros o t2 Ho. rewrite count_app, lost_after_app.
  intros. apply Ho. lia.
Qed.

(** A lost contact is what ended the run: it leaves as an unknown outcome. *)
Definition lost_is_unknown {A} (o : outcome A) (lost : bool) : Prop :=
  lost = true → o = Blocked ∨ ∃ e, o = Raised e ∧ exn_cls e = OperationOutcomeUnknown.

Lemma lost_converted {A} b (m : W A) msg fin :
  tracks b m → spec fin (λ o t, (o = Done tt ∨ o = Blocked) ∧ ∀ b, lost_after b t = b) →
  spec (try_finally (try_except m LOST_CONTACT (λ _, throw OperationOutcomeUnknown msg)) fin)
    (λ o t, match o with Done _ => lost_after b t = false | _ => lost_is_unknown o (lost_after b t) end).
Proof.
  intros Hm Hfin. apply spec_finally, spec_try. eapply spec_mono; [exact Hm |].
  assert (Hk : ∀ t (r : res A),
    match r with Ok _ => lost_after b t = false | Err e => lost_is_unknown (Raised (A:=A) e) (lost_after b t) end →
    spec (_ ← fin; lift r) (λ o u, match o with
      | Done _ => lost_after b (t ++ u) = false | _ => lost_is_unknown o (lost_after b (t ++ u)) end)).
  { intros t r Hr. apply spec_bind. eapply spec_mono; [exact Hfin |]. intros o u [[-> | ->] Hu]; [| intros _; by left].
    apply spec_lift; intros x ->; by rewrite app_nil_r, lost_after_app, Hu. }
  intros [a|e|] t Ht; [apply (Hk t (Ok a)); exact Ht | | intros _; by left].
  destruct (catches LOST_CONTACT e) eqn:Hc.
  - apply spec_lift; [done |]. intros e' [= <-]. rewrite app_nil_r. apply Hk. intros _. right. by eexists.
  - apply Hk. intros Hl. rewrite Ht in Hc by done. done.
Qed.

Ltac trackings :=
  repeat (intros; lazymatch goal with
  | |- tracks _ (ask _ ≫= _) => apply tracks_bind; [apply tracks_ask |]
  | |- tracks _ (lift _ ≫= _) => apply tracks_bind; [apply tracks_lift |]
  | |- tracks _ (ask _) => apply tracks_ask
  | |- tracks _ (lift _) => apply tracks_lift
  | |- tracks _ (throw _ _) => apply tracks_lift
  | |- tracks _ (mret _) => apply tracks_ret
  | |- tracks _ (let _ := _ in _) => cbv zeta
  | |- tracks _ (match ?x with _ => _ end) => destruct x
  end); intros.

Lemma set_last_progress_tracks z : tracks false (set_last_progress z).
Proof. by apply spec_set_last_progress. Qed.
Lemma get_last_progress_tracks : tracks false get_last_progress.
Proof. by apply spec_get_last_progress. Qed.
Section props.
Context `{Runtime}.

(** ** What acceptance rests on *)

(** The device runs firmware of the expected identity on a boot that is new
    since the writer, and that boot was reported healthy. *)
Definition accepted (device_id : string) (metadata : dict) (validation_mode : string)
    (writer_boot : pyval) (result r : dict) (t : list event) : Prop :=
  ∃ status boot validation,
    saw (Status device_id) status ∈ t
    ∧ boot ≠ PNone ∧ py_eq boot writer_boot = false
    ∧ (boot = dict_get "boot_id" status ∨ py_eq (dict_get "boot_id" status) boot = true)
    ∧ _validate_ota_identity status metadata validation_mode = Ok validation
    ∧ dict_get "validation" r = PDict validation
    ∧ (truthy (dict_get "healthy" result) = true
       ∨ ∃ event, saw (QueueGet device_id) event ∈ t
           ∧ dict_get "event_name" event = PStr "healthy" ∧ py_eq (dict_get "boot_id" event) boot = true).

Lemma accepted_mono d m v w result r t u :
  accepted d m v w result r t → (∀ e, e ∈ t → e ∈ u) → accepted d m v w result r u.
Proof.
  intros (status & boot & validation & Hs & Hn & Hw & Hb & Hi & Hr & Hh) Htu.
  exists status, boot, validation. split_and!; auto.
  destruct Hh as [Hh | (ev & Hev & Hh)]; [by left | right; exists ev; auto].
Qed.

Lemma look_for_recovery_seen device_id previous_boot :
  returning (until_deadline (look_for_recovery device_id previous_boot) tt)
    (λ x t, match x with
            | inl _ => True
            | inr d => saw (Status device_id) d ∈ t ∧ dict_get "firmware_mode" d = PStr "recovery"
                ∧ py_eq (dict_get "boot_id" d) previous_boot = false
            end).
Proof.
  apply (returning_until_deadline (λ _ _, True)); [done | unfold look_for_recovery; appends |].
  intros [] t _ t0. unfold look_for_recovery. apply returning_after; [appends | intros [] u].
  apply returning_attempt_bind; [intros d v Hd | intros v; by apply returning_ret].
  apply returning_ret. destruct (is_str _ _ && negb _) eqn:Hr; [| done].
  apply andb_true_iff in Hr as [Hm%is_str_eq Hb%negb_true_iff]. split_and!; [set_solver | done | done].
Qed.

Lemma enter_recovery_seen device_id operation_id previous_boot :
  returning (enter_recovery device_id operation_id previous_boot)
    (λ p t, saw (Status device_id) (snd p) ∈ t ∧ fst p = dict_get "boot_id" (snd p) ∧ is_none (fst p) = false).
Proof.
  unfold enter_recovery. apply returning_after; [appends | intros [] t1].
  apply returning_after; [appends | intros [] t2]. apply returning_after; [appends | intros [] t3].
  eapply returning_bind; [apply look_for_recovery_seen |].
  intros [u|recovery_status] t Hs; [apply returning_throw |]. destruct Hs as [Hs _].
  destruct (is_none (dict_get "boot_id" recovery_status)) eqn:Hn; [apply returning_throw |].
  apply returning_after; [appends | intros [] t4]. apply returning_ret. simpl. split_and!; [set_solver | done | done].
Qed.

Lemma is_none_false v : is_none v = false ↔ v ≠ PNone.
Proof. by destruct v. Qed.

Lemma accept_reported_seen device_id metadata execution_mode validation_mode recovery_boot writer_boot result :
  truthy (dict_get "healthy" result) = true →
  returning (accept_reported device_id metadata execution_mode validation_mode recovery_boot writer_boot result)
    (accepted device_id metadata validation_mode writer_boot result).
Proof.
  intros Hh. unfold accept_reported. apply returning_ask_bind. intros status.
  destruct (is_none _ || py_eq _ _) eqn:Hb; [apply returning_throw |]. apply orb_false_iff in Hb as [Hn Hw].
  destruct (negb _ && negb _); [apply returning_throw |].
  apply returning_lift_bind. intros validation Hv. apply returning_ret.
  exists status, (dict_get "boot_id" status), validation. apply is_none_false in Hn.
  split_and!; [set_solver | done | done | by left | done | | by left].
  unfold dict_get, dict_updated. cbn [fold_left]. by rewrite !dict_lookup_set.
Qed.

(** The boot taken for the new one, and the events that speak for it. *)
Definition new_since (writer_boot boot : pyval) : Prop := boot = PNone ∨ boot ≠ PNone ∧ py_eq boot writer_boot = false.
Lemma new_since_next writer_boot boot candidate :
  new_since writer_boot boot →
  new_since writer_boot (if negb (py_eq candidate writer_boot) && negb (is_none candidate) then candidate else boot).
Proof.
  intros Hb. destruct (negb _ && negb _) eqn:E; [| done]. right.
  apply andb_true_iff in E as [E1%negb_true_iff E2%negb_true_iff]. by apply is_none_false in E2.
Qed.

Definition event_confirms (device_id : string) (writer_boot : pyval) (x : pyval * dict) (t : list event) : Prop :=
  new_since writer_boot (fst x) ∧ saw (Status device_id) (snd x) ∈ t
  ∧ py_eq (dict_get "boot_id" (snd x)) (fst x) = true
  ∧ ∃ event, saw (QueueGet device_id) event ∈ t
      ∧ dict_get "event_name" event = PStr "healthy" ∧ py_eq (dict_get "boot_id" event) (fst x) = true.

Lemma acceptance_loop_seen device_id writer_boot :
  returning (until_deadline (acceptance_event device_id writer_boot) PNone)
    (λ x t, match x with inl _ => True | inr b => event_confirms device_id writer_boot b t end).
Proof.
  apply (returning_until_deadline (λ boot _, new_since writer_boot boot)); [by left | |].
  { intros st. unfold acceptance_event. appends. }
  intros boot t Hboot t0. unfold acceptance_event.
  apply returning_attempt_bind; [intros event v Hev | intros v; by apply returning_ret].
  set (boot' := if negb (py_eq (dict_get "boot_id" event) writer_boot) && _ then _ else boot).
  assert (Hboot' : new_since writer_boot boot') by by apply new_since_next.
  destruct (is_str _ _ && py_eq _ boot') eqn:Hh; [| by apply returning_ret].
  apply andb_true_iff in Hh as [Hname%is_str_eq Heq].
  apply returning_ask_bind. intros candidate. apply returning_ret.
  destruct (py_eq (dict_get "boot_id" candidate) boot') eqn:Hc; [| by apply new_since_next].
  split_and!; [done | set_solver | done | exists event; split_and!; [set_solver | done | done]].
Qed.

Lemma accept_observed_seen device_id operation_id metadata execution_mode validation_mode
    previous_boot recovery_boot writer_boot result :
  returning (accept_observed device_id operation_id metadata execution_mode validation_mode
      previous_boot recovery_boot writer_boot result)
    (accepted device_id metadata validation_mode writer_boot result).
Proof.
  unfold accept_observed. apply returning_after; [unfold planned_restart; appends | intros delay t1].
  apply returning_after; [appends | intros [] t2].
  eapply returning_bind; [apply acceptance_loop_seen |]. intros [u|[boot status]] t Hx; [apply returning_throw |].
  destruct (is_none boot) eqn:Hn; [apply returning_throw |]. apply is_none_false in Hn.
  destruct Hx as ([? | [_ Hw]] & Hst & Hb & ev & Hev & Hname & Heq); [done |].
  apply returning_lift_bind. intros validation Hv. apply returning_ret.
  exists status, boot, validation. simpl in *.
  split_and!; [set_solver | done | done | by right | done | | right; exists ev; split_and!; [set_solver | done | done]].
  unfold dict_get, dict_updated. cbn [fold_left]. by rewrite !dict_lookup_set.
Qed.
(** The image was transferred once, and acceptance came after it. *)
Definition written_then_accepted (device_id : string) (image : bytes) (metadata : dict) (validation_mode : string)
    (writer_boot : pyval) (r : dict) (t : list event) : Prop :=
  ∃ t1 t2 digest sha256 project_name version result,
    t = t1 ++ saw (OtaUpdate device_id image sha256 project_name version) result :: t2
    ∧ dict_lookup "sha256" metadata = Some digest ∧ fromhex digest = Ok sha256
    ∧ dict_lookup "project_name" metadata = Some project_name ∧ dict_lookup "version" metadata = Some version
    ∧ accepted device_id metadata validation_mode writer_boot result r t2.

Lemma subscript_Ok d key v : subscript d key = Ok v → dict_lookup key d = Some v.
Proof. unfold subscript. destruct (dict_lookup key d); [by intros [= ->] | done]. Qed.

Lemma report_progress_appending operation_id execution_mode n p :
  appending (report_progress operation_id execution_mode n p).
Proof. unfold report_progress. appends. Qed.
#[local] Hint Resolve report_progress_appending : appending.

Lemma write_and_accept_seen demo device_id image metadata operation_id execution_mode validation_mode
    previous_boot recovery_boot writer_boot :
  returning (write_and_accept demo device_id image metadata operation_id execution_mode validation_mode
      previous_boot recovery_boot writer_boot)
    (written_then_accepted device_id image metadata validation_mode writer_boot).
Proof.
  unfold write_and_accept. apply returning_after; [appends | intros [] t0].
  apply returning_lift_bind. intros sha256 Hsha. apply res_bind_Ok in Hsha as (digest & Hd%subscript_Ok & Hsha).
  apply returning_lift_bind. intros project_name Hp%subscript_Ok.
  apply returning_lift_bind. intros version Hv%subscript_Ok.
  eapply returning_bind; [apply returning_ask_calling, report_progress_appending |].
  intros result t1 [u ->]. apply returning_after; [appends | intros [] t2].
  assert (Hend : ∀ m : W dict,
    returning m (accepted device_id metadata validation_mode writer_boot result) →
    returning m (λ r t3, written_then_accepted device_id image metadata validation_mode writer_boot r
      (t0 ++ (Called (OtaUpdate device_id image sha256 project_name version)
         :: u ++ [Replied (OtaUpdate device_id image sha256 project_name version) (Ok (an_show result))])
         ++ t2 ++ t3))).
  { intros m Hm. eapply returning_mono; [exact Hm |]. intros r t3 Hr.
    exists (t0 ++ Called (OtaUpdate device_id image sha256 project_name version) :: u), (t2 ++ t3), digest,
      sha256, project_name, version, result.
    split_and!; try done; [by rewrite <- !app_assoc; simpl; rewrite <- app_assoc |].
    eapply accepted_mono; [exact Hr | set_solver]. }
  destruct (truthy _) eqn:Hh; [by apply Hend, accept_reported_seen |].
  destruct demo; [apply returning_throw | apply Hend, accept_observed_seen].
Qed.

(** The firmware that performs the write: the device as it was, or the Recovery
    it was brought into. *)
Record writer_checked (device_id : string) (metadata : dict) (execution_mode : string) (compatibility : pyval)
    (writer : dict) (t : list event) : Prop := {
  wr_seen : saw (Status device_id) writer ∈ t;
  wr_first : ∃ before required, saw (Status device_id) before ∈ t
    ∧ validate_update_compatibility before (dict_get "chip_id" metadata) compatibility false = Ok required
    ∧ is_ok (validate_update_compatibility writer (dict_get "chip_id" metadata) (PDict required)
               (execution_mode =? "recovery")%string) = true;
}.

Lemma closed_loop_ota_seen demo health device_id image metadata operation_id execution_mode validation_mode
    compatibility :
  returning (closed_loop_ota demo health device_id image metadata operation_id execution_mode validation_mode
      compatibility)
    (λ r t, ∃ t1 t2 writer, t = t1 ++ t2
       ∧ writer_checked device_id metadata execution_mode compatibility writer t1
       ∧ written_then_accepted device_id image metadata validation_mode (dict_get "boot_id" writer) r t2).
Proof.
  unfold closed_loop_ota. destruct (negb (_ || _)); [apply returning_throw |].
  apply returning_lift_bind. intros mode Hmode.
  assert (mode = validation_mode) as ->.
  { unfold _require_ota_validation_mode in Hmode. destruct (existsb _ _); [by injection Hmode | done]. }
  apply returning_ask_bind. intros before.
  apply returning_lift_bind. intros required Hreq. apply returning_lift_bind. intros timeout _.
  apply returning_lift_bind. intros [] _.
  eapply (returning_bind _ _ (λ p t, let boot := if is_none (fst p) then dict_get "boot_id" before else fst p in
    (saw (Status device_id) (snd p) ∈ t ∨ snd p = before) ∧ boot = dict_get "boot_id" (snd p))).
  { destruct ((execution_mode =? "recovery")%string && _).
    - eapply returning_mono; [apply enter_recovery_seen |]. intros [boot writer] t (Hs & Hb & Hn); simpl in *.
      rewrite Hn. split; [by left | done].
    - apply returning_ret. split; [by right | done]. }
  intros [recovery_boot writer] t1 [Hw Hboot]; simpl in Hw, Hboot |- *.
  apply returning_lift_bind. intros required2 Hreq2.
  apply returning_after; [appends | intros [] t2]. apply returning_after; [appends | intros [] t3].
  rewrite Hboot. eapply returning_finally.
  { apply returning_try; [apply write_and_accept_seen | intros; apply returning_throw]. }
  { destruct demo; appends. }
  simpl. intros r t4 t5 Hr.
  exists (Called (Status device_id) :: Replied (Status device_id) (Ok (RDict before)) :: t1 ++ t2 ++ t3), (t4 ++ t5), writer.
  split; [simpl; by rewrite <- !app_assoc | split].
  - split.
    + destruct Hw as [Hw | ->]; [set_solver | right; left].
    + exists before, required. split_and!; [right; left | done | by rewrite Hreq2].
  - destruct Hr as (u1 & u2 & digest & sha & pn & ver & result & -> & H1 & H2 & H3 & H4 & Ha).
    exists u1, (u2 ++ t5), digest, sha, pn, ver, result.
    split_and!; try done; [by rewrite <- app_assoc |]. eapply accepted_mono; [exact Ha | set_solver].
Qed.
(** ** One write, and what becomes of a lost contact *)

Definition is_ota_write (e : event) : bool := match e with Called (OtaUpdate _ _ _ _ _) => true | _ => false end.

Lemma enter_recovery_writes device_id operation_id previous_boot :
  at_most is_ota_write 0 (enter_recovery device_id operation_id previous_boot).
Proof. unfold enter_recovery, look_for_recovery. counts. Qed.
Lemma accept_writes demo device_id operation_id metadata execution_mode validation_mode
    previous_boot recovery_boot writer_boot result :
  at_most is_ota_write 0 (if truthy (dict_get "healthy" result)
    then accept_reported device_id metadata execution_mode validation_mode recovery_boot writer_boot result
    else if demo : bool then throw AssertionError ""
    else accept_observed device_id operation_id metadata execution_mode validation_mode
           previous_boot recovery_boot writer_boot result).
Proof. unfold accept_reported, accept_observed, planned_restart, acceptance_event. counts. Qed.

Lemma write_and_accept_writes demo device_id image metadata operation_id execution_mode validation_mode
    previous_boot recovery_boot writer_boot :
  at_most is_ota_write 1 (write_and_accept demo device_id image metadata operation_id execution_mode
    validation_mode previous_boot recovery_boot writer_boot).
Proof.
  unfold write_and_accept. apply at_most_bind; [counts | intros _].
  apply at_most_bind; [counts | intros sha]. apply at_most_bind; [counts | intros project].
  apply at_most_bind; [counts | intros version]. apply (at_most_bind_sum _ 1 0).
  - apply at_most_ask_calling; [done | done | apply report_progress_appending |].
    intros p. unfold report_progress. counts.
  - intros result. apply at_most_bind; [counts | intros _]. apply accept_writes.
Qed.

#[local] Hint Resolve enter_recovery_writes write_and_accept_writes : counting.
Lemma write_and_accept_appending demo device_id image metadata operation_id execution_mode validation_mode
    previous_boot recovery_boot writer_boot :
  appending (write_and_accept demo device_id image metadata operation_id execution_mode validation_mode
    previous_boot recovery_boot writer_boot).
Proof. eapply appending_spec, write_and_accept_writes. Qed.

Lemma closed_loop_ota_writes demo health device_id image metadata operation_id execution_mode validation_mode
    compatibility :
  at_most is_ota_write 1 (closed_loop_ota demo health device_id image metadata operation_id execution_mode
    validation_mode compatibility).
Proof. unfold closed_loop_ota. counts. Qed.

(** From the write on, no lost contact is left. *)
Lemma closed_loop_ota_contact demo health device_id image metadata operation_id execution_mode validation_mode
    compatibility :
  spec (closed_loop_ota demo health device_id image metadata operation_id execution_mode validation_mode
      compatibility)
    (λ o t, (0 < count is_ota_write t)%nat → ∀ e, o = Raised e → catches LOST_CONTACT e = false).
Proof.
  unfold closed_loop_ota. destruct (negb (_ || _)); [apply spec_throw; unfold count; simpl; lia |].
  do 5 (apply once_happened; [counts | intros]).
  apply once_happened; [counts | intros [recovery_boot writer]].
  do 3 (apply once_happened; [counts | intros]).
  eapply spec_mono; [| intros o t Ho _; exact Ho].
  apply spec_converted; [apply write_and_accept_appending | done |].
  destruct demo; [apply spec_ret; by left | apply spec_note; [done | by left]].
Qed.

Lemma report_progress_tracks operation_id execution_mode n p : tracks false (report_progress operation_id execution_mode n p).
Proof.
  unfold report_progress. trackings. apply tracks_bind; [apply get_last_progress_tracks |]. trackings.
  apply tracks_bind; [apply set_last_progress_tracks |]. trackings.
Qed.

Lemma acceptance_event_tracks device_id writer_boot st : tracks_leaving (acceptance_event device_id writer_boot st).
Proof.
  unfold acceptance_event. apply tracks_leaving_attempt; [intros d | by eexists]. apply tracks_leaves. trackings.
Qed.

Lemma accept_reported_tracks device_id metadata execution_mode validation_mode recovery_boot writer_boot result :
  tracks false (accept_reported device_id metadata execution_mode validation_mode recovery_boot writer_boot result).
Proof. unfold accept_reported. trackings. Qed.
Lemma accept_observed_tracks device_id operation_id metadata execution_mode validation_mode
    previous_boot recovery_boot writer_boot result :
  tracks false (accept_observed device_id operation_id metadata execution_mode validation_mode
    previous_boot recovery_boot writer_boot result).
Proof.
  unfold accept_observed, planned_restart. apply tracks_bind_loose.
  - destruct (is_str _ _); [by apply tracks_loosely, tracks_ret |]. apply loosely_swallowing. trackings.
  - trackings. apply tracks_bind; [apply tracks_until_deadline, acceptance_event_tracks | trackings].
Qed.
Lemma write_and_accept_tracks demo device_id image metadata operation_id execution_mode validation_mode
    previous_boot recovery_boot writer_boot b :
  tracks b (write_and_accept demo device_id image metadata operation_id execution_mode validation_mode
    previous_boot recovery_boot writer_boot).
Proof.
  unfold write_and_accept. trackings. apply tracks_bind.
  { apply tracks_ask_calling. intros p. apply tracks_loosely, report_progress_tracks. }
  trackings; [apply accept_reported_tracks | apply accept_observed_tracks].
Qed.

(** From the write on, a lost contact is an unknown outcome. *)
Lemma closed_loop_ota_unknown demo health device_id image metadata operation_id execution_mode validation_mode
    compatibility :
  spec (closed_loop_ota demo health device_id image metadata operation_id execution_mode validation_mode
      compatibility)
    (λ o t, (0 < count is_ota_write t)%nat → lost_is_unknown o (contact_lost t)).
Proof.
  unfold closed_loop_ota. destruct (negb (_ || _)); [apply spec_throw; unfold count; simpl; lia |].
  do 5 (apply once_lost; [counts | intros ? ?]).
  apply once_lost; [counts | intros [recovery_boot writer] ?].
  do 3 (apply once_lost; [counts | intros ? ?]).
  eapply spec_mono; [| intros o t Ho _; exact Ho]. eapply spec_mono.
  { apply lost_converted; [apply write_and_accept_tracks |].
    destruct demo; [apply spec_ret | apply spec_note; [done |]]; (split; [by left | done]). }
  intros [r|e|] t Ht; [| done | done]. intros Hl. unfold contact_lost in Hl. by rewrite Ht in Hl.
Qed.

(** ** Termination *)

Lemma encode_utf8_ok s : res_ok (encode_utf8 s).
Proof. unfold encode_utf8. res_oks. Qed.
Lemma check_contract_field_ok key item : res_ok (check_contract_field key item).
Proof. unfold check_contract_field. res_oks. apply encode_utf8_ok. Qed.
Lemma expectation_loop_res_ok fields value : ∀ result, res_ok (expectation_loop fields value result).
Proof.
  induction fields as [|key fields IH]; intros result; simpl; [done |].
  destruct (dict_lookup key value); [| apply IH].
  apply res_ok_bind; [apply check_contract_field_ok | intros; apply IH].
Qed.
Lemma compatibility_expectation_res_ok v : res_ok (compatibility_expectation v).
Proof. unfold compatibility_expectation. destruct v; try done. case_match; [done | apply expectation_loop_res_ok]. Qed.
Lemma validate_compatibility_res_ok status chip_id expectation recovery :
  res_ok (validate_update_compatibility status chip_id expectation recovery).
Proof.
  unfold validate_update_compatibility. case_match; [done |]. case_match; [done |].
  apply res_ok_bind; [apply compatibility_expectation_res_ok | intros r].
  case_match; [done |]. case_match; [done |]. apply compatibility_expectation_res_ok.
Qed.
Lemma unhex_ok n : ∀ s, (String.length s < n)%nat → res_ok (unhex s).
Proof.
  induction n as [|n IH]; intros s Hs; [lia |]. destruct s as [|a s]; [done |]. simpl in *.
  destruct (is_space a); [apply IH; lia |]. destruct s as [|b s]; [done |]. simpl in *.
  destruct (hex_value a), (hex_value b); try done. apply res_ok_bind; [apply IH; lia | done].
Qed.
Lemma fromhex_ok v : res_ok (fromhex v).
Proof. destruct v; try done. by apply (unhex_ok (S (String.length s))); lia. Qed.
Lemma require_mode_ok v : res_ok (_require_ota_validation_mode v).
Proof. unfold _require_ota_validation_mode. by case_match. Qed.
Lemma validate_identity_ok status metadata mode : res_ok (_validate_ota_identity status metadata mode).
Proof.
  unfold _validate_ota_identity. apply res_ok_bind; [apply require_mode_ok | intros m].
  case_match; [done |]. destruct (identity_fields _ _ _) as [[[? ?] ?] ?]. repeat (case_match; [done |]). done.
Qed.
Lemma check_project_ok before metadata : res_ok (check_project before metadata).
Proof.
  unfold check_project. case_match; [| done]. apply res_ok_bind; [apply subscript_ok | intros].
  by apply res_ok_raise_if.
Qed.

Context `{!RuntimeLaws}.

Lemma float_ok v : res_ok (py_float v).
Proof.
  unfold py_float. destruct (number v); [by case_match |].
  destruct (float_other v) eqn:E; [done | by apply float_other_ok, conversion_error in E as []].
Qed.
Lemma health_timeout_ok status override : res_ok (health_timeout status override).
Proof.
  unfold health_timeout, seconds_of. apply res_ok_bind; [| intros; by case_match].
  destruct override; [apply float_ok | apply res_ok_bind; [apply float_ok | done]].
Qed.

#[local] Hint Resolve validate_compatibility_res_ok fromhex_ok require_mode_ok validate_identity_ok
  check_project_ok health_timeout_ok : safe.

Lemma report_progress_safe operation_id execution_mode n p : safe (report_progress operation_id execution_mode n p).
Proof. unfold report_progress. safes. Qed.
#[local] Hint Resolve report_progress_safe : safe.

Lemma enter_recovery_safe device_id operation_id boot : safe (enter_recovery device_id operation_id boot).
Proof. unfold enter_recovery, look_for_recovery. safes. Qed.
Lemma accept_reported_safe device_id metadata execution_mode validation_mode recovery_boot writer_boot result :
  safe (accept_reported device_id metadata execution_mode validation_mode recovery_boot writer_boot result).
Proof. unfold accept_reported. safes. Qed.
Lemma accept_observed_safe device_id operation_id metadata execution_mode validation_mode
    previous_boot recovery_boot writer_boot result :
  safe (accept_observed device_id operation_id metadata execution_mode validation_mode
    previous_boot recovery_boot writer_boot result).
Proof. unfold accept_observed, planned_restart, acceptance_event. safes. Qed.
#[local] Hint Resolve accept_reported_safe accept_observed_safe : safe.
Lemma write_and_accept_safe demo device_id image metadata operation_id execution_mode validation_mode
    previous_boot recovery_boot writer_boot :
  safe (write_and_accept demo device_id image metadata operation_id execution_mode validation_mode
    previous_boot recovery_boot writer_boot).
Proof. unfold write_and_accept. safes. Qed.
#[local] Hint Resolve enter_recovery_safe write_and_accept_safe : safe.

Lemma closed_loop_ota_safe demo health device_id image metadata operation_id execution_mode validation_mode
    compatibility :
  safe (closed_loop_ota demo health device_id image metadata operation_id execution_mode validation_mode
    compatibility).
Proof. unfold closed_loop_ota. safes. Qed.

(** ** Properties *)

(** C8: an application update that returns has seen its image accepted.  The device
    passed the compatibility check, both as it was found and as the firmware
    that performs the write; the image was transferred with the digest of its
    metadata; and after that the device itself reported the identity of the
    image, on a boot that is not the writer's, which it also reported healthy -
    with the result of the transfer, or by an event of that boot. *)
Theorem ota_accepted demo health device_id image metadata operation_id execution_mode validation_mode
    compatibility w r w' :
  w_trace w = [] →
  closed_loop_ota demo health device_id image metadata operation_id execution_mode validation_mode
    compatibility w = (Done r, w') →
  ∃ t1 t2 writer, w_trace w' = t1 ++ t2
    ∧ writer_checked device_id metadata execution_mode compatibility writer t1
    ∧ written_then_accepted device_id image metadata validation_mode (dict_get "boot_id" writer) r t2.
Proof.
  intros Hw Hrun. eapply returning_run in Hrun; [exact Hrun | apply closed_loop_ota_seen | done].
Qed.

(** C17: an application update writes at most once, whatever happens, ends after
    finitely many answers, and makes an unknown outcome of every contact it
    loses from the write on.  Once the write was called, a run whose last answer
    was the exception of a lost contact - a lost connection, a device that is
    gone, a timeout - raises [OperationOutcomeUnknown], unless it is still
    waiting for a further answer; and whatever exception it raises, it is none
    of a lost contact, so that nobody takes the update for one that did not
    happen. *)
Theorem ota_writes_once demo health device_id image metadata operation_id execution_mode validation_mode
    compatibility w o w' :
  w_trace w = [] → env_ok w →
  closed_loop_ota demo health device_id image metadata operation_id execution_mode validation_mode
    compatibility w = (o, w') →
  (count is_ota_write (w_trace w') ≤ 1)%nat
  ∧ outcome_ok o
  ∧ ((0 < count is_ota_write (w_trace w'))%nat →
       (contact_lost (w_trace w') = true →
          o = Blocked ∨ ∃ e, o = Raised e ∧ exn_cls e = OperationOutcomeUnknown)
       ∧ ∀ e, o = Raised e → catches LOST_CONTACT e = false).
Proof.
  intros Hw Henv Hrun.
  destruct (closed_loop_ota_safe demo health device_id image metadata operation_id execution_mode validation_mode
    compatibility w Henv) as [Ho _].
  pose proof (closed_loop_ota_writes demo health device_id image metadata operation_id execution_mode validation_mode
    compatibility) as Hwrites.
  pose proof (closed_loop_ota_contact demo health device_id image metadata operation_id execution_mode validation_mode
    compatibility) as Hcontact.
  pose proof (closed_loop_ota_unknown demo health device_id image metadata operation_id execution_mode validation_mode
    compatibility) as Hunknown.
  split_and!; [by apply (spec_run _ _ _ _ _ Hwrites Hw Hrun) | by rewrite Hrun in Ho |].
  intros Hn. split; [by apply (spec_run _ _ _ _ _ Hunknown Hw Hrun) | by apply (spec_run _ _ _ _ _ Hcontact Hw Hrun)].
Qed.
End props.
#[export] Hint Resolve validate_compatibility_res_ok fromhex_ok require_mode_ok validate_identity_ok
  check_project_ok health_timeout_ok : safe.

(** ** An update *)

Definition example_metadata : dict :=
  [("sha256", PStr "0011"); ("project_name", PStr "app"); ("version", PStr "2.0"); ("chip_id", PInt 32);
   ("elf_sha256", PStr "AB")]%string.
Definition example_device (mode : string) (boot : Z) (elf : string) : dict :=
  example_status mode ++ [("boot_id", PInt boot); ("project_name", PStr "app"); ("firmware_sha256", PStr elf)]%string.
Definition world_of (script : list answer) : world := World_ script GatewayStore_init 0 (0, None) [].

(** From normal mode through Recovery: a stale event, then the new boot. *)
Definition example_ota_script (final : string) : list answer :=
  [dict_answer (example_device "normal" 1 "cd"); unit_answer; unit_answer; unit_answer;
   unit_answer; unit_answer; dict_answer (example_device "recovery" 2 "ef"); unit_answer;
   unit_answer; unit_answer;
   callback_answer [("progress_permille", PInt 500)]%string; unit_answer;
   dict_answer [("job_id", PInt 7)]%string; unit_answer; int_answer 250; unit_answer;
   unit_answer; dict_answer [("event_name", PStr "healthy"); ("boot_id", PInt 2)]%string;
   unit_answer; dict_answer [("event_name", PStr "healthy"); ("boot_id", PInt 3)]%string;
   dict_answer (example_device "normal" 3 final)]%string.
Definition example_ota (final : string) : outcome dict * world :=
  @closed_loop_ota plain_runtime false None "a" [1; 2; 3] example_metadata "op" "recovery" "elf_sha256" PNone
    (world_of (example_ota_script final)).

Lemma ota_accepted_witness : ∃ t1 t2 writer, w_trace (snd (example_ota "ab")) = t1 ++ t2
  ∧ writer_checked "a" example_metadata "recovery" PNone writer t1
  ∧ @written_then_accepted plain_runtime "a" [1; 2; 3] example_metadata "elf_sha256" (dict_get "boot_id" writer)
      (match fst (example_ota "ab") with Done r => r | _ => [] end) t2.
Proof.
  apply (@ota_accepted plain_runtime false None "a" [1; 2; 3] example_metadata "op" "recovery" "elf_sha256" PNone
    (world_of (example_ota_script "ab"))); [reflexivity |].
  vm_compute. reflexivity.
Defined.

(** A lost connection during the write is an unknown outcome. *)
Definition example_lost : world :=
  world_of (take 11 (example_ota_script "ab") ++ [error_answer ConnectionError]).
Lemma example_lost_ok : env_ok example_lost.
Proof. repeat constructor; discriminate. Qed.
Definition example_lost_run : outcome dict * world :=
  @closed_loop_ota plain_runtime false None "a" [1; 2; 3] example_metadata "op" "recovery" "elf_sha256" PNone
    example_lost.
Lemma ota_writes_once_witness :
  count is_ota_write (w_trace (snd example_lost_run)) = 1%nat
  ∧ (count is_ota_write (w_trace (snd example_lost_run)) ≤ 1)%nat
  ∧ outcome_ok (fst example_lost_run)
  ∧ (fst example_lost_run = Blocked
     ∨ ∃ e, fst example_lost_run = Raised e ∧ exn_cls e = OperationOutcomeUnknown).
Proof.
  split; [vm_compute; reflexivity |].
  destruct (@ota_writes_once plain_runtime plain_runtime_laws false None "a" [1; 2; 3] example_metadata "op"
    "recovery" "elf_sha256" PNone example_lost (fst example_lost_run) (snd example_lost_run))
    as (H1 & H2 & H3); [reflexivity | apply example_lost_ok | vm_compute; reflexivity |].
  split; [exact H1 | split; [exact H2 |]]. apply H3; vm_compute; [lia | reflexivity].
Defined.

(** ** Restarts *)

Section restart.
Context `{Runtime}.

(** The reboot the result [r] speaks of. *)
Definition reboot_seen (device_id : string) (previous_boot : pyval) (r : dict) (t : list event) : Prop :=
  ∃ event status,
    saw (QueueGet device_id) event ∈ t ∧ saw (Status device_id) status ∈ t
    ∧ dict_get "connection_state" event = PStr "rebooted" ∧ dict_get "boot_id" event ≠ PNone
    ∧ py_eq (dict_get "boot_id" event) previous_boot = false
    ∧ dict_get "boot_id" r = dict_get "boot_id" event ∧ dict_get "app_version" r = dict_get "app_version" status.
Lemma reboot_seen_mono d boot r t u : reboot_seen d boot r t → (∀ e, e ∈ t → e ∈ u) → reboot_seen d boot r u.
Proof. intros (event & status & ? & ? & ?) Htu. exists event, status. split_and!; naive_solver. Qed.

Lemma restart_loop_seen device_id previous_boot delay :
  returning (until_deadline (restart_event device_id previous_boot delay) tt)
    (λ x t, match x with inl _ => True | inr r => reboot_seen device_id previous_boot r t end).
Proof.
  apply (returning_until_deadline (λ _ _, True)); [done | unfold restart_event; appends |].
  intros [] t _ t0. unfold restart_event.
  apply returning_attempt_bind; [intros event v Hev | intros v; by apply returning_ret]. cbv zeta.
  destruct (_ && _) eqn:Hg; [| by apply returning_ret].
  apply andb_true_iff in Hg as [[[Hk Hc%is_str_eq]%andb_true_iff Hn%negb_true_iff]%andb_true_iff Hne%negb_true_iff].
  apply returning_ask_bind. intros status. apply returning_ret. apply is_none_false in Hn.
  exists event, status. split_and!; [set_solver | set_solver | done ..].
Qed.

(** A restart that returns has seen a reboot event of a boot that is not the one
    the device had before, and then a status answer; its result names that boot. *)
Theorem restart_observed device_id delay_ms operation_id w r w' :
  w_trace w = [] → closed_loop_restart false device_id delay_ms operation_id w = (Done r, w') →
  ∃ before, saw (Status device_id) before ∈ w_trace w'
    ∧ reboot_seen device_id (dict_get "boot_id" before) r (w_trace w').
Proof.
  intros Hw Hrun.
  assert (Hspec : returning (closed_loop_restart false device_id delay_ms operation_id) (λ r t,
    ∃ before, saw (Status device_id) before ∈ t ∧ reboot_seen device_id (dict_get "boot_id" before) r t)).
  { apply returning_ask_bind. intros before. cbv zeta. apply returning_after; [appends | intros [] t1].
    eapply (returning_finally _ _ (reboot_seen device_id (dict_get "boot_id" before))); [| appends |].
    - apply returning_after; [appends | intros delay t2]. apply returning_after; [appends | intros [] t3].
      eapply returning_bind; [apply restart_loop_seen |].
      intros [u|r0] t Ht; [apply returning_throw |]. apply returning_ret.
      eapply reboot_seen_mono; [exact Ht | set_solver].
    - intros r0 t t2 Ht. exists before. split; [set_solver |]. eapply reboot_seen_mono; [exact Ht | set_solver]. }
  eapply returning_run in Hrun; [exact Hrun | exact Hspec | done].
Qed.
End restart.

(** Status of boot 3, then a restart whose events are [events]; the last status
    is of boot [boot]. *)
Definition example_restart_script (events : list dict) (boot : Z) : list answer :=
  [dict_answer (example_device "normal" 3 "ab"); unit_answer; int_answer 250; unit_answer]
  ++ concat (map (λ e, [unit_answer; dict_answer e]) events) ++ [dict_answer (example_device "normal" boot "ab")].
Definition example_restart (events : list dict) (boot : Z) : outcome dict * world :=
  @closed_loop_restart plain_runtime false "a" 250 "op" (world_of (example_restart_script events boot)).

Lemma restart_observed_witness : ∃ before,
  saw (Status "a") before ∈ w_trace (snd (example_restart [example_rebooted 4] 4))
  ∧ @reboot_seen plain_runtime "a" (dict_get "boot_id" before)
      (match fst (example_restart [example_rebooted 4] 4) with Done r => r | _ => [] end)
      (w_trace (snd (example_restart [example_rebooted 4] 4))).
Proof.
  apply (@restart_observed plain_runtime "a" 250 "op" (world_of (example_restart_script [example_rebooted 4] 4)));
    [reflexivity |]. vm_compute. reflexivity.
Defined.

(** A device that has rebooted twice before, now on boot 3: the events a new
    subscription replays make a restart return at once, naming boot 2, while
    the device still answers from boot 3. *)
Example restart_accepts_history :
  let replayed := queue_of 0 (fst (subscribe "a" true 0 (publish example_past hub_events_init))) in
  let r := match fst (example_restart (take 1 replayed) 3) with Done r => r | _ => [] end in
  dict_get "reconnected" r = PBool true ∧ dict_get "boot_id" r = PInt 2.
Proof. vm_compute. split; reflexivity. Qed.
