(* ===== verification/SystemUpdateWorkflow.v ===== *)
(** * The closed-loop system update ([system_update_workflow.py])

    [run_system_update] preserves evidence, brings the device into Recovery,
    applies the bundle, and proves the resulting state: the commit receipt, the
    layout, the component identities and a healthy new boot. *)
From S2P Require Import Prelude Text Sha256 Value Effects Firmware Compatibility Store SystemUpdate Runtime Uuid Workflow.
From S2P Require Import Reconciliation Coredump OtaWorkflow.

(** [FirmwareImage.as_dict] *)
Definition firmware_as_dict (fw : FirmwareImage) : dict :=
  [("sha256", PStr (fw_sha256 fw)); ("size", PInt (fw_size fw)); ("chip_id", PInt (fw_chip_id fw));
   ("project_name", PStr (fw_project_name fw)); ("version", PStr (fw_version fw));
   ("elf_sha256", PStr (fw_elf_sha256 fw))]%string.

(** The first component of a kind. *)
Definition component_of (kind : SystemUpdateComponentKind) (bundle : SystemUpdateBundle) : option SystemUpdateComponent :=
  find (λ c, bool_decide (cp_kind c = kind)) (bd_components bundle).
Definition target_image (kind : SystemUpdateComponentKind) (bundle : SystemUpdateBundle) : res (option dict) :=
  match component_of kind bundle with
  | Some c => fw ← inspect_firmware_image (cp_data c); Ok (Some (firmware_as_dict fw))
  | None => Ok None
  end.
Definition opt_dict (d : option dict) : pyval := match d with Some d => PDict d | None => PNone end.

Section system_update.
Context `{Runtime}.
(** [preserve_coredump] and [validate_identity], which the Gateway passes in. *)
Context (preserve : string → W (option dict)) (validate_identity : dict → dict → string → res dict).

(** ** Recovery *)

Definition reach_recovery (device_id operation_id : string) (before : dict) : W dict :=
  if is_str (dict_get "firmware_mode" before) "recovery" then mret before
  else
    let previous_boot := dict_get "boot_id" before in
    _ ← ask (A:=unit) (ReportProgress operation_id "entering_recovery" 30 [("previous_boot_id", previous_boot)]%string);
    _ ← try_except (ask (A:=unit) (EnterRecovery device_id)) [ConnectionError; OSError] (λ _, mret tt);
    found ← until_deadline (look_for_recovery device_id previous_boot) tt;
    match found with
    | inr recovery_status => mret recovery_status
    | inl _ => throw OperationOutcomeUnknown "factory recovery did not reconnect for system update"
    end.

(** ** The update *)

Definition report_update_progress (operation_id : string) (progress : dict) : W unit :=
  device_progress ← lift (int (get_or "progress_permille" (PInt 0) progress));
  last_progress ← get_last_progress;
  if (device_progress <? last_progress + 10) && (device_progress <? 950) then mret tt
  else
    _ ← set_last_progress device_progress;
    ask (ReportProgress operation_id (str (get_or "stage" (PStr "transferring") progress))
      (50 + device_progress * 800 / 1000)
      [("device_progress_permille", PInt device_progress); ("component_id", dict_get "component_id" progress);
       ("component_kind", dict_get "component_kind" progress);
       ("bytes_received", get_or "bytes_received" (PInt 0) progress);
       ("bytes_total", get_or "bytes_total" (PInt 0) progress); ("job_id", dict_get "job_id" progress)]%string).

(** One event after the update; left when a new boot is healthy. *)
Definition healthy_event (device_id : string) (writer_boot new_boot : pyval) : W (pyval + pyval) :=
  event ← attempt (QueueGet device_id) [TimeoutError];
  match event with
  | None => mret (inl new_boot)
  | Some event =>
    let event_boot := dict_get "boot_id" event in
    let new_boot := if negb (is_none event_boot) && negb (py_eq event_boot writer_boot) then event_boot else new_boot in
    mret (if is_str (dict_get "event_name" event) "healthy" && py_eq event_boot new_boot
          then inr new_boot else inl new_boot)
  end.

Record observation := Observation {
  ob_result : dict; ob_new_boot : pyval; ob_inventory : dict; ob_status : dict;
}.

(** The [try] block: from the write to the observation of the new boot. *)
Definition update_and_observe (device_id : string) (bundle : SystemUpdateBundle) (operation_id : string)
    (wire_id : bytes) (writer_boot : pyval) : W observation :=
  result ← ask_calling (A:=dict) (UpdateSystem device_id bundle wire_id) (report_update_progress operation_id);
  _ ← ask (A:=unit) (ReportProgress operation_id "waiting_device" 875 [("writer_boot_id", writer_boot)]%string);
  _ ← (if is_str (dict_get "completion_evidence" result) "session_close" then mret tt
       else try_except (_ ← ask (A:=Z) (RestartDevice device_id 250); mret tt)
              [ConnectionError; OSError; KeyError] (λ _, mret tt));
  observed ← until_deadline (healthy_event device_id writer_boot) PNone;
  let unknown := throw OperationOutcomeUnknown "system update was written but healthy acceptance was not observed" in
  match observed with
  | inl _ => unknown
  | inr new_boot =>
    if is_none new_boot then unknown
    else
      status ← ask (A:=dict) (Status device_id);
      inventory_after ← ask (A:=dict) (SystemUpdateInventory device_id);
      after ← ask (A:=dict) (Status device_id);
      if negb (py_eq (dict_get "boot_id" status) new_boot) || negb (py_eq (dict_get "boot_id" after) new_boot)
      then throw OperationOutcomeUnknown "system update rebooted after HEALTHY; acceptance needs reconciliation"
      else mret (Observation result new_boot inventory_after after)
  end.

(** ** The resulting state *)

(** The commit receipt and the identities of what is installed now. *)
Definition check_receipt (bundle : SystemUpdateBundle) (wire_id : bytes) (inventory_after : dict) : res unit :=
  if negb (py_eq (dict_get "partition_table_sha256" inventory_after) (PStr (bd_target_layout_sha256 bundle)))
  then raise RuntimeError "post-update partition-table SHA-256 does not match"
  else if negb (py_eq (dict_get "last_operation_id" inventory_after) (PStr (hex wire_id)))
  then raise RuntimeError "post-update sysmeta operation ID does not match"
  else
    last_result ← int (get_or "last_result" (PInt (-1)) inventory_after);
    if negb (last_result =? 0) then raise RuntimeError "post-update sysmeta records a failed commit"
    else match component_of BOOTLOADER bundle with
         | Some bootloader =>
           raise_if (negb (py_eq (dict_get "bootloader_sha256" inventory_after) (PStr (hex (cp_sha256 bootloader)))))
             RuntimeError "post-update bootloader SHA-256 does not match"
         | None => Ok tt
         end.

Definition check_application (bundle : SystemUpdateBundle) (status : dict) (target_application : option dict)
    (validation_mode : string) : res pyval :=
  match component_of APPLICATION bundle with
  | Some _ => v ← validate_identity status (default [] target_application) validation_mode; Ok (PDict v)
  | None => Ok PNone
  end.
Definition check_recovery (status : dict) (target_recovery : option dict) (validation_mode : string) : res pyval :=
  match target_recovery with
  | Some target =>
    if negb (is_str (dict_get "firmware_mode" status) "recovery")
    then raise RuntimeError "updated Recovery did not boot in recovery mode"
    else v ← validate_identity status target validation_mode; Ok (PDict v)
  | None => Ok PNone
  end.

Definition run_system_update (device_id : string) (bundle : SystemUpdateBundle) (operation_id validation_mode : string)
    (health_timeout_override : option pyval) (compatibility : pyval) : W dict :=
  before ← ask (A:=dict) (Status device_id);
  required_compatibility ←
    lift (validate_update_compatibility before (PInt (bd_chip_id bundle)) compatibility false);
  _ ← lift (health_timeout before health_timeout_override);
  let previous_boot := dict_get "boot_id" before in
  preserved_coredump ← preserve device_id;
  _ ← match preserved_coredump with
      | Some coredump => ask (A:=unit) (ReportProgress operation_id "preserving_evidence" 20 [("coredump", PDict coredump)]%string)
      | None => mret tt
      end;
  recovery_status ← reach_recovery device_id operation_id before;
  let writer_boot := dict_get "boot_id" recovery_status in
  _ ← lift (validate_update_compatibility recovery_status (PInt (bd_chip_id bundle))
              (PDict required_compatibility) true);
  inventory_before ← ask (A:=dict) (SystemUpdateInventory device_id);
  target_application ← lift (target_image APPLICATION bundle);
  target_recovery ← lift (target_image RECOVERY bundle);
  if negb (bool_decide (target_recovery = None))
     && negb (py_eq (dict_get "partition_table_sha256" inventory_before) (PStr (bd_target_layout_sha256 bundle)))
  then throw RuntimeError "Recovery self-update source layout does not match the bundle"
  else
    _ ← ask (A:=unit) (ReportProgress operation_id "validating_plan" 50
          [("source_inventory", PDict inventory_before); ("writer_boot_id", writer_boot);
           ("target_application", opt_dict target_application); ("target_recovery", opt_dict target_recovery)]%string);
    wire_id ← lift (wire_operation_id operation_id);
    _ ← set_last_progress (-10);
    _ ← invoke (A:=unit) (Subscribe device_id);
    observed ← try_finally
      (try_except (update_and_observe device_id bundle operation_id wire_id writer_boot)
         [ConnectionError; OSError; KeyError; LookupError]
         (λ _, throw OperationOutcomeUnknown "system update outcome needs read-only reconciliation"))
      (note (Unsubscribed device_id));
    let status := ob_status observed in
    _ ← lift (check_receipt bundle wire_id (ob_inventory observed));
    application_validation ← lift (check_application bundle status target_application validation_mode);
    recovery_validation ← lift (check_recovery status target_recovery validation_mode);
    mret (dict_updated (ob_result observed)
      [("validated", PBool true); ("healthy", PBool true); ("previous_boot_id", previous_boot);
       ("writer_boot_id", writer_boot); ("boot_id", ob_new_boot observed);
       ("source_inventory", PDict inventory_before); ("target_inventory", PDict (ob_inventory observed));
       ("application_validation", application_validation); ("recovery_validation", recovery_validation);
       ("preserved_coredump", opt_dict preserved_coredump)]%string).
End system_update.

(** The Gateway's update: the same with its own evidence and identity checks. *)
Definition closed_loop_system_update `{Runtime} (ota_health_timeout : option pyval)
    (device_id : string) (bundle : SystemUpdateBundle) (operation_id : string) (compatibility : pyval) : W dict :=
  run_system_update preserve_coredump _validate_ota_identity device_id bundle operation_id
    DEFAULT_OTA_VALIDATION_MODE ota_health_timeout compatibility.
