(* ===== verification/SystemUpdateWorkflowProps.v ===== *)
(** * Properties of the closed-loop system update

    What a returned system update has proved of the device, how often it
    writes, what it makes of a lost contact, and that it ends. *)
From S2P Require Import Prelude Text Sha256 Value Effects Firmware Compatibility Store SystemUpdate Runtime Uuid Workflow.
From S2P Require Import Reconciliation Coredump OtaWorkflow HubEvents OtaWorkflowProps SystemUpdateWorkflow.

Section props.
Context `{Runtime} (preserve : string → W (option dict)) (validate_identity : dict → dict → string → res dict).
Context (Hpreserve : ∀ d, appending (preserve d)).

#[local] Hint Resolve Hpreserve : appending.

(** ** What a returned update rests on *)

Lemma reach_recovery_seen device_id operation_id before :
  returning (reach_recovery device_id operation_id before)
    (λ s t, dict_get "firmware_mode" s = PStr "recovery" ∧ (s = before ∨ saw (Status device_id) s ∈ t)).
Proof.
  unfold reach_recovery. destruct (is_str _ _) eqn:Hm.
  { apply returning_ret. apply is_str_eq in Hm. by auto. }
  cbv zeta.
  apply returning_after; [appends | intros [] t1]. apply returning_after; [appends | intros [] t2].
  eapply returning_bind; [apply look_for_recovery_seen |].
  intros [u|s] t Hs; [apply returning_throw |]. destruct Hs as (Hs & Hmode & _).
  apply returning_ret. split; [done | right; set_solver].
Qed.

(** A new boot, seen healthy by an event, and still there in both later
    readings of the status. *)
Record new_boot_proved (device_id : string) (writer_boot : pyval) (o : observation) (t : list event) : Prop := {
  nb_some : ob_new_boot o ≠ PNone;
  nb_new : py_eq (ob_new_boot o) writer_boot = false;
  nb_healthy : ∃ event, saw (QueueGet device_id) event ∈ t ∧ dict_get "event_name" event = PStr "healthy"
    ∧ py_eq (dict_get "boot_id" event) (ob_new_boot o) = true;
  nb_status : ∃ status, saw (Status device_id) status ∈ t
    ∧ py_eq (dict_get "boot_id" status) (ob_new_boot o) = true;
  nb_after : saw (Status device_id) (ob_status o) ∈ t
    ∧ py_eq (dict_get "boot_id" (ob_status o)) (ob_new_boot o) = true;
  nb_inventory : saw (SystemUpdateInventory device_id) (ob_inventory o) ∈ t;
}.

Lemma new_boot_proved_mono d w o t u : new_boot_proved d w o t → (∀ e, e ∈ t → e ∈ u) → new_boot_proved d w o u.
Proof.
  intros [? ? (ev & ? & ?) (st & ? & ?) [? ?] ?] Htu.
  split; [done | done | by exists ev; auto | by exists st; auto | by auto | by auto].
Qed.

Lemma healthy_loop_seen device_id writer_boot :
  returning (until_deadline (healthy_event device_id writer_boot) PNone)
    (λ x t, match x with
            | inl _ => True
            | inr boot => new_since writer_boot boot ∧ ∃ event, saw (QueueGet device_id) event ∈ t
                ∧ dict_get "event_name" event = PStr "healthy" ∧ py_eq (dict_get "boot_id" event) boot = true
            end).
Proof.
  apply (returning_until_deadline (λ boot _, new_since writer_boot boot)); [by left | unfold healthy_event; appends |].
  intros boot t Hboot t0. unfold healthy_event.
  apply returning_attempt_bind; [intros event v Hev | intros v; by apply returning_ret]. cbv zeta.
  rewrite (andb_comm (negb (is_none _))).
  pose proof (new_since_next writer_boot boot (dict_get "boot_id" event) Hboot) as Hnext.
  destruct (is_str _ _ && _) eqn:Hh; apply returning_ret; [| exact Hnext].
  apply andb_true_iff in Hh as [Hname%is_str_eq Heq]. split; [exact Hnext |].
  exists event. split_and!; [set_solver | done | done].
Qed.

Lemma report_update_progress_appending operation_id p : appending (report_update_progress operation_id p).
Proof. unfold report_update_progress. appends. Qed.
#[local] Hint Resolve report_update_progress_appending : appending.

Lemma update_and_observe_seen device_id bundle operation_id wire_id writer_boot :
  returning (update_and_observe device_id bundle operation_id wire_id writer_boot)
    (λ o t, ∃ t1 t2, t = Called (UpdateSystem device_id bundle wire_id)
         :: t1 ++ saw (UpdateSystem device_id bundle wire_id) (ob_result o) :: t2
       ∧ new_boot_proved device_id writer_boot o t2).
Proof.
  unfold update_and_observe.
  eapply returning_bind; [apply returning_ask_calling, report_update_progress_appending |].
  intros result t1 [u ->]. apply returning_after; [appends | intros [] t2].
  apply returning_after; [appends | intros [] t3].
  eapply returning_bind; [apply healthy_loop_seen |]. intros [b|boot] t Hx; [apply returning_throw |].
  destruct (is_none boot) eqn:Hn; [apply returning_throw |]. apply is_none_false in Hn.
  destruct Hx as ([? | [_ Hw]] & event & Hev & Hname & Heq); [done |].
  apply returning_ask_bind. intros status. apply returning_ask_bind. intros inventory.
  apply returning_ask_bind. intros after. destruct (_ || _) eqn:Hb; [apply returning_throw |].
  apply orb_false_iff in Hb as [Hs%negb_false_iff Ha%negb_false_iff]. apply returning_ret.
  eexists u, _.
  split; [simpl; by rewrite <- !app_assoc; simpl |].
  split; simpl; [done | done | exists event | exists status | | ]; (split_and!; [set_solver | done ..]) || set_solver.
Qed.

(** ** The whole update *)

(** The receipt and the identities checked of what the device reports now. *)
Record state_proved (bundle : SystemUpdateBundle) (operation_id validation_mode : string) (wire_id : bytes)
    (o : observation) : Prop := {
  sp_wire : wire_operation_id operation_id = Ok wire_id;
  sp_layout : py_eq (dict_get "partition_table_sha256" (ob_inventory o)) (PStr (bd_target_layout_sha256 bundle)) = true;
  sp_receipt : py_eq (dict_get "last_operation_id" (ob_inventory o)) (PStr (hex wire_id)) = true;
  sp_result : int (get_or "last_result" (PInt (-1)) (ob_inventory o)) = Ok 0;
  sp_bootloader : ∀ c, component_of BOOTLOADER bundle = Some c →
    py_eq (dict_get "bootloader_sha256" (ob_inventory o)) (PStr (hex (cp_sha256 c))) = true;
  sp_application : ∀ c, component_of APPLICATION bundle = Some c →
    ∃ fw v, inspect_firmware_image (cp_data c) = Ok fw
      ∧ validate_identity (ob_status o) (firmware_as_dict fw) validation_mode = Ok v;
  sp_recovery : ∀ c, component_of RECOVERY bundle = Some c →
    ∃ fw v, inspect_firmware_image (cp_data c) = Ok fw
      ∧ dict_get "firmware_mode" (ob_status o) = PStr "recovery"
      ∧ validate_identity (ob_status o) (firmware_as_dict fw) validation_mode = Ok v;
}.

Lemma check_receipt_Ok bundle wire_id inventory : check_receipt bundle wire_id inventory = Ok tt →
  py_eq (dict_get "partition_table_sha256" inventory) (PStr (bd_target_layout_sha256 bundle)) = true
  ∧ py_eq (dict_get "last_operation_id" inventory) (PStr (hex wire_id)) = true
  ∧ int (get_or "last_result" (PInt (-1)) inventory) = Ok 0
  ∧ ∀ c, component_of BOOTLOADER bundle = Some c →
      py_eq (dict_get "bootloader_sha256" inventory) (PStr (hex (cp_sha256 c))) = true.
Proof.
  unfold check_receipt. intros Hc. apply if_raise_Ok in Hc as [G1%negb_false_iff Hc].
  apply if_raise_Ok in Hc as [G2%negb_false_iff Hc].
  bind Hc as last Elast. apply if_raise_Ok in Hc as [G3%negb_false_iff Hc]. apply Z.eqb_eq in G3 as ->.
  split_and!; [done | done | done |]. intros c Ec. rewrite Ec in Hc. by apply raise_if_false, negb_false_iff in Hc.
Qed.

Lemma target_image_Ok kind bundle d : target_image kind bundle = Ok d → ∀ c, component_of kind bundle = Some c →
  ∃ fw, inspect_firmware_image (cp_data c) = Ok fw ∧ d = Some (firmware_as_dict fw).
Proof.
  unfold target_image. intros Hd c Hc. rewrite Hc in Hd. bind Hd as fw Efw. injection Hd as <-. by exists fw.
Qed.

Lemma state_proved_intro bundle operation_id validation_mode wire_id o application recovery va vr :
  wire_operation_id operation_id = Ok wire_id →
  target_image APPLICATION bundle = Ok application → target_image RECOVERY bundle = Ok recovery →
  (py_eq (dict_get "partition_table_sha256" (ob_inventory o)) (PStr (bd_target_layout_sha256 bundle)) = true
   ∧ py_eq (dict_get "last_operation_id" (ob_inventory o)) (PStr (hex wire_id)) = true
   ∧ int (get_or "last_result" (PInt (-1)) (ob_inventory o)) = Ok 0
   ∧ ∀ c, component_of BOOTLOADER bundle = Some c →
       py_eq (dict_get "bootloader_sha256" (ob_inventory o)) (PStr (hex (cp_sha256 c))) = true) →
  check_application validate_identity bundle (ob_status o) application validation_mode = Ok va →
  check_recovery validate_identity (ob_status o) recovery validation_mode = Ok vr →
  state_proved bundle operation_id validation_mode wire_id o.
Proof.
  intros Hwire Happ Hrec (H1 & H2 & H3 & H4) Hva Hvr. split; try done.
  - intros c Hc. destruct (target_image_Ok _ _ _ Happ c Hc) as (fw & Hfw & ->).
    unfold check_application in Hva. rewrite Hc in Hva. bind Hva as v Ev. by exists fw, v.
  - intros c Hc. destruct (target_image_Ok _ _ _ Hrec c Hc) as (fw & Hfw & ->).
    unfold check_recovery in Hvr. apply if_raise_Ok in Hvr as [G%negb_false_iff Hvr]. apply is_str_eq in G.
    bind Hvr as v Ev. by exists fw, v.
Qed.

(** The device passed the compatibility check as it was found, with the
    requirement [compatibility] of the request; and the firmware that performs
    the write is Recovery and passes it against what the check required. *)
Definition writer_proved (device_id : string) (bundle : SystemUpdateBundle) (compatibility : pyval) (writer : dict)
    (t : list event) : Prop :=
  saw (Status device_id) writer ∈ t
  ∧ dict_get "firmware_mode" writer = PStr "recovery"
  ∧ ∃ before required, saw (Status device_id) before ∈ t
      ∧ validate_update_compatibility before (PInt (bd_chip_id bundle)) compatibility false = Ok required
      ∧ is_ok (validate_update_compatibility writer (PInt (bd_chip_id bundle)) (PDict required) true) = true.

(** The bundle was transferred by such firmware; then the new boot and the
    state were proved. *)
Definition update_proved (device_id : string) (bundle : SystemUpdateBundle) (operation_id validation_mode : string)
    (compatibility : pyval) (r : dict) (t : list event) : Prop :=
  ∃ t0 t1 t2 writer wire_id o,
    t = t0 ++ Called (UpdateSystem device_id bundle wire_id)
          :: t1 ++ saw (UpdateSystem device_id bundle wire_id) (ob_result o) :: t2
    ∧ writer_proved device_id bundle compatibility writer t0
    ∧ new_boot_proved device_id (dict_get "boot_id" writer) o t2
    ∧ state_proved bundle operation_id validation_mode wire_id o
    ∧ dict_get "validated" r = PBool true ∧ dict_get "boot_id" r = ob_new_boot o.

Lemma run_system_update_seen device_id bundle operation_id validation_mode health compatibility :
  returning (run_system_update preserve validate_identity device_id bundle operation_id validation_mode health
      compatibility)
    (update_proved device_id bundle operation_id validation_mode compatibility).
Proof.
  unfold run_system_update. apply returning_ask_bind. intros before.
  apply returning_lift_bind. intros required Hreq. apply returning_lift_bind. intros timeout _. cbv zeta.
  apply returning_after; [appends | intros coredump t1]. apply returning_after; [appends | intros [] t2].
  eapply returning_bind; [apply reach_recovery_seen |]. intros writer t3 [Hmode Hw]. cbv beta in Hw.
  apply returning_lift_bind. intros required2 Hreq2. apply returning_ask_bind. intros inventory.
  apply returning_lift_bind. intros application Happ. apply returning_lift_bind. intros recovery Hrec.
  destruct (_ && _); [apply returning_throw |]. apply returning_after; [appends | intros [] t4].
  apply returning_lift_bind. intros wire_id Hwire. apply returning_after; [appends | intros [] t5].
  apply returning_after; [appends | intros [] t6].
  eapply (returning_bind _ _ (λ o t, ∃ u v, t = u ++ v ∧ ∃ u1 u2,
    u = Called (UpdateSystem device_id bundle wire_id) :: u1 ++ saw (UpdateSystem device_id bundle wire_id) (ob_result o) :: u2
    ∧ new_boot_proved device_id (dict_get "boot_id" writer) o u2)).
  { eapply returning_finally; [| appends | intros o t t' Ho; exists t, t'; split; [reflexivity | exact Ho]].
    apply returning_try; [apply update_and_observe_seen | intros; apply returning_throw]. }
  intros o t7 (u & v & -> & u1 & u2 & -> & Hnew). cbv zeta.
  apply returning_lift_bind. intros [] Hreceipt%check_receipt_Ok. apply returning_lift_bind. intros va Hva.
  apply returning_lift_bind. intros vr Hvr. apply returning_ret.
  exists (Called (Status device_id) :: Replied (Status device_id) (Ok (RDict before)) :: t1 ++ t2 ++ t3
    ++ [Called (SystemUpdateInventory device_id); Replied (SystemUpdateInventory device_id) (Ok (RDict inventory))]
    ++ t4 ++ t5 ++ t6), u1, (u2 ++ v), writer, wire_id, o.
  split_and!; [| | | | |].
  - simpl. rewrite !app_nil_r, <- !app_assoc. simpl. by rewrite <- !app_assoc.
  - split_and!; [destruct Hw as [-> | Hw]; [right; left | set_solver] | done |].
    exists before, required. split_and!; [right; left | done | by rewrite Hreq2].
  - eapply new_boot_proved_mono; [exact Hnew | set_solver].
  - by eapply state_proved_intro.
  - unfold dict_get, dict_updated. cbn [fold_left]. by rewrite !dict_lookup_set.
  - unfold dict_get, dict_updated. cbn [fold_left]. by rewrite !dict_lookup_set.
Qed.

(** ** One write, and what becomes of a lost contact *)

Definition is_system_write (e : event) : bool := match e with Called (UpdateSystem _ _ _) => true | _ => false end.
Context (Hwrites : ∀ d, at_most is_system_write 0 (preserve d)).
#[local] Hint Resolve Hwrites : counting.

Lemma reach_recovery_writes device_id operation_id before :
  at_most is_system_write 0 (reach_recovery device_id operation_id before).
Proof. unfold reach_recovery, look_for_recovery. counts. Qed.
Lemma update_and_observe_writes device_id bundle operation_id wire_id writer_boot :
  at_most is_system_write 1 (update_and_observe device_id bundle operation_id wire_id writer_boot).
Proof.
  unfold update_and_observe. apply (at_most_bind_sum _ 1 0).
  - apply at_most_ask_calling; [done | done | apply report_update_progress_appending |].
    intros p. unfold report_update_progress. counts.
  - intros result. unfold healthy_event. counts.
Qed.
#[local] Hint Resolve reach_recovery_writes update_and_observe_writes : counting.
Lemma update_and_observe_appending device_id bundle operation_id wire_id writer_boot :
  appending (update_and_observe device_id bundle operation_id wire_id writer_boot).
Proof. eapply appending_spec, update_and_observe_writes. Qed.

(** What follows the observation writes nothing. *)
Lemma run_system_update_writes device_id bundle operation_id validation_mode health compatibility :
  at_most is_system_write 1 (run_system_update preserve validate_identity device_id bundle operation_id
    validation_mode health compatibility).
Proof.
  unfold run_system_update. apply at_most_bind; [counts | intros before].
  apply at_most_bind; [counts | intros required]. apply at_most_bind; [counts | intros timeout]. cbv zeta.
  apply at_most_bind; [counts | intros coredump]. apply at_most_bind; [counts | intros []].
  apply at_most_bind; [counts | intros writer]. apply at_most_bind; [counts | intros required2].
  apply at_most_bind; [counts | intros inventory]. apply at_most_bind; [counts | intros application].
  apply at_most_bind; [counts | intros recovery]. destruct (_ && _); [counts |].
  apply at_most_bind; [counts | intros []]. apply at_most_bind; [counts | intros wire_id].
  apply at_most_bind; [counts | intros []]. apply at_most_bind; [counts | intros []].
  apply (at_most_bind_sum _ 1 0); [counts | intros o; counts].
Qed.

(** No lost contact among the exceptions of a computed value. *)
Definition calm {A} (r : res A) : Prop := ∀ e, r = Err e → catches LOST_CONTACT e = false.
Lemma calm_bind {A B} (r : res A) (f : A → res B) : calm r → (∀ a, calm (f a)) → calm (r ≫= f).
Proof. intros Hr Hf. destruct r; simpl; [apply Hf | intros e' [= <-]; by apply Hr]. Qed.
Lemma calm_raise {A} c msg : catches LOST_CONTACT (Exn c msg 0) = false → calm (raise c msg : res A).
Proof. by intros Hc e [= <-]. Qed.
Lemma calm_ok {A} (a : A) : calm (Ok a).
Proof. by intros e. Qed.
Lemma calm_int `{!RuntimeLaws} v : calm (int v).
Proof. unfold int, py_int. destruct v; try apply calm_ok; intros e He; by apply int_other_ok, conversion_error in He as []. Qed.
Lemma calm_validate status metadata mode : calm (_validate_ota_identity status metadata mode).
Proof.
  unfold _validate_ota_identity. apply calm_bind; [unfold _require_ota_validation_mode; case_match; [apply calm_ok | by apply calm_raise] |].
  intros m. case_match; [by apply calm_raise |]. destruct (identity_fields _ _ _) as [[[? ?] ?] ?].
  repeat (case_match; [by apply calm_raise |]). apply calm_ok.
Qed.
Lemma spec_calm_bind {A B} (r : res A) (f : A → W B) :
  calm r → (∀ a, spec (f a) (λ o _, ∀ e, o = Raised e → catches LOST_CONTACT e = false)) →
  spec (lift r ≫= f) (λ o _, ∀ e, o = Raised e → catches LOST_CONTACT e = false).
Proof.
  intros Hr Hf. apply spec_bind, spec_lift; [intros a _; apply Hf | intros e He e' [= <-]; by apply Hr].
Qed.

Context `{!RuntimeLaws} (Hvalidate : ∀ s m v, calm (validate_identity s m v)).

Lemma run_system_update_contact device_id bundle operation_id validation_mode health compatibility :
  spec (run_system_update preserve validate_identity device_id bundle operation_id validation_mode health compatibility)
    (λ o t, (0 < count is_system_write t)%nat → ∀ e, o = Raised e → catches LOST_CONTACT e = false).
Proof.
  unfold run_system_update. do 3 (apply once_happened; [counts | intros]). cbv zeta.
  do 7 (apply once_happened; [counts | intros]). destruct (_ && _); [apply spec_throw; unfold count; simpl; lia |].
  do 4 (apply once_happened; [counts | intros]). eapply spec_mono; [| intros o t Ho _; exact Ho].
  apply spec_bind. eapply spec_mono.
  { apply spec_converted; [apply update_and_observe_appending | done | apply spec_note; [done | by left]]. }
  intros [o|e|] t Ho; [| intros e' [= <-]; by apply Ho | done]. cbv zeta.
  apply spec_calm_bind.
  { unfold check_receipt. case_match; [by apply calm_raise |]. case_match; [by apply calm_raise |].
    apply calm_bind; [apply calm_int | intros z]. case_match; [by apply calm_raise |].
    case_match; [| apply calm_ok]. unfold raise_if. case_match; [by apply calm_raise | apply calm_ok]. }
  intros []. apply spec_calm_bind.
  { unfold check_application. case_match; [| apply calm_ok]. apply calm_bind; [done | intros; apply calm_ok]. }
  intros va. apply spec_calm_bind.
  { unfold check_recovery. case_match; [| apply calm_ok]. case_match; [by apply calm_raise |].
    apply calm_bind; [done | intros; apply calm_ok]. }
  intros vr. by apply spec_ret.
Qed.

Lemma report_update_progress_tracks operation_id p : tracks false (report_update_progress operation_id p).
Proof.
  unfold report_update_progress. trackings. apply tracks_bind; [apply get_last_progress_tracks |]. trackings.
  apply tracks_bind; [apply set_last_progress_tracks |]. trackings.
Qed.
Lemma healthy_event_tracks device_id writer_boot st : tracks_leaving (healthy_event device_id writer_boot st).
Proof. unfold healthy_event. apply tracks_leaving_attempt; [intros d | by eexists]. apply tracks_leaves. trackings. Qed.
Lemma update_and_observe_tracks device_id bundle operation_id wire_id writer_boot b :
  tracks b (update_and_observe device_id bundle operation_id wire_id writer_boot).
Proof.
  unfold update_and_observe. apply tracks_bind.
  { apply tracks_ask_calling. intros p. apply tracks_loosely, report_update_progress_tracks. }
  trackings. apply tracks_bind_loose.
  - destruct (is_str _ _); [by apply tracks_loosely, tracks_ret |]. apply loosely_swallowing. trackings.
  - intros [] c. apply tracks_bind; [apply tracks_until_deadline, healthy_event_tracks |]. trackings.
Qed.

(** A computed value takes no answer. *)
Lemma lift_quiet {A B} (r : res A) (f : A → W B) :
  (∀ a, spec (f a) (λ _ t, contact_lost t = false)) → spec (lift r ≫= f) (λ _ t, contact_lost t = false).
Proof. intros Hf. apply spec_bind, spec_lift; [intros a _; apply Hf | done]. Qed.

Lemma run_system_update_unknown device_id bundle operation_id validation_mode health compatibility :
  spec (run_system_update preserve validate_identity device_id bundle operation_id validation_mode health compatibility)
    (λ o t, (0 < count is_system_write t)%nat → lost_is_unknown o (contact_lost t)).
Proof.
  unfold run_system_update. do 3 (apply once_lost; [counts | intros ? ?]). cbv zeta.
  do 7 (apply once_lost; [counts | intros ? ?]). destruct (_ && _); [apply spec_throw; unfold count; simpl; lia |].
  do 4 (apply once_lost; [counts | intros ? ?]). eapply spec_mono; [| intros o t Ho _; exact Ho].
  apply spec_bind. eapply spec_mono.
  { apply lost_converted; [apply update_and_observe_tracks | apply spec_note; [done | split; [by left | done]]]. }
  intros [o|e|] t Ht; cbv beta zeta in Ht |- *.
  2: { intros Hl. destruct (Ht Hl) as [[=] | (e' & [= <-] & He)]. right. by exists e. }
  2: { intros _. by left. }
  eapply (spec_mono _ (λ _ u, contact_lost u = false)).
  { do 3 (apply lift_quiet; intros ?). by apply spec_ret. }
  intros r u Hu Hl. rewrite lost_after_app, Ht in Hl. unfold contact_lost in Hu. by rewrite Hu in Hl.
Qed.

(** ** Termination *)

Lemma wire_operation_id_ok operation_id : res_ok (wire_operation_id operation_id).
Proof.
  unfold wire_operation_id.
  assert (Hu : res_ok (uuid_bytes operation_id)).
  { unfold uuid_bytes. case_match.
    - destruct (uuid_other operation_id) eqn:E; [done | by apply uuid_other_ok, conversion_error in E as []].
    - case_match; [done |]. case_match; [by case_match | done]. }
  destruct (uuid_bytes operation_id); [done |]. case_match; [| done].
  unfold uuid5_url. apply res_ok_bind; [apply encode_utf8_ok | done].
Qed.
Lemma target_image_ok kind bundle : res_ok (target_image kind bundle).
Proof.
  unfold target_image. case_match; [| done]. apply res_ok_bind; [| done].
  unfold inspect_firmware_image. cbv zeta. repeat (case_match; [done |]). done.
Qed.
Lemma check_receipt_ok bundle wire_id inventory : res_ok (check_receipt bundle wire_id inventory).
Proof.
  unfold check_receipt. case_match; [done |]. case_match; [done |]. apply res_ok_bind; [apply int_ok | intros].
  case_match; [done |]. case_match; [by apply res_ok_raise_if | done].
Qed.
#[local] Hint Resolve wire_operation_id_ok target_image_ok check_receipt_ok : safe.

Context (Hsafe : ∀ d, safe (preserve d)) (Hvalidate_ok : ∀ s m v, res_ok (validate_identity s m v)).
#[local] Hint Resolve Hsafe Hvalidate_ok : safe.

Lemma report_update_progress_safe operation_id p : safe (report_update_progress operation_id p).
Proof. unfold report_update_progress. safes. Qed.
#[local] Hint Resolve report_update_progress_safe : safe.
Lemma reach_recovery_safe device_id operation_id before : safe (reach_recovery device_id operation_id before).
Proof. unfold reach_recovery, look_for_recovery. safes. Qed.
Lemma update_and_observe_safe device_id bundle operation_id wire_id writer_boot :
  safe (update_and_observe device_id bundle operation_id wire_id writer_boot).
Proof. unfold update_and_observe, healthy_event. safes. Qed.
Lemma check_application_ok bundle status target mode :
  res_ok (check_application validate_identity bundle status target mode).
Proof. unfold check_application. case_match; [by apply res_ok_bind | done]. Qed.
Lemma check_recovery_ok status target mode : res_ok (check_recovery validate_identity status target mode).
Proof. unfold check_recovery. case_match; [case_match; [done | by apply res_ok_bind] | done]. Qed.
#[local] Hint Resolve reach_recovery_safe update_and_observe_safe check_application_ok check_recovery_ok : safe.

Lemma run_system_update_safe device_id bundle operation_id validation_mode health compatibility :
  safe (run_system_update preserve validate_identity device_id bundle operation_id validation_mode health compatibility).
Proof. unfold run_system_update. safes. Qed.
End props.

(** ** Properties *)

Section gateway.
Context `{Runtime}.

Lemma preserve_coredump_writes d : at_most is_system_write 0 (preserve_coredump d).
Proof.
  unfold preserve_coredump, read_core_dump. counts. apply at_most_while; [| intros; apply read_chunk_replying].
  intros. unfold read_chunk. counts.
Qed.

(** C9: a system update that returns has written once and proved the state of the
    device.  The device passed the compatibility check of the request, and the
    writer - Recovery firmware - passed it against what that check required of
    the bundle; exactly one transfer of the bundle was called in the whole run;
    after it the device came up on a boot that is not the writer's, reported it
    healthy, and was still on it when its status was read before and after its
    inventory; the inventory holds the target layout and the receipt of this
    very operation with result zero; and every component of the bundle that can
    be identified - bootloader, application, Recovery - is the one that runs. *)
Theorem system_update_proved health device_id bundle operation_id compatibility w r w' :
  w_trace w = [] →
  closed_loop_system_update health device_id bundle operation_id compatibility w = (Done r, w') →
  count is_system_write (w_trace w') = 1%nat
  ∧ update_proved _validate_ota_identity device_id bundle operation_id DEFAULT_OTA_VALIDATION_MODE compatibility
      r (w_trace w').
Proof.
  intros Hw Hrun. unfold closed_loop_system_update in Hrun. split.
  - apply Nat.le_antisymm.
    + eapply (spec_run _ (λ _ t, (count is_system_write t ≤ 1)%nat)); [| exact Hw | exact Hrun].
      apply run_system_update_writes, preserve_coredump_writes.
    + eapply (returning_run _ (λ _ t, (1 ≤ count is_system_write t)%nat)); [| exact Hw | exact Hrun].
      eapply returning_mono; [apply run_system_update_seen, preserve_coredump_appending |].
      intros d t (t0 & t1 & t2 & writer & wire_id & o & -> & _). rewrite count_app. unfold count. simpl. lia.
  - eapply returning_run; [apply run_system_update_seen, preserve_coredump_appending | exact Hw | exact Hrun].
Qed.

Context `{!RuntimeLaws}.

(** C18: a system update sends the bundle at most once, whatever happens, ends after
    finitely many answers, and makes an unknown outcome of every contact it
    loses from the transfer on.  Once the transfer was called, a run whose last
    answer was the exception of a lost contact - a lost connection, a device
    that is gone, a timeout - raises [OperationOutcomeUnknown], unless it is
    still waiting for a further answer; and whatever exception it raises, it is
    none of a lost contact. *)
Theorem system_update_once health device_id bundle operation_id compatibility w o w' :
  w_trace w = [] → env_ok w →
  closed_loop_system_update health device_id bundle operation_id compatibility w = (o, w') →
  (count is_system_write (w_trace w') ≤ 1)%nat
  ∧ outcome_ok o
  ∧ ((0 < count is_system_write (w_trace w'))%nat →
       (contact_lost (w_trace w') = true →
          o = Blocked ∨ ∃ e, o = Raised e ∧ exn_cls e = OperationOutcomeUnknown)
       ∧ ∀ e, o = Raised e → catches LOST_CONTACT e = false).
Proof.
  intros Hw Henv Hrun. unfold closed_loop_system_update in Hrun. split_and!.
  - eapply (spec_run _ (λ _ t, (count is_system_write t ≤ 1)%nat)); [| exact Hw | exact Hrun].
    apply run_system_update_writes, preserve_coredump_writes.
  - destruct (run_system_update_safe preserve_coredump _validate_ota_identity preserve_coredump_safe
      validate_identity_ok device_id bundle operation_id DEFAULT_OTA_VALIDATION_MODE health compatibility w Henv)
      as [Ho _]. by rewrite Hrun in Ho.
  - intros Hn. split.
    + eapply (spec_run _ (λ o t, (0 < count is_system_write t)%nat → lost_is_unknown o (contact_lost t)));
        [| exact Hw | exact Hrun | exact Hn].
      apply run_system_update_unknown, preserve_coredump_writes.
    + eapply (spec_run _ (λ o t, (0 < count is_system_write t)%nat → ∀ e, o = Raised e →
        catches LOST_CONTACT e = false)); [| exact Hw | exact Hrun | exact Hn].
      apply run_system_update_contact; [apply preserve_coredump_writes | exact _ | apply calm_validate].
Qed.
End gateway.

(** ** An update *)

Definition padded (n : nat) (l : bytes) : bytes := l ++ repeat 0 (n - length l).
Definition example_image : bytes :=
  padded 12 [0xE9] ++ padded 20 [0x20] ++ padded 16 [0x32; 0x54; 0xCD; 0xAB]
  ++ padded 32 (str_encode "2.0") ++ padded 96 (str_encode "app") ++ repeat 0xAB 32.
Definition example_bundle : SystemUpdateBundle := {|
  bd_manifest := []; bd_manifest_bytes := []; bd_signature := []; bd_manifest_sha256 := []; bd_key_id := None;
  bd_signature_verified := true; bd_chip_id := 32; bd_flash_size := 0; bd_target_layout_sha256 := "aa";
  bd_components :=
    [{| cp_id := 1; cp_kind := BOOTLOADER; cp_flags := 0; cp_target_offset := 0; cp_size := 1;
        cp_sha256 := [0xBB]; cp_filename := "b"; cp_data := [1] |};
     {| cp_id := 2; cp_kind := APPLICATION; cp_flags := 0; cp_target_offset := 0; cp_size := 208;
        cp_sha256 := [0xCC]; cp_filename := "a"; cp_data := example_image |}] |}.
Definition example_wire : string :=
  match @wire_operation_id plain_runtime "op" with Ok b => hex b | Err _ => ""%string end.
Definition example_inventory : dict :=
  [("partition_table_sha256", PStr "aa"); ("last_operation_id", PStr example_wire); ("last_result", PInt 0);
   ("bootloader_sha256", PStr "bb")]%string.
Definition example_running : dict := example_device "normal" 3 (hex (repeat 0xAB 32)).
Definition example_healthy (boot : Z) : dict :=
  [("device_id", PStr "a"); ("event_name", PStr "healthy"); ("boot_id", PInt boot)]%string.

(** From Recovery on boot 2 to boot 3, with the given events in the queue. *)
Definition example_update_script (events : list dict) : list answer :=
  [dict_answer (example_device "recovery" 2 "ef"); dict_answer []; dict_answer []; unit_answer; unit_answer;
   dict_answer [("completion_evidence", PStr "session_close")]%string; unit_answer]
  ++ concat (map (λ e, [unit_answer; dict_answer e]) events)
  ++ [dict_answer example_running; dict_answer example_inventory; dict_answer example_running].
Definition example_update (events : list dict) : outcome dict * world :=
  @closed_loop_system_update plain_runtime None "a" example_bundle "op" PNone (world_of (example_update_script events)).

Lemma system_update_proved_witness :
  count is_system_write (w_trace (snd (example_update [example_healthy 3]))) = 1%nat
  ∧ @update_proved plain_runtime (@_validate_ota_identity plain_runtime) "a" example_bundle "op"
    DEFAULT_OTA_VALIDATION_MODE PNone (match fst (example_update [example_healthy 3]) with Done r => r | _ => [] end)
    (w_trace (snd (example_update [example_healthy 3]))).
Proof.
  apply (@system_update_proved plain_runtime None "a" example_bundle "op" PNone
    (world_of (example_update_script [example_healthy 3]))); [reflexivity | vm_compute; reflexivity].
Defined.

Definition example_cut : world := world_of (take 5 (example_update_script []) ++ [error_answer TimeoutError]).
Lemma example_cut_ok : env_ok example_cut.
Proof. repeat constructor; discriminate. Qed.
Definition example_cut_run : outcome dict * world :=
  @closed_loop_system_update plain_runtime None "a" example_bundle "op" PNone example_cut.
Lemma system_update_once_witness :
  count is_system_write (w_trace (snd example_cut_run)) = 1%nat
  ∧ outcome_ok (fst example_cut_run)
  ∧ (fst example_cut_run = Blocked
     ∨ ∃ e, fst example_cut_run = Raised e ∧ exn_cls e = OperationOutcomeUnknown)
  ∧ ∀ e, fst example_cut_run = Raised e → catches LOST_CONTACT e = false.
Proof.
  split; [vm_compute; reflexivity |].
  destruct (@system_update_once plain_runtime plain_runtime_laws None "a" example_bundle "op" PNone example_cut
    (fst example_cut_run) (snd example_cut_run)) as (H1 & H2 & H3);
    [reflexivity | apply example_cut_ok | vm_compute; reflexivity |].
  destruct H3 as [H3 H4]; [vm_compute; lia |].
  split; [exact H2 | split; [apply H3; vm_compute; reflexivity | exact H4]].
Defined.

(** The replayed history hides the outcome: with the HEALTHY event of the boot
    before Recovery (boot 1) still in the device's history, the same successful
    update is reported as unknown. *)
Example history_hides_success :
  let replayed := queue_of 0 (fst (subscribe "a" true 0
                    (publish [(example_healthy 1, Ok tt)] hub_events_init))) in
  done_with (λ _, true) (fst (example_update [example_healthy 3])) = true
  ∧ raised_with (λ e, bool_decide (exn_cls e = OperationOutcomeUnknown))
      (fst (example_update (take 1 (replayed ++ [example_healthy 3])))) = true.
Proof. vm_compute. split; reflexivity. Qed.
