(* ===== verification/Service.v ===== *)
(** * The Gateway's directory of devices and its announcements ([gateway.py])

    [list_devices] merges the devices that are connected with those the store
    remembers; a name is resolved through it.  [_broadcast_system] records an
    audit entry as an event and hands it to the subscribers. *)
From stdpp Require Import sorting.
From S2P Require Import Prelude Text Value Effects DeviceInfo Store Runtime Workflow.

Section service.
Context `{Runtime}.

(** [str(v or "")] *)
Definition str_or_empty (v : pyval) : string := if truthy v then str v else ""%string.

(** ** Devices *)

(** [{str(item["device_id"]): f(item) for item in items}] *)
Definition add_by_device_id (f : dict → dict) (acc : list (string * dict)) (item : dict) : res (list (string * dict)) :=
  id ← subscript item "device_id"; Ok (dict_set (str id) (f item) acc).
Fixpoint by_device_id (f : dict → dict) (items : list dict) (acc : list (string * dict)) : res (list (string * dict)) :=
  match items with
  | [] => Ok acc
  | item :: items => acc ← add_by_device_id f acc item; by_device_id f items acc
  end.
Definition connected_item (item : dict) : dict :=
  dict_set "cached" (PBool false) (dict_set "connected" (PBool true) item).

Definition with_alias (old item : dict) : dict :=
  if truthy (dict_get "alias" old) then dict_set "alias" (dict_get "alias" old) item
  else if truthy (dict_get "suggested_alias" item)
  then dict_set "alias" (dict_get "suggested_alias" item) item else item.

Definition remember (item : dict) : W unit :=
  now ← invoke (A:=Z) TimeNs;
  update_store (remember_device container_str item now) (λ _, WDevice item).

(** The connected devices replace what the store remembers of them. *)
Fixpoint remember_connected (connected cached : list (string * dict)) : W (list (string * dict)) :=
  match connected with
  | [] => mret cached
  | (device_id, item) :: connected =>
    let item := with_alias (default [] (dict_lookup device_id cached)) item in
    _ ← remember item;
    remember_connected connected (dict_set device_id item cached)
  end.
Definition disconnected_item (connected : list (string * dict)) (entry : string * dict) : dict :=
  if has_key (fst entry) connected then snd entry else dict_set "connected" (PBool false) (snd entry).

(** [str(item.get("alias") or item["device_id"])] *)
Definition item_name (item : dict) : string :=
  str (if truthy (dict_get "alias" item) then dict_get "alias" item else dict_get "device_id" item).
Definition item_le (a b : dict) : Prop := String.le (item_name a) (item_name b).
#[export] Instance item_le_dec : RelDecision item_le := λ a b, String.le_dec _ _.

Definition list_devices : W (list dict) :=
  devices ← invoke (A:=list dict) ListDevices;
  connected ← lift (by_device_id connected_item devices []);
  s ← get_store;
  cached ← lift (devices ← cached_devices s; by_device_id id devices []);
  cached ← remember_connected connected cached;
  let result := merge_sort item_le (map (disconnected_item connected) cached) in
  _ ← note (Gauged "devices.connected" (Z.of_nat (length connected)));
  _ ← note (Gauged "devices.known" (Z.of_nat (length result)));
  mret (map boot_id_text result).

Definition resolve_device_id (value : string) : W string :=
  devices ← list_devices;
  if existsb (λ item, is_str (dict_get "device_id" item) value) devices then mret value
  else s ← get_store; lift (resolve_device value s).

(** ** Announcements *)

Definition audit_entry (actor_type actor_name action : string) (details : dict) : W dict :=
  now ← invoke (A:=Z) TimeNs;
  update_store (λ s, let '(s, item) := add_audit actor_type actor_name action details now s in (s, Ok item))
    (λ _, WAudit actor_type actor_name action details).

Definition _broadcast_system (audit : dict) : W unit :=
  now ← invoke (A:=Z) TimeNs;
  item ← update_store
    (append_event int_other "system"
       [("kind", PStr "system_audit"); ("audit", PDict audit); ("host_receive_wall_ns", PInt now)]%string
       None now "" 0)
    (λ item, WEvent item);
  invoke (A:=unit) (Broadcast item).
End service.
