(* ===== verification/Maintenance.v ===== *)
(** * Maintenance leases ([gateway.py])

    A lease takes a device, or a USB endpoint, away from the Gateway so that a
    host tool can flash it.  Acquiring one drains the device's operations,
    preserves evidence, closes the session and records the lease; finishing
    one reopens the endpoint and verifies that the device is in Recovery. *)
From Stdlib Require Import Floats.SpecFloat.
From S2P Require Import Prelude Text Sha256 Value Json JsonDump Effects Store Observability Security Runtime Workflow.
From S2P Require Import Reconciliation Coredump Service.

Section maintenance.
Context `{Runtime}.

(** ** Leases *)

Definition ACTIVE_MAINTENANCE_STATES : list string :=
  ["detached"; "flashing"; "reattaching"; "verifying"; "expired_quarantined"]%string.
Definition active_state (state : string) : bool := existsb (String.eqb state) ACTIVE_MAINTENANCE_STATES.

(** A row with its JSON columns read. *)
Record lease := Lease { le_row : lease_row; le_endpoint : pyval; le_evidence : pyval }.
Definition le_state (l : lease) : string := ls_state (le_row l).

Definition _maintenance_lease_row (row : lease_row) : res lease :=
  endpoint ← _loads (Some (ls_endpoint_json row)) (PDict []);
  evidence ← _loads (Some (ls_evidence_json row)) (PDict []);
  Ok (Lease row endpoint evidence).

Definition lease_dict (l : lease) : dict :=
  let r := le_row l in
  [("lease_id", PStr (ls_lease_id r)); ("device_id", PStr (ls_device_id r));
   ("token_hash", PStr (ls_token_hash r)); ("purpose", PStr (ls_purpose r)); ("state", PStr (ls_state r));
   ("previous_boot_id", opt_str (ls_previous_boot_id r)); ("expected_version", opt_str (ls_expected_version r));
   ("actor_type", PStr (ls_actor_type r)); ("actor_name", PStr (ls_actor_name r));
   ("created_ns", PInt (ls_created_ns r)); ("expires_ns", PInt (ls_expires_ns r));
   ("finished_ns", opt_int (ls_finished_ns r)); ("error", opt_str (ls_error r));
   ("endpoint", le_endpoint l); ("evidence", le_evidence l)]%string.
Definition _lease_public (l : lease) : dict :=
  List.filter (λ kv, negb (fst kv =? "token_hash")%string) (lease_dict l).
Definition _lease_token_hash (token : string) : string := sha256_hex (str_encode token).

Definition update_lease (lease_id : string) (changes : list lease_change) : W lease :=
  row ← update_store (update_maintenance_lease lease_id changes) WLease;
  lift (_maintenance_lease_row row).

(** The lease of an id, for who knows its token; one that is past its time is
    quarantined on the way. *)
Definition _authorized_lease (lease_id token : string) : W lease :=
  s ← get_store;
  match maintenance_lease s lease_id with
  | None => throw KeyError lease_id
  | Some row =>
    lease ← lift (_maintenance_lease_row row);
    if (token =? "")%string || negb (ls_token_hash row =? _lease_token_hash token)%string
    then throw PermissionError "invalid maintenance lease token"
    else if active_state (ls_state row) then
      now ← invoke (A:=Z) TimeNs;
      if (ls_expires_ns row <? now) && negb (ls_state row =? "expired_quarantined")%string
      then update_lease lease_id [LeaseState "expired_quarantined";
             LeaseError (Some "maintenance lease expired before completion")]%string
      else mret lease
    else mret lease
  end.

(** [now + int(max(30.0, ttl_seconds) * 1_000_000_000)] *)
Definition float_trunc (x : float) : res Z :=
  match x with
  | S754_zero _ => Ok 0
  | S754_finite s m e =>
    let magnitude := if 0 <=? e then Z.pos m * 2 ^ e else Z.pos m / 2 ^ (- e) in
    Ok (if s : bool then - magnitude else magnitude)
  | S754_infinity _ => raise OverflowError "cannot convert float infinity to integer"
  | S754_nan => raise ValueError "cannot convert float NaN to integer"
  end.
Definition lease_expiry (now : Z) (ttl_seconds : float) : res Z :=
  let minimum := float_of_int 30 in
  let seconds := if SFltb minimum ttl_seconds then ttl_seconds else minimum in
  ns ← float_trunc (SFmul 53 1024 seconds (float_of_int 1000000000));
  Ok (now + ns).

Definition public_lease (lease_id : string) : W dict :=
  s ← get_store;
  match maintenance_lease s lease_id with
  | None => throw KeyError lease_id
  | Some row => lift (lease ← _maintenance_lease_row row; Ok (_lease_public lease))
  end.

Definition renew_maintenance (lease_id token : string) (ttl_seconds : float) : W dict :=
  lease ← _authorized_lease lease_id token;
  if negb (active_state (le_state lease)) then throw RuntimeError "maintenance lease is already finished"
  else
    now ← invoke (A:=Z) TimeNs;
    expires ← lift (lease_expiry now ttl_seconds);
    renewed ← update_lease lease_id
      [LeaseState (if (le_state lease =? "detached")%string then "flashing" else le_state lease);
       LeaseExpires expires]%string;
    mret (_lease_public renewed).

(** ** Acquisition *)

(** [json.dumps(v, ensure_ascii=False, indent=2)], at a nesting depth. *)
Definition indentation (depth : nat) : bytes := 10 :: repeat 32 (2 * depth).
Definition join_lines (sep : bytes) (l : list bytes) : bytes :=
  match l with [] => [] | x :: l => x ++ concat (map (app sep) l) end.
Fixpoint dump_indented (depth : nat) (v : pyval) : bytes :=
  match v with
  | PList (x :: l) =>
    [91] ++ indentation (S depth) ++ join_lines (44 :: indentation (S depth)) (map (dump_indented (S depth)) (x :: l))
    ++ indentation depth ++ [93]
  | PDict (kv :: d) =>
    [123] ++ indentation (S depth)
    ++ join_lines (44 :: indentation (S depth))
         (map (λ '(k, v), string_text k ++ [58; 32] ++ dump_indented (S depth) v) (kv :: d))
    ++ indentation depth ++ [125]
  | v => dump v
  end.
Definition crash_index (report : dict) : bytes := dump_indented 0 (PDict report) ++ [10].

(** The crash report and a valid core dump become evidence. *)
Definition preserve_crash (device_id : string) (evidence : dict) : W dict :=
  crash_report ← ask (A:=dict) (CrashReport device_id);
  stamp ← invoke (A:=string) TimeNs;
  crash_path ← update_store (save_artifact device_id "crash-index" stamp "json" (crash_index crash_report))
                 (λ path, WArtifact path (crash_index crash_report));
  let evidence := dict_set "crash_index" (PStr crash_path) evidence in
  if has_core_dump crash_report then
    preserved ← preserve_coredump device_id;
    match preserved with
    | None => throw RuntimeError "a valid core dump could not be preserved"
    | Some preserved => mret (dict_set "core_dump" (PDict preserved) evidence)
    end
  else mret evidence.

(** Record the lease of a detached endpoint; [details] are those of its audit. *)
Definition grant_lease (gate_key : string) (actor : Actor) (purpose expected_version : string) (ttl_seconds : float)
    (endpoint evidence : dict) (previous_boot_id : pyval) (action : string) (details : string → dict) : W dict :=
  now ← invoke (A:=Z) TimeNs;
  token ← invoke (A:=string) Random;
  lease_id ← invoke (A:=string) Random;
  expires ← lift (lease_expiry now ttl_seconds);
  row ← update_store (create_maintenance_lease
          (new_lease container_str lease_id gate_key (_lease_token_hash token) purpose "detached"
             (PDict endpoint) (PDict evidence) previous_boot_id (Some expected_version)
             (ac_kind actor) (ac_name actor) now expires)) WLease;
  lease ← lift (_maintenance_lease_row row);
  audit ← audit_entry (ac_kind actor) (ac_name actor) action (details lease_id);
  _ ← _broadcast_system audit;
  mret (dict_set "token" (PStr token) (_lease_public lease)).

Definition release_gate (gate_key : string) : W unit := note (GateReleased gate_key).
(** [with contextlib.suppress(Exception): await hub.resume_maintenance_endpoint(...)] *)
Definition reopen (endpoint : dict) : W unit :=
  suppress (name ← lift (subscript endpoint "endpoint"); ask (A:=unit) (ResumeMaintenanceEndpoint (str name))).

(** Detach with [quiesce] after [prepare], then record the lease; the [except]
    clause reopens the endpoint, if it was detached, and opens the gate. *)
Definition detach_and_grant {E} (gate_key : string) (prepare : W E) (quiesce : call) (grant : E → dict → W dict)
    : W dict :=
  detached ← on_error (prepared ← prepare; endpoint ← ask (A:=dict) quiesce; mret (prepared, endpoint))
               (release_gate gate_key);
  let '(prepared, endpoint) := detached : E * dict in
  on_error (grant prepared endpoint) (_ ← reopen endpoint; release_gate gate_key).

(** What is known of the device before it is detached: evidence and its boot. *)
Definition device_before (device_id : string) : W (dict * pyval) :=
  before ← ask (A:=dict) (Status device_id);
  if negb (str_or_empty (dict_get "device_id" before) =? device_id)%string
  then throw RuntimeError "device status did not confirm the requested Device ID"
  else
    let previous_boot_id := dict_get "boot_id" before in
    if is_none previous_boot_id || is_str previous_boot_id ""
    then throw RuntimeError "device status did not provide a Boot ID"
    else
      evidence ← preserve_crash device_id [("device_before", PDict before)]%string;
      mret (evidence, previous_boot_id).

Definition acquire_maintenance (device_id : string) (actor : Actor) (purpose expected_version : string)
    (ttl_seconds : float) : W dict :=
  device_id ← resolve_device_id device_id;
  _ ← ask (A:=unit) (AcquireGate device_id);
  detach_and_grant device_id (device_before device_id) (QuiesceDevice device_id)
    (λ before endpoint,
       grant_lease device_id actor purpose expected_version ttl_seconds endpoint (fst before) (snd before)
         "maintenance.acquired"
         (λ lease_id, [("lease_id", PStr lease_id); ("device_id", PStr device_id); ("purpose", PStr purpose)]%string)).

(** *** An endpoint without a live device *)

Definition opt_text (s : string) : option string := if (s =? "")%string then None else Some s.
Definition gate_of (expected_device_id : option string) (endpoint_name : string) : string :=
  default ("endpoint::" ++ endpoint_name)%string expected_device_id.

(** Is the expected device connected now? *)
Definition is_live (expected_device_id : option string) (connected : list dict) : bool :=
  match expected_device_id with
  | Some d => existsb (λ item, (str_or_empty (dict_get "device_id" item) =? d)%string) connected
  | None => false
  end.
Definition cached_item (expected_device_id : option string) (devices : list dict) : option dict :=
  match expected_device_id with
  | Some d => find (λ item, (str_or_empty (dict_get "device_id" item) =? d)%string) devices
  | None => None
  end.

Definition endpoint_before_lease (expected_device_id : option string) (endpoint_before : dict) : W (dict * pyval) :=
  devices ← list_devices;
  connected ← invoke (A:=list dict) ListDevices;
  let live := is_live expected_device_id connected in
  before ← match expected_device_id with
           | Some d => if live then status ← ask (A:=dict) (Status d); mret (Some status)
                       else mret (cached_item expected_device_id devices)
           | None => mret None
           end;
  let previous_boot_id := match before with
                          | Some b => if is_nil b then PNone else dict_get "boot_id" b
                          | None => PNone
                          end in
  let evidence := [("expected_device_id", opt_str expected_device_id); ("endpoint_before", PDict endpoint_before)]%string in
  let evidence := match before with
                  | Some b => dict_set "device_before" (PDict b) evidence
                  | None => evidence
                  end in
  evidence ← match expected_device_id with
             | Some d => if live then preserve_crash d evidence else mret evidence
             | None => mret evidence
             end;
  mret (evidence, previous_boot_id).

Definition acquire_endpoint_maintenance (identifier : string) (actor : Actor) (purpose expected_version : string)
    (ttl_seconds : float) : W dict :=
  endpoint_before ← invoke (A:=dict) (MaintenanceEndpoint identifier);
  let endpoint_name := str_or_empty (dict_get "endpoint" endpoint_before) in
  if negb (String.prefix "usb:" endpoint_name)
  then throw RuntimeError "host maintenance is supported only for local USB devices"
  else
    let expected_device_id := opt_text (str_or_empty (dict_get "device_id" endpoint_before)) in
    let gate_key := gate_of expected_device_id endpoint_name in
    _ ← ask (A:=unit) (AcquireGate gate_key);
    detach_and_grant gate_key (endpoint_before_lease expected_device_id endpoint_before) (QuiesceEndpoint endpoint_name)
      (λ before endpoint,
         grant_lease gate_key actor purpose expected_version ttl_seconds endpoint (fst before) (snd before)
           "maintenance.endpoint_acquired"
           (λ lease_id, [("lease_id", PStr lease_id); ("device_id", opt_str expected_device_id);
                         ("endpoint", PStr endpoint_name); ("purpose", PStr purpose)]%string)).

(** ** Completion *)

(** The endpoint's name and the device the lease expects on it. *)
Definition lease_endpoint (l : lease) : res string :=
  match le_endpoint l with
  | PDict endpoint => name ← subscript endpoint "endpoint"; Ok (str name)
  | _ => raise TypeError "string indices must be integers"
  end.
Definition expected_device (l : lease) : option string :=
  match le_evidence l with
  | PDict evidence =>
    if has_key "expected_device_id" evidence then opt_text (str_or_empty (dict_get "expected_device_id" evidence))
    else Some (ls_device_id (le_row l))
  | _ => Some (ls_device_id (le_row l))
  end.

Definition on_endpoint (endpoint : string) (expected_device_id : option string) (item : dict) : bool :=
  is_str (dict_get "endpoint" item) endpoint
  && match expected_device_id with Some d => is_str (dict_get "device_id" item) d | None => true end.

(** The device is in Recovery on another boot, in the expected version, and
    can be updated. *)
Definition boot_changed (l : lease) (status : dict) : bool :=
  let current := dict_get "boot_id" status in
  negb (is_none current || is_str current "")
  && match ls_previous_boot_id (le_row l) with
     | None => true
     | Some previous => (previous =? "")%string || negb (str current =? previous)%string
     end.
Definition version_matches (l : lease) (status : dict) : bool :=
  match ls_expected_version (le_row l) with
  | None => true
  | Some version => (version =? "")%string || is_str (dict_get "app_version" status) version
  end.
Definition can_ota (status : dict) : bool :=
  match get_or "capability_names" (PList []) status with
  | PList names => existsb (λ v, is_str v "ota") names
  | _ => false
  end.
Definition is_verified (l : lease) (status : dict) : bool :=
  is_str (dict_get "firmware_mode" status) "recovery" && boot_changed l status && version_matches l status
  && can_ota status.

(** One status read; the device may be away, which is counted. *)
Definition observe_status (actual_device_id : string) : W (option dict) :=
  try_except (status ← ask (A:=dict) (Status actual_device_id); mret (Some status))
    [OSError; LookupError; TimeoutError]
    (λ e, retries ← get_retries;
          _ ← set_retries (fst (retries : Z * option string) + 1, Some (class_name (exn_cls e)));
          mret None).

Definition verify_round (endpoint : string) (l : lease) (last_status : option dict) : W (option dict + string * dict) :=
  _ ← ask (A:=unit) Sleep;
  devices ← invoke (A:=list dict) ListDevices;
  match List.filter (on_endpoint endpoint (expected_device l)) devices with
  | [item] =>
    let actual_device_id := str_or_empty (dict_get "device_id" item) in
    if (actual_device_id =? "")%string then mret (inl last_status)
    else
      observed ← observe_status actual_device_id;
      mret match observed with
           | None => inl last_status
           | Some status =>
             if is_str (dict_get "device_id" status) actual_device_id && is_verified l status
             then inr (actual_device_id, status) else inl (Some status)
           end
  | _ => mret (inl last_status)
  end.

(** [{**lease.get("evidence", {}), ...}] *)
Definition evidence_with (l : lease) (more : dict) (retries : Z * option string) : res pyval :=
  match le_evidence l with
  | PDict evidence =>
    Ok (PDict (dict_updated evidence (more ++
      [("observation_retries", PInt (fst retries)); ("last_observation_error", opt_str (snd retries))]%string)))
  | _ => raise TypeError "object is not a mapping"
  end.

Definition finish_abort (lease_id audit_device_id : string) : W dict :=
  now ← invoke (A:=Z) TimeNs;
  completed ← update_lease lease_id [LeaseState "aborted"; LeaseFinished now]%string;
  _ ← audit_entry "lease" lease_id "maintenance.aborted" [("device_id", PStr audit_device_id)]%string;
  mret (_lease_public completed).

Definition finish_verified (lease_id : string) (l : lease) (actual_device_id : string) (last_status : dict) : W dict :=
  retries ← get_retries;
  evidence ← lift (evidence_with l [("verification", PDict last_status)]%string retries);
  now ← invoke (A:=Z) TimeNs;
  completed ← update_lease lease_id
    [LeaseState "released"; LeaseEvidence evidence; LeaseFinished now; LeaseError None]%string;
  _ ← audit_entry "lease" lease_id "maintenance.released"
        [("device_id", PStr actual_device_id); ("boot_id", dict_get "boot_id" last_status)]%string;
  mret (_lease_public completed).

Definition reattach_and_verify (lease_id : string) (l : lease) (endpoint audit_device_id : string) (abort : bool)
    : W dict :=
  _ ← update_lease lease_id [LeaseState "reattaching"]%string;
  _ ← ask (A:=unit) (ResumeMaintenanceEndpoint endpoint);
  if abort then finish_abort lease_id audit_device_id
  else
    _ ← update_lease lease_id [LeaseState "verifying"]%string;
    found ← until_deadline (verify_round endpoint l) None;
    match found with
    | inr (actual_device_id, last_status) => finish_verified lease_id l actual_device_id last_status
    | inl last_status =>
      throw RuntimeError ("Recovery endpoint reattached but identity verification did not complete"
        ++ match last_status with
           | Some status => if is_nil status then "" else ": " ++ str (PDict status)
           | None => ""
           end)
    end.

Definition record_failure (lease_id : string) (l : lease) (audit_device_id : string) (e : exn) : W unit :=
  retries ← get_retries;
  evidence ← lift (evidence_with l [] retries);
  now ← invoke (A:=Z) TimeNs;
  _ ← update_lease lease_id
    [LeaseState "verification_failed"; LeaseEvidence evidence; LeaseFinished now; LeaseError (Some (exn_msg e))]%string;
  _ ← audit_entry "lease" lease_id "maintenance.verification_failed"
        [("device_id", PStr audit_device_id); ("error", PStr (exn_msg e))]%string;
  mret tt.

Definition finish_maintenance (lease_id token : string) (abort : bool) : W dict :=
  l ← _authorized_lease lease_id token;
  if negb (active_state (le_state l)) then mret (_lease_public l)
  else
    endpoint ← lift (lease_endpoint l);
    let gate_key := ls_device_id (le_row l) in
    let audit_device_id := default gate_key (expected_device l) in
    _ ← set_retries (0, None);
    try_finally
      (try_except (reattach_and_verify lease_id l endpoint audit_device_id abort) [BaseException]
         (λ e, _ ← record_failure lease_id l audit_device_id e; lift (Err e)))
      (release_gate gate_key).
End maintenance.
