(* ===== verification/MaintenanceAcquire.v ===== *)
(** * Properties of acquiring a maintenance lease

    The gate of a device is granted once and, on failure, opened once again;
    and a lease that is granted rests on evidence of the device it takes away. *)
From Stdlib Require Import Floats.SpecFloat.
From S2P Require Import Prelude Text Sha256 Value Json JsonDump Effects Store Observability Security Runtime Workflow.
From S2P Require Import Reconciliation Coredump Service Maintenance.

(** ** The gate *)

(** A gate is granted, or opened again. *)
Definition is_gate (e : event) : bool :=
  match e with Replied (AcquireGate _) (Ok _) | GateReleased _ => true | _ => false end.
Definition gate_history (t : list event) : list event := List.filter is_gate t.
Definition granted (gate : string) : event := Replied (AcquireGate gate) (Ok RUnit).

Lemma gate_history_app t u : gate_history (t ++ u) = gate_history t ++ gate_history u.
Proof. apply List.filter_app. Qed.
Lemma gate_history_quiet t : (count is_gate t ≤ 0)%nat → gate_history t = [].
Proof. unfold count, gate_history. destruct (List.filter is_gate t); [done | simpl; lia]. Qed.

Section gates.
Context `{Runtime}.

Lemma remember_gate item : at_most is_gate 0 (remember item).
Proof. unfold remember. counts. Qed.
Lemma remember_connected_gate connected cached : at_most is_gate 0 (remember_connected connected cached).
Proof.
  revert cached. induction connected as [|[id item] connected IH]; intros cached; [apply at_most_ret |].
  cbn [remember_connected]. cbv zeta. apply at_most_bind; [apply remember_gate | intros; apply IH].
Qed.
Lemma list_devices_gate : at_most is_gate 0 list_devices.
Proof.
  unfold list_devices. do 4 (apply at_most_bind; [counts | intros]).
  apply at_most_bind; [apply remember_connected_gate | intros]. counts.
Qed.
#[local] Hint Resolve list_devices_gate : counting.
Lemma resolve_device_gate value : at_most is_gate 0 (resolve_device_id value).
Proof. unfold resolve_device_id. counts. Qed.
Lemma preserve_coredump_gate device_id : at_most is_gate 0 (preserve_coredump device_id).
Proof.
  unfold preserve_coredump, read_core_dump. counts. apply at_most_while; [| intros; apply read_chunk_replying].
  intros. unfold read_chunk. counts.
Qed.
#[local] Hint Resolve preserve_coredump_gate : counting.
Lemma preserve_crash_gate device_id evidence : at_most is_gate 0 (preserve_crash device_id evidence).
Proof. unfold preserve_crash. counts. Qed.
#[local] Hint Resolve preserve_crash_gate : counting.
Lemma device_before_gate device_id : at_most is_gate 0 (device_before device_id).
Proof. unfold device_before. counts. Qed.
Lemma endpoint_before_gate expected endpoint : at_most is_gate 0 (endpoint_before_lease expected endpoint).
Proof. unfold endpoint_before_lease. counts. Qed.
Lemma audit_entry_gate kind name action details : at_most is_gate 0 (audit_entry kind name action details).
Proof. unfold audit_entry. counts. Qed.
#[local] Hint Resolve audit_entry_gate : counting.
Lemma grant_lease_gate gate actor purpose version ttl endpoint evidence boot action details :
  at_most is_gate 0 (grant_lease gate actor purpose version ttl endpoint evidence boot action details).
Proof. unfold grant_lease, _broadcast_system. counts. Qed.

(** The clean-up of an acquisition was itself interrupted: reopening the
    endpoint raised what is no [Exception]. *)
Definition interrupted (e : exn) (t : list event) : Prop :=
  ∃ u name, t = u ++ [Replied (ResumeMaintenanceEndpoint name) (Err e)] ∧ catches [Exception_] e = false.

Lemma reopen_spec endpoint : spec (reopen endpoint) (λ o t, gate_history t = []
  ∧ match o with Raised e => interrupted e t | _ => True end).
Proof.
  apply spec_suppress, spec_bind, spec_lift; [intros name _ | intros e Hname].
  - apply spec_ask; [done |]. intros [[]|e]; [done |]. cbn [outcome_of]. destruct (catches [Exception_] e) eqn:He; [done |].
    split; [done |]. by exists [Called (ResumeMaintenanceEndpoint (str name))], (str name).
  - unfold subscript in Hname. destruct (dict_lookup _ _); [done |]. injection Hname as <-. done.
Qed.

(** The gate while an operation holds it, and after it has ended. *)
Definition gate_after {A} (gate : string) (o : outcome A) (t : list event) : Prop :=
  match o with
  | Done _ => gate_history t = []
  | Raised e => gate_history t = [GateReleased gate] ∨ gate_history t = [] ∧ (interrupted e t ∨ ¬ exn_ok e)
  | Blocked => True
  end.

Lemma gate_after_app {A} gate (o : outcome A) t u :
  gate_history t = [] → gate_after gate o u → gate_after gate o (t ++ u).
Proof.
  intros Ht. destruct o as [a|e|]; simpl; rewrite ?gate_history_app, ?Ht; [done | | done].
  intros [? | [? [(v & name & -> & He) | ?]]]; [by left | right; split; [done | left] | right; split; [done | by right]].
  exists (t ++ v), name. by rewrite <- app_assoc.
Qed.

Lemma detach_and_grant_gate {E} gate (prepare : W E) quiesce grant :
  (∀ d, quiesce ≠ AcquireGate d) → at_most is_gate 0 prepare → (∀ x endpoint, at_most is_gate 0 (grant x endpoint)) →
  spec (detach_and_grant gate prepare quiesce grant) (gate_after gate).
Proof.
  intros Hq Hp Hg. unfold detach_and_grant. apply spec_bind, spec_on_error.
  assert (Hd : at_most is_gate 0 (prepared ← prepare; endpoint ← ask (A:=dict) quiesce; mret (prepared, endpoint))).
  { apply at_most_bind; [done | intros]. apply at_most_bind; [| intros; apply at_most_ret].
    apply at_most_ask; [done |]. intros r. destruct quiesce; try done. by destruct (Hq device_id). }
  eapply spec_mono; [exact Hd |]. intros o t Ht%gate_history_quiet. destruct o as [[x endpoint]|e|]; [| | done].
  - apply spec_on_error. eapply spec_mono; [apply Hg |]. intros o u Hu%gate_history_quiet.
    destruct o as [r|e|]; [by apply gate_after_app | | done].
    destruct (catches [BaseException] e) eqn:He; cycle 1.
    { apply gate_after_app; [done |]. right. split; [done |]. right. intros Hok%catches_base. congruence. }
    apply spec_bind. eapply spec_mono; [apply reopen_spec |]. intros o v [Hv Hi]. destruct o as [[]|e2|]; [| | done].
    + apply spec_note; [done |]. left. by rewrite !gate_history_app, Ht, Hu, Hv.
    + rewrite app_assoc. apply gate_after_app; [by rewrite gate_history_app, Ht, Hu |]. right. auto.
  - destruct (catches [BaseException] e) eqn:He.
    + apply spec_note; [done |]. left. by rewrite gate_history_app, Ht.
    + right. split; [done |]. right. intros Hok%catches_base. congruence.
Qed.
End gates.

(** ** Termination *)

Section safety.
Context `{RuntimeLaws}.

Lemma mapM_ok {A B} (f : A → res B) l : (∀ a, res_ok (f a)) → res_ok (mapM f l).
Proof.
  intros Hf. induction l as [|a l IH]; [done |]. cbn. apply res_ok_bind; [apply Hf | intros].
  apply res_ok_bind; [exact IH | done].
Qed.
Lemma by_device_id_ok f items acc : res_ok (by_device_id f items acc).
Proof.
  revert acc. induction items as [|item items IH]; intros acc; [done |]. apply res_ok_bind; [| intros; apply IH].
  apply res_ok_bind; [apply subscript_ok | done].
Qed.
Lemma remember_device_ok item now s : res_ok (snd (remember_device container_str item now s)).
Proof.
  unfold remember_device. destruct (dict_lookup _ _); [| done].
  destruct (_loads _ _) eqn:E; [done |]. pose proof (loads_ok (option_map dv_cached_json (find_device
    (Store.py_str container_str p) s)) (PDict [])) as Hok. by rewrite E in Hok.
Qed.
Lemma remember_safe item : safe (remember item).
Proof. unfold remember. safes. apply remember_device_ok. Qed.
Lemma remember_connected_safe connected cached : safe (remember_connected connected cached).
Proof.
  revert cached. induction connected as [|[id item] connected IH]; intros cached; [apply safe_ret |].
  cbn [remember_connected]. cbv zeta. apply safe_bind; [apply remember_safe | intros; apply IH].
Qed.
Lemma cached_by_id_ok s : res_ok (devices ← cached_devices s; by_device_id id devices []).
Proof.
  apply res_ok_bind; [| intros; apply by_device_id_ok]. apply mapM_ok. intros r.
  apply res_ok_bind; [apply loads_ok | done].
Qed.
#[local] Hint Resolve by_device_id_ok cached_by_id_ok remember_connected_safe : safe.
Lemma list_devices_safe : safe list_devices.
Proof. unfold list_devices. safes. Qed.
#[local] Hint Resolve list_devices_safe : safe.
Lemma resolve_ok value s : res_ok (resolve_device value s).
Proof. unfold resolve_device. by case_match. Qed.
#[local] Hint Resolve resolve_ok : safe.
Lemma resolve_device_safe value : safe (resolve_device_id value).
Proof. unfold resolve_device_id. safes. Qed.
#[local] Hint Resolve preserve_coredump_safe resolve_device_safe : safe.
Lemma preserve_crash_safe device_id evidence : safe (preserve_crash device_id evidence).
Proof. unfold preserve_crash. safes. intros s. unfold save_artifact. by case_match. Qed.
#[local] Hint Resolve preserve_crash_safe : safe.
Lemma device_before_safe device_id : safe (device_before device_id).
Proof. unfold device_before. safes. Qed.
Lemma endpoint_before_safe expected endpoint : safe (endpoint_before_lease expected endpoint).
Proof. unfold endpoint_before_lease. safes. Qed.
#[local] Hint Resolve device_before_safe endpoint_before_safe : safe.
Lemma lease_row_ok row : res_ok (_maintenance_lease_row row).
Proof. apply res_ok_bind; [apply loads_ok | intros]. apply res_ok_bind; [apply loads_ok | done]. Qed.
Lemma lease_expiry_ok now ttl : res_ok (lease_expiry now ttl).
Proof. apply res_ok_bind; [| done]. by destruct (SFmul _ _ _ _). Qed.
Lemma audit_entry_safe kind name action details : safe (audit_entry kind name action details).
Proof. unfold audit_entry. safes. done. Qed.
Lemma append_event_safe category payload d now day size s :
  res_ok (snd (append_event int_other category payload d now day size s)).
Proof.
  unfold append_event. assert (Hok : res_ok (event_ns int_other payload now)).
  { unfold event_ns. case_match; [apply int_ok | done]. }
  by destruct (event_ns _ _ _).
Qed.
Lemma broadcast_safe audit : safe (_broadcast_system audit).
Proof. unfold _broadcast_system. safes. apply append_event_safe. Qed.
#[local] Hint Resolve lease_row_ok lease_expiry_ok audit_entry_safe broadcast_safe : safe.
Lemma grant_lease_safe gate actor purpose version ttl endpoint evidence boot action details :
  safe (grant_lease gate actor purpose version ttl endpoint evidence boot action details).
Proof. unfold grant_lease. safes. intros s. unfold create_maintenance_lease. by case_match. Qed.
#[local] Hint Resolve grant_lease_safe : safe.
Lemma detach_and_grant_safe {E} gate (prepare : W E) quiesce grant :
  safe prepare → (∀ x endpoint, safe (grant x endpoint)) → safe (detach_and_grant gate prepare quiesce grant).
Proof. intros Hp Hg. unfold detach_and_grant, reopen, release_gate. safes; auto. Qed.
Lemma acquire_safe device_id actor purpose version ttl : safe (acquire_maintenance device_id actor purpose version ttl).
Proof. unfold acquire_maintenance. safes. intros. apply detach_and_grant_safe; safes. Qed.
Lemma acquire_endpoint_safe identifier actor purpose version ttl :
  safe (acquire_endpoint_maintenance identifier actor purpose version ttl).
Proof. unfold acquire_endpoint_maintenance. safes. intros. apply detach_and_grant_safe; safes. Qed.
End safety.

(** ** Acquisition and the gate *)

Inductive acquisition := OfDevice (device_id : string) | OfEndpoint (identifier : string).
Definition acquire `{Runtime} (a : acquisition) (actor : Actor) (purpose expected_version : string) (ttl : float)
    : W dict :=
  match a with
  | OfDevice device_id => acquire_maintenance device_id actor purpose expected_version ttl
  | OfEndpoint identifier => acquire_endpoint_maintenance identifier actor purpose expected_version ttl
  end.

(** A lease that is granted keeps the gate; an acquisition that fails was not
    let through the gate, or has opened it again. *)
Definition gate_outcome (o : outcome dict) (t : list event) : Prop :=
  match o with
  | Done _ => ∃ gate, gate_history t = [granted gate]
  | Raised e => gate_history t = []
      ∨ ∃ gate, gate_history t = [granted gate; GateReleased gate]
                ∨ gate_history t = [granted gate] ∧ interrupted e t
  | Blocked => True
  end.

Section acquisition_gate.
Context `{RuntimeLaws}.

Lemma gated_spec gate (m : W dict) : spec m (gate_after gate) →
  spec (_ ← ask (A:=unit) (AcquireGate gate); m) (λ o t, (∀ e, o = Raised e → exn_ok e) → gate_outcome o t).
Proof.
  intros Hm. apply spec_bind, spec_ask; [done |]. intros [[]|e]; [| intros _; by left]. cbn [outcome_of].
  eapply spec_mono; [exact Hm |]. intros o t Ht Hok. unfold gate_outcome.
  change (gate_history (_ ++ t)) with (granted gate :: gate_history t).
  destruct o as [r|e|]; simpl in Ht; [exists gate; by rewrite Ht | | done]. right. exists gate.
  destruct Ht as [Hg | [Hg [(u & name & -> & He) | Hne]]]; rewrite Hg; [by left | right | by destruct Hne; apply Hok].
  split; [done |]. by exists (Called (AcquireGate gate) :: granted gate :: u), name.
Qed.
Lemma gate_outcome_app (o : outcome dict) t u : gate_history t = [] → gate_outcome o u → gate_outcome o (t ++ u).
Proof.
  intros Ht. unfold gate_outcome. rewrite gate_history_app, Ht. destruct o as [r|e|]; [done | | done].
  intros [? | (gate & [? | [? (v & name & -> & He)]])]; [by left | right; exists gate; by left |].
  right. exists gate. right. split; [done |]. exists (t ++ v), name. by rewrite <- app_assoc.
Qed.
(** What runs before the gate is asked for leaves it alone. *)
Lemma before_gate {A} (m : W A) (f : A → W dict) : at_most is_gate 0 m →
  (∀ a, spec (f a) (λ o t, (∀ e, o = Raised e → exn_ok e) → gate_outcome o t)) →
  spec (m ≫= f) (λ o t, (∀ e, o = Raised e → exn_ok e) → gate_outcome o t).
Proof.
  intros Hm Hf. apply spec_bind. eapply spec_mono; [exact Hm |]. intros o t Ht%gate_history_quiet.
  destruct o as [a|e|]; [| by left | done]. eapply spec_mono; [apply Hf |]. intros o u Hu Hok.
  by apply gate_outcome_app, Hu.
Qed.

Lemma acquire_gate a actor purpose version ttl :
  spec (acquire a actor purpose version ttl) (λ o t, (∀ e, o = Raised e → exn_ok e) → gate_outcome o t).
Proof.
  destruct a as [device_id | identifier]; simpl.
  - apply before_gate; [apply resolve_device_gate | intros d]. apply gated_spec, detach_and_grant_gate;
      [done | apply device_before_gate | intros; apply grant_lease_gate].
  - apply before_gate; [counts | intros endpoint]. cbv zeta.
    destruct (negb _); [apply spec_lift; [done |]; by left |]. apply gated_spec, detach_and_grant_gate;
      [done | apply endpoint_before_gate | intros; apply grant_lease_gate].
Qed.
Lemma acquire_outcome_ok a actor purpose version ttl w :
  env_ok w → outcome_ok (fst (acquire a actor purpose version ttl w)).
Proof.
  intros Hw. destruct a as [device_id | identifier];
    [by apply (acquire_safe device_id actor purpose version ttl w Hw)
    | by apply (acquire_endpoint_safe identifier actor purpose version ttl w Hw)].
Qed.

(** C11: an acquisition of a lease, of a device or of an endpoint, ends after
    finitely many answers and accounts for the gate.  When it returns, the gate
    of the device was granted to it and is still closed; when it raises, the
    gate was not granted, or was granted once and opened again once, in that
    order - unless the clean-up itself was interrupted, by an exception that is
    no [Exception], while it reopened the endpoint. *)
Theorem maintenance_gate a actor purpose version ttl w o w' :
  w_trace w = [] → env_ok w → acquire a actor purpose version ttl w = (o, w') →
  outcome_ok o ∧ gate_outcome o (w_trace w').
Proof.
  intros Hw Henv Hrun. pose proof (acquire_outcome_ok a actor purpose version ttl w Henv) as Hok.
  rewrite Hrun in Hok. split; [done |].
  apply (spec_run _ _ _ _ _ (acquire_gate a actor purpose version ttl) Hw Hrun). by intros e ->.
Qed.
End acquisition_gate.

(** ** Evidence of a lease *)

Section evidence.
Context `{Runtime}.

(** The crash report was stored, and a valid core dump preserved, as evidence. *)
Definition crash_preserved (device_id : string) (evidence evidence' : dict) (t : list event) : Prop :=
  ∃ report path, saw (CrashReport device_id) report ∈ t ∧ Wrote (WArtifact path (crash_index report)) ∈ t
  ∧ if has_core_dump report
    then ∃ artifact t1 u t2, t = t1 ++ u ++ t2 ∧ preserved device_id (Some artifact) u
         ∧ evidence' = dict_set "core_dump" (PDict artifact) (dict_set "crash_index" (PStr path) evidence)
    else evidence' = dict_set "crash_index" (PStr path) evidence.

Lemma preserve_crash_seen device_id evidence :
  returning (preserve_crash device_id evidence) (crash_preserved device_id evidence).
Proof.
  apply returning_ask_bind. intros report. eapply returning_bind; [apply returning_invoke |]. intros stamp t1 ->.
  eapply returning_bind; [apply returning_update_store |]. intros path t2 [-> _]. cbv zeta.
  destruct (has_core_dump report) eqn:Hd; cycle 1.
  { apply returning_ret. exists report, path. rewrite Hd. split_and!; [set_solver | set_solver | done]. }
  eapply returning_bind; [apply preserve_coredump_seen |]. intros [artifact|] u Hu; [| apply returning_throw].
  apply returning_ret. exists report, path. rewrite Hd. split_and!; [set_solver | set_solver |].
  exists artifact, (Called (CrashReport device_id) :: Replied (CrashReport device_id) (Ok (RDict report))
    :: [Called TimeNs; Replied TimeNs (Ok (RStr stamp))] ++ [Wrote (WArtifact path (crash_index report))]), u, [].
  split_and!; [| done | done]. simpl. by rewrite !app_nil_r.
Qed.

(** The lease was recorded as detached, with the digest of the token that the
    result holds. *)
Definition lease_recorded (gate : string) (actor : Actor) (purpose version : string) (ttl : float)
    (endpoint evidence : dict) (boot : pyval) (r : dict) (t : list event) : Prop :=
  ∃ lease_id token now expires row lease,
    row = new_lease container_str lease_id gate (_lease_token_hash token) purpose "detached" (PDict endpoint)
            (PDict evidence) boot (Some version) (ac_kind actor) (ac_name actor) now expires
    ∧ lease_expiry now ttl = Ok expires ∧ Wrote (WLease row) ∈ t
    ∧ _maintenance_lease_row row = Ok lease ∧ r = dict_set "token" (PStr token) (_lease_public lease).

Lemma create_lease_row row s row' : snd (create_maintenance_lease row s) = Ok row' → row' = row.
Proof. unfold create_maintenance_lease. case_match; [done | by intros [= <-]]. Qed.
Lemma audit_entry_appending kind name action details : appending (audit_entry kind name action details).
Proof. unfold audit_entry. appends. Qed.
Lemma broadcast_appending audit : appending (_broadcast_system audit).
Proof. unfold _broadcast_system. appends. Qed.
Lemma grant_lease_seen gate actor purpose version ttl endpoint evidence boot action details :
  returning (grant_lease gate actor purpose version ttl endpoint evidence boot action details)
    (lease_recorded gate actor purpose version ttl endpoint evidence boot).
Proof.
  unfold grant_lease. eapply returning_bind; [apply returning_invoke |]. intros now t1 _.
  eapply returning_bind; [apply returning_invoke |]. intros token t2 _.
  eapply returning_bind; [apply returning_invoke |]. intros lease_id t3 _.
  apply returning_lift_bind. intros expires He.
  eapply returning_bind; [apply returning_update_store |]. intros row t4 [-> [s ->%create_lease_row]].
  apply returning_lift_bind. intros lease Hl.
  apply returning_after; [apply audit_entry_appending | intros audit t5].
  apply returning_after; [apply broadcast_appending | intros [] t6].
  apply returning_ret. exists lease_id, token, now, expires. eexists _, lease.
  split_and!; [done | done | set_solver | done | done].
Qed.

(** Preparation, detachment and lease, in this order. *)
Definition detached_then (P : dict * pyval → list event → Prop) (quiesce : call)
    (Q : dict * pyval → dict → dict → list event → Prop) (r : dict) (t : list event) : Prop :=
  ∃ t1 t2 prepared endpoint, t = t1 ++ [Called quiesce; saw quiesce endpoint] ++ t2
    ∧ P prepared t1 ∧ Q prepared endpoint r t2.
Lemma detach_and_grant_seen gate prepare quiesce grant P Q :
  returning prepare P → (∀ x endpoint, returning (grant x endpoint) (Q x endpoint)) →
  returning (detach_and_grant gate prepare quiesce grant) (detached_then P quiesce Q).
Proof.
  intros Hp Hg. unfold detach_and_grant.
  eapply (returning_bind _ _ (λ x t, ∃ t1, t = t1 ++ [Called quiesce; saw quiesce (snd x)] ∧ P (fst x) t1)).
  - apply returning_try; [| intros; apply returning_after; [unfold release_gate; appends | intros; by apply returning_lift]].
    eapply returning_bind; [exact Hp |]. intros x t1 Hx. apply returning_ask_bind. intros endpoint. apply returning_ret.
    by exists t1.
  - intros [x endpoint] t (t1 & -> & Hx). apply returning_try.
    + eapply returning_mono; [apply Hg |]. intros r t2 Hr. exists t1, t2, x, endpoint.
      split_and!; [by rewrite <- app_assoc | done | done].
    + intros e t3. apply returning_after; [unfold reopen, release_gate; appends | intros; by apply returning_lift].
Qed.

(** A live status confirmed the device; [fst prepared] is the evidence, and
    [snd prepared] the boot before the maintenance. *)
Definition device_confirmed (device_id : string) (prepared : dict * pyval) (t : list event) : Prop :=
  ∃ before u, t = Called (Status device_id) :: saw (Status device_id) before :: u
  ∧ str_or_empty (dict_get "device_id" before) = device_id
  ∧ snd prepared = dict_get "boot_id" before ∧ snd prepared ≠ PNone ∧ snd prepared ≠ PStr ""
  ∧ crash_preserved device_id [("device_before", PDict before)]%string (fst prepared) u.

Lemma device_before_seen device_id : returning (device_before device_id) (device_confirmed device_id).
Proof.
  apply returning_ask_bind. intros before. destruct (negb _) eqn:Hid; [apply returning_throw |].
  apply negb_false_iff, String.eqb_eq in Hid. cbv zeta. destruct (_ || _) eqn:Hb; [apply returning_throw |].
  apply orb_false_iff in Hb as [Hn Hs]. eapply returning_bind; [apply preserve_crash_seen |]. intros evidence t Ht.
  apply returning_ret. exists before, t. rewrite app_nil_r. cbn [fst snd].
  split_and!; [done | done | done | by intros E; rewrite E in Hn | by intros E; rewrite E in Hs | done].
Qed.

(** What is known of an endpoint: of its device only if it is connected. *)
Definition endpoint_known (expected : option string) (endpoint_before : dict) (prepared : dict * pyval) (t : list event)
    : Prop :=
  let base := [("expected_device_id", opt_str expected); ("endpoint_before", PDict endpoint_before)]%string in
  ∃ connected, Replied ListDevices (Ok (RList connected)) ∈ t ∧
  match expected with
  | Some d =>
    if is_live expected connected
    then ∃ before t1 u, t = t1 ++ saw (Status d) before :: u
         ∧ snd prepared = (if is_nil before then PNone else dict_get "boot_id" before)
         ∧ crash_preserved d (dict_set "device_before" (PDict before) base) (fst prepared) u
    else fst prepared = base ∨ ∃ cached, fst prepared = dict_set "device_before" (PDict cached) base
  | None => prepared = (base, PNone)
  end.
Lemma remember_connected_appending connected cached : appending (remember_connected connected cached).
Proof. eapply appending_spec, remember_connected_gate. Qed.
Lemma list_devices_appending : appending list_devices.
Proof. eapply appending_spec, list_devices_gate. Qed.
Lemma endpoint_before_seen expected endpoint :
  returning (endpoint_before_lease expected endpoint) (endpoint_known expected endpoint).
Proof.
  apply returning_after; [apply list_devices_appending | intros devices t0].
  eapply returning_bind; [apply returning_invoke |]. intros connected t1 ->. cbv zeta.
  destruct expected as [d|]; [destruct (is_live (Some d) connected) eqn:Hlive |].
  - eapply (returning_bind _ _ (λ x t, ∃ before, x = Some before ∧ t = [Called (Status d); saw (Status d) before])).
    { apply returning_ask_bind. intros before. apply returning_ret. by exists before. }
    intros x t2 (before & -> & ->). eapply returning_bind; [apply preserve_crash_seen |]. intros evidence u Hu.
    apply returning_ret. exists connected. split; [set_solver |]. rewrite Hlive. cbn [fst snd].
    exists before, (t0 ++ [Called ListDevices; Replied ListDevices (Ok (RList connected)); Called (Status d)]), u.
    split_and!; [by rewrite app_nil_r, <- !app_assoc | done | done].
  - eapply (returning_bind _ _ (λ x t, t = [])); [by apply returning_ret | intros before ? ->].
    eapply (returning_bind _ _ (λ x t, t = [] ∧ x = _)); [by apply returning_ret | intros evidence ? [-> ->]].
    apply returning_ret. exists connected. split; [set_solver |]. rewrite Hlive. cbn [fst snd].
    destruct before as [b|]; [right; by exists b | by left].
  - eapply (returning_bind _ _ (λ x t, x = None ∧ t = [])); [by apply returning_ret | intros ? ? [-> ->]].
    eapply (returning_bind _ _ (λ x t, t = [] ∧ x = [("expected_device_id", PNone); ("endpoint_before", PDict endpoint)]%string)); [by apply returning_ret | intros evidence ? [-> ->]].
    apply returning_ret. exists connected. split; [set_solver | done].
Qed.

(** What a lease rests on, from the grant of the gate on. *)
Definition lease_rests_on (a : acquisition) (actor : Actor) (purpose version : string) (ttl : float) (r : dict)
    (t : list event) : Prop :=
  match a with
  | OfDevice _ => ∃ d t1 t2, t = t1 ++ granted d :: t2
    ∧ detached_then (device_confirmed d) (QuiesceDevice d)
        (λ prepared endpoint, lease_recorded d actor purpose version ttl endpoint (fst prepared) (snd prepared)) r t2
  | OfEndpoint identifier => ∃ endpoint_before name t1 t2,
    saw (MaintenanceEndpoint identifier) endpoint_before ∈ t1
    ∧ name = str_or_empty (dict_get "endpoint" endpoint_before) ∧ String.prefix "usb:" name = true
    ∧ let expected := opt_text (str_or_empty (dict_get "device_id" endpoint_before)) in
      let gate := gate_of expected name in
      t = t1 ++ granted gate :: t2
      ∧ detached_then (endpoint_known expected endpoint_before) (QuiesceEndpoint name)
          (λ prepared endpoint, lease_recorded gate actor purpose version ttl endpoint (fst prepared) (snd prepared)) r t2
  end.
Lemma acquire_seen a actor purpose version ttl :
  returning (acquire a actor purpose version ttl) (lease_rests_on a actor purpose version ttl).
Proof.
  destruct a as [device_id | identifier]; simpl.
  - apply returning_after; [eapply appending_spec, resolve_device_gate | intros d t0].
    apply returning_ask_bind. intros []. eapply returning_mono.
    { apply detach_and_grant_seen; [apply device_before_seen | intros; apply grant_lease_seen]. }
    intros r t2 Ht2. exists d, (t0 ++ [Called (AcquireGate d)]), t2. split; [by rewrite <- app_assoc | done].
  - eapply returning_bind; [apply returning_invoke |]. intros endpoint_before t1 ->. cbv zeta.
    destruct (negb _) eqn:Hu; [apply returning_throw |]. apply negb_false_iff in Hu.
    apply returning_ask_bind. intros []. eapply returning_mono.
    { apply detach_and_grant_seen; [apply endpoint_before_seen | intros; apply grant_lease_seen]. }
    intros r t2 Ht2. set (expected := opt_text _) in *. set (name := str_or_empty _) in *.
    exists endpoint_before, name, [Called (MaintenanceEndpoint identifier);
      saw (MaintenanceEndpoint identifier) endpoint_before; Called (AcquireGate (gate_of expected name))], t2.
    split_and!; [right; left | done | done | by split].
Qed.

(** A lease that is granted rests on evidence.  After the gate was granted a
    live status confirmed the device and its boot, the crash report was stored
    and a valid core dump preserved; then the endpoint was detached; and then
    the lease was recorded as detached, with this evidence, that boot, and the
    digest of the token that only the result holds.  A lease of an endpoint has
    this evidence if its device is connected; otherwise it claims no device. *)
Theorem lease_evidence a actor purpose version ttl w r w' :
  w_trace w = [] → acquire a actor purpose version ttl w = (Done r, w') →
  lease_rests_on a actor purpose version ttl r (w_trace w').
Proof. apply returning_run, acquire_seen. Qed.
End evidence.
