(* ===== verification/MaintenanceFinish.v ===== *)
(** * Properties of completing a maintenance lease

    A lease ends with a verified device or is recorded as failed, its gate is
    opened as the last thing, and it obeys only who knows its token.  A lease
    is followed from its acquisition to its release. *)
From Stdlib Require Import Floats.SpecFloat.
From S2P Require Import Prelude Text Sha256 Value Json JsonDump Effects Store Observability Security Runtime Workflow.
From S2P Require Import Reconciliation Coredump Service Maintenance MaintenanceAcquire.

(** ** Completion of a lease *)

Section completion.
Context `{Runtime}.

Definition authorized (id token : string) (l : lease) : Prop :=
  ls_lease_id (le_row l) = id ∧ token ≠ ""%string ∧ ls_token_hash (le_row l) = _lease_token_hash token.

Lemma change_lease_fixed changes r :
  ls_token_hash (fold_left (λ r c, change_lease c r) changes r) = ls_token_hash r
  ∧ ls_device_id (fold_left (λ r c, change_lease c r) changes r) = ls_device_id r
  ∧ ls_lease_id (fold_left (λ r c, change_lease c r) changes r) = ls_lease_id r.
Proof.
  revert r. induction changes as [|c changes IH]; intros r; [done |]. simpl.
  destruct (IH (change_lease c r)) as (-> & -> & ->). by destruct c.
Qed.
Lemma update_lease_row id changes s row : snd (update_maintenance_lease id changes s) = Ok row →
  ∃ r, maintenance_lease s id = Some r ∧ row = fold_left (λ r c, change_lease c r) changes r.
Proof.
  unfold update_maintenance_lease. destruct (maintenance_lease s id) as [r|]; [| done].
  case_match; [done |]. intros [= <-]. by exists r.
Qed.
Lemma parse_lease_row row l : _maintenance_lease_row row = Ok l → le_row l = row.
Proof. intros (? & _ & (? & _ & [= <-])%res_bind_Ok)%res_bind_Ok. done. Qed.

(** An update returns the row it wrote. *)
Definition updated_to (changes : list lease_change) (l : lease) (t : list event) : Prop :=
  t = [Wrote (WLease (le_row l))] ∧ _maintenance_lease_row (le_row l) = Ok l
  ∧ ∃ r, le_row l = fold_left (λ r c, change_lease c r) changes r.
Lemma update_lease_seen id changes : returning (update_lease id changes) (updated_to changes).
Proof.
  eapply returning_bind; [apply returning_update_store |]. intros row t [-> [s (r & _ & Hr)%update_lease_row]].
  apply returning_lift. intros l Hl. rewrite app_nil_r. pose proof (parse_lease_row _ _ Hl) as Hrow. unfold updated_to.
  rewrite Hrow. split_and!; [done | done | by exists r].
Qed.
Lemma update_lease_gate id changes : at_most is_gate 0 (update_lease id changes).
Proof. unfold update_lease. counts. Qed.
Lemma authorized_lease_gate id token : at_most is_gate 0 (_authorized_lease id token).
Proof. pose proof update_lease_gate. unfold _authorized_lease. counts; auto. Qed.

(** What the status of a device in Recovery says, as the lease requires it. *)
Definition recovery_status (l : lease) (status : dict) : Prop :=
  dict_get "firmware_mode" status = PStr "recovery"
  ∧ dict_get "boot_id" status ≠ PNone ∧ dict_get "boot_id" status ≠ PStr ""
  ∧ (∀ previous, ls_previous_boot_id (le_row l) = Some previous → previous ≠ ""%string →
       str (dict_get "boot_id" status) ≠ previous)
  ∧ (∀ version, ls_expected_version (le_row l) = Some version → version ≠ ""%string →
       dict_get "app_version" status = PStr version)
  ∧ ∃ names, dict_get "capability_names" status = PList names ∧ PStr "ota" ∈ names.
Lemma is_str_true v s : is_str v s = true → v = PStr s.
Proof. destruct v; try done. simpl. by intros ->%String.eqb_eq. Qed.
Lemma is_verified_status l status : is_verified l status = true → recovery_status l status.
Proof.
  unfold is_verified, boot_changed, version_matches, can_ota, get_or.
  rewrite !andb_true_iff, negb_true_iff, orb_false_iff. intros [[[Hmode%is_str_true [[Hn He] Hprev]] Hver] Hota].
  split_and!; [done | | | | |].
  - intros Hx. by rewrite Hx in Hn.
  - intros Hx. by rewrite Hx in He.
  - intros previous Hp Hne. rewrite Hp in Hprev. apply String.eqb_neq in Hne. rewrite Hne in Hprev.
    by apply negb_true_iff, String.eqb_neq in Hprev.
  - intros version Hv Hne. rewrite Hv in Hver. apply String.eqb_neq in Hne. rewrite Hne in Hver. by apply is_str_true in Hver.
  - unfold dict_get. destruct (dict_lookup "capability_names" status) as [v|]; [| done]. cbn in Hota |- *.
    destruct v as [| | | | |names|]; try done. exists names. split; [done |].
    apply existsb_exists in Hota as (v & Hin & Hv%is_str_true). apply list_elem_of_In. congruence.
Qed.

(** The device came back on the endpoint, alone, and a live status showed it in
    Recovery, on another boot, in the expected version, ready to be updated. *)
Definition recovery_verified (endpoint : string) (l : lease) (device_id : string) (status : dict) (t : list event) : Prop :=
  ∃ devices item, Replied ListDevices (Ok (RList devices)) ∈ t
    ∧ List.filter (on_endpoint endpoint (expected_device l)) devices = [item]
    ∧ device_id = str_or_empty (dict_get "device_id" item) ∧ saw (Status device_id) status ∈ t
    ∧ dict_get "device_id" status = PStr device_id ∧ recovery_status l status.

Lemma observe_status_seen device_id :
  returning (observe_status device_id) (λ o t, ∀ status, o = Some status → saw (Status device_id) status ∈ t).
Proof.
  apply returning_try.
  - apply returning_ask_bind. intros status. apply returning_ret. intros ? [= <-]. right. left.
  - intros e t. apply returning_after; [appends | intros retries u].
    apply returning_after; [appends | intros [] v]. by apply returning_ret.
Qed.
Lemma observe_status_appending device_id : appending (observe_status device_id).
Proof. unfold observe_status. appends. Qed.
#[local] Hint Resolve observe_status_appending : appending.
Lemma verify_round_appending endpoint l last : appending (verify_round endpoint l last).
Proof. unfold verify_round. appends. Qed.
Lemma verify_round_seen endpoint l last :
  returning (verify_round endpoint l last) (λ x t, match x with
    | inl _ => True
    | inr b => recovery_verified endpoint l (fst b) (snd b) t
    end).
Proof.
  apply returning_ask_bind. intros []. eapply returning_bind; [apply returning_invoke |]. intros devices t1 ->.
  destruct (List.filter _ devices) as [|item [|]] eqn:Hf; [by apply returning_ret | | by apply returning_ret].
  cbv zeta. destruct (_ =? _)%string; [by apply returning_ret |].
  eapply returning_bind; [apply observe_status_seen |]. intros [status|] t2 Hs; [| by apply returning_ret].
  apply returning_ret. destruct (_ && _) eqn:Hv; [| done]. apply andb_true_iff in Hv as [Hid%is_str_true Hv%is_verified_status].
  exists devices, item. specialize (Hs _ eq_refl). split_and!; [set_solver | done | done | set_solver | done | done].
Qed.

(** The lease was written in its final state, and its public part returned. *)
Definition closed_as (state : string) (r : dict) (t : list event) : Prop :=
  ∃ completed, Wrote (WLease (le_row completed)) ∈ t ∧ r = _lease_public completed ∧ le_state completed = state
    ∧ is_Some (ls_finished_ns (le_row completed)).

Lemma finish_abort_seen id audit : returning (finish_abort id audit) (closed_as "aborted").
Proof.
  eapply returning_bind; [apply returning_invoke |]. intros now t1 ->.
  eapply returning_bind; [apply update_lease_seen |]. intros completed t2 (-> & _ & r0 & Hr).
  apply returning_after; [apply audit_entry_appending | intros ? t3]. apply returning_ret.
  exists completed. unfold le_state. rewrite Hr. split_and!; [set_solver | done | done | by eexists].
Qed.
Lemma finish_verified_seen id l device_id status :
  returning (finish_verified id l device_id status) (closed_as "released").
Proof.
  apply returning_after; [appends | intros retries t0]. apply returning_lift_bind. intros evidence _.
  eapply returning_bind; [apply returning_invoke |]. intros now t1 ->.
  eapply returning_bind; [apply update_lease_seen |]. intros completed t2 (-> & _ & r0 & Hr).
  apply returning_after; [apply audit_entry_appending | intros ? t3]. apply returning_ret.
  exists completed. unfold le_state. rewrite Hr. split_and!; [set_solver | done | done | by eexists].
Qed.

(** The endpoint was reopened, and then the lease aborted as asked, or released
    after the device was verified. *)
Definition lease_closed (l : lease) (endpoint : string) (abort : bool) (r : dict) (t : list event) : Prop :=
  ∃ t1 t2, t = t1 ++ Replied (ResumeMaintenanceEndpoint endpoint) (Ok RUnit) :: t2
  ∧ if abort then closed_as "aborted" r t2
    else ∃ u v device_id status, t2 = u ++ v ∧ recovery_verified endpoint l device_id status u ∧ closed_as "released" r v.

Lemma update_lease_appending id changes : appending (update_lease id changes).
Proof. unfold update_lease. appends. Qed.
Lemma reattach_seen id l endpoint audit abort :
  returning (reattach_and_verify id l endpoint audit abort) (lease_closed l endpoint abort).
Proof.
  apply returning_after; [apply update_lease_appending | intros ? t0]. apply returning_ask_bind. intros [].
  destruct abort.
  { eapply returning_mono; [apply finish_abort_seen |]. intros r t Ht.
    exists (t0 ++ [Called (ResumeMaintenanceEndpoint endpoint)]), t. split; [by rewrite <- app_assoc | done]. }
  apply returning_after; [apply update_lease_appending | intros ? t1].
  eapply returning_bind.
  { apply (returning_until_deadline (λ _ _, True) _ None (λ b t, recovery_verified endpoint l (fst b) (snd b) t));
      [done | intros; apply verify_round_appending |].
    intros st t _ u. eapply returning_mono; [apply verify_round_seen |]. intros [?|[d status]] v Hv; [done |].
    destruct Hv as (devices & item & ? & ? & ? & ? & ? & ?). exists devices, item. set_solver. }
  intros [last|[device_id status]] t Ht; [apply returning_throw |].
  eapply returning_mono; [apply finish_verified_seen |]. intros r v Hv.
  exists (t0 ++ [Called (ResumeMaintenanceEndpoint endpoint)]), (t1 ++ t ++ v).
  split; [by rewrite <- app_assoc |]. exists (t1 ++ t), v, device_id, status.
  split_and!; [by rewrite <- app_assoc | | done].
  destruct Ht as (devices & item & ? & ? & ? & ? & ? & ?). exists devices, item. set_solver.
Qed.

Lemma verify_round_gate endpoint l last : at_most is_gate 0 (verify_round endpoint l last).
Proof. unfold verify_round, observe_status. counts. Qed.
#[local] Hint Resolve update_lease_gate audit_entry_gate verify_round_gate : counting.
#[local] Hint Resolve verify_round_appending : appending.
Lemma reattach_gate id l endpoint audit abort : at_most is_gate 0 (reattach_and_verify id l endpoint audit abort).
Proof. unfold reattach_and_verify, finish_abort, finish_verified. counts. Qed.
Lemma record_failure_gate id l audit e : at_most is_gate 0 (record_failure id l audit e).
Proof. unfold record_failure. counts. Qed.

(** Nothing was done but to look at the clock. *)
Definition acts (e : event) : bool := match e with Called TimeNs => false | Called _ | GateReleased _ => true | _ => false end.
Lemma authorized_lease_acts id token : at_most acts 0 (_authorized_lease id token).
Proof. unfold _authorized_lease, update_lease. counts. Qed.

(** What every result of a computation satisfies, whatever it has seen. *)
Lemma spec_by_run {A} (m : W A) (R : outcome A → Prop) :
  appending m → (∀ w, R (fst (m w))) → spec m (λ o _, R o).
Proof. intros Hm HR w. destruct (Hm w) as (t & ? & ? & _). by exists t. Qed.

Lemma quarantine_run id row w o w' : maintenance_lease (w_store w) id = Some row →
  update_lease id [LeaseState "expired_quarantined";
    LeaseError (Some "maintenance lease expired before completion")]%string w = (o, w') →
  ∀ l, o = Done l → ls_token_hash (le_row l) = ls_token_hash row ∧ ls_lease_id (le_row l) = ls_lease_id row.
Proof.
  intros Hrow Hrun l ->. unfold update_lease, update_store, mbind, Eff_bind, get_store, put_store, note in Hrun.
  unfold update_maintenance_lease in Hrun. rewrite Hrow in Hrun.
  destruct (lease_conflict _ _); [done |]. cbn -[_maintenance_lease_row] in Hrun. unfold lift in Hrun.
  destruct (_maintenance_lease_row _) as [l'|] eqn:Hl; [| done]. injection Hrun as -> <-.
  by rewrite (parse_lease_row _ _ Hl).
Qed.
Lemma authorized_lease_run id token w l : fst (_authorized_lease id token w) = Done l → authorized id token l.
Proof.
  unfold _authorized_lease, mbind at 1, Eff_bind at 1, get_store.
  destruct (maintenance_lease (w_store w) id) as [row|] eqn:Hrow; [| done].
  unfold mbind at 1, Eff_bind at 1, lift at 1. destruct (_maintenance_lease_row row) as [l0|] eqn:Hl0; [| done].
  pose proof (parse_lease_row _ _ Hl0) as Hr0. pose proof (find_some _ _ Hrow) as [_ Hid%String.eqb_eq].
  destruct (_ || _) eqn:Hauth; [done |].
  apply orb_false_iff in Hauth as [Ht%String.eqb_neq Hh%negb_false_iff%String.eqb_eq].
  assert (authorized id token l0) by (split_and!; [by rewrite Hr0 | done | by rewrite Hr0]).
  destruct (active_state _); [| by intros [= <-]].
  unfold mbind at 1, Eff_bind at 1, invoke, mbind at 1, Eff_bind at 1, note, answered.
  cbn [w_script traced]. destruct (w_script w) as [|a rest]; [done |]. unfold lift at 1.
  destruct (an_get a) as [now|]; [| done]. destruct (_ && _); [| by intros [= <-]].
  match goal with |- fst (update_lease _ _ ?w1) = _ → _ => destruct (update_lease _ _ w1) as [o w2] eqn:Hq;
    pose proof (quarantine_run id row w1 o w2 Hrow Hq) as Hsame end.
  cbn [fst]. intros ->. destruct (Hsame _ eq_refl) as [Hh' Hi]. split_and!; [by rewrite Hi | done | by rewrite Hh'].
Qed.
Lemma authorized_lease_appending id token : appending (_authorized_lease id token).
Proof. eapply appending_spec, authorized_lease_gate. Qed.
Lemma authorized_lease_seen id token : returning (_authorized_lease id token) (λ l _, authorized id token l).
Proof.
  eapply spec_mono.
  { apply (spec_by_run _ (λ o, ∀ l, o = Done l → authorized id token l)); [apply authorized_lease_appending |].
    intros w l. apply authorized_lease_run. }
  intros [l|e|] t Ho; [by apply Ho | done | done].
Qed.

Definition untouched (t : list event) : Prop := ∀ e, e ∈ t → acts e = false.
Lemma acts_untouched t : (count acts t ≤ 0)%nat → untouched t.
Proof.
  unfold count. intros Hc e He. destruct (acts e) eqn:Ha; [| done].
  assert (Hin : In e (List.filter acts t)) by (apply filter_In; split; [by apply list_elem_of_In | done]).
  destruct (List.filter acts t); [done | simpl in Hc; lia].
Qed.

(** *** What is left in the store

    The writes of a completion are its last actions, and nothing awaits between
    them and the end: the store still holds them then. *)

Lemma bind_done {A B} (m : W A) (f : A → W B) w b w' : (m ≫= f) w = (Done b, w') →
  ∃ a w1, m w = (Done a, w1) ∧ f a w1 = (Done b, w').
Proof. unfold mbind, Eff_bind. destruct (m w) as [[a|e|] w1]; [| done ..]. intros Hf. by exists a, w1. Qed.

Lemma update_lease_unknown id changes w : maintenance_lease (w_store w) id = None →
  update_lease id changes w = (Raised (Exn KeyError id 0), w).
Proof.
  intros Hn. unfold update_lease, update_store, mbind, Eff_bind, get_store, put_store.
  unfold update_maintenance_lease. rewrite Hn. by destruct w.
Qed.
(** A change to a state that is not active meets no other lease. *)
Lemma update_lease_stored id changes w r : let row := fold_left (λ r c, change_lease c r) changes r in
  maintenance_lease (w_store w) id = Some r → is_active row = false →
  ∃ w', update_lease id changes w = (outcome_of (_maintenance_lease_row row), w')
    ∧ maintenance_lease (w_store w') id = Some row ∧ w_trace w' = w_trace w ++ [Wrote (WLease row)]
    ∧ w_retries w' = w_retries w.
Proof.
  intros row Hr Ha. unfold update_lease, update_store, mbind, Eff_bind, get_store, put_store, note, mret, Eff_ret.
  unfold update_maintenance_lease. rewrite Hr. fold row. unfold lease_conflict. rewrite Ha. cbn [andb].
  eexists. split; [unfold lift; by destruct (_maintenance_lease_row row) |].
  cbn [w_store w_trace w_retries traced]. split_and!; [| done | done].
  unfold maintenance_lease in *. cbn [st_leases set_leases]. unfold row.
  destruct (change_lease_fixed changes r) as (_ & _ & Hid). apply find_some in Hr as Hr'. destruct Hr' as [_ Hi].
  revert Hr. generalize (st_leases (w_store w)). intros leases. induction leases as [|q leases IH]; [done |].
  cbn [find update_where map]. destruct (lease_id_is id q) eqn:Hq.
  - intros [= ->]. unfold lease_id_is at 1. rewrite Hid. unfold lease_id_is in Hi. by rewrite Hi.
  - rewrite Hq. apply IH.
Qed.
Lemma update_lease_done id changes w l w' : update_lease id changes w = (Done l, w') →
  is_active (le_row l) = false →
  maintenance_lease (w_store w') id = Some (le_row l) ∧ ls_lease_id (le_row l) = id
  ∧ ∃ r, le_row l = fold_left (λ r c, change_lease c r) changes r.
Proof.
  intros Hrun Ha. destruct (maintenance_lease (w_store w) id) as [r|] eqn:Hr;
    [| by rewrite (update_lease_unknown _ _ _ Hr) in Hrun].
  set (row := fold_left (λ r c, change_lease c r) changes r).
  assert (Hl : le_row l = row).
  { unfold update_lease, update_store, mbind, Eff_bind, get_store, put_store, note, mret, Eff_ret in Hrun.
    unfold update_maintenance_lease in Hrun. rewrite Hr in Hrun. fold row in Hrun.
    destruct (lease_conflict row _); [done |]. unfold lift in Hrun. destruct (_maintenance_lease_row row) eqn:Hp; [| done].
    injection Hrun as -> _. by apply parse_lease_row in Hp. }
  rewrite Hl in Ha. destruct (update_lease_stored id changes w r Hr Ha) as (w1 & Hw1 & Hs & _).
  rewrite Hrun in Hw1. injection Hw1 as _ <-. rewrite Hl. fold row in Hs. split_and!; [done | | by exists r].
  apply find_some in Hs as [_ Hs]. by apply String.eqb_eq.
Qed.

(** The clock and the audit log leave the leases alone. *)
Lemma invoke_leases {A} `{Reply A} c w : st_leases (w_store (snd (invoke (A:=A) c w))) = st_leases (w_store w).
Proof.
  unfold invoke, mbind, Eff_bind, note, answered. cbn [w_script traced]. destruct (w_script w); [done |].
  unfold lift. by destruct (an_get _).
Qed.
Lemma audit_entry_leases kind name action details w :
  st_leases (w_store (snd (audit_entry kind name action details w))) = st_leases (w_store w).
Proof.
  unfold audit_entry, mbind at 1, Eff_bind at 1. pose proof (invoke_leases (A:=Z) TimeNs w) as Hi.
  destruct (invoke TimeNs w) as [[now|e|] w1]; exact Hi.
Qed.

(** The lease is in the store in the state [state], and [r] is its public part. *)
Definition stored_as (id state : string) (r : dict) (w' : world) : Prop :=
  ∃ completed, maintenance_lease (w_store w') id = Some (le_row completed) ∧ ls_lease_id (le_row completed) = id
    ∧ le_state completed = state ∧ r = _lease_public completed.
Definition idle_lease (state : string) : lease_row := LeaseRow "" "" "" "" state "" "" None None "" "" 0 0 None None.
Lemma is_active_state r : is_active r = is_active (idle_lease (ls_state r)).
Proof. done. Qed.
Lemma close_stored id state changes kind name action details w r w' :
  is_active (idle_lease state) = false →
  (∀ q, ls_state (fold_left (λ r c, change_lease c r) changes q) = state) →
  (completed ← update_lease id changes;
   _ ← audit_entry kind name action details;
   mret (_lease_public completed)) w = (Done r, w') → stored_as id state r w'.
Proof.
  intros Ha Hch (l & w1 & Hl & (x & w2 & Hx & [= <- <-])%bind_done)%bind_done.
  assert (Hst : ls_state (le_row l) = state).
  { unfold update_lease in Hl. apply bind_done in Hl as (row & w3 & Hrow & Hp). unfold lift in Hp.
    destruct (_maintenance_lease_row row) as [l'|] eqn:Hq; [| done]. injection Hp as <- <-.
    rewrite (parse_lease_row _ _ Hq). unfold update_store, mbind, Eff_bind, get_store, put_store, note in Hrow.
    unfold update_maintenance_lease in Hrow. destruct (maintenance_lease (w_store w) id); [| done].
    destruct (lease_conflict _ _); [done |]. injection Hrow as <- <-. apply Hch. }
  destruct (update_lease_done _ _ _ _ _ Hl) as (Hs & Hid & _); [by rewrite is_active_state, Hst |].
  exists l. split_and!; [| done | done | done]. unfold maintenance_lease in *.
  pose proof (audit_entry_leases kind name action details w1) as Hle. rewrite Hx in Hle. cbn [snd] in Hle. by rewrite Hle.
Qed.

(** The state in which a lease that was completed is recorded. *)
Definition closed_state (abort : bool) : string := if abort then "aborted" else "released".
Lemma reattach_stored id l endpoint audit abort w r w' :
  reattach_and_verify id l endpoint audit abort w = (Done r, w') → stored_as id (closed_state abort) r w'.
Proof.
  intros (l1 & w1 & _ & (u & w2 & _ & Hrest)%bind_done)%bind_done. destruct abort.
  - apply bind_done in Hrest as (now & w3 & _ & Hrest). eapply close_stored; [| | exact Hrest]; done.
  - apply bind_done in Hrest as (l2 & w3 & _ & (found & w4 & _ & Hrest)%bind_done). destruct found as [|[d st]]; [done |].
    apply bind_done in Hrest as (retries & w5 & _ & (ev & w6 & _ & (now & w7 & _ & Hrest)%bind_done)%bind_done).
    eapply close_stored; [| | exact Hrest]; done.
Qed.

(** *** Recording a failure *)

(** The lease is in the store as failed, with the error and the evidence, and
    this was written. *)
Definition failure_recorded (id : string) (l : lease) (e : exn) (w' : world) : Prop :=
  ∃ row now evidence,
    maintenance_lease (w_store w') id = Some row ∧ Wrote (WLease row) ∈ w_trace w'
    ∧ ls_state row = "verification_failed"%string ∧ ls_error row = Some (exn_msg e) ∧ ls_finished_ns row = Some now
    ∧ evidence_with l [] (w_retries w') = Ok evidence ∧ ls_evidence_json row = _json evidence.
(** What remains of it when the recording is cut short by an exception [e']:
    the evidence of the lease is no dictionary, the clock raised, the lease is
    gone; or, with the failure on record, its row cannot be read back or the
    clock raised for the audit entry. *)
Definition clock_raised (e : exn) (t : list event) : Prop := ∃ u, t = u ++ [Called TimeNs; Replied TimeNs (Err e)].
Definition recording_cut (id : string) (l : lease) (e e' : exn) (w' : world) : Prop :=
  (∀ d, le_evidence l ≠ PDict d) ∧ exn_cls e' = TypeError
  ∨ clock_raised e' (w_trace w')
  ∨ maintenance_lease (w_store w') id = None ∧ exn_cls e' = KeyError
  ∨ failure_recorded id l e w' ∧ ∃ row, maintenance_lease (w_store w') id = Some row ∧ _maintenance_lease_row row = Err e'.
Definition failure_outcome (id : string) (l : lease) (audit : string) (e : exn) (o : outcome unit) (w' : world) : Prop :=
  match o with
  | Done _ => failure_recorded id l e w'
      ∧ Wrote (WAudit "lease" id "maintenance.verification_failed"
          [("device_id", PStr audit); ("error", PStr (exn_msg e))]%string) ∈ w_trace w'
  | Raised e' => recording_cut id l e e' w'
  | Blocked => True
  end.

(** The clock, in a run. *)
Lemma time_run (w : world) : ∃ w1, w_store w1 = w_store w ∧ w_retries w1 = w_retries w
  ∧ match invoke (A:=Z) TimeNs w with
    | (Done now, w') => w' = w1 ∧ w_trace w1 = w_trace w ++ [Called TimeNs; Replied TimeNs (Ok (RInt now))]
    | (Raised e, w') => w' = w1 ∧ w_trace w1 = w_trace w ++ [Called TimeNs; Replied TimeNs (Err e)]
    | (Blocked, w') => w' = w1
    end.
Proof.
  exists (snd (invoke (A:=Z) TimeNs w)). unfold invoke, mbind, Eff_bind, note, answered. cbn [w_script traced].
  destruct (w_script w) as [|a rest]; [done |]. unfold lift. cbn [an_get int_reply].
  destruct (an_int a); cbn; (split_and!; [done | done | done | by rewrite <- app_assoc]).
Qed.
Lemma record_failure_run id l audit e w :
  match record_failure id l audit e w with (o, w') => failure_outcome id l audit e o w' end.
Proof.
  unfold record_failure, mbind at 1, Eff_bind at 1, get_retries. unfold mbind at 1, Eff_bind at 1, lift at 1.
  destruct (evidence_with l [] (w_retries w)) as [evidence|e1] eqn:Hev; cycle 1.
  { left. unfold evidence_with in Hev. destruct (le_evidence l); try discriminate Hev; injection Hev as <-; done. }
  unfold mbind at 1, Eff_bind at 1. destruct (time_run w) as (w1 & Hs1 & Hr1 & Hnow).
  destruct (invoke TimeNs w) as [[now|e1|] w1']; [| | done].
  2: { destruct Hnow as [-> Ht]. right. left. exists (w_trace w). exact Ht. }
  destruct Hnow as [-> _]. unfold mbind at 1, Eff_bind at 1.
  set (changes := [LeaseState _; _; _; _]).
  destruct (maintenance_lease (w_store w1) id) as [r|] eqn:Hr.
  2: { rewrite (update_lease_unknown _ _ _ Hr). right. right. by left. }
  destruct (update_lease_stored id changes w1 r Hr eq_refl) as (w2 & -> & Hs2 & Ht2 & Hr2).
  set (row := fold_left _ _ _) in Hs2, Ht2 |- *.
  assert (Hrec : ∀ w3, st_leases (w_store w3) = st_leases (w_store w2) → w_retries w3 = w_retries w2 →
    (∀ x, x ∈ w_trace w2 → x ∈ w_trace w3) → failure_recorded id l e w3).
  { intros w3 Hs3 Hr3 Ht3. exists row, now, evidence. unfold maintenance_lease in *. rewrite Hs3, Hr3, Hr2, Hr1.
    split_and!; try done. apply Ht3. rewrite Ht2. set_solver. }
  destruct (_maintenance_lease_row row) as [completed|e1] eqn:Hp; cbn [outcome_of].
  2: { right. right. right. split; [by apply Hrec | by exists row]. }
  unfold audit_entry. unfold mbind at 1, Eff_bind at 1, mbind at 1, Eff_bind at 1.
  destruct (time_run w2) as (w3 & Hs3 & Hr3 & Hnow2). destruct (invoke TimeNs w2) as [[now2|e1|] w3']; [| | done].
  2: { destruct Hnow2 as [-> Ht3]. right. left. exists (w_trace w2). exact Ht3. }
  destruct Hnow2 as [-> Ht3]. cbn -[_json]. split; [| set_solver].
  apply Hrec; cbn -[_json]; [by rewrite Hs3 | done | intros x Hx; rewrite Ht3; apply elem_of_app; left; apply elem_of_app; by left].
Qed.

(** *** The whole completion *)

(** The device that the audit names. *)
Definition audit_device (l : lease) : string := default (ls_device_id (le_row l)) (expected_device l).
(** What becomes of an authorized, active lease: the [try] statement took the
    world from [w0] to [w1], with the events [u]. *)
Definition completed_or_failed (id : string) (l : lease) (endpoint : string) (abort : bool) (o : outcome dict)
    (w0 w1 : world) (u : list event) : Prop :=
  match o with
  | Done r => lease_closed l endpoint abort r u ∧ stored_as id (closed_state abort) r w1
  | Raised e' => ∃ e w2,
      reattach_and_verify id l endpoint (audit_device l) abort w0 = (Raised e, w2)
      ∧ (e' = e ∧ failure_outcome id l (audit_device l) e (Done tt) w1 ∨ recording_cut id l e e' w1)
  | Blocked => True
  end.
Definition finish_outcome (id token : string) (abort : bool) (o : outcome dict) (w w' : world) : Prop :=
  match o with
  | Blocked => True
  | _ =>
    untouched (w_trace w')
      ∧ (∀ r, o = Done r → ∃ l, authorized id token l ∧ active_state (le_state l) = false ∧ r = _lease_public l)
    ∨ ∃ l endpoint w0 w1 u,
        _authorized_lease id token w = (Done l, w0)
        ∧ authorized id token l ∧ active_state (le_state l) = true ∧ lease_endpoint l = Ok endpoint
        ∧ w' = traced (GateReleased (ls_device_id (le_row l))) w1
        ∧ w_trace w1 = w_trace w0 ++ u ∧ untouched (w_trace w0) ∧ gate_history u = []
        ∧ completed_or_failed id l endpoint abort o (snd (set_retries (0, None) w0)) w1 u
  end.

Lemma try_part_run id l endpoint abort w0 o w1 :
  try_except (reattach_and_verify id l endpoint (audit_device l) abort) [BaseException]
    (λ e, _ ← record_failure id l (audit_device l) e; lift (Err e)) w0 = (o, w1) → outcome_ok o →
  ∃ u, w_trace w1 = w_trace w0 ++ u ∧ gate_history u = [] ∧ completed_or_failed id l endpoint abort o w0 w1 u.
Proof.
  intros Hrun Hok. unfold try_except in Hrun.
  destruct (spec_and _ _ _ (reattach_gate id l endpoint (audit_device l) abort)
    (reattach_seen id l endpoint (audit_device l) abort) w0) as (u & Hu & _ & Hg%gate_history_quiet & Hr).
  destruct (reattach_and_verify id l endpoint (audit_device l) abort w0) as [[r|e|] w2] eqn:Hre; cbn [fst snd] in *.
  - injection Hrun as <- <-. exists u. split_and!; [done | done |]. split; [exact Hr | by eapply reattach_stored].
  - destruct (catches [BaseException] e) eqn:Hc; cycle 1.
    { injection Hrun as <- <-. apply catches_base in Hok. congruence. }
    pose proof (record_failure_run id l (audit_device l) e w2) as Hrec.
    destruct (record_failure_gate id l (audit_device l) e w2) as (v & Hv & _ & Hgv%gate_history_quiet).
    unfold mbind, Eff_bind, lift in Hrun. exists (u ++ v).
    destruct (record_failure id l (audit_device l) e w2) as [[[]|e'|] w3]; cbn [snd] in Hv;
      cbn [trace_of world_world] in Hu, Hv; injection Hrun as <- <-;
      (split_and!; [by rewrite Hv, Hu, app_assoc | by rewrite gate_history_app, Hg, Hgv |]); [| | done].
    + exists e, w2. split; [done |]. by left.
    + exists e, w2. split; [done |]. by right.
  - injection Hrun as <- <-. by exists u.
Qed.

Lemma finish_run id token abort w o w' : w_trace w = [] → finish_maintenance id token abort w = (o, w') → outcome_ok o →
  finish_outcome id token abort o w w'.
Proof.
  intros Hw Hrun Hok. unfold finish_maintenance, mbind at 1, Eff_bind at 1 in Hrun.
  destruct (spec_and _ _ _ (authorized_lease_acts id token) (authorized_lease_seen id token) w)
    as (t0 & Ht0 & _ & Hq%acts_untouched & Hl).
  cbn [trace_of world_world] in Ht0. rewrite Hw in Ht0. cbn [app] in Ht0.
  destruct (_authorized_lease id token w) as [[l|e|] w0] eqn:Ha; cbn [fst snd] in *;
    [| injection Hrun as <- <-; left; by rewrite Ht0 | by injection Hrun as <- <-].
  destruct (negb _) eqn:Hact.
  { injection Hrun as <- <-. left. rewrite Ht0. split; [done |]. intros r [= <-]. apply negb_true_iff in Hact. by exists l. }
  apply negb_false_iff in Hact. unfold mbind at 1, Eff_bind at 1, lift at 1 in Hrun.
  destruct (lease_endpoint l) as [endpoint|e] eqn:He; [| injection Hrun as <- <-; left; by rewrite Ht0].
  cbv zeta in Hrun. unfold mbind at 1, Eff_bind at 1 in Hrun.
  change (default (ls_device_id (le_row l)) (expected_device l)) with (audit_device l) in Hrun.
  set (w0' := snd (set_retries (0, None) w0)) in Hrun |- *. cbn [set_retries] in Hrun.
  change (World_ (w_script w0) (w_store w0) (w_last_progress w0) (0, None) (w_trace w0)) with w0' in Hrun.
  unfold try_finally in Hrun.
  destruct (try_except _ _ _ w0') as [o1 w1] eqn:Htry.
  assert (Hend : o1 ≠ Blocked → o = o1 ∧ w' = traced (GateReleased (ls_device_id (le_row l))) w1).
  { destruct o1; [| | done]; by injection Hrun as <- <-. }
  assert (H' : o1 = Blocked ∨ o1 ≠ Blocked) by (destruct o1; auto).
  destruct H' as [-> | Hb]; [by injection Hrun as <- <- |]. destruct (Hend Hb) as [-> ->].
  destruct (try_part_run id l endpoint abort w0' o1 w1 Htry Hok) as (u & Hu & Hg & Hc).
  rewrite <- Ht0 in Hq. unfold finish_outcome.
  destruct o1; [| | done]; right; exists l, endpoint, w0, w1, u; by split_and!.
Qed.
End completion.

Section finishing.
Context `{RuntimeLaws}.

#[local] Hint Resolve lease_row_ok audit_entry_safe : safe.
Lemma update_lease_safe id changes : safe (update_lease id changes).
Proof.
  unfold update_lease. safes. intros s. unfold update_maintenance_lease. case_match; [| done]. by case_match.
Qed.
Lemma evidence_with_ok l more retries : res_ok (evidence_with l more retries).
Proof. unfold evidence_with. by destruct (le_evidence l). Qed.
Lemma lease_endpoint_ok l : res_ok (lease_endpoint l).
Proof. unfold lease_endpoint. destruct (le_endpoint l); try done. apply res_ok_bind; [apply subscript_ok | done]. Qed.
#[local] Hint Resolve update_lease_safe evidence_with_ok lease_endpoint_ok : safe.
#[local] Hint Resolve verify_round_appending : appending.
Lemma authorized_lease_safe id token : safe (_authorized_lease id token).
Proof. unfold _authorized_lease. safes. Qed.
Lemma verify_round_safe endpoint l last : safe (verify_round endpoint l last).
Proof. unfold verify_round, observe_status. safes. Qed.
#[local] Hint Resolve authorized_lease_safe verify_round_safe : safe.
Lemma reattach_safe id l endpoint audit abort : safe (reattach_and_verify id l endpoint audit abort).
Proof. unfold reattach_and_verify, finish_abort, finish_verified. safes. Qed.
Lemma finish_safe id token abort : safe (finish_maintenance id token abort).
Proof.
  unfold finish_maintenance. apply safe_bind; [safes | intros l]. case_match; [apply safe_ret |].
  apply safe_bind; [safes | intros endpoint]. cbv zeta. apply safe_bind; [safes | intros []].
  apply safe_finally; [| by unfold release_gate]. apply safe_try_exn; [apply reattach_safe |].
  intros e He. unfold record_failure. apply safe_bind; [safes | intros; by apply safe_lift].
Qed.

(** C12: completing a lease ends after finitely many answers and accounts for
    everything it began.  Either nothing was done - the lease is unknown, the
    token wrong, the lease finished already - or the lease with this id was
    authorized and active, and its gate was opened exactly once, as the last
    thing.  If it returns, its endpoint was reopened, and the store holds the
    lease as aborted, which was asked for, or as released, after a live status
    showed the expected device on the endpoint in Recovery, on another boot, in
    the expected version.  If it raises, it raises what the reattachment raised,
    and the store holds the lease as failed with that error and the evidence of
    the attempt, with an entry in the audit log; unless the recording itself was
    cut short, for one of four reasons: the evidence of the lease is no
    dictionary, the clock raised, the lease is gone from the store, or the
    failed row, already stored, cannot be read back. *)
Theorem maintenance_finished id token abort w o w' :
  w_trace w = [] → env_ok w → finish_maintenance id token abort w = (o, w') →
  outcome_ok o ∧ finish_outcome id token abort o w w'.
Proof.
  intros Hw Henv Hrun. destruct (finish_safe id token abort w Henv) as [Hok _]. rewrite Hrun in Hok.
  split; [done |]. by apply finish_run.
Qed.

(** A maintenance lease obeys only who knows its token: with any other
    token renewing and finishing raise, and change nothing - no call, no write,
    no look at the clock. *)
Theorem lease_needs_token id token row abort ttl w :
  maintenance_lease (w_store w) id = Some row → ls_token_hash row ≠ _lease_token_hash token ∨ token = ""%string →
  (∃ e, finish_maintenance id token abort w = (Raised e, w)) ∧ (∃ e, renew_maintenance id token ttl w = (Raised e, w)).
Proof.
  intros Hrow Htoken.
  assert (Hauth : ∃ e, _authorized_lease id token w = (Raised e, w)).
  { unfold _authorized_lease, mbind at 1, Eff_bind at 1, get_store. rewrite Hrow.
    unfold mbind at 1, Eff_bind at 1, lift at 1.
    destruct (_maintenance_lease_row row) as [l|e] eqn:Hl; [| by exists e].
    assert ((token =? "")%string || negb (ls_token_hash row =? _lease_token_hash token)%string = true) as ->
      by (apply orb_true_iff; destruct Htoken as [Hne | ->]; [right | by left]; by apply negb_true_iff, String.eqb_neq).
    unfold throw, lift. by eexists. }
  destruct Hauth as [e He]. unfold finish_maintenance, renew_maintenance, mbind, Eff_bind. rewrite He.
  split; by exists e.
Qed.
End finishing.

(** ** A lease from acquisition to release *)

Definition example_usb : dict := [("endpoint", PStr "usb:1"); ("path", PStr "/dev/ttyACM0")]%string.
Definition example_attached (mode boot : string) : dict :=
  [("device_id", PStr "d"); ("endpoint", PStr "usb:1"); ("firmware_mode", PStr mode); ("boot_id", PStr boot);
   ("app_version", PStr "2"); ("capability_names", PList [PStr "ota"])]%string.
Definition example_lease_script : list answer :=
  [list_answer [[("device_id", PStr "d")]%string]; int_answer 1; unit_answer; dict_answer (example_attached "normal" "1");
   dict_answer []; unit_answer; dict_answer example_usb; int_answer 10; str_answer "token"; str_answer "lease";
   int_answer 11; int_answer 12; unit_answer].
Definition example_actor : Actor := unrestricted "user" "u".
Definition example_lease_world (script : list answer) : world := World_ script GatewayStore_init 0 (0, None) [].
Definition example_acquisition : outcome dict * world :=
  @acquire plain_runtime (OfDevice "d") example_actor "flash" "2" (float_of_int 60)
    (example_lease_world example_lease_script).

Definition result_of (r : outcome dict * world) : dict := match fst r with Done d => d | _ => [] end.
Definition example_finish_world : world :=
    (World_ [int_answer 20; unit_answer; unit_answer; unit_answer; list_answer [example_attached "normal" "1"];
             error_answer OSError; unit_answer; unit_answer; list_answer [example_attached "recovery" "2"];
             dict_answer (example_attached "recovery" "2"); int_answer 30; int_answer 31]
       (w_store (snd example_acquisition)) 0 (0, None) []).
Definition example_finish : outcome dict * world :=
  @finish_maintenance plain_runtime "lease" "token" false example_finish_world.

Lemma maintenance_gate_witness :
  outcome_ok (fst example_acquisition) ∧ gate_outcome (fst example_acquisition) (w_trace (snd example_acquisition)).
Proof.
  apply (@maintenance_gate plain_runtime plain_runtime_laws (OfDevice "d") example_actor "flash" "2" (float_of_int 60)
    (example_lease_world example_lease_script)); [reflexivity | | vm_compute; reflexivity].
  repeat constructor; discriminate.
Defined.
Lemma lease_evidence_witness :
  @lease_rests_on plain_runtime (OfDevice "d") example_actor "flash" "2" (float_of_int 60)
    (result_of example_acquisition) (w_trace (snd example_acquisition)).
Proof.
  apply (@lease_evidence plain_runtime (OfDevice "d") example_actor "flash" "2" (float_of_int 60)
    (example_lease_world example_lease_script)); [reflexivity | vm_compute; reflexivity].
Defined.
Lemma maintenance_finished_witness :
  dict_get "state" (result_of example_finish) = PStr "released"
  ∧ outcome_ok (fst example_finish)
  ∧ @finish_outcome plain_runtime "lease" "token" false (fst example_finish) example_finish_world (snd example_finish).
Proof.
  split; [vm_compute; reflexivity |].
  apply (@maintenance_finished plain_runtime "lease" "token" false example_finish_world);
    [reflexivity | | vm_compute; reflexivity].
  repeat constructor; discriminate.
Defined.
Definition example_lease_row : lease_row :=
  default (LeaseRow "" "" "" "" "" "" "" None None "" "" 0 0 None None)
    (maintenance_lease (w_store (snd example_acquisition)) "lease").
Lemma lease_needs_token_witness :
  (∃ e, @finish_maintenance plain_runtime "lease" "guess" false example_finish_world = (Raised e, example_finish_world))
  ∧ (∃ e, renew_maintenance "lease" "guess" (float_of_int 60) example_finish_world
          = (Raised e, example_finish_world)).
Proof.
  apply (@lease_needs_token plain_runtime "lease" "guess" example_lease_row false (float_of_int 60) example_finish_world);
    [vm_compute; reflexivity | left; vm_compute; discriminate].
Defined.

(** Two completions of one lease: while the second reopens the endpoint, the
    first has released the lease; the second then fails, since the endpoint is
    no longer reserved, records the released lease as failed, and opens the
    gate again. *)
Definition released_meanwhile (s : GatewayStore) : GatewayStore :=
  fst (update_maintenance_lease "lease" [LeaseState "released"; LeaseFinished 25]%string s).
Definition example_second_finish : outcome dict * world :=
  @finish_maintenance plain_runtime "lease" "token" false
    (World_ [int_answer 20;
             Answer (Ok []) (Ok []) (Ok (0, [])) (Ok 0) (Ok ""%string) (Ok true)
               (raise RuntimeError "device endpoint is not reserved for maintenance") (Ok None) (Ok ([], OperationIdentity.ONone, true))
               None released_meanwhile;
             int_answer 30; int_answer 31]
       (w_store (snd example_acquisition)) 0 (0, None) []).
Example second_completion_overwrites :
  raised_with (λ e, bool_decide (exn_cls e = RuntimeError)) (fst example_second_finish) = true
  ∧ option_map ls_state (maintenance_lease (w_store (snd example_second_finish)) "lease")
    = Some "verification_failed"%string
  ∧ gate_history (w_trace (snd example_second_finish)) = [GateReleased "d"].
Proof. vm_compute. auto. Qed.
