(* ===== verification/Media.v ===== *)
(** * Images for browsers ([media.py])

    An image of a device - RGB565, RGB888, JPEG or PNG - becomes a JPEG or a PNG.
    [zlib.compress] is a parameter: any function that some decompression
    inverts.  [png_pixels] is the reference: what a reader makes of a PNG. *)
From stdpp Require Import pretty.
From S2P Require Import Prelude Crc Value Runtime.

(** ** Formats *)

Definition RGB565 : Z := 1.
Definition RGB888 : Z := 2.
Definition JPEG : Z := 3.
Definition PNG : Z := 4.

Definition description : Type := list (string * Z).
Record EncodedImage := Encoded {
  ei_description : description; ei_data : bytes; ei_content_type : string; ei_extension : string;
}.
(** [description.get(key, 0)] *)
Definition field (key : string) (d : description) : Z := default 0 (dict_lookup key d).

Definition PNG_SIGNATURE : bytes := [0x89; 0x50; 0x4E; 0x47; 0x0D; 0x0A; 0x1A; 0x0A].
Definition JPEG_SIGNATURE : bytes := [0xFF; 0xD8].
Definition starts_with (prefix data : bytes) : bool := bool_decide (take (length prefix) data = prefix).

(** ** PNG *)

(** [struct.pack(">I", n)] *)
Definition pack_be32 (n : Z) : res bytes :=
  if (0 <=? n) && (n <? 2 ^ 32) then Ok (be_encode 4 n) else raise StructError "argument out of range".

Definition IHDR : bytes := [0x49; 0x48; 0x44; 0x52].
Definition IDAT : bytes := [0x49; 0x44; 0x41; 0x54].
Definition IEND : bytes := [0x49; 0x45; 0x4E; 0x44].

Definition _png_chunk (name data : bytes) : res bytes :=
  size ← pack_be32 (zlen data);
  crc ← pack_be32 (Z.land (crc32 (name ++ data)) 0xFFFFFFFF);
  Ok (size ++ name ++ data ++ crc).

(** The rows of an image, each after its filter byte. *)
Definition filtered_rows (height : nat) (row_size : Z) (rgb : bytes) : bytes :=
  flat_map (λ y, 0 :: slice (Z.of_nat y * row_size) (Z.of_nat y * row_size + row_size) rgb) (seq 0 height).

(** ** Pixels *)

Definition rgb565_pixel (lo hi : Z) : bytes :=
  let value := Z.lor lo (Z.shiftl hi 8) in
  let red := Z.land (Z.shiftr value 11) 0x1F in
  let green := Z.land (Z.shiftr value 5) 0x3F in
  let blue := Z.land value 0x1F in
  [Z.lor (Z.shiftl red 3) (Z.shiftr red 2); Z.lor (Z.shiftl green 2) (Z.shiftr green 4);
   Z.lor (Z.shiftl blue 3) (Z.shiftr blue 2)].

(** One row; the buffer is filled from its start. *)
Definition row_rgb (format_ : Z) (width : nat) (row : bytes) : bytes :=
  if format_ =? RGB565
  then flat_map (λ x, rgb565_pixel (byte_at row (Z.of_nat x * 2)) (byte_at row (Z.of_nat x * 2 + 1))) (seq 0 width)
  else row.

Definition bytes_per_pixel (format_ : Z) : Z := if format_ =? RGB565 then 2 else if format_ =? RGB888 then 3 else 0.
Definition row_stride (d : description) : Z :=
  let stride := field "stride" d in
  if stride =? 0 then field "width" d * bytes_per_pixel (field "format" d) else stride.

Definition _raw_rgb (d : description) (data : bytes) : res (Z * Z * bytes) :=
  let width := field "width" d in
  let height := field "height" d in
  let format_ := field "format" d in
  let bpp := bytes_per_pixel format_ in
  let stride := row_stride d in
  if (width <=? 0) || (height <=? 0) || (bpp =? 0)
  then raise ValueError "unsupported or empty raw image description"
  else if (stride <? width * bpp) || negb (zlen data =? stride * height)
  then raise ValueError "raw image size does not match width, height, and stride"
  else Ok (width, height,
    flat_map (λ y, row_rgb format_ (Z.to_nat width)
                     (slice (Z.of_nat y * stride) (Z.of_nat y * stride + width * bpp) data))
      (seq 0 (Z.to_nat height))).

Section media.
Context `{Runtime} (compress : bytes → bytes).

Definition _encode_rgb_png (width height : Z) (rgb : bytes) : res bytes :=
  if negb (zlen rgb =? width * height * 3) then raise ValueError "RGB image size does not match its dimensions"
  else
    w ← pack_be32 width; h ← pack_be32 height;
    head ← _png_chunk IHDR (w ++ h ++ [8; 2; 0; 0; 0]);
    body ← _png_chunk IDAT (compress (filtered_rows (Z.to_nat height) (width * 3) rgb));
    tail ← _png_chunk IEND [];
    Ok (PNG_SIGNATURE ++ head ++ body ++ tail).

(** [{key: int(value) for key, value in description.items()}] *)
Fixpoint int_values (d : dict) : res description :=
  match d with
  | [] => Ok []
  | (key, v) :: d => z ← int v; rest ← int_values d; Ok ((key, z) :: rest)
  end.

Definition with_fields (fields d : description) : description :=
  fold_left (λ d kv, dict_set (fst kv) (snd kv) d) fields d.

Definition encode_media_image (d : dict) (data : bytes) : res EncodedImage :=
  source ← int_values d;
  let format_ := field "format" source in
  if starts_with PNG_SIGNATURE data
  then Ok (Encoded (with_fields [("format", PNG)] source) data "image/png" "png")%string
  else if starts_with JPEG_SIGNATURE data
  then Ok (Encoded (with_fields [("format", JPEG)] source) data "image/jpeg" "jpg")%string
  else if (format_ =? RGB565) || (format_ =? RGB888) then
    raw ← _raw_rgb source data;
    let '(width, height, rgb) := (raw : Z * Z * bytes) in
    png ← _encode_rgb_png width height rgb;
    Ok (Encoded (with_fields [("width", width); ("height", height); ("stride", width * 3); ("format", PNG);
                              ("source_format", format_); ("source_stride", field "stride" source)] source)
          png "image/png" "png")%string
  else if format_ =? PNG then raise ValueError "PNG payload has an invalid signature"
  else if format_ =? JPEG then raise ValueError "JPEG payload has an invalid signature"
  else raise ValueError ("unsupported ESP-Iris image format: " ++ pretty format_)%string.
End media.

(** ** The reference: reading a PNG *)

Definition be_decode (l : bytes) : Z := le_decode (rev l).

(** The next chunk: its name, its data, and what follows. *)
Definition read_chunk (l : bytes) : option (bytes * bytes * bytes) :=
  let n := be_decode (take 4 l) in
  let name := take 4 (drop 4 l) in
  let data := take (Z.to_nat n) (drop 8 l) in
  let rest := drop (Z.to_nat n) (drop 8 l) in
  if bool_decide (be_decode (take 4 rest) = Z.land (crc32 (name ++ data)) 0xFFFFFFFF) then Some (name, data, drop 4 rest) else None.

(** Rows of [size] bytes that are not filtered. *)
Fixpoint unfiltered (height size : nat) (l : bytes) : option bytes :=
  match height with
  | O => if is_nil l then Some [] else None
  | S height =>
    match l with
    | 0 :: l => rest ← unfiltered height size (drop size l); Some (take size l ++ rest)
    | _ => None
    end
  end.

(** Width, height and pixels of an 8-bit RGB image in three chunks. *)
Definition png_pixels (decompress : bytes → option bytes) (l : bytes) : option (Z * Z * bytes) :=
  if negb (starts_with PNG_SIGNATURE l) then None
  else
    '(name1, head, l) ← read_chunk (drop 8 l);
    '(name2, body, l) ← read_chunk l;
    '(name3, tail, l) ← read_chunk l;
    if bool_decide (name1 = IHDR ∧ name2 = IDAT ∧ name3 = IEND ∧ tail = [] ∧ l = []
                    ∧ drop 8 head = [8; 2; 0; 0; 0])
    then
      let width := be_decode (take 4 head) in
      let height := be_decode (take 4 (drop 4 head)) in
      rows ← decompress body;
      pixels ← unfiltered (Z.to_nat height) (Z.to_nat (width * 3)) rows;
      Some (width, height, pixels)
    else None.

(** ** Chunks *)

Lemma be_decode_encode n z : 0 ≤ z < 256 ^ Z.of_nat n → be_decode (be_encode n z) = z.
Proof. intros. unfold be_decode, be_encode. rewrite rev_involutive. by apply le_decode_encode. Qed.
Lemma length_be_encode n z : length (be_encode n z) = n.
Proof. unfold be_encode. by rewrite length_rev, length_le_encode. Qed.
Lemma pack_be32_spec n :
  pack_be32 n = (if bool_decide (0 ≤ n < 2 ^ 32) then Ok (be_encode 4 n) else raise StructError "argument out of range").
Proof.
  unfold pack_be32. case_bool_decide; destruct (Z.leb_spec 0 n), (Z.ltb_spec n (2 ^ 32)); simpl; try done; lia.
Qed.
Lemma pack_be32_Ok n l : pack_be32 n = Ok l → l = be_encode 4 n ∧ 0 ≤ n < 2 ^ 32.
Proof. rewrite pack_be32_spec. case_bool_decide; [by intros [= <-] | done]. Qed.
Lemma masked_u32 z : 0 ≤ Z.land z 0xFFFFFFFF < 2 ^ 32.
Proof. change 0xFFFFFFFF with (Z.ones 32). rewrite Z.land_ones by lia. apply Z.mod_pos_bound. lia. Qed.

Lemma take_field {A} n (l k : list A) : length l = n → take n (l ++ k) = l.
Proof. intros <-. apply take_app_length. Qed.
Lemma drop_field {A} n (l k : list A) : length l = n → drop n (l ++ k) = k.
Proof. intros <-. apply drop_app_length. Qed.

Lemma png_chunk_read name data c rest : length name = 4%nat → _png_chunk name data = Ok c →
  read_chunk (c ++ rest) = Some (name, data, rest).
Proof.
  intros Hname Hc. unfold _png_chunk in Hc. bind Hc as size Hs. bind Hc as crc Hcrc. injection Hc as <-.
  apply pack_be32_Ok in Hs as [-> Hs], Hcrc as [-> Hcrc]. unfold read_chunk. rewrite <- !app_assoc.
  rewrite !(take_field 4) by apply length_be_encode. rewrite be_decode_encode by done.
  rewrite (drop_field 4) by apply length_be_encode. rewrite (take_field 4) by done.
  assert (Hdrop : drop 8 (be_encode 4 (zlen data) ++ name ++ data ++ be_encode 4 (Z.land (crc32 (name ++ data)) 0xFFFFFFFF) ++ rest)
    = data ++ be_encode 4 (Z.land (crc32 (name ++ data)) 0xFFFFFFFF) ++ rest).
  { rewrite (app_assoc (be_encode 4 _) name). apply drop_field. by rewrite length_app, length_be_encode, Hname. }
  rewrite Hdrop. unfold zlen. rewrite Nat2Z.id, (drop_field (length data)), (take_field (length data)) by done.
  rewrite (take_field 4), (drop_field 4) by apply length_be_encode.
  rewrite be_decode_encode by done. by rewrite bool_decide_true.
Qed.

Lemma png_chunk_cases name data :
  match _png_chunk name data with
  | Ok _ => zlen data < 2 ^ 32
  | Err e => exn_cls e = StructError ∧ 2 ^ 32 ≤ zlen data
  end.
Proof.
  unfold _png_chunk. rewrite !pack_be32_spec. pose proof (zlen_nonneg data). unfold raise.
  rewrite (bool_decide_true (0 ≤ Z.land _ _ < _)) by apply masked_u32.
  destruct (bool_decide (0 ≤ zlen data < 2 ^ 32)) eqn:B; cbn [mbind res_bind];
    [apply bool_decide_eq_true in B; lia | apply bool_decide_eq_false in B; split; [done | lia]].
Qed.

(** ** Rows *)

Lemma unfiltered_rows size rgb h : ∀ k, ((k + h) * size ≤ length rgb)%nat →
  unfiltered h size (flat_map (λ y, 0 :: take size (drop (y * size) rgb)) (seq k h))
  = Some (take (h * size) (drop (k * size) rgb)).
Proof.
  induction h as [|h IH]; intros k Hk; [done |]. cbn [seq flat_map unfiltered app].
  assert (Hlen : length (take size (drop (k * size) rgb)) = size) by (rewrite length_take, length_drop; lia).
  rewrite take_field, drop_field by done. rewrite IH by lia. cbn [mbind option_bind]. f_equal.
  replace (S h * size)%nat with (size + h * size)%nat by lia. rewrite <- take_take_drop, drop_drop.
  f_equal. f_equal. f_equal. lia.
Qed.

Lemma filtered_rows_read height width rgb : 0 ≤ width → zlen rgb = width * Z.of_nat height * 3 →
  unfiltered height (Z.to_nat (width * 3)) (filtered_rows height (width * 3) rgb) = Some rgb.
Proof.
  intros Hw Hlen. unfold zlen in Hlen. set (size := Z.to_nat (width * 3)).
  assert (Heq : filtered_rows height (width * 3) rgb
    = flat_map (λ y, 0 :: take size (drop (y * size) rgb)) (seq 0 height)).
  { unfold filtered_rows. apply flat_map_ext. intros y. unfold slice. f_equal. f_equal; [lia | f_equal; lia]. }
  rewrite Heq, unfiltered_rows by lia. f_equal. apply take_ge. simpl. lia.
Qed.

Section reading.
Context (compress : bytes → bytes) (decompress : bytes → option bytes).
Hypothesis inverted : ∀ rows, decompress (compress rows) = Some rows.

(** What [_encode_rgb_png] writes is read back. *)
Lemma encode_rgb_png_read width height rgb png : 0 ≤ width → 0 ≤ height →
  _encode_rgb_png compress width height rgb = Ok png → png_pixels decompress png = Some (width, height, rgb).
Proof.
  intros Hw Hh Hp. unfold _encode_rgb_png in Hp. apply if_raise_Ok in Hp as [Hlen%negb_false_iff%Z.eqb_eq Hp].
  bind Hp as w Ew. bind Hp as h Eh. bind Hp as head Ehead. bind Hp as body Ebody. bind Hp as tail Etail.
  assert (png = PNG_SIGNATURE ++ head ++ body ++ tail) as -> by congruence.
  apply pack_be32_Ok in Ew as [-> Ew], Eh as [-> Eh].
  unfold png_pixels, starts_with. rewrite (take_field (length PNG_SIGNATURE)) by done.
  rewrite bool_decide_true by done. cbn [negb]. rewrite (drop_field 8) by done.
  rewrite (png_chunk_read IHDR _ head) by done. cbn [mbind option_bind].
  rewrite (png_chunk_read IDAT _ body) by done. cbn [mbind option_bind].
  rewrite <- (app_nil_r tail), (png_chunk_read IEND _ tail) by done. cbn [mbind option_bind].
  rewrite bool_decide_true.
  - rewrite (take_field 4), (drop_field 4), (take_field 4) by apply length_be_encode.
    rewrite !be_decode_encode by done. rewrite inverted. cbn [mbind option_bind].
    rewrite filtered_rows_read; [done | done | rewrite Z2Nat.id; lia].
  - split_and!; done.
Qed.
End reading.

(** ** Pixels *)

(** The colour of pixel [x] of row [y] of the source, on 8 bits a channel. *)
Definition source_pixel (format_ stride : Z) (data : bytes) (x y : Z) : bytes :=
  if format_ =? RGB565 then
    let v := u16_at data (y * stride + 2 * x) in
    let red := v / 2048 in
    let green := v / 32 mod 64 in
    let blue := v mod 32 in
    [8 * red + red / 4; 4 * green + green / 16; 8 * blue + blue / 4]
  else slice (y * stride + 3 * x) (y * stride + 3 * x + 3) data.

Definition expanded (v : Z) : bytes :=
  [8 * (v / 2048) + v / 2048 / 4; 4 * (v / 32 mod 64) + v / 32 mod 64 / 16; 8 * (v mod 32) + v mod 32 / 4].
Lemma lor_shiftl_low a b k : 0 ≤ k → 0 ≤ b < 2 ^ k → Z.lor (Z.shiftl a k) b = a * 2 ^ k + b.
Proof.
  intros Hk Hb. assert (Hand : Z.land (Z.shiftl a k) b = 0).
  { apply Z.bits_inj'. intros n Hn. rewrite Z.land_spec, Z.bits_0, Z.shiftl_spec by done.
    destruct (Z.ltb_spec n k) as [Hlt | Hge]; [by rewrite Z.testbit_neg_r by lia |].
    rewrite <- (Z.mod_small b (2 ^ k)), Z.mod_pow2_bits_high by lia. apply andb_false_r. }
  rewrite <- Z.lxor_lor, <- Z.add_nocarry_lxor, Z.shiftl_mul_pow2 by done. done.
Qed.
Lemma rgb565_pixel_spec lo hi : byte_ok lo → byte_ok hi → rgb565_pixel lo hi = expanded (lo + 256 * hi).
Proof.
  unfold byte_ok. intros Hlo Hhi. unfold rgb565_pixel, expanded.
  rewrite (Z.lor_comm lo), (lor_shiftl_low hi lo 8) by (done || lia). replace (hi * 2 ^ 8 + lo) with (lo + 256 * hi) by lia.
  set (v := lo + 256 * hi). assert (Hv : 0 ≤ v < 65536) by lia. clearbody v.
  change 0x1F with (Z.ones 5). change 0x3F with (Z.ones 6). rewrite !Z.land_ones, !Z.shiftr_div_pow2 by lia.
  change (2 ^ 11) with 2048. change (2 ^ 5) with 32. change (2 ^ 6) with 64. change (2 ^ 2) with 4. change (2 ^ 4) with 16.
  assert (Hr : 0 ≤ v / 2048 < 32) by (split; [apply Z.div_pos; lia | apply Z.div_lt_upper_bound; lia]).
  rewrite (Z.mod_small (v / 2048)) by done.
  pose proof (Z.mod_pos_bound (v / 32) 64 ltac:(lia)) as Hg. pose proof (Z.mod_pos_bound v 32 ltac:(lia)) as Hb.
  rewrite !lor_shiftl_low by first [done | split; [apply Z.div_pos; lia | apply Z.div_lt_upper_bound; lia]].
  f_equal; [lia | f_equal; [lia | f_equal; lia]].
Qed.

(** A piece of a concatenation of pieces of one size. *)
Lemma flat_map_piece (f : nat → bytes) n h : ∀ k y, (∀ i, (k ≤ i < k + h)%nat → length (f i) = n) → (y < h)%nat →
  take n (drop (y * n) (flat_map f (seq k h))) = f (k + y)%nat.
Proof.
  induction h as [|h IH]; intros k y Hf Hy; [lia |]. cbn [seq flat_map].
  destruct y as [|y]; [rewrite Nat.mul_0_l, drop_0, Nat.add_0_r; apply take_field; apply Hf; lia |].
  replace (S y * n)%nat with (n + y * n)%nat by lia. rewrite <- drop_drop, drop_field by (apply Hf; lia).
  rewrite IH; [f_equal; lia | intros; apply Hf; lia | lia].
Qed.
Lemma length_flat_map_pieces (f : nat → bytes) n h : ∀ k, (∀ i, (k ≤ i < k + h)%nat → length (f i) = n) →
  length (flat_map f (seq k h)) = (h * n)%nat.
Proof.
  induction h as [|h IH]; intros k Hf; [done |]. cbn [seq flat_map]. rewrite length_app, Hf, IH by (intros; (apply Hf; lia) || lia).
  lia.
Qed.

Lemma nth_take_lt (l : bytes) n i : (i < n)%nat → nth i (take n l) 0 = nth i l 0.
Proof. revert l i. induction n as [|n IH]; intros [|b l] [|i] Hi; simpl; try done; try lia. apply IH. lia. Qed.
Lemma byte_at_slice l a b i : 0 ≤ a → 0 ≤ i < b - a → byte_at (slice a b l) i = byte_at l (a + i).
Proof.
  intros. unfold byte_at, slice. rewrite nth_take_lt by lia. rewrite nth_skipn. f_equal. lia.
Qed.
Lemma u16_at_bytes l i : 0 ≤ i → i + 2 ≤ zlen l → u16_at l i = byte_at l i + 256 * byte_at l (i + 1).
Proof.
  intros Hi Hlen. unfold u16_at, byte_at, slice, zlen in *.
  replace (Z.to_nat (i + 2 - i)) with 2%nat by lia. replace (Z.to_nat (i + 1)) with (S (Z.to_nat i)) by lia.
  assert (Hn : (S (Z.to_nat i) < length l)%nat) by lia. generalize dependent (Z.to_nat i). clear. intros n Hn.
  revert l Hn. induction n as [|n IH]; intros [|a l] Hn; simpl in *; try lia; [| apply IH; lia].
  destruct l as [|b l]; simpl in *; lia.
Qed.

Lemma take_drop_take {A} n i N (l : list A) : (i + n ≤ N)%nat → take n (drop i (take N l)) = take n (drop i l).
Proof. intros. rewrite take_drop_commute, take_take, Nat.min_l by lia. by rewrite <- take_drop_commute. Qed.

Section pixels.
Context (format_ width height stride : Z) (data : bytes).
Let bpp := bytes_per_pixel format_.
Let row (y : nat) : bytes := slice (Z.of_nat y * stride) (Z.of_nat y * stride + width * bpp) data.
Hypothesis raw : format_ = RGB565 ∨ format_ = RGB888.
Hypothesis positive : 0 < width.
Hypothesis fits : width * bpp ≤ stride.
Hypothesis sized : zlen data = stride * height.
Hypothesis in_range : is_bytes data.

Lemma row_end y : (Z.of_nat y < height) → 0 ≤ Z.of_nat y * stride ∧ Z.of_nat y * stride + width * bpp ≤ zlen data.
Proof.
  intros Hy. assert (0 ≤ bpp) by (destruct raw as [-> | ->]; done). nia.
Qed.
Lemma length_row_rgb y : Z.of_nat y < height → length (row_rgb format_ (Z.to_nat width) (row y)) = (Z.to_nat width * 3)%nat.
Proof.
  intros Hy. destruct (row_end y Hy) as [Hs He]. unfold row_rgb. destruct (Z.eqb_spec format_ RGB565) as [Hf | Hf].
  - apply length_flat_map_pieces. done.
  - assert (Hb : bpp = 3) by (destruct raw as [? | ->]; [congruence | done]).
    pose proof (zlen_slice (Z.of_nat y * stride) (Z.of_nat y * stride + width * bpp) data ltac:(lia) He) as Hl.
    unfold zlen, row in *. lia.
Qed.
Lemma row_rgb_pixel x y : (x < Z.to_nat width)%nat → Z.of_nat y < height →
  take 3 (drop (x * 3) (row_rgb format_ (Z.to_nat width) (row y)))
  = source_pixel format_ stride data (Z.of_nat x) (Z.of_nat y).
Proof.
  intros Hx Hy. destruct (row_end y Hy) as [Hs He]. unfold row_rgb, source_pixel.
  destruct (Z.eqb_spec format_ RGB565) as [Hf | Hf].
  - assert (Hb : bpp = 2) by (unfold bpp; rewrite Hf; done). rewrite Hb in *.
    rewrite (flat_map_piece _ 3 (Z.to_nat width) 0) by done. rewrite Nat.add_0_l.
    unfold row. rewrite Hb. rewrite !byte_at_slice by lia.
    rewrite rgb565_pixel_spec by (by apply byte_at_ok). rewrite u16_at_bytes by lia. unfold expanded.
    replace (Z.of_nat y * stride + (Z.of_nat x * 2 + 1)) with (Z.of_nat y * stride + 2 * Z.of_nat x + 1) by lia.
    replace (Z.of_nat y * stride + Z.of_nat x * 2) with (Z.of_nat y * stride + 2 * Z.of_nat x) by lia. done.
  - assert (Hb : bpp = 3) by (destruct raw as [? | ->]; [congruence | done]). unfold row, slice. rewrite Hb in *.
    rewrite take_drop_take, drop_drop by lia. f_equal; [lia | f_equal; lia].
Qed.

Lemma image_pixel x y : 0 ≤ x < width → 0 ≤ y < height →
  let pixels := flat_map (λ y, row_rgb format_ (Z.to_nat width) (row y)) (seq 0 (Z.to_nat height)) in
  slice (3 * (y * width + x)) (3 * (y * width + x) + 3) pixels = source_pixel format_ stride data x y.
Proof.
  intros Hx Hy. cbv zeta. set (pixels := flat_map _ _).
  rewrite <- (Z2Nat.id x), <- (Z2Nat.id y) by lia. set (i := Z.to_nat x). set (j := Z.to_nat y).
  rewrite <- (row_rgb_pixel i j) by lia.
  pose proof (flat_map_piece (λ y, row_rgb format_ (Z.to_nat width) (row y)) (Z.to_nat width * 3) (Z.to_nat height) 0 j) as Hp.
  cbv beta in Hp. change (0 + j)%nat with j in Hp. rewrite <- Hp by (try (intros; apply length_row_rgb); lia). fold pixels.
  rewrite take_drop_take by lia. unfold slice. rewrite drop_drop. f_equal; [lia | f_equal; lia].
Qed.
End pixels.

(** ** Images *)

(** The description of a raw image that its data has. *)
Definition raw_fits (source : description) (data : bytes) : Prop :=
  0 < field "width" source ∧ 0 < field "height" source
  ∧ field "width" source * bytes_per_pixel (field "format" source) ≤ row_stride source
  ∧ zlen data = row_stride source * field "height" source.

Lemma raw_rgb_spec source data : field "format" source = RGB565 ∨ field "format" source = RGB888 → is_bytes data →
  match _raw_rgb source data with
  | Ok (width, height, rgb) => raw_fits source data ∧ width = field "width" source ∧ height = field "height" source
      ∧ zlen rgb = width * height * 3
      ∧ ∀ x y, 0 ≤ x < width → 0 ≤ y < height →
          slice (3 * (y * width + x)) (3 * (y * width + x) + 3) rgb
          = source_pixel (field "format" source) (row_stride source) data x y
  | Err e => ¬ raw_fits source data ∧ exn_cls e = ValueError
  end.
Proof.
  intros Hraw Hdata. unfold _raw_rgb, raw_fits.
  set (width := field "width" source). set (height := field "height" source). set (format_ := field "format" source) in *.
  set (stride := row_stride source). set (bpp := bytes_per_pixel format_).
  assert (Hbpp : bpp ≠ 0) by (subst bpp; by destruct Hraw as [-> | ->]).
  destruct (Z.leb_spec width 0), (Z.leb_spec height 0), (Z.eqb_spec bpp 0); simpl; try (split; [lia | done]); try done.
  destruct (Z.ltb_spec stride (width * bpp)), (Z.eqb_spec (zlen data) (stride * height)); simpl; try (split; [lia | done]).
  split_and!; try done.
  - unfold zlen at 1. rewrite (length_flat_map_pieces _ (Z.to_nat width * 3)).
    + lia.
    + intros y Hy. apply (length_row_rgb format_ width height stride data); try done; lia.
  - intros x y Hx Hy. by apply (image_pixel format_ width height stride data).
Qed.

(** Writing a PNG of the right size fails only on sizes that it cannot hold. *)
Lemma bind_fails {A B} (m : res A) (f : A → res B) (P : exn → Prop) :
  (∀ e, m = Err e → P e) → (∀ a, m = Ok a → match f a with Ok _ => True | Err e => P e end) →
  match m ≫= f with Ok _ => True | Err e => P e end.
Proof. intros Herr Hok. destruct m as [a|e]; [exact (Hok a eq_refl) | exact (Herr e eq_refl)]. Qed.
Lemma pack_be32_Err n e : 0 ≤ n → pack_be32 n = Err e → exn_cls e = StructError ∧ 2 ^ 32 ≤ n.
Proof. rewrite pack_be32_spec. case_bool_decide; [done |]. intros ? [= <-]. split; [done | lia]. Qed.
Lemma png_chunk_Err name data e : _png_chunk name data = Err e → exn_cls e = StructError ∧ 2 ^ 32 ≤ zlen data.
Proof. intros He. pose proof (png_chunk_cases name data) as Hc. by rewrite He in Hc. Qed.

Lemma encode_rgb_png_cases compress width height rgb : 0 ≤ width → 0 ≤ height → zlen rgb = width * height * 3 →
  match _encode_rgb_png compress width height rgb with
  | Ok _ => True
  | Err e => exn_cls e = StructError ∧ (2 ^ 32 ≤ width ∨ 2 ^ 32 ≤ height ∨ ∃ rows, 2 ^ 32 ≤ zlen (compress rows))
  end.
Proof.
  intros Hw Hh Hlen. unfold _encode_rgb_png. rewrite Hlen, Z.eqb_refl. simpl negb. cbv iota.
  apply bind_fails; [intros e []%pack_be32_Err; auto | intros w [-> _]%pack_be32_Ok].
  apply bind_fails; [intros e []%pack_be32_Err; auto | intros h [-> _]%pack_be32_Ok].
  apply bind_fails; [| intros head _].
  - intros e [_ Hlong]%png_chunk_Err. rewrite !zlen_app in Hlong. unfold zlen in Hlong. rewrite !length_be_encode in Hlong.
    cbn in Hlong. lia.
  - apply bind_fails; [intros e []%png_chunk_Err; eauto | intros body _].
    apply bind_fails; [| done]. intros e [_ Hlong]%png_chunk_Err. rewrite zlen_nil in Hlong. lia.
Qed.

(** A raw image whose description fits its data becomes a PNG that a reader
    decodes to the same size and, pixel for pixel, to the source's colours
    whatever its stride; any other raw image is refused.  Only sizes that a PNG
    cannot hold fail otherwise. *)
Theorem raw_image_png `{Runtime} compress decompress d data source :
  (∀ rows, decompress (compress rows) = Some rows) → is_bytes data → int_values d = Ok source →
  starts_with PNG_SIGNATURE data = false → starts_with JPEG_SIGNATURE data = false →
  field "format" source = RGB565 ∨ field "format" source = RGB888 →
  match encode_media_image compress d data with
  | Ok image => raw_fits source data ∧ ei_content_type image = "image/png"%string
      ∧ ∃ pixels, png_pixels decompress (ei_data image) = Some (field "width" source, field "height" source, pixels)
          ∧ zlen pixels = field "width" source * field "height" source * 3
          ∧ ∀ x y, 0 ≤ x < field "width" source → 0 ≤ y < field "height" source →
              slice (3 * (y * field "width" source + x)) (3 * (y * field "width" source + x) + 3) pixels
              = source_pixel (field "format" source) (row_stride source) data x y
  | Err e => exn_cls e = ValueError ∧ ¬ raw_fits source data
      ∨ exn_cls e = StructError ∧ raw_fits source data
        ∧ (2 ^ 32 ≤ field "width" source ∨ 2 ^ 32 ≤ field "height" source
           ∨ ∃ rows, 2 ^ 32 ≤ zlen (compress rows))
  end.
Proof.
  intros Hinv Hdata Hsrc Hpng Hjpeg Hraw. unfold encode_media_image. rewrite Hsrc. cbn [mbind res_bind].
  rewrite Hpng, Hjpeg. assert (Hfmt : (field "format" source =? RGB565) || (field "format" source =? RGB888) = true)
    by (by destruct Hraw as [-> | ->]). rewrite Hfmt.
  pose proof (raw_rgb_spec source data Hraw Hdata) as Hspec.
  destruct (_raw_rgb source data) as [[[width height] rgb]|e]; cbn [mbind res_bind]; [| left; tauto].
  destruct Hspec as (Hfits & -> & -> & Hlen & Hpix). pose proof Hfits as (Hw & Hh & _).
  destruct (_encode_rgb_png compress _ _ rgb) as [png|e] eqn:Henc; cbn [mbind res_bind ei_data ei_content_type].
  - split_and!; try done. exists rgb. split_and!; try done.
    eapply encode_rgb_png_read; [done | lia | lia | exact Henc].
  - right. pose proof (encode_rgb_png_cases compress _ _ rgb (Z.lt_le_incl _ _ Hw) (Z.lt_le_incl _ _ Hh) Hlen) as Hcases.
    rewrite Henc in Hcases. destruct Hcases as [? ?]. by split_and!.
Qed.

(** A two-pixel image with padded rows, and a compression that does nothing. *)
Definition example_raw : dict :=
  [("width", PInt 2); ("height", PInt 1); ("stride", PInt 6); ("format", PInt 1)]%string.
Definition example_pixels : bytes := [0x00; 0xF8; 0x1F; 0x00; 9; 9].
Lemma raw_image_png_witness : ∃ image, encode_media_image (H := plain_runtime) id example_raw example_pixels = Ok image
  ∧ ∃ pixels, png_pixels Some (ei_data image) = Some (2, 1, pixels) ∧ slice 0 3 pixels = [255; 0; 0].
Proof.
  pose proof (raw_image_png (H := plain_runtime) id Some example_raw example_pixels
    [("width", 2); ("height", 1); ("stride", 6); ("format", 1)]%string (λ _, eq_refl)) as Himage.
  assert (Hdata : is_bytes example_pixels) by (by vm_compute; repeat constructor).
  specialize (Himage Hdata eq_refl eq_refl eq_refl (or_introl eq_refl)).
  destruct (encode_media_image _ _ _) as [image|e] eqn:E; [| by vm_compute in E].
  destruct Himage as (_ & _ & pixels & Hpixels & _ & Hpix). exists image. split; [reflexivity |]. clear E. exists pixels.
  split; [exact Hpixels |].
  assert (Hx : 0 ≤ 0 < field "width" [("width", 2); ("height", 1); ("stride", 6); ("format", 1)]%string) by (by vm_compute).
  assert (Hy : 0 ≤ 0 < field "height" [("width", 2); ("height", 1); ("stride", 6); ("format", 1)]%string) by (by vm_compute).
  specialize (Hpix 0 0 Hx Hy). replace (source_pixel _ _ _ _ _) with [255; 0; 0] in Hpix by (vm_compute; reflexivity).
  exact Hpix.
Defined.
