(* ===== verification/Http.v ===== *)
(** * The HTTP application: requests, errors, authentication, modes
      ([gateway.py], [http_support.py])

    A handler is a computation over the gateway's state: the [world] of the
    workflows - the store, the answers of the hub and of the operation manager,
    the trace - with what the service keeps beside it.  aiohttp parses a
    request and sends a response; both are records here.  The two middlewares
    wrap every handler.  A handler that runs alone changes the mode only
    itself; what other requests do to the store while it waits is in the
    answers it receives. *)
From S2P Require Import Prelude Enums Text Value Json JsonDump Effects Store Security Files Runtime DeviceInfo Workflow.
From S2P Require Import Service Address.

(** ** Requests and responses *)

Record http_request := HttpRequest {
  hr_method : string;
  (** the decoded segments of the path, and what the route bound of them *)
  hr_segments : list string;
  hr_match : list (string * string);
  hr_query : list (string * string);
  (** the headers, under the spelling the handlers use *)
  hr_headers : list (string * string);
  hr_cookie : option string;
  hr_remote : option string;
  hr_secure : bool;
  hr_content_type : string;
  hr_content_length : option Z;
  hr_can_read_body : bool;
  (** the body, and its text in the charset of the request *)
  hr_body : bytes;
  hr_text : res string;
  (** the fields of a multipart body that are no nested multiparts *)
  hr_parts : list (option string * bytes);
}.
Definition hr_path (r : http_request) : string := fold_right (λ seg path, "/" ++ seg ++ path)%string ""%string (hr_segments r).
Definition header (name : string) (r : http_request) : option string := dict_lookup name (hr_headers r).
Definition query (name : string) (r : http_request) : option string := dict_lookup name (hr_query r).
(** [request.match_info[name]], of a name that is in the route *)
Definition match_info (name : string) (r : http_request) : string := default ""%string (dict_lookup name (hr_match r)).
(** [request.headers.get(name) or default] *)
Definition header_or (name default_ : string) (r : http_request) : string :=
  match header name r with Some v => if (v =? "")%string then default_ else v | None => default_ end.

Inductive response_body := NoBody | JsonBody (v : pyval) | RawBody (content_type : string) (data : bytes) | FileBody (path : string).
Record http_response := HttpResponse {
  rs_status : Z;
  rs_headers : list (string * string);
  rs_body : response_body;
  (** the session cookie: set to a token, or deleted *)
  rs_cookie : option (option string);
}.
Definition json_response (status : Z) (d : dict) : http_response := HttpResponse status [] (JsonBody (PDict d)) None.
Definition with_headers (headers : list (string * string)) (r : http_response) : http_response :=
  HttpResponse (rs_status r) (rs_headers r ++ headers) (rs_body r) (rs_cookie r).
Definition set_cookie (token : option string) (r : http_response) : http_response :=
  HttpResponse (rs_status r) (rs_headers r) (rs_body r) (Some token).

Definition error_response (status : Z) (code message : string) (details : dict) : http_response :=
  json_response status [("error", PDict ([("code", PStr code); ("message", PStr message)]
    ++ if is_nil details then [] else [("details", PDict details)]))]%string.

(** ** The gateway *)

Record config := Config {
  cf_instance_id : string;
  cf_host_id : string;
  cf_demo : bool;
  cf_require_local_auth : bool;
  cf_trust_key : option bytes;
  cf_rpc_catalog : dict;
  (** the source revision of the environment *)
  cf_revision : string;
  (** the folder of the store *)
  cf_root : string;
  (** which optional methods the hub has *)
  cf_enter_recovery : bool;
  cf_input_event : bool;
  cf_audio_upload : bool;
  cf_frontend_dist : option string;
}.

Record gateway := Gateway {
  gw_world : world;
  gw_sessions : list (string * (Actor * Z));
  gw_mode : string;
  gw_transition : bool;
  (** tasks of [_finish_mode_transition] that were started *)
  gw_finishing : nat;
}.
#[export] Instance gateway_world : World gateway event :=
  {| trace_of g := w_trace (gw_world g); budget g := length (w_script (gw_world g));
     env_ok g := Forall answer_ok (w_script (gw_world g)) |}.
Abbreviation H := (Eff gateway).

(** A workflow, run by a handler. *)
Definition zoom {A} (m : W A) : H A := λ g,
  let '(o, w) := m (gw_world g) in (o, Gateway w (gw_sessions g) (gw_mode g) (gw_transition g) (gw_finishing g)).

Definition set_mode (mode : string) : H unit := λ g,
  (Done tt, Gateway (gw_world g) (gw_sessions g) mode (gw_transition g) (gw_finishing g)).
Definition set_transition (b : bool) : H unit := λ g,
  (Done tt, Gateway (gw_world g) (gw_sessions g) (gw_mode g) b (gw_finishing g)).
Definition get_mode : H string := λ g, (Done (gw_mode g), g).
Definition get_transition : H bool := λ g, (Done (gw_transition g), g).
(** [asyncio.create_task(self._finish_mode_transition())] *)
Definition spawn_finish : H unit := λ g,
  (Done tt, Gateway (gw_world g) (gw_sessions g) (gw_mode g) (gw_transition g) (S (gw_finishing g))).

(** The [AuthManager], over the store. *)
Definition get_auth : H AuthManager := λ g, (Done (Auth (w_store (gw_world g)) (gw_sessions g)), g).
Definition put_auth (m : AuthManager) : H unit := λ g,
  let w := gw_world g in
  (Done tt, Gateway (World_ (w_script w) (au_store m) (w_last_progress w) (w_retries w) (w_trace w)) (au_sessions m)
              (gw_mode g) (gw_transition g) (gw_finishing g)).
Definition auth_method {A} (f : AuthManager → AuthManager * res A) : H A :=
  m ← get_auth; let '(m, r) := f m in _ ← put_auth m; lift r.

(** [time.time_ns()], a fresh token or uuid, fresh bytes *)
Definition time_ns : H Z := zoom (invoke (A:=Z) TimeNs).
Definition fresh : H string := zoom (invoke (A:=string) Random).
Definition fresh_bytes : H bytes := p ← zoom (invoke (A:=Z * bytes) Random); mret (snd (p : Z * bytes)).

(** ** The errors middleware *)

Definition FileStatus_name (status : FileStatus.FileStatus_t) : string :=
  match status with
  | FileStatus.OK => "ok" | FileStatus.INVALID_ARGUMENT => "invalid_argument" | FileStatus.NOT_FOUND => "not_found"
  | FileStatus.NOT_DIRECTORY => "not_directory" | FileStatus.NOT_FILE => "not_file"
  | FileStatus.READ_ONLY => "read_only" | FileStatus.BUSY => "busy" | FileStatus.NO_MEMORY => "no_memory"
  | FileStatus.IO => "io" | FileStatus.NOT_SUPPORTED => "not_supported" | FileStatus.CONFLICT => "conflict"
  | FileStatus.EXISTS => "exists" | FileStatus.NOT_EMPTY => "not_empty" | FileStatus.NO_SPACE => "no_space"
  | FileStatus.HASH_MISMATCH => "hash_mismatch"
  end.
Definition file_error_response (e : exn) : http_response :=
  let status := default FileStatus.OK (file_status (exn_status e)) in
  error_response (file_error_http_status status) ("file_" ++ FileStatus_name status) (exn_msg e) [].

(** The [except] clauses, in their order. *)
Definition error_clauses : list (list exn_class * (exn → http_response)) :=
  let error status code e := error_response status code (exn_msg e) [] in
  [([JSONDecodeError], error 400 "invalid_json");
   ([TypeError; ValueError], error 400 "invalid_request");
   ([FileServiceError], file_error_response);
   ([KeyError], error 404 "not_found");
   ([LookupError], error 503 "cached_state_unavailable");
   ([PermissionError], error 403 "permission_denied");
   ([OperationConflict], error 409 "operation_id_conflict");
   ([DeviceMaintenance], error 423 "device_maintenance");
   ([OperationCancelled], error 409 "operation_cancelled");
   ([OperationOutcomeUnknown], error 409 "outcome_unknown");
   ([TimeoutError], λ e, error 504 "device_timeout"
      (Exn (exn_cls e) (if (exn_msg e =? "")%string then "device request timed out" else exn_msg e) (exn_status e)));
   ([RuntimeError; ConnectionError], error 409 "device_request_failed")]%string.
Fixpoint first_clause (clauses : list (list exn_class * (exn → http_response))) (e : exn) : option http_response :=
  match clauses with
  | [] => None
  | (cs, f) :: clauses => if catches cs e then Some (f e) else first_clause clauses e
  end.
Definition errors (handler : H http_response) : H http_response :=
  try_except handler [BaseException] (λ e,
    if catches [HTTPException] e then lift (Err e)
    else match first_clause error_clauses e with Some response => mret response | None => lift (Err e) end).

(** What aiohttp makes of a handler that raises. *)
Definition aiohttp_response (e : exn) : http_response :=
  HttpResponse (if catches [HTTPException] e then exn_status e else 500) [] NoBody None.

Section http.
Context `{Runtime} (cfg : config).

(** ** Authentication *)

Definition PUBLIC_API : list string :=
  ["/v1/health"; "/v1/auth/state"; "/v1/auth/setup"; "/v1/auth/login"]%string.
Definition authentication_required (r : http_request) : bool :=
  cf_require_local_auth cfg || negb (request_is_loopback (hr_remote r)).
Definition local_actor : Actor := unrestricted "local" "Unauthenticated local client".
Definition bearer (r : http_request) : option string :=
  let authorization := default ""%string (header "Authorization" r) in
  if String.prefix "bearer " (lower authorization)
  then Some (strip (String.substring 7 (String.length authorization - 7) authorization)) else None.

(** [authenticate_bearer]; the clock is read when the token is found. *)
Definition bearer_actor (token : option string) : H (option Actor) :=
  m ← get_auth;
  match snd (authenticate_bearer token 0 m) with
  | None => mret None
  | Some actor => now ← time_ns; m ← get_auth; _ ← put_auth (fst (authenticate_bearer token now m)); mret (Some actor)
  end.
Definition identify (r : http_request) : H (option Actor) :=
  actor ← bearer_actor (bearer r);
  match actor with
  | Some actor => mret (Some actor)
  | None => m ← get_auth; mret (browser_actor m (hr_cookie r))
  end.

Abbreviation handler := (option Actor → http_request → H http_response).
(** Paths that need no actor. *)
Definition open_path (r : http_request) : bool :=
  (hr_method r =? "OPTIONS")%string || existsb (String.eqb (hr_path r)) PUBLIC_API
  || negb (String.prefix "/v1" (hr_path r)).
Definition authentication (h : handler) (r : http_request) : H http_response :=
  if open_path r then h None r
  else if negb (authentication_required r) then h (Some local_actor) r
  else
    actor ← identify r;
    match actor with
    | None => mret (error_response 401 "authentication_required" "developer password login or agent token required" [])
    | Some actor => h (Some actor) r
    end.

(** ** What handlers share *)

Definition request_actor (actor : option Actor) : H Actor :=
  match actor with Some a => mret a | None => lift (Err (Exn HTTPException "Unauthorized" 401)) end.

Definition json_body (r : http_request) : res dict :=
  if negb (hr_can_read_body r) then Ok []
  else
    text ← hr_text r;
    value ← json_loads plain_object text;
    match value with PDict d => Ok d | _ => raise TypeError "JSON request body must be an object" end.

(** [str(body.get(key, default))], [int(body.get(key, default))] *)
Definition body_str (key default_ : string) (body : dict) : string := str (get_or key (PStr default_) body).
Definition body_int (key : string) (default_ : Z) (body : dict) : res Z := int (get_or key (PInt default_) body).
(** [body.get(key) or default] *)
Definition body_or (key : string) (default_ : pyval) (body : dict) : pyval :=
  if truthy (dict_get key body) then dict_get key body else default_.
(** [int(request.query.get(key, default))] *)
Definition query_int (key default_ : string) (r : http_request) : res Z := int (PStr (default default_ (query key r))).

(** [blocked = service.require_develop(); if blocked is not None: return blocked] *)
Definition observe_response (mode : string) : http_response :=
  error_response 423 "observe_mode" "all business device requests are stopped while gateway mode is observe"
    [("mode", PStr mode)]%string.
Definition require_develop (h : H http_response) : H http_response :=
  mode ← get_mode;
  if (mode =? "develop")%string then h else mret (observe_response mode).

Definition resolve (r : http_request) : H string := zoom (resolve_device_id (match_info "device_id" r)).
Definition audit (actor : Actor) (action : string) (details : dict) : H unit :=
  entry ← zoom (audit_entry (ac_kind actor) (ac_name actor) action details);
  zoom (_broadcast_system entry).

(** ** The mode of the gateway *)

Definition mode_state : H dict :=
  mode ← get_mode; transition ← get_transition;
  mret [("mode", PStr mode); ("transitioning", PBool transition); ("default", PStr "develop");
        ("observe_behavior", PStr "cached_state_only")]%string.

Definition save_setting (key : string) (value : pyval) : W unit :=
  now ← invoke (A:=Z) TimeNs;
  update_store (λ s, (set_setting key value now s, Ok tt)) (λ _, WSetting key value).

Definition switch_mode (mode : string) (actor : Actor) : H dict :=
  if negb ((mode =? "develop")%string || (mode =? "observe")%string)
  then throw ValueError "mode must be develop or observe"
  else
    previous ← get_mode;
    if (previous =? mode)%string then mode_state
    else
      _ ← set_mode mode;
      _ ← zoom (save_setting "mode" (PStr mode));
      cancelled ← (if (mode =? "observe")%string
                   then _ ← set_transition true; n ← zoom (ask (A:=Z) CancelQueued); _ ← spawn_finish; mret n
                   else _ ← set_transition false; mret 0);
      _ ← audit actor "mode.changed"
            [("from", PStr previous); ("to", PStr mode); ("cancelled_queued", PInt cancelled)]%string;
      mode_state.

(** [any(queue_state(device.get("device_id", ""))["running"] for device in cached_devices())] *)
Fixpoint any_running (devices : list dict) : W bool :=
  match devices with
  | [] => mret false
  | device :: devices =>
    queue ← invoke (A:=dict) (QueueState (str (get_or "device_id" (PStr "") device)));
    running ← lift (subscript queue "running");
    if truthy running then mret true else any_running devices
  end.
Definition finish_round (running : bool) : W bool :=
  _ ← ask (A:=unit) Sleep;
  s ← get_store; devices ← lift (cached_devices s);
  any_running devices.
(** [while any(...): await asyncio.sleep(0.05)] *)
Definition _finish_mode_transition : H unit :=
  _ ← zoom (s ← get_store; devices ← lift (cached_devices s); running ← any_running devices; while id finish_round running);
  set_transition false.

(** ** Device status *)

(** [{**cached, ...}] of what was saved *)
Definition as_mapping (v : pyval) : res dict :=
  match v with PDict d => Ok d | _ => raise TypeError "object is not a mapping" end.

Definition current_status (value : string) : H dict :=
  device_id ← zoom (resolve_device_id value);
  mode ← get_mode;
  if (mode =? "observe")%string then
    s ← zoom get_store;
    cached ← lift (get_setting s ("status." ++ device_id) PNone);
    if negb (truthy cached) then throw LookupError "no cached device status is available"
    else
      cached ← lift (as_mapping cached);
      mret (boot_id_text (dict_updated cached [("stale", PBool true); ("mode", PStr "observe")]%string))
  else
    status ← zoom (ask (A:=dict) (Status device_id));
    queue ← zoom (invoke (A:=dict) (QueueState device_id));
    let result := dict_updated (boot_id_text status)
                    [("stale", PBool false); ("mode", PStr "develop"); ("queue", PDict queue)]%string in
    _ ← zoom (save_setting ("status." ++ device_id) (PDict result));
    _ ← zoom (remember result);
    mret result.
End http.
