(* ===== verification/HttpState.v ===== *)
(** * The handlers over the gateway's own state ([create_app] in [gateway.py])

    Authentication, the mode, the directory of devices, maintenance, the
    records and the firmware archive. *)
From S2P Require Import Prelude Text Value Json Sha256 Effects Firmware Store Security Runtime DeviceInfo Workflow.
From S2P Require Import Migrations Reconciliation SystemUpdateWorkflow Service Maintenance Address Http.

(** What the application computes elsewhere and only passes on: the snapshot of
    the metrics, the API description, the export archive. *)
Definition document (name : string) : H dict := zoom (invoke (A:=dict) (Document name)).

Definition json_list (l : list dict) : pyval := PList (map PDict l).

Section state_handlers.
Context `{Runtime} (cfg : config).
Abbreviation handler := (option Actor → http_request → H http_response).

Definition GATEWAY_API : pyval := PDict [("major", PInt 1); ("minor", PInt 1)]%string.
Definition GATEWAY_CAPABILITIES : list string :=
  ["device-maintenance-lease/v1"; "physical-endpoint-maintenance-lease/v1"; "system-inventory/v1"]%string.
Definition health : handler := λ _ r,
  mode ← get_mode; now ← time_ns;
  mret (json_response 200
    [("status", PStr "ok"); ("instance_id", PStr (cf_instance_id cfg)); ("host_id", PStr (cf_host_id cfg));
     ("gateway_api", GATEWAY_API); ("capabilities", PList (map PStr GATEWAY_CAPABILITIES));
     ("esp_iris_version", PStr "0.1.0"); ("esp_iris_revision", PStr (cf_revision cfg)); ("mode", PStr mode);
     ("demo", PBool (cf_demo cfg)); ("authenticated_api", PBool (authentication_required cfg r));
     ("local_authentication_required", PBool (cf_require_local_auth cfg));
     ("database_schema_version", PInt LATEST_SCHEMA_VERSION); ("ready", PBool true);
     ("system_update_trust_configured", PBool match cf_trust_key cfg with Some _ => true | None => false end);
     ("time_ns", PInt now)])%string.
Definition metrics : handler := λ _ _, d ← document "metrics"; mret (json_response 200 d).

(** ** Authentication *)

Definition opt_actor (actor : option Actor) : pyval :=
  match actor with Some a => PDict (actor_as_dict a) | None => PNone end.
Definition is_configured : H bool := m ← get_auth; lift (configured m).
Definition auth_state : handler := λ _ r,
  if negb (authentication_required cfg r) then
    configured ← is_configured;
    mret (json_response 200
      [("required", PBool false); ("configured", PBool configured); ("authenticated", PBool true);
       ("actor", PDict (actor_as_dict local_actor))]%string)
  else
    actor ← identify r;
    configured ← is_configured;
    mret (json_response 200
      [("required", PBool true); ("configured", PBool configured);
       ("authenticated", PBool match actor with Some _ => true | None => false end); ("actor", opt_actor actor)]%string).

Definition auth_login (password : string) : H string :=
  token ← fresh; now ← time_ns; auth_method (login int_other container_str password token now).

Definition setup : handler := λ _ r,
  configured ← is_configured;
  if configured : bool then mret (error_response 409 "already_configured" "developer password is already configured" [])
  else
    body ← lift (json_body r);
    salt ← fresh_bytes; now ← time_ns;
    _ ← auth_method (set_initial_password (body_str "password" "" body) "web-setup" salt now);
    password ← lift (subscript body "password");
    token ← auth_login (str password);
    mret (set_cookie (Some token) (json_response 200 [("configured", PBool true); ("authenticated", PBool true)]%string)).

Definition login_handler : handler := λ _ r,
  body ← lift (json_body r);
  token ← try_except (token ← auth_login (body_str "password" "" body); mret (Some token)) [PermissionError]
            (λ _, mret None);
  match token with
  | None => mret (error_response 401 "invalid_password" "developer password is incorrect" [])
  | Some token =>
    mret (set_cookie (Some token) (json_response 200 [("authenticated", PBool true);
            ("actor", PDict [("type", PStr "developer"); ("name", PStr "Developer")])]%string))
  end.

Definition logout_handler : handler := λ _ r,
  m ← get_auth; _ ← put_auth (logout (hr_cookie r) m);
  mret (set_cookie None (json_response 200 [("authenticated", PBool false)]%string)).

(** A scope set as JSON gives it: [frozenset(scopes)], where an element that is
    no string is no scope. *)
Definition scopes_arg (v : pyval) : res (option (list string)) :=
  match v with
  | PNone => Ok None
  | PList l => if forallb hashable l then Ok (Some (map (λ v, match v with PStr s => s | _ => "" end) l)%string)
               else raise TypeError "unhashable type"
  | PDict d => Ok (Some (keys d))
  | PStr s => Ok (Some (map bytes_str (utf8_chars [] (str_encode s))))
  | _ => raise TypeError "object is not iterable"
  end.
Definition new_token_dict (t : new_token) (now : Z) : dict :=
  [("token_id", PStr (nt_token_id t)); ("name", PStr (nt_name t)); ("token", PStr (nt_token t));
   ("created_ns", PInt now); ("scopes", PList (map PStr (nt_scopes t))); ("shown_once", PBool true)]%string.
Definition tokens : handler := λ actor r,
  if (hr_method r =? "GET")%string then
    m ← get_auth; l ← lift (list_agent_tokens m); mret (json_response 200 [("tokens", json_list l)]%string)
  else
    body ← lift (json_body r);
    actor ← request_actor actor;
    scopes ← lift (scopes_arg (dict_get "scopes" body));
    token_id ← fresh; secret ← fresh; now ← time_ns;
    created ← auth_method (create_agent_token (body_str "name" "" body) actor scopes token_id secret now);
    mret (json_response 201 (new_token_dict created now)).
Definition revoke_token : handler := λ actor r,
  actor ← request_actor actor;
  now ← time_ns;
  _ ← auth_method (revoke_agent_token (match_info "token_id" r) actor now);
  mret (json_response 200 [("revoked", PBool true); ("token_id", PStr (match_info "token_id" r))]%string).
Definition change_password_handler : handler := λ actor r,
  body ← lift (json_body r);
  actor ← request_actor actor;
  salt ← fresh_bytes; now ← time_ns;
  _ ← auth_method (change_password (body_str "password" "" body) actor salt now);
  mret (json_response 200 [("changed", PBool true); ("login_required", PBool true)]%string).

(** ** The mode *)

Definition mode : handler := λ actor r,
  if (hr_method r =? "GET")%string then state ← mode_state; mret (json_response 200 state)
  else
    body ← lift (json_body r);
    actor ← request_actor actor;
    state ← switch_mode (body_str "mode" "" body) actor;
    mret (json_response 200 state).

(** ** Devices *)

Definition devices : handler := λ _ _,
  mode ← get_mode;
  l ← zoom list_devices;
  mret (json_response 200 [("instance_id", PStr (cf_instance_id cfg)); ("mode", PStr mode);
          ("demo", PBool (cf_demo cfg)); ("devices", json_list l)]%string).
Definition endpoints : handler := λ _ _,
  l ← zoom (invoke (A:=list dict) ListEndpoints);
  mret (json_response 200 [("endpoints", json_list l); ("demo", PBool (cf_demo cfg))]%string).
Definition status : handler := λ _ r,
  d ← current_status (match_info "device_id" r); mret (json_response 200 d).

(** [value or None] *)
Definition or_none (s : string) : option string := if (s =? "")%string then None else Some s.
Definition alias : handler := λ actor r,
  device_id ← resolve r;
  body ← lift (json_body r);
  let value := or_none (strip (body_str "alias" "" body)) in
  s ← zoom get_store;
  let '(s, result) := set_alias device_id value s in
  _ ← zoom (put_store s); _ ← lift result;
  actor ← request_actor actor;
  _ ← audit actor "device.alias_changed" [("device_id", PStr device_id); ("alias", opt_str value)]%string;
  mret (json_response 200 [("device_id", PStr device_id); ("alias", opt_str value)]%string).

Definition remove_device_handler : handler := λ actor r,
  device_id ← resolve r;
  connected ← zoom (invoke (A:=list dict) ListDevices);
  connected_ids ← lift (mapM (λ item, id ← subscript item "device_id"; Ok (str id)) connected);
  if bool_decide (device_id ∈ connected_ids)
  then mret (error_response 409 "device_connected"
               "connected devices cannot be removed; disconnect the device first" [])
  else
    s ← zoom get_store;
    let '(s, removed) := remove_device device_id s in
    _ ← zoom (put_store s);
    if negb removed then throw KeyError ("unknown device: " ++ device_id)
    else
      actor ← request_actor actor;
      _ ← audit actor "device.removed" [("device_id", PStr device_id); ("history_preserved", PBool true)]%string;
      mret (json_response 200 [("device_id", PStr device_id); ("removed", PBool true);
              ("history_preserved", PBool true)]%string).

(** ** Maintenance *)

Definition require_local_maintenance (r : http_request) (h : H http_response) : H http_response :=
  if request_is_loopback (hr_remote r) then h
  else mret (error_response 403 "remote_recovery_unsupported"
               "device maintenance leases are available only to a local recovery executor" []).
Definition lease_response (status : Z) (lease : dict) : http_response := json_response status [("lease", PDict lease)]%string.
(** [str(body.get(key) or default)], [float(body.get(key) or default)] *)
Definition str_or (key default_ : string) (body : dict) : string := str (body_or key (PStr default_) body).
Definition float_or (key : string) (default_ : Z) (body : dict) : res Observability.float :=
  py_float (body_or key (PInt default_) body).

Definition maintenance_acquire : handler := λ actor r, require_local_maintenance r (
  body ← lift (json_body r);
  actor ← request_actor actor;
  _ ← lift (float_or "wait_timeout" 30 body);
  ttl_seconds ← lift (float_or "ttl_seconds" 300 body);
  lease ← zoom (acquire_maintenance (match_info "device_id" r) actor (str_or "purpose" "recovery" body)
                  (str_or "expected_version" "" body) ttl_seconds);
  mret (lease_response 201 lease)).
Definition maintenance_endpoint_acquire : handler := λ actor r, require_local_maintenance r (
  body ← lift (json_body r);
  let endpoint := if truthy (dict_get "endpoint" body) then str (dict_get "endpoint" body) else str_or "path" "" body in
  if (endpoint =? "")%string then throw ValueError "endpoint or path is required"
  else
    actor ← request_actor actor;
    _ ← lift (float_or "wait_timeout" 30 body);
    ttl_seconds ← lift (float_or "ttl_seconds" 300 body);
    lease ← zoom (acquire_endpoint_maintenance endpoint actor (str_or "purpose" "recovery" body)
                    (str_or "expected_version" "" body) ttl_seconds);
    mret (lease_response 201 lease)).
Definition maintenance_status : handler := λ _ r, require_local_maintenance r (
  lease ← zoom (public_lease (match_info "lease_id" r)); mret (lease_response 200 lease)).
Definition lease_token (r : http_request) : string := default ""%string (header "X-Maintenance-Token" r).
Definition maintenance_renew : handler := λ _ r, require_local_maintenance r (
  body ← lift (json_body r);
  ttl_seconds ← lift (float_or "ttl_seconds" 300 body);
  lease ← zoom (renew_maintenance (match_info "lease_id" r) (lease_token r) ttl_seconds);
  mret (lease_response 200 lease)).
Definition maintenance_finish : handler := λ _ r, require_local_maintenance r (
  body ← lift (json_body r);
  _ ← lift (float_or "timeout" 30 body);
  lease ← zoom (finish_maintenance (match_info "lease_id" r) (lease_token r) (match_info "action" r =? "abort")%string);
  mret (lease_response 200 lease)).

(** ** Records *)

Definition wanted_categories (r : http_request) : list string :=
  List.filter (λ item, negb (item =? "")%string) (split_on "," (default ""%string (query "categories" r))).
(** [items[-1]["event_id"] if items else cursor] *)
Definition next_cursor (items : list dict) (cursor : Z) : res pyval :=
  match last items with Some item => subscript item "event_id" | None => Ok (PInt cursor) end.
Definition event_page (s : GatewayStore) (cursor : Z) (device_id : option string) (categories : list string)
    : res (list dict * bool) :=
  if negb (cursor =? 0) then events_after cursor device_id categories 3000 s
  else items ← latest_events device_id categories 3000 s; Ok (items, false).
Definition event_history : handler := λ _ r,
  cursor ← lift (query_int "cursor" "0" r);
  s ← zoom get_store;
  page ← lift (event_page s cursor (query "device_id" r) (wanted_categories r));
  let '(items, gap) := page : list dict * bool in
  next ← lift (next_cursor items cursor);
  mret (json_response 200 [("events", json_list items); ("history_gap", PBool gap); ("next_cursor", next)]%string).

(** *** The event stream

    The subscription starts before the history is read, so an event recorded
    in between is in both: [forward_event] sends an event once. *)
Definition other_device (device_id : option string) (item : dict) : bool :=
  match device_id with
  | Some d => negb (d =? "")%string && negb (is_str (dict_get "device_id" item) d)
  | None => false
  end.
(** The last event id sent, and what was sent. *)
Definition forward_event (device_id : option string) (item : dict) (st : Z * list dict) : res (Z * list dict) :=
  let '(last_event_id, sent) := st in
  if other_device device_id item then Ok st
  else
    event_id ← int (body_or "event_id" (PInt 0) item);
    if negb (event_id =? 0) && (event_id <=? last_event_id) then Ok st
    else Ok (Z.max last_event_id event_id, sent ++ [item]).
Definition forward_round (device_id : option string) (st : (Z * list dict) * bool) : H ((Z * list dict) * bool) :=
  item ← try_except (item ← zoom (ask (A:=dict) LiveEvent); mret (Some item)) [CancelledError] (λ _, mret None);
  match item with
  | None => mret (fst st, true)
  | Some item => st ← lift (forward_event device_id item (fst st)); mret (st, false)
  end.
Definition gap_item : dict :=
  [("kind", PStr "history_gap"); ("reason", PStr "requested cursor is outside retention")]%string.
(** The stream runs until the client leaves; what it sent is the body. *)
Definition event_socket : handler := λ _ r,
  cursor ← lift (query_int "cursor" "0" r);
  let device_id := query "device_id" r in
  _ ← zoom (invoke (A:=unit) SubscribeEvents);
  s ← zoom get_store;
  page ← lift (event_page s cursor device_id []);
  let '(history, gap) := page : list dict * bool in
  next ← lift (next_cursor history cursor);
  last_event_id ← lift (int next);
  let first := if gap : bool then [gap_item] else [] in
  st ← try_finally
    (while (λ st, negb (snd st)) (forward_round device_id) ((last_event_id, []), false))
    (zoom (invoke (A:=unit) UnsubscribeEvents));
  mret (HttpResponse 101 [] (JsonBody (json_list (first ++ history ++ snd (fst (st : (Z * list dict) * bool))))) None).

Definition operation_list : handler := λ _ r,
  s ← zoom get_store;
  l ← lift (mapM _operation_row (operations (query "device_id" r) 200 s));
  mret (json_response 200 [("operations", json_list l)]%string).
Definition operation_get : handler := λ _ r,
  s ← zoom get_store;
  match operation s (match_info "operation_id" r) with
  | None => throw KeyError (match_info "operation_id" r)
  | Some row => item ← lift (_operation_row row); mret (json_response 200 item)
  end.
Definition operation_reconcile : handler := λ actor r,
  actor ← request_actor actor;
  item ← zoom (reconcile_operation (match_info "operation_id" r) actor);
  mret (json_response 201 item).
Definition operation_reconciliations : handler := λ _ r,
  s ← zoom get_store;
  l ← lift (reconciliation_records s (match_info "operation_id" r));
  mret (json_response 200 [("reconciliations", PList l)]%string).
Definition audits_handler : handler := λ _ _,
  s ← zoom get_store; l ← lift (audits 200 s); mret (json_response 200 [("audits", json_list l)]%string).
Definition rpc_catalog : handler := λ _ _, mret (json_response 200 (cf_rpc_catalog cfg)).
Definition openapi : handler := λ _ _, d ← document "openapi"; mret (json_response 200 d).
Definition export : handler := λ _ _,
  path ← zoom (invoke (A:=string) (Document "export"));
  mret (HttpResponse 200 [("Content-Disposition", "attachment; filename=" ++ path)]%string (FileBody path) None).

(** ** The firmware archive *)

(** The fields of an upload; each is read once, the last one of a name counts. *)
Fixpoint artifact_parts (fields : list (option string * bytes)) (parts : list (string * bytes)) : res (list (string * bytes)) :=
  match fields with
  | [] => Ok parts
  | (Some name, data) :: fields =>
    if existsb (String.eqb name) ["bin"; "elf"; "map"]%string
    then if is_nil data then raise ValueError ("firmware artifact field " ++ name ++ " is empty")
         else artifact_parts fields (dict_set name data parts)
    else artifact_parts fields parts
  | (None, _) :: fields => artifact_parts fields parts
  end.
(** BIN, ELF and map, where the ELF is the one the BIN was made from. *)
Definition checked_parts (fields : list (option string * bytes)) : res (bytes * bytes * bytes * FirmwareImage) :=
  parts ← artifact_parts fields [];
  match dict_lookup "bin" parts, dict_lookup "elf" parts, dict_lookup "map" parts with
  | Some binary, Some elf, Some map_data =>
    metadata ← inspect_firmware_image binary;
    let embedded_elf_sha := fw_elf_sha256 metadata in
    if (embedded_elf_sha =? "")%string || (embedded_elf_sha =? hex (repeat 0 32))%string
    then raise ValueError "firmware binary does not contain a usable ELF SHA-256"
    else if negb (embedded_elf_sha =? sha256_hex elf)%string
    then raise ValueError "firmware binary ELF SHA-256 does not match uploaded ELF"
    else Ok (binary, elf, map_data, metadata)
  | _, _, _ => raise ValueError "firmware artifact requires bin, elf and map fields"
  end.
Definition save_firmware (fields : list (option string * bytes)) : H dict :=
  checked ← lift (checked_parts fields);
  let '(binary, elf, map_data, metadata) := checked : bytes * bytes * bytes * FirmwareImage in
  now ← time_ns;
  zoom (update_store (save_firmware_artifact (cf_root cfg) crash_index binary elf map_data
          (FirmwareMetadata (fw_project_name metadata) (fw_version metadata) (fw_chip_id metadata)) now) WFirmware).
Definition firmware_artifacts_handler : handler := λ _ r,
  if (hr_method r =? "GET")%string then
    s ← zoom get_store;
    l ← lift (firmware_artifacts (cf_root cfg) 200 s);
    mret (json_response 200 [("artifacts", json_list l)]%string)
  else require_develop (
    artifact ← save_firmware (hr_parts r);
    mret (json_response 201 [("artifact", PDict artifact)]%string)).
Definition known_artifact (artifact_id : string) : H dict :=
  s ← zoom get_store;
  artifact ← lift (firmware_artifact (cf_root cfg) artifact_id s);
  match artifact with Some artifact => mret artifact | None => throw KeyError "unknown firmware artifact" end.
Definition firmware_artifact_handler : handler := λ _ r,
  artifact ← known_artifact (match_info "artifact_id" r);
  mret (json_response 200 [("artifact", PDict artifact)]%string).

(** ** The rest *)

Definition api_not_found : handler := λ _ r,
  mret (json_response 404 [("error", PStr "not_found");
          ("message", PStr ("unknown API route: " ++ hr_method r ++ " " ++ hr_path r))]%string).

(** *** The web frontend

    [realpath] resolves a path, links included; [is_file] and [exists_] look at
    the disk. *)
Context (realpath : string → string) (is_file exists_ : string → bool).
Definition path_parts (path : string) : list string := List.filter (λ part, negb (part =? "")%string) (split_on "/" path).
Definition is_relative_to (path base : string) : bool := bool_decide (take (length (path_parts base)) (path_parts path) = path_parts base).
(** [dist / relative] *)
Definition joined (dist relative : string) : string :=
  if starts_with "/" relative then relative else (dist ++ "/" ++ relative)%string.
Definition spa_file (dist relative : string) : option http_response :=
  let candidate := realpath (joined dist relative) in
  if is_relative_to candidate (realpath dist) && is_file candidate
  then Some (HttpResponse 200
    [("Cache-Control", if String.prefix "assets/" relative then "public, max-age=31536000, immutable"
                       else "no-cache, must-revalidate")]%string (FileBody candidate) None)
  else None.
Definition not_built : http_response := HttpResponse 200 [] (RawBody "text/html" (str_encode
  ("<!doctype html><meta charset=utf-8><title>ESP-Iris</title><h1>ESP-Iris frontend is not built</h1>"
   ++ "<p>Run the frontend build in common_components/esp_iris/tools/frontend.</p>"))) None.
Definition spa : handler := λ _ r,
  let relative := match_info "path" r in
  let index := match cf_frontend_dist cfg with
               | Some dist =>
                 let page := (dist ++ "/index.html")%string in
                 if exists_ page
                 then HttpResponse 200 [("Cache-Control", "no-store, no-cache, must-revalidate"); ("Pragma", "no-cache")]%string
                        (FileBody page) None
                 else not_built
               | None => not_built
               end in
  mret match cf_frontend_dist cfg with
       | Some dist => if (relative =? "")%string then index else default index (spa_file dist relative)
       | None => index
       end.
End state_handlers.
