(* ===== verification/HttpDevice.v ===== *)
(** * The handlers that use a device ([create_app] in [gateway.py])

    Calls, the console, jobs, restarts, images, input, audio and updates.  Each
    checks the mode, reads its request and hands the operation manager a
    [submission]; the reads of crash reports and of the inventory go to the hub
    directly. *)
From stdpp Require Import pretty.
From S2P Require Import Prelude Text Value Json JsonDump Sha256 OperationIdentity Effects Firmware Compatibility Store.
From S2P Require Import Security SystemUpdate Runtime Uuid Workflow Coredump OtaWorkflow SystemUpdateWorkflow Service.
From S2P Require Import Media Http HttpState.

(** ** JSON with ASCII output *)

(** The code point of a UTF-8 character. *)
Definition code_point (c : bytes) : Z :=
  match c with
  | [a] => a
  | [a; b] => (a mod 32) * 64 + b mod 64
  | [a; b; c] => ((a mod 16) * 64 + b mod 64) * 64 + c mod 64
  | [a; b; c; d] => (((a mod 8) * 64 + b mod 64) * 64 + c mod 64) * 64 + d mod 64
  | _ => 0
  end.
Definition hex4_text (z : Z) : bytes :=
  [92; 117; hex_byte (z / 4096 mod 16); hex_byte (z / 256 mod 16); hex_byte (z / 16 mod 16); hex_byte (z mod 16)].
Definition ascii_escape (c : bytes) : bytes :=
  let z := code_point c in
  if z <? 127 then escape_char z
  else if z <? 65536 then hex4_text z
  else hex4_text (0xD800 + (z - 65536) / 1024) ++ hex4_text (0xDC00 + (z - 65536) mod 1024).
Definition ascii_text (s : string) : bytes := [34] ++ concat (map ascii_escape (utf8_chars [] (str_encode s))) ++ [34].
Definition join_by (sep : bytes) (l : list bytes) : bytes :=
  match l with [] => [] | x :: l => x ++ concat (map (app sep) l) end.
(** [json.dumps(v, separators=(item_sep, key_sep))] *)
Fixpoint dump_ascii (item_sep key_sep : bytes) (v : pyval) : bytes :=
  match v with
  | PStr s => ascii_text s
  | PList l => [91] ++ join_by item_sep (map (dump_ascii item_sep key_sep) l) ++ [93]
  | PDict d =>
    [123] ++ join_by item_sep (map (λ '(k, v), ascii_text k ++ key_sep ++ dump_ascii item_sep key_sep v) d) ++ [125]
  | v => dump v
  end.
Definition compact_json (v : pyval) : bytes := dump_ascii [44] [58] v.
Definition spaced_json (v : pyval) : bytes := dump_ascii [44; 32] [58; 32] v.

(** A result as the JSON encoder takes it: bytes are no JSON. *)
Fixpoint json_value (o : pyobj) : res pyval :=
  match o with
  | ONone => Ok PNone | OBool b => Ok (PBool b) | OInt z => Ok (PInt z) | OFloat r => Ok (PFloat r) | OStr s => Ok (PStr s)
  | OList l | OTuple l => items ← mapM id (map json_value l); Ok (PList items)
  | ODict d =>
    items ← mapM (λ kv, v ← snd kv; Ok (fst kv, v))
              (map (λ kv, (match fst kv with KStr s | KOther s => s end, json_value (snd kv))) d);
    Ok (PDict items)
  | OBytes _ | OOther _ => raise TypeError "Object is not JSON serializable"
  end.

Section device_handlers.
Context `{Runtime} (cfg : config).
Abbreviation handler := (option Actor → http_request → H http_response).

(** ** Requests to the operation manager *)

Definition execute (s : submission) : H (dict * pyobj * bool) := zoom (ask (Execute s)).
Definition submit (s : submission) : H (dict * bool) :=
  x ← zoom (ask (A:=dict * pyobj * bool) (Submit s)); mret (fst (fst (x : dict * pyobj * bool)), snd (x : dict * pyobj * bool)).
Definition operation_header (r : http_request) : option string := header "X-Operation-ID" r.
(** [request.headers.get("X-Operation-ID") or str(uuid.uuid4())] *)
Definition operation_id_of (r : http_request) : H string :=
  match operation_header r with
  | Some id => if (id =? "")%string then fresh else mret id
  | None => fresh
  end.
Definition operation_response (key : string) (x : dict * pyobj * bool) : H http_response :=
  let '(operation, result, _) := x in
  value ← lift (json_value result);
  mret (json_response 200 [("operation"%string, PDict operation); (key, value)]).
Definition reused (operation more : dict) : http_response :=
  json_response 200 (("operation"%string, PDict operation) :: more).

(** ** Remote calls *)

Definition raw_payload (body : dict) : res bytes :=
  if has_key "payload_base64" body then b64decode (str (dict_get "payload_base64" body))
  else if has_key "payload_hex" body then unhex (str (dict_get "payload_hex" body))
  else encode_utf8 (body_str "payload_text" "" body).
(** [result or b""] *)
Definition result_bytes (result : pyobj) : res bytes :=
  match result with OBytes b => Ok b | ONone => Ok [] | _ => raise TypeError "a bytes-like object is required" end.
Definition rpc_params (service_id method_id deadline_ms : Z) (payload : bytes) : dict :=
  [("service_id", PInt service_id); ("method_id", PInt method_id); ("request_bytes", PInt (zlen payload));
   ("request_sha256", PStr (sha256_hex payload)); ("deadline_ms", PInt deadline_ms)]%string.

Definition raw_rpc : handler := λ actor r, require_develop (
  device_id ← resolve r;
  body ← lift (json_body r);
  payload ← lift (raw_payload body);
  service_id ← lift (body_int "service_id" 0 body);
  method_id ← lift (body_int "method_id" 0 body);
  deadline_ms ← lift (body_int "deadline_ms" 1000 body);
  actor ← request_actor actor;
  x ← execute (Submission device_id actor "rpc.raw" (rpc_params service_id method_id deadline_ms payload)
                 (CallRpc device_id service_id method_id payload deadline_ms) (operation_header r) true);
  let '(operation, result, created) := x : dict * pyobj * bool in
  if negb created
  then mret (reused operation [("idempotent_reuse", PBool true); ("payload_base64", PNone)]%string)
  else
    data ← lift (result_bytes result);
    mret (json_response 200 [("operation", PDict operation); ("payload_base64", PStr (b64encode data));
                             ("response_bytes", PInt (zlen data))]%string)).

(** The methods of the catalog, and the first of a name. *)
Definition catalog_methods : res (list pyval) :=
  match get_or "methods" (PList []) (cf_rpc_catalog cfg) with
  | PList l => Ok l
  | _ => raise TypeError "object is not iterable"
  end.
Fixpoint find_method (name : string) (methods : list pyval) : res (option dict) :=
  match methods with
  | [] => Ok None
  | item :: methods =>
    item ← as_dict item;
    if is_str (dict_get "name" item) name then Ok (Some item) else find_method name methods
  end.
Definition catalog_method (name : string) : res (option dict) := methods ← catalog_methods; find_method name methods.
(** [int(method[key])] *)
Definition method_int (method : dict) (key : string) : res Z := v ← subscript method key; int v.

Definition structured_params (name : string) (service_id method_id deadline_ms : Z) (raw : bytes) : dict :=
  [("method", PStr name); ("service_id", PInt service_id); ("method_id", PInt method_id);
   ("request_bytes", PInt (zlen raw)); ("request_sha256", PStr (sha256_hex raw)); ("deadline_ms", PInt deadline_ms)]%string.
(** The request within the catalog's limit. *)
Definition structured_request (method body : dict) : res bytes :=
  let raw := compact_json (get_or "params" (PDict []) body) in
  compatibility ← as_dict (get_or "compatibility" (PDict []) method);
  maximum ← int (get_or "max_request_bytes" (PInt 65536) compatibility);
  if maximum <? zlen raw then raise ValueError "RPC request exceeds catalog maximum" else Ok raw.

Definition structured_rpc : handler := λ actor r, require_develop (
  let name := match_info "method" r in
  method ← lift (catalog_method name);
  match method with
  | None => throw KeyError ("unknown RPC catalog method: " ++ name)
  | Some method =>
    if negb (is_str (get_or "request_encoding" (PStr "json") method) "json")
    then throw ValueError ("RPC method " ++ name ++ " requires its dedicated endpoint")
    else
      body ← lift (json_body r);
      raw ← lift (structured_request method body);
      device_id ← resolve r;
      deadline_ms ← lift (int (get_or "deadline_ms" (get_or "timeout_ms" (PInt 1000) method) body));
      actor ← request_actor actor;
      service_id ← lift (method_int method "service_id");
      method_id ← lift (method_int method "method_id");
      x ← execute (Submission device_id actor ("rpc." ++ name) (structured_params name service_id method_id deadline_ms raw)
                     (CallRpc device_id service_id method_id raw deadline_ms) (operation_header r) true);
      let '(operation, result, created) := x : dict * pyobj * bool in
      if negb created
      then mret (reused operation [("method", PStr name); ("idempotent_reuse", PBool true); ("payload_base64", PNone)]%string)
      else
        data ← lift (result_bytes result);
        mret (json_response 200 [("operation", PDict operation); ("method", PStr name);
                                 ("payload_base64", PStr (b64encode data)); ("response_bytes", PInt (zlen data))]%string)
  end).

(** *** The console *)

Definition CONSOLE_METHOD_NAME : string := "console.execute".
Definition CONSOLE_LINE_MAX_BYTES : Z := 255.
(** [line.strip()] within its limits *)
Definition console_line (body : dict) : res (string * bytes) :=
  match dict_get "line" body with
  | PStr line =>
    let line := Text.strip line in
    encoded ← encode_utf8 line;
    if is_nil encoded || (CONSOLE_LINE_MAX_BYTES <? zlen encoded)
       || existsb (λ b, (b =? 0) || (b =? 13) || (b =? 10)) encoded
    then raise ValueError "console line must contain 1 to 255 UTF-8 bytes without CR, LF, or NUL"
    else Ok (line, encoded)
  | _ => raise TypeError "console line must be a string"
  end.
(** [line.split(maxsplit=1)[0]] of a stripped line *)
Fixpoint until_space (l : bytes) : bytes :=
  match l with
  | [] => []
  | b :: l' => if existsb (λ w, bool_decide (take (length w) l = w)) whitespace then [] else b :: until_space l'
  end.
Definition command_name (encoded : bytes) : string := bytes_str (until_space encoded).
Definition console_params (command : string) (service_id method_id deadline_ms : Z) (encoded : bytes) : dict :=
  [("command", PStr command); ("service_id", PInt service_id); ("method_id", PInt method_id);
   ("request_sha256", PStr (sha256_hex encoded)); ("request_bytes", PInt (zlen encoded));
   ("deadline_ms", PInt deadline_ms)]%string.

Definition console : handler := λ actor r, require_develop (
  body ← lift (json_body r);
  line ← lift (console_line body);
  let encoded := snd (line : string * bytes) in
  method ← lift (catalog_method CONSOLE_METHOD_NAME);
  match method with
  | None => throw RuntimeError "console RPC is missing from the catalog"
  | Some method =>
    device_id ← resolve r;
    deadline_ms ← lift (int (get_or "timeout_ms" (PInt 1000) method));
    actor ← request_actor actor;
    service_id ← lift (method_int method "service_id");
    method_id ← lift (method_int method "method_id");
    x ← execute (Submission device_id actor CONSOLE_METHOD_NAME
                   (console_params (command_name encoded) service_id method_id deadline_ms encoded)
                   (CallRpc device_id service_id method_id encoded deadline_ms) (operation_header r) true);
    let '(operation, result, created) := x : dict * pyobj * bool in
    if negb created
    then mret (reused operation [("idempotent_reuse", PBool true); ("console", PNone)]%string)
    else match result with
         | OBytes data =>
           if zlen data =? 4
           then mret (json_response 200 [("operation", PDict operation);
                        ("console", PDict [("job_id", PInt (le_decode data)); ("accepted", PBool true)])]%string)
           else throw RuntimeError "console RPC returned an invalid job response"
         | _ => throw RuntimeError "console RPC returned an invalid job response"
         end
  end).

(** ** Jobs, restart, Recovery *)

Definition job : handler := λ actor r, require_develop (
  device_id ← resolve r;
  job_id ← lift (int_base0 (match_info "job_id" r));
  let cancel := (hr_method r =? "DELETE")%string in
  actor ← request_actor actor;
  x ← execute (Submission device_id actor (if cancel then "job.cancel" else "job.query") [("job_id", PInt job_id)]%string
                 (CallJob device_id job_id cancel) (operation_header r) cancel);
  operation_response "job" x).

Definition restart : handler := λ actor r, require_develop (
  body ← lift (json_body r);
  device_id ← resolve r;
  delay ← lift (body_int "delay_ms" 250 body);
  operation_id ← operation_id_of r;
  actor ← request_actor actor;
  x ← execute (Submission device_id actor "device.restart" [("delay_ms", PInt delay)]%string
                 (CallRestart device_id delay operation_id) (Some operation_id) true);
  operation_response "restart" x).

Definition factory_recovery : handler := λ actor r, require_develop (
  device_id ← resolve r;
  if negb (cf_enter_recovery cfg) then throw RuntimeError "factory recovery is not supported by this device adapter"
  else
    actor ← request_actor actor;
    x ← execute (Submission device_id actor "recovery.enter_factory" [("target", PStr "factory_recovery")]%string
                   (CallEnterRecovery device_id) (operation_header r) true);
    operation_response "recovery" x).

(** ** Images, input, audio *)

Definition MEDIA_LIMIT : Z := 16 * 1024 * 1024.
Context (compress : bytes → bytes).

Definition wants_save (r : http_request) : bool := bool_decide (query "save" r = Some "true"%string).
(** [description, data = result] *)
Definition screenshot_parts (result : pyobj) : res (dict * bytes) :=
  match result with
  | OTuple [d; OBytes data] | OList [d; OBytes data] => v ← json_value d; d ← as_dict v; Ok (d, data)
  | _ => raise TypeError "cannot unpack the screenshot"
  end.
Definition media_json (d : description) : string := bytes_str (spaced_json (PDict (map (λ kv, (fst kv, PInt (snd kv))) d))).
Definition saved_image (r : http_request) (device_id : string) (image : EncodedImage) : H string :=
  if wants_save r then
    stamp ← fresh;
    zoom (update_store (save_artifact device_id "screenshot" stamp (ei_extension image) (ei_data image))
            (λ path, WArtifact path (ei_data image)))
  else mret ""%string.
Definition screenshot : handler := λ actor r, require_develop (
  body ← lift (json_body r);
  device_id ← resolve r;
  actor ← request_actor actor;
  x ← execute (Submission device_id actor "media.screenshot"
                 [("description", PDict body); ("save", PBool (wants_save r))]%string
                 (CallScreenshot device_id body) (operation_header r) false);
  let '(operation, result, created) := x : dict * pyobj * bool in
  if negb created
  then mret (reused operation [("idempotent_reuse", PBool true); ("screenshot", PNone)]%string)
  else
    parts ← lift (screenshot_parts result);
    image ← lift (encode_media_image compress (fst (parts : dict * bytes)) (snd (parts : dict * bytes)));
    if MEDIA_LIMIT <? zlen (ei_data image) then throw ValueError "screenshot exceeds the 16 MiB limit"
    else
      saved ← saved_image r device_id image;
      operation_id ← lift (subscript operation "operation_id");
      mret (HttpResponse 200
        [("X-Operation-ID", str operation_id); ("X-ESP-Iris-Media", media_json (ei_description image));
         ("X-Saved-Artifact", saved)]%string (RawBody (ei_content_type image) (ei_data image)) None)).

Definition CHANNELS : list (string * Z) := [("screen", 3); ("image", 4); ("audio", 5)]%string.
Definition mirror_start_requested (r : http_request) : bool := bool_decide (last (hr_segments r) = Some "start"%string).
Definition mirror : handler := λ actor r, require_develop (
  body ← lift (json_body r);
  device_id ← resolve r;
  let channel_name := body_str "channel" "screen" body in
  match dict_lookup channel_name CHANNELS with
  | None => throw ValueError "channel must be screen, image, or audio"
  | Some channel =>
    let start := mirror_start_requested r in
    fps ← lift (body_int "fps" 5 body);
    let description := get_or "description" (PDict []) body in
    actor ← request_actor actor;
    x ← execute (Submission device_id actor (if start then "media.mirror_start" else "media.mirror_stop")
                   [("channel", PStr channel_name); ("fps", PInt fps);
                    ("description", if start then description else PDict [])]%string
                   (if start then CallMirrorStart device_id channel description fps
                    else CallMirrorStop device_id channel channel_name) (operation_header r) true);
    operation_response "mirror" x
  end).

(** One message of a media stream: its size, its metadata, its data. *)
Definition media_message (item : dict) (data : bytes) : res bytes :=
  let metadata := compact_json (PDict (List.filter (λ kv, negb (fst kv =? "data")%string) item)) in
  size ← pack_uint 4 (zlen metadata);
  Ok (size ++ metadata ++ data).

Definition media_stream : handler := λ _ r,
  match dict_lookup (match_info "channel" r) CHANNELS with
  | None => throw KeyError "unknown media channel"
  | Some channel =>
    device_id ← resolve r;
    _ ← zoom (ask (A:=unit) (StreamMedia device_id channel));
    mret (HttpResponse 101 [] NoBody None)
  end.

Definition input_event : handler := λ actor r, require_develop (
  body ← lift (json_body r);
  if match get_or "moves" (PList []) body with PList moves => 2048 <? zlen moves | _ => true end
  then throw ValueError "gesture moves must be a list of at most 2048 points"
  else
    device_id ← resolve r;
    if negb (cf_input_event cfg) then throw RuntimeError "device input requires an input RPC catalog adapter"
    else
      actor ← request_actor actor;
      x ← execute (Submission device_id actor "input.gesture" [("event", PDict body)]%string
                     (CallInput device_id body) (operation_header r) true);
      operation_response "input" x).

Definition audio_upload : handler := λ actor r, require_develop (
  device_id ← resolve r;
  let data := hr_body r in
  if MEDIA_LIMIT <? zlen data then throw ValueError "audio upload exceeds the 16 MiB limit"
  else if negb (existsb (String.eqb (hr_content_type r)) ["audio/wav"; "audio/x-wav"; "application/octet-stream"]%string)
  then throw ValueError "audio upload must be WAV or PCM"
  else if negb (cf_audio_upload cfg) then throw RuntimeError "device audio upload requires an audio RPC catalog adapter"
  else
    actor ← request_actor actor;
    x ← execute (Submission device_id actor "audio.upload"
                   [("bytes", PInt (zlen data)); ("sha256", PStr (sha256_hex data));
                    ("content_type", PStr (hr_content_type r))]%string
                   (CallAudio device_id data (hr_content_type r)) (operation_header r) true);
    operation_response "audio" x).

(** ** Updates *)

Definition accepted_response (operation : dict) (created : bool) (operation_id : string) (more : dict) : http_response :=
  json_response 202 ([("operation", PDict operation); ("accepted", PBool created);
    ("status_url", PStr ("/v1/operations/" ++ operation_id))]%string ++ more).

(** The archived image of an artifact, unchanged on disk. *)
Definition archived_image (artifact : dict) : H (bytes * dict) :=
  path ← lift (subscript artifact "path");
  image ← zoom (invoke (A:=option bytes) (ReadFile (str path ++ "/firmware.bin")));
  match image with
  | None => throw OSError "No such file or directory"
  | Some image =>
    firmware ← lift (inspect_firmware_image image);
    binary_sha256 ← lift (subscript artifact "binary_sha256");
    if negb (py_eq (PStr (fw_sha256 firmware)) binary_sha256)
    then throw ValueError "archived firmware binary checksum changed on disk"
    else mret (image, firmware_as_dict firmware)
  end.
Definition ota : handler := λ actor r, require_develop (
  device_id ← resolve r;
  if negb (hr_content_type r =? "application/json")%string
  then throw ValueError "OTA requires an archived BIN/ELF/map artifact_id; upload the bundle first"
  else
    body ← lift (json_body r);
    let artifact_id := body_str "artifact_id" "" body in
    compatibility ← lift (compatibility_expectation (dict_get "compatibility" body));
    let execution_mode := body_str "execution_mode" (default "recovery" (query "execution_mode" r)) body in
    validation_mode ← lift (_require_ota_validation_mode (body_str "validation_mode" DEFAULT_OTA_VALIDATION_MODE body));
    artifact ← known_artifact cfg artifact_id;
    archived ← archived_image artifact;
    let '(image, metadata) := archived : bytes * dict in
    operation_id ← operation_id_of r;
    actor ← request_actor actor;
    x ← submit (Submission device_id actor "firmware.ota"
                  [("image", PDict metadata); ("artifact_id", PStr artifact_id); ("execution_mode", PStr execution_mode);
                   ("validation_mode", PStr validation_mode); ("compatibility", PDict compatibility)]%string
                  (CallOta device_id image metadata operation_id execution_mode validation_mode compatibility)
                  (Some operation_id) true);
    mret (accepted_response (fst (x : dict * bool)) (snd (x : dict * bool)) operation_id [])).

(** It is sent in either mode: there is no [require_develop]. *)
Definition system_inventory : handler := λ _ r,
  device_id ← resolve r;
  inventory ← zoom (ask (A:=dict) (SystemUpdateInventory device_id));
  mret (json_response 200 [("device_id", PStr device_id); ("inventory", PDict inventory)]%string).

(** [load_system_update_bundle] with the gateway's trust key *)
Context (load_bundle : bytes → option bytes → res SystemUpdateBundle).
Definition system_update : handler := λ actor r, require_develop (
  if negb (existsb (String.eqb (hr_content_type r))
        ["application/zip"; "application/octet-stream"; "application/vnd.esp-iris.system-update+zip"]%string)
  then throw ValueError "system update requires an .irisfw archive"
  else
    device_id ← resolve r;
    let archive := hr_body r in
    declared ← lift (json_loads plain_object (default "{}" (header "X-Iris-Compatibility" r))%string);
    compatibility ← lift (compatibility_expectation declared);
    bundle ← lift (load_bundle archive (cf_trust_key cfg));
    stamp ← fresh;
    _ ← zoom (update_store (save_artifact device_id "system-update" stamp "irisfw" archive) (λ path, WArtifact path archive));
    operation_id ← operation_id_of r;
    actor ← request_actor actor;
    x ← submit (Submission device_id actor "firmware.system_update"
                  [("bundle", PDict (bundle_as_dict bundle)); ("archive_sha256", PStr (sha256_hex archive));
                   ("compatibility", PDict compatibility)]%string
                  (CallSystemUpdate device_id bundle operation_id compatibility) (Some operation_id) true);
    mret (accepted_response (fst (x : dict * bool)) (snd (x : dict * bool)) operation_id
            [("bundle", PDict (bundle_as_dict bundle))]%string)).

(** ** Crash reports *)

Definition candidate_artifact (report : dict) (artifacts : list dict) : option dict :=
  find (λ artifact, truthy (dict_get "core_dump_elf_sha256_complete" report)
                    && is_str (dict_get "elf_sha256" artifact) (str (get_or "core_dump_elf_sha256" (PStr "") report)))
    artifacts.
Definition crash_report : handler := λ _ r, require_develop (
  device_id ← resolve r;
  report ← zoom (ask (A:=dict) (CrashReport device_id));
  s ← zoom get_store;
  artifacts ← lift (firmware_artifacts (cf_root cfg) 200 s);
  let candidate := candidate_artifact report artifacts in
  let of_candidate key := match candidate with Some c => dict_get key c | None => PNone end in
  let report := dict_updated report
    [("candidate_artifact_id", of_candidate "artifact_id"); ("candidate_elf_sha256", of_candidate "elf_sha256");
     ("decode_eligible", PBool (truthy (dict_get "core_dump_valid" report)
                                && truthy (dict_get "core_dump_elf_sha256_complete" report)
                                && match candidate with Some _ => true | None => false end))]%string in
  mret (json_response 200 [("reports", PList [PDict report])]%string)).
Definition core_dump : handler := λ _ r, require_develop (
  device_id ← resolve r;
  artifact ← zoom (preserve_coredump device_id);
  match artifact with
  | None => throw KeyError "no valid retained coredump"
  | Some artifact =>
    path ← lift (subscript artifact "path");
    sha ← lift (subscript artifact "sha256");
    mret (HttpResponse 200 [("X-ESP-Iris-SHA256", str sha)]%string (FileBody (str path)) None)
  end).
End device_handlers.
