(* ===== verification/FileRoutes.v ===== *)
(** * The file routes ([file_routes.py])

    Listing, download, upload and changes of a device's files, each under the
    scope of its kind.  [_file_range] is the byte range of a download. *)
From stdpp Require Import pretty.
From S2P Require Import Prelude Text Value Json JsonDump Sha256 OperationIdentity Effects Store Security Runtime Workflow.
From S2P Require Import Service Http HttpState HttpDevice.

Definition FILE_UPLOAD_MAX_BYTES : Z := 32 * 1024 * 1024.

Section ranges.
Context `{Runtime}.

(** ** Byte ranges *)

(** [\d*]: the decimal digits at the start of the characters [l]. *)
Definition digit_of (c : bytes) : option Z :=
  match c with [b] => if (48 <=? b) && (b <=? 57) then Some (b - 48) else None | _ => digit_other c end.
Fixpoint take_number (l : list bytes) : list Z * list bytes :=
  match l with
  | [] => ([], [])
  | c :: rest =>
    match digit_of c with
    | Some d => let '(ds, rest) := take_number rest in (d :: ds, rest)
    | None => ([], l)
    end
  end.
(** The pattern of a range, two numbers that may be empty, on [value.strip()]. *)
Definition match_range (value : string) : option (list Z * list Z) :=
  match strip_prefix (str_encode "bytes=") (str_encode (strip value)) with
  | None => None
  | Some text =>
    match take_number (utf8_chars [] text) with
    | (first, [b] :: rest) =>
      if b =? 45 then match take_number rest with (last, []) => Some (first, last) | _ => None end else None
    | _ => None
    end
  end.
(** [int(digits)]: at most 4300 of them. *)
Definition number_of (digits : list Z) : res Z :=
  if 4300 <? zlen digits then raise ValueError "Exceeds the limit (4300 digits) for integer string conversion"
  else Ok (fold_left (λ acc d, acc * 10 + d) digits 0).
Definition range_not_satisfiable {A} : res A := Err (Exn HTTPException "Requested Range Not Satisfiable" 416).

(** Offset, length, and whether it is a part of the file. *)
Definition _file_range (value : option string) (size : Z) : res (Z * Z * bool) :=
  match value with
  | None | Some EmptyString => Ok (0, size, false)
  | Some value =>
    match match_range value with
    | None => range_not_satisfiable
    | Some (first, last) =>
      if size <=? 0 then range_not_satisfiable
      else if is_nil first then
        suffix ← (if is_nil last then Ok 0 else number_of last);
        if suffix <=? 0 then range_not_satisfiable
        else
          let start := Z.max 0 (size - suffix) in
          Ok (start, size - 1 - start + 1, true)
      else
        start ← number_of first;
        end_ ← (if is_nil last then Ok (size - 1) else number_of last);
        if (size <=? start) || (end_ <? start) then range_not_satisfiable
        else let end_ := Z.min end_ (size - 1) in Ok (start, end_ - start + 1, true)
    end
  end.
End ranges.

Section file_handlers.
Context `{Runtime}.
Abbreviation handler := (option Actor → http_request → H http_response).

(** ** Scopes and parameters *)

Definition insufficient_scope (scope : string) : http_response :=
  error_response 403 "insufficient_scope" ("file operation requires the " ++ scope ++ " scope")
    [("required_scope", PStr scope)]%string.
(** [blocked = require_scope(request, scope); if blocked is not None: return blocked] *)
Definition require_scope (actor : option Actor) (scope : string) (h : Actor → H http_response) : H http_response :=
  actor ← request_actor actor;
  if allows actor scope then h actor else mret (insufficient_scope scope).

Definition boolean_query (r : http_request) (name : string) (default_ : bool) : res bool :=
  match query name r with
  | None => Ok default_
  | Some value =>
    let value := lower value in
    if existsb (String.eqb value) ["1"; "true"; "yes"]%string then Ok true
    else if existsb (String.eqb value) ["0"; "false"; "no"]%string then Ok false
    else raise ValueError (name ++ " query parameter must be true or false")
  end.

Definition file_query (r : http_request) : H (string * string * string) :=
  device_id ← resolve r;
  let volume := default ""%string (query "volume" r) in
  let path := default ""%string (query "path" r) in
  if (volume =? "")%string then throw ValueError "file volume query parameter is required"
  else mret (device_id, volume, path).

(** ** Reading *)

Definition file_volumes : handler := λ actor r, require_develop (require_scope actor "files.read" (λ _,
  device_id ← resolve r;
  volumes ← zoom (ask (A:=dict) (FileVolumes device_id));
  mret (json_response 200 volumes))).

Definition file_stat : handler := λ actor r, require_develop (require_scope actor "files.read" (λ _,
  q ← file_query r;
  let '(device_id, volume, path) := q : string * string * string in
  metadata ← zoom (ask (A:=dict) (FileStat device_id volume path));
  mret (json_response 200 metadata))).

Definition file_list : handler := λ actor r, require_develop (require_scope actor "files.read" (λ _,
  q ← file_query r;
  let '(device_id, volume, path) := q : string * string * string in
  cursor ← lift (query_int "cursor" "0" r);
  limit ← lift (query_int "limit" "100" r);
  if (cursor <? 0) || negb ((1 <=? limit) && (limit <=? 200))
  then throw ValueError "file list cursor/limit is outside the supported range"
  else
    page ← zoom (ask (A:=dict) (FileList device_id volume path cursor limit));
    mret (json_response 200 page))).

(** [pathlib.PurePosixPath(path).name] *)
Definition posix_name (path : string) : string :=
  default ""%string (last (List.filter (λ part, negb (part =? "")%string && negb (part =? ".")%string) (split_on "/" path))).
(** [urllib.parse.quote(s)] *)
Definition unreserved (b : Z) : bool :=
  ((48 <=? b) && (b <=? 57)) || ((65 <=? b) && (b <=? 90)) || ((97 <=? b) && (b <=? 122))
  || existsb (Z.eqb b) [45; 46; 47; 95; 126].
Definition upper_hex (d : Z) : Z := if d <? 10 then 48 + d else 55 + d.
Definition quote_byte (b : Z) : bytes := if unreserved b then [b] else [37; upper_hex (b / 16); upper_hex (b mod 16)].
Definition quote (s : string) : res string := l ← encode_utf8 s; Ok (bytes_str (flat_map quote_byte l)).

Definition dquote : string := String (ascii_of_nat 34) "".
(** [f'W/"{etag}"'] *)
Definition weak_etag (etag : string) : string := ("W/" ++ dquote ++ etag ++ dquote)%string.
Definition download_name (path : string) : string := if (posix_name path =? "")%string then "download.bin" else posix_name path.
Definition content_range (offset length size : Z) : string :=
  ("bytes " ++ pretty offset ++ "-" ++ pretty (offset + length - 1) ++ "/" ++ pretty size)%string.
Definition download_headers (volume path etag : string) (offset length size : Z) (partial : bool)
    : res (list (string * string)) :=
  filename ← quote (download_name path);
  Ok ([("Accept-Ranges", "bytes"); ("Cache-Control", "no-store");
       ("Content-Disposition", "attachment; filename*=UTF-8''" ++ filename); ("Content-Length", pretty length);
       ("Content-Type", "application/octet-stream"); ("ETag", etag); ("X-ESP-Iris-Volume", volume)]%string
      ++ if partial then [("Content-Range", content_range offset length size)]%string else []).

(** [async for chunk in hub.file_download(...): await response.write(chunk)]; the
    state is what was written and whether the iteration has ended. *)
Definition download_round (c : call) (st : bytes * bool) : H (bytes * bool) :=
  chunk ← zoom (ask (A:=option bytes) c);
  mret match chunk with Some chunk => (fst st ++ chunk, false) | None => (fst st, true) end.
Definition download (c : call) : H bytes :=
  st ← while (λ st, negb (snd st)) (download_round c) ([], false); mret (fst (st : bytes * bool)).

Definition send_file (r : http_request) (actor : Actor) (device_id volume path : string) (metadata : dict) : H http_response :=
  size ← lift (v ← subscript metadata "size"; int v);
  range ← lift (_file_range (header "Range" r) size);
  let '(offset, length, partial) := range : Z * Z * bool in
  raw_etag ← lift (subscript metadata "etag");
  let etag := weak_etag (str raw_etag) in
  if bool_decide (header "If-None-Match" r = Some etag) && negb partial
  then mret (HttpResponse 304 [("ETag", etag)]%string NoBody None)
  else
    headers ← lift (download_headers volume path etag offset length size partial);
    data ← download (FileDownload device_id volume path offset length);
    _ ← zoom (audit_entry (ac_kind actor) (ac_name actor) "file.downloaded"
          [("device_id", PStr device_id); ("volume", PStr volume); ("path", PStr path); ("offset", PInt offset);
           ("bytes", PInt length); ("etag", raw_etag)]%string);
    mret (HttpResponse (if partial then 206 else 200) headers (RawBody "application/octet-stream" data) None).

Definition file_download : handler := λ actor r, require_develop (require_scope actor "files.read" (λ actor,
  q ← file_query r;
  let '(device_id, volume, path) := q : string * string * string in
  metadata ← zoom (ask (A:=dict) (FileStat device_id volume path));
  if negb (is_str (dict_get "kind" metadata) "file") then throw ValueError "file download target is not a regular file"
  else send_file r actor device_id volume path metadata)).

(** ** Writing *)

(** The upload's content, of the declared length. *)
Definition received (r : http_request) (total_size : Z) : res bytes :=
  if total_size <? zlen (hr_body r) then raise ValueError "file upload exceeds its declared Content-Length"
  else if negb (zlen (hr_body r) =? total_size) then raise ValueError "file upload does not match its declared Content-Length"
  else Ok (hr_body r).
Definition upload_params (volume path : string) (content : bytes) (overwrite : bool) (if_match : option string) : dict :=
  [("volume", PStr volume); ("path", PStr path); ("size", PInt (zlen content)); ("sha256", PStr (sha256_hex content));
   ("overwrite", PBool overwrite); ("if_match", opt_str if_match)]%string.
Definition file_response (status : Z) (operation : dict) (key : string) (result : pyobj) (created : bool)
    (operation_id : string) : H http_response :=
  value ← lift (json_value result);
  mret (with_headers [("X-Operation-ID", operation_id)]%string
          (json_response status [("operation"%string, PDict operation); (key, value);
                                 ("idempotent_reuse"%string, PBool (negb created))])).
Definition replaced (result : pyobj) : bool :=
  match json_value result with Ok (PDict d) => truthy (dict_get "replaced" d) | _ => false end.

Definition file_upload : handler := λ actor r, require_develop (require_scope actor "files.write" (λ actor,
  q ← file_query r;
  let '(device_id, volume, path) := q : string * string * string in
  match hr_content_length r with
  | None => throw ValueError "file upload requires a Content-Length header"
  | Some total_size =>
    if FILE_UPLOAD_MAX_BYTES <? total_size then lift (Err (Exn HTTPException "Request Entity Too Large" 413))
    else
      overwrite ← lift (boolean_query r "overwrite" false);
      let if_match := header "If-Match" r in
      operation_id ← operation_id_of r;
      content ← lift (received r total_size);
      x ← execute (Submission device_id actor "file.upload" (upload_params volume path content overwrite if_match)
                     (CallFileUpload device_id volume path content overwrite if_match operation_id)
                     (Some operation_id) true);
      let '(operation, result, created) := x : dict * pyobj * bool in
      file_response (if replaced result then 200 else 201) operation "file" result created operation_id
  end)).

(** [operation["operation_id"]], after the operation has returned *)
Definition change_response (status : Z) (key : string) (x : dict * pyobj * bool) : H http_response :=
  let '(operation, result, created) := x in
  operation_id ← lift (subscript operation "operation_id");
  file_response status operation key result created (str operation_id).

Definition path_params (volume path : string) : dict := [("volume", PStr volume); ("path", PStr path)]%string.
Definition file_mkdir : handler := λ actor r, require_develop (require_scope actor "files.write" (λ actor,
  body ← lift (json_body r);
  device_id ← resolve r;
  let volume := body_str "volume" "" body in
  let path := body_str "path" "" body in
  x ← execute (Submission device_id actor "file.mkdir" (path_params volume path) (CallFileMkdir device_id volume path)
                 (operation_header r) true);
  change_response 201 "directory" x)).
Definition file_delete : handler := λ actor r, require_develop (require_scope actor "files.delete" (λ actor,
  q ← file_query r;
  let '(device_id, volume, path) := q : string * string * string in
  x ← execute (Submission device_id actor "file.delete" (path_params volume path) (CallFileDelete device_id volume path)
                 (operation_header r) true);
  change_response 200 "file" x)).
Definition rename_params (volume source destination : string) : dict :=
  [("volume", PStr volume); ("source", PStr source); ("destination", PStr destination)]%string.
Definition file_rename : handler := λ actor r, require_develop (require_scope actor "files.write" (λ actor,
  body ← lift (json_body r);
  device_id ← resolve r;
  let volume := body_str "volume" "" body in
  let source := body_str "source" "" body in
  let destination := body_str "destination" "" body in
  x ← execute (Submission device_id actor "file.rename" (rename_params volume source destination)
                 (CallFileRename device_id volume source destination) (operation_header r) true);
  change_response 200 "file" x)).
End file_handlers.
