(* ===== verification/FileRoutesProps.v ===== *)
(** * Byte ranges of downloads ([_file_range] in [file_routes.py])

    A header with one range of bytes selects the positions that it asks for, as
    RFC 7233 has it, and nothing outside of the file.  Every other header is
    answered by 416, several ranges and unknown units included, which the RFC
    lets a server ignore or has it ignore. *)
From S2P Require Import Prelude Text Value Json JsonDump Effects Security Runtime FileRoutes.

(** ** Meaning of a range *)

(** The value of a list of digits, none where there are no digits. *)
Definition digits_number (ds : list Z) : Z := fold_left (λ acc d, acc * 10 + d) ds 0.
Definition range_bound (ds : list Z) : option Z := if is_nil ds then None else Some (digits_number ds).

(** Byte [i] of a file of [size] bytes is asked for: from the first to the last
    position, from the first on, or the last [n] bytes. *)
Definition requested (first last : option Z) (size i : Z) : Prop :=
  0 ≤ i < size ∧
  match first, last with
  | Some a, Some b => a ≤ i ≤ b
  | Some a, None => a ≤ i
  | None, Some n => size - n ≤ i
  | None, None => False
  end.

(** The text of a range. *)
Definition digits_text (ds : list Z) : bytes := map (λ d, d + 48) ds.
Definition range_text (first last : list Z) : string :=
  bytes_str (str_encode "bytes=" ++ digits_text first ++ [45] ++ digits_text last).
Definition is_decimal (ds : list Z) : Prop := Forall (λ d, 0 ≤ d ≤ 9) ds.

Section ranges.
Context `{RuntimeLaws}.

(** ** Reading the header *)

Lemma digit_of_range c d : digit_of c = Some d → 0 ≤ d ≤ 9.
Proof.
  unfold digit_of. destruct c as [|b [|b' c]]; try (by apply digit_other_ok).
  case_match; [| done]. intros [= <-]. lia.
Qed.
Lemma take_number_decimal l ds rest : take_number l = (ds, rest) → is_decimal ds.
Proof.
  revert ds rest. induction l as [|c l IH]; intros ds rest; cbn [take_number]; [intros [= <- <-]; constructor |].
  destruct (digit_of c) as [d|] eqn:E; [| intros [= <- <-]; constructor].
  destruct (take_number l) as [ds' rest'] eqn:El. intros [= <- <-]. constructor; [by eapply digit_of_range | by eapply IH].
Qed.
Lemma match_range_decimal value first last : match_range value = Some (first, last) → is_decimal first ∧ is_decimal last.
Proof.
  unfold match_range. case_match eqn:Et; [| done]. clear Et.
  match goal with |- context [utf8_chars [] ?l] => generalize l end. intros text.
  destruct (take_number (utf8_chars [] text)) as [ds rest] eqn:E. apply take_number_decimal in E.
  destruct rest as [|[|b [|]] rest]; try done. destruct (b =? 45); [| done].
  destruct (take_number rest) as [es rest'] eqn:E'. apply take_number_decimal in E'.
  destruct rest'; [| done]. by intros [= <- <-].
Qed.
Lemma fold_decimal ds acc : is_decimal ds → 0 ≤ acc → 0 ≤ fold_left (λ acc d, acc * 10 + d) ds acc.
Proof. intros Hd. revert acc. induction Hd as [|d ds Hd _ IH]; intros acc Ha; cbn; [done |]. apply IH. lia. Qed.
Lemma digits_nonneg ds : is_decimal ds → 0 ≤ digits_number ds.
Proof. intros Hd. by apply fold_decimal. Qed.
Lemma number_of_spec ds : (4300 < zlen ds ∧ ∃ e, number_of ds = Err e ∧ exn_cls e = ValueError)
  ∨ number_of ds = Ok (digits_number ds).
Proof. unfold number_of. destruct (Z.ltb_spec 4300 (zlen ds)); [left; split; [done | by eexists] | by right]. Qed.

(** A number is read up to the first character that is no digit. *)
Lemma take_digits_text ds rest : is_decimal ds →
  match rest with [] => True | c :: _ => digit_of c = None end →
  take_number (map (λ b, [b]) (digits_text ds) ++ rest) = (ds, rest).
Proof.
  intros Hd Hr. induction Hd as [|d ds Hd _ IH]; cbn [map digits_text app].
  - destruct rest as [|c rest]; [done |]. cbn [take_number]. by rewrite Hr.
  - cbn [take_number digit_of]. replace ((48 <=? d + 48) && (d + 48 <=? 57)) with true by (symmetry; lia).
    fold (digits_text ds). rewrite IH. do 2 f_equal. lia.
Qed.
Lemma ascii_chars l : Forall (λ b, b < 128) l → utf8_chars [] l = map (λ b, [b]) l.
Proof.
  assert (Hc : ∀ b, b < 128 → is_continuation b = false) by (intros b Hb; unfold is_continuation; lia).
  assert (Hgo : ∀ a l, Forall (λ b, b < 128) l → utf8_chars [a] l = [a] :: map (λ b, [b]) l).
  { intros a m Hm. revert a. induction Hm as [|b m Hb _ IH]; intros a; [done |]. cbn [utf8_chars].
    rewrite Hc by done. cbn. by rewrite IH. }
  intros [|b l' Hb Hl]; [done |]. cbn [utf8_chars]. rewrite Hc by done. cbn. by apply Hgo.
Qed.

(** A text that starts and ends in characters no whitespace starts or ends in. *)
Lemma strip_left_id words fuel b l : existsb (λ w, bool_decide (head w = Some b) || is_nil w) words = false →
  strip_left words fuel (b :: l) = b :: l.
Proof.
  intros Hw. destruct fuel as [|fuel]; [done |]. cbn [strip_left].
  destruct (List.find _ words) as [w|] eqn:Hf; [| done]. apply find_some in Hf as [Hin Hp].
  apply bool_decide_eq_true in Hp. exfalso. apply not_true_iff_false in Hw. apply Hw, existsb_exists.
  exists w. split; [done |]. destruct w as [|c w]; [by rewrite orb_true_r |]. cbn in Hp. injection Hp as <- _.
  by rewrite bool_decide_true.
Qed.
Lemma strip_id b c l : existsb (λ w, bool_decide (head w = Some b) || is_nil w) whitespace = false →
  existsb (λ w, bool_decide (head w = Some c) || is_nil w) (map (@rev Z) whitespace) = false →
  strip_both whitespace (b :: l ++ [c]) = b :: l ++ [c].
Proof.
  intros Hb Hc. unfold strip_both. rewrite strip_left_id by done.
  replace (rev (b :: l ++ [c])) with (c :: rev (b :: l)) by (by rewrite app_comm_cons, rev_app_distr).
  rewrite strip_left_id by done. cbn [rev]. rewrite rev_app_distr, rev_involutive. done.
Qed.
Lemma digits_ascii ds : is_decimal ds → Forall (λ b, 45 ≤ b ≤ 57) (digits_text ds).
Proof. intros Hd. apply Forall_fmap. eapply Forall_impl; [exact Hd |]. intros d Hdd. cbv beta in Hdd. cbv [compose]. lia. Qed.
Lemma last_in {A} (Q : A → Prop) x (l : list A) : Forall Q (x :: l) → ∃ m c, x :: l = m ++ [c] ∧ Q c.
Proof.
  intros Hl. destruct (@exists_last _ (x :: l) ltac:(done)) as (m & c & Hm). exists m, c. split; [done |].
  rewrite Hm in Hl. apply Forall_app in Hl as [_ Hl].
  by inversion Hl.
Qed.
Lemma not_space_at_end c : 45 ≤ c ≤ 57 →
  existsb (λ w, bool_decide (head w = Some c) || is_nil w) (map (@rev Z) whitespace) = false.
Proof.
  intros Hc. assert (c ∈ seqZ 45 13) as Hin by (apply elem_of_seqZ; lia). revert c Hc Hin.
  assert (Hall : forallb (λ c, negb (existsb (λ w, bool_decide (head w = Some c) || is_nil w) (map (@rev Z) whitespace)))
                   (seqZ 45 13) = true) by (vm_compute; reflexivity).
  intros c _ Hin. rewrite forallb_forall in Hall. apply negb_true_iff, Hall, list_elem_of_In, Hin.
Qed.

Lemma match_range_text (first last : list Z) : is_decimal first → is_decimal last →
  match_range (range_text first last) = Some (first, last).
Proof.
  intros Hf Hl. unfold match_range, range_text, strip. pose proof (digits_ascii _ Hf) as Hfb. pose proof (digits_ascii _ Hl) as Hlb.
  assert (Hall : Forall (λ b, 45 ≤ b ≤ 57) (digits_text first ++ 45 :: digits_text last)).
  { apply Forall_app. split; [done |]. by constructor. }
  change (str_encode "bytes=" ++ digits_text first ++ [45] ++ digits_text last)
    with (98 :: [121; 116; 101; 115; 61] ++ digits_text first ++ 45 :: digits_text last).
  destruct (last_in (λ b, 45 ≤ b ≤ 57) 45 (digits_text last)) as (m & c & Hm & Hc); [by constructor |].
  cbv beta in Hc.
  assert (Hb : is_bytes (98 :: [121; 116; 101; 115; 61] ++ digits_text first ++ 45 :: digits_text last)).
  { repeat (constructor; [unfold byte_ok; lia |]). eapply Forall_impl; [exact Hall |]. unfold byte_ok. intros x Hx. cbv beta in Hx. lia. }
  rewrite (str_encode_bytes_str _ Hb), Hm.
  rewrite (app_assoc (digits_text first)), (app_assoc [121; 116; 101; 115; 61]).
  rewrite strip_id; [| vm_compute; reflexivity | by apply not_space_at_end].
  rewrite <- !app_assoc, <- Hm, (str_encode_bytes_str _ Hb).
  change (strip_prefix _ _) with (strip_prefix (str_encode "bytes=") (str_encode "bytes=" ++ digits_text first ++ 45 :: digits_text last)).
  rewrite strip_prefix_app, ascii_chars by (eapply Forall_impl; [exact Hall |]; intros x Hx; cbv beta in Hx; lia).
  rewrite map_app. cbn [map]. rewrite (take_digits_text first ([45] :: map (λ b, [b]) (digits_text last)) Hf eq_refl).
  rewrite <- (app_nil_r (map (λ b, [b]) (digits_text last))), (take_digits_text last [] Hl I). done.
Qed.
Lemma range_bound_empty ds : is_nil ds = true → range_bound ds = None.
Proof. unfold range_bound. by intros ->. Qed.
Lemma range_bound_number ds : is_nil ds = false → range_bound ds = Some (digits_number ds).
Proof. unfold range_bound. by intros ->. Qed.

(** *** What is read as a range *)

Definition are_digits (cs : list bytes) (ds : list Z) : Prop := Forall2 (λ c d, digit_of c = Some d) cs ds.
(** The pattern [bytes=(\d* )-(\d* )] matches all of the stripped text. *)
Definition single_range (text : string) (first last : list Z) : Prop :=
  ∃ rest cf cl, str_encode (strip text) = str_encode "bytes=" ++ rest
    ∧ utf8_chars [] rest = cf ++ [45] :: cl ∧ are_digits cf first ∧ are_digits cl last.

Lemma take_number_sound l ds rest : take_number l = (ds, rest) → ∃ cs, l = cs ++ rest ∧ are_digits cs ds.
Proof.
  revert ds rest. induction l as [|c l IH]; intros ds rest; cbn [take_number].
  { intros [= <- <-]. exists []. split; [done | constructor]. }
  destruct (digit_of c) as [d|] eqn:E; [| intros [= <- <-]; exists []; split; [done | constructor]].
  destruct (take_number l) as [ds' rest'] eqn:El. intros [= <- <-]. destruct (IH ds' rest' eq_refl) as (cs & -> & Hcs).
  exists (c :: cs). split; [done | by constructor].
Qed.
Lemma take_number_complete cs ds rest : are_digits cs ds → match rest with [] => True | c :: _ => digit_of c = None end →
  take_number (cs ++ rest) = (ds, rest).
Proof.
  intros Hd Hr. induction Hd as [|c d cs ds Hc _ IH]; cbn [app].
  - destruct rest as [|c rest]; [done |]. cbn [take_number]. by rewrite Hr.
  - cbn [take_number]. by rewrite Hc, IH.
Qed.
Lemma strip_prefix_sound p l rest : strip_prefix p l = Some rest → l = p ++ rest.
Proof.
  unfold strip_prefix. case_bool_decide as Hp; [| done]. intros [= <-]. rewrite <- Hp at 1. by rewrite take_drop.
Qed.
Lemma match_range_iff text first last : match_range text = Some (first, last) ↔ single_range text first last.
Proof.
  unfold match_range, single_range. split.
  - destruct (strip_prefix _ _) as [rest|] eqn:Hp; [| done]. apply strip_prefix_sound in Hp.
    destruct (take_number (utf8_chars [] rest)) as [ds l] eqn:E. apply take_number_sound in E as (cf & Hl & Hcf).
    destruct l as [|[|b [|]] l]; try done. destruct (b =? 45) eqn:Hb; [| done]. apply Z.eqb_eq in Hb as ->.
    destruct (take_number l) as [es l'] eqn:E'. apply take_number_sound in E' as (cl & -> & Hcl).
    destruct l'; [| done]. intros [= <- <-]. exists rest, cf, cl. rewrite app_nil_r in Hl. by split_and!.
  - intros (rest & cf & cl & -> & Hc & Hf & Hl). rewrite strip_prefix_app, Hc.
    rewrite (take_number_complete cf first ([45] :: cl) Hf eq_refl). cbn [Z.eqb].
    rewrite <- (app_nil_r cl), (take_number_complete cl last [] Hl I). done.
Qed.

(** The answer to a header that is of the form of a range. *)
Definition answers (first last : list Z) (size : Z) (r : res (Z * Z * bool)) : Prop :=
  match r with
  | Ok (offset, length, partial) => partial = true ∧ 0 < length ∧
      ∀ i, offset ≤ i < offset + length ↔ requested (range_bound first) (range_bound last) size i
  | Err e => e = Exn HTTPException "Requested Range Not Satisfiable" 416
             ∧ (∀ i, ¬ requested (range_bound first) (range_bound last) size i)
             ∨ exn_cls e = ValueError ∧ (4300 < zlen first ∨ 4300 < zlen last)
  end.

Local Ltac unsatisfiable := left; split; [reflexivity | unfold requested; intros ? ?; lia].
Lemma answers_range text first last size : match_range text = Some (first, last) → 0 ≤ size → text ≠ ""%string →
  answers first last size (_file_range (Some text) size).
Proof.
  intros Hm Hsize Htext. destruct (match_range_decimal _ _ _ Hm) as [Hf%digits_nonneg Hl%digits_nonneg].
  unfold _file_range. destruct text as [|a text]; [done |]. rewrite Hm. unfold answers.
  destruct (Z.leb_spec size 0); [unsatisfiable |].
  destruct (is_nil first) eqn:Ef; [rewrite (range_bound_empty first) by done | rewrite (range_bound_number first) by done].
  - destruct (is_nil last) eqn:El; [rewrite (range_bound_empty last) by done | rewrite (range_bound_number last) by done].
    + cbn. unsatisfiable.
    + destruct (number_of_spec last) as [(Hlong & e & -> & He) | ->]; cbn; [by right; auto |].
      destruct (Z.leb_spec (digits_number last) 0); [unsatisfiable |].
      split_and!; [done | lia | unfold requested; intros i; lia].
  - destruct (number_of_spec first) as [(Hlong & e & -> & He) | ->]; cbn; [by right; auto |].
    destruct (is_nil last) eqn:El; [rewrite (range_bound_empty last) by done | rewrite (range_bound_number last) by done].
    + cbn. destruct (Z.leb_spec size (digits_number first)); cbn; [unsatisfiable |].
      destruct (Z.ltb_spec (size - 1) (digits_number first)); [lia |].
      split_and!; [done | lia | unfold requested; intros i; lia].
    + destruct (number_of_spec last) as [(Hlong & e & -> & He) | ->]; cbn; [by right; auto |].
      destruct (Z.leb_spec size (digits_number first)); cbn; [unsatisfiable |].
      destruct (Z.ltb_spec (digits_number last) (digits_number first)); [unsatisfiable |].
      split_and!; [done | lia | unfold requested; intros i; lia].
Qed.
End ranges.

(** C37: a download sends the bytes that its range header asks for.  Without a
    header, or with an empty one, that is the whole file.  A header is read as a
    range when the pattern [bytes=<digits>-<digits>], either number absent,
    matches all of it, white space around it aside; in particular every such
    text is read as its numbers.  Then the offset and length that are answered
    cover exactly the positions of the file that the range asks for, as RFC
    7233 means them: from the first to the last, from the first on, or as many
    as given at the end; so never a byte outside of the file.  The answer is 416
    exactly where there is no such position, or where the pattern does not
    match - which takes in headers with several ranges, other units or no range
    at all, though by the RFC these may or must be ignored; a number of more
    than 4300 digits is rejected as a bad request. *)
Theorem file_range_selects `{RuntimeLaws} (size : Z) (Hsize : 0 ≤ size) :
  (∀ first last, is_decimal first → is_decimal last → single_range (range_text first last) first last)
  ∧ _file_range None size = Ok (0, size, false) ∧ _file_range (Some ""%string) size = Ok (0, size, false)
  ∧ ∀ text, text ≠ ""%string →
    (∀ first last, single_range text first last → answers first last size (_file_range (Some text) size))
    ∧ ((∀ first last, ¬ single_range text first last) →
         _file_range (Some text) size = Err (Exn HTTPException "Requested Range Not Satisfiable" 416)).
Proof.
  split_and!; [intros first last Hf Hl; by apply match_range_iff, match_range_text | done | done |].
  intros text Htext. split.
  - intros first last Hm%match_range_iff. by apply answers_range.
  - intros Hno. destruct (match_range text) as [[first last]|] eqn:Hm.
    + by apply match_range_iff, Hno in Hm.
    + unfold _file_range. destruct text; [done |]. by rewrite Hm.
Qed.

Lemma file_range_selects_witness :
  answers [9] [] 10 (@_file_range plain_runtime (Some (range_text [9] [])) 10)
  ∧ @_file_range plain_runtime (Some (range_text [9] [])) 10 = Ok (9, 1, true)
  ∧ @_file_range plain_runtime (Some (range_text [] [4])) 10 = Ok (6, 4, true)
  ∧ @_file_range plain_runtime (Some (range_text [3] [9; 9])) 10 = Ok (3, 7, true).
Proof.
  split; [| vm_compute; auto].
  assert (Hsize : 0 ≤ 10) by (vm_compute; discriminate).
  destruct (@file_range_selects plain_runtime plain_runtime_laws 10 Hsize) as (Hm & _ & _ & Ha).
  assert (Hne : range_text [9] [] ≠ ""%string) by (vm_compute; discriminate).
  apply (Ha (range_text [9] []) Hne), Hm; [repeat constructor; vm_compute; discriminate | constructor].
Defined.

(** Two ranges, a unit that is not known, and a last position before the first:
    by RFC 7233 the first may be answered by the whole file and the others must
    be; here each is 416. *)
Example ranges_not_ignored :
  map (λ text, match @_file_range plain_runtime (Some text) 10 with Err e => exn_status e | Ok _ => 200 end)
    ["bytes=0-1,4-5"; "items=0-1"; "bytes=5-3"]%string = [416; 416; 416].
Proof. vm_compute. reflexivity. Qed.
