(* ===== verification/Routes.v ===== *)
(** * Routes, and what a submission runs ([create_app] in [gateway.py])

    [ROUTES] is the table of the application; [serve] is a request through the
    middlewares to its handler.  [perform] is the call that the operation
    manager makes for a submission. *)
From S2P Require Import Prelude Text Value Sha256 OperationIdentity Effects Store Security SystemUpdate Runtime Workflow.
From S2P Require Import OtaWorkflow SystemUpdateWorkflow Service Http HttpState HttpDevice FileRoutes.

(** ** Routes *)

Inductive endpoint :=
| Health | Metrics | AuthState | Setup | Login | Logout | Mode | Devices | Endpoints
| MaintenanceAcquire | MaintenanceEndpointAcquire | MaintenanceStatus | MaintenanceRenew | MaintenanceFinish
| Status | RemoveDevice | Alias | EventHistory | EventSocket | OperationList | OperationGet | OperationReconcile
| OperationReconciliations | FileVolumes | FileStat | FileList | FileDownload | FileUpload | FileDelete | FileMkdir
| FileRename | FirmwareArtifacts | FirmwareArtifact | Audits | RpcCatalog | RawRpc | StructuredRpc | Console | Job
| Restart | FactoryRecovery | Screenshot | Mirror | MediaStream | InputEvent | AudioUpload | Ota | SystemInventory
| SystemUpdate | CrashReport | CoreDump | Tokens | RevokeToken | ChangePassword | Export | OpenApi | ApiNotFound | Spa.

(** One segment of a path: fixed, or bound to a name - any, or one of some words. *)
Inductive segment := Fixed (s : string) | Bound (name : string) | Among (name : string) (words : list string).
Record route := Route {
  ro_methods : list string;   (* none: all methods *)
  ro_pattern : list segment;
  ro_rest : bool;             (* the rest of the path is bound to [path] *)
  ro_endpoint : endpoint;
}.

Definition device (l : list segment) : list segment := [Fixed "v1"; Fixed "devices"; Bound "device_id"]%string ++ l.
Definition get (pattern : list segment) (e : endpoint) : route := Route ["GET"; "HEAD"]%string pattern false e.
Definition post (pattern : list segment) (e : endpoint) : route := Route ["POST"%string] pattern false e.
Definition put (pattern : list segment) (e : endpoint) : route := Route ["PUT"%string] pattern false e.
Definition delete (pattern : list segment) (e : endpoint) : route := Route ["DELETE"%string] pattern false e.

Definition ROUTES : list route := [
  get [Fixed "v1"; Fixed "health"] Health; get [Fixed "v1"; Fixed "metrics"] Metrics;
  get [Fixed "v1"; Fixed "auth"; Fixed "state"] AuthState; post [Fixed "v1"; Fixed "auth"; Fixed "setup"] Setup;
  post [Fixed "v1"; Fixed "auth"; Fixed "login"] Login; post [Fixed "v1"; Fixed "auth"; Fixed "logout"] Logout;
  get [Fixed "v1"; Fixed "mode"] Mode; put [Fixed "v1"; Fixed "mode"] Mode;
  get [Fixed "v1"; Fixed "devices"] Devices; get [Fixed "v1"; Fixed "endpoints"] Endpoints;
  post (device [Fixed "maintenance-leases"]) MaintenanceAcquire;
  post [Fixed "v1"; Fixed "maintenance-endpoints"; Fixed "leases"] MaintenanceEndpointAcquire;
  get [Fixed "v1"; Fixed "maintenance-leases"; Bound "lease_id"] MaintenanceStatus;
  post [Fixed "v1"; Fixed "maintenance-leases"; Bound "lease_id"; Fixed "renew"] MaintenanceRenew;
  post [Fixed "v1"; Fixed "maintenance-leases"; Bound "lease_id"; Among "action" ["complete"; "abort"]] MaintenanceFinish;
  get (device []) Status; delete (device []) RemoveDevice; Route ["PATCH"] (device [Fixed "alias"]) false Alias;
  get [Fixed "v1"; Fixed "events"] EventHistory; get [Fixed "v1"; Fixed "events"; Fixed "ws"] EventSocket;
  get [Fixed "v1"; Fixed "operations"] OperationList; get [Fixed "v1"; Fixed "operations"; Bound "operation_id"] OperationGet;
  post [Fixed "v1"; Fixed "operations"; Bound "operation_id"; Fixed "reconcile"] OperationReconcile;
  get [Fixed "v1"; Fixed "operations"; Bound "operation_id"; Fixed "reconciliations"] OperationReconciliations;
  get (device [Fixed "files"; Fixed "volumes"]) FileVolumes; get (device [Fixed "files"; Fixed "stat"]) FileStat;
  get (device [Fixed "files"]) FileList; get (device [Fixed "file"]) FileDownload;
  put (device [Fixed "file"]) FileUpload; delete (device [Fixed "file"]) FileDelete;
  post (device [Fixed "directories"]) FileMkdir; post (device [Fixed "file-rename"]) FileRename;
  get [Fixed "v1"; Fixed "firmware-artifacts"] FirmwareArtifacts; post [Fixed "v1"; Fixed "firmware-artifacts"] FirmwareArtifacts;
  get [Fixed "v1"; Fixed "firmware-artifacts"; Bound "artifact_id"] FirmwareArtifact;
  get [Fixed "v1"; Fixed "system-audit"] Audits; get [Fixed "v1"; Fixed "rpc-catalog"] RpcCatalog;
  post (device [Fixed "rpc"; Fixed "raw"]) RawRpc; post (device [Fixed "rpc"; Bound "method"]) StructuredRpc;
  post (device [Fixed "console"]) Console; get (device [Fixed "jobs"; Bound "job_id"]) Job;
  delete (device [Fixed "jobs"; Bound "job_id"]) Job; post (device [Fixed "restart"]) Restart;
  post (device [Fixed "factory-recovery"]) FactoryRecovery; post (device [Fixed "screenshot"]) Screenshot;
  post (device [Fixed "mirror"; Fixed "start"]) Mirror; post (device [Fixed "mirror"; Fixed "stop"]) Mirror;
  get (device [Fixed "streams"; Bound "channel"]) MediaStream; post (device [Fixed "input"]) InputEvent;
  post (device [Fixed "audio"]) AudioUpload; post (device [Fixed "ota"]) Ota;
  get (device [Fixed "system-inventory"]) SystemInventory; post (device [Fixed "system-update"]) SystemUpdate;
  get (device [Fixed "crashes"]) CrashReport; get (device [Fixed "crashes"; Fixed "core-dump"]) CoreDump;
  get [Fixed "v1"; Fixed "auth"; Fixed "tokens"] Tokens; post [Fixed "v1"; Fixed "auth"; Fixed "tokens"] Tokens;
  delete [Fixed "v1"; Fixed "auth"; Fixed "tokens"; Bound "token_id"] RevokeToken;
  put [Fixed "v1"; Fixed "auth"; Fixed "password"] ChangePassword; post [Fixed "v1"; Fixed "export"] Export;
  get [Fixed "v1"; Fixed "openapi.json"] OpenApi; Route [] [Fixed "v1"] true ApiNotFound;
  Route ["GET"; "HEAD"] [] true Spa]%string.

Definition bind_segment (p : segment) (s : string) : option (list (string * string)) :=
  match p with
  | Fixed f => if (f =? s)%string then Some [] else None
  | Bound name => if (s =? "")%string then None else Some [(name, s)]
  | Among name words => if existsb (String.eqb s) words then Some [(name, s)] else None
  end.
Fixpoint bind_segments (pattern : list segment) (rest : bool) (l : list string) : option (list (string * string)) :=
  match pattern, l with
  | [], [] => if rest then None else Some []
  | [], l => if rest then Some [("path", String.concat "/" l)]%string else None
  | p :: pattern, s :: l => m ← bind_segment p s; m' ← bind_segments pattern rest l; Some (m ++ m')
  | _ :: _, [] => None
  end.
Definition accepts (ro : route) (r : http_request) : option (list (string * string)) :=
  if is_nil (ro_methods ro) || existsb (String.eqb (hr_method r)) (ro_methods ro)
  then bind_segments (ro_pattern ro) (ro_rest ro) (hr_segments r) else None.
Fixpoint find_route (routes : list route) (r : http_request) : option (endpoint * list (string * string)) :=
  match routes with
  | [] => None
  | ro :: routes => match accepts ro r with Some m => Some (ro_endpoint ro, m) | None => find_route routes r end
  end.

(** ** Requests through the middlewares *)

Definition set_match (m : list (string * string)) (r : http_request) : http_request :=
  HttpRequest (hr_method r) (hr_segments r) m (hr_query r) (hr_headers r) (hr_cookie r) (hr_remote r) (hr_secure r)
    (hr_content_type r) (hr_content_length r) (hr_can_read_body r) (hr_body r) (hr_text r) (hr_parts r).

Section application.
Context `{Runtime} (cfg : config) (compress : bytes → bytes) (load_bundle : bytes → option bytes → res SystemUpdateBundle)
  (realpath : string → string) (is_file exists_ : string → bool).

Definition handle (e : endpoint) : option Actor → http_request → H http_response :=
  match e with
  | Health => health cfg | Metrics => metrics | AuthState => auth_state cfg | Setup => setup | Login => login_handler
  | Logout => logout_handler | Mode => mode | Devices => devices cfg | Endpoints => endpoints cfg
  | MaintenanceAcquire => maintenance_acquire | MaintenanceEndpointAcquire => maintenance_endpoint_acquire
  | MaintenanceStatus => maintenance_status | MaintenanceRenew => maintenance_renew
  | MaintenanceFinish => maintenance_finish | Status => status | RemoveDevice => remove_device_handler | Alias => alias
  | EventHistory => event_history | EventSocket => event_socket | OperationList => operation_list
  | OperationGet => operation_get | OperationReconcile => operation_reconcile
  | OperationReconciliations => operation_reconciliations | FileVolumes => file_volumes | FileStat => file_stat
  | FileList => file_list | FileDownload => file_download | FileUpload => file_upload | FileDelete => file_delete
  | FileMkdir => file_mkdir | FileRename => file_rename | FirmwareArtifacts => firmware_artifacts_handler cfg
  | FirmwareArtifact => firmware_artifact_handler cfg | Audits => audits_handler | RpcCatalog => rpc_catalog cfg
  | RawRpc => raw_rpc | StructuredRpc => structured_rpc cfg | Console => console cfg | Job => job | Restart => restart
  | FactoryRecovery => factory_recovery cfg | Screenshot => screenshot compress | Mirror => mirror
  | MediaStream => media_stream | InputEvent => input_event cfg | AudioUpload => audio_upload cfg | Ota => ota cfg
  | SystemInventory => system_inventory | SystemUpdate => system_update cfg load_bundle
  | CrashReport => crash_report cfg | CoreDump => core_dump | Tokens => tokens | RevokeToken => revoke_token
  | ChangePassword => change_password_handler | Export => export | OpenApi => openapi | ApiNotFound => api_not_found
  | Spa => spa cfg realpath is_file exists_
  end.

Definition serve (r : http_request) : H http_response :=
  match find_route ROUTES r with
  | None => lift (Err (Exn HTTPException "Method Not Allowed" 405))
  | Some (e, m) => errors (authentication cfg (handle e) (set_match m r))
  end.
(** What the client receives. *)
Definition respond (r : http_request) : H http_response :=
  try_except (serve r) [BaseException] (λ e, mret (aiohttp_response e)).

(** ** The call of a submission *)

(** The progress of an upload, reported when it moved by a percent or half a
    second has passed since the last report. *)
Definition upload_progress (operation_id : string) (committed expected : Z) : W unit :=
  let permille := if expected =? 0 then 1000 else committed * 1000 / expected in
  last_progress ← get_last_progress;
  recent ← invoke (A:=bool) BeforeDeadline;
  if (permille <? 1000) && (permille - last_progress <? 10) && recent then mret tt
  else
    _ ← set_last_progress permille;
    ask (A:=unit) (ReportProgress operation_id "transferring" permille
                     [("committed_bytes", PInt committed); ("total_bytes", PInt expected)]%string).
Definition upload_callback (operation_id : string) (p : dict) : W unit :=
  committed ← lift (v ← subscript p "committed"; int v);
  expected ← lift (v ← subscript p "expected"; int v);
  upload_progress operation_id committed expected.

(** A method of the hub, with the object it returns. *)
Definition hub_call (c : device_call) : W pyobj :=
  x ← ask (A:=dict * pyobj * bool) (DeviceRequest c); mret (snd (fst (x : dict * pyobj * bool))).

(** The [lambda] or inner function that a handler passes to the operation
    manager; [demo] and the health timeout are the service's. *)
Definition perform (ota_health_timeout : option pyval) (c : device_call) : W pyobj :=
  match c with
  | CallRestart device_id delay operation_id =>
    d ← closed_loop_restart (cf_demo cfg) device_id delay operation_id; mret (obj_of (PDict d))
  | CallOta device_id image metadata operation_id execution_mode validation_mode compatibility =>
    d ← closed_loop_ota (cf_demo cfg) ota_health_timeout device_id image metadata operation_id execution_mode
          validation_mode (PDict compatibility);
    mret (obj_of (PDict d))
  | CallSystemUpdate device_id bundle operation_id compatibility =>
    d ← closed_loop_system_update ota_health_timeout device_id bundle operation_id (PDict compatibility);
    mret (obj_of (PDict d))
  | CallMirrorStop device_id channel channel_name =>
    _ ← hub_call c;
    mret (obj_of (PDict [("channel", PInt channel); ("channel_name", PStr channel_name); ("state", PStr "stopped")]%string))
  | CallFileUpload _ _ _ content _ _ operation_id =>
    _ ← set_last_progress (-1);
    _ ← upload_progress operation_id 0 (zlen content);
    x ← ask_calling (A:=dict * pyobj * bool) (DeviceRequest c) (upload_callback operation_id);
    mret (snd (fst (x : dict * pyobj * bool)))
  | c => hub_call c
  end.
End application.
