(* ===== verification/OpenApi.v ===== *)
(** * The description of the HTTP interface ([openapi_contract.py])

    The document that [/v1/openapi.json] answers, and how its paths relate to
    the routes of the application. *)
From S2P Require Import Prelude Text Value Runtime Http Routes.

Definition operation_summary (summary : string) : pyval := PDict [("summary", PStr summary)]%string.

Definition control_paths : list (string * string) := [
  ("/v1/devices/{device_id}/rpc/raw", "Raw RPC");
  ("/v1/devices/{device_id}/restart", "Restart device");
  ("/v1/devices/{device_id}/factory-recovery", "Enter factory recovery");
  ("/v1/devices/{device_id}/ota", "Validated OTA");
  ("/v1/devices/{device_id}/system-update", "Authenticated system update");
  ("/v1/devices/{device_id}/input", "Pointer or touch gesture");
  ("/v1/devices/{device_id}/console", "Submit one console command line");
  ("/v1/devices/{device_id}/maintenance-leases", "Acquire local maintenance lease");
  ("/v1/devices/{device_id}/screenshot", "Capture screenshot");
  ("/v1/devices/{device_id}/mirror/start", "Start media mirror");
  ("/v1/devices/{device_id}/mirror/stop", "Stop media mirror")]%string.

(** The paths as the literal has them, before the control paths are added. *)
Definition observation_paths : dict := [
  ("/v1/health", PDict [("get", operation_summary "Gateway health")]);
  ("/v1/auth/login", PDict [("post", operation_summary "Developer password login")]);
  ("/v1/devices", PDict [("get", operation_summary "Connected and cached devices")]);
  ("/v1/maintenance-endpoints/leases", PDict [("post", operation_summary "Acquire local physical-endpoint maintenance lease")]);
  ("/v1/devices/{device_id}", PDict [("get", operation_summary "Current or cached status");
    ("delete", PDict [("summary", PStr "Remove an offline device from inventory"); ("description", PStr "Preserves operations, events, logs, and audit history.")])]);
  ("/v1/devices/{device_id}/system-inventory", PDict [("get", operation_summary "Live bootloader and partition-table inventory")]);
  ("/v1/mode", PDict [("get", operation_summary "Get global mode");
    ("put", operation_summary "Switch develop or observe mode")]);
  ("/v1/events", PDict [("get", operation_summary "Cursor-based event history")]);
  ("/v1/events/ws", PDict [("get", operation_summary "Resumable event WebSocket")]);
  ("/v1/operations", PDict [("get", operation_summary "Device operation records")]);
  ("/v1/operations/{operation_id}/reconcile", PDict [("post", operation_summary "Append a read-only observation of an uncertain operation; never replay writes")]);
  ("/v1/operations/{operation_id}/reconciliations", PDict [("get", operation_summary "Append-only reconciliation evidence; original status is unchanged")]);
  ("/v1/devices/{device_id}/files/volumes", PDict [("get", operation_summary "Registered file volumes and capabilities")]);
  ("/v1/devices/{device_id}/files/stat", PDict [("get", operation_summary "File or directory metadata")]);
  ("/v1/devices/{device_id}/files", PDict [("get", operation_summary "Paginated directory entries")]);
  ("/v1/devices/{device_id}/file", PDict [("get", operation_summary "Stream a file with HTTP Range support");
    ("put", operation_summary "Stream a create or atomic file replacement");
    ("delete", operation_summary "Delete a file or empty directory")]);
  ("/v1/devices/{device_id}/directories", PDict [("post", operation_summary "Create one directory")]);
  ("/v1/devices/{device_id}/file-rename", PDict [("post", operation_summary "Rename within one logical volume")]);
  ("/v1/firmware-artifacts", PDict [("get", operation_summary "Archived firmware bundles");
    ("post", operation_summary "Archive BIN, ELF and map as one validated bundle")]);
  ("/v1/system-audit", PDict [("get", operation_summary "Gateway system audit")]);
  ("/v1/metrics", PDict [("get", operation_summary "Gateway process metrics")]);
  ("/v1/maintenance-leases/{lease_id}", PDict [("get", operation_summary "Get maintenance lease state")]);
  ("/v1/maintenance-leases/{lease_id}/renew", PDict [("post", operation_summary "Renew local maintenance lease")]);
  ("/v1/maintenance-leases/{lease_id}/complete", PDict [("post", operation_summary "Reattach and verify maintained device")]);
  ("/v1/maintenance-leases/{lease_id}/abort", PDict [("post", operation_summary "Abort maintenance and reattach device")])]%string.

Definition compatibility_field : pyval := PDict [("type", PStr "string"); ("minLength", PInt 1); ("maxLength", PInt 64)]%string.
Definition compatibility_schema : pyval := PDict [
  ("type", PStr "object"); ("additionalProperties", PBool false);
  ("description", PStr "Explicit device expectations, checked before writes and bound to the operation ID.");
  ("properties", PDict (map (λ field, (field, compatibility_field)) ["chip_target"; "product_contract"; "board_id"; "layout_id"]
     ++ [("recovery_abi", PDict [("type", PStr "integer"); ("minimum", PInt 1); ("maximum", PInt 65535)])]))]%string.

Definition ota_body : pyval := PDict [
  ("required", PBool true);
  ("content", PDict [("application/json", PDict [("schema", PDict [
     ("type", PStr "object"); ("required", PList [PStr "artifact_id"]);
     ("properties", PDict [
        ("artifact_id", PDict [("type", PStr "string")]);
        ("compatibility", compatibility_schema);
        ("execution_mode", PDict [("type", PStr "string"); ("enum", PList [PStr "recovery"; PStr "application"]);
                                  ("default", PStr "recovery")]);
        ("validation_mode", PDict [("type", PStr "string"); ("enum", PList [PStr "elf_sha256"; PStr "version"]);
                                   ("default", PStr "elf_sha256")])])])])])]%string.
Definition system_update_body : pyval := PDict [
  ("required", PBool true);
  ("content", PDict [("application/vnd.esp-iris.system-update+zip",
     PDict [("schema", PDict [("type", PStr "string"); ("format", PStr "binary")])])])]%string.
Definition system_update_parameters : pyval := PList [PDict [
  ("in", PStr "header"); ("name", PStr "X-Iris-Compatibility"); ("required", PBool false);
  ("content", PDict [("application/json", PDict [("schema", compatibility_schema)])])]]%string.

(** [paths[path]["post"][key] = value], of a path and a method that are there. *)
Definition set_post (path key : string) (value : pyval) (paths : dict) : dict :=
  match dict_get path paths with
  | PDict methods =>
    match dict_get "post" methods with
    | PDict operation => dict_set path (PDict (dict_set "post" (PDict (dict_set key value operation)) methods)) paths
    | _ => paths
    end
  | _ => paths
  end.

Definition openapi_paths : dict :=
  let paths := fold_left (λ paths entry, dict_set (fst entry) (PDict [("post", operation_summary (snd entry))]%string) paths)
                 control_paths observation_paths in
  let paths := set_post "/v1/devices/{device_id}/ota" "requestBody" ota_body paths in
  let paths := set_post "/v1/devices/{device_id}/system-update" "requestBody" system_update_body paths in
  let paths := set_post "/v1/devices/{device_id}/system-update" "parameters" system_update_parameters paths in
  dict_set "/v1/devices/{device_id}/jobs/{job_id}"
    (PDict [("get", operation_summary "Query job"); ("delete", operation_summary "Cancel job")]%string) paths.

Definition build_openapi (auth_required : bool) : dict :=
  let document := [
    ("openapi", PStr "3.1.0");
    ("info", PDict [("title", PStr "ESP-Iris Developer Gateway"); ("version", PStr "1.0.0");
                    ("description", PStr "Gateway-only device control and observation API.")]);
    ("servers", PList [PDict [("url", PStr "/")]]);
    ("components", PDict [("securitySchemes", PDict [
       ("cookieAuth", PDict [("type", PStr "apiKey"); ("in", PStr "cookie"); ("name", PStr "esp_iris_session")]);
       ("agentToken", PDict [("type", PStr "http"); ("scheme", PStr "bearer")])])]);
    ("paths", PDict openapi_paths)]%string in
  if auth_required
  then dict_set "security" (PList [PDict [("cookieAuth", PList [])]; PDict [("agentToken", PList [])]]%string) document
  else document.

(** ** Paths and routes *)

(** A path of the document as the segments of a route. *)
Definition doc_segment (s : string) : segment :=
  match s with
  | String "{" name => Bound (bytes_str (removelast (str_encode name)))
  | _ => Fixed s
  end.
Definition doc_pattern (path : string) : list segment := map doc_segment (tl (split_on "/" path)).
Definition http_method (m : string) : string :=
  if (m =? "get")%string then "GET" else if (m =? "post")%string then "POST" else if (m =? "put")%string then "PUT" else "DELETE".
(** The documented operations: the method and the path. *)
Definition documented (auth_required : bool) : list (string * list segment) :=
  match dict_get "paths" (build_openapi auth_required) with
  | PDict paths =>
    concat (map (λ entry, match snd entry with
                          | PDict methods => map (λ m, (http_method (fst m), doc_pattern (fst entry))) methods
                          | _ => []
                          end) paths)
  | _ => []
  end.

#[export] Instance segment_eq_dec : EqDecision segment.
Proof. solve_decision. Defined.

(** The segments of a request, the parameters filled in. *)
Definition fill (params : string → string) (p : segment) : string :=
  match p with Fixed s => s | Bound name | Among name _ => params name end.
Definition bound_names (pattern : list segment) : list string :=
  omap (λ p, match p with Bound name => Some name | _ => None end) pattern.

(** *** Every documented operation is served *)

(** [find_route] looks at the method and the segments of a request. *)
Fixpoint route_for (routes : list route) (method : string) (segments : list string) : option (endpoint * list (string * string)) :=
  match routes with
  | [] => None
  | ro :: routes =>
    match (if is_nil (ro_methods ro) || existsb (String.eqb method) (ro_methods ro)
           then bind_segments (ro_pattern ro) (ro_rest ro) segments else None) with
    | Some m => Some (ro_endpoint ro, m)
    | None => route_for routes method segments
    end
  end.
Lemma find_route_for routes r : find_route routes r = route_for routes (hr_method r) (hr_segments r).
Proof. induction routes as [|ro routes IH]; [done |]. cbn [find_route route_for]. unfold accepts. by rewrite IH. Qed.

(** The request is routed to a handler of its own, with its parameters. *)
Definition served (params : string → string) (method : string) (pattern : list segment) : Prop :=
  match route_for ROUTES method (map (fill params) pattern) with
  | Some (e, m) => e ≠ ApiNotFound ∧ e ≠ Spa
                   ∧ Forall (λ name, dict_lookup name m = Some (params name)) (bound_names pattern)
  | None => False
  end.
Definition parameters : list string := ["device_id"; "operation_id"; "lease_id"; "job_id"]%string.
Lemma documented_served auth_required params : (∀ name, name ∈ parameters → params name ≠ ""%string) →
  Forall (λ op, Forall (λ name, name ∈ parameters) (bound_names (snd op)) ∧ served params (fst op) (snd op)) (documented auth_required).
Proof.
  intros Hp. unfold served.
  assert (Hd : ∀ name, name ∈ parameters → ∃ a t, params name = String a t).
  { intros name Hn. specialize (Hp name Hn). destruct (params name) as [|a t]; [done | by exists a, t]. }
  destruct (Hd "device_id"%string) as (a1 & t1 & H1); [by_decide |]. destruct (Hd "operation_id"%string) as (a2 & t2 & H2); [by_decide |].
  destruct (Hd "lease_id"%string) as (a3 & t3 & H3); [by_decide |]. destruct (Hd "job_id"%string) as (a4 & t4 & H4); [by_decide |].
  replace (documented auth_required) with (documented true) by (by destruct auth_required; vm_compute).
  let l := eval vm_compute in (documented true) in change (documented true) with l.
  repeat (apply Forall_cons; split; [split; [by_decide |]; cbn [fst snd map fill]; rewrite ?H1, ?H2, ?H3, ?H4; vm_compute;
    split_and!; [discriminate | discriminate |]; repeat (apply Forall_cons; split; [by rewrite ?H1, ?H2, ?H3, ?H4 |]); apply Forall_nil_2 |]).
  apply Forall_nil_2.
Qed.

(** C32: the interface is as it is described.  Whatever non-empty values a client
    puts into the parameters of a path, a request with the method and the path
    of an operation in the document is routed to a handler of its own, neither
    to the answer for unknown routes nor to the pages of the workbench, and the
    handler gets the parameters under the names that the document gives them. *)
Theorem openapi_served auth_required method pattern params r : (method, pattern) ∈ documented auth_required →
  (∀ name, name ∈ parameters → params name ≠ ""%string) →
  hr_method r = method → hr_segments r = map (fill params) pattern →
  ∃ e m, find_route ROUTES r = Some (e, m) ∧ e ≠ ApiNotFound ∧ e ≠ Spa
    ∧ ∀ name, name ∈ bound_names pattern → name ∈ parameters ∧ dict_lookup name m = Some (params name).
Proof.
  intros Hin Hp Hm Hs. destruct (proj1 (Forall_forall _ _) (documented_served auth_required params Hp) _ Hin) as [Hnames Hserved].
  cbn [fst snd] in *. unfold served in Hserved. rewrite find_route_for, Hm, Hs.
  destruct (route_for _ _ _) as [[e m]|]; [| done]. destruct Hserved as (H1 & H2 & H3). exists e, m. split_and!; [done.. |].
  intros name Hn. split; [by apply (proj1 (Forall_forall _ _) Hnames) | by apply (proj1 (Forall_forall _ _) H3)].
Qed.

Definition example_request : http_request :=
  HttpRequest "DELETE" ["v1"; "devices"; "ab"; "jobs"; "7"]%string [] [] [] None None false "" None false [] (Ok ""%string) [].
Lemma openapi_served_witness : ∃ e m, find_route ROUTES example_request = Some (e, m) ∧ e ≠ ApiNotFound ∧ e ≠ Spa
  ∧ dict_lookup "device_id" m = Some "ab"%string.
Proof.
  destruct (openapi_served true "DELETE" (doc_pattern "/v1/devices/{device_id}/jobs/{job_id}")
    (λ name, if (name =? "job_id")%string then "7" else "ab")%string example_request) as (e & m & H1 & H2 & H3 & H4).
  - by_decide.
  - intros name _. by destruct (_ =? _)%string.
  - reflexivity.
  - reflexivity.
  - exists e, m. split_and!; [done.. |]. apply (H4 "device_id"%string). by_decide.
Defined.

(** What is served and not described: among it the crash reports and core dumps,
    the streams and the audio channel, the structured remote calls, tokens and
    the export of the history. *)
#[export] Instance endpoint_eq_dec : EqDecision endpoint.
Proof. solve_decision. Defined.
Definition described : list endpoint :=
  omap (λ op, fst <$> route_for ROUTES (fst op) (map (fill (λ _, "x"%string)) (snd op))) (documented true).
Definition undescribed : list endpoint := filter (λ e, e ∉ described) (map ro_endpoint ROUTES).
Example undescribed_routes : undescribed =
  [AuthState; Setup; Logout; Endpoints; Alias; OperationGet; FirmwareArtifact; RpcCatalog; StructuredRpc; MediaStream;
   AudioUpload; CrashReport; CoreDump; Tokens; Tokens; RevokeToken; ChangePassword; Export; OpenApi; ApiNotFound; Spa].
Proof. vm_compute. reflexivity. Qed.
