(* ===== verification/GatewayEvents.v ===== *)
(** * Events of the gateway ([on_device_event] in [gateway.py])

    What happens on a device, and every change of an operation, passes through
    one function: it reads the lines of a log, completes and stores the event,
    and hands it to the queue of every client that watches.

    The function has no await: the hub and the operation manager call it as
    their event sink, and what it raises ends in their hands. *)
From S2P Require Import Prelude Text Value Store Observability Security Runtime Service HubEvents FileRoutes.

(** ** Lines of a log *)

Section log_lines.
Context `{Runtime}.

Definition is_space (c : bytes) : bool := existsb (λ w, bool_decide (w = c)) whitespace.
Fixpoint skip_spaces (l : list bytes) : list bytes :=
  match l with c :: rest => if is_space c then skip_spaces rest else l | [] => [] end.
(** [\s+]: all spaces, at least one. *)
Definition spaces (l : list bytes) : option (list bytes) :=
  match l with c :: rest => if is_space c then Some (skip_spaces rest) else None | [] => None end.
(** [\d+] *)
Fixpoint digit_run (l : list bytes) : list bytes * list bytes :=
  match l with
  | c :: rest => match digit_of c with Some _ => let '(ds, rest) := digit_run rest in (c :: ds, rest) | None => ([], l) end
  | [] => ([], [])
  end.
Fixpoint until (b : Z) (l : list bytes) : option (list bytes * list bytes) :=
  match l with
  | [] => None
  | c :: rest => if bool_decide (c = [b]) then Some ([], rest)
                 else option_map (λ p, (c :: fst p, snd p)) (until b rest)
  end.
(** [\s+(?P<tag>[^:]+)] on what stands before the colon: the spaces leave the
    tag a character, if only the last of them. *)
Definition tag_of (l : list bytes) : option (list bytes) :=
  match spaces l with
  | Some [] => match l with _ :: _ :: _ => option_map (λ c, [c]) (last l) | _ => None end
  | r => r
  end.
(** After the colon a space, if there is one, and the rest of the line, which may
    end in a newline. *)
Definition message_of (l : list bytes) : option (list bytes) :=
  let l := match l with c :: rest => if is_space c then rest else l | [] => [] end in
  match until 10 l with
  | None => Some l
  | Some (line, []) => Some line
  | Some (_, _ :: _) => None
  end.
Definition text_of (l : list bytes) : pyval := PStr (bytes_str (concat l)).

(** [LOG_PATTERN.match(text)] and [groupdict()] *)
Definition log_line (text : string) : option dict :=
  match utf8_chars [] (str_encode text) with
  | level :: rest =>
    if negb (existsb (λ b, bool_decide (level = [b])) [69; 87; 73; 68; 86]) then None
    else
      rest ← spaces rest;
      match rest with
      | [40] :: rest =>
        match digit_run rest with
        | ((_ :: _) as stamp, [41] :: rest) =>
          '(before, rest) ← until 58 rest;
          tag ← tag_of before;
          message ← message_of rest;
          Some [("level", text_of [level]); ("stamp", text_of stamp); ("tag", text_of tag); ("message", text_of message)]%string
        | _ => None
        end
      | _ => None
      end
  | [] => None
  end.
End log_lines.

(** ** Events and subscribers *)

Definition SUBSCRIBER_MAX : Z := 1024.
Record gateway_events := GatewayEvents {
  ge_store : GatewayStore;
  ge_metrics : MetricsRegistry;
  ge_subscribers : list nat;
  ge_queues : gmap nat (list dict);
}.
Definition gateway_queue (q : nat) (s : gateway_events) : list dict := default [] (ge_queues s !! q).

Definition count_subscribers (s : gateway_events) : gateway_events :=
  GatewayEvents (ge_store s) (gauge "events.subscribers" (float_of_int (zlen (ge_subscribers s))) (ge_metrics s))
    (ge_subscribers s) (ge_queues s).
(** [q] is the new queue. *)
Definition subscribe_events (q : nat) (s : gateway_events) : gateway_events :=
  count_subscribers (GatewayEvents (ge_store s) (ge_metrics s) (ge_subscribers s ++ [q]) (<[q := []]> (ge_queues s))).
Definition unsubscribe_events (q : nat) (s : gateway_events) : gateway_events :=
  count_subscribers (GatewayEvents (ge_store s) (ge_metrics s) (filter (λ x, x ≠ q) (ge_subscribers s)) (ge_queues s)).

(** [queue.full()], and [queue.put_nowait(item)] *)
Definition is_full (l : list dict) : bool := SUBSCRIBER_MAX <=? zlen l.
Definition put_nowait (item : dict) (l : list dict) : res (list dict) :=
  if is_full l then raise QueueFull "" else Ok (l ++ [item]).

Definition gap_event (now : Z) : dict :=
  [("kind", PStr "history_gap"); ("category", PStr "system"); ("host_receive_ns", PInt now);
   ("reason", PStr "live subscriber queue overflow")]%string.
(** What the loop does with one queue: its contents afterwards, and the error
    that ends the loop. *)
Definition deliver_one (now : Z) (item : dict) (l : list dict) : list dict * res unit :=
  let put x l := match put_nowait x l with Ok l => (l, Ok tt) | Err e => (l, Err e) end in
  if is_full l then
    match put (gap_event now) (tail l) with
    | (l, Ok _) => put item l
    | r => r
    end
  else put item l.
Fixpoint deliver (now : Z) (item : dict) (qs : list nat) (queues : gmap nat (list dict)) : gmap nat (list dict) * res unit :=
  match qs with
  | [] => (queues, Ok tt)
  | q :: qs =>
    match deliver_one now item (default [] (queues !! q)) with
    | (l, Ok _) => deliver now item qs (<[q := l]> queues)
    | (l, Err e) => (<[q := l]> queues, Err e)
    end
  end.
(** [_broadcast_system] skips a queue that is full. *)
Definition broadcast (item : dict) (s : gateway_events) : gateway_events :=
  GatewayEvents (ge_store s) (ge_metrics s) (ge_subscribers s)
    (fold_left (λ queues q, let l := default [] (queues !! q) in if is_full l then queues else <[q := l ++ [item]]> queues)
       (ge_subscribers s) (ge_queues s)).

Section on_device_event.
Context `{Runtime}.

Definition event_kind (event : dict) : string := str (get_or "kind" (PStr "device_event") event).
Definition event_category (event : dict) : string :=
  let kind := event_kind event in
  if (kind =? "log")%string then "log" else if (kind =? "operation")%string then "operation" else "device".
(** The event with the parts of its log line. *)
Definition parsed_event (event : dict) : dict :=
  if (event_kind event =? "log")%string then
    match log_line (str (get_or "text" (PStr "") event)) with
    | Some groups => dict_set "parsed" (PDict groups) event
    | None => event
    end
  else event.
(** The first connected device with the event's id is remembered. *)
Fixpoint remember_current (device_id : pyval) (devices : list dict) (now : Z) (s : GatewayStore) : GatewayStore * res unit :=
  match devices with
  | [] => (s, Ok tt)
  | current :: devices =>
    if py_eq (dict_get "device_id" current) device_id
    then remember_device container_str (dict_set "connected" (PBool true) current) now s
    else remember_current device_id devices now s
  end.

(** [devices] is [self.hub.list_devices()], [None] without a hub; [day] and
    [size] are the date of the event and the size of its log file, for
    [append_event]; a device id is text. *)
Definition on_device_event (event : dict) (devices : option (res (list dict))) (now : Z) (day : string) (size : Z)
    (s : gateway_events) : gateway_events * res unit :=
  let device_id := dict_get "device_id" event in
  let category := event_category event in
  let item := normalize_event container_str (parsed_event event) category "gateway" now in
  let '(metrics, counted) := increment ("events." ++ category) 1 (ge_metrics s) in
  let s := GatewayEvents (ge_store s) metrics (ge_subscribers s) (ge_queues s) in
  match counted with
  | Err e => (s, Err e)
  | Ok _ =>
    match (if truthy device_id then default (Ok []) devices else Ok []) with
    | Err e => (s, Err e)
    | Ok current =>
      let '(store, remembered) := remember_current device_id current now (ge_store s) in
      let s := GatewayEvents store metrics (ge_subscribers s) (ge_queues s) in
      match remembered with
      | Err e => (s, Err e)
      | Ok _ =>
        let '(store, persisted) := append_event int_other category item
              (match device_id with PStr d => Some d | _ => None end) now day size (ge_store s) in
        let s := GatewayEvents store metrics (ge_subscribers s) (ge_queues s) in
        match persisted with
        | Err e => (s, Err e)
        | Ok persisted =>
          let '(queues, delivered) := deliver now persisted (ge_subscribers s) (ge_queues s) in
          let s := GatewayEvents store metrics (ge_subscribers s) queues in
          match delivered with
          | Err e => (s, Err e)
          | Ok _ => (count_subscribers s, Ok tt)
          end
        end
      end
    end
  end.
End on_device_event.

(** ** Properties *)

(** *** Lines of the log *)

Example log_line_tests :
  let fields level stamp tag message :=
    Some [("level", PStr level); ("stamp", PStr stamp); ("tag", PStr tag); ("message", PStr message)]%string in
  let parse := log_line (H := plain_runtime) in
  parse "I (1234) wifi: connected"%string = fields "I" "1234" "wifi" "connected"
  ∧ parse "E (7)   main task:no space"%string = fields "E" "7" "main task" "no space"
  ∧ parse "W (7)  : only a space"%string = fields "W" "7" " " "only a space"
  ∧ parse "D (7) a: b: c"%string = fields "D" "7" "a" "b: c"
  ∧ parse "X (7) a: b"%string = None ∧ parse "I (x) a: b"%string = None ∧ parse "I (7) : b"%string = None
  ∧ parse "I (7) a"%string = None ∧ parse ""%string = None.
Proof. cbv zeta. split_and!; vm_compute; reflexivity. Qed.

(** *** Delivery *)

Lemma deliver_one_room now item l : is_full l = false → deliver_one now item l = (l ++ [item], Ok tt).
Proof. intros Hl. unfold deliver_one, put_nowait. by rewrite !Hl. Qed.
(** A full queue has room for the notice of the gap, and then for nothing. *)
Lemma deliver_one_full now item l : zlen l = SUBSCRIBER_MAX →
  deliver_one now item l = (tail l ++ [gap_event now], raise QueueFull "").
Proof.
  intros Hl. unfold deliver_one, put_nowait. assert (Hfull : is_full l = true) by (unfold is_full; rewrite Hl; lia).
  rewrite Hfull. destruct l as [|x l]; [done |]. cbn [tail]. rewrite zlen_cons in Hl.
  assert (Hroom : is_full l = false) by (unfold is_full; lia). rewrite Hroom.
  assert (Hagain : is_full (l ++ [gap_event now]) = true) by (unfold is_full; rewrite zlen_snoc; lia). by rewrite Hagain.
Qed.

Definition queue_in (q : nat) (queues : gmap nat (list dict)) : list dict := default [] (queues !! q).
Lemma queue_in_insert q q' l queues : queue_in q (<[q' := l]> queues) = if bool_decide (q = q') then l else queue_in q queues.
Proof. unfold queue_in. case_bool_decide; [subst; by rewrite lookup_insert_eq | by rewrite lookup_insert_ne]. Qed.

(** The queues after a delivery to [qs], each of which had room. *)
Definition delivered_to (qs : list nat) (item : dict) (queues queues' : gmap nat (list dict)) : Prop :=
  Forall (λ q, is_full (queue_in q queues) = false) qs
  ∧ ∀ q, queue_in q queues' = queue_in q queues ++ (if bool_decide (q ∈ qs) then [item] else []).
(** A delivery stopped at the first full queue. *)
Definition stopped_at (qs : list nat) (now : Z) (item : dict) (queues queues' : gmap nat (list dict)) : Prop :=
  ∃ before q after, qs = before ++ q :: after ∧ zlen (queue_in q queues) = SUBSCRIBER_MAX
    ∧ Forall (λ q, is_full (queue_in q queues) = false) before
    ∧ ∀ x, queue_in x queues' = if bool_decide (x = q) then tail (queue_in q queues) ++ [gap_event now]
                               else queue_in x queues ++ (if bool_decide (x ∈ before) then [item] else []).

Lemma room_before q before (queues queues' : gmap nat (list dict)) : q ∉ before →
  (∀ x, x ≠ q → queue_in x queues' = queue_in x queues) →
  Forall (λ x, is_full (queue_in x queues') = false) before → Forall (λ x, is_full (queue_in x queues) = false) before.
Proof.
  intros Hq Hsame Hroom. apply Forall_forall. intros x Hx. rewrite <- Hsame by (by intros ->).
  by apply (proj1 (Forall_forall _ _) Hroom).
Qed.
Lemma bool_decide_if {A} (P Q : Prop) `{!Decision P, !Decision Q} (a b : A) : (P ↔ Q) →
  (if bool_decide P then a else b) = if bool_decide Q then a else b.
Proof. intros HPQ. by rewrite (bool_decide_ext P Q HPQ). Qed.
Lemma deliver_spec now item qs : NoDup qs → ∀ queues, (∀ q, zlen (queue_in q queues) ≤ SUBSCRIBER_MAX) →
  match deliver now item qs queues with
  | (queues', Ok _) => delivered_to qs item queues queues'
  | (queues', Err e) => exn_cls e = QueueFull ∧ stopped_at qs now item queues queues'
  end.
Proof.
  induction 1 as [|q qs Hq Hnd IH]; intros queues Hb; cbn [deliver].
  { split; [constructor |]. intros q. by rewrite app_nil_r. }
  change (default [] (queues !! q)) with (queue_in q queues). destruct (is_full (queue_in q queues)) eqn:Hfull.
  - assert (Hlen : zlen (queue_in q queues) = SUBSCRIBER_MAX) by (specialize (Hb q); unfold is_full in Hfull; lia).
    rewrite deliver_one_full by done. split; [done |]. exists [], q, qs. split_and!; [done | done | constructor |].
    intros x. rewrite queue_in_insert. case_bool_decide; [done | by rewrite app_nil_r].
  - rewrite deliver_one_room by done. set (queues1 := <[q := _]> queues).
    assert (H1 : ∀ x, x ≠ q → queue_in x queues1 = queue_in x queues)
      by (intros x Hx; unfold queues1; by rewrite queue_in_insert, bool_decide_eq_false_2).
    assert (Hq1 : queue_in q queues1 = queue_in q queues ++ [item]) by (unfold queues1; by rewrite queue_in_insert, bool_decide_eq_true_2).
    assert (Hb1 : ∀ x, zlen (queue_in x queues1) ≤ SUBSCRIBER_MAX).
    { intros x. destruct (decide (x = q)) as [-> | Hx]; [| by rewrite H1]. rewrite Hq1, zlen_snoc.
      unfold is_full in Hfull. lia. }
    specialize (IH queues1). destruct (deliver now item qs queues1) as [queues' [u|e]].
    + destruct IH as [Hroom Heq]; [exact Hb1 |]. split; [constructor; [done | by apply (room_before q qs queues queues1)] |].
      intros x. rewrite Heq. destruct (decide (x = q)) as [-> | Hx].
      * rewrite Hq1, bool_decide_eq_false_2, bool_decide_eq_true_2, app_nil_r; [done | by left | done].
      * rewrite H1 by done. f_equal. apply bool_decide_if; set_solver.
    + destruct IH as (He & before & q' & after & -> & Hlen & Hroom & Heq); [exact Hb1 |]. split; [done |].
      assert (Hne : q' ≠ q) by set_solver. exists (q :: before), q', after. split_and!; [done | by rewrite <- H1 | |].
      * constructor; [done |]. apply (room_before q before queues queues1); [set_solver | done | done].
      * intros x. rewrite Heq. rewrite (H1 q') by done. destruct (decide (x = q)) as [-> | Hx].
        -- rewrite (bool_decide_eq_false_2 (q = q')), Hq1, (bool_decide_eq_false_2 (q ∈ before)), bool_decide_eq_true_2, app_nil_r;
             [done | by left | set_solver | done].
        -- case_bool_decide; [done |]. rewrite H1 by done. f_equal. apply bool_decide_if; set_solver.
Qed.

(** The queues are never longer than they may be. *)
Definition bounded (s : gateway_events) : Prop := ∀ q, zlen (gateway_queue q s) ≤ SUBSCRIBER_MAX.
(** The last row of the store is the item's. *)
Definition last_stored (item : dict) (s : gateway_events) : Prop :=
  ∃ rows row, st_events (ge_store s) = rows ++ [row] ∧ ev_event_id row = st_event_seq (ge_store s)
    ∧ dict_get "event_id" item = PInt (ev_event_id row).

Lemma append_event_stored `{Runtime} category payload d now day size s :
  match append_event int_other category payload d now day size s with
  | (s', Ok item) => ∃ rows row, st_events s' = rows ++ [row] ∧ ev_event_id row = st_event_seq s'
                     ∧ dict_get "event_id" item = PInt (ev_event_id row)
  | (s', Err _) => True
  end.
Proof.
  unfold append_event. destruct (event_ns int_other payload now) as [ns|e]; [| done].
  set (s1 := set_events _ _). set (item := dict_updated _ _). set (s2 := match d with Some _ => _ | None => s1 end).
  assert (st_events s2 = st_events s1 ∧ st_event_seq s2 = st_event_seq s1) as [-> ->].
  { unfold s2. destruct d as [d|]; [| done]. destruct (_ && _); [| done]. unfold _append_raw_log, index_log. by repeat case_match. }
  eexists _, _. split_and!; [done | done |]. unfold item, dict_updated. cbn [fold_left ev_event_id fst snd].
  unfold dict_get. by rewrite !dict_lookup_set.
Qed.

(** C27: an event of a device or an operation is stored before anyone sees it, and
    what subscribers see is decided by the queues.  If the function returns,
    every subscriber had room, its queue has the stored item at its end, with
    the number of the store's last row, and no other queue has changed.  If it
    raises, either nothing was delivered, or the event is stored and delivery
    stopped at the first subscriber whose queue was full: those before have the
    item, that one has lost its oldest item for the notice of a gap, without
    the item, those after have neither, and the caller gets [QueueFull]. *)
Theorem event_delivery `{Runtime} event devices now day size s : NoDup (ge_subscribers s) → bounded s →
  let '(s', r) := on_device_event event devices now day size s in
  match r with
  | Ok _ => ∃ item, last_stored item s' ∧ delivered_to (ge_subscribers s) item (ge_queues s) (ge_queues s')
  | Err e => ge_queues s' = ge_queues s
      ∨ exn_cls e = QueueFull ∧ ∃ item, last_stored item s' ∧ stopped_at (ge_subscribers s) now item (ge_queues s) (ge_queues s')
  end.
Proof.
  intros Hnd Hb. unfold on_device_event. set (item0 := normalize_event _ _ _ _ _).
  destruct (increment _ _ _) as [metrics [u|e]]; [| by left]. cbn [ge_store ge_subscribers ge_queues].
  destruct (if truthy _ then _ else _) as [current|e]; [| by left].
  destruct (remember_current _ _ _ _) as [store [u'|e]]; [| by left]. cbn [ge_store ge_subscribers ge_queues].
  set (d := match dict_get "device_id" event with PStr d => Some d | _ => None end).
  pose proof (append_event_stored (event_category event) item0 d now day size store) as Hst.
  destruct (append_event _ _ _ _ _ _ _ _) as [store' [item|e]]; [| by left]. cbn [ge_store ge_subscribers ge_queues].
  pose proof (deliver_spec now item (ge_subscribers s) Hnd (ge_queues s) Hb) as Hd.
  destruct (deliver _ _ _ _) as [queues [u2|e]].
  - exists item. split; [exact Hst | exact Hd].
  - right. destruct Hd as [He Hd]. split; [done |]. exists item. split; [exact Hst | exact Hd].
Qed.

(** Two subscribers, of which the second has not read for long. *)
Definition stale_item : dict := [("kind", PStr "status")]%string.
Definition example_queues (n : nat) : gateway_events :=
  GatewayEvents GatewayStore_init MetricsRegistry_init [1; 2]%nat (<[2%nat := repeat stale_item n]> ∅).
Definition link_event : dict := [("kind", PStr "connection"); ("device_id", PStr "d")]%string.
Definition example_delivery (n : nat) : gateway_events * res unit :=
  on_device_event (H := plain_runtime) link_event None 9 "" 0 (example_queues n).

Lemma example_bounded : bounded (example_queues 1024).
Proof.
  intros q. unfold gateway_queue, example_queues. cbn [ge_queues]. destruct (decide (q = 2%nat)) as [-> | Hq].
  - rewrite lookup_insert_eq. vm_compute. done.
  - by rewrite lookup_insert_ne.
Qed.
Lemma full_queue_raises : snd (example_delivery 1024) = raise QueueFull "".
Proof. vm_compute. reflexivity. Qed.
Lemma full_queue_changed : gateway_queue 2 (fst (example_delivery 1024)) ≠ gateway_queue 2 (example_queues 1024).
Proof. intros H. apply (f_equal (λ l, option_map (dict_get "kind") (last l))) in H. vm_compute in H. discriminate H. Qed.
Lemma event_delivery_witness : ∃ item, last_stored item (fst (example_delivery 1024))
  ∧ stopped_at [1; 2]%nat 9 item (ge_queues (example_queues 1024)) (ge_queues (fst (example_delivery 1024))).
Proof.
  assert (Hnd : NoDup (ge_subscribers (example_queues 1024))) by (apply (bool_decide_eq_true_1 (NoDup [1; 2]%nat)); reflexivity).
  pose proof (@event_delivery plain_runtime link_event None 9 "" 0 (example_queues 1024) Hnd example_bounded) as H.
  pose proof full_queue_raises as Hr. pose proof full_queue_changed as Hc. unfold gateway_queue in Hc. unfold example_delivery in *.
  destruct (on_device_event _ _ _ _ _ _) as [s' r]. cbn [fst snd] in *. subst r.
  destruct H as [H | [_ H]]; [by rewrite H in Hc | exact H].
Defined.
