(* ===== verification/HttpCalls.v ===== *)
(** * Which calls the handlers make

    The calls of the world by what they do to a device, and for every handler
    of the application which of them it makes.  The lemmas hold of any
    predicate [P] that holds of the calls a handler may make. *)
From S2P Require Import Prelude Text Value Sha256 OperationIdentity Effects Firmware Store Security SystemUpdate Runtime.
From S2P Require Import Workflow Calls Reconciliation Coredump SystemUpdateWorkflow Service Maintenance Address Http HttpState.
From S2P Require Import HttpDevice FileRoutes Routes.

(** [Local] calls reach no device; [Reading] ones ask it for its state,
    [FileReading] for files; [Leasing] ones detach or reattach it; [Changing]
    ones may change it. *)
Inductive call_class := Local | Reading | FileReading | Leasing | Changing.
#[export] Instance call_class_eq_dec : EqDecision call_class.
Proof. solve_decision. Defined.
Definition class_of (c : call) : call_class :=
  match c with
  | Workflow.Status _ | Workflow.CrashReport _ | ReadCoreDumpChunk _ _ _ | SystemUpdateInventory _ => Reading
  | Workflow.FileVolumes _ | Workflow.FileStat _ _ _ | Workflow.FileList _ _ _ _ _ | Workflow.FileDownload _ _ _ _ _ =>
    FileReading
  | AcquireGate _ | MaintenanceEndpoint _ | QuiesceDevice _ | QuiesceEndpoint _ | ResumeMaintenanceEndpoint _ => Leasing
  | Execute _ | Submit _ | DeviceRequest _ | EnterRecovery _ | OtaUpdate _ _ _ _ _ | UpdateSystem _ _ _
  | RestartDevice _ _ => Changing
  | _ => Local
  end.

(** ** Handlers are computations over a world *)

Section gateway_calls.
Context (P : call → Prop).

Lemma emits_zoom {A} (Q : A → Prop) (m : W A) : emits P Q m → emits P Q (zoom m).
Proof.
  intros Hm g. destruct (Hm (gw_world g)) as [(t & Ht & HP) Ha]. unfold zoom.
  destruct (m (gw_world g)) as [o w]. split; [by exists t | exact Ha].
Qed.
Lemma only_zoom {A} (m : W A) : only P m → only P (zoom m).
Proof. apply emits_zoom. Qed.
(** A computation on the gateway's own state. *)
Lemma only_state {A} (m : H A) : (∀ g, w_trace (gw_world (snd (m g))) = w_trace (gw_world g)) → only P m.
Proof. intros Hm g. split; [| done]. exists []. rewrite app_nil_r. split; [apply Hm | done]. Qed.

Lemma only_put_auth m : only P (put_auth m).
Proof. by apply only_state. Qed.
Lemma only_auth_method {A} (f : AuthManager → AuthManager * res A) : only P (auth_method f).
Proof.
  apply emits_after; [by apply only_state | intros m]. destruct (f m) as [m' r].
  apply emits_after; [by apply only_state | intros _]. by apply emits_lift.
Qed.
Lemma emits_request_actor actor : emits P (λ a, actor = Some a) (request_actor actor).
Proof. destruct actor; [by apply emits_ret | by apply emits_lift]. Qed.
Lemma only_request_actor actor : only P (request_actor actor).
Proof. eapply emits_only, emits_request_actor. Qed.
Lemma only_require_develop h : only P h → only P (require_develop h).
Proof. intros Hh. apply emits_after; [by apply only_state | intros mode]. case_match; [exact Hh | by apply emits_ret]. Qed.
Lemma only_require_local_maintenance r h : only P h → only P (require_local_maintenance r h).
Proof. intros Hh. unfold require_local_maintenance. case_match; [exact Hh | by apply emits_ret]. Qed.
End gateway_calls.

(** A handler is followed down to its calls, which are [Local] or known of. *)
#[export] Hint Resolve only_put_auth only_auth_method only_request_actor : calls.
Ltac handles :=
  onlys;
  repeat (intros; lazymatch goal with
  | |- emits _ _ (zoom _) => apply only_zoom; onlys
  | |- emits _ _ get_auth => by apply only_state
  | |- emits _ _ get_mode => by apply only_state
  | |- emits _ _ get_transition => by apply only_state
  | |- emits _ _ (set_mode _) => by apply only_state
  | |- emits _ _ (set_transition _) => by apply only_state
  | |- emits _ _ spawn_finish => by apply only_state
  | |- emits _ _ (require_develop _) => apply only_require_develop; onlys
  | |- emits _ _ (require_local_maintenance _ _) => apply only_require_local_maintenance; onlys
  end); intros.

Section local_calls.
Context `{Runtime} (P : call → Prop) (Hlocal : ∀ c, class_of c = Local → P c).
Local Ltac local_calls := handles; try (apply Hlocal; reflexivity).

Lemma only_remember item : only P (remember item).
Proof. unfold remember. local_calls. Qed.
#[local] Hint Resolve only_remember : calls.
Lemma only_remember_connected connected : ∀ cached, only P (remember_connected connected cached).
Proof.
  induction connected as [|[d item] connected IH]; intros cached; cbn [remember_connected]; [by apply emits_ret |].
  apply emits_after; [apply only_remember | intros; apply IH].
Qed.
#[local] Hint Resolve only_remember_connected : calls.
Lemma only_list_devices : only P list_devices.
Proof. unfold list_devices. local_calls. Qed.
#[local] Hint Resolve only_list_devices : calls.
Lemma only_resolve_device_id value : only P (resolve_device_id value).
Proof. unfold resolve_device_id. local_calls. Qed.
#[local] Hint Resolve only_resolve_device_id : calls.
Lemma only_audit_entry actor_type actor_name action details : only P (audit_entry actor_type actor_name action details).
Proof. unfold audit_entry. local_calls. Qed.
#[local] Hint Resolve only_audit_entry : calls.
Lemma only_broadcast audit : only P (_broadcast_system audit).
Proof. unfold _broadcast_system. local_calls. Qed.
#[local] Hint Resolve only_broadcast : calls.
Lemma only_save_setting key value : only P (save_setting key value).
Proof. unfold save_setting. local_calls. Qed.
#[local] Hint Resolve only_save_setting : calls.
Lemma only_resolve r : only P (resolve r).
Proof. apply only_zoom, only_resolve_device_id. Qed.
#[local] Hint Resolve only_resolve : calls.
Lemma only_audit actor action details : only P (audit actor action details).
Proof. unfold audit. local_calls. Qed.
#[local] Hint Resolve only_audit : calls.
Lemma only_time_ns : only P time_ns.
Proof. unfold time_ns. local_calls. Qed.
#[local] Hint Resolve only_time_ns : calls.
Lemma only_fresh : only P fresh.
Proof. unfold fresh. local_calls. Qed.
#[local] Hint Resolve only_fresh : calls.
Lemma only_fresh_bytes : only P fresh_bytes.
Proof. unfold fresh_bytes. local_calls. Qed.
#[local] Hint Resolve only_fresh_bytes : calls.
Lemma only_bearer_actor token : only P (bearer_actor token).
Proof. unfold bearer_actor. local_calls. Qed.
#[local] Hint Resolve only_bearer_actor : calls.
Lemma only_identify r : only P (identify r).
Proof. unfold identify. local_calls. Qed.
#[local] Hint Resolve only_identify : calls.
Lemma only_document name : only P (document name).
Proof. unfold document. local_calls. Qed.
#[local] Hint Resolve only_document : calls.
Lemma only_operation_id_of r : only P (operation_id_of r).
Proof. unfold operation_id_of. local_calls. Qed.
#[local] Hint Resolve only_operation_id_of : calls.
Lemma only_auth_login password : only P (auth_login password).
Proof. unfold auth_login. local_calls. Qed.
#[local] Hint Resolve only_auth_login : calls.
Lemma only_mode_state : only P mode_state.
Proof. unfold mode_state. local_calls. Qed.
#[local] Hint Resolve only_mode_state : calls.
Lemma only_switch_mode mode actor : only P (switch_mode mode actor).
Proof.
  unfold switch_mode. local_calls. Qed.
#[local] Hint Resolve only_switch_mode : calls.
Lemma only_known_artifact cfg id : only P (known_artifact cfg id).
Proof. unfold known_artifact. local_calls. Qed.
#[local] Hint Resolve only_known_artifact : calls.
Lemma only_update_lease id changes : only P (update_lease id changes).
Proof. unfold update_lease. local_calls. Qed.
#[local] Hint Resolve only_update_lease : calls.
Lemma only_authorized_lease id token : only P (_authorized_lease id token).
Proof. unfold _authorized_lease. local_calls. Qed.
#[local] Hint Resolve only_authorized_lease : calls.
Lemma only_public_lease id : only P (public_lease id).
Proof. unfold public_lease. local_calls. Qed.
#[local] Hint Resolve only_public_lease : calls.
Lemma only_renew_maintenance id token ttl : only P (renew_maintenance id token ttl).
Proof. unfold renew_maintenance. local_calls. Qed.
#[local] Hint Resolve only_renew_maintenance : calls.
Lemma only_is_configured : only P is_configured.
Proof. unfold is_configured. local_calls. Qed.
#[local] Hint Resolve only_is_configured : calls.
Lemma only_forward_round d st : only P (forward_round d st).
Proof. unfold forward_round. local_calls. Qed.
#[local] Hint Resolve only_forward_round : calls.
End local_calls.
#[export] Hint Resolve only_remember only_remember_connected only_list_devices only_resolve_device_id only_audit_entry only_broadcast only_save_setting only_resolve only_audit only_time_ns only_fresh only_fresh_bytes only_bearer_actor only_identify only_document only_operation_id_of only_auth_login only_mode_state only_switch_mode only_known_artifact only_update_lease only_authorized_lease only_public_lease only_renew_maintenance only_is_configured
  only_forward_round : calls.

(** *** Handlers whose calls are all local *)

Section local_handlers.
Context `{Runtime} (cfg : config) (realpath : string → string) (is_file exists_ : string → bool).
Context (P : call → Prop) (Hlocal : ∀ c, class_of c = Local → P c).

Definition state_endpoint (e : endpoint) : bool :=
  match e with
  | Health | Metrics | AuthState | Setup | Login | Logout | Mode | Devices | Endpoints | MaintenanceStatus
  | MaintenanceRenew | RemoveDevice | Alias | EventHistory | EventSocket | OperationList | OperationGet
  | OperationReconciliations | FirmwareArtifacts | FirmwareArtifact | Audits | RpcCatalog | MediaStream | Tokens
  | RevokeToken | ChangePassword | Export | OpenApi | ApiNotFound | Spa => true
  | _ => false
  end.

Lemma local_handler compress load_bundle e actor r : state_endpoint e = true →
  only P (handle cfg compress load_bundle realpath is_file exists_ e actor r).
Proof.
  intros He. destruct e; try discriminate He; clear He; cbn [handle];
    unfold health, metrics, auth_state, setup, login_handler, logout_handler, mode, devices, endpoints,
      maintenance_status, maintenance_renew, remove_device_handler, alias, event_history, event_socket, operation_list,
      operation_get, operation_reconciliations, firmware_artifacts_handler, save_firmware, firmware_artifact_handler,
      audits_handler, rpc_catalog, media_stream, tokens, revoke_token, change_password_handler, export, openapi,
      api_not_found, spa; handles; apply Hlocal; reflexivity.
Qed.
End local_handlers.

(** *** Handlers that read a device's state or take it away *)

Section reading_handlers.
Context `{Runtime} (P : call → Prop) (Hlocal : ∀ c, class_of c = Local → P c).
Context (Hread : ∀ c, class_of c = Reading → P c).
Local Ltac reads := handles; try first [apply Hlocal; reflexivity | apply Hread; reflexivity].

Lemma only_current_status value : only P (current_status value).
Proof. unfold current_status. reads. Qed.
Lemma only_preserve_coredump d : only P (preserve_coredump d).
Proof. unfold preserve_coredump, read_core_dump, read_chunk. reads. Qed.
#[local] Hint Resolve only_preserve_coredump : calls.
Lemma only_reconcile_operation id actor : only P (reconcile_operation id actor).
Proof.
  unfold reconcile_operation, observe_device, reconcile_status, reconcile_update, latest_device_events, observing. reads.
Qed.

(** Maintenance also detaches and reattaches. *)
Context (Hlease : ∀ c, class_of c = Leasing → P c).
Local Ltac leases := handles; try first [apply Hlocal; reflexivity | apply Hread; reflexivity | apply Hlease; reflexivity].

Lemma only_preserve_crash d evidence : only P (preserve_crash d evidence).
Proof. unfold preserve_crash. leases. Qed.
Lemma only_grant_lease key actor purpose version ttl endpoint evidence boot action details :
  only P (grant_lease key actor purpose version ttl endpoint evidence boot action details).
Proof. unfold grant_lease. leases. Qed.
#[local] Hint Resolve only_preserve_crash only_grant_lease : calls.
Lemma only_detach_and_grant {E} key (prepare : W E) quiesce grant : only P prepare → P quiesce →
  (∀ e d, only P (grant e d)) → only P (detach_and_grant key prepare quiesce grant).
Proof. intros Hp Hq Hg. unfold detach_and_grant, reopen, release_gate. leases; auto. Qed.
Lemma only_acquire_maintenance d actor purpose version ttl : only P (acquire_maintenance d actor purpose version ttl).
Proof.
  unfold acquire_maintenance. leases. intros. apply only_detach_and_grant; [unfold device_before; leases | by apply Hlease | leases].
Qed.
Lemma only_acquire_endpoint_maintenance e actor purpose version ttl :
  only P (acquire_endpoint_maintenance e actor purpose version ttl).
Proof.
  unfold acquire_endpoint_maintenance. leases.
  intros. apply only_detach_and_grant; [unfold endpoint_before_lease; leases | by apply Hlease | leases].
Qed.
Lemma only_finish_maintenance id token abort : only P (finish_maintenance id token abort).
Proof.
  unfold finish_maintenance, record_failure, reattach_and_verify, finish_abort, finish_verified, verify_round,
    observe_status, release_gate. leases.
Qed.
End reading_handlers.
