(* ===== verification/Submissions.v ===== *)
(** * What a submission is ([create_app] in [gateway.py], docs/operation-identity.md)

    The identity of every kind of operation, as the table of the documentation
    has it, and that every handler submits under the identity of the call it
    submits, for the actor of its request and within its scopes. *)
From S2P Require Import Prelude Text Value Sha256 OperationIdentity Effects Firmware Compatibility Store Security SystemUpdate.
From S2P Require Import Runtime Workflow Calls SystemUpdateWorkflow Service Http HttpState HttpDevice FileRoutes Routes HttpCalls.

(** The device a call is for, the operation it belongs to, the scope it needs. *)
Definition call_device (c : device_call) : string :=
  match c with
  | CallRpc d _ _ _ _ | CallJob d _ _ | CallRestart d _ _ | CallEnterRecovery d | CallScreenshot d _
  | CallMirrorStart d _ _ _ | CallMirrorStop d _ _ | CallInput d _ | CallAudio d _ _ | CallOta d _ _ _ _ _ _
  | CallSystemUpdate d _ _ _ | CallFileUpload d _ _ _ _ _ _ | CallFileMkdir d _ _ | CallFileDelete d _ _
  | CallFileRename d _ _ _ => d
  end.
Definition call_operation (c : device_call) : option string :=
  match c with
  | CallRestart _ _ id | CallOta _ _ _ id _ _ _ | CallSystemUpdate _ _ id _ | CallFileUpload _ _ _ _ _ _ id => Some id
  | _ => None
  end.
Definition call_scope (c : device_call) : option string :=
  match c with
  | CallFileUpload _ _ _ _ _ _ _ | CallFileMkdir _ _ _ | CallFileRename _ _ _ _ => Some "files.write"
  | CallFileDelete _ _ _ => Some "files.delete"
  | _ => None
  end%string.

(** [identified action params c]: the documentation's table.  A bundle is
    bound by its archive, an image by its metadata. *)
Section identity.
Context (load_bundle : bytes → res SystemUpdateBundle).

Inductive identified : string → dict → device_call → Prop :=
| id_raw d service_id method_id deadline payload :
    identified "rpc.raw" (rpc_params service_id method_id deadline payload) (CallRpc d service_id method_id payload deadline)
| id_structured d name service_id method_id deadline payload :
    identified ("rpc." ++ name) (structured_params name service_id method_id deadline payload)
      (CallRpc d service_id method_id payload deadline)
| id_console d command service_id method_id deadline line :
    identified "console.execute" (console_params command service_id method_id deadline line)
      (CallRpc d service_id method_id line deadline)
| id_job_query d job_id : identified "job.query" [("job_id", PInt job_id)] (CallJob d job_id false)
| id_job_cancel d job_id : identified "job.cancel" [("job_id", PInt job_id)] (CallJob d job_id true)
| id_restart d delay id : identified "device.restart" [("delay_ms", PInt delay)] (CallRestart d delay id)
| id_recovery d : identified "recovery.enter_factory" [("target", PStr "factory_recovery")] (CallEnterRecovery d)
| id_screenshot d description save :
    identified "media.screenshot" [("description", PDict description); ("save", PBool save)] (CallScreenshot d description)
| id_mirror_start d name channel fps description : dict_lookup name CHANNELS = Some channel →
    identified "media.mirror_start" [("channel", PStr name); ("fps", PInt fps); ("description", description)]
      (CallMirrorStart d channel description fps)
| id_mirror_stop d name channel fps : dict_lookup name CHANNELS = Some channel →
    identified "media.mirror_stop" [("channel", PStr name); ("fps", PInt fps); ("description", PDict [])]
      (CallMirrorStop d channel name)
| id_input d event : identified "input.gesture" [("event", PDict event)] (CallInput d event)
| id_audio d data content_type :
    identified "audio.upload"
      [("bytes", PInt (zlen data)); ("sha256", PStr (sha256_hex data)); ("content_type", PStr content_type)]
      (CallAudio d data content_type)
| id_ota d image firmware artifact_id id execution_mode validation_mode compatibility :
    inspect_firmware_image image = Ok firmware →
    identified "firmware.ota"
      [("image", PDict (firmware_as_dict firmware)); ("artifact_id", PStr artifact_id);
       ("execution_mode", PStr execution_mode); ("validation_mode", PStr validation_mode);
       ("compatibility", PDict compatibility)]
      (CallOta d image (firmware_as_dict firmware) id execution_mode validation_mode compatibility)
| id_system_update d archive bundle id compatibility : load_bundle archive = Ok bundle →
    identified "firmware.system_update"
      [("bundle", PDict (bundle_as_dict bundle)); ("archive_sha256", PStr (sha256_hex archive));
       ("compatibility", PDict compatibility)]
      (CallSystemUpdate d bundle id compatibility)
| id_upload d volume path content overwrite if_match id :
    identified "file.upload" (upload_params volume path content overwrite if_match)
      (CallFileUpload d volume path content overwrite if_match id)
| id_mkdir d volume path : identified "file.mkdir" (path_params volume path) (CallFileMkdir d volume path)
| id_delete d volume path : identified "file.delete" (path_params volume path) (CallFileDelete d volume path)
| id_rename d volume source destination :
    identified "file.rename" (rename_params volume source destination) (CallFileRename d volume source destination).

(** A submission on behalf of [actor]. *)
Record submission_ok (actor : option Actor) (s : submission) : Prop := {
  so_actor : actor = Some (sb_actor s);
  so_device : call_device (sb_call s) = sb_device_id s;
  so_identity : identified (sb_action s) (sb_params s) (sb_call s);
  so_operation : ∀ id, call_operation (sb_call s) = Some id → sb_operation_id s = Some id;
  so_scope : ∀ scope, call_scope (sb_call s) = Some scope → allows (sb_actor s) scope = true;
}.
(** The calls of a request of [actor]: submissions, reads of files within the
    scope, and what is no request of a device. *)
Definition call_ok (actor : option Actor) (c : call) : Prop :=
  match c with
  | Execute s | Submit s => submission_ok actor s
  | _ => match class_of c with
         | FileReading => ∃ a, actor = Some a ∧ allows a "files.read" = true
         | Changing => False
         | _ => True
         end
  end.
Lemma call_ok_plain actor c : class_of c = Local ∨ class_of c = Reading ∨ class_of c = Leasing → call_ok actor c.
Proof. destruct c; simpl; try done; intuition discriminate. Qed.
End identity.

Section handlers.
Context `{Runtime} (cfg : config) (compress : bytes → bytes) (load_bundle : bytes → option bytes → res SystemUpdateBundle).
Context (realpath : string → string) (is_file exists_ : string → bool).
Context (actor : option Actor) (r : http_request).
Abbreviation P := (call_ok (λ archive, load_bundle archive (cf_trust_key cfg)) actor).
Abbreviation fits := (submission_ok (λ archive, load_bundle archive (cf_trust_key cfg)) actor).

Lemma call_ok_local c : class_of c = Local → P c.
Proof. intros Hc. apply call_ok_plain. by left. Qed.
Lemma call_ok_read c : class_of c = Reading → P c.
Proof. intros Hc. apply call_ok_plain. auto. Qed.
Lemma call_ok_lease c : class_of c = Leasing → P c.
Proof. intros Hc. apply call_ok_plain. auto. Qed.
Local Ltac known := pose proof call_ok_local; pose proof call_ok_read; pose proof call_ok_lease.

Lemma only_execute s : fits s → only P (execute s).
Proof. intros Hs. by apply only_zoom, only_ask. Qed.
Lemma only_submit s : fits s → only P (submit s).
Proof. intros Hs. unfold submit. handles. exact Hs. Qed.
Lemma only_require_scope scope h : (∀ a, actor = Some a → allows a scope = true → only P (h a)) →
  only P (require_scope actor scope h).
Proof.
  intros Hh. eapply emits_bind; [apply emits_request_actor |]. intros a Ha. cbv beta in Ha.
  destruct (allows a scope) eqn:E; [by apply Hh | by apply emits_ret].
Qed.
Lemma only_operation_response key x : only P (operation_response key x).
Proof. known. unfold operation_response. handles. Qed.
Lemma only_file_response status operation key result created id :
  only P (file_response status operation key result created id).
Proof. known. unfold file_response. handles. Qed.
Lemma only_change_response status key x : only P (change_response status key x).
Proof. known. unfold change_response. handles. apply only_file_response. Qed.
Lemma only_file_query : only P (file_query r).
Proof. known. unfold file_query. handles. Qed.
#[local] Hint Resolve only_operation_response only_file_response only_change_response only_file_query : calls.

Lemma emits_archived_image artifact :
  emits P (λ p, ∃ firmware, inspect_firmware_image (fst p) = Ok firmware ∧ snd p = firmware_as_dict firmware)
    (archived_image artifact).
Proof.
  unfold archived_image. apply emits_after; [by apply emits_lift | intros path].
  apply emits_after; [apply only_zoom, only_invoke; done | intros image]. destruct image as [image|]; [| apply emits_throw].
  apply emits_lift_bind. intros firmware Hf. apply emits_after; [by apply emits_lift | intros sha].
  case_match; [apply emits_throw |]. apply emits_ret. by exists firmware.
Qed.

(** Follow a handler to its submission; the actor and what was read are known. *)
Local Ltac submits :=
  known; repeat (intros; lazymatch goal with
  | |- emits _ _ (lift _ ≫= _) => apply emits_lift_bind
  | |- emits _ _ (request_actor _ ≫= _) => eapply emits_bind; [apply emits_request_actor |]
  | |- emits _ _ (archived_image _ ≫= _) => eapply emits_bind; [apply emits_archived_image |]
  | |- emits _ _ (require_develop _) => apply only_require_develop
  | |- emits _ _ (require_scope _ _ _) => apply only_require_scope
  | |- emits _ _ (_ ≫= _) => apply emits_after
  | |- emits _ _ (execute _) => apply only_execute
  | |- emits _ _ (submit _) => apply only_submit
  | |- emits _ _ (let _ := _ in _) => cbv zeta
  | |- emits _ _ (match ?x with _ => _ end) => destruct x eqn:?
  | |- emits _ _ _ => progress handles
  end); intros; try (apply call_ok_local; reflexivity); try (apply call_ok_read; reflexivity).
Local Ltac fits_by t := split; [done | done | t | try done; by intros ? [= <-] | try done; by intros ? [= <-]].

Lemma only_raw_rpc : only P (raw_rpc actor r).
Proof. unfold raw_rpc. submits. fits_by constructor. Qed.
Lemma only_structured_rpc : only P (structured_rpc cfg actor r).
Proof. unfold structured_rpc. submits. fits_by constructor. Qed.
Lemma only_console : only P (console cfg actor r).
Proof. unfold console. submits. fits_by constructor. Qed.
Lemma only_job : only P (job actor r).
Proof. unfold job. submits. case_match; fits_by constructor. Qed.
Lemma only_restart : only P (restart actor r).
Proof. unfold restart. submits. fits_by constructor. Qed.
Lemma only_factory_recovery : only P (factory_recovery cfg actor r).
Proof. unfold factory_recovery. submits. fits_by constructor. Qed.
Lemma only_screenshot : only P (screenshot compress actor r).
Proof. unfold screenshot, saved_image. submits. fits_by constructor. Qed.
Lemma only_mirror : only P (mirror actor r).
Proof. unfold mirror. submits. destruct (mirror_start_requested r); fits_by ltac:(by constructor). Qed.
Lemma only_input_event : only P (input_event cfg actor r).
Proof. unfold input_event. submits. all: fits_by constructor. Qed.
Lemma only_audio_upload : only P (audio_upload cfg actor r).
Proof. unfold audio_upload. submits. fits_by constructor. Qed.
Lemma only_ota : only P (ota cfg actor r).
Proof.
  unfold ota. submits.
  match goal with H : ∃ _, _ |- _ => destruct H as (firmware & Hf & Hm) end. cbn [fst snd] in *. subst.
  fits_by ltac:(by constructor).
Qed.
Lemma only_system_update : only P (system_update cfg load_bundle actor r).
Proof. unfold system_update. submits. fits_by ltac:(by constructor). Qed.
Lemma only_system_inventory : only P (system_inventory actor r).
Proof. unfold system_inventory. submits. Qed.
Lemma only_crash_report : only P (crash_report cfg actor r).
Proof. unfold crash_report. submits. Qed.
Lemma only_core_dump : only P (core_dump actor r).
Proof. unfold core_dump. submits. by apply only_preserve_coredump. Qed.

(** *** Files *)

Local Ltac reads_files := submits; try (by eexists).
Lemma only_file_volumes : only P (file_volumes actor r).
Proof. unfold file_volumes. reads_files. Qed.
Lemma only_file_stat : only P (file_stat actor r).
Proof. unfold file_stat. reads_files. Qed.
Lemma only_file_list : only P (file_list actor r).
Proof. unfold file_list. reads_files. Qed.
Lemma only_file_download : only P (file_download actor r).
Proof. unfold file_download, send_file, download, download_round. reads_files. Qed.
Lemma only_file_upload : only P (file_upload actor r).
Proof. unfold file_upload. submits. fits_by constructor. Qed.
Lemma only_file_mkdir : only P (file_mkdir actor r).
Proof. unfold file_mkdir. submits. fits_by constructor. Qed.
Lemma only_file_delete : only P (file_delete actor r).
Proof. unfold file_delete. submits. fits_by constructor. Qed.
Lemma only_file_rename : only P (file_rename actor r).
Proof. unfold file_rename. submits. fits_by constructor. Qed.

(** Every handler, whatever it is given. *)
Lemma handler_calls e : only P (handle cfg compress load_bundle realpath is_file exists_ e actor r).
Proof.
  destruct (state_endpoint e) eqn:He; [apply local_handler; [exact call_ok_local | exact He] |].
  destruct e; try discriminate He; cbn [handle]; clear He.
  all: eauto using only_file_volumes, only_file_stat, only_file_list, only_file_download, only_file_upload,
    only_file_delete, only_file_mkdir, only_file_rename, only_raw_rpc, only_structured_rpc, only_console, only_job,
    only_restart, only_factory_recovery, only_screenshot, only_mirror, only_input_event, only_audio_upload, only_ota,
    only_system_inventory, only_system_update, only_crash_report, only_core_dump.
  all: unfold maintenance_acquire, maintenance_endpoint_acquire, maintenance_finish, status, operation_reconcile; known; handles.
  all: eauto using only_acquire_maintenance, only_acquire_endpoint_maintenance, only_finish_maintenance,
    only_current_status, only_reconcile_operation.
Qed.
End handlers.
