(* ===== verification/HttpProps.v ===== *)
(** * Access to devices through the application

    Who may do what: a request without credentials does nothing, one with them
    acts as its actor and within its scopes, and in the observe mode no request
    changes a device. *)
From S2P Require Import Prelude Text Value Json Effects Store Security SystemUpdate Runtime Workflow Calls Service Maintenance Address.
From S2P Require Import Http HttpState HttpDevice FileRoutes Routes HttpCalls Submissions.

(** ** Middlewares *)

Definition auth_of (g : gateway) : AuthManager := Auth (w_store (gw_world g)) (gw_sessions g).
(** Who the credentials of a request belong to. *)
Definition credential `{Runtime} (g : gateway) (r : http_request) : option Actor :=
  match snd (authenticate_bearer (bearer r) 0 (auth_of g)) with
  | Some actor => Some actor
  | None => browser_actor (auth_of g) (hr_cookie r)
  end.
(** The actor a request acts for. *)
Definition granted `{Runtime} (cfg : config) (g : gateway) (r : http_request) : option Actor :=
  if open_path r then None
  else if negb (authentication_required cfg r) then Some local_actor else credential g r.

Definition public_endpoint (e : endpoint) : bool :=
  match e with Health | AuthState | Setup | Login | ApiNotFound | Spa => true | _ => false end.
Definition endpoint_of (r : http_request) : endpoint :=
  match find_route ROUTES r with Some (e, _) => e | None => ApiNotFound end.

Lemma errors_run h g :
  snd (errors h g) = snd (h g) ∧ (∀ a, fst (h g) = Done a → errors h g = h g).
Proof.
  unfold errors, try_except. destruct (h g) as [[a|e|] g']; [by split | | by split]. split; [| done].
  destruct (catches _ e); [| done]. case_match; [done |]. by destruct (first_clause error_clauses e).
Qed.
Lemma respond_state `{Runtime} cfg compress lb realpath f x r g :
  snd (respond cfg compress lb realpath f x r g) = snd (serve cfg compress lb realpath f x r g).
Proof. unfold respond, try_except. destruct (serve _ _ _ _ _ _ r g) as [[a|e|] g']; [done | | done]. by case_match. Qed.

Section middlewares.
Context `{Runtime} (cfg : config).

(** The credentials are checked against the state, of which only the time a
    token was last used changes. *)
Lemma identify_credential r g a : fst (identify r g) = Done a → a = credential g r.
Proof.
  unfold identify, bearer_actor, credential, auth_of, mbind, Eff_bind, get_auth.
  destruct (snd (authenticate_bearer (bearer r) 0 _)) as [actor|]; [| by intros [= <-]].
  destruct (time_ns g) as [[now|e|] g1]; simpl; [| done | done]. by intros [= <-].
Qed.
Lemma identify_none r g : credential g r = None → identify r g = (Done None, g).
Proof.
  unfold identify, bearer_actor, credential, auth_of, mbind, Eff_bind, get_auth.
  destruct (snd (authenticate_bearer (bearer r) 0 _)) as [actor|]; [done |]. simpl. by intros ->.
Qed.
Lemma identify_mode r g : gw_mode (snd (identify r g)) = gw_mode g.
Proof.
  unfold identify, bearer_actor, time_ns, zoom, mbind, Eff_bind, get_auth.
  destruct (snd (authenticate_bearer (bearer r) 0 _)) as [actor|]; [| done].
  by destruct (invoke TimeNs (gw_world g)) as [[now|e|] w].
Qed.

(** What a request does, its handler does for the granted actor, in the same
    mode; without one it is refused. *)
Lemma authentication_emits (P : call → Prop) h r g :
  (∀ c, class_of c = Local → P c) →
  (∀ g', gw_mode g' = gw_mode g →
     ∃ t, trace_of (snd (h (granted cfg g r) r g')) = trace_of g' ++ t ∧ Forall (call_in P) t) →
  ∃ t, trace_of (snd (errors (authentication cfg h r) g)) = trace_of g ++ t ∧ Forall (call_in P) t.
Proof.
  intros Hlocal Hh. rewrite (proj1 (errors_run _ _)). unfold authentication, granted in *.
  destruct (open_path r); [by apply Hh |]. destruct (authentication_required cfg r); simpl in *; [| by apply Hh].
  destruct (only_identify P Hlocal r g) as [(t & Ht & HP) _]. pose proof (identify_mode r g) as Hmode.
  pose proof (identify_credential r g) as Ha. unfold mbind, Eff_bind.
  destruct (identify r g) as [[a|e|] g1]; simpl in *; [| by exists t ..].
  rewrite <- (Ha a eq_refl) in Hh. destruct a as [a|]; [| by exists t].
  destruct (Hh g1 Hmode) as (u & Hu & HP'). exists (t ++ u). rewrite Hu, Ht, app_assoc.
  split; [done | by apply Forall_app].
Qed.
End middlewares.

(** ** Public routes

    A route that is not public has a path that starts with [/v1] and with no
    public path, and answers no OPTIONS. *)

Fixpoint fixed_prefix (pattern : list segment) : string :=
  match pattern with Fixed s :: pattern => ("/" ++ s ++ fixed_prefix pattern)%string | _ => ""%string end.
Definition guarded_route (ro : route) : bool :=
  public_endpoint (ro_endpoint ro)
  || (String.prefix "/v1" (fixed_prefix (ro_pattern ro))
      && negb (existsb (String.prefix (fixed_prefix (ro_pattern ro))) PUBLIC_API)
      && negb (is_nil (ro_methods ro)) && negb (existsb (String.eqb "OPTIONS") (ro_methods ro))).
Lemma routes_guarded : forallb guarded_route ROUTES = true.
Proof. vm_compute. reflexivity. Qed.

Definition path_of (l : list string) : string := fold_right (λ seg path, "/" ++ seg ++ path)%string ""%string l.
Lemma string_app_assoc (a b c : string) : ((a ++ b) ++ c)%string = (a ++ (b ++ c))%string.
Proof.
  induction a as [|x a IH]; [done |].
  change (String x ((a ++ b) ++ c) = String x (a ++ (b ++ c)))%string. by rewrite IH.
Qed.
Lemma prefix_app (a b c : string) : String.prefix a b = true → String.prefix a (b ++ c) = true.
Proof.
  revert b. induction a as [|x a IH]; intros b Hab; [by destruct (b ++ c)%string |]. destruct b as [|y b]; [done |].
  change (String.prefix (String x a) (String y (b ++ c)) = true). simpl in *. destruct (ascii_dec x y); [by apply IH | done].
Qed.
Lemma prefix_refl (a : string) : String.prefix a a = true.
Proof. induction a as [|x a IH]; [done |]. simpl. by destruct (ascii_dec x x). Qed.

Lemma bind_prefix pattern rest l m : bind_segments pattern rest l = Some m →
  ∃ s, path_of l = (fixed_prefix pattern ++ s)%string.
Proof.
  revert l m. induction pattern as [|p pattern IH]; intros l m Hm; [by eexists |].
  destruct l as [|seg l]; [done |]. cbn [bind_segments] in Hm.
  destruct p as [f | |]; try by eexists.
  cbn [bind_segment] in Hm. destruct (String.eqb_spec f seg) as [-> |]; [| done].
  destruct (bind_segments pattern rest l) as [m'|] eqn:E; [| done].
  destruct (IH l m' E) as [s Hs]. exists s. cbn [path_of fold_right fixed_prefix]. unfold path_of in Hs. rewrite Hs.
  by rewrite !string_app_assoc.
Qed.

Lemma find_route_in routes r e m : find_route routes r = Some (e, m) →
  ∃ ro, ro ∈ routes ∧ ro_endpoint ro = e ∧ accepts ro r = Some m.
Proof.
  induction routes as [|ro routes IH]; cbn [find_route]; [done |].
  destruct (accepts ro r) as [m'|] eqn:E.
  - intros [= <- <-]. exists ro. split_and!; [by left | done | done].
  - intros Hf. destruct (IH Hf) as (ro' & Hin & He & Ha). exists ro'. split_and!; [by right | done | done].
Qed.

Lemma guarded_path r e m : find_route ROUTES r = Some (e, m) → public_endpoint e = false → open_path r = false.
Proof.
  intros (ro & Hin & <- & Ha)%find_route_in Hpub. pose proof routes_guarded as Hg.
  rewrite forallb_forall in Hg. specialize (Hg ro (proj1 (list_elem_of_In _ _) Hin)). unfold guarded_route in Hg.
  rewrite Hpub in Hg. cbn [orb] in Hg. rewrite !andb_true_iff, !negb_true_iff in Hg.
  destruct Hg as (((Hv1 & Hpublic) & Hne) & Hopt). unfold accepts in Ha. rewrite Hne in Ha. cbn [orb] in Ha.
  destruct (existsb (String.eqb (hr_method r)) (ro_methods ro)) eqn:Hm; [| done].
  destruct (bind_prefix _ _ _ _ Ha) as [s Hs]. unfold open_path. apply orb_false_intro; [apply orb_false_intro |].
  - apply String.eqb_neq. intros Heq. rewrite Heq in Hm. congruence.
  - apply not_true_iff_false. intros (p & Hin' & Hp)%existsb_exists. apply String.eqb_eq in Hp.
    apply not_true_iff_false in Hpublic. apply Hpublic, existsb_exists. exists p. split; [done |].
    rewrite <- Hp. change (hr_path r) with (path_of (hr_segments r)). rewrite Hs. apply prefix_app, prefix_refl.
  - apply negb_false_iff. change (hr_path r) with (path_of (hr_segments r)). rewrite Hs. by apply prefix_app.
Qed.

(** ** Credentials and scopes *)

Definition refused : http_response :=
  error_response 401 "authentication_required" "developer password login or agent token required" [].

Section access.
Context `{Runtime} (cfg : config) (compress : bytes → bytes) (load_bundle : bytes → option bytes → res SystemUpdateBundle).
Context (realpath : string → string) (is_file exists_ : string → bool).
Abbreviation served := (serve cfg compress load_bundle realpath is_file exists_).
Abbreviation responds := (respond cfg compress load_bundle realpath is_file exists_).

Lemma serve_route r e m : find_route ROUTES r = Some (e, m) →
  served r = errors (authentication cfg (handle cfg compress load_bundle realpath is_file exists_ e) (set_match m r)).
Proof. unfold serve. by intros ->. Qed.

Lemma serve_refused r g e m : find_route ROUTES r = Some (e, m) → public_endpoint e = false → granted cfg g r = None →
  responds r g = (Done refused, g).
Proof.
  intros Hroute Hpub Hnone. pose proof (guarded_path r e m Hroute Hpub) as Hopen. unfold respond, try_except.
  rewrite (serve_route r e m Hroute). unfold granted in Hnone. rewrite Hopen in Hnone.
  destruct (authentication_required cfg r) eqn:Hreq; [| done]. cbn [negb] in Hnone.
  assert (Ha : authentication cfg (handle cfg compress load_bundle realpath is_file exists_ e) (set_match m r) g
    = (Done refused, g)).
  { unfold authentication. change (open_path (set_match m r)) with (open_path r). rewrite Hopen.
    change (authentication_required cfg (set_match m r)) with (authentication_required cfg r). rewrite Hreq. cbn [negb].
    unfold mbind, Eff_bind. by rewrite (identify_none (set_match m r) g Hnone). }
  pose proof (proj2 (errors_run (authentication cfg (handle cfg compress load_bundle realpath is_file exists_ e)
    (set_match m r)) g) refused) as He. rewrite Ha in He. by rewrite (He eq_refl).
Qed.

(** The calls of a request without an actor, and of one with. *)
Definition allowed (actor : option Actor) (c : call) : Prop :=
  match actor with
  | None => class_of c = Local
  | Some _ => call_ok (λ archive, load_bundle archive (cf_trust_key cfg)) actor c
  end.
Lemma allowed_local actor c : class_of c = Local → allowed actor c.
Proof. destruct actor; [apply call_ok_local | done]. Qed.
Lemma allowed_handler e actor r : public_endpoint e = true ∨ actor ≠ None →
  only (allowed actor) (handle cfg compress load_bundle realpath is_file exists_ e actor r).
Proof.
  intros He. destruct actor as [a|]; [apply handler_calls |]. destruct He as [He | ]; [| done].
  apply local_handler; [done | by destruct e].
Qed.

(** C14: Nobody reaches a device beyond its credentials.  A request that shows
    none, where they are needed, gets 401 and changes nothing, unless its route
    is public; a public route reaches no device.  Any other request acts for the
    actor of its credentials: each operation it submits is in that actor's name,
    for the device and under the identity of the call it stands for, and a file
    is only read, written or deleted within the scopes granted. *)
Theorem request_access r g :
  (granted cfg g r ≠ None ∨ public_endpoint (endpoint_of r) = true ∨ responds r g = (Done refused, g))
  ∧ ∃ t, trace_of (snd (responds r g)) = trace_of g ++ t ∧ Forall (call_in (allowed (granted cfg g r))) t.
Proof.
  unfold endpoint_of. destruct (find_route ROUTES r) as [[e m]|] eqn:Hroute.
  2: { split; [by right; left |]. exists []. rewrite respond_state. unfold serve. by rewrite Hroute, app_nil_r. }
  assert (Hrun : public_endpoint e = true ∨ granted cfg g r ≠ None →
    ∃ t, trace_of (snd (responds r g)) = trace_of g ++ t ∧ Forall (call_in (allowed (granted cfg g r))) t).
  { intros He. rewrite respond_state, (serve_route r e m Hroute).
    apply authentication_emits; [intros c; apply allowed_local |]. intros g' _. by eapply (allowed_handler e _ (set_match m r)). }
  destruct (granted cfg g r) as [a|] eqn:Hgranted; [split; [by left | by apply Hrun; right] |].
  destruct (public_endpoint e) eqn:Hpub; [split; [by right; left | by apply Hrun; left] |].
  rewrite (serve_refused r g e m Hroute Hpub Hgranted). split; [by right; right |]. exists []. by rewrite app_nil_r.
Qed.

(** ** The observe mode *)

(** The handlers that check the mode first. *)
Definition develop_endpoint (e : endpoint) : bool :=
  match e with
  | FileVolumes | FileStat | FileList | FileDownload | FileUpload | FileDelete | FileMkdir | FileRename | RawRpc
  | StructuredRpc | Console | Job | Restart | FactoryRecovery | Screenshot | Mirror | InputEvent | AudioUpload | Ota
  | SystemUpdate | CrashReport | CoreDump => true
  | _ => false
  end.
(** The handlers that read a device, or take it away, in either mode. *)
Definition mode_independent (e : endpoint) : bool :=
  match e with
  | SystemInventory | OperationReconcile | MaintenanceAcquire | MaintenanceEndpointAcquire | MaintenanceFinish => true
  | _ => false
  end.

Lemma develop_handler e : develop_endpoint e = true → ∀ actor r, ∃ h,
  handle cfg compress load_bundle realpath is_file exists_ e actor r = require_develop h.
Proof. intros He actor r. destruct e; try discriminate He; by eexists. Qed.

(** The calls of a request in the observe mode. *)
Definition observed (e : endpoint) (c : call) : Prop :=
  match class_of c with
  | Local => True
  | Reading | Leasing => mode_independent e = true
  | FileReading | Changing => False
  end.
Lemma observed_local e c : class_of c = Local → observed e c.
Proof. unfold observed. by intros ->. Qed.

(** A computation that runs in a mode, and stays in it. *)
Definition in_mode (md : string) (P : call → Prop) {A} (m : H A) : Prop := ∀ g, gw_mode g = md →
  (∃ t, trace_of (snd (m g)) = trace_of g ++ t ∧ Forall (call_in P) t) ∧ gw_mode (snd (m g)) = md.
Lemma in_mode_zoom md P {A} (m : W A) : only P m → in_mode md P (zoom m).
Proof.
  intros Hm g Hg. destruct (only_zoom P m Hm g) as [Ht _]. split; [exact Ht |].
  unfold zoom. by destruct (m (gw_world g)).
Qed.
Lemma in_mode_lift md P {A} (x : res A) : in_mode md P (lift x).
Proof. intros g Hg. unfold lift. destruct x; (split; [exists []; by rewrite app_nil_r | done]). Qed.
Lemma in_mode_bind md P {A B} (m : H A) (f : A → H B) : in_mode md P m → (∀ a, in_mode md P (f a)) → in_mode md P (m ≫= f).
Proof.
  intros Hm Hf g Hg. destruct (Hm g Hg) as [(t & Ht & HP) Hg1]. unfold mbind, Eff_bind.
  destruct (m g) as [[a|e|] g1]; cbn [fst snd] in *; [| split; [by exists t | done] ..].
  destruct (Hf a g1 Hg1) as [(u & Hu & HP') Hg2]. split; [| done]. exists (t ++ u).
  rewrite Hu, Ht, app_assoc. split; [done | by apply Forall_app].
Qed.
Lemma in_mode_get md P {A} (f : string → H A) : in_mode md P (f md) → in_mode md P (get_mode ≫= f).
Proof. intros Hf g Hg. specialize (Hf g Hg). unfold mbind, Eff_bind, get_mode. by rewrite Hg. Qed.

Lemma observed_status actor r : in_mode "observe" (observed Status) (status actor r).
Proof.
  unfold status, current_status. apply in_mode_bind; [| intros d; by apply (in_mode_lift _ _ (Ok _))].
  apply in_mode_bind; [apply in_mode_zoom, only_resolve_device_id, observed_local | intros d].
  apply in_mode_get. cbn [String.eqb Ascii.eqb Bool.eqb]. apply in_mode_bind; [apply in_mode_zoom; onlys | intros s].
  apply in_mode_bind; [apply in_mode_lift | intros cached]. case_match; [apply in_mode_lift |].
  apply in_mode_bind; [apply in_mode_lift | intros saved]. by apply (in_mode_lift _ _ (Ok _)).
Qed.

Lemma observed_handler e actor r : in_mode "observe" (observed e) (handle cfg compress load_bundle realpath is_file exists_ e actor r)
  ∨ only (observed e) (handle cfg compress load_bundle realpath is_file exists_ e actor r).
Proof.
  destruct (state_endpoint e) eqn:Hstate; [right; apply local_handler; [apply observed_local | done] |].
  destruct (develop_endpoint e) eqn:Hdev.
  - left. destruct (develop_handler e Hdev actor r) as [h ->]. apply in_mode_get. cbn. by apply (in_mode_lift _ _ (Ok _)).
  - assert (He : e = Status ∨ mode_independent e = true) by (by destruct e; auto).
    destruct He as [-> | He]; [left; apply observed_status |]. right.
    assert (Hlocal := observed_local e).
    assert (Hread : ∀ c, class_of c = Reading → observed e c) by (unfold observed; by intros c ->).
    assert (Hlease : ∀ c, class_of c = Leasing → observed e c) by (unfold observed; by intros c ->).
    destruct e; try discriminate He; cbn [handle];
      unfold maintenance_acquire, maintenance_endpoint_acquire, maintenance_finish, operation_reconcile, system_inventory;
      handles; eauto using only_acquire_maintenance, only_acquire_endpoint_maintenance, only_finish_maintenance,
        only_reconcile_operation.
Qed.

(** C24: The observe mode keeps devices as they are.  A request served in it
    submits no operation, touches no file and changes no device; it even reads
    a device only through the routes that do not look at the mode: the system
    inventory, a reconciliation, and the maintenance leases of a local client. *)
Theorem observe_mode_contacts r g : gw_mode g = "observe"%string →
  ∃ t, trace_of (snd (responds r g)) = trace_of g ++ t ∧ Forall (call_in (observed (endpoint_of r))) t.
Proof.
  intros Hmode. unfold endpoint_of. rewrite respond_state. destruct (find_route ROUTES r) as [[e m]|] eqn:Hroute.
  2: { exists []. unfold serve. by rewrite Hroute, app_nil_r. }
  rewrite (serve_route r e m Hroute). apply authentication_emits; [apply observed_local |].
  intros g' Hg'. destruct (observed_handler e (granted cfg g (set_match m r)) (set_match m r)) as [He | He].
  - apply He. congruence.
  - by apply He.
Qed.
End access.

(** ** Examples *)

Definition example_request (method : string) (segments : list string) : http_request :=
  HttpRequest method segments [] [] [] None (Some "127.0.0.1"%string) false "" None false [] (Ok ""%string) [].
Definition example_config : config :=
  Config "instance" "host" false false None [] "unknown" "" true true true None.
Definition example_gateway (mode : string) (script : list answer) : gateway :=
  Gateway (World_ script (GatewayStore_init) 0 (0, None) []) [] mode false 0.
Abbreviation example_respond := (@respond plain_runtime example_config id (λ _ _, raise ValueError "no bundle")
  id (λ _, false) (λ _, false)).
Definition example_devices : answer := list_answer [[("device_id", PStr "d"); ("endpoint", PStr "usb:d")]%string].

Definition called_in (p : call → bool) (g : gateway) : bool :=
  existsb (λ e, match e with Called c => p c | _ => false end) (w_trace (gw_world g)).
Definition is_inventory (c : call) : bool := match c with SystemUpdateInventory _ => true | _ => false end.
Definition status_of (o : outcome http_response) : Z := match o with Done r => rs_status r | _ => 0 end.

Lemma observe_mode_contacts_witness :
  let g := example_gateway "observe" [example_devices; int_answer 5; dict_answer []] in
  gw_mode g = "observe"%string
  ∧ ∃ t, trace_of (snd (example_respond (example_request "POST" ["v1"; "devices"; "d"; "restart"]%string) g)) = trace_of g ++ t
    ∧ Forall (call_in (observed Restart)) t.
Proof.
  split; [reflexivity |].
  exact (@observe_mode_contacts plain_runtime example_config id (λ _ _, raise ValueError "no bundle") id (λ _, false)
    (λ _, false) (example_request "POST" ["v1"; "devices"; "d"; "restart"]%string)
    (example_gateway "observe" [example_devices; int_answer 5; dict_answer []]) eq_refl).
Defined.

(** In the observe mode a restart is refused, but the inventory is still asked
    of the device. *)
Example inventory_in_observe_mode :
  let run method path := example_respond (example_request method (["v1"; "devices"; "d"]%string ++ path))
                           (example_gateway "observe" [example_devices; int_answer 5; dict_answer []]) in
  (status_of (fst (run "POST" ["restart"]))
   , status_of (fst (run "GET" ["system-inventory"])), called_in is_inventory (snd (run "GET" ["system-inventory"])))%string
  = (423, 200, true).
Proof. vm_compute. reflexivity. Qed.

(** A token with the scope to read files creates, over the network, one with
    the scopes to write and delete them: scopes are checked for files only. *)
Definition agent_gateway : gateway :=
  let auth := fst (create_agent_token "reader" local_actor None "id" "secret" 1 (AuthManager_init GatewayStore_init)) in
  Gateway (World_ [int_answer 5; str_answer "id2"; str_answer "secret2"; int_answer 6] (au_store auth) 0 (0, None) [])
    [] "develop" false 0.
Definition agent_request : http_request :=
  HttpRequest "POST" ["v1"; "auth"; "tokens"]%string [] []
    [("Authorization", "Bearer iris_id_secret")]%string None (Some "10.0.0.9"%string) false "application/json" None true []
    (Ok (dq "{'name': 'writer', 'scopes': ['files.write', 'files.delete']}")) [].
Example token_scopes_escalate :
  let '(o, g) := example_respond agent_request agent_gateway in
  (option_map ac_scopes (@granted plain_runtime example_config agent_gateway agent_request), status_of o,
   option_map ac_scopes (snd (authenticate_bearer (Some "iris_id2_secret2") 7 (auth_of g))))%string
  = (Some ["files.read"], 201, Some ["files.delete"; "files.write"])%string.
Proof. vm_compute. reflexivity. Qed.
