(* ===== verification/Hub.v ===== *)
(** * Endpoints, supervisors and registered sessions ([hub.py])

    The hub keeps one supervisor task for every endpoint: it opens the link,
    runs the device's session, registers the session when the device is ready,
    and tries again when the link is lost.  Maintenance takes an endpoint away
    from its supervisor and gives it back.

    A function here is what runs between two awaits.  A supervisor is a value
    that says at which await it is suspended; [step] is the event loop's
    choice of what runs next.  Links, files and the operating system are the
    environment: what they return is an argument. *)
From stdpp Require Import sorting pretty.
From S2P Require Import Prelude Text Value Enums SessionOps DeviceInfo Store Observability Runtime Effects Workflow Service HubEvents.

(** ** State *)

(** A session object: the endpoint of its link, and what the device said. *)
Record session_ref := SessionRef { se_endpoint : string; se_info : option DeviceInfo }.

Inductive phase :=
| Created                       (* the task has not started *)
| Opening                       (* in [opener()] *)
| Running                       (* in [active_session.run()] *)
| Disconnecting (device_id failure : string)  (* in [_on_event] *)
| Sleeping                      (* in [asyncio.sleep] *)
| Ended (e : exn).              (* the loop has no end: only an exception leaves it *)
#[export] Instance exn_eq_dec : EqDecision exn.
Proof. solve_decision. Defined.
#[export] Instance phase_eq_dec : EqDecision phase.
Proof. solve_decision. Defined.

Record supervisor := Supervisor {
  sv_endpoint : string;
  sv_attempt : Z;
  sv_active : option nat;
  sv_phase : phase;
  sv_cancelled : bool;
}.

(** A coroutine that waits for a cancelled supervisor. *)
Inductive waiting :=
| Quiescing (endpoint device_id : string) (session : option nat) (task : option nat)
| Removing (endpoint : string) (task : option nat).

Record hub := Hub {
  hb_devices : list (string * nat);
  hb_last_boot : gmap string Z;
  hb_tasks : gmap string nat;
  hb_locks : gset string;
  hb_states : gmap string (list (string * pyval));
  (** the pairing token of a configuration; its opener is the endpoint's *)
  hb_configs : gmap string (option string);
  hb_maintenance : gset string;
  hb_closing : bool;
  hb_mirrors : gmap (string * Z) mirror;
  hb_sessions : gmap nat session_ref;
  hb_supervisors : gmap nat supervisor;
  hb_waiting : list waiting;
  hb_next : nat;
}.
Definition hub_init : hub := Hub [] ∅ ∅ ∅ ∅ ∅ ∅ false ∅ ∅ ∅ [] 0.

Definition set_devices v h := Hub v (hb_last_boot h) (hb_tasks h) (hb_locks h) (hb_states h) (hb_configs h)
  (hb_maintenance h) (hb_closing h) (hb_mirrors h) (hb_sessions h) (hb_supervisors h) (hb_waiting h) (hb_next h).
Definition set_last_boot v h := Hub (hb_devices h) v (hb_tasks h) (hb_locks h) (hb_states h) (hb_configs h)
  (hb_maintenance h) (hb_closing h) (hb_mirrors h) (hb_sessions h) (hb_supervisors h) (hb_waiting h) (hb_next h).
Definition set_tasks v h := Hub (hb_devices h) (hb_last_boot h) v (hb_locks h) (hb_states h) (hb_configs h)
  (hb_maintenance h) (hb_closing h) (hb_mirrors h) (hb_sessions h) (hb_supervisors h) (hb_waiting h) (hb_next h).
Definition set_locks v h := Hub (hb_devices h) (hb_last_boot h) (hb_tasks h) v (hb_states h) (hb_configs h)
  (hb_maintenance h) (hb_closing h) (hb_mirrors h) (hb_sessions h) (hb_supervisors h) (hb_waiting h) (hb_next h).
Definition set_states v h := Hub (hb_devices h) (hb_last_boot h) (hb_tasks h) (hb_locks h) v (hb_configs h)
  (hb_maintenance h) (hb_closing h) (hb_mirrors h) (hb_sessions h) (hb_supervisors h) (hb_waiting h) (hb_next h).
Definition set_configs v h := Hub (hb_devices h) (hb_last_boot h) (hb_tasks h) (hb_locks h) (hb_states h) v
  (hb_maintenance h) (hb_closing h) (hb_mirrors h) (hb_sessions h) (hb_supervisors h) (hb_waiting h) (hb_next h).
Definition set_maintenance v h := Hub (hb_devices h) (hb_last_boot h) (hb_tasks h) (hb_locks h) (hb_states h)
  (hb_configs h) v (hb_closing h) (hb_mirrors h) (hb_sessions h) (hb_supervisors h) (hb_waiting h) (hb_next h).
Definition set_closing v h := Hub (hb_devices h) (hb_last_boot h) (hb_tasks h) (hb_locks h) (hb_states h)
  (hb_configs h) (hb_maintenance h) v (hb_mirrors h) (hb_sessions h) (hb_supervisors h) (hb_waiting h) (hb_next h).
Definition set_mirrors v h := Hub (hb_devices h) (hb_last_boot h) (hb_tasks h) (hb_locks h) (hb_states h)
  (hb_configs h) (hb_maintenance h) (hb_closing h) v (hb_sessions h) (hb_supervisors h) (hb_waiting h) (hb_next h).
Definition set_sessions v h := Hub (hb_devices h) (hb_last_boot h) (hb_tasks h) (hb_locks h) (hb_states h)
  (hb_configs h) (hb_maintenance h) (hb_closing h) (hb_mirrors h) v (hb_supervisors h) (hb_waiting h) (hb_next h).
Definition set_supervisors v h := Hub (hb_devices h) (hb_last_boot h) (hb_tasks h) (hb_locks h) (hb_states h)
  (hb_configs h) (hb_maintenance h) (hb_closing h) (hb_mirrors h) (hb_sessions h) v (hb_waiting h) (hb_next h).
Definition set_waiting v h := Hub (hb_devices h) (hb_last_boot h) (hb_tasks h) (hb_locks h) (hb_states h)
  (hb_configs h) (hb_maintenance h) (hb_closing h) (hb_mirrors h) (hb_sessions h) (hb_supervisors h) v (hb_next h).
Definition set_next v h := Hub (hb_devices h) (hb_last_boot h) (hb_tasks h) (hb_locks h) (hb_states h)
  (hb_configs h) (hb_maintenance h) (hb_closing h) (hb_mirrors h) (hb_sessions h) (hb_supervisors h) (hb_waiting h) v.



Definition set_state (endpoint : string) (state : dict) (h : hub) : hub :=
  set_states (<[endpoint := state]> (hb_states h)) h.
Definition session_info (h : hub) (n : nat) : option DeviceInfo := hb_sessions h !! n ≫= se_info.
Definition session_endpoint (h : hub) (n : nat) : option string := se_endpoint <$> hb_sessions h !! n.

(** ** Endpoints *)

(** The state that [setdefault] gives an endpoint. *)
Definition new_endpoint (endpoint state : string) (now : Z) : dict :=
  [("endpoint", PStr endpoint); ("state", PStr state); ("attempt", PInt 0); ("error", PNone);
   ("device_id", PNone); ("updated_monotonic_ns", PInt now)]%string.

Definition _set_endpoint_state (endpoint state : string) (attempt : Z) (error device_id : option string) (now : Z)
    (h : hub) : hub * res unit :=
  match hb_states h !! endpoint with
  | None => (h, raise KeyError endpoint)
  | Some current =>
    let current := dict_updated current [("state", PStr state); ("attempt", PInt attempt);
                     ("error", opt_str error); ("updated_monotonic_ns", PInt now)]%string in
    let current := match device_id with
                   | Some d => dict_set "device_id" (PStr d) current
                   | None => current
                   end in
    (set_state endpoint current h, Ok tt)
  end.

(** [create_task(self._supervise(...))] *)
Definition start_supervisor (endpoint : string) (h : hub) : hub :=
  set_tasks (<[endpoint := hb_next h]> (hb_tasks h))
    (set_supervisors (<[hb_next h := Supervisor endpoint 0 None Created false]> (hb_supervisors h))
      (set_next (S (hb_next h)) h)).

(** [lock] is what taking the endpoint's lock file gives. *)
Definition take_lock (endpoint : string) (lock : res unit) (h : hub) : hub * res unit :=
  if bool_decide (endpoint ∈ hb_locks h) then (h, Ok tt)
  else match lock with
       | Ok _ => (set_locks ({[endpoint]} ∪ hb_locks h) h, Ok tt)
       | Err e => (h, Err e)
       end.

Definition _add_supervisor (endpoint : string) (pairing_token : option string) (metadata : dict) (lock : res unit)
    (now : Z) (h : hub) : hub * res unit :=
  if hb_closing h then (h, raise RuntimeError "ESP-Iris Hub is closing")
  else
    let h := set_configs (<[endpoint := pairing_token]> (hb_configs h)) h in
    let state := dict_updated (default (new_endpoint endpoint "waiting" now) (hb_states h !! endpoint)) metadata in
    let h := set_state endpoint state h in
    match hb_tasks h !! endpoint with
    | Some _ => (h, Ok tt)
    | None =>
      if bool_decide (endpoint ∈ hb_maintenance h)
      then (set_state endpoint (dict_updated state
              [("state", PStr "maintenance_detached"); ("updated_monotonic_ns", PInt now)]%string) h, Ok tt)
      else
        match take_lock endpoint lock h with
        | (h, Err e) => (h, Err e)
        | (h, Ok _) =>
          let h := set_state endpoint (dict_updated state
                     [("state", PStr "waiting"); ("attempt", PInt 0); ("error", PNone);
                      ("updated_monotonic_ns", PInt now)]%string) h in
          (start_supervisor endpoint h, Ok tt)
        end
    end.

Definition add_tcp (host : string) (port : Z) (pairing_token : option string) (metadata : dict) (lock : res unit)
    (now : Z) : hub → hub * res unit :=
  _add_supervisor ("tcp:" ++ host ++ ":" ++ pretty port) pairing_token metadata lock now.

(** The endpoint of a port: its USB location, else its serial number. *)
Definition usb_endpoint (location serial_number port : string) : string :=
  if negb (location =? "")%string then "usb:location=" ++ location
  else if negb (serial_number =? "")%string then "usb:serial=" ++ serial_number
  else "usb:" ++ port.

Section hub.
Context `{Runtime}.

Definition contains (sub s : string) : bool := match String.index 0 sub s with Some _ => true | None => false end.
Definition port_mode (port : string) : string :=
  let lowered := lower port in
  if contains "recovery" lowered then "recovery"
  else if contains "normal" lowered then "normal" else "unknown".
Definition setdefault_state (key : string) (v : pyval) (state : dict) : dict :=
  match dict_lookup key state with Some _ => state | None => dict_set key v state end.

Definition add_usb (port : string) (firmware_mode : option string) (usb_serial_jtag : bool) (metadata : dict)
    (lock : res unit) (now : Z) (h : hub) : hub * res unit :=
  let endpoint := usb_endpoint (str_or_empty (dict_get "location" metadata))
                    (str_or_empty (dict_get "serial_number" metadata)) port in
  match _add_supervisor endpoint None metadata lock now h with
  | (h, Err e) => (h, Err e)
  | (h, Ok _) =>
    match hb_states h !! endpoint with
    | None => (h, raise KeyError endpoint)
    | Some state =>
      let mode := default (port_mode port) firmware_mode in
      let state := setdefault_state "firmware_mode" (PStr (if (mode =? "")%string then "unknown" else mode)) state in
      (set_state endpoint (dict_set "transport_name"
         (PStr (if usb_serial_jtag then "USB Serial/JTAG" else "USB Highspeed")) state) h, Ok tt)
    end
  end.

(** ** Taking an endpoint away *)

(** [task.cancel()]: a task that has not ended will resume with
    [CancelledError] in what it awaits. *)
Definition cancel_task (t : nat) (h : hub) : hub :=
  match hb_supervisors h !! t with
  | Some sv => set_supervisors (<[t := Supervisor (sv_endpoint sv) (sv_attempt sv) (sv_active sv) (sv_phase sv) true]>
                 (hb_supervisors h)) h
  | None => h
  end.
Definition is_ended (p : phase) : bool := match p with Ended _ => true | _ => false end.
Definition task_ended (t : nat) (h : hub) : bool :=
  match hb_supervisors h !! t with Some sv => is_ended (sv_phase sv) | None => true end.
(** Pop the supervisor of an endpoint and cancel it. *)
Definition pop_task (endpoint : string) (h : hub) : hub * option nat :=
  match hb_tasks h !! endpoint with
  | Some t => (cancel_task t (set_tasks (delete endpoint (hb_tasks h)) h), Some t)
  | None => (h, None)
  end.
(** [if task is not None: with suppress(CancelledError): await task], if the
    task has ended: what ended it is raised here, too. *)
Definition await_task (task : option nat) (h : hub) : option (res unit) :=
  match task ≫= λ t, hb_supervisors h !! t with
  | None => Some (Ok tt)
  | Some sv =>
    match sv_phase sv with
    | Ended e => Some (if catches [CancelledError] e then Ok tt else Err e)
    | _ => None
    end
  end.

(** [_remove_endpoint], up to the wait for its task, and after it. *)
Definition remove_start (endpoint : string) (discovery : option string) (h : hub) : hub :=
  match hb_states h !! endpoint with
  | None => h
  | Some state =>
    if match discovery with Some d => negb (is_str (dict_get "discovery" state) d) | None => false end then h
    else
      let '(h, task) := pop_task endpoint h in
      set_waiting (Removing endpoint task :: hb_waiting h) h
  end.
Definition remove_finish (endpoint : string) (h : hub) : hub :=
  set_maintenance (hb_maintenance h ∖ {[endpoint]})
    (set_configs (delete endpoint (hb_configs h))
      (set_states (delete endpoint (hb_states h))
        (set_locks (hb_locks h ∖ {[endpoint]}) h))).

(** A serial port of the host, as [list_ports] shows it. *)
Record port := Port {
  pt_device : string; pt_location : option string; pt_serial_number : option string;
  pt_vid : pyval; pt_pid : pyval; pt_product : option string;
}.
(** [os.path.realpath] and [list_ports.comports()] *)
Context (realpath : string → string).

Definition state_matches (identifier : string) (state : dict) : bool :=
  is_str (dict_get "endpoint" state) identifier
  || existsb (λ path, negb (path =? "")%string
                      && ((path =? identifier)%string || (realpath path =? realpath identifier)%string))
       [str_or_empty (dict_get "path" state); str_or_empty (dict_get "device_path" state)]%string.
Definition port_matches (identifier : string) (p : port) : bool :=
  (identifier =? pt_device p)%string || (realpath identifier =? realpath (pt_device p))%string.

(** The states in the order of the dictionary do not matter: two are ambiguous. *)
Definition maintenance_endpoint (identifier : string) (ports : list port) (now : Z) (h : hub) : hub * res dict :=
  match List.filter (λ kv, state_matches identifier (snd kv)) (map_to_list (hb_states h)) with
  | [(_, state)] => (h, Ok state)
  | _ :: _ => (h, raise LookupError "maintenance endpoint is ambiguous")
  | [] =>
    match List.filter (port_matches identifier) ports with
    | [] => (h, raise LookupError "maintenance endpoint was not found")
    | _ :: _ :: _ => (h, raise LookupError "maintenance endpoint is ambiguous")
    | [p] =>
      let location := default ""%string (pt_location p) in
      let serial_number := default ""%string (pt_serial_number p) in
      let endpoint := usb_endpoint location serial_number identifier in
      let state := dict_updated (default (new_endpoint endpoint "unmanaged" now) (hb_states h !! endpoint))
        [("path", PStr identifier); ("device_path", PStr (pt_device p)); ("vid", pt_vid p); ("pid", pt_pid p);
         ("serial_number", PStr serial_number); ("product", PStr (default ""%string (pt_product p)));
         ("location", PStr location); ("firmware_mode", PStr "unknown"); ("transport_name", PStr "USB Highspeed")]%string in
      (set_configs (<[endpoint := None]> (hb_configs h)) (set_state endpoint state h), Ok state)
    end
  end.

(** [quiesce_endpoint], up to the wait for the supervisor. *)
Definition quiesce_start (identifier : string) (ports : list port) (lock : res unit) (now : Z) (h : hub)
    : hub * res waiting :=
  match maintenance_endpoint identifier ports now h with
  | (h, Err e) => (h, Err e)
  | (h, Ok resolved) =>
    match subscript resolved "endpoint" with
    | Err e => (h, Err e)
    | Ok name =>
      let endpoint := str name in
      if negb (String.prefix "usb:" endpoint)
      then (h, raise RuntimeError "host maintenance is supported only for local USB devices")
      else match hb_states h !! endpoint with
      | None => (h, raise RuntimeError "device endpoint state is unavailable")
      | Some state =>
        if bool_decide (endpoint ∈ hb_maintenance h)
        then (h, raise RuntimeError "device endpoint is already reserved for maintenance")
        else
          let device_id := str_or_empty (dict_get "device_id" state) in
          let session := if (device_id =? "")%string then None else dict_lookup device_id (hb_devices h) in
          match take_lock endpoint lock h with
          | (h, Err e) => (h, Err e)
          | (h, Ok _) =>
            let '(h, task) := pop_task endpoint (set_maintenance ({[endpoint]} ∪ hb_maintenance h) h) in
            let w := Quiescing endpoint device_id session task in
            (set_waiting (w :: hb_waiting h) h, Ok w)
          end
      end
    end
  end.

Definition connection_event (connection_state device_id : string) (boot_id session_id : pyval) (endpoint : string)
    (monotonic wall : Z) : dict :=
  [("kind", PStr "connection"); ("connection_state", PStr connection_state); ("device_id", PStr device_id);
   ("boot_id", boot_id); ("session_id", session_id); ("endpoint", PStr endpoint);
   ("host_receive_monotonic_ns", PInt monotonic); ("host_receive_wall_ns", PInt wall)]%string.
Definition boot_of (info : option DeviceInfo) : pyval :=
  match info with Some i => PInt (boot_id i) | None => PNone end.
Definition session_of (info : option DeviceInfo) : pyval :=
  match info with Some i => PInt (session_id i) | None => PNone end.

(** After the wait: the device is gone.  The event that is published, if any. *)
Definition quiesce_finish (endpoint device_id : string) (session : option nat) (now wall : Z) (h : hub)
    : hub * option dict :=
  let known := negb (device_id =? "")%string in
  let h := if known then set_devices (delete_key device_id (hb_devices h)) h else h in
  let h := match hb_states h !! endpoint with
           | Some state => set_state endpoint (dict_updated state
               [("state", PStr "maintenance_detached"); ("device_id", if known then PStr device_id else PNone);
                ("error", PNone); ("updated_monotonic_ns", PInt now)]%string) h
           | None => h
           end in
  let info := session ≫= session_info h in
  (h, if known
      then Some (connection_event "maintenance_detached" device_id (boot_of info) (session_of info) endpoint now wall)
      else None).

Definition quiesce_device (device_id : string) (ports : list port) (lock : res unit) (now : Z) (h : hub)
    : hub * res waiting :=
  match dict_lookup device_id (hb_devices h) ≫= session_endpoint h with
  | None => (h, raise KeyError ("unknown ESP-Iris device: " ++ device_id))
  | Some endpoint => quiesce_start endpoint ports lock now h
  end.

(** ** Giving an endpoint back *)

Definition reserve_maintenance_endpoint (endpoint_state : dict) (lock : res unit) (now : Z) (h : hub) : hub * res unit :=
  match subscript endpoint_state "endpoint" with
  | Err e => (h, Err e)
  | Ok name =>
    let endpoint := str name in
    if negb (String.prefix "usb:" endpoint) then (h, Ok tt)
    else
      let h := set_state endpoint (dict_updated endpoint_state
                 [("state", PStr "maintenance_detached"); ("updated_monotonic_ns", PInt now)]%string)
                 (set_maintenance ({[endpoint]} ∪ hb_maintenance h) h) in
      match take_lock endpoint lock h with
      | (h, Err e) => (h, Err e)
      | (h, Ok _) => (set_configs (<[endpoint := None]> (hb_configs h)) h, Ok tt)
      end
  end.

Definition resume_maintenance_endpoint (endpoint : string) (lock : res unit) (now : Z) (h : hub) : hub * res unit :=
  if negb (bool_decide (endpoint ∈ hb_maintenance h))
  then (h, raise RuntimeError "device endpoint is not reserved for maintenance")
  else match hb_configs h !! endpoint with
  | None => (h, raise RuntimeError "device endpoint cannot be reopened")
  | Some pairing_token =>
    _add_supervisor endpoint pairing_token [] lock now (set_maintenance (hb_maintenance h ∖ {[endpoint]}) h)
  end.

(** ** Supervision *)

Definition set_supervisor (t : nat) (sv : supervisor) (h : hub) : hub :=
  set_supervisors (<[t := sv]> (hb_supervisors h)) h.
Definition at_phase (p : phase) (sv : supervisor) : supervisor :=
  Supervisor (sv_endpoint sv) (sv_attempt sv) (sv_active sv) p (sv_cancelled sv).
Definition with_active (active : option nat) (sv : supervisor) : supervisor :=
  Supervisor (sv_endpoint sv) (sv_attempt sv) active (sv_phase sv) (sv_cancelled sv).

(** The [finally] clause: an active session that is registered is not any more. *)
Definition unregister_active (sv : supervisor) (h : hub) : hub :=
  match sv_active sv with
  | Some n =>
    match session_info h n with
    | Some info => if bool_decide (dict_lookup (device_id info) (hb_devices h) = Some n)
                   then set_devices (delete_key (device_id info) (hb_devices h)) h else h
    | None => h
    end
  | None => h
  end.
Definition finalize (t : nat) (sv : supervisor) (e : exn) (now : Z) (h : hub) : hub :=
  let h := unregister_active sv h in
  let '(h, r) := _set_endpoint_state (sv_endpoint sv) "stopped" (sv_attempt sv) None None now h in
  set_supervisor t (at_phase (Ended (match r with Ok _ => e | Err e' => e' end)) sv) h.

(** One attempt begins. *)
Definition begin_attempt (t : nat) (sv : supervisor) (now : Z) (h : hub) : hub :=
  let sv := Supervisor (sv_endpoint sv) (sv_attempt sv + 1) (sv_active sv) (sv_phase sv) (sv_cancelled sv) in
  match _set_endpoint_state (sv_endpoint sv) "connecting" (sv_attempt sv) None None now h with
  | (h, Ok _) => set_supervisor t (at_phase Opening sv) h
  | (h, Err e) => finalize t sv e now h
  end.

Definition retry (t : nat) (sv : supervisor) (failure : string) (now : Z) (h : hub) : hub :=
  let sv := with_active None sv in
  match _set_endpoint_state (sv_endpoint sv) "retrying" (sv_attempt sv) (Some failure) None now h with
  | (h, Ok _) => set_supervisor t (at_phase Sleeping sv) h
  | (h, Err e) => finalize t sv e now h
  end.
Definition forget_mirrors (device_id : string) (h : hub) : hub :=
  set_mirrors (filter (λ kv, fst (fst kv) ≠ device_id) (hb_mirrors h)) h.

(** The link is lost, or was not opened: what follows the inner [try]. *)
Definition lost (t : nat) (sv : supervisor) (failure : string) (now wall : Z) (h : hub) : hub * option dict :=
  let endpoint := sv_endpoint sv in
  match hb_states h !! endpoint with
  | None => (finalize t sv (Exn KeyError endpoint 0) now h, None)
  | Some state =>
    match dict_get "device_id" state with
    | PStr d =>
      if (d =? "")%string then (retry t sv failure now h, None)
      else match dict_lookup d (hb_devices h) with
      | Some n =>
        if bool_decide (session_endpoint h n = Some endpoint)
        then (set_supervisor t (at_phase (Disconnecting d failure) sv) h,
              Some (connection_event "disconnected" d (boot_of (session_info h n)) (session_of (session_info h n))
                      endpoint now wall))
        else (retry t sv failure now (forget_mirrors d h), None)
      | None => (retry t sv failure now (forget_mirrors d h), None)
      end
    | _ => (retry t sv failure now h, None)
    end
  end.

Definition SUPERVISED_ERRORS : list exn_class := [ConnectionError; OSError; ProtocolError; RuntimeError].
Definition failed_with_error (t : nat) (sv : supervisor) (e : exn) (now wall : Z) (h : hub) : hub * option dict :=
  if catches SUPERVISED_ERRORS e then lost t sv (exn_msg e) now wall h else (finalize t sv e now h, None).

(** The opener returned a link: a session of it is created and run. *)
Definition opened (t : nat) (sv : supervisor) (now : Z) (h : hub) : hub :=
  match _set_endpoint_state (sv_endpoint sv) "handshaking" (sv_attempt sv) None None now h with
  | (h, Ok _) =>
    let n := hb_next h in
    set_supervisor t (at_phase Running (with_active (Some n) sv))
      (set_sessions (<[n := SessionRef (sv_endpoint sv) None]> (hb_sessions h)) (set_next (S n) h))
  | (h, Err e) => finalize t sv e now h
  end.

(** The event of a lost device has been published. *)
Definition disconnected (t : nat) (sv : supervisor) (d failure : string) (now : Z) (h : hub) : hub :=
  if has_key d (hb_devices h)
  then retry t sv failure now (forget_mirrors d (set_devices (delete_key d (hb_devices h)) h))
  else finalize t sv (Exn KeyError d 0) now h.

(** A supervisor resumes with the result [r] of what it awaited.  If the task was
    cancelled, that is the result after [CancelledError] was thrown into what it
    awaited: [CancelledError] again, or, when a clean-up on the way fails, the
    exception of the clean-up ([link.close()] in the [finally] of
    [DeviceSession.run], [SerialLink.read]), which is an error like any other.
    A cancellation is delivered once. *)
Definition CANCELLATION : exn := Exn CancelledError "" 0.
Definition uncancelled (sv : supervisor) : supervisor :=
  Supervisor (sv_endpoint sv) (sv_attempt sv) (sv_active sv) (sv_phase sv) false.
Definition _supervise (t : nat) (r : res unit) (now wall : Z) (h : hub) : hub * option dict :=
  match hb_supervisors h !! t with
  | None => (h, None)
  | Some sv0 =>
    let sv := uncancelled sv0 in
    match sv_phase sv, r with
    | Created, _ =>
      (* a task that is cancelled before it starts never runs *)
      if sv_cancelled sv0 then (set_supervisor t (at_phase (Ended CANCELLATION) sv) h, None)
      else (begin_attempt t sv now h, None)
    | Opening, Ok _ => (opened t sv now h, None)
    | Running, Ok _ => lost t sv "link closed" now wall h
    | (Opening | Running), Err e => failed_with_error t sv e now wall h
    | Disconnecting d failure, Ok _ => (disconnected t sv d failure now h, None)
    | Sleeping, Ok _ =>
      if sv_cancelled sv0 then (finalize t sv CANCELLATION now h, None) else (begin_attempt t sv now h, None)
    | (Disconnecting _ _ | Sleeping), Err e => (finalize t sv e now h, None)
    | Ended _, _ => (h, None)
    end
  end.

(** ** Ready devices *)

(** The first other device with the same hardware MAC. *)
Definition same_mac (n : nat) (info : DeviceInfo) (h : hub) (entry : string * nat) : bool :=
  negb (snd entry =? n)%nat
  && match session_info h (snd entry) with
     | Some other => (hardware_mac other =? hardware_mac info)%string
     | None => false
     end
  && negb (fst entry =? device_id info)%string.
Definition connection_state (previous_boot : option Z) (boot : Z) : string :=
  match previous_boot with
  | None => "connected"
  | Some previous => if previous =? boot then "reconnected" else "rebooted"
  end.

Definition attempt_of (state : dict) : Z := match dict_get "attempt" state with PInt n => n | _ => 0 end.

(** The end of [_on_ready]: no other session has the device. *)
Definition register (n : nat) (info : DeviceInfo) (link : string) (endpoint_state : dict) (now wall : Z) (h : hub)
    : hub * res dict :=
  match if (hardware_mac info =? "")%string then None else find (same_mac n info h) (hb_devices h) with
  | Some (other_id, _) =>
    (h, raise RuntimeError ("hardware MAC " ++ hardware_mac info ++ " is already associated with device " ++ other_id))
  | None =>
    let h := set_devices (dict_set (device_id info) n (hb_devices h)) h in
    let '(h, _) := _set_endpoint_state link "ready" (attempt_of endpoint_state) None (Some (device_id info)) now h in
    let state := connection_state (hb_last_boot h !! device_id info) (boot_id info) in
    (set_last_boot (<[device_id info := boot_id info]> (hb_last_boot h)) h,
     Ok (connection_event state (device_id info) (PInt (boot_id info)) (PInt (session_id info)) (endpoint info) now wall))
  end.

(** [info] is what the session has adopted; the event is published after. *)
Definition _on_ready (n : nat) (info : DeviceInfo) (now wall : Z) (h : hub) : hub * res dict :=
  match session_endpoint h n with
  | None => (h, raise AssertionError "")
  | Some link =>
    let h := set_sessions (<[n := SessionRef link (Some info)]> (hb_sessions h)) h in
    match hb_states h !! link with
    | None => (h, raise KeyError link)
    | Some endpoint_state =>
      let advertised := dict_get "advertised_device_id" endpoint_state in
      if negb (is_none advertised) && negb (is_str advertised (device_id info))
      then (h, raise RuntimeError "mDNS device_id does not match the ESP-Iris HELLO identity")
      else
        let endpoint_state := dict_set "firmware_mode" (PStr (firmware_mode info)) endpoint_state in
        let h := set_state link endpoint_state h in
        match dict_lookup (device_id info) (hb_devices h) with
        | Some m => if (m =? n)%nat then register n info link endpoint_state now wall h
                    else (h, raise RuntimeError ("device " ++ device_id info ++ " already has a physical session"))
        | None => register n info link endpoint_state now wall h
        end
    end
  end.

(** ** What clients see *)

Definition transport_name (transport : Z) : res string :=
  if transport =? Transport.USB then Ok "USB Highspeed"%string
  else if transport =? Transport.TCP then Ok "TCP"%string
  else if transport =? Transport.USB_SERIAL_JTAG then Ok "USB Serial/JTAG"%string
  else raise ValueError "not a valid Transport".
Definition device_item (h : hub) (link : option string) (info : DeviceInfo) : res dict :=
  let state := default [] (link ≫= λ e, hb_states h !! e) in
  name ← transport_name (transport info);
  Ok (dict_set "transport_name" (PStr name)
       (dict_set "firmware_mode" (get_or "firmware_mode" (PStr "unknown") state) (DeviceInfo.as_dict info))).
Fixpoint device_items (h : hub) (entries : list (string * nat)) : res (list dict) :=
  match entries with
  | [] => Ok []
  | (_, n) :: entries =>
    match session_info h n with
    | None => device_items h entries
    | Some info =>
      item ← device_item h (session_endpoint h n) info;
      items ← device_items h entries;
      Ok (item :: items)
    end
  end.
Definition list_devices (h : hub) : res (list dict) := device_items h (hb_devices h).

Definition endpoint_le (a b : string * dict) : Prop := String.le (fst a) (fst b).
#[export] Instance endpoint_le_dec : RelDecision endpoint_le := λ a b, String.le_dec _ _.
Definition list_endpoints (h : hub) : list dict := map snd (merge_sort endpoint_le (map_to_list (hb_states h))).

Definition get (device_id : string) (h : hub) : res nat :=
  match dict_lookup device_id (hb_devices h) with
  | Some n => Ok n
  | None => raise KeyError ("unknown ESP-Iris device: " ++ device_id)
  end.
(** [status], once the session has answered with [result]. *)
Definition status (n : nat) (result : dict) (h : hub) : dict :=
  let link := default ""%string (session_endpoint h n) in
  let state := default [] (hb_states h !! link) in
  dict_set "endpoint" (PStr link)
    (dict_set "firmware_mode" (get_or "firmware_mode" (PStr "unknown") state) result).

(** ** Closing *)

(** [close] first refuses new endpoints and ends discovery, then cancels the
    supervisors, and tidies up when they have ended. *)
Definition close_start (h : hub) : hub := set_closing true h.
Definition close_cancel (h : hub) : hub :=
  fold_left (λ h t, cancel_task t h) (map snd (map_to_list (hb_tasks h))) h.
Definition close_finish (h : hub) : hub :=
  set_locks ∅ (set_mirrors ∅ (set_maintenance ∅ (set_configs ∅ (set_tasks ∅ h)))).
End hub.
