(* ===== verification/HubProps.v ===== *)
(** * Properties of the hub's supervision

    Whatever the links, the devices and the order of events: a registered
    session is one that announced the device, a session is run by one
    supervisor, and an endpoint in maintenance has no supervisor of its own
    ([hub_base]).  In an orderly run, moreover, a registered session is the
    active session of a live supervisor, and an endpoint has one supervisor at
    most ([hub_ok]). *)
From S2P Require Import Prelude Text Value Enums DeviceInfo Store Runtime Hub.

(** ** Dictionaries *)

Lemma dict_get_set_ne key k (v : pyval) d : k ≠ key → dict_get key (dict_set k v d) = dict_get key d.
Proof. intros Hne. unfold dict_get. rewrite dict_lookup_set. by destruct (String.eqb_spec k key). Qed.
Lemma dict_get_updated key d e : key ∉ keys e → dict_get key (dict_updated d e) = dict_get key d.
Proof.
  unfold keys. revert d. induction e as [|[k v] e IH]; intros d Hk; [done |]. cbn in Hk.
  change (dict_updated d ((k, v) :: e)) with (dict_updated (dict_set k v d) e).
  rewrite IH by set_solver. apply dict_get_set_ne. set_solver.
Qed.
Lemma dict_lookup_delete {A} key k (d : list (string * A)) :
  dict_lookup key (delete_key k d) = if String.eqb k key then None else dict_lookup key d.
Proof.
  unfold delete_key. induction d as [|[k' v] d IH]; [cbn; by case_match |].
  destruct (String.eqb_spec k' k) as [-> | Hk].
  - rewrite filter_cons_False by (simpl; by rewrite String.eqb_refl). rewrite IH. simpl. by destruct (String.eqb k key).
  - rewrite filter_cons_True by (simpl; by apply negb_true_iff, String.eqb_neq). simpl. rewrite IH.
    destruct (String.eqb_spec k' key), (String.eqb_spec k key); congruence.
Qed.

(** ** The event loop *)

Definition awaited (w : waiting) : string := match w with Quiescing e _ _ _ | Removing e _ => e end.
Definition awaited_task (w : waiting) : option nat := match w with Quiescing _ _ _ task | Removing _ task => task end.
Definition waits_for (t : nat) (w : waiting) : Prop := awaited_task w = Some t.
Definition nobody_waits (e : string) (h : hub) : Prop := ∀ w, w ∈ hb_waiting h → awaited w ≠ e.
Definition no_removal (e : string) (h : hub) : Prop := ∀ task, Removing e task ∉ hb_waiting h.

(** The supervisor was cancelled, and [r] does not end it. *)
Definition survives (sv : supervisor) (r : res unit) : bool :=
  sv_cancelled sv && match sv_phase sv, r with
  | (Opening | Running | Disconnecting _ _), Ok _ => true
  | (Opening | Running), Err e => catches SUPERVISED_ERRORS e
  | _, _ => false
  end.

Section steps.
Context `{Runtime} (realpath : string → string) (orderly : bool).

(** What runs next.  Only endpoints found over mDNS are removed, none of them
    USB; leases restored at start-up reserve endpoints that nothing supervises
    yet; a session announces one device ([Session.adopt_info]).  In an orderly
    run, in addition, an endpoint is not added again while its removal waits, nor
    given back while its taking waits, and a cancelled supervisor ends. *)
Inductive step (h : hub) : hub → Prop :=
| SAdd e token metadata lock now :
  dict_lookup "device_id" metadata = None → (orderly = true → no_removal e h) →
  step h (fst (_add_supervisor e token metadata lock now h))
| SAnnounced e st metadata :
  hb_states h !! e = Some st → dict_lookup "device_id" metadata = None →
  step h (set_state e (dict_updated st metadata) h)
| SAddUsb port mode jtag metadata lock now :
  dict_lookup "device_id" metadata = None →
  step h (fst (add_usb port mode jtag metadata lock now h))
| SRemove e discovery : String.prefix "usb:" e = false → step h (remove_start e discovery h)
| SRemoved e task l1 l2 :
  hb_waiting h = l1 ++ Removing e task :: l2 → await_task task h = Some (Ok tt) →
  step h (remove_finish e (set_waiting (l1 ++ l2) h))
| SQuiesce identifier ports lock now :
  step h (fst (quiesce_start realpath identifier ports lock now h))
| SQuiesced e d session task now wall l1 l2 :
  hb_waiting h = l1 ++ Quiescing e d session task :: l2 → await_task task h = Some (Ok tt) →
  step h (fst (quiesce_finish e d session now wall (set_waiting (l1 ++ l2) h)))
(* the awaited task has ended with an exception, which ends the wait *)
| SWaitFails w x l1 l2 :
  hb_waiting h = l1 ++ w :: l2 → await_task (awaited_task w) h = Some (Err x) → step h (set_waiting (l1 ++ l2) h)
(* who waits is cancelled, and with it, once more, what it awaits *)
| SWaitCancelled w t : w ∈ hb_waiting h → waits_for t w → step h (cancel_task t h)
| SReserve state lock now :
  (∀ name, subscript state "endpoint" = Ok name → hb_tasks h !! str name = None) →
  step h (fst (reserve_maintenance_endpoint state lock now h))
| SResume e lock now : (orderly = true → nobody_waits e h) → step h (fst (resume_maintenance_endpoint e lock now h))
| SSupervise t r now wall :
  (orderly = true → ∀ sv, hb_supervisors h !! t = Some sv → survives sv r = false) →
  step h (fst (_supervise t r now wall h))
| SReady t sv n info now wall :
  hb_supervisors h !! t = Some sv → sv_cancelled sv = false → sv_phase sv = Running → sv_active sv = Some n →
  (∀ old, session_info h n = Some old → device_id old = device_id info) → device_id info ≠ ""%string →
  step h (fst (_on_ready n info now wall h))
| SClose : step h (close_start h)
| SCloseCancel : hb_closing h = true → step h (close_cancel h)
| SClosed : hb_closing h = true → (∀ e t, hb_tasks h !! e = Some t → await_task (Some t) h = Some (Ok tt)) →
  step h (close_finish h).

Inductive runs_to : hub → Prop :=
| reach_init : runs_to hub_init
| reach_step h h' : runs_to h → step h h' → runs_to h'.
End steps.

(** Every run of the program, and the orderly ones. *)
Abbreviation reachable realpath := (runs_to realpath false).
Abbreviation orderly_reachable realpath := (runs_to realpath true).
Lemma orderly_step `{Runtime} realpath h h' : step realpath true h h' → step realpath false h h'.
Proof. destruct 1; by econstructor; eauto. Qed.
Lemma orderly_runs `{Runtime} realpath h : orderly_reachable realpath h → reachable realpath h.
Proof. induction 1 as [|h h' _ IH Hs]; [apply reach_init | by eapply reach_step, orderly_step]. Qed.

(** ** Every run *)

Definition live (sv : supervisor) : Prop := is_ended (sv_phase sv) = false.
(** A live supervisor that was not cancelled. *)
Definition in_charge (h : hub) (t : nat) (e : string) : Prop :=
  ∃ sv, hb_supervisors h !! t = Some sv ∧ sv_endpoint sv = e ∧ live sv ∧ sv_cancelled sv = false.
Definition registered (h : hub) (d : string) (n : nat) : Prop := dict_lookup d (hb_devices h) = Some n.

(** Where a supervisor has no session. *)
Definition idle (p : phase) : bool := match p with Created | Opening | Sleeping => true | _ => false end.

Record hub_base (h : hub) : Prop := {
  bs_maintenance : ∀ e, e ∈ hb_maintenance h → hb_tasks h !! e = None;
  bs_tasks : ∀ e t, hb_tasks h !! e = Some t → ∃ sv, hb_supervisors h !! t = Some sv ∧ sv_endpoint sv = e;
  bs_waits : ∀ w t, w ∈ hb_waiting h → waits_for t w → ∃ sv, hb_supervisors h !! t = Some sv ∧ sv_endpoint sv = awaited w;
  bs_removing : ∀ e t, Removing e t ∈ hb_waiting h → String.prefix "usb:" e = false;
  bs_active : ∀ t sv n, hb_supervisors h !! t = Some sv → sv_active sv = Some n →
    session_endpoint h n = Some (sv_endpoint sv);
  bs_distinct : ∀ t1 t2 sv1 sv2 n, hb_supervisors h !! t1 = Some sv1 → hb_supervisors h !! t2 = Some sv2 →
    sv_active sv1 = Some n → sv_active sv2 = Some n → t1 = t2;
  bs_idle : ∀ t sv, hb_supervisors h !! t = Some sv → idle (sv_phase sv) = true → sv_active sv = None;
  bs_fresh : ∀ t, is_Some (hb_supervisors h !! t) ∨ is_Some (hb_sessions h !! t) → (t < hb_next h)%nat;
  bs_registered : ∀ d n, registered h d n → d ≠ ""%string ∧ ∃ info, session_info h n = Some info ∧ device_id info = d;
}.
Lemma hub_init_base : hub_base hub_init.
Proof. constructor; unfold registered; cbn; intros; try done; try set_solver; simplify_map_eq; set_solver. Qed.

(** What the invariant is about. *)
Definition same_base (h h' : hub) : Prop :=
  hb_maintenance h' = hb_maintenance h ∧ hb_tasks h' = hb_tasks h ∧ hb_supervisors h' = hb_supervisors h
  ∧ hb_waiting h' = hb_waiting h ∧ hb_sessions h' = hb_sessions h ∧ hb_devices h' = hb_devices h ∧ hb_next h' = hb_next h.
Lemma base_same h h' : hub_base h → same_base h h' → hub_base h'.
Proof.
  destruct h, h'. unfold same_base. cbn. intros [] (-> & -> & -> & -> & -> & -> & ->). by constructor.
Qed.
Lemma base_states v h : hub_base h → hub_base (set_states v h).
Proof. intros Hb. by apply (base_same h). Qed.
Lemma base_maintenance v h : hub_base h → (∀ e, e ∈ v → hb_tasks h !! e = None) → hub_base (set_maintenance v h).
Proof. intros [] Hv. by constructor. Qed.
Lemma base_devices_delete d h : hub_base h → hub_base (set_devices (delete_key d (hb_devices h)) h).
Proof.
  intros []. constructor; try done. intros k n. unfold registered. cbn. rewrite dict_lookup_delete.
  case_match; [done |]. apply bs_registered0.
Qed.
Lemma base_devices_set d n info h : hub_base h → session_info h n = Some info → device_id info = d → d ≠ ""%string →
  hub_base (set_devices (dict_set d n (hb_devices h)) h).
Proof.
  intros [] Hi Hd Hne. constructor; try done. intros k m. unfold registered. cbn. rewrite dict_lookup_set.
  destruct (String.eqb_spec d k) as [<- | Hk]; [intros [= <-]; eauto | apply bs_registered0].
Qed.
Lemma base_waiting v h : hub_base h → (∀ w, w ∈ v → w ∈ hb_waiting h) → hub_base (set_waiting v h).
Proof. intros [] Hv. constructor; try done; cbn; eauto. Qed.
Lemma base_stop_waiting l1 w l2 h : hub_base h → hb_waiting h = l1 ++ w :: l2 → hub_base (set_waiting (l1 ++ l2) h).
Proof. intros Hb Hw. apply base_waiting; [done |]. rewrite Hw. set_solver. Qed.

(** A supervisor moves on, perhaps with a new session. *)
Definition fresh_session (h : hub) (e : string) (n : nat) : Prop :=
  session_endpoint h n = Some e ∧ ∀ t sv, hb_supervisors h !! t = Some sv → sv_active sv ≠ Some n.
Lemma base_replace_supervisor t sv sv' h : hub_base h → hb_supervisors h !! t = Some sv →
  sv_endpoint sv' = sv_endpoint sv →
  (∀ n, sv_active sv' = Some n → sv_active sv = Some n ∨ fresh_session h (sv_endpoint sv) n) →
  (idle (sv_phase sv') = true → sv_active sv' = None) →
  hub_base (set_supervisor t sv' h).
Proof.
  intros Hb Hsv He Ha Hidle.
  assert (Hlook : ∀ t1 sv1, hb_supervisors (set_supervisor t sv' h) !! t1 = Some sv1 →
    ∃ sv0, hb_supervisors h !! t1 = Some sv0 ∧ sv_endpoint sv1 = sv_endpoint sv0
      ∧ (∀ n, sv_active sv1 = Some n → sv_active sv0 = Some n ∨ t1 = t ∧ fresh_session h (sv_endpoint sv0) n)
      ∧ (idle (sv_phase sv1) = true → sv_active sv1 = None)).
  { intros t1 sv1. cbn. intros [[<- <-] | [_ H1]]%lookup_insert_Some.
    - exists sv. split_and!; try done. intros n Hn. destruct (Ha n Hn); auto.
    - exists sv1. split_and!; auto. by apply (bs_idle h Hb t1). }
  assert (Hback : ∀ t1 sv0, hb_supervisors h !! t1 = Some sv0 →
    ∃ sv1, hb_supervisors (set_supervisor t sv' h) !! t1 = Some sv1 ∧ sv_endpoint sv1 = sv_endpoint sv0).
  { intros t1 sv0 H0. cbn. destruct (decide (t = t1)) as [<- | Hne].
    - rewrite lookup_insert_eq. exists sv'. split; [done |]. congruence.
    - rewrite lookup_insert_ne by done. by exists sv0. }
  constructor.
  - apply (bs_maintenance h Hb).
  - intros e t1 (sv0 & H0 & <-)%(bs_tasks h Hb). by apply Hback.
  - intros w t1 Hw Ht. destruct (bs_waits h Hb w t1 Hw Ht) as (sv0 & H0 & <-). by apply Hback.
  - apply (bs_removing h Hb).
  - intros t1 sv1 n (sv0 & H0 & -> & Ha0 & _)%Hlook Hn.
    destruct (Ha0 n Hn) as [Hn0 | [_ [Hf _]]]; [by apply (bs_active h Hb t1) | exact Hf].
  - intros t1 t2 sv1 sv2 n (sv10 & H1 & _ & Ha1 & _)%Hlook (sv20 & H2 & _ & Ha2 & _)%Hlook Hn1 Hn2.
    destruct (Ha1 n Hn1) as [? | [-> [_ Hf1]]], (Ha2 n Hn2) as [? | [-> [_ Hf2]]];
      [by eapply (bs_distinct h Hb t1 t2) | by apply Hf2 in H1 | by apply Hf1 in H2 | done].
  - intros t1 sv1 (sv0 & _ & _ & _ & Hi)%Hlook. done.
  - intros t1 Ht1. apply (bs_fresh h Hb). destruct Ht1 as [[sv1 (sv0 & H0 & _)%Hlook] | Hs]; [left; by exists sv0 | by right].
  - apply (bs_registered h Hb).
Qed.

(** [sv] is supervisor [t], but for its attempt, its phase and a cancellation. *)
Definition acts (h : hub) (t : nat) (sv : supervisor) : Prop :=
  ∃ sv0, hb_supervisors h !! t = Some sv0 ∧ sv_endpoint sv = sv_endpoint sv0
    ∧ (sv_active sv = sv_active sv0 ∨ sv_active sv = None).
Lemma acts_self h t sv : hb_supervisors h !! t = Some sv → acts h t sv.
Proof. intros Hsv. exists sv. auto. Qed.
Lemma base_moves t sv sv' h : hub_base h → acts h t sv → sv_endpoint sv' = sv_endpoint sv →
  (sv_active sv' = sv_active sv ∨ sv_active sv' = None) → (idle (sv_phase sv') = true → sv_active sv' = None) →
  hub_base (set_supervisor t sv' h).
Proof.
  intros Hb (sv0 & Hsv & He & Ha) He' Ha' Hi. apply (base_replace_supervisor t sv0); try done; [congruence |].
  intros n Hn. left. destruct Ha', Ha; congruence.
Qed.

Lemma set_endpoint_state_frame e state attempt error d now h :
  ∃ st, fst (_set_endpoint_state e state attempt error d now h) = set_states st h.
Proof.
  unfold _set_endpoint_state. destruct (hb_states h !! e); [by eexists |]. exists (hb_states h). by destruct h.
Qed.
Lemma unregister_active_frame sv h : ∃ l, unregister_active sv h = set_devices l h.
Proof.
  unfold unregister_active. assert (Hid : h = set_devices (hb_devices h) h) by (by destruct h).
  repeat (case_match; [| by eexists]). case_bool_decide; by eexists.
Qed.
Lemma base_unregister sv h : hub_base h → hub_base (unregister_active sv h).
Proof.
  intros Hb. unfold unregister_active. repeat (case_match; [| done]). case_bool_decide; [| done].
  by apply base_devices_delete.
Qed.
Lemma base_forget d h : hub_base h → hub_base (forget_mirrors d h).
Proof. intros Hb. by apply (base_same h). Qed.

Lemma base_finalize t sv e now h : hub_base h → acts h t sv → hub_base (finalize t sv e now h).
Proof.
  intros Hb Ha. unfold finalize. pose proof (base_unregister sv h Hb) as Hb1.
  destruct (unregister_active_frame sv h) as [l Hl]. rewrite Hl in *.
  destruct (set_endpoint_state_frame (sv_endpoint sv) "stopped" (sv_attempt sv) None None now (set_devices l h)) as [st Hst].
  destruct (_set_endpoint_state _ _ _ _ _ _ _) as [h2 r]. cbn [fst] in Hst. subst h2.
  apply (base_moves t sv); [by apply base_states | exact Ha | done | by left | done].
Qed.
(** The state of the endpoint is set, then the supervisor moves on or ends. *)
Ltac base_state_set :=
  match goal with |- context [_set_endpoint_state ?e ?s ?a ?er ?d ?now ?h] =>
    destruct (set_endpoint_state_frame e s a er d now h) as [st Hst];
    destruct (_set_endpoint_state e s a er d now h) as [h1 [[]|x]]; cbn [fst] in Hst; subst h1
  end.
Lemma base_begin_attempt t sv now h : hub_base h → acts h t sv → sv_active sv = None → hub_base (begin_attempt t sv now h).
Proof.
  intros Hb Ha Hn. unfold begin_attempt. cbn [sv_endpoint sv_attempt]. base_state_set.
  - apply (base_moves t sv); [by apply base_states | exact Ha | done | by left | done].
  - apply base_finalize; [by apply base_states | exact Ha].
Qed.
Lemma base_retry t sv failure now h : hub_base h → acts h t sv → hub_base (retry t sv failure now h).
Proof.
  intros Hb Ha. unfold retry. cbn [sv_endpoint sv_attempt with_active]. base_state_set.
  - apply (base_moves t sv); [by apply base_states | exact Ha | done | by right | done].
  - apply base_finalize; [by apply base_states |]. destruct Ha as (sv0 & ? & ? & _). exists sv0. auto.
Qed.
Lemma base_lost t sv failure now wall h : hub_base h → acts h t sv → hub_base (fst (lost t sv failure now wall h)).
Proof.
  intros Hb Ha. unfold lost. repeat case_match; cbn [fst];
    first [by apply base_finalize | by apply base_retry | apply base_retry; [by apply base_forget | exact Ha]
          | by apply (base_moves t sv); auto].
Qed.
Lemma base_failed t sv e now wall h : hub_base h → acts h t sv → hub_base (fst (failed_with_error t sv e now wall h)).
Proof. intros Hb Ha. unfold failed_with_error. case_match; [by apply base_lost | by apply base_finalize]. Qed.
Lemma base_disconnected t sv d failure now h : hub_base h → acts h t sv → hub_base (disconnected t sv d failure now h).
Proof.
  intros Hb Ha. unfold disconnected. case_match; [| by apply base_finalize].
  apply base_retry; [by apply base_forget, base_devices_delete | exact Ha].
Qed.

(** A new session. *)
Definition with_session (e : string) (h : hub) : hub :=
  set_sessions (<[hb_next h := SessionRef e None]> (hb_sessions h)) (set_next (S (hb_next h)) h).
Lemma new_session_other e h t sv n : hub_base h → hb_supervisors h !! t = Some sv → sv_active sv = Some n →
  hb_next h ≠ n ∧ session_info (with_session e h) n = session_info h n
  ∧ session_endpoint (with_session e h) n = session_endpoint h n.
Proof.
  intros Hb Hsv Ha. pose proof (bs_active h Hb t sv n Hsv Ha) as Hn. unfold session_endpoint, session_info in *.
  destruct (hb_sessions h !! n) as [x|] eqn:Hx; [| done].
  assert (n < hb_next h)%nat by (apply (bs_fresh h Hb); right; by exists x).
  cbn. rewrite !lookup_insert_ne by lia. rewrite Hx. split_and!; [lia | done | done].
Qed.
Lemma base_with_session e h : hub_base h → hub_base (with_session e h) ∧ fresh_session (with_session e h) e (hb_next h).
Proof.
  intros Hb. split.
  - constructor; try (by destruct Hb).
    + intros t sv n Hsv Ha. destruct (new_session_other e h t sv n Hb Hsv Ha) as (_ & _ & ->). by apply (bs_active h Hb t sv).
    + intros t Ht. cbn in *. destruct (decide (hb_next h = t)) as [-> | Hne]; [lia |].
      rewrite lookup_insert_ne in Ht by done. pose proof (bs_fresh h Hb t Ht). lia.
    + intros d n Hr. destruct (bs_registered h Hb d n Hr) as (? & info & Hi & ?). split; [done |]. exists info.
      split; [| done]. unfold session_info in *. cbn. rewrite lookup_insert_ne; [done |]. intros <-.
      destruct (hb_sessions h !! hb_next h) eqn:E; [| done].
      pose proof (bs_fresh h Hb (hb_next h) (or_intror (mk_is_Some _ _ E))). lia.
  - split; [unfold session_endpoint; cbn; by rewrite lookup_insert_eq |].
    intros t sv Hsv Ha. by destruct (new_session_other e h t sv (hb_next h) Hb Hsv Ha).
Qed.
Lemma base_opened t sv now h : hub_base h → acts h t sv → hub_base (opened t sv now h).
Proof.
  intros Hb Ha. unfold opened. base_state_set; [| apply base_finalize; [by apply base_states | exact Ha]].
  destruct (base_with_session (sv_endpoint sv) (set_states st h)) as [Hb2 Hf]; [by apply base_states |].
  destruct Ha as (sv0 & Hsv & He & _).
  apply (base_replace_supervisor t sv0); [exact Hb2 | exact Hsv | exact He | | done].
  intros n [= <-]. right. rewrite <- He. exact Hf.
Qed.

Lemma base_supervise t r now wall h : hub_base h → hub_base (fst (_supervise t r now wall h)).
Proof.
  intros Hb. unfold _supervise. destruct (hb_supervisors h !! t) as [sv|] eqn:Hsv; [| done].
  assert (Ha : acts h t (uncancelled sv)) by (exists sv; auto).
  pose proof (bs_idle h Hb t sv Hsv) as Hidle. cbn [sv_phase uncancelled].
  destruct (sv_phase sv) eqn:Hp, r; cbn [fst]; try case_match; cbn [fst]; try done;
    first [ by apply base_begin_attempt; auto | by apply base_opened | by apply base_lost | by apply base_failed
          | by apply base_disconnected | by apply base_finalize
          | by apply (base_moves t (uncancelled sv)); auto ].
Qed.
(** A session says what it is again: the same device. *)
Lemma announced_info n e info h m i : (∀ old, session_info h n = Some old → device_id old = device_id info) →
  session_info h m = Some i →
  ∃ i', session_info (set_sessions (<[n := SessionRef e (Some info)]> (hb_sessions h)) h) m = Some i' ∧ device_id i' = device_id i.
Proof.
  intros Hold Hi. unfold session_info. cbn. destruct (decide (n = m)) as [<- | Hne].
  - rewrite lookup_insert_eq. exists info. split; [done |]. symmetry. by apply Hold.
  - rewrite lookup_insert_ne by done. by exists i.
Qed.
Lemma base_announced n e info h : hub_base h → session_endpoint h n = Some e →
  (∀ old, session_info h n = Some old → device_id old = device_id info) →
  hub_base (set_sessions (<[n := SessionRef e (Some info)]> (hb_sessions h)) h).
Proof.
  intros Hb He Hold. constructor; try (by destruct Hb).
  - intros t sv m Hsv Ha. rewrite <- (bs_active h Hb t sv m Hsv Ha). unfold session_endpoint. cbn.
    destruct (decide (n = m)) as [<- | Hne]; [rewrite lookup_insert_eq; symmetry; exact He | by rewrite lookup_insert_ne].
  - intros t Ht. apply (bs_fresh h Hb). cbn in Ht. destruct (decide (n = t)) as [<- | Hne]; [| by rewrite lookup_insert_ne in Ht].
    right. unfold session_endpoint in He. destruct (hb_sessions h !! n); [by eexists | done].
  - intros d m Hr. destruct (bs_registered h Hb d m Hr) as (? & i & Hi & <-).
    destruct (announced_info n e info h m i Hold Hi) as (i' & Hi' & Hd'). split; [done |]. by exists i'.
Qed.
Lemma base_register n info e state now wall h : hub_base h → session_info h n = Some info → device_id info ≠ ""%string →
  hub_base (fst (register n info e state now wall h)).
Proof.
  intros Hb Hi Hd. unfold register. case_match; [by destruct p |].
  pose proof (base_devices_set (device_id info) n info h Hb Hi eq_refl Hd) as Hb1. set (h1 := set_devices _ h) in *.
  destruct (set_endpoint_state_frame e "ready" (attempt_of state) None (Some (device_id info)) now h1) as [st Hst].
  destruct (_set_endpoint_state _ _ _ _ _ _ _) as [h2 r]. cbn [fst] in *. subst h2.
  by apply (base_same h1).
Qed.
Lemma base_on_ready n info now wall h : hub_base h → device_id info ≠ ""%string →
  (∀ old, session_info h n = Some old → device_id old = device_id info) →
  hub_base (fst (_on_ready n info now wall h)).
Proof.
  intros Hb Hd Hold. unfold _on_ready. destruct (session_endpoint h n) as [e|] eqn:He; [| done].
  pose proof (base_announced n e info h Hb He Hold) as Hb1.
  assert (Hi : session_info (set_sessions (<[n := SessionRef e (Some info)]> (hb_sessions h)) h) n = Some info)
    by (unfold session_info; cbn; by rewrite lookup_insert_eq).
  set (h1 := set_sessions _ h) in *. destruct (hb_states h1 !! e); [| done]. case_match; [done |].
  assert (Hb2 : ∀ st, hub_base (set_state e st h1)) by (intros; by apply base_states).
  repeat case_match; try apply Hb2; by apply base_register.
Qed.

Lemma base_take_lock e lock h : hub_base h → hub_base (fst (take_lock e lock h)).
Proof. intros Hb. unfold take_lock. case_bool_decide; [done |]. destruct lock; [by apply (base_same h) | done]. Qed.
Lemma take_lock_spec e lock h h' : take_lock e lock h = (h', Ok tt) →
  e ∈ hb_locks h' ∧ ∃ l, h' = set_locks l h ∧ hb_locks h ⊆ l.
Proof.
  unfold take_lock. case_bool_decide.
  - intros [= <-]. split; [done |]. exists (hb_locks h). split; [by destruct h | done].
  - destruct lock as [[]|]; [| done]. intros [= <-]. cbn. split; [set_solver |]. eexists. split; [done | set_solver].
Qed.
Lemma next_fresh h : hub_base h → hb_supervisors h !! hb_next h = None.
Proof.
  intros Hb. destruct (hb_supervisors h !! hb_next h) eqn:E; [| done].
  pose proof (bs_fresh h Hb (hb_next h) (or_introl (mk_is_Some _ _ E))). lia.
Qed.
Lemma started_lookup e h t sv : hub_base h → hb_supervisors (start_supervisor e h) !! t = Some sv →
  t = hb_next h ∧ sv = Supervisor e 0 None Created false ∨ t ≠ hb_next h ∧ hb_supervisors h !! t = Some sv.
Proof.
  intros Hb. cbn. intros [[<- <-] | [Hne Hsv]]%lookup_insert_Some; [by left | right; by split].
Qed.
Lemma started_old e h t sv : hub_base h → hb_supervisors h !! t = Some sv → hb_supervisors (start_supervisor e h) !! t = Some sv.
Proof. intros Hb Hsv. cbn. pose proof (next_fresh h Hb). rewrite lookup_insert_ne; [done | congruence]. Qed.
Lemma base_start e h : hub_base h → e ∉ hb_maintenance h → hub_base (start_supervisor e h).
Proof.
  intros Hb Hm. constructor.
  - intros e' He'. cbn in *. rewrite lookup_insert_ne by set_solver. by apply (bs_maintenance h Hb).
  - intros e' t Ht. cbn in Ht. apply lookup_insert_Some in Ht as [[<- <-] | [_ Ht]].
    + eexists. split; [cbn; by rewrite lookup_insert_eq | done].
    + destruct (bs_tasks h Hb e' t Ht) as (sv & Hsv & He). exists sv. split; [by apply started_old | done].
  - intros w t Hw Ht. destruct (bs_waits h Hb w t Hw Ht) as (sv & Hsv & He). exists sv. split; [by apply started_old | done].
  - apply (bs_removing h Hb).
  - intros t sv n [[-> ->] | [_ H1]]%started_lookup Ha; [done | by apply (bs_active h Hb t) | done].
  - intros t1 t2 sv1 sv2 n H1%started_lookup H2%started_lookup Ha1 Ha2; [| done..].
    destruct H1 as [[-> ->] | [_ H1]], H2 as [[-> ->] | [_ H2]]; try done. by eapply (bs_distinct h Hb).
  - intros t sv [[-> ->] | [_ H1]]%started_lookup; [done | by apply (bs_idle h Hb t) | done].
  - intros t Hs. cbn in *. destruct (decide (hb_next h = t)) as [-> | Hne]; [lia |].
    rewrite lookup_insert_ne in Hs by done. pose proof (bs_fresh h Hb t Hs). lia.
  - apply (bs_registered h Hb).
Qed.
Lemma base_add e token metadata lock now h : hub_base h → hub_base (fst (_add_supervisor e token metadata lock now h)).
Proof.
  intros Hb. unfold _add_supervisor. destruct (hb_closing h); [done |].
  set (st := dict_updated _ metadata). set (h0 := set_state e st _).
  assert (Hb0 : hub_base h0) by (by apply (base_same h)).
  destruct (hb_tasks h0 !! e); [done |]. case_bool_decide as Hm; [by apply base_states |].
  pose proof (base_take_lock e lock h0 Hb0) as Hb1.
  destruct (take_lock e lock h0) as [h1 [[]|]] eqn:Hlock; [| done].
  apply take_lock_spec in Hlock as (_ & l & -> & _). cbn [fst] in *.
  by apply base_start; [apply base_states |].
Qed.

(** *** Endpoints go *)

Lemma cancel_task_lookup t t' h : hb_supervisors (cancel_task t h) !! t' =
  (if decide (t = t') then λ sv, Supervisor (sv_endpoint sv) (sv_attempt sv) (sv_active sv) (sv_phase sv) true else id)
  <$> hb_supervisors h !! t'.
Proof.
  unfold cancel_task. destruct (hb_supervisors h !! t) as [sv|] eqn:Hsv; case_decide as Ht; subst.
  - cbn. by rewrite lookup_insert_eq, Hsv.
  - cbn. rewrite lookup_insert_ne by done. by destruct (hb_supervisors h !! t').
  - by rewrite Hsv.
  - by destruct (hb_supervisors h !! t').
Qed.
Lemma base_cancel t h : hub_base h → hub_base (cancel_task t h).
Proof.
  intros Hb. unfold cancel_task. destruct (hb_supervisors h !! t) as [sv|] eqn:Hsv; [| done].
  apply (base_replace_supervisor t sv); try done; [by left |]. cbn. by apply (bs_idle h Hb t).
Qed.
Lemma base_pop e h : hub_base h → hub_base (fst (pop_task e h)).
Proof.
  intros Hb. unfold pop_task. destruct (hb_tasks h !! e) as [t|]; [| done]. apply base_cancel.
  constructor; try (by destruct Hb); cbn.
  - intros e' He'. rewrite lookup_delete_None. right. by apply (bs_maintenance h Hb).
  - intros e' t' [_ Ht]%lookup_delete_Some. by apply (bs_tasks h Hb).
Qed.
(** What [pop_task] leaves. *)
Lemma pop_task_frame e h :
  hb_tasks (fst (pop_task e h)) = delete e (hb_tasks h) ∧ hb_maintenance (fst (pop_task e h)) = hb_maintenance h
  ∧ hb_locks (fst (pop_task e h)) = hb_locks h ∧ hb_states (fst (pop_task e h)) = hb_states h
  ∧ hb_sessions (fst (pop_task e h)) = hb_sessions h ∧ hb_devices (fst (pop_task e h)) = hb_devices h
  ∧ hb_next (fst (pop_task e h)) = hb_next h ∧ hb_closing (fst (pop_task e h)) = hb_closing h
  ∧ hb_waiting (fst (pop_task e h)) = hb_waiting h ∧ snd (pop_task e h) = hb_tasks h !! e.
Proof.
  unfold pop_task. destruct (hb_tasks h !! e) as [t|] eqn:E; cbn; [| by rewrite delete_id].
  unfold cancel_task. cbn. by destruct (hb_supervisors h !! t).
Qed.
Lemma pop_task_supervisor e h t sv0 : hb_supervisors h !! t = Some sv0 →
  ∃ sv, hb_supervisors (fst (pop_task e h)) !! t = Some sv ∧ sv_endpoint sv = sv_endpoint sv0
    ∧ sv_active sv = sv_active sv0 ∧ sv_phase sv = sv_phase sv0.
Proof.
  intros Hsv. unfold pop_task. destruct (hb_tasks h !! e) as [t0|]; cbn; [| by exists sv0].
  rewrite cancel_task_lookup. cbn. rewrite Hsv. case_decide; eexists; (split; [done | by split_and!]).
Qed.
Lemma pop_task_maintenance v e h :
  pop_task e (set_maintenance v h) = (set_maintenance v (fst (pop_task e h)), snd (pop_task e h)).
Proof.
  unfold pop_task. cbn. destruct (hb_tasks h !! e) as [t|]; [| done]. unfold cancel_task. cbn.
  by destruct (hb_supervisors h !! t).
Qed.
(** Somebody waits for the popped supervisor. *)
Lemma base_wait_popped w h : hub_base h → awaited_task w = hb_tasks h !! awaited w →
  (∀ e t, w = Removing e t → String.prefix "usb:" e = false) →
  hub_base (set_waiting (w :: hb_waiting h) (fst (pop_task (awaited w) h))).
Proof.
  intros Hb Hw Hr. pose proof (base_pop (awaited w) h Hb) as Hb1.
  pose proof (pop_task_frame (awaited w) h) as (_ & _ & _ & _ & _ & _ & _ & _ & Hwait & _).
  constructor; try (by destruct Hb1); cbn.
  - intros w' t [-> | Hw']%elem_of_cons Ht; [| apply (bs_waits _ Hb1); [by rewrite Hwait | done]].
    unfold waits_for in Ht. rewrite Hw in Ht. destruct (bs_tasks h Hb _ t Ht) as (sv & Hsv & He).
    destruct (pop_task_supervisor (awaited w) h t sv Hsv) as (sv' & ? & ? & _). exists sv'. split; [done | congruence].
  - intros e t [Hw' | Hw']%elem_of_cons; [by eapply Hr | by apply (bs_removing h Hb e t)].
Qed.
Lemma base_remove_start e discovery h : hub_base h → String.prefix "usb:" e = false → hub_base (remove_start e discovery h).
Proof.
  intros Hb He. unfold remove_start. destruct (hb_states h !! e); [| done]. case_match; [done |].
  pose proof (pop_task_frame e h) as (_ & _ & _ & _ & _ & _ & _ & _ & Hwait & Htask).
  pose proof (base_wait_popped (Removing e (snd (pop_task e h))) h Hb Htask) as Hb1.
  destruct (pop_task e h) as [h1 task] eqn:Hpop. cbn in *. rewrite Hpop in Hb1. cbn in Hb1. rewrite Hwait.
  apply Hb1. by intros ? ? [= <- _].
Qed.
Lemma base_remove_finish e h : hub_base h → hub_base (remove_finish e h).
Proof.
  intros Hb. apply base_maintenance; [by apply (base_same h) |]. cbn. intros e' He'. apply (bs_maintenance h Hb). set_solver.
Qed.

Section base_taking.
Context `{Runtime} (realpath : string → string).
Lemma base_maintenance_endpoint identifier ports now h : hub_base h →
  hub_base (fst (maintenance_endpoint realpath identifier ports now h)).
Proof. intros Hb. unfold maintenance_endpoint. repeat case_match; try done. by apply (base_same h). Qed.
Lemma base_quiesce_start identifier ports lock now h : hub_base h →
  hub_base (fst (quiesce_start realpath identifier ports lock now h)).
Proof.
  intros Hb. unfold quiesce_start. pose proof (base_maintenance_endpoint identifier ports now h Hb) as Hb1.
  destruct (maintenance_endpoint _ _ _ _ _) as [h1 [resolved|]]; [| done]. cbn [fst] in Hb1. clear Hb h.
  destruct (subscript resolved _) as [name|]; [| done]. set (e := str name). clearbody e.
  case_match; [done |]. destruct (hb_states h1 !! e) as [st|]; [| done]. case_bool_decide; [done |].
  pose proof (base_take_lock e lock _ Hb1) as Hb2.
  destruct (take_lock e lock h1) as [h2 [u|]]; [| done]. cbn [fst] in Hb2. clear Hb1.
  rewrite pop_task_maintenance. pose proof (pop_task_frame e h2) as (Htasks & _ & _ & _ & _ & _ & _ & _ & Hwait & Htask).
  cbn [fst hb_waiting set_maintenance]. rewrite Hwait.
  set (w := Quiescing _ _ _ _). pose proof (base_wait_popped w h2 Hb2 Htask ltac:(done)) as Hb3.
  apply (base_maintenance _ _ Hb3). cbn. rewrite Htasks. intros e' He'. apply lookup_delete_None.
  destruct (decide (e = e')) as [<- | Hne]; [by left | right]. apply (bs_maintenance h2 Hb2). set_solver.
Qed.
Lemma base_quiesce_finish e d session now wall h : hub_base h → hub_base (fst (quiesce_finish e d session now wall h)).
Proof.
  intros Hb. unfold quiesce_finish. cbn [fst]. set (h1 := if negb _ then _ else h).
  assert (Hb1 : hub_base h1) by (subst h1; case_match; auto using base_devices_delete).
  case_match; [by apply base_states | done].
Qed.
Lemma base_reserve state lock now h : hub_base h →
  (∀ name, subscript state "endpoint" = Ok name → hb_tasks h !! str name = None) →
  hub_base (fst (reserve_maintenance_endpoint state lock now h)).
Proof.
  intros Hb Hst. unfold reserve_maintenance_endpoint. destruct (subscript state "endpoint") as [name|]; [| done].
  specialize (Hst name eq_refl). case_match; [done |]. set (h1 := set_state _ _ _).
  assert (Hb1 : hub_base h1).
  { apply base_states, base_maintenance; [done |]. intros e [->%elem_of_singleton | He]%elem_of_union;
      [done | by apply (bs_maintenance h Hb)]. }
  pose proof (base_take_lock (str name) lock h1 Hb1) as Hb2.
  destruct (take_lock _ _ _) as [h2 [u|]]; [by apply (base_same h2) | done].
Qed.
Lemma base_resume e lock now h : hub_base h → hub_base (fst (resume_maintenance_endpoint e lock now h)).
Proof.
  intros Hb. unfold resume_maintenance_endpoint. case_match; [done |]. case_match; [| done].
  apply base_add, base_maintenance; [done |]. intros e' He'. apply (bs_maintenance h Hb). set_solver.
Qed.
Lemma base_add_usb port mode jtag metadata lock now h : hub_base h → hub_base (fst (add_usb port mode jtag metadata lock now h)).
Proof.
  intros Hb. unfold add_usb. set (e := usb_endpoint _ _ _). clearbody e.
  pose proof (base_add e None metadata lock now h Hb) as Hb1.
  destruct (_add_supervisor _ _ _ _ _ _) as [h1 [u|]]; [| done]. cbn [fst] in *.
  case_match; [by apply base_states | done].
Qed.
End base_taking.

Lemma base_close_cancel h : hub_base h → hub_base (close_cancel h).
Proof.
  unfold close_cancel. generalize (map snd (map_to_list (hb_tasks h))). intros l. revert h.
  induction l as [|t l IH]; intros h Hb; [done |]. by apply IH, base_cancel.
Qed.
Lemma base_close_finish h : hub_base h → hub_base (close_finish h).
Proof. intros Hb. constructor; by destruct Hb. Qed.

Lemma step_base `{Runtime} realpath orderly h h' : hub_base h → step realpath orderly h h' → hub_base h'.
Proof.
  intros Hb []; eauto using base_add, base_states, base_add_usb, base_remove_start, base_remove_finish, base_stop_waiting,
    base_quiesce_start, base_quiesce_finish, base_cancel, base_reserve, base_resume, base_supervise, base_on_ready,
    base_close_cancel, base_close_finish. by apply (base_same h).
Qed.
Lemma reachable_base `{Runtime} realpath orderly h : runs_to realpath orderly h → hub_base h.
Proof. induction 1; [apply hub_init_base | by eapply step_base]. Qed.

(** ** Orderly runs *)

Record hub_ok (h : hub) : Prop := {
  ok_base : hub_base h;
  (* endpoints *)
  ok_locked : ∀ e t, hb_tasks h !! e = Some t → e ∈ hb_locks h;
  ok_has_state : ∀ e t, hb_tasks h !! e = Some t → is_Some (hb_states h !! e);
  (* supervisors *)
  ok_charge : ∀ t e, in_charge h t e → hb_tasks h !! e = Some t;
  ok_cancelled : ∀ t sv, hb_supervisors h !! t = Some sv → live sv → sv_cancelled sv = true →
    hb_tasks h !! sv_endpoint sv = Some t ∨ ∃ w, w ∈ hb_waiting h ∧ awaited w = sv_endpoint sv ∧ waits_for t w;
  ok_waiting : ∀ w, w ∈ hb_waiting h → hb_tasks h !! awaited w = None;
  ok_quiescing : ∀ e d s t, Quiescing e d s t ∈ hb_waiting h →
    String.prefix "usb:" e = true ∧ (e ∈ hb_maintenance h ∨ hb_closing h = true);
  (* sessions *)
  ok_run : ∀ d n, registered h d n → ∃ t sv, hb_supervisors h !! t = Some sv ∧ live sv ∧ sv_active sv = Some n;
  ok_state : ∀ t sv n d state, hb_supervisors h !! t = Some sv → live sv → sv_cancelled sv = false →
    sv_active sv = Some n → registered h d n → hb_states h !! sv_endpoint sv = Some state →
    dict_get "device_id" state = PStr d;
  ok_disconnecting : ∀ t sv n d f, hb_supervisors h !! t = Some sv → sv_cancelled sv = false →
    sv_phase sv = Disconnecting d f → sv_active sv = Some n → ∃ info, session_info h n = Some info ∧ device_id info = d;
}.

Section base_facts.
Context (h : hub) (Hok : hub_ok h).
Lemma ok_maintenance e : e ∈ hb_maintenance h → hb_tasks h !! e = None.
Proof. apply bs_maintenance, Hok. Qed.
Lemma ok_tasks e t : hb_tasks h !! e = Some t → ∃ sv, hb_supervisors h !! t = Some sv ∧ sv_endpoint sv = e.
Proof. apply bs_tasks, Hok. Qed.
Lemma ok_removing e t : Removing e t ∈ hb_waiting h → String.prefix "usb:" e = false.
Proof. apply bs_removing, Hok. Qed.
Lemma ok_active t sv n : hb_supervisors h !! t = Some sv → sv_active sv = Some n → session_endpoint h n = Some (sv_endpoint sv).
Proof. apply bs_active, Hok. Qed.
Lemma ok_distinct t1 t2 sv1 sv2 n : hb_supervisors h !! t1 = Some sv1 → hb_supervisors h !! t2 = Some sv2 →
  sv_active sv1 = Some n → sv_active sv2 = Some n → t1 = t2.
Proof. apply bs_distinct, Hok. Qed.
Lemma ok_idle t sv : hb_supervisors h !! t = Some sv → idle (sv_phase sv) = true → sv_active sv = None.
Proof. apply bs_idle, Hok. Qed.
Lemma ok_fresh t : is_Some (hb_supervisors h !! t) ∨ is_Some (hb_sessions h !! t) → (t < hb_next h)%nat.
Proof. apply bs_fresh, Hok. Qed.
Lemma ok_registered d n : registered h d n → d ≠ ""%string ∧ ∃ info t sv, session_info h n = Some info
  ∧ device_id info = d ∧ hb_supervisors h !! t = Some sv ∧ live sv ∧ sv_active sv = Some n.
Proof.
  intros Hr. destruct (bs_registered h (ok_base h Hok) d n Hr) as (? & info & ? & ?).
  destruct (ok_run h Hok d n Hr) as (t & sv & ? & ? & ?). split; [done |]. by exists info, t, sv.
Qed.
End base_facts.

Lemma hub_init_ok : hub_ok hub_init.
Proof.
  constructor; [apply hub_init_base | ..]; unfold registered, in_charge; cbn; intros; try done; try set_solver;
    simplify_map_eq; set_solver.
Qed.

(** *** What the operations are made of *)

Lemma in_charge_task h t sv : hub_ok h → hb_supervisors h !! t = Some sv → live sv → sv_cancelled sv = false →
  hb_tasks h !! sv_endpoint sv = Some t.
Proof. intros Hok Hsv Hl Hc. apply (ok_charge h Hok). by exists sv. Qed.

Lemma ok_set_state e st h :
  hub_ok h → (hb_tasks h !! e = None ∨ ∀ old, hb_states h !! e = Some old →
    dict_get "device_id" st = dict_get "device_id" old) → hub_ok (set_state e st h).
Proof.
  intros Hok Hst. constructor; try (by destruct Hok).
  - by apply base_states, Hok.
  - intros e' t Ht. cbn. destruct (decide (e = e')) as [-> | Hne]; [by rewrite lookup_insert_eq |].
    rewrite lookup_insert_ne by done. by eapply ok_has_state.
  - intros t sv n d state Hsv Hl Hc Ha Hr. cbn in *. intros Hs.
    pose proof (in_charge_task h t sv Hok Hsv Hl Hc) as Ht.
    destruct (decide (e = sv_endpoint sv)) as [-> | Hne].
    + rewrite lookup_insert_eq in Hs. injection Hs as <-. destruct Hst as [Hst | Hst]; [congruence |].
      destruct (ok_has_state h Hok _ _ Ht) as [old Hold]. rewrite (Hst _ Hold). by eapply (ok_state h Hok).
    + rewrite lookup_insert_ne in Hs by done. by eapply (ok_state h Hok).
Qed.

Lemma ok_set_devices_delete d h : hub_ok h → hub_ok (set_devices (delete_key d (hb_devices h)) h).
Proof.
  intros Hok.
  assert (Hsub : ∀ k n, registered (set_devices (delete_key d (hb_devices h)) h) k n → registered h k n).
  { intros k n. unfold registered. cbn. rewrite dict_lookup_delete. by case_match. }
  constructor; try (by destruct Hok).
  - by apply base_devices_delete, Hok.
  - intros k n Hr%Hsub. by apply (ok_run h Hok) in Hr.
  - intros t sv n k state Hsv Hl Hc Ha Hr%Hsub. by eapply (ok_state h Hok).
Qed.
Lemma ok_set_configs v h : hub_ok h → hub_ok (set_configs v h).
Proof. intros []. constructor; try done. by apply (base_same h). Qed.
Lemma ok_set_mirrors v h : hub_ok h → hub_ok (set_mirrors v h).
Proof. intros []. constructor; try done. by apply (base_same h). Qed.
Lemma ok_set_last_boot v h : hub_ok h → hub_ok (set_last_boot v h).
Proof. intros []. constructor; try done. by apply (base_same h). Qed.
Lemma ok_take_lock e lock h : hub_ok h → hub_ok (fst (take_lock e lock h)).
Proof.
  intros Hok. unfold take_lock. case_bool_decide; [done |]. destruct lock; [| done]. simpl.
  constructor; try (by destruct Hok); [by apply (base_same h); [apply Hok |] |].
  intros e' t Ht. cbn. apply (ok_locked h Hok) in Ht. set_solver.
Qed.
(** Unless it stays with its session, the session is not registered. *)
Lemma ok_replace_supervisor t sv sv' h : hub_ok h → hb_supervisors h !! t = Some sv →
  sv_endpoint sv' = sv_endpoint sv → (live sv' → live sv ∧ sv_cancelled sv' = sv_cancelled sv) →
  (∀ n, sv_active sv' = Some n → sv_active sv = Some n ∨ fresh_session h (sv_endpoint sv) n) →
  (live sv' ∧ sv_active sv' = sv_active sv ∨ ∀ n d, sv_active sv = Some n → ¬ registered h d n) →
  (∀ d f n, sv_phase sv' = Disconnecting d f → sv_active sv' = Some n →
     ∃ info, session_info h n = Some info ∧ device_id info = d) →
  (idle (sv_phase sv') = true → sv_active sv' = None) →
  hub_ok (set_supervisor t sv' h).
Proof.
  intros Hok Hsv He Hl Ha Hr Hd Hidle.
  assert (Hlook : ∀ t1 sv1, hb_supervisors (set_supervisor t sv' h) !! t1 = Some sv1 →
    t1 = t ∧ sv1 = sv' ∨ t1 ≠ t ∧ hb_supervisors h !! t1 = Some sv1).
  { intros t1 sv1. cbn. intros [[<- <-] | [Hne H1]]%lookup_insert_Some; [by left | by right]. }
  assert (Hsame : ∀ t1 sv1, hb_supervisors (set_supervisor t sv' h) !! t1 = Some sv1 → live sv1 →
    ∃ sv0, hb_supervisors h !! t1 = Some sv0 ∧ sv_endpoint sv1 = sv_endpoint sv0 ∧ sv_cancelled sv1 = sv_cancelled sv0
      ∧ live sv0
      ∧ (∀ n, sv_active sv1 = Some n → sv_active sv0 = Some n ∨ t1 = t ∧ fresh_session h (sv_endpoint sv) n)).
  { intros t1 sv1 [[-> ->] | [_ H1]]%Hlook Hl1; [| exists sv1; split_and!; auto].
    destruct (Hl Hl1) as [Hl0 Hc0]. exists sv. split_and!; try done. intros n Hn. destruct (Ha n Hn); auto. }
  constructor.
  - by apply (base_replace_supervisor t sv sv'); [apply Hok | ..].
  - apply (ok_locked h Hok).
  - apply (ok_has_state h Hok).
  - intros t1 e (sv1 & H1 & <- & Hl1 & Hc1). destruct (Hsame t1 sv1 H1 Hl1) as (sv0 & H0 & -> & Hc0 & Hl0 & _).
    apply (ok_charge h Hok). exists sv0. split_and!; try done. congruence.
  - intros t1 sv1 H1 Hl1 Hcan. destruct (Hsame t1 sv1 H1 Hl1) as (sv0 & H0 & -> & Hc0 & Hl0 & _).
    apply (ok_cancelled h Hok t1 sv0); auto. congruence.
  - apply (ok_waiting h Hok).
  - apply (ok_quiescing h Hok).
  - intros d n Hreg. destruct (ok_run h Hok d n Hreg) as (t1 & sv1 & H1 & Hl1 & Ha1). destruct (decide (t1 = t)) as [-> | Hne].
    + assert (sv1 = sv) as -> by congruence. destruct Hr as [[Hlive Hact] | Hr]; [| by destruct (Hr n d)].
      exists t, sv'. split_and!; [cbn; by rewrite lookup_insert_eq | done | congruence].
    + exists t1, sv1. split_and!; try done. cbn. by rewrite lookup_insert_ne.
  - intros t1 sv1 n d state H1 Hlive Hcan Hact Hreg Hst.
    destruct (Hsame t1 sv1 H1 Hlive) as (sv0 & H0 & He0 & Hc0 & Hl0 & Ha0). rewrite He0 in Hst.
    destruct (Ha0 n Hact) as [Hact0 | [_ [_ Hf]]]; [eapply (ok_state h Hok t1 sv0); eauto; congruence |].
    destruct (ok_run h Hok d n Hreg) as (t2 & sv2 & H2 & _ & Ha2). by apply Hf in H2.
  - intros t1 sv1 n d f [[-> ->] | [_ H1]]%Hlook Hcan Hp Hact; [by eapply Hd | by eapply (ok_disconnecting h Hok t1 sv1)].
Qed.

Lemma ok_set_supervisor t sv sv' h : hub_ok h → hb_supervisors h !! t = Some sv →
  sv_endpoint sv' = sv_endpoint sv → (live sv' → live sv ∧ sv_cancelled sv' = sv_cancelled sv) →
  (sv_active sv' = sv_active sv ∨ sv_active sv' = None) →
  (live sv' ∧ sv_active sv' = sv_active sv ∨ ∀ n d, sv_active sv = Some n → ¬ registered h d n) →
  (∀ d f n, sv_phase sv' = Disconnecting d f → sv_active sv' = Some n →
     ∃ info, session_info h n = Some info ∧ device_id info = d) →
  (idle (sv_phase sv') = true → sv_active sv' = None) →
  hub_ok (set_supervisor t sv' h).
Proof.
  intros Hok Hsv He Hl Ha Hr Hd Hidle. apply (ok_replace_supervisor t sv sv'); auto.
  intros n Hn. left. destruct Ha; congruence.
Qed.

(** *** Supervision *)

Lemma set_endpoint_state_ok e state attempt error now h :
  hub_ok h → hub_ok (fst (_set_endpoint_state e state attempt error None now h)).
Proof.
  intros Hok. unfold _set_endpoint_state. destruct (hb_states h !! e) as [st|] eqn:Hst; [| done].
  apply ok_set_state; [done |]. right. intros old Hold. rewrite Hold in Hst. injection Hst as ->.
  apply dict_get_updated. set_solver.
Qed.
(** [sv] is supervisor [t] as it is, but for its attempt, its phase and a cancellation. *)
Definition stands_for (h : hub) (t : nat) (sv : supervisor) : Prop :=
  ∃ sv0, hb_supervisors h !! t = Some sv0 ∧ sv_endpoint sv = sv_endpoint sv0 ∧ live sv0
    ∧ (sv_active sv = sv_active sv0 ∨ sv_active sv = None ∧ ∀ n d, sv_active sv0 = Some n → ¬ registered h d n).
Lemma stands_for_self h t sv : hb_supervisors h !! t = Some sv → live sv → stands_for h t sv.
Proof. intros. exists sv. split_and!; auto. Qed.

Lemma unregister_active_ok sv h : hub_ok h → hub_ok (unregister_active sv h).
Proof.
  intros Hok. unfold unregister_active. repeat (case_match; [| done]). case_bool_decide; [| done].
  by apply ok_set_devices_delete.
Qed.
Lemma unregister_active_gone sv n d h : hub_ok h → sv_active sv = Some n → ¬ registered (unregister_active sv h) d n.
Proof.
  intros Hok Ha Hr. unfold unregister_active in Hr. rewrite Ha in Hr.
  assert (Hreg : registered h d n).
  { destruct (session_info h n); [| done]. case_bool_decide; [| done]. unfold registered in *. cbn in Hr.
    rewrite dict_lookup_delete in Hr. by case_match. }
  destruct (ok_registered h Hok d n Hreg) as (_ & info & _ & _ & Hi & <- & _). rewrite Hi in Hr.
  rewrite bool_decide_true in Hr by done. unfold registered in Hr. cbn in Hr.
  rewrite dict_lookup_delete, String.eqb_refl in Hr. done.
Qed.
Lemma finalize_ok t sv e now h : hub_ok h → stands_for h t sv → hub_ok (finalize t sv e now h).
Proof.
  intros Hok (sv0 & Hsv & He & Hl & Ha). unfold finalize.
  pose proof (unregister_active_ok sv h Hok) as Hok1.
  destruct (unregister_active_frame sv h) as [l Hl1].
  pose proof (set_endpoint_state_ok (sv_endpoint sv) "stopped" (sv_attempt sv) None now _ Hok1) as Hok2.
  destruct (set_endpoint_state_frame (sv_endpoint sv) "stopped" (sv_attempt sv) None None now (unregister_active sv h))
    as [st Hst].
  destruct (_set_endpoint_state _ _ _ _ _ _ _) as [h2 r]. cbn [fst] in *.
  apply (ok_set_supervisor t sv0); [done | subst h2; rewrite Hl1; exact Hsv | done | done | | | done | done].
  - destruct Ha as [Ha | [Ha _]]; [by left | by right].
  - right. intros n d Hn Hr. subst h2. destruct Ha as [Ha | [Ha Hno]].
    + rewrite <- Ha in Hn. by apply (unregister_active_gone sv n d h Hok Hn).
    + apply (Hno n d Hn). unfold unregister_active in Hr. by rewrite Ha in Hr.
Qed.

Lemma begin_attempt_ok t sv now h : hub_ok h → hb_supervisors h !! t = Some sv → idle (sv_phase sv) = true →
  hub_ok (begin_attempt t sv now h).
Proof.
  intros Hok Hsv Hi. pose proof (ok_idle h Hok t sv Hsv Hi) as Hn.
  assert (Hl : live sv) by (unfold live; by destruct (sv_phase sv)).
  unfold begin_attempt. cbn [sv_endpoint sv_attempt].
  pose proof (set_endpoint_state_ok (sv_endpoint sv) "connecting" (sv_attempt sv + 1) None now _ Hok) as Hok1.
  destruct (set_endpoint_state_frame (sv_endpoint sv) "connecting" (sv_attempt sv + 1) None None now h) as [st Hst].
  destruct (_set_endpoint_state _ _ _ _ _ _ _) as [h1 [u|e]]; cbn [fst] in *; subst h1.
  - apply (ok_set_supervisor t sv); try done; by left.
  - apply finalize_ok; [done |]. exists sv. split_and!; auto.
Qed.

Lemma retry_ok t sv failure now h : hub_ok h → hb_supervisors h !! t = Some sv → live sv →
  (∀ n d, sv_active sv = Some n → ¬ registered h d n) → hub_ok (retry t sv failure now h).
Proof.
  intros Hok Hsv Hl Hr. unfold retry. cbn [sv_endpoint sv_attempt with_active].
  pose proof (set_endpoint_state_ok (sv_endpoint sv) "retrying" (sv_attempt sv) (Some failure) now _ Hok) as Hok1.
  destruct (set_endpoint_state_frame (sv_endpoint sv) "retrying" (sv_attempt sv) (Some failure) None now h) as [st Hst].
  destruct (_set_endpoint_state _ _ _ _ _ _ _) as [h1 [u|e]]; cbn [fst] in *; subst h1.
  - apply (ok_set_supervisor t sv); try done; by right.
  - apply finalize_ok; [done |]. exists sv. split_and!; auto.
Qed.

Lemma forget_mirrors_ok d h : hub_ok h → hub_ok (forget_mirrors d h).
Proof. apply ok_set_mirrors. Qed.

(** A supervisor in charge shares its endpoint with no other live one. *)
Lemma charge_unique h t t' sv sv' : hub_ok h → hb_supervisors h !! t = Some sv → live sv → sv_cancelled sv = false →
  hb_supervisors h !! t' = Some sv' → live sv' → sv_endpoint sv' = sv_endpoint sv → t' = t.
Proof.
  intros Hok Hsv Hl Hc Hsv' Hl' He.
  assert (Hi : in_charge h t (sv_endpoint sv)) by (by exists sv). pose proof (ok_charge h Hok _ _ Hi) as Ht.
  destruct (sv_cancelled sv') eqn:Hc'.
  - destruct (ok_cancelled h Hok t' sv' Hsv' Hl' Hc') as [Ht' | (w & Hw & Hwe & _)].
    + congruence.
    + apply (ok_waiting h Hok) in Hw. congruence.
  - assert (Ht' : hb_tasks h !! sv_endpoint sv' = Some t') by (apply (in_charge_task h t' sv'); done). congruence.
Qed.

(** While it is in charge, its session is registered as its endpoint's device. *)
Lemma lost_ok t sv failure now wall h : hub_ok h → hb_supervisors h !! t = Some sv → live sv →
  sv_cancelled sv = false → hub_ok (fst (lost t sv failure now wall h)).
Proof.
  intros Hok Hsv Hl Hc. unfold lost.
  destruct (hb_states h !! sv_endpoint sv) as [state|] eqn:Hst; [| apply finalize_ok; [done | by apply stands_for_self]].
  assert (Hreg : ∀ n d, sv_active sv = Some n → registered h d n →
    dict_get "device_id" state = PStr d ∧ d ≠ ""%string ∧ session_endpoint h n = Some (sv_endpoint sv)).
  { intros n d Ha Hr. split_and!; [by eapply (ok_state h Hok) | by apply (ok_registered h Hok d n) | by eapply (ok_active h Hok)]. }
  destruct (dict_get "device_id" state) as [| | | |d| |] eqn:Hd;
    try (apply retry_ok; [done | done | done |]; intros n d' Ha Hr; by destruct (Hreg n d' Ha Hr) as [? _]).
  destruct (String.eqb_spec d "") as [-> | Hne].
  { apply retry_ok; [done | done | done |]. intros n d' Ha Hr. destruct (Hreg n d' Ha Hr) as ([= <-] & ? & _). done. }
  destruct (dict_lookup d (hb_devices h)) as [n'|] eqn:Hn'; cycle 1.
  { apply retry_ok; [by apply forget_mirrors_ok | done | done |]. intros n d' Ha Hr.
    destruct (Hreg n d' Ha Hr) as ([= <-] & _ & _). unfold registered in Hr. cbn in Hr. congruence. }
  case_bool_decide as He; cycle 1.
  { apply retry_ok; [by apply forget_mirrors_ok | done | done |]. intros n d' Ha Hr.
    destruct (Hreg n d' Ha Hr) as ([= <-] & _ & He'). unfold registered in Hr. cbn in Hr. congruence. }
  destruct (ok_registered h Hok d n' Hn') as (_ & info & t' & sv' & Hi & Hid & Hsv' & Hl' & Ha').
  assert (t' = t) as ->.
  { apply (charge_unique h t t' sv sv'); try done. pose proof (ok_active h Hok t' sv' n' Hsv' Ha') as He'. congruence. }
  assert (sv' = sv) as -> by congruence.
  apply (ok_set_supervisor t sv); try done; [by left | by left |].
  intros d' f n [= <- <-] Ha. cbn in Ha. exists info. split; congruence.
Qed.

Lemma ok_new_session e h : hub_ok h → hub_ok (with_session e h).
Proof.
  intros Hok. constructor; try (by destruct Hok).
  - by apply base_with_session, Hok.
  - intros t sv n d f Hsv Hc Hp Ha.
    destruct (new_session_other e h t sv n (ok_base h Hok) Hsv Ha) as (_ & -> & _).
    by apply (ok_disconnecting h Hok t sv n d f).
Qed.

Lemma opened_ok t sv now h : hub_ok h → hb_supervisors h !! t = Some sv → live sv → sv_active sv = None →
  hub_ok (opened t sv now h).
Proof.
  intros Hok Hsv Hl Ha. unfold opened.
  pose proof (set_endpoint_state_ok (sv_endpoint sv) "handshaking" (sv_attempt sv) None now _ Hok) as Hok1.
  destruct (set_endpoint_state_frame (sv_endpoint sv) "handshaking" (sv_attempt sv) None None now h) as [st Hst].
  destruct (_set_endpoint_state _ _ _ _ _ _ _) as [h1 [u|e]]; cbn [fst] in *; subst h1;
    [| apply finalize_ok; [done | by apply stands_for_self]].
  pose proof (ok_new_session (sv_endpoint sv) _ Hok1) as Hok2.
  destruct (base_with_session (sv_endpoint sv) _ (ok_base _ Hok1)) as [_ Hf].
  apply (ok_replace_supervisor t sv); [done | exact Hsv | done | done | | | done | done].
  - intros n [= <-]. by right.
  - right. intros n d. by rewrite Ha.
Qed.

Lemma delete_key_gone d (h : hub) n d' info : session_info h n = Some info → device_id info = d → hub_ok h →
  ¬ registered (set_devices (delete_key d (hb_devices h)) h) d' n.
Proof.
  intros Hi Hd Hok Hr.
  unfold registered in Hr. cbn in Hr. rewrite dict_lookup_delete in Hr. case_match eqn:E; [done |].
  destruct (ok_registered h Hok d' n Hr) as (_ & info' & _ & _ & Hi' & Hd' & _).
  apply String.eqb_neq in E. congruence.
Qed.

Lemma disconnected_ok t sv d failure now h : hub_ok h → hb_supervisors h !! t = Some sv → sv_cancelled sv = false →
  sv_phase sv = Disconnecting d failure → hub_ok (disconnected t sv d failure now h).
Proof.
  intros Hok Hsv Hc Hp. unfold disconnected.
  assert (Hl : live sv) by (unfold live; by rewrite Hp).
  case_match; [| apply finalize_ok; [done | by apply stands_for_self]].
  apply retry_ok; [by apply forget_mirrors_ok, ok_set_devices_delete | exact Hsv | done |].
  intros n d' Ha Hr. destruct (ok_disconnecting h Hok t sv n d failure Hsv Hc Hp Ha) as (info & Hi & Hd).
  by apply (delete_key_gone d h n d' info).
Qed.

Lemma failed_with_error_ok t sv e now wall h : hub_ok h → hb_supervisors h !! t = Some sv → live sv →
  sv_cancelled sv = false → hub_ok (fst (failed_with_error t sv e now wall h)).
Proof.
  intros. unfold failed_with_error. case_match; [by apply lost_ok |]. by apply finalize_ok, stands_for_self.
Qed.

(** A cancelled supervisor that does not survive ends. *)
Lemma cancelled_ok t sv r now wall h : hub_ok h → hb_supervisors h !! t = Some sv → sv_cancelled sv = true →
  survives sv r = false → hub_ok (fst (_supervise t r now wall h)).
Proof.
  intros Hok Hsv Hc Hends. unfold survives in Hends. rewrite Hc in Hends. cbn [andb] in Hends.
  unfold _supervise. rewrite Hsv. cbn [sv_phase uncancelled]. rewrite Hc.
  destruct (is_ended (sv_phase sv)) eqn:Hl; [by destruct (sv_phase sv) |].
  assert (Hfin : ∀ e, hub_ok (finalize t (uncancelled sv) e now h)).
  { intros e. apply finalize_ok; [done |]. exists sv. split_and!; auto. }
  pose proof (ok_idle h Hok t sv Hsv) as Hidle.
  destruct (sv_phase sv), r; try done; cbn [fst]; unfold failed_with_error; rewrite ?Hends; try apply Hfin;
    (apply (ok_set_supervisor t sv); try done; [by left |]; right; intros n d; by rewrite Hidle).
Qed.
Lemma supervise_ok t r now wall h : hub_ok h → (∀ sv, hb_supervisors h !! t = Some sv → survives sv r = false) →
  hub_ok (fst (_supervise t r now wall h)).
Proof.
  intros Hok Hends. destruct (hb_supervisors h !! t) as [sv|] eqn:Hsv; [| unfold _supervise; by rewrite Hsv].
  destruct (sv_cancelled sv) eqn:Hc; [by apply (cancelled_ok t sv); auto |]. clear Hends.
  unfold _supervise. rewrite Hsv. assert (uncancelled sv = sv) as -> by (destruct sv; cbn in *; by subst). rewrite Hc.
  pose proof (ok_idle h Hok t sv Hsv) as Hidle.
  assert (Hfin : live sv → ∀ e, hub_ok (finalize t sv e now h)) by (intros; by apply finalize_ok, stands_for_self).
  assert (Hlive : is_ended (sv_phase sv) = false → live sv) by done.
  destruct (sv_phase sv) eqn:Hp, r; try done;
    first [ by apply begin_attempt_ok; rewrite ?Hp | by apply opened_ok; auto | by apply lost_ok; auto
          | by apply failed_with_error_ok; auto | by apply disconnected_ok; auto | by apply Hfin, Hlive ].
Qed.

(** *** Ready devices *)

Lemma ok_announced n e info h : hub_ok h → session_endpoint h n = Some e →
  (∀ old, session_info h n = Some old → device_id old = device_id info) →
  hub_ok (set_sessions (<[n := SessionRef e (Some info)]> (hb_sessions h)) h).
Proof.
  intros Hok He Hold. constructor; try (by destruct Hok).
  - by apply base_announced; [apply Hok | ..].
  - intros t sv m d f Hsv Hc Hp Ha. destruct (ok_disconnecting h Hok t sv m d f Hsv Hc Hp Ha) as (i & Hi & <-).
    by apply (announced_info n e info h m i).
Qed.

(** Registering the session of a supervisor in charge, as its endpoint's device. *)
Lemma ok_register t sv n d info state h : hub_ok h → hb_supervisors h !! t = Some sv → live sv →
  sv_cancelled sv = false → sv_active sv = Some n → session_info h n = Some info → device_id info = d →
  d ≠ ""%string → (dict_lookup d (hb_devices h) = None ∨ dict_lookup d (hb_devices h) = Some n) →
  dict_get "device_id" state = PStr d →
  hub_ok (set_state (sv_endpoint sv) state (set_devices (dict_set d n (hb_devices h)) h)).
Proof.
  intros Hok Hsv Hl Hc Ha Hi Hd Hne Hdev Hst.
  pose proof (in_charge_task h t sv Hok Hsv Hl Hc) as Ht.
  assert (Hreg : ∀ k m, registered (set_state (sv_endpoint sv) state (set_devices (dict_set d n (hb_devices h)) h)) k m →
    k = d ∧ m = n ∨ k ≠ d ∧ registered h k m).
  { intros k m. unfold registered. cbn. rewrite dict_lookup_set. destruct (String.eqb_spec d k) as [<- | Hk];
      [intros [= <-]; by left | intros; right; by split]. }
  constructor; try (by destruct Hok).
  - by apply base_states, (base_devices_set d n info); [apply Hok | ..].
  - intros e' t' Ht'. cbn. destruct (decide (sv_endpoint sv = e')) as [<- | He]; [by rewrite lookup_insert_eq |].
    rewrite lookup_insert_ne by done. by eapply ok_has_state.
  - intros k m [[-> ->] | [_ Hr]]%Hreg; [by exists t, sv | by apply (ok_run h Hok k)].
  - intros t' sv' m k st' Hsv' Hl' Hc' Ha' Hr Hst'. cbn in Hsv', Hst'. apply Hreg in Hr as [[-> ->] | [Hk Hr]].
    + assert (t' = t) as -> by (by eapply (ok_distinct h Hok)). assert (sv' = sv) as -> by congruence.
      rewrite lookup_insert_eq in Hst'. congruence.
    + destruct (decide (sv_endpoint sv = sv_endpoint sv')) as [He | He].
      * assert (t' = t) as -> by (by eapply (charge_unique h t t' sv sv')). assert (sv' = sv) as -> by congruence.
        destruct (ok_registered h Hok k m Hr) as (_ & i & _ & _ & Hi' & Hd' & _). congruence.
      * rewrite lookup_insert_ne in Hst' by done. by eapply (ok_state h Hok t' sv').
Qed.

Lemma set_devices_state d e st h : set_devices d (set_state e st h) = set_state e st (set_devices d h).
Proof. done. Qed.

Lemma register_ok t sv n info state now wall h : hub_ok h → hb_supervisors h !! t = Some sv → live sv →
  sv_cancelled sv = false → sv_active sv = Some n → session_info h n = Some info → device_id info ≠ ""%string →
  (dict_lookup (device_id info) (hb_devices h) = None ∨ dict_lookup (device_id info) (hb_devices h) = Some n) →
  hub_ok (fst (register n info (sv_endpoint sv) state now wall h)).
Proof.
  intros Hok Hsv Hl Hc Ha Hi Hd Hdev. unfold register. case_match; [by destruct p |].
  unfold _set_endpoint_state.
  destruct (ok_has_state h Hok _ _ (in_charge_task h t sv Hok Hsv Hl Hc)) as [st Hst].
  cbn [hb_states set_devices]. rewrite Hst. cbn [fst]. apply ok_set_last_boot.
  apply (ok_register t sv n _ info); try done. unfold dict_get. by rewrite dict_lookup_set.
Qed.

Lemma on_ready_ok t sv n info now wall h : hub_ok h → hb_supervisors h !! t = Some sv → live sv →
  sv_cancelled sv = false → sv_active sv = Some n → device_id info ≠ ""%string →
  (∀ old, session_info h n = Some old → device_id old = device_id info) →
  hub_ok (fst (_on_ready n info now wall h)).
Proof.
  intros Hok Hsv Hl Hc Ha Hd Hold. unfold _on_ready.
  pose proof (ok_active h Hok t sv n Hsv Ha) as He. rewrite He.
  pose proof (ok_announced n _ info h Hok He Hold) as Hok1.
  assert (Hi : session_info (set_sessions (<[n := SessionRef (sv_endpoint sv) (Some info)]> (hb_sessions h)) h) n = Some info)
    by (unfold session_info; cbn; by rewrite lookup_insert_eq).
  set (h1 := set_sessions _ h) in *.
  destruct (hb_states h1 !! sv_endpoint sv) as [st|] eqn:Hst; [| done]. case_match; [done |].
  assert (Hok2 : hub_ok (set_state (sv_endpoint sv) (dict_set "firmware_mode" (PStr (firmware_mode info)) st) h1)).
  { apply ok_set_state; [done |]. right. intros old Ho. rewrite Ho in Hst. injection Hst as ->. by apply dict_get_set_ne. }
  case_match eqn:Hm; [case_match eqn:Hn; [apply Nat.eqb_eq in Hn as -> | done] |];
    (apply (register_ok t sv); auto).
Qed.

(** *** Endpoints come *)

Lemma dict_lookup_absent {A} key (d : list (string * A)) : dict_lookup key d = None → key ∉ keys d.
Proof.
  unfold keys. induction d as [|[k v] d IH]; cbn; [set_solver |]. destruct (String.eqb_spec k key); [done |].
  intros Hd%IH. set_solver.
Qed.

(** The state of an endpoint keeps its device; a new one has none. *)
Lemma ok_set_state_default e st new h : hub_ok h →
  dict_get "device_id" st = dict_get "device_id" (default new (hb_states h !! e)) → hub_ok (set_state e st h).
Proof.
  intros Hok Hst. apply ok_set_state; [done |].
  destruct (hb_states h !! e) as [old|] eqn:Hold; [right; intros ? [= <-]; done |].
  left. destruct (hb_tasks h !! e) eqn:Ht; [| done]. apply (ok_has_state h Hok) in Ht as [? ?]. congruence.
Qed.

Lemma ok_start_supervisor e h : hub_ok h → hb_tasks h !! e = None → e ∉ hb_maintenance h → e ∈ hb_locks h →
  is_Some (hb_states h !! e) → nobody_waits e h → hub_ok (start_supervisor e h).
Proof.
  intros Hok Ht Hm Hlock Hst Hw. pose proof (ok_base h Hok) as Hb.
  assert (Htask : ∀ e' t, hb_tasks (start_supervisor e h) !! e' = Some t →
    e' = e ∧ t = hb_next h ∨ e' ≠ e ∧ hb_tasks h !! e' = Some t).
  { intros e' t. cbn. intros [[<- <-] | [Hne Ht']]%lookup_insert_Some; [by left | by right]. }
  constructor.
  - by apply base_start.
  - intros e' t [[-> _] | [_ H1]]%Htask; [done | by eapply (ok_locked h Hok)].
  - intros e' t [[-> _] | [_ H1]]%Htask; [done | by eapply (ok_has_state h Hok)].
  - intros t e' (sv & [[-> ->] | [_ H1]]%started_lookup & <- & Hl & Hc); [cbn; by rewrite lookup_insert_eq | | done].
    pose proof (in_charge_task h t sv Hok H1 Hl Hc). cbn. rewrite lookup_insert_ne; [done | congruence].
  - intros t sv [[-> ->] | [_ H1]]%started_lookup Hl Hc; [done | | done].
    destruct (ok_cancelled h Hok t sv H1 Hl Hc) as [H2 | H2]; [left | by right].
    cbn. rewrite lookup_insert_ne; [done | congruence].
  - intros w Hin. cbn. rewrite lookup_insert_ne by (symmetry; by apply Hw). by apply (ok_waiting h Hok).
  - apply (ok_quiescing h Hok).
  - intros d n Hr. destruct (ok_run h Hok d n Hr) as (t & sv & Hsv & ? & ?). exists t, sv. split_and!; try done.
    by apply started_old.
  - intros t sv n d state [[-> ->] | [_ H1]]%started_lookup; [done | by apply (ok_state h Hok t) | done].
  - intros t sv n d f [[-> ->] | [_ H1]]%started_lookup; [done | by apply (ok_disconnecting h Hok t) | done].
Qed.

Lemma nobody_quiesces e h : hub_ok h → no_removal e h → e ∉ hb_maintenance h → hb_closing h = false → nobody_waits e h.
Proof.
  intros Hok Hr Hm Hcl [e' d s t | e' t] Hw; cbn; intros ->; [| by eapply Hr].
  destruct (ok_quiescing h Hok _ _ _ _ Hw) as [_ [? | ?]]; congruence.
Qed.

Lemma add_supervisor_ok e token metadata lock now h : hub_ok h → dict_lookup "device_id" metadata = None →
  no_removal e h → hub_ok (fst (_add_supervisor e token metadata lock now h)).
Proof.
  intros Hok Hmeta Hrem. unfold _add_supervisor. destruct (hb_closing h) eqn:Hcl; [done |].
  set (h0 := set_configs _ h). set (st := dict_updated _ metadata). change (hb_states h0) with (hb_states h) in st.
  assert (Hkey : dict_get "device_id" st = dict_get "device_id" (default (new_endpoint e "waiting" now) (hb_states h !! e)))
    by (by apply dict_get_updated, dict_lookup_absent).
  assert (Hok1 : hub_ok (set_state e st h0)).
  { apply (ok_set_state_default e st (new_endpoint e "waiting" now)); [by apply ok_set_configs | done]. }
  change (hb_tasks (set_state e st h0)) with (hb_tasks h).
  change (hb_maintenance (set_state e st h0)) with (hb_maintenance h).
  destruct (hb_tasks h !! e) eqn:Ht; [done |]. case_bool_decide as Hm.
  { simpl. apply ok_set_state; [done | by left]. }
  pose proof (ok_take_lock e lock _ Hok1) as Hok2.
  destruct (take_lock e lock (set_state e st h0)) as [h2 [[]|]] eqn:Hlock; [| done].
  apply take_lock_spec in Hlock as (Hin & l & -> & _). cbn [fst] in *.
  apply ok_start_supervisor; try done.
  - apply ok_set_state; [done | by left].
  - cbn. rewrite lookup_insert_eq. done.
  - by apply (nobody_quiesces e h).
Qed.

Lemma usb_endpoint_prefix l s p : String.prefix "usb:" (usb_endpoint l s p) = true.
Proof. unfold usb_endpoint. destruct (negb _); [| destruct (negb _)]; try reflexivity; by destruct p. Qed.

Lemma add_usb_ok `{Runtime} port mode jtag metadata lock now h : hub_ok h → dict_lookup "device_id" metadata = None →
  hub_ok (fst (add_usb port mode jtag metadata lock now h)).
Proof.
  intros Hok Hmeta. unfold add_usb. set (e := usb_endpoint _ _ _).
  assert (Hrem : no_removal e h).
  { intros t Ht%(ok_removing h Hok). unfold e in Ht. by rewrite usb_endpoint_prefix in Ht. }
  clearbody e.
  pose proof (add_supervisor_ok e None metadata lock now h Hok Hmeta Hrem) as Hok1.
  destruct (_add_supervisor _ _ _ _ _ _) as [h1 [u|]]; [| done]. cbn [fst] in *.
  destruct (hb_states h1 !! e) as [st|] eqn:Hst; [| done]. apply ok_set_state; [done |]. right.
  intros old Hold. pose proof (eq_trans (eq_sym Hst) Hold) as [= ->]. rewrite dict_get_set_ne by done.
  unfold setdefault_state. case_match; [done |]. by apply dict_get_set_ne.
Qed.

(** *** Endpoints go *)

Lemma pop_task_waiting e h : hb_waiting (fst (pop_task e h)) = hb_waiting h.
Proof.
  unfold pop_task. destruct (hb_tasks h !! e) as [t|]; [| done]. unfold cancel_task. cbn.
  by destruct (hb_supervisors h !! t).
Qed.

(** Whoever waits for the popped supervisor. *)
Definition waits_for_popped (h : hub) (w : waiting) : Prop :=
  ∀ t, hb_tasks h !! awaited w = Some t → waits_for t w.

(** The supervisor of an endpoint is cancelled, and somebody waits for it. *)
Lemma ok_take_away w m h : hub_ok h → awaited_task w = hb_tasks h !! awaited w →
  (∀ e, e ∈ hb_maintenance h → e ∈ m) → (∀ e, e ∈ m → e ∈ hb_maintenance h ∨ e = awaited w) →
  match w with
  | Quiescing e _ _ _ => String.prefix "usb:" e = true ∧ e ∈ m
  | Removing e _ => String.prefix "usb:" e = false
  end →
  hub_ok (set_waiting (w :: hb_waiting h) (set_maintenance m (fst (pop_task (awaited w) h)))).
Proof.
  intros Hok Hw Hm1 Hm2 Hkind. set (e := awaited w) in *. set (h' := set_waiting _ _).
  destruct (pop_task_frame e h) as (Htask & _ & Hlocks & Hst & Hse & Hdev & Hnext & Hcl & _ & _).
  assert (Hsup : ∀ t sv, hb_supervisors h' !! t = Some sv → ∃ sv0, hb_supervisors h !! t = Some sv0
    ∧ sv_endpoint sv = sv_endpoint sv0 ∧ sv_active sv = sv_active sv0 ∧ sv_phase sv = sv_phase sv0
    ∧ (sv_cancelled sv = false → sv_cancelled sv0 = false ∧ hb_tasks h !! e ≠ Some t)
    ∧ (sv_cancelled sv = true → sv_cancelled sv0 = true ∨ hb_tasks h !! e = Some t)).
  { intros t sv. subst h'. unfold pop_task. cbn. destruct (hb_tasks h !! e) as [t0|] eqn:E; cbn;
      [| intros; exists sv; split_and!; auto].
    rewrite cancel_task_lookup. cbn. case_decide as Ht; [subst t0 |]; intros (sv0 & -> & Hsv)%fmap_Some.
    - exists sv0. subst sv. cbn. split_and!; auto. done.
    - exists sv0. cbn in Hsv. subst sv0. split_and!; auto. intros. split; [done | congruence]. }
  assert (Hcharge : ∀ t e', in_charge h' t e' → in_charge h t e' ∧ e' ≠ e).
  { intros t e' (sv & (sv0 & Hsv & He & _ & Hp & Hc & _)%Hsup & <- & Hl & Hcan). destruct (Hc Hcan) as [Hc0 Hne].
    assert (Hi : in_charge h t (sv_endpoint sv)) by (exists sv0; unfold live; rewrite <- Hp; by split_and!).
    split; [done |]. intros ->%symmetry. by apply Hne, (ok_charge h Hok). }
  assert (Hreg : ∀ d n, registered h' d n → registered h d n) by (unfold registered; subst h'; cbn; by rewrite Hdev).
  constructor; subst h'; cbn [hb_tasks hb_locks hb_states hb_waiting hb_maintenance hb_closing set_waiting set_maintenance];
    rewrite ?Htask, ?Hlocks, ?Hst, ?Hcl.
  - apply (base_maintenance m (set_waiting (w :: hb_waiting h) (fst (pop_task e h)))).
    + pose proof (pop_task_frame e h) as (_ & _ & _ & _ & _ & _ & _ & _ & Hwait & _).
      apply base_wait_popped; [apply Hok | done |]. intros e' t' ->. exact Hkind.
    + cbn. rewrite Htask. intros e' [He' | ->]%Hm2; [| by rewrite lookup_delete_eq].
      rewrite lookup_delete_None. right. by apply (ok_maintenance h Hok).
  - intros e' t [_ Ht]%lookup_delete_Some. by eapply (ok_locked h Hok).
  - intros e' t [_ Ht]%lookup_delete_Some. by eapply (ok_has_state h Hok).
  - intros t e' [Hi Hne]%Hcharge. rewrite lookup_delete_ne by done. by apply (ok_charge h Hok).
  - intros t sv (sv0 & Hsv & He & _ & Hp & _ & Hc)%Hsup Hl Hcan. unfold live in Hl. rewrite Hp in Hl. rewrite He.
    assert (Hpopped : hb_tasks h !! e = Some t → ∃ w', w' ∈ w :: hb_waiting h ∧ awaited w' = sv_endpoint sv0 ∧ waits_for t w').
    { intros Ht. exists w. split; [set_solver |]. destruct (ok_tasks h Hok e t Ht) as (sv1 & H1 & He1).
      assert (sv1 = sv0) as -> by congruence. split; [by symmetry | unfold waits_for; by rewrite Hw]. }
    destruct (Hc Hcan) as [Hc0 | Ht]; [| by right; apply Hpopped].
    destruct (ok_cancelled h Hok t sv0 Hsv Hl Hc0) as [Ht | (w' & ? & ? & ?)].
    + destruct (decide (sv_endpoint sv0 = e)) as [Heq | Hne]; [right; apply Hpopped; congruence | left].
      by rewrite lookup_delete_ne.
    + right. exists w'. split; [set_solver | by split].
  - intros w' [-> | Hw']%elem_of_cons; rewrite lookup_delete_None; [by left | right]. by apply (ok_waiting h Hok).
  - intros e' d s t [<- | Hw']%elem_of_cons.
    + destruct Hkind. split; [done | by left].
    + destruct (ok_quiescing h Hok _ _ _ _ Hw') as [? [? | ?]]; auto.
  - intros d n (t & sv0 & Hsv & Hl & Ha)%Hreg%(ok_run h Hok).
    destruct (pop_task_supervisor e h t sv0 Hsv) as (sv & Hsv' & _ & Ha' & Hp). exists t, sv.
    unfold live. rewrite Hp, Ha'. by split_and!.
  - intros t sv n d state (sv0 & Hsv & He & Ha & Hp & Hc & _)%Hsup Hl Hcan Hact Hr%Hreg. rewrite He.
    destruct (Hc Hcan) as [Hc0 _]. apply (ok_state h Hok t sv0 n d state); auto; [unfold live in *; by rewrite <- Hp | congruence].
  - intros t sv n d f (sv0 & Hsv & He & Ha & Hp & Hc & _)%Hsup Hcan Hph Hact. unfold session_info.
    cbn. rewrite Hse. destruct (Hc Hcan) as [Hc0 _]. apply (ok_disconnecting h Hok t sv0 n d f); congruence.
Qed.

(** The task has ended, and nobody waits for it any more. *)
Lemma await_ended task r h t : await_task task h = Some r → task = Some t → task_ended t h = true.
Proof.
  intros Hr ->. unfold await_task in Hr. unfold task_ended. cbn in Hr. destruct (hb_supervisors h !! t); [| done].
  by destruct (sv_phase _).
Qed.
Lemma await_none t h : await_task (Some t) h = None → task_ended t h = false.
Proof.
  unfold await_task, task_ended. cbn [mbind option_bind]. destruct (hb_supervisors h !! t); [| done]. by destruct (sv_phase _).
Qed.
Lemma ok_stop_waiting l1 w l2 r h : hub_ok h → hb_waiting h = l1 ++ w :: l2 →
  await_task (awaited_task w) h = Some r → hub_ok (set_waiting (l1 ++ l2) h).
Proof.
  intros Hok Hw Hend. assert (Hin : ∀ w', w' ∈ l1 ++ l2 → w' ∈ hb_waiting h) by (rewrite Hw; set_solver).
  constructor; try (by destruct Hok).
  - apply (base_stop_waiting l1 w l2); [apply Hok | done].
  - intros t sv Hsv Hl Hc. destruct (ok_cancelled h Hok t sv Hsv Hl Hc) as [? | (w' & Hw' & ? & Ht)]; [by left |].
    right. exists w'. split; [| done]. rewrite Hw in Hw'. cbn. apply elem_of_app in Hw' as [? | [-> | ?]%elem_of_cons];
      [set_solver | | set_solver]. pose proof (await_ended _ _ _ t Hend Ht) as He. cbn in Hsv.
    unfold task_ended in He. rewrite Hsv in He. unfold live in Hl. congruence.
  - intros w' Hw'%Hin. by apply (ok_waiting h Hok).
  - intros e d s t Hw'%Hin. by apply (ok_quiescing h Hok e d s t).
Qed.

Lemma remove_start_ok e discovery h : hub_ok h → String.prefix "usb:" e = false → hub_ok (remove_start e discovery h).
Proof.
  intros Hok He. unfold remove_start. destruct (hb_states h !! e); [| done]. case_match; [done |].
  pose proof (pop_task_frame e h) as (_ & Hm & _ & _ & _ & _ & _ & _ & Hwait & Htask).
  pose proof (ok_take_away (Removing e (snd (pop_task e h))) (hb_maintenance h) h Hok Htask
    (λ _ H, H) (λ _ H, or_introl H) He) as Hok1.
  destruct (pop_task e h) as [h1 task] eqn:Hpop. cbn in *. rewrite Hpop in Hok1. cbn in Hok1. rewrite Hwait.
  rewrite <- Hm in Hok1. by destruct h1.
Qed.

Lemma remove_finish_ok e h : hub_ok h → hb_tasks h !! e = None → String.prefix "usb:" e = false →
  hub_ok (remove_finish e h).
Proof.
  intros Hok Ht He. constructor; try (by destruct Hok); unfold remove_finish; cbn.
  - by apply base_remove_finish, Hok.
  - intros e' t Ht'. pose proof (ok_locked h Hok e' t Ht'). assert (e' ≠ e) by congruence. set_solver.
  - intros e' t Ht'. rewrite lookup_delete_ne by congruence. by eapply (ok_has_state h Hok).
  - intros e' d s t Hw. destruct (ok_quiescing h Hok _ _ _ _ Hw) as [Hu Hm]. split; [done |].
    assert (e' ≠ e) by congruence. set_solver.
  - intros t sv n d state Hsv Hl Hc Ha Hr [_ Hst]%lookup_delete_Some. by apply (ok_state h Hok t sv n d state).
Qed.

(** *** Maintenance *)

Lemma ok_reserved e h : hub_ok h → hb_tasks h !! e = None → hub_ok (set_maintenance ({[e]} ∪ hb_maintenance h) h).
Proof.
  intros Hok Ht. constructor; try (by destruct Hok); cbn.
  - apply base_maintenance; [apply Hok |]. intros e' [->%elem_of_singleton | He']%elem_of_union;
      [done | by apply (ok_maintenance h Hok)].
  - intros e' d s t Hw. destruct (ok_quiescing h Hok _ _ _ _ Hw) as [? [? | ?]]; set_solver.
Qed.
Lemma ok_given_back e h : hub_ok h → nobody_waits e h → hub_ok (set_maintenance (hb_maintenance h ∖ {[e]}) h).
Proof.
  intros Hok Hw. constructor; try (by destruct Hok); cbn.
  - apply base_maintenance; [apply Hok |]. intros e' He'. apply (ok_maintenance h Hok). set_solver.
  - intros e' d s t Hin. destruct (ok_quiescing h Hok _ _ _ _ Hin) as [? Hm]. split; [done |].
    pose proof (Hw _ Hin). cbn in *. set_solver.
Qed.

Section taking.
Context `{Runtime} (realpath : string → string).
Lemma maintenance_endpoint_ok identifier ports now h : hub_ok h →
  hub_ok (fst (maintenance_endpoint realpath identifier ports now h)).
Proof.
  intros Hok. unfold maintenance_endpoint.
  destruct (List.filter _ _) as [|[k st] [|]]; [| done | done].
  destruct (List.filter _ _) as [|p [|]]; [done | | done]. cbn [fst].
  apply ok_set_configs. eapply ok_set_state_default; [done |]. apply dict_get_updated. set_solver.
Qed.

Lemma quiesce_start_ok identifier ports lock now h : hub_ok h →
  hub_ok (fst (quiesce_start realpath identifier ports lock now h)).
Proof.
  intros Hok. unfold quiesce_start. pose proof (maintenance_endpoint_ok identifier ports now h Hok) as Hok1.
  destruct (maintenance_endpoint _ _ _ _ _) as [h1 [resolved|]]; [| done]. cbn [fst] in Hok1. clear Hok h.
  destruct (subscript resolved _) as [name|]; [| done]. set (e := str name). clearbody e.
  destruct (String.prefix "usb:" e) eqn:He; [| done]. cbn [negb].
  destruct (hb_states h1 !! e) as [st|]; [| done]. case_bool_decide; [done |].
  pose proof (ok_take_lock e lock _ Hok1) as Hok2.
  destruct (take_lock e lock h1) as [h2 [u|]]; [| done]. cbn [fst] in Hok2. clear Hok1.
  rewrite pop_task_maintenance.
  pose proof (pop_task_frame e h2) as (_ & Hm & _ & _ & _ & _ & _ & _ & Hwait & Htask).
  cbn [fst hb_waiting set_maintenance]. rewrite Hwait. set (w := Quiescing _ _ _ _).
  apply (ok_take_away w _ h2 Hok2 Htask); [set_solver | set_solver | split; [done | set_solver]].
Qed.

End taking.

Lemma quiesce_finish_ok e d session now wall h : hub_ok h → hb_tasks h !! e = None →
  hub_ok (fst (quiesce_finish e d session now wall h)).
Proof.
  intros Hok Ht. unfold quiesce_finish. cbn [fst].
  set (h1 := if negb _ then _ else h).
  assert (Hok1 : hub_ok h1 ∧ hb_tasks h1 = hb_tasks h) by (subst h1; case_match; split; auto using ok_set_devices_delete).
  destruct Hok1 as [Hok1 Ht1]. destruct (hb_states h1 !! e); [| done].
  apply ok_set_state; [done |]. left. by rewrite Ht1.
Qed.

Lemma reserve_ok `{Runtime} state lock now h : hub_ok h →
  (∀ name, subscript state "endpoint" = Ok name → hb_tasks h !! str name = None) →
  hub_ok (fst (reserve_maintenance_endpoint state lock now h)).
Proof.
  intros Hok Hst. unfold reserve_maintenance_endpoint. destruct (subscript state "endpoint") as [name|]; [| done].
  specialize (Hst name eq_refl). case_match; [done |].
  assert (Hok1 := ok_set_state (str name) (dict_updated state
    [("state", PStr "maintenance_detached"); ("updated_monotonic_ns", PInt now)]%string) _
    (ok_reserved _ _ Hok Hst) (or_introl Hst)).
  pose proof (ok_take_lock (str name) lock _ Hok1) as Hok2.
  destruct (take_lock _ _ _) as [h2 [u|]]; [| done]. by apply ok_set_configs.
Qed.

Lemma resume_ok e lock now h : hub_ok h → nobody_waits e h → hub_ok (fst (resume_maintenance_endpoint e lock now h)).
Proof.
  intros Hok Hw. unfold resume_maintenance_endpoint. case_match; [done |]. case_match; [| done].
  apply add_supervisor_ok; [by apply ok_given_back | done |]. intros t Hin. by apply (Hw _ Hin).
Qed.

(** *** Closing *)

Lemma cancel_keeps t h : hb_tasks (cancel_task t h) = hb_tasks h ∧ hb_locks (cancel_task t h) = hb_locks h
  ∧ hb_states (cancel_task t h) = hb_states h ∧ hb_waiting (cancel_task t h) = hb_waiting h
  ∧ hb_maintenance (cancel_task t h) = hb_maintenance h ∧ hb_closing (cancel_task t h) = hb_closing h
  ∧ hb_devices (cancel_task t h) = hb_devices h ∧ hb_sessions (cancel_task t h) = hb_sessions h.
Proof. unfold cancel_task. by destruct (hb_supervisors h !! t). Qed.
Lemma cancel_task_supervisor t h t' sv : hb_supervisors (cancel_task t h) !! t' = Some sv →
  ∃ sv0, hb_supervisors h !! t' = Some sv0 ∧ sv_endpoint sv = sv_endpoint sv0 ∧ sv_active sv = sv_active sv0
    ∧ sv_phase sv = sv_phase sv0 ∧ (sv_cancelled sv = false → sv_cancelled sv0 = false)
    ∧ (sv_cancelled sv = true → sv_cancelled sv0 = true ∨ t = t').
Proof.
  rewrite cancel_task_lookup. intros (sv0 & -> & Hsv)%fmap_Some. exists sv0.
  case_decide; cbn in Hsv; subst sv; cbn; split_and!; auto; done.
Qed.
(** An endpoint's task, or one that somebody waits for, is cancelled. *)
Lemma ok_cancel t h : hub_ok h →
  (∀ sv, hb_supervisors h !! t = Some sv →
    hb_tasks h !! sv_endpoint sv = Some t ∨ ∃ w, w ∈ hb_waiting h ∧ awaited w = sv_endpoint sv ∧ waits_for t w) →
  hub_ok (cancel_task t h).
Proof.
  intros Hok Hwhy. destruct (cancel_keeps t h) as (Ht & Hlo & Hst & Hw & Hm & Hcl & Hd & Hse).
  assert (Hreg : ∀ d n, registered (cancel_task t h) d n → registered h d n) by (unfold registered; by rewrite Hd).
  constructor; rewrite ?Ht, ?Hlo, ?Hst, ?Hw, ?Hm, ?Hcl; try (by destruct Hok).
  - by apply base_cancel, Hok.
  - intros t' e (sv & (sv0 & H0 & He & _ & Hp & Hc & _)%cancel_task_supervisor & <- & Hl & Hcan). rewrite He.
    apply (ok_charge h Hok). exists sv0. unfold live in *. rewrite <- Hp. split_and!; auto.
  - intros t' sv (sv0 & H0 & He & _ & Hp & _ & Hc)%cancel_task_supervisor Hl Hcan. rewrite He.
    destruct (Hc Hcan) as [Hc0 | <-]; [| by apply Hwhy]. apply (ok_cancelled h Hok t'); auto. unfold live in *. by rewrite <- Hp.
  - intros d n (t' & sv0 & Hsv & Hl & Ha)%Hreg%(ok_run h Hok).
    exists t', ((if decide (t = t') then λ sv, Supervisor (sv_endpoint sv) (sv_attempt sv) (sv_active sv) (sv_phase sv) true else id) sv0).
    rewrite cancel_task_lookup, Hsv. split_and!; [done | by case_decide | by case_decide].
  - intros t' sv n d state (sv0 & H0 & He & Ha & Hp & Hc & _)%cancel_task_supervisor Hl Hcan Hact Hr%Hreg. rewrite He.
    apply (ok_state h Hok t' sv0 n d state); auto; [unfold live in *; by rewrite <- Hp | congruence].
  - intros t' sv n d f (sv0 & H0 & He & Ha & Hp & Hc & _)%cancel_task_supervisor Hcan Hph Hact.
    unfold session_info. rewrite Hse. apply (ok_disconnecting h Hok t' sv0 n d f); auto; congruence.
Qed.

Lemma close_start_ok h : hub_ok h → hub_ok (close_start h).
Proof.
  intros Hok. constructor; try (by destruct Hok); [by apply (base_same h); [apply Hok |] |].
  intros e d s t Hw. destruct (ok_quiescing h Hok e d s t Hw). split; [done | by right].
Qed.
Lemma close_cancel_ok h : hub_ok h → hub_ok (close_cancel h).
Proof.
  intros Hok. unfold close_cancel.
  assert (Hin : ∀ t, t ∈ map snd (map_to_list (hb_tasks h)) → ∃ e, hb_tasks h !! e = Some t).
  { intros t (kv & -> & Hkv)%list_elem_of_fmap. exists kv.1. by apply elem_of_map_to_list; destruct kv. }
  revert Hin. generalize (map snd (map_to_list (hb_tasks h))). intros l. revert h Hok.
  induction l as [|t l IH]; intros h Hok Hin; [done |]. cbn. apply IH.
  - apply ok_cancel; [done |]. intros sv Hsv. left. destruct (Hin t) as [e He]; [set_solver |].
    destruct (ok_tasks h Hok e t He) as (sv' & ? & ?). congruence.
  - intros t' Ht'. rewrite (proj1 (cancel_keeps t h)). apply Hin. set_solver.
Qed.
(** Nobody is in charge once the tasks are cancelled. *)
Lemma close_cancel_quiet h t e : hub_ok h → ¬ in_charge (close_cancel h) t e.
Proof.
  intros Hok (sv & Hsv & He & Hl & Hc).
  assert (Hall : ∀ l h', hb_supervisors (fold_left (λ h t, cancel_task t h) l h') !! t = Some sv →
    (t ∉ l) ∧ ∃ sv0, hb_supervisors h' !! t = Some sv0 ∧ sv_endpoint sv0 = sv_endpoint sv ∧ sv_phase sv0 = sv_phase sv
      ∧ sv_cancelled sv0 = false).
  { clear - Hc. induction l as [|t' l IH]; cbn; intros h' Hs; [split; [set_solver | by exists sv] |].
    destruct (IH _ Hs) as (Hnot & sv1 & H1 & He1 & Hp1 & Hc1).
    rewrite cancel_task_lookup in H1. apply fmap_Some in H1 as (sv0 & H0 & Hs1). case_decide; [by subst sv1 |].
    cbn in Hs1. subst sv1. split; [set_solver | by exists sv0]. }
  destruct (Hall _ _ Hsv) as (Hnot & sv0 & H0 & He0 & Hp0 & Hc0). apply Hnot.
  change (t ∈ (map_to_list (hb_tasks h)).*2). apply list_elem_of_fmap. exists (sv_endpoint sv0, t). split; [done |].
  apply elem_of_map_to_list, (in_charge_task h t sv0 Hok H0); [unfold live; by rewrite Hp0 | done].
Qed.

Lemma close_finish_ok h : hub_ok h → hb_closing h = true → (∀ e t, hb_tasks h !! e = Some t → task_ended t h = true) → hub_ok (close_finish h).
Proof.
  intros Hok Hcl Hend.
  assert (Hno : ∀ t sv, hb_supervisors h !! t = Some sv → live sv → hb_tasks h !! sv_endpoint sv ≠ Some t).
  { intros t sv Hsv Hl Ht%Hend. unfold task_ended in Ht. rewrite Hsv in Ht. unfold live in Hl. congruence. }
  constructor; try (by destruct Hok); cbn; try done.
  - by apply base_close_finish, Hok.
  - intros t e Hi. destruct Hi as (sv & Hsv & He & Hl & Hc). destruct (Hno t sv Hsv Hl). by apply (in_charge_task h t sv).
  - intros t sv Hsv Hl Hc. destruct (ok_cancelled h Hok t sv Hsv Hl Hc) as [Ht | Hw]; [by destruct (Hno t sv) | by right].
  - intros e d s t Hw. destruct (ok_quiescing h Hok e d s t Hw). split; [done | by right].
Qed.

Lemma step_ok `{Runtime} realpath h h' : hub_ok h → step realpath true h h' → hub_ok h'.
Proof.
  intros Hok [].
  - by apply add_supervisor_ok; auto.
  - apply ok_set_state; [done |]. right. intros old Hold. assert (old = st) as -> by congruence.
    by apply dict_get_updated, dict_lookup_absent.
  - by apply add_usb_ok.
  - by apply remove_start_ok.
  - assert (Hin : Removing e task ∈ hb_waiting h) by (rewrite H0; set_solver).
    apply remove_finish_ok; [| by apply (ok_waiting h Hok _ Hin) | by apply (ok_removing h Hok _ _ Hin)].
    by eapply ok_stop_waiting.
  - by apply quiesce_start_ok.
  - assert (Hin : Quiescing e d session task ∈ hb_waiting h) by (rewrite H0; set_solver).
    apply quiesce_finish_ok; [| by apply (ok_waiting h Hok _ Hin)]. by eapply ok_stop_waiting.
  - by eapply ok_stop_waiting.
  - apply ok_cancel; [done |]. intros sv Hsv. right. exists w. destruct (bs_waits h (ok_base h Hok) w t H0 H1) as (sv' & ? & ?).
    split_and!; [done | congruence | done].
  - by apply reserve_ok.
  - by apply resume_ok; auto.
  - by apply supervise_ok; auto.
  - eapply on_ready_ok; eauto. unfold live. by rewrite H2.
  - by apply close_start_ok.
  - by apply close_cancel_ok.
  - apply close_finish_ok; [done | done |]. intros e t Ht. by eapply await_ended; [by apply (H1 e) |].
Qed.
Lemma orderly_ok `{Runtime} realpath h : orderly_reachable realpath h → hub_ok h.
Proof. induction 1; [apply hub_init_ok | by eapply step_ok]. Qed.
