(* ===== verification/HubContract.v ===== *)
(** * What the hub promises

    One supervisor in charge of an endpoint and one session for a device; what
    becomes of a device that is ready, of a link that is lost, and of an
    endpoint that is taken for maintenance and given back. *)
From S2P Require Import Prelude Text Value Enums DeviceInfo Store Runtime Effects Workflow Hub HubProps.

(** ** Supervision *)

(** C10: In every reachable state of the hub a registered session is one that
    has announced the device, a session is registered for one device at most and
    run by one supervisor at most, on the session's endpoint, and an endpoint that
    has a task is not in maintenance, and the task supervises it.

    In an orderly run - one in which no endpoint is added again while its removal
    waits for the old supervisor, none is given back while its taking waits, and
    no cancelled supervisor goes on because a clean-up raised an error it handles -
    a registered session is, moreover, the active session of a live supervisor; a
    supervisor in charge of an endpoint is the only live one there, is the
    endpoint's task, and holds the endpoint's lock; and when [close] has cancelled
    the supervisors nobody is in charge.  The program does not keep to orderly
    runs: [reannounced_never_supervised] and [cancelled_supervisor_survives]. *)
Theorem hub_supervision `{Runtime} realpath h : reachable realpath h →
  (∀ d n, registered h d n → ∃ info, session_info h n = Some info ∧ device_id info = d)
  ∧ (∀ d d' n, registered h d n → registered h d' n → d' = d)
  ∧ (∀ t sv n, hb_supervisors h !! t = Some sv → sv_active sv = Some n →
       session_endpoint h n = Some (sv_endpoint sv)
       ∧ ∀ t' sv', hb_supervisors h !! t' = Some sv' → sv_active sv' = Some n → t' = t)
  ∧ (∀ e t, hb_tasks h !! e = Some t → (e ∉ hb_maintenance h) ∧ ∃ sv, hb_supervisors h !! t = Some sv ∧ sv_endpoint sv = e)
  ∧ (orderly_reachable realpath h →
      (∀ d n, registered h d n → ∃ t sv, hb_supervisors h !! t = Some sv ∧ live sv ∧ sv_active sv = Some n)
      ∧ (∀ t e t' sv', in_charge h t e → hb_supervisors h !! t' = Some sv' → live sv' → sv_endpoint sv' = e → t' = t)
      ∧ (∀ t e, in_charge h t e → hb_tasks h !! e = Some t ∧ e ∈ hb_locks h)
      ∧ ∀ t e, ¬ in_charge (close_cancel h) t e).
Proof.
  intros Hb%(reachable_base realpath). split_and!.
  - intros d n Hreg. by apply (bs_registered h Hb d n).
  - intros d d' n Hreg Hreg'. destruct (bs_registered h Hb d n Hreg) as (_ & i & Hi & <-).
    destruct (bs_registered h Hb d' n Hreg') as (_ & i' & Hi' & <-). congruence.
  - intros t sv n Hsv Ha. split; [by apply (bs_active h Hb t) |]. intros t' sv' Hsv' Ha'. by eapply (bs_distinct h Hb).
  - intros e t Ht. split; [| by apply (bs_tasks h Hb)]. intros Hm%(bs_maintenance h Hb). congruence.
  - intros Hok%(orderly_ok realpath). split_and!.
    + apply (ok_run h Hok).
    + intros t e t' sv' (sv & Hsv & <- & Hl & Hc) Hsv' Hl' He'. by apply (charge_unique h t t' sv sv').
    + intros t e Hi%(ok_charge h Hok). split; [done | by eapply ok_locked].
    + intros t e. by apply close_cancel_quiet.
Qed.

(** ** Ready devices *)

Definition mac_conflict (h : hub) (n : nat) (info : DeviceInfo) : Prop :=
  hardware_mac info ≠ ""%string ∧ ∃ d m other, ((d, m) ∈ hb_devices h) ∧ m ≠ n ∧ session_info h m = Some other
    ∧ hardware_mac other = hardware_mac info ∧ d ≠ device_id info.
(** Why the session [n] of endpoint [e] cannot be registered as [info]. *)
Definition refused (h : hub) (e : string) (n : nat) (info : DeviceInfo) : Prop :=
  (∃ st, hb_states h !! e = Some st ∧ dict_get "advertised_device_id" st ≠ PNone
     ∧ dict_get "advertised_device_id" st ≠ PStr (device_id info))
  ∨ (∃ m, m ≠ n ∧ registered h (device_id info) m)
  ∨ mac_conflict h n info.

Definition registered_as (h h' : hub) (e : string) (n : nat) (info : DeviceInfo) (event : dict) : Prop :=
  registered h' (device_id info) n
  ∧ (∀ d, d ≠ device_id info → dict_lookup d (hb_devices h') = dict_lookup d (hb_devices h))
  ∧ hb_last_boot h' = <[device_id info := boot_id info]> (hb_last_boot h)
  ∧ dict_get "connection_state" event = PStr (connection_state (hb_last_boot h !! device_id info) (boot_id info))
  ∧ dict_get "device_id" event = PStr (device_id info)
  ∧ ∃ st, hb_states h' !! e = Some st ∧ dict_get "state" st = PStr "ready" ∧ dict_get "error" st = PNone
      ∧ dict_get "device_id" st = PStr (device_id info).


(** Read a key of a dictionary that was updated. *)
Local Ltac reads := unfold dict_updated; cbn [fold_left fst snd]; rewrite !dict_get_set; done.

Lemma same_mac_spec n info h d m : same_mac n info h (d, m) = true ↔
  m ≠ n ∧ (∃ other, session_info h m = Some other ∧ hardware_mac other = hardware_mac info) ∧ d ≠ device_id info.
Proof.
  unfold same_mac. cbn. rewrite !andb_true_iff, !negb_true_iff, Nat.eqb_neq, String.eqb_neq.
  destruct (session_info h m); [rewrite String.eqb_eq | ]; naive_solver.
Qed.
Lemma mac_search n info h :
  match if (hardware_mac info =? "")%string then None else find (same_mac n info h) (hb_devices h) with
  | Some _ => mac_conflict h n info
  | None => ¬ mac_conflict h n info
  end.
Proof.
  destruct (String.eqb_spec (hardware_mac info) "") as [Hm | Hm]; cbv beta iota; [intros [Hx _]; by apply Hx |].
  destruct (find _ _) as [[d m]|] eqn:Hf.
  - apply find_some in Hf as [Hin (? & (other & ? & ?) & ?)%same_mac_spec]. split; [done |].
    exists d, m, other. split_and!; try done. by apply list_elem_of_In.
  - intros (_ & d & m & other & Hin & ? & ? & ? & ?). apply list_elem_of_In in Hin.
    pose proof (find_none _ _ Hf _ Hin) as Hno. rewrite (proj2 (same_mac_spec n info h d m)) in Hno; [done | naive_solver].
Qed.

Lemma register_cases n info e st now wall h : is_Some (hb_states h !! e) →
  match register n info e st now wall h with
  | (h', Ok event) => ¬ mac_conflict h n info ∧ registered_as h h' e n info event
  | (h', Err x) => exn_cls x = RuntimeError ∧ h' = h ∧ mac_conflict h n info
  end.
Proof.
  intros [old Hold]. unfold register. pose proof (mac_search n info h) as Hmac.
  destruct (if (hardware_mac info =? "")%string then None else find _ _) as [[d m]|]; [done |].
  unfold _set_endpoint_state. cbn [hb_states set_devices]. rewrite Hold. cbv beta iota zeta.
  split; [done |]. split_and!; try done.
  - unfold registered. cbn. by rewrite dict_lookup_set, String.eqb_refl.
  - intros d Hd. cbn. rewrite dict_lookup_set. by destruct (String.eqb_spec (device_id info) d).
  - eexists. split; [apply lookup_insert_eq |]. split_and!; reads.
Qed.

(** A device that becomes ready is registered with its session, unless its
    endpoint advertised another device, or another session has the device id or
    another device the hardware MAC; then nothing is registered and nothing
    forgotten.  A registered device's endpoint is ready, and the event says
    whether the device has connected, reconnected or rebooted (in an orderly
    run, where the endpoint of a supervisor in charge has a state). *)
Theorem device_ready `{Runtime} realpath t sv n info now wall h : orderly_reachable realpath h → hb_supervisors h !! t = Some sv →
  live sv → sv_cancelled sv = false → sv_active sv = Some n →
  match _on_ready n info now wall h with
  | (h', Ok event) => ¬ refused h (sv_endpoint sv) n info ∧ registered_as h h' (sv_endpoint sv) n info event
  | (h', Err x) => exn_cls x = RuntimeError ∧ refused h (sv_endpoint sv) n info
      ∧ hb_devices h' = hb_devices h ∧ hb_last_boot h' = hb_last_boot h
  end.
Proof.
  intros Hok%(orderly_ok realpath) Hsv Hl Hc Ha. unfold _on_ready. rewrite (ok_active h Hok t sv n Hsv Ha).
  destruct (ok_has_state h Hok _ _ (in_charge_task h t sv Hok Hsv Hl Hc)) as [st Hst].
  cbn [hb_states set_sessions]. rewrite Hst.
  set (e := sv_endpoint sv) in *. set (adv := dict_get "advertised_device_id" st) in *.
  destruct (negb (is_none adv) && _) eqn:Hadv.
  { apply andb_true_iff in Hadv as [Hn Hd]. split_and!; try done. left. exists st. split_and!; [done | |].
    - fold adv. intros Hx. by rewrite Hx in Hn.
    - fold adv. intros Hx. rewrite Hx in Hd. cbn in Hd. by rewrite String.eqb_refl in Hd. }
  set (st' := dict_set _ _ st). set (h2 := set_state e st' _).
  assert (Hmac : mac_conflict h2 n info ↔ mac_conflict h n info).
  { unfold mac_conflict. assert (Hi : ∀ m, m ≠ n → session_info h2 m = session_info h m).
    { intros m Hm. unfold session_info. cbn. by rewrite lookup_insert_ne. }
    split; intros (? & d & m & other & ? & ? & Hm & ? & ?); (split; [done |]); exists d, m, other.
    - rewrite Hi in Hm by done. by split_and!.
    - rewrite Hi by done. by split_and!. }
  pose proof (register_cases n info e st' now wall h2) as Hreg.
  assert (Hst2 : is_Some (hb_states h2 !! e)) by (exists st'; apply lookup_insert_eq). specialize (Hreg Hst2).
  assert (Hnot : dict_lookup (device_id info) (hb_devices h) = None ∨ dict_lookup (device_id info) (hb_devices h) = Some n →
    match register n info e st' now wall h2 with
    | (h', Ok event) => ¬ refused h e n info ∧ registered_as h h' e n info event
    | (h', Err x) => exn_cls x = RuntimeError ∧ refused h e n info ∧ hb_devices h' = hb_devices h ∧ hb_last_boot h' = hb_last_boot h
    end).
  { intros Hdev. destruct (register n info e st' now wall h2) as [h' [event|x]].
    - destruct Hreg as [Hno Hreg]. split; [| exact Hreg]. intros [(st1 & Hst1 & Hx & Hy) | [(m & Hm & Hr) | Hx]].
      + assert (st1 = st) as -> by congruence. fold adv in Hx, Hy. destruct adv; try done; cbn in Hadv.
        apply negb_false_iff, String.eqb_eq in Hadv. congruence.
      + unfold registered in Hr. destruct Hdev; congruence.
      + by apply Hno, Hmac.
    - destruct Hreg as (? & -> & Hx). split_and!; try done. right. right. by apply Hmac. }
  cbn [hb_devices set_state set_states set_sessions h2].
  destruct (dict_lookup (device_id info) (hb_devices h)) as [m|] eqn:Hm; [| by apply Hnot; left].
  destruct (Nat.eqb_spec m n) as [-> | Hne]; [by apply Hnot; right |].
  split_and!; try done. right. left. by exists m.
Qed.

(** ** Lost links *)

Lemma retry_frame t sv failure now h st : hb_states h !! sv_endpoint sv = Some st →
  ∃ st', retry t sv failure now h
    = set_supervisor t (at_phase Sleeping (with_active None sv)) (set_state (sv_endpoint sv) st' h)
  ∧ dict_get "state" st' = PStr "retrying" ∧ dict_get "error" st' = PStr failure.
Proof.
  intros Hst. unfold retry, _set_endpoint_state. cbn [sv_endpoint with_active]. rewrite Hst.
  eexists. split; [done |]. split; reads.
Qed.
Lemma forget_mirrors_gone d c h : hb_mirrors (forget_mirrors d h) !! (d, c) = None.
Proof. cbn. apply map_lookup_filter_None. right. intros x _. cbn. auto. Qed.

(** When the link of a registered device fails with an error the supervisor
    handles, it publishes that the device is disconnected, while the device is
    still registered; once that is published the device alone is unregistered and
    its screen and media state forgotten, and the supervisor waits to try
    again with no session (in an orderly run). *)
Theorem link_lost `{Runtime} realpath t sv n info e now wall now' wall' h : orderly_reachable realpath h → hb_supervisors h !! t = Some sv →
  sv_cancelled sv = false → sv_phase sv = Running → sv_active sv = Some n → session_info h n = Some info →
  registered h (device_id info) n → catches SUPERVISED_ERRORS e = true →
  let (h1, event) := _supervise t (Err e) now wall h in
  let h2 := fst (_supervise t (Ok tt) now' wall' h1) in
  event = Some (connection_event "disconnected" (device_id info) (PInt (boot_id info)) (PInt (session_id info))
                  (sv_endpoint sv) now wall)
  ∧ hb_devices h1 = hb_devices h
  ∧ dict_lookup (device_id info) (hb_devices h2) = None
  ∧ (∀ d, d ≠ device_id info → dict_lookup d (hb_devices h2) = dict_lookup d (hb_devices h))
  ∧ (∀ channel, hb_mirrors h2 !! (device_id info, channel) = None)
  ∧ hb_supervisors h2 !! t = Some (at_phase Sleeping (with_active None sv))
  ∧ ∃ st, hb_states h2 !! sv_endpoint sv = Some st ∧ dict_get "state" st = PStr "retrying"
      ∧ dict_get "error" st = PStr (exn_msg e).
Proof.
  intros Hok%(orderly_ok realpath) Hsv Hc Hp Ha Hi Hreg He.
  assert (Hun : uncancelled sv = sv) by (destruct sv; cbn in *; by subst).
  assert (Hl : live sv) by (unfold live; by rewrite Hp).
  destruct (ok_has_state h Hok _ _ (in_charge_task h t sv Hok Hsv Hl Hc)) as [st Hst].
  pose proof (ok_state h Hok t sv n _ st Hsv Hl Hc Ha Hreg Hst) as Hd.
  destruct (ok_registered h Hok _ n Hreg) as (Hne & _).
  unfold _supervise at 1. rewrite Hsv, Hun, Hp. unfold failed_with_error. rewrite He.
  unfold lost. rewrite Hst, Hd. apply String.eqb_neq in Hne. rewrite Hne. unfold registered in Hreg. rewrite Hreg.
  rewrite bool_decide_true by (by apply (ok_active h Hok t)). rewrite Hi.
  split_and!; [done | done | ..]; unfold _supervise; cbn [hb_supervisors set_supervisor set_supervisors];
    rewrite lookup_insert_eq; cbn [sv_phase uncancelled at_phase]; unfold disconnected;
    cbn [hb_devices set_supervisor set_supervisors]; rewrite dict_lookup_has_key, Hreg; cbn [fst];
    match goal with |- context [retry ?t ?sv ?f ?now ?h] =>
      destruct (retry_frame t sv f now h st Hst) as (st' & -> & Hs1 & Hs2) end;
    cbn [hb_devices hb_mirrors hb_states hb_supervisors set_supervisor set_supervisors set_state set_states
         forget_mirrors set_mirrors set_devices].
  - by rewrite dict_lookup_delete, String.eqb_refl.
  - intros d Hdd. rewrite dict_lookup_delete. by destruct (String.eqb_spec (device_id info) d).
  - intros c. apply (forget_mirrors_gone (device_id info) c h).
  - rewrite lookup_insert_eq. unfold at_phase, with_active, uncancelled. cbn. by rewrite Hc.
  - exists st'. split_and!; try done. apply lookup_insert_eq.
Qed.

(** ** Maintenance *)

(** What supervision does not touch. *)
Definition same_endpoints (h h' : hub) : Prop :=
  hb_tasks h' = hb_tasks h ∧ hb_locks h' = hb_locks h ∧ hb_configs h' = hb_configs h
  ∧ hb_maintenance h' = hb_maintenance h ∧ hb_closing h' = hb_closing h ∧ hb_waiting h' = hb_waiting h.
(** The supervisor [t] after it ran as [sv]: its endpoint is the same, and no
    cancellation is due. *)
Definition ran (t : nat) (sv : supervisor) (h h' : hub) : Prop :=
  same_endpoints h h' ∧ ∃ sv', hb_supervisors h' !! t = Some sv' ∧ sv_endpoint sv' = sv_endpoint sv
    ∧ sv_cancelled sv' = sv_cancelled sv.

Lemma finalize_frame t sv e now h : same_endpoints h (finalize t sv e now h)
  ∧ hb_supervisors (finalize t sv e now h) !! t = Some (at_phase (Ended
      (match hb_states h !! sv_endpoint sv with Some _ => e | None => Exn KeyError (sv_endpoint sv) 0 end)) sv).
Proof.
  unfold finalize. destruct (unregister_active_frame sv h) as [l ->]. unfold _set_endpoint_state. cbn [hb_states set_devices].
  destruct (hb_states h !! sv_endpoint sv); (split; [done | apply lookup_insert_eq]).
Qed.
Lemma finalize_ran t sv e now h : ran t sv h (finalize t sv e now h).
Proof. destruct (finalize_frame t sv e now h) as [Hs Hf]. split; [done |]. eexists. by split; [exact Hf |]. Qed.
Lemma retry_ran t sv failure now h : ran t sv h (retry t sv failure now h).
Proof.
  unfold retry, _set_endpoint_state. cbn [sv_endpoint with_active]. destruct (hb_states h !! sv_endpoint sv).
  - split; [done |]. eexists. by split; [apply lookup_insert_eq |].
  - apply (finalize_ran t (with_active None sv)).
Qed.
Lemma supervise_ran t r now wall h sv : hb_supervisors h !! t = Some sv → task_ended t h = false →
  ran t (uncancelled sv) h (fst (_supervise t r now wall h)).
Proof.
  intros Hsv Hend. unfold task_ended in Hend. rewrite Hsv in Hend. unfold _supervise. rewrite Hsv.
  cbn [sv_phase uncancelled]. set (sv1 := uncancelled sv) in *. clearbody sv1.
  assert (Hset : ∀ h' sv', same_endpoints h h' → sv_endpoint sv' = sv_endpoint sv1 → sv_cancelled sv' = sv_cancelled sv1 →
    ran t sv1 h (set_supervisor t sv' h')).
  { intros h' sv' Hs He Hc. split; [exact Hs |]. exists sv'. by split; [apply lookup_insert_eq |]. }
  assert (Hlost : ∀ failure, ran t sv1 h (fst (lost t sv1 failure now wall h))).
  { intros failure. unfold lost. repeat case_match; cbn [fst]; first [apply finalize_ran | by apply Hset | apply retry_ran | idtac].
    all: apply (retry_ran t sv1 failure now (forget_mirrors _ h)). }
  assert (Hbegin : ran t sv1 h (begin_attempt t sv1 now h)).
  { unfold begin_attempt, _set_endpoint_state. cbn [sv_endpoint]. destruct (hb_states h !! _); [by apply Hset |].
    by apply (finalize_ran t (Supervisor _ _ _ _ _)). }
  destruct (sv_phase sv) eqn:Hp, r; try done; try case_match; cbn [fst];
    first [apply finalize_ran | exact Hbegin | apply Hlost | by apply Hset | idtac].
  - unfold opened, _set_endpoint_state. destruct (hb_states h !! _); [by apply Hset | apply finalize_ran].
  - unfold failed_with_error. case_match; [apply Hlost | apply finalize_ran].
  - unfold failed_with_error. case_match; [apply Hlost | apply finalize_ran].
  - unfold disconnected. case_match; [| apply finalize_ran].
    apply (retry_ran t sv1 _ now (forget_mirrors _ (set_devices _ h))).
Qed.
(** A cancelled supervisor that does not survive ends. *)
Lemma cancelled_ends t r now wall h sv : hb_supervisors h !! t = Some sv → sv_cancelled sv = true → survives sv r = false →
  task_ended t (fst (_supervise t r now wall h)) = true.
Proof.
  intros Hsv Hc Hends. unfold survives in Hends. rewrite Hc in Hends. cbn [andb] in Hends.
  unfold _supervise. rewrite Hsv. cbn [sv_phase uncancelled]. rewrite Hc. unfold task_ended.
  assert (Hfin : ∀ sv e, match hb_supervisors (finalize t sv e now h) !! t with
    Some sv => is_ended (sv_phase sv) | None => true end = true)
    by (intros sv1 e; by rewrite (proj2 (finalize_frame t sv1 e now h))).
  destruct (sv_phase sv) eqn:Hp, r; try done; cbn [fst]; unfold failed_with_error; rewrite ?Hends; try apply Hfin;
    cbn; rewrite ?lookup_insert_eq, ?Hsv, ?Hp; done.
Qed.
(** The cancellation itself ends it. *)
Lemma cancellation_ends t now wall h sv : hb_supervisors h !! t = Some sv → sv_cancelled sv = true →
  task_ended t h = false → is_Some (hb_states h !! sv_endpoint sv) →
  await_task (Some t) (fst (_supervise t (Err CANCELLATION) now wall h)) = Some (Ok tt).
Proof.
  intros Hsv Hc Hend [st Hst]. unfold task_ended in Hend. rewrite Hsv in Hend.
  unfold _supervise, await_task. rewrite Hsv. cbn [sv_phase uncancelled]. rewrite Hc.
  assert (Hfin : hb_supervisors (finalize t (uncancelled sv) CANCELLATION now h) !! t
    = Some (at_phase (Ended CANCELLATION) (uncancelled sv))).
  { rewrite (proj2 (finalize_frame t (uncancelled sv) CANCELLATION now h)). cbn [sv_endpoint uncancelled]. by rewrite Hst. }
  destruct (sv_phase sv); try done; unfold failed_with_error; cbn [fst mbind option_bind];
    try (change (catches SUPERVISED_ERRORS CANCELLATION) with false; cbn [fst]); rewrite ?Hfin; try done.
  cbn. by rewrite lookup_insert_eq.
Qed.
Lemma maintenance_endpoint_frame `{Runtime} realpath identifier ports now h :
  let h' := fst (maintenance_endpoint realpath identifier ports now h) in
  hb_tasks h' = hb_tasks h ∧ hb_maintenance h' = hb_maintenance h ∧ hb_supervisors h' = hb_supervisors h
  ∧ hb_devices h' = hb_devices h ∧ hb_waiting h' = hb_waiting h.
Proof. cbv zeta. unfold maintenance_endpoint. by repeat case_match. Qed.

(** What an endpoint looks like that was taken away. *)
Record taken (e : string) (h : hub) : Prop := {
  tk_maintenance : e ∈ hb_maintenance h;
  tk_lock : e ∈ hb_locks h;
  tk_task : hb_tasks h !! e = None;
}.
(** Its supervisor, to be awaited. *)
Definition evicted (e : string) (task : option nat) (h : hub) : Prop :=
  is_Some (hb_states h !! e)
  ∧ ∀ t, task = Some t → ∃ sv, hb_supervisors h !! t = Some sv ∧ sv_endpoint sv = e ∧ sv_cancelled sv = true.

Lemma quiesce_start_cases `{Runtime} realpath identifier ports lock now h : hub_base h →
  match quiesce_start realpath identifier ports lock now h with
  | (h1, Ok (Quiescing e d s task)) => taken e h1 ∧ evicted e task h1 ∧ hb_waiting h1 = Quiescing e d s task :: hb_waiting h
  | (h1, Ok (Removing _ _)) => False
  | (h1, Err _) => hb_tasks h1 = hb_tasks h ∧ hb_maintenance h1 = hb_maintenance h
      ∧ hb_supervisors h1 = hb_supervisors h ∧ hb_devices h1 = hb_devices h
  end.
Proof.
  intros Hb%(base_maintenance_endpoint realpath identifier ports now).
  unfold quiesce_start. pose proof (maintenance_endpoint_frame realpath identifier ports now h) as (Ht & Hm & Hs & Hd & Hw).
  destruct (maintenance_endpoint _ _ _ _ _) as [h1 [resolved|]]; [| done]. cbn [fst] in *.
  destruct (subscript resolved _) as [name|]; [| done]. set (e := str name). clearbody e.
  destruct (String.prefix "usb:" e); cbn [negb]; [| done].
  destruct (hb_states h1 !! e) as [st|] eqn:Hst; [| done]. case_bool_decide; [done |].
  destruct (take_lock e lock h1) as [h2 [u|x]] eqn:Hlock; cycle 1.
  { unfold take_lock in Hlock. case_bool_decide; [done |]. destruct lock; [done |]. by injection Hlock as <- _. }
  destruct u. apply take_lock_spec in Hlock as (Hin & l & -> & _). rewrite pop_task_maintenance.
  destruct (pop_task_frame e (set_locks l h1)) as (Htasks & _ & Hlocks & Hstates & _ & _ & _ & _ & Hwait & Htask).
  split_and!.
  - constructor; cbn; rewrite ?Htasks, ?Hlocks; [set_solver | done | apply lookup_delete_eq].
  - split; cbn; rewrite ?Hstates; [by exists st |]. intros t Htk. rewrite Htask in Htk.
    destruct (bs_tasks h1 Hb e t Htk) as (sv & Hsv & <-). unfold pop_task. cbn in Htk |- *. rewrite Htk. cbn [fst].
    rewrite cancel_task_lookup, decide_True by done. cbn. rewrite Hsv. eexists. by split_and!.
  - cbn. rewrite Hwait. cbn. by rewrite Hw.
Qed.

(** A taken endpoint is given back to a new supervisor. *)
Lemma resume_taken e token lock now h : taken e h → hb_configs h !! e = Some token → hb_closing h = false →
  in_charge (fst (resume_maintenance_endpoint e lock now h)) (hb_next h) e
  ∧ e ∉ hb_maintenance (fst (resume_maintenance_endpoint e lock now h)).
Proof.
  intros [Hm Hlock Htask] Hcfg Hcl. unfold resume_maintenance_endpoint.
  rewrite bool_decide_true, Hcfg by done. cbn [negb]. unfold _add_supervisor. cbn [hb_closing set_maintenance].
  rewrite Hcl. cbn [hb_tasks hb_maintenance set_state set_states set_configs set_maintenance]. rewrite Htask.
  rewrite bool_decide_false by set_solver. unfold take_lock. rewrite bool_decide_true by done.
  split; [| cbn; set_solver]. eexists. split; [cbn; apply lookup_insert_eq |]. by split_and!.
Qed.

Definition run_cancelled (task : option nat) (r : res unit) (now wall : Z) (h : hub) : hub :=
  match task with Some t => fst (_supervise t r now wall h) | None => h end.
Lemma run_cancelled_frame task r now wall h : same_endpoints h (run_cancelled task r now wall h).
Proof.
  destruct task as [t|]; [| done]. cbn. destruct (task_ended t h) eqn:Hend.
  - unfold _supervise, task_ended in *. destruct (hb_supervisors h !! t) as [sv|]; [| done].
    cbn [sv_phase uncancelled]. by destruct (sv_phase sv), r.
  - unfold task_ended in Hend. destruct (hb_supervisors h !! t) as [sv|] eqn:Hsv; [| done].
    apply (supervise_ran t r now wall h sv Hsv). unfold task_ended. by rewrite Hsv.
Qed.
Lemma taken_same e h h' : taken e h → same_endpoints h h' → taken e h'.
Proof. intros [Hm Hl Ht] (E1 & E2 & _ & E3 & _). constructor; congruence. Qed.
Lemma quiesce_finish_frame e d session now wall h :
  same_endpoints h (fst (quiesce_finish e d session now wall h))
  ∧ hb_devices (fst (quiesce_finish e d session now wall h)) = (if (d =? "")%string then hb_devices h else delete_key d (hb_devices h)).
Proof.
  unfold quiesce_finish. cbn [fst]. destruct (d =? "")%string; cbn [negb hb_states set_devices];
    by destruct (hb_states h !! e).
Qed.

(** What the awaited supervisor may do when it runs. *)
Lemma evicted_runs e t r now wall h : evicted e (Some t) h →
  let h2 := run_cancelled (Some t) r now wall h in
  await_task (Some t) h2 = None →
  ∃ sv, hb_supervisors h !! t = Some sv ∧ survives sv r = true ∧ in_charge h2 t e.
Proof.
  intros [_ Hsv]. destruct (Hsv t eq_refl) as (sv & Hlook & <- & Hc). cbv zeta. cbn [run_cancelled]. intros Hawait.
  exists sv. split; [done |].
  pose proof (await_none t _ Hawait) as Hlive.
  split.
  - destruct (survives sv r) eqn:Hs; [done |]. pose proof (cancelled_ends t r now wall h sv Hlook Hc Hs). congruence.
  - destruct (task_ended t h) eqn:Hend.
    + unfold _supervise, task_ended in *. rewrite Hlook in *. cbn [sv_phase uncancelled] in Hlive.
      destruct (sv_phase sv) eqn:Hp, r; try done; cbn [fst] in Hlive; rewrite Hlook, Hp in Hlive; done.
    + destruct (supervise_ran t r now wall h sv Hlook Hend) as [_ (sv2 & H2 & He & Hc2)]. exists sv2.
      unfold task_ended in Hlive. rewrite H2 in Hlive. by split_and!.
Qed.

(** C13: Taking an endpoint for maintenance fails and leaves every supervisor and
    device as it was, or the endpoint is reserved and locked and has no task (in
    an orderly run nobody is in charge of it).  The taking then waits for the
    cancelled supervisor.  The cancellation itself ends it.  Whatever it does when
    it runs, one of three things follows:
    - it has ended by its cancellation: the taking goes on, the device of the
      endpoint is not registered, and when the endpoint is given back a new
      supervisor is in charge of it and it is not in maintenance;
    - it has ended with another exception: that is raised to the taker, while the
      endpoint stays reserved;
    - it has not ended: a clean-up on the way out raised an error that the
      supervisor handles (or swallowed the cancellation), and it is in charge of
      the reserved endpoint again, for which the taking waits. *)
Theorem maintenance_handoff `{Runtime} realpath identifier ports lock now h : reachable realpath h →
  match quiesce_start realpath identifier ports lock now h with
  | (h1, Err _) => hb_tasks h1 = hb_tasks h ∧ hb_maintenance h1 = hb_maintenance h
      ∧ hb_supervisors h1 = hb_supervisors h ∧ hb_devices h1 = hb_devices h
  | (h1, Ok (Removing _ _)) => False
  | (h1, Ok (Quiescing e d s task)) =>
    taken e h1 ∧ (orderly_reachable realpath h → ∀ t, ¬ in_charge h1 t e)
    ∧ (∀ t now wall, task = Some t → task_ended t h1 = false →
         await_task task (run_cancelled task (Err CANCELLATION) now wall h1) = Some (Ok tt))
    ∧ ∀ r now wall, let h2 := run_cancelled task r now wall h1 in
      match await_task task h2 with
      | Some (Ok _) => ∀ now wall, let h3 := fst (quiesce_finish e d s now wall (set_waiting (hb_waiting h) h2)) in
        (d ≠ ""%string → dict_lookup d (hb_devices h3) = None) ∧ taken e h3
        ∧ ∀ token lock now, hb_configs h1 !! e = Some token → hb_closing h1 = false →
          let h4 := fst (resume_maintenance_endpoint e lock now h3) in
          in_charge h4 (hb_next h3) e ∧ e ∉ hb_maintenance h4
      | Some (Err _) => taken e h2
      | None => taken e h2 ∧ ∃ t sv, task = Some t ∧ hb_supervisors h1 !! t = Some sv ∧ survives sv r = true ∧ in_charge h2 t e
      end
  end.
Proof.
  intros Hr. pose proof (reachable_base realpath false h Hr) as Hb.
  pose proof (quiesce_start_cases realpath identifier ports lock now h Hb) as Hq.
  pose proof (λ Ho, quiesce_start_ok realpath identifier ports lock now h (orderly_ok realpath h Ho)) as Hok1.
  destruct (quiesce_start _ _ _ _ _ _) as [h1 [[e d s task | e task]|x]]; [| done | done].
  destruct Hq as (Htk & Hev & _). cbn [fst] in Hok1. split_and!; [done | | |].
  - intros Ho t Hi%(ok_charge h1 (Hok1 Ho)). pose proof (tk_task e h1 Htk). congruence.
  - intros t now1 wall1 -> Hend. destruct Hev as [Hst Hsv]. destruct (Hsv t eq_refl) as (sv & Hlook & <- & Hc).
    by apply (cancellation_ends t now1 wall1 h1 sv).
  - intros r now1 wall1. cbv zeta. pose proof (run_cancelled_frame task r now1 wall1 h1) as Hsame2.
    pose proof (taken_same e h1 _ Htk Hsame2) as Htk2.
    destruct (await_task task (run_cancelled task r now1 wall1 h1)) as [[u|x]|] eqn:Hawait; [| exact Htk2 |].
    + set (h2 := set_waiting (hb_waiting h) (run_cancelled task r now1 wall1 h1)). intros now2 wall2.
      destruct (quiesce_finish_frame e d s now2 wall2 h2) as [Hsame3 Hdev].
      set (h3 := fst (quiesce_finish e d s now2 wall2 h2)) in *. clearbody h3. split_and!.
      * intros Hd. rewrite Hdev. apply String.eqb_neq in Hd. rewrite Hd. by rewrite dict_lookup_delete, String.eqb_refl.
      * apply (taken_same e h2); [by destruct Htk2; constructor | done].
      * intros token lock' now3 Hcfg Hcl. destruct Hsame2 as (_ & _ & Hc2 & _ & Hcl2 & _), Hsame3 as (?&?& Hc3 & ? & Hcl3 & _).
        apply (resume_taken e token); [by destruct Htk2; constructor; cbn in *; congruence | cbn in *; congruence | cbn in *; congruence].
    + split; [exact Htk2 |]. destruct task as [t|]; [| done]. exists t.
      destruct (evicted_runs e t r now1 wall1 h1 Hev Hawait) as (sv & ? & ? & ?). by exists sv.
Qed.

(** ** A device on two ports *)

Definition example_info : DeviceInfo := {|
  device_id := "d"; boot_id := 7; session_id := 1; endpoint := "usb:location=1"; transport := Transport.USB;
  project_name := "p"; app_version := "1"; idf_version := "6"; firmware_sha256 := ""; reset_reason := 0;
  capabilities := 0; auth_mode := 0; max_payload := 1024; firmware_mode := "normal"; product_contract := "";
  chip_target := ""; board_id := ""; layout_id := ""; recovery_abi := 0; required_features := 0;
  health_timeout_ms := 0; hardware_mac := "02:00:00:00:00:01" |}%string.
Definition example_port (location : string) : dict := [("location", PStr location)]%string.
Definition plugged (port location : string) (h : hub) : hub :=
  fst (@add_usb plain_runtime port None false (example_port location) (Ok tt) 0 h).
Definition runs (t : nat) (r : res unit) (h : hub) : hub := fst (_supervise t r 1 1 h).

Definition example_connected : hub := runs 0 (Ok tt) (runs 0 (Ok tt) (plugged "/dev/ttyACM0" "1" hub_init)).
Definition example_ready : hub := fst (_on_ready 1 example_info 2 2 example_connected).
Definition link_error : exn := Exn OSError "link reset" 0.
(** The device moves from the first port to the second. *)
Definition example_lost : hub := runs 0 (Ok tt) (runs 0 (Err link_error) example_ready).
Definition example_moved : hub :=
  fst (_on_ready 3 example_info 2 2 (runs 2 (Ok tt) (runs 2 (Ok tt) (plugged "/dev/ttyACM1" "2" example_lost)))).
Definition the_supervisor (t : nat) (h : hub) : supervisor :=
  default (Supervisor "" 0 None (Ended CANCELLATION) true) (hb_supervisors h !! t).

Abbreviation orderly_now := (runs_to (H := plain_runtime) id true).
Abbreviation reachable_now := (runs_to (H := plain_runtime) id false).
Lemma orderly_reachable_now h : orderly_now h → reachable_now h.
Proof. apply orderly_runs. Qed.
Lemma orderly_run t r h : orderly_now h → survives (the_supervisor t h) r = false → orderly_now (runs t r h).
Proof.
  intros Hh Hs. eapply reach_step; [exact Hh | apply SSupervise]. intros _ sv Hsv. unfold the_supervisor in Hs.
  by rewrite Hsv in Hs.
Qed.
Lemma reachable_runs t r h : reachable_now h → reachable_now (runs t r h).
Proof. intros Hh. eapply reach_step; [exact Hh | by apply SSupervise]. Qed.
Lemma orderly_plugged port location h : orderly_now h → orderly_now (plugged port location h).
Proof. intros Hh. eapply reach_step; [exact Hh | by apply SAddUsb]. Qed.
Lemma orderly_ready t n info now wall h : orderly_now h →
  bool_decide (sv_phase (the_supervisor t h) = Running ∧ sv_cancelled (the_supervisor t h) = false
    ∧ sv_active (the_supervisor t h) = Some n ∧ device_id info ≠ ""%string ∧ session_info h n = None) = true →
  orderly_now (fst (_on_ready n info now wall h)).
Proof.
  intros Hh (Hp & Hc & Ha & Hd & Hi)%bool_decide_eq_true. unfold the_supervisor in *.
  destruct (hb_supervisors h !! t) as [sv|] eqn:Hsv; [| done].
  eapply reach_step; [exact Hh |]. apply (SReady _ _ _ t sv); try done. intros old. by rewrite Hi.
Qed.

Lemma example_connected_orderly : orderly_now example_connected.
Proof. apply orderly_run, eq_refl. apply orderly_run, eq_refl. apply orderly_plugged, reach_init. Qed.
Lemma example_ready_orderly : orderly_now example_ready.
Proof. apply (orderly_ready 0); [apply example_connected_orderly | by vm_compute]. Qed.
Lemma example_ready_reachable : reachable_now example_ready.
Proof. apply orderly_reachable_now, example_ready_orderly. Qed.
Lemma example_moved_orderly : orderly_now example_moved.
Proof.
  apply (orderly_ready 2); [| by vm_compute].
  apply orderly_run, eq_refl. apply orderly_run, eq_refl. apply orderly_plugged.
  apply orderly_run, eq_refl. apply orderly_run, eq_refl. apply example_ready_orderly.
Qed.

Lemma hub_supervision_witness : registered example_moved "d" 3
  ∧ (∃ info, session_info example_moved 3 = Some info ∧ device_id info = "d"%string)
  ∧ (∃ t sv, hb_supervisors example_moved !! t = Some sv ∧ live sv ∧ sv_active sv = Some 3%nat)
  ∧ ∀ t e, ¬ in_charge (close_cancel example_moved) t e.
Proof.
  assert (Hreg : registered example_moved "d" 3) by (by vm_compute).
  destruct (@hub_supervision plain_runtime id example_moved (orderly_reachable_now _ example_moved_orderly))
    as (Hinfo & _ & _ & _ & Horderly).
  destruct (Horderly example_moved_orderly) as (Hrun & _ & _ & Hclose).
  split_and!; [exact Hreg | exact (Hinfo _ _ Hreg) | exact (Hrun _ _ Hreg) | exact Hclose].
Defined.
Lemma device_ready_witness :
  match _on_ready 1 example_info 2 2 example_connected with
  | (h', Ok event) => registered_as example_connected h' (sv_endpoint (the_supervisor 0 example_connected)) 1 example_info event
  | (_, Err _) => False
  end.
Proof.
  assert (Hsv : hb_supervisors example_connected !! 0%nat = Some (the_supervisor 0 example_connected)) by (by vm_compute).
  assert (Hl : live (the_supervisor 0 example_connected)) by (by vm_compute).
  pose proof (@device_ready plain_runtime id 0 (the_supervisor 0 example_connected) 1 example_info 2 2 example_connected
    example_connected_orderly Hsv Hl eq_refl eq_refl) as Hr.
  destruct (_on_ready 1 example_info 2 2 example_connected) as [h' [event|x]] eqn:E; [exact (proj2 Hr) |].
  apply (f_equal snd) in E. by vm_compute in E.
Defined.
Lemma link_lost_witness :
  snd (_supervise 0 (Err link_error) 1 1 example_ready)
    = Some (connection_event "disconnected" "d" (PInt 7) (PInt 1) "usb:location=1" 1 1)
  ∧ dict_lookup "d" (hb_devices example_lost) = None.
Proof.
  assert (Hsv : hb_supervisors example_ready !! 0%nat = Some (the_supervisor 0 example_ready)) by (by vm_compute).
  assert (Hi : session_info example_ready 1 = Some example_info) by (by vm_compute).
  assert (Hreg : registered example_ready "d" 1) by (by vm_compute).
  pose proof (@link_lost plain_runtime id 0 (the_supervisor 0 example_ready) 1 example_info link_error 1 1 1 1 example_ready
    example_ready_orderly Hsv eq_refl eq_refl eq_refl Hi Hreg eq_refl) as Hlost.
  unfold example_lost, runs. destruct (_supervise 0 (Err link_error) 1 1 example_ready) as [h1 event].
  destruct Hlost as (He & _ & Hd & _). split; [exact He | exact Hd].
Defined.
Definition example_taken : hub := fst (quiesce_start (H := plain_runtime) id "usb:location=1" [] (Ok tt) 3 example_ready).
Lemma maintenance_handoff_witness :
  quiesce_start (H := plain_runtime) id "usb:location=1" [] (Ok tt) 3 example_ready
    = (example_taken, Ok (Quiescing "usb:location=1" "d" (Some 1%nat) (Some 0%nat)))
  ∧ taken "usb:location=1" example_taken ∧ (∀ t, ¬ in_charge example_taken t "usb:location=1")
  ∧ await_task (Some 0%nat) (runs 0 (Err CANCELLATION) example_taken) = Some (Ok tt).
Proof.
  pose proof (@maintenance_handoff plain_runtime id "usb:location=1" [] (Ok tt) 3 example_ready example_ready_reachable) as Hm.
  assert (Hq : quiesce_start (H := plain_runtime) id "usb:location=1" [] (Ok tt) 3 example_ready
    = (example_taken, Ok (Quiescing "usb:location=1" "d" (Some 1%nat) (Some 0%nat)))).
  { unfold example_taken. destruct (quiesce_start _ _ _ _ _ _) as [h1 r] eqn:E. cbn [fst]. f_equal.
    change r with (snd (h1, r)). rewrite <- E. by vm_compute. }
  rewrite Hq in Hm. destruct Hm as (Ht & Hcharge & Hend & _). split_and!; [exact Hq | exact Ht | |].
  - exact (Hcharge example_ready_orderly).
  - exact (Hend 0%nat 1 1 eq_refl eq_refl).
Defined.

(** ** What can go wrong *)

(** The first port still names the device that has moved to the second one:
    taking the first port for maintenance unregisters the device, though its
    session on the second port goes on. *)
Definition example_first_port_taken : hub :=
  let h := fst (quiesce_start (H := plain_runtime) id "usb:location=1" [] (Ok tt) 3 example_moved) in
  fst (quiesce_finish "usb:location=1" "d" (Some 3%nat) 4 4 (set_waiting [] (runs 0 (Err CANCELLATION) h))).
Example quiesce_unregisters_other :
  dict_lookup "d" (hb_devices example_moved) = Some 3%nat
  ∧ dict_lookup "d" (hb_devices example_first_port_taken) = None
  ∧ hb_supervisors example_first_port_taken !! 2%nat = Some (the_supervisor 2 example_moved)
  ∧ sv_phase (the_supervisor 2 example_first_port_taken) = Running
  ∧ session_endpoint example_first_port_taken 3 = Some "usb:location=2"%string.
Proof. split_and!; vm_compute; reflexivity. Qed.

(** A service that is announced again while its removal waits for the cancelled
    supervisor: the new supervisor ends when the removal has deleted its state,
    and is still the endpoint's task, so that no other is started. *)
Definition announce : hub → hub :=
  λ h, fst (add_tcp "10.0.0.2" 19772 None [("discovery", PStr "mdns")]%string (Ok tt) 0 h).
Definition example_reannounced : hub :=
  let removing := remove_start "tcp:10.0.0.2:19772" (Some "mdns"%string) (runs 0 (Ok tt) (announce hub_init)) in
  let again := announce removing in
  runs 1 (Ok tt) (remove_finish "tcp:10.0.0.2:19772" (set_waiting [] (runs 0 (Err CANCELLATION) again))).
Example reannounced_never_supervised :
  let later := announce (announce example_reannounced) in
  hb_tasks later !! "tcp:10.0.0.2:19772"%string = Some 1%nat ∧ task_ended 1 later = true
  ∧ hb_supervisors later !! 2%nat = None ∧ "tcp:10.0.0.2:19772"%string ∉ hb_locks later.
Proof. cbv zeta. split_and!; try (vm_compute; reflexivity). by vm_compute. Qed.

(** An error of the event's subscriber ends the supervisor, which stays the
    endpoint's task: the endpoint is not supervised again. *)
Definition example_sink_failed : hub :=
  runs 0 (raise ValueError "subscriber") (runs 0 (Err link_error) example_ready).
Example sink_error_ends_supervision :
  let later := plugged "/dev/ttyACM0" "1" example_sink_failed in
  task_ended 0 later = true ∧ hb_tasks later !! "usb:location=1"%string = Some 0%nat
  ∧ size (hb_supervisors later) = 1%nat.
Proof. cbv zeta. split_and!; vm_compute; reflexivity. Qed.

(** A port is taken for maintenance while the device is unplugged: closing the
    link, on the way out of the cancelled supervisor, fails with an [OSError]
    instead.  The supervisor handles it, publishes that the device is
    disconnected, waits, and opens the reserved port again; the taking still
    waits for it, and nothing will cancel it. *)
Definition example_survived : hub :=
  runs 0 (Ok tt) (runs 0 (Ok tt) (runs 0 (Ok tt) (runs 0 (Err link_error) example_taken))).
Example cancelled_supervisor_survives :
  reachable_now example_survived
  ∧ in_charge example_survived 0 "usb:location=1" ∧ sv_phase (the_supervisor 0 example_survived) = Running
  ∧ "usb:location=1"%string ∈ hb_maintenance example_survived
  ∧ hb_waiting example_survived = [Quiescing "usb:location=1" "d" (Some 1%nat) (Some 0%nat)]
  ∧ await_task (Some 0%nat) example_survived = None.
Proof.
  split_and!; try (vm_compute; reflexivity).
  - do 4 apply reachable_runs. eapply reach_step; [apply example_ready_reachable |].
    apply (SQuiesce (H := plain_runtime) id false example_ready "usb:location=1"%string).
  - exists (the_supervisor 0 example_survived). split_and!; vm_compute; reflexivity.
Qed.

(** A supervisor that an error of the event's subscriber has ended is awaited
    when its port is taken: the error is raised to the taker, who gets no lease,
    and the port, which stays reserved, cannot be taken again. *)
Definition example_refused : hub :=
  fst (quiesce_start (H := plain_runtime) id "usb:location=1" [] (Ok tt) 3 example_sink_failed).
Example ended_supervisor_blocks_maintenance :
  await_task (Some 0%nat) example_refused = Some (raise ValueError "subscriber")
  ∧ snd (quiesce_start (H := plain_runtime) id "usb:location=1" [] (Ok tt) 4 (set_waiting [] example_refused))
    = raise RuntimeError "device endpoint is already reserved for maintenance".
Proof. split; vm_compute; reflexivity. Qed.
