(* ===== verification/Discovery.v ===== *)
(** * Devices found on USB and over mDNS ([discovery.py], [mdns_discovery.py] and
    the hub's part of both)

    The host's serial ports are listed once in a while; every one that looks
    like a device gets a supervisor.  A service record becomes a device if it
    says completely what it is; the hub supervises an endpoint for every device
    that is announced, and takes it away when the service goes or moves.  The
    list of ports, the links under /dev/serial and what [zeroconf] answers are
    the environment. *)
From stdpp Require Import sorting pretty.
From S2P Require Import Prelude Text Value Store Runtime Address Service Hub HubProps HubContract.

(** ** USB *)

(** A port as [list_ports.comports()] has it. *)
Record comport := Comport {
  cp_device : string; cp_vid : option Z; cp_pid : option Z; cp_product : option string;
  cp_serial_number : option string; cp_location : option string;
}.
Record IrisUsbDevice := UsbDevice {
  ud_path : string; ud_device : string; ud_vid : Z; ud_pid : Z; ud_serial_number : string; ud_product : string;
  ud_transport : string; ud_location : string;
}.

(** The first link, in the order of the directories and of the names, that leads
    to the device; [links] has the entries of each directory that exists. *)
Definition _stable_linux_path (posix : bool) (realpath : string → string) (links : list (list string)) (device : string) : string :=
  if posix
  then default device (find (λ candidate, (realpath candidate =? realpath device)%string)
                        (concat (map (merge_sort String.le) links)))
  else device.
Definition is_iris_cdc (p : comport) : bool :=
  bool_decide (cp_vid p = Some 0x303A)
  && (bool_decide (cp_pid p = Some 0x4002) || contains "ESP-Iris" (default ""%string (cp_product p))).
Definition is_usb_serial_jtag (include : bool) (p : comport) : bool :=
  include && bool_decide (cp_vid p = Some 0x303A) && bool_decide (cp_pid p = Some 0x1001)
  && contains "USB JTAG/serial debug unit" (default ""%string (cp_product p)).
Definition path_le (d e : IrisUsbDevice) : Prop := String.le (ud_path d) (ud_path e).
#[export] Instance path_le_dec : RelDecision path_le := λ d e, String.le_dec (ud_path d) (ud_path e).
Definition discover_iris_usb_devices (stable_path : string → string) (include_usb_serial_jtag : bool) (ports : list comport)
    : list IrisUsbDevice :=
  merge_sort path_le (omap (λ p,
    let jtag := is_usb_serial_jtag include_usb_serial_jtag p in
    if is_iris_cdc p || jtag
    then Some (UsbDevice (stable_path (cp_device p)) (cp_device p) (default 0 (cp_vid p)) (default 0 (cp_pid p))
                 (default ""%string (cp_serial_number p)) (default ""%string (cp_product p))
                 (if jtag then "usb_serial_jtag" else "usb")%string (default ""%string (cp_location p)))
    else None) ports).

(** *** The hub's loop *)
Section loop.
Context `{Runtime}.

Definition usb_metadata (d : IrisUsbDevice) : dict :=
  [("path", PStr (ud_path d)); ("device_path", PStr (ud_device d)); ("vid", PInt (ud_vid d)); ("pid", PInt (ud_pid d));
   ("serial_number", PStr (ud_serial_number d)); ("product", PStr (ud_product d)); ("location", PStr (ud_location d))]%string.
Definition add_discovered (lock : string → res unit) (now : Z) (d : IrisUsbDevice) : hub → hub * res unit :=
  add_usb (ud_path d) (Some (port_mode (ud_product d))) (ud_transport d =? "usb_serial_jtag")%string (usb_metadata d)
    (lock (ud_path d)) now.
(** One round of [discover_loop]: what is raised, short of a [RuntimeError], ends
    the loop. *)
Fixpoint discover_round (lock : string → res unit) (now : Z) (devices : list IrisUsbDevice) (h : hub) : hub * res unit :=
  match devices with
  | [] => (h, Ok tt)
  | d :: devices =>
    match add_discovered lock now d h with
    | (h, Ok _) => discover_round lock now devices h
    | (h, Err e) => if catches [RuntimeError] e then discover_round lock now devices h else (h, Err e)
    end
  end.

(** *** Every device found is supervised *)

Definition usb_of (d : IrisUsbDevice) : string := usb_endpoint (ud_location d) (ud_serial_number d) (ud_path d).
Definition cared_for (e : string) (h : hub) : Prop := is_Some (hb_tasks h !! e) ∨ e ∈ hb_maintenance h.
(** Endpoints stay as they are; none is taken from its supervisor. *)
Definition grows (h h' : hub) : Prop :=
  (∀ e t, hb_tasks h !! e = Some t → hb_tasks h' !! e = Some t) ∧ hb_maintenance h' = hb_maintenance h
  ∧ hb_closing h' = hb_closing h.
Lemma grows_refl h : grows h h.
Proof. done. Qed.
Lemma grows_trans h1 h2 h3 : grows h1 h2 → grows h2 h3 → grows h1 h3.
Proof. intros (T1 & M1 & C1) (T2 & M2 & C2). split_and!; [auto | congruence | congruence]. Qed.
Lemma grows_cared e h h' : cared_for e h → grows h h' → cared_for e h'.
Proof. intros [[t Ht] | Hm] (T & M & _); [left; exists t; by apply T | right; by rewrite M]. Qed.

Lemma add_supervisor_grows e token metadata now h : hb_closing h = false →
  ∃ h', _add_supervisor e token metadata (Ok tt) now h = (h', Ok tt) ∧ grows h h' ∧ cared_for e h' ∧ is_Some (hb_states h' !! e).
Proof.
  intros Hc. unfold _add_supervisor, cared_for. rewrite Hc. set (h0 := set_state e _ _).
  assert (G0 : grows h h0) by done. assert (S0 : is_Some (hb_states h0 !! e)) by (cbn; rewrite lookup_insert_eq; eauto).
  destruct (hb_tasks h0 !! e) as [t|] eqn:Ht; [eexists; split_and!; eauto |].
  case_bool_decide as Hm.
  { eexists. split_and!; [reflexivity | done | by right |]. cbn. rewrite lookup_insert_eq. eauto. }
  assert (Hl : ∃ l, take_lock e (Ok tt) h0 = (set_locks l h0, Ok tt)).
  { unfold take_lock. case_bool_decide; [by exists (hb_locks h0); destruct h0 | by eexists]. }
  destruct Hl as [l ->]. cbn [fst]. eexists. split_and!; [reflexivity | | |].
  - split_and!; [| done | done]. intros e' t' Ht'. cbn. rewrite lookup_insert_ne; [done |]. intros <-. cbn in Ht. congruence.
  - left. cbn. rewrite lookup_insert_eq. eauto.
  - cbn. rewrite lookup_insert_eq. eauto.
Qed.
Lemma add_discovered_grows lock now d h : hb_closing h = false → lock (ud_path d) = Ok tt →
  ∃ h', add_discovered lock now d h = (h', Ok tt) ∧ grows h h' ∧ cared_for (usb_of d) h'.
Proof.
  intros Hc Hl. unfold add_discovered, add_usb. rewrite Hl.
  assert (Hstr : ∀ s, str_or_empty (PStr s) = s) by (by intros []).
  change (dict_get "location" (usb_metadata d)) with (PStr (ud_location d)).
  change (dict_get "serial_number" (usb_metadata d)) with (PStr (ud_serial_number d)). rewrite !Hstr.
  change (usb_endpoint _ _ _) with (usb_of d).
  destruct (add_supervisor_grows (usb_of d) None (usb_metadata d) now h Hc) as (h' & -> & G & C & [st Hst]).
  match goal with |- context [match ?x with Some _ => _ | None => _ end] => destruct x as [state|] eqn:E end;
    [| discriminate (eq_trans (eq_sym Hst) E)]. eexists. split_and!; [reflexivity | done | done].
Qed.
(** One round puts every device that is found in somebody's care: it has a
    supervisor, unless its endpoint is reserved for maintenance; and it takes no
    endpoint from a supervisor that it has. *)
Theorem discovered_supervised lock now devices : ∀ h, hb_closing h = false → (∀ d, d ∈ devices → lock (ud_path d) = Ok tt) →
  ∃ h', discover_round lock now devices h = (h', Ok tt) ∧ grows h h' ∧ ∀ d, d ∈ devices → cared_for (usb_of d) h'.
Proof.
  induction devices as [|d devices IH]; intros h Hc Hl.
  { exists h. split_and!; [done | done |]. intros d Hd. by apply not_elem_of_nil in Hd. }
  destruct (add_discovered_grows lock now d h Hc (Hl d ltac:(set_solver))) as (h1 & H1 & G1 & C1).
  assert (Hc1 : hb_closing h1 = false) by (destruct G1 as (_ & _ & ->); done).
  destruct (IH h1 Hc1 ltac:(set_solver)) as (h2 & H2 & G2 & C2).
  exists h2. cbn. rewrite H1. split_and!; [done | by eapply grows_trans |].
  intros d' [-> | Hd]%elem_of_cons; [by eapply grows_cared | by apply C2].
Qed.
End loop.

(** The application's own USB port, the same through recovery; a debug port only
    if asked for. *)
Definition example_ports : list comport := [
  Comport "/dev/ttyACM1" (Some 0x303A) (Some 0x1001) (Some "USB JTAG/serial debug unit") None (Some "1-2");
  Comport "/dev/ttyACM0" (Some 0x303A) (Some 0x4002) (Some "ESP-Iris recovery") (Some "AB") (Some "1-1");
  Comport "/dev/ttyUSB0" (Some 0x10C4) (Some 0xEA60) None None None]%string.
Example found : map ud_device (discover_iris_usb_devices id false example_ports) = ["/dev/ttyACM0"]%string
  ∧ map ud_transport (discover_iris_usb_devices id true example_ports) = ["usb"; "usb_serial_jtag"]%string.
Proof. split; vm_compute; reflexivity. Qed.
Example stable_path :
  _stable_linux_path true (λ p, if (p =? "/dev/serial/by-path/pci-1")%string then "/dev/ttyACM0" else p)%string
    [["/dev/serial/by-path/pci-1"]; ["/dev/serial/by-id/usb"]]%string "/dev/ttyACM0" = "/dev/serial/by-path/pci-1"%string.
Proof. vm_compute. reflexivity. Qed.

(** ** mDNS: service records *)

(** A property's key or value: bytes, or text. *)
Inductive mdns_text := MBytes (b : bytes) | MText (s : string).
Record service_info := ServiceInfo {
  sv_properties : list (mdns_text * option mdns_text);
  sv_port : pyval;
  sv_addresses_v4 : list string;
  sv_addresses_v6 : list string;
}.
Record IrisMdnsDevice := MdnsDevice {
  mdns_service_name : string; mdns_device_id : string; mdns_host : string; mdns_port : Z;
  mdns_mode : string; mdns_pairing : string;
}.

Definition mdns_decode (t : mdns_text) : res string := match t with MBytes b => utf8_decode b | MText s => Ok s end.
(** What does not decode is left out. *)
Definition _decode_properties (properties : list (mdns_text * option mdns_text)) : list (string * string) :=
  fold_left (λ decoded entry,
    match snd entry with
    | None => decoded
    | Some value =>
      match (k ← mdns_decode (fst entry); v ← mdns_decode value; Ok (k, v)) with
      | Ok (k, v) => dict_set k v decoded
      | Err _ => decoded
      end
    end) properties [].

(** [_DEVICE_ID.fullmatch(s)] *)
Definition is_device_id (s : string) : bool :=
  let l := str_encode s in
  (zlen l =? 32) && forallb (λ b, ((48 <=? b) && (b <=? 57)) || ((97 <=? b) && (b <=? 102))) l.

#[export] Instance string_le_dec : RelDecision String.le := λ a b, String.le_dec a b.
Definition address_v4 (address : string) : bool := match ip_address address with Ok (IPv4 _) => true | _ => false end.
Definition has_scope (address : string) : bool := match split_on "%" address with [_] => false | _ => true end.
Definition raw_address (address : string) : string := default ""%string (head (split_on "%" address)).
(** [fe80::/10] *)
Definition is_link_local (z : Z) : bool := z / 2 ^ 118 =? 0xFE80 / 2 ^ 6.
Definition address_v6 (address : string) : bool :=
  match ip_address (raw_address address) with
  | Ok (IPv6 z) => negb (is_link_local z) || has_scope address
  | _ => false
  end.
Definition choose_host (v4 v6 : list string) : option string :=
  match find address_v4 (merge_sort String.le v4) with
  | Some host => Some host
  | None => find address_v6 (merge_sort String.le v6)
  end.

Section mdns.
Context `{Runtime}.

(** [info.parsed_addresses] and [info.parsed_scoped_addresses] are the two
    lists of addresses. *)
Definition parse_iris_service (service_name : string) (info : service_info) : res (option IrisMdnsDevice) :=
  let properties := _decode_properties (sv_properties info) in
  let property name := default ""%string (dict_lookup name properties) in
  if negb (is_device_id (property "device_id"%string))
     || negb (bool_decide (dict_lookup "protocol" properties = Some "1"%string))
     || negb (bool_decide (dict_lookup "transport" properties = Some "tcp"%string))
     || negb (bool_decide (dict_lookup "pairing" properties ∈ [Some "none"; Some "hmac"]%string))
     || (property "mode"%string =? "")%string
  then Ok None
  else
    match (txt_port ← int (PStr (property "port"%string)); srv_port ← int (sv_port info); Ok (txt_port, srv_port)) with
    | Ok (txt_port, srv_port) =>
      if negb ((1 <=? srv_port) && (srv_port <=? 65535)) || negb (txt_port =? srv_port) then Ok None
      else
        Ok ((λ host, MdnsDevice service_name (property "device_id"%string) host srv_port (property "mode"%string)
                       (property "pairing"%string))
            <$> choose_host (sv_addresses_v4 info) (sv_addresses_v6 info))
    | Err e => if catches [TypeError; ValueError] e then Ok None else Err e
    end.

(** ** The hub's part *)

Record mdns_hub := MdnsHub {
  md_hub : hub;
  md_services : gmap string string;   (* the endpoint of a service *)
  md_devices : gmap string string;    (* the service of a device *)
}.
Definition on_hub (f : hub → hub) (s : mdns_hub) : mdns_hub := MdnsHub (f (md_hub s)) (md_services s) (md_devices s).

Definition mdns_endpoint (device : IrisMdnsDevice) : string :=
  "tcp:" ++ mdns_host device ++ ":" ++ pretty (mdns_port device).
Definition mdns_metadata (device : IrisMdnsDevice) : dict :=
  [("service_name", PStr (mdns_service_name device)); ("advertised_device_id", PStr (mdns_device_id device));
   ("firmware_mode", PStr (mdns_mode device)); ("pairing", PStr (mdns_pairing device))]%string.

(** [_remove_endpoint(endpoint, discovery="mdns")] up to its wait; it waits if
    the hub has a new entry in [hb_waiting]. *)
Definition take_endpoint (endpoint : string) : mdns_hub → mdns_hub := on_hub (remove_start endpoint (Some "mdns"%string)).
Definition _remove_mdns_service (service_name : string) (s : mdns_hub) : mdns_hub :=
  match md_services s !! service_name with
  | None => s
  | Some endpoint =>
    let state := default [] (hb_states (md_hub s) !! endpoint) in
    let devices := match dict_get "advertised_device_id" state with
                   | PStr d => if bool_decide (md_devices s !! d = Some service_name) then delete d (md_devices s) else md_devices s
                   | _ => md_devices s
                   end in
    take_endpoint endpoint (MdnsHub (md_hub s) (delete service_name (md_services s)) devices)
  end.

(** [_add_mdns_device], in the three parts between its waits. *)
Definition add_forget_service (device : IrisMdnsDevice) (s : mdns_hub) : mdns_hub :=
  match md_devices s !! mdns_device_id device with
  | Some old => if (old =? mdns_service_name device)%string then s else _remove_mdns_service old s
  | None => s
  end.
Definition add_forget_endpoint (device : IrisMdnsDevice) (s : mdns_hub) : mdns_hub :=
  match md_services s !! mdns_service_name device with
  | Some old => if (old =? mdns_endpoint device)%string then s else take_endpoint old s
  | None => s
  end.
Definition add_supervise (device : IrisMdnsDevice) (token : option string) (lock : res unit) (now : Z) (s : mdns_hub)
    : mdns_hub * res unit :=
  let endpoint := mdns_endpoint device in
  let recorded s := MdnsHub (md_hub s) (<[mdns_service_name device := endpoint]> (md_services s))
                      (<[mdns_device_id device := mdns_service_name device]> (md_devices s)) in
  match hb_tasks (md_hub s) !! endpoint with
  | None =>
    match add_tcp (mdns_host device) (mdns_port device) token (("discovery", PStr "mdns")%string :: mdns_metadata device)
            lock now (md_hub s) with
    | (h, Ok _) => (recorded (on_hub (λ _, h) s), Ok tt)
    | (h, Err e) => (on_hub (λ _, h) s, Err e)
    end
  | Some _ =>
    match hb_states (md_hub s) !! endpoint with
    | None => (s, raise KeyError endpoint)
    | Some state =>
      if negb (is_str (dict_get "discovery" state) "mdns") then (s, Ok tt)
      else (recorded (on_hub (set_state endpoint (dict_updated state (mdns_metadata device))) s), Ok tt)
    end
  end.

(** What runs for an announcement or a removal, a part at a time; others run in
    between, and so do other announcements. *)
Inductive mdns_step (s : mdns_hub) : mdns_hub → Prop :=
| DRemove name : mdns_step s (_remove_mdns_service name s)
| DForgetService device : mdns_step s (add_forget_service device s)
| DForgetEndpoint device : mdns_step s (add_forget_endpoint device s)
| DSupervise device token lock now : mdns_step s (fst (add_supervise device token lock now s))
| DRemoved e task l1 l2 : hb_waiting (md_hub s) = l1 ++ Removing e task :: l2 → await_task task (md_hub s) = Some (Ok tt) →
    mdns_step s (on_hub (λ h, remove_finish e (set_waiting (l1 ++ l2) h)) s)
(* the supervisor has ended with an error, which ends the handler *)
| DRemoveFails e task x l1 l2 : hb_waiting (md_hub s) = l1 ++ Removing e task :: l2 → await_task task (md_hub s) = Some (Err x) →
    mdns_step s (on_hub (set_waiting (l1 ++ l2)) s).
End mdns.

(** ** Endpoints that were not discovered *)

(** The endpoint is supervised and does not come from mDNS. *)
Definition configured (e : string) (t : nat) (h : hub) : Prop :=
  hb_tasks h !! e = Some t ∧ no_removal e h
  ∧ ∃ state, hb_states h !! e = Some state ∧ is_str (dict_get "discovery" state) "mdns" = false.
(** Every supervisor that is the task of an endpoint is that endpoint's, and the
    next one is a new one. *)
Definition numbered (h : hub) : Prop :=
  (∀ e t, hb_tasks h !! e = Some t → ∃ sv, hb_supervisors h !! t = Some sv ∧ sv_endpoint sv = e)
  ∧ ∀ t, is_Some (hb_supervisors h !! t) → (t < hb_next h)%nat.
Record untouched (e : string) (t : nat) (h h' : hub) : Prop := {
  un_state : hb_states h' !! e = hb_states h !! e;
  un_task : hb_tasks h' !! e = hb_tasks h !! e;
  un_supervisor : hb_supervisors h' !! t = hb_supervisors h !! t;
  un_config : hb_configs h' !! e = hb_configs h !! e;
  un_lock : e ∈ hb_locks h' ↔ e ∈ hb_locks h;
  un_maintenance : e ∈ hb_maintenance h' ↔ e ∈ hb_maintenance h;
  un_removal : no_removal e h → no_removal e h';
}.
(** What an operation must do for a configured endpoint. *)
Definition keeps (e : string) (t : nat) (h h' : hub) : Prop := numbered h' ∧ untouched e t h h'.

Lemma untouched_refl e t h : untouched e t h h.
Proof. by constructor. Qed.
Lemma untouched_trans e t h1 h2 h3 : untouched e t h1 h2 → untouched e t h2 h3 → untouched e t h1 h3.
Proof.
  intros [? ? ? ? ? ? ?] [? ? ? ? ? ? ?]. constructor; try (by etrans); auto.
Qed.
Lemma untouched_configured e t h h' : configured e t h → untouched e t h h' → configured e t h'.
Proof.
  intros (Ht & Hr & state & Hs & Hd) [U1 U2 _ _ _ _ U]. split_and!; [by rewrite U2 | by apply U |].
  exists state. by rewrite U1.
Qed.
Lemma keeps_refl e t h : numbered h → keeps e t h h.
Proof. intros Hn. split; [done | apply untouched_refl]. Qed.

Lemma numbered_cancel t h : numbered h → numbered (cancel_task t h).
Proof.
  intros [H1 H2]. unfold cancel_task. destruct (hb_supervisors h !! t) as [sv|] eqn:Hsv; [| by split]. split; cbn.
  - intros e t' (sv' & Hsv' & He)%H1. destruct (decide (t = t')) as [-> | Hne].
    + rewrite lookup_insert_eq. eexists; split; [done |]. cbn. congruence.
    + rewrite lookup_insert_ne by done. eauto.
  - intros t' [sv' Hs]. destruct (decide (t = t')) as [-> | Hne]; [by apply H2 |].
    rewrite lookup_insert_ne in Hs by done. apply H2. eauto.
Qed.
Lemma pop_task_keeps e t e' h : numbered h → hb_tasks h !! e = Some t → e' ≠ e → keeps e t h (fst (pop_task e' h)).
Proof.
  intros Hn Ht Hne. unfold pop_task. destruct (hb_tasks h !! e') as [t'|] eqn:Ht'; [| by apply keeps_refl].
  assert (Htt : t' ≠ t).
  { intros ->. destruct (proj1 Hn _ _ Ht) as (sv & Hsv & <-), (proj1 Hn _ _ Ht') as (sv' & Hsv' & <-). congruence. }
  cbn [fst]. split.
  - apply numbered_cancel. destruct Hn as [H1 H2]. split; cbn; [| done].
    intros e1 t1 [_ H]%lookup_delete_Some. eauto.
  - constructor; unfold no_removal, cancel_task; cbn; destruct (hb_supervisors h !! t') as [sv'|]; cbn; try done;
      by rewrite ?lookup_delete_ne, ?lookup_insert_ne.
Qed.
Lemma take_endpoint_keeps e t e' s : numbered (md_hub s) → configured e t (md_hub s) →
  keeps e t (md_hub s) (md_hub (take_endpoint e' s)).
Proof.
  intros Hn (Ht & Hr & state & Hs & Hd). destruct s as [h services devices]. cbn [md_hub take_endpoint on_hub] in *.
  unfold remove_start. destruct (hb_states h !! e') as [state'|] eqn:Hs'; [| by apply keeps_refl].
  destruct (negb _) eqn:Hm; [by apply keeps_refl |].
  assert (Hne : e' ≠ e) by (intros ->; rewrite Hs in Hs'; injection Hs' as <-; by rewrite Hd in Hm).
  destruct (pop_task_keeps e t e' h Hn Ht Hne) as [Hn' [U1 U2 U3 U4 U5 U6 U7]].
  destruct (pop_task e' h) as [h' task]. cbn [fst] in *. split; [done |]. constructor; try done.
  intros Hr' task' [[= -> _] | Hw]%elem_of_cons; [done |]. by apply (U7 Hr' task').
Qed.
Lemma remove_finish_keeps e t e' task l1 l2 h : numbered h → configured e t h →
  hb_waiting h = l1 ++ Removing e' task :: l2 → keeps e t h (remove_finish e' (set_waiting (l1 ++ l2) h)).
Proof.
  intros Hn (Ht & Hr & _) Hw.
  assert (Hne : e' ≠ e) by (intros ->; apply (Hr task); rewrite Hw; set_solver).
  split; [done |]. constructor; cbn; try done; try (by rewrite lookup_delete_ne); try set_solver.
  intros Hr' task' Hin. apply (Hr' task'). rewrite Hw. set_solver.
Qed.
Lemma set_state_keeps e t e' state h : numbered h → e' ≠ e → keeps e t h (set_state e' state h).
Proof. intros Hn Hne. split; [done |]. constructor; try done. cbn. by rewrite lookup_insert_ne. Qed.
Lemma start_supervisor_keeps e t e' h : numbered h → hb_tasks h !! e = Some t → e' ≠ e → keeps e t h (start_supervisor e' h).
Proof.
  intros [H1 H2] Ht Hne. assert (Hlt : (t < hb_next h)%nat).
  { apply H2. destruct (H1 _ _ Ht) as (sv & -> & _). eauto. }
  split; [split; cbn |].
  - intros e1 t1 [[<- <-] | [Hne1 Ht1]]%lookup_insert_Some.
    + rewrite lookup_insert_eq. eauto.
    + destruct (H1 _ _ Ht1) as (sv & Hsv & He). exists sv. split; [| done].
      rewrite lookup_insert_ne; [done |]. specialize (H2 t1 (mk_is_Some _ _ Hsv)). lia.
  - intros t1 [sv [[<- _] | [_ Hsv]]%lookup_insert_Some]; [lia |]. specialize (H2 t1 (mk_is_Some _ _ Hsv)). lia.
  - constructor; try done; cbn; rewrite lookup_insert_ne by (done || lia); done.
Qed.
Lemma keeps_trans e t h1 h2 h3 : keeps e t h1 h2 → keeps e t h2 h3 → keeps e t h1 h3.
Proof. intros [_ U1] [Hn U2]. split; [done | by eapply untouched_trans]. Qed.
Lemma keeps_task e t h h' : keeps e t h h' → hb_tasks h !! e = Some t → hb_tasks h' !! e = Some t.
Proof. intros [_ U] <-. apply (un_task _ _ _ _ U). Qed.
Lemma take_lock_keeps e t e' lock h : numbered h → e' ≠ e → keeps e t h (fst (take_lock e' lock h)).
Proof.
  intros Hn Hne. unfold take_lock. case_bool_decide; [by apply keeps_refl |].
  destruct lock; [| by apply keeps_refl]. split; [done |]. constructor; try done. cbn. set_solver.
Qed.
Lemma add_supervisor_keeps e t e' token metadata lock now h : numbered h → hb_tasks h !! e = Some t → e' ≠ e →
  keeps e t h (fst (_add_supervisor e' token metadata lock now h)).
Proof.
  intros Hn Ht Hne. unfold _add_supervisor. destruct (hb_closing h); [by apply keeps_refl |].
  set (state := dict_updated _ metadata). set (h0 := set_state e' state _).
  assert (K0 : keeps e t h h0).
  { split; [done |]. constructor; try done; cbn; by rewrite lookup_insert_ne. }
  destruct (hb_tasks h0 !! e'); [done |]. case_bool_decide.
  { eapply keeps_trans; [exact K0 |]. apply set_state_keeps; [apply K0 | done]. }
  pose proof (take_lock_keeps e t e' lock h0 (proj1 K0) Hne) as K1.
  destruct (take_lock e' lock h0) as [h1 [[]|]]; cbn [fst] in *; [| by eapply keeps_trans].
  eapply keeps_trans; [exact K0 |]. eapply keeps_trans; [exact K1 |].
  eapply keeps_trans; [apply set_state_keeps; [apply K1 | exact Hne] |].
  apply start_supervisor_keeps; [apply K1 | | done].
  apply (keeps_task e t h0 h1 K1), (keeps_task e t h h0 K0), Ht.
Qed.

Section untouched.
Context `{Runtime}.
Lemma remove_service_keeps e t name s : numbered (md_hub s) → configured e t (md_hub s) →
  keeps e t (md_hub s) (md_hub (_remove_mdns_service name s)).
Proof.
  intros Hn Hc. unfold _remove_mdns_service. destruct (md_services s !! name); [| by apply keeps_refl].
  by apply (take_endpoint_keeps e t _ (MdnsHub (md_hub s) _ _)).
Qed.
Lemma add_supervise_keeps e t device token lock now s : numbered (md_hub s) → configured e t (md_hub s) →
  keeps e t (md_hub s) (md_hub (fst (add_supervise device token lock now s))).
Proof.
  intros Hn (Ht & Hr & state & Hs & Hd). unfold add_supervise.
  destruct (hb_tasks (md_hub s) !! mdns_endpoint device) as [t'|] eqn:Ht'.
  - destruct (hb_states (md_hub s) !! mdns_endpoint device) as [state'|] eqn:Hs'; [| by apply keeps_refl].
    destruct (negb _) eqn:Hm; [by apply keeps_refl |]. apply set_state_keeps; [done |].
    intros <-. rewrite Hs in Hs'. injection Hs' as <-. by rewrite Hd in Hm.
  - assert (Hne : mdns_endpoint device ≠ e) by (intros <-; congruence).
    pose proof (add_supervisor_keeps e t (mdns_endpoint device) token
      (("discovery", PStr "mdns")%string :: mdns_metadata device) lock now (md_hub s) Hn Ht Hne) as K.
    unfold add_tcp. change (_ ++ _)%string with (mdns_endpoint device).
    destruct (_add_supervisor _ _ _ _ _ _) as [h [[]|]]; exact K.
Qed.
Lemma mdns_step_keeps e t s s' : numbered (md_hub s) → configured e t (md_hub s) → mdns_step s s' →
  keeps e t (md_hub s) (md_hub s').
Proof.
  intros Hn Hc [name | device | device | device token lock now | e' task l1 l2 Hw _ | e' task x l1 l2 Hw _].
  - by apply remove_service_keeps.
  - unfold add_forget_service. destruct (md_devices s !! _) as [old|]; [| by apply keeps_refl].
    destruct (_ =? _)%string; [by apply keeps_refl | by apply remove_service_keeps].
  - unfold add_forget_endpoint. destruct (md_services s !! _) as [old|]; [| by apply keeps_refl].
    destruct (_ =? _)%string; [by apply keeps_refl | by apply take_endpoint_keeps].
  - by apply add_supervise_keeps.
  - by eapply remove_finish_keeps.
  - split; [done |]. constructor; try done. intros Hr' task' Hin. apply (Hr' task'). rewrite Hw. set_solver.
Qed.
Lemma reachable_numbered realpath h : reachable realpath h → numbered h.
Proof.
  intros Hb%reachable_base. split; [apply (bs_tasks h Hb) |]. intros t Ht. apply (bs_fresh h Hb). by left.
Qed.
End untouched.

(** C31: nothing that is announced on the network disturbs a device that the
    user has connected.  An endpoint that is supervised, and was not found over
    mDNS, keeps its supervisor, which goes on as it was, its state, its
    configuration, its lock and its place outside maintenance, whatever services
    are announced, moved or withdrawn, on that very address too, and however
    their handlers are interleaved. *)
Theorem mdns_leaves_configured `{Runtime} realpath e t s s' : reachable realpath (md_hub s) →
  hb_tasks (md_hub s) !! e = Some t → no_removal e (md_hub s) →
  (∃ state, hb_states (md_hub s) !! e = Some state ∧ is_str (dict_get "discovery" state) "mdns" = false) →
  rtc mdns_step s s' → untouched e t (md_hub s) (md_hub s').
Proof.
  intros Hreach Ht Hr Hs Hrun. pose proof (reachable_numbered realpath _ Hreach) as Hn.
  assert (Hc : configured e t (md_hub s)) by done. clear Hreach Ht Hr Hs.
  induction Hrun as [s | s s1 s' Hstep _ IH]; [apply untouched_refl |].
  destruct (mdns_step_keeps e t s s1 Hn Hc Hstep) as [Hn1 U1].
  eapply untouched_trans; [exact U1 |]. apply IH; [done | by eapply untouched_configured].
Qed.

(** The user has connected 10.0.0.2.  A service is announced there and withdrawn,
    another one on an address of its own moves there. *)
Definition example_service (name host : string) : IrisMdnsDevice := MdnsDevice name (name ++ "-id") host 19772 "normal" "none".
Definition supervise_service (name host : string) (s : mdns_hub) : mdns_hub :=
  fst (add_supervise (example_service name host) None (Ok tt) 5 s).
Definition example_tcp : mdns_hub :=
  MdnsHub (fst (add_tcp "10.0.0.2" 19772 None [] (Ok tt) 0 hub_init)) ∅ ∅.
Definition example_announced : mdns_hub :=
  supervise_service "desk" "10.0.0.3" (_remove_mdns_service "lab" (supervise_service "lab" "10.0.0.2" example_tcp)).
Definition example_moved_service : mdns_hub :=
  supervise_service "desk" "10.0.0.2" (add_forget_endpoint (example_service "desk" "10.0.0.2") example_announced).
Lemma example_tcp_reachable : reachable_now (md_hub example_tcp).
Proof. eapply reach_step; [apply reach_init |]. by apply (SAdd (H := plain_runtime)). Qed.
Lemma supervise_service_step name host s s' : rtc mdns_step (supervise_service name host s) s' → rtc mdns_step s s'.
Proof. intros Hr. exact (rtc_l _ _ _ _ (DSupervise s (example_service name host) None (Ok tt) 5) Hr). Qed.
Lemma example_services_run : rtc mdns_step example_tcp example_moved_service.
Proof.
  apply (supervise_service_step "lab" "10.0.0.2"). eapply rtc_l; [exact (DRemove _ "lab"%string) |].
  apply (supervise_service_step "desk" "10.0.0.3"). change (supervise_service "desk" _ _) with example_announced.
  eapply rtc_l; [exact (DForgetEndpoint _ (example_service "desk" "10.0.0.2")) |].
  apply (supervise_service_step "desk" "10.0.0.2"). apply rtc_refl.
Qed.
Lemma mdns_leaves_configured_witness :
  untouched "tcp:10.0.0.2:19772" 0 (md_hub example_tcp) (md_hub example_moved_service)
  ∧ hb_tasks (md_hub example_announced) !! "tcp:10.0.0.3:19772"%string = Some 1%nat
  ∧ hb_tasks (md_hub example_moved_service) !! "tcp:10.0.0.3:19772"%string = None.
Proof.
  split_and!; [| vm_compute; reflexivity | vm_compute; reflexivity].
  apply (mdns_leaves_configured (H := plain_runtime) id "tcp:10.0.0.2:19772" 0 example_tcp example_moved_service).
  - exact example_tcp_reachable.
  - reflexivity.
  - intros task Ht. set_solver.
  - eexists; split; vm_compute; reflexivity.
  - exact example_services_run.
Defined.

(** *** What a service says of itself *)
Lemma find_member {A} (f : A → bool) l x : find f l = Some x → x ∈ l ∧ f x = true.
Proof. intros H%find_some. by rewrite list_elem_of_In. Qed.
Lemma choose_host_sound v4 v6 host : choose_host v4 v6 = Some host →
  (host ∈ v4 ∧ address_v4 host = true) ∨ (host ∈ v6 ∧ address_v6 host = true ∧ Forall (λ a, address_v4 a = false) v4).
Proof.
  unfold choose_host. destruct (find address_v4 _) as [h|] eqn:H4.
  - intros [= ->]. left. apply find_member in H4 as [Hin Ha]. by rewrite merge_sort_Permutation in Hin.
  - intros [Hin Ha]%find_member. right. rewrite merge_sort_Permutation in Hin. split_and!; [done.. |].
    rewrite <-(merge_sort_Permutation String.le v4). apply Forall_forall. intros a Hain.
    apply (find_none _ _ H4). by apply list_elem_of_In.
Qed.
(** A device is accepted with a full identity, on the port of its service, with a
    usable address, IPv4 first. *)
Lemma parse_iris_service_sound `{Runtime} name info d : parse_iris_service name info = Ok (Some d) →
  mdns_service_name d = name ∧ is_device_id (mdns_device_id d) = true ∧ 1 ≤ mdns_port d ≤ 65535
  ∧ int (sv_port info) = Ok (mdns_port d) ∧ mdns_mode d ≠ ""%string ∧ mdns_pairing d ∈ ["none"; "hmac"]%string
  ∧ choose_host (sv_addresses_v4 info) (sv_addresses_v6 info) = Some (mdns_host d).
Proof.
  unfold parse_iris_service. destruct (_ || _) eqn:Hfields; [done |].
  rewrite !orb_false_iff, !negb_false_iff, !bool_decide_eq_true in Hfields. destruct Hfields as [[[[Hid _] _] Hpair] Hmode].
  destruct (int (PStr _)) as [txt|]; cbn; [| by case_match].
  destruct (int (sv_port info)) as [srv|] eqn:Hsrv; cbn; [| by case_match].
  destruct (_ || _) eqn:Hport; [done |]. rewrite orb_false_iff, !negb_false_iff in Hport. destruct Hport as [Hrange _].
  destruct (choose_host _ _) as [host|]; [| done]. intros [= <-]. cbn. split_and!; try done; try lia.
  - intros Hm. by rewrite Hm in Hmode.
  - destruct (dict_lookup "pairing" _) as [p|]; set_solver.
Qed.

(** A run time that reads one more number. *)
Definition port_runtime : Runtime := {|
  container_str := @container_str plain_runtime;
  int_other := λ v, if is_str v "19772" then Ok 19772 else @int_other plain_runtime v;
  int_base0 := @int_base0 plain_runtime; float_other := @float_other plain_runtime; float_eq := @float_eq plain_runtime;
  lower_other := @lower_other plain_runtime; digit_other := @digit_other plain_runtime; uuid_other := @uuid_other plain_runtime;
|}.
Definition example_properties : list (mdns_text * option mdns_text) := [
  (MBytes (str_encode "device_id"), Some (MBytes (str_encode "0123456789abcdef0123456789abcdef")));
  (MText "protocol", Some (MText "1")); (MText "transport", Some (MText "tcp")); (MText "pairing", Some (MText "hmac"));
  (MText "mode", Some (MText "normal")); (MText "port", Some (MText "19772")); (MText "junk", None);
  (MBytes [0xff], Some (MText "x"))].
Example example_parsed :
  parse_iris_service (H := port_runtime) "lab" (ServiceInfo example_properties (PInt 19772) ["10.0.0.9"; "10.0.0.2"]%string ["fe80::1"%string])
  = Ok (Some (MdnsDevice "lab" "0123456789abcdef0123456789abcdef" "10.0.0.2" 19772 "normal" "hmac")).
Proof. vm_compute. reflexivity. Qed.
(** A link-local address needs its interface. *)
Example example_scopes :
  choose_host [] ["fe80::1"; "fe80::2%eth0"]%string = Some "fe80::2%eth0"%string ∧ choose_host [] ["fe80::1"]%string = None.
Proof. split; vm_compute; reflexivity. Qed.
