(* ===== verification/Lock.v ===== *)
(** * [asyncio.Lock]

    The lock of CPython 3.11 and later, which [operations.py] takes per device:
    a flag and the queue of the waiting coroutines, each with the state of its
    future.  Between two awaits nothing else runs, so each function is atomic. *)
From S2P Require Import Prelude.

Inductive waiter_state := Waiting | Woken | WaitCancelled.
#[export] Instance waiter_state_eq_dec : EqDecision waiter_state.
Proof. solve_decision. Defined.

Record lock := Lock { locked : bool; waiters : list (nat * waiter_state) }.
Definition Lock_init : lock := Lock false [].

Definition is_cancelled_waiter (w : nat * waiter_state) : bool := bool_decide (snd w = WaitCancelled).

(** [acquire()] up to its first await: [true] if the lock was taken. *)
Definition acquire (who : nat) (l : lock) : lock * bool :=
  if negb (locked l) && forallb is_cancelled_waiter (waiters l)
  then (Lock true (waiters l), true)
  else (Lock (locked l) (waiters l ++ [(who, Waiting)]), false).

Definition wake_first (ws : list (nat * waiter_state)) : list (nat * waiter_state) :=
  match ws with
  | (who, Waiting) :: ws => (who, Woken) :: ws
  | ws => ws
  end.

Definition release (l : lock) : lock * res unit :=
  if locked l then (Lock false (wake_first (waiters l)), Ok tt)
  else (l, raise RuntimeError "Lock is not acquired.").

Definition waiter (who : nat) (l : lock) : option waiter_state :=
  option_map snd (find (λ w, bool_decide (fst w = who)) (waiters l)).
Definition remove_waiter (who : nat) (ws : list (nat * waiter_state)) : list (nat * waiter_state) :=
  filter (λ w, fst w ≠ who) ws.

(** The rest of [acquire()], when the future is done: with its result, or with
    the cancellation of the coroutine. *)
Definition acquire_woken (who : nat) (l : lock) : lock := Lock true (remove_waiter who (waiters l)).
Definition acquire_cancelled (who : nat) (l : lock) : lock :=
  let ws := remove_waiter who (waiters l) in
  Lock (locked l) (if locked l then ws else wake_first ws).

(** [fut.cancel()]: only a pending future is cancelled. *)
Definition cancel_waiter (who : nat) (l : lock) : lock :=
  Lock (locked l) (map (λ w, if bool_decide (w = (who, Waiting)) then (who, WaitCancelled) else w) (waiters l)).

(** ** At most one waiter is woken, at the head, and only while the lock is free *)

Definition no_woken (ws : list (nat * waiter_state)) : Prop := Forall (λ w, snd w ≠ Woken) ws.
Definition lock_ok (l : lock) : Prop :=
  no_woken (tail (waiters l)) ∧ ((∃ who, head (waiters l) = Some (who, Woken)) → locked l = false).

Lemma lock_ok_init : lock_ok Lock_init.
Proof. split; [constructor | by intros [? ?]]. Qed.

Lemma no_woken_filter P `{!∀ w, Decision (P w)} ws : no_woken ws → no_woken (filter P ws).
Proof. intros Hws. apply Forall_forall. intros w [_ Hw]%list_elem_of_filter. by apply (proj1 (Forall_forall _ _) Hws). Qed.

Lemma tail_snoc_woken ws who : no_woken (tail ws) → no_woken (tail (ws ++ [(who, Waiting)])).
Proof. destruct ws as [|w ws]; cbn; [constructor |]. intros H. apply Forall_app. split; [done |]. by repeat constructor. Qed.

Lemma acquire_ok who l : lock_ok l → lock_ok (fst (acquire who l)).
Proof.
  intros [Ht Hh]. unfold acquire. destruct (negb (locked l) && _) eqn:E; split; cbn.
  - done.
  - apply andb_true_iff in E as [_ Hall]. intros (w & Hw). destruct (waiters l); [done |].
    cbn in Hw. injection Hw as ->. done.
  - by apply tail_snoc_woken.
  - intros (w & Hw). apply Hh. destruct (waiters l) as [|w' ws]; cbn in *; [done | by exists w].
Qed.

Lemma wake_first_tail ws : tail (wake_first ws) = tail ws.
Proof. by destruct ws as [|[? []] ?]. Qed.

Lemma release_ok l : lock_ok l → lock_ok (fst (release l)).
Proof. intros [Ht Hh]. unfold release. destruct (locked l) eqn:E; [split; cbn; [by rewrite wake_first_tail | done] |]. by split. Qed.

(** Removing a waiter keeps the rest in order. *)
Lemma remove_tail who ws : no_woken (tail ws) → no_woken (tail (remove_waiter who ws)).
Proof.
  destruct ws as [|w ws]; cbn [tail]; [done |]. intros H. unfold remove_waiter. rewrite filter_cons.
  destruct (decide _); cbn [tail]; [by apply no_woken_filter |].
  pose proof (no_woken_filter (λ w, fst w ≠ who) ws H) as Hf. by destruct (filter _ ws); [| inversion Hf].
Qed.

Lemma remove_head who ws w : no_woken (tail ws) →
  head (remove_waiter who ws) = Some (w, Woken) → head ws = Some (w, Woken) ∧ w ≠ who.
Proof.
  destruct ws as [|v ws]; cbn [tail head]; [done |]. intros H. unfold remove_waiter. rewrite filter_cons.
  destruct (decide _) as [Hv|]; cbn [head]; [by intros [= ->] |].
  pose proof (no_woken_filter (λ w, fst w ≠ who) ws H) as Hf. destruct (filter _ ws) as [|x xs]; [done |].
  intros [= ->]. inversion Hf. done.
Qed.

Lemma acquire_cancelled_ok who l : lock_ok l → lock_ok (acquire_cancelled who l).
Proof.
  intros [Ht Hh]. unfold acquire_cancelled. destruct (locked l) eqn:E; split; cbn.
  - by apply remove_tail.
  - intros (w & [Hw _]%remove_head); [| done]. apply Hh. by exists w.
  - rewrite wake_first_tail. by apply remove_tail.
  - done.
Qed.

Lemma cancel_waiter_ok who l : lock_ok l → lock_ok (cancel_waiter who l).
Proof.
  intros [Ht Hh]. unfold cancel_waiter. destruct (waiters l) as [|w ws]; split; cbn in *; try done.
  - apply Forall_map. eapply Forall_impl; [exact Ht |]. intros x Hx. cbn. by case_bool_decide.
  - intros (v & [= Hv]). case_bool_decide; [done |]. subst w. apply Hh. by exists v.
Qed.

(** A woken waiter finds the lock free, and is the only one. *)
Lemma woken_free who l : lock_ok l → waiter who l = Some Woken → locked l = false ∧ lock_ok (acquire_woken who l).
Proof.
  intros [Ht Hh] Hw. unfold waiter in Hw. destruct (find _ _) as [[w s]|] eqn:E; [| done]. cbn in Hw. injection Hw as ->.
  apply find_some in E as [Hin Hw%bool_decide_eq_true]. cbn in Hw. subst w. apply list_elem_of_In in Hin.
  assert (Hhead : head (waiters l) = Some (who, Woken)).
  { destruct (waiters l) as [|w ws]; [by apply not_elem_of_nil in Hin |]. apply elem_of_cons in Hin as [<- |Hin]; [done |].
    by destruct (proj1 (Forall_forall _ _) Ht _ Hin). }
  split; [apply Hh; by exists who |]. split; cbn; [by apply remove_tail |].
  intros (w & [Hw Hne]%remove_head); [| done]. congruence.
Qed.

(** Nobody jumps the queue: the lock is taken at once only if it is free and
    every waiter has been cancelled. *)
Lemma acquire_fair who l l' : acquire who l = (l', true) →
  locked l = false ∧ Forall (λ w, snd w = WaitCancelled) (waiters l) ∧ l' = Lock true (waiters l).
Proof.
  unfold acquire. destruct (_ && _) eqn:E; [| done]. intros [= <-]. apply andb_true_iff in E as [Hl Hw].
  split; [by destruct (locked l) |]. split; [| done]. apply Forall_forall. intros w Hin%list_elem_of_In.
  rewrite forallb_forall in Hw. by apply Hw, bool_decide_eq_true in Hin.
Qed.

(** ** A free lock leaves nobody waiting *)

(** The first waiter of a free lock is woken or cancelled: it will run. *)
Definition lock_live (l : lock) : Prop :=
  locked l = false → ∀ who s, head (waiters l) = Some (who, s) → s ≠ Waiting.

Lemma lock_live_locked ws : lock_live (Lock true ws).
Proof. done. Qed.
Lemma wake_first_live ws : lock_live (Lock false (wake_first ws)).
Proof. intros _ who s. destruct ws as [|[w []] ws]; cbn; [done |..]; by intros [= _ <-]. Qed.

Lemma acquire_live who l : lock_live l → lock_live (fst (acquire who l)).
Proof.
  intros H. unfold acquire. destruct (negb (locked l) && _) eqn:E; [apply lock_live_locked |].
  cbn. intros Hl w s. cbn in *. destruct (waiters l) as [|x ws] eqn:Hw; [by rewrite Hl in E |].
  cbn. intros Hx. apply (H Hl w s). by rewrite Hw.
Qed.
Lemma release_live l : lock_live l → lock_live (fst (release l)).
Proof. intros H. unfold release. destruct (locked l); [apply wake_first_live | done]. Qed.
Lemma acquire_cancelled_live who l : lock_live (acquire_cancelled who l).
Proof. unfold acquire_cancelled. destruct (locked l); [apply lock_live_locked | apply wake_first_live]. Qed.
Lemma cancel_waiter_live who l : lock_live l → lock_live (cancel_waiter who l).
Proof.
  intros H Hl w s. cbn in *. specialize (H Hl). destruct (waiters l) as [|x ws]; [done |]. cbn. intros [= Hx].
  case_bool_decide; [congruence |]. subst x. by apply (H w).
Qed.

(** The coroutines in the queue, in order. *)
Definition queue (l : lock) : list nat := map fst (waiters l).

Lemma wake_first_queue ws : map fst (wake_first ws) = map fst ws.
Proof. by destruct ws as [|[w []] ws]. Qed.
Lemma remove_queue who w ws : w ∈ map fst (remove_waiter who ws) ↔ w ≠ who ∧ w ∈ map fst ws.
Proof.
  unfold remove_waiter. rewrite !list_elem_of_fmap. split.
  - intros (x & -> & [Hx Hin]%list_elem_of_filter). split; [done |]. by exists x.
  - intros [Hne (x & -> & Hin)]. exists x. split; [done |]. by apply list_elem_of_filter.
Qed.
Lemma acquire_queue who l : queue (fst (acquire who l)) = queue l ++ (if snd (acquire who l) then [] else [who]).
Proof. unfold acquire, queue. destruct (_ && _); cbn; [by rewrite app_nil_r | by rewrite map_app]. Qed.
Lemma release_queue l : queue (fst (release l)) = queue l.
Proof. unfold release, queue. destruct (locked l); [apply wake_first_queue | done]. Qed.
Lemma cancel_waiter_queue who l : queue (cancel_waiter who l) = queue l.
Proof. unfold cancel_waiter, queue. cbn. rewrite map_map. apply map_ext. intros w. by case_bool_decide; [subst |]. Qed.
Lemma acquire_cancelled_queue who w l : w ∈ queue (acquire_cancelled who l) ↔ w ≠ who ∧ w ∈ queue l.
Proof. unfold acquire_cancelled, queue. destruct (locked l); cbn; rewrite ?wake_first_queue; apply remove_queue. Qed.
Lemma acquire_cancelled_locked who l : locked (acquire_cancelled who l) = locked l.
Proof. done. Qed.
