(* ===== verification/Link.v ===== *)
(** * The serial link ([SerialLink] of [link.py])

    One serial port, used by coroutines: the reader of the session, its writers,
    and whoever closes the link.  What blocks runs in threads beside the event
    loop, so a coroutine that has gone on does not mean that its thread has.
    Three [asyncio] locks keep them apart.

    A function here is what a coroutine does between two awaits.  The port and
    the scheduling of the threads are the environment. *)
From S2P Require Import Prelude Lock.

Inductive thread := TRead | TWrite | TCancelRead | TClose.
#[export] Instance thread_eq_dec : EqDecision thread.
Proof. solve_decision. Defined.
Inductive link_lock := ReadLock | WriteLock | CloseLock.
#[export] Instance link_lock_eq_dec : EqDecision link_lock.
Proof. solve_decision. Defined.

(** Where a coroutine is.  A lock that is being acquired may be taken at once. *)
Inductive link_task :=
| ReadEntering                        (* [async with self._read_lock] of [read] *)
| ReadLocked
| Reading (th : nat)                  (* [await asyncio.shield(read_task)] *)
| ReadAborting (th abort : nat)       (* [await to_thread(cancel_read)] *)
| ReadDraining (th : nat)             (* [await read_task] *)
| ReadPausing                         (* [await asyncio.sleep(0)] *)
| WriteEntering (data : bytes)
| WriteLocked (data : bytes)
| Writing (th : nat) (data : bytes)
| CloseEntering
| CloseLocked
| CloseAborting (abort : nat)
| CloseEnteringRead
| CloseEnteringWrite
| CloseHolding
| PortClosing (th : nat)
| LinkDone (result : res bytes).

Record serial_link := SerialLink {
  sl_open : bool;                     (* [self._serial.is_open] *)
  sl_closing : bool;
  sl_read_lock : lock;
  sl_write_lock : lock;
  sl_close_lock : lock;
  sl_threads : gmap nat thread;       (* the running ones *)
  sl_tasks : gmap nat link_task;
  sl_next : nat;
}.
Definition serial_link_init : serial_link := SerialLink true false Lock_init Lock_init Lock_init ∅ ∅ 0.

Definition lock_named (k : link_lock) (s : serial_link) : lock :=
  match k with ReadLock => sl_read_lock s | WriteLock => sl_write_lock s | CloseLock => sl_close_lock s end.
Definition with_lock (k : link_lock) (l : lock) (s : serial_link) : serial_link :=
  SerialLink (sl_open s) (sl_closing s) (match k with ReadLock => l | _ => sl_read_lock s end)
    (match k with WriteLock => l | _ => sl_write_lock s end) (match k with CloseLock => l | _ => sl_close_lock s end)
    (sl_threads s) (sl_tasks s) (sl_next s).
Definition task_at (n : nat) (t : link_task) (s : serial_link) : serial_link :=
  SerialLink (sl_open s) (sl_closing s) (sl_read_lock s) (sl_write_lock s) (sl_close_lock s) (sl_threads s)
    (<[n := t]> (sl_tasks s)) (sl_next s).
(** [to_thread(f)]: the thread gets the next number. *)
Definition start_thread (th : thread) (s : serial_link) : serial_link :=
  SerialLink (sl_open s) (sl_closing s) (sl_read_lock s) (sl_write_lock s) (sl_close_lock s)
    (<[sl_next s := th]> (sl_threads s)) (sl_tasks s) (S (sl_next s)).
Definition mark_closing (s : serial_link) : serial_link :=
  SerialLink (sl_open s) true (sl_read_lock s) (sl_write_lock s) (sl_close_lock s) (sl_threads s) (sl_tasks s) (sl_next s).
(** A thread ends; [serial.close] has closed the port then, unless it failed. *)
Definition end_thread (n : nat) (failed : bool) (s : serial_link) : serial_link :=
  SerialLink (match sl_threads s !! n with Some TClose => failed && sl_open s | _ => sl_open s end) (sl_closing s)
    (sl_read_lock s) (sl_write_lock s) (sl_close_lock s) (delete n (sl_threads s)) (sl_tasks s) (sl_next s).
Definition running (n : nat) (s : serial_link) : bool := bool_decide (is_Some (sl_threads s !! n)).

(** Entering [async with]: the coroutine has the lock, or waits at [t]. *)
Definition enter (k : link_lock) (n : nat) (t : link_task) (s : serial_link) (go : serial_link → serial_link) : serial_link :=
  match acquire n (lock_named k s) with
  | (l, true) => go (with_lock k l (task_at n t s))
  | (l, false) => with_lock k l (task_at n t s)
  end.
(** Leaving it. *)
Definition leave (k : link_lock) (n : nat) (t : link_task) (s : serial_link) : serial_link :=
  with_lock k (fst (release (lock_named k s))) (task_at n t s).
Definition CANCELLED : res bytes := raise CancelledError "".

Section link.
(** Whether the port can interrupt a read. *)
Context (has_cancel_read : bool).

(** ** [read] *)
Definition read_locked (n : nat) (s : serial_link) : serial_link :=
  let s := task_at n ReadLocked s in
  if sl_closing s || negb (sl_open s) then leave ReadLock n (LinkDone (Ok [])) s
  else task_at n (Reading (sl_next s)) (start_thread TRead s).
(** The head of the loop. *)
Definition read_enter (n : nat) (s : serial_link) : serial_link := enter ReadLock n ReadEntering s (read_locked n).
(** [data] is what [_read_batch] returned, or raised. *)
Definition read_resumed (n : nat) (data : res bytes) (s : serial_link) : serial_link :=
  match data with
  | Err e => leave ReadLock n (LinkDone (Err e)) s
  | Ok data =>
    if negb (is_nil data) then leave ReadLock n (LinkDone (Ok data)) s
    else if sl_closing s then leave ReadLock n (LinkDone (Ok [])) s
    else leave ReadLock n ReadPausing s
  end.
Definition read_cancelled (n th : nat) (s : serial_link) : serial_link :=
  if has_cancel_read then task_at n (ReadAborting th (sl_next s)) (start_thread TCancelRead s)
  else task_at n (ReadDraining th) s.
Definition read_aborted (n th : nat) (s : serial_link) : serial_link := task_at n (ReadDraining th) s.
Definition read_drained (n : nat) (s : serial_link) : serial_link := leave ReadLock n (LinkDone CANCELLED) s.

(** ** [write] *)
Definition write_locked (n : nat) (data : bytes) (s : serial_link) : serial_link :=
  let s := task_at n (WriteLocked data) s in
  if sl_closing s || negb (sl_open s)
  then leave WriteLock n (LinkDone (raise ConnectionError "ESP-Iris serial link is closed")) s
  else task_at n (Writing (sl_next s) data) (start_thread TWrite s).
Definition write_enter (n : nat) (data : bytes) (s : serial_link) : serial_link :=
  enter WriteLock n (WriteEntering data) s (write_locked n data).
Definition write_resumed (n : nat) (data : bytes) (written : res (option Z)) (s : serial_link) : serial_link :=
  leave WriteLock n (LinkDone (match written with
                               | Err e => Err e
                               | Ok w => if bool_decide (w = Some (zlen data)) then Ok [] else raise OSError "short serial write"
                               end)) s.

(** ** [close] *)
Definition close_holding (n : nat) (s : serial_link) : serial_link :=
  let s := task_at n CloseHolding s in
  if sl_open s then task_at n (PortClosing (sl_next s)) (start_thread TClose s)
  else leave CloseLock n (LinkDone (Ok [])) (leave ReadLock n CloseLocked (leave WriteLock n CloseEnteringWrite s)).
Definition close_enter_write (n : nat) (s : serial_link) : serial_link :=
  enter WriteLock n CloseEnteringWrite s (close_holding n).
Definition close_enter_read (n : nat) (s : serial_link) : serial_link :=
  enter ReadLock n CloseEnteringRead s (close_enter_write n).
Definition close_locked (n : nat) (s : serial_link) : serial_link :=
  let s := task_at n CloseLocked s in
  if negb (sl_open s) then leave CloseLock n (LinkDone (Ok [])) s
  else
    let s := mark_closing s in
    if has_cancel_read then task_at n (CloseAborting (sl_next s)) (start_thread TCancelRead s)
    else close_enter_read n s.
Definition close_enter (n : nat) (s : serial_link) : serial_link := enter CloseLock n CloseEntering s (close_locked n).
(** The port is closed, or the coroutine is cancelled meanwhile, or the port
    refused. *)
Definition port_closed (n : nat) (result : res bytes) (s : serial_link) : serial_link :=
  leave CloseLock n (LinkDone result) (leave ReadLock n CloseLocked (leave WriteLock n CloseEnteringWrite s)).

(** ** Waiting for a lock *)
Definition wanted_lock (t : link_task) : option link_lock :=
  match t with
  | ReadEntering | CloseEnteringRead => Some ReadLock
  | WriteEntering _ | CloseEnteringWrite => Some WriteLock
  | CloseEntering => Some CloseLock
  | _ => None
  end.
(** The coroutine has been woken. *)
Definition entered (n : nat) (t : link_task) (s : serial_link) : serial_link :=
  match t with
  | ReadEntering => read_locked n s
  | WriteEntering data => write_locked n data s
  | CloseEntering => close_locked n s
  | CloseEnteringRead => close_enter_write n s
  | CloseEnteringWrite => close_holding n s
  | _ => s
  end.
(** It was cancelled: the locks that it has are released. *)
Definition given_up (n : nat) (t : link_task) (s : serial_link) : serial_link :=
  match t with
  | CloseEnteringRead => leave CloseLock n (LinkDone CANCELLED) s
  | CloseEnteringWrite => leave CloseLock n (LinkDone CANCELLED) (leave ReadLock n CloseLocked s)
  | _ => task_at n (LinkDone CANCELLED) s
  end.

(** ** The event loop

    [gentle] leaves out the two cancellations that the link does not survive:
    that of a write whose thread runs, and a second one of a read; and a
    [cancel_read] that fails. *)
Inductive link_step (gentle : bool) (s : serial_link) : serial_link → Prop :=
| KRead n : sl_tasks s !! n = None → link_step gentle s (read_enter n s)
| KWrite n data : sl_tasks s !! n = None → link_step gentle s (write_enter n data s)
| KClose n : sl_tasks s !! n = None → link_step gentle s (close_enter n s)
| KThread th failed : link_step gentle s (end_thread th failed s)
| KWoken n t k : sl_tasks s !! n = Some t → wanted_lock t = Some k → waiter n (lock_named k s) = Some Woken →
    link_step gentle s (entered n t (with_lock k (acquire_woken n (lock_named k s)) s))
| KCancelWaiter n t k : sl_tasks s !! n = Some t → wanted_lock t = Some k →
    link_step gentle s (with_lock k (cancel_waiter n (lock_named k s)) s)
| KGivenUp n t k : sl_tasks s !! n = Some t → wanted_lock t = Some k → waiter n (lock_named k s) ≠ Some Waiting →
    link_step gentle s (given_up n t (with_lock k (acquire_cancelled n (lock_named k s)) s))
| KReadResumed n th data : sl_tasks s !! n = Some (Reading th) → running th s = false →
    link_step gentle s (read_resumed n data s)
| KReadAgain n : sl_tasks s !! n = Some ReadPausing → link_step gentle s (read_enter n s)
| KReadCancelled n th : sl_tasks s !! n = Some (Reading th) → link_step gentle s (read_cancelled n th s)
| KReadAborted n th abort : sl_tasks s !! n = Some (ReadAborting th abort) → running abort s = false →
    link_step gentle s (read_aborted n th s)
| KReadDrained n th : sl_tasks s !! n = Some (ReadDraining th) → running th s = false → link_step gentle s (read_drained n s)
| KReadAbandoned n t th abort : gentle = false → sl_tasks s !! n = Some t → t = ReadAborting th abort ∨ t = ReadDraining th →
    link_step gentle s (read_drained n s)
| KPauseCancelled n : sl_tasks s !! n = Some ReadPausing → link_step gentle s (task_at n (LinkDone CANCELLED) s)
| KWriteResumed n th data written : sl_tasks s !! n = Some (Writing th data) → running th s = false →
    link_step gentle s (write_resumed n data written s)
| KWriteCancelled n th data : gentle = false → sl_tasks s !! n = Some (Writing th data) →
    link_step gentle s (write_resumed n data (raise CancelledError "") s)
| KCloseAborted n abort : sl_tasks s !! n = Some (CloseAborting abort) → running abort s = false →
    link_step gentle s (close_enter_read n s)
| KCloseAbortCancelled n abort : sl_tasks s !! n = Some (CloseAborting abort) →
    link_step gentle s (leave CloseLock n (LinkDone CANCELLED) s)
| KPortClosed n th result : sl_tasks s !! n = Some (PortClosing th) → running th s = false →
    link_step gentle s (port_closed n result s)
| KPortCloseCancelled n th : sl_tasks s !! n = Some (PortClosing th) → link_step gentle s (port_closed n CANCELLED s).
End link.

(** ** One batch of a read *)
Section batch.
Context {P : Type} (port_read : Z → P → bytes * P) (in_waiting : P → Z).
Definition _read_batch (size : Z) (p : P) : bytes * P :=
  if size <=? 0 then ([], p)
  else
    let '(data, p) := port_read 1 p in
    if is_nil data || (size =? 1) then (data, p)
    else
      let waiting := in_waiting p in
      if waiting <=? 0 then (data, p)
      else let '(rest, p) := port_read (Z.min waiting (size - zlen data)) p in (data ++ rest, p).
End batch.

(** ** The invariant *)

Definition holds (t : link_task) (k : link_lock) : bool :=
  match t, k with
  | (ReadLocked | Reading _ | ReadAborting _ _ | ReadDraining _), ReadLock => true
  | (WriteLocked _ | Writing _ _), WriteLock => true
  | (CloseLocked | CloseAborting _ | CloseEnteringRead), CloseLock => true
  | CloseEnteringWrite, (ReadLock | CloseLock) => true
  | (CloseHolding | PortClosing _), _ => true
  | _, _ => false
  end.
(** The thread of a coroutine that waits for it to leave the port alone. *)
Definition drives (t : link_task) (th : nat) (kind : thread) : Prop :=
  match kind with
  | TRead => t = Reading th ∨ (∃ abort, t = ReadAborting th abort) ∨ t = ReadDraining th
  | TWrite => ∃ data, t = Writing th data
  | _ => False
  end.

Record slot_ok (k : link_lock) (T : gmap nat link_task) (l : lock) : Prop := {
  so_lock : lock_ok l;
  so_held : ∀ n t, T !! n = Some t → holds t k = true → locked l = true;
  so_one : ∀ n n' t t', T !! n = Some t → T !! n' = Some t' → holds t k = true → holds t' k = true → n = n';
}.
Record threads_ok (opened closing : bool) (T : gmap nat link_task) (threads : gmap nat thread) (next : nat) : Prop := {
  tho_driven : ∀ th kind, threads !! th = Some kind → kind = TRead ∨ kind = TWrite →
    opened = true ∧ ∃ n t, T !! n = Some t ∧ drives t th kind;
  tho_close : ∀ th, threads !! th = Some TClose →
    closing = true ∧ ∀ th' kind, threads !! th' = Some kind → kind ≠ TRead ∧ kind ≠ TWrite;
  tho_closing : ∀ n t, T !! n = Some t → t = CloseEnteringRead ∨ t = CloseEnteringWrite ∨ t = CloseHolding
    ∨ (∃ abort, t = CloseAborting abort) ∨ (∃ th, t = PortClosing th) → closing = true;
  tho_next : ∀ th, is_Some (threads !! th) → (th < next)%nat;
}.
Record link_ok (s : serial_link) : Prop := {
  lo_slot : ∀ k, slot_ok k (sl_tasks s) (lock_named k s);
  lo_threads : threads_ok (sl_open s) (sl_closing s) (sl_tasks s) (sl_threads s) (sl_next s);
}.

(** *** Locks *)
Lemma slot_same k T l l' n t' : slot_ok k T l → lock_ok l' → locked l' = locked l →
  (∀ t, T !! n = Some t → holds t' k = holds t k) → (T !! n = None → holds t' k = false) → slot_ok k (<[n:=t']> T) l'.
Proof.
  intros [H1 H2 H3] Hl Hll Hs Hn. assert (Hold : ∀ n1 t1, <[n:=t']> T !! n1 = Some t1 → holds t1 k = true →
    ∃ t0, T !! n1 = Some t0 ∧ holds t0 k = true).
  { intros n1 t1 [[<- <-] | [_ Ht]]%lookup_insert_Some Hh; [| eauto]. destruct (T !! n) as [t|] eqn:E.
    - exists t. by rewrite <-(Hs t).
    - by rewrite Hn in Hh. }
  constructor; [done | |].
  - intros n1 t1 Ht Hh. rewrite Hll. destruct (Hold n1 t1 Ht Hh) as (t0 & Ht0 & Hh0). by apply (H2 n1 t0).
  - intros n1 n2 t1 t2 Ht1 Ht2 Hh1 Hh2. destruct (Hold n1 t1 Ht1 Hh1) as (t3 & ? & ?), (Hold n2 t2 Ht2 Hh2) as (t4 & ? & ?).
    by apply (H3 n1 n2 t3 t4).
Qed.
Lemma slot_take k T l l' n t' : slot_ok k T l → lock_ok l' → locked l = false → locked l' = true → slot_ok k (<[n:=t']> T) l'.
Proof.
  intros [H1 H2 H3] Hl Hfree Htaken. assert (Honly : ∀ n1 t1, <[n:=t']> T !! n1 = Some t1 → holds t1 k = true → n1 = n).
  { intros n1 t1 [[-> _] | [_ Ht]]%lookup_insert_Some Hh; [done |]. rewrite (H2 n1 t1 Ht Hh) in Hfree. done. }
  constructor; [done.. |]. intros n1 n2 t1 t2 Ht1 Ht2 Hh1 Hh2. by rewrite (Honly n1 t1), (Honly n2 t2).
Qed.
Lemma slot_release k T l n t t' : slot_ok k T l → T !! n = Some t → holds t k = true → holds t' k = false →
  slot_ok k (<[n:=t']> T) (fst (release l)).
Proof.
  intros [H1 H2 H3] Hn Hh Hh'. constructor; [by apply release_ok | |].
  - intros n1 t1 [[-> <-] | [Hne Ht]]%lookup_insert_Some Hh1; [congruence |]. destruct Hne. by apply (H3 n n1 t t1).
  - intros n1 n2 t1 t2 [[-> <-] | [_ Ht1]]%lookup_insert_Some [[-> <-] | [_ Ht2]]%lookup_insert_Some Hh1 Hh2; try congruence.
    by apply (H3 n1 n2 t1 t2).
Qed.

(** *** Threads *)
(** The task of [n] becomes [t']: it must still wait for the threads that run. *)
Lemma threads_move o c T threads next n t' : threads_ok o c T threads next →
  (∀ t th kind, T !! n = Some t → drives t th kind → threads !! th = Some kind → drives t' th kind) →
  (t' = CloseEnteringRead ∨ t' = CloseEnteringWrite ∨ t' = CloseHolding ∨ (∃ abort, t' = CloseAborting abort)
     ∨ (∃ th, t' = PortClosing th) → c = true) →
  threads_ok o c (<[n:=t']> T) threads next.
Proof.
  intros [H1 H2 H3 H4] Hd Hc. constructor; [| done | | done].
  - intros th kind Hth Hk. destruct (H1 th kind Hth Hk) as (Ho & n1 & t1 & Ht1 & Hd1). split; [done |].
    destruct (decide (n = n1)) as [<- | Hne].
    + exists n, t'. rewrite lookup_insert_eq. eauto.
    + exists n1, t1. by rewrite lookup_insert_ne.
  - intros n1 t1 [[-> <-] | [_ Ht]]%lookup_insert_Some; [done | by apply (H3 n1)].
Qed.
Lemma threads_start o c T threads next th : threads_ok o c T threads next →
  (th = TRead ∨ th = TWrite → o = true ∧ c = false ∧ ∃ n t, T !! n = Some t ∧ drives t next th) →
  (th = TClose → c = true ∧ ∀ th' kind, threads !! th' = Some kind → kind ≠ TRead ∧ kind ≠ TWrite) →
  threads_ok o c T (<[next:=th]> threads) (S next).
Proof.
  intros [H1 H2 H3 H4] Hrw Hc. constructor; [| | done |].
  - intros t kind [[<- <-] | [_ Ht]]%lookup_insert_Some Hk; [| by apply H1]. destruct (Hrw Hk) as (Ho & _ & Hn). done.
  - intros t [[<- ->] | [Hne Ht]]%lookup_insert_Some.
    + destruct (Hc eq_refl) as [Hclosing Hno]. split; [done |].
      intros t' kind [[_ <-] | [_ Ht']]%lookup_insert_Some; [done | by apply (Hno t')].
    + destruct (H2 t Ht) as [Hclosing Hno]. split; [done |].
      intros t' kind [[<- <-] | [_ Ht']]%lookup_insert_Some; [| by apply (Hno t')].
      split; intros ->; destruct Hrw as (_ & Hcl & _); auto; congruence.
  - intros t [kind [[<- _] | [_ Ht]]%lookup_insert_Some]; [lia |]. specialize (H4 t (mk_is_Some _ _ Ht)). lia.
Qed.
Lemma end_thread_ok th failed s : link_ok s → link_ok (end_thread th failed s).
Proof.
  intros [Hs [H1 H2 H3 H4]]. constructor; [intros k; specialize (Hs k); by destruct k |]. cbn. constructor.
  - intros t kind [Hne Ht]%lookup_delete_Some Hk. destruct (H1 t kind Ht Hk) as [-> Hd]. split; [| done].
    destruct (sl_threads s !! th) as [[]|] eqn:Hth; try done.
    destruct (proj2 (H2 th Hth) t kind Ht) as [? ?]. by destruct Hk.
  - intros t [_ Ht]%lookup_delete_Some. destruct (H2 t Ht) as [Hc Hno]. split; [done |].
    intros t' kind [_ Ht']%lookup_delete_Some. by apply (Hno t').
  - done.
  - intros t [kind [_ Ht]%lookup_delete_Some]. eauto.
Qed.

(** *** Coroutines *)
(** What [n] does next does not leave a thread of its own behind. *)
Definition threads_kept (n : nat) (t' : link_task) (s : serial_link) : Prop :=
  ∀ t th kind, sl_tasks s !! n = Some t → drives t th kind → sl_threads s !! th = Some kind → drives t' th kind.
Definition needs_closing (t : link_task) : bool :=
  match t with CloseEnteringRead | CloseEnteringWrite | CloseHolding | CloseAborting _ | PortClosing _ => true | _ => false end.
Lemma needs_closing_spec t : t = CloseEnteringRead ∨ t = CloseEnteringWrite ∨ t = CloseHolding
  ∨ (∃ abort, t = CloseAborting abort) ∨ (∃ th, t = PortClosing th) ↔ needs_closing t = true.
Proof.
  split; [by intros [-> | [-> | [-> | [[? ->] | [? ->]]]]] |]. destruct t; cbn; intros; try discriminate; eauto 10.
Qed.
Lemma idle_threads_kept n t t' s : sl_tasks s !! n = Some t → (∀ th kind, ¬ drives t th kind) → threads_kept n t' s.
Proof. intros Ht Hd t1 th kind Ht1 Hd1. simplify_eq. by destruct (Hd th kind). Qed.

Lemma ok_task n t' s : link_ok s → threads_kept n t' s → (needs_closing t' = true → sl_closing s = true) →
  (∀ k t, sl_tasks s !! n = Some t → holds t' k = holds t k) → (sl_tasks s !! n = None → ∀ k, holds t' k = false) →
  link_ok (task_at n t' s).
Proof.
  intros [Hs Ht] Hk Hc Hh Hn. constructor.
  - intros k. replace (lock_named k (task_at n t' s)) with (lock_named k s) by (by destruct k).
    apply (slot_same _ _ _ _ _ _ (Hs k)); [apply (Hs k) | done | by intros; apply Hh | by intros; apply Hn].
  - cbn. apply threads_move; [done | exact Hk |]. by rewrite needs_closing_spec.
Qed.
Lemma lock_with k k' l s : lock_named k' (with_lock k l s) = if decide (k = k') then l else lock_named k' s.
Proof. by destruct k, k'. Qed.
Lemma lock_task k n t s : lock_named k (task_at n t s) = lock_named k s.
Proof. by destruct k. Qed.
Lemma with_lock_parts k l s : sl_tasks (with_lock k l s) = sl_tasks s ∧ sl_threads (with_lock k l s) = sl_threads s
  ∧ sl_open (with_lock k l s) = sl_open s ∧ sl_closing (with_lock k l s) = sl_closing s ∧ sl_next (with_lock k l s) = sl_next s.
Proof. done. Qed.
(** The lock of [k] becomes [l], of which the holders are right. *)
Lemma ok_with_lock k l s : link_ok s → slot_ok k (sl_tasks s) l → link_ok (with_lock k l s).
Proof.
  intros [Hs Ht] Hl. constructor; [| done]. intros k'. rewrite lock_with. destruct (decide (k = k')) as [<- |]; [done | apply Hs].
Qed.
Lemma ok_lock_same k l s : link_ok s → lock_ok l → locked l = locked (lock_named k s) → link_ok (with_lock k l s).
Proof.
  intros Hok Hl Hll. apply ok_with_lock; [done |]. destruct (lo_slot s Hok k) as [_ H2 H3]. constructor; [done | | done].
  rewrite Hll. exact H2.
Qed.
Lemma ok_leave k n t t' s : link_ok s → sl_tasks s !! n = Some t → holds t k = true → holds t' k = false →
  (∀ k', k' ≠ k → holds t' k' = holds t k') → threads_kept n t' s → (needs_closing t' = true → sl_closing s = true) →
  link_ok (leave k n t' s).
Proof.
  intros [Hs Ht] Hn Hh Hh' Hsame Hk Hc. constructor.
  - intros k'. unfold leave. rewrite lock_with, lock_task. change (sl_tasks (with_lock _ _ _)) with (<[n:=t']> (sl_tasks s)).
    destruct (decide (k = k')) as [<- | Hne]; [by apply (slot_release k _ _ n t) |].
    apply (slot_same _ _ _ _ _ _ (Hs k')); [apply (Hs k') | done | | by rewrite Hn]. intros t1 Ht1. simplify_eq. by apply Hsame.
  - apply threads_move; [done | exact Hk |]. by rewrite needs_closing_spec.
Qed.

(** The lock of [k] has been given to [n], which does not hold it yet. *)
Record granted (k : link_lock) (n : nat) (t : link_task) (s : serial_link) : Prop := {
  gr_ok : link_ok s;
  gr_task : sl_tasks s !! n = Some t;
  gr_locked : locked (lock_named k s) = true;
  gr_nobody : ∀ n' t', sl_tasks s !! n' = Some t' → holds t' k = false;
}.
Lemma free_nobody k s : link_ok s → locked (lock_named k s) = false → ∀ n t, sl_tasks s !! n = Some t → holds t k = false.
Proof.
  intros Hok Hl n t Ht. destruct (holds t k) eqn:Hh; [| done]. by rewrite (so_held _ _ _ (lo_slot s Hok k) n t Ht Hh) in Hl.
Qed.
Lemma granted_taken k n t t' s : granted k n t s → holds t' k = true → (∀ k', k' ≠ k → holds t' k' = holds t k') →
  threads_kept n t' s → (needs_closing t' = true → sl_closing s = true) → link_ok (task_at n t' s).
Proof.
  intros [[Hs Hth] Ht Hl Hn] Hh Hsame Hk Hc. constructor.
  - intros k'. rewrite lock_task. cbn [task_at sl_tasks]. destruct (decide (k' = k)) as [-> | Hne].
    + destruct (Hs k) as [H1 H2 H3].
      assert (Honly : ∀ n1 t1, <[n:=t']> (sl_tasks s) !! n1 = Some t1 → holds t1 k = true → n1 = n).
      { intros n1 t1 [[-> _] | [_ Ht1]]%lookup_insert_Some Hh1; [done |]. by rewrite (Hn n1 t1 Ht1) in Hh1. }
      constructor; [done.. |]. intros n1 n2 t1 t2 Ht1 Ht2 Hh1 Hh2. by rewrite (Honly n1 t1), (Honly n2 t2).
    + apply (slot_same _ _ _ _ _ _ (Hs k')); [apply (Hs k') | done | | by rewrite Ht]. intros t1 Ht1. simplify_eq. by apply Hsame.
  - apply threads_move; [done | exact Hk |]. by rewrite needs_closing_spec.
Qed.
Lemma ok_enter k n t s go : link_ok (task_at n t s) →
  (∀ s', granted k n t s' → sl_closing s' = sl_closing s → link_ok (go s')) → link_ok (enter k n t s go).
Proof.
  intros Hok1 Hgo. pose proof (so_lock _ _ _ (lo_slot _ Hok1 k)) as Hl0. rewrite lock_task in Hl0.
  pose proof (acquire_ok n (lock_named k s) Hl0) as Hl. unfold enter.
  destruct (acquire n (lock_named k s)) as [l []] eqn:E; cbn [fst] in Hl.
  - apply acquire_fair in E as (Hfree & _ & ->). apply Hgo; [| done].
    assert (Hnone : ∀ n1 t1, sl_tasks (task_at n t s) !! n1 = Some t1 → holds t1 k = false).
    { apply free_nobody; [done | by rewrite lock_task]. }
    constructor; [| by cbn; rewrite lookup_insert_eq | by rewrite lock_with, decide_True | exact Hnone].
    apply ok_with_lock; [done |]. constructor; [done | done |].
    intros n1 n2 t1 t2 Ht1 _ Hh1. by rewrite (Hnone n1 t1 Ht1) in Hh1.
  - apply ok_lock_same; [done.. |]. rewrite lock_task. unfold acquire in E. destruct (_ && _); [done |]. by injection E as <-.
Qed.
Lemma start_thread_ok th s : link_ok s →
  (th = TRead ∨ th = TWrite → sl_open s = true ∧ sl_closing s = false
     ∧ ∃ n t, sl_tasks s !! n = Some t ∧ drives t (sl_next s) th) →
  (th = TClose → sl_closing s = true ∧ ∀ th' kind, sl_threads s !! th' = Some kind → kind ≠ TRead ∧ kind ≠ TWrite) →
  link_ok (start_thread th s).
Proof.
  intros [Hs Ht] Hrw Hc. constructor; [intros k; specialize (Hs k); by destruct k |]. by apply threads_start.
Qed.

(** A task that holds both locks finds no thread reading or writing. *)
Lemma no_users n t s : link_ok s → sl_tasks s !! n = Some t → holds t ReadLock = true → holds t WriteLock = true →
  (∀ th kind, ¬ drives t th kind) → ∀ th kind, sl_threads s !! th = Some kind → kind ≠ TRead ∧ kind ≠ TWrite.
Proof.
  intros [Hs [H1 _ _ _]] Ht Hr Hw Hd th kind Hth. split; intros ->.
  - destruct (H1 th TRead Hth (or_introl eq_refl)) as (_ & n1 & t1 & Ht1 & Hd1).
    assert (n = n1) as <-; [| simplify_eq; by eapply Hd].
    apply (so_one _ _ _ (Hs ReadLock) n n1 t t1 Ht Ht1 Hr). destruct Hd1 as [-> | [[? ->] | ->]]; done.
  - destruct (H1 th TWrite Hth (or_intror eq_refl)) as (_ & n1 & t1 & Ht1 & Hd1).
    assert (n = n1) as <-; [| simplify_eq; by eapply Hd].
    apply (so_one _ _ _ (Hs WriteLock) n n1 t t1 Ht Ht1 Hw). by destruct Hd1 as [? ->].
Qed.

Ltac link_idle :=
  let H := fresh "Hdrives" in intros ? []; cbn; intros H; try done; repeat destruct H as [H | H];
  repeat match type of H with ∃ _, _ => destruct H as [? H] end; discriminate H.
(** The side conditions of a step of a task that is known. *)
Ltac link_side :=
  first [done
        | by intros; simplify_eq; cbn in *; congruence
        | intros k' ?; by destruct k'
        | intros k' ? ?; simplify_eq; by destruct k'
        | eapply idle_threads_kept; [eassumption | link_idle]].

Lemma lookup_task n t s : sl_tasks (task_at n t s) !! n = Some t.
Proof. apply lookup_insert_eq. Qed.

Section operations.
Context (has_cancel_read : bool).

Lemma read_locked_ok n s : granted ReadLock n ReadEntering s → link_ok (read_locked n s).
Proof.
  intros Hg. pose proof (gr_task _ _ _ _ Hg) as Ht. unfold read_locked.
  assert (Hok : link_ok (task_at n ReadLocked s)) by (apply (granted_taken ReadLock n ReadEntering); try done; link_side).
  pose proof (lookup_task n ReadLocked s) as Ht1. set (s1 := task_at n ReadLocked s) in *.
  destruct (sl_closing s1 || negb (sl_open s1)) eqn:E.
  - apply (ok_leave ReadLock n ReadLocked); try done; link_side.
  - apply orb_false_iff in E as [Hc Ho%negb_false_iff].
    change (link_ok (start_thread TRead (task_at n (Reading (sl_next s1)) s1))). apply start_thread_ok; [| | done].
    + apply ok_task; try done; link_side.
    + intros _. split_and!; [done.. |]. exists n, (Reading (sl_next s1)). split; [apply lookup_task | by left].
Qed.
Lemma write_locked_ok n data s : granted WriteLock n (WriteEntering data) s → link_ok (write_locked n data s).
Proof.
  intros Hg. pose proof (gr_task _ _ _ _ Hg) as Ht. unfold write_locked.
  assert (Hok : link_ok (task_at n (WriteLocked data) s))
    by (apply (granted_taken WriteLock n (WriteEntering data)); try done; link_side).
  pose proof (lookup_task n (WriteLocked data) s) as Ht1. set (s1 := task_at n (WriteLocked data) s) in *.
  destruct (sl_closing s1 || negb (sl_open s1)) eqn:E.
  - apply (ok_leave WriteLock n (WriteLocked data)); try done; link_side.
  - apply orb_false_iff in E as [Hc Ho%negb_false_iff].
    change (link_ok (start_thread TWrite (task_at n (Writing (sl_next s1) data) s1))). apply start_thread_ok; [| | done].
    + apply ok_task; try done; link_side.
    + intros _. split_and!; [done.. |]. exists n, (Writing (sl_next s1) data). split; [apply lookup_task | by eexists].
Qed.

(** The three locks are given back in turn. *)
Lemma release_all n t s result : link_ok s → sl_tasks s !! n = Some t → (t = CloseHolding ∨ ∃ th, t = PortClosing th) →
  sl_closing s = true →
  link_ok (leave CloseLock n (LinkDone result) (leave ReadLock n CloseLocked (leave WriteLock n CloseEnteringWrite s))).
Proof.
  intros Hok Ht Hform Hc.
  assert (H1 : link_ok (leave WriteLock n CloseEnteringWrite s)).
  { destruct Hform as [-> | [th ->]]; (eapply (ok_leave WriteLock n); [done | exact Ht | ..]; try done; link_side). }
  assert (H2 : link_ok (leave ReadLock n CloseLocked (leave WriteLock n CloseEnteringWrite s))).
  { apply (ok_leave ReadLock n CloseEnteringWrite); [done | apply lookup_insert_eq | ..]; try done; [link_side |].
    eapply idle_threads_kept; [apply lookup_insert_eq | link_idle]. }
  apply (ok_leave CloseLock n CloseLocked); [done | apply lookup_insert_eq | ..]; try done; [link_side |].
  eapply idle_threads_kept; [apply lookup_insert_eq | link_idle].
Qed.
Lemma close_holding_ok n s : granted WriteLock n CloseEnteringWrite s → sl_closing s = true → link_ok (close_holding n s).
Proof.
  intros Hg Hc. pose proof (gr_task _ _ _ _ Hg) as Ht. unfold close_holding.
  assert (Hok : link_ok (task_at n CloseHolding s)) by (apply (granted_taken WriteLock n CloseEnteringWrite); try done; link_side).
  pose proof (lookup_task n CloseHolding s) as Ht1. set (s1 := task_at n CloseHolding s) in *.
  destruct (sl_open s1) eqn:Ho; [| by apply (release_all n CloseHolding); [.. | left |]].
  change (link_ok (start_thread TClose (task_at n (PortClosing (sl_next s1)) s1))). apply start_thread_ok; [| by intros [|] |].
  - apply ok_task; try done; link_side.
  - intros _. split; [done |]. apply (no_users n CloseHolding s1); try done. link_idle.
Qed.
Lemma close_enter_write_ok n s : granted ReadLock n CloseEnteringRead s → sl_closing s = true → link_ok (close_enter_write n s).
Proof.
  intros Hg Hc. pose proof (gr_task _ _ _ _ Hg) as Ht. unfold close_enter_write. apply ok_enter.
  - apply (granted_taken ReadLock n CloseEnteringRead); try done; link_side.
  - intros s' Hg' Hc'. apply close_holding_ok; [done | congruence].
Qed.
Lemma close_enter_read_ok n t s : link_ok s → sl_tasks s !! n = Some t → (t = CloseLocked ∨ ∃ abort, t = CloseAborting abort) →
  sl_closing s = true → link_ok (close_enter_read n s).
Proof.
  intros Hok Ht Hform Hc. unfold close_enter_read. apply ok_enter.
  - destruct Hform as [-> | [abort ->]]; apply ok_task; try done; link_side.
  - intros s' Hg Hc'. apply close_enter_write_ok; [done | congruence].
Qed.
Lemma mark_closing_ok s : link_ok s → link_ok (mark_closing s).
Proof.
  intros [Hs [H1 H2 H3 H4]]. constructor; [intros k; specialize (Hs k); by destruct k |]. constructor; try done.
  intros th Hth. split; [done | by eapply H2].
Qed.
Lemma close_locked_ok n s : granted CloseLock n CloseEntering s → link_ok (close_locked has_cancel_read n s).
Proof.
  intros Hg. pose proof (gr_task _ _ _ _ Hg) as Ht. unfold close_locked.
  assert (Hok : link_ok (task_at n CloseLocked s)) by (apply (granted_taken CloseLock n CloseEntering); try done; link_side).
  pose proof (lookup_task n CloseLocked s) as Ht1. set (s1 := task_at n CloseLocked s) in *.
  destruct (negb (sl_open s1)).
  - apply (ok_leave CloseLock n CloseLocked); try done; link_side.
  - pose proof (mark_closing_ok s1 Hok) as Hok2. change (sl_tasks s1) with (sl_tasks (mark_closing s1)) in Ht1.
    set (s2 := mark_closing s1) in *. assert (Hc : sl_closing s2 = true) by done. destruct has_cancel_read.
    + change (link_ok (start_thread TCancelRead (task_at n (CloseAborting (sl_next s2)) s2))).
      apply start_thread_ok; [| by intros [|] | done]. apply ok_task; try done; link_side.
    + apply (close_enter_read_ok n CloseLocked); try done. by left.
Qed.
Lemma read_enter_ok n s : link_ok s → sl_tasks s !! n = None ∨ sl_tasks s !! n = Some ReadPausing → link_ok (read_enter n s).
Proof.
  intros Hok Ht. unfold read_enter. apply ok_enter; [| intros s' Hg _; by apply read_locked_ok].
  apply ok_task; try done.
  - destruct Ht as [Ht | Ht]; [intros t th kind Ht'; congruence | link_side].
  - intros k t Ht'. destruct Ht as [Ht | Ht]; [congruence |]. simplify_eq. by destruct k.
Qed.
Lemma read_resumed_ok n th data s : link_ok s → sl_tasks s !! n = Some (Reading th) → running th s = false →
  link_ok (read_resumed n data s).
Proof.
  intros Hok Ht Hth%bool_decide_eq_false. unfold read_resumed.
  assert (Hleave : ∀ t', holds t' ReadLock = false → (∀ k', k' ≠ ReadLock → holds t' k' = false) → needs_closing t' = false →
    link_ok (leave ReadLock n t' s)).
  { intros t' H1 H2 H3. apply (ok_leave ReadLock n (Reading th)); try done.
    - intros k' Hk. rewrite H2 by done. by destruct k'.
    - intros t th' kind Ht' Hd Hrun. simplify_eq. destruct kind; cbn in Hd; try done.
      + destruct Hd as [[= ->] | [[? Hd] | Hd]]; [destruct Hth; eauto | discriminate Hd..].
      + by destruct Hd.
    - by rewrite H3. }
  destruct data as [data|e]; [| by apply Hleave]. destruct (negb (is_nil data)); [by apply Hleave |].
  destruct (sl_closing s); by apply Hleave.
Qed.
End operations.

Section steps.
Context (has_cancel_read : bool).

(** A thread that does not run is nobody's concern. *)
Lemma stopped_kept n t t' th kind s : sl_tasks s !! n = Some t → running th s = false →
  (∀ th' kind', drives t th' kind' → th' = th ∧ kind' = kind) → threads_kept n t' s.
Proof.
  intros Ht Hth%bool_decide_eq_false Hd t1 th1 kind1 Ht1 Hd1 Hrun. simplify_eq.
  destruct (Hd th1 kind1 Hd1) as [-> _]. destruct Hth. eauto.
Qed.
Lemma read_cancelled_ok n th s : link_ok s → sl_tasks s !! n = Some (Reading th) → link_ok (read_cancelled has_cancel_read n th s).
Proof.
  intros Hok Ht. assert (Hmove : ∀ t', t' = ReadDraining th ∨ (∃ abort, t' = ReadAborting th abort) → link_ok (task_at n t' s)).
  { intros t' Hform. apply ok_task; try done.
    - intros t th' kind Ht' Hd _. simplify_eq. destruct kind; cbn in *; try done; [| by destruct Hd].
      destruct Hd as [[= ->] | [[? [=]] | [=]]]. destruct Hform as [-> | [abort ->]]; eauto.
    - by destruct Hform as [-> | [? ->]].
    - intros k t Ht'. simplify_eq. by destruct Hform as [-> | [? ->]].
    - by rewrite Ht. }
  unfold read_cancelled. destruct has_cancel_read; [| apply Hmove; by left].
  change (link_ok (start_thread TCancelRead (task_at n (ReadAborting th (sl_next s)) s))).
  apply start_thread_ok; [apply Hmove; eauto | by intros [|] | done].
Qed.
Lemma read_aborted_ok n th abort s : link_ok s → sl_tasks s !! n = Some (ReadAborting th abort) → link_ok (read_aborted n th s).
Proof.
  intros Hok Ht. apply ok_task; try done; [| intros k t Ht'; by simplify_eq | by rewrite Ht].
  intros t th' kind Ht' Hd _. simplify_eq. destruct kind; cbn in *; try done; [| by destruct Hd].
  destruct Hd as [[=] | [[? [= -> _]] | [=]]]. eauto.
Qed.
Lemma read_drained_ok n th s : link_ok s → sl_tasks s !! n = Some (ReadDraining th) → running th s = false →
  link_ok (read_drained n s).
Proof.
  intros Hok Ht Hth. apply (ok_leave ReadLock n (ReadDraining th)); try done; [by intros [] |].
  apply (stopped_kept n (ReadDraining th) _ th TRead); [done.. |]. intros th' [] Hd; cbn in Hd; try done.
  - by destruct Hd as [[=] | [[? [=]] | [= ->]]].
  - by destruct Hd.
Qed.
Lemma write_resumed_ok n th data written s : link_ok s → sl_tasks s !! n = Some (Writing th data) → running th s = false →
  link_ok (write_resumed n data written s).
Proof.
  intros Hok Ht Hth. apply (ok_leave WriteLock n (Writing th data)); try done; [by intros [] |].
  apply (stopped_kept n (Writing th data) _ th TWrite); [done.. |]. intros th' [] Hd; cbn in Hd; try done.
  - by destruct Hd as [[=] | [[? [=]] | [=]]].
  - by destruct Hd as [? [= -> _]].
Qed.
Lemma wanted_not_held t k : wanted_lock t = Some k → holds t k = false.
Proof. by destruct t; intros [= <-]. Qed.
Lemma woken_granted n t k s : link_ok s → sl_tasks s !! n = Some t → waiter n (lock_named k s) = Some Woken →
  granted k n t (with_lock k (acquire_woken n (lock_named k s)) s).
Proof.
  intros Hok Ht Hw. destruct (woken_free n _ (so_lock _ _ _ (lo_slot s Hok k)) Hw) as [Hfree Hl].
  assert (Hnone : ∀ n' t', sl_tasks s !! n' = Some t' → holds t' k = false) by (by apply free_nobody).
  constructor; [| done | by rewrite lock_with, decide_True | exact Hnone].
  apply ok_with_lock; [done |]. constructor; [done | done |].
  intros n1 n2 t1 t2 Ht1 _ Hh1. by rewrite (Hnone n1 t1 Ht1) in Hh1.
Qed.
Lemma entered_ok n t k s : granted k n t s → wanted_lock t = Some k → link_ok (entered has_cancel_read n t s).
Proof.
  intros Hg Hw. assert (Hc : needs_closing t = true → sl_closing s = true).
  { intros Hneed%needs_closing_spec. by apply (tho_closing _ _ _ _ _ (lo_threads s (gr_ok _ _ _ _ Hg)) n t (gr_task _ _ _ _ Hg)). }
  destruct t; cbn in Hw; try discriminate Hw; injection Hw as <-; cbn [entered].
  - by apply read_locked_ok.
  - by apply write_locked_ok.
  - by apply close_locked_ok.
  - apply close_enter_write_ok; auto.
  - apply close_holding_ok; auto.
Qed.
Lemma given_up_ok n t k s : link_ok s → sl_tasks s !! n = Some t → wanted_lock t = Some k → link_ok (given_up n t s).
Proof.
  intros Hok Ht Hw. destruct t; cbn in Hw; try discriminate Hw; cbn [given_up];
    try (apply ok_task; try done; link_side).
  - apply (ok_leave CloseLock n CloseEnteringRead); try done; link_side.
  - apply (ok_leave CloseLock n CloseLocked); [| apply lookup_insert_eq | ..]; try done; [| link_side |].
    + assert (Hc : sl_closing s = true) by (apply (tho_closing _ _ _ _ _ (lo_threads s Hok) n _ Ht); eauto).
      apply (ok_leave ReadLock n CloseEnteringWrite); try done; link_side.
    + eapply idle_threads_kept; [apply lookup_insert_eq | link_idle].
Qed.
Lemma port_closed_ok n th result s : link_ok s → sl_tasks s !! n = Some (PortClosing th) → link_ok (port_closed n result s).
Proof.
  intros Hok Ht. apply (release_all n (PortClosing th)); [done.. | by right; eexists |].
  apply (tho_closing _ _ _ _ _ (lo_threads s Hok) n _ Ht). eauto 10.
Qed.
Lemma link_step_ok s s' : link_ok s → link_step has_cancel_read true s s' → link_ok s'.
Proof.
  intros Hok Hstep. destruct Hstep; try discriminate.
  - apply read_enter_ok; auto.
  - apply ok_enter; [apply ok_task; try done; [intros t th kind; congruence | intros k t; congruence] |].
    intros s' Hg _. by apply write_locked_ok.
  - apply ok_enter; [apply ok_task; try done; [intros t th kind; congruence | intros k t; congruence] |].
    intros s' Hg _. by apply close_locked_ok.
  - by apply end_thread_ok.
  - apply (entered_ok n t k); [by apply woken_granted | done].
  - apply ok_lock_same; [done | by apply cancel_waiter_ok, (lo_slot s Hok) | done].
  - apply (given_up_ok n t k); [| done..]. apply ok_lock_same; [done | by apply acquire_cancelled_ok, (lo_slot s Hok) | done].
  - by eapply read_resumed_ok.
  - apply read_enter_ok; auto.
  - by apply read_cancelled_ok.
  - by eapply read_aborted_ok.
  - by eapply read_drained_ok.
  - apply ok_task; try done; link_side.
  - by eapply write_resumed_ok.
  - eapply close_enter_read_ok; [done.. | by eauto |]. apply (tho_closing _ _ _ _ _ (lo_threads s Hok) n _ H). eauto 10.
  - apply (ok_leave CloseLock n (CloseAborting abort)); try done; link_side.
  - by eapply port_closed_ok.
  - by eapply port_closed_ok.
Qed.
Lemma link_run_ok s s' : rtc (link_step has_cancel_read true) s s' → link_ok s → link_ok s'.
Proof. induction 1 as [|s s1 s' Hstep _ IH]; [done |]. intros Hok. by eapply IH, link_step_ok. Qed.
Lemma serial_link_init_ok : link_ok serial_link_init.
Proof.
  constructor.
  - intros k. replace (lock_named k serial_link_init) with Lock_init by (by destruct k).
    constructor; [apply lock_ok_init | by intros n t Ht; cbn in Ht; rewrite lookup_empty in Ht | by intros n n' t t' Ht; cbn in Ht; rewrite lookup_empty in Ht].
  - constructor; [intros th kind Ht | intros th Ht | intros n t Ht | intros th [kind Ht]]; by cbn in Ht; rewrite lookup_empty in Ht.
Qed.
End steps.

(** C30: the port is used by one at a time.  Whatever coroutines read, write and
    close the link, and however they are interleaved with their threads, woken
    and cancelled, short of cancelling a write whose thread runs, cancelling a
    read twice, or a [cancel_read] that fails: at most one thread reads and at
    most one writes, so that frames are not mixed; while one does, the port is
    open and nobody is closing it; and the port is closed only for good. *)
Theorem serial_link_exclusive has_cancel_read s : rtc (link_step has_cancel_read true) serial_link_init s →
  (∀ th th' kind, kind = TRead ∨ kind = TWrite →
     sl_threads s !! th = Some kind → sl_threads s !! th' = Some kind → th = th')
  ∧ (∀ th kind, kind = TRead ∨ kind = TWrite → sl_threads s !! th = Some kind →
     sl_open s = true ∧ ∀ th', sl_threads s !! th' ≠ Some TClose)
  ∧ (∀ th, sl_threads s !! th = Some TClose → sl_closing s = true).
Proof.
  intros Hrun. assert (Hok : link_ok s).
  { by eapply link_run_ok, serial_link_init_ok. }
  destruct Hok as [Hs [H1 H2 H3 H4]]. split_and!.
  - intros th th' kind Hk Hth Hth'. destruct (H1 th kind Hth Hk) as (_ & n & t & Ht & Hd).
    destruct (H1 th' kind Hth' Hk) as (_ & n' & t' & Ht' & Hd').
    assert (n = n') as <-.
    { destruct Hk as [-> | ->]; [apply (so_one _ _ _ (Hs ReadLock) n n' t t') | apply (so_one _ _ _ (Hs WriteLock) n n' t t')];
        try done; cbn in *; naive_solver. }
    simplify_eq. destruct Hk as [-> | ->]; cbn in *; naive_solver.
  - intros th kind Hk Hth. destruct (H1 th kind Hth Hk) as [Ho _]. split; [done |]. intros th' Hc.
    destruct (proj2 (H2 th' Hc) th kind Hth) as [? ?]. by destruct Hk.
  - intros th Hth. by apply (H2 th).
Qed.

(** A reader that is cancelled while its thread blocks, and somebody who closes
    the link: the port is closed after the thread has ended. *)
Definition cancelled_reader : serial_link :=
  end_thread 1 false (read_cancelled true 10 0 (read_enter 10 serial_link_init)).
Definition closing_meanwhile : serial_link := close_enter true 11 (read_aborted 10 0 cancelled_reader).
Definition waits_for_reader : serial_link :=
  close_enter_read 11 (end_thread 2 false closing_meanwhile).
Definition reader_gone : serial_link := read_drained 10 (end_thread 0 false waits_for_reader).
Definition now_closing : serial_link :=
  entered true 11 CloseEnteringRead (with_lock ReadLock (acquire_woken 11 (lock_named ReadLock reader_gone)) reader_gone).

Lemma waits_for_reader_run : rtc (link_step true true) serial_link_init waits_for_reader.
Proof.
  apply (rtc_l _ _ (read_enter 10 serial_link_init)); [apply KRead; vm_compute; reflexivity |].
  apply (rtc_l _ _ (read_cancelled true 10 0 (read_enter 10 serial_link_init))); [apply KReadCancelled; vm_compute; reflexivity |].
  apply (rtc_l _ _ cancelled_reader); [apply KThread |].
  apply (rtc_l _ _ (read_aborted 10 0 cancelled_reader)); [apply (KReadAborted _ _ _ 10 0 1); vm_compute; reflexivity |].
  apply (rtc_l _ _ closing_meanwhile); [apply KClose; vm_compute; reflexivity |].
  apply (rtc_l _ _ (end_thread 2 false closing_meanwhile)); [apply KThread |].
  apply (rtc_l _ _ waits_for_reader); [apply (KCloseAborted _ _ _ 11 2); vm_compute; reflexivity |]. apply rtc_refl.
Qed.
Lemma now_closing_run : rtc (link_step true true) waits_for_reader now_closing.
Proof.
  apply (rtc_l _ _ (end_thread 0 false waits_for_reader)); [apply KThread |].
  apply (rtc_l _ _ reader_gone); [apply (KReadDrained _ _ _ 10 0); vm_compute; reflexivity |].
  apply (rtc_l _ _ now_closing); [apply (KWoken _ _ _ 11 CloseEnteringRead ReadLock); vm_compute; reflexivity |]. apply rtc_refl.
Qed.
Lemma serial_link_exclusive_witness :
  sl_threads waits_for_reader !! 0%nat = Some TRead ∧ sl_open waits_for_reader = true
  ∧ (∀ th, sl_threads waits_for_reader !! th ≠ Some TClose)
  ∧ sl_threads now_closing !! 3%nat = Some TClose ∧ sl_closing now_closing = true.
Proof.
  split; [vm_compute; reflexivity |]. split; [vm_compute; reflexivity |]. split.
  - exact (proj2 (proj1 (proj2 (serial_link_exclusive true waits_for_reader waits_for_reader_run)) 0%nat TRead (or_introl eq_refl)
      ltac:(vm_compute; reflexivity))).
  - split; [vm_compute; reflexivity |].
    apply (proj2 (proj2 (serial_link_exclusive true now_closing (transitivity waits_for_reader_run now_closing_run))) 3%nat).
    vm_compute. reflexivity.
Defined.

(** ** What can go wrong *)

(** A write is not shielded as a read is.  When it is cancelled its lock is
    released though its thread writes on: another frame is written into it, and
    the port is closed under both. *)
Definition write_cut : serial_link :=
  write_enter 11 [2] (write_resumed 10 [1] (raise CancelledError "") (write_enter 10 [1] serial_link_init)).
Example cancelled_write_overlaps :
  rtc (link_step true false) serial_link_init write_cut
  ∧ sl_threads write_cut !! 0%nat = Some TWrite ∧ sl_threads write_cut !! 1%nat = Some TWrite.
Proof.
  split; [| split; vm_compute; reflexivity].
  apply (rtc_l _ _ (write_enter 10 [1] serial_link_init)); [apply KWrite; vm_compute; reflexivity |].
  apply (rtc_l _ _ (write_resumed 10 [1] (raise CancelledError "") (write_enter 10 [1] serial_link_init)));
    [apply (KWriteCancelled _ _ _ 10 0 [1]); vm_compute; reflexivity |].
  apply (rtc_l _ _ write_cut); [apply KWrite; vm_compute; reflexivity | apply rtc_refl].
Qed.
Definition closed_under_write : serial_link :=
  close_enter_read 11 (end_thread 1 false (close_enter true 11
    (write_resumed 10 [1] (raise CancelledError "") (write_enter 10 [1] serial_link_init)))).
Example closed_while_writing :
  sl_threads closed_under_write !! 0%nat = Some TWrite ∧ sl_threads closed_under_write !! 2%nat = Some TClose.
Proof. split; vm_compute; reflexivity. Qed.
