(* ===== verification/HubInput.v ===== *)
(** * Gestures ([input_event] in [hub.py])

    A gesture is a begin point, moves and an end point in ten-thousandths of the
    screen.  The hub scales them to the pixels of the device and sends one
    pointer message for each, in order, and waits for its answer. *)
From Stdlib Require Import Floats.SpecFloat.
From S2P Require Import Prelude Value Protocol Observability Runtime Effects Io SessionOps Enums.

(** ** Scaling *)

(** [round(n / d)] of integers, [d > 0], in exact arithmetic. *)
Definition half_even (n d : Z) : Z :=
  let q := n / d in
  match Z.compare (2 * (n mod d)) d with
  | Lt => q
  | Gt => q + 1
  | Eq => if Z.even q then q else q + 1
  end.
(** [round(x)] of a float that is finite. *)
Definition py_round (x : float) : Z :=
  match x with
  | S754_finite sign m (Zneg e) => half_even (cond_Zopp sign (Zpos m)) (2 ^ Zpos e)
  | S754_finite sign m e => cond_Zopp sign (Zpos m) * 2 ^ e
  | _ => 0
  end.

Section input.
Context `{Runtime}.

(** [min(479, max(0, round(int(v) * 479 / 10000)))] *)
Definition pixel (v : pyval) : res Z :=
  n ← int v;
  let x := int_div (n * 479) 10000 in
  if is_finite x then Ok (Z.min 479 (Z.max 0 (py_round x)))
  else raise OverflowError "integer division result too large for a float".
Definition coordinate (name : string) (point : pyval) : res Z :=
  match point with
  | PDict d => pixel (get_or name (PInt 0) d)
  | _ => raise AttributeError "object has no attribute 'get'"
  end.

(** [struct.pack("<BBhhHI", phase, 0, x, y, 0, value)]; coordinates are not
    negative. *)
Definition pointer_message (phase x y value : Z) : res bytes :=
  p ← pack_uint 1 phase; x ← pack_uint 2 x; y ← pack_uint 2 y; v ← pack_uint 4 value;
  Ok (p ++ [0] ++ x ++ y ++ [0; 0] ++ v).
Definition gesture_request (phase : Z) (point : pyval) (value : Z) : res bytes :=
  x ← coordinate "x" point; y ← coordinate "y" point; pointer_message phase x y value.

(** ** Sending *)

Definition U32 : Z := 2 ^ 32.
Definition gesture_points (gesture : dict) : res (list (Z * pyval)) :=
  match dict_get "begin" gesture, dict_get "end" gesture, get_or "moves" (PList []) gesture with
  | (PDict _) as b, (PDict _) as e, moves =>
    match moves with
    | PList moves =>
      if 2048 <? zlen moves then raise ValueError "gesture moves must contain at most 2048 points"
      else Ok ((0, b) :: map (pair 1) moves ++ [(2, e)])
    | _ => raise ValueError "gesture moves must contain at most 2048 points"
    end
  | _, _, _ => raise TypeError "gesture requires begin and end points"
  end.

(** The points from number [index] on; [present] is what [self.get(device_id)]
    gives for each of them. *)
Fixpoint send_points (present : Z → res unit) (sequence index : Z) (points : list (Z * pyval)) : M unit :=
  match points with
  | [] => mret tt
  | (phase, point) :: points =>
    message ← lift (gesture_request phase point ((sequence + index) mod U32));
    _ ← lift (present index);
    response ← rpc 0x1001 1 message 1000 3000;
    if negb (zlen response =? 12) then throw RuntimeError "pointer RPC returned an invalid response"
    else send_points present sequence (index + 1) points
  end.

(** [now] is [time.monotonic_ns()]. *)
Definition input_event (present : Z → res unit) (gesture : dict) (now : Z) : M dict :=
  points ← lift (gesture_points gesture);
  let sequence := now mod U32 in
  _ ← send_points present sequence 0 points;
  mret [("accepted", PBool true); ("points", PInt (zlen points)); ("sequence_begin", PInt sequence);
        ("sequence_end", PInt ((sequence + zlen points - 1) mod U32))]%string.

(** [enter_recovery], of a connected device *)
Definition enter_recovery (present : res unit) : M dict :=
  _ ← lift present;
  _ ← rpc 0x7FFF 2 [] 2000 3000;
  mret [("accepted", PBool true); ("restart_planned", PBool true); ("target", PStr "factory_recovery")]%string.

(** ** Properties *)

Lemma pixel_range v p : pixel v = Ok p → 0 ≤ p ≤ 479.
Proof. unfold pixel. destruct (int v) as [n|]; [| done]. cbn. destruct (is_finite _); [| done]. intros [= <-]. lia. Qed.
Lemma coordinate_range name point p : coordinate name point = Ok p → 0 ≤ p ≤ 479.
Proof. unfold coordinate. destruct point; try done. apply pixel_range. Qed.

(** Every hundredth of the screen, and the one tie. *)
Lemma pixels_exact : forallb (λ n, let x := int_div (Z.of_nat n * 100 * 479) 10000 in
  is_finite x && (py_round x =? half_even (Z.of_nat n * 100 * 479) 10000)) (seq 0 101) = true.
Proof. vm_compute. reflexivity. Qed.

(** A point as it is sent. *)
Record sent_point := SentPoint { sp_phase : Z; sp_pixel_x : Z; sp_pixel_y : Z }.
Definition pointer_request (sequence index : Z) (p : sent_point) : request :=
  control_request ControlType.REQUEST
    ((le_encode 2 0x1001 ++ le_encode 2 1 ++ le_encode 4 1000 ++ le_encode 2 12 ++ [0; 0])
     ++ le_encode 1 (sp_phase p) ++ [0] ++ le_encode 2 (sp_pixel_x p) ++ le_encode 2 (sp_pixel_y p) ++ [0; 0]
     ++ le_encode 4 ((sequence + index) mod U32)) 3000.
Definition sent_requests (t : list event) : list request :=
  omap (λ e, match e with EvSend r => Some r | _ => None end) t.
Lemma sent_app t u : sent_requests (t ++ u) = sent_requests t ++ sent_requests u.
Proof. apply omap_app. Qed.
(** The pixels of a point. *)
Definition scaled (p : sent_point) (point : Z * pyval) : Prop :=
  sp_phase p = fst point ∧ coordinate "x" (snd point) = Ok (sp_pixel_x p) ∧ coordinate "y" (snd point) = Ok (sp_pixel_y p)
  ∧ 0 ≤ sp_pixel_x p ≤ 479 ∧ 0 ≤ sp_pixel_y p ≤ 479.
Fixpoint pointer_requests (sequence index : Z) (ps : list sent_point) : list request :=
  match ps with [] => [] | p :: ps => pointer_request sequence index p :: pointer_requests sequence (index + 1) ps end.

Lemma u32_range n : 0 ≤ n mod U32 < 256 ^ Z.of_nat 4.
Proof. change (256 ^ Z.of_nat 4) with U32. by apply Z.mod_pos_bound. Qed.
Lemma gesture_request_spec phase point value : 0 ≤ phase ≤ 2 → 0 ≤ value < 256 ^ Z.of_nat 4 →
  match gesture_request phase point value with
  | Ok m => ∃ p, scaled p (phase, point) ∧ m = le_encode 1 phase ++ [0] ++ le_encode 2 (sp_pixel_x p)
              ++ le_encode 2 (sp_pixel_y p) ++ [0; 0] ++ le_encode 4 value
  | Err _ => True
  end.
Proof.
  intros Hp Hv. unfold gesture_request. destruct (coordinate "x" point) as [x|] eqn:Hx; [| done].
  destruct (coordinate "y" point) as [y|] eqn:Hy; [| done]. cbn [mbind res_bind].
  pose proof (coordinate_range _ _ _ Hx). pose proof (coordinate_range _ _ _ Hy). unfold pointer_message.
  rewrite !pack_uint_Ok by first [exact Hv | cbn; lia].
  cbn [mbind res_bind]. exists (SentPoint phase x y). split; [| done]. unfold scaled; cbn; split_and!; done || lia.
Qed.
Lemma rpc_spec message : zlen message = 12 → spec (rpc 0x1001 1 message 1000 3000) (λ _ t,
  sent_requests t = [control_request ControlType.REQUEST
    ((le_encode 2 0x1001 ++ le_encode 2 1 ++ le_encode 4 1000 ++ le_encode 2 12 ++ [0; 0]) ++ message) 3000]).
Proof.
  intros Hlen. unfold rpc, rpc_message. rewrite Hlen. rewrite !pack_uint_Ok by (cbn; lia). cbn [mbind res_bind].
  apply spec_bind, spec_lift; [intros a [= <-] | done]. apply spec_bind, spec_request; [done | | done].
  intros f. apply spec_lift; by intros.
Qed.
Lemma send_points_spec present sequence points : Forall (λ p, 0 ≤ fst p ≤ 2) points → ∀ index,
  spec (send_points present sequence index points) (λ o t, ∃ ps, sent_requests t = pointer_requests sequence index ps
    ∧ Forall2 scaled ps (take (length ps) points) ∧ (o = Done tt → length ps = length points)).
Proof.
  induction 1 as [|[phase point] points Hp _ IH]; intros index; cbn [send_points].
  { apply spec_ret. exists []. by split_and!. }
  apply spec_bind, spec_lift; [| intros e _; exists []; by split_and!].
  intros message Hm. pose proof (gesture_request_spec phase point _ Hp (u32_range (sequence + index))) as Hspec.
  rewrite Hm in Hspec. destruct Hspec as (p & Hscaled & Hmessage).
  assert (Hreq : control_request ControlType.REQUEST
    ((le_encode 2 0x1001 ++ le_encode 2 1 ++ le_encode 4 1000 ++ le_encode 2 12 ++ [0; 0]) ++ message) 3000
    = pointer_request sequence index p).
  { unfold pointer_request. rewrite Hmessage. by destruct Hscaled as [-> _]. }
  apply spec_bind, spec_lift; [| intros e _; exists []; by split_and!]. intros _ _.
  apply spec_bind. eapply spec_mono; [apply rpc_spec |].
  { rewrite Hmessage, !zlen_app, !zlen_le_encode. done. }
  intros o t Ht. cbv beta in Ht. rewrite Hreq in Ht.
  assert (Hone : ∃ ps, sent_requests t = pointer_requests sequence index ps ∧ Forall2 scaled ps (take (length ps) ((phase, point) :: points)) ∧ length ps = 1%nat).
  { exists [p]. split_and!; [done | by apply Forall2_cons; split; [| apply Forall2_nil] | done]. }
  destruct o as [response|e|].
  - destruct (negb _).
    + apply spec_lift; [done |]. intros e _. destruct Hone as (ps & H1 & H2 & _). exists ps. rewrite app_nil_r. by split_and!.
    + eapply spec_mono; [apply IH |]. intros o2 t2 (ps & H1 & H2 & H3). exists (p :: ps).
      rewrite !sent_app, Ht, H1. split_and!; [done | by constructor |]. intros Ho. cbn. by rewrite H3.
  - destruct Hone as (ps & H1 & H2 & _). by exists ps.
  - destruct Hone as (ps & H1 & H2 & _). by exists ps.
Qed.

(** The messages of a gesture.  Whatever the gesture holds, the device
    answers, and whether or not it stays connected, the hub sends pointer messages for the first points of the gesture
    in order: the point's phase, its coordinates scaled and within the 480 by
    480 pixels of the device, and a sequence number that counts up from the
    clock modulo 2^32.  It reports success only when every point, to the end,
    was sent, with the numbers of the first and the last; a gesture without
    begin or end or with too many moves sends nothing. *)
Theorem gesture_messages present gesture now : spec (input_event present gesture now) (λ o t, ∃ ps,
  sent_requests t = pointer_requests (now mod U32) 0 ps
  ∧ match gesture_points gesture with
    | Err e => ps = [] ∧ o = Raised e
    | Ok points => Forall2 scaled ps (take (length ps) points)
        ∧ ∀ reply, o = Done reply → length ps = length points
          ∧ reply = [("accepted", PBool true); ("points", PInt (zlen ps)); ("sequence_begin", PInt (now mod U32));
                     ("sequence_end", PInt ((now mod U32 + zlen ps - 1) mod U32))]%string
    end).
Proof.
  unfold input_event. apply spec_bind, spec_lift; [| intros e He; exists []; by rewrite He].
  intros points Hpoints. apply spec_bind. eapply spec_mono; [apply send_points_spec |].
  { unfold gesture_points in Hpoints. repeat case_match; simplify_eq. constructor; [cbn; lia |].
    apply Forall_app. split; [| by repeat constructor; cbn; lia]. apply Forall_map, Forall_true. cbn. lia. }
  intros o t (ps & H1 & H2 & H3). destruct o as [[]|e|]; [| by exists ps; rewrite Hpoints; split_and!..].
  apply spec_ret. rewrite app_nil_r. exists ps. rewrite Hpoints. split_and!; [done.. |]. intros reply [= <-].
  split; [by apply H3 |]. unfold zlen. by rewrite H3.
Qed.
End input.

(** A move that is not a point is found after the begin has been sent, and the
    pointer is left down: no end is sent. *)
Definition a_point (x y : Z) : pyval := PDict [("x", PInt x); ("y", PInt y)]%string.
Definition a_bad_gesture : dict := [("begin", a_point 5000 5000); ("end", a_point 5000 9000); ("moves", PList [PNone])]%string.
Definition pointer_reply : Frame := mkFrame Channel.CONTROL ControlType.RESPONSE 0 1 1 0 1 (rpc_reply 0x1001 1 0 (repeat 0 12)).
Example bad_move_leaves_pointer_down :
  let '(o, s) := input_event (H := plain_runtime) (λ _, Ok tt) a_bad_gesture 7 (Io [Ok pointer_reply] [] []) in
  raised_with (λ e, bool_decide (exn_cls e = AttributeError)) o = true
  ∧ sent_requests (io_trace s) = [pointer_request 7 0 (SentPoint 0 240 240)].
Proof. vm_compute. by split. Qed.
