(* ===== verification/HubMedia.v ===== *)
(** * Screenshots and mirrored streams ([hub.py])

    A device streams its screen, its camera and its sound on three channels.
    The hub keeps the streams it has started ([_mirror_states]), hands what
    arrives to the queues of the channel's subscribers, and takes the channel's
    lock around [screenshot], [mirror_start] and [mirror_stop]: a coroutine is
    suspended while it waits for that lock, while the device's session answers
    it, and, in a screenshot, while it waits for tiles of the screen.

    A function here is what runs between two awaits; [media_step] is the event
    loop's choice.  What a session answers is an argument; that it was asked is
    in the log. *)
From S2P Require Import Prelude Value SessionOps Session ScreenFrames Runtime Lock Hub HubProps HubEvents.

Definition SCREEN_CHANNEL : Z := 3.
Abbreviation mkey := (string * Z)%type.

(** ** State *)

Record media_queue := MediaQueue { mq_maxsize : Z; mq_items : list media_event }.

Inductive media_request :=
| Screenshot (description : list (string * Z))
| MirrorStart (channel : Z) (description : list (string * Z)) (fps : Z)
| MirrorStop (channel : Z).
Definition channel_of (r : media_request) : Z :=
  match r with Screenshot _ => SCREEN_CHANNEL | MirrorStart channel _ _ | MirrorStop channel => channel end.

(** What a caller gets; [reused] is [mirror_reused], or [reused]. *)
Inductive media_reply :=
| RFrame (actual : media_description) (data : bytes) (reused : bool)
| RMirror (state : mirror) (reused : bool)
| RNone.

(** Where a coroutine is suspended; [session] is the local variable. *)
Inductive media_phase :=
| Locking
| ShotStarting (session : nat)
| ShotReceiving (session : nat) (temporary : bool) (state : mirror) (seen : list media_event)
| ShotStopping (session : nat) (r : res media_reply)
| Starting (session : nat)
| Stopping (session : nat)
| Finished (r : res media_reply).
Record media_task := MediaTask {
  mt_device : string; mt_request : media_request;
  (** the queue that a screenshot has subscribed *)
  mt_queue : option nat; mt_phase : media_phase }.
Definition key_of (t : media_task) : mkey := (mt_device t, channel_of (mt_request t)).

(** What was said about a stream: by a coroutine and the session it asked, or
    by the hub, that forgets a stream. *)
Inductive media_fact :=
| AskedStart (n session : nat)
| Started (n : nat) (state : mirror)
| NotStarted (n : nat)
| AskedStop (n session : nat)
| Stopped (n : nat)
| NotStopped (n : nat)
| Forgot.

Record media_hub := MediaHub {
  mh_hub : hub;
  mh_locks : gmap mkey lock;
  mh_subscribers : gmap mkey (list nat);
  mh_queues : gmap nat media_queue;
  mh_next_queue : nat;
  mh_tasks : gmap nat media_task;
  mh_log : list (mkey * media_fact);
  mh_published : list (mkey * media_event);
}.
Definition media_hub_init (h : hub) : media_hub := MediaHub h ∅ ∅ ∅ 0 ∅ [] [].

Definition with_hub h s := MediaHub h (mh_locks s) (mh_subscribers s) (mh_queues s) (mh_next_queue s) (mh_tasks s)
  (mh_log s) (mh_published s).
Definition with_lock k l s := MediaHub (mh_hub s) (<[k := l]> (mh_locks s)) (mh_subscribers s) (mh_queues s)
  (mh_next_queue s) (mh_tasks s) (mh_log s) (mh_published s).
Definition with_subscribers k qs s := MediaHub (mh_hub s) (mh_locks s) (<[k := qs]> (mh_subscribers s)) (mh_queues s)
  (mh_next_queue s) (mh_tasks s) (mh_log s) (mh_published s).
Definition with_queues qs next s := MediaHub (mh_hub s) (mh_locks s) (mh_subscribers s) qs next (mh_tasks s)
  (mh_log s) (mh_published s).
Definition with_task n t s := MediaHub (mh_hub s) (mh_locks s) (mh_subscribers s) (mh_queues s) (mh_next_queue s)
  (<[n := t]> (mh_tasks s)) (mh_log s) (mh_published s).
Definition logged facts s := MediaHub (mh_hub s) (mh_locks s) (mh_subscribers s) (mh_queues s) (mh_next_queue s)
  (mh_tasks s) (mh_log s ++ facts) (mh_published s).
Definition published k event s := MediaHub (mh_hub s) (mh_locks s) (mh_subscribers s) (mh_queues s) (mh_next_queue s)
  (mh_tasks s) (mh_log s) (mh_published s ++ [(k, event)]).

(** [self._media_locks[key]] and [self._media_subscribers[key]] *)
Definition lock_of (k : mkey) (s : media_hub) : lock := default Lock_init (mh_locks s !! k).
Definition subscribers_of (k : mkey) (s : media_hub) : list nat := default [] (mh_subscribers s !! k).
Definition mirror_of (k : mkey) (s : media_hub) : option mirror := hb_mirrors (mh_hub s) !! k.
Definition record_mirror (k : mkey) (m : mirror) (s : media_hub) : media_hub :=
  with_hub (set_mirrors (<[k := m]> (hb_mirrors (mh_hub s))) (mh_hub s)) s.
Definition drop_mirror (k : mkey) (s : media_hub) : media_hub :=
  with_hub (set_mirrors (delete k (hb_mirrors (mh_hub s))) (mh_hub s)) s.

(** ** Subscribers *)

Definition is_media (channel : Z) : bool := existsb (Z.eqb channel) [3; 4; 5].
Definition subscribe_media (device_id : string) (channel maxsize : Z) (s : media_hub) : media_hub * res nat :=
  match get device_id (mh_hub s) with
  | Err e => (s, Err e)
  | Ok _ =>
    if negb (is_media channel) then (s, raise ValueError "media channel must be 3, 4, or 5")
    else if maxsize <=? 0 then (s, raise ValueError "media subscriber queue size must be positive")
    else
      let q := mh_next_queue s in
      let k := (device_id, channel) in
      (with_subscribers k (q :: subscribers_of k s)
         (with_queues (<[q := MediaQueue maxsize []]> (mh_queues s)) (S q) s), Ok q)
  end.
Definition unsubscribe_media (device_id : string) (channel : Z) (q : nat) (s : media_hub) : media_hub :=
  let k := (device_id, channel) in
  with_subscribers k (filter (λ x, x ≠ q) (subscribers_of k s)) s.

(** A full queue loses its oldest event. *)
Definition put_media (event : media_event) (queues : gmap nat media_queue) (q : nat) : gmap nat media_queue :=
  match queues !! q with
  | Some mq => <[q := MediaQueue (mq_maxsize mq) (push (Z.to_nat (mq_maxsize mq)) (mq_items mq) event)]> queues
  | None => queues
  end.
Definition _on_media (device_id : string) (event : media_event) (s : media_hub) : media_hub :=
  if (device_id =? "")%string then s
  else
    let k := (device_id, me_channel event) in
    published k event
      (with_queues (fold_left (put_media event) (subscribers_of k s) (mh_queues s)) (mh_next_queue s) s).
(** [queue.get()] of a queue that holds something. *)
Definition take_item (q : nat) (s : media_hub) : option (media_event * media_hub) :=
  match mh_queues s !! q with
  | Some (MediaQueue maxsize (event :: items)) =>
    Some (event, with_queues (<[q := MediaQueue maxsize items]> (mh_queues s)) (mh_next_queue s) s)
  | _ => None
  end.

(** ** The coroutines *)

Definition at_media_phase (n : nat) (t : media_task) (p : media_phase) (s : media_hub) : media_hub :=
  with_task n (MediaTask (mt_device t) (mt_request t) (mt_queue t) p) s.

(** The end of [async with self._media_locks[key]]. *)
Definition finish (n : nat) (t : media_task) (r : res media_reply) (s : media_hub) : media_hub :=
  let '(l, released) := release (lock_of (key_of t) s) in
  let r := match released with Ok _ => r | Err e => Err e end in
  at_media_phase n t (Finished r) (with_lock (key_of t) l s).

(** The [finally] clause of [screenshot], up to the wait for [mirror_stop]. *)
Definition leave_screenshot (n : nat) (t : media_task) (session : nat) (temporary : bool) (r : res media_reply)
    (s : media_hub) : media_hub :=
  let s := match mt_queue t with Some q => unsubscribe_media (mt_device t) SCREEN_CHANNEL q s | None => s end in
  if temporary
  then at_media_phase n t (ShotStopping session r) (logged [(key_of t, AskedStop n session)] s)
  else finish n t r s.

(** [_next_complete_screen_frame(queue, ...)] *)
Definition receive_begin (n : nat) (t : media_task) (session : nat) (temporary : bool) (state : mirror)
    (s : media_hub) : media_hub :=
  match check_full (mr_description state) with
  | Err e => leave_screenshot n t session temporary (Err e) s
  | Ok _ => at_media_phase n t (ShotReceiving session temporary state []) s
  end.

(** What runs once the lock is taken. *)
Definition locked_body (n : nat) (t : media_task) (s : media_hub) : media_hub :=
  match mt_request t with
  | Screenshot _ =>
    match get (mt_device t) (mh_hub s) with
    | Err e => finish n t (Err e) s
    | Ok session =>
      let existing := mirror_of (key_of t) s in
      match subscribe_media (mt_device t) SCREEN_CHANNEL 256 s with
      | (s, Err e) => finish n t (Err e) s
      | (s, Ok q) =>
        let t := MediaTask (mt_device t) (mt_request t) (Some q) (mt_phase t) in
        match existing with
        | None => at_media_phase n t (ShotStarting session) (logged [(key_of t, AskedStart n session)] s)
        | Some state => receive_begin n t session false state s
        end
      end
    end
  | MirrorStart _ _ _ =>
    match mirror_of (key_of t) s with
    | Some state => finish n t (Ok (RMirror state true)) s
    | None =>
      match get (mt_device t) (mh_hub s) with
      | Err e => finish n t (Err e) s
      | Ok session => at_media_phase n t (Starting session) (logged [(key_of t, AskedStart n session)] s)
      end
    end
  | MirrorStop _ =>
    match get (mt_device t) (mh_hub s) with
    | Err e => finish n t (Err e) s
    | Ok session => at_media_phase n t (Stopping session) (logged [(key_of t, AskedStop n session)] s)
    end
  end.

(** A call: it takes the lock or waits for it. *)
Definition call_media (n : nat) (device_id : string) (request : media_request) (s : media_hub) : media_hub :=
  let t := MediaTask device_id request None Locking in
  let '(l, taken) := acquire n (lock_of (key_of t) s) in
  let s := with_task n t (with_lock (key_of t) l s) in
  if taken then locked_body n t s else s.
(** The lock has been handed to it. *)
Definition lock_granted (n : nat) (t : media_task) (s : media_hub) : media_hub :=
  locked_body n t (with_lock (key_of t) (acquire_woken n (lock_of (key_of t) s)) s).
(** It was cancelled while it waited for the lock. *)
Definition cancel_locking (n : nat) (t : media_task) (s : media_hub) : media_hub :=
  with_lock (key_of t) (cancel_waiter n (lock_of (key_of t) s)) s.
Definition lock_cancelled (n : nat) (t : media_task) (e : exn) (s : media_hub) : media_hub :=
  at_media_phase n t (Finished (Err e)) (with_lock (key_of t) (acquire_cancelled n (lock_of (key_of t) s)) s).

(** The session's [mirror_start] is answered. *)
Definition start_answered (n : nat) (t : media_task) (answer : res mirror) (s : media_hub) : media_hub :=
  match mt_phase t, answer with
  | ShotStarting session, Ok state =>
    receive_begin n t session true state (logged [(key_of t, Started n state)] (record_mirror (key_of t) state s))
  | ShotStarting session, Err e => leave_screenshot n t session false (Err e) (logged [(key_of t, NotStarted n)] s)
  | Starting _, Ok state =>
    finish n t (Ok (RMirror state false)) (logged [(key_of t, Started n state)] (record_mirror (key_of t) state s))
  | Starting _, Err e => finish n t (Err e) (logged [(key_of t, NotStarted n)] s)
  | _, _ => s
  end.
(** The session's [mirror_stop] is answered. *)
Definition stop_answered (n : nat) (t : media_task) (answer : res unit) (s : media_hub) : media_hub :=
  let stopped r := match answer with
                   | Ok _ => finish n t r (logged [(key_of t, Stopped n)] (drop_mirror (key_of t) s))
                   | Err e => finish n t (Err e) (logged [(key_of t, NotStopped n)] s)
                   end in
  match mt_phase t with
  | ShotStopping _ r => stopped r
  | Stopping _ => stopped (Ok RNone)
  | _ => s
  end.

(** A screenshot takes the next event of its queue. *)
Definition tile_taken (n : nat) (t : media_task) (s : media_hub) : option media_hub :=
  match mt_phase t, mt_queue t with
  | ShotReceiving session temporary state seen, Some q =>
    '(event, s) ← take_item q s;
    let seen := seen ++ [event] in
    let full := mr_description state in
    Some match receive full (Some (mr_stream_id state)) (receive_init full) seen with
         | inl _ => at_media_phase n t (ShotReceiving session temporary state seen) s
         | inr (Ok (actual, data)) =>
           leave_screenshot n t session temporary (Ok (RFrame actual data (negb temporary))) s
         | inr (Err e) => leave_screenshot n t session temporary (Err e) s
         end
  | _, _ => None
  end.
(** Its wait ends, by the timeout or by cancellation. *)
Definition receive_ended (n : nat) (t : media_task) (e : exn) (s : media_hub) : media_hub :=
  match mt_phase t with
  | ShotReceiving session temporary _ _ => leave_screenshot n t session temporary (Err e) s
  | _ => s
  end.

(** What the hub does with its devices meanwhile; the log notes the streams
    that it forgets. *)
Definition hub_moved (h : hub) (s : media_hub) : media_hub :=
  let gone := elements (dom (hb_mirrors (mh_hub s)) ∖ dom (hb_mirrors h)) in
  logged (map (λ k, (k, Forgot)) gone) (with_hub h s).

(** ** Steps *)

Section media_steps.
Context `{Runtime} (realpath : string → string).

(** A queue that a client holds, not a screenshot. *)
Definition clients_queue (q : nat) (s : media_hub) : Prop :=
  ∀ n t, mh_tasks s !! n = Some t → mt_queue t ≠ Some q.

Inductive media_step (s : media_hub) : media_hub → Prop :=
| MCall n d request : mh_tasks s !! n = None → media_step s (call_media n d request s)
| MGranted n t : mh_tasks s !! n = Some t → mt_phase t = Locking →
    waiter n (lock_of (key_of t) s) = Some Woken → media_step s (lock_granted n t s)
| MCancel n t : mh_tasks s !! n = Some t → mt_phase t = Locking → media_step s (cancel_locking n t s)
| MCancelled n t e : mh_tasks s !! n = Some t → mt_phase t = Locking →
    waiter n (lock_of (key_of t) s) ∈ [Some WaitCancelled; Some Woken] → media_step s (lock_cancelled n t e s)
| MStart n t answer : mh_tasks s !! n = Some t → media_step s (start_answered n t answer s)
| MStop n t answer : mh_tasks s !! n = Some t → media_step s (stop_answered n t answer s)
| MTile n t s' : mh_tasks s !! n = Some t → tile_taken n t s = Some s' → media_step s s'
| MGiveUp n t e : mh_tasks s !! n = Some t → media_step s (receive_ended n t e s)
| MMedia d event : media_step s (_on_media d event s)
| MSubscribe d channel maxsize : media_step s (fst (subscribe_media d channel maxsize s))
| MUnsubscribe d channel q : clients_queue q s → media_step s (unsubscribe_media d channel q s)
| MTake q event s' : clients_queue q s → take_item q s = Some (event, s') → media_step s s'
| MHub h : step realpath false (mh_hub s) h → media_step s (hub_moved h s).

Inductive media_reachable : media_hub → Prop :=
| media_init : media_reachable (media_hub_init hub_init)
| media_next s s' : media_reachable s → media_step s s' → media_reachable s'.
End media_steps.
