(* ===== verification/HubMediaProps.v ===== *)
(** * What the hub and a session say to each other about a stream

    The requests for one channel of one device never overlap, a stream is asked
    for only while none is on record, and the record is what the answers say:
    the log of a channel is a run of the small automaton [talk_step], whose
    state is that of the hub. *)
From S2P Require Import Prelude Value SessionOps Session ScreenFrames Runtime Lock Hub HubProps HubEvents HubMedia.

(** ** The hub only forgets streams *)

Definition forgets (h h' : hub) : Prop := hb_mirrors h' ⊆ hb_mirrors h.
Lemma forgets_refl h : forgets h h.
Proof. unfold forgets. done. Qed.
Lemma forgets_trans h1 h2 h3 : forgets h1 h2 → forgets h2 h3 → forgets h1 h3.
Proof. unfold forgets. intros H1 H2. by transitivity (hb_mirrors h2). Qed.
Lemma forgets_mirrors d h : forgets h (forget_mirrors d h).
Proof. apply map_filter_subseteq. Qed.

(** Most operations leave the streams alone: by cases, the hub that a call has
    returned has the streams of the hub that it was given. *)
Create Rewrite HintDb mirrors.
Lemma set_waiting_mirrors ws h : hb_mirrors (set_waiting ws h) = hb_mirrors h.
Proof. done. Qed.
Lemma set_maintenance_mirrors v h : hb_mirrors (set_maintenance v h) = hb_mirrors h.
Proof. done. Qed.
#[export] Hint Rewrite set_waiting_mirrors set_maintenance_mirrors : mirrors.
Ltac same_mirrors :=
  cbv zeta; repeat (case_match; simplify_eq/=); autorewrite with mirrors;
  repeat match goal with
  | H : ?call = (?h', _) |- context [hb_mirrors ?h'] =>
    is_var h'; replace (hb_mirrors h') with (hb_mirrors (fst call)) by (by rewrite H); autorewrite with mirrors
  end; try done.

Lemma set_endpoint_state_mirrors e st a er d now h :
  hb_mirrors (fst (_set_endpoint_state e st a er d now h)) = hb_mirrors h.
Proof. unfold _set_endpoint_state. same_mirrors. Qed.
Lemma take_lock_mirrors e lock h : hb_mirrors (fst (take_lock e lock h)) = hb_mirrors h.
Proof. unfold take_lock. same_mirrors. Qed.
#[export] Hint Rewrite set_endpoint_state_mirrors take_lock_mirrors : mirrors.
Lemma add_supervisor_mirrors e token metadata lock now h :
  hb_mirrors (fst (_add_supervisor e token metadata lock now h)) = hb_mirrors h.
Proof. unfold _add_supervisor. same_mirrors. Qed.
Lemma cancel_task_mirrors t h : hb_mirrors (cancel_task t h) = hb_mirrors h.
Proof. unfold cancel_task. same_mirrors. Qed.
#[export] Hint Rewrite add_supervisor_mirrors cancel_task_mirrors : mirrors.
Lemma pop_task_mirrors e h : hb_mirrors (fst (pop_task e h)) = hb_mirrors h.
Proof. unfold pop_task. same_mirrors. Qed.
Lemma unregister_active_mirrors sv h : hb_mirrors (unregister_active sv h) = hb_mirrors h.
Proof. unfold unregister_active. same_mirrors. Qed.
#[export] Hint Rewrite pop_task_mirrors unregister_active_mirrors : mirrors.
Lemma finalize_mirrors t sv e now h : hb_mirrors (finalize t sv e now h) = hb_mirrors h.
Proof. unfold finalize. same_mirrors. Qed.
#[export] Hint Rewrite finalize_mirrors : mirrors.
Lemma begin_attempt_mirrors t sv now h : hb_mirrors (begin_attempt t sv now h) = hb_mirrors h.
Proof. unfold begin_attempt. same_mirrors. Qed.
Lemma retry_mirrors t sv failure now h : hb_mirrors (retry t sv failure now h) = hb_mirrors h.
Proof. unfold retry. same_mirrors. Qed.
Lemma opened_mirrors t sv now h : hb_mirrors (opened t sv now h) = hb_mirrors h.
Proof. unfold opened. same_mirrors. Qed.
#[export] Hint Rewrite begin_attempt_mirrors retry_mirrors opened_mirrors : mirrors.
Lemma register_mirrors n info link state now wall h : hb_mirrors (fst (register n info link state now wall h)) = hb_mirrors h.
Proof. unfold register. same_mirrors. Qed.
#[export] Hint Rewrite register_mirrors : mirrors.
Lemma on_ready_mirrors n info now wall h : hb_mirrors (fst (_on_ready n info now wall h)) = hb_mirrors h.
Proof. unfold _on_ready. same_mirrors. Qed.
Lemma remove_start_mirrors e discovery h : hb_mirrors (remove_start e discovery h) = hb_mirrors h.
Proof. unfold remove_start. same_mirrors. Qed.
Lemma resume_mirrors e lock now h : hb_mirrors (fst (resume_maintenance_endpoint e lock now h)) = hb_mirrors h.
Proof. unfold resume_maintenance_endpoint. same_mirrors. Qed.
Lemma close_start_mirrors h : hb_mirrors (close_start h) = hb_mirrors h.
Proof. done. Qed.
Lemma close_cancel_mirrors h : hb_mirrors (close_cancel h) = hb_mirrors h.
Proof.
  unfold close_cancel. generalize (map snd (map_to_list (hb_tasks h))). intros ts. revert h.
  induction ts as [|t ts IH]; intros x; cbn; [done |]. by rewrite IH, cancel_task_mirrors.
Qed.
#[export] Hint Rewrite on_ready_mirrors remove_start_mirrors resume_mirrors close_start_mirrors close_cancel_mirrors : mirrors.

Section with_runtime.
Context `{Runtime} (realpath : string → string).
Lemma reserve_mirrors state lock now h : hb_mirrors (fst (reserve_maintenance_endpoint state lock now h)) = hb_mirrors h.
Proof. unfold reserve_maintenance_endpoint. same_mirrors. Qed.
Lemma add_usb_mirrors port mode jtag metadata lock now h :
  hb_mirrors (fst (add_usb port mode jtag metadata lock now h)) = hb_mirrors h.
Proof. unfold add_usb. same_mirrors. Qed.
Lemma maintenance_endpoint_mirrors identifier ports now h :
  hb_mirrors (fst (maintenance_endpoint realpath identifier ports now h)) = hb_mirrors h.
Proof. unfold maintenance_endpoint. same_mirrors. Qed.
#[local] Hint Rewrite maintenance_endpoint_mirrors : mirrors.
Lemma quiesce_start_mirrors identifier ports lock now h :
  hb_mirrors (fst (quiesce_start realpath identifier ports lock now h)) = hb_mirrors h.
Proof. unfold quiesce_start. same_mirrors. Qed.
Lemma quiesce_finish_mirrors e d session now wall h : hb_mirrors (fst (quiesce_finish e d session now wall h)) = hb_mirrors h.
Proof. unfold quiesce_finish. same_mirrors. Qed.

#[local] Hint Rewrite add_usb_mirrors reserve_mirrors quiesce_start_mirrors quiesce_finish_mirrors : mirrors.

Lemma lost_forgets t sv failure now wall h : forgets h (fst (lost t sv failure now wall h)).
Proof.
  unfold lost, forgets. repeat (case_match; cbn [fst]); autorewrite with mirrors; try done; apply (forgets_mirrors _ h).
Qed.
Lemma supervise_forgets t r now wall h : forgets h (fst (_supervise t r now wall h)).
Proof.
  unfold _supervise, failed_with_error, disconnected, forgets. pose proof lost_forgets as Hlost. unfold forgets in Hlost.
  repeat (case_match; cbn [fst]); autorewrite with mirrors; try done.
  match goal with |- context [forget_mirrors ?d ?x] => apply (forgets_mirrors d x) end.
Qed.
Lemma step_forgets h h' : step realpath false h h' → forgets h h'.
Proof.
  destruct 1; try (unfold forgets; autorewrite with mirrors; done).
  - apply supervise_forgets.
  - apply map_empty_subseteq.
Qed.
End with_runtime.

(** ** The automaton of one channel *)

(** The stream on record, and the coroutine that waits for an answer, with
    whether it asked to start. *)
Record talk := Talk { tk_recorded : option mirror; tk_asking : option (nat * bool) }.
Definition talk_step (a : talk) (f : media_fact) : option talk :=
  match f, tk_recorded a, tk_asking a with
  | AskedStart n _, None, None => Some (Talk None (Some (n, true)))
  | Started n m, _, Some (n', true) => if (n =? n')%nat then Some (Talk (Some m) None) else None
  | NotStarted n, m, Some (n', true) => if (n =? n')%nat then Some (Talk m None) else None
  | AskedStop n _, m, None => Some (Talk m (Some (n, false)))
  | Stopped n, _, Some (n', false) => if (n =? n')%nat then Some (Talk None None) else None
  | NotStopped n, m, Some (n', false) => if (n =? n')%nat then Some (Talk m None) else None
  | Forgot, _, q => Some (Talk None q)
  | _, _, _ => None
  end.
Definition replay (facts : list media_fact) : option talk :=
  fold_left (λ a f, a ≫= λ a, talk_step a f) facts (Some (Talk None None)).
Definition facts_of (k : mkey) (log : list (mkey * media_fact)) : list media_fact :=
  map snd (filter (λ e, fst e = k) log).

Lemma replay_snoc facts f : replay (facts ++ [f]) = replay facts ≫= λ a, talk_step a f.
Proof. unfold replay. by rewrite fold_left_app. Qed.
Lemma facts_app k l1 l2 : facts_of k (l1 ++ l2) = facts_of k l1 ++ facts_of k l2.
Proof. unfold facts_of. by rewrite filter_app, map_app. Qed.
Lemma facts_same k f : facts_of k [(k, f)] = [f].
Proof. unfold facts_of. by rewrite filter_cons_True. Qed.
Lemma facts_other k k' f : k ≠ k' → facts_of k [(k', f)] = [].
Proof. intros Hk. unfold facts_of. rewrite filter_cons_False; [done | cbn; congruence]. Qed.

(** ** The invariant *)

(** What a coroutine does to its channel: nothing, in the lock without a
    question, or a question, whether to start. *)
Inductive status := Outside | Quiet | Asks (start : bool).
Definition status_of (p : media_phase) : status :=
  match p with
  | Locking | Finished _ => Outside
  | ShotReceiving _ _ _ _ => Quiet
  | ShotStarting _ | Starting _ => Asks true
  | ShotStopping _ _ | Stopping _ => Asks false
  end.
Definition view (s : media_hub) : gmap nat (mkey * status) := (λ t, (key_of t, status_of (mt_phase t))) <$> mh_tasks s.

(** Stated of a view, because a coroutine that runs in the lock is [Quiet],
    wherever it was suspended. *)
Record channel_ok (v : gmap nat (mkey * status)) (locks : gmap mkey lock) (log : list (mkey * media_fact))
    (mirrors : gmap mkey mirror) : Prop := {
  co_lock k : lock_ok (default Lock_init (locks !! k));
  co_held n k st : v !! n = Some (k, st) → st ≠ Outside → locked (default Lock_init (locks !! k)) = true;
  co_alone n m k st st' : v !! n = Some (k, st) → v !! m = Some (k, st') → st ≠ Outside → st' ≠ Outside → n = m;
  co_talk k : ∃ a, replay (facts_of k log) = Some a ∧ tk_recorded a = mirrors !! k
              ∧ ∀ n start, tk_asking a = Some (n, start) ↔ v !! n = Some (k, Asks start);
}.
Definition media_ok (s : media_hub) : Prop := channel_ok (view s) (mh_locks s) (mh_log s) (hb_mirrors (mh_hub s)).
(** The coroutine [n] runs in the lock of [k]. *)
Definition body_ok (n : nat) (k : mkey) (s : media_hub) : Prop :=
  channel_ok (<[n := (k, Quiet)]> (view s)) (mh_locks s) (mh_log s) (hb_mirrors (mh_hub s)).

Lemma view_task n t s : view (with_task n t s) = <[n := (key_of t, status_of (mt_phase t))]> (view s).
Proof. unfold view, with_task. cbn. by rewrite fmap_insert. Qed.
Lemma view_lookup n t s : mh_tasks s !! n = Some t → view s !! n = Some (key_of t, status_of (mt_phase t)).
Proof. intros Ht. unfold view. by rewrite lookup_fmap, Ht. Qed.

Lemma insert_cases {A} (m : gmap nat A) n x k y : <[n := x]> m !! k = Some y → (k = n ∧ y = x) ∨ (k ≠ n ∧ m !! k = Some y).
Proof.
  destruct (decide (k = n)) as [-> | Hne]; [rewrite lookup_insert_eq; intros [= ->]; by left |].
  rewrite lookup_insert_ne by done. by right.
Qed.

(** While [n] is in the lock, the only open question is its own. *)
Definition question (n : nat) (st : status) : option (nat * bool) := match st with Asks start => Some (n, start) | _ => None end.
Lemma asking_inside n k st v locks log mirrors q : channel_ok (<[n := (k, st)]> v) locks log mirrors → st ≠ Outside →
  (∀ m start, q = Some (m, start) ↔ <[n := (k, st)]> v !! m = Some (k, Asks start)) → q = question n st.
Proof.
  intros Hok Hst Hq. destruct q as [[m b]|].
  - pose proof (proj1 (Hq m b) eq_refl) as Hmb.
    assert (m = n) as ->.
    { eapply (co_alone _ _ _ _ Hok m n k); [exact Hmb | by rewrite lookup_insert_eq | done | done]. }
    rewrite lookup_insert_eq in Hmb. by injection Hmb as ->.
  - destruct st as [| |b]; [done.. |]. pose proof (proj2 (Hq n b)) as Hn. rewrite lookup_insert_eq in Hn.
    by specialize (Hn eq_refl).
Qed.

(** A step of [n], which runs in the lock of [k], that says [f]. *)
Lemma channel_say n k st st' v locks log mirrors mirrors' f :
  channel_ok (<[n := (k, st)]> v) locks log mirrors → st ≠ Outside → st' ≠ Outside →
  (∀ k', k' ≠ k → mirrors' !! k' = mirrors !! k') →
  (∀ a, tk_recorded a = mirrors !! k → tk_asking a = question n st →
     talk_step a f = Some (Talk (mirrors' !! k) (question n st'))) →
  channel_ok (<[n := (k, st')]> v) locks (log ++ [(k, f)]) mirrors'.
Proof.
  intros Hok Hst Hst' Hm Hf. constructor.
  - apply (co_lock _ _ _ _ Hok).
  - intros m k' x Hx%insert_cases Hx'. destruct Hx as [[-> [= -> ->]] | [Hne Hx]].
    + apply (co_held _ _ _ _ Hok n k st); [by rewrite lookup_insert_eq | done].
    + apply (co_held _ _ _ _ Hok m k' x); [by rewrite lookup_insert_ne | done].
  - intros m m' k' x x' Hx%insert_cases Hx'%insert_cases Ho Ho'.
    apply (co_alone _ _ _ _ Hok m m' k' (if decide (m = n) then st else x) (if decide (m' = n) then st else x')).
    + destruct (decide (m = n)) as [-> |]; [rewrite lookup_insert_eq; by destruct Hx as [[_ [= -> _]] | [? _]] |].
      rewrite lookup_insert_ne by done. by destruct Hx as [[? _] | [_ ?]].
    + destruct (decide (m' = n)) as [-> |]; [rewrite lookup_insert_eq; by destruct Hx' as [[_ [= -> _]] | [? _]] |].
      rewrite lookup_insert_ne by done. by destruct Hx' as [[? _] | [_ ?]].
    + by destruct (decide _).
    + by destruct (decide _).
  - intros k'. destruct (co_talk _ _ _ _ Hok k') as (a & Ha & Hr & Hq). destruct (decide (k' = k)) as [-> | Hk].
    + assert (Hask : tk_asking a = question n st) by (by eapply asking_inside).
      exists (Talk (mirrors' !! k) (question n st')).
      rewrite facts_app, facts_same, replay_snoc, Ha. cbn. split_and!; [by apply Hf | done |].
      intros m b. split.
      * destruct st' as [| |b']; [done.. |]. intros [= <- <-]. by rewrite lookup_insert_eq.
      * intros [[-> [= <-]] | [Hne Hmb]]%insert_cases; [done |]. exfalso. apply Hne.
        apply (co_alone _ _ _ _ Hok m n k (Asks b) st); [by rewrite lookup_insert_ne | by rewrite lookup_insert_eq | done | done].
    + exists a. rewrite facts_app, facts_other, app_nil_r, Hm by done. split_and!; [done | done |].
      intros m b. rewrite (Hq m b). destruct (decide (m = n)) as [-> |].
      * rewrite !lookup_insert_eq. split; intros [= ]; congruence.
      * by rewrite !lookup_insert_ne.
Qed.

(** [n] takes or leaves the lock of [k], or goes on waiting for it: who else is
    in the lock keeps it, and is alone there. *)
Definition asks_nothing (st : status) : bool := match st with Asks _ => false | _ => true end.
Lemma channel_move n k st' l' v locks log mirrors : channel_ok v locks log mirrors →
  (∀ k' st, v !! n = Some (k', st) → k' = k ∧ asks_nothing st = true) → asks_nothing st' = true → lock_ok l' →
  (st' = Quiet → locked l' = true) →
  (∀ m st, v !! m = Some (k, st) → st ≠ Outside → m ≠ n → locked l' = true ∧ st' = Outside) →
  channel_ok (<[n := (k, st')]> v) (<[k := l']> locks) log mirrors.
Proof.
  intros Hok Hn Hst' Hl Hin Hothers.
  assert (Hold : ∀ m k' st, m ≠ n → v !! m = Some (k', st) → st ≠ Outside → k' = k → st' = Outside).
  { intros m k' st Hm Hv Ho ->. by destruct (Hothers m st Hv Ho Hm). }
  constructor.
  - intros k'. destruct (decide (k = k')) as [<- | Hk]; [by rewrite lookup_insert_eq |].
    rewrite lookup_insert_ne by done. apply (co_lock _ _ _ _ Hok).
  - intros m k' st [[-> [= -> ->]] | [Hm Hv]]%insert_cases Ho.
    + rewrite lookup_insert_eq. apply Hin. by destruct st'.
    + destruct (decide (k = k')) as [<- | Hk]; [rewrite lookup_insert_eq; by destruct (Hothers m st Hv Ho Hm) |].
      rewrite lookup_insert_ne by done. by apply (co_held _ _ _ _ Hok m k' st).
  - intros m m' k' st1 st2 [[-> [= -> ->]] | [Hm Hv]]%insert_cases [[-> E] | [Hm' Hv']]%insert_cases Ho Ho'; [done | | |].
    + by rewrite (Hold _ _ _ Hm' Hv' Ho' eq_refl) in Ho.
    + injection E as -> ->. by rewrite (Hold _ _ _ Hm Hv Ho eq_refl) in Ho'.
    + by apply (co_alone _ _ _ _ Hok m m' k' st1 st2).
  - intros k'. destruct (co_talk _ _ _ _ Hok k') as (a & Ha & Hr & Hq). exists a. split_and!; [done.. |].
    intros m b. rewrite (Hq m b). destruct (decide (m = n)) as [-> | Hm]; [| by rewrite lookup_insert_ne].
    rewrite lookup_insert_eq. split.
    + intros Hv. by destruct (Hn _ _ Hv).
    + intros [= -> ->]. done.
Qed.

Lemma replay_forgot k log : facts_of k (log ++ [(k, Forgot)]) = facts_of k log ++ [Forgot].
Proof. by rewrite facts_app, facts_same. Qed.
(** The hub forgets the streams that are no longer in [mirrors']. *)
Lemma channel_forget ks v locks log mirrors mirrors' : channel_ok v locks log mirrors →
  (∀ k, k ∉ ks → mirrors' !! k = mirrors !! k) → (∀ k, k ∈ ks → mirrors' !! k = None) →
  channel_ok v locks (log ++ map (λ k, (k, Forgot)) ks) mirrors'.
Proof.
  revert log mirrors. induction ks as [|k ks IH]; intros log mirrors Hok Hkeep Hgone.
  - cbn. rewrite app_nil_r. replace mirrors' with mirrors; [done |]. apply map_eq. intros k. symmetry. apply Hkeep. set_solver.
  - cbn. rewrite cons_middle, app_assoc. apply (IH _ (delete k mirrors)); [| | set_solver].
    + destruct Hok as [Hlock Hheld Halone Htalk]. constructor; [done.. |]. intros k'.
      destruct (Htalk k') as (a & Ha & Hr & Hq). destruct (decide (k' = k)) as [-> | Hk].
      * exists (Talk None (tk_asking a)). rewrite replay_forgot, replay_snoc, Ha, lookup_delete_eq. cbn.
        by destruct (tk_recorded a), (tk_asking a).
      * exists a. rewrite facts_app, facts_other, app_nil_r, lookup_delete_ne by done. done.
    + intros k' Hk'. destruct (decide (k' = k)) as [-> | Hk]; [rewrite lookup_delete_eq; apply Hgone; set_solver |].
      rewrite lookup_delete_ne by done. apply Hkeep. set_solver.
Qed.

(** ** The steps keep it *)

Lemma lock_of_ok k s v log mirrors : channel_ok v (mh_locks s) log mirrors → lock_ok (lock_of k s).
Proof. intros Hok. apply (co_lock _ _ _ _ Hok). Qed.

(** [body_ok] forgets where [n] was suspended. *)
Lemma body_task n k t s : key_of t = k → body_ok n k s → status_of (mt_phase t) = Quiet → media_ok (with_task n t s).
Proof. unfold media_ok, body_ok. intros Hk Hok Hq. by rewrite view_task, Hk, Hq. Qed.
Lemma body_said n t t' f s mirrors' : key_of t' = key_of t → body_ok n (key_of t) s → status_of (mt_phase t') ≠ Outside →
  (∀ k, k ≠ key_of t → mirrors' !! k = hb_mirrors (mh_hub s) !! k) →
  (∀ a, tk_recorded a = mirror_of (key_of t) s → tk_asking a = None →
     talk_step a f = Some (Talk (mirrors' !! key_of t) (question n (status_of (mt_phase t'))))) →
  media_ok (with_task n t' (logged [(key_of t, f)] (with_hub (set_mirrors mirrors' (mh_hub s)) s))).
Proof.
  unfold media_ok, body_ok. intros Hk Hok Ho Hm Hf. rewrite view_task, Hk. cbn.
  by apply (channel_say n (key_of t) Quiet _ (view s) _ _ (hb_mirrors (mh_hub s))).
Qed.
Lemma body_answered n t f b s mirrors' : media_ok s → mh_tasks s !! n = Some t → status_of (mt_phase t) = Asks b →
  (∀ k, k ≠ key_of t → mirrors' !! k = hb_mirrors (mh_hub s) !! k) →
  (∀ a, tk_recorded a = mirror_of (key_of t) s → tk_asking a = Some (n, b) →
     talk_step a f = Some (Talk (mirrors' !! key_of t) None)) →
  body_ok n (key_of t) (logged [(key_of t, f)] (with_hub (set_mirrors mirrors' (mh_hub s)) s)).
Proof.
  unfold media_ok, body_ok. intros Hok Ht Hst Hm Hf. pose proof (view_lookup n t s Ht) as Hv. rewrite Hst in Hv.
  apply (channel_say n (key_of t) (Asks b) Quiet (view s) _ _ (hb_mirrors (mh_hub s))); [| done.. |].
  - by rewrite insert_id.
  - intros a Hr Hq. by apply Hf.
Qed.
Lemma body_quiet n t s : media_ok s → mh_tasks s !! n = Some t → status_of (mt_phase t) = Quiet → body_ok n (key_of t) s.
Proof. intros Hok Ht Hst. unfold body_ok. rewrite insert_id; [exact Hok |]. by rewrite (view_lookup n t s Ht), Hst. Qed.

Lemma finish_ok n t r s : body_ok n (key_of t) s → media_ok (finish n t r s).
Proof.
  intros Hok. unfold finish. pose proof (release_ok (lock_of (key_of t) s) (lock_of_ok _ _ _ _ _ Hok)) as Hl.
  destruct (release (lock_of (key_of t) s)) as [l released]. cbn in Hl.
  unfold media_ok, at_media_phase. rewrite view_task. cbn.
  change (key_of (MediaTask (mt_device t) (mt_request t) (mt_queue t) _)) with (key_of t).
  rewrite <- (insert_insert_eq (view s) n (key_of t, Outside) (key_of t, Quiet)).
  apply channel_move; [exact Hok | | done | done | done |].
  - intros k st. rewrite lookup_insert_eq. by intros [= <- <-].
  - intros m st Hv Ho Hm. exfalso. apply Hm.
    apply (co_alone _ _ _ _ Hok m n (key_of t) st Quiet); [done | by rewrite lookup_insert_eq | done | done].
Qed.
Lemma unsubscribe_body n k d channel q s : body_ok n k s → body_ok n k (unsubscribe_media d channel q s).
Proof. done. Qed.
Lemma asked_stop_ok n t t' session s : key_of t' = key_of t → status_of (mt_phase t') = Asks false → body_ok n (key_of t) s →
  media_ok (with_task n t' (logged [(key_of t, AskedStop n session)] s)).
Proof.
  intros Hk Hst Hok. apply (body_said n t t' (AskedStop n session) s (hb_mirrors (mh_hub s))); try done; [by rewrite Hst |].
  intros [m q] Hr Hq. cbn in *. rewrite Hst. by subst.
Qed.
Lemma asked_start_ok n t t' session s : key_of t' = key_of t → status_of (mt_phase t') = Asks true → body_ok n (key_of t) s →
  mirror_of (key_of t) s = None → media_ok (with_task n t' (logged [(key_of t, AskedStart n session)] s)).
Proof.
  intros Hk Hst Hok Hnone. apply (body_said n t t' (AskedStart n session) s (hb_mirrors (mh_hub s))); try done; [by rewrite Hst |].
  intros [m q] Hr Hq. change (m = mirror_of (key_of t) s) in Hr. change (q = None) in Hq. subst m q.
  change (hb_mirrors (mh_hub s) !! key_of t) with (mirror_of (key_of t) s). by rewrite Hst, Hnone.
Qed.
Lemma leave_screenshot_ok n t session temporary r s : body_ok n (key_of t) s →
  media_ok (leave_screenshot n t session temporary r s).
Proof.
  intros Hok. unfold leave_screenshot. set (s1 := match mt_queue t with Some _ => _ | None => s end).
  assert (H1 : body_ok n (key_of t) s1) by (unfold s1; by destruct (mt_queue t)). clearbody s1.
  destruct temporary; [by apply asked_stop_ok | by apply finish_ok].
Qed.
Lemma receive_begin_ok n t session temporary state s : body_ok n (key_of t) s →
  media_ok (receive_begin n t session temporary state s).
Proof.
  intros Hok. unfold receive_begin. destruct (check_full _); [by apply (body_task n (key_of t)) | by apply leave_screenshot_ok].
Qed.
Lemma subscribe_media_frame d channel maxsize s : let s' := fst (subscribe_media d channel maxsize s) in
  mh_hub s' = mh_hub s ∧ mh_locks s' = mh_locks s ∧ mh_tasks s' = mh_tasks s ∧ mh_log s' = mh_log s.
Proof. unfold subscribe_media. by repeat case_match. Qed.
Lemma body_frame n k s s' : mh_hub s' = mh_hub s ∧ mh_locks s' = mh_locks s ∧ mh_tasks s' = mh_tasks s ∧ mh_log s' = mh_log s →
  body_ok n k s → body_ok n k s'.
Proof. unfold body_ok, view. by intros (-> & -> & -> & ->). Qed.
Lemma locked_body_ok n t s : body_ok n (key_of t) s → media_ok (locked_body n t s).
Proof.
  intros Hok. unfold locked_body. destruct (mt_request t) as [description | channel description fps | channel] eqn:Hr.
  - destruct (get _ _) as [session|]; [| by apply finish_ok].
    pose proof (subscribe_media_frame (mt_device t) SCREEN_CHANNEL 256 s) as Hf.
    destruct (subscribe_media _ _ _ _) as [s1 [q|]]; cbn [fst] in Hf; pose proof (body_frame n _ s s1 Hf Hok) as H1;
      [| by apply finish_ok]. unfold mirror_of. destruct Hf as (<- & _).
    set (t1 := MediaTask _ _ _ _).
    assert (Hk : key_of t1 = key_of t) by (unfold key_of; cbn; by rewrite Hr).
    clearbody t1. rewrite <- Hk in *.
    destruct (hb_mirrors (mh_hub s1) !! key_of t1) eqn:Hm; [by apply receive_begin_ok |].
    by apply asked_start_ok.
  - destruct (mirror_of (key_of t) s) eqn:Hm; [by apply finish_ok |].
    destruct (get _ _); [by apply asked_start_ok | by apply finish_ok].
  - destruct (get _ _); [by apply asked_stop_ok | by apply finish_ok].
Qed.

(** *** Taking the lock *)

Lemma view_with_lock k l s : view (with_lock k l s) = view s.
Proof. done. Qed.
(** A free lock has nobody in it. *)
Lemma lock_empty k s n st v log mirrors : channel_ok v (mh_locks s) log mirrors → locked (lock_of k s) = false →
  v !! n = Some (k, st) → st = Outside.
Proof.
  intros Hok Hl Hv. unfold lock_of in Hl.
  destruct st as [| |start]; [done |..]; pose proof (co_held _ _ _ _ Hok n k _ Hv ltac:(done)); congruence.
Qed.
Lemma enter_ok n k l s : media_ok s → (∀ k' st, view s !! n = Some (k', st) → k' = k ∧ asks_nothing st = true) →
  locked (lock_of k s) = false → lock_ok l → locked l = true → body_ok n k (with_lock k l s).
Proof.
  intros Hok Hn Hfree Hl Hlocked. unfold body_ok. rewrite view_with_lock.
  apply channel_move; [exact Hok | exact Hn | done | done | done |].
  intros m st Hv Ho. by destruct (Ho (lock_empty _ _ _ _ _ _ _ Hok Hfree Hv)).
Qed.
Lemma stay_out_ok n t l s : media_ok s → status_of (mt_phase t) = Outside →
  (∀ k' st, view s !! n = Some (k', st) → k' = key_of t ∧ asks_nothing st = true) →
  lock_ok l → locked l = locked (lock_of (key_of t) s) → media_ok (with_task n t (with_lock (key_of t) l s)).
Proof.
  intros Hok Hst Hn Hl Hlocked. unfold media_ok. rewrite view_task, Hst, view_with_lock. cbn.
  apply channel_move; [exact Hok | exact Hn | done | done | done |].
  intros m st Hv Ho _. split; [| done]. rewrite Hlocked. by apply (co_held _ _ _ _ Hok m (key_of t) st).
Qed.
Lemma view_fresh n k s : mh_tasks s !! n = None → ∀ k' st, view s !! n = Some (k', st) → k' = k ∧ asks_nothing st = true.
Proof. intros Hn k' st. unfold view. by rewrite lookup_fmap, Hn. Qed.
Lemma view_locking n t s : mh_tasks s !! n = Some t → mt_phase t = Locking →
  ∀ k' st, view s !! n = Some (k', st) → k' = key_of t ∧ asks_nothing st = true.
Proof. intros Ht Hp k' st. rewrite (view_lookup n t s Ht), Hp. by intros [= <- <-]. Qed.

Lemma body_with_task n t k s : body_ok n k s → body_ok n k (with_task n t s).
Proof. unfold body_ok. rewrite view_task. cbn. by rewrite insert_insert_eq. Qed.
Lemma call_media_ok n d request s : media_ok s → mh_tasks s !! n = None → media_ok (call_media n d request s).
Proof.
  intros Hok Hn. unfold call_media. cbv zeta. set (t := MediaTask d request None Locking).
  pose proof (acquire_ok n (lock_of (key_of t) s) (lock_of_ok _ _ _ _ _ Hok)) as Hl.
  destruct (acquire n (lock_of (key_of t) s)) as [l []] eqn:Ha; cbn [fst] in Hl.
  - apply acquire_fair in Ha as (Hfree & _ & ->). apply locked_body_ok, body_with_task.
    apply enter_ok; [done | by apply view_fresh | done..].
  - apply stay_out_ok; [done | done | by apply view_fresh | done |].
    unfold acquire in Ha. destruct (_ && _); [done |]. by injection Ha as <-.
Qed.
Lemma lock_granted_ok n t s : media_ok s → mh_tasks s !! n = Some t → mt_phase t = Locking →
  waiter n (lock_of (key_of t) s) = Some Woken → media_ok (lock_granted n t s).
Proof.
  intros Hok Ht Hp Hw. unfold lock_granted. apply locked_body_ok.
  destruct (woken_free n _ (lock_of_ok (key_of t) s _ _ _ Hok) Hw) as [Hfree Hl].
  apply enter_ok; [done | by apply view_locking | done | done | done].
Qed.
Lemma with_task_id n t s : mh_tasks s !! n = Some t → with_task n t s = s.
Proof. intros Ht. unfold with_task. rewrite insert_id by done. by destruct s. Qed.
Lemma cancel_locking_ok n t s : media_ok s → mh_tasks s !! n = Some t → mt_phase t = Locking → media_ok (cancel_locking n t s).
Proof.
  intros Hok Ht Hp. unfold cancel_locking. rewrite <- (with_task_id n t (with_lock _ _ s)) by done.
  apply stay_out_ok; [done | by rewrite Hp | by apply view_locking | by apply cancel_waiter_ok, (lock_of_ok _ _ _ _ _ Hok) | done].
Qed.
Lemma lock_cancelled_ok n t e s : media_ok s → mh_tasks s !! n = Some t → mt_phase t = Locking → media_ok (lock_cancelled n t e s).
Proof.
  intros Hok Ht Hp. unfold lock_cancelled, at_media_phase.
  apply (stay_out_ok n (MediaTask (mt_device t) (mt_request t) (mt_queue t) (Finished (Err e))));
    [done | done | exact (view_locking n t s Ht Hp) | by apply acquire_cancelled_ok, (lock_of_ok _ _ _ _ _ Hok) | done].
Qed.

(** *** Answers *)

Lemma record_mirror_other k m s k' : k' ≠ k → <[k := m]> (hb_mirrors (mh_hub s)) !! k' = hb_mirrors (mh_hub s) !! k'.
Proof. intros Hk. by rewrite lookup_insert_ne. Qed.
Lemma delete_mirror_other k s k' : k' ≠ k → delete k (hb_mirrors (mh_hub s)) !! k' = hb_mirrors (mh_hub s) !! k'.
Proof. intros Hk. by rewrite lookup_delete_ne. Qed.
Section answered.
Context (n : nat) (t : media_task) (s : media_hub) (Hok : media_ok s) (Ht : mh_tasks s !! n = Some t).
Lemma started_ok state : status_of (mt_phase t) = Asks true →
  body_ok n (key_of t) (logged [(key_of t, Started n state)] (record_mirror (key_of t) state s)).
Proof.
  intros Hst. apply (body_answered n t (Started n state) true s); try done; [by apply record_mirror_other |].
  intros [m q] Hr Hq. cbn in *. subst q. by rewrite Nat.eqb_refl, lookup_insert_eq.
Qed.
Lemma not_started_ok : status_of (mt_phase t) = Asks true → body_ok n (key_of t) (logged [(key_of t, NotStarted n)] s).
Proof.
  intros Hst. apply (body_answered n t (NotStarted n) true s (hb_mirrors (mh_hub s))); try done.
  intros [m q] Hr Hq. cbn in *. subst q m. by rewrite Nat.eqb_refl.
Qed.
Lemma stopped_ok : status_of (mt_phase t) = Asks false →
  body_ok n (key_of t) (logged [(key_of t, Stopped n)] (drop_mirror (key_of t) s)).
Proof.
  intros Hst. apply (body_answered n t (Stopped n) false s); try done; [by apply delete_mirror_other |].
  intros [m q] Hr Hq. cbn in *. subst q. by rewrite Nat.eqb_refl, lookup_delete_eq.
Qed.
Lemma not_stopped_ok : status_of (mt_phase t) = Asks false → body_ok n (key_of t) (logged [(key_of t, NotStopped n)] s).
Proof.
  intros Hst. apply (body_answered n t (NotStopped n) false s (hb_mirrors (mh_hub s))); try done.
  intros [m q] Hr Hq. cbn in *. subst q m. by rewrite Nat.eqb_refl.
Qed.

Lemma start_answered_ok answer : media_ok (start_answered n t answer s).
Proof.
  unfold start_answered. destruct (mt_phase t) eqn:Hp; try exact Hok; destruct answer as [state|e].
  - apply receive_begin_ok, started_ok. by rewrite Hp.
  - apply leave_screenshot_ok, not_started_ok. by rewrite Hp.
  - apply finish_ok, started_ok. by rewrite Hp.
  - apply finish_ok, not_started_ok. by rewrite Hp.
Qed.
Lemma stop_answered_ok answer : media_ok (stop_answered n t answer s).
Proof.
  unfold stop_answered. destruct (mt_phase t) eqn:Hp; try exact Hok;
    (destruct answer as [u|e]; [apply finish_ok, stopped_ok | apply finish_ok, not_stopped_ok]; by rewrite Hp).
Qed.
End answered.

(** *** The rest leaves the channels alone *)

Definition same_channels (s s' : media_hub) : Prop :=
  mh_hub s' = mh_hub s ∧ mh_locks s' = mh_locks s ∧ mh_tasks s' = mh_tasks s ∧ mh_log s' = mh_log s.
Lemma media_frame s s' : same_channels s s' → media_ok s → media_ok s'.
Proof. unfold media_ok, view. by intros (-> & -> & -> & ->). Qed.
Lemma take_item_frame q event s s' : take_item q s = Some (event, s') → same_channels s s'.
Proof. unfold take_item. repeat case_match; try done. by intros [= <- <-]. Qed.
Lemma on_media_frame d event s : same_channels s (_on_media d event s).
Proof. unfold _on_media. by case_match. Qed.
Lemma tile_taken_ok n t s s' : media_ok s → mh_tasks s !! n = Some t → tile_taken n t s = Some s' → media_ok s'.
Proof.
  intros Hok Ht. unfold tile_taken. destruct (mt_phase t) as [| |session temporary state seen| | | |] eqn:Hp; try done.
  destruct (mt_queue t) as [q|]; [| done]. destruct (take_item q s) as [[event s1]|] eqn:Hq; [| done]. cbn.
  apply take_item_frame in Hq. intros [= <-].
  assert (H1 : body_ok n (key_of t) s1).
  { apply (body_frame n _ s); [exact Hq |]. apply body_quiet; [done | done | by rewrite Hp]. }
  destruct (receive _ _ _ _) as [|[[actual data]|e]]; [by apply (body_task n (key_of t)) | by apply leave_screenshot_ok..].
Qed.
Lemma receive_ended_ok n t e s : media_ok s → mh_tasks s !! n = Some t → media_ok (receive_ended n t e s).
Proof.
  intros Hok Ht. unfold receive_ended. destruct (mt_phase t) eqn:Hp; try exact Hok.
  apply leave_screenshot_ok, body_quiet; [done | done | by rewrite Hp].
Qed.
Lemma hub_moved_ok h s : forgets (mh_hub s) h → media_ok s → media_ok (hub_moved h s).
Proof.
  unfold forgets. intros Hf Hok. apply (channel_forget _ _ _ _ (hb_mirrors (mh_hub s))); [exact Hok | |].
  - intros k Hk. rewrite elem_of_elements, elem_of_difference, !elem_of_dom in Hk.
    change (mh_hub (hub_moved h s)) with h.
    destruct (hb_mirrors h !! k) as [m|] eqn:Hm; [symmetry; exact (lookup_weaken _ _ _ _ Hm Hf) |].
    destruct (hb_mirrors (mh_hub s) !! k) as [m|] eqn:Hm'; [| done]. destruct Hk. split; [by eexists |]. by intros [].
  - intros k. rewrite elem_of_elements, elem_of_difference, !elem_of_dom. intros [_ Hk].
    change (mh_hub (hub_moved h s)) with h. by destruct (hb_mirrors h !! k); [destruct Hk |].
Qed.

Lemma media_init_ok : media_ok (media_hub_init hub_init).
Proof.
  constructor; cbn.
  - intros k. rewrite lookup_empty. apply lock_ok_init.
  - intros n k st. unfold view. cbn. by rewrite fmap_empty, lookup_empty.
  - intros n m k st st'. unfold view. cbn. by rewrite fmap_empty, lookup_empty.
  - intros k. exists (Talk None None). split_and!; [done | by rewrite lookup_empty |].
    intros n b. unfold view. cbn. by rewrite fmap_empty, lookup_empty.
Qed.
Lemma media_step_ok `{Runtime} realpath s s' : media_step realpath s s' → media_ok s → media_ok s'.
Proof.
  destruct 1; intros Hok; try by eauto using call_media_ok, lock_granted_ok, cancel_locking_ok, lock_cancelled_ok,
    start_answered_ok, stop_answered_ok, tile_taken_ok, receive_ended_ok.
  - exact (media_frame _ _ (on_media_frame d event s) Hok).
  - exact (media_frame _ _ (subscribe_media_frame d channel maxsize s) Hok).
  - exact (media_frame _ _ (take_item_frame q event s s' ltac:(done)) Hok).
  - apply hub_moved_ok; [| done]. by eapply step_forgets.
Qed.
Lemma media_reachable_ok `{Runtime} realpath s : media_reachable realpath s → media_ok s.
Proof. induction 1; [apply media_init_ok | by eapply media_step_ok]. Qed.

(** C25: in every reachable state, whatever calls of [screenshot],
    [mirror_start] and [mirror_stop] run, are cancelled or fail, and whatever
    devices come, go and are taken away meanwhile, what the hub and the
    sessions have said about a channel is a run of [talk_step]: a request is
    sent only when the one before has been answered, a start is requested only
    while no stream is on record, the hub records a stream when its start is
    answered and drops it when its stop is.  The automaton's record is the
    hub's, the coroutine that waits for an answer is its asker, and no two
    coroutines are in the lock of a channel. *)
Theorem media_conversation `{Runtime} realpath s k : media_reachable realpath s →
  (∃ a, replay (facts_of k (mh_log s)) = Some a ∧ tk_recorded a = mirror_of k s
     ∧ ∀ n start, tk_asking a = Some (n, start)
       ↔ ∃ t, mh_tasks s !! n = Some t ∧ key_of t = k ∧ status_of (mt_phase t) = Asks start)
  ∧ (∀ n m t u, mh_tasks s !! n = Some t → mh_tasks s !! m = Some u → key_of t = k → key_of u = k →
       status_of (mt_phase t) ≠ Outside → status_of (mt_phase u) ≠ Outside → n = m).
Proof.
  intros Hok%media_reachable_ok. split.
  - destruct (co_talk _ _ _ _ Hok k) as (a & Ha & Hr & Hq). exists a. split_and!; [done.. |]. intros n b. rewrite Hq.
    unfold view. rewrite lookup_fmap. destruct (mh_tasks s !! n) as [t|]; cbn.
    + split; [intros [= Hk Hb]; by exists t | by intros (u & [= <-] & -> & ->)].
    + split; [done | by intros (u & ? & _)].
  - intros n m t u Ht Hu Hk Hk' Ho Ho'. apply view_lookup in Ht, Hu. rewrite Hk in Ht. rewrite Hk' in Hu.
    by apply (co_alone _ _ _ _ Hok n m k _ _ Ht Hu).
Qed.
