(* ===== verification/HubMediaShots.v ===== *)
(** * What a screenshot answers, and what it leaves behind

    The events a screenshot sees are those of its device's screen, in order; it
    takes its subscription back whatever happens; and a reply says truly what
    was asked of the device. *)
From S2P Require Import Prelude Value SessionOps Session ScreenFrames Runtime Lock Hub HubProps HubEvents HubMedia HubMediaProps.

(** ** The queues *)

Definition events_of (k : mkey) (s : media_hub) : list media_event := map snd (filter (λ e, fst e = k) (mh_published s)).
Definition listening (p : media_phase) : bool := match p with ShotStarting _ | ShotReceiving _ _ _ _ => true | _ => false end.
Definition seen_of (p : media_phase) : list media_event := match p with ShotReceiving _ _ _ seen => seen | _ => [] end.
Definition in_phase (t : media_task) (p : media_phase) : media_task := MediaTask (mt_device t) (mt_request t) (mt_queue t) p.

(** Of the coroutines [tasks], each with a queue of its own, that is subscribed
    to its channel while the coroutine listens, and holds what was published
    there. *)
Record queues_ok (tasks : gmap nat media_task) (s : media_hub) : Prop := {
  qo_next n t q : tasks !! n = Some t → mt_queue t = Some q →
    (q < mh_next_queue s)%nat ∧ channel_of (mt_request t) = SCREEN_CHANNEL;
  qo_own n m t u q : tasks !! n = Some t → tasks !! m = Some u → mt_queue t = Some q → mt_queue u = Some q → n = m;
  qo_known k q : q ∈ subscribers_of k s → (q < mh_next_queue s)%nat;
  qo_once k : NoDup (subscribers_of k s);
  qo_listens n t q k : tasks !! n = Some t → mt_queue t = Some q → q ∈ subscribers_of k s →
    k = key_of t ∧ listening (mt_phase t) = true;
  qo_content n t q : tasks !! n = Some t → mt_queue t = Some q →
    ∃ mq, mh_queues s !! q = Some mq ∧ (seen_of (mt_phase t) ++ mq_items mq) `sublist_of` events_of (key_of t) s;
}.

(** The coroutine [t] listens no more. *)
Definition unheard (t : media_task) (s : media_hub) : Prop := ∀ q k, mt_queue t = Some q → q ∉ subscribers_of k s.

Lemma queues_phase n t p p' s tasks : queues_ok (<[n := in_phase t p]> tasks) s →
  (listening p' = true ∨ unheard t s) → (seen_of p' = seen_of p ∨ seen_of p' = []) →
  queues_ok (<[n := in_phase t p']> tasks) s.
Proof.
  intros Hok Hl Hs.
  assert (Hback : ∀ m u, <[n := in_phase t p']> tasks !! m = Some u →
    ∃ u0, <[n := in_phase t p]> tasks !! m = Some u0 ∧ mt_queue u = mt_queue u0 ∧ mt_request u = mt_request u0
      ∧ key_of u = key_of u0 ∧ ((m = n ∧ u = in_phase t p' ∧ u0 = in_phase t p) ∨ u = u0)).
  { intros m u [[-> ->] | [Hne Hu]]%insert_cases.
    - exists (in_phase t p). rewrite lookup_insert_eq. split_and!; try done. by left.
    - exists u. rewrite lookup_insert_ne by done. split_and!; try done. by right. }
  constructor; try apply Hok.
  - intros m u q (u0 & Hu & Hq & Hr & _)%Hback. rewrite Hq, Hr. by apply (qo_next _ _ Hok m u0).
  - intros m m' u u' q (u0 & Hu & Hq & _)%Hback (u0' & Hu' & Hq' & _)%Hback. rewrite Hq, Hq'.
    by apply (qo_own _ _ Hok m m' u0 u0').
  - intros m u q k (u0 & Hu & Hq & _ & Hk & Hc)%Hback. rewrite Hq, Hk. intros Hq0 Hin.
    destruct (qo_listens _ _ Hok m u0 q k Hu Hq0 Hin) as [-> Hl0]. split; [done |].
    destruct Hc as [(-> & -> & ->) | ->]; [| done]. destruct Hl as [Hl | Hun]; [done |]. by destruct (Hun q _ Hq0 Hin).
  - intros m u q (u0 & Hu & Hq & _ & Hk & Hc)%Hback. rewrite Hq, Hk. intros Hq0.
    destruct (qo_content _ _ Hok m u0 q Hu Hq0) as (mq & Hmq & Hsub). exists mq. split; [done |].
    destruct Hc as [(-> & -> & ->) | ->]; [| done]. cbn in *. destruct Hs as [-> | ->]; [done |].
    etrans; [| exact Hsub]. by apply sublist_inserts_l.
Qed.

(** What does not touch queues, subscribers and publications. *)
Definition same_queues (s s' : media_hub) : Prop :=
  mh_subscribers s' = mh_subscribers s ∧ mh_queues s' = mh_queues s ∧ mh_next_queue s' = mh_next_queue s
  ∧ mh_published s' = mh_published s.
Lemma queues_frame tasks s s' : same_queues s s' → queues_ok tasks s → queues_ok tasks s'.
Proof.
  intros (Hs & Hq & Hn & Hp) []. constructor; unfold subscribers_of, events_of in *; rewrite ?Hs, ?Hq, ?Hn, ?Hp; done.
Qed.

(** A new call has no queue; a queue that leaves the subscribers is unheard. *)
Lemma queues_new n t tasks s : queues_ok tasks s → tasks !! n = None → mt_queue t = None → queues_ok (<[n := t]> tasks) s.
Proof.
  intros Hok Hn Hq0. constructor; try apply Hok.
  - intros m u q [[-> ->] | [_ Hu]]%insert_cases Hq; [congruence | by apply (qo_next _ _ Hok m u)].
  - intros m m' u u' q [[-> ->] | [_ Hu]]%insert_cases [[-> ->] | [_ Hu']]%insert_cases Hq Hq'; [congruence.. |].
    by apply (qo_own _ _ Hok m m' u u' q).
  - intros m u q k [[-> ->] | [_ Hu]]%insert_cases Hq; [congruence | by apply (qo_listens _ _ Hok m u)].
  - intros m u q [[-> ->] | [_ Hu]]%insert_cases Hq; [congruence | by apply (qo_content _ _ Hok m u)].
Qed.

Lemma subscribers_with k k' qs s :
  subscribers_of k (with_subscribers k' qs s) = if bool_decide (k = k') then qs else subscribers_of k s.
Proof.
  unfold subscribers_of, with_subscribers. cbn. case_bool_decide; [subst; by rewrite lookup_insert_eq | by rewrite lookup_insert_ne].
Qed.
Lemma unsubscribe_in k d channel q q' s : q' ∈ subscribers_of k (unsubscribe_media d channel q s) ↔
  q' ∈ subscribers_of k s ∧ (k = (d, channel) → q' ≠ q).
Proof.
  unfold unsubscribe_media. rewrite subscribers_with. case_bool_decide as Hk; [| naive_solver].
  rewrite list_elem_of_filter. subst k. naive_solver.
Qed.
Lemma queues_unsubscribe tasks d channel q s : queues_ok tasks s → queues_ok tasks (unsubscribe_media d channel q s).
Proof.
  intros Hok. constructor; try apply Hok.
  - intros k q' [Hin _]%unsubscribe_in. by apply (qo_known _ _ Hok k).
  - intros k. unfold unsubscribe_media. rewrite subscribers_with. case_bool_decide; [apply NoDup_filter |]; apply (qo_once _ _ Hok).
  - intros n t q' k Ht Hq [Hin _]%unsubscribe_in. by apply (qo_listens _ _ Hok n t q' k).
Qed.
Lemma unsubscribe_unheard n t q tasks s : queues_ok tasks s → tasks !! n = Some t → mt_queue t = Some q →
  unheard t (unsubscribe_media (mt_device t) SCREEN_CHANNEL q s).
Proof.
  intros Hok Ht Hq q' k Hq' [Hin Hne]%unsubscribe_in. rewrite Hq in Hq'. injection Hq' as <-.
  apply Hne; [| done]. destruct (qo_listens _ _ Hok n t q k Ht Hq Hin) as [-> _]. unfold key_of.
  by destruct (qo_next _ _ Hok n t q Ht Hq) as [_ ->].
Qed.

(** A new queue, of a client or of the screenshot [n], that listens to it. *)
Definition new_queue (d : string) (channel maxsize : Z) (s : media_hub) : media_hub :=
  with_subscribers (d, channel) (mh_next_queue s :: subscribers_of (d, channel) s)
    (with_queues (<[mh_next_queue s := MediaQueue maxsize []]> (mh_queues s)) (S (mh_next_queue s)) s).
Lemma subscribe_media_spec d channel maxsize s :
  (∃ e, subscribe_media d channel maxsize s = (s, Err e))
  ∨ (0 < maxsize ∧ subscribe_media d channel maxsize s = (new_queue d channel maxsize s, Ok (mh_next_queue s))).
Proof.
  unfold subscribe_media. destruct (get _ _); [| by left; eexists]. destruct (negb (is_media channel)); [by left; eexists |].
  destruct (Z.leb_spec maxsize 0); [by left; eexists | by right].
Qed.
Lemma queues_client d channel maxsize tasks s : queues_ok tasks s → queues_ok tasks (new_queue d channel maxsize s).
Proof.
  intros Hok. unfold new_queue. constructor.
  - intros n t q Ht Hq. destruct (qo_next _ _ Hok n t q Ht Hq). split; [cbn; lia | done].
  - apply (qo_own _ _ Hok).
  - intros k q. rewrite subscribers_with. cbn. case_bool_decide.
    + intros [-> | Hin]%elem_of_cons; [lia |]. pose proof (qo_known _ _ Hok _ _ Hin). lia.
    + intros Hin. pose proof (qo_known _ _ Hok _ _ Hin). lia.
  - intros k. rewrite subscribers_with. case_bool_decide; [| apply (qo_once _ _ Hok)]. apply NoDup_cons.
    split; [intros Hin; pose proof (qo_known _ _ Hok _ _ Hin); lia | apply (qo_once _ _ Hok)].
  - intros n t q k Ht Hq. rewrite subscribers_with. destruct (qo_next _ _ Hok n t q Ht Hq) as [Hlt _].
    case_bool_decide as Hk; [| by apply (qo_listens _ _ Hok n t q k)]. subst k. intros [-> | Hin]%elem_of_cons; [lia |].
    by apply (qo_listens _ _ Hok n t q _ Ht Hq).
  - intros n t q Ht Hq. destruct (qo_next _ _ Hok n t q Ht Hq) as [Hlt _]. cbn.
    rewrite lookup_insert_ne by lia. by apply (qo_content _ _ Hok n t q).
Qed.
Lemma queues_screenshot n d request p tasks s : queues_ok tasks s → channel_of request = SCREEN_CHANNEL →
  listening p = true → seen_of p = [] →
  queues_ok (<[n := MediaTask d request (Some (mh_next_queue s)) p]> tasks) (new_queue d SCREEN_CHANNEL 256 s).
Proof.
  intros Hok Hch Hp Hseen. pose proof (queues_client d SCREEN_CHANNEL 256 tasks s Hok) as H1. set (q := mh_next_queue s).
  assert (Hfresh : ∀ m u, tasks !! m = Some u → mt_queue u = Some q → False).
  { intros m u Hu Hq. destruct (qo_next _ _ Hok m u q Hu Hq). unfold q in *. lia. }
  constructor; try apply H1.
  - intros m u q' [[-> ->] | [_ Hu]]%insert_cases; [intros [= <-]; cbn; split; [unfold q; lia | done] |].
    by apply (qo_next _ _ H1 m u).
  - intros m m' u u' q' [[-> ->] | [_ Hu]]%insert_cases [[-> ->] | [_ Hu']]%insert_cases Hq Hq'; cbn in *; simplify_eq; try done.
    + by destruct (Hfresh _ _ Hu' Hq').
    + by destruct (Hfresh _ _ Hu Hq).
    + by apply (qo_own _ _ H1 m m' u u' q').
  - intros m u q' k [[-> ->] | [_ Hu]]%insert_cases; [| by apply (qo_listens _ _ H1 m u)].
    intros [= <-] Hin. split; [| done]. unfold new_queue in Hin. rewrite subscribers_with in Hin.
    unfold key_of. cbn. rewrite Hch. case_bool_decide; [done |]. pose proof (qo_known _ _ Hok _ _ Hin). unfold q in *. lia.
  - intros m u q' [[-> ->] | [_ Hu]]%insert_cases; [| by apply (qo_content _ _ H1 m u)].
    intros [= <-]. exists (MediaQueue 256 []). cbn. rewrite lookup_insert_eq, Hseen. split; [done | apply sublist_nil_l].
Qed.

(** An event goes to every queue once, at its end. *)
Lemma put_media_other event qs q queues : q ∉ qs → fold_left (put_media event) qs queues !! q = queues !! q.
Proof.
  revert queues. induction qs as [|q' qs IH]; intros queues Hq; cbn; [done |]. rewrite IH by set_solver.
  unfold put_media. destruct (queues !! q') as [mq|]; [| done]. rewrite lookup_insert_ne by set_solver. done.
Qed.
Lemma put_media_once event qs q queues : NoDup qs → q ∈ qs →
  fold_left (put_media event) qs queues !! q
  = (λ mq, MediaQueue (mq_maxsize mq) (push (Z.to_nat (mq_maxsize mq)) (mq_items mq) event)) <$> queues !! q.
Proof.
  revert queues. induction qs as [|q' qs IH]; intros queues Hnd Hq; cbn; [set_solver |].
  apply NoDup_cons in Hnd as [Hnew Hnd]. apply elem_of_cons in Hq as [-> | Hq].
  - rewrite put_media_other by done. unfold put_media. destruct (queues !! q') as [mq|] eqn:E; [| by rewrite E].
    by rewrite lookup_insert_eq.
  - rewrite (IH _ Hnd Hq). f_equal. unfold put_media. destruct (queues !! q'); [| done].
    rewrite lookup_insert_ne; [done |]. by intros ->.
Qed.
Lemma push_sublist {A} n (l : list A) x : push n l x `sublist_of` l ++ [x].
Proof. apply sublist_drop. Qed.
Lemma events_published k k' event s : events_of k (published k' event s) = events_of k s ++ (if bool_decide (k' = k) then [event] else []).
Proof.
  unfold events_of, published. cbn. rewrite filter_app, map_app. f_equal. rewrite filter_cons. cbn.
  by repeat case_decide || case_bool_decide.
Qed.
Lemma queues_media d event tasks s : queues_ok tasks s → queues_ok tasks (_on_media d event s).
Proof.
  intros Hok. unfold _on_media. destruct (d =? "")%string; [done |]. cbv zeta. set (k := (d, me_channel event)).
  constructor; try apply Hok. intros n t q Ht Hq.
  destruct (qo_content _ _ Hok n t q Ht Hq) as (mq & Hmq & Hsub).
  rewrite events_published. cbn [mh_queues published with_queues]. change (events_of (key_of t) _) with (events_of (key_of t) s).
  destruct (decide (q ∈ subscribers_of k s)) as [Hin | Hout].
  - rewrite put_media_once by (done || apply (qo_once _ _ Hok)). rewrite Hmq. eexists. split; [done |]. cbn.
    destruct (qo_listens _ _ Hok n t q k Ht Hq Hin) as [Hk _]. rewrite <- Hk in *. rewrite bool_decide_eq_true_2 by done.
    etrans; [apply sublist_app; [reflexivity | apply push_sublist] |]. rewrite app_assoc. by apply sublist_app; [| reflexivity].
  - rewrite put_media_other by done. exists mq. split; [done |]. by apply sublist_inserts_r.
Qed.
(** A client's queue is not a screenshot's. *)
Lemma queues_take q event tasks s s' : queues_ok tasks s → (∀ n t, tasks !! n = Some t → mt_queue t ≠ Some q) →
  take_item q s = Some (event, s') → queues_ok tasks s'.
Proof.
  intros Hok Hq. unfold take_item. destruct (mh_queues s !! q) as [[maxsize [|x items]]|]; try done. intros [= <- <-].
  constructor; try apply Hok. intros n t q' Ht Hq'. cbn. rewrite lookup_insert_ne by (intros ->; by destruct (Hq n t Ht)).
  by apply (qo_content _ _ Hok n t q').
Qed.
(** A screenshot has seen what it takes from its queue. *)
Lemma queues_seen n t q session temporary state seen event s s' : queues_ok (mh_tasks s) s →
  mh_tasks s !! n = Some t → mt_queue t = Some q → mt_phase t = ShotReceiving session temporary state seen →
  take_item q s = Some (event, s') →
  (seen ++ [event]) `sublist_of` events_of (key_of t) s'
  ∧ queues_ok (<[n := in_phase t (ShotReceiving session temporary state (seen ++ [event]))]> (mh_tasks s')) s'.
Proof.
  intros Hok Ht Hq Hp. unfold take_item. destruct (mh_queues s !! q) as [[maxsize [|x items]]|] eqn:Hmq; try done. intros [= <- <-].
  destruct (qo_content _ _ Hok n t q Ht Hq) as (mq & Hmq' & Hsub). rewrite Hmq in Hmq'. injection Hmq' as <-.
  rewrite Hp in Hsub. cbn in Hsub. rewrite cons_middle, app_assoc in Hsub.
  split; [etrans; [| exact Hsub]; by apply sublist_inserts_r |].
  assert (Hback : ∀ m u, <[n := in_phase t (ShotReceiving session temporary state (seen ++ [x]))]> (mh_tasks s) !! m = Some u →
    ∃ u0, mh_tasks s !! m = Some u0 ∧ mt_queue u = mt_queue u0 ∧ mt_request u = mt_request u0 ∧ key_of u = key_of u0
      ∧ listening (mt_phase u) = listening (mt_phase u0)).
  { intros m u [[-> ->] | [_ Hu]]%insert_cases; [| by exists u]. exists t. rewrite Hp. done. }
  constructor; try apply Hok.
  - intros m u q' (u0 & Hu & Hq' & Hr & _)%Hback. rewrite Hq', Hr. by apply (qo_next _ _ Hok m u0).
  - intros m m' u u' q' (u0 & Hu & Hq0 & _)%Hback (u0' & Hu' & Hq0' & _)%Hback. rewrite Hq0, Hq0'.
    by apply (qo_own _ _ Hok m m' u0 u0').
  - intros m u q' k (u0 & Hu & Hq' & _ & Hk & Hl)%Hback. rewrite Hq', Hk, Hl. by apply (qo_listens _ _ Hok m u0 q' k).
  - intros m u q' [[-> ->] | [Hne Hu]]%insert_cases Hq'; cbn in *.
    + rewrite Hq in Hq'. injection Hq' as <-. rewrite lookup_insert_eq. eexists. split; [done |]. exact Hsub.
    + rewrite lookup_insert_ne; [by apply (qo_content _ _ Hok m u q') |]. intros ->.
      apply Hne. symmetry. by apply (qo_own _ _ Hok n m t u q').
Qed.

(** *** Steps *)

Abbreviation all_queues s := (queues_ok (mh_tasks s) s).
Lemma all_queues_task n t s p : all_queues s → mh_tasks s !! n = Some t → p = mt_phase t →
  queues_ok (<[n := in_phase t p]> (mh_tasks s)) s.
Proof. intros Hok Ht ->. rewrite insert_id; [done |]. rewrite Ht. by destruct t. Qed.
Lemma not_listening n t s tasks : queues_ok tasks s → tasks !! n = Some t → listening (mt_phase t) = false → unheard t s.
Proof. intros Hok Ht Hl q k Hq Hin. destruct (qo_listens _ _ Hok n t q k Ht Hq Hin). congruence. Qed.

Lemma at_phase_queues n t p p' s : queues_ok (<[n := in_phase t p]> (mh_tasks s)) s → (listening p' = true ∨ unheard t s) →
  (seen_of p' = seen_of p ∨ seen_of p' = []) → all_queues (at_media_phase n t p' s).
Proof.
  intros Hok Hl Hs. apply (queues_frame _ s); [done |]. by apply (queues_phase n t p p').
Qed.
Lemma finish_queues n t p r s : queues_ok (<[n := in_phase t p]> (mh_tasks s)) s → unheard t s → all_queues (finish n t r s).
Proof.
  intros Hok Hun. unfold finish. destruct (release _) as [l released].
  apply (at_phase_queues n t p _ (with_lock (key_of t) l s)); [| by right | by right].
  by apply (queues_frame _ s).
Qed.
Lemma leave_queues n t p session temporary r s : queues_ok (<[n := in_phase t p]> (mh_tasks s)) s →
  all_queues (leave_screenshot n t session temporary r s).
Proof.
  intros Hok. unfold leave_screenshot. set (s1 := match mt_queue t with Some _ => _ | None => s end).
  assert (queues_ok (<[n := in_phase t p]> (mh_tasks s1)) s1 ∧ unheard t s1) as [Hq Hun].
  { unfold s1. destruct (mt_queue t) as [q|] eqn:Hq.
    - split; [by apply queues_unsubscribe |].
      apply (unsubscribe_unheard n (in_phase t p) q (<[n := in_phase t p]> (mh_tasks s))); [done | by rewrite lookup_insert_eq | done].
    - split; [done |]. intros q k Hq'. congruence. }
  clearbody s1. destruct temporary; [| by apply (finish_queues n t p)].
  apply (at_phase_queues n t p _ (logged _ s1)); [by apply (queues_frame _ s1) | by right | by right].
Qed.
Lemma receive_begin_queues n t p session temporary state s : queues_ok (<[n := in_phase t p]> (mh_tasks s)) s →
  all_queues (receive_begin n t session temporary state s).
Proof.
  intros Hok. unfold receive_begin. destruct (check_full _); [| by apply (leave_queues n t p)].
  apply (at_phase_queues n t p); [done | by left | by right].
Qed.
Lemma locked_body_queues n t p s : queues_ok (<[n := in_phase t p]> (mh_tasks s)) s → unheard t s →
  all_queues (locked_body n t s).
Proof.
  intros Hok Hun.
  assert (Hasks : ∀ p' facts, listening p' = false → all_queues (at_media_phase n t p' (logged facts s))).
  { intros p' facts Hp. apply (at_phase_queues n t p); [by apply (queues_frame _ s) | by right | right]. by destruct p'. }
  unfold locked_body. destruct (mt_request t) as [description | channel description fps | channel] eqn:Hr.
  - destruct (get _ _) as [session|]; [| by apply (finish_queues n t p)].
    destruct (subscribe_media_spec (mt_device t) SCREEN_CHANNEL 256 s) as [[e ->] | [_ ->]]; [by apply (finish_queues n t p) |].
    pose proof (queues_screenshot n (mt_device t) (Screenshot description) (ShotStarting session) _ s Hok eq_refl eq_refl eq_refl) as H1.
    rewrite insert_insert_eq in H1. set (t1 := MediaTask _ _ (Some _) (mt_phase t)).
    destruct (mirror_of (key_of t) s); [by apply (receive_begin_queues n t1 (ShotStarting session)) |].
    apply (at_phase_queues n t1 (ShotStarting session) _ (logged _ _)); [by apply (queues_frame _ (new_queue (mt_device t) SCREEN_CHANNEL 256 s)) | by left | by right].
  - destruct (mirror_of _ s); [by apply (finish_queues n t p) |].
    destruct (get _ _); [by apply Hasks | by apply (finish_queues n t p)].
  - destruct (get _ _); [by apply Hasks | by apply (finish_queues n t p)].
Qed.
Lemma task_queues n t s : all_queues s → mh_tasks s !! n = Some t → listening (mt_phase t) = false →
  queues_ok (<[n := in_phase t (mt_phase t)]> (mh_tasks s)) s ∧ unheard t s.
Proof. intros Hok Ht Hl. split; [by apply all_queues_task | by apply (not_listening n t s (mh_tasks s))]. Qed.

Lemma call_queues n d request s : all_queues s → mh_tasks s !! n = None → all_queues (call_media n d request s).
Proof.
  intros Hok Hn. unfold call_media. cbv zeta. destruct (acquire _ _) as [l taken].
  assert (H1 : all_queues (with_task n (MediaTask d request None Locking) (with_lock (key_of (MediaTask d request None Locking)) l s))).
  { apply (queues_frame _ s); [done |]. by apply queues_new. }
  destruct taken; [| done]. apply (locked_body_queues n _ Locking).
  - apply all_queues_task; [done | by cbn; rewrite lookup_insert_eq | done].
  - by intros q k [=].
Qed.
Lemma answers_queues n t s : all_queues s → mh_tasks s !! n = Some t →
  (∀ answer, all_queues (start_answered n t answer s)) ∧ (∀ answer, all_queues (stop_answered n t answer s)).
Proof.
  intros Hok Ht. pose proof (all_queues_task n t s _ Hok Ht eq_refl) as H1.
  assert (Hframe : ∀ s', same_queues s s' → mh_tasks s' = mh_tasks s → queues_ok (<[n := in_phase t (mt_phase t)]> (mh_tasks s')) s').
  { intros s' Hs ->. by apply (queues_frame _ s). }
  split; intros answer.
  - unfold start_answered. destruct (mt_phase t) eqn:Hp; try exact Hok; destruct answer.
    + by eapply receive_begin_queues, Hframe.
    + by eapply leave_queues, Hframe.
    + eapply finish_queues; [by apply Hframe |]. apply (not_listening n t s (mh_tasks s)); [done | done | by rewrite Hp].
    + eapply finish_queues; [by apply Hframe |]. apply (not_listening n t s (mh_tasks s)); [done | done | by rewrite Hp].
  - unfold stop_answered. destruct (mt_phase t) eqn:Hp; try exact Hok;
      (destruct answer; (eapply finish_queues; [by apply Hframe |]);
       (apply (not_listening n t s (mh_tasks s)); [done | done | by rewrite Hp])).
Qed.
Lemma tile_queues n t s s' : all_queues s → mh_tasks s !! n = Some t → tile_taken n t s = Some s' → all_queues s'.
Proof.
  intros Hok Ht. unfold tile_taken. destruct (mt_phase t) as [| |session temporary state seen| | | |] eqn:Hp; try done.
  destruct (mt_queue t) as [q|] eqn:Hq; [| done]. destruct (take_item q s) as [[event s1]|] eqn:Hi; [| done]. cbn.
  destruct (queues_seen n t q session temporary state seen event s s1 Hok Ht Hq Hp Hi) as [_ H1]. intros [= <-].
  destruct (receive _ _ _ _) as [|[[actual data]|e]]; [| by eapply leave_queues..].
  by eapply at_phase_queues; [exact H1 | left | left].
Qed.
Lemma queues_step `{Runtime} realpath s s' : media_step realpath s s' → all_queues s → all_queues s'.
Proof.
  destruct 1 as [n d request Hn|n t Ht Hp _|n t Ht Hp|n t e Ht Hp _|n t answer Ht|n t answer Ht|n t s' Ht Htile|n t e Ht| |d channel maxsize| |q event s' Hq Hi|];
    intros Hok.
  - by apply call_queues.
  - destruct (task_queues n t s Hok Ht) as [H1 Hun]; [by rewrite Hp |].
    unfold lock_granted. apply (locked_body_queues n t (mt_phase t)); [by apply (queues_frame _ s) | done].
  - by apply (queues_frame _ s).
  - destruct (task_queues n t s Hok Ht) as [H1 Hun]; [by rewrite Hp |].
    apply (at_phase_queues n t (mt_phase t)); [by apply (queues_frame _ s) | by right | by right].
  - by apply answers_queues.
  - by apply answers_queues.
  - by apply (tile_queues n t s).
  - unfold receive_ended. destruct (mt_phase t) eqn:Hp; try exact Hok. eapply leave_queues, all_queues_task; done.
  - replace (mh_tasks (_on_media d event s)) with (mh_tasks s) by (unfold _on_media; by case_match). by apply queues_media.
  - destruct (subscribe_media_spec d channel maxsize s) as [[e ->] | [_ ->]]; [done | by apply queues_client].
  - by apply queues_unsubscribe.
  - replace (mh_tasks s') with (mh_tasks s) by (by destruct (take_item_frame q event s s' Hi) as (_ & _ & -> & _)).
    by apply (queues_take q event _ s).
  - by apply (queues_frame _ s).
Qed.
Lemma queues_init : all_queues (media_hub_init hub_init).
Proof. constructor; cbn; try done; intros k; intros; set_solver || constructor. Qed.
Lemma reachable_queues `{Runtime} realpath s : media_reachable realpath s → all_queues s.
Proof. induction 1; [apply queues_init | by eapply queues_step]. Qed.

(** ** What a coroutine has said *)

Definition said_by (n : nat) (f : media_fact) : bool :=
  match f with
  | AskedStart m _ | Started m _ | NotStarted m | AskedStop m _ | Stopped m | NotStopped m => (m =? n)%nat
  | Forgot => false
  end.
Definition words (n : nat) (log : list (mkey * media_fact)) : list media_fact := map snd (filter (λ e, said_by n (snd e) = true) log).

(** A stream that the device has said it started. *)
Definition was_started (k : mkey) (m : mirror) (s : media_hub) : Prop := ∃ n, (k, Started n m) ∈ mh_log s.
(** A picture put together from what the channel has carried. *)
Definition pictured (k : mkey) (m : mirror) (d : media_description) (data : bytes) (s : media_hub) : Prop :=
  ∃ seen, seen `sublist_of` events_of k s ∧ answer_ok (mr_description m) (Some (mr_stream_id m)) seen d data.

(** Whether the words are those of a screenshot that has its stream. *)
Definition streaming (n : nat) (k : mkey) (session : nat) (temporary : bool) (m : mirror) (s : media_hub)
    (said : list media_fact) : Prop :=
  if temporary then said = [AskedStart n session; Started n m] else said = [] ∧ was_started k m s.
Definition reply_ok (n : nat) (k : mkey) (r : media_reply) (s : media_hub) (said : list media_fact) : Prop :=
  match r with
  | RFrame d data true => ∃ m, pictured k m d data s ∧ was_started k m s ∧ said = []
  | RFrame d data false => ∃ m session, pictured k m d data s
                           ∧ said = [AskedStart n session; Started n m; AskedStop n session; Stopped n]
  | RMirror m true => was_started k m s ∧ said = []
  | RMirror m false => ∃ session, said = [AskedStart n session; Started n m]
  | RNone => ∃ session, said = [AskedStop n session; Stopped n]
  end.
Definition history (n : nat) (k : mkey) (s : media_hub) (p : media_phase) (said : list media_fact) : Prop :=
  match p with
  | Locking => said = []
  | ShotStarting session | Starting session => said = [AskedStart n session]
  | ShotReceiving session temporary m _ => streaming n k session temporary m s said
  | ShotStopping session r => ∃ m, said = [AskedStart n session; Started n m; AskedStop n session]
      ∧ match r with Ok (RFrame d data reused) => reused = false ∧ pictured k m d data s | Ok _ => False | Err _ => True end
  | Stopping session => said = [AskedStop n session]
  | Finished (Ok r) => reply_ok n k r s said
  | Finished (Err _) => True
  end.
Definition told (tasks : gmap nat media_task) (s : media_hub) : Prop :=
  (∀ n t, tasks !! n = Some t → history n (key_of t) s (mt_phase t) (words n (mh_log s)))
  ∧ (∀ n, tasks !! n = None → words n (mh_log s) = []).

Lemma words_app n l1 l2 : words n (l1 ++ l2) = words n l1 ++ words n l2.
Proof. unfold words. by rewrite filter_app, map_app. Qed.
Lemma words_mine n k f : said_by n f = true → words n [(k, f)] = [f].
Proof. intros Hf. unfold words. by rewrite filter_cons_True. Qed.
Lemma words_others n l : Forall (λ e : mkey * media_fact, said_by n (snd e) = false) l → words n l = [].
Proof. induction 1 as [|e l He _ IH]; [done |]. unfold words in *. by rewrite filter_cons_False by (cbn; congruence). Qed.

(** What has been said and published stays. *)
Definition grows (s s' : media_hub) : Prop :=
  (∀ k m, was_started k m s → was_started k m s') ∧ (∀ k m d data, pictured k m d data s → pictured k m d data s').
Lemma grows_app s s' facts events : mh_log s' = mh_log s ++ facts → mh_published s' = mh_published s ++ events → grows s s'.
Proof.
  intros Hl Hp. split.
  - intros k m [n Hn]. exists n. rewrite Hl. apply elem_of_app. by left.
  - intros k m d data (seen & Hs & Ha). exists seen. split; [| done]. unfold events_of in *. rewrite Hp, filter_app, map_app.
    by apply sublist_inserts_r.
Qed.
Lemma reply_grows n k r s s' said : grows s s' → reply_ok n k r s said → reply_ok n k r s' said.
Proof. intros [Hw Hp]. destruct r as [d data []|m []|]; cbn; naive_solver. Qed.
Lemma history_grows n k s s' p said : grows s s' → history n k s p said → history n k s' p said.
Proof.
  intros Hg. destruct p as [|session|session [] m seen|session r|session|session|[r|e]]; cbn; try done.
  - intros [-> Hw]. split; [done |]. by apply Hg.
  - intros (m & -> & Hr). exists m. split; [done |]. destruct r as [[d data reused| |]|]; try done.
    destruct Hr as [-> Hpic]. split; [done |]. by apply Hg.
  - by apply reply_grows.
Qed.

(** The same, while [n] runs. *)
Definition others_told (n : nat) (tasks : gmap nat media_task) (s : media_hub) : Prop :=
  (∀ m t, m ≠ n → tasks !! m = Some t → history m (key_of t) s (mt_phase t) (words m (mh_log s)))
  ∧ (∀ m, m ≠ n → tasks !! m = None → words m (mh_log s) = []).
Lemma told_others n tasks s : told tasks s → others_told n tasks s.
Proof. intros [H1 H2]. split; auto. Qed.
Lemma others_at n t tasks s : others_told n tasks s → history n (key_of t) s (mt_phase t) (words n (mh_log s)) → told (<[n := t]> tasks) s.
Proof.
  intros [H1 H2] Hn. split.
  - intros m u [[-> ->] | [Hne Hu]]%insert_cases; auto.
  - intros m Hm. destruct (decide (m = n)) as [-> | Hne]; [by rewrite lookup_insert_eq in Hm |].
    rewrite lookup_insert_ne in Hm by done. auto.
Qed.
Lemma others_grow n tasks s s' facts events : mh_log s' = mh_log s ++ facts → mh_published s' = mh_published s ++ events →
  (∀ m, m ≠ n → Forall (λ e : mkey * media_fact, said_by m (snd e) = false) facts) → others_told n tasks s → others_told n tasks s'.
Proof.
  intros Hl Hp Hf [H1 H2]. pose proof (grows_app s s' facts events Hl Hp) as Hg. split.
  - intros m t Hm Ht. rewrite Hl, words_app, (words_others m facts), app_nil_r by auto. by eapply history_grows, H1.
  - intros m Hm Ht. rewrite Hl, words_app, (words_others m facts), app_nil_r by auto. auto.
Qed.
Lemma others_say n k f tasks s s' : mh_log s' = mh_log s ++ [(k, f)] → mh_published s' = mh_published s →
  (∀ m, said_by m f = (n =? m)%nat) → others_told n tasks s → others_told n tasks s'.
Proof.
  intros Hl Hp Hf. apply (others_grow n tasks s s' [(k, f)] []); [done | by rewrite app_nil_r |].
  intros m Hm. constructor; [| constructor]. cbn. rewrite Hf. by apply Nat.eqb_neq.
Qed.
Lemma others_same n tasks s s' : mh_log s' = mh_log s → mh_published s' = mh_published s →
  others_told n tasks s → others_told n tasks s'.
Proof. intros Hl Hp. apply (others_grow n tasks s s' [] []); [by rewrite app_nil_r.. |]. constructor. Qed.

(** *** Steps *)

Abbreviation all_told s := (told (mh_tasks s) s).
Lemma at_phase_told n t p s : others_told n (mh_tasks s) s → history n (key_of t) s p (words n (mh_log s)) →
  all_told (at_media_phase n t p s).
Proof.
  intros Ho Hn. cbn. apply (others_at n (in_phase t p)).
  - by apply (others_same n _ s).
  - by apply (history_grows n _ s); [by apply (grows_app _ _ [] []); rewrite app_nil_r |].
Qed.
Lemma finish_told n t r s : others_told n (mh_tasks s) s →
  (∀ reply, r = Ok reply → reply_ok n (key_of t) reply s (words n (mh_log s))) → all_told (finish n t r s).
Proof.
  intros Ho Hr. unfold finish. destruct (release _) as [l released].
  apply (at_phase_told n t _ (with_lock (key_of t) l s)); [by apply (others_same n _ s) |].
  destruct released, r as [reply|]; cbn; try done. apply (reply_grows _ _ _ s); [| by apply Hr].
  by apply (grows_app _ _ [] []); rewrite app_nil_r.
Qed.
Lemma ask_told n t p f s : others_told n (mh_tasks s) s → (∀ m, said_by m f = (n =? m)%nat) →
  history n (key_of t) (logged [(key_of t, f)] s) p (words n (mh_log s) ++ [f]) →
  all_told (at_media_phase n t p (logged [(key_of t, f)] s)).
Proof.
  intros Ho Hf Hn. apply (at_phase_told n t p (logged [(key_of t, f)] s)).
  - by apply (others_say n (key_of t) f _ s).
  - cbn [mh_log logged]. rewrite words_app, (words_mine n (key_of t) f); [done |]. by rewrite Hf, Nat.eqb_refl.
Qed.

(** A screenshot leaves with an error, or with a picture of its stream. *)
Definition leaves (n : nat) (k : mkey) (session : nat) (temporary : bool) (r : res media_reply) (s : media_hub) : Prop :=
  match r with
  | Err _ => if temporary then ∃ m, streaming n k session true m s (words n (mh_log s)) else True
  | Ok (RFrame d data reused) => reused = negb temporary ∧ ∃ m, pictured k m d data s
                                 ∧ streaming n k session temporary m s (words n (mh_log s))
  | Ok _ => False
  end.
Lemma leave_told n t session temporary r s : others_told n (mh_tasks s) s → leaves n (key_of t) session temporary r s →
  all_told (leave_screenshot n t session temporary r s).
Proof.
  intros Ho Hr. unfold leave_screenshot. set (s1 := match mt_queue t with Some _ => _ | None => s end).
  assert (mh_log s1 = mh_log s ∧ mh_published s1 = mh_published s ∧ mh_tasks s1 = mh_tasks s) as (Hl & Hp & Htasks)
    by (unfold s1; by destruct (mt_queue t)). clearbody s1.
  assert (Ho1 : others_told n (mh_tasks s1) s1) by (rewrite Htasks; by apply (others_same n _ s)).
  assert (Hg : grows s s1) by (apply (grows_app _ _ [] []); by rewrite app_nil_r).
  destruct temporary; [apply ask_told | apply finish_told]; try done.
  - cbn. rewrite Hl.
    assert (Hg' : grows s (logged [(key_of t, AskedStop n session)] s1)).
    { apply (grows_app _ _ [(key_of t, AskedStop n session)] []); cbn; by rewrite ?Hl, ?Hp, ?app_nil_r. }
    destruct r as [[d data reused| |]|e]; cbn in Hr; try done.
    + destruct Hr as (-> & m & Hpic & ->). exists m. split; [done |]. split; [done |]. by apply Hg'.
    + destruct Hr as (m & ->). by exists m.
  - intros reply ->. rewrite Hl. apply (reply_grows _ _ _ s); [done |]. destruct reply as [d data reused| |]; try done.
    destruct Hr as (-> & m & Hpic & Hsaid & Hw). by exists m.
Qed.
Lemma receive_begin_told n t session temporary state s : others_told n (mh_tasks s) s →
  streaming n (key_of t) session temporary state s (words n (mh_log s)) → all_told (receive_begin n t session temporary state s).
Proof.
  intros Ho Hs. unfold receive_begin. destruct (check_full _).
  - by apply at_phase_told.
  - apply leave_told; [done |]. destruct temporary; [by exists state | done].
Qed.

(** The stream on record was started. *)
Lemma recorded_started facts : ∀ a m, replay facts = Some a → tk_recorded a = Some m → ∃ n, Started n m ∈ facts.
Proof.
  induction facts as [|f facts IH] using rev_ind; intros a m; [by intros [= <-] |]. rewrite replay_snoc.
  destruct (replay facts) as [[m0 q0]|]; [| done]. cbn. specialize (IH _ m eq_refl). cbn in IH.
  assert (Hmore : m0 = Some m → ∃ n, Started n m ∈ facts ++ [f]).
  { intros ->. destruct (IH eq_refl) as [n Hn]. exists n. apply elem_of_app. by left. }
  intros Hstep Hm. destruct f as [n s0|n m1|n|n s0|n|n|]; cbn in Hstep; repeat case_match; simplify_eq/=; auto.
  exists n. apply elem_of_app. right. by left.
Qed.
Lemma mirror_was_started k m s : media_ok s → mirror_of k s = Some m → was_started k m s.
Proof.
  intros Hok Hm. destruct (co_talk _ _ _ _ Hok k) as (a & Ha & Hr & _). unfold mirror_of in Hm. rewrite Hm in Hr.
  destruct (recorded_started _ a m Ha Hr) as [n Hn]. exists n. unfold facts_of in Hn.
  apply list_elem_of_fmap in Hn as ([k' f] & -> & [Hk Hin]%list_elem_of_filter). cbn in Hk. by subst k'.
Qed.

Lemma locked_body_told n t s : (∀ m, mirror_of (key_of t) s = Some m → was_started (key_of t) m s) → others_told n (mh_tasks s) s → words n (mh_log s) = [] → all_told (locked_body n t s).
Proof.
  intros Hrec Ho Hw. unfold locked_body. destruct (mt_request t) as [description | channel description fps | channel] eqn:Hr.
  - destruct (get _ _) as [session|]; [| by apply finish_told].
    destruct (subscribe_media_spec (mt_device t) SCREEN_CHANNEL 256 s) as [[e ->] | [_ ->]]; [by apply finish_told |].
    set (s1 := new_queue _ _ _ s). set (t1 := MediaTask _ _ _ _).
    assert (Hk : key_of t1 = key_of t) by (unfold key_of; cbn; by rewrite Hr).
    assert (Ho1 : others_told n (mh_tasks s1) s1) by (by apply (others_same n _ s)).
    destruct (mirror_of (key_of t) s) eqn:Hm.
    + apply receive_begin_told; [done |]. rewrite Hk. split; [done |]. by apply Hrec.
    + apply ask_told; [done | done |]. cbn [mh_log s1 new_queue with_subscribers with_queues]. by rewrite Hw.
  - destruct (mirror_of (key_of t) s) eqn:Hm.
    + apply finish_told; [done |]. intros reply [= <-]. split; [by apply Hrec | done].
    + destruct (get _ _); [| by apply finish_told]. apply ask_told; [done | done |]. by rewrite Hw.
  - destruct (get _ _); [| by apply finish_told]. apply ask_told; [done | done |]. by rewrite Hw.
Qed.
Lemma call_told n d request s : media_ok s → all_told s → mh_tasks s !! n = None → all_told (call_media n d request s).
Proof.
  intros Hok Ht Hn. unfold call_media. cbv zeta. destruct (acquire _ _) as [l taken] eqn:Ha.
  set (t := MediaTask d request None Locking) in *. set (s1 := with_lock (key_of t) l s).
  assert (Ho : others_told n (mh_tasks s1) s1) by (apply (others_same n _ s); [done | done | by apply told_others]).
  assert (Hw : words n (mh_log s1) = []) by (by apply (proj2 Ht)).
  assert (H1 : all_told (with_task n t s1)) by (by apply (at_phase_told n t Locking s1)).
  destruct taken; [| done]. apply locked_body_told; [| by apply told_others | done].
  intros m Hm. by apply (mirror_was_started _ _ s).
Qed.
Lemma granted_told n t s : media_ok s → all_told s → mh_tasks s !! n = Some t → mt_phase t = Locking → all_told (lock_granted n t s).
Proof.
  intros Hok Ht Hn Hp. unfold lock_granted. apply locked_body_told.
  - intros m Hm. by apply (mirror_was_started _ _ s).
  - apply (others_same n _ s); [done | done | by apply told_others].
  - pose proof (proj1 Ht n t Hn) as H1. by rewrite Hp in H1.
Qed.
(** An answer that the log notes. *)
Lemma heard n t f s s' : all_told s → mh_log s' = mh_log s ++ [(key_of t, f)] → mh_published s' = mh_published s →
  mh_tasks s' = mh_tasks s → (∀ m, said_by m f = (n =? m)%nat) →
  others_told n (mh_tasks s') s' ∧ words n (mh_log s') = words n (mh_log s) ++ [f] ∧ grows s s'.
Proof.
  intros Ht Hl Hp Htasks Hf. rewrite Htasks, Hl, words_app, (words_mine n (key_of t) f) by (by rewrite Hf, Nat.eqb_refl).
  split_and!; [| done |].
  - apply (others_say n (key_of t) f _ s); [done | done | done | by apply told_others].
  - apply (grows_app s s' [(key_of t, f)] []); [done | by rewrite app_nil_r].
Qed.
Lemma start_told n t answer s : all_told s → mh_tasks s !! n = Some t → all_told (start_answered n t answer s).
Proof.
  intros Ht Hn. pose proof (proj1 Ht n t Hn) as Hh. unfold start_answered.
  destruct (mt_phase t) as [|session| | |session| |] eqn:Hp; try exact Ht; destruct answer as [m|e]; cbn in Hh.
  - destruct (heard n t (Started n m) s (logged [(key_of t, Started n m)] (record_mirror (key_of t) m s))) as (Ho & Hw & _); try done.
    apply receive_begin_told; [done |]. rewrite Hw, Hh. done.
  - destruct (heard n t (NotStarted n) s (logged [(key_of t, NotStarted n)] s)) as (Ho & Hw & _); try done.
    by apply leave_told.
  - destruct (heard n t (Started n m) s (logged [(key_of t, Started n m)] (record_mirror (key_of t) m s))) as (Ho & Hw & _); try done.
    apply finish_told; [done |]. intros reply [= <-]. exists session. by rewrite Hw, Hh.
  - destruct (heard n t (NotStarted n) s (logged [(key_of t, NotStarted n)] s)) as (Ho & Hw & _); try done.
    by apply finish_told.
Qed.
Lemma stop_told n t answer s : all_told s → mh_tasks s !! n = Some t → all_told (stop_answered n t answer s).
Proof.
  intros Ht Hn. pose proof (proj1 Ht n t Hn) as Hh. unfold stop_answered.
  destruct (mt_phase t) as [| | |session r| |session|] eqn:Hp; try exact Ht; destruct answer as [[]|e]; cbn in Hh.
  - destruct (heard n t (Stopped n) s (logged [(key_of t, Stopped n)] (drop_mirror (key_of t) s))) as (Ho & Hw & Hg); try done.
    apply finish_told; [done |]. intros reply ->. destruct Hh as (m & Hsaid & Hr). rewrite Hw, Hsaid.
    destruct reply as [d data reused| |]; try done. destruct Hr as [-> Hpic]. exists m, session. split; [by apply Hg | done].
  - destruct (heard n t (NotStopped n) s (logged [(key_of t, NotStopped n)] s)) as (Ho & Hw & _); try done.
    by apply finish_told.
  - destruct (heard n t (Stopped n) s (logged [(key_of t, Stopped n)] (drop_mirror (key_of t) s))) as (Ho & Hw & Hg); try done.
    apply finish_told; [done |]. intros reply [= <-]. exists session. by rewrite Hw, Hh.
  - destruct (heard n t (NotStopped n) s (logged [(key_of t, NotStopped n)] s)) as (Ho & Hw & _); try done.
    by apply finish_told.
Qed.
Lemma take_item_log q event s s' : take_item q s = Some (event, s') → mh_log s' = mh_log s ∧ mh_published s' = mh_published s.
Proof. unfold take_item. repeat case_match; try done. by intros [= _ <-]. Qed.
Lemma tile_told n t s s' : all_queues s → all_told s → mh_tasks s !! n = Some t → tile_taken n t s = Some s' → all_told s'.
Proof.
  intros Hq Ht Hn. pose proof (proj1 Ht n t Hn) as Hh. unfold tile_taken.
  destruct (mt_phase t) as [| |session temporary m seen| | | |] eqn:Hp; try done.
  destruct (mt_queue t) as [q|] eqn:Hqt; [| done]. destruct (take_item q s) as [[event s1]|] eqn:Hi; [| done]. cbn.
  destruct (queues_seen n t q session temporary m seen event s s1 Hq Hn Hqt Hp Hi) as [Hseen _].
  destruct (take_item_log q event s s1 Hi) as [Hl Hpub]. destruct (take_item_frame q event s s1 Hi) as (_ & _ & Htasks & _).
  assert (Ho : others_told n (mh_tasks s1) s1) by (rewrite Htasks; apply (others_same n _ s); [done | done | by apply told_others]).
  assert (Hs1 : streaming n (key_of t) session temporary m s1 (words n (mh_log s1))).
  { rewrite Hl. apply (history_grows n (key_of t) s s1 (ShotReceiving session temporary m seen)); [| exact Hh].
    by apply (grows_app _ _ [] []); rewrite app_nil_r. }
  pose proof (receive_ok (mr_description m) (Some (mr_stream_id m)) (seen ++ [event]) [] (receive_init (mr_description m)) eq_refl) as Hr.
  intros [= <-]. destruct (receive _ _ _ _) as [|[[actual data]|e]].
  - by apply at_phase_told.
  - apply leave_told; [done |]. split; [done |]. exists m. split; [| done]. by exists (seen ++ [event]).
  - apply leave_told; [done |]. destruct temporary; [by exists m | done].
Qed.
Lemma receive_ended_told n t e s : all_told s → mh_tasks s !! n = Some t → all_told (receive_ended n t e s).
Proof.
  intros Ht Hn. pose proof (proj1 Ht n t Hn) as Hh. unfold receive_ended. destruct (mt_phase t) as [| |session temporary m seen| | | |] eqn:Hp; try exact Ht.
  apply leave_told; [by apply told_others |]. cbn in Hh. destruct temporary; [by exists m | done].
Qed.
Lemma told_grows s s' facts events : mh_tasks s' = mh_tasks s → mh_log s' = mh_log s ++ facts →
  mh_published s' = mh_published s ++ events → Forall (λ e, snd e = Forgot) facts → all_told s → all_told s'.
Proof.
  intros Htasks Hl Hp Hf [H1 H2]. rewrite Htasks. pose proof (grows_app s s' facts events Hl Hp) as Hg.
  assert (Hw : ∀ n, words n (mh_log s') = words n (mh_log s)).
  { intros n. rewrite Hl, words_app, (words_others n facts), app_nil_r; [done |].
    eapply Forall_impl; [exact Hf |]. by intros [k f] [= ->]. }
  split; intros n; rewrite Hw; [intros t Hn; by apply (history_grows n _ s), H1 | apply H2].
Qed.
Lemma told_step `{Runtime} realpath s s' : media_step realpath s s' → media_ok s → all_queues s → all_told s → all_told s'.
Proof.
  destruct 1 as [n d request Hn|n t Hn Hp _|n t Hn Hp|n t e Hn Hp _|n t answer Hn|n t answer Hn|n t s' Hn Htile|n t e Hn|d event|d channel maxsize| |q event s' Hq Hi|];
    intros Hok Hqs Ht.
  - by apply call_told.
  - by apply granted_told.
  - by apply (told_grows s _ [] []); try (by rewrite app_nil_r).
  - apply (at_phase_told n t (Finished (Err e)) (with_lock _ _ s)); [| done].
    apply (others_same n _ s); [done | done | by apply told_others].
  - by apply start_told.
  - by apply stop_told.
  - by apply (tile_told n t s).
  - by apply receive_ended_told.
  - unfold _on_media. destruct (d =? "")%string; [done |].
    by apply (told_grows s _ [] [((d, me_channel event), event)]); try (by rewrite app_nil_r).
  - destruct (subscribe_media_spec d channel maxsize s) as [[e ->] | [_ ->]]; [done |].
    by apply (told_grows s _ [] []); try (by rewrite app_nil_r).
  - by apply (told_grows s _ [] []); try (by rewrite app_nil_r).
  - destruct (take_item_log q event s s' Hi) as [Hl Hp]. destruct (take_item_frame q event s s' Hi) as (_ & _ & Htasks & _).
    by apply (told_grows s _ [] []); try (by rewrite app_nil_r).
  - unfold hub_moved. cbv zeta. eapply (told_grows s _ _ []); [done | done | by rewrite app_nil_r | | done].
    apply Forall_map, Forall_true. done.
Qed.
Lemma reachable_told `{Runtime} realpath s : media_reachable realpath s → all_told s.
Proof.
  induction 1 as [|s s' Hr IH Hs]; [by split |].
  apply (told_step realpath s); [done | by eapply media_reachable_ok | by eapply reachable_queues | done].
Qed.

(** C26: what the hub replies about a stream is what it did.  A picture is made of
    what the device's screen has carried while the screenshot listened, and fits
    the description of the stream it belongs to; if it came from a stream that
    was on record, that stream was started by an earlier call and this one asked
    the device nothing, else the call started the stream and stopped it again,
    with the same session and both with success.  "Reused" is answered for a
    stream that was started before, a new stream after the device has started
    it, a stopped one after the device has stopped it.  And no coroutine that is
    not listening holds a subscription, whether it succeeded, failed or was
    cancelled. *)
Theorem media_replies_honest `{Runtime} realpath s n t : media_reachable realpath s → mh_tasks s !! n = Some t →
  (∀ reply, mt_phase t = Finished (Ok reply) → reply_ok n (key_of t) reply s (words n (mh_log s)))
  ∧ (listening (mt_phase t) = false → ∀ q k, mt_queue t = Some q → q ∉ subscribers_of k s).
Proof.
  intros Hr Hn. split.
  - intros reply Hp. pose proof (proj1 (reachable_told realpath s Hr) n t Hn) as Hh. by rewrite Hp in Hh.
  - intros Hl. by apply (not_listening n t s (mh_tasks s) (reachable_queues realpath s Hr)).
Qed.
