(* ===== verification/HubMediaExamples.v ===== *)
(** * Screenshots and streams, run

    A screenshot of a connected device, two ways in which the hub's record of a
    stream outlives the stream, and what a client that does not read does to
    the hub. *)
From S2P Require Import Prelude Value DeviceInfo SessionOps Session ScreenFrames Runtime Lock Hub HubProps HubContract HubEvents.
From S2P Require Import HubMedia HubMediaProps HubMediaShots GatewayEvents.

Abbreviation media_now := (media_reachable (H := plain_runtime) id).

(** Without calls the hub has no streams. *)
Lemma no_mirrors h : reachable_now h → hb_mirrors h = ∅.
Proof.
  induction 1 as [|h h' _ IH Hs]; [done |]. pose proof (@step_forgets plain_runtime id h h' Hs) as Hf.
  unfold forgets in Hf. rewrite IH in Hf. apply map_eq. intros k. rewrite lookup_empty.
  destruct (hb_mirrors h' !! k) as [m|] eqn:Hm; [| done]. pose proof (lookup_weaken _ _ _ _ Hm Hf) as Hx. by rewrite lookup_empty in Hx.
Qed.
Lemma media_start h : reachable_now h → media_now (media_hub_init h).
Proof.
  induction 1 as [|h h' Hr IH Hs]; [apply media_init |]. pose proof (no_mirrors h Hr) as Hm.
  replace (media_hub_init h') with (hub_moved h' (media_hub_init h)); [by eapply media_next, MHub |].
  unfold hub_moved, media_hub_init, logged, with_hub. cbn. rewrite Hm, dom_empty_L.
  by replace (∅ ∖ dom (hb_mirrors h')) with (∅ : gset (string * Z)) by set_solver.
Qed.

(** The coroutine [n] of a state, and what it does next. *)
Definition task_of (n : nat) (s : media_hub) : media_task :=
  default (MediaTask "" (MirrorStop 0) None Locking) (mh_tasks s !! n).
Definition starts (n : nat) (answer : res mirror) (s : media_hub) : media_hub := start_answered n (task_of n s) answer s.
Definition stops (n : nat) (answer : res unit) (s : media_hub) : media_hub := stop_answered n (task_of n s) answer s.
Definition tiles (n : nat) (s : media_hub) : media_hub := default s (tile_taken n (task_of n s) s).

Section now.
Context (s : media_hub) (Hs : media_now s).
Lemma now_call n d request : mh_tasks s !! n = None → media_now (call_media n d request s).
Proof. intros Hn. eapply media_next; [exact Hs | by apply MCall]. Qed.
Lemma now_media d event : media_now (_on_media d event s).
Proof. eapply media_next; [exact Hs | apply MMedia]. Qed.
Lemma task_of_some n : is_Some (mh_tasks s !! n) → mh_tasks s !! n = Some (task_of n s).
Proof. intros [t Ht]. unfold task_of. by rewrite Ht. Qed.
Lemma now_starts n answer : is_Some (mh_tasks s !! n) → media_now (starts n answer s).
Proof. intros Hn. eapply media_next; [exact Hs | by apply MStart, task_of_some]. Qed.
Lemma now_stops n answer : is_Some (mh_tasks s !! n) → media_now (stops n answer s).
Proof. intros Hn. eapply media_next; [exact Hs | by apply MStop, task_of_some]. Qed.
Lemma now_tiles n : is_Some (mh_tasks s !! n) → media_now (tiles n s).
Proof.
  intros Hn. unfold tiles. destruct (tile_taken n (task_of n s) s) as [s'|] eqn:E; [| done].
  eapply media_next; [exact Hs |]. apply (MTile _ _ n (task_of n s)); [by apply task_of_some | exact E].
Qed.
Lemma now_hub h : step (H := plain_runtime) id false (mh_hub s) h → media_now (hub_moved h s).
Proof. intros Hh. eapply media_next; [exact Hs | by apply MHub]. Qed.
End now.

(** ** A screenshot *)

Definition a_stream : mirror := Mirror 3 7 5 a_screen.
Definition shot_asked : media_hub := call_media 0 "d" (Screenshot []) (media_hub_init example_ready).
Definition shot_tiled : media_hub :=
  _on_media "d" (a_tile 7 2 1 [5; 6; 7; 8]) (_on_media "d" (a_tile 7 2 0 [1; 2; 3; 4]) (starts 0 (Ok a_stream) shot_asked)).
Definition shot_taken : media_hub := tiles 0 (tiles 0 shot_tiled).
Definition shot_done : media_hub := stops 0 (Ok tt) shot_taken.

Lemma shot_taken_now : media_now shot_taken.
Proof.
  apply now_tiles; [apply now_tiles |]; [| vm_compute; by eexists..].
  apply now_media, now_media, now_starts; [| vm_compute; by eexists].
  apply now_call; [apply media_start, example_ready_reachable | done].
Qed.
Lemma shot_done_now : media_now shot_done.
Proof. apply now_stops; [apply shot_taken_now | vm_compute; by eexists]. Qed.

Lemma media_conversation_witness :
  ∃ a, replay (facts_of ("d", 3)%string (mh_log shot_taken)) = Some a ∧ tk_recorded a = Some a_stream ∧ tk_asking a = Some (0%nat, false).
Proof.
  destruct (proj1 (@media_conversation plain_runtime id shot_taken ("d", 3)%string shot_taken_now)) as (a & Ha & Hr & Hq).
  exists a. split; [exact Ha |]. split; [rewrite Hr; vm_compute; reflexivity |]. apply Hq.
  exists (task_of 0 shot_taken). split_and!; vm_compute; reflexivity.
Defined.
Lemma media_replies_honest_witness :
  mt_phase (task_of 0 shot_done) = Finished (Ok (RFrame a_screen [1; 2; 3; 4; 5; 6; 7; 8] false))
  ∧ (∃ m session, pictured ("d", 3)%string m a_screen [1; 2; 3; 4; 5; 6; 7; 8] shot_done
     ∧ words 0 (mh_log shot_done) = [AskedStart 0 session; Started 0 m; AskedStop 0 session; Stopped 0])
  ∧ 0%nat ∉ subscribers_of ("d", 3)%string shot_done.
Proof.
  assert (Hn : mh_tasks shot_done !! 0%nat = Some (task_of 0 shot_done)) by (vm_compute; reflexivity).
  destruct (@media_replies_honest plain_runtime id shot_done 0 (task_of 0 shot_done) shot_done_now Hn) as [Hreply Hquiet].
  assert (Hp : mt_phase (task_of 0 shot_done) = Finished (Ok (RFrame a_screen [1; 2; 3; 4; 5; 6; 7; 8] false)))
    by (vm_compute; reflexivity).
  split; [exact Hp |]. split.
  - exact (Hreply _ Hp).
  - apply Hquiet; vm_compute; reflexivity.
Defined.

(** ** A stream on record that does not run *)

(** The device refuses to stop the screenshot's stream: the picture is lost, the
    stream stays on record, and it is what the next caller is given. *)
Definition shot_refused : media_hub := stops 0 (raise TimeoutError "mirror stop") shot_taken.
Example refused_stop_loses_picture :
  let later := call_media 1 "d" (MirrorStart 3 [] 30) shot_refused in
  mt_phase (task_of 0 shot_refused) = Finished (raise TimeoutError "mirror stop")
  ∧ mirror_of ("d", 3)%string shot_refused = Some a_stream
  ∧ mt_phase (task_of 1 later) = Finished (Ok (RMirror a_stream true)).
Proof. cbv zeta. split_and!; vm_compute; reflexivity. Qed.

(** The port is taken for maintenance and given back while a stream is on
    record: the device returns with a new session, which nobody has asked for a
    stream, and the hub says that the old one is reused. *)
Definition streaming_hub : media_hub :=
  starts 0 (Ok a_stream) (call_media 0 "d" (MirrorStart 3 [] 5) (media_hub_init example_ready)).
Definition taken_hub (h : hub) : hub := fst (quiesce_start (H := plain_runtime) id "usb:location=1" [] (Ok tt) 3 h).
Definition returned_hub (h : hub) : hub :=
  runs 2 (Ok tt) (runs 2 (Ok tt) (fst (resume_maintenance_endpoint "usb:location=1" (Ok tt) 5
    (fst (quiesce_finish "usb:location=1" "d" (Some 1%nat) 4 4 (set_waiting [] (runs 0 (Err CANCELLATION) (taken_hub h)))))))).
Definition back_hub (h : hub) : hub := fst (_on_ready 3 example_info 6 6 (returned_hub h)).
Definition maintained : media_hub := hub_moved (back_hub (mh_hub streaming_hub)) streaming_hub.
Example maintenance_keeps_stale_stream :
  let later := call_media 1 "d" (MirrorStart 3 [] 5) maintained in
  get "d" (mh_hub maintained) = Ok 3%nat
  ∧ mt_phase (task_of 1 later) = Finished (Ok (RMirror a_stream true))
  ∧ map snd (mh_log later) = [AskedStart 0 1; Started 0 a_stream].
Proof. cbv zeta. split_and!; vm_compute; reflexivity. Qed.

(** ** A client that does not read *)

(** The gateway is the hub's event sink.  When the link of a device is lost
    while one client's queue is full, the error of [on_device_event] ends the
    endpoint's supervisor, and the endpoint is not supervised again when its
    port is found the next time. *)
Definition slow_client_hub : hub :=
  runs 0 (snd (example_delivery 1024)) (runs 0 (Err link_error) example_ready).
Example slow_client_ends_supervision :
  let later := plugged "/dev/ttyACM0" "1" slow_client_hub in
  is_ended (sv_phase (the_supervisor 0 slow_client_hub)) = true
  ∧ hb_tasks later !! "usb:location=1"%string = Some 0%nat ∧ size (hb_supervisors later) = 1%nat.
Proof. cbv zeta. split_and!; vm_compute; reflexivity. Qed.
