(* ===== verification/Operations.v ===== *)
(** * The operation manager ([operations.py])

    Every coroutine of the manager - a running operation, a submitter, a
    maintenance request, a cancellation of the queue - is an entry of
    [mg_tasks] suspended at one of its awaits.  A function below runs one of
    them from one await to the next, and nothing runs in between, as on the
    event loop; [step] picks which one runs next and with what outcome its
    await ends, so that a run of steps is any interleaving.  What is awaited -
    the event sink, the device call - is code of the caller: it may end in any
    result or exception.  Clock readings and fresh uuids are arguments. *)
From stdpp Require Import sorting.
From S2P Require Import Prelude Text Value Json JsonDump Sha256 OperationIdentity StateMachine DeviceInfo Store.
From S2P Require Import Observability Security Lock.

(** ** Requests *)

Definition key_text (k : pykey) : string := match k with KStr s | KOther s => s end.

Fixpoint _safe_value (value : pyobj) : pyval :=
  match value with
  | OBytes b => PDict [("bytes", PInt (zlen b)); ("sha256", PStr (sha256_hex b))]%string
  | ODict d => PDict (dict_updated [] (map (λ kv, (key_text (fst kv), _safe_value (snd kv))) d))
  | OList l | OTuple l => PList (map _safe_value l)
  | OStr s => PStr s | OInt z => PInt z | OFloat r => PFloat r | OBool b => PBool b | ONone => PNone
  | OOther text => PStr text
  end.

Record request := Request {
  rq_device_id : string;
  rq_actor : Actor;
  rq_action : string;
  rq_params : pyobj;
  rq_serialized : bool;
  rq_summary : option (pyobj → res pyobj);
}.

Definition _fingerprint (device_id : string) (actor : Actor) (action : string) (params : pyobj) : res string :=
  request_fingerprint [
    ("device_id", OStr device_id); ("actor_type", OStr (ac_kind actor)); ("actor_name", OStr (ac_name actor));
    ("actor_scopes", OList (map OStr (sorted_names (ac_scopes actor)))); ("action", OStr action);
    ("params", params)]%string.
Definition rq_fingerprint (rq : request) : res string :=
  _fingerprint (rq_device_id rq) (rq_actor rq) (rq_action rq) (rq_params rq).

(** [operation_id or str(uuid.uuid4())] *)
Definition chosen_id (operation_id : option string) (uuid : string) : string :=
  match operation_id with Some id => if (id =? "")%string then uuid else id | None => uuid end.

(** ** Coroutines and their suspension points *)

Record pending := _Pending { pd_operation_id : string; pd_device_id : string; pd_cancelled : bool; pd_running : bool }.

(** What [execute] returns: the row, the result, and whether it created it. *)
Abbreviation outcome := (operation_row * pyobj * bool)%type.

Inductive phase :=
| Starting                                    (* not yet run *)
| Created                                     (* await _emit(operation), the new row *)
| Queued                                      (* await lock.acquire() *)
| Announcing                                  (* await _emit(operation), now running *)
| Calling                                     (* await call() *)
| Finishing (r : res (operation_row * pyobj)) (* await _emit(operation), the final row *)
| Done (r : res outcome).

Inductive coroutine :=
| Execute (id : string) (rq : request) (submitted : bool) (ph : phase)
| SubmitWaiting (id fingerprint : string) (polls : nat)          (* await asyncio.sleep(0) *)
| SubmitStarted (id fingerprint : string) (child : nat)          (* await asyncio.sleep(0) *)
| SubmitDone (r : res (operation_row * bool))
| MaintenanceWaiting (device_id : string)                        (* await lock.acquire() *)
| MaintenanceDone (r : res unit)
| CancelEmitting (rest : list string) (count : Z)                (* await _emit(operation) *)
| CancelDone (r : res Z).

(** [mg_objects] are the [_Pending] objects, which a cancellation of the queue
    may still hold after they left the dictionary; [mg_pending] its keys.
    [mg_events] and [mg_calls] record what was emitted and called. *)
Record manager := Manager {
  mg_store : GatewayStore;
  mg_metrics : MetricsRegistry;
  mg_locks : gmap string lock;
  mg_objects : gmap string pending;
  mg_pending : list string;
  mg_tasks : gmap nat coroutine;
  mg_submission_ids : gset string;
  mg_maintenance_pending : gset string;
  mg_maintenance_active : gset string;
  mg_events : list operation_row;
  mg_calls : list string;
}.

Definition OperationManager_init (store : GatewayStore) (metrics : MetricsRegistry) : manager :=
  Manager store metrics ∅ ∅ [] ∅ ∅ ∅ ∅ [] [].

Definition set_store s m := Manager s (mg_metrics m) (mg_locks m) (mg_objects m) (mg_pending m) (mg_tasks m)
  (mg_submission_ids m) (mg_maintenance_pending m) (mg_maintenance_active m) (mg_events m) (mg_calls m).
Definition set_metrics x m := Manager (mg_store m) x (mg_locks m) (mg_objects m) (mg_pending m) (mg_tasks m)
  (mg_submission_ids m) (mg_maintenance_pending m) (mg_maintenance_active m) (mg_events m) (mg_calls m).
Definition set_lock d l m := Manager (mg_store m) (mg_metrics m) (<[d := l]> (mg_locks m)) (mg_objects m)
  (mg_pending m) (mg_tasks m) (mg_submission_ids m) (mg_maintenance_pending m) (mg_maintenance_active m)
  (mg_events m) (mg_calls m).
Definition set_object p m := Manager (mg_store m) (mg_metrics m) (mg_locks m)
  (<[pd_operation_id p := p]> (mg_objects m)) (mg_pending m) (mg_tasks m) (mg_submission_ids m)
  (mg_maintenance_pending m) (mg_maintenance_active m) (mg_events m) (mg_calls m).
Definition set_pending l m := Manager (mg_store m) (mg_metrics m) (mg_locks m) (mg_objects m) l (mg_tasks m)
  (mg_submission_ids m) (mg_maintenance_pending m) (mg_maintenance_active m) (mg_events m) (mg_calls m).
Definition set_task t c m := Manager (mg_store m) (mg_metrics m) (mg_locks m) (mg_objects m) (mg_pending m)
  (<[t := c]> (mg_tasks m)) (mg_submission_ids m) (mg_maintenance_pending m) (mg_maintenance_active m)
  (mg_events m) (mg_calls m).
Definition set_submission_ids x m := Manager (mg_store m) (mg_metrics m) (mg_locks m) (mg_objects m) (mg_pending m)
  (mg_tasks m) x (mg_maintenance_pending m) (mg_maintenance_active m) (mg_events m) (mg_calls m).
Definition set_maintenance pending active m := Manager (mg_store m) (mg_metrics m) (mg_locks m) (mg_objects m)
  (mg_pending m) (mg_tasks m) (mg_submission_ids m) pending active (mg_events m) (mg_calls m).
Definition emitted r m := Manager (mg_store m) (mg_metrics m) (mg_locks m) (mg_objects m) (mg_pending m)
  (mg_tasks m) (mg_submission_ids m) (mg_maintenance_pending m) (mg_maintenance_active m)
  (mg_events m ++ [r]) (mg_calls m).
Definition called id m := Manager (mg_store m) (mg_metrics m) (mg_locks m) (mg_objects m) (mg_pending m)
  (mg_tasks m) (mg_submission_ids m) (mg_maintenance_pending m) (mg_maintenance_active m)
  (mg_events m) (mg_calls m ++ [id]).

(** [self._locks[device_id]], a defaultdict *)
Definition lock_of (device_id : string) (m : manager) : lock := default Lock_init (mg_locks m !! device_id).
Definition object_of (id : string) (m : manager) : pending :=
  default (_Pending id "" false false) (mg_objects m !! id).

(** ** Maintenance *)

Definition maintenance_state (device_id : string) (m : manager) : option string :=
  if bool_decide (device_id ∈ mg_maintenance_active m) then Some "active"%string
  else if bool_decide (device_id ∈ mg_maintenance_pending m) then Some "pending"%string
  else None.
Definition in_maintenance (device_id : string) (m : manager) : bool :=
  match maintenance_state device_id m with Some _ => true | None => false end.

Definition maintenance_granted (device_id : string) (m : manager) : manager :=
  set_maintenance (mg_maintenance_pending m ∖ {[device_id]}) ({[device_id]} ∪ mg_maintenance_active m) m.

Definition acquire_maintenance (t : nat) (device_id : string) (m : manager) : manager :=
  if in_maintenance device_id m
  then set_task t (MaintenanceDone (raise DeviceMaintenance "already has maintenance pending")) m
  else
    let m := set_maintenance ({[device_id]} ∪ mg_maintenance_pending m) (mg_maintenance_active m) m in
    match acquire t (lock_of device_id m) with
    | (l, true) => set_task t (MaintenanceDone (Ok tt)) (maintenance_granted device_id (set_lock device_id l m))
    | (l, false) => set_task t (MaintenanceWaiting device_id) (set_lock device_id l m)
    end.

(** The await of the lock ends: it is granted, or the timeout or a cancellation
    raises. *)
Definition maintenance_resumed (t : nat) (device_id : string) (result : res unit) (m : manager) : manager :=
  match result with
  | Ok _ => set_task t (MaintenanceDone (Ok tt))
              (maintenance_granted device_id (set_lock device_id (acquire_woken t (lock_of device_id m)) m))
  | Err e => set_task t (MaintenanceDone (Err e))
               (set_maintenance (mg_maintenance_pending m ∖ {[device_id]}) (mg_maintenance_active m)
                  (set_lock device_id (acquire_cancelled t (lock_of device_id m)) m))
  end.

Definition restore_maintenance (device_id : string) (m : manager) : manager :=
  set_maintenance (mg_maintenance_pending m) ({[device_id]} ∪ mg_maintenance_active m) m.

Definition release_maintenance (device_id : string) (m : manager) : manager :=
  let m := set_maintenance (mg_maintenance_pending m ∖ {[device_id]})
             (mg_maintenance_active m ∖ {[device_id]}) m in
  match mg_locks m !! device_id with
  | Some l => if locked l then set_lock device_id (fst (release l)) m else m
  | None => m
  end.

(** ** Transitions *)

Definition NANOSECONDS : Z := 1000000000.

(** The duration of a finished operation, if both times are known. *)
Definition observe_duration (r : operation_row) (m : manager) : manager * res unit :=
  let started := match op_started_ns r with Some z => if z =? 0 then op_created_ns r else z
                 | None => op_created_ns r end in
  match op_finished_ns r with
  | Some finished =>
    if negb (started =? 0) && negb (finished =? 0) && (started <=? finished)
    then let '(mt, r) := observe "operations.duration_seconds" (int_div (finished - started) NANOSECONDS)
                           (mg_metrics m) in (set_metrics mt m, r)
    else (m, Ok tt)
  | None => (m, Ok tt)
  end.

Definition _transition (operation_id status : string) (changes : list op_change) (m : manager)
    : manager * res operation_row :=
  match operation (mg_store m) operation_id with
  | None => (m, raise KeyError operation_id)
  | Some current =>
    match operation_transition (op_status current) status with
    | Err e => (m, Err e)
    | Ok target =>
      match update_operation operation_id (SetStatus (OperationState_value target) :: changes) (mg_store m) with
      | (s, Err e) => (set_store s m, Err e)
      | (s, Ok row) =>
        let m := set_store s m in
        let '(mt, counted) := increment ("operations.transition." ++ OperationState_value target) 1 (mg_metrics m) in
        let m := set_metrics mt m in
        match counted with
        | Err e => (m, Err e)
        | Ok _ =>
          if is_terminal target then
            match observe_duration row m with
            | (m, Err e) => (m, Err e)
            | (m, Ok _) => (m, Ok row)
            end
          else (m, Ok row)
        end
      end
    end
  end.

(** ** What the manager reports *)

Definition pending_objects (m : manager) : list pending := map (λ id, object_of id m) (mg_pending m).

Record queue_report := QueueReport {
  qr_device_id : string; qr_maintenance : option string; qr_running : list string; qr_queued : list string }.
Definition queue_state (device_id : string) (m : manager) : queue_report :=
  let items := filter (λ p, pd_device_id p = device_id) (pending_objects m) in
  QueueReport device_id (maintenance_state device_id m)
    (map pd_operation_id (filter (λ p, pd_running p = true) items))
    (map pd_operation_id (filter (λ p, negb (pd_running p) && negb (pd_cancelled p) = true) items)).

(** ** Stages and progress

    Both emit the row they return. *)

Definition active_stages : list string :=
  ["running"; "preserving_evidence"; "entering_recovery"; "waiting_recovery"; "recovery_connected";
   "preparing_ota"; "erasing"; "validating_plan"; "transferring"; "verifying"; "committing";
   "waiting_device"; "reconnecting"]%string.

Definition emit_row (p : manager * res operation_row) : manager * res operation_row :=
  match p with (m, Ok row) => (emitted row m, Ok row) | p => p end.

Definition stage (operation_id status : string) (m : manager) : manager * res operation_row :=
  if existsb (String.eqb status) active_stages then emit_row (_transition operation_id status [] m)
  else (m, raise ValueError "invalid active operation stage").

(** [(current or {}).get("progress") or {}], spread into a dictionary *)
Definition previous_progress (current : option operation_row) : res (list (string * pyval)) :=
  match current with
  | None => Ok []
  | Some r =>
    progress ← _loads (op_progress_json r) PNone;
    match progress with
    | PDict d => Ok d
    | v => if truthy v then raise TypeError "object is not a mapping" else Ok []
    end
  end.

Definition progress (operation_id stage : string) (progress_permille : Z) (details : list (string * pyobj))
    (now : Z) (m : manager) : manager * res operation_row :=
  let permille := Z.max 0 (Z.min progress_permille 1000) in
  match previous_progress (operation (mg_store m) operation_id) with
  | Err e => (m, Err e)
  | Ok previous =>
    let value := dict_updated (dict_updated previous
                   [("stage", PStr stage); ("progress_permille", PInt permille); ("updated_ns", PInt now)]%string)
                   (map (λ kv, (fst kv, _safe_value (snd kv))) details) in
    emit_row (_transition operation_id stage [SetProgress (PDict value)] m)
  end.

(** ** Executing *)

Definition execute_done (t : nat) (id : string) (rq : request) (submitted : bool) (r : res outcome) : manager → manager :=
  set_task t (Execute id rq submitted (Done r)).
Definition execute_at (t : nat) (id : string) (rq : request) (submitted : bool) (ph : phase) : manager → manager :=
  set_task t (Execute id rq submitted ph).

(** [self._pending.pop(operation_id, None)] *)
Definition pop_pending (id : string) (m : manager) : manager :=
  set_pending (filter (λ k, k ≠ id) (mg_pending m)) m.

(** Leave [async with self._locks[device_id]]: a lock that is not held raises. *)
Definition leave_lock (rq : request) (r : res outcome) (m : manager) : manager * res outcome :=
  if rq_serialized rq then
    match release (lock_of (rq_device_id rq) m) with
    | (l, Ok _) => (set_lock (rq_device_id rq) l m, r)
    | (_, Err e) => (m, Err e)
    end
  else (m, r).

Definition execute_end (t : nat) (id : string) (rq : request) (submitted : bool) (r : res outcome) (m : manager)
    : manager :=
  let '(m, r) := leave_lock rq r m in
  execute_done t id rq submitted r (pop_pending id m).

(** The number of operations of the device already pending. *)
Definition queue_length (device_id : string) (m : manager) : Z :=
  zlen (filter (λ p, bool_decide (pd_device_id p = device_id) && negb (pd_cancelled p) = true) (pending_objects m)).

Definition operation_dict (rq : request) (fingerprint : string) : list (string * pyobj) :=
  [("device_id", OStr (rq_device_id rq)); ("actor_type", OStr (ac_kind (rq_actor rq)));
   ("actor_name", OStr (ac_name (rq_actor rq))); ("action", OStr (rq_action rq));
   ("params", obj_of (_safe_value (rq_params rq))); ("request_fingerprint", OStr fingerprint)]%string.

Definition operation_of (id : string) (rq : request) (fingerprint : string) (now queue_position : Z) : operation_row :=
  new_operation id (rq_device_id rq) (ac_kind (rq_actor rq)) (ac_name (rq_actor rq)) (rq_action rq)
    (_safe_value (rq_params rq)) (if rq_serialized rq then "queued" else "running") now queue_position fingerprint.

(** [execute] up to its first await. *)
Definition execute_start (t : nat) (id : string) (rq : request) (submitted : bool) (now : Z) (m : manager) : manager :=
  let finish := execute_done t id rq submitted in
  if in_maintenance (rq_device_id rq) m
  then finish (raise DeviceMaintenance "device is reserved for host-side maintenance") m
  else match rq_fingerprint rq with
  | Err e => finish (Err e) m
  | Ok fp =>
    let row := operation_of id rq fp now (queue_length (rq_device_id rq) m) in
    match create_operation (operation_dict rq fp) row (mg_store m) with
    | (s, Err e) => finish (Err e) (set_store s m)
    | (s, Ok (row, false)) =>
      finish (result ← _loads (op_result_json row) PNone; Ok (row, obj_of result, false)) (set_store s m)
    | (s, Ok (row, true)) =>
      let m := set_object (_Pending id (rq_device_id rq) false false) (set_store s m) in
      let m := if bool_decide (id ∈ mg_pending m) then m else set_pending (mg_pending m ++ [id]) m in
      execute_at t id rq submitted Created (emitted row m)
    end
  end.

(** [_run] up to the announcement. *)
Definition run_start (t : nat) (id : string) (rq : request) (submitted : bool) (now : Z) (m : manager) : manager :=
  let p := object_of id m in
  let m := set_object (_Pending (pd_operation_id p) (pd_device_id p) (pd_cancelled p) true) m in
  match _transition id "running" [SetStarted now; SetQueuePosition 0] m with
  | (m, Err e) => execute_end t id rq submitted (Err e) m
  | (m, Ok row) => execute_at t id rq submitted Announcing (emitted row m)
  end.

(** The body under the lock. *)
Definition lock_entered (t : nat) (id : string) (rq : request) (submitted : bool) (now : Z) (m : manager) : manager :=
  if pd_cancelled (object_of id m)
  then execute_end t id rq submitted (raise OperationCancelled "operation cancelled before it reached the device") m
  else run_start t id rq submitted now m.

(** After the new row was emitted.  This await is outside the [try]. *)
Definition execute_created (t : nat) (id : string) (rq : request) (submitted : bool) (sink : res unit) (now : Z)
    (m : manager) : manager :=
  match sink with
  | Err e => execute_done t id rq submitted (Err e) m
  | Ok _ =>
    if rq_serialized rq then
      match acquire t (lock_of (rq_device_id rq) m) with
      | (l, true) => lock_entered t id rq submitted now (set_lock (rq_device_id rq) l m)
      | (l, false) => execute_at t id rq submitted Queued (set_lock (rq_device_id rq) l m)
      end
    else run_start t id rq submitted now m
  end.

(** The await of the lock ends. *)
Definition execute_queued (t : nat) (id : string) (rq : request) (submitted : bool) (granted : res unit) (now : Z)
    (m : manager) : manager :=
  let l := lock_of (rq_device_id rq) m in
  match granted with
  | Ok _ => lock_entered t id rq submitted now (set_lock (rq_device_id rq) (acquire_woken t l) m)
  | Err e => execute_done t id rq submitted (Err e)
               (pop_pending id (set_lock (rq_device_id rq) (acquire_cancelled t l) m))
  end.

(** After the announcement: the device call starts. *)
Definition run_announced (t : nat) (id : string) (rq : request) (submitted : bool) (sink : res unit) (m : manager)
    : manager :=
  match sink with
  | Err e => execute_end t id rq submitted (Err e) m
  | Ok _ => execute_at t id rq submitted Calling (called id m)
  end.

(** A final transition, then its emission before [r] is returned or raised. *)
Definition run_final (t : nat) (id : string) (rq : request) (submitted : bool) (status : string)
    (changes : list op_change) (r : operation_row → res (operation_row * pyobj)) (m : manager) : manager :=
  match _transition id status changes m with
  | (m, Err e) => execute_end t id rq submitted (Err e) m
  | (m, Ok row) => execute_at t id rq submitted (Finishing (r row)) (emitted row m)
  end.

Definition replayable_unsafe : list string :=
  ["firmware.ota"; "firmware.system_update"; "device.restart"; "rpc.raw"]%string.
Definition interrupted_status (id : string) (m : manager) : string :=
  match operation (mg_store m) id with
  | Some r => if existsb (String.eqb (op_action r)) replayable_unsafe then "outcome_unknown" else "interrupted"
  | None => "interrupted"
  end.

(** How a failed call is recorded: the status and the error, if it is. *)
Definition failure_record (id : string) (e : exn) (m : manager) : option (string * string) :=
  if catches [CancelledError] e
  then Some (interrupted_status id m, "gateway task was interrupted; device writes were not replayed")%string
  else if catches [OperationCancelled] e then None
  else if catches [OperationOutcomeUnknown; TimeoutError] e
  then Some ("outcome_unknown", if (exn_msg e =? "")%string then "device outcome could not be established"
                                else exn_msg e)%string
  else if catches [Exception_] e then Some ("failed"%string, exn_msg e)
  else None.

(** The progress of a success: the last one, completed. *)
Definition final_progress (id : string) (now : Z) (m : manager) : res pyval :=
  match operation (mg_store m) id with
  | None => Ok PNone
  | Some r =>
    progress ← _loads (op_progress_json r) PNone;
    Ok match progress with
       | PDict d => PDict (dict_updated d [("stage", PStr "succeeded"); ("progress_permille", PInt 1000);
                                           ("updated_ns", PInt now)]%string)
       | p => p
       end
  end.

(** The device call ends. *)
Definition run_called (t : nat) (id : string) (rq : request) (submitted : bool) (result : res pyobj) (now : Z)
    (m : manager) : manager :=
  match result with
  | Err e =>
    match failure_record id e m with
    | Some (status, error) =>
      run_final t id rq submitted status [SetError (Some error); SetFinished now] (λ _, Err e) m
    | None => execute_end t id rq submitted (Err e) m
    end
  | Ok result =>
    match (summary ← match rq_summary rq with Some f => f result | None => Ok result end;
           progress ← final_progress id now m; Ok (summary, progress)) with
    | Err e => execute_end t id rq submitted (Err e) m
    | Ok (summary, progress) =>
      run_final t id rq submitted "succeeded"
        [SetResult (_safe_value summary); SetProgress progress; SetFinished now] (λ row, Ok (row, result)) m
    end
  end.

(** After the final row was emitted. *)
Definition run_finished (t : nat) (id : string) (rq : request) (submitted : bool) (r : res (operation_row * pyobj))
    (sink : res unit) (m : manager) : manager :=
  execute_end t id rq submitted
    (match sink with Err e => Err e | Ok _ => '(row, result) ← r; Ok (row, result, true) end) m.

(** A running operation resumes: its await ends with [result], a device call's
    with an object. *)
Definition execute_resumed (t : nat) (id : string) (rq : request) (submitted : bool) (ph : phase)
    (result : res pyobj) (now : Z) (m : manager) : manager :=
  let ended := _ ← result; Ok tt in
  match ph with
  | Starting => match result with
                | Err e => execute_done t id rq submitted (Err e) m   (* cancelled before it ran *)
                | Ok _ => execute_start t id rq submitted now m
                end
  | Created => execute_created t id rq submitted ended now m
  | Queued => execute_queued t id rq submitted ended now m
  | Announcing => run_announced t id rq submitted ended m
  | Calling => run_called t id rq submitted result now m
  | Finishing r => run_finished t id rq submitted r ended m
  | Done _ => m
  end.

(** ** Submitting *)

Definition known_operation (existing : operation_row) (fingerprint : string) : res (operation_row * bool) :=
  _ ← require_same_request (op_request_fingerprint existing) fingerprint; Ok (existing, false).

(** [submit] up to its first await; the new task is [child]. *)
Definition submit (t child : nat) (operation_id : option string) (uuid : string) (rq : request) (m : manager)
    : manager :=
  let finish r := set_task t (SubmitDone r) m in
  if in_maintenance (rq_device_id rq) m
  then finish (raise DeviceMaintenance "device is reserved for host-side maintenance")
  else
    let id := chosen_id operation_id uuid in
    match rq_fingerprint rq with
    | Err e => finish (Err e)
    | Ok fp =>
      match operation (mg_store m) id with
      | Some existing => finish (known_operation existing fp)
      | None =>
        if bool_decide (id ∈ mg_submission_ids m) then set_task t (SubmitWaiting id fp 9) m
        else set_task t (SubmitStarted id fp child)
               (set_task child (Execute id rq true Starting)
                  (set_submission_ids ({[id]} ∪ mg_submission_ids m) m))
      end
    end.

(** One of the ten polls for the row of a concurrent submission. *)
Definition submit_polled (t : nat) (id fp : string) (polls : nat) (m : manager) : manager :=
  match operation (mg_store m) id, polls with
  | Some existing, _ => set_task t (SubmitDone (known_operation existing fp)) m
  | None, S n => set_task t (SubmitWaiting id fp n) m
  | None, O => set_task t (SubmitDone (raise RuntimeError "concurrent operation submission was not registered")) m
  end.

(** The submission returns the row, once the task has run to its first await. *)
Definition submit_started (t : nat) (id fp : string) (child : nat) (m : manager) : manager :=
  set_task t (SubmitDone
    match operation (mg_store m) id with
    | None => raise RuntimeError "background operation was not registered"
    | Some row =>
      _ ← require_same_request (op_request_fingerprint row) fp;
      match mg_tasks m !! child with
      | Some (Execute _ _ _ (Done r)) => '(_, _, created) ← r; Ok (row, created)
      | _ => Ok (row, true)
      end
    end) m.

(** ** Cancelling the queue *)

(** The loop of [cancel_queued], from one emission to the next. *)
Fixpoint cancel_from (t : nat) (rest : list string) (count : Z) (now : Z) (m : manager) : manager :=
  match rest with
  | [] => set_task t (CancelDone (Ok count)) m
  | id :: rest =>
    let p := object_of id m in
    if negb (pd_running p) && negb (pd_cancelled p) then
      let m := set_object (_Pending (pd_operation_id p) (pd_device_id p) true (pd_running p)) m in
      match _transition id "cancelled" [SetError (Some "cancelled when gateway entered observe mode"%string);
                                        SetFinished now] m with
      | (m, Err e) => set_task t (CancelDone (Err e)) m
      | (m, Ok row) => set_task t (CancelEmitting rest (count + 1)) (emitted row m)
      end
    else cancel_from t rest count now m
  end.
Definition cancel_queued (t : nat) (now : Z) (m : manager) : manager := cancel_from t (mg_pending m) 0 now m.
Definition cancel_emitted (t : nat) (rest : list string) (count : Z) (sink : res unit) (now : Z) (m : manager)
    : manager :=
  match sink with
  | Err e => set_task t (CancelDone (Err e)) m
  | Ok _ => cancel_from t rest count now m
  end.

(** ** Tasks *)

(** [task.cancel()] of a coroutine that awaits a lock cancels its future; any
    other await may end with the cancellation, when it resumes. *)
Definition waits_for_lock (c : coroutine) : option string :=
  match c with
  | Execute _ rq _ Queued => Some (rq_device_id rq)
  | MaintenanceWaiting d => Some d
  | _ => None
  end.
Definition cancel_task (t : nat) (m : manager) : manager :=
  match mg_tasks m !! t ≫= waits_for_lock with
  | Some d => set_lock d (cancel_waiter t (lock_of d m)) m
  | None => m
  end.

Definition in_background (c : coroutine) : bool :=
  match c with Execute _ _ true (Done _) => false | Execute _ _ true _ => true | _ => false end.
Definition close (m : manager) : manager :=
  foldr cancel_task m (map fst (filter (λ tc, in_background (snd tc) = true) (map_to_list (mg_tasks m)))).

(** The done callback of a submitted task. *)
Definition completed (id : string) (m : manager) : manager :=
  set_submission_ids (mg_submission_ids m ∖ {[id]}) m.

(** May the await end so?  A lock is granted to a woken waiter; a waiter that is
    cancelled raises, also when it had been woken. *)
Definition may_resume (t : nat) (c : coroutine) (result : res pyobj) (m : manager) : bool :=
  match waits_for_lock c with
  | Some d => match waiter t (lock_of d m), result with
              | Some Woken, _ | Some WaitCancelled, Err _ => true
              | _, _ => false
              end
  | None => match c with
            | SubmitStarted _ _ child => match mg_tasks m !! child with
                                         | Some (Execute _ _ _ Starting) => false
                                         | _ => true
                                         end
            | _ => true
            end
  end.

Definition resume (t : nat) (c : coroutine) (result : res pyobj) (now : Z) (m : manager) : manager :=
  let ended := _ ← result; Ok tt in
  match c with
  | Execute id rq submitted ph => execute_resumed t id rq submitted ph result now m
  | SubmitWaiting id fp polls =>
    match ended with Err e => set_task t (SubmitDone (Err e)) m | Ok _ => submit_polled t id fp polls m end
  | SubmitStarted id fp child =>
    match ended with Err e => set_task t (SubmitDone (Err e)) m | Ok _ => submit_started t id fp child m end
  | MaintenanceWaiting d => maintenance_resumed t d ended m
  | CancelEmitting rest count => cancel_emitted t rest count ended now m
  | SubmitDone _ | MaintenanceDone _ | CancelDone _ => m
  end.

(** ** The event loop *)

Inductive label :=
| CallExecute (t : nat) (operation_id : option string) (uuid : string) (rq : request)
| CallSubmit (t child : nat) (operation_id : option string) (uuid : string) (rq : request)
| CallMaintenance (t : nat) (device_id : string)
| CallCancelQueued (t : nat) (now : Z)
| Resume (t : nat) (result : res pyobj) (now : Z)
| CancelTask (t : nat)
| Completed (t : nat)
| Close
| Stage (operation_id status : string)
| Progress (operation_id stage : string) (permille : Z) (details : list (string * pyobj)) (now : Z)
| RestoreMaintenance (device_id : string)
| ReleaseMaintenance (device_id : string)
| Restart.

Definition is_free (t : nat) (m : manager) : bool := bool_decide (mg_tasks m !! t = None).

(** A new process with a manager over the same store; what happened is kept. *)
Definition restarted (m : manager) : manager :=
  Manager (mg_store m) MetricsRegistry_init ∅ ∅ [] ∅ ∅ ∅ ∅ (mg_events m) (mg_calls m).

(** One step; [None] if it is not enabled. *)
Definition step (l : label) (m : manager) : option manager :=
  match l with
  | CallExecute t operation_id uuid rq =>
    if is_free t m then Some (set_task t (Execute (chosen_id operation_id uuid) rq false Starting) m) else None
  | CallSubmit t child operation_id uuid rq =>
    if is_free t m && is_free child m && negb (t =? child)%nat
    then Some (submit t child operation_id uuid rq m) else None
  | CallMaintenance t d => if is_free t m then Some (acquire_maintenance t d m) else None
  | CallCancelQueued t now => if is_free t m then Some (cancel_queued t now m) else None
  | Resume t result now =>
    c ← mg_tasks m !! t; if may_resume t c result m then Some (resume t c result now m) else None
  | CancelTask t => Some (cancel_task t m)
  | Completed t => match mg_tasks m !! t with
                   | Some (Execute id _ true (Done _)) => Some (completed id m)
                   | _ => None
                   end
  | Close => Some (close m)
  | Stage id status => Some (fst (stage id status m))
  | Progress id stage permille details now => Some (fst (progress id stage permille details now m))
  | RestoreMaintenance d => Some (restore_maintenance d m)
  | ReleaseMaintenance d => Some (release_maintenance d m)
  | Restart => Some (restarted m)
  end.

(** A run is a list of steps. *)
Definition run_steps (ls : list label) (m : manager) : option manager :=
  fold_left (λ m l, m ≫= step l) ls (Some m).
