(* ===== verification/OperationsProps.v ===== *)
(** * What holds of the operation manager

    In every interleaving: an operation only moves along the state machine and
    a finished one never changes; a device runs one serialized operation at a
    time, none during maintenance, and a queued one is never stuck behind a
    free lock; no call is started twice; what a caller is told is what the store
    says. *)
From stdpp Require Import sorting.
From S2P Require Import Prelude Text Value Json JsonDump Sha256 OperationIdentity StateMachine DeviceInfo Store.
From S2P Require Import StoreProps Observability Security Lock Operations.

(** ** Rows evolve along the state machine *)

(** What a row says of its request. *)
Definition row_identity (r : operation_row) :=
  (op_operation_id r, op_device_id r, (op_actor_type r, op_actor_name r, op_action r),
   op_params_json r, op_created_ns r, op_request_fingerprint r).

(** The row is the same, or an unfinished one has moved. *)
Definition row_moves (r r' : operation_row) : Prop :=
  row_identity r' = row_identity r
  ∧ (r' = r ∨ ∃ a b, op_status r = OperationState_value a ∧ op_status r' = OperationState_value b
                     ∧ is_terminal a = false ∧ rtc op_step a b).

Lemma row_moves_trans r1 r2 r3 : row_moves r1 r2 → row_moves r2 r3 → row_moves r1 r3.
Proof.
  intros [H1 [-> | (a & b & Ha & Hb & Hn & Hab)]] [H2 [-> | (b' & c & Hb' & Hc & Hn' & Hbc)]].
  - split; [congruence | by left].
  - split; [congruence |]. right. by exists b', c.
  - split; [congruence |]. right. by exists a, b.
  - split; [congruence |]. right. exists a, c. split_and!; try done. rewrite Hb in Hb'.
    assert (b = b') as -> by (apply (f_equal OperationState_of) in Hb'; rewrite !OperationState_of_value in Hb'; congruence).
    by etrans.
Qed.

Definition rows_evolve (s s' : GatewayStore) : Prop :=
  ∀ id r, operation s id = Some r → ∃ r', operation s' id = Some r' ∧ row_moves r r'.

#[export] Instance rows_evolve_preorder : PreOrder rows_evolve.
Proof.
  split.
  - intros s id r H. exists r. split; [done |]. split; [done | by left].
  - intros s1 s2 s3 H12 H23 id r H. destruct (H12 id r H) as (r2 & H2 & Hm). destruct (H23 id r2 H2) as (r3 & H3 & Hm').
    exists r3. split; [done |]. by eapply row_moves_trans.
Qed.

Lemma change_operation_identity c r : row_identity (change_operation c r) = row_identity r.
Proof. by destruct c. Qed.
Lemma change_operations_identity l r :
  row_identity (fold_left (λ r c, change_operation c r) l r) = row_identity r.
Proof. revert r. induction l as [|c l IH]; intros r; [done |]. cbn. by rewrite IH, change_operation_identity. Qed.

Definition sets_status (c : op_change) : bool := match c with SetStatus _ => true | _ => false end.
Lemma change_operations_status l r : forallb (λ c, negb (sets_status c)) l = true →
  op_status (fold_left (λ r c, change_operation c r) l r) = op_status r.
Proof.
  revert r. induction l as [|c l IH]; intros r; [done |]. cbn. intros [Hc Hl]%andb_true_iff.
  rewrite (IH _ Hl). by destruct c.
Qed.

(** The whole effect of a transition: on success the row of the operation moves
    by one step; on failure no row changes, unless the metrics failed. *)
Definition transition_row (target : OperationState) (changes : list op_change) (r : operation_row) : operation_row :=
  fold_left (λ r c, change_operation c r) (SetStatus (OperationState_value target) :: changes) r.

Lemma observe_duration_shape r m : ∃ x, observe_duration r m = (set_metrics x m, Ok tt).
Proof.
  assert (Hm : m = set_metrics (mg_metrics m) m) by by destruct m.
  unfold observe_duration. destruct (op_finished_ns r) as [finished|]; [| by exists (mg_metrics m); rewrite <- Hm].
  set (started := match op_started_ns r with Some z => _ | None => _ end).
  destruct (_ && (started <=? finished)) eqn:E; [| by exists (mg_metrics m); rewrite <- Hm].
  apply andb_true_iff in E as [_ E%Z.leb_le]. unfold observe.
  assert (Hpos : float_lt (int_div (finished - started) NANOSECONDS) float_zero = false).
  { assert (Hnn : 0 ≤ finished - started) by lia. destruct (finished - started) as [|p|p]; [done | | lia].
    unfold int_div, NANOSECONDS, float_lt. unfold SpecFloat.SFdiv. cbn [xorb].
    destruct (SpecFloat.SFdiv_core_binary _ _ _ _ _ _) as [[q e] l].
    unfold SpecFloat.binary_round_aux. destruct (SpecFloat.shr_fexp _ _ _ _) as [mrs e'].
    destruct (SpecFloat.shr_fexp _ _ _ _) as [mrs' e'']. cbn.
    destruct (SpecFloat.shr_m mrs'); [done | by case_match | done]. }
  rewrite Hpos. by eexists.
Qed.

Lemma transition_spec id status changes m :
  match operation (mg_store m) id with
  | None => _transition id status changes m = (m, raise KeyError id)
  | Some r =>
    match operation_transition (op_status r) status with
    | Err e => _transition id status changes m = (m, Err e)
    | Ok target => ∃ x, _transition id status changes m
        = (set_metrics x (set_store (fst (update_operation id (SetStatus (OperationState_value target) :: changes)
             (mg_store m))) m), Ok (transition_row target changes r))
    end
  end.
Proof.
  unfold _transition. destruct (operation (mg_store m) id) as [r|] eqn:Hr; [| done].
  destruct (operation_transition (op_status r) status) as [target|e]; [| done].
  set (ch := SetStatus _ :: changes).
  pose proof (operation_update id id ch (mg_store m)) as Hrow. rewrite String.eqb_refl, Hr in Hrow. cbn [option_map] in Hrow.
  rewrite (surjective_pairing (update_operation id ch (mg_store m))).
  replace (snd (update_operation id ch (mg_store m))) with (Ok (transition_row target changes r)).
  - cbv beta iota. unfold increment. cbn [Z.ltb]. change (1 <? 0) with false. cbv beta iota zeta.
    destruct (is_terminal target); [| by eexists].
    match goal with |- context [observe_duration ?r ?m] => destruct (observe_duration_shape r m) as (x & ->) end.
    by eexists.
  - unfold update_operation in *. cbn [fst snd] in *. by rewrite Hrow.
Qed.

(** What a transition leaves alone, and how the rows moved. *)
Record moved (m m' : manager) : Prop := {
  mv_rows : rows_evolve (mg_store m) (mg_store m');
  mv_tasks : mg_tasks m' = mg_tasks m;
  mv_locks : mg_locks m' = mg_locks m;
  mv_active : mg_maintenance_active m' = mg_maintenance_active m;
  mv_calls : mg_calls m' = mg_calls m;
}.
#[export] Instance moved_refl : Reflexive moved.
Proof. intros m. by constructor. Qed.
#[export] Instance moved_trans : Transitive moved.
Proof. intros m1 m2 m3 [] []. constructor; [by etrans |..]; congruence. Qed.

Lemma transition_row_moves a target changes r : op_status r = OperationState_value a →
  op_step a target → forallb (λ c, negb (sets_status c)) changes = true →
  row_moves r (transition_row target changes r) ∧ op_status (transition_row target changes r) = OperationState_value target.
Proof.
  intros Ha Hstep Hch.
  assert (Hs : op_status (transition_row target changes r) = OperationState_value target).
  { unfold transition_row. cbn [fold_left]. by rewrite change_operations_status. }
  split; [| done]. split; [apply change_operations_identity |]. right. exists a, target.
  split_and!; [done | done | by eapply op_step_terminal | by apply rtc_once].
Qed.

(** A transition that succeeds: the row it returns is the stored one, in the
    requested state. *)
Record transitioned (id status : string) (changes : list op_change) (m m' : manager) (row : operation_row) : Prop := {
  tr_moved : moved m m';
  tr_stored : operation (mg_store m') id = Some row;
  tr_status : op_status row = status;
  tr_from : ∃ r target, operation (mg_store m) id = Some r ∧ row = transition_row target changes r
    ∧ status = OperationState_value target;
}.

Lemma update_evolve id target changes r a s : operation s id = Some r → op_status r = OperationState_value a →
  op_step a target → forallb (λ c, negb (sets_status c)) changes = true →
  rows_evolve s (fst (update_operation id (SetStatus (OperationState_value target) :: changes) s)).
Proof.
  intros Hr Ha Hstep Hch id' r' Hr'. rewrite operation_update.
  destruct (String.eqb_spec id id') as [<- |]; [| exists r'; split; [done |]; split; [done | by left]].
  rewrite Hr in Hr'. injection Hr' as <-. rewrite Hr. cbn [option_map]. eexists. split; [reflexivity |].
  by eapply transition_row_moves.
Qed.

Lemma transition_moved id status changes m : forallb (λ c, negb (sets_status c)) changes = true →
  moved m (fst (_transition id status changes m))
  ∧ ∀ row, snd (_transition id status changes m) = Ok row →
    transitioned id status changes m (fst (_transition id status changes m)) row.
Proof.
  intros Hch. pose proof (transition_spec id status changes m) as H.
  destruct (operation (mg_store m) id) as [r|] eqn:Hr; [| by rewrite H].
  destruct (operation_transition (op_status r) status) as [target|e] eqn:Ht; [| by rewrite H].
  destruct H as (x & ->). cbn [fst snd]. apply operation_transition_Ok in Ht as (a & Ha & -> & Hstep).
  assert (Hm : moved m (set_metrics x (set_store (fst (update_operation id
    (SetStatus (OperationState_value target) :: changes) (mg_store m))) m))).
  { constructor; try done. by eapply update_evolve. }
  split; [done |]. intros row [= <-]. constructor.
  - done.
  - pose proof (operation_update id id (SetStatus (OperationState_value target) :: changes) (mg_store m)) as Hu.
    rewrite String.eqb_refl, Hr in Hu. exact Hu.
  - by eapply transition_row_moves.
  - by exists r, target.
Qed.

(** ** Every step moves rows only along the state machine *)

Abbreviation rows m := (mg_store m).

Lemma create_evolve dict row s : rows_evolve s (fst (create_operation dict row s)).
Proof.
  unfold create_operation. destruct (operation_fingerprint dict row) as [fp|]; [| done].
  destruct (operation s (op_operation_id row)) eqn:H; [done |]. cbn [fst].
  intros id r Hr. exists r. split; [| by split; [| left]].
  unfold operation in *. cbn. by apply find_app_old.
Qed.

Lemma execute_end_store t id rq sub r m : rows (execute_end t id rq sub r m) = rows m.
Proof. unfold execute_end, leave_lock. destruct (rq_serialized rq); [| done]. by destruct (release _) as [l []]. Qed.

Lemma execute_start_rows t id rq sub now m : rows_evolve (rows m) (rows (execute_start t id rq sub now m)).
Proof.
  unfold execute_start. destruct (in_maintenance _ _); [reflexivity |]. destruct (rq_fingerprint rq) as [fp|]; [| reflexivity].
  pose proof (create_evolve (operation_dict rq fp) (operation_of id rq fp now (queue_length (rq_device_id rq) m)) (rows m)) as H.
  destruct (create_operation _ _ _) as [s [[row []]|e]]; cbn [fst] in H; [| exact H | exact H].
  by case_bool_decide.
Qed.

Lemma transition_then id status changes m (ok : manager → operation_row → manager) (bad : manager → exn → manager) :
  forallb (λ c, negb (sets_status c)) changes = true →
  (∀ m' row, rows (ok m' row) = rows m') → (∀ m' e, rows (bad m' e) = rows m') →
  rows_evolve (rows m) (rows match _transition id status changes m with
                             | (m', Err e) => bad m' e
                             | (m', Ok row) => ok m' row
                             end).
Proof.
  intros Hch Hok Hbad. destruct (transition_moved id status changes m Hch) as [[Hm _ _ _ _] _].
  destruct (_transition id status changes m) as [m' [row|e]]; cbn [fst] in Hm; [by rewrite Hok | by rewrite Hbad].
Qed.

Lemma run_start_rows t id rq sub now m : rows_evolve (rows m) (rows (run_start t id rq sub now m)).
Proof.
  unfold run_start. match goal with |- context [_transition _ _ _ ?x] => change (rows m) with (rows x) end.
  apply (transition_then id "running" _ _ (λ m row, execute_at t id rq sub Announcing (emitted row m))
    (λ m e, execute_end t id rq sub (Err e) m)); [done | done |].
  intros. apply execute_end_store.
Qed.

Lemma lock_entered_rows t id rq sub now m : rows_evolve (rows m) (rows (lock_entered t id rq sub now m)).
Proof. unfold lock_entered. destruct (pd_cancelled _); [by rewrite execute_end_store | apply run_start_rows]. Qed.

Lemma run_final_rows t id rq sub status changes r m : forallb (λ c, negb (sets_status c)) changes = true →
  rows_evolve (rows m) (rows (run_final t id rq sub status changes r m)).
Proof.
  intros Hch. unfold run_final. apply (transition_then id status _ _
    (λ m row, execute_at t id rq sub (Finishing (r row)) (emitted row m)) (λ m e, execute_end t id rq sub (Err e) m)); [done | done |].
  intros. apply execute_end_store.
Qed.

Lemma execute_resumed_rows t id rq sub ph result now m :
  rows_evolve (rows m) (rows (execute_resumed t id rq sub ph result now m)).
Proof.
  unfold execute_resumed. destruct ph as [| | | | |r|].
  - destruct result; [apply execute_start_rows | reflexivity].
  - unfold execute_created. destruct result; cbn [mbind res_bind]; [| reflexivity].
    destruct (rq_serialized rq); [| apply run_start_rows].
    destruct (acquire _ _) as [l []]; [| reflexivity]. apply (lock_entered_rows t id rq sub now (set_lock (rq_device_id rq) l m)).
  - unfold execute_queued. destruct result; cbn [mbind res_bind]; [| reflexivity].
    apply (lock_entered_rows t id rq sub now (set_lock _ _ m)).
  - unfold run_announced. destruct result; cbn [mbind res_bind]; [reflexivity | by rewrite execute_end_store].
  - unfold run_called. destruct result as [v|e].
    + destruct (summary ← _; _) as [[]|]; [by apply run_final_rows | by rewrite execute_end_store].
    + destruct (failure_record id e m) as [[]|]; [by apply run_final_rows | by rewrite execute_end_store].
  - unfold run_finished. by rewrite execute_end_store.
  - reflexivity.
Qed.

Lemma cancel_from_rows t rest : ∀ count now m, rows_evolve (rows m) (rows (cancel_from t rest count now m)).
Proof.
  induction rest as [|id rest IH]; intros count now m; cbn [cancel_from]; [reflexivity |].
  destruct (_ && _); [| apply IH]. match goal with |- context [_transition _ _ _ ?x] => change (rows m) with (rows x) end.
  by apply (transition_then id "cancelled" _ _ (λ m row, set_task t (CancelEmitting rest (count + 1)) (emitted row m))
    (λ m e, set_task t (CancelDone (Err e)) m)).
Qed.

Lemma acquire_maintenance_store t d m : rows (acquire_maintenance t d m) = rows m.
Proof. unfold acquire_maintenance. destruct (in_maintenance _ _); [done |]. by destruct (acquire _ _) as [l []]. Qed.
Lemma submit_store t child op uuid rq m : rows (submit t child op uuid rq m) = rows m.
Proof.
  unfold submit. destruct (in_maintenance _ _); [done |]. destruct (rq_fingerprint rq) as [fp|]; [| done].
  destruct (operation _ _); [done |]. by case_bool_decide.
Qed.
Lemma submit_polled_store t id fp n m : rows (submit_polled t id fp n m) = rows m.
Proof. unfold submit_polled. destruct (operation _ _); [by destruct n |]. by destruct n. Qed.
Lemma cancel_task_store t m : rows (cancel_task t m) = rows m.
Proof. unfold cancel_task. by destruct (_ ≫= _). Qed.
Lemma close_store m : rows (close m) = rows m.
Proof. unfold close. induction (map fst _) as [|t l IH]; [done |]. cbn. by rewrite cancel_task_store. Qed.
Lemma release_maintenance_store d m : rows (release_maintenance d m) = rows m.
Proof. unfold release_maintenance. cbn. destruct (mg_locks m !! d) as [l|]; [| done]. by destruct (locked l). Qed.

Lemma resume_rows t c result now m : rows_evolve (rows m) (rows (resume t c result now m)).
Proof.
  unfold resume. destruct c as [| | | | | |rest count|]; try reflexivity.
  - apply execute_resumed_rows.
  - destruct result; cbn [mbind res_bind]; [by rewrite submit_polled_store | reflexivity].
  - destruct result; reflexivity.
  - unfold maintenance_resumed. destruct result; reflexivity.
  - destruct result; cbn [mbind res_bind cancel_emitted]; [apply cancel_from_rows | reflexivity].
Qed.

Lemma emit_row_rows m p : rows_evolve (rows m) (rows (fst p)) → rows_evolve (rows m) (rows (fst (emit_row p))).
Proof. by destruct p as [? []]. Qed.

Lemma step_rows l m m' : step l m = Some m' → rows_evolve (rows m) (rows m').
Proof.
  destruct l as [t op uuid rq|t child op uuid rq|t d|t now|t result now|t|t| |id status|id st permille details now|d|d|];
    cbn [step].
  - destruct (is_free t m); [| done]. by intros [= <-].
  - destruct (_ && _); [| done]. intros [= <-]. by rewrite submit_store.
  - destruct (is_free t m); [| done]. intros [= <-]. by rewrite acquire_maintenance_store.
  - destruct (is_free t m); [| done]. intros [= <-]. apply cancel_from_rows.
  - destruct (mg_tasks m !! t) as [c|]; [| done]. cbn. destruct (may_resume _ _ _ _); [| done]. intros [= <-]. apply resume_rows.
  - intros [= <-]. by rewrite cancel_task_store.
  - destruct (mg_tasks m !! t) as [[? ? [] []| | | | | | |]|]; try done. by intros [= <-].
  - intros [= <-]. by rewrite close_store.
  - intros [= <-]. unfold stage. destruct (existsb _ _); [| done]. by apply emit_row_rows, transition_moved.
  - intros [= <-]. unfold progress. destruct (previous_progress _); [| done]. by apply emit_row_rows, transition_moved.
  - by intros [= <-].
  - intros [= <-]. by rewrite release_maintenance_store.
  - by intros [= <-].
Qed.

(** Induction over a run of steps, last step last. *)
Lemma run_steps_snoc ls l m : run_steps (ls ++ [l]) m = run_steps ls m ≫= step l.
Proof. unfold run_steps. by rewrite fold_left_app. Qed.
Lemma run_steps_ind (P : manager → Prop) m ls : P m →
  (∀ l m1 m2, step l m1 = Some m2 → P m1 → P m2) → ∀ m', run_steps ls m = Some m' → P m'.
Proof.
  intros H0 Hs. induction ls as [|l ls IH] using rev_ind; intros m'; [by intros [= <-] |].
  rewrite run_steps_snoc. destruct (run_steps ls m) as [m1|] eqn:H1; [| done]. cbn. intros Hl. eapply Hs; [exact Hl | by apply IH].
Qed.

Lemma run_rows ls m m' : run_steps ls m = Some m' → rows_evolve (rows m) (rows m').
Proof. apply (run_steps_ind (λ x, rows_evolve (rows m) (rows x))); [done |]. intros l m1 m2 Hs H. by etrans; [| eapply step_rows]. Qed.

(** C7: the record of an operation can be trusted.  Whatever the interleaving,
    also across restarts, a recorded operation keeps its request for ever, its
    state moves only along the state machine, and once it is finished the whole
    record is frozen. *)
Theorem operation_record_frozen ls m m' id r : run_steps ls m = Some m' → operation (mg_store m) id = Some r →
  ∃ r', operation (mg_store m') id = Some r' ∧ row_identity r' = row_identity r
    ∧ (r' = r ∨ ∃ a b, op_status r = OperationState_value a ∧ op_status r' = OperationState_value b
                       ∧ is_terminal a = false ∧ rtc op_step a b)
    ∧ (∀ a, op_status r = OperationState_value a → is_terminal a = true → r' = r).
Proof.
  intros Hrun Hr. destruct (run_rows ls m m' Hrun id r Hr) as (r' & Hr' & Hid & Hmove). exists r'.
  split; [done |]. split; [done |]. split; [done |]. intros a Ha Hterm.
  destruct Hmove as [-> | (a' & b & Ha' & _ & Hn & _)]; [done |]. rewrite Ha in Ha'.
  apply (f_equal OperationState_of) in Ha'. rewrite !OperationState_of_value in Ha'. congruence.
Qed.
