(* ===== verification/OperationsExclusion.v ===== *)
(** * One operation at a time on a device

    The per-device lock of [operations.py]: who holds it, who waits for it and
    when maintenance has it, in every interleaving. *)
From S2P Require Import Prelude Text Value Json OperationIdentity StateMachine Store StoreProps Observability Security.
From S2P Require Import Lock Operations OperationsProps.

(** ** Holding and waiting *)

Definition hold_of (c : coroutine) : option string :=
  match c with
  | Execute _ rq _ (Announcing | Calling | Finishing _) => if rq_serialized rq then Some (rq_device_id rq) else None
  | _ => None
  end.
(** Will take the lock: has not asked for it yet, or waits for it. *)
Definition queue_of (c : coroutine) : option string :=
  match c with
  | Execute _ rq _ (Created | Queued) => if rq_serialized rq then Some (rq_device_id rq) else None
  | MaintenanceWaiting d => Some d
  | _ => None
  end.
(** Only serialized operations wait for the lock. *)
Definition waiter_ok (c : coroutine) : bool :=
  match c with Execute _ rq _ Queued => rq_serialized rq | _ => true end.

Section discipline.
(** The device whose maintenance is used as it should be, see [disciplined]. *)
Context (D : string).

(** What holds of one device: [T] are the suspended coroutines, [cur] says
    whether the running one has the lock, [active] whether maintenance does.
    The lock of another device than [D] may be freed under its holder. *)
Record device_ok (T : gmap nat coroutine) (cur active : bool) (d : string) (l : lock) : Prop := {
  dk_lock : lock_ok l;
  dk_live : lock_live l;
  dk_wait : ∀ w, w ∈ queue l ↔ ∃ c, T !! w = Some c ∧ waits_for_lock c = Some d;
  dk_one : d = D → ∀ t1 t2 c1 c2, T !! t1 = Some c1 → T !! t2 = Some c2 →
    hold_of c1 = Some d → hold_of c2 = Some d → t1 = t2;
  dk_held : d = D → ∀ t c, T !! t = Some c → hold_of c = Some d → locked l = true ∧ active = false ∧ cur = false;
  dk_leak : d = D → locked l = true → cur = true ∨ active = true ∨ ∃ t c, T !! t = Some c ∧ hold_of c = Some d;
  dk_cur : d = D → cur = true → locked l = true ∧ active = false;
  dk_maint : d = D → active = true → locked l = true ∨ ∀ t c, T !! t = Some c → queue_of c ≠ Some d;
}.

Definition lock_at (d : string) (L : gmap string lock) : lock := default Lock_init (L !! d).
Definition in_active (d : string) (m : manager) : bool := bool_decide (d ∈ mg_maintenance_active m).

Record excl_on (T : gmap nat coroutine) (h : option string) (L : gmap string lock) (A : gset string) : Prop := {
  ex_waiters : ∀ t c, T !! t = Some c → waiter_ok c = true;
  ex_device : ∀ d, device_ok T (bool_decide (h = Some d)) (bool_decide (d ∈ A)) d (lock_at d L);
}.

Lemma device_other T cur cur' active active' d l : d ≠ D → device_ok T cur active d l → device_ok T cur' active' d l.
Proof. intros Hne []. by constructor. Qed.

(** Between two steps, and in the middle of the step of coroutine [t], which
    holds the lock of [h]. *)
Definition excl (m : manager) : Prop := excl_on (mg_tasks m) None (mg_locks m) (mg_maintenance_active m).
Definition busy (t : nat) (h : option string) (m : manager) : Prop :=
  excl_on (delete t (mg_tasks m)) h (mg_locks m) (mg_maintenance_active m).

Lemma lock_of_set d d' l m : lock_of d' (set_lock d l m) = if decide (d = d') then l else lock_of d' m.
Proof. unfold lock_of. cbn. rewrite lookup_insert. by case_decide. Qed.

Lemma busy_moved t h m m' : moved m m' → busy t h m → busy t h m'.
Proof. intros [_ Ht Hl Ha _] H. unfold busy. by rewrite Ht, Hl, Ha. Qed.

(** Changing one lock concerns its device alone. *)
Lemma excl_on_lock T h h' m d l : excl_on T h (mg_locks m) (mg_maintenance_active m) →
  (∀ d', d' ≠ d → bool_decide (h' = Some d') = bool_decide (h = Some d')) →
  (device_ok T (bool_decide (h = Some d)) (in_active d m) d (lock_of d m) →
   device_ok T (bool_decide (h' = Some d)) (in_active d m) d l) →
  excl_on T h' (mg_locks (set_lock d l m)) (mg_maintenance_active m).
Proof.
  intros [Hw Hd] Hh Hl. constructor; [done |]. intros d'. fold (in_active d' m).
  change (lock_at d' (mg_locks (set_lock d l m))) with (lock_of d' (set_lock d l m)). rewrite lock_of_set.
  destruct (decide (d = d')) as [<- | Hne]; [by apply Hl |].
  rewrite Hh by done. apply Hd.
Qed.

(** The queue may be reordered or woken while the flag stays. *)
Lemma device_lock_same T cur active d l l' : device_ok T cur active d l → lock_ok l' → lock_live l' →
  (∀ w, w ∈ queue l' ↔ w ∈ queue l) → locked l' = locked l → device_ok T cur active d l'.
Proof. intros [] Hok Hlive Hq Hf. constructor; rewrite ?Hf; try done. intros w. by rewrite Hq. Qed.

Lemma cancel_task_excl t m : excl m → excl (cancel_task t m).
Proof.
  intros H. unfold cancel_task. destruct (_ ≫= _) as [d|]; [| done]. refine (excl_on_lock (mg_tasks m) None None m d _ H _ _); [done |].
  intros Hd. destruct Hd as [Hl Hlive] eqn:E. eapply device_lock_same; [exact Hd | by apply cancel_waiter_ok | by apply cancel_waiter_live | | done].
  intros w. by rewrite cancel_waiter_queue.
Qed.
Lemma close_excl m : excl m → excl (close m).
Proof. unfold close. induction (map fst _) as [|t l IH]; [done |]. intros H. cbn. by apply cancel_task_excl, IH. Qed.

(** ** A coroutine starts and ends its step *)

Section enter.
Context (t : nat) (c : coroutine) (m : manager).
Context (Hm : excl m) (Hc : mg_tasks m !! t = Some c).

Lemma deleted w x : delete t (mg_tasks m) !! w = Some x ↔ w ≠ t ∧ mg_tasks m !! w = Some x.
Proof. rewrite lookup_delete_Some. naive_solver. Qed.

(** The lock it was to take is not the maintenance's, if it is free. *)
Lemma queue_not_active d : d = D → queue_of c = Some d → in_active d m = true → locked (lock_of d m) = true.
Proof. intros HD Hq Ha. destruct (dk_maint _ _ _ _ _ (ex_device _ _ _ _ Hm d) HD Ha) as [|H]; [done |]. by destruct (H t c Hc). Qed.

Lemma device_enter d l : waits_for_lock c ≠ Some d →
  device_ok (mg_tasks m) false (in_active d m) d l →
  device_ok (delete t (mg_tasks m)) (bool_decide (hold_of c = Some d)) (in_active d m) d l.
Proof.
  intros Hwait []. constructor; try done.
  - intros w. rewrite dk_wait0. split; intros (x & Hx & Hw); exists x; [|by apply deleted in Hx as []].
    split; [| done]. apply deleted. split; [| done]. intros ->. congruence.
  - intros HD t1 t2 c1 c2 [_ H1]%deleted [_ H2]%deleted. by apply (dk_one0 HD t1 t2 c1 c2).
  - intros HD t1 c1 [Hne H1]%deleted Hh. destruct (dk_held0 HD t1 c1 H1 Hh) as (-> & -> & _). split_and!; [done | done |].
    apply bool_decide_eq_false. intros Hh'. by destruct (Hne (dk_one0 HD t1 t c1 c H1 Hc Hh Hh')).
  - intros HD Hl. case_bool_decide as Hh; [by left |]. destruct (dk_leak0 HD Hl) as [? | [? | (t1 & c1 & H1 & H2)]]; [done | by auto |].
    right. right. exists t1, c1. split; [| done]. apply deleted. split; [| done]. intros ->. congruence.
  - intros HD Hh%bool_decide_eq_true. by destruct (dk_held0 HD t c Hc Hh) as (-> & -> & _).
  - intros HD Ha. destruct (dk_maint0 HD Ha) as [|H]; [by left | right]. intros t1 c1 [_ H1]%deleted. by apply (H t1).
Qed.

Lemma enter : waits_for_lock c = None → busy t (hold_of c) m.
Proof.
  intros Hwait. destruct Hm as [Hw Hd]. constructor; [by intros w x [_ Hx]%deleted; apply (Hw w) |].
  intros d. apply device_enter; [by rewrite Hwait | apply Hd].
Qed.

Lemma wait_hold d : waits_for_lock c = Some d → hold_of c = None.
Proof. by destruct c as [? ? ? []| | | | | | |]. Qed.
Lemma wait_queue d : waits_for_lock c = Some d → queue_of c = Some d.
Proof.
  pose proof (ex_waiters _ _ _ _ Hm t c Hc) as Hok. destruct c as [? rq ? []| | | | | | |]; try done.
  cbn in *. by rewrite Hok.
Qed.

(** A coroutine that waited leaves the queue. *)
Lemma enter_waiter d l h : waits_for_lock c = Some d → lock_ok l → lock_live l →
  (∀ w, w ∈ queue l ↔ w ≠ t ∧ w ∈ queue (lock_of d m)) →
  (h = None ∧ locked l = locked (lock_of d m) ∨ h = Some d ∧ locked l = true ∧ locked (lock_of d m) = false) →
  busy t h (set_lock d l m).
Proof.
  intros Hwait Hok Hlive Hq Hcase. pose proof (wait_hold d Hwait) as Hhold. pose proof (wait_queue d Hwait) as Hqueue.
  destruct Hm as [Hw Hd]. constructor; [by intros w x [_ Hx]%deleted; apply (Hw w) |].
  intros d'. change (device_ok (delete t (mg_tasks m)) (bool_decide (h = Some d')) (in_active d' m) d' (lock_of d' (set_lock d l m))).
  rewrite lock_of_set.
  pose proof (λ HD, queue_not_active d HD Hqueue) as Hact. specialize (Hd d') as Hdev.
  change (device_ok (mg_tasks m) false (in_active d' m) d' (lock_of d' m)) in Hdev. destruct (decide (d = d')) as [<- | Hne].
  - destruct Hdev. constructor.
    + done.
    + done.
    + intros w. rewrite Hq, dk_wait0. split.
      * intros [Hne (x & Hx & Hw')]. exists x. split; [by apply deleted | done].
      * intros (x & [Hne Hx]%deleted & Hw'). split; [done |]. by exists x.
    + intros HD t1 t2 c1 c2 [_ H1]%deleted [_ H2]%deleted. by apply (dk_one0 HD t1 t2 c1 c2).
    + intros HD t1 c1 [_ H1]%deleted Hh. destruct (dk_held0 HD t1 c1 H1 Hh) as (Hl & -> & _).
      destruct Hcase as [[-> ->] | (-> & _ & Hf)]; [done | congruence].
    + intros HD Hl. destruct Hcase as [[-> Hll] | (-> & _ & _)]; [| left; by apply bool_decide_eq_true].
      rewrite Hll in Hl. destruct (dk_leak0 HD Hl) as [? | [? | (t1 & c1 & H1 & H2)]]; [done | by auto |].
      right. right. exists t1, c1. split; [| done]. apply deleted. split; [| done]. intros ->. congruence.
    + intros HD Hh%bool_decide_eq_true. destruct Hcase as [[-> _] | (_ & Hl & Hf)]; [done |]. split; [done |].
      destruct (in_active d m); [| done]. by rewrite Hact in Hf.
    + intros HD Ha. left. destruct Hcase as [[_ ->] | (_ & -> & _)]; [by apply Hact | done].
  - replace (bool_decide (h = Some d')) with (bool_decide (hold_of c = Some d')).
    + apply device_enter; [congruence | exact Hdev].
    + rewrite Hhold. apply bool_decide_ext. destruct Hcase as [[-> _] | (-> & _)]; [done |]. naive_solver.
Qed.
End enter.

Lemma enter_fresh t m : excl m → mg_tasks m !! t = None → busy t None m.
Proof. intros H Ht. unfold busy. by rewrite delete_id. Qed.

Section leave.
Context (t : nat) (c : coroutine) (m : manager).

Lemma inserted w x : <[t := c]> (mg_tasks m) !! w = Some x ↔ w = t ∧ x = c ∨ delete t (mg_tasks m) !! w = Some x.
Proof. rewrite lookup_insert_Some, lookup_delete_Some. naive_solver. Qed.

Lemma device_leave d l active : device_ok (delete t (mg_tasks m)) (bool_decide (hold_of c = Some d)) active d l →
  waits_for_lock c ≠ Some d → (d = D → queue_of c = Some d → active = true → locked l = true) →
  device_ok (<[t := c]> (mg_tasks m)) false active d l.
Proof.
  intros [] Hwait Hqueue.
  assert (Hhold : d = D → hold_of c = Some d → locked l = true ∧ active = false ∧ ∀ t1 c1, delete t (mg_tasks m) !! t1 = Some c1 → hold_of c1 ≠ Some d).
  { intros HD Hh. assert (Hb : bool_decide (hold_of c = Some d) = true) by by apply bool_decide_eq_true.
    destruct (dk_cur0 HD Hb) as [-> ->]. do 2 (split; [done |]). intros t1 c1 H1 Hh1. destruct (dk_held0 HD t1 c1 H1 Hh1) as (_ & _ & ?). congruence. }
  constructor; try done.
  - intros w. rewrite dk_wait0. split; intros (x & Hx & Hw); exists x; [split; [by apply inserted; right | done] |].
    apply inserted in Hx as [[-> ->] |]; [congruence | done].
  - intros HD t1 t2 c1 c2 [[-> ->] | H1]%inserted [[-> ->] | H2]%inserted Hh1 Hh2; [done | | | by apply (dk_one0 HD t1 t2 c1 c2)].
    + by destruct (proj2 (proj2 (Hhold HD Hh1)) t2 c2 H2).
    + by destruct (proj2 (proj2 (Hhold HD Hh2)) t1 c1 H1).
  - intros HD t1 c1 [[-> ->] | H1]%inserted Hh; [by destruct (Hhold HD Hh) as (-> & -> & _) |].
    by destruct (dk_held0 HD t1 c1 H1 Hh) as (-> & -> & _).
  - intros HD Hl. destruct (dk_leak0 HD Hl) as [Hb%bool_decide_eq_true | [? | (t1 & c1 & H1 & H2)]]; [| by auto |]; right; right.
    + exists t, c. split; [apply inserted; by left | done].
    + exists t1, c1. split; [apply inserted; by right | done].
  - intros HD Ha. destruct (dk_maint0 HD Ha) as [|H]; [by left |]. destruct (decide (queue_of c = Some d)) as [Hq|]; [left; by apply Hqueue | right].
    intros t1 c1 [[-> ->] | H1]%inserted; [done | by apply (H t1)].
Qed.

Lemma leave h : busy t h m → hold_of c = h → waits_for_lock c = None →
  (queue_of c = Some D → in_active D m = true → locked (lock_of D m) = true) → excl (set_task t c m).
Proof.
  intros [Hw Hd] <- Hwait Hqueue. constructor.
  - intros w x [[-> ->] | Hx]%inserted; [| by apply (Hw w)]. by destruct c as [? ? ? []| | | | | | |].
  - intros d. apply device_leave; [apply Hd | by rewrite Hwait | by intros ->].
Qed.

Lemma leave_done h : busy t h m → h = None → hold_of c = None → waits_for_lock c = None → queue_of c = None → excl (set_task t c m).
Proof. intros H -> Hh Hw Hq. apply (leave None); [done | done | done |]. by rewrite Hq. Qed.

(** The lock was not free: the coroutine joins the queue. *)
Lemma leave_wait d l : busy t None m → acquire t (lock_of d m) = (l, false) → waits_for_lock c = Some d →
  waiter_ok c = true → queue_of c = Some d → (d = D → in_active d m = true → locked (lock_of d m) = true) → excl (set_task t c (set_lock d l m)).
Proof.
  intros [Hw Hd] Hacq Hwait Hok Hq Hact.
  assert (Hhold : hold_of c = None) by by destruct c as [? ? ? []| | | | | | |].
  constructor; [intros w x [[-> ->] | Hx]%inserted; [done | by apply (Hw w)] |].
  intros d'. change (device_ok (<[t := c]> (mg_tasks m)) false (in_active d' m) d' (lock_of d' (set_lock d l m))).
  rewrite lock_of_set. specialize (Hd d').
  change (device_ok (delete t (mg_tasks m)) false (in_active d' m) d' (lock_of d' m)) in Hd.
  destruct (decide (d = d')) as [<- | Hne]; cycle 1.
  { apply device_leave; [by rewrite Hhold | congruence | congruence]. }
  pose proof (acquire_queue t (lock_of d m)) as Hqueue. rewrite Hacq in Hqueue. cbn [fst snd] in Hqueue.
  assert (Hflag : locked l = locked (lock_of d m)) by (unfold acquire in Hacq; destruct (_ && _); by injection Hacq as <-).
  pose proof (dk_wait _ _ _ _ _ Hd) as Hwaits.
  pose proof (dk_lock _ _ _ _ _ Hd) as Hlok%(acquire_ok t). pose proof (dk_live _ _ _ _ _ Hd) as Hlive%(acquire_live t).
  rewrite Hacq in Hlok, Hlive. cbn [fst] in Hlok, Hlive. destruct Hd. constructor; rewrite ?Hflag; try done.
  - intros w. rewrite Hqueue, elem_of_app, list_elem_of_singleton, Hwaits. split.
    + intros [(x & Hx & Hxw) | ->]; [exists x; split; [apply inserted; by right | done] | exists c; split; [apply inserted; by left | done]].
    + intros (x & [[-> ->] | Hx]%inserted & Hxw); [by right | left; by exists x].
  - intros HD t1 t2 c1 c2 [[-> ->] | H1]%inserted [[-> ->] | H2]%inserted; try congruence. by apply (dk_one0 HD t1 t2 c1 c2).
  - intros HD t1 c1 [[-> ->] | H1]%inserted; [congruence |]. by apply (dk_held0 HD t1).
  - intros HD Hl. destruct (dk_leak0 HD Hl) as [? | [? | (t1 & c1 & H1 & H2)]]; [by auto | by auto |]. right. right.
    exists t1, c1. split; [apply inserted; by right | done].
  - intros HD Ha. left. by apply Hact.
Qed.
End leave.

(** ** The running coroutine takes and gives back the lock *)

Lemma busy_taken t d l m : busy t None m → acquire t (lock_of d m) = (l, true) → (d = D → in_active d m = false) →
  busy t (Some d) (set_lock d l m).
Proof.
  intros H Hacq Hact. pose proof (acquire_fair _ _ _ Hacq) as (Hfree & _ & Hl).
  refine (excl_on_lock _ None (Some d) m d _ H _ _); [intros d' Hne; apply bool_decide_ext; naive_solver |].
  intros []. pose proof (acquire_ok t _ dk_lock0) as Hok. pose proof (acquire_live t _ dk_live0) as Hlive.
  pose proof (acquire_queue t (lock_of d m)) as Hq. rewrite Hacq in Hok, Hlive, Hq. cbn [fst snd] in *.
  rewrite app_nil_r in Hq. rewrite bool_decide_eq_true_2 by done. constructor; try done.
  - intros w. by rewrite Hq.
  - intros HD t1 c1 H1 Hh. destruct (dk_held0 HD t1 c1 H1 Hh) as (Hf & _). congruence.
  - intros _ _. by left.
  - intros HD _. rewrite Hl. by auto.
  - intros HD Ha. rewrite Hact in Ha; done.
Qed.

Lemma busy_released t d m : busy t (Some d) m → busy t None (set_lock d (fst (release (lock_of d m))) m).
Proof.
  intros H. refine (excl_on_lock _ (Some d) None m d _ H _ _); [intros d' Hne; apply bool_decide_ext; naive_solver |].
  rewrite bool_decide_eq_true_2 by done. intros [].
  assert (Hfree : d = D → locked (fst (release (lock_of d m))) = false).
  { intros HD. destruct (dk_cur0 HD eq_refl) as [Hlocked _]. unfold release. by rewrite Hlocked. }
  constructor.
  - by apply release_ok.
  - by apply release_live.
  - intros w. by rewrite release_queue.
  - done.
  - intros HD t1 c1 H1 Hh. by destruct (dk_held0 HD t1 c1 H1 Hh) as (_ & _ & ?).
  - intros HD Hl. rewrite Hfree in Hl; done.
  - done.
  - intros HD Ha. destruct (dk_cur0 HD eq_refl) as [_ Hact]. congruence.
Qed.
(** Somebody else has freed the lock: not that of [D]. *)
Lemma busy_not_held t d m : busy t (Some d) m → locked (lock_of d m) = false → busy t None m.
Proof.
  intros [Hw Hd] Hl. constructor; [done |]. intros d'. specialize (Hd d' : device_ok _ _ _ d' (lock_of d' m)) as Hd'.
  destruct (decide (d' = D)) as [HD | Hne]; [| by eapply device_other].
  destruct (decide (d = d')) as [-> | Hne]; [| by rewrite (bool_decide_eq_false_2 (Some d = _)) in Hd' by congruence].
  rewrite (bool_decide_eq_true_2 (Some d' = Some d')) in Hd' by done.
  destruct (dk_cur _ _ _ _ _ Hd' HD eq_refl). congruence.
Qed.

(** Maintenance takes the lock over from the coroutine that acquired it. *)
Lemma busy_maintenance t d m : busy t (Some d) m → busy t None (maintenance_granted d m).
Proof.
  intros [Hw Hd]. constructor; [done |]. intros d'. specialize (Hd d'). unfold in_active in *.
  change (lock_of d' (maintenance_granted d m)) with (lock_of d' m). cbn.
  destruct (decide (d = d')) as [<- | Hne].
  - rewrite (bool_decide_eq_true_2 (Some d = Some d)) in Hd by done. rewrite (bool_decide_eq_true_2 (_ ∈ _)) by set_solver.
    destruct Hd. constructor; try done.
    + intros HD t1 c1 H1 Hh. by destruct (dk_held0 HD t1 c1 H1 Hh) as (_ & _ & ?).
    + by auto.
    + intros HD _. destruct (dk_cur0 HD eq_refl). by left.
  - rewrite (bool_decide_eq_false_2 (Some d = Some d')) in Hd by congruence.
    by rewrite (bool_decide_ext (d' ∈ _) (d' ∈ mg_maintenance_active m)) by set_solver.
Qed.

(** ** Every step *)

Definition lock_held (rq : request) : option string := if rq_serialized rq then Some (rq_device_id rq) else None.

Section sections.
Context (t : nat) (id : string) (rq : request) (sub : bool).

Lemma busy_end r m : busy t (lock_held rq) m → excl (execute_end t id rq sub r m).
Proof.
  intros H. unfold execute_end, leave_lock, lock_held in *. destruct (rq_serialized rq).
  - pose proof (busy_released t _ m H) as Hb. destruct (release _) as [l [u|e]] eqn:Hr; [by apply (leave_done t _ _ None) |].
    apply (leave_done t _ _ None); try done. apply (busy_not_held t _ m H). unfold release in Hr.
    by destruct (locked (lock_of _ m)).
  - by apply (leave_done t _ _ None).
Qed.

(** A transition, and what follows on success or failure. *)
Lemma busy_transition (h : option string) status changes m (ok : manager → operation_row → manager)
    (bad : manager → exn → manager) : forallb (λ c, negb (sets_status c)) changes = true → busy t h m →
  (∀ m' row, busy t h m' → excl (ok m' row)) → (∀ m' e, busy t h m' → excl (bad m' e)) →
  excl match _transition id status changes m with (m', Err e) => bad m' e | (m', Ok row) => ok m' row end.
Proof.
  intros Hch Hb Hok Hbad. destruct (transition_moved id status changes m Hch) as [Hm _].
  apply (busy_moved t h) in Hm; [| done]. destruct (_transition _ _ _ _) as [m' [row|e]]; auto.
Qed.

Lemma hold_announcing : hold_of (Execute id rq sub Announcing) = lock_held rq.
Proof. done. Qed.

Lemma busy_run_start now m : busy t (lock_held rq) m → excl (run_start t id rq sub now m).
Proof.
  intros H. unfold run_start. apply (busy_transition (lock_held rq) _ _ _
    (λ m row, execute_at t id rq sub Announcing (emitted row m)) (λ m e, execute_end t id rq sub (Err e) m)); [done | exact H | |].
  - intros m' row Hb. by apply (leave t _ _ (lock_held rq)).
  - intros m' e Hb. by apply busy_end.
Qed.

Lemma busy_lock_entered now m : busy t (lock_held rq) m → excl (lock_entered t id rq sub now m).
Proof. intros H. unfold lock_entered. destruct (pd_cancelled _); [by apply busy_end | by apply busy_run_start]. Qed.

Lemma busy_run_final status changes r m : forallb (λ c, negb (sets_status c)) changes = true →
  busy t (lock_held rq) m → excl (run_final t id rq sub status changes r m).
Proof.
  intros Hch H. unfold run_final. apply (busy_transition (lock_held rq) _ _ _
    (λ m row, execute_at t id rq sub (Finishing (r row)) (emitted row m)) (λ m e, execute_end t id rq sub (Err e) m)); [done | exact H | |].
  - intros m' row Hb. by apply (leave t _ _ (lock_held rq)).
  - intros m' e Hb. by apply busy_end.
Qed.

Lemma busy_run_called result now m : busy t (lock_held rq) m → excl (run_called t id rq sub result now m).
Proof.
  intros H. unfold run_called. destruct result as [v|e].
  - destruct (summary ← _; _) as [[]|]; [by apply busy_run_final | by apply busy_end].
  - destruct (failure_record id e m) as [[]|]; [by apply busy_run_final | by apply busy_end].
Qed.

Lemma maintenance_clear d m : in_maintenance d m = false → in_active d m = false.
Proof. unfold in_maintenance, maintenance_state, in_active. by destruct (bool_decide (d ∈ mg_maintenance_active m)). Qed.

Lemma busy_execute_start now m : busy t None m → excl (execute_start t id rq sub now m).
Proof.
  intros H. unfold execute_start. destruct (in_maintenance _ _) eqn:Hmaint; [by apply (leave_done t _ _ None) |].
  apply maintenance_clear in Hmaint.
  destruct (rq_fingerprint rq) as [fp|]; [| by apply (leave_done t _ _ None)].
  destruct (create_operation _ _ _) as [s [[row []]|e]]; [| by apply (leave_done t _ _ None) | by apply (leave_done t _ _ None)].
  apply (leave t _ _ None); [by case_bool_decide | done | done |].
  intros Hq Ha. cbn in Hq. destruct (rq_serialized rq); [| done]. injection Hq as <-.
  exfalso. assert (Hx : in_active (rq_device_id rq) m = true) by (by case_bool_decide). congruence.
Qed.

Lemma busy_execute_created sink now m : busy t None m →
  (rq_serialized rq = true → rq_device_id rq = D → in_active (rq_device_id rq) m = true →
   locked (lock_of (rq_device_id rq) m) = true) →
  excl (execute_created t id rq sub sink now m).
Proof.
  intros H Hact. unfold execute_created. destruct sink; [| by apply (leave_done t _ _ None)].
  pose proof busy_lock_entered as Hentered. pose proof busy_run_start as Hstart. unfold lock_held in *.
  destruct (rq_serialized rq) eqn:Hs; [| by apply Hstart]. specialize (Hact eq_refl).
  destruct (acquire _ _) as [l []] eqn:Hacq.
  - apply Hentered, busy_taken; [done | done |]. intros HD. pose proof (acquire_fair _ _ _ Hacq) as (Hfree & _).
    destruct (in_active _ m); [| done]. by rewrite Hact in Hfree.
  - apply leave_wait; [done | done | done | done | cbn; by rewrite Hs | done].
Qed.
End sections.

Lemma cancel_from_excl t rest : ∀ count now m, busy t None m → excl (cancel_from t rest count now m).
Proof.
  induction rest as [|id rest IH]; intros count now m H; cbn [cancel_from]; [by apply (leave_done t _ _ None) |].
  destruct (_ && _); [| by apply IH].
  apply (busy_transition t id None _ _ _ (λ m row, set_task t (CancelEmitting rest (count + 1)) (emitted row m))
    (λ m e, set_task t (CancelDone (Err e)) m)); [done | exact H | |].
  - intros m' row Hb. by apply (leave_done t _ _ None).
  - intros m' e Hb. by apply (leave_done t _ _ None).
Qed.

Lemma execute_resumed_excl t id rq sub ph result now m : excl m →
  mg_tasks m !! t = Some (Execute id rq sub ph) → may_resume t (Execute id rq sub ph) result m = true →
  excl (execute_resumed t id rq sub ph result now m).
Proof.
  intros Hm Ht Hmay. unfold execute_resumed.
  assert (Hin : waits_for_lock (Execute id rq sub ph) = None → busy t (hold_of (Execute id rq sub ph)) m) by by apply enter.
  destruct ph as [| | | | |r|r]; try specialize (Hin eq_refl).
  - destruct result; [by apply busy_execute_start | by apply (leave_done t _ _ None)].
  - apply busy_execute_created; [done |]. intros Hs HD. apply (queue_not_active t _ m Hm Ht); [done |]. cbn. by rewrite Hs.
  - clear Hin. pose proof (ex_device _ _ _ _ Hm (rq_device_id rq)) as [Hok Hlive _ _ _ _ _ _].
    pose proof (ex_waiters _ _ _ _ Hm _ _ Ht) as Hser. cbn in Hser, Hmay. unfold execute_queued. destruct result as [v|e]; cbn [mbind res_bind].
    + destruct (waiter t _) as [[]|] eqn:Hw; try done. destruct (woken_free _ _ Hok Hw) as [Hfree Hok'].
      apply busy_lock_entered. unfold lock_held. rewrite Hser.
      apply (enter_waiter t _ m Hm Ht); [done | done | done | | by right].
      intros w. apply remove_queue.
    + apply (leave_done t _ _ None); [| done | done | done | done].
      apply (enter_waiter t _ m Hm Ht); [done | by apply acquire_cancelled_ok | apply acquire_cancelled_live | | by left].
      intros w. apply acquire_cancelled_queue.
  - unfold run_announced. destruct result; cbn [mbind res_bind]; [by apply (leave t _ _ (lock_held rq)) | by apply busy_end].
  - by apply busy_run_called.
  - by apply busy_end.
  - done.
Qed.

Lemma acquire_maintenance_excl t d m : excl m → mg_tasks m !! t = None → excl (acquire_maintenance t d m).
Proof.
  intros Hm Ht. pose proof (enter_fresh t m Hm Ht) as Hb. unfold acquire_maintenance.
  destruct (in_maintenance d m) eqn:Hmaint; [by apply (leave_done t _ _ None) |]. apply maintenance_clear in Hmaint.
  set (m1 := set_maintenance _ _ m). change (lock_of d m) with (lock_of d m1).
  assert (Hb1 : busy t None m1) by exact Hb. destruct (acquire t (lock_of d m1)) as [l []] eqn:Hacq.
  - apply (leave_done t _ _ None); [| done | done | done | done]. by apply busy_maintenance, busy_taken.
  - apply leave_wait; [done | done | done | done | done |]. change (in_active d m1) with (in_active d m). congruence.
Qed.

Lemma maintenance_resumed_excl t d result m : excl m → mg_tasks m !! t = Some (MaintenanceWaiting d) →
  may_resume t (MaintenanceWaiting d) result m = true → excl (maintenance_resumed t d (_ ← result; Ok tt) m).
Proof.
  intros Hm Ht Hmay. cbn in Hmay. pose proof (ex_device _ _ _ _ Hm d) as [Hok Hlive _ _ _ _ _ _].
  unfold maintenance_resumed. destruct result as [v|e]; cbn [mbind res_bind].
  - destruct (waiter t _) as [[]|] eqn:Hw; try done. destruct (woken_free _ _ Hok Hw) as [Hfree Hok'].
    apply (leave_done t _ _ None); [| done | done | done | done]. apply busy_maintenance.
    apply (enter_waiter t _ m Hm Ht); [done | done | done | | by right].
    intros w. apply remove_queue.
  - apply (leave_done t _ _ None); [| done | done | done | done].
    assert (Hb : busy t None (set_lock d (acquire_cancelled t (lock_of d m)) m)); [| exact Hb].
    apply (enter_waiter t _ m Hm Ht); [done | by apply acquire_cancelled_ok | apply acquire_cancelled_live | | by left].
    intros w. apply acquire_cancelled_queue.
Qed.

(** ** Who may open the gate

    [release_maintenance] frees the lock whoever holds it, and
    [restore_maintenance] closes the gate without the lock.  A step is disciplined
    for the device [D] if it releases the maintenance of [D] only while that is
    active, and restores it only while [D] has no operations, as at the start of
    a gateway. *)
Definition idle_on (d : string) (m : manager) : Prop :=
  ∀ t c, mg_tasks m !! t = Some c → hold_of c ≠ Some d ∧ queue_of c ≠ Some d.
Definition disciplined (l : label) (m : manager) : Prop :=
  match l with
  | ReleaseMaintenance d => d = D → d ∈ mg_maintenance_active m
  | RestoreMaintenance d => d = D → idle_on d m
  | _ => True
  end.

Lemma release_maintenance_excl d m : excl m → (d = D → d ∈ mg_maintenance_active m) → excl (release_maintenance d m).
Proof.
  intros Hm Hd.
  set (m1 := set_maintenance (mg_maintenance_pending m ∖ {[d]}) (mg_maintenance_active m ∖ {[d]}) m).
  assert (Hl : lock_of d (release_maintenance d m) = fst (release (lock_of d m))
    ∧ ∀ d', d' ≠ d → lock_of d' (release_maintenance d m) = lock_of d' m).
  { unfold release_maintenance. fold m1. cbv zeta. unfold lock_of.
    change (mg_locks m1) with (mg_locks m). destruct (mg_locks m !! d) as [l|] eqn:E; cbn [default].
    - destruct (locked l) eqn:Hlock; cbn; [rewrite lookup_insert_eq | rewrite E; unfold release; rewrite Hlock; done].
      split; [done |]. intros d' Hne. by rewrite lookup_insert_ne.
    - split; [by cbn; rewrite E | done]. }
  assert (Ht : mg_tasks (release_maintenance d m) = mg_tasks m
    ∧ mg_maintenance_active (release_maintenance d m) = mg_maintenance_active m ∖ {[d]}).
  { unfold release_maintenance. cbv zeta. cbn. destruct (mg_locks m !! d) as [l|]; [by destruct (locked l) | done]. }
  destruct Hl as [Hl Hl'], Ht as [Ht Ha], Hm as [Hw Hdev]. unfold excl. rewrite Ht, Ha. constructor; [done |].
  intros d'. change (lock_at d' _) with (lock_of d' (release_maintenance d m)).
  specialize (Hdev d' : device_ok _ _ _ d' (lock_of d' m)) as Hd'. destruct (decide (d' = d)) as [-> | Hne].
  - rewrite Hl. rewrite (bool_decide_eq_false_2 (d ∈ _)) by set_solver.
    assert (Hfree : locked (fst (release (lock_of d m))) = false) by (unfold release; by destruct (locked (lock_of d m)) eqn:E).
    assert (Hheld : d = D → ∀ t c, mg_tasks m !! t = Some c → hold_of c ≠ Some d).
    { intros HD t c H1 H2. destruct (dk_held _ _ _ _ _ Hd' HD t c H1 H2) as (_ & Hf & _).
      by rewrite (bool_decide_eq_true_2 _ (Hd HD)) in Hf. }
    destruct Hd'. constructor; rewrite ?Hfree; try done.
    + by apply release_ok.
    + by apply release_live.
    + intros w. by rewrite release_queue.
    + intros HD t c H1 H2. by destruct (Hheld HD t c H1).
  - rewrite Hl' by done. by rewrite (bool_decide_ext (d' ∈ _) (d' ∈ mg_maintenance_active m)) by set_solver.
Qed.

Lemma restore_maintenance_excl d m : excl m → (d = D → idle_on d m) → excl (restore_maintenance d m).
Proof.
  intros [Hw Hd] Hidle. constructor; [done |]. intros d'. specialize (Hd d').
  change (lock_at d' (mg_locks (restore_maintenance d m))) with (lock_at d' (mg_locks m)). cbn.
  destruct (decide (d' = d)) as [-> | Hne].
  - rewrite (bool_decide_eq_true_2 (d ∈ _)) by set_solver. destruct Hd. constructor; try done.
    + intros HD t c H1 H2. by destruct (Hidle HD t c H1) as [? _].
    + by auto.
    + intros HD _. right. intros t c H1. by destruct (Hidle HD t c H1).
  - by rewrite (bool_decide_ext (d' ∈ _) (d' ∈ mg_maintenance_active m)) by set_solver.
Qed.

Lemma submit_excl t child op uuid rq m : excl m → mg_tasks m !! t = None → mg_tasks m !! child = None → t ≠ child →
  excl (submit t child op uuid rq m).
Proof.
  intros Hm Ht Hchild Hne. pose proof (enter_fresh t m Hm Ht) as Hb. unfold submit.
  destruct (in_maintenance _ _); [by apply (leave_done t _ _ None) |].
  destruct (rq_fingerprint rq); [| by apply (leave_done t _ _ None)].
  destruct (operation _ _); [by apply (leave_done t _ _ None) |].
  case_bool_decide; [by apply (leave_done t _ _ None) |].
  apply (leave_done t _ _ None); [| done | done | done | done]. apply enter_fresh; [| by cbn; rewrite lookup_insert_ne].
  apply (leave_done child _ _ None); [| done | done | done | done]. by apply enter_fresh.
Qed.

Lemma resume_excl t c result now m : excl m → mg_tasks m !! t = Some c → may_resume t c result m = true →
  excl (resume t c result now m).
Proof.
  intros Hm Ht Hmay. unfold resume.
  assert (Hin : waits_for_lock c = None → busy t (hold_of c) m) by by apply enter.
  destruct c as [id rq sub ph| | | |d| |rest count|]; try specialize (Hin eq_refl); try done.
  - by apply execute_resumed_excl.
  - destruct result; cbn [mbind res_bind]; [| by apply (leave_done t _ _ None)].
    unfold submit_polled. destruct (operation _ _); [by destruct polls; apply (leave_done t _ _ None) |].
    by destruct polls; apply (leave_done t _ _ None).
  - by destruct result; apply (leave_done t _ _ None).
  - by apply maintenance_resumed_excl.
  - destruct result; cbn [mbind res_bind cancel_emitted]; [by apply cancel_from_excl | by apply (leave_done t _ _ None)].
Qed.

Lemma excl_init m : mg_tasks m = ∅ → mg_locks m = ∅ → mg_maintenance_active m = ∅ → excl m.
Proof.
  intros Ht Hl Ha. unfold excl. rewrite Ht, Hl, Ha. constructor; [done |]. intros d.
  rewrite (bool_decide_eq_false_2 (d ∈ _)) by set_solver. constructor; try done.
  - apply lock_ok_init.
  - intros w. split; [by intros ?%not_elem_of_nil | by intros (? & ? & _)].
Qed.

Lemma step_excl l m m' : step l m = Some m' → disciplined l m → excl m → excl m'.
Proof.
  destruct l as [t op uuid rq|t child op uuid rq|t d|t now|t result now|t|t| |id status|id st permille details now|d|d|];
    cbn [step]; intros Hstep Hdis Hm.
  - unfold is_free in Hstep. case_bool_decide as Ht; [| done]. injection Hstep as <-.
    by apply (leave_done t _ _ None); [apply enter_fresh |..].
  - unfold is_free in Hstep. destruct (_ && _) eqn:E; [| done]. injection Hstep as <-.
    apply andb_true_iff in E as [[Ht%bool_decide_eq_true Hc%bool_decide_eq_true]%andb_true_iff Hne].
    apply submit_excl; [done | done | done |]. apply negb_true_iff in Hne. by apply Nat.eqb_neq.
  - unfold is_free in Hstep. case_bool_decide as Ht; [| done]. injection Hstep as <-. by apply acquire_maintenance_excl.
  - unfold is_free in Hstep. case_bool_decide as Ht; [| done]. injection Hstep as <-.
    by apply cancel_from_excl, enter_fresh.
  - destruct (mg_tasks m !! t) as [c|] eqn:Ht; [| done]. cbn in Hstep.
    destruct (may_resume _ _ _ _) eqn:Hmay; [| done]. injection Hstep as <-. by apply resume_excl.
  - injection Hstep as <-. by apply cancel_task_excl.
  - destruct (mg_tasks m !! t) as [[? ? [] []| | | | | | |]|]; try done. by injection Hstep as <-.
  - injection Hstep as <-. by apply close_excl.
  - injection Hstep as <-. unfold stage. destruct (existsb _ _); [| done].
    destruct (transition_moved id status [] m eq_refl) as [[_ Ht Hl Ha _] _].
    unfold excl. destruct (_transition id status [] m) as [m' []]; cbn [fst emit_row] in *;
      cbn; by rewrite Ht, Hl, Ha.
  - injection Hstep as <-. unfold progress. destruct (previous_progress _); [| done].
    match goal with |- context [_transition id st ?ch m] =>
      destruct (transition_moved id st ch m eq_refl) as [[_ Ht Hl Ha _] _];
      unfold excl; destruct (_transition id st ch m) as [m' []] end; cbn [fst emit_row] in *;
      cbn; by rewrite Ht, Hl, Ha.
  - injection Hstep as <-. by apply restore_maintenance_excl.
  - injection Hstep as <-. by apply release_maintenance_excl.
  - injection Hstep as <-. by apply excl_init.
Qed.

(** ** Runs *)

Fixpoint disciplined_run (ls : list label) (m : manager) : Prop :=
  match ls with
  | [] => True
  | l :: ls => disciplined l m ∧ match step l m with Some m' => disciplined_run ls m' | None => True end
  end.

Lemma run_steps_cons l ls m : run_steps (l :: ls) m = step l m ≫= run_steps ls.
Proof.
  unfold run_steps. cbn. destruct (step l m); [done |]. cbn. induction ls as [|l' ls IH]; [done | exact IH].
Qed.

Lemma run_excl ls : ∀ m m', run_steps ls m = Some m' → disciplined_run ls m → excl m → excl m'.
Proof.
  induction ls as [|l ls IH]; intros m m' Hrun Hdis Hm; [by injection Hrun as <- |].
  rewrite run_steps_cons in Hrun. destruct Hdis as [Hl Hdis]. destruct (step l m) as [m1|] eqn:Hs; [| done]. cbn in Hrun.
  apply (IH m1 m' Hrun Hdis). by eapply step_excl.
Qed.

End discipline.

(** The woken waiter is the first in the queue. *)
Lemma woken_head who l : lock_ok l → waiter who l = Some Woken → head (queue l) = Some who.
Proof.
  intros [Ht Hh] Hw. unfold waiter in Hw. destruct (find _ _) as [[w s]|] eqn:E; [| done]. cbn in Hw. injection Hw as ->.
  apply find_some in E as [Hin Hw%bool_decide_eq_true]. cbn in Hw. subst w. apply list_elem_of_In in Hin.
  unfold queue. destruct (waiters l) as [|w ws]; [by apply not_elem_of_nil in Hin |].
  apply elem_of_cons in Hin as [<- |Hin]; [done |]. by destruct (proj1 (Forall_forall _ _) Ht _ Hin).
Qed.

Lemma run_excl_on D ls store metrics m : run_steps ls (OperationManager_init store metrics) = Some m →
  disciplined_run D ls (OperationManager_init store metrics) → excl D m.
Proof. intros Hrun Hdis. eapply run_excl; [exact Hrun | exact Hdis | by apply excl_init]. Qed.

(** What holds of every lock, however maintenance is used: the run is
    disciplined for a device that it does not name. *)
Definition names (l : label) : option string :=
  match l with ReleaseMaintenance d | RestoreMaintenance d => Some d | _ => None end.
Lemma unnamed_disciplined D ls : ∀ m, D ∉ omap names ls → disciplined_run D ls m.
Proof.
  induction ls as [|l ls IH]; intros m HD; [done |]. cbn in HD |- *. split.
  - destruct l; cbn in *; try done; intros ->; set_solver.
  - destruct (step l m); [| done]. apply IH. destruct (names l); set_solver.
Qed.
Lemma run_locks ls store metrics m d : run_steps ls (OperationManager_init store metrics) = Some m →
  lock_ok (lock_of d m) ∧ lock_live (lock_of d m)
  ∧ ∀ w, w ∈ queue (lock_of d m) ↔ ∃ c, mg_tasks m !! w = Some c ∧ waits_for_lock c = Some d.
Proof.
  intros Hrun. set (D := fresh (list_to_set (omap names ls) : gset string)).
  assert (HD : D ∉ omap names ls).
  { intros Hin. apply (is_fresh (list_to_set (omap names ls) : gset string)). by apply elem_of_list_to_set. }
  pose proof (ex_device _ _ _ _ _ (run_excl_on D _ _ _ _ Hrun (unnamed_disciplined D ls _ HD)) d) as [].
  by split_and!.
Qed.

(** C2: a device works on one operation at a time, as long as its maintenance is
    released only while it is active and restored only while the device has no
    operations ([disciplined_run]; the manager does not check this, and
    [undisciplined_release_overlaps] shows what follows otherwise).  In every
    interleaving of operations, submissions, cancellations and maintenance, from
    a fresh manager, at most one serialized operation of such a device is between
    taking its lock and giving it back - announcing itself, calling the device or
    recording the outcome - and none while the device is in maintenance.  The lock
    of any device, however its maintenance is used, goes to the first of its
    queue. *)
Theorem device_exclusive ls store metrics m :
  run_steps ls (OperationManager_init store metrics) = Some m →
  (∀ d, disciplined_run d ls (OperationManager_init store metrics) →
     (∀ t1 t2 c1 c2, mg_tasks m !! t1 = Some c1 → mg_tasks m !! t2 = Some c2 →
        hold_of c1 = Some d → hold_of c2 = Some d → t1 = t2)
     ∧ ∀ t c, mg_tasks m !! t = Some c → hold_of c = Some d → maintenance_state d m ≠ Some "active"%string)
  ∧ (∀ d t c v, mg_tasks m !! t = Some c → waits_for_lock c = Some d → may_resume t c (Ok v) m = true →
     head (queue (lock_of d m)) = Some t).
Proof.
  intros Hrun. split.
  - intros d Hdis. pose proof (run_excl_on d _ _ _ _ Hrun Hdis) as Hm. pose proof (ex_device _ _ _ _ _ Hm d) as Hd. split.
    + apply (dk_one _ _ _ _ _ _ Hd eq_refl).
    + intros t c Ht Hh. destruct (dk_held _ _ _ _ _ _ Hd eq_refl t c Ht Hh) as (_ & Ha & _).
      apply bool_decide_eq_false in Ha. unfold maintenance_state. rewrite (bool_decide_eq_false_2 _ Ha).
      by destruct (bool_decide (d ∈ mg_maintenance_pending m)).
  - intros d t c v Ht Hwait Hmay. unfold may_resume in Hmay. rewrite Hwait in Hmay.
    apply woken_head; [apply (run_locks _ _ _ _ d Hrun) |].
    by destruct (waiter t (lock_of d m)) as [[]|].
Qed.

(** ** Progress *)

(** The awaits a coroutine still has before it. *)
Definition rank (c : coroutine) : nat :=
  match c with
  | Execute _ _ _ ph => match ph with
                        | Starting => 6 | Created => 5 | Queued => 4 | Announcing => 3 | Calling => 2
                        | Finishing _ => 1 | Done _ => 0
                        end
  | SubmitWaiting _ _ polls => S polls
  | SubmitStarted _ _ _ | MaintenanceWaiting _ => 1
  | CancelEmitting rest _ => S (length rest)
  | SubmitDone _ | MaintenanceDone _ | CancelDone _ => 0
  end%nat.

(** A step of [t] leaves the others as they were and goes below rank [n]. *)
Definition proceeds (t n : nat) (m m' : manager) : Prop :=
  ∃ c, mg_tasks m' = <[t := c]> (mg_tasks m) ∧ (rank c < n)%nat.

Lemma proceeds_le t n n' m m' : proceeds t n m m' → (n ≤ n')%nat → proceeds t n' m m'.
Proof. intros (c & Ht & Hc) Hn. exists c. split; [done | lia]. Qed.



Section proceed.
Context (t : nat) (id : string) (rq : request) (sub : bool).


End proceed.






