(* ===== verification/OperationsOutcome.v ===== *)
(** * Calls and their outcomes

    No device call is started twice for an operation id, also across restarts
    of the gateway, and what the caller of an operation is told is what the
    store says. *)
From S2P Require Import Prelude Text Value Json JsonDump OperationIdentity StateMachine Store StoreProps.
From S2P Require Import Observability Security Lock Operations OperationsProps.

(** ** Where the call of an operation stands *)

(** The operation a coroutine carries out, and whether its call was started. *)
Definition call_of (c : coroutine) : option (string * bool) :=
  match c with
  | Execute id _ _ (Created | Queued | Announcing) => Some (id, false)
  | Execute id _ _ (Calling | Finishing _) => Some (id, true)
  | _ => None
  end.
(** The row a coroutine returns, or is about to return, as its own success. *)
Definition success_of (c : coroutine) : option (string * operation_row) :=
  match c with
  | Execute id _ _ (Finishing (Ok (row, _))) | Execute id _ _ (Done (Ok (row, _, true))) => Some (id, row)
  | _ => None
  end.

Definition recorded_success (s : GatewayStore) (calls : list string) (id : string) (row : operation_row) : Prop :=
  operation s id = Some row ∧ op_status row = "succeeded"%string ∧ id ∈ calls.

(** [T] are the suspended coroutines, [cur] is what the running one carries out. *)
Record once_on (T : gmap nat coroutine) (cur : option (string * bool)) (s : GatewayStore) (calls : list string)
    : Prop := {
  on_nodup : NoDup calls;
  on_rows : ∀ id, id ∈ calls → operation s id ≠ None;
  on_call : ∀ t c id b, T !! t = Some c → call_of c = Some (id, b) → operation s id ≠ None ∧ (id ∈ calls ↔ b = true);
  on_uniq : ∀ t1 t2 c1 c2 id b1 b2, T !! t1 = Some c1 → T !! t2 = Some c2 →
    call_of c1 = Some (id, b1) → call_of c2 = Some (id, b2) → t1 = t2;
  on_cur : ∀ id b, cur = Some (id, b) → operation s id ≠ None ∧ (id ∈ calls ↔ b = true)
    ∧ ∀ t c b', T !! t = Some c → call_of c ≠ Some (id, b');
  on_success : ∀ t c id row, T !! t = Some c → success_of c = Some (id, row) → recorded_success s calls id row;
}.

Definition once (m : manager) : Prop := once_on (mg_tasks m) None (mg_store m) (mg_calls m).
Definition working (t : nat) (cur : option (string * bool)) (m : manager) : Prop :=
  once_on (delete t (mg_tasks m)) cur (mg_store m) (mg_calls m).

Lemma rows_persist s s' id : rows_evolve s s' → operation s id ≠ None → operation s' id ≠ None.
Proof. intros He. destruct (operation s id) as [r|] eqn:E; [| done]. destruct (He id r E) as (r' & -> & _). done. Qed.

Lemma success_persist s s' calls id row : rows_evolve s s' → recorded_success s calls id row → recorded_success s' calls id row.
Proof.
  intros He (Hrow & Hs & Hc). destruct (He id row Hrow) as (r' & Hr' & _ & [-> | (a & b & Ha & _ & Hn & _)]); [done |].
  rewrite Hs in Ha. destruct a; done.
Qed.

Lemma once_rows T cur s s' calls : rows_evolve s s' → once_on T cur s calls → once_on T cur s' calls.
Proof.
  intros He []. constructor; try done.
  - intros id Hid. by eapply rows_persist, on_rows0.
  - intros t c id b Ht Hc. destruct (on_call0 t c id b Ht Hc). split; [by eapply rows_persist | done].
  - intros id b Hc. destruct (on_cur0 id b Hc) as (? & ? & ?). split_and!; [by eapply rows_persist | done | done].
  - intros t c id row Ht Hc. by eapply success_persist, on_success0.
Qed.
Lemma working_moved t cur m m' : moved m m' → working t cur m → working t cur m'.
Proof. intros [Hr Ht _ _ Hc] H. unfold working. rewrite Ht, Hc. by eapply once_rows. Qed.
Lemma working_forget t cur m : working t cur m → working t None m.
Proof. by intros []. Qed.

Lemma start_work t c m : once m → mg_tasks m !! t = Some c → working t (call_of c) m.
Proof.
  intros [] Hc. assert (Hdel : ∀ w x, delete t (mg_tasks m) !! w = Some x → w ≠ t ∧ mg_tasks m !! w = Some x).
  { intros w x. rewrite lookup_delete_Some. naive_solver. }
  constructor; [done | done |..].
  - intros w x id b [_ Hx]%Hdel. by apply (on_call0 w).
  - intros t1 t2 c1 c2 id b1 b2 [_ H1]%Hdel [_ H2]%Hdel. by apply (on_uniq0 t1 t2 c1 c2).
  - intros id b Hb. destruct (on_call0 t c id b Hc Hb). split_and!; [done | done |].
    intros w x b' [Hne Hx]%Hdel Hb'. by destruct (Hne (on_uniq0 w t x c id b' b Hx Hc Hb' Hb)).
  - intros w x id row [_ Hx]%Hdel. by apply (on_success0 w).
Qed.
Lemma start_work_fresh t m : once m → mg_tasks m !! t = None → working t None m.
Proof. intros H Ht. unfold working. by rewrite delete_id. Qed.

Lemma end_work t c m cur : working t cur m → (call_of c = cur ∨ call_of c = None) →
  (∀ id row, success_of c = Some (id, row) → recorded_success (mg_store m) (mg_calls m) id row) → once (set_task t c m).
Proof.
  intros [] Hcall Hsucc. assert (Hins : ∀ w x, mg_tasks (set_task t c m) !! w = Some x →
    w = t ∧ x = c ∨ delete t (mg_tasks m) !! w = Some x).
  { intros w x. cbn. rewrite lookup_insert_Some, lookup_delete_Some. naive_solver. }
  assert (Hcur : ∀ id b, call_of c = Some (id, b) → cur = Some (id, b)) by (intros id b ?; destruct Hcall; congruence).
  constructor; [done | done |..]; cbn [mg_store mg_calls set_task].
  - intros w x id b [[-> ->] | Hx]%Hins Hb; [| by apply (on_call0 w x)].
    by destruct (on_cur0 id b (Hcur _ _ Hb)) as (? & ? & _).
  - intros t1 t2 c1 c2 id b1 b2 [[-> ->] | H1]%Hins [[-> ->] | H2]%Hins Hb1 Hb2; [done | | | by apply (on_uniq0 t1 t2 c1 c2 id b1 b2)].
    + by destruct (proj2 (proj2 (on_cur0 id b1 (Hcur _ _ Hb1))) t2 c2 b2 H2).
    + by destruct (proj2 (proj2 (on_cur0 id b2 (Hcur _ _ Hb2))) t1 c1 b1 H1).
  - done.
  - intros w x id row [[-> ->] | Hx]%Hins Hs; [by apply Hsucc | by apply (on_success0 w x)].
Qed.
Lemma end_plain t c m cur : working t cur m → call_of c = None → success_of c = None → once (set_task t c m).
Proof. intros H Hc Hs. apply (end_work t c m cur H); [by right |]. by rewrite Hs. Qed.

(** The call of the current operation starts. *)
Lemma working_called t id m : working t (Some (id, false)) m → working t (Some (id, true)) (called id m).
Proof.
  intros []. destruct (on_cur0 id false eq_refl) as (Hrow & Hnew & Hothers).
  assert (Hn : id ∉ mg_calls m) by (intros ?; by apply Hnew in H).
  constructor; cbn.
  - apply NoDup_app. split; [done |]. split; [by intros x Hx ->%list_elem_of_singleton | apply NoDup_singleton].
  - intros x [Hx | ->%list_elem_of_singleton]%elem_of_app; [by apply on_rows0 | done].
  - intros w c x b Hw Hc. destruct (on_call0 w c x b Hw Hc) as [Hx Hb]. split; [done |].
    rewrite elem_of_app, list_elem_of_singleton, Hb. split; [intros [? | ->]; [done | by destruct (Hothers w c b Hw)] | by left].
  - done.
  - intros x b [= <- <-]. split_and!; [done | | done]. split; [done |]. intros _. apply elem_of_app. right. by left.
  - intros w c x row Hw Hs. destruct (on_success0 w c x row Hw Hs) as (? & ? & ?). split_and!; [done | done |].
    apply elem_of_app. by left.
Qed.

(** ** The sections of an operation *)

Lemma execute_end_once t id rq sub r cur m : working t cur m →
  (∀ row v, r = Ok (row, v, true) → recorded_success (mg_store m) (mg_calls m) id row) →
  once (execute_end t id rq sub r m).
Proof.
  intros Hw Hr. unfold execute_end, leave_lock.
  assert (Hdone : ∀ m' r', mg_tasks m' = mg_tasks m → mg_store m' = mg_store m → mg_calls m' = mg_calls m →
    (r' = r ∨ is_ok r' = false) → once (execute_done t id rq sub r' (pop_pending id m'))).
  { intros m' r' Ht Hs Hc Hcase. apply (end_work t _ _ cur); [unfold working; cbn; by rewrite Ht, Hs, Hc | by right |].
    intros id' row. cbn. rewrite Hs, Hc. destruct r' as [[[row' v] []]|]; try done. intros [= <- <-].
    destruct Hcase as [<- |]; [by eapply Hr | done]. }
  destruct (rq_serialized rq); [| by apply Hdone; auto].
  destruct (release _) as [l []]; apply Hdone; auto.
Qed.

Lemma execute_end_err t id rq sub e cur m : working t cur m → once (execute_end t id rq sub (Err e) m).
Proof. intros Hw. by apply (execute_end_once t id rq sub _ cur m Hw). Qed.

Lemma working_transition t cur m id status changes (ok : manager → operation_row → manager)
    (bad : manager → exn → manager) : forallb (λ c, negb (sets_status c)) changes = true → working t cur m →
  (∀ m' row, working t cur m' → operation (mg_store m') id = Some row → op_status row = status →
     mg_calls m' = mg_calls m → once (ok m' row)) →
  (∀ m' e, working t cur m' → once (bad m' e)) →
  once match _transition id status changes m with (m', Err e) => bad m' e | (m', Ok row) => ok m' row end.
Proof.
  intros Hch Hw Hok Hbad. destruct (transition_moved id status changes m Hch) as [Hm Hrow].
  pose proof (working_moved t cur _ _ Hm Hw) as Hw'. pose proof (mv_calls _ _ Hm) as Hcalls.
  destruct (_transition _ _ _ _) as [m' [row|e]]; cbn [fst snd] in *; [| by apply Hbad].
  destruct (Hrow row eq_refl). by apply Hok; subst.
Qed.

Section sections.
Context (t : nat) (id : string) (rq : request) (sub : bool).

Lemma run_start_once now m : working t (Some (id, false)) m → once (run_start t id rq sub now m).
Proof.
  intros H. unfold run_start. apply (working_transition t (Some (id, false)) _ id "running" _
    (λ m row, execute_at t id rq sub Announcing (emitted row m)) (λ m e, execute_end t id rq sub (Err e) m)); [done | exact H | |].
  - intros m' row Hw _ _ _. by apply (end_work t _ _ (Some (id, false))); [| left |].
  - intros m' e Hw. by eapply execute_end_err.
Qed.
Lemma lock_entered_once now m : working t (Some (id, false)) m → once (lock_entered t id rq sub now m).
Proof. intros H. unfold lock_entered. destruct (pd_cancelled _); [by eapply execute_end_err | by apply run_start_once]. Qed.

Lemma run_final_once status changes r m : forallb (λ c, negb (sets_status c)) changes = true →
  working t (Some (id, true)) m →
  (∀ row row' v, r row = Ok (row', v) → row' = row ∧ status = "succeeded"%string) →
  once (run_final t id rq sub status changes r m).
Proof.
  intros Hch H Hr. unfold run_final. apply (working_transition t (Some (id, true)) _ id status _
    (λ m row, execute_at t id rq sub (Finishing (r row)) (emitted row m)) (λ m e, execute_end t id rq sub (Err e) m)); [done | exact H | |].
  - intros m' row Hw Hrow Hstatus _. apply (end_work t _ _ (Some (id, true))); [exact Hw | by left |].
    intros id' row'. cbn. destruct (r row) as [[row0 v]|] eqn:E; [| done]. intros [= <- <-].
    destruct (Hr row row0 v E) as [-> ->]. split_and!; [done | done |].
    by apply (on_cur _ _ _ _ Hw id true).
  - intros m' e Hw. by eapply execute_end_err.
Qed.

Lemma run_called_once result now m : working t (Some (id, true)) m → once (run_called t id rq sub result now m).
Proof.
  intros H. unfold run_called. destruct result as [v|e].
  - destruct (summary ← _; _) as [[]|]; [| by eapply execute_end_err].
    apply run_final_once; [done | done |]. by intros row row' v' [= <- _].
  - destruct (failure_record id e m) as [[]|]; [| by eapply execute_end_err].
    by apply run_final_once.
Qed.

Lemma create_inserts dict row s s' row' : create_operation dict row s = (s', Ok (row', true)) →
  operation s (op_operation_id row) = None ∧ operation s' (op_operation_id row) ≠ None.
Proof.
  unfold create_operation. destruct (operation_fingerprint dict row) as [fp|]; [| done].
  destruct (operation s (op_operation_id row)) as [old|] eqn:Hold.
  - rewrite Hold. unfold require_same_request, raise_if. by destruct (negb _).
  - rewrite operation_insert by exact Hold. intros [= <- _]. split; [done |]. by rewrite operation_insert.
Qed.

Lemma working_created m s : working t None m → rows_evolve (mg_store m) s → operation (mg_store m) id = None →
  operation s id ≠ None → working t (Some (id, false)) (set_store s m).
Proof.
  intros H He Hnew Hrow. assert (H' : working t None (set_store s m)) by by eapply once_rows.
  destruct H, H'. constructor; try done. intros x b [= <- <-]. split_and!; [done | |].
  - split; [| done]. intros Hin. by destruct (on_rows0 id Hin).
  - intros w c b' Hw Hc. by destruct (on_call0 w c id b' Hw Hc).
Qed.

Lemma execute_start_once now m : working t None m → once (execute_start t id rq sub now m).
Proof.
  intros H. unfold execute_start. destruct (in_maintenance _ _); [by eapply end_plain |].
  destruct (rq_fingerprint rq) as [fp|]; [| by eapply end_plain].
  set (row := operation_of _ _ _ _ _). set (dict := operation_dict rq fp).
  pose proof (create_evolve dict row (mg_store m)) as He.
  destruct (create_operation dict row (mg_store m)) as [s [[row' []]|e]] eqn:Hc; cbn [fst] in He.
  - destruct (create_inserts _ _ _ _ _ Hc) as [Hnew Hrow].
    pose proof (working_created m s H He Hnew Hrow) as Hw.
    apply (end_work t _ _ (Some (id, false))); [by case_bool_decide | by left | done].
  - eapply end_plain; [by eapply (once_rows _ _ _ s) | done |]. cbn. by destruct (_loads (op_result_json row') PNone).
  - by eapply end_plain; [eapply (once_rows _ _ _ s) |..].
Qed.
End sections.

(** ** Every step *)

Lemma execute_resumed_once t id rq sub ph result now m : once m →
  mg_tasks m !! t = Some (Execute id rq sub ph) → once (execute_resumed t id rq sub ph result now m).
Proof.
  intros Hm Ht. pose proof (start_work t _ m Hm Ht) as Hw. unfold execute_resumed.
  destruct ph as [| | | | |r|r]; cbn [call_of] in Hw; try done.
  - destruct result; [by apply execute_start_once | by eapply end_plain].
  - unfold execute_created. destruct result; cbn [mbind res_bind]; [| by eapply end_plain].
    destruct (rq_serialized rq); [| by apply run_start_once].
    destruct (acquire _ _) as [l []]; [by apply lock_entered_once |].
    by apply (end_work t _ _ (Some (id, false))); [| left |].
  - unfold execute_queued. destruct result; cbn [mbind res_bind]; [by apply lock_entered_once | by eapply end_plain].
  - unfold run_announced. destruct result; cbn [mbind res_bind]; [| by eapply execute_end_err].
    apply (end_work t _ _ (Some (id, true))); [by apply working_called | by left | done].
  - by apply run_called_once.
  - unfold run_finished. apply (execute_end_once t id rq sub _ (Some (id, true))); [done |].
    intros row v Hr. apply (on_success _ _ _ _ Hm t _ id row Ht). destruct result; [| done].
    destruct r as [[row' v']|]; [| done]. by injection Hr as -> _.
Qed.

Lemma cancel_from_once t rest : ∀ count now m, working t None m → once (cancel_from t rest count now m).
Proof.
  induction rest as [|id rest IH]; intros count now m H; cbn [cancel_from]; [by eapply end_plain |].
  destruct (_ && _); [| by apply IH].
  apply (working_transition t None _ id "cancelled" _ (λ m row, set_task t (CancelEmitting rest (count + 1)) (emitted row m))
    (λ m e, set_task t (CancelDone (Err e)) m)); [done | exact H | |].
  - intros m' row Hw _ _ _. by eapply end_plain.
  - intros m' e Hw. by eapply end_plain.
Qed.

Lemma resume_once t c result now m : once m → mg_tasks m !! t = Some c → once (resume t c result now m).
Proof.
  intros Hm Ht. pose proof (start_work t c m Hm Ht) as Hw. unfold resume.
  destruct c as [id rq sub ph| | | |d| |rest count|]; try done.
  - by apply execute_resumed_once.
  - destruct result; cbn [mbind res_bind]; [| by eapply end_plain].
    unfold submit_polled. destruct (operation _ _), polls; by eapply end_plain.
  - by destruct result; eapply end_plain.
  - by unfold maintenance_resumed; destruct result; eapply end_plain.
  - destruct result; cbn [mbind res_bind cancel_emitted]; [by apply cancel_from_once | by eapply end_plain].
Qed.

(** Steps that only touch the locks and the maintenance. *)
Lemma cancel_task_once t m : once m → once (cancel_task t m).
Proof. intros H. unfold cancel_task. by destruct (_ ≫= _). Qed.
Lemma close_once m : once m → once (close m).
Proof. unfold close. induction (map fst _) as [|t l IH]; [done |]. intros H. cbn. by apply cancel_task_once, IH. Qed.
Lemma release_maintenance_once d m : once m → once (release_maintenance d m).
Proof. unfold release_maintenance. cbn. destruct (mg_locks m !! d) as [l|]; [by destruct (locked l) | done]. Qed.

Lemma emit_row_once m p : moved m (fst p) → once m → once (fst (emit_row p)).
Proof.
  intros [Hr Ht _ _ Hc] Hm. assert (H : once (fst p)) by (unfold once; rewrite Ht, Hc; by eapply once_rows).
  by destruct p as [? []].
Qed.

Lemma submit_once t child op uuid rq m : once m → mg_tasks m !! t = None → mg_tasks m !! child = None → t ≠ child →
  once (submit t child op uuid rq m).
Proof.
  intros Hm Ht Hchild Hne. pose proof (start_work_fresh t m Hm Ht) as Hw. unfold submit.
  destruct (in_maintenance _ _); [by eapply end_plain |]. destruct (rq_fingerprint rq); [| by eapply end_plain].
  destruct (operation _ _); [by eapply end_plain |]. case_bool_decide; [by eapply end_plain |].
  eapply end_plain; [apply start_work_fresh; [| by cbn; rewrite lookup_insert_ne] | done | done].
  eapply end_plain; [| done | done]. by apply start_work_fresh.
Qed.

Lemma once_init m : mg_tasks m = ∅ → NoDup (mg_calls m) → (∀ id, id ∈ mg_calls m → operation (mg_store m) id ≠ None) → once m.
Proof. intros Ht Hn Hr. unfold once. rewrite Ht. by constructor. Qed.

Lemma step_once l m m' : step l m = Some m' → once m → once m'.
Proof.
  destruct l as [t op uuid rq|t child op uuid rq|t d|t now|t result now|t|t| |id status|id st permille details now|d|d|];
    cbn [step]; intros Hstep Hm.
  - unfold is_free in Hstep. case_bool_decide as Ht; [| done]. injection Hstep as <-.
    eapply end_plain; [by apply start_work_fresh | done | done].
  - unfold is_free in Hstep. destruct (_ && _) eqn:E; [| done]. injection Hstep as <-.
    apply andb_true_iff in E as [[Ht%bool_decide_eq_true Hc%bool_decide_eq_true]%andb_true_iff Hne].
    apply submit_once; [done | done | done |]. apply negb_true_iff in Hne. by apply Nat.eqb_neq.
  - unfold is_free in Hstep. case_bool_decide as Ht; [| done]. injection Hstep as <-.
    pose proof (start_work_fresh t m Hm Ht) as Hw. unfold acquire_maintenance.
    destruct (in_maintenance d m); [by eapply end_plain |]. by destruct (acquire _ _) as [? []]; eapply end_plain.
  - unfold is_free in Hstep. case_bool_decide as Ht; [| done]. injection Hstep as <-.
    by apply cancel_from_once, start_work_fresh.
  - destruct (mg_tasks m !! t) as [c|] eqn:Ht; [| done]. cbn in Hstep.
    destruct (may_resume _ _ _ _); [| done]. injection Hstep as <-. by apply resume_once.
  - injection Hstep as <-. by apply cancel_task_once.
  - destruct (mg_tasks m !! t) as [[? ? [] []| | | | | | |]|]; try done. by injection Hstep as <-.
  - injection Hstep as <-. by apply close_once.
  - injection Hstep as <-. unfold stage. destruct (existsb _ _); [| done]. apply (emit_row_once m); [| done].
    by apply transition_moved.
  - injection Hstep as <-. unfold progress. destruct (previous_progress _); [| done]. apply (emit_row_once m); [| done].
    by apply transition_moved.
  - by injection Hstep as <-.
  - injection Hstep as <-. by apply release_maintenance_once.
  - injection Hstep as <-. destruct Hm. by apply once_init.
Qed.

(** C1: an operation is carried out once, and its success is on record.  In
    every interleaving, from any store and across any number of restarts, the
    device call of an operation id is started at most once, by a recorded
    operation; and whenever [execute] returns a result of its own, the store
    holds exactly the returned row, as succeeded, and the call was made. *)
Theorem call_once ls store metrics m : run_steps ls (OperationManager_init store metrics) = Some m →
  NoDup (mg_calls m)
  ∧ (∀ id, id ∈ mg_calls m → operation (mg_store m) id ≠ None)
  ∧ ∀ t id rq sub row v, mg_tasks m !! t = Some (Execute id rq sub (Done (Ok (row, v, true)))) →
      operation (mg_store m) id = Some row ∧ op_status row = "succeeded"%string ∧ id ∈ mg_calls m.
Proof.
  intros Hrun. assert (Hm : once m).
  { revert Hrun. apply run_steps_ind; [by apply once_init; [| constructor | intros ? ?%not_elem_of_nil] |].
    intros l m1 m2. apply step_once. }
  split_and!; [apply (on_nodup _ _ _ _ Hm) | apply (on_rows _ _ _ _ Hm) |].
  intros t id rq sub row v Ht. by apply (on_success _ _ _ _ Hm t _ id row Ht).
Qed.

(** ** How a call is recorded *)

(** The outcome was stored, emitted, and is reported when the sink returns. *)
Definition reported (t : nat) (id : string) (rq : request) (sub : bool) (m m' : manager) (row : operation_row)
    (r : res (operation_row * pyobj)) : Prop :=
  operation (mg_store m') id = Some row ∧ mg_events m' = mg_events m ++ [row]
  ∧ mg_tasks m' !! t = Some (Execute id rq sub (Finishing r)).
(** Nothing was stored or emitted; the exception is raised, unless the lock of
    the device, which the operation gives back first, was freed before. *)
Definition unreported (t : nat) (id : string) (rq : request) (sub : bool) (m m' : manager) (e : exn) : Prop :=
  mg_store m' = mg_store m ∧ mg_events m' = mg_events m
  ∧ ∃ e', mg_tasks m' !! t = Some (Execute id rq sub (Done (Err e')))
      ∧ (e' = e ∨ rq_serialized rq = true ∧ locked (lock_of (rq_device_id rq) m) = false).

Lemma run_final_reported t id rq sub target changes (r : operation_row → res (operation_row * pyobj)) m old a :
  operation (mg_store m) id = Some old → op_status old = OperationState_value a → op_step a target →
  let m' := run_final t id rq sub (OperationState_value target) changes r m in
  reported t id rq sub m m' (transition_row target changes old) (r (transition_row target changes old)).
Proof.
  intros Hold Ha Hstep m'. unfold m', run_final.
  pose proof (transition_spec id (OperationState_value target) changes m) as H. rewrite Hold, Ha in H.
  rewrite (proj2 (operation_transition_Ok _ _ target)) in H by by exists a.
  destruct H as (x & ->). split_and!; [| done | by cbn; rewrite lookup_insert_eq].
  pose proof (operation_update id id (SetStatus (OperationState_value target) :: changes) (mg_store m)) as Hu.
  rewrite String.eqb_refl, Hold in Hu. exact Hu.
Qed.

Lemma execute_end_unreported t id rq sub e m : unreported t id rq sub m (execute_end t id rq sub (Err e) m) e.
Proof.
  unfold execute_end, leave_lock. destruct (rq_serialized rq) eqn:Hs.
  - destruct (release _) as [l [u|x]] eqn:Hr; (split_and!; [done | done |]); eexists; cbn; (split; [by rewrite lookup_insert_eq |]).
    + by left.
    + right. split; [done |]. unfold release in Hr. by destruct (locked (lock_of _ m)).
  - split_and!; [done | done |]. exists e. cbn. split; [by rewrite lookup_insert_eq | by left].
Qed.

(** What each end of the call must become; [None]: no record. *)
Definition verdict (action : string) (e : exn) : option (OperationState * string) :=
  if issubclass (exn_cls e) CancelledError
  then Some (if existsb (String.eqb action) ["firmware.ota"; "firmware.system_update"; "device.restart"; "rpc.raw"]%string
             then OUTCOME_UNKNOWN else INTERRUPTED,
             "gateway task was interrupted; device writes were not replayed"%string)
  else if issubclass (exn_cls e) OperationCancelled then None
  else if issubclass (exn_cls e) OperationOutcomeUnknown || issubclass (exn_cls e) TimeoutError
  then Some (OUTCOME_UNKNOWN, if (exn_msg e =? "")%string then "device outcome could not be established"%string
                              else exn_msg e)
  else if issubclass (exn_cls e) Exception_ then Some (FAILED, exn_msg e)
  else None.

Lemma failure_verdict id e m r : operation (mg_store m) id = Some r →
  failure_record id e m = option_map (λ v, (OperationState_value (fst v), snd v)) (verdict (op_action r) e).
Proof.
  intros Hr. unfold failure_record, verdict, catches, interrupted_status. rewrite Hr. cbn [existsb].
  rewrite !orb_false_r. change replayable_unsafe with ["firmware.ota"; "firmware.system_update"; "device.restart"; "rpc.raw"]%string.
  destruct (issubclass _ CancelledError).
  { by destruct (existsb _ _) eqn:E; cbn [existsb] in E; rewrite ?orb_false_r in E; rewrite E. }
  destruct (issubclass _ OperationCancelled); [done |]. destruct (_ || _); [by destruct (String.eqb _ _) |].
  by destruct (issubclass _ Exception_).
Qed.

(** The summary of a result, and the progress that a success stores. *)
Definition success_values (id : string) (rq : request) (v : pyobj) (now : Z) (m : manager) : res (pyobj * pyval) :=
  summary ← default Ok (rq_summary rq) v; progress ← final_progress id now m; Ok (summary, progress).

(** C23: what each end of a device call leaves behind.  A running operation whose
    call returns is stored as succeeded with the JSON of the result's summary; an
    interrupted one as interrupted, or as of unknown outcome if its action writes
    to the device irrevocably; a timeout or an unknown outcome as unknown, any
    other exception of class [Exception] as failed with its message.  In these
    cases the stored row is what is emitted and what the caller is told when the
    sink returns, and nothing of the request or the earlier result changes.

    In three cases nothing is stored or emitted, the record stays as it was,
    running, and the caller gets the exception: the call itself raises
    [OperationCancelled]; it raises something outside [Exception] that is no
    [CancelledError]; or it returns, but its summary or the decoding of the
    progress on record raises. *)
Theorem call_outcome_recorded t id rq sub result now m r a :
  operation (mg_store m) id = Some r → op_status r = OperationState_value a → is_terminal a = false → a ≠ QUEUED →
  let m' := run_called t id rq sub result now m in
  match result with
  | Ok v => match success_values id rq v now m with
      | Ok (summary, progress) =>
        ∃ row, reported t id rq sub m m' row (Ok (row, v)) ∧ row_identity row = row_identity r
          ∧ op_status row = "succeeded"%string ∧ op_result_json row = Some (json_dumps (_safe_value summary))
          ∧ op_progress_json row = Some (json_dumps progress) ∧ op_finished_ns row = Some now
      | Err e => unreported t id rq sub m m' e
      end
  | Err e => match verdict (op_action r) e with
      | Some (target, error) =>
        ∃ row, reported t id rq sub m m' row (Err e) ∧ row_identity row = row_identity r
          ∧ op_status row = OperationState_value target ∧ op_error row = Some error
          ∧ op_result_json row = op_result_json r ∧ op_finished_ns row = Some now
      | None => unreported t id rq sub m m' e
      end
  end.
Proof.
  intros Hr Ha Hterm Hq m'. assert (Hstep : ∀ target, op_step a target) by (intros; by apply op_step_active).
  unfold m', run_called. destruct result as [v|e].
  - unfold success_values.
    replace (match rq_summary rq with Some f => f v | None => Ok v end) with (default Ok (rq_summary rq) v)
      by (by destruct (rq_summary rq)).
    destruct (default Ok (rq_summary rq) v) as [summary|e]; cbn [mbind res_bind]; [| apply execute_end_unreported].
    destruct (final_progress id now m) as [progress|e]; cbn [mbind res_bind]; [| apply execute_end_unreported].
    exists (transition_row SUCCEEDED [SetResult (_safe_value summary); SetProgress progress; SetFinished now] r).
    split; [by apply (run_final_reported t id rq sub SUCCEEDED _ (λ row, Ok (row, v)) m r a) |].
    split; [apply change_operations_identity | done].
  - rewrite (failure_verdict id e m r Hr). destruct (verdict (op_action r) e) as [[target error]|]; cbn [option_map fst snd];
      [| apply execute_end_unreported].
    exists (transition_row target [SetError (Some error); SetFinished now] r).
    split; [by apply (run_final_reported t id rq sub target _ (λ _, Err e) m r a) |].
    split; [apply change_operations_identity | done].
Qed.
