(* ===== verification/OperationsExamples.v ===== *)
(** * A run of the operation manager

    Two operations on one device: the second waits for the lock while the first
    calls the device, and is woken when the first has returned. *)
From S2P Require Import Prelude Text Value Json OperationIdentity StateMachine Store Observability Security Lock.
From S2P Require Import Operations OperationsProps OperationsExclusion OperationsOutcome.

Definition example_rq : request :=
  Request "d1" (unrestricted "developer" "Developer") "files.write" (ODict [(KStr "n", OInt 3)]) true None.
Definition next (t : nat) (now : Z) : label := Resume t (Ok ONone) now.

(** Operation 1 is calling the device, operation 2 waits. *)
Definition example_middle : list label :=
  [CallExecute 1 (Some "op1"%string) "u1" example_rq; next 1 10; next 1 11;
   CallExecute 2 (Some "op2"%string) "u2" example_rq; next 2 12; next 2 13; next 1 14].
(** Operation 1 has returned. *)
Definition example_end : list label := example_middle ++ [Resume 1 (Ok (OInt 7)) 15; next 1 16].

Definition example_init : manager := OperationManager_init GatewayStore_init MetricsRegistry_init.
Definition example_at (ls : list label) : manager := default example_init (run_steps ls example_init).

Lemma run_at ls : bool_decide (is_Some (run_steps ls example_init)) = true → run_steps ls example_init = Some (example_at ls).
Proof. intros [m H]%bool_decide_eq_true. unfold example_at. by rewrite H. Qed.
Lemma example_middle_run : run_steps example_middle example_init = Some (example_at example_middle).
Proof. apply run_at. vm_compute. reflexivity. Qed.
Lemma example_end_run : run_steps example_end example_init = Some (example_at example_end).
Proof. apply run_at. vm_compute. reflexivity. Qed.

(** No maintenance takes part, so every step is disciplined. *)
Lemma example_middle_disciplined d : disciplined_run d example_middle example_init.
Proof. apply unnamed_disciplined. cbn. by intros ?%not_elem_of_nil. Qed.

Definition row_of (id : string) (m : manager) : operation_row :=
  default (operation_of "" example_rq "" 0 0) (operation (mg_store m) id).
Definition task_of (t : nat) (m : manager) : coroutine := default (CancelDone (Ok 0)) (mg_tasks m !! t).

Lemma operation_record_frozen_witness :
  let m := example_at example_middle in let m' := example_at example_end in
  run_steps [Resume 1 (Ok (OInt 7)) 15; next 1 16] m = Some m'
  ∧ operation (mg_store m) "op1" = Some (row_of "op1" m)
  ∧ ∃ r', operation (mg_store m') "op1" = Some r' ∧ row_identity r' = row_identity (row_of "op1" m).
Proof.
  intros m m'.
  assert (Hrun : run_steps [Resume 1 (Ok (OInt 7)) 15; next 1 16] m = Some m') by (vm_compute; reflexivity).
  assert (Hrow : operation (mg_store m) "op1" = Some (row_of "op1" m)) by (vm_compute; reflexivity).
  split; [exact Hrun |]. split; [exact Hrow |].
  destruct (operation_record_frozen _ m m' "op1" _ Hrun Hrow) as (r' & H1 & H2 & _). exists r'. split; [exact H1 | exact H2].
Defined.

Lemma device_exclusive_witness :
  run_steps example_middle example_init = Some (example_at example_middle)
  ∧ hold_of (task_of 1 (example_at example_middle)) = Some "d1"%string
  ∧ maintenance_state "d1" (example_at example_middle) ≠ Some "active"%string.
Proof.
  split; [exact example_middle_run |].
  assert (Ht : mg_tasks (example_at example_middle) !! 1%nat = Some (task_of 1 (example_at example_middle))) by (vm_compute; reflexivity).
  assert (Hh : hold_of (task_of 1 (example_at example_middle)) = Some "d1"%string) by (vm_compute; reflexivity).
  split; [exact Hh |].
  exact (proj2 (proj1 (device_exclusive _ _ _ _ example_middle_run) "d1"%string (example_middle_disciplined _)) _ _ Ht Hh).
Defined.


Lemma call_once_witness :
  let m := example_at example_end in
  run_steps example_end example_init = Some m ∧ NoDup (mg_calls m) ∧ op_status (row_of "op1" m) = "succeeded"%string.
Proof.
  intros m. split; [exact example_end_run |].
  destruct (call_once _ _ _ _ example_end_run) as (H1 & _ & H2). split; [exact H1 |].
  assert (Ht : mg_tasks m !! 1%nat
    = Some (Execute "op1" example_rq false (Done (Ok (row_of "op1" m, OInt 7, true))))) by (vm_compute; reflexivity).
  exact (proj1 (proj2 (H2 _ _ _ _ _ _ Ht))).
Defined.

Lemma call_outcome_recorded_witness :
  let m := example_at example_middle in
  op_status (row_of "op1" m) = "running"%string
  ∧ ∃ row, reported 1 "op1" example_rq false m (run_called 1 "op1" example_rq false (raise TimeoutError "") 20 m) row
      (raise TimeoutError "") ∧ op_status row = "outcome_unknown"%string.
Proof.
  intros m. assert (Hs : op_status (row_of "op1" m) = OperationState_value RUNNING) by (vm_compute; reflexivity).
  assert (Hrow : operation (mg_store m) "op1" = Some (row_of "op1" m)) by (vm_compute; reflexivity).
  assert (Hq : RUNNING ≠ QUEUED) by discriminate.
  split; [exact Hs |].
  destruct (call_outcome_recorded 1 "op1" example_rq false (raise TimeoutError "") 20 m _ RUNNING Hrow Hs eq_refl Hq)
    as (row & H1 & _ & H2 & _). exists row. split; [exact H1 | exact H2].
Defined.

(** ** What the discipline of the callers prevents *)

(** A release of a maintenance that is not active frees the lock of a running
    operation: the next one starts beside it. *)
Lemma undisciplined_release_overlaps :
  let m := example_at (example_middle ++ [ReleaseMaintenance "d1"; next 2 17; next 2 18]) in
  hold_of (task_of 1 m) = Some "d1"%string ∧ hold_of (task_of 2 m) = Some "d1"%string
  ∧ mg_calls m = ["op1"; "op2"]%string.
Proof. vm_compute. split_and!; reflexivity. Qed.

(** If the sink fails for the new row, the operation ends, but stays queued in
    the store and in the report of the queue. *)
Lemma sink_failure_stays_queued :
  let m := example_at [CallExecute 1 (Some "op1"%string) "u1" example_rq; next 1 10; Resume 1 (raise OSError "full") 11] in
  task_of 1 m = Execute "op1" example_rq false (Done (raise OSError "full"))
  ∧ op_status (row_of "op1" m) = "queued"%string ∧ qr_queued (queue_state "d1" m) = ["op1"%string].
Proof. vm_compute. split_and!; reflexivity. Qed.
