(* ===== verification/RequestIdentity.v ===== *)
(** * The identity of a request determines what it asks of a device
      ([gateway.py], [file_routes.py], [operation_identity.py])

    An operation id that is used again for a request with the same fingerprint
    returns the first operation instead of calling the device.  That is right
    because two submissions with the same fingerprint ask for the same: the
    identity that each handler submits binds everything that goes into the call
    of the device, JSON up to the order of keys and binary data up to length and
    SHA-256. *)
From S2P Require Import Prelude Text Value Sha256 OperationIdentity Firmware Store Security SystemUpdate Runtime Workflow.
From S2P Require Import SystemUpdateWorkflow Operations Http HttpState HttpDevice FileRoutes Submissions.

(** ** Fields of dictionaries that are the same *)

Definition same_json (a b : pyval) : Prop := same_value (obj_of a) (obj_of b).

Lemma obj_of_dict d : obj_of (PDict d) = ODict (named (map (λ kv, (fst kv, obj_of (snd kv))) d)).
Proof. cbn [obj_of]. unfold named. by rewrite map_map. Qed.
Lemma lookup_obj k (d : dict) : dict_lookup k (map (λ kv, (fst kv, obj_of (snd kv))) d) = option_map obj_of (dict_lookup k d).
Proof. induction d as [|[j v] d IH]; [done |]. simpl. by destruct (String.eqb j k). Qed.
Lemma named_lookup {A} k (w : A) d : NoDup (keys d) → (KStr k, w) ∈ named d → dict_lookup k d = Some w.
Proof. intros Hd Hin. apply named_elem in Hin. by apply dict_lookup_in. Qed.

Lemma same_named d e k v : same_value (ODict (named d)) (ODict (named e)) → NoDup (keys e) →
  dict_lookup k d = Some v → ∃ w, dict_lookup k e = Some w ∧ same_value v w.
Proof.
  intros [_ Hall]%same_dict_inv He Hk. apply dict_lookup_Some_in, named_elem in Hk.
  rewrite Forall_forall in Hall. destruct (Hall _ Hk) as (w & Hw & Hvw). exists w.
  split; [by apply named_lookup | exact Hvw].
Qed.
Lemma same_field p q k v : same_json (PDict p) (PDict q) → NoDup (keys q) → dict_lookup k p = Some v →
  ∃ w, dict_lookup k q = Some w ∧ same_json v w.
Proof.
  unfold same_json. rewrite !obj_of_dict. intros Hs Hq Hk.
  destruct (same_named _ _ k (obj_of v) Hs) as (w & Hw & Hvw).
  - unfold keys in *. by rewrite map_map.
  - by rewrite lookup_obj, Hk.
  - rewrite lookup_obj in Hw. destruct (dict_lookup k q) as [x|]; [| done]. injection Hw as <-. by exists x.
Qed.

Lemma same_str s w : same_json (PStr s) w → w = PStr s.
Proof.
  unfold same_json. destruct w; cbn [obj_of]; inversion 1; subst; try done;
    match goal with H : elements _ = Some _ |- _ => done end.
Qed.
Lemma same_int z w : same_json (PInt z) w → w = PInt z.
Proof.
  unfold same_json. destruct w; cbn [obj_of]; inversion 1; subst; try done;
    match goal with H : elements _ = Some _ |- _ => done end.
Qed.
Lemma same_bool b w : same_json (PBool b) w → w = PBool b.
Proof.
  unfold same_json. destruct w; cbn [obj_of]; inversion 1; subst; try done;
    match goal with H : elements _ = Some _ |- _ => done end.
Qed.
Lemma same_opt s t : same_json (opt_str s) (opt_str t) → s = t.
Proof.
  destruct s as [s|]; [by intros Hs%same_str; destruct t as [t|]; [injection Hs as -> |] |].
  destruct t as [t|]; [| done]. unfold same_json. cbn. inversion 1; subst.
  match goal with H : elements _ = Some _ |- _ => done end.
Qed.

(** ** Calls that ask for the same *)

(** Equal length and digest. *)
Definition same_data (a b : bytes) : Prop := zlen a = zlen b ∧ sha256_hex a = sha256_hex b.

Section same_call.
Context (load_bundle : bytes → res SystemUpdateBundle).

Inductive same_call : device_call → device_call → Prop :=
| same_rpc d service_id method_id deadline p q : same_data p q →
    same_call (CallRpc d service_id method_id p deadline) (CallRpc d service_id method_id q deadline)
| same_job d job_id cancel : same_call (CallJob d job_id cancel) (CallJob d job_id cancel)
| same_restart d delay id : same_call (CallRestart d delay id) (CallRestart d delay id)
| same_recovery d : same_call (CallEnterRecovery d) (CallEnterRecovery d)
| same_screenshot d p q : same_json (PDict p) (PDict q) → same_call (CallScreenshot d p) (CallScreenshot d q)
| same_mirror_start d channel fps p q : same_json p q →
    same_call (CallMirrorStart d channel p fps) (CallMirrorStart d channel q fps)
| same_mirror_stop d channel name : same_call (CallMirrorStop d channel name) (CallMirrorStop d channel name)
| same_input d p q : same_json (PDict p) (PDict q) → same_call (CallInput d p) (CallInput d q)
| same_audio d p q content_type : same_data p q → same_call (CallAudio d p content_type) (CallAudio d q content_type)
| same_ota d p q metadata id execution_mode validation_mode compat compat' :
    same_data p q → same_json (PDict compat) (PDict compat') →
    same_call (CallOta d p metadata id execution_mode validation_mode compat)
      (CallOta d q metadata id execution_mode validation_mode compat')
| same_update d archive archive' bundle bundle' id compat compat' :
    load_bundle archive = Ok bundle → load_bundle archive' = Ok bundle' → sha256_hex archive = sha256_hex archive' →
    same_json (PDict compat) (PDict compat') →
    same_call (CallSystemUpdate d bundle id compat) (CallSystemUpdate d bundle' id compat')
| same_upload d volume path p q overwrite if_match id : same_data p q →
    same_call (CallFileUpload d volume path p overwrite if_match id) (CallFileUpload d volume path q overwrite if_match id)
| same_mkdir d volume path : same_call (CallFileMkdir d volume path) (CallFileMkdir d volume path)
| same_delete d volume path : same_call (CallFileDelete d volume path) (CallFileDelete d volume path)
| same_rename d volume source destination :
    same_call (CallFileRename d volume source destination) (CallFileRename d volume source destination).

(** The field [k] of the parameters [H] relates, read on both sides. *)
Local Ltac field H Hq k E :=
  let w := fresh "w" in let Hw := fresh "Hw" in
  destruct (same_field _ _ k _ H Hq eq_refl) as (w & Hw & E); cbn in Hw; injection Hw as <-.
Local Ltac text H Hq k := let E := fresh in field H Hq k E; apply same_str in E; injection E; intros; subst; clear E.
Local Ltac number H Hq k := let E := fresh in field H Hq k E; apply same_int in E; injection E; intros; subst; clear E.

Lemma same_firmware p q : same_json (PDict (firmware_as_dict p)) (PDict (firmware_as_dict q)) → p = q.
Proof.
  intros Hs. assert (Hq : NoDup (keys (firmware_as_dict q))) by (cbn; by_decide).
  destruct p as [sha size chip project version elf], q as [sha' size' chip' project' version' elf'].
  unfold firmware_as_dict in *. cbn [fw_sha256 fw_size fw_chip_id fw_project_name fw_version fw_elf_sha256] in *.
  text Hs Hq "sha256"%string. number Hs Hq "size"%string. number Hs Hq "chip_id"%string.
  text Hs Hq "project_name"%string. text Hs Hq "version"%string. text Hs Hq "elf_sha256"%string. done.
Qed.
Local Ltac flag H Hq k := let E := fresh in field H Hq k E; apply same_bool in E; injection E; intros; subst; clear E.
Local Ltac option H Hq k := let E := fresh in field H Hq k E; apply same_opt in E; subst.
Local Ltac request H Hq :=
  number H Hq "service_id"%string; number H Hq "method_id"%string; number H Hq "deadline_ms"%string;
  number H Hq "request_bytes"%string; text H Hq "request_sha256"%string; by repeat constructor.

(** The parameters an action is submitted under determine the call. *)
Lemma identity_determines_call a p q c c' : identified load_bundle a p c → identified load_bundle a q c' →
  same_json (PDict p) (PDict q) → call_device c = call_device c' →
  (∀ i i', call_operation c = Some i → call_operation c' = Some i' → i = i') → same_call c c'.
Proof.
  intros Hp Hq Hs Hd Hop. remember a as a' eqn:Ha in Hq.
  assert (Hk : NoDup (keys q)) by (destruct Hq; cbn; by_decide).
  destruct Hp, Hq; try (cbv [String.append] in Ha; discriminate Ha); clear Ha; cbn [call_device] in Hd; subst;
    cbn [call_operation] in Hop; try pose proof (Hop _ _ eq_refl eq_refl) as Hid; clear Hop; subst.
  - request Hs Hk.
  - request Hs Hk.
  - request Hs Hk.
  - request Hs Hk.
  - request Hs Hk.
  - number Hs Hk "job_id"%string. constructor.
  - number Hs Hk "job_id"%string. constructor.
  - number Hs Hk "delay_ms"%string. constructor.
  - constructor.
  - field Hs Hk "description"%string E. by constructor.
  - text Hs Hk "channel"%string. number Hs Hk "fps"%string. field Hs Hk "description"%string E.
    simplify_eq. by constructor.
  - text Hs Hk "channel"%string. simplify_eq. constructor.
  - field Hs Hk "event"%string E. by constructor.
  - number Hs Hk "bytes"%string. text Hs Hk "sha256"%string. text Hs Hk "content_type"%string. by repeat constructor.
  - field Hs Hk "image"%string E. apply same_firmware in E. subst. text Hs Hk "execution_mode"%string.
    text Hs Hk "validation_mode"%string. field Hs Hk "compatibility"%string E. apply same_ota; [| done].
    destruct (inspect_firmware_image_Ok _ _ H) as (_ & _ & _ & Hz & Hh & _).
    destruct (inspect_firmware_image_Ok _ _ H0) as (_ & _ & _ & Hz' & Hh' & _). split; congruence.
  - text Hs Hk "archive_sha256"%string. field Hs Hk "compatibility"%string E. by eapply same_update.
  - text Hs Hk "volume"%string. text Hs Hk "path"%string. number Hs Hk "size"%string. text Hs Hk "sha256"%string.
    flag Hs Hk "overwrite"%string. option Hs Hk "if_match"%string. by repeat constructor.
  - text Hs Hk "volume"%string. text Hs Hk "path"%string. constructor.
  - text Hs Hk "volume"%string. text Hs Hk "path"%string. constructor.
  - text Hs Hk "volume"%string. text Hs Hk "source"%string. text Hs Hk "destination"%string. constructor.
Qed.
End same_call.

(** ** Requests *)

(** The request that the operation manager is given for a submission. *)
Definition request_of (s : submission) : request :=
  Request (sb_device_id s) (sb_actor s) (sb_action s) (obj_of (PDict (sb_params s))) (sb_serialized s) None.
(** What is hashed for it. *)
Definition request_value (s : submission) : dict :=
  [("device_id", PStr (sb_device_id s)); ("actor_type", PStr (ac_kind (sb_actor s)));
   ("actor_name", PStr (ac_name (sb_actor s))); ("actor_scopes", PList (map PStr (sorted_names (ac_scopes (sb_actor s)))));
   ("action", PStr (sb_action s)); ("params", PDict (sb_params s))]%string.
Definition request_text (s : submission) : res string := canonical_text (obj_of (PDict (request_value s))).

Lemma request_fingerprint_text s fp : rq_fingerprint (request_of s) = Ok fp →
  ∃ t, request_text s = Ok t ∧ fp = ("sha256:v1:" ++ sha256_hex (str_encode t))%string.
Proof.
  intros Hf. unfold rq_fingerprint, _fingerprint, request_fingerprint in Hf. bind Hf as t Ht.
  exists t. split; [| by injection Hf as <-]. rewrite <- Ht. unfold request_text. f_equal.
  unfold request_value, request_of, identity, identity_keys.
  cbn [map fst snd obj_of dict_lookup rq_device_id rq_actor rq_action rq_params]. by rewrite map_map.
Qed.

Definition json_value_ok (d : dict) : Prop := obj_ok (obj_of (PDict d)).
Lemma request_value_ok s : json_value_ok (sb_params s) → json_value_ok (request_value s).
Proof.
  intros Hs. unfold json_value_ok, request_value. cbn [obj_of map fst snd]. apply OperationIdentity.ok_dict; [cbn; by_decide |].
  repeat apply Forall_cons_2; cbn [snd]; [apply OperationIdentity.ok_str | apply OperationIdentity.ok_str | apply OperationIdentity.ok_str
    | apply OperationIdentity.ok_list | apply OperationIdentity.ok_str
    | exact Hs | constructor].
  apply Forall_forall. intros x Hx. rewrite map_map in Hx. apply list_elem_of_fmap in Hx as (y & -> & _). constructor.
Qed.

Lemma same_strs l m : same_json (PList (map PStr l)) (PList (map PStr m)) → l = m.
Proof.
  unfold same_json. cbn [obj_of]. rewrite !map_map. cbn [obj_of]. inversion 1; subst. simplify_eq/=.
  match goal with H : Forall2 _ _ _ |- _ => rename H into Hl end. clear -Hl.
  revert m Hl. induction l as [|x l IH]; intros [|y m] Hl; try by inversion Hl.
  cbn [map] in Hl. apply Forall2_cons in Hl as [Hx Hl]. f_equal; [| by apply IH].
  inversion Hx; subst; [done |]. match goal with H : elements _ = Some _ |- _ => discriminate H end.
Qed.

Lemma same_request s s' : same_json (PDict (request_value s)) (PDict (request_value s')) →
  sb_device_id s = sb_device_id s'
  ∧ (ac_kind (sb_actor s) = ac_kind (sb_actor s') ∧ ac_name (sb_actor s) = ac_name (sb_actor s')
     ∧ ac_scopes (sb_actor s) ≡ₚ ac_scopes (sb_actor s'))
  ∧ sb_action s = sb_action s' ∧ same_json (PDict (sb_params s)) (PDict (sb_params s')).
Proof.
  intros Hs. assert (Hk : NoDup (keys (request_value s'))) by (cbn; by_decide).
  assert (Hfield : ∀ k v, dict_lookup k (request_value s) = Some v →
    ∃ w, dict_lookup k (request_value s') = Some w ∧ same_json v w) by (intros; by eapply same_field).
  destruct (Hfield "device_id" _ eq_refl)%string as (? & [= <-] & [= Hd]%same_str).
  destruct (Hfield "actor_type" _ eq_refl)%string as (? & [= <-] & [= Hkind]%same_str).
  destruct (Hfield "actor_name" _ eq_refl)%string as (? & [= <-] & [= Hname]%same_str).
  destruct (Hfield "actor_scopes" _ eq_refl)%string as (? & [= <-] & Hscopes%same_strs).
  destruct (Hfield "action" _ eq_refl)%string as (? & [= <-] & [= Ha]%same_str).
  destruct (Hfield "params" _ eq_refl)%string as (? & [= <-] & Hp). split_and!; try done.
  by rewrite <- (sorted_names_perm (ac_scopes (sb_actor s))), Hscopes, sorted_names_perm.
Qed.

(** C15: an operation id is accepted again only for a request that asks the same
    of the same device, on behalf of the same actor.  Take two submissions as
    the handlers make them ([request_access] shows that every submission is of
    this kind), under the same operation id.  If the second passes the test
    against the fingerprint stored for the first, then the texts that were
    hashed are a collision of SHA-256, or device, actor and scopes are the same
    and so is the call: every field that the device is sent, JSON up to the
    order of keys, payloads and images up to length and digest, bundles by the
    digest of their archive. *)
Theorem request_identity load_bundle actor actor' s s' fp fp' :
  submission_ok load_bundle actor s → submission_ok load_bundle actor' s' →
  json_value_ok (sb_params s) → json_value_ok (sb_params s') →
  sb_operation_id s = sb_operation_id s' →
  rq_fingerprint (request_of s) = Ok fp → rq_fingerprint (request_of s') = Ok fp' →
  require_same_request (Some fp) fp' = Ok tt →
  (∃ t t', request_text s = Ok t ∧ request_text s' = Ok t' ∧ str_encode t ≠ str_encode t'
           ∧ sha256_hex (str_encode t) = sha256_hex (str_encode t'))
  ∨ (sb_device_id s = sb_device_id s'
     ∧ (ac_kind (sb_actor s) = ac_kind (sb_actor s') ∧ ac_name (sb_actor s) = ac_name (sb_actor s')
        ∧ ac_scopes (sb_actor s) ≡ₚ ac_scopes (sb_actor s'))
     ∧ same_call load_bundle (sb_call s) (sb_call s')).
Proof.
  intros Hs Hs' Hp Hp' Hid (t & Ht & ->)%request_fingerprint_text (t' & Ht' & ->)%request_fingerprint_text Hsame.
  unfold require_same_request, raise_if in Hsame. case_bool_decide as Heq; [| discriminate Hsame].
  apply (inj Some) in Heq.
  assert (Hdigest : sha256_hex (str_encode t) = sha256_hex (str_encode t')).
  { revert Heq. generalize (sha256_hex (str_encode t)) (sha256_hex (str_encode t')). intros a b.
    cbv [String.append]. intros E. by injection E. }
  clear Hsame Heq. destruct (decide (t = t')) as [<- | Hne]; [right | left].
  - assert (Hsame : same_json (PDict (request_value s)) (PDict (request_value s')))
      by (by apply (canonical_text_identifies _ _ t t (request_value_ok s Hp) (request_value_ok s' Hp') Ht Ht')).
    destruct (same_request s s' Hsame) as (Hd & Ha & Haction & Hparams). split; [done |]. split; [done |].
    destruct Hs as [_ Hdev Hi Ho _], Hs' as [_ Hdev' Hi' Ho' _]. rewrite <- Haction in Hi'.
    apply (identity_determines_call load_bundle (sb_action s) (sb_params s) (sb_params s') _ _ Hi Hi' Hparams);
      [congruence |]. intros i i' E%Ho E'%Ho'. congruence.
  - exists t, t'. split_and!; [done | done | by intros E%str_encode_inj | done].
Qed.

(** A screenshot is asked for twice, the second time with the keys of its
    description in the other order. *)
Definition example_screenshot (flip : bool) : submission :=
  let description := [("width", PInt 320); ("format", PStr "png")]%string in
  let description := if flip then rev description else description in
  Submission "d" local_actor "media.screenshot" [("description", PDict description); ("save", PBool false)]
    (CallScreenshot "d" description) (Some "id") true.
Lemma example_screenshot_ok load_bundle flip : submission_ok load_bundle (Some local_actor) (example_screenshot flip).
Proof. by destruct flip; split; try done; apply id_screenshot. Qed.
Lemma example_screenshot_json flip : json_value_ok (sb_params (example_screenshot flip)).
Proof.
  unfold json_value_ok. destruct flip; cbn; (apply OperationIdentity.ok_dict; [by_decide |]);
    (apply Forall_cons_2; [apply OperationIdentity.ok_dict; [by_decide | by repeat constructor] | by repeat constructor]).
Qed.
Definition example_fingerprint : res string := rq_fingerprint (request_of (example_screenshot false)).
Lemma example_fingerprints :
  is_ok example_fingerprint = true ∧ rq_fingerprint (request_of (example_screenshot true)) = example_fingerprint.
Proof. split; vm_compute; reflexivity. Qed.

Lemma request_identity_witness : ∃ fp,
  rq_fingerprint (request_of (example_screenshot false)) = Ok fp ∧ require_same_request (Some fp) fp = Ok tt
  ∧ ((∃ t t', request_text (example_screenshot false) = Ok t ∧ request_text (example_screenshot true) = Ok t'
              ∧ str_encode t ≠ str_encode t' ∧ sha256_hex (str_encode t) = sha256_hex (str_encode t'))
     ∨ ("d" = "d"%string
        ∧ (ac_kind local_actor = ac_kind local_actor ∧ ac_name local_actor = ac_name local_actor ∧ ac_scopes local_actor ≡ₚ ac_scopes local_actor)
        ∧ same_call (λ _, raise ValueError "") (sb_call (example_screenshot false)) (sb_call (example_screenshot true)))).
Proof.
  destruct example_fingerprints as [Hok Heq]. fold example_fingerprint.
  destruct example_fingerprint as [fp|e] eqn:Hfp; [| discriminate Hok].
  exists fp. split; [reflexivity |]. assert (Hr : require_same_request (Some fp) fp = Ok tt).
  { unfold require_same_request. by rewrite bool_decide_true. }
  split; [exact Hr |].
  exact (request_identity (λ _, raise ValueError "") (Some local_actor) (Some local_actor)
    (example_screenshot false) (example_screenshot true) fp fp (example_screenshot_ok _ false) (example_screenshot_ok _ true)
    (example_screenshot_json false) (example_screenshot_json true) eq_refl Hfp Heq Hr).
Defined.
